(* ===== verification/_CoqProject ===== *)
-Q . S2P
Kyronix.v
Prelude.v
Bits.v
Bytes.v
Words.v
Vma.v
Seccomp.v
Proc.v
Signal.v
Pipe.v
Heap.v
KString.v
Printf.v
ChaCha20.v
Ns.v
PidNs.v
Jail.v
Cred.v
RamFile.v
Vfs.v
VfsTree.v
VfsLookup.v
VfsSpec.v
VfsInv.v
VfsOps.v
Cpio.v
CpioEnc.v
CpioVfs.v
Fd.v
FdInv.v
FdOps.v
FdSafe.v
Eventfd.v
Bitfield.v
Lower.v
LLFree.v
Pmm.v
Vmm.v
VmmPte.v
VmmTables.v
MemInv.v
Shmem.v
VmmFork.v
SpaceFree.v
VmmSpaces.v
MemSys.v
Exec.v
Wx.v
MemSafe.v
ExecSafe.v
SysInv.v
MemSystem.v
SpaceLock.v
