(* ===== verification/Kyronix.v ===== *)
(** * Kyronix kernel: verification development

    Kyronix is a kernel for x86-64 with a Linux-like system call interface.  This
    library models its memory management, its processes, signals, pipes and
    namespaces, its file system and descriptors, its program loader and its
    access checks as Rocq functions, one for each C function, and proves what
    they guarantee.  Sources are named relative to [src/].

    ** The program and its models

    The kernel is one C program.  At the bottom, a frame allocator hands out
    physical pages, the page allocator counts references to them, and the
    address spaces map them; the heap and the string routines serve everything
    else.  System calls, faults and exits of processes change address spaces,
    descriptors and the tree of files.

    Shared parts:
    - [Prelude]: C integers as [Z] cut to their width ([u8], [u16], [u32],
      [u64]), arrays, maps, tactics and hints.
    - [Bits], [Bytes], [Words]: 64-bit masks, byte arrays with [memcpy], and the
      bytes of physical memory.

    Memory, from the bottom up:
    - [Bitfield], [Lower], [LLFree]: [kernel/mm/bitfield.c], [child.c],
      [lower.c], [tree.c], [trees.c], [local.c] and [llfree.c], the frame
      allocator.  Its state is [llfree_t]; the operations are [llfree_get],
      [llfree_put] and what they call.
    - [Pmm]: [kernel/mm/pmm.c], reference counted pages, over the class
      [FrameAllocator] of which [LLFree] is an instance.
    - [Heap]: [kernel/mm/heap.c], [kmalloc] and [kfree].
    - [Vma]: [kernel/mm/vma.c], the table of mappings of a space.
    - [Vmm], with [VmmPte], [VmmTables], [MemInv], [VmmFork], [SpaceFree] and
      [VmmSpaces]: [kernel/mm/vmm.c], the page tables in physical memory, user
      range checks, copy-on-write faults, fork and release of address spaces.
    - [SpaceLock]: the protocol of [vmm.c] between walks of user memory and
      changes of a space, as interleaved atomic steps.
    - [Shmem]: [kernel/mm/shmem.c], the files of [memfd_create].
    - [MemSys]: [kernel/syscall/mem.c], the user page fault of
      [kernel/arch/x86_64/idt.c], and what fork, clone and exit in
      [kernel/syscall/procctl.c] do with address spaces.
    - [Exec]: [kernel/exec/elf.c], the stack of a new program in
      [kernel/exec/process.c], and [sys_execve].
    - [Wx], [MemSafe], [ExecSafe], [SysInv], [MemSystem]: the invariants, and the
      system of all processes as the relation [step] with its reachable states.

    Processes and access control:
    - [Proc]: [kernel/proc/proc.h] and the scheduler of [kernel/proc/proc.c].
    - [Signal]: [kernel/proc/signal.c] and [kernel/syscall/sig.c].
    - [Pipe]: [kernel/fs/pipe.c], with its blocking calls interleaved.
    - [Ns], [PidNs]: the user and pid namespaces of [kernel/proc/ns.c].
    - [Jail]: [kernel/proc/jail.c] and [kernel/syscall/jailsys.c].
    - [Cred]: [kernel/syscall/cred.c], [sys_prctl], the credential part of
      [execve] and the permission checks of [vfs.c].
    - [Seccomp]: [kernel/security/seccomp.c], the filter interpreter and its
      validator.

    Files:
    - [RamFile]: the contents of a regular file in memory.
    - [Vfs]: [kernel/fs/vfs.c], nodes, directories with their hash index, path
      lookup, mounts as [kernel/syscall/mount.c] and [ns.c] resolve them, and
      the operations on names and attributes.  [VfsTree], [VfsLookup],
      [VfsSpec], [VfsInv] and [VfsOps] have the invariant, the specification on
      finite maps and the proofs.
    - [Cpio], [CpioEnc], [CpioVfs]: [kernel/fs/cpio.c], the loader of the initial
      archive, over the class [FsOk] of which the virtual file system is an
      instance; the encoder of the round trip is in [CpioEnc].
    - [Fd], [FdInv], [FdOps], [FdSafe]: the descriptor tables of [vfs.c], with
      [kernel/fs/fdctl.c], [fdpipe.c], the constructors of [eventfd.c] and
      [signalfd.c], and the tables of fork, clone, execve and exit.
    - [Eventfd]: the event counters, timers and signal descriptors of
      [kernel/fs/eventfd.c] and [signalfd.c].

    Library code:
    - [KString], [Printf]: [kernel/lib/string.c] and [kernel/lib/printf.c].
    - [ChaCha20]: [kernel/crypto/chacha20.c], cipher and random generator.

    ** How the code is modelled

    Pointers are addresses, slot numbers or keys of a map in which a freed object
    has no entry.  Functions with state take and return it, in [Vfs] and [Fd]
    through a small monad.  Errors are the negative numbers the code returns.
    [None] stands for what must not happen: an access outside of an array, a
    null or freed pointer that is followed, or a loop that ran out of fuel.  The
    theorems show that functions return [Some].  Code outside of the kernel,
    results of the allocator where any outcome is possible, and hooks of parts
    that are not modelled are arguments.

    Atomic read-modify-write instructions are single steps and a section under a
    lock is one step.  [Pipe], [Eventfd] and [SpaceLock] interleave the steps of
    different processes; [Fd] interleaves whole calls, with the files that a call
    has borrowed held while others run; everywhere else one CPU runs at a time.
    The kernel is built with [NDEBUG], so an assertion does nothing.

    ** What is proved

    - Memory ([MemSystem]): after any sequence of system calls, faults, stores,
      forks, threads, executions and exits every mapped page is a frame in use,
      with a reference for each mapping, and no page table; no page is writable
      and executable; the calls return; [execve] stays inside the image for
      every image.  [VmmSpaces] has the functional theorems on mapping, user
      range checks, copy-on-write and fork, [LLFree] and [Pmm] those on the
      allocators, [Heap] that blocks do not overlap, [Vma] that the table is the
      expected map, [Shmem] that a shared memory file is a list of bytes.
    - Files: every operation on the tree refines a specification on finite maps,
      returns, loses no reference and changes nothing when it fails ([VfsOps]);
      lookup cannot leave the root of a namespace ([VfsLookup]); contents behave
      like arrays of bytes ([RamFile]).  Loading any archive is safe, and loading
      a written one makes its entries ([CpioVfs]).  Descriptors never lead to a
      freed file, nothing is leaked, and access modes never change ([FdSafe]).
    - Processes: a pipe is a FIFO queue under every interleaving and strands no
      reader ([Pipe]), an event counter loses nothing ([Eventfd]), SIGKILL
      cannot be blocked or caught and a signal frame restores the program
      ([Signal]), the scheduler picks the next ready process in turn ([Proc]).
    - Access control: unprivileged processes gain no id and no capability
      ([Cred]), id maps and pid translations are bijective ([Ns], [PidNs]), a
      jailed path stays in the jail ([Jail]), a filtered system call proceeds
      only if all filters agree, and filters terminate ([Seccomp]).
    - ChaCha20 is the block function of RFC 8439 ([ChaCha20]).

    Each theorem with hypotheses is followed by a witness that applies it to a
    concrete state.  Some lemmas show states the code reaches that it is not
    meant to reach; they are marked where they stand.

    ** Fuel

    Loops that are not structural carry fuel, and the fuel is enough because each
    round makes progress: the pages of the range in [Vmm] and [MemSys], the
    instructions of a filter in [Seccomp], 64 bits of a mask in [Bits], the bytes
    of a path in [Vfs] and [Jail] (lookups nest at most 33 deep, as in the
    code), the bytes of an archive in [Cpio] and of an id map in [Ns], three
    rounds of a copy in [Pipe], the slots of the table and one more in [Vma].
    The theorems state that the results are [Some].

    ** Assumptions

    - [MemSystem]: faults are at user addresses, no process maps device memory,
      and no phantom clone is made.  [SpaceLock] is about spaces other than the
      kernel's.
    - [VfsOps]: [op_ok] asks that a new name has less than 256 bytes, that a
      rename is not onto the same node or directly into itself, that what is
      removed or moved is not the root of a tree, and that a file to be linked
      was not truncated to nothing; lemmas show what happens otherwise.  The
      hook of [/proc] creates no nodes.
    - [CpioVfs]: the paths of the archive have less than 256 bytes.
    - [Fd]: reference counts are unbounded numbers; [counters_fit] shows that with
      64 processes they fit their 32 bits.
    - [Heap] and [KString]: memory does not wrap around the address space.

    ** Not modelled

    - Drivers, interrupt and CPU set-up, assembly, the boot code: they program
      hardware whose behaviour is not in the sources.
    - The network stack: lwIP is third-party code and the rest is glue to it.
      Unix sockets and the passing of descriptors over them are left out with
      it.
    - File systems on disk, the block layer and partitions: formats on top of the
      drivers.  [procfs] and [devfs] print the state of other parts.
    - Reading, writing and polling through a descriptor other than the contents
      of files, pipes, event counters and timers, opening by path, [stat] and
      directory listings, [inotify], [epoll]; the system calls that add and remove mounts;
      the phantom sandbox.
    - Futexes, clocks, System V shared memory and [ptrace].
    - The module loader, profiler and leak detector; user programs and build
      files. *)
