(* ===== verification/Prelude.v ===== *)
(** * Prelude: machine integers, arrays and shared automation. *)

From Stdlib Require Export ZArith Lia Bool.
From stdpp Require Export base numbers list gmap.

#[global] Open Scope Z_scope.

(** ** Machine integers

    A [w]-bit unsigned integer is a [Z] in [0, 2^w); every C conversion to an
    unsigned type is the reduction below. *)

Definition u8 (z : Z) : Z := z `mod` 2 ^ 8.
Definition u16 (z : Z) : Z := z `mod` 2 ^ 16.
Definition u32 (z : Z) : Z := z `mod` 2 ^ 32.
Definition u64 (z : Z) : Z := z `mod` 2 ^ 64.

Definition U32_MAX : Z := 2 ^ 32 - 1.
Definition U64_MAX : Z := 2 ^ 64 - 1.

(** Two's-complement reading of a 32-bit and a 64-bit pattern. *)
Definition s32 (z : Z) : Z := if u32 z <? 2 ^ 31 then u32 z else u32 z - 2 ^ 32.
Definition s64 (z : Z) : Z := if u64 z <? 2 ^ 63 then u64 z else u64 z - 2 ^ 64.

Definition is_u8 (z : Z) : Prop := 0 <= z < 2 ^ 8.
Definition is_u16 (z : Z) : Prop := 0 <= z < 2 ^ 16.
Definition is_u32 (z : Z) : Prop := 0 <= z < 2 ^ 32.
Definition is_u64 (z : Z) : Prop := 0 <= z < 2 ^ 64.

(** A C expression used as a truth value. *)
Definition ztrue (z : Z) : bool := negb (z =? 0).

(** The linear scan [for (i = 0; i < N; i++) if (P(a[i])) return i;]. *)
Fixpoint find_index {A} (P : A -> bool) (l : list A) : option nat :=
  match l with
  | [] => None
  | x :: l' => if P x then Some 0%nat else S <$> find_index P l'
  end.

(** The counting loop [for (i = 0; i < N; i++) if (P(a[i])) n++;]. *)
Fixpoint count_if {A} (P : A -> bool) (l : list A) : nat :=
  match l with
  | [] => 0%nat
  | x :: l' => ((if P x then 1 else 0) + count_if P l')%nat
  end.

(** Array read with the default that stands for zeroed memory. *)
Definition aget {A} (d : A) (l : list A) (i : nat) : A := default d (l !! i).

Create HintDb kyro discriminated.

(** ** Automation *)

Ltac dest_bool :=
  repeat match goal with
  | H : andb _ _ = true |- _ => apply andb_true_iff in H; destruct H
  | H : orb _ _ = false |- _ => apply orb_false_iff in H; destruct H
  | H : andb _ _ = false |- _ => apply andb_false_iff in H; destruct H
  | H : orb _ _ = true |- _ => apply orb_true_iff in H; destruct H
  | H : negb _ = true |- _ => apply negb_true_iff in H
  | H : negb _ = false |- _ => apply negb_false_iff in H
  | H : (_ <? _) = true |- _ => apply Z.ltb_lt in H
  | H : (_ <? _) = false |- _ => apply Z.ltb_ge in H
  | H : (_ <=? _) = true |- _ => apply Z.leb_le in H
  | H : (_ <=? _) = false |- _ => apply Z.leb_gt in H
  | H : (_ =? _) = true |- _ => apply Z.eqb_eq in H
  | H : (_ =? _) = false |- _ => apply Z.eqb_neq in H
  end.

(** Split one [if] of the goal or the hypotheses, keeping the test as it is. *)
Ltac case_raw :=
  match goal with
  | |- context [if ?b then _ else _] =>
      lazymatch type of b with bool => destruct b eqn:? end
  | H : context [if ?b then _ else _] |- _ =>
      lazymatch type of b with bool => destruct b eqn:? end
  end.

(** The same, turning the test into facts. *)
Ltac case_if := case_raw; dest_bool.

Ltac bsolve := repeat case_if; dest_bool; simplify_eq/=; try lia; try done; try congruence.

(** ** Machine integer lemmas *)

Lemma u8_range z : is_u8 (u8 z).
Proof. apply Z.mod_pos_bound. lia. Qed.

Lemma u16_range z : is_u16 (u16 z).
Proof. apply Z.mod_pos_bound. lia. Qed.

Lemma u32_range z : is_u32 (u32 z).
Proof. apply Z.mod_pos_bound. lia. Qed.

Lemma u64_range z : is_u64 (u64 z).
Proof. apply Z.mod_pos_bound. lia. Qed.

Lemma u8_small z : is_u8 z -> u8 z = z.
Proof. apply Z.mod_small. Qed.

Lemma u16_small z : is_u16 z -> u16 z = z.
Proof. apply Z.mod_small. Qed.

Lemma u32_small z : is_u32 z -> u32 z = z.
Proof. apply Z.mod_small. Qed.

Lemma u64_small z : is_u64 z -> u64 z = z.
Proof. apply Z.mod_small. Qed.

#[export] Hint Resolve u8_range u16_range u32_range u64_range : kyro.

(** A 64-bit sum either fits or wraps exactly once. *)
Lemma u64_add_cases a b :
  is_u64 a -> is_u64 b ->
  (u64 (a + b) = a + b /\ a + b < 2 ^ 64) \/
  (u64 (a + b) = a + b - 2 ^ 64 /\ 2 ^ 64 <= a + b).
Proof.
  unfold is_u64, u64. intros Ha Hb.
  destruct (Z.lt_ge_cases (a + b) (2 ^ 64)).
  - left. split; [apply Z.mod_small|]; lia.
  - right. split; [|lia].
    replace (a + b) with (a + b - 2 ^ 64 + 1 * 2 ^ 64) at 1 by lia.
    rewrite Z.mod_add by lia. apply Z.mod_small. lia.
Qed.

Lemma u32_add_cases a b :
  is_u32 a -> is_u32 b ->
  (u32 (a + b) = a + b /\ a + b < 2 ^ 32) \/
  (u32 (a + b) = a + b - 2 ^ 32 /\ 2 ^ 32 <= a + b).
Proof.
  unfold is_u32, u32. intros Ha Hb.
  destruct (Z.lt_ge_cases (a + b) (2 ^ 32)).
  - left. split; [apply Z.mod_small|]; lia.
  - right. split; [|lia].
    replace (a + b) with (a + b - 2 ^ 32 + 1 * 2 ^ 32) at 1 by lia.
    rewrite Z.mod_add by lia. apply Z.mod_small. lia.
Qed.

(** ** Array lemmas *)

Section arrays.
Context {A : Type}.
Implicit Types (P : A -> bool) (l : list A).

Lemma find_index_Some P l i :
  find_index P l = Some i ->
  exists x, l !! i = Some x /\ P x = true.
Proof.
  revert i. induction l as [|y l IH]; intros i; simpl; [done|].
  destruct (P y) eqn:Hy; intros; simplify_eq/=; [by exists y|].
  destruct (find_index P l) as [k|]; simplify_eq/=.
  destruct (IH k) as (x & ? & ?); [done|]. by exists x.
Qed.

Lemma find_index_lt P l i : find_index P l = Some i -> (i < length l)%nat.
Proof. intros (x & Hx & _)%find_index_Some. by eapply lookup_lt_Some. Qed.

Lemma find_index_None P l :
  find_index P l = None <-> (forall i x, l !! i = Some x -> P x = false).
Proof.
  induction l as [|y l IH]; simpl; [done|].
  destruct (P y) eqn:Hy; split; intros H; try done.
  - specialize (H 0%nat y eq_refl). congruence.
  - destruct (find_index P l) eqn:?; [done|].
    intros [|i] x ?; simplify_eq/=; [done|]. by eapply (proj1 IH).
  - rewrite (proj2 IH); [done|]. intros i x ?. by apply (H (S i)).
Qed.

Lemma find_index_first P l i j x :
  find_index P l = Some i -> l !! j = Some x -> P x = true -> (i <= j)%nat.
Proof.
  revert i j. induction l as [|y l IH]; intros i j; simpl; [done|].
  destruct (P y) eqn:Hy; intros; simplify_eq/=; [lia|].
  destruct (find_index P l) as [k|] eqn:Hk; simplify_eq/=.
  destruct j as [|j]; simplify_eq/=; [congruence|].
  enough (k <= j)%nat by lia. by eapply IH.
Qed.

Lemma find_index_is_Some P l i x :
  l !! i = Some x -> P x = true -> is_Some (find_index P l).
Proof.
  intros Hi Hp. destruct (find_index P l) eqn:Hf; [by eexists|].
  pose proof (proj1 (find_index_None P l) Hf i x Hi). congruence.
Qed.

Lemma count_if_le P l : (count_if P l <= length l)%nat.
Proof. induction l as [|x l IH]; simpl; [lia|]. destruct (P x); lia. Qed.

Lemma count_if_insert P l i x y :
  l !! i = Some x ->
  (count_if P (<[i:=y]> l) + (if P x then 1 else 0) =
   count_if P l + (if P y then 1 else 0))%nat.
Proof.
  revert i. induction l as [|z l IH]; intros [|i]; simpl; intros; simplify_eq/=; [lia|].
  specialize (IH i ltac:(done)). lia.
Qed.

Lemma count_if_mono P Q l :
  (forall x, x ∈ l -> P x = true -> Q x = true) -> (count_if P l <= count_if Q l)%nat.
Proof.
  induction l as [|x l IH]; simpl; intros H; [lia|].
  assert (count_if P l <= count_if Q l)%nat by (apply IH; set_solver).
  destruct (P x) eqn:Hx; [rewrite (H x) by (set_solver + || done)|]; destruct (Q x); lia.
Qed.

Lemma count_if_lt P Q l i x :
  (forall y, P y = true -> Q y = true) ->
  l !! i = Some x -> P x = false -> Q x = true -> (count_if P l < count_if Q l)%nat.
Proof.
  intros H. revert i. induction l as [|y l IH]; intros [|i]; simpl; intros Hi HP HQ; simplify_eq/=.
  - rewrite HP, HQ. pose proof (count_if_mono P Q l ltac:(auto)). lia.
  - specialize (IH i Hi HP HQ). destruct (P y) eqn:Hy; [rewrite (H _ Hy)|]; destruct (Q y); lia.
Qed.

Lemma count_if_pos P l i x : l !! i = Some x -> P x = true -> (0 < count_if P l)%nat.
Proof.
  revert i. induction l as [|y l IH]; intros [|i]; simpl; intros; simplify_eq/=.
  - case_if; [lia|congruence].
  - pose proof (IH i ltac:(done) ltac:(done)). lia.
Qed.

Lemma lookup_insert_cases l i j x y :
  <[i:=x]> l !! j = Some y ->
  (j = i /\ y = x /\ (i < length l)%nat) \/ (j <> i /\ l !! j = Some y).
Proof.
  intros H. destruct (decide (i = j)) as [<-|Hne].
  - left. pose proof (lookup_lt_Some _ _ _ H) as Hlt. rewrite length_insert in Hlt.
    rewrite list_lookup_insert_eq in H by done. by simplify_eq.
  - right. rewrite list_lookup_insert_ne in H by done. done.
Qed.

Lemma aget_Some (d : A) l i x : l !! i = Some x -> aget d l i = x.
Proof. unfold aget. by intros ->. Qed.
End arrays.

(** Counting. *)

Lemma count_if_app {A} (P : A -> bool) l k : count_if P (l ++ k) = (count_if P l + count_if P k)%nat.
Proof. induction l as [|x l IH]; [done|]. cbn [app count_if]. rewrite IH. lia. Qed.

Lemma count_if_ext {A} (P Q : A -> bool) l : (forall x, x ∈ l -> P x = Q x) -> count_if P l = count_if Q l.
Proof.
  induction l as [|x l IH]; intros H; [done|]. cbn [count_if].
  rewrite (H x) by (apply elem_of_cons; by left). rewrite IH; [done|]. intros y Hy. apply H, elem_of_cons. by right.
Qed.

Lemma count_if_all {A} (P : A -> bool) l : (forall x, x ∈ l -> P x = true) -> count_if P l = length l.
Proof.
  induction l as [|x l IH]; intros H; [done|]. cbn [count_if length].
  rewrite (H x) by (apply elem_of_cons; by left). rewrite IH; [done|]. intros y Hy. apply H, elem_of_cons. by right.
Qed.

Lemma count_if_none {A} (P : A -> bool) l : (forall x, x ∈ l -> P x = false) -> count_if P l = 0%nat.
Proof.
  induction l as [|x l IH]; intros H; [done|]. cbn [count_if].
  rewrite (H x) by (apply elem_of_cons; by left). rewrite IH; [done|]. intros y Hy. apply H, elem_of_cons. by right.
Qed.

Lemma count_if_fmap {A B} (g : A -> B) (P : B -> bool) l : count_if P (g <$> l) = count_if (fun x => P (g x)) l.
Proof. induction l as [|x l IH]; [done|]. cbn. by rewrite IH. Qed.

Lemma count_if_perm {X : Type} (P : X -> bool) l l' : l ≡ₚ l' -> count_if P l = count_if P l'.
Proof. induction 1; cbn [count_if]; lia. Qed.

Lemma count_if_filter {X : Type} (P : X -> bool) l : count_if P l = length (filter (fun x => P x = true) l).
Proof.
  induction l as [|x l IH]; [done|]. cbn [count_if]. rewrite filter_cons. destruct (P x) eqn:HP.
  - rewrite decide_True by done. cbn [length]. lia.
  - rewrite decide_False by done. lia.
Qed.

Lemma count_if_pos_inv {X : Type} (P : X -> bool) l : (0 < count_if P l)%nat -> exists k x, l !! k = Some x /\ P x = true.
Proof.
  induction l as [|x l IH]; cbn [count_if]; [lia|]. destruct (P x) eqn:Hx; [by exists 0%nat, x|]. intros H. destruct (IH ltac:(lia)) as (k & y & Hk & Hy). by exists (S k), y.
Qed.

(** ** Bitwise lemmas *)

Lemma lt_pow2_shiftr x n : 0 <= x -> 0 <= n -> x < 2 ^ n <-> Z.shiftr x n = 0.
Proof.
  intros Hx Hn. rewrite Z.shiftr_div_pow2 by done.
  assert (0 < 2 ^ n) by (apply Z.pow_pos_nonneg; lia).
  split; intros Hs; [apply Z.div_small; lia|].
  apply Z.div_small_iff in Hs; lia.
Qed.

Lemma lor_pow2 x y n : 0 <= n -> 0 <= x < 2 ^ n -> 0 <= y < 2 ^ n -> 0 <= Z.lor x y < 2 ^ n.
Proof.
  intros Hn Hx Hy. assert (0 <= Z.lor x y) by (apply Z.lor_nonneg; lia). split; [done|].
  apply lt_pow2_shiftr; [done..|]. rewrite Z.shiftr_lor.
  rewrite (proj1 (lt_pow2_shiftr x n ltac:(lia) Hn)), (proj1 (lt_pow2_shiftr y n ltac:(lia) Hn)); [done|lia..].
Qed.

Lemma lxor_pow2 x y n : 0 <= n -> 0 <= x < 2 ^ n -> 0 <= y < 2 ^ n -> 0 <= Z.lxor x y < 2 ^ n.
Proof.
  intros Hn Hx Hy. assert (0 <= Z.lxor x y) by (apply Z.lxor_nonneg; lia). split; [done|].
  apply lt_pow2_shiftr; [done..|]. rewrite Z.shiftr_lxor.
  rewrite (proj1 (lt_pow2_shiftr x n ltac:(lia) Hn)), (proj1 (lt_pow2_shiftr y n ltac:(lia) Hn)); [done|lia..].
Qed.

Lemma land_pow2 x y n : 0 <= n -> 0 <= x < 2 ^ n -> 0 <= y -> 0 <= Z.land x y < 2 ^ n.
Proof.
  intros Hn Hx Hy. assert (0 <= Z.land x y) by (apply Z.land_nonneg; lia). split; [done|].
  apply lt_pow2_shiftr; [done..|]. rewrite Z.shiftr_land.
  rewrite (proj1 (lt_pow2_shiftr x n ltac:(lia) Hn)); [done|lia].
Qed.

Lemma is_u32_lor x y : is_u32 x -> is_u32 y -> is_u32 (Z.lor x y).
Proof. intros. by apply lor_pow2. Qed.

Lemma is_u32_lxor x y : is_u32 x -> is_u32 y -> is_u32 (Z.lxor x y).
Proof. intros. by apply lxor_pow2. Qed.

Lemma is_u32_land x y : is_u32 x -> is_u32 y -> is_u32 (Z.land x y).
Proof. intros ? []. by apply land_pow2. Qed.

#[export] Hint Resolve is_u32_lor is_u32_lxor is_u32_land : kyro.

(** The bits of a reduction. *)
Lemma mod_pow2_testbit z n i :
  0 <= n -> 0 <= i -> Z.testbit (z `mod` 2 ^ n) i = (i <? n) && Z.testbit z i.
Proof.
  intros Hn Hi. destruct (Z.ltb_spec i n).
  - by rewrite Z.mod_pow2_bits_low.
  - by rewrite Z.mod_pow2_bits_high.
Qed.

Lemma shiftl_testbit z n i : 0 <= i -> Z.testbit (Z.shiftl z n) i = Z.testbit z (i - n).
Proof. apply Z.shiftl_spec. Qed.

Lemma shiftr_testbit z n i : 0 <= i -> Z.testbit (Z.shiftr z n) i = Z.testbit z (i + n).
Proof. intros. by apply Z.shiftr_spec. Qed.

(** Decide an equality of integers built with shifts, masks and reductions bit
    by bit; negative bit positions are false. *)
Ltac bitwise :=
  apply Z.bits_inj'; intros ?i ?Hi; unfold u8, u16, u32, u64;
  repeat first
    [ rewrite Z.lor_spec | rewrite Z.land_spec | rewrite Z.lxor_spec
    | rewrite mod_pow2_testbit by lia | rewrite shiftl_testbit by lia
    | rewrite shiftr_testbit by lia ].

(** Four little-endian bytes rebuild a 32-bit word. *)
Lemma bytes4_u32 v :
  Z.lor (Z.lor (Z.lor (u8 v) (Z.shiftl (u8 (Z.shiftr v 8)) 8))
    (Z.shiftl (u8 (Z.shiftr v 16)) 16)) (Z.shiftl (u8 (Z.shiftr v 24)) 24) = u32 v.
Proof.
  assert (Hb : forall w j i, 0 <= i -> 0 <= j ->
    Z.testbit (Z.shiftl (u8 (Z.shiftr w j)) j) i = (j <=? i) && (i <? j + 8) && Z.testbit w i).
  { intros w j i Hi Hj. rewrite shiftl_testbit by done. destruct (Z.leb_spec j i); simpl.
    - unfold u8. rewrite mod_pow2_testbit, shiftr_testbit by lia.
      replace (i - j + j) with i by lia. f_equal. apply eq_true_iff_eq. rewrite !Z.ltb_lt. lia.
    - by rewrite Z.testbit_neg_r by lia. }
  replace (u8 v) with (Z.shiftl (u8 (Z.shiftr v 0)) 0) by by rewrite Z.shiftl_0_r, Z.shiftr_0_r.
  apply Z.bits_inj'. intros i Hi. unfold u32. rewrite !Z.lor_spec, !Hb, mod_pow2_testbit by lia.
  destruct (Z.testbit v i); [|by rewrite !andb_false_r].
  rewrite !andb_true_r. apply eq_true_iff_eq.
  rewrite !orb_true_iff, !andb_true_iff, !Z.leb_le, !Z.ltb_lt. lia.
Qed.

(** ** Array updates *)

Lemma aget_insert {A} (d : A) l i j x :
  (i < length l)%nat -> aget d (<[i := x]> l) j = if decide (i = j) then x else aget d l j.
Proof.
  intros Hi. unfold aget. destruct (decide (i = j)) as [<-|Hne].
  - by rewrite list_lookup_insert_eq.
  - by rewrite list_lookup_insert_ne.
Qed.

Lemma alter_alter {A} (f g : A -> A) i (l : list A) : alter f i (alter g i l) = alter (fun x => f (g x)) i l.
Proof.
  apply list_eq. intros j. destruct (decide (i = j)) as [<-|Hne].
  - rewrite !list_lookup_alter_eq. by destruct (l !! i).
  - by rewrite !list_lookup_alter_ne.
Qed.

Lemma elem_of_snoc {A} (l : list A) (x m : A) : x ∈ l ++ [m] <-> x ∈ l \/ x = m.
Proof. by rewrite elem_of_app, list_elem_of_singleton. Qed.

Lemma Forall_removelast {A} (P : A -> Prop) l : Forall P l -> Forall P (removelast l).
Proof.
  induction 1 as [|x l Hx Hl IH]; [done|]. destruct l as [|y l]; [done|].
  change (removelast (x :: y :: l)) with (x :: removelast (y :: l)). by constructor.
Qed.

Lemma aget_u32 l i : Forall is_u32 l -> is_u32 (aget 0 l i).
Proof.
  intros Hl. unfold aget. destruct (l !! i) as [x|] eqn:E; simpl; [|done].
  by eapply Forall_lookup_1 in Hl.
Qed.
