(* ===== verification/Bits.v ===== *)
(** * Bits: 64-bit masks as the kernel uses them.

    The kernel keeps sets of process slots, waiters and signals in [uint64_t]
    masks and walks them with
    [while (m) { i = __builtin_ctzll(m); ...; m &= m - 1; }].
    [set_bits] is that walk as the list of the indices it visits; its
    specification says that 64 rounds visit exactly the set bits, upwards. *)

From Stdlib Require Import Sorting.Sorted.
From S2P Require Import Prelude.

(** [__builtin_ctzll]: the index of the lowest set bit ([0] stands for the
    undefined result at [0], which no caller asks for). *)
Fixpoint pos_ctz (p : positive) : Z :=
  match p with
  | xO p' => 1 + pos_ctz p'
  | _ => 0
  end.

Definition ctzll (m : Z) : Z :=
  match m with
  | Zpos p => pos_ctz p
  | _ => 0
  end.

(** [1ULL << i]. *)
Definition bit (i : Z) : Z := Z.shiftl 1 i.

(** [m & ~b] on 64-bit masks. *)
Definition clear_bits (m b : Z) : Z := Z.land m (u64 (Z.lnot b)).

Fixpoint set_bits_fuel (fuel : nat) (m : Z) : list Z :=
  match fuel with
  | O => []
  | S f => if m =? 0 then [] else ctzll m :: set_bits_fuel f (Z.land m (m - 1))
  end.

Definition set_bits (m : Z) : list Z := set_bits_fuel 64 m.

(** ** Lowest set bit *)

Lemma pos_ctz_nonneg p : 0 <= pos_ctz p.
Proof. induction p; simpl; lia. Qed.

Lemma pos_ctz_testbit p : Z.testbit (Zpos p) (pos_ctz p) = true.
Proof.
  induction p as [p IH|p IH|]; try done.
  cbn [pos_ctz]. pose proof (pos_ctz_nonneg p).
  rewrite Pos2Z.inj_xO. rewrite Z.add_comm, Z.add_1_r.
  by rewrite Z.double_bits_succ.
Qed.

Lemma pos_ctz_low p i : 0 <= i < pos_ctz p -> Z.testbit (Zpos p) i = false.
Proof.
  revert i. induction p as [p IH|p IH|]; cbn [pos_ctz]; intros i Hi; try lia.
  rewrite Pos2Z.inj_xO.
  destruct (Z.eq_dec i 0) as [->|]; [apply Z.testbit_even_0|].
  replace i with (Z.succ (i - 1)) by lia. rewrite Z.double_bits_succ. apply IH. lia.
Qed.

Lemma ctzll_nonneg m : 0 <= ctzll m.
Proof. destruct m; simpl; [lia|apply pos_ctz_nonneg|lia]. Qed.

Lemma ctzll_testbit m : 0 < m -> Z.testbit m (ctzll m) = true.
Proof. destruct m; intros; try lia. apply pos_ctz_testbit. Qed.

Lemma ctzll_low m i : 0 <= i < ctzll m -> Z.testbit m i = false.
Proof. destruct m; simpl; intros; try lia. by apply pos_ctz_low. Qed.

(** A set bit lies below the width of the mask. *)
Lemma testbit_lt_width m n i : 0 <= m < 2 ^ n -> 0 <= n -> Z.testbit m i = true -> 0 <= i < n.
Proof.
  intros Hm Hn Ht. destruct (Z.lt_ge_cases i 0); [by rewrite Z.testbit_neg_r in Ht|].
  split; [done|]. apply Z.nle_gt. intros Hle.
  rewrite <-(Z.mod_small m (2 ^ n)) in Ht by done.
  by rewrite Z.mod_pow2_bits_high in Ht by lia.
Qed.

Lemma ctzll_lt_width m n : 0 < m < 2 ^ n -> 0 <= n -> 0 <= ctzll m < n.
Proof.
  intros Hm Hn. eapply (testbit_lt_width m); [lia|done|]. apply ctzll_testbit. lia.
Qed.

(** The lowest set bit splits a mask into a power of two and an even rest. *)
Lemma pos_ctz_split p : exists k, 0 <= k /\ Zpos p = (2 * k + 1) * 2 ^ pos_ctz p.
Proof.
  induction p as [p IH|p IH|]; cbn [pos_ctz].
  - exists (Zpos p). lia.
  - destruct IH as (k & ? & Hk). exists k. split; [done|].
    rewrite Z.pow_add_r by (pose proof (pos_ctz_nonneg p); lia). rewrite Pos2Z.inj_xO, Hk. ring.
  - by exists 0.
Qed.

(** [m & (m - 1)] clears the lowest set bit and nothing else. *)
Lemma land_pred_testbit m i :
  0 < m -> 0 <= i ->
  Z.testbit (Z.land m (m - 1)) i = Z.testbit m i && negb (i =? ctzll m).
Proof.
  intros Hm Hi. destruct m as [|p|p]; try lia. simpl ctzll.
  destruct (pos_ctz_split p) as (k & Hk & Hp). pose proof (pos_ctz_nonneg p) as Hc.
  remember (pos_ctz p) as c eqn:Ec. rewrite Z.land_spec.
  assert (Hpow : 0 < 2 ^ c) by (apply Z.pow_pos_nonneg; lia).
  assert (Hpred : Zpos p - 1 = 2 * k * 2 ^ c + (2 ^ c - 1)) by lia.
  rewrite Hpred, Hp.
  destruct (Z.ltb_spec i c) as [Hlt|Hge].
  - rewrite (Z.mul_pow2_bits_low _ c i) by lia. done.
  - replace ((2 * k + 1) * 2 ^ c) with (Z.shiftl (2 * k + 1) c) by by rewrite Z.shiftl_mul_pow2.
    rewrite Z.shiftl_spec by done.
    replace (Z.testbit (2 * k * 2 ^ c + (2 ^ c - 1)) i) with (Z.testbit (2 * k) (i - c)).
    + destruct (Z.eqb_spec i c) as [->|Hne].
      * rewrite Z.sub_diag. rewrite Z.testbit_even_0. by rewrite !andb_false_r.
      * replace (i - c) with (Z.succ (i - c - 1)) by lia.
        rewrite Z.testbit_odd_succ, Z.testbit_even_succ by lia.
        by rewrite andb_diag, andb_true_r.
    + replace i with ((i - c) + c) at 2 by lia.
      rewrite <-Z.shiftr_spec by lia. f_equal.
      rewrite Z.shiftr_div_pow2 by done.
      rewrite Z.div_add_l by lia. rewrite Z.div_small by lia. lia.
Qed.

Lemma land_pred_range m : 0 <= m < 2 ^ 64 -> 0 <= Z.land m (m - 1) < 2 ^ 64.
Proof.
  intros Hm. destruct (Z.eq_dec m 0) as [->|]; [done|]. apply land_pow2; lia.
Qed.

(** ** The walk *)

Lemma set_bits_fuel_spec fuel m k :
  0 <= m < 2 ^ 64 -> (forall i, 0 <= i < k -> Z.testbit m i = false) -> 0 <= k ->
  64 - k <= Z.of_nat fuel ->
  (forall i, i ∈ set_bits_fuel fuel m <-> Z.testbit m i = true).
Proof.
  revert m k. induction fuel as [|fuel IH]; intros m k Hm Hlow Hk Hf i; simpl.
  - split; [intros Hi; by apply elem_of_nil in Hi|]. intros Ht.
    pose proof (testbit_lt_width m 64 i Hm ltac:(lia) Ht). rewrite Hlow in Ht; [done|lia].
  - destruct (Z.eqb_spec m 0) as [->|Hne].
    { rewrite Z.bits_0. split; [|done]. intros Hi. by apply elem_of_nil in Hi. }
    assert (Hpos : 0 < m) by lia. pose proof (ctzll_testbit m Hpos) as Hc.
    assert (k <= ctzll m).
    { apply Z.nlt_ge. intros Hlt. rewrite Hlow in Hc; [done|]. pose proof (ctzll_nonneg m). lia. }
    rewrite elem_of_cons, (IH _ (ctzll m + 1)).
    + destruct (Z.lt_ge_cases i 0) as [Hn|Hn].
      { rewrite !Z.testbit_neg_r by done. split; [|done].
        intros [->|]; [|done]. pose proof (ctzll_nonneg m). lia. }
      rewrite land_pred_testbit by done. destruct (Z.eqb_spec i (ctzll m)) as [->|].
      * rewrite Hc. tauto.
      * rewrite andb_true_r. intuition congruence.
    + by apply land_pred_range.
    + intros j Hj. rewrite land_pred_testbit by lia.
      destruct (Z.eqb_spec j (ctzll m)); [by rewrite andb_false_r|].
      by rewrite ctzll_low by lia.
    + lia.
    + lia.
Qed.

(** The walk visits exactly the set bits. *)
Lemma elem_of_set_bits m i : is_u64 m -> i ∈ set_bits m <-> Z.testbit m i = true.
Proof. intros Hm. apply (set_bits_fuel_spec 64 m 0); [done|lia..]. Qed.

Lemma set_bits_range m i : is_u64 m -> i ∈ set_bits m -> 0 <= i < 64.
Proof.
  intros Hm Hi. apply elem_of_set_bits in Hi; [|done]. by apply (testbit_lt_width m).
Qed.

(** It visits each of them once. *)
Lemma set_bits_fuel_sorted fuel m k :
  0 <= m < 2 ^ 64 -> (forall i, 0 <= i < k -> Z.testbit m i = false) -> 0 <= k ->
  Forall (fun i => k <= i) (set_bits_fuel fuel m) /\ StronglySorted Z.lt (set_bits_fuel fuel m).
Proof.
  revert m k. induction fuel as [|fuel IH]; intros m k Hm Hlow Hk; simpl; [by repeat constructor|].
  destruct (Z.eqb_spec m 0) as [->|Hne]; [by repeat constructor|].
  assert (Hpos : 0 < m) by lia. pose proof (ctzll_testbit m Hpos) as Hc.
  assert (k <= ctzll m).
  { apply Z.nlt_ge. intros Hlt. rewrite Hlow in Hc; [done|]. pose proof (ctzll_nonneg m). lia. }
  destruct (IH (Z.land m (m - 1)) (ctzll m + 1)) as [Hall Hs].
  - by apply land_pred_range.
  - intros j Hj. rewrite land_pred_testbit by lia.
    destruct (Z.eqb_spec j (ctzll m)); [by rewrite andb_false_r|].
    by rewrite ctzll_low by lia.
  - lia.
  - split; constructor; try done.
    + eapply Forall_impl; [exact Hall|]. simpl. lia.
    + eapply Forall_impl; [exact Hall|]. simpl. lia.
Qed.

Lemma set_bits_sorted m : is_u64 m -> StronglySorted Z.lt (set_bits m).
Proof. intros Hm. apply (set_bits_fuel_sorted 64 m 0); [done|lia|done]. Qed.

Lemma StronglySorted_lt_NoDup (l : list Z) : StronglySorted Z.lt l -> NoDup l.
Proof.
  induction 1 as [|x l _ IH Hx]; constructor; [|done].
  intros Hin. rewrite Forall_forall in Hx. specialize (Hx _ Hin). lia.
Qed.

Lemma set_bits_NoDup m : is_u64 m -> NoDup (set_bits m).
Proof. intros. by apply StronglySorted_lt_NoDup, set_bits_sorted. Qed.

(** ** Single bits *)

Lemma bit_testbit i j : 0 <= i -> 0 <= j -> Z.testbit (bit i) j = (j =? i).
Proof.
  intros Hi Hj. unfold bit. rewrite Z.shiftl_1_l, Z.pow2_bits_eqb by done. apply Z.eqb_sym.
Qed.

Lemma bit_u64 i : 0 <= i < 64 -> is_u64 (bit i).
Proof.
  intros Hi. unfold bit, is_u64. rewrite Z.shiftl_1_l. split; [apply Z.pow_nonneg; lia|].
  apply Z.pow_lt_mono_r; lia.
Qed.

Lemma is_u64_lor x y : is_u64 x -> is_u64 y -> is_u64 (Z.lor x y).
Proof. intros. by apply lor_pow2. Qed.

Lemma is_u64_land x y : is_u64 x -> 0 <= y -> is_u64 (Z.land x y).
Proof. intros. by apply land_pow2. Qed.

Lemma clear_bits_u64 m b : is_u64 m -> is_u64 (clear_bits m b).
Proof. intros. apply is_u64_land; [done|]. apply u64_range. Qed.

Lemma clear_bits_testbit m b i :
  is_u64 m -> 0 <= i -> Z.testbit (clear_bits m b) i = Z.testbit m i && negb (Z.testbit b i).
Proof.
  intros Hm Hi. unfold clear_bits, u64. rewrite Z.land_spec, mod_pow2_testbit by lia.
  destruct (Z.testbit m i) eqn:Ht; [|done]. simpl.
  pose proof (testbit_lt_width m 64 i Hm ltac:(lia) Ht).
  rewrite (proj2 (Z.ltb_lt i 64)) by lia. by rewrite Z.lnot_spec.
Qed.

#[export] Hint Resolve is_u64_lor clear_bits_u64 bit_u64 : kyro.

(** [x & ~(2^n - 1)] rounds down to a multiple of [2^n]. *)
Lemma align_down x n :
  is_u64 x -> 0 <= n <= 64 -> Z.land x (u64 (Z.lnot (2 ^ n - 1))) = x - x `mod` 2 ^ n.
Proof.
  intros Hx Hn. change (clear_bits x (2 ^ n - 1) = x - x `mod` 2 ^ n).
  replace (x - x `mod` 2 ^ n) with (Z.shiftl (Z.shiftr x n) n).
  2:{ rewrite Z.shiftl_mul_pow2, Z.shiftr_div_pow2 by lia.
      pose proof (Z.div_mod x (2 ^ n) ltac:(apply Z.pow_nonzero; lia)). lia. }
  apply Z.bits_inj'. intros i Hi. rewrite clear_bits_testbit by done.
  replace (2 ^ n - 1) with (Z.ones n) by (rewrite Z.ones_equiv; lia).
  rewrite shiftl_testbit by done. destruct (Z.lt_ge_cases i n).
  - rewrite Z.ones_spec_low by lia. rewrite (Z.testbit_neg_r _ (i - n)) by lia. by rewrite andb_false_r.
  - rewrite Z.ones_spec_high by lia. rewrite andb_true_r, shiftr_testbit by lia. f_equal. ring.
Qed.

Lemma clear_bits_is_u64 m b : is_u64 (clear_bits m b).
Proof.
  unfold clear_bits, is_u64. pose proof (u64_range (Z.lnot b)) as Hr.
  assert (0 <= Z.land m (u64 (Z.lnot b))) by (apply Z.land_nonneg; right; apply Hr).
  split; [done|]. apply lt_pow2_shiftr; [done|done|]. rewrite Z.shiftr_land.
  rewrite (proj1 (lt_pow2_shiftr (u64 (Z.lnot b)) 64 ltac:(apply Hr) ltac:(done)));
    [apply Z.land_0_r|apply Hr].
Qed.

(** The same on the low 64 bits of any integer. *)
Lemma clear_bits_low m b i :
  0 <= i < 64 -> Z.testbit (clear_bits m b) i = Z.testbit m i && negb (Z.testbit b i).
Proof.
  intros Hi. unfold clear_bits, u64. rewrite Z.land_spec, mod_pow2_testbit by lia.
  rewrite (proj2 (Z.ltb_lt i 64)) by lia. by rewrite Z.lnot_spec by lia.
Qed.

(** Bits put below others add. *)
Lemma lor_add_shift a b n : 0 <= a < 2 ^ n -> 0 <= n -> Z.lor (Z.shiftl b n) a = a + b * 2 ^ n.
Proof.
  intros Ha Hn. rewrite Z.lor_comm, <-Z.lxor_lor, <-Z.add_nocarry_lxor, Z.shiftl_mul_pow2; try done.
  all: apply Z.bits_inj'; intros i Hi; rewrite Z.land_spec, Z.shiftl_spec, Z.bits_0 by done;
    destruct (Z.lt_ge_cases i n); [by rewrite (Z.testbit_neg_r b) by lia; rewrite andb_false_r|];
    destruct (Z.testbit a i) eqn:Ht; [|done]; pose proof (testbit_lt_width a n i Ha Hn Ht); lia.
Qed.
