(* ===== verification/Bytes.v ===== *)
(** * Bytes: byte arrays, [memcpy] and little-endian integers.

    A C byte array is a [list Z]; [slice] is the source range of a [memcpy] and
    [blit] its effect on the destination.  Offsets and lengths are [Z], as the
    unsigned integers the code computes them with; every use is in bounds. *)

From S2P Require Import Prelude.

(** The [n] bytes of [l] from offset [off]. *)
Definition slice (l : list Z) (off n : Z) : list Z := take (Z.to_nat n) (drop (Z.to_nat off) l).

(** [memcpy(l + off, src, |src|)]. *)
Definition blit (l : list Z) (off : Z) (src : list Z) : list Z :=
  take (Z.to_nat off) l ++ src ++ drop (Z.to_nat off + length src) l.

Definition blen (l : list Z) : Z := Z.of_nat (length l).

(** A file that is a list of bytes: changing its size, and writing to it. *)
Definition file_resize (c : list Z) (n : Z) : list Z := take (Z.to_nat n) c ++ replicate (Z.to_nat (n - blen c)) 0.
Definition file_write (c src : list Z) (off : Z) : list Z := blit (c ++ replicate (Z.to_nat (off + blen src - blen c)) 0) off src.

(** The [n] little-endian bytes of an integer, and the integer of such bytes. *)
Fixpoint le_bytes (n : nat) (v : Z) : list Z :=
  match n with
  | O => []
  | S n' => u8 v :: le_bytes n' (v / 2 ^ 8)
  end.

Fixpoint le_val (l : list Z) : Z :=
  match l with
  | [] => 0
  | b :: l' => b + 2 ^ 8 * le_val l'
  end.

(** Byte-addressed memory. *)
Definition memory := Z -> Z.

Definition store_bytes (m : memory) (a : Z) (bs : list Z) : memory := fun x =>
  if (a <=? x) && (x <? a + blen bs) then aget 0 bs (Z.to_nat (x - a)) else m x.

Definition load_bytes (m : memory) (a : Z) (n : nat) : list Z :=
  map (fun i => m (a + Z.of_nat i)) (seq 0 n).

Definition load64 (m : memory) (a : Z) : Z := le_val (load_bytes m a 8).

(** ** Slices *)

Lemma slice_length l off n :
  0 <= off -> 0 <= n -> off + n <= blen l -> length (slice l off n) = Z.to_nat n.
Proof. unfold slice, blen. intros. rewrite length_take, length_drop. lia. Qed.

Lemma slice_lookup l off n i :
  0 <= off -> (i < Z.to_nat n)%nat -> slice l off n !! i = l !! (Z.to_nat off + i)%nat.
Proof. intros. unfold slice. rewrite lookup_take_lt by done. by rewrite lookup_drop. Qed.

Lemma slice_nil l off : slice l off 0 = [].
Proof. done. Qed.

Lemma slice_full l : slice l 0 (blen l) = l.
Proof. unfold slice, blen. rewrite Nat2Z.id. by apply take_ge. Qed.

Lemma slice_split l off n k :
  0 <= off -> 0 <= k <= n -> slice l off n = slice l off k ++ slice l (off + k) (n - k).
Proof.
  intros Hoff Hk. unfold slice.
  replace (Z.to_nat (off + k)) with (Z.to_nat off + Z.to_nat k)%nat by lia.
  rewrite <-drop_drop. generalize (drop (Z.to_nat off) l). intros l'.
  replace (Z.to_nat n) with (Z.to_nat k + Z.to_nat (n - k))%nat by lia.
  by rewrite <-take_take_drop.
Qed.

Lemma blit_length l off src :
  0 <= off -> off + blen src <= blen l -> length (blit l off src) = length l.
Proof.
  unfold blit, blen. intros. rewrite !length_app, length_take, length_drop. lia.
Qed.

Lemma blit_lookup l off src i :
  0 <= off -> off + blen src <= blen l ->
  blit l off src !! i =
    (if (off <=? Z.of_nat i) && (Z.of_nat i <? off + blen src)
     then src !! (i - Z.to_nat off)%nat else l !! i).
Proof.
  unfold blit, blen. intros Hoff Hlen.
  assert (Ht : length (take (Z.to_nat off) l) = Z.to_nat off) by (rewrite length_take; lia).
  destruct (Z.leb_spec off (Z.of_nat i)); simpl.
  - rewrite lookup_app_r by lia. rewrite Ht. destruct (Z.ltb_spec (Z.of_nat i) (off + Z.of_nat (length src))).
    + rewrite lookup_app_l by lia. done.
    + rewrite lookup_app_r by lia. rewrite lookup_drop. f_equal. lia.
  - rewrite lookup_app_l by lia. rewrite lookup_take_lt by lia. done.
Qed.

Lemma blen_nonneg l : 0 <= blen l.
Proof. unfold blen. lia. Qed.

Lemma blen_app l k : blen (l ++ k) = blen l + blen k.
Proof. unfold blen. rewrite length_app. lia. Qed.

Lemma blen_slice l off n : 0 <= off -> 0 <= n -> off + n <= blen l -> blen (slice l off n) = n.
Proof. intros. unfold blen. rewrite slice_length by done. lia. Qed.

(** ** Little-endian integers *)

Lemma le_bytes_length n v : length (le_bytes n v) = n.
Proof. revert v. induction n; intros; simpl; auto. Qed.

Lemma le_bytes_u8 n v : Forall is_u8 (le_bytes n v).
Proof. revert v. induction n; intros; simpl; constructor; auto with kyro. Qed.

Lemma le_val_bytes n v : le_val (le_bytes n v) = v `mod` 2 ^ (8 * Z.of_nat n).
Proof.
  revert v. induction n as [|n IH]; intros v.
  - change (2 ^ (8 * Z.of_nat 0)) with 1. by rewrite Z.mod_1_r.
  - cbn [le_bytes le_val]. rewrite IH. unfold u8.
    replace (8 * Z.of_nat (S n)) with (8 + 8 * Z.of_nat n) by lia.
    rewrite Z.pow_add_r by lia. symmetry. apply Z.rem_mul_r; lia.
Qed.

Lemma le_val_range l : Forall is_u8 l -> 0 <= le_val l < 2 ^ (8 * blen l).
Proof.
  induction 1 as [|b l Hb Hl IH]; [done|]. cbn [le_val]. unfold blen, is_u8 in *.
  replace (8 * Z.of_nat (length (b :: l))) with (8 + 8 * Z.of_nat (length l)) by (simpl; lia).
  rewrite Z.pow_add_r by lia. nia.
Qed.

(** ** Memory *)

Lemma store_bytes_out m a bs x : x < a \/ a + blen bs <= x -> store_bytes m a bs x = m x.
Proof. intros. unfold store_bytes. bsolve. Qed.

Lemma load_store_bytes m a bs off n :
  0 <= off -> off + Z.of_nat n <= blen bs ->
  load_bytes (store_bytes m a bs) (a + off) n = slice bs off (Z.of_nat n).
Proof.
  unfold blen. intros Hoff Hn. apply list_eq_same_length with n.
  - rewrite slice_length; unfold blen; lia.
  - unfold load_bytes. by rewrite length_map, length_seq.
  - intros i x y Hi. unfold load_bytes. rewrite list_lookup_fmap, lookup_seq_lt by lia.
    rewrite slice_lookup by lia. cbn. intros [= <-].
    unfold store_bytes, blen.
    replace (a + off + Z.of_nat i - a) with (off + Z.of_nat i) by lia.
    rewrite (proj2 (Z.leb_le _ _)), (proj2 (Z.ltb_lt _ _)) by lia. cbn.
    intros Hy. apply aget_Some. rewrite <-Hy. f_equal. lia.
Qed.

Lemma load_bytes_ext m m' a n :
  (forall x, a <= x < a + Z.of_nat n -> m x = m' x) -> load_bytes m a n = load_bytes m' a n.
Proof.
  intros H. unfold load_bytes. apply map_ext_in. intros i Hi%in_seq. apply H. lia.
Qed.

Lemma concat_words_length ws : length (concat (map (le_bytes 8) ws)) = (8 * length ws)%nat.
Proof.
  induction ws as [|w ws IH]; [done|]. cbn [map concat length].
  rewrite length_app, le_bytes_length, IH. lia.
Qed.

Lemma slice_concat_words ws k w :
  ws !! k = Some w -> slice (concat (map (le_bytes 8) ws)) (8 * Z.of_nat k) 8 = le_bytes 8 w.
Proof.
  revert k. induction ws as [|v ws IH]; intros [|k] Hk; try done; cbn [map concat]; unfold slice in *.
  - simplify_eq/=. done.
  - simpl in Hk. rewrite <-(IH k Hk). f_equal.
    replace (Z.to_nat (8 * Z.of_nat (S k))) with (length (le_bytes 8 v) + Z.to_nat (8 * Z.of_nat k))%nat
      by (rewrite le_bytes_length; lia).
    by rewrite drop_app_add.
Qed.

(** A word stored as part of a structure is read back. *)
Lemma load64_store_words m a ws k w :
  ws !! k = Some w ->
  load64 (store_bytes m a (concat (map (le_bytes 8) ws))) (a + 8 * Z.of_nat k) = u64 w.
Proof.
  intros Hk. pose proof (lookup_lt_Some _ _ _ Hk). unfold load64.
  rewrite load_store_bytes; [|lia|unfold blen; rewrite concat_words_length; lia].
  change (Z.of_nat 8) with 8. rewrite (slice_concat_words _ _ _ Hk). by rewrite le_val_bytes.
Qed.
