(* ===== verification/Words.v ===== *)
(** * Words: bytes of physical memory.

    The cells of physical memory are its aligned 64-bit words ([Pmm.v]); the
    kernel also copies bytes to and from pages.  [write_bytes] is the effect of
    a [memcpy] to an address on the words, [mem_byte] the byte at an address. *)

From S2P Require Import Prelude Bits Bytes.

Definition byte_of (w i : Z) : Z := Z.shiftr w (8 * i) mod 256.

Definition write_bytes (addr : Z) (bs : list Z) (m : Z -> Z) : Z -> Z := fun a =>
  if (a mod 8 =? 0) && (addr <? a + 8) && (a <? addr + blen bs) then
    le_val ((fun i => if (addr <=? a + i) && (a + i <? addr + blen bs) then aget 0 bs (Z.to_nat (a + i - addr)) else byte_of (m a) i) <$> seqZ 0 8)
  else m a.

Definition mem_byte (m : Z -> Z) (a : Z) : Z := byte_of (m (a - a mod 8)) (a mod 8).
Definition mem_bytes (m : Z -> Z) (a n : Z) : list Z := mem_byte m <$> seqZ a n.

Lemma byte_of_u8 w i : is_u8 (byte_of w i).
Proof. unfold is_u8, byte_of. apply Z.mod_pos_bound. lia. Qed.

Lemma byte_of_le_val l i b : Forall is_u8 l -> l !! i = Some b -> byte_of (le_val l) (Z.of_nat i) = b.
Proof.
  revert i. induction l as [|x l IH]; intros [|i] Hl Hi; try done; apply Forall_cons in Hl as [Hx Hl]; cbn [le_val]; unfold byte_of, is_u8 in *.
  - injection Hi as <-. change (8 * Z.of_nat 0) with 0. rewrite Z.shiftr_0_r. change (2 ^ 8) with 256. rewrite Z.mul_comm, Z_mod_plus_full. by apply Z.mod_small.
  - rewrite <-(IH i Hl Hi). rewrite !Z.shiftr_div_pow2 by lia. f_equal. replace (8 * Z.of_nat (S i)) with (8 + 8 * Z.of_nat i) by lia.
    rewrite Z.pow_add_r, <-Z.div_div by lia. f_equal. rewrite Z.mul_comm, Z.div_add by lia. rewrite Z.div_small by (change (2 ^ 8) with 256; lia). lia.
Qed.

Lemma byte_of_word (f : Z -> Z) k : (forall i, 0 <= i < 8 -> is_u8 (f i)) -> 0 <= k < 8 -> byte_of (le_val (f <$> seqZ 0 8)) k = f k.
Proof.
  intros Hf Hk. rewrite <-(Z2Nat.id k) at 1 by lia. apply byte_of_le_val.
  - apply Forall_forall. intros x (i & -> & Hi%elem_of_seqZ)%list_elem_of_fmap. apply Hf. lia.
  - rewrite list_lookup_fmap, lookup_seqZ_lt by lia. cbn. f_equal. f_equal. lia.
Qed.

Lemma mem_byte_write addr bs m a :
  Forall is_u8 bs -> mem_byte (write_bytes addr bs m) a = if (addr <=? a) && (a <? addr + blen bs) then aget 0 bs (Z.to_nat (a - addr)) else mem_byte m a.
Proof.
  intros Hb. unfold mem_byte, write_bytes. set (w := a - a mod 8). pose proof (Z.mod_pos_bound a 8 ltac:(lia)) as Hr.
  assert (Hw : w mod 8 = 0) by (unfold w; rewrite Zminus_mod_idemp_r, Z.sub_diag; done). rewrite Hw. cbn [Z.eqb andb].
  assert (Ha : a = w + a mod 8) by (unfold w; lia). set (k := a mod 8) in *.
  destruct ((addr <? w + 8) && (w <? addr + blen bs)) eqn:Hc.
  - rewrite byte_of_word; [by rewrite Ha| |done]. intros i Hi. destruct ((addr <=? w + i) && _); [|apply byte_of_u8].
    unfold aget. destruct (bs !! _) as [b|] eqn:Hl; [|done]. cbn. by eapply Forall_lookup_1.
  - destruct ((addr <=? a) && _) eqn:Hd; [|done]. exfalso. apply andb_true_iff in Hd as [H1%Z.leb_le H2%Z.ltb_lt].
    apply andb_false_iff in Hc as [Hc%Z.ltb_ge|Hc%Z.ltb_ge]; lia.
Qed.

Lemma mem_byte_ext m m' a : m' (a - a mod 8) = m (a - a mod 8) -> mem_byte m' a = mem_byte m a.
Proof. unfold mem_byte. by intros ->. Qed.

Lemma length_mem_bytes m a n : 0 <= n -> blen (mem_bytes m a n) = n.
Proof. intros Hn. unfold blen, mem_bytes. rewrite length_fmap, length_seqZ. lia. Qed.

Lemma mem_bytes_app m a n k : 0 <= n -> 0 <= k -> mem_bytes m a (n + k) = mem_bytes m a n ++ mem_bytes m (a + n) k.
Proof. intros Hn Hk. unfold mem_bytes. rewrite seqZ_app by done. by rewrite fmap_app. Qed.

Lemma mem_byte_u8 m a : is_u8 (mem_byte m a).
Proof. apply byte_of_u8. Qed.

(** A write inside a page changes no word outside of it. *)
Lemma write_bytes_out ph off bs m a : ph mod 4096 = 0 -> 0 <= off -> off + blen bs <= 4096 -> ~ (ph <= a < ph + 4096) -> write_bytes (ph + off) bs m a = m a.
Proof.
  intros Hp Ho Hl Ha. unfold write_bytes. destruct (_ && _) eqn:Hc; [|done]. exfalso. apply andb_true_iff in Hc as [Hc H3%Z.ltb_lt].
  apply andb_true_iff in Hc as [H1%Z.eqb_eq H2%Z.ltb_lt].
  pose proof (Z.div_mod ph 4096 ltac:(lia)). pose proof (Z.div_mod a 8 ltac:(lia)). lia.
Qed.
