(* ===== verification/Vma.v ===== *)
(** * Vma: the per-address-space table of mappings ([kernel/mm/vma.c]).

    A [vmm_space_t] carries a fixed table of [VMM_VMA_MAX] slots.  The table is
    a list of slots here, a pointer into it is a slot index, and a nullable
    [vmm_space_t *] is an [option].  The [while (cur < end)] loops carry fuel;
    [None] is "the loop did not finish", which the theorems rule out.

    The abstract view of a table is the partial function [vma_view] from
    addresses to (prot, map_flags, free_on_unmap); the theorems show that each
    operation implements the obvious change of that function. *)

From S2P Require Import Prelude.

(** ** Data ([vmm.h], [vma.h]) *)

Definition VMM_VMA_MAX : nat := 2048.
Definition ENOMEM : Z := 12.
Definition EINVAL : Z := 22.

Definition PROT_READ : Z := 1.
Definition PROT_WRITE : Z := 2.
Definition PROT_EXEC : Z := 4.

Definition VMM_WRITE : Z := Z.shiftl 1 1.
Definition VMM_USER : Z := Z.shiftl 1 2.
Definition VMM_NX : Z := Z.shiftl 1 63.

(** [used] and [free_on_unmap] are [uint8_t] fields that only ever hold 0 or 1. *)
Record vmm_vma_t := mk_vma {
  start : Z;
  end_ : Z;
  prot : Z;
  map_flags : Z;
  used : bool;
  free_on_unmap : bool
}.

Abbreviation vma_table := (list vmm_vma_t).

(** [memset(v, 0, sizeof( *v))] *)
Definition zero_vma : vmm_vma_t := mk_vma 0 0 0 0 false false.

Definition set_start (v : vmm_vma_t) (x : Z) : vmm_vma_t :=
  mk_vma x (end_ v) (prot v) (map_flags v) (used v) (free_on_unmap v).
Definition set_end (v : vmm_vma_t) (x : Z) : vmm_vma_t :=
  mk_vma (start v) x (prot v) (map_flags v) (used v) (free_on_unmap v).

(** ** Operations *)

Definition range_end (start len : Z) : option Z :=
  if len =? 0 then None
  else let e := u64 (start + len) in
       if start <? e then Some e else None.

Definition empty_slot (t : vma_table) : option nat :=
  find_index (fun v => negb (used v)) t.

Definition contains (addr : Z) (v : vmm_vma_t) : bool :=
  used v && (start v <=? addr) && (addr <? end_ v).

Definition containing (t : vma_table) (addr : Z) : option nat :=
  find_index (contains addr) t.

(** The slot behind a pointer. *)
Definition vma_at (t : vma_table) (i : nat) : vmm_vma_t := aget zero_vma t i.

Definition vma_reset (sp : option vma_table) : option vma_table :=
  map (fun _ => zero_vma) <$> sp.

Definition vma_copy (dst src : option vma_table) : option vma_table :=
  match dst, src with
  | Some _, Some s => Some s
  | _, _ => dst
  end.

Definition overlaps (start_ e : Z) (v : vmm_vma_t) : bool :=
  used v && ((start_ <? end_ v) && (start v <? e)).

Definition vma_conflicts (sp : option vma_table) (start_ len : Z) : bool :=
  match sp, range_end start_ len with
  | Some t, Some e => existsb (overlaps start_ e) t
  | _, _ => true
  end.

Definition vma_same_kind (v : vmm_vma_t) (prot_ map_flags_ : Z) (fou : bool) : bool :=
  (prot v =? prot_) && (map_flags v =? map_flags_) && Bool.eqb (free_on_unmap v) fou.

(** The neighbour scan of [vma_add]; [i] is the index of the head of [l]. *)
Fixpoint scan_neighbours (l : vma_table) (i : nat) (start_ e prot_ map_flags_ : Z) (fou : bool)
    (before after : option nat) : option nat * option nat :=
  match l with
  | [] => (before, after)
  | v :: l' =>
      if negb (used v) || negb (vma_same_kind v prot_ map_flags_ fou) then
        scan_neighbours l' (S i) start_ e prot_ map_flags_ fou before after
      else if end_ v =? start_ then
        scan_neighbours l' (S i) start_ e prot_ map_flags_ fou (Some i) after
      else if start v =? e then
        scan_neighbours l' (S i) start_ e prot_ map_flags_ fou before (Some i)
      else scan_neighbours l' (S i) start_ e prot_ map_flags_ fou before after
  end.

Definition vma_add (sp : option vma_table) (start_ len prot_ map_flags_ : Z) (fou : bool)
    : option vma_table * Z :=
  match sp, range_end start_ len with
  | Some t, Some e =>
      if vma_conflicts sp start_ len then (sp, - EINVAL)
      else
        match scan_neighbours t 0 start_ e prot_ map_flags_ fou None None with
        | (Some b, Some a) =>
            let t1 := <[b := set_end (vma_at t b) (end_ (vma_at t a))]> t in
            (Some (<[a := zero_vma]> t1), 0)
        | (Some b, None) => (Some (<[b := set_end (vma_at t b) e]> t), 0)
        | (None, Some a) => (Some (<[a := set_start (vma_at t a) start_]> t), 0)
        | (None, None) =>
            match empty_slot t with
            | None => (sp, - ENOMEM)
            | Some i => (Some (<[i := mk_vma start_ e prot_ map_flags_ true fou]> t), 0)
            end
        end
  | _, _ => (sp, - EINVAL)
  end.

Fixpoint range_ok_loop (fuel : nat) (t : vma_table) (cur e : Z) : option bool :=
  match fuel with
  | O => None
  | S fuel' =>
      if cur <? e then
        match containing t cur with
        | None => Some false
        | Some i => range_ok_loop fuel' t (Z.min (end_ (vma_at t i)) e) e
        end
      else Some true
  end.

(** One unit of fuel per slot plus one is enough: [vma_range_ok_total]. *)
Definition loop_fuel (t : vma_table) : nat := S (length t).

Definition vma_range_ok (sp : option vma_table) (start_ len : Z) : option bool :=
  match sp, range_end start_ len with
  | Some t, Some e => range_ok_loop (loop_fuel t) t start_ e
  | _, _ => Some false
  end.

Definition vma_page_mapped (t : vma_table) (addr : Z) : bool :=
  match containing t addr with Some _ => true | None => false end.

Definition vma_used_count (sp : option vma_table) : Z :=
  match sp with
  | None => 0
  | Some t => Z.of_nat (count_if used t)
  end.

Definition vma_lookup (t : vma_table) (addr : Z) : option (Z * Z * Z) :=
  match containing t addr with
  | None => None
  | Some i => let v := vma_at t i in Some (start v, end_ v, prot v)
  end.

Definition vma_page_owned (t : vma_table) (addr : Z) : bool :=
  match containing t addr with
  | None => false
  | Some i => free_on_unmap (vma_at t i)
  end.

Fixpoint range_info_loop (fuel : nat) (t : vma_table) (p mf : Z) (owned : bool) (cur e : Z)
    : option bool :=
  match fuel with
  | O => None
  | S fuel' =>
      if cur <? e then
        match containing t cur with
        | None => Some false
        | Some i =>
            let v := vma_at t i in
            if negb (prot v =? p) || negb (map_flags v =? mf) || negb (Bool.eqb (free_on_unmap v) owned)
            then Some false
            else range_info_loop fuel' t p mf owned (Z.min (end_ v) e) e
        end
      else Some true
  end.

(** Outer [None]: out of fuel; inner [None]: the C function returns [false]. *)
Definition vma_range_info (sp : option vma_table) (start_ len : Z) : option (option (Z * Z * bool)) :=
  match sp, range_end start_ len with
  | Some t, Some e =>
      match containing t start_ with
      | None => Some None
      | Some i =>
          let v := vma_at t i in
          match range_info_loop (loop_fuel t) t (prot v) (map_flags v) (free_on_unmap v) start_ e with
          | None => None
          | Some true => Some (Some (prot v, map_flags v, free_on_unmap v))
          | Some false => Some None
          end
      end
  | _, _ => Some None
  end.

Definition vma_page_fault_allowed (t : vma_table) (addr : Z) (write exec : bool) : bool :=
  match containing t addr with
  | None => false
  | Some i =>
      let v := vma_at t i in
      if negb (free_on_unmap v) then false
      else if write && negb (ztrue (Z.land (prot v) PROT_WRITE)) then false
      else if exec && negb (ztrue (Z.land (prot v) PROT_EXEC)) then false
      else ztrue (Z.land (prot v) (Z.lor (Z.lor PROT_READ PROT_WRITE) PROT_EXEC))
  end.

Definition vma_page_flags (t : vma_table) (addr : Z) : Z :=
  let flags := Z.lor VMM_USER VMM_NX in
  match containing t addr with
  | None => flags
  | Some i =>
      let v := vma_at t i in
      let flags := if ztrue (Z.land (prot v) PROT_WRITE) then Z.lor flags VMM_WRITE else flags in
      if ztrue (Z.land (prot v) PROT_EXEC) then Z.land flags (Z.lnot VMM_NX) else flags
  end.

Definition split_for_hole (t : vma_table) (i : nat) (start_ e : Z) : vma_table * Z :=
  let v := vma_at t i in
  let left := start v <? start_ in
  let right := e <? end_ v in
  match left, right, empty_slot t with
  | true, true, None => (t, - ENOMEM)
  | true, true, Some r =>
      let old_end := end_ v in
      let t1 := <[r := set_end (set_start v e) old_end]> t in
      (<[i := set_end v start_]> t1, 0)
  | false, false, _ => (<[i := zero_vma]> t, 0)
  | true, false, _ => (<[i := set_end v start_]> t, 0)
  | false, true, _ => (<[i := set_start v e]> t, 0)
  end.

Fixpoint remove_loop (fuel : nat) (t : vma_table) (cur e : Z) : option (vma_table * Z) :=
  match fuel with
  | O => None
  | S fuel' =>
      if cur <? e then
        match containing t cur with
        | None => Some (t, - EINVAL)
        | Some i =>
            let cut_end := Z.min (end_ (vma_at t i)) e in
            let '(t', rc) := split_for_hole t i cur cut_end in
            if rc <? 0 then Some (t', rc) else remove_loop fuel' t' cut_end e
        end
      else Some (t, 0)
  end.

Definition vma_remove (sp : option vma_table) (start_ len : Z) : option (option vma_table * Z) :=
  match sp, range_end start_ len with
  | Some t, Some e =>
      match vma_range_ok sp start_ len with
      | None => None
      | Some false => Some (sp, - EINVAL)
      | Some true =>
          match remove_loop (loop_fuel t) t start_ e with
          | None => None
          | Some (t', rc) => Some (Some t', rc)
          end
      end
  | _, _ => Some (sp, - EINVAL)
  end.

(** The [for] loop of [vma_remove_overlaps] from slot [i], [n] slots to go. *)
Fixpoint remove_overlaps_loop (n i : nat) (t : vma_table) (start_ e : Z) : vma_table * Z :=
  match n with
  | O => (t, 0)
  | S n' =>
      let v := vma_at t i in
      if negb (used v) then remove_overlaps_loop n' (S i) t start_ e
      else if (end_ v <=? start_) || (e <=? start v) then remove_overlaps_loop n' (S i) t start_ e
      else
        let cut_start := Z.max start_ (start v) in
        let cut_end := Z.min e (end_ v) in
        let '(t', rc) := split_for_hole t i cut_start cut_end in
        if rc <? 0 then (t', rc) else remove_overlaps_loop n' (S i) t' start_ e
  end.

Definition vma_remove_overlaps (sp : option vma_table) (start_ len : Z) : option vma_table * Z :=
  match sp, range_end start_ len with
  | Some t, Some e =>
      let '(t', rc) := remove_overlaps_loop (length t) 0 t start_ e in (Some t', rc)
  | _, _ => (sp, - EINVAL)
  end.

Fixpoint protect_loop (fuel : nat) (t : vma_table) (cur e prot_ : Z) : option (vma_table * Z) :=
  match fuel with
  | O => None
  | S fuel' =>
      if cur <? e then
        match containing t cur with
        | None => Some (t, - EINVAL)
        | Some i =>
            let v := vma_at t i in
            let cut_end := Z.min (end_ v) e in
            let '(t', rc) := split_for_hole t i cur cut_end in
            if rc <? 0 then Some (t', rc)
            else
              match vma_add (Some t') cur (cut_end - cur) prot_ (map_flags v) (free_on_unmap v) with
              | (None, rc') => Some (t', rc')
              | (Some t'', rc') =>
                  if rc' <? 0 then Some (t'', rc') else protect_loop fuel' t'' cut_end e prot_
              end
        end
      else Some (t, 0)
  end.

Definition vma_protect (sp : option vma_table) (start_ len prot_ : Z)
    : option (option vma_table * Z) :=
  match sp, range_end start_ len with
  | Some t, Some e =>
      match vma_range_ok sp start_ len with
      | None => None
      | Some false => Some (sp, - EINVAL)
      | Some true =>
          match protect_loop (loop_fuel t) t start_ e prot_ with
          | None => None
          | Some (t', rc) => Some (Some t', rc)
          end
      end
  | _, _ => Some (sp, - EINVAL)
  end.

#[global] Arguments vma_add : simpl never.
#[global] Arguments vma_conflicts : simpl never.

(** ** Specification side *)

(** What a table says about one address. *)
Definition vma_view (t : vma_table) (addr : Z) : option (Z * Z * bool) :=
  match containing t addr with
  | None => None
  | Some i => let v := vma_at t i in Some (prot v, map_flags v, free_on_unmap v)
  end.

Definition disjoint (v w : vmm_vma_t) : Prop := end_ v <= start w \/ end_ w <= start v.

(** Every used slot is a non-empty range of 64-bit addresses, and no two used
    slots overlap. *)
Record vma_wf (t : vma_table) : Prop := {
  wf_range : forall i v, t !! i = Some v -> used v = true ->
    0 <= start v < end_ v /\ end_ v < 2 ^ 64;
  wf_disjoint : forall i j v w, t !! i = Some v -> t !! j = Some w ->
    used v = true -> used w = true -> i <> j -> disjoint v w
}.

(** Termination measure of the [while (cur < end)] loops: the used slots that
    still reach beyond [cur]. *)
Definition reaches (cur : Z) (v : vmm_vma_t) : bool := used v && (cur <? end_ v).

Definition ahead (cur : Z) (t : vma_table) : nat := count_if (reaches cur) t.

Definition in_range (start_ len a : Z) : bool := (start_ <=? a) && (a <? start_ + len).

Definition attr (v : vmm_vma_t) : Z * Z * bool := (prot v, map_flags v, free_on_unmap v).

(** Coalescing candidates of [vma_add]. *)
Definition is_before (s : Z) (p mf : Z) (fou : bool) (v : vmm_vma_t) : Prop :=
  used v = true /\ attr v = (p, mf, fou) /\ end_ v = s.
Definition is_after (e : Z) (p mf : Z) (fou : bool) (v : vmm_vma_t) : Prop :=
  used v = true /\ attr v = (p, mf, fou) /\ start v = e.

(** The outcome of [vma_add] on a free range, as one table update. *)
Inductive add_result (t : vma_table) (s e p mf : Z) (fou : bool) : vma_table -> Z -> Prop :=
| add_join b a vb va :
    t !! b = Some vb -> t !! a = Some va -> a <> b ->
    is_before s p mf fou vb -> is_after e p mf fou va ->
    add_result t s e p mf fou (<[b := set_end vb (end_ va)]> (<[a := zero_vma]> t)) 0
| add_grow b vb :
    t !! b = Some vb -> is_before s p mf fou vb ->
    add_result t s e p mf fou (<[b := set_end vb e]> t) 0
| add_lower a va :
    t !! a = Some va -> is_after e p mf fou va ->
    add_result t s e p mf fou (<[a := set_start va s]> t) 0
| add_fresh i v :
    t !! i = Some v -> used v = false ->
    add_result t s e p mf fou (<[i := mk_vma s e p mf true fou]> t) 0
| add_full :
    empty_slot t = None ->
    add_result t s e p mf fou t (- ENOMEM).

(** [t'] is [t] with the hole [s, e) cut out of slot [i]. *)
Record hole_cut (t t' : vma_table) (i : nat) (v : vmm_vma_t) (s e : Z) : Prop := {
  hole_wf : vma_wf t';
  hole_length : length t' = length t;
  hole_view : forall a, vma_view t' a = if (s <=? a) && (a <? e) then None else vma_view t a;
  hole_ahead : end_ v = e -> ahead e t' = ahead e t;
  hole_frame : end_ v = e -> forall j, j <> i -> t' !! j = t !! j;
  hole_slots : forall j u, t' !! j = Some u -> used u = true ->
    (j <> i /\ t !! j = Some u) \/
    (start v <= start u /\ end_ u <= s) \/ (e <= start u /\ end_ u <= end_ v)
}.

(** No slot sticks out of [s, e) on both sides. *)
Definition not_around (t : vma_table) (s e : Z) : Prop :=
  forall j v, t !! j = Some v -> used v = true -> ~ (start v < s /\ e < end_ v).

(** The attributes of an address after [mprotect(prot_)]. *)
Definition set_prot (prot_ : Z) (x : Z * Z * bool) : Z * Z * bool := (prot_, x.1.2, x.2).

(** A table whose [VMM_VMA_MAX] slots are all taken, with gaps between them. *)
Definition full_table : vma_table :=
  map (fun i => mk_vma (Z.of_nat i * 16384 + 4096) (Z.of_nat i * 16384 + 12288) 3 0 true true)
    (seq 0 VMM_VMA_MAX).

(** A small table with two mappings and two empty slots. *)
Definition sample_table : vma_table :=
  [mk_vma 4096 12288 3 0 true true; zero_vma; mk_vma 16384 20480 3 0 true true; zero_vma].

(** ** Lemmas on the view *)

Lemma contains_true a v :
  contains a v = true <-> used v = true /\ start v <= a < end_ v.
Proof. unfold contains. rewrite !andb_true_iff, Z.leb_le, Z.ltb_lt. tauto. Qed.

Lemma contains_false a v :
  contains a v = false <-> (used v = true -> ~ (start v <= a < end_ v)).
Proof.
  pose proof (contains_true a v). destruct (contains a v); intuition congruence.
Qed.

Lemma range_end_spec s l :
  is_u64 s -> is_u64 l ->
  range_end s l = if (0 <? l) && (s + l <? 2 ^ 64) then Some (s + l) else None.
Proof.
  intros Hs Hl. unfold range_end. destruct (u64_add_cases s l Hs Hl) as [[-> ?]|[-> ?]];
    unfold is_u64 in *; bsolve.
Qed.

Lemma vma_at_lookup t i v : t !! i = Some v -> vma_at t i = v.
Proof. apply aget_Some. Qed.

Lemma containing_Some t a i :
  containing t a = Some i ->
  exists v, t !! i = Some v /\ vma_at t i = v /\ used v = true /\ start v <= a < end_ v.
Proof.
  intros (v & Hv & Hc%contains_true)%find_index_Some. exists v.
  split_and!; [done|by apply vma_at_lookup|tauto..].
Qed.

Lemma containing_unique t a i v :
  vma_wf t -> t !! i = Some v -> contains a v = true -> containing t a = Some i.
Proof.
  intros [_ Hd] Hi Hc. destruct (find_index_is_Some _ _ _ _ Hi Hc) as [j Hj].
  unfold containing. rewrite Hj. apply containing_Some in Hj as (w & Hw & _ & Hu & Hr).
  apply contains_true in Hc as [Hu' Hr']. destruct (decide (i = j)); [congruence|].
  destruct (Hd i j v w) as [?|?]; auto; lia.
Qed.

Lemma view_Some t a i v :
  vma_wf t -> t !! i = Some v -> contains a v = true -> vma_view t a = Some (attr v).
Proof.
  intros Hwf Hi Hc. unfold vma_view. rewrite (containing_unique _ _ _ _ Hwf Hi Hc).
  by rewrite (vma_at_lookup _ _ _ Hi).
Qed.

Lemma view_None t a :
  vma_view t a = None <-> forall i v, t !! i = Some v -> contains a v = false.
Proof.
  unfold vma_view, containing. rewrite <- find_index_None.
  destruct (find_index (contains a) t); intuition congruence.
Qed.

Lemma view_cases t a :
  vma_view t a = None \/
  exists i v, t !! i = Some v /\ contains a v = true /\ vma_view t a = Some (attr v).
Proof.
  unfold vma_view, containing. destruct (find_index (contains a) t) as [i|] eqn:Hf; [right|by left].
  apply find_index_Some in Hf as (v & Hv & Hc). exists i, v. by rewrite (vma_at_lookup _ _ _ Hv).
Qed.

(** ** Replacing one slot *)

Lemma wf_insert t i v w :
  vma_wf t -> t !! i = Some v ->
  (used w = true -> 0 <= start w < end_ w /\ end_ w < 2 ^ 64) ->
  (used w = true -> forall j u, j <> i -> t !! j = Some u -> used u = true -> disjoint w u) ->
  vma_wf (<[i:=w]> t).
Proof.
  intros [Hr Hd] Hi Hw Hdw. split.
  - intros j u [(-> & -> & _)|[_ Hj]]%lookup_insert_cases; eauto.
  - intros j k u x [(-> & -> & _)|[Hj1 Hj]]%lookup_insert_cases
      [(-> & -> & _)|[Hk1 Hk]]%lookup_insert_cases Hu Hx Hjk; eauto; [done|].
    destruct (Hdw Hx j u) as [?|?]; auto; [by right|by left].
Qed.

Lemma view_insert t i v w a :
  vma_wf t -> t !! i = Some v -> vma_wf (<[i:=w]> t) ->
  vma_view (<[i:=w]> t) a =
    if contains a w then Some (attr w) else if contains a v then None else vma_view t a.
Proof.
  intros Hwf Hi Hwf'. pose proof (lookup_lt_Some _ _ _ Hi) as Hlt.
  destruct (contains a w) eqn:Hw.
  { eapply view_Some; [done| |done]. by apply list_lookup_insert_eq. }
  destruct (contains a v) eqn:Hv.
  - apply view_None. intros j u [(-> & -> & _)|[Hj1 Hj]]%lookup_insert_cases; [done|].
    destruct (contains a u) eqn:Hu; [|done].
    pose proof (containing_unique _ _ _ _ Hwf Hi Hv). pose proof (containing_unique _ _ _ _ Hwf Hj Hu).
    congruence.
  - destruct (view_cases t a) as [Hn|(j & u & Hj & Hc & ->)].
    + rewrite Hn. apply view_None. rewrite view_None in Hn.
      intros j u [(-> & -> & _)|[_ Hj]]%lookup_insert_cases; [done|]. by eapply Hn.
    + assert (j <> i) by congruence. eapply view_Some; [done| |done].
      by rewrite list_lookup_insert_ne.
Qed.

Lemma wf_zero t i v : vma_wf t -> t !! i = Some v -> vma_wf (<[i:=zero_vma]> t).
Proof. intros. by eapply wf_insert. Qed.

Lemma empty_slot_Some t i :
  empty_slot t = Some i -> exists v, t !! i = Some v /\ used v = false.
Proof. intros (v & ? & ?%negb_true_iff)%find_index_Some. eauto. Qed.

Lemma ahead_mono t cur cur' : cur <= cur' -> (ahead cur' t <= ahead cur t)%nat.
Proof. intros. apply count_if_mono. intros v _. unfold reaches. rewrite !andb_true_iff, !Z.ltb_lt. intuition lia. Qed.

Lemma ahead_lt t i v cur :
  t !! i = Some v -> used v = true -> cur < end_ v -> (ahead (end_ v) t < ahead cur t)%nat.
Proof.
  intros Hi Hu Hc. eapply count_if_lt; [|done|..].
  - intros y. unfold reaches. rewrite !andb_true_iff, !Z.ltb_lt. intuition lia.
  - unfold reaches. by rewrite Hu, Z.ltb_irrefl.
  - unfold reaches. rewrite Hu. simpl. by apply Z.ltb_lt.
Qed.

Lemma ahead_insert t i v w cur :
  t !! i = Some v ->
  (ahead cur (<[i:=w]> t) + (if reaches cur v then 1 else 0) =
   ahead cur t + (if reaches cur w then 1 else 0))%nat.
Proof. apply count_if_insert. Qed.

Lemma ahead_le t cur : (ahead cur t <= length t)%nat.
Proof. apply count_if_le. Qed.

(** ** [vma_conflicts] and [vma_add] *)

Lemma conflicts_false t s l e :
  vma_wf t -> range_end s l = Some e ->
  vma_conflicts (Some t) s l = false <->
  forall i v, t !! i = Some v -> used v = true -> end_ v <= s \/ e <= start v.
Proof.
  intros Hwf He. unfold vma_conflicts. rewrite He. rewrite <- not_true_iff_false, existsb_exists.
  split.
  - intros Hn i v Hi Hu. destruct (Z.le_gt_cases (end_ v) s); [by left|right].
    destruct (Z.le_gt_cases e (start v)); [done|]. destruct Hn. exists v.
    split; [by eapply list_elem_of_In, list_elem_of_lookup_2|].
    unfold overlaps. rewrite Hu, !andb_true_iff, !Z.ltb_lt. auto.
  - intros Ha (v & Hin & Ho). apply list_elem_of_In, list_elem_of_lookup in Hin as [i Hi].
    unfold overlaps in Ho. dest_bool. destruct (Ha i v); auto; lia.
Qed.

Lemma conflicts_view t s l e :
  vma_wf t -> range_end s l = Some e -> s < e ->
  vma_conflicts (Some t) s l = false <-> forall a, s <= a < e -> vma_view t a = None.
Proof.
  intros Hwf He Hlt. rewrite (conflicts_false _ _ _ _ Hwf He). split.
  - intros Ha a Hr. apply view_None. intros i v Hi. apply contains_false. intros Hu.
    destruct (Ha i v); auto; lia.
  - intros Ha i v Hi Hu. destruct (Z.le_gt_cases (end_ v) s); [by left|right].
    destruct (Z.le_gt_cases e (start v)); [done|].
    pose proof (wf_range _ Hwf _ _ Hi Hu). specialize (Ha (Z.max s (start v)) ltac:(lia)).
    rewrite view_None in Ha. specialize (Ha i v Hi). rewrite contains_false in Ha. apply Ha in Hu. lia.
Qed.

Lemma same_kind_attr v p mf fou :
  vma_same_kind v p mf fou = true <-> attr v = (p, mf, fou).
Proof.
  unfold vma_same_kind, attr. rewrite !andb_true_iff, !Z.eqb_eq, eqb_true_iff.
  split; [intros [[-> ->] ->]; done|intros; by simplify_eq].
Qed.

Lemma scan_neighbours_spec l i s e p mf fou b a :
  let r := scan_neighbours l i s e p mf fou b a in
  (r.1 = b \/ exists k v, r.1 = Some (i + k)%nat /\ l !! k = Some v /\ is_before s p mf fou v) /\
  (r.2 = a \/ exists k v, r.2 = Some (i + k)%nat /\ l !! k = Some v /\ is_after e p mf fou v).
Proof.
  revert i b a. induction l as [|x l IH]; intros i b a; simpl; [auto|].
  assert (Hsh : forall (Q : vmm_vma_t -> Prop) (o : option nat),
    (exists k v, o = Some (S i + k)%nat /\ l !! k = Some v /\ Q v) ->
    exists k v, o = Some (i + k)%nat /\ (x :: l) !! k = Some v /\ Q v).
  { intros Q o (k & v & -> & ? & ?). exists (S k), v. split; [f_equal; lia|]. auto. }
  assert (Hhd : forall (Q : vmm_vma_t -> Prop) (o : option nat), Q x -> o = Some i ->
    exists k v, o = Some (i + k)%nat /\ (x :: l) !! k = Some v /\ Q v).
  { intros Q o HQ ->. exists 0%nat, x. split; [f_equal; lia|auto]. }
  destruct (negb (used x) || negb (vma_same_kind x p mf fou)) eqn:Hc.
  { destruct (IH (S i) b a) as [[?|?] [?|?]]; split; auto. }
  apply orb_false_iff in Hc as [Hu%negb_false_iff Hk%negb_false_iff].
  apply same_kind_attr in Hk.
  destruct (end_ x =? s) eqn:Hs; [|destruct (start x =? e) eqn:He]; dest_bool.
  - destruct (IH (S i) (Some i) a) as [[?|?] [?|?]]; split; auto; right; by apply Hhd.
  - destruct (IH (S i) b (Some i)) as [[?|?] [?|?]]; split; auto; right; by apply Hhd.
  - destruct (IH (S i) b a) as [[?|?] [?|?]]; split; auto.
Qed.

(** The scan misses no coalescing candidate. *)
Lemma scan_neighbours_complete l i s e p mf fou b a :
  scan_neighbours l i s e p mf fou b a = (None, None) ->
  b = None /\ a = None /\
  forall k v, l !! k = Some v -> ~ is_before s p mf fou v /\ ~ is_after e p mf fou v.
Proof.
  revert i b a. induction l as [|x l IH]; intros i b a; simpl.
  { intros. by simplify_eq. }
  unfold is_before, is_after in *.
  destruct (negb (used x) || negb (vma_same_kind x p mf fou)) eqn:Hc;
    [|destruct (end_ x =? s) eqn:Hs; [|destruct (start x =? e) eqn:He]];
    intros (? & ? & Hl)%IH; simplify_eq; split_and!; try done.
  all: intros [|k] v Hk; simplify_eq/=; [|by eapply Hl].
  - rewrite <- same_kind_attr. dest_bool; intuition congruence.
  - dest_bool; lia.
Qed.

Lemma vma_add_result t s l e p mf fou t' rc :
  vma_wf t -> range_end s l = Some e -> s < e ->
  vma_conflicts (Some t) s l = false ->
  vma_add (Some t) s l p mf fou = (Some t', rc) ->
  add_result t s e p mf fou t' rc.
Proof.
  intros Hwf He Hlt Hc. unfold vma_add. rewrite He, Hc.
  pose proof (scan_neighbours_spec t 0 s e p mf fou None None) as [Hb Ha].
  destruct (scan_neighbours t 0 s e p mf fou None None) as [ob oa]. simpl in Hb, Ha.
  destruct ob as [b|].
  - destruct Hb as [?|(kb & vb & ? & Hkb & Hvb)]; [done|]. simplify_eq/=.
    destruct oa as [a|].
    + destruct Ha as [?|(ka & va & ? & Hka & Hva)]; [done|]. simplify_eq/=.
      assert (ka <> kb).
      { intros ->. simplify_eq. destruct Hvb as (Hu & _ & Hend), Hva as (_ & _ & Hstart).
        pose proof (wf_range _ Hwf _ _ Hkb Hu). lia. }
      intros ?. simplify_eq. rewrite (vma_at_lookup _ _ _ Hkb), (vma_at_lookup _ _ _ Hka).
      rewrite list_insert_insert_ne by done. by eapply add_join.
    + intros ?. simplify_eq. rewrite (vma_at_lookup _ _ _ Hkb). by eapply add_grow.
  - destruct oa as [a|].
    + destruct Ha as [?|(ka & va & ? & Hka & Hva)]; [done|]. simplify_eq/=.
      intros ?. simplify_eq. rewrite (vma_at_lookup _ _ _ Hka). by eapply add_lower.
    + destruct (empty_slot t) as [i|] eqn:Hes; intros ?; simplify_eq; [|by apply add_full].
      apply empty_slot_Some in Hes as (v & ? & ?). by eapply add_fresh.
Qed.

Section add_result.
Context {t : vma_table} {s e p mf : Z} {fou : bool}.
Hypothesis Hwf : vma_wf t.
Hypothesis Hse : 0 <= s < e.
Hypothesis He : e < 2 ^ 64.
Hypothesis Hfree : forall i v, t !! i = Some v -> used v = true -> end_ v <= s \/ e <= start v.

Lemma add_result_length t' rc : add_result t s e p mf fou t' rc -> length t' = length t.
Proof. destruct 1; by rewrite ?length_insert. Qed.

Lemma add_join_aux b a vb va :
  t !! b = Some vb -> t !! a = Some va -> a <> b ->
  is_before s p mf fou vb -> is_after e p mf fou va ->
  vma_wf (<[b := set_end vb (end_ va)]> (<[a := zero_vma]> t)) /\
  forall x, vma_view (<[b := set_end vb (end_ va)]> (<[a := zero_vma]> t)) x =
    if (s <=? x) && (x <? e) then Some (p, mf, fou) else vma_view t x.
Proof.
  intros Hb Ha Hab (Hub & Hkb & Heb) (Hua & Hka & Hsa).
  pose proof (wf_range _ Hwf _ _ Hb Hub) as Hrb. pose proof (wf_range _ Hwf _ _ Ha Hua) as Hra.
  pose proof (wf_zero _ _ _ Hwf Ha) as Hwf1.
  assert (<[a:=zero_vma]> t !! b = Some vb) as Hb1 by by rewrite list_lookup_insert_ne.
  assert (vma_wf (<[b := set_end vb (end_ va)]> (<[a := zero_vma]> t))) as Hwf2.
  { eapply wf_insert; [done..|simpl; lia|]. unfold disjoint. simpl.
    intros _ j u Hj [(-> & -> & _)|[Hja Hju]]%lookup_insert_cases Hu; [done|].
    pose proof (wf_disjoint _ Hwf _ _ _ _ Hju Hb Hu Hub Hj).
    pose proof (wf_disjoint _ Hwf _ _ _ _ Hju Ha Hu Hua Hja).
    pose proof (Hfree _ _ Hju Hu). pose proof (wf_range _ Hwf _ _ Hju Hu).
    unfold disjoint in *. lia. }
  split; [done|]. intros x.
  rewrite (view_insert _ _ _ _ _ Hwf1 Hb1 Hwf2), (view_insert _ _ _ _ _ Hwf Ha Hwf1).
  destruct (contains x va) eqn:Hxa.
  { rewrite (view_Some _ _ _ _ Hwf Ha Hxa), Hka. apply contains_true in Hxa.
    unfold contains; simpl. rewrite Hub. unfold attr in *; simpl. bsolve. }
  destruct (contains x vb) eqn:Hxb.
  { rewrite (view_Some _ _ _ _ Hwf Hb Hxb), Hkb. apply contains_true in Hxb.
    unfold contains; simpl. rewrite Hub. unfold attr in *; simpl. bsolve. }
  apply contains_false in Hxa, Hxb; try done.
  unfold contains; simpl. rewrite Hub. unfold attr in *; simpl. bsolve.
Qed.

Lemma add_one_aux i v w :
  t !! i = Some v ->
  used w = true -> attr w = (p, mf, fou) ->
  (used v = false /\ start w = s /\ end_ w = e \/
   used v = true /\ attr v = attr w /\ start w = start v /\ end_ v = s /\ end_ w = e \/
   used v = true /\ attr v = attr w /\ start w = s /\ start v = e /\ end_ w = end_ v) ->
  vma_wf (<[i := w]> t) /\
  forall x, vma_view (<[i := w]> t) x =
    if (s <=? x) && (x <? e) then Some (p, mf, fou) else vma_view t x.
Proof.
  intros Hi Huw Hkw Hcase.
  assert (vma_wf (<[i := w]> t)) as Hwf1.
  { eapply wf_insert; [done..| |].
    - intros _. destruct Hcase as [(? & -> & ->)|[(Hu & ? & -> & ? & ->)|(Hu & ? & -> & ? & ->)]];
        try pose proof (wf_range _ Hwf _ _ Hi Hu); lia.
    - intros _ j u Hj Hju Hu. pose proof (Hfree _ _ Hju Hu). pose proof (wf_range _ Hwf _ _ Hju Hu).
      unfold disjoint in *.
      destruct Hcase as [(? & -> & ->)|[(Hv & ? & -> & ? & ->)|(Hv & ? & -> & ? & ->)]]; [lia|..];
        pose proof (wf_disjoint _ Hwf _ _ _ _ Hju Hi Hu Hv Hj); unfold disjoint in *; lia. }
  split; [done|]. intros x. rewrite (view_insert _ _ _ _ _ Hwf Hi Hwf1), Hkw.
  destruct (contains x v) eqn:Hx.
  - rewrite (view_Some _ _ _ _ Hwf Hi Hx). apply contains_true in Hx as [Huv Hx].
    assert (contains x w = true) as ->
      by (apply contains_true; split; [done|]; destruct Hcase; intuition lia || congruence).
    assert (attr v = (p, mf, fou)) as -> by (destruct Hcase; intuition congruence). bsolve.
  - rewrite contains_false in Hx. unfold contains. rewrite Huw.
    destruct Hcase as [(Hu & -> & ->)|[(Hu & ? & -> & ? & ->)|(Hu & ? & -> & ? & ->)]];
      try specialize (Hx Hu); try pose proof (wf_range _ Hwf _ _ Hi Hu); bsolve.
Qed.

Lemma add_result_ok t' rc :
  add_result t s e p mf fou t' rc -> rc = 0 ->
  vma_wf t' /\
  forall x, vma_view t' x = if (s <=? x) && (x <? e) then Some (p, mf, fou) else vma_view t x.
Proof.
  intros [b a vb va|b vb ? Hb|a va ? Ha|i v|] Hrc; [..|done].
  - by apply add_join_aux.
  - destruct Hb as (? & Hk & ?). eapply add_one_aux; [done|done|by rewrite <- Hk|].
    right; left. simpl. by rewrite Hk.
  - destruct Ha as (? & Hk & ?). eapply add_one_aux; [done|done|by rewrite <- Hk|].
    right; right. simpl. by rewrite Hk.
  - eapply add_one_aux; try done. by left.
Qed.

Lemma add_result_ahead t' rc :
  add_result t s e p mf fou t' rc -> (ahead e t' <= ahead e t)%nat.
Proof.
  destruct 1 as [b a vb va Hb Ha Hab (Hub & ? & ?) (Hua & ? & ?)|b vb Hb (Hub & ? & ?)
    |a va Ha (Hua & ? & ?)|i v Hi Hu|]; [..|done].
  - assert (<[a:=zero_vma]> t !! b = Some vb) as Hb1 by by rewrite list_lookup_insert_ne.
    pose proof (ahead_insert _ _ _ zero_vma e Ha) as HA1.
    pose proof (ahead_insert _ _ _ (set_end vb (end_ va)) e Hb1) as HA2.
    unfold reaches in HA1, HA2. simpl in *. rewrite Hub, Hua in *. simpl in *.
    destruct (e <? end_ vb), (e <? end_ va); lia.
  - pose proof (ahead_insert _ _ _ (set_end vb e) e Hb) as HA1.
    unfold reaches in HA1. simpl in *. rewrite Hub, Z.ltb_irrefl in *. simpl in *.
    destruct (e <? end_ vb); lia.
  - pose proof (ahead_insert _ _ _ (set_start va s) e Ha) as HA1.
    unfold reaches in HA1. simpl in *. rewrite Hua in *. simpl in *. lia.
  - pose proof (ahead_insert _ _ _ (mk_vma s e p mf true fou) e Hi) as HA1.
    unfold reaches in HA1. simpl in *. rewrite Hu, Z.ltb_irrefl in *. simpl in *. lia.
Qed.
End add_result.

Lemma vma_add_Some t s l p mf fou : exists t' rc, vma_add (Some t) s l p mf fou = (Some t', rc).
Proof.
  unfold vma_add. destruct (range_end s l); [|eauto]. destruct (vma_conflicts _ _ _); [eauto|].
  destruct (scan_neighbours _ _ _ _ _ _ _ _ _) as [[?|] [?|]]; eauto.
  destruct (empty_slot t); eauto.
Qed.

(** ** The query loops *)

Lemma range_ok_loop_spec fuel t cur e :
  vma_wf t -> (1 <= fuel)%nat -> (cur < e -> (S (ahead cur t) <= fuel)%nat) ->
  exists b, range_ok_loop fuel t cur e = Some b /\
    (b = true <-> forall a, cur <= a < e -> vma_view t a <> None).
Proof.
  intros Hwf. revert cur. induction fuel as [|fuel IH]; intros cur Hf Hm; [lia|]. simpl.
  destruct (cur <? e) eqn:Hlt; dest_bool; [|exists true; split; [done|]; intuition lia].
  destruct (containing t cur) as [i|] eqn:Hc.
  - apply containing_Some in Hc as (v & Hi & -> & Hu & Hr).
    pose proof (ahead_lt t i v cur Hi Hu ltac:(lia)).
    destruct (IH (Z.min (end_ v) e)) as (b & -> & Hb); [lia| |].
    { intros. replace (Z.min (end_ v) e) with (end_ v) by lia. lia. }
    exists b. split; [done|]. rewrite Hb. split; [|intros Ha a ?; apply Ha; lia].
    intros Ha a Ha1. destruct (Z.lt_ge_cases a (end_ v)); [|apply Ha; lia].
    rewrite (view_Some _ _ _ v Hwf Hi); [done|]. apply contains_true. split; [done|lia].
  - exists false. split; [done|]. split; [done|]. intros Ha. destruct (Ha cur); [lia|].
    unfold vma_view. by rewrite Hc.
Qed.

Lemma range_info_loop_spec fuel t x cur e :
  vma_wf t -> (1 <= fuel)%nat -> (cur < e -> (S (ahead cur t) <= fuel)%nat) ->
  exists b, range_info_loop fuel t x.1.1 x.1.2 x.2 cur e = Some b /\
    (b = true <-> forall a, cur <= a < e -> vma_view t a = Some x).
Proof.
  intros Hwf. revert cur. induction fuel as [|fuel IH]; intros cur Hf Hm; [lia|]. simpl.
  destruct (cur <? e) eqn:Hlt; dest_bool; [|exists true; split; [done|]; intuition lia].
  destruct (containing t cur) as [i|] eqn:Hc.
  - apply containing_Some in Hc as (v & Hi & -> & Hu & Hr).
    assert (forall a, start v <= a < end_ v -> vma_view t a = Some (attr v)) as Hv.
    { intros a Ha. eapply view_Some; [done..|]. by apply contains_true. }
    destruct (negb _ || negb _ || negb _) eqn:Hk.
    + exists false. split; [done|]. split; [done|]. intros Ha.
      specialize (Ha cur ltac:(lia)). rewrite Hv in Ha by lia. simplify_eq/=.
      rewrite !Z.eqb_refl, eqb_reflx in Hk. done.
    + assert (attr v = x) as Hx.
      { destruct x as [[p mf] fou]. simpl in *. dest_bool. apply same_kind_attr.
        unfold vma_same_kind. rewrite !andb_true_iff, !Z.eqb_eq. done. }
      pose proof (ahead_lt t i v cur Hi Hu ltac:(lia)).
      destruct (IH (Z.min (end_ v) e)) as (b & -> & Hb); [lia| |].
      { intros. replace (Z.min (end_ v) e) with (end_ v) by lia. lia. }
      exists b. split; [done|]. rewrite Hb. split; [|intros Ha a ?; apply Ha; lia].
      intros Ha a Ha1. destruct (Z.lt_ge_cases a (end_ v)); [|apply Ha; lia].
      rewrite Hv by lia. by rewrite Hx.
  - exists false. split; [done|]. split; [done|]. intros Ha. specialize (Ha cur ltac:(lia)).
    unfold vma_view in Ha. by rewrite Hc in Ha.
Qed.

Lemma fuel_enough t cur : (S (ahead cur t) <= loop_fuel t)%nat.
Proof. pose proof (ahead_le t cur). unfold loop_fuel. lia. Qed.

(** ** Punching a hole *)

Section split.
Context {t : vma_table} {i : nat} {v : vmm_vma_t} {s e : Z}.
Hypothesis Hwf : vma_wf t.
Hypothesis Hi : t !! i = Some v.
Hypothesis Hu : used v = true.
Hypothesis Hse : start v <= s < e.
Hypothesis Hev : e <= end_ v.

(** The slot disappears or keeps one of its two sides. *)
Lemma trim_slot w :
  (used w = false /\ start v = s /\ e = end_ v \/
   used w = true /\ attr w = attr v /\
     (start w = start v /\ end_ w = s /\ start v < s /\ e = end_ v \/
      start w = e /\ end_ w = end_ v /\ start v = s /\ e < end_ v)) ->
  hole_cut t (<[i:=w]> t) i v s e.
Proof.
  intros Hw. pose proof (wf_range _ Hwf _ _ Hi Hu) as Hr.
  assert (vma_wf (<[i:=w]> t)) as Hwf1.
  { eapply wf_insert; [done..|destruct Hw; intuition (congruence || lia)|].
    intros Huw j u Hj Hju Huu. pose proof (wf_disjoint _ Hwf _ _ _ _ Hju Hi Huu Hu Hj).
    unfold disjoint in *. destruct Hw; intuition (congruence || lia). }
  split; [done|by rewrite length_insert|..].
  - intros a. rewrite (view_insert _ _ _ _ _ Hwf Hi Hwf1).
    destruct (contains a v) eqn:Hcv.
    + rewrite (view_Some _ _ _ _ Hwf Hi Hcv). apply contains_true in Hcv as [_ Hcv].
      unfold contains. destruct Hw as [(-> & ? & ?)|(-> & -> & ?)]; simpl; bsolve.
    + rewrite contains_false in Hcv. specialize (Hcv Hu). unfold contains.
      destruct Hw as [(-> & ? & ?)|(-> & -> & ?)]; simpl; bsolve.
  - intros Hend. pose proof (ahead_insert _ _ _ w e Hi) as Ha. unfold reaches in Ha.
    rewrite Hu in Ha. simpl in Ha.
    destruct Hw as [(Huw & ? & ?)|(Huw & _ & ?)]; rewrite Huw in Ha; simpl in Ha;
      revert Ha; bsolve.
  - intros. by rewrite list_lookup_insert_ne.
  - intros j u [(-> & -> & _)|[? ?]]%lookup_insert_cases Huu; [right|by left].
    destruct Hw as [(? & ? & ?)|(_ & _ & ?)]; [congruence|lia].
Qed.

(** The slot keeps its left side and an empty slot takes the right one. *)
Lemma split_slot r vr :
  t !! r = Some vr -> used vr = false -> start v < s -> e < end_ v ->
  hole_cut t (<[r:=set_end (set_start v e) (end_ v)]> (<[i:=set_end v s]> t)) i v s e.
Proof.
  intros Hvr Hur Hl Hr'. pose proof (wf_range _ Hwf _ _ Hi Hu) as Hr.
  assert (r <> i) as Hri by congruence.
  assert (vma_wf (<[i:=set_end v s]> t)) as Hwf1.
  { eapply wf_insert; [done..|simpl; lia|]. intros _ j u Hj Hju Huu.
    pose proof (wf_disjoint _ Hwf _ _ _ _ Hju Hi Huu Hu Hj). unfold disjoint in *. simpl. lia. }
  assert (<[i:=set_end v s]> t !! r = Some vr) as Hvr1 by by rewrite list_lookup_insert_ne.
  assert (vma_wf (<[r:=set_end (set_start v e) (end_ v)]> (<[i:=set_end v s]> t))) as Hwf2.
  { eapply wf_insert; [done..|simpl; lia|].
    intros _ j u Hj [(-> & -> & _)|[Hji Hju]]%lookup_insert_cases Huu; unfold disjoint; simpl; [lia|].
    pose proof (wf_disjoint _ Hwf _ _ _ _ Hju Hi Huu Hu Hji). unfold disjoint in *. lia. }
  split; [done|by rewrite !length_insert| |lia|lia|].
  - intros a. rewrite (view_insert _ _ _ _ _ Hwf1 Hvr1 Hwf2), (view_insert _ _ _ _ _ Hwf Hi Hwf1).
    assert (contains a vr = false) as -> by (unfold contains; by rewrite Hur).
    destruct (contains a v) eqn:Hcv.
    + rewrite (view_Some _ _ _ _ Hwf Hi Hcv). apply contains_true in Hcv as [_ Hcv].
      unfold contains; simpl; rewrite Hu; unfold attr; simpl; bsolve.
    + rewrite contains_false in Hcv. specialize (Hcv Hu).
      unfold contains; simpl; rewrite Hu; unfold attr; simpl; bsolve.
  - intros j u [(-> & -> & _)|[? [(-> & -> & _)|[? ?]]%lookup_insert_cases]]%lookup_insert_cases ?;
      simpl; [right; right; lia|right; left; lia|by left].
Qed.

Lemma split_for_hole_spec :
  (exists t', split_for_hole t i s e = (t', 0) /\ hole_cut t t' i v s e) \/
  (split_for_hole t i s e = (t, - ENOMEM) /\ start v < s /\ e < end_ v /\ empty_slot t = None).
Proof.
  unfold split_for_hole. rewrite (vma_at_lookup _ _ _ Hi).
  destruct (start v <? s) eqn:Hl, (e <? end_ v) eqn:Hr'; dest_bool.
  - destruct (empty_slot t) as [r|] eqn:Hes; [left|right; by split_and!].
    apply empty_slot_Some in Hes as (vr & Hvr & Hur).
    rewrite list_insert_insert_ne by congruence. eexists. split; [done|]. by eapply split_slot.
  - left. eexists. split; [done|]. apply trim_slot. right. simpl. split_and!; [done..|lia].
  - left. eexists. split; [done|]. apply trim_slot. right. simpl. split_and!; [done..|lia].
  - left. eexists. split; [done|]. apply trim_slot. left. simpl. split_and!; [done|lia..].
Qed.
End split.

(** ** [vma_remove] *)

Lemma hole_next_aligned t t1 i v cur e j u :
  vma_wf t -> t !! i = Some v -> used v = true -> start v <= cur < end_ v -> cur < e ->
  hole_cut t t1 i v cur (Z.min (end_ v) e) ->
  t1 !! j = Some u -> used u = true -> start u <= Z.min (end_ v) e < end_ u ->
  start u = Z.min (end_ v) e.
Proof.
  intros Hwf Hi Hu Hr Hlt Hcut Hj Huu Hju.
  destruct (hole_slots _ _ _ _ _ _ Hcut j u Hj Huu) as [[Hji Hj']|[?|?]]; [|lia..].
  pose proof (wf_disjoint _ Hwf _ _ _ _ Hi Hj' Hu Huu ltac:(done)).
  pose proof (wf_range _ Hwf _ _ Hj' Huu). unfold disjoint in *. lia.
Qed.

(** Once the loop is past its first slot, the slot under [cur] starts at [cur]
    and no split can fail. *)
Lemma remove_loop_aligned fuel t cur e :
  vma_wf t -> (1 <= fuel)%nat -> (cur < e -> (S (ahead cur t) <= fuel)%nat) ->
  (forall i v, t !! i = Some v -> used v = true -> start v <= cur < end_ v -> start v = cur) ->
  (forall a, cur <= a < e -> vma_view t a <> None) ->
  exists t', remove_loop fuel t cur e = Some (t', 0) /\ vma_wf t' /\ length t' = length t /\
    forall a, vma_view t' a = if (cur <=? a) && (a <? e) then None else vma_view t a.
Proof.
  revert t cur. induction fuel as [|fuel IH]; intros t cur Hwf Hf Hm Hal Hall; [lia|]. simpl.
  destruct (cur <? e) eqn:Hlt; dest_bool; [|exists t; split_and!; [done..|intros; bsolve]].
  destruct (containing t cur) as [i|] eqn:Hc; [|exfalso; apply (Hall cur); [lia|];
    unfold vma_view; by rewrite Hc].
  apply containing_Some in Hc as (v & Hi & -> & Hu & Hr).
  pose proof (Hal _ _ Hi Hu Hr) as Hst.
  destruct (split_for_hole_spec (s:=cur) (e:=Z.min (end_ v) e) Hwf Hi Hu)
    as [(t1 & -> & Hcut)|(_ & ? & _)]; [lia..| |lia].
  simpl. pose proof Hcut as [Hwf1 Hlen1 Hview1 Hah1 _ _].
  destruct (IH t1 (Z.min (end_ v) e)) as (t' & -> & Hwf' & Hlen' & Hview').
  - done.
  - pose proof (ahead_lt t i v cur Hi Hu ltac:(lia)). lia.
  - intros. replace (Z.min (end_ v) e) with (end_ v) in * by lia. rewrite Hah1 by done.
    pose proof (ahead_lt t i v cur Hi Hu ltac:(lia)). lia.
  - intros j u ???. by eapply (hole_next_aligned t t1 i v cur e j u).
  - intros a Ha. rewrite Hview1. bsolve. apply Hall; lia.
  - exists t'. split_and!; [done..|congruence|]. intros a. rewrite Hview', Hview1. bsolve.
Qed.

Lemma remove_loop_spec t cur e :
  vma_wf t -> cur < e -> (forall a, cur <= a < e -> vma_view t a <> None) ->
  exists t' rc, remove_loop (loop_fuel t) t cur e = Some (t', rc) /\ length t' = length t /\
    ((rc = 0 /\ vma_wf t' /\
      forall a, vma_view t' a = if (cur <=? a) && (a <? e) then None else vma_view t a) \/
     (rc = - ENOMEM /\ t' = t)).
Proof.
  intros Hwf Hlt Hall. pose proof (fuel_enough t cur) as Hf.
  destruct (loop_fuel t) as [|fuel]; [lia|]. simpl.
  assert ((cur <? e) = true) as -> by by apply Z.ltb_lt.
  destruct (containing t cur) as [i|] eqn:Hc; [|exfalso; apply (Hall cur); [lia|];
    unfold vma_view; by rewrite Hc].
  apply containing_Some in Hc as (v & Hi & -> & Hu & Hr).
  destruct (split_for_hole_spec (s:=cur) (e:=Z.min (end_ v) e) Hwf Hi Hu)
    as [(t1 & -> & Hcut)|(-> & ? & _)]; [lia..| |].
  2: { exists t, (- ENOMEM). split_and!; [done..|by right]. }
  simpl. pose proof Hcut as [Hwf1 Hlen1 Hview1 Hah1 _ _].
  pose proof (ahead_lt t i v cur Hi Hu ltac:(lia)).
  destruct (remove_loop_aligned fuel t1 (Z.min (end_ v) e) e) as (t' & -> & Hwf' & Hlen' & Hview').
  - done.
  - lia.
  - intros. replace (Z.min (end_ v) e) with (end_ v) in * by lia. rewrite Hah1 by done. lia.
  - intros j u ???. by eapply (hole_next_aligned t t1 i v cur e j u).
  - intros a Ha. rewrite Hview1. bsolve. apply Hall; lia.
  - exists t', 0. split_and!; [done|congruence|]. left. split_and!; [done..|].
    intros a. rewrite Hview', Hview1. bsolve.
Qed.

(** ** [vma_remove_overlaps] *)

Lemma remove_overlaps_loop_spec n i t s e :
  vma_wf t -> s < e -> (i + n)%nat = length t ->
  (forall j v, (j < i)%nat -> t !! j = Some v -> used v = true -> end_ v <= s \/ e <= start v) ->
  exists t' rc, remove_overlaps_loop n i t s e = (t', rc) /\ length t' = length t /\
    (not_around t s e -> rc = 0) /\
    ((rc = 0 /\ vma_wf t' /\
      forall a, vma_view t' a = if (s <=? a) && (a <? e) then None else vma_view t a) \/
     (rc = - ENOMEM /\ t' = t)).
Proof.
  revert i t. induction n as [|n IH]; intros i t Hwf Hse Hn Hdone; simpl.
  { exists t, 0. split_and!; [done..|]. left. split_and!; [done..|]. intros a. bsolve.
    apply view_None. intros j v Hj. apply contains_false. intros Hu.
    pose proof (lookup_lt_Some _ _ _ Hj). destruct (Hdone j v); [lia|done..|lia|lia]. }
  destruct (lookup_lt_is_Some_2 t i) as [v Hi]; [lia|]. rewrite (vma_at_lookup _ _ _ Hi).
  assert (Hskip : (used v = true -> end_ v <= s \/ e <= start v) ->
    forall j w, (j < S i)%nat -> t !! j = Some w -> used w = true -> end_ w <= s \/ e <= start w).
  { intros Hv j w Hj Hw Hu. destruct (decide (j = i)) as [->|]; [|apply (Hdone j); [lia|done..]].
    simplify_eq. auto. }
  destruct (used v) eqn:Hu; simpl; [|by apply IH; [done..|lia|apply Hskip]].
  destruct ((end_ v <=? s) || (e <=? start v)) eqn:Ho.
  { apply IH; [done..|lia|]. apply Hskip. intros _. dest_bool; lia. }
  dest_bool. pose proof (wf_range _ Hwf _ _ Hi Hu) as Hr.
  destruct (split_for_hole_spec (s:=Z.max s (start v)) (e:=Z.min e (end_ v)) Hwf Hi Hu)
    as [(t1 & -> & [Hwf1 Hlen1 Hview1 Hah1 Hfr1 Hsl1])|(-> & ? & ? & _)]; [lia..| |].
  - simpl. destruct (IH (S i) t1) as (t' & rc & -> & Hlen' & Hna' & Hcase).
    + done.
    + done.
    + lia.
    + intros j w Hj Hw Huw. destruct (Hsl1 j w Hw Huw) as [[Hji Hw']|[?|?]].
      * by apply (Hdone j); [lia|..].
      * pose proof (wf_range _ Hwf1 _ _ Hw Huw). lia.
      * pose proof (wf_range _ Hwf1 _ _ Hw Huw). lia.
    + assert (rc = 0) as ->.
      { apply Hna'. intros j w Hw Huw ?. destruct (Hsl1 j w Hw Huw) as [[Hji Hw']|[?|?]]; [|lia..].
        pose proof (wf_disjoint _ Hwf _ _ _ _ Hi Hw' Hu Huw ltac:(done)). unfold disjoint in *. lia. }
      destruct Hcase as [(_ & Hwf' & Hview')|[? _]]; [|done].
      exists t', 0. split_and!; [done|congruence|done|]. left. split_and!; [done..|].
      intros a. rewrite Hview', Hview1. bsolve.
  - exists t, (- ENOMEM). split_and!; [done..| |by right].
    intros Hna. destruct (Hna i v Hi Hu). lia.
Qed.

(** ** [vma_protect] *)

(** An address of a range whose protection was only partly changed: it lost its
    mapping, kept it, or has the new protection. *)
Definition partly_protected (p : Z) (x x' : option (Z * Z * bool)) : Prop := x' = None \/ x' = x \/ x' = set_prot p <$> x.

Lemma partly_protected_twice p x x' : partly_protected p (set_prot p <$> x) x' -> partly_protected p x x'.
Proof. intros [->|[->| ->]]; [by left|by right; right|right; right]. by destruct x as [[[? ?] ?]|]. Qed.

Lemma protect_loop_spec fuel t cur e p :
  vma_wf t -> 0 <= cur -> e < 2 ^ 64 ->
  (1 <= fuel)%nat -> (cur < e -> (S (ahead cur t) <= fuel)%nat) ->
  (forall a, cur <= a < e -> vma_view t a <> None) ->
  exists t' rc, protect_loop fuel t cur e p = Some (t', rc) /\ vma_wf t' /\ length t' = length t /\
    (forall a, ~ (cur <= a < e) -> vma_view t' a = vma_view t a) /\
    ((rc = 0 /\ forall a, cur <= a < e -> vma_view t' a = set_prot p <$> vma_view t a) \/
     rc = - ENOMEM /\ forall a, partly_protected p (vma_view t a) (vma_view t' a)).
Proof.
  revert t cur. induction fuel as [|fuel IH]; intros t cur Hwf H0 Hmax Hf Hm Hall; [lia|]. simpl.
  destruct (cur <? e) eqn:Hlt; dest_bool.
  2: { exists t, 0. split_and!; [done..|]. left. split; [done|]. lia. }
  destruct (containing t cur) as [i|] eqn:Hc; [|exfalso; apply (Hall cur); [lia|];
    unfold vma_view; by rewrite Hc].
  apply containing_Some in Hc as (v & Hi & -> & Hu & Hr).
  set (c := Z.min (end_ v) e). assert (cur < c <= e) as Hcr by lia.
  destruct (split_for_hole_spec (s:=cur) (e:=c) Hwf Hi Hu) as [(t1 & -> & Hcut)|(-> & _)]; [lia..| |].
  2: { exists t, (- ENOMEM). split_and!; [done..|right]. split; [done|]. intros a. by right; left. }
  simpl. pose proof Hcut as [Hwf1 Hlen1 Hview1 Hah1 _ _].
  destruct (vma_add_Some t1 cur (c - cur) p (map_flags v) (free_on_unmap v)) as (t2 & rc & Hadd).
  rewrite Hadd.
  assert (range_end cur (c - cur) = Some c) as Hre.
  { rewrite range_end_spec by (unfold is_u64; lia). bsolve. f_equal. lia. }
  assert (vma_conflicts (Some t1) cur (c - cur) = false) as Hnc.
  { rewrite (conflicts_view _ _ _ _ Hwf1 Hre) by lia. intros a Ha. rewrite Hview1. bsolve. }
  pose proof (vma_add_result _ _ _ _ _ _ _ _ _ Hwf1 Hre ltac:(lia) Hnc Hadd) as Hres.
  rewrite (conflicts_false _ _ _ _ Hwf1 Hre) in Hnc.
  pose proof (add_result_length _ _ Hres) as Hlen2.
  pose proof (add_result_ahead _ _ Hres) as Hah2.
  assert (rc = 0 \/ (rc = - ENOMEM /\ t2 = t1)) as [->|[-> ->]] by (destruct Hres; auto).
  2: { exists t1, (- ENOMEM). split_and!; [done..| |right; split; [done|]]; intros a.
       - intros Ha. rewrite Hview1. bsolve.
       - rewrite Hview1. destruct (_ && _); [by left|by right; left]. }
  destruct (add_result_ok (s:=cur) (e:=c) Hwf1 ltac:(lia) ltac:(lia) Hnc _ _ Hres eq_refl) as [Hwf2 Hview2]. simpl.
  assert (Hstep : forall a, vma_view t2 a =
    if (cur <=? a) && (a <? c) then set_prot p <$> vma_view t a else vma_view t a).
  { intros a. rewrite Hview2, Hview1. bsolve.
    rewrite (view_Some _ _ _ v Hwf Hi); [done|]. apply contains_true. split; [done|lia]. }
  pose proof (ahead_lt t i v cur Hi Hu ltac:(lia)).
  destruct (IH t2 c) as (t' & rc & -> & Hwf' & Hlen' & Hout & Hin); [done|lia|lia|lia|..].
  - intros. assert (c = end_ v) as Hcv by lia. rewrite Hah1 in Hah2 by done. rewrite Hcv in *. lia.
  - intros a Ha. rewrite Hstep. bsolve. apply Hall; lia.
  - exists t', rc. split_and!; [done..|congruence| |].
    + intros a Ha. rewrite Hout by lia. rewrite Hstep. bsolve.
    + destruct Hin as [[-> Hin]|[-> Hin]]; [left|right]; (split; [done|]).
      * intros a Ha. destruct (Z.lt_ge_cases a c); [rewrite Hout by lia|rewrite Hin by lia]; rewrite Hstep; bsolve.
      * intros a. specialize (Hin a). rewrite Hstep in Hin. destruct (_ && _); [by apply partly_protected_twice|done].
Qed.

(** ** Theorems *)

Lemma vma_add_ok t s len p mf fou :
  vma_wf t -> is_u64 s -> is_u64 len ->
  exists t' rc, vma_add (Some t) s len p mf fou = (Some t', rc) /\ length t' = length t /\
    ((rc = 0 /\ vma_wf t' /\ forall a, vma_view t' a =
        if in_range s len a then Some (p, mf, fou) else vma_view t a) \/
     (rc = - EINVAL /\ t' = t /\
        (len = 0 \/ 2 ^ 64 <= s + len \/ exists a, in_range s len a = true /\ vma_view t a <> None)) \/
     (rc = - ENOMEM /\ t' = t /\ empty_slot t = None)).
Proof.
  intros Hwf Hs Hl. destruct (vma_add_Some t s len p mf fou) as (t' & rc & Hadd).
  exists t', rc. split; [done|].
  pose proof (range_end_spec s len Hs Hl) as Hre. unfold is_u64 in *.
  destruct ((0 <? len) && (s + len <? 2 ^ 64)) eqn:Hok.
  2: { unfold vma_add in Hadd. rewrite Hre in Hadd. simplify_eq. split; [done|].
       right; left. split_and!; [done..|]. dest_bool; lia. }
  dest_bool. destruct (vma_conflicts (Some t) s len) eqn:Hc.
  - unfold vma_add in Hadd. rewrite Hre, Hc in Hadd. simplify_eq. split; [done|].
    right; left. split_and!; [done..|]. right; right.
    unfold vma_conflicts in Hc. rewrite Hre in Hc. apply existsb_exists in Hc as (v & Hin & Ho).
    apply list_elem_of_In, list_elem_of_lookup in Hin as [i Hi]. unfold overlaps in Ho. dest_bool.
    pose proof (wf_range _ Hwf _ _ Hi ltac:(done)). exists (Z.max s (start v)).
    split; [unfold in_range; rewrite andb_true_iff, Z.leb_le, Z.ltb_lt; lia|].
    rewrite (view_Some _ _ _ v Hwf Hi); [done|]. apply contains_true. split; [done|lia].
  - pose proof (vma_add_result _ _ _ _ _ _ _ _ _ Hwf Hre ltac:(lia) Hc Hadd) as Hres.
    rewrite (conflicts_false _ _ _ _ Hwf Hre) in Hc.
    split; [by eapply add_result_length|].
    assert (rc = 0 \/ (rc = - ENOMEM /\ t' = t /\ empty_slot t = None)) as [->|?]
      by (destruct Hres; auto); [left|by right; right].
    destruct (add_result_ok (s:=s) (e:=s+len) Hwf ltac:(lia) ltac:(lia) Hc _ _ Hres eq_refl). by split_and!.
Qed.

(** C32: [vma_add] on a well-formed table either records exactly the requested
    range with its attributes, leaving every other address as it was and the
    table well formed (whether it coalesced with neighbours or took a slot), or
    returns an error and changes nothing. *)
Theorem vma_add_correct t s len p mf fou :
  vma_wf t -> is_u64 s -> is_u64 len ->
  exists t' rc, vma_add (Some t) s len p mf fou = (Some t', rc) /\ length t' = length t /\
    ((rc = 0 /\ vma_wf t' /\ forall a, vma_view t' a =
        if in_range s len a then Some (p, mf, fou) else vma_view t a) \/
     (rc = - EINVAL /\ t' = t /\
        (len = 0 \/ 2 ^ 64 <= s + len \/ exists a, in_range s len a = true /\ vma_view t a <> None)) \/
     (rc = - ENOMEM /\ t' = t /\ empty_slot t = None)).
Proof. apply vma_add_ok. Qed.

Lemma vma_remove_ok t s len :
  vma_wf t -> is_u64 s -> is_u64 len ->
  exists t' rc, vma_remove (Some t) s len = Some (Some t', rc) /\ length t' = length t /\
    ((rc = 0 /\ vma_wf t' /\
      (forall a, in_range s len a = true -> vma_view t a <> None) /\
      (forall a, vma_view t' a = if in_range s len a then None else vma_view t a)) \/
     (rc < 0 /\ t' = t)).
Proof.
  intros Hwf Hs Hl. pose proof (range_end_spec s len Hs Hl) as Hre. unfold vma_remove, vma_range_ok.
  rewrite Hre. unfold is_u64 in *. destruct ((0 <? len) && (s + len <? 2 ^ 64)) eqn:Hok.
  2: { exists t, (- EINVAL). split_and!; [done..|]. right. done. }
  dest_bool.
  destruct (range_ok_loop_spec (loop_fuel t) t s (s + len)) as (b & -> & Hb);
    [done|unfold loop_fuel; lia|intros; apply fuel_enough|].
  destruct b; [|exists t, (- EINVAL); split_and!; [done..|by right]].
  pose proof (proj1 Hb eq_refl) as Hall.
  destruct (remove_loop_spec t s (s + len)) as (t' & rc & -> & Hlen & Hcase); [done|lia|done|].
  exists t', rc. split_and!; [done..|]. unfold in_range.
  destruct Hcase as [(-> & Hwf' & Hview)|[-> ->]]; [left|right; done].
  split_and!; [done..| |done]. intros a Ha. dest_bool. apply Hall. lia.
Qed.

(** [vma_remove] terminates; it succeeds only on a range that is mapped
    throughout and then unmaps exactly that range; otherwise it returns an
    error and the table is unchanged, also when it runs out of slots. *)
Theorem vma_remove_correct t s len :
  vma_wf t -> is_u64 s -> is_u64 len ->
  exists t' rc, vma_remove (Some t) s len = Some (Some t', rc) /\ length t' = length t /\
    ((rc = 0 /\ vma_wf t' /\
      (forall a, in_range s len a = true -> vma_view t a <> None) /\
      (forall a, vma_view t' a = if in_range s len a then None else vma_view t a)) \/
     (rc < 0 /\ t' = t)).
Proof. apply vma_remove_ok. Qed.

(** [vma_remove_overlaps] unmaps exactly the given range whatever overlaps
    it, or fails with [-ENOMEM] (one mapping surrounds the range and no slot is
    free for its upper part) leaving the table unchanged. *)
Theorem vma_remove_overlaps_correct t s len :
  vma_wf t -> is_u64 s -> is_u64 len -> 0 < len -> s + len < 2 ^ 64 ->
  exists t' rc, vma_remove_overlaps (Some t) s len = (Some t', rc) /\ length t' = length t /\
    (not_around t s (s + len) -> rc = 0) /\
    ((rc = 0 /\ vma_wf t' /\
      forall a, vma_view t' a = if in_range s len a then None else vma_view t a) \/
     (rc = - ENOMEM /\ t' = t)).
Proof.
  intros Hwf Hs Hl Hpos Hmax. unfold vma_remove_overlaps.
  rewrite (range_end_spec s len Hs Hl).
  assert ((0 <? len) && (s + len <? 2 ^ 64) = true) as -> by bsolve.
  destruct (remove_overlaps_loop_spec (length t) 0 t s (s + len)) as (t' & rc & -> & ? & ? & ?);
    [done|lia|lia|lia|]. by exists t', rc.
Qed.

Lemma vma_protect_ok t s len p :
  vma_wf t -> is_u64 s -> is_u64 len ->
  exists t' rc, vma_protect (Some t) s len p = Some (Some t', rc) /\
    vma_wf t' /\ length t' = length t /\
    (forall a, in_range s len a = false -> vma_view t' a = vma_view t a) /\
    ((rc = 0 /\ forall a, in_range s len a = true ->
        vma_view t a <> None /\ vma_view t' a = set_prot p <$> vma_view t a) \/
     (rc = - EINVAL /\ t' = t) \/
     rc = - ENOMEM /\ forall a, partly_protected p (vma_view t a) (vma_view t' a)).
Proof.
  intros Hwf Hs Hl. pose proof (range_end_spec s len Hs Hl) as Hre. unfold vma_protect, vma_range_ok.
  rewrite Hre. unfold is_u64 in *. destruct ((0 <? len) && (s + len <? 2 ^ 64)) eqn:Hok.
  2: { exists t, (- EINVAL). split_and!; [done..|]. right. by left. }
  dest_bool.
  destruct (range_ok_loop_spec (loop_fuel t) t s (s + len)) as (b & -> & Hb);
    [done|unfold loop_fuel; lia|intros; apply fuel_enough|].
  destruct b; [|exists t, (- EINVAL); split_and!; [done..|right; by left]].
  pose proof (proj1 Hb eq_refl) as Hall.
  destruct (protect_loop_spec (loop_fuel t) t s (s + len) p)
    as (t' & rc & -> & Hwf' & Hlen & Hout & Hcase);
    [done|lia|lia|unfold loop_fuel; lia|intros; apply fuel_enough|done|].
  exists t', rc. unfold in_range. split_and!; [done..| |].
  - intros a Ha. apply Hout. dest_bool; lia.
  - destruct Hcase as [[-> Hin]|[-> Hin]]; [left|by right; right]. split; [done|].
    intros a Ha. dest_bool. split; [apply Hall|apply Hin]; lia.
Qed.

(** [vma_protect] terminates and keeps the table well formed; addresses
    outside the range never change, and on success every address of the range
    keeps its mapping with only the protection replaced.  When the table is full
    each address of the range keeps its mapping, has it with the new protection,
    or has lost it. *)
Theorem vma_protect_correct t s len p :
  vma_wf t -> is_u64 s -> is_u64 len ->
  exists t' rc, vma_protect (Some t) s len p = Some (Some t', rc) /\
    vma_wf t' /\ length t' = length t /\
    (forall a, in_range s len a = false -> vma_view t' a = vma_view t a) /\
    ((rc = 0 /\ forall a, in_range s len a = true ->
        vma_view t a <> None /\ vma_view t' a = set_prot p <$> vma_view t a) \/
     (rc = - EINVAL /\ t' = t) \/
     rc = - ENOMEM /\ forall a, partly_protected p (vma_view t a) (vma_view t' a)).
Proof. apply vma_protect_ok. Qed.

(** [vma_range_info] terminates and reports attributes exactly when every
    address of the range is mapped with those same attributes. *)
Theorem vma_range_info_correct t s len :
  vma_wf t -> is_u64 s -> is_u64 len -> 0 < len -> s + len < 2 ^ 64 ->
  exists r, vma_range_info (Some t) s len = Some r /\
    forall x, r = Some x <-> forall a, in_range s len a = true -> vma_view t a = Some x.
Proof.
  intros Hwf Hs Hl Hpos Hmax. unfold vma_range_info. rewrite (range_end_spec s len Hs Hl).
  assert ((0 <? len) && (s + len <? 2 ^ 64) = true) as -> by bsolve.
  assert (Hin : forall a, in_range s len a = true <-> s <= a < s + len).
  { intros a. unfold in_range. rewrite andb_true_iff, Z.leb_le, Z.ltb_lt. done. }
  assert (Hfirst : forall x, (forall a, in_range s len a = true -> vma_view t a = Some x) ->
    vma_view t s = Some x) by (intros x Hx; apply Hx, Hin; lia).
  destruct (containing t s) as [i|] eqn:Hc.
  2: { exists None. split; [done|]. intros x. split; [done|]. intros Hx%Hfirst.
       unfold vma_view in Hx. by rewrite Hc in Hx. }
  pose proof (containing_Some _ _ _ Hc) as (v & Hi & Hv & Hu & Hr). rewrite Hv.
  assert (vma_view t s = Some (attr v)) as Hs0.
  { eapply view_Some; [done..|]. by apply contains_true. }
  destruct (range_info_loop_spec (loop_fuel t) t (attr v) s (s + len)) as (b & Hb & Hbt);
    [done|unfold loop_fuel; lia|intros; apply fuel_enough|].
  change ((attr v).1.1) with (prot v) in Hb. change ((attr v).1.2) with (map_flags v) in Hb.
  change ((attr v).2) with (free_on_unmap v) in Hb. rewrite Hb.
  exists (if b then Some (attr v) else None). split; [by destruct b|]. intros x. split.
  - destruct b; intros ?; simplify_eq. intros a Ha%Hin. by apply Hbt.
  - intros Hx. pose proof (Hfirst x Hx) as Hxs. rewrite Hs0 in Hxs. simplify_eq.
    rewrite (proj2 Hbt); [done|]. intros a Ha. by apply Hx, Hin.
Qed.

Lemma land_bit p k : 0 <= k -> ztrue (Z.land p (2 ^ k)) = Z.testbit p k.
Proof.
  intros Hk. unfold ztrue. destruct (Z.testbit p k) eqn:Hb.
  - apply negb_true_iff, Z.eqb_neq. intros H0.
    assert (Z.testbit (Z.land p (2 ^ k)) k = false) as H1 by by rewrite H0, Z.testbit_0_l.
    rewrite Z.land_spec, Hb, Z.pow2_bits_true in H1 by done. done.
  - apply negb_false_iff, Z.eqb_eq, Z.bits_inj'. intros n Hn.
    rewrite Z.land_spec, Z.testbit_0_l. destruct (decide (n = k)) as [->|]; [by rewrite Hb|].
    rewrite Z.pow2_bits_false by done. apply andb_false_r.
Qed.

(** the page flags of a demand-paged page agree with the fault policy: a
    fault is served only inside an owned mapping, a write is served only with
    [VMM_WRITE] set and an instruction fetch only with [VMM_NX] clear; a page
    outside every mapping is user-only, read-only and not executable. *)
Theorem vma_fault_flags_agree t a write exec :
  (vma_page_fault_allowed t a write exec = true ->
     vma_page_owned t a = true /\
     (write = true -> Z.testbit (vma_page_flags t a) 1 = true) /\
     (exec = true -> Z.testbit (vma_page_flags t a) 63 = false)) /\
  (vma_view t a = None -> vma_page_flags t a = Z.lor VMM_USER VMM_NX).
Proof.
  unfold vma_page_fault_allowed, vma_page_owned, vma_page_flags, vma_view.
  destruct (containing t a) as [i|]; [|done]. split; [|done].
  set (p := prot (vma_at t i)). change PROT_WRITE with (2 ^ 1). change PROT_EXEC with (2 ^ 2).
  rewrite !land_bit by lia.
  destruct (free_on_unmap (vma_at t i)); cbn [negb]; [|done].
  destruct write, exec, (Z.testbit p 1), (Z.testbit p 2); cbn [negb andb]; intros Hz; try done;
    (split; [done|]); split; intros ?; (reflexivity || done).
Qed.

(** ** The slot table of a fresh space *)

Lemma vma_wf_zero (t : vma_table) : vma_wf (map (fun _ => zero_vma) t).
Proof.
  split.
  - intros i v Hi Hu. rewrite list_lookup_fmap in Hi. destruct (t !! i); by simplify_eq/=.
  - intros i j v w Hi _ Hu. rewrite list_lookup_fmap in Hi. destruct (t !! i); by simplify_eq/=.
Qed.

(** ** [mprotect] on a full table *)

Lemma full_table_wf : vma_wf full_table.
Proof.
  assert (Hl : forall i v, full_table !! i = Some v ->
    start v = Z.of_nat i * 16384 + 4096 /\ end_ v = Z.of_nat i * 16384 + 12288 /\ (i < VMM_VMA_MAX)%nat).
  { intros i v Hi. unfold full_table in Hi. rewrite list_lookup_fmap in Hi.
    destruct (seq 0 VMM_VMA_MAX !! i) as [k|] eqn:Hk; [|done].
    apply lookup_seq in Hk as [-> Hk]. by simplify_eq/=. }
  split.
  - intros i v (-> & -> & Hi)%Hl _. unfold VMM_VMA_MAX in *. lia.
  - intros i j v w (? & ? & _)%Hl (? & ? & _)%Hl _ _ Hij. unfold disjoint. lia.
Qed.

(** [vma_protect] is not atomic: on a full table, protecting the upper half
    of a mapping trims the mapping, finds no slot for the new part, returns
    [-ENOMEM], and the address that was mapped is no longer recorded at all. *)
Theorem vma_protect_enomem_drops_mapping :
  vma_wf full_table /\ length full_table = VMM_VMA_MAX /\
  vma_view full_table 8192 = Some (3, 0, true) /\
  exists t', vma_protect (Some full_table) 8192 4096 PROT_READ = Some (Some t', - ENOMEM) /\
    vma_view t' 8192 = None.
Proof.
  split; [apply full_table_wf|]. split; [by vm_compute|]. split; [by vm_compute|].
  exists (<[0%nat := mk_vma 4096 8192 3 0 true true]> full_table). split; by vm_compute.
Qed.

(** ** Witnesses *)

Lemma sample_table_wf : vma_wf sample_table.
Proof.
  split.
  - intros [|[|[|[|i]]]] v Hi Hu; by simplify_eq/=.
  - intros [|[|[|[|i]]]] [|[|[|[|j]]]] v w Hi Hj Hu Hw Hij; simplify_eq/=; unfold disjoint; simpl; lia.
Qed.

Lemma vma_add_correct_witness :
  vma_wf sample_table /\
  exists t' rc, vma_add (Some sample_table) 12288 4096 3 0 true = (Some t', rc) /\
    length t' = length sample_table /\ rc = 0.
Proof.
  split; [apply sample_table_wf|].
  destruct (vma_add_correct sample_table 12288 4096 3 0 true sample_table_wf) as (t' & rc & H & Hl & _);
    [unfold is_u64; lia..|].
  exists t', rc. split_and!; [done..|]. vm_compute in H. by simplify_eq.
Defined.

Lemma vma_remove_correct_witness :
  exists t' rc, vma_remove (Some sample_table) 6000 1000 = Some (Some t', rc) /\
    length t' = length sample_table /\ rc = 0.
Proof.
  destruct (vma_remove_correct sample_table 6000 1000 sample_table_wf) as (t' & rc & H & Hl & _);
    [unfold is_u64; lia..|].
  exists t', rc. split_and!; [done..|]. vm_compute in H. by simplify_eq.
Defined.

Lemma vma_remove_overlaps_correct_witness :
  exists t' rc, vma_remove_overlaps (Some sample_table) 0 100000 = (Some t', rc) /\
    length t' = length sample_table /\ rc = 0.
Proof.
  destruct (vma_remove_overlaps_correct sample_table 0 100000 sample_table_wf)
    as (t' & rc & H & Hl & _); [unfold is_u64; lia..|lia|lia|].
  exists t', rc. split_and!; [done..|]. vm_compute in H. by simplify_eq.
Defined.

Lemma vma_protect_correct_witness :
  exists t' rc, vma_protect (Some sample_table) 4096 4096 1 = Some (Some t', rc) /\
    length t' = length sample_table /\ rc = 0.
Proof.
  destruct (vma_protect_correct sample_table 4096 4096 1 sample_table_wf) as (t' & rc & H & _ & Hl & _);
    [unfold is_u64; lia..|].
  exists t', rc. split_and!; [done..|]. vm_compute in H. by simplify_eq.
Defined.

Lemma vma_range_info_correct_witness :
  exists r, vma_range_info (Some sample_table) 4096 4096 = Some r /\ r = Some (3, 0, true).
Proof.
  destruct (vma_range_info_correct sample_table 4096 4096 sample_table_wf) as (r & H & _);
    [unfold is_u64; lia..|lia|lia|].
  exists r. split; [done|]. vm_compute in H. by simplify_eq.
Defined.
