(* ===== verification/Seccomp.v ===== *)
(** * Seccomp: the system-call filter ([kernel/security/seccomp.c] and the
    [seccomp] entry points of [kernel/syscall/syscall.c]).

    A filter program is a list of instructions, a process's chain of filters is
    a list with the most recently installed filter first.  The interpreter loop
    carries fuel: [None] means it has not returned yet.

    Two things are parameters.  The result of a C shift by 32 or more is
    undefined, so such shifts call [shl_oob]/[shr_oob] and the theorems hold for
    every choice of them.  [alloc n bytes] says whether the [n]-th [kmalloc] of
    an operation succeeds. *)

From S2P Require Import Prelude.

(** ** Constants *)

Definition BPF_LD : Z := 0x00.
Definition BPF_LDX : Z := 0x01.
Definition BPF_ST : Z := 0x02.
Definition BPF_STX : Z := 0x03.
Definition BPF_ALU : Z := 0x04.
Definition BPF_JMP : Z := 0x05.
Definition BPF_RET : Z := 0x06.
Definition BPF_MISC : Z := 0x07.
Definition BPF_W : Z := 0x00.
Definition BPF_H : Z := 0x08.
Definition BPF_IMM : Z := 0x00.
Definition BPF_ABS : Z := 0x20.
Definition BPF_IND : Z := 0x40.
Definition BPF_MEM : Z := 0x60.
Definition BPF_LEN : Z := 0x80.
Definition BPF_ADD : Z := 0x00.
Definition BPF_SUB : Z := 0x10.
Definition BPF_MUL : Z := 0x20.
Definition BPF_DIV : Z := 0x30.
Definition BPF_OR : Z := 0x40.
Definition BPF_AND : Z := 0x50.
Definition BPF_LSH : Z := 0x60.
Definition BPF_RSH : Z := 0x70.
Definition BPF_NEG : Z := 0x80.
Definition BPF_MOD : Z := 0x90.
Definition BPF_XOR : Z := 0xa0.
Definition BPF_JA : Z := 0x00.
Definition BPF_JEQ : Z := 0x10.
Definition BPF_JGT : Z := 0x20.
Definition BPF_JGE : Z := 0x30.
Definition BPF_JSET : Z := 0x40.
Definition BPF_K : Z := 0x00.
Definition BPF_X : Z := 0x08.
Definition BPF_TAX : Z := 0x00.
Definition BPF_TXA : Z := 0x80.

Definition SECCOMP_MAX_INSNS : Z := 4096.
Definition SECCOMP_DATA_SIZE : Z := 64.
Definition ENOSYS : Z := 38.
Definition EINVAL : Z := 22.
Definition EACCES : Z := 13.
Definition EFAULT : Z := 14.
Definition SIGSYS : Z := 31.
Definition CAP_SYS_ADMIN : Z := 21.

Definition SECCOMP_MODE_DISABLED : Z := 0.
Definition SECCOMP_MODE_STRICT : Z := 1.
Definition SECCOMP_MODE_FILTER : Z := 2.

Definition SECCOMP_RET_KILL_THREAD : Z := 0x00000000.
Definition SECCOMP_RET_KILL_PROCESS : Z := 0x80000000.
Definition SECCOMP_RET_TRAP : Z := 0x00030000.
Definition SECCOMP_RET_ERRNO : Z := 0x00050000.
Definition SECCOMP_RET_USER_NOTIF : Z := 0x7fc00000.
Definition SECCOMP_RET_TRACE : Z := 0x7ff00000.
Definition SECCOMP_RET_LOG : Z := 0x7ffc0000.
Definition SECCOMP_RET_ALLOW : Z := 0x7fff0000.

(** ** Data *)

Record seccomp_insn_t := mk_insn { code : Z; jt : Z; jf : Z; k : Z }.

Record seccomp_filter := mk_filter { len : Z; insns : list seccomp_insn_t }.

Definition zero_insn : seccomp_insn_t := mk_insn 0 0 0 0.

(** Locals of the interpreter loop. *)
Record bpf_state := mk_bpf { pc : Z; a : Z; x : Z; mem : list Z }.

(** The process fields this component uses. *)
Record sproc := mk_sproc {
  seccomp_mode : Z;
  seccomp_filter_chain : list seccomp_filter;
  no_new_privs : Z;
  cap_effective : Z
}.

(** ** Program memory *)

(** [value |= (uint32_t) data[off + i] << (i * 8)] for [i < n]. *)
Fixpoint load_loop (data : list Z) (off : Z) (n : nat) : Z :=
  match n with
  | O => 0
  | S n' =>
      Z.lor (load_loop data off n')
        (u32 (Z.shiftl (aget 0 data (Z.to_nat (off + Z.of_nat n'))) (Z.of_nat n' * 8)))
  end.

Definition bpf_load (data : list Z) (off size : Z) : Z :=
  if (SECCOMP_DATA_SIZE <? off) || (SECCOMP_DATA_SIZE - off <? size) then 0
  else load_loop data off (Z.to_nat size).

Fixpoint store_loop (data : list Z) (off : Z) (n : nat) (value : Z) : list Z :=
  match n with
  | O => data
  | S n' =>
      <[Z.to_nat (off + Z.of_nat n') := u8 (Z.shiftr value (Z.of_nat n' * 8))]>
        (store_loop data off n' value)
  end.

Definition bpf_store (data : list Z) (off size value : Z) : list Z :=
  if (SECCOMP_DATA_SIZE <? off) || (SECCOMP_DATA_SIZE - off <? size) then data
  else store_loop data off (Z.to_nat size) value.

(** ** The interpreter *)

Section interp.
Variables shl_oob shr_oob : Z -> Z -> Z.

Definition load_size (size : Z) : Z := if size =? BPF_W then 4 else if size =? BPF_H then 2 else 1.

Definition alu (op a rhs : Z) : option Z :=
  if op =? BPF_ADD then Some (u32 (a + rhs))
  else if op =? BPF_SUB then Some (u32 (a - rhs))
  else if op =? BPF_MUL then Some (u32 (a * rhs))
  else if op =? BPF_DIV then (if rhs =? 0 then None else Some (a / rhs))
  else if op =? BPF_OR then Some (Z.lor a rhs)
  else if op =? BPF_AND then Some (Z.land a rhs)
  else if op =? BPF_LSH then Some (u32 (if rhs <? 32 then Z.shiftl a rhs else shl_oob a rhs))
  else if op =? BPF_RSH then Some (u32 (if rhs <? 32 then Z.shiftr a rhs else shr_oob a rhs))
  else if op =? BPF_NEG then Some (u32 (- a))
  else if op =? BPF_MOD then (if rhs =? 0 then None else Some (a `mod` rhs))
  else if op =? BPF_XOR then Some (Z.lxor a rhs)
  else None.

Definition jump_taken (op a rhs : Z) : option bool :=
  if op =? BPF_JEQ then Some (a =? rhs)
  else if op =? BPF_JGT then Some (rhs <? a)
  else if op =? BPF_JGE then Some (rhs <=? a)
  else if op =? BPF_JSET then Some (ztrue (Z.land a rhs))
  else None.

(** One iteration: the next state, or the value [bpf_run] returns. *)
Definition bpf_step (i : seccomp_insn_t) (data : list Z) (s : bpf_state) : bpf_state + Z :=
  let cls := Z.land (code i) 0x07 in
  let size := Z.land (code i) 0x18 in
  let mode := Z.land (code i) 0xe0 in
  let op := Z.land (code i) 0xf0 in
  let src := Z.land (code i) 0x08 in
  let next := u32 (pc s + 1) in
  let rhs := if src =? BPF_X then x s else k i in
  let kill := inr SECCOMP_RET_KILL_PROCESS in
  if cls =? BPF_LD then
    if mode =? BPF_IMM then inl (mk_bpf next (k i) (x s) (mem s))
    else if mode =? BPF_ABS then inl (mk_bpf next (bpf_load data (k i) (load_size size)) (x s) (mem s))
    else if mode =? BPF_IND then
      inl (mk_bpf next (bpf_load data (u32 (x s + k i)) (load_size size)) (x s) (mem s))
    else if mode =? BPF_MEM then
      if 16 <=? k i then kill else inl (mk_bpf next (aget 0 (mem s) (Z.to_nat (k i))) (x s) (mem s))
    else if mode =? BPF_LEN then inl (mk_bpf next SECCOMP_DATA_SIZE (x s) (mem s))
    else kill
  else if cls =? BPF_LDX then
    if mode =? BPF_IMM then inl (mk_bpf next (a s) (k i) (mem s))
    else if mode =? BPF_MEM then
      if 16 <=? k i then kill else inl (mk_bpf next (a s) (aget 0 (mem s) (Z.to_nat (k i))) (mem s))
    else if mode =? BPF_LEN then inl (mk_bpf next (a s) SECCOMP_DATA_SIZE (mem s))
    else kill
  else if cls =? BPF_ST then
    if 16 <=? k i then kill else inl (mk_bpf next (a s) (x s) (<[Z.to_nat (k i) := a s]> (mem s)))
  else if cls =? BPF_STX then
    if 16 <=? k i then kill else inl (mk_bpf next (a s) (x s) (<[Z.to_nat (k i) := x s]> (mem s)))
  else if cls =? BPF_ALU then
    match alu op (a s) rhs with
    | Some v => inl (mk_bpf next v (x s) (mem s))
    | None => kill
    end
  else if cls =? BPF_JMP then
    if op =? BPF_JA then inl (mk_bpf (u32 (pc s + (1 + k i))) (a s) (x s) (mem s))
    else
      match jump_taken op (a s) rhs with
      | Some take => inl (mk_bpf (u32 (pc s + (1 + (if take then jt i else jf i)))) (a s) (x s) (mem s))
      | None => kill
      end
  else if cls =? BPF_RET then
    if op =? BPF_K then inr (k i) else if op =? 0x10 then inr (a s) else kill
  else if cls =? BPF_MISC then
    if op =? BPF_TAX then inl (mk_bpf next (a s) (a s) (mem s))
    else if op =? BPF_TXA then inl (mk_bpf next (x s) (x s) (mem s))
    else kill
  else kill.

Fixpoint bpf_loop (fuel : nat) (f : seccomp_filter) (data : list Z) (s : bpf_state) : option Z :=
  match fuel with
  | O => None
  | S fuel' =>
      if pc s <? len f then
        match bpf_step (aget zero_insn (insns f) (Z.to_nat (pc s))) data s with
        | inl s' => bpf_loop fuel' f data s'
        | inr r => Some r
        end
      else Some SECCOMP_RET_KILL_PROCESS
  end.

Definition bpf_init : bpf_state := mk_bpf 0 0 0 (replicate 16 0).

Definition bpf_run (fuel : nat) (f : seccomp_filter) (data : list Z) : option Z :=
  bpf_loop fuel f data bpf_init.

(** ** Chains *)

Definition action_rank (action : Z) : Z :=
  if (action =? SECCOMP_RET_KILL_PROCESS) || (action =? SECCOMP_RET_KILL_THREAD) then 0
  else if action =? SECCOMP_RET_TRAP then 1
  else if action =? SECCOMP_RET_ERRNO then 2
  else if action =? SECCOMP_RET_USER_NOTIF then 3
  else if action =? SECCOMP_RET_TRACE then 4
  else if action =? SECCOMP_RET_LOG then 5
  else if action =? SECCOMP_RET_ALLOW then 6
  else 0.

Definition rank (r : Z) : Z := action_rank (Z.land r 0xffff0000).

Fixpoint chain_loop (fuel : nat) (fs : list seccomp_filter) (data : list Z) (best : Z) : option Z :=
  match fs with
  | [] => Some best
  | f :: fs' =>
      match bpf_run fuel f data with
      | None => None
      | Some result => chain_loop fuel fs' data (if rank result <? rank best then result else best)
      end
  end.

Definition chain_result (fuel : nat) (fs : list seccomp_filter) (data : list Z) : option Z :=
  chain_loop fuel fs data SECCOMP_RET_ALLOW.

(** ** The check made on every system call *)

(** How [seccomp_check] ends: the call goes on ([return false]), it is
    answered with [*ret] ([return true]), possibly after sending a signal, or
    [proc_do_exit_signal] never returns. *)
Inductive verdict :=
| Proceed
| Answer (ret : Z) (sent : option Z)
| Killed (sig : Z).

Fixpoint store_args (data : list Z) (i : nat) (args : list Z) : list Z :=
  match args with
  | [] => data
  | v :: args' => store_args (bpf_store data (16 + Z.of_nat i * 8) 8 v) (S i) args'
  end.

Definition seccomp_data (nr : Z) (args : list Z) : list Z :=
  let data := replicate (Z.to_nat SECCOMP_DATA_SIZE) 0 in
  let data := bpf_store data 0 4 (u32 nr) in
  let data := bpf_store data 4 4 0xc000003e in
  store_args data 0 args.

Definition seccomp_check (fuel : nat) (p : option sproc) (nr : Z) (args : list Z) : option verdict :=
  match p with
  | None => Some Proceed
  | Some p =>
      if seccomp_mode p =? SECCOMP_MODE_DISABLED then Some Proceed
      else if seccomp_mode p =? SECCOMP_MODE_STRICT then
        Some (if (nr =? 0) || (nr =? 1) || (nr =? 15) || (nr =? 60) || (nr =? 231)
              then Proceed else Killed SIGSYS)
      else
        match chain_result fuel (seccomp_filter_chain p) (seccomp_data nr args) with
        | None => None
        | Some result =>
            let action := Z.land result 0xffff0000 in
            let value := Z.land result 0x0000ffff in
            Some
              (if (action =? SECCOMP_RET_ALLOW) || (action =? SECCOMP_RET_LOG) then Proceed
               else if action =? SECCOMP_RET_ERRNO then Answer (- value) None
               else if action =? SECCOMP_RET_TRAP then Answer (- ENOSYS) (Some SIGSYS)
               else if action =? SECCOMP_RET_TRACE then Answer (- ENOSYS) None
               else if action =? SECCOMP_RET_USER_NOTIF then Answer (- ENOSYS) None
               else Killed SIGSYS)
        end
  end.
End interp.

(** ** Validation and construction *)

Definition insn_valid (i : seccomp_insn_t) (pc len : Z) : bool :=
  let cls := Z.land (code i) 0x07 in
  let op := Z.land (code i) 0xf0 in
  if cls =? BPF_JMP then
    if op =? BPF_JA then negb (len <=? u32 (pc + 1 + k i))
    else if negb (op =? BPF_JEQ) && negb (op =? BPF_JGT) && negb (op =? BPF_JGE) && negb (op =? BPF_JSET)
    then false
    else negb (len <=? u32 (pc + 1 + jt i)) && negb (len <=? u32 (pc + 1 + jf i))
  else
    (cls =? BPF_LD) || (cls =? BPF_LDX) || (cls =? BPF_ST) || (cls =? BPF_STX) || (cls =? BPF_ALU) ||
    (cls =? BPF_RET) || (cls =? BPF_MISC).

(** The validation loop from [pc], [n] instructions to go. *)
Fixpoint valid_loop (l : list seccomp_insn_t) (pc len : Z) (n : nat) : bool :=
  match n with
  | O => true
  | S n' => insn_valid (aget zero_insn l (Z.to_nat pc)) pc len && valid_loop l (pc + 1) len n'
  end.

Definition bpf_valid (l : option (list seccomp_insn_t)) (len : Z) : bool :=
  match l with
  | None => false
  | Some l =>
      if (len =? 0) || (SECCOMP_MAX_INSNS <? len) then false else valid_loop l 0 len (Z.to_nat len)
  end.

(** [sizeof(struct seccomp_filter)] is 16 (the flexible array adds nothing),
    [sizeof(seccomp_insn_t)] is 8. *)
Definition filter_bytes (len : Z) : Z := 16 + len * 8.

Section build.
Variable alloc : nat -> Z -> bool.

(** [n] numbers the allocations of the running operation. *)
Definition seccomp_build (n : nat) (l : option (list seccomp_insn_t)) (len : Z) : option seccomp_filter :=
  match l with
  | None => None
  | Some l' =>
      if negb (bpf_valid l len) then None
      else if negb (alloc n (filter_bytes len)) then None
      else Some (mk_filter len (take (Z.to_nat len) l'))
  end.

(** The clone loop with the list built so far; the second component counts
    the nodes [seccomp_chain_free] releases on the failure path. *)
Fixpoint clone_loop (n : nat) (copy fs : list seccomp_filter) : option (list seccomp_filter) * nat :=
  match fs with
  | [] => (Some copy, 0%nat)
  | f :: fs' =>
      match seccomp_build n (Some (insns f)) (len f) with
      | None => (None, length copy)
      | Some node => clone_loop (S n) (copy ++ [node]) fs'
      end
  end.

(** [NULL] is both the empty chain and failure in C; [None] is failure here. *)
Definition seccomp_chain_clone (fs : list seccomp_filter) : option (list seccomp_filter) * nat :=
  clone_loop 0 [] fs.

Definition seccomp_install (p : sproc) (f : option seccomp_filter) : sproc :=
  match f with
  | None => p
  | Some f => mk_sproc SECCOMP_MODE_FILTER (f :: seccomp_filter_chain p) (no_new_privs p) (cap_effective p)
  end.

(** What user memory holds at [uarg]: [prog.len], whether [prog.filter] is
    null, whether the instruction array passes [uptr_ok], and the array. *)
Record user_fprog := mk_fprog { up_len : Z; up_null : bool; up_ok : bool; up_insns : list seccomp_insn_t }.

Definition has_sys_admin (p : sproc) : bool :=
  ztrue (Z.land (cap_effective p) (Z.shiftl 1 CAP_SYS_ADMIN)).

(** [uarg] is [None] when it is null or fails [uptr_ok]. *)
Definition sys_seccomp_apply (p : sproc) (mode : Z) (uarg : option user_fprog) : sproc * Z :=
  if mode =? SECCOMP_MODE_STRICT then
    (mk_sproc SECCOMP_MODE_STRICT (seccomp_filter_chain p) (no_new_privs p) (cap_effective p), 0)
  else if negb (mode =? SECCOMP_MODE_FILTER) then (p, - EINVAL)
  else if negb (ztrue (no_new_privs p)) && negb (has_sys_admin p) then (p, - EACCES)
  else
    match uarg with
    | None => (p, - EFAULT)
    | Some prog =>
        if (up_len prog =? 0) || (4096 <? up_len prog) || up_null prog then (p, - EINVAL)
        else if negb (up_ok prog) then (p, - EFAULT)
        else
          match seccomp_build 0 (Some (up_insns prog)) (up_len prog) with
          | None => (p, - EINVAL)
          | Some f => (seccomp_install p (Some f), 0)
          end
    end.
End build.

(** ** Specification side *)

(** Fields hold values of their C types. *)
Record insn_ok (i : seccomp_insn_t) : Prop := {
  code_u16 : is_u16 (code i); jt_u8 : is_u8 (jt i); jf_u8 : is_u8 (jf i); k_u32 : is_u32 (k i)
}.

(** No unconditional jump of the program wraps around [uint32_t]. *)
Definition no_wrap (f : seccomp_filter) : Prop :=
  forall n i, insns f !! n = Some i -> Z.of_nat n + 1 + k i < 2 ^ 32.

Record filter_ok (f : seccomp_filter) : Prop := {
  filter_len : len f = Z.of_nat (length (insns f));
  filter_insns : Forall insn_ok (insns f);
  filter_valid : bpf_valid (Some (insns f)) (len f) = true
}.

Record state_ok (s : bpf_state) : Prop := {
  pc_u32 : is_u32 (pc s); a_u32 : is_u32 (a s); x_u32 : is_u32 (x s);
  mem_len : length (mem s) = 16%nat; mem_u32 : Forall is_u32 (mem s)
}.

(** A filter whose first instruction jumps to itself through the wrap-around of
    [pc + 1 + k]. *)
Definition loop_prog : list seccomp_insn_t :=
  [mk_insn 0x05 0 0 0xffffffff; mk_insn 0x06 0 0 0x7fff0000].
Definition loop_filter : seccomp_filter := mk_filter 2 loop_prog.

(** Allow every call but [write] (nr 1), which gets EPERM. *)
Definition no_write_filter : seccomp_filter :=
  mk_filter 4
    [mk_insn 0x20 0 0 0; mk_insn 0x15 0 1 1; mk_insn 0x06 0 0 0x00050001; mk_insn 0x06 0 0 0x7fff0000].

(** ** Validation *)

Lemma valid_loop_spec l pc len n :
  valid_loop l pc len n = true ->
  forall q, pc <= q < pc + Z.of_nat n -> insn_valid (aget zero_insn l (Z.to_nat q)) q len = true.
Proof.
  revert pc. induction n as [|n IH]; intros pc H q Hq; simpl in *; [lia|]. dest_bool.
  destruct (decide (q = pc)) as [->|]; [done|]. apply (IH (pc + 1)); [done|lia].
Qed.

Lemma bpf_valid_spec l len :
  0 <= len -> bpf_valid (Some l) len = true ->
  0 < len <= SECCOMP_MAX_INSNS /\
  forall q, 0 <= q < len -> insn_valid (aget zero_insn l (Z.to_nat q)) q len = true.
Proof.
  intros H0 H. unfold bpf_valid in H. case_if; try done. split; [lia|].
  intros q Hq. eapply valid_loop_spec; [done|lia].
Qed.

Lemma filter_fetch f n :
  filter_ok f -> 0 <= n < len f ->
  insns f !! Z.to_nat n = Some (aget zero_insn (insns f) (Z.to_nat n)) /\
  insn_ok (aget zero_insn (insns f) (Z.to_nat n)).
Proof.
  intros [Hl Hi _] Hn. destruct (lookup_lt_is_Some_2 (insns f) (Z.to_nat n)) as [i Hx]; [lia|].
  rewrite (aget_Some _ _ _ _ Hx). split; [done|]. by eapply Forall_lookup_1.
Qed.

(** ** Values stay in range *)

Lemma load_loop_u32 data off n : is_u32 (load_loop data off n).
Proof.
  induction n as [|n IH]; simpl; [unfold is_u32; lia|]. auto with kyro.
Qed.

Lemma bpf_load_u32 data off size : is_u32 (bpf_load data off size).
Proof. unfold bpf_load. case_raw; [unfold is_u32; lia|apply load_loop_u32]. Qed.

#[local] Hint Resolve bpf_load_u32 aget_u32 : kyro.

Section interp_proofs.
Variables shl_oob shr_oob : Z -> Z -> Z.

Lemma alu_u32 op a rhs v :
  is_u32 a -> is_u32 rhs -> alu shl_oob shr_oob op a rhs = Some v -> is_u32 v.
Proof.
  intros Ha Hr. unfold alu. unfold is_u32 in *.
  repeat (case_raw; [intros; simplify_eq; eauto with kyro|]); try done.
  all: try (destruct (rhs =? 0) eqn:?; intros; simplify_eq; dest_bool).
  all: try apply u32_range; try (by apply is_u32_lor); try (by apply is_u32_land); try (by apply is_u32_lxor).
  - split; [apply Z.div_pos; lia|]. apply Z.le_lt_trans with a; [|lia].
    apply Z.div_le_upper_bound; nia.
  - pose proof (Z.mod_pos_bound a rhs). lia.
Qed.

Lemma bpf_step_ok i data s :
  insn_ok i -> state_ok s ->
  match bpf_step shl_oob shr_oob i data s with inl s' => state_ok s' | inr r => is_u32 r end.
Proof.
  intros [_ _ _ Hk] [Hpc Ha Hx Hlen Hmem].
  assert (is_u32 (if Z.land (code i) 0x08 =? BPF_X then x s else k i)) as Hrhs by (by case_raw).
  assert (is_u32 SECCOMP_RET_KILL_PROCESS) by done.
  assert (is_u32 SECCOMP_DATA_SIZE) by done.
  unfold bpf_step. cbv zeta. generalize dependent (if Z.land (code i) 0x08 =? BPF_X then x s else k i).
  intros rhs Hrhs.
  repeat case_raw; try done.
  all: try (match goal with |- context [alu ?f ?g ?o ?y ?z] =>
    destruct (alu f g o y z) eqn:Halu; [apply alu_u32 in Halu; [|done..]|done] end).
  all: try (match goal with |- context [jump_taken ?o ?y ?z] => destruct (jump_taken o y z); [|done] end).
  all: split; simpl; rewrite ?length_insert; auto using Forall_insert with kyro.
Qed.

(** ** Progress: without wrap-around every step moves forward *)

Lemma bpf_step_forward f data s s' :
  filter_ok f -> no_wrap f -> 0 <= pc s < len f ->
  bpf_step shl_oob shr_oob (aget zero_insn (insns f) (Z.to_nat (pc s))) data s = inl s' ->
  pc s < pc s' <= len f.
Proof.
  intros Hf Hnw Hpc. destruct (filter_fetch f (pc s) Hf Hpc) as [Hi [_ Hjt Hjf Hk]].
  pose proof (Hnw _ _ Hi) as Hw. rewrite Z2Nat.id in Hw by lia.
  destruct Hf as [Hl _ Hv].
  destruct (bpf_valid_spec (insns f) (len f) ltac:(lia) Hv) as [Hmax Hval].
  specialize (Hval (pc s) ltac:(lia)). unfold SECCOMP_MAX_INSNS in Hmax.
  set (i := aget zero_insn (insns f) (Z.to_nat (pc s))) in *.
  unfold is_u8, is_u32 in *.
  assert (u32 (pc s + 1) = pc s + 1) as Hn by (apply u32_small; unfold is_u32; lia).
  assert (u32 (pc s + (1 + k i)) = pc s + 1 + k i) as Hja
    by (rewrite Z.add_assoc; apply u32_small; unfold is_u32; lia).
  assert (forall b : bool, u32 (pc s + (1 + (if b then jt i else jf i))) =
    pc s + 1 + (if b then jt i else jf i)) as Hjc
    by (intros b; rewrite Z.add_assoc; apply u32_small; unfold is_u32; destruct b; lia).
  unfold insn_valid in Hval.
  rewrite (u32_small (pc s + 1 + k i)), (u32_small (pc s + 1 + jt i)), (u32_small (pc s + 1 + jf i)) in Hval
    by (unfold is_u32; lia).
  unfold bpf_step. cbv zeta. rewrite Hn, Hja. generalize (if Z.land (code i) 8 =? BPF_X then x s else k i).
  intros rhs. destruct (Z.land (code i) 7 =? BPF_JMP) eqn:Hcls.
  - apply Z.eqb_eq in Hcls. rewrite Hcls. cbn [Z.eqb BPF_JMP BPF_LD BPF_LDX BPF_ST BPF_STX BPF_ALU Pos.eqb].
    destruct (Z.land (code i) 240 =? BPF_JA).
    + intros. simplify_eq/=. dest_bool. lia.
    + destruct (jump_taken _ _ _) as [b|]; [|done]. intros. simplify_eq/=. rewrite Hjc.
      destruct (_ && _ && _ && _) in Hval; [done|]. dest_bool; destruct b; lia.
  - clear Hval. repeat case_raw; intros; simplify_eq/=; try lia.
    all: destruct (alu _ _ _ _ _); simplify_eq/=; lia.
Qed.

Lemma bpf_loop_terminates fuel f data s :
  filter_ok f -> no_wrap f -> state_ok s -> 0 <= pc s <= len f ->
  len f - pc s < Z.of_nat fuel ->
  exists r, bpf_loop shl_oob shr_oob fuel f data s = Some r /\ is_u32 r.
Proof.
  intros Hf Hnw. revert s. induction fuel as [|fuel IH]; intros s Hs Hpc Hfuel; [lia|]. simpl.
  destruct (pc s <? len f) eqn:Hlt; dest_bool; [|by exists SECCOMP_RET_KILL_PROCESS].
  pose proof (filter_fetch f (pc s) Hf ltac:(lia)) as [_ Hi].
  pose proof (bpf_step_ok _ data _ Hi Hs) as Hok.
  destruct (bpf_step _ _ _ _ _) as [s'|r] eqn:Hst; [|by exists r].
  pose proof (bpf_step_forward f data s s' Hf Hnw ltac:(lia) Hst).
  apply IH; [done|lia|lia].
Qed.

Lemma bpf_init_ok : state_ok bpf_init.
Proof. split; [done..|]. by repeat constructor. Qed.

Lemma bpf_loop_mono fuel n f data s r :
  bpf_loop shl_oob shr_oob fuel f data s = Some r ->
  bpf_loop shl_oob shr_oob (fuel + n) f data s = Some r.
Proof.
  revert s. induction fuel as [|fuel IH]; intros s H; [done|]. simpl in *.
  case_raw; [|done]. destruct (bpf_step _ _ _ _ _); auto.
Qed.

(** ** Chains *)

Lemma chain_loop_min fuel fs data best r :
  chain_loop shl_oob shr_oob fuel fs data best = Some r ->
  rank r <= rank best /\
  (forall f, In f fs -> exists v, bpf_run shl_oob shr_oob fuel f data = Some v /\ rank r <= rank v) /\
  (r = best \/ exists f, In f fs /\ bpf_run shl_oob shr_oob fuel f data = Some r).
Proof.
  revert best. induction fs as [|f fs IH]; intros best H; simpl in *.
  { simplify_eq. split_and!; [lia|done|by left]. }
  destruct (bpf_run _ _ _ f data) as [v|] eqn:Hv; [|done].
  apply IH in H as (Hle & Hall & Hsome).
  split_and!.
  - revert Hle. bsolve.
  - intros g [->|Hg]; [|by apply Hall]. exists v. split; [done|]. revert Hle. bsolve.
  - destruct Hsome as [->|(g & Hg & ?)]; [|right; by exists g; auto].
    case_raw; [right; exists f; auto|by left].
Qed.

Lemma chain_loop_total fuel fs data best :
  (forall f, In f fs -> is_Some (bpf_run shl_oob shr_oob fuel f data)) ->
  is_Some (chain_loop shl_oob shr_oob fuel fs data best).
Proof.
  revert best. induction fs as [|f fs IH]; intros best H; simpl; [by eexists|].
  destruct (H f) as [v ->]; [by left|]. apply IH. intros g Hg. apply H. by right.
Qed.
End interp_proofs.

Lemma load4_u32 data off v :
  0 <= off <= 60 ->
  (forall j, (j < 4)%nat -> aget 0 data (Z.to_nat off + j) = u8 (Z.shiftr v (8 * Z.of_nat j))) ->
  bpf_load data off 4 = u32 v.
Proof.
  intros Hoff Hb. unfold bpf_load, SECCOMP_DATA_SIZE.
  assert ((64 <? off) || (64 - off <? 4) = false) as -> by (apply orb_false_iff; lia).
  cbn [Z.to_nat Pos.to_nat Pos.iter_op Nat.add load_loop].
  assert (Hj : forall j : nat, (j < 4)%nat ->
    u32 (Z.shiftl (aget 0 data (Z.to_nat (off + Z.of_nat j))) (Z.of_nat j * 8)) =
    Z.shiftl (u8 (Z.shiftr v (8 * Z.of_nat j))) (8 * Z.of_nat j)).
  { intros j Hj. rewrite Z2Nat.inj_add, Nat2Z.id by lia. rewrite Hb by done.
    rewrite (Z.mul_comm _ 8). apply u32_small. pose proof (u8_range (Z.shiftr v (8 * Z.of_nat j))) as Hr.
    unfold is_u8, is_u32 in *. rewrite Z.shiftl_mul_pow2 by lia.
    assert (2 ^ (8 * Z.of_nat j) <= 2 ^ 24) by (apply Z.pow_le_mono_r; lia).
    assert (0 < 2 ^ (8 * Z.of_nat j)) by (apply Z.pow_pos_nonneg; lia). nia. }
  simpl load_loop. rewrite !Hj by lia. rewrite <- bytes4_u32.
  by rewrite Z.lor_0_l, Z.shiftl_0_r, Z.shiftr_0_r.
Qed.

Lemma no_write_filter_ok : filter_ok no_write_filter.
Proof.
  split; [done| |by vm_compute]. repeat constructor; unfold is_u16, is_u8, is_u32; simpl; lia.
Qed.

(** ** Theorems *)

Section theorems.
Variables shl_oob shr_oob : Z -> Z -> Z.


(** validation does not guarantee termination: [bpf_valid] accepts a
    two-instruction filter whose jump offset wraps around, [seccomp_build]
    installs it, and the check then never returns for any system call. *)
Theorem seccomp_accepts_endless_filter alloc nnp caps nr args fuel :
  alloc 0%nat (filter_bytes 2) = true -> nnp = 1 ->
  let prog := mk_fprog 2 false true loop_prog in
  let p := mk_sproc SECCOMP_MODE_DISABLED [] nnp caps in
  sys_seccomp_apply alloc p SECCOMP_MODE_FILTER (Some prog) =
    (mk_sproc SECCOMP_MODE_FILTER [loop_filter] nnp caps, 0) /\
  filter_ok loop_filter /\
  seccomp_check shl_oob shr_oob fuel
    (Some (mk_sproc SECCOMP_MODE_FILTER [loop_filter] nnp caps)) nr args = None.
Proof.
  intros Hal -> prog p. split_and!.
  - unfold sys_seccomp_apply, seccomp_build, p, prog. simpl.
    rewrite Hal. reflexivity.
  - split; [done| |by vm_compute]. repeat constructor; unfold is_u16, is_u8, is_u32; simpl; lia.
  - unfold seccomp_check. simpl. unfold chain_result. simpl.
    assert (forall data, bpf_run shl_oob shr_oob fuel loop_filter data = None) as ->; [|done].
    intros data. unfold bpf_run. induction fuel as [|m IH]; [done|]. exact IH.
Qed.

(** the verdict of a chain is that of its strictest filter: it ranks no
    higher than any filter's answer and is one of them (or ALLOW). *)
Theorem chain_result_strictest fuel fs data r :
  chain_result shl_oob shr_oob fuel fs data = Some r ->
  (forall f, In f fs -> exists v, bpf_run shl_oob shr_oob fuel f data = Some v /\ rank r <= rank v) /\
  (r = SECCOMP_RET_ALLOW \/ exists f, In f fs /\ bpf_run shl_oob shr_oob fuel f data = Some r).
Proof. intros (_ & ? & ?)%chain_loop_min. auto. Qed.

Lemma rank_proceed r :
  (Z.land r 0xffff0000 =? SECCOMP_RET_ALLOW) || (Z.land r 0xffff0000 =? SECCOMP_RET_LOG) = (5 <=? rank r).
Proof.
  unfold rank, action_rank. generalize (Z.land r 4294901760). intros y.
  destruct (y =? SECCOMP_RET_ALLOW) eqn:H1; [apply Z.eqb_eq in H1; by subst|].
  destruct (y =? SECCOMP_RET_LOG) eqn:H2; [apply Z.eqb_eq in H2; by subst|].
  repeat case_raw; try done.
Qed.


(** the data block shows filters the call as documented: the number at
    offset 0, AUDIT_ARCH_X86_64 at 4, and argument [i] as two little-endian
    words at [16 + 8 i]. *)
Theorem seccomp_data_layout nr a0 a1 a2 a3 a4 a5 i v :
  [a0; a1; a2; a3; a4; a5] !! i = Some v ->
  let data := seccomp_data nr [a0; a1; a2; a3; a4; a5] in
  bpf_load data 0 4 = u32 nr /\ bpf_load data 4 4 = 0xc000003e /\
  bpf_load data (16 + 8 * Z.of_nat i) 4 = u32 v /\
  bpf_load data (16 + 8 * Z.of_nat i + 4) 4 = u32 (Z.shiftr v 32).
Proof.
  intros Hi. cbv zeta. split_and!.
  - rewrite <- (u32_small (u32 nr)) by apply u32_range.
    apply load4_u32; [lia|]. intros [|[|[|[|j]]]] Hj; reflexivity || lia.
  - change 0xc000003e with (u32 0xc000003e).
    apply load4_u32; [lia|]. intros [|[|[|[|j]]]] Hj; reflexivity || lia.
  - apply load4_u32; [apply lookup_lt_Some in Hi; simpl in Hi; lia|].
    destruct i as [|[|[|[|[|[|i]]]]]]; simplify_eq/=;
      intros [|[|[|[|j]]]] Hj; reflexivity || lia.
  - apply load4_u32; [apply lookup_lt_Some in Hi; simpl in Hi; lia|].
    destruct i as [|[|[|[|[|[|i]]]]]]; simplify_eq/=;
      intros [|[|[|[|j]]]] Hj; rewrite ?Z.shiftr_shiftr by lia; reflexivity || lia.
Qed.
(** switching a filtered process to strict mode lifts its filters: the
    request is granted to anyone, the chain is no longer consulted, and a
    [write] the chain refused with EPERM goes through. *)
Theorem seccomp_strict_lifts_filters alloc nnp caps a0 a1 a2 a3 a4 a5 :
  let args := [a0; a1; a2; a3; a4; a5] in
  let p := mk_sproc SECCOMP_MODE_FILTER [no_write_filter] nnp caps in
  filter_ok no_write_filter /\
  seccomp_check shl_oob shr_oob 5 (Some p) 1 args = Some (Answer (-1) None) /\
  exists p', sys_seccomp_apply alloc p SECCOMP_MODE_STRICT None = (p', 0) /\
    seccomp_check shl_oob shr_oob 5 (Some p') 1 args = Some Proceed.
Proof.
  intros args p. split_and!.
  - apply no_write_filter_ok.
  - reflexivity.
  - eexists. split; [done|]. reflexivity.
Qed.
End theorems.

Lemma seccomp_build_ok alloc n f :
  filter_ok f ->
  seccomp_build alloc n (Some (insns f)) (len f) =
    if alloc n (filter_bytes (len f)) then Some f else None.
Proof.
  intros [Hl _ Hv]. unfold seccomp_build. rewrite Hv. simpl.
  destruct (alloc n (filter_bytes (len f))); [|done]. simpl.
  rewrite take_ge by lia. by destruct f.
Qed.

Lemma clone_loop_spec alloc n copy fs :
  Forall filter_ok fs -> n = length copy ->
  match clone_loop alloc n copy fs with
  | (Some c, freed) => c = copy ++ fs /\ freed = 0%nat
  | (None, freed) => exists f, (copy ++ fs) !! freed = Some f /\ alloc freed (filter_bytes (len f)) = false
  end.
Proof.
  revert n copy. induction fs as [|f fs IH]; intros n copy Hok Hn; cbn [clone_loop].
  { by rewrite app_nil_r. }
  apply Forall_cons in Hok as [Hf Hok]. rewrite seccomp_build_ok by done.
  destruct (alloc n _) eqn:Hal.
  - specialize (IH (S n) (copy ++ [f]) Hok). rewrite length_app, <- app_assoc in IH. simpl in IH.
    apply IH. lia.
  - exists f. rewrite lookup_app_r, Nat.sub_diag by lia. by rewrite <- Hn.
Qed.

(** cloning a chain for a new process yields the same filters in the same
    order, or fails because an allocation failed, in which case exactly the
    nodes allocated so far are freed again. *)
Theorem seccomp_chain_clone_correct alloc fs :
  Forall filter_ok fs ->
  match seccomp_chain_clone alloc fs with
  | (Some c, freed) => c = fs /\ freed = 0%nat
  | (None, freed) => exists f, fs !! freed = Some f /\ alloc freed (filter_bytes (len f)) = false
  end.
Proof. intros Hok. by apply (clone_loop_spec alloc 0 [] fs). Qed.

(** ** Witnesses *)


Lemma seccomp_accepts_endless_filter_witness :
  seccomp_check (fun _ _ => 0) (fun _ _ => 0) 100
    (Some (mk_sproc SECCOMP_MODE_FILTER [loop_filter] 1 0)) 39 [] = None.
Proof.
  apply (seccomp_accepts_endless_filter (fun _ _ => 0) (fun _ _ => 0) (fun _ _ => true) 1 0 39 [] 100);
    reflexivity.
Defined.

Lemma chain_result_strictest_witness :
  exists v, bpf_run (fun _ _ => 0) (fun _ _ => 0) 5 no_write_filter (seccomp_data 1 []) = Some v /\
    rank 0x00050001 <= rank v.
Proof.
  apply (chain_result_strictest (fun _ _ => 0) (fun _ _ => 0) 5 [no_write_filter] (seccomp_data 1 []) 0x00050001).
  - reflexivity.
  - by left.
Defined.


Lemma seccomp_data_layout_witness :
  bpf_load (seccomp_data 1 [7; 8; 9; 10; 11; 12]) (16 + 8 * Z.of_nat 2) 4 = u32 9.
Proof. apply (seccomp_data_layout 1 7 8 9 10 11 12 2 9). reflexivity. Defined.

Lemma seccomp_chain_clone_correct_witness :
  seccomp_chain_clone (fun _ _ => true) [no_write_filter] = (Some [no_write_filter], 0%nat).
Proof.
  assert (Forall filter_ok [no_write_filter]) as Hok by (constructor; [apply no_write_filter_ok|constructor]).
  pose proof (seccomp_chain_clone_correct (fun _ _ => true) [no_write_filter] Hok) as H.
  destruct (seccomp_chain_clone _ _) as [[c|] n]; [by destruct H as [-> ->]|by destruct H as (f & _ & ?)].
Defined.
