(* ===== verification/Proc.v ===== *)
(** * Proc: the process table, its masks and the scheduler.

    Models [kernel/proc/proc.h] (states, masks, references), the scheduling core
    of [kernel/proc/proc.c] ([proc_find], [proc_next_ready],
    [sched_claim_next]).  A process is its slot in [g_proctable]; the record
    keeps the fields that scheduling, signals and pipes read or write.  Atomic
    read-modify-write instructions are single steps.  Pointers are addresses, [0]
    being [NULL]. *)

From Stdlib Require Import Sorting.Sorted.
From S2P Require Import Prelude Bits.

Definition PROC_UNUSED := 0.
Definition PROC_RUNNING := 1.
Definition PROC_READY := 2.
Definition PROC_WAITING := 3.
Definition PROC_ZOMBIE := 4.
Definition PROC_DYING := 5.
Definition PROC_STOPPED := 6.
Definition PROC_EMBRYO := 7.
Definition PROC_MAX := 64.

Record k_sigaction_t := mkAct {
  sa_handler : Z;
  sa_flags : Z;
  sa_restorer : Z;
  sa_mask : Z;
}.

Record proc_t := mkProc {
  state : Z;
  pid : Z;
  ppid : Z;
  pgid : Z;
  refcount : Z;
  uid : Z;
  euid : Z;
  jail_id : Z;
  tracer_pid : Z;
  wakeup_tick : Z;
  alarm_tick : Z;
  itimer_interval_ms : Z;
  itimer_next_tick : Z;
  blocked_pipe : Z;
  blocked_pipe_read : Z;
  job_stopped : Z;
  pending_sigs : Z;
  sig_mask : Z;
  sig_actions : list k_sigaction_t;
  sig_altstack_sp : Z;
  sig_altstack_size : Z;
  on_sigstack : Z;
}.

Definition set_state (v : Z) (p : proc_t) : proc_t :=
  mkProc v (pid p) (ppid p) (pgid p) (refcount p) (uid p) (euid p) (jail_id p) (tracer_pid p)
    (wakeup_tick p) (alarm_tick p) (itimer_interval_ms p) (itimer_next_tick p) (blocked_pipe p)
    (blocked_pipe_read p) (job_stopped p) (pending_sigs p) (sig_mask p) (sig_actions p)
    (sig_altstack_sp p) (sig_altstack_size p) (on_sigstack p).

Definition set_refcount (v : Z) (p : proc_t) : proc_t :=
  mkProc (state p) (pid p) (ppid p) (pgid p) v (uid p) (euid p) (jail_id p) (tracer_pid p)
    (wakeup_tick p) (alarm_tick p) (itimer_interval_ms p) (itimer_next_tick p) (blocked_pipe p)
    (blocked_pipe_read p) (job_stopped p) (pending_sigs p) (sig_mask p) (sig_actions p)
    (sig_altstack_sp p) (sig_altstack_size p) (on_sigstack p).

Definition set_wakeup_tick (v : Z) (p : proc_t) : proc_t :=
  mkProc (state p) (pid p) (ppid p) (pgid p) (refcount p) (uid p) (euid p) (jail_id p)
    (tracer_pid p) v (alarm_tick p) (itimer_interval_ms p) (itimer_next_tick p) (blocked_pipe p)
    (blocked_pipe_read p) (job_stopped p) (pending_sigs p) (sig_mask p) (sig_actions p)
    (sig_altstack_sp p) (sig_altstack_size p) (on_sigstack p).

Definition set_alarm_tick (v : Z) (p : proc_t) : proc_t :=
  mkProc (state p) (pid p) (ppid p) (pgid p) (refcount p) (uid p) (euid p) (jail_id p)
    (tracer_pid p) (wakeup_tick p) v (itimer_interval_ms p) (itimer_next_tick p)
    (blocked_pipe p) (blocked_pipe_read p) (job_stopped p) (pending_sigs p) (sig_mask p)
    (sig_actions p) (sig_altstack_sp p) (sig_altstack_size p) (on_sigstack p).

Definition set_itimer_next_tick (v : Z) (p : proc_t) : proc_t :=
  mkProc (state p) (pid p) (ppid p) (pgid p) (refcount p) (uid p) (euid p) (jail_id p)
    (tracer_pid p) (wakeup_tick p) (alarm_tick p) (itimer_interval_ms p) v (blocked_pipe p)
    (blocked_pipe_read p) (job_stopped p) (pending_sigs p) (sig_mask p) (sig_actions p)
    (sig_altstack_sp p) (sig_altstack_size p) (on_sigstack p).

Definition set_blocked_pipe (v : Z) (p : proc_t) : proc_t :=
  mkProc (state p) (pid p) (ppid p) (pgid p) (refcount p) (uid p) (euid p) (jail_id p)
    (tracer_pid p) (wakeup_tick p) (alarm_tick p) (itimer_interval_ms p) (itimer_next_tick p) v
    (blocked_pipe_read p) (job_stopped p) (pending_sigs p) (sig_mask p) (sig_actions p)
    (sig_altstack_sp p) (sig_altstack_size p) (on_sigstack p).

Definition set_blocked_pipe_read (v : Z) (p : proc_t) : proc_t :=
  mkProc (state p) (pid p) (ppid p) (pgid p) (refcount p) (uid p) (euid p) (jail_id p)
    (tracer_pid p) (wakeup_tick p) (alarm_tick p) (itimer_interval_ms p) (itimer_next_tick p)
    (blocked_pipe p) v (job_stopped p) (pending_sigs p) (sig_mask p) (sig_actions p)
    (sig_altstack_sp p) (sig_altstack_size p) (on_sigstack p).

Definition set_job_stopped (v : Z) (p : proc_t) : proc_t :=
  mkProc (state p) (pid p) (ppid p) (pgid p) (refcount p) (uid p) (euid p) (jail_id p)
    (tracer_pid p) (wakeup_tick p) (alarm_tick p) (itimer_interval_ms p) (itimer_next_tick p)
    (blocked_pipe p) (blocked_pipe_read p) v (pending_sigs p) (sig_mask p) (sig_actions p)
    (sig_altstack_sp p) (sig_altstack_size p) (on_sigstack p).

Definition set_pending_sigs (v : Z) (p : proc_t) : proc_t :=
  mkProc (state p) (pid p) (ppid p) (pgid p) (refcount p) (uid p) (euid p) (jail_id p)
    (tracer_pid p) (wakeup_tick p) (alarm_tick p) (itimer_interval_ms p) (itimer_next_tick p)
    (blocked_pipe p) (blocked_pipe_read p) (job_stopped p) v (sig_mask p) (sig_actions p)
    (sig_altstack_sp p) (sig_altstack_size p) (on_sigstack p).

Definition set_sig_mask (v : Z) (p : proc_t) : proc_t :=
  mkProc (state p) (pid p) (ppid p) (pgid p) (refcount p) (uid p) (euid p) (jail_id p)
    (tracer_pid p) (wakeup_tick p) (alarm_tick p) (itimer_interval_ms p) (itimer_next_tick p)
    (blocked_pipe p) (blocked_pipe_read p) (job_stopped p) (pending_sigs p) v (sig_actions p)
    (sig_altstack_sp p) (sig_altstack_size p) (on_sigstack p).

Definition set_sig_actions (v : list k_sigaction_t) (p : proc_t) : proc_t :=
  mkProc (state p) (pid p) (ppid p) (pgid p) (refcount p) (uid p) (euid p) (jail_id p)
    (tracer_pid p) (wakeup_tick p) (alarm_tick p) (itimer_interval_ms p) (itimer_next_tick p)
    (blocked_pipe p) (blocked_pipe_read p) (job_stopped p) (pending_sigs p) (sig_mask p) v
    (sig_altstack_sp p) (sig_altstack_size p) (on_sigstack p).

Definition set_sig_altstack_sp (v : Z) (p : proc_t) : proc_t :=
  mkProc (state p) (pid p) (ppid p) (pgid p) (refcount p) (uid p) (euid p) (jail_id p)
    (tracer_pid p) (wakeup_tick p) (alarm_tick p) (itimer_interval_ms p) (itimer_next_tick p)
    (blocked_pipe p) (blocked_pipe_read p) (job_stopped p) (pending_sigs p) (sig_mask p)
    (sig_actions p) v (sig_altstack_size p) (on_sigstack p).

Definition set_sig_altstack_size (v : Z) (p : proc_t) : proc_t :=
  mkProc (state p) (pid p) (ppid p) (pgid p) (refcount p) (uid p) (euid p) (jail_id p)
    (tracer_pid p) (wakeup_tick p) (alarm_tick p) (itimer_interval_ms p) (itimer_next_tick p)
    (blocked_pipe p) (blocked_pipe_read p) (job_stopped p) (pending_sigs p) (sig_mask p)
    (sig_actions p) (sig_altstack_sp p) v (on_sigstack p).

Definition set_on_sigstack (v : Z) (p : proc_t) : proc_t :=
  mkProc (state p) (pid p) (ppid p) (pgid p) (refcount p) (uid p) (euid p) (jail_id p)
    (tracer_pid p) (wakeup_tick p) (alarm_tick p) (itimer_interval_ms p) (itimer_next_tick p)
    (blocked_pipe p) (blocked_pipe_read p) (job_stopped p) (pending_sigs p) (sig_mask p)
    (sig_actions p) (sig_altstack_sp p) (sig_altstack_size p) v.

(** A zeroed slot ([memset] of [proc_init]). *)
Definition proc0 : proc_t :=
  mkProc 0 0 0 0 0 0 0 0 0 0 0 0 0 0 0 0 0 0 (replicate 64 (mkAct 0 0 0 0)) 0 0 0.

(** The table and its three masks. *)
Record sys := mkSys {
  g_proctable : list proc_t;
  g_ready_mask : Z;
  g_used_mask : Z;
  g_timer_mask : Z;
}.

Definition proc_at (s : sys) (i : nat) : proc_t := aget proc0 (g_proctable s) i.

(** Write through a pointer to slot [i]. *)
Definition upd (i : nat) (f : proc_t -> proc_t) (s : sys) : sys :=
  mkSys (alter f i (g_proctable s)) (g_ready_mask s) (g_used_mask s) (g_timer_mask s).

Definition slot_bit (i : nat) : Z := bit (Z.of_nat i).

Definition proc_set_ready (i : nat) (s : sys) : sys :=
  mkSys (g_proctable s) (Z.lor (g_ready_mask s) (slot_bit i))
    (Z.lor (g_used_mask s) (slot_bit i)) (g_timer_mask s).

Definition proc_clear_ready (i : nat) (s : sys) : sys :=
  mkSys (g_proctable s) (clear_bits (g_ready_mask s) (slot_bit i)) (g_used_mask s) (g_timer_mask s).

Definition proc_set_used (i : nat) (s : sys) : sys :=
  mkSys (g_proctable s) (g_ready_mask s) (Z.lor (g_used_mask s) (slot_bit i)) (g_timer_mask s).

Definition proc_clear_used (i : nat) (s : sys) : sys :=
  mkSys (g_proctable s) (clear_bits (g_ready_mask s) (slot_bit i))
    (clear_bits (g_used_mask s) (slot_bit i)) (clear_bits (g_timer_mask s) (slot_bit i)).

Definition proc_set_timer (i : nat) (s : sys) : sys :=
  mkSys (g_proctable s) (g_ready_mask s) (g_used_mask s) (Z.lor (g_timer_mask s) (slot_bit i)).

Definition proc_publish_ready (i : nat) (s : sys) : sys :=
  proc_set_ready i (upd i (set_state PROC_READY) s).

Definition proc_ref (i : nat) (s : sys) : sys :=
  upd i (fun p => set_refcount (u32 (refcount p + 1)) p) s.

(** The kernel stack freed with the last reference is not part of the record. *)
Definition proc_unref (i : nat) (s : sys) : sys :=
  let old := refcount (proc_at s i) in
  let s := upd i (fun p => set_refcount (u32 (refcount p - 1)) p) s in
  if old =? 1 then proc_clear_used i (upd i (set_state PROC_UNUSED) s) else s.

(** [if (__sync_bool_compare_and_swap(&t->state, PROC_WAITING, PROC_READY))
    proc_set_ready(t);], the wake-up used throughout the kernel. *)
Definition wake (i : nat) (s : sys) : sys :=
  if state (proc_at s i) =? PROC_WAITING
  then proc_set_ready i (upd i (set_state PROC_READY) s) else s.

(** What [sched_block_current] does for the blocked process once a waker has
    made it READY: it is claimed and runs again; [None] while it sleeps. *)
Definition sched_resume (i : nat) (s : sys) : option sys :=
  if state (proc_at s i) =? PROC_READY
  then Some (proc_clear_ready i (upd i (set_state PROC_RUNNING) s)) else None.

Definition proc_slot_of_pid (s : sys) (p : Z) : option nat :=
  if (p =? 0) || (PROC_MAX <? p) then None else
  let i := Z.to_nat (p - 1) in
  let q := proc_at s i in
  if negb (pid q =? p) then None else
  if (state q =? PROC_UNUSED) || (state q =? PROC_EMBRYO) then None else Some i.

Definition proc_find (p : Z) (s : sys) : option nat * sys :=
  match find_index (fun q => negb (state q =? PROC_UNUSED) && negb (state q =? PROC_EMBRYO) &&
                             (pid q =? p)) (g_proctable s) with
  | Some i => (Some i, proc_ref i s)
  | None => (None, s)
  end.

(** The test of both scan loops of [proc_next_ready]. *)
Definition schedulable (s : sys) (skip : option nat) (b : Z) : bool :=
  negb (bool_decide (Some (Z.to_nat b) = skip)) && negb (pid (proc_at s (Z.to_nat b)) =? 0).

(** [last] is [g_last_scheduled[cpu]]; the result is the chosen slot. *)
Definition proc_next_ready (s : sys) (last : Z) (skip : option nat) : option Z :=
  let start := (last + 1) `mod` PROC_MAX in
  match filter (fun b => schedulable s skip (b + start) = true)
          (set_bits (Z.shiftr (g_ready_mask s) start)) with
  | b :: _ => Some (b + start)
  | [] =>
      match filter (fun b => schedulable s skip b = true)
              (set_bits (Z.land (g_ready_mask s) (bit start - 1))) with
      | b :: _ => Some b
      | [] => None
      end
  end.

(** The [tries] loop; [last] is updated by every successful [proc_next_ready]. *)
Fixpoint claim_loop (tries : nat) (s : sys) (last : Z) (skip : option nat) : option nat * Z * sys :=
  match tries with
  | O => (None, last, s)
  | S n =>
      match proc_next_ready s last skip with
      | None => (None, last, s)
      | Some b =>
          let i := Z.to_nat b in
          if state (proc_at s i) =? PROC_READY
          then (Some i, b, proc_clear_ready i (upd i (set_state PROC_RUNNING) s))
          else claim_loop n (proc_clear_ready i s) b skip
      end
  end.

Definition sched_claim_next (s : sys) (last : Z) (skip : option nat) : option nat * Z * sys :=
  claim_loop 64 s last skip.

(** ** Invariant *)

Definition wf (s : sys) : Prop :=
  length (g_proctable s) = 64%nat /\ is_u64 (g_ready_mask s) /\ is_u64 (g_used_mask s) /\
  is_u64 (g_timer_mask s).

(** Slot [i] can be claimed: it is marked ready and passes the scan's test. *)
Definition candidate (s : sys) (skip : option nat) (i : Z) : Prop :=
  Z.testbit (g_ready_mask s) i = true /\ schedulable s skip i = true.

(** How many slots the round robin passes before it reaches slot [b]. *)
Definition rr_distance (last b : Z) : Z := (b - (last + 1)) `mod` PROC_MAX.

(** ** Table lemmas *)

Lemma proc_at_upd s i f j :
  (i < length (g_proctable s))%nat ->
  proc_at (upd i f s) j = if decide (i = j) then f (proc_at s i) else proc_at s j.
Proof.
  intros Hi. unfold proc_at, aget, upd. simpl. destruct (decide (i = j)) as [<-|Hne].
  - rewrite list_lookup_alter_eq.
    destruct (lookup_lt_is_Some_2 _ _ Hi) as [p Hp]. by rewrite Hp.
  - by rewrite list_lookup_alter_ne.
Qed.

Lemma length_upd s i f : length (g_proctable (upd i f s)) = length (g_proctable s).
Proof. unfold upd. simpl. apply length_alter. Qed.

Lemma proc_at_upd_ne s i f j : i <> j -> proc_at (upd i f s) j = proc_at s j.
Proof. intros. unfold proc_at, aget, upd. simpl. by rewrite list_lookup_alter_ne. Qed.

Lemma wf_upd s i f : wf s -> wf (upd i f s).
Proof. unfold wf, upd. simpl. by rewrite length_alter. Qed.

Lemma slot_bit_u64 i : (i < 64)%nat -> is_u64 (slot_bit i).
Proof. intros. apply bit_u64. lia. Qed.

Lemma wf_set_ready s i : wf s -> (i < 64)%nat -> wf (proc_set_ready i s).
Proof.
  intros (? & ? & ? & ?) Hi. pose proof (slot_bit_u64 i Hi).
  unfold wf; simpl; split_and!; auto with kyro.
Qed.

Lemma wf_clear_ready s i : wf s -> wf (proc_clear_ready i s).
Proof. intros (? & ? & ? & ?). unfold wf; simpl; split_and!; auto with kyro. Qed.

Lemma wf_set_timer s i : wf s -> (i < 64)%nat -> wf (proc_set_timer i s).
Proof.
  intros (? & ? & ? & ?) Hi. pose proof (slot_bit_u64 i Hi).
  unfold wf; simpl; split_and!; auto with kyro.
Qed.

#[export] Hint Resolve wf_upd wf_set_ready wf_clear_ready wf_set_timer : kyro.

Lemma wf_wake s i : wf s -> (i < 64)%nat -> wf (wake i s).
Proof. intros. unfold wake. case_if; auto with kyro. Qed.

#[export] Hint Resolve wf_wake : kyro.

(** A wake-up touches only the woken slot and only its state. *)
Lemma proc_at_wake s i j :
  (i < length (g_proctable s))%nat ->
  proc_at (wake i s) j =
    if decide (i = j) then
      (if state (proc_at s i) =? PROC_WAITING then set_state PROC_READY (proc_at s i) else proc_at s i)
    else proc_at s j.
Proof.
  intros Hi. unfold wake. destruct (state (proc_at s i) =? PROC_WAITING) eqn:E.
  - change (proc_at (proc_set_ready i (upd i (set_state PROC_READY) s)) j)
      with (proc_at (upd i (set_state PROC_READY) s) j).
    by apply proc_at_upd.
  - destruct (decide (i = j)) as [<-|]; done.
Qed.

(** ** The ready scan *)

Lemma filter_hd_sorted (P : Z -> bool) (l : list Z) b l' :
  StronglySorted Z.lt l -> filter (fun x => P x = true) l = b :: l' ->
  b ∈ l /\ P b = true /\ (forall c, c ∈ l -> P c = true -> b <= c).
Proof.
  intros Hs Hf.
  assert (Hb : b ∈ filter (fun x => P x = true) l) by (rewrite Hf; left).
  apply list_elem_of_filter in Hb as [HPb Hin]. split; [done|]. split; [done|].
  induction Hs as [|x l Hs IH Hx]; [by rewrite filter_nil in Hf|].
  rewrite filter_cons in Hf. destruct (decide (P x = true)).
  - simplify_eq. intros c [->|Hc]%elem_of_cons _; [done|].
    rewrite Forall_forall in Hx. specialize (Hx _ Hc). lia.
  - intros c [->|Hc]%elem_of_cons HPc; [done|]. apply IH; try done.
    apply elem_of_cons in Hin as [->|]; done.
Qed.

Lemma filter_nil_none (P : Z -> bool) (l : list Z) c :
  filter (fun x => P x = true) l = [] -> c ∈ l -> P c = true -> False.
Proof.
  intros Hf Hc HP. assert (Hin : c ∈ filter (fun x => P x = true) l)
    by (by apply list_elem_of_filter).
  rewrite Hf in Hin. by apply elem_of_nil in Hin.
Qed.

Section scan.
Context (s : sys) (last : Z) (skip : option nat).
Hypothesis Hwf : wf s.
Let start := (last + 1) `mod` PROC_MAX.

Lemma start_range : 0 <= start < 64.
Proof. apply Z.mod_pos_bound. done. Qed.

Lemma high_mask_u64 : is_u64 (Z.shiftr (g_ready_mask s) start).
Proof.
  destruct Hwf as (_ & Hr & _). pose proof start_range. unfold is_u64 in *.
  rewrite Z.shiftr_div_pow2 by lia.
  assert (1 <= 2 ^ start) by (apply Z.pow_le_mono_r with (b := 0); lia).
  split; [apply Z.div_pos; lia|]. apply Z.div_lt_upper_bound; nia.
Qed.

Lemma low_mask_u64 : is_u64 (Z.land (g_ready_mask s) (bit start - 1)).
Proof.
  destruct Hwf as (_ & Hr & _). pose proof start_range. apply is_u64_land; [done|].
  unfold bit. rewrite Z.shiftl_1_l. pose proof (Z.pow_pos_nonneg 2 start). lia.
Qed.

Lemma elem_of_high b :
  b ∈ set_bits (Z.shiftr (g_ready_mask s) start) <->
  0 <= b /\ Z.testbit (g_ready_mask s) (b + start) = true.
Proof.
  rewrite elem_of_set_bits by apply high_mask_u64. split.
  - intros Ht. destruct (Z.lt_ge_cases b 0); [by rewrite Z.testbit_neg_r in Ht|].
    by rewrite shiftr_testbit in Ht.
  - intros [? ?]. by rewrite shiftr_testbit.
Qed.

Lemma elem_of_low b :
  b ∈ set_bits (Z.land (g_ready_mask s) (bit start - 1)) <->
  b < start /\ Z.testbit (g_ready_mask s) b = true.
Proof.
  rewrite elem_of_set_bits by apply low_mask_u64. pose proof start_range.
  unfold bit. rewrite Z.shiftl_1_l, Z.land_spec.
  replace (2 ^ start - 1) with (Z.ones start) by (rewrite Z.ones_equiv; lia).
  rewrite andb_true_iff. split; intros [Ha Hb].
  - split; [|done]. destruct (Z.lt_ge_cases b start); [done|]. by rewrite Z.ones_spec_high in Hb by lia.
  - split; [done|]. destruct (Z.lt_ge_cases b 0); [by rewrite Z.testbit_neg_r in Hb|].
    apply Z.ones_spec_low. lia.
Qed.

Lemma ready_bit_range b : Z.testbit (g_ready_mask s) b = true -> 0 <= b < 64.
Proof. apply testbit_lt_width; [apply Hwf|done]. Qed.

Lemma rr_distance_eq b :
  0 <= b < 64 -> rr_distance last b = if start <=? b then b - start else b - start + 64.
Proof.
  intros Hb. pose proof start_range. unfold rr_distance, start in *.
  rewrite <-Zminus_mod_idemp_r. unfold PROC_MAX in *. case_if.
  - apply Z.mod_small. lia.
  - rewrite <-(Z.mod_add _ 1) by done. apply Z.mod_small. lia.
Qed.

(** The scan returns the first candidate in round-robin order. *)
Lemma proc_next_ready_Some b :
  proc_next_ready s last skip = Some b ->
  candidate s skip b /\
  forall c, candidate s skip c -> rr_distance last b <= rr_distance last c.
Proof.
  unfold proc_next_ready. fold start. pose proof start_range.
  destruct (filter _ (set_bits (Z.shiftr _ _))) as [|b1 l1] eqn:Hf1.
  - destruct (filter _ (set_bits (Z.land _ _))) as [|b2 l2] eqn:Hf2; [done|]. intros [= ->].
    apply filter_hd_sorted in Hf2 as (Hin & HP & Hmin); [|apply set_bits_sorted, low_mask_u64].
    apply elem_of_low in Hin as [Hlt Hbit]. split; [done|]. intros c [Hc HPc].
    pose proof (ready_bit_range _ Hbit). pose proof (ready_bit_range _ Hc).
    rewrite !rr_distance_eq by done. destruct (Z.leb_spec start c).
    + exfalso. apply (filter_nil_none (fun b => schedulable s skip (b + start)) _ (c - start) Hf1).
      * apply elem_of_high. split; [lia|]. by replace (c - start + start) with c by lia.
      * by replace (c - start + start) with c by lia.
    + rewrite (proj2 (Z.leb_gt _ _)) by lia.
      assert (b <= c) by (apply Hmin; [apply elem_of_low|]; done). lia.
  - intros [= <-].
    apply (filter_hd_sorted (fun b => schedulable s skip (b + start))) in Hf1 as (Hin & HP & Hmin);
      [|apply set_bits_sorted, high_mask_u64].
    apply elem_of_high in Hin as [Hge Hbit]. split; [done|]. intros c [Hc HPc].
    pose proof (ready_bit_range _ Hbit). pose proof (ready_bit_range _ Hc).
    rewrite !rr_distance_eq by done. rewrite (proj2 (Z.leb_le _ _)) by lia.
    destruct (Z.leb_spec start c); [|lia].
    assert (b1 <= c - start); [|lia]. apply Hmin.
    + apply elem_of_high. split; [lia|]. by replace (c - start + start) with c by lia.
    + by replace (c - start + start) with c by lia.
Qed.

Lemma proc_next_ready_None c :
  proc_next_ready s last skip = None -> candidate s skip c -> False.
Proof.
  unfold proc_next_ready. fold start. pose proof start_range.
  destruct (filter _ (set_bits (Z.shiftr _ _))) as [|b1 l1] eqn:Hf1; [|done].
  destruct (filter _ (set_bits (Z.land _ _))) as [|b2 l2] eqn:Hf2; [|done].
  intros _ [Hc HPc]. pose proof (ready_bit_range _ Hc). destruct (Z.lt_ge_cases c start).
  - by apply (filter_nil_none (schedulable s skip) _ c Hf2); [apply elem_of_low|].
  - apply (filter_nil_none (fun b => schedulable s skip (b + start)) _ (c - start) Hf1).
    + apply elem_of_high. split; [lia|]. by replace (c - start + start) with c by lia.
    + by replace (c - start + start) with c by lia.
Qed.
End scan.

(** ** Claiming a process *)

Lemma rr_distance_shift last b c :
  rr_distance last b < rr_distance last c ->
  rr_distance b c = rr_distance last c - rr_distance last b - 1.
Proof.
  unfold rr_distance, PROC_MAX. intros Hlt.
  pose proof (Z.mod_pos_bound (b - (last + 1)) 64 ltac:(lia)).
  pose proof (Z.mod_pos_bound (c - (last + 1)) 64 ltac:(lia)).
  pose proof (Z.div_mod (b - (last + 1)) 64 ltac:(lia)).
  pose proof (Z.div_mod (c - (last + 1)) 64 ltac:(lia)).
  symmetry. apply (Z.mod_unique _ _ ((c - (last + 1)) / 64 - (b - (last + 1)) / 64)); lia.
Qed.

Lemma rr_distance_inj last b c :
  0 <= b < 64 -> 0 <= c < 64 -> rr_distance last b = rr_distance last c -> b = c.
Proof.
  intros Hb Hc. unfold rr_distance, PROC_MAX. intros Heq.
  pose proof (Z.div_mod (b - (last + 1)) 64 ltac:(lia)).
  pose proof (Z.div_mod (c - (last + 1)) 64 ltac:(lia)). lia.
Qed.

Lemma clear_slot_testbit m i j :
  is_u64 m -> (i < 64)%nat -> 0 <= j ->
  Z.testbit (clear_bits m (slot_bit i)) j = Z.testbit m j && negb (j =? Z.of_nat i).
Proof. intros. rewrite clear_bits_testbit by done. unfold slot_bit. by rewrite bit_testbit by lia. Qed.

Lemma lor_slot_testbit m i j :
  0 <= j -> Z.testbit (Z.lor m (slot_bit i)) j = Z.testbit m j || (j =? Z.of_nat i).
Proof. intros. rewrite Z.lor_spec. unfold slot_bit. by rewrite bit_testbit by lia. Qed.

(** Ready bits left to scan. *)
Definition ready_count (s : sys) : nat := count_if (Z.testbit (g_ready_mask s)) (seqZ 0 64).

Lemma ready_count_clear s b :
  wf s -> Z.testbit (g_ready_mask s) b = true ->
  (ready_count (proc_clear_ready (Z.to_nat b) s) < ready_count s)%nat.
Proof.
  intros Hwf Hb. pose proof (ready_bit_range s Hwf b Hb) as Hr.
  destruct Hwf as (_ & Hm & _). unfold ready_count. cbn [proc_clear_ready g_ready_mask].
  eapply (count_if_lt _ _ _ (Z.to_nat b) b).
  - intros y Hy. destruct (Z.lt_ge_cases y 0); [by rewrite Z.testbit_neg_r in Hy|].
    rewrite clear_slot_testbit in Hy by (done || lia). dest_bool. done.
  - rewrite lookup_seqZ. lia.
  - rewrite clear_slot_testbit by (done || lia). rewrite Z2Nat.id, Z.eqb_refl by lia.
    by rewrite andb_false_r.
  - done.
Qed.

Lemma candidate_clear s skip b c :
  wf s -> Z.testbit (g_ready_mask s) b = true ->
  candidate (proc_clear_ready (Z.to_nat b) s) skip c <-> candidate s skip c /\ c <> b.
Proof.
  intros Hwf Hb. pose proof (ready_bit_range s Hwf b Hb) as Hr.
  unfold candidate, schedulable, proc_at. simpl.
  destruct (Z.lt_ge_cases c 0).
  { rewrite !(Z.testbit_neg_r _ c) by done. intuition congruence. }
  rewrite clear_slot_testbit by (apply Hwf || lia). rewrite Z2Nat.id by lia.
  rewrite (andb_true_iff (Z.testbit _ _)), negb_true_iff, Z.eqb_neq. tauto.
Qed.

(** What [sched_claim_next] promises about its result. *)
Definition claim_post (s : sys) (last : Z) (skip : option nat) (r : option nat * Z * sys) : Prop :=
  let '(o, last', s') := r in
  wf s' /\
  match o with
  | Some i =>
      last' = Z.of_nat i /\
      candidate s skip (Z.of_nat i) /\ state (proc_at s i) = PROC_READY /\
      proc_at s' i = set_state PROC_RUNNING (proc_at s i) /\
      Z.testbit (g_ready_mask s') (Z.of_nat i) = false /\
      (forall j, j <> i -> proc_at s' j = proc_at s j) /\
      (forall c, candidate s skip c -> state (proc_at s (Z.to_nat c)) = PROC_READY ->
         rr_distance last (Z.of_nat i) <= rr_distance last c)
  | None =>
      g_proctable s' = g_proctable s /\
      forall c, candidate s skip c -> state (proc_at s (Z.to_nat c)) <> PROC_READY
  end.

Lemma claim_hit s last skip b :
  wf s -> proc_next_ready s last skip = Some b ->
  state (proc_at s (Z.to_nat b)) = PROC_READY ->
  claim_post s last skip
    (Some (Z.to_nat b), b, proc_clear_ready (Z.to_nat b) (upd (Z.to_nat b) (set_state PROC_RUNNING) s)).
Proof.
  intros Hwf Hn Hst. destruct (proc_next_ready_Some s last skip Hwf b Hn) as [[Hbit Hs] Hmin].
  pose proof (ready_bit_range s Hwf b Hbit) as Hr. destruct (Hwf) as (Hlen & Hm & _).
  assert (Hzb : Z.of_nat (Z.to_nat b) = b) by lia.
  unfold claim_post. split; [auto with kyro|]. rewrite Hzb. split_and!; try done.
  - change (proc_at (upd (Z.to_nat b) (set_state PROC_RUNNING) s) (Z.to_nat b)
            = set_state PROC_RUNNING (proc_at s (Z.to_nat b))).
    rewrite proc_at_upd by lia. by rewrite decide_True.
  - simpl. rewrite clear_slot_testbit by (done || lia). rewrite Hzb, Z.eqb_refl. by rewrite andb_false_r.
  - intros j Hj.
    change (proc_at (upd (Z.to_nat b) (set_state PROC_RUNNING) s) j = proc_at s j).
    by rewrite proc_at_upd_ne.
  - intros c Hc _. by apply Hmin.
Qed.

Lemma claim_loop_correct n s last skip :
  wf s -> (ready_count s <= n)%nat -> claim_post s last skip (claim_loop n s last skip).
Proof.
  revert s last. induction n as [|n IH]; intros s last Hwf Hn; cbn [claim_loop].
  - split; [done|]. split; [done|]. intros c [Hb _] _.
    pose proof (ready_bit_range s Hwf c Hb) as Hr.
    assert (0 < ready_count s)%nat; [|lia].
    eapply (count_if_pos _ _ (Z.to_nat c) c); [|done]. rewrite lookup_seqZ. lia.
  - destruct (proc_next_ready s last skip) as [b|] eqn:Hb.
    2:{ split; [done|]. split; [done|]. intros c Hc.
        destruct (proc_next_ready_None s last skip Hwf c Hb Hc). }
    destruct (Z.eqb_spec (state (proc_at s (Z.to_nat b))) PROC_READY) as [Hst|Hst];
      [by apply claim_hit|].
    destruct (proc_next_ready_Some s last skip Hwf b Hb) as [[Hbit Hsch] Hmin].
    pose proof (ready_count_clear s b Hwf Hbit) as Hcnt.
    pose proof (ready_bit_range s Hwf b Hbit) as Hr.
    specialize (IH (proc_clear_ready (Z.to_nat b) s) b ltac:(auto with kyro) ltac:(lia)).
    destruct (claim_loop n _ b skip) as [[o last'] s'] eqn:Hloop.
    destruct IH as [Hwf' IH]. split; [done|].
    assert (Hcand : forall c, candidate s skip c -> state (proc_at s (Z.to_nat c)) = PROC_READY ->
      candidate (proc_clear_ready (Z.to_nat b) s) skip c /\ rr_distance last b < rr_distance last c).
    { intros c Hc Hcr. assert (c <> b) by congruence. split; [by apply candidate_clear|].
      pose proof (Hmin c Hc). destruct (Z.eq_dec (rr_distance last b) (rr_distance last c)) as [Heq|];
        [|lia]. apply rr_distance_inj in Heq; [congruence|done|].
      apply (ready_bit_range s Hwf), Hc. }
    destruct o as [i|].
    + destruct IH as (-> & Hc & Hst' & Hp & Hrb & Hfr & Hord).
      apply candidate_clear in Hc as [Hc Hcb]; [|done..]. split_and!; try done.
      intros c Hcc Hcr. destruct (Hcand c Hcc Hcr) as [Hc' Hd].
      specialize (Hord c Hc' Hcr).
      destruct (Hcand (Z.of_nat i) Hc) as [_ Hdi].
      { rewrite Nat2Z.id. exact Hst'. }
      rewrite !(rr_distance_shift last b) in Hord by done. lia.
    + destruct IH as [Htab Hnone]. split; [done|]. intros c Hc Hcr.
      destruct (Hcand c Hc Hcr) as [Hc' _]. by apply (Hnone c Hc').
Qed.

Lemma ready_count_le s : (ready_count s <= 64)%nat.
Proof. unfold ready_count. pose proof (count_if_le (Z.testbit (g_ready_mask s)) (seqZ 0 64)) as H.
  by rewrite length_seqZ in H. Qed.

(** C34: the scheduler never misses runnable work and picks it round robin.
    [sched_claim_next] returns a slot other than [skip] that was READY, which it
    makes RUNNING and takes out of the ready mask, changing no other process;
    among the READY candidates it is the first one after the slot scheduled
    last.  It returns [NULL] only when no candidate is READY, although the ready
    mask may contain stale bits: the 64 tries are enough to skip them all. *)
Theorem sched_claim_next_correct s last skip :
  wf s -> claim_post s last skip (sched_claim_next s last skip).
Proof. intros Hwf. apply claim_loop_correct; [done|]. apply ready_count_le. Qed.

Lemma sched_claim_next_correct_witness :
  let p st n := set_state st (mkProc 0 n 0 0 1 0 0 0 0 0 0 0 0 0 0 0 0 0 [] 0 0 0) in
  let s := mkSys ([p PROC_RUNNING 1; p PROC_WAITING 2; p PROC_READY 3] ++ replicate 61 proc0) 7 7 0 in
  wf s /\ claim_post s 0 (Some 0%nat) (sched_claim_next s 0 (Some 0%nat)).
Proof.
  intros p s. assert (Hwf : wf s) by (unfold wf, is_u64; vm_compute; intuition congruence).
  split; [exact Hwf|]. exact (sched_claim_next_correct s 0 (Some 0%nat) Hwf).
Defined.
