(* ===== verification/Signal.v ===== *)
(** * Signal: sending, masking and delivering signals.

    Models [kernel/proc/signal.c] and the signal system calls of
    [kernel/syscall/sig.c].  The signal frame is the byte image of
    [rt_sigframe_t] in user memory; [fault_in] stands for
    [vmm_user_range_fault_in], the page-table part of [uptr_ok], which may accept
    or refuse any range. *)

From S2P Require Import Prelude Bits Bytes Proc.

Definition SIGKILL := 9.
Definition SIGPIPE := 13.
Definition SIGALRM := 14.
Definition SIGCHLD := 17.
Definition SIGCONT := 18.
Definition SIGSTOP := 19.
Definition SIGTSTP := 20.
Definition SIGTTIN := 21.
Definition SIGTTOU := 22.
Definition SIGWINCH := 28.
Definition NSIG := 64.
Definition SIG_DFL := 0.
Definition SIG_IGN := 1.
Definition SA_ONSTACK := 0x08000000.
Definition SA_RESETHAND := 0x80000000.
Definition SA_NODEFER := 0x40000000.
Definition SS_ONSTACK := 1.
Definition SS_DISABLE := 2.
Definition SIG_BLOCK := 0.
Definition SIG_UNBLOCK := 1.
Definition SIG_SETMASK := 2.
Definition USER_LIMIT := 0x800000000000.
Definition GDT_USER_CODE_SEL := 0x23.
Definition EPERM := 1.
Definition EINTR := 4.
Definition EFAULT := 14.
Definition EINVAL := 22.

Definition SIG_BIT (sig : Z) : Z := bit (sig - 1).
Definition SIG_UNBLOCKABLE : Z := Z.lor (SIG_BIT SIGKILL) (SIG_BIT SIGSTOP).
Definition SIG_STOP_MASK : Z :=
  Z.lor (Z.lor (Z.lor (SIG_BIT SIGSTOP) (SIG_BIT SIGTSTP)) (SIG_BIT SIGTTIN)) (SIG_BIT SIGTTOU).

Definition sig_default_fatal (sig : Z) : bool :=
  negb ((sig =? SIGCHLD) || (sig =? SIGCONT) || (sig =? SIGWINCH)).

Definition sig_default_stop (sig : Z) : bool := ztrue (Z.land (SIG_BIT sig) SIG_STOP_MASK).

Definition act0 : k_sigaction_t := mkAct 0 0 0 0.

(** [p->sig_actions[sig - 1]]. *)
Definition action (p : proc_t) (sig : Z) : k_sigaction_t :=
  aget act0 (sig_actions p) (Z.to_nat (sig - 1)).

(** Pending signals the mask lets through ([SIGKILL] and [SIGSTOP] always). *)
Definition unmasked (p : proc_t) : Z :=
  clear_bits (pending_sigs p) (clear_bits (sig_mask p) SIG_UNBLOCKABLE).

(** The body of the loop of [proc_blocking_sig_mask] at bit [idx]. *)
Definition drop_ignored (p : proc_t) (actionable idx : Z) : Z :=
  let sig := idx + 1 in
  let handler := sa_handler (action p sig) in
  if (handler =? SIG_IGN) || ((handler =? SIG_DFL) && negb (sig_default_fatal sig))
  then clear_bits actionable (bit idx) else actionable.

Definition proc_blocking_sig_mask (p : proc_t) : Z :=
  foldl (drop_ignored p) (unmasked p) (set_bits (unmasked p)).

Definition proc_send_signal (i : nat) (sig : Z) (s : sys) : sys :=
  if (sig <? 1) || (NSIG <=? sig) then s else
  if state (proc_at s i) =? PROC_UNUSED then s else
  let s :=
    if sig =? SIGCONT
    then upd i (fun p => set_pending_sigs (clear_bits (pending_sigs p) SIG_STOP_MASK) p) s
    else if sig_default_stop sig
    then upd i (fun p => set_pending_sigs (clear_bits (pending_sigs p) (SIG_BIT SIGCONT)) p) s
    else s in
  let s := upd i (fun p => set_pending_sigs (Z.lor (pending_sigs p) (SIG_BIT sig)) p) s in
  if ztrue (job_stopped (proc_at s i)) && ((sig =? SIGCONT) || (sig =? SIGKILL))
  then proc_publish_ready i (upd i (set_job_stopped 0) s)
  else wake i s.

(** ** The user context *)

Record syscall_frame_t := mkFrame {
  rax : Z; rbx : Z; rcx : Z; rdx : Z; rsi : Z; rdi : Z; rbp : Z;
  r8 : Z; r9 : Z; r10 : Z; r11 : Z; r12 : Z; r13 : Z; r14 : Z; r15 : Z;
}.

Definition set_rcx (v : Z) (f : syscall_frame_t) : syscall_frame_t :=
  mkFrame (rax f) (rbx f) v (rdx f) (rsi f) (rdi f) (rbp f)
    (r8 f) (r9 f) (r10 f) (r11 f) (r12 f) (r13 f) (r14 f) (r15 f).

Definition user_rflags (v : Z) : Z := Z.lor (Z.land v 0x00050DD5) 0x00000202.

Definition uptr_ok (fault_in : Z -> Z -> bool -> bool) (base len : Z) (write : bool) : bool :=
  if USER_LIMIT <=? base then false else
  if ztrue len && (USER_LIMIT - len <? base) then false else
  fault_in base len write.

Definition SIGFRAME_SIZE := 440.

(** The 64-bit words of [mcontext_t] as [setup_sigframe] fills them. *)
Definition mcontext_words (f : syscall_frame_t) (user_rsp : Z) : list Z :=
  [r8 f; r9 f; r10 f; r11 f; r12 f; r13 f; r14 f; r15 f;
   rdi f; rsi f; rbp f; rbx f; rdx f; rax f; rcx f; user_rsp;
   rcx f; r11 f; GDT_USER_CODE_SEL; 0; 0; 0; 0; 0] ++ replicate 8 0.

(** [rt_sigframe_t]: return address, [siginfo_t] (128 bytes, [si_signo] first),
    five words of [ucontext_t], the machine context and the saved mask. *)
Definition frame_words (p : proc_t) (sig : Z) (f : syscall_frame_t) (user_rsp : Z) : list Z :=
  [sa_restorer (action p sig)] ++ (sig :: replicate 15 0) ++ replicate 5 0 ++
  mcontext_words f user_rsp ++ [sig_mask p].

Definition frame_bytes (p : proc_t) (sig : Z) (f : syscall_frame_t) (user_rsp : Z) : list Z :=
  concat (map (le_bytes 8) (frame_words p sig f user_rsp)).

Record ucontext := mkUser {
  u_mem : memory;
  u_frame : syscall_frame_t;
  u_rsp : Z;
}.

(** Byte offset of word [i] of the machine context inside the frame. *)
Definition MC (i : Z) : Z := 8 + 128 + 40 + 8 * i.

Definition use_alt (p : proc_t) (sig : Z) : bool :=
  ztrue (Z.land (sa_flags (action p sig)) SA_ONSTACK) && (on_sigstack p =? 0) &&
  (SIGFRAME_SIZE + 16 <=? sig_altstack_size p).

Definition sigframe_addr (p : proc_t) (sig : Z) (user_rsp : Z) : Z :=
  let base := if use_alt p sig then u64 (sig_altstack_sp p + sig_altstack_size p)
              else u64 (user_rsp - 128) in
  let sp := u64 (base - SIGFRAME_SIZE) in
  u64 (Z.land (u64 (sp - 8)) (u64 (Z.lnot 0xF)) + 8).

(** [None]: the process exits with [SIGSEGV]. *)
Definition setup_sigframe (fault_in : Z -> Z -> bool -> bool) (p : proc_t) (sig : Z) (u : ucontext) :
    option (proc_t * ucontext) :=
  let f := u_frame u in
  let sp := sigframe_addr p sig (u_rsp u) in
  if negb (uptr_ok fault_in sp SIGFRAME_SIZE true) then None else
  let a := action p sig in
  let mem := store_bytes (u_mem u) sp (frame_bytes p sig f (u_rsp u)) in
  let block := if ztrue (Z.land (sa_flags a) SA_NODEFER) then sa_mask a
               else Z.lor (sa_mask a) (SIG_BIT sig) in
  let p1 := set_sig_mask (clear_bits (Z.lor (sig_mask p) block) SIG_UNBLOCKABLE) p in
  let f' := mkFrame (rax f) (rbx f) (sa_handler a) (sp + 8 + 128) (sp + 8) sig (rbp f)
              (r8 f) (r9 f) (r10 f) 0x202 (r12 f) (r13 f) (r14 f) (r15 f) in
  let p2 := if use_alt p sig then set_on_sigstack 1 p1 else p1 in
  let p3 := if ztrue (Z.land (sa_flags a) SA_RESETHAND)
            then set_sig_actions
                   (<[Z.to_nat (sig - 1) := mkAct SIG_DFL (sa_flags a) (sa_restorer a) (sa_mask a)]>
                      (sig_actions p2)) p2
            else p2 in
  Some (p3, mkUser mem f' sp).

Inductive delivery :=
  | Exits (sig : Z)                                (* proc_do_exit_signal *)
  | JobStop (sig : Z)                              (* proc_job_stop *)
  | PtraceStop (sig : Z)                           (* proc_ptrace_stop *)
  | Ignored
  | Handled (p : proc_t) (u : ucontext).

Definition deliver_signal (fault_in : Z -> Z -> bool -> bool) (p : proc_t) (sig : Z) (u : ucontext) :
    delivery :=
  let handler := sa_handler (action p sig) in
  if sig =? SIGKILL then Exits SIGKILL else
  if sig_default_stop sig && ((sig =? SIGSTOP) || (handler =? SIG_DFL)) then JobStop sig else
  if handler =? SIG_IGN then Ignored else
  if handler =? SIG_DFL then (if sig_default_fatal sig then Exits sig else Ignored) else
  if sa_restorer (action p sig) =? 0 then Exits sig else
  match setup_sigframe fault_in p sig u with
  | None => Exits 11
  | Some (p', u') => Handled p' u'
  end.

(** [None] when nothing is pending; otherwise the process with the signal
    dequeued and what happened to it. *)
Definition signal_check (fault_in : Z -> Z -> bool -> bool) (p : proc_t) (u : ucontext) :
    option (proc_t * delivery) :=
  let pending := unmasked p in
  if pending =? 0 then None else
  let idx := ctzll pending in
  let sig := idx + 1 in
  let p' := set_pending_sigs (clear_bits (pending_sigs p) (bit idx)) p in
  if ztrue (tracer_pid p') && negb (sig =? SIGKILL) then Some (p', PtraceStop sig)
  else Some (p', deliver_signal fault_in p' sig u).

(** ** System calls *)

(** [act] and [oldact] are user pointers with the structure [act] points to. *)
Definition sys_rt_sigaction (fault_in : Z -> Z -> bool -> bool) (sig : Z)
    (act : option (Z * k_sigaction_t)) (oldact : option Z) (p : proc_t) :
    Z * option k_sigaction_t * proc_t :=
  if (sig <? 1) || (NSIG <=? sig) then (- EINVAL, None, p) else
  if (sig =? SIGKILL) || (sig =? SIGSTOP) then (- EINVAL, None, p) else
  if match oldact with Some a => negb (uptr_ok fault_in a 32 true) | None => false end
  then (- EFAULT, None, p) else
  if match act with Some (a, _) => negb (uptr_ok fault_in a 32 false) | None => false end
  then (- EFAULT, None, p) else
  if match act with
     | Some (_, k) => negb (sa_handler k =? SIG_DFL) && negb (sa_handler k =? SIG_IGN) &&
                      (USER_LIMIT <=? sa_handler k)
     | None => false
     end then (- EINVAL, None, p) else
  let old := match oldact with Some _ => Some (action p sig) | None => None end in
  match act with
  | Some (_, k) => (0, old, set_sig_actions (<[Z.to_nat (sig - 1) := k]> (sig_actions p)) p)
  | None => (0, old, p)
  end.

(** [set] and [oldset] are user pointers with the mask [set] points to. *)
Definition sys_rt_sigprocmask (fault_in : Z -> Z -> bool -> bool) (how : Z)
    (set : option (Z * Z)) (oldset : option Z) (p : proc_t) : Z * option Z * proc_t :=
  if match oldset with Some a => negb (uptr_ok fault_in a 8 true) | None => false end
  then (- EFAULT, None, p) else
  let old := match oldset with Some _ => Some (sig_mask p) | None => None end in
  match set with
  | None => (0, old, p)
  | Some (a, v) =>
      if negb (uptr_ok fault_in a 8 false) then (- EFAULT, old, p) else
      let bits := clear_bits v SIG_UNBLOCKABLE in
      if how =? SIG_BLOCK then (0, old, set_sig_mask (Z.lor (sig_mask p) bits) p) else
      if how =? SIG_UNBLOCK then (0, old, set_sig_mask (clear_bits (sig_mask p) bits) p) else
      if how =? SIG_SETMASK then (0, old, set_sig_mask bits p) else
      (- EINVAL, old, p)
  end.

(** [inl] is the error; [inr] the restored context, whose [rax] the dispatcher
    fills with the returned value. *)
Definition sys_rt_sigreturn (fault_in : Z -> Z -> bool -> bool) (p : proc_t) (u : ucontext) :
    Z + (proc_t * ucontext) :=
  let frame := u64 (u_rsp u - 8) in
  if negb (uptr_ok fault_in frame SIGFRAME_SIZE false) then inl (- EFAULT) else
  let mc i := load64 (u_mem u) (frame + MC i) in
  if USER_LIMIT <=? mc 16 then inl (- EFAULT) else
  let f' := mkFrame (mc 13) (mc 11) (mc 16) (mc 12) (mc 9) (mc 8) (mc 10)
              (mc 0) (mc 1) (mc 2) (user_rflags (mc 17)) (mc 4) (mc 5) (mc 6) (mc 7) in
  let p' := set_on_sigstack 0
              (set_sig_mask (clear_bits (load64 (u_mem u) (frame + MC 32)) SIG_UNBLOCKABLE) p) in
  inr (p', mkUser (u_mem u) f' (mc 15)).

(** [ss] is a user pointer with the structure it points to: [ss_sp], [ss_flags],
    [ss_size]; the old settings are returned in the same order. *)
Definition sys_sigaltstack (fault_in : Z -> Z -> bool -> bool) (ss : option (Z * (Z * Z * Z)))
    (oss : option Z) (p : proc_t) : Z * option (Z * Z * Z) * proc_t :=
  if match oss with Some a => negb (uptr_ok fault_in a 24 true) | None => false end
  then (- EFAULT, None, p) else
  let old := match oss with
             | Some _ => Some (sig_altstack_sp p,
                           (if ztrue (on_sigstack p) then SS_ONSTACK
                            else if ztrue (sig_altstack_size p) then 0 else SS_DISABLE),
                           sig_altstack_size p)
             | None => None
             end in
  match ss with
  | None => (0, old, p)
  | Some (a, (sp, flags, size)) =>
      if negb (uptr_ok fault_in a 24 false) then (- EFAULT, old, p) else
      if ztrue (on_sigstack p) then (- EPERM, old, p) else
      if ztrue (Z.land flags SS_DISABLE)
      then (0, old, set_sig_altstack_size 0 (set_sig_altstack_sp 0 p))
      else (0, old, set_sig_altstack_size size (set_sig_altstack_sp sp p))
  end.

(** The mask installed by [sys_rt_sigsuspend] while it waits. *)
Definition sigsuspend_mask (mask : Z) (p : proc_t) : proc_t :=
  set_sig_mask (clear_bits mask SIG_UNBLOCKABLE) p.

(** The deadline of [sys_rt_sigtimedwait] for a [timespec] at tick [now];
    all ones is "wait forever". *)
Definition sigtimedwait_deadline (now : Z) (timeout : option (Z * Z)) : Z :=
  match timeout with
  | None => U64_MAX
  | Some (sec, nsec) =>
      let ms := u64 (u64 (sec * 1000) + nsec / 1000000) in
      if ztrue ms then u64 (now + ms) else U64_MAX
  end.

(** ** The signal frame *)

Definition regs_ok (f : syscall_frame_t) : Prop :=
  Forall is_u64 [rax f; rbx f; rcx f; rdx f; rsi f; rdi f; rbp f;
                 r8 f; r9 f; r10 f; r11 f; r12 f; r13 f; r14 f; r15 f].

(** The interrupted registers as [sys_rt_sigreturn] gives them back. *)
Definition resumed (f : syscall_frame_t) : syscall_frame_t :=
  mkFrame (rax f) (rbx f) (rcx f) (rdx f) (rsi f) (rdi f) (rbp f)
    (r8 f) (r9 f) (r10 f) (user_rflags (r11 f)) (r12 f) (r13 f) (r14 f) (r15 f).

(** The stack the frame is pushed on. *)
Definition frame_base (p : proc_t) (sig user_rsp : Z) : Z :=
  if use_alt p sig then u64 (sig_altstack_sp p + sig_altstack_size p) else u64 (user_rsp - 128).

Lemma uptr_ok_range fault_in a len w :
  0 < len -> uptr_ok fault_in a len w = true -> a + len <= USER_LIMIT.
Proof. unfold uptr_ok, ztrue. intros. bsolve. Qed.

Lemma sigframe_addr_spec p sig rsp :
  sigframe_addr p sig rsp + SIGFRAME_SIZE <= USER_LIMIT ->
  sigframe_addr p sig rsp `mod` 16 = 8 /\ 8 <= sigframe_addr p sig rsp /\
  sigframe_addr p sig rsp + SIGFRAME_SIZE <= frame_base p sig rsp.
Proof.
  unfold sigframe_addr. fold (frame_base p sig rsp).
  assert (Hb : is_u64 (frame_base p sig rsp)) by (unfold frame_base; case_raw; apply u64_range).
  generalize dependent (frame_base p sig rsp). intros base Hb.
  change 0xF with (2 ^ 4 - 1). rewrite align_down by (auto with kyro || lia).
  change (2 ^ 4) with 16. unfold SIGFRAME_SIZE, USER_LIMIT, is_u64 in *.
  pose proof (Z.mod_pos_bound (u64 (u64 (base - 440) - 8)) 16 ltac:(lia)).
  pose proof (u64_range (u64 (base - 440) - 8)) as Hx. unfold is_u64 in Hx.
  remember (u64 (u64 (base - 440) - 8)) as x eqn:Ex.
  assert (Hr : u64 (x - x `mod` 16 + 8) = x - x `mod` 16 + 8).
  { apply u64_small. unfold is_u64. pose proof (Z.div_mod x 16 ltac:(lia)). lia. }
  rewrite Hr. intros Hlim.
  pose proof (Z.mod_le x 16 ltac:(lia) ltac:(lia)).
  split; [|split; [lia|]].
  - pose proof (Z.div_mod x 16 ltac:(lia)).
    symmetry. apply (Z.mod_unique _ _ (x / 16)); lia.
  - destruct (Z.lt_ge_cases base 448) as [Hlt|Hge].
    + exfalso. assert (x = base - 448 + 2 ^ 64).
      { rewrite Ex. unfold u64. rewrite Zminus_mod_idemp_l.
        symmetry. apply (Z.mod_unique _ _ (-1)); lia. }
      pose proof (Z.div_mod x 16 ltac:(lia)). lia.
    + assert (x = base - 448).
      { rewrite Ex. unfold u64. rewrite Zminus_mod_idemp_l. rewrite Z.mod_small; lia. }
      lia.
Qed.

Lemma setup_sigframe_inv fault_in p sig u p1 u1 :
  setup_sigframe fault_in p sig u = Some (p1, u1) ->
  u_rsp u1 = sigframe_addr p sig (u_rsp u) /\
  u_mem u1 = store_bytes (u_mem u) (u_rsp u1) (frame_bytes p sig (u_frame u) (u_rsp u)) /\
  u_rsp u1 + SIGFRAME_SIZE <= USER_LIMIT.
Proof.
  unfold setup_sigframe. destruct (uptr_ok _ _ _ _) eqn:Hok; [|done]. cbv zeta. simpl negb.
  intros [= _ <-]. cbn [u_rsp u_mem]. split_and!; try done.
  by apply (uptr_ok_range _ _ SIGFRAME_SIZE) in Hok.
Qed.

Lemma setup_sigframe_ok fault_in p sig u :
  uptr_ok fault_in (sigframe_addr p sig (u_rsp u)) SIGFRAME_SIZE true = true ->
  exists p1 u1, setup_sigframe fault_in p sig u = Some (p1, u1).
Proof. intros Hok. unfold setup_sigframe. rewrite Hok. cbv zeta. simpl negb. by do 2 eexists. Qed.

(** Reading word [k] of a frame that is intact in memory. *)
Lemma frame_word_read p sig f rsp m m' sp k w :
  frame_words p sig f rsp !! k = Some w -> is_u64 w ->
  (forall x, sp <= x < sp + SIGFRAME_SIZE ->
     m' x = store_bytes m sp (frame_bytes p sig f rsp) x) ->
  load64 m' (sp + 8 * Z.of_nat k) = w.
Proof.
  intros Hk Hw Hm.
  assert (Hlen : (k < 55)%nat) by exact (lookup_lt_Some _ _ _ Hk).
  rewrite <-(u64_small w Hw). unfold load64.
  rewrite (load_bytes_ext _ (store_bytes m sp (frame_bytes p sig f rsp))).
  - by apply load64_store_words.
  - intros x Hx. apply Hm. unfold SIGFRAME_SIZE. lia.
Qed.

Lemma is_u64_small z : 0 <= z -> z < 2 ^ 64 -> is_u64 z.
Proof. done. Qed.


(** A concrete process and context: [SIGUSR1] (10) and [SIGUSR2] (12) have
    handlers on an alternate stack. *)
Definition demo_proc : proc_t :=
  set_sig_altstack_size 0x4000 (set_sig_altstack_sp 0x10000 (set_sig_actions
    (<[9%nat := mkAct 0x1000 SA_ONSTACK 0x9000 0]>
      (<[11%nat := mkAct 0x2000 SA_ONSTACK 0x9000 0]> (sig_actions proc0))) proc0)).

Definition demo_user : ucontext :=
  mkUser (fun _ => 0) (mkFrame 1 2 0x400123 4 5 6 7 8 9 10 0x202 12 13 14 15) 0x7fff0000.

Definition all_mapped (a len : Z) (w : bool) : bool := true.


(** ** The alternate stack *)

Lemma sigframe_addr_alt p q sig sig' rsp rsp' :
  use_alt p sig = true -> use_alt q sig' = true ->
  sig_altstack_sp q = sig_altstack_sp p -> sig_altstack_size q = sig_altstack_size p ->
  sigframe_addr q sig' rsp' = sigframe_addr p sig rsp.
Proof. intros Hp Hq H1 H2. unfold sigframe_addr. by rewrite Hp, Hq, H1, H2. Qed.

Lemma sigreturn_proc fault_in p u p' u' :
  sys_rt_sigreturn fault_in p u = inr (p', u') ->
  on_sigstack p' = 0 /\ sig_altstack_sp p' = sig_altstack_sp p /\
  sig_altstack_size p' = sig_altstack_size p /\ sig_actions p' = sig_actions p.
Proof. unfold sys_rt_sigreturn. cbv zeta. repeat case_raw; try done. by intros [= <- _]. Qed.

(** a nested return from a handler frees an alternate stack that is still in
    use.  While handler [A] runs on the alternate stack, any [sys_rt_sigreturn]
    (here of a nested handler) clears [on_sigstack]; the next signal with
    [SA_ONSTACK] gets its frame at the very address of [A]'s frame and
    overwrites it. *)
Theorem altstack_frame_overwritten fault_in p sigA u pA uA p1 u1 p2 u2 sigB u3 p3 u4 :
  use_alt p sigA = true ->
  setup_sigframe fault_in p sigA u = Some (pA, uA) ->
  sig_altstack_sp p1 = sig_altstack_sp p -> sig_altstack_size p1 = sig_altstack_size p ->
  sys_rt_sigreturn fault_in p1 u1 = inr (p2, u2) ->
  ztrue (Z.land (sa_flags (action p1 sigB)) SA_ONSTACK) = true ->
  setup_sigframe fault_in p2 sigB u3 = Some (p3, u4) ->
  u_rsp u4 = u_rsp uA.
Proof.
  intros Halt HA Hsp Hsz Hret Hfl HB.
  destruct (setup_sigframe_inv _ _ _ _ _ _ HA) as (-> & _).
  destruct (setup_sigframe_inv _ _ _ _ _ _ HB) as (-> & _).
  destruct (sigreturn_proc _ _ _ _ _ Hret) as (Hon & Hsp2 & Hsz2 & Hact).
  apply sigframe_addr_alt; [done| |congruence..].
  unfold use_alt, action in *. rewrite Hact, Hon, Hsz2, Hsz, Hfl.
  apply andb_true_iff in Halt as [_ ->]. done.
Qed.

(** On the concrete process: [SIGUSR1] is delivered on the alternate stack, its
    handler is interrupted and a nested handler returns (through a zeroed frame),
    then [SIGUSR2] arrives. *)
Definition in_handler : proc_t := set_on_sigstack 1 demo_proc.
Definition nested_ret : ucontext := mkUser (fun _ => 0) (u_frame demo_user) 0x12000.

Lemma altstack_frame_overwritten_witness :
  exists p1 u1 p2 u2 p3 u3,
    setup_sigframe all_mapped demo_proc 10 demo_user = Some (p1, u1) /\
    sys_rt_sigreturn all_mapped in_handler nested_ret = inr (p2, u2) /\
    setup_sigframe all_mapped p2 12 demo_user = Some (p3, u3) /\
    u_rsp u3 = u_rsp u1.
Proof.
  destruct (setup_sigframe_ok all_mapped demo_proc 10 demo_user) as (p1 & u1 & E1);
    [vm_compute; reflexivity|].
  assert (E2 : exists u2, sys_rt_sigreturn all_mapped in_handler nested_ret =
    inr (set_on_sigstack 0 (set_sig_mask 0 in_handler), u2)) by (eexists; vm_compute; reflexivity).
  destruct E2 as [u2 E2]. remember (set_on_sigstack 0 (set_sig_mask 0 in_handler)) as p2 eqn:Hp2.
  destruct (setup_sigframe_ok all_mapped p2 12 demo_user) as (p3 & u3 & E3);
    [rewrite Hp2; vm_compute; reflexivity|].
  exists p1, u1, p2, u2, p3, u3. split; [exact E1|]. split; [exact E2|]. split; [exact E3|].
  exact (altstack_frame_overwritten all_mapped demo_proc 10 demo_user p1 u1 in_handler nested_ret
    p2 u2 12 demo_user p3 u3 eq_refl E1 eq_refl eq_refl E2 eq_refl E3).
Defined.

(** ** SIGKILL cannot be held off *)

(** The ways a process changes its own signal state, with arbitrary user input. *)
Inductive sig_call :=
  | CallAction (sig : Z) (act : option (Z * k_sigaction_t)) (oldact : option Z)
  | CallMask (how : Z) (set : option (Z * Z)) (oldset : option Z)
  | CallReturn (u : ucontext)
  | CallAltStack (ss : option (Z * (Z * Z * Z))) (oss : option Z)
  | CallSuspend (mask : Z)
  | CheckSignals (u : ucontext).

Definition do_call (fault_in : Z -> Z -> bool -> bool) (p : proc_t) (c : sig_call) : proc_t :=
  match c with
  | CallAction sig act oldact => snd (sys_rt_sigaction fault_in sig act oldact p)
  | CallMask how set oldset => snd (sys_rt_sigprocmask fault_in how set oldset p)
  | CallReturn u => match sys_rt_sigreturn fault_in p u with inr (p', _) => p' | inl _ => p end
  | CallAltStack ss oss => snd (sys_sigaltstack fault_in ss oss p)
  | CallSuspend mask => sigsuspend_mask mask p
  | CheckSignals u =>
      match signal_check fault_in p u with
      | Some (_, Handled p' _) => p'
      | Some (p', _) => p'
      | None => p
      end
  end.

(** [SIGKILL] is unmasked and has its default action. *)
Definition kill_ok (p : proc_t) : Prop :=
  Z.testbit (sig_mask p) 8 = false /\ sa_handler (action p SIGKILL) = SIG_DFL.

Lemma clear_unblockable m : Z.testbit (clear_bits m SIG_UNBLOCKABLE) 8 = false.
Proof. rewrite clear_bits_low by lia. by rewrite andb_false_r. Qed.

Lemma action_set_other p sig k :
  Z.to_nat (sig - 1) <> 8%nat ->
  action (set_sig_actions (<[Z.to_nat (sig - 1) := k]> (sig_actions p)) p) SIGKILL = action p SIGKILL.
Proof.
  intros Hne. unfold action, aget. simpl. change (Pos.to_nat 8) with 8%nat.
  by rewrite list_lookup_insert_ne.
Qed.

Lemma setup_kill_ok fault_in p sig u p' u' :
  kill_ok p -> sig <> SIGKILL -> 1 <= sig -> setup_sigframe fault_in p sig u = Some (p', u') ->
  kill_ok p'.
Proof.
  intros [Hm Ha] Hs H1. unfold setup_sigframe, kill_ok. destruct (negb _); [done|]. cbv zeta.
  intros [= <- _].
  assert (Z.to_nat (sig - 1) <> 8%nat) by (unfold SIGKILL in Hs; lia).
  destruct (ztrue (Z.land (sa_flags (action p sig)) SA_RESETHAND));
    [|by destruct (use_alt p sig); (split; [apply clear_unblockable|])].
  rewrite action_set_other by done.
  destruct (use_alt p sig); split; try apply clear_unblockable; exact Ha.
Qed.

Lemma deliver_kill_ok fault_in p sig u p' u' :
  kill_ok p -> 1 <= sig -> deliver_signal fault_in p sig u = Handled p' u' -> kill_ok p'.
Proof.
  intros Hk Hs. unfold deliver_signal. cbv zeta.
  destruct (Z.eqb_spec sig SIGKILL); [done|]. repeat (case_raw; try done).
  destruct (setup_sigframe fault_in p sig u) as [[p1 u1]|] eqn:Hset; [|done].
  intros [= <- <-]. by apply (setup_kill_ok fault_in p sig u p1 u1).
Qed.

Lemma do_call_kill_ok fault_in p c : kill_ok p -> kill_ok (do_call fault_in p c).
Proof.
  intros Hk. destruct (Hk) as [Hm Ha]. destruct c; cbn [do_call].
  - unfold sys_rt_sigaction. cbv zeta. repeat (case_raw; try done). destruct act as [[a k]|]; [|done].
    split; [done|]. cbn [snd]. rewrite action_set_other; [done|].
    dest_bool; unfold SIGKILL in *; lia.
  - unfold sys_rt_sigprocmask. case_raw; [done|]. destruct set as [[a v]|]; [|done]. cbv zeta.
    repeat (case_raw; try done); split; try done; cbn [snd sig_mask set_sig_mask].
    + rewrite Z.lor_spec, Hm. apply clear_unblockable.
    + rewrite clear_bits_low by lia. by rewrite Hm.
    + apply clear_unblockable.
  - unfold sys_rt_sigreturn. cbv zeta. repeat (case_raw; try done). split; [apply clear_unblockable|done].
  - unfold sys_sigaltstack. case_raw; [done|]. destruct ss as [[a [[sp fl] sz]]|]; [|done]. cbv zeta.
    by repeat (case_raw; try done).
  - split; [apply clear_unblockable|done].
  - unfold signal_check. cbv zeta. case_raw; [done|]. case_raw; [done|].
    destruct (deliver_signal _ _ _ _) as [| | | |p' u'] eqn:Hd; try done.
    pose proof (ctzll_nonneg (unmasked p)).
    refine (deliver_kill_ok _ _ _ _ _ _ _ _ Hd); [exact Hk|lia].
Qed.

Lemma drop_ignored_kill p m idx :
  kill_ok p -> 0 <= idx -> Z.testbit m 8 = true -> Z.testbit (drop_ignored p m idx) 8 = true.
Proof.
  intros [_ Ha] Hi Hm. unfold drop_ignored. destruct (Z.eq_dec idx 8) as [->|Hne].
  - change (8 + 1) with SIGKILL. by rewrite Ha.
  - case_raw; [|done]. rewrite clear_bits_low, Hm, bit_testbit by lia.
    rewrite (proj2 (Z.eqb_neq 8 idx)) by congruence. done.
Qed.

Lemma foldl_drop_kill p m l :
  kill_ok p -> Forall (fun i => 0 <= i) l -> Z.testbit m 8 = true ->
  Z.testbit (foldl (drop_ignored p) m l) 8 = true.
Proof.
  intros Hk Hl. revert m. induction Hl as [|i l Hi Hl IH]; intros m Hm; [done|].
  simpl. apply IH. by apply drop_ignored_kill.
Qed.

Lemma unmasked_kill p : kill_ok p -> Z.testbit (pending_sigs p) 8 = true -> Z.testbit (unmasked p) 8 = true.
Proof.
  intros [Hm _] Hp. unfold unmasked. rewrite !clear_bits_low, Hp, Hm by lia. done.
Qed.

Lemma blocking_mask_kill p :
  kill_ok p -> Z.testbit (pending_sigs p) 8 = true -> Z.testbit (proc_blocking_sig_mask p) 8 = true.
Proof.
  intros Hk Hp. apply foldl_drop_kill; [done| |by apply unmasked_kill].
  apply Forall_forall. intros i Hi. apply set_bits_range in Hi; [lia|apply clear_bits_is_u64].
Qed.

Lemma send_kill s i :
  (i < length (g_proctable s))%nat -> state (proc_at s i) <> PROC_UNUSED ->
  let p := proc_at s i in
  let p' := proc_at (proc_send_signal i SIGKILL s) i in
  pending_sigs p' = Z.lor (pending_sigs p) (SIG_BIT SIGKILL) /\
  sig_mask p' = sig_mask p /\ sig_actions p' = sig_actions p /\ tracer_pid p' = tracer_pid p /\
  state p' = (if ztrue (job_stopped p) || (state p =? PROC_WAITING) then PROC_READY else state p).
Proof.
  intros Hi Hst. cbv zeta. unfold proc_send_signal. cbn [Z.ltb Z.leb orb].
  change ((SIGKILL <? 1) || (NSIG <=? SIGKILL)) with false.
  rewrite (proj2 (Z.eqb_neq _ _) Hst).
  change (SIGKILL =? SIGCONT) with false. change (sig_default_stop SIGKILL) with false.
  change (SIGKILL =? SIGKILL) with true. cbv zeta iota. cbn [orb].
  pose (s1 := upd i (fun p => set_pending_sigs (Z.lor (pending_sigs p) (SIG_BIT SIGKILL)) p) s).
  fold s1. assert (H1 : proc_at s1 i =
    set_pending_sigs (Z.lor (pending_sigs (proc_at s i)) (SIG_BIT SIGKILL)) (proc_at s i)).
  { unfold s1. rewrite proc_at_upd by done. by rewrite decide_True. }
  assert (Hl1 : length (g_proctable s1) = length (g_proctable s)) by apply length_upd.
  rewrite andb_true_r. rewrite H1. cbn [job_stopped set_pending_sigs].
  destruct (ztrue (job_stopped (proc_at s i))) eqn:Hj; cbn [orb].
  - unfold proc_publish_ready.
    change (proc_at (proc_set_ready i (upd i (set_state PROC_READY) (upd i (set_job_stopped 0) s1))) i)
      with (proc_at (upd i (set_state PROC_READY) (upd i (set_job_stopped 0) s1)) i).
    rewrite proc_at_upd by (rewrite length_upd; lia). rewrite decide_True by done.
    rewrite proc_at_upd by lia. rewrite decide_True by done. rewrite H1. done.
  - rewrite proc_at_wake by lia. rewrite decide_True by done. rewrite H1.
    cbn [state set_pending_sigs]. by destruct (state (proc_at s i) =? PROC_WAITING).
Qed.


