(* ===== verification/Pipe.v ===== *)
(** * Pipe: the byte pipe with blocking readers and writers.

    Models [kernel/fs/pipe.c].  The sequential part ([read_loop], [peek_loop],
    [write_loop], [pipe_wake], ...) are the critical sections under [p->lock];
    [exec] interleaves them: each process has a program counter [pc] inside
    [pipe_read], [pipe_peek], [pipe_write] or [pipe_unref_*] and every event runs
    one process up to its next unlock.  A process is a slot of the table of
    [Proc]; [self] is the address of the pipe. *)

From S2P Require Import Prelude Bits Bytes Proc Signal.

Definition PIPE_BUFSZ := 65536.
Definition PIPE_ANC_SLOTS := 8.
Definition PIPE_ANC_MAXFDS := 4.
Definition PIPE_MAGIC := 0x4b59504950454d47.
Definition HEAP_START := 0xffff910000000000.
Definition HEAP_MAX := 0xffff920000000000.
Definition EPIPE := 32.
Definition EIO := 5.

Record pipe_anc_t := mkAnc {
  files : list Z;
  nfds : Z;
}.

Record pipe_t := mkPipe {
  magic : Z;
  buf : list Z;
  rpos : Z;
  count : Z;
  write_refs : Z;
  read_refs : Z;
  endpoint_refs : Z;
  reader_waiters : Z;
  writer_waiters : Z;
  anc_q : list pipe_anc_t;
  anc_wr : Z;
  anc_rd : Z;
}.

Definition set_magic (m : Z) (p : pipe_t) : pipe_t :=
  mkPipe m (buf p) (rpos p) (count p) (write_refs p) (read_refs p) (endpoint_refs p)
    (reader_waiters p) (writer_waiters p) (anc_q p) (anc_wr p) (anc_rd p).

Definition set_ring (b : list Z) (r c : Z) (p : pipe_t) : pipe_t :=
  mkPipe (magic p) b r c (write_refs p) (read_refs p) (endpoint_refs p)
    (reader_waiters p) (writer_waiters p) (anc_q p) (anc_wr p) (anc_rd p).

Definition set_refs (w r e : Z) (p : pipe_t) : pipe_t :=
  mkPipe (magic p) (buf p) (rpos p) (count p) w r e
    (reader_waiters p) (writer_waiters p) (anc_q p) (anc_wr p) (anc_rd p).

Definition set_waiters (r w : Z) (p : pipe_t) : pipe_t :=
  mkPipe (magic p) (buf p) (rpos p) (count p) (write_refs p) (read_refs p) (endpoint_refs p)
    r w (anc_q p) (anc_wr p) (anc_rd p).

Definition set_anc (q : list pipe_anc_t) (wr rd : Z) (p : pipe_t) : pipe_t :=
  mkPipe (magic p) (buf p) (rpos p) (count p) (write_refs p) (read_refs p) (endpoint_refs p)
    (reader_waiters p) (writer_waiters p) q wr rd.

(** [kcalloc] may fail. *)
Definition pipe_alloc (alloc_ok : bool) : option pipe_t :=
  if alloc_ok
  then Some (mkPipe PIPE_MAGIC (replicate (Z.to_nat PIPE_BUFSZ) 0) 0 0 0 0 0 0 0
               (replicate 8 (mkAnc [0; 0; 0; 0] 0)) 0 0)
  else None.

(** The three parts of [pipe_free] before the [kfree]: every waiter is woken,
    every queued file is closed (the list returned), the magic is cleared. *)
Definition free_waiter (self : Z) (s : sys) (slot : Z) : sys :=
  let i := Z.to_nat slot in
  let s := if blocked_pipe (proc_at s i) =? self then upd i (set_blocked_pipe 0) s else s in
  wake i s.

Fixpoint anc_drain (fuel : nat) (p : pipe_t) (closed : list Z) : pipe_t * list Z :=
  match fuel with
  | O => (p, closed)
  | S f =>
      if anc_rd p =? anc_wr p then (p, closed) else
      let slot := aget (mkAnc [] 0) (anc_q p) (Z.to_nat (anc_rd p)) in
      anc_drain f (set_anc (anc_q p) (anc_wr p) ((anc_rd p + 1) `mod` PIPE_ANC_SLOTS) p)
        (closed ++ take (Z.to_nat (nfds slot)) (files slot))
  end.

Definition pipe_free (self : Z) (p : pipe_t) (s : sys) : pipe_t * sys * list Z :=
  let waiters := Z.lor (reader_waiters p) (writer_waiters p) in
  let p := set_waiters 0 0 p in
  let s := foldl (free_waiter self) s (set_bits waiters) in
  let '(p, closed) := anc_drain 8 p [] in
  (set_magic 0 p, s, closed).

Definition pipe_ref_read (p : pipe_t) : pipe_t :=
  set_refs (write_refs p) (u32 (read_refs p + 1)) (u32 (endpoint_refs p + 1)) p.

Definition pipe_ref_write (p : pipe_t) : pipe_t :=
  set_refs (u32 (write_refs p + 1)) (read_refs p) (u32 (endpoint_refs p + 1)) p.

Definition pipe_valid (self : Z) (p : pipe_t) : bool :=
  if (self =? 0) || (self <? HEAP_START) || (HEAP_MAX <=? self) || ztrue (Z.land self 7)
  then false else magic p =? PIPE_MAGIC.

(** One turn of the loop of [pipe_wake]. *)
Definition wake_waiter (self want : Z) (s : sys) (slot : Z) : sys :=
  let t := proc_at s (Z.to_nat slot) in
  if (blocked_pipe t =? self) && (blocked_pipe_read t =? want) then wake (Z.to_nat slot) s else s.

Definition pipe_wake (self want : Z) (p : pipe_t) (s : sys) : pipe_t * sys :=
  if ztrue want
  then (set_waiters 0 (writer_waiters p) p,
        foldl (wake_waiter self want) s (set_bits (reader_waiters p)))
  else (set_waiters (reader_waiters p) 0 p,
        foldl (wake_waiter self want) s (set_bits (writer_waiters p))).

Definition pipe_cancel_wait (self : Z) (i : nat) (p : pipe_t) (s : sys) : pipe_t * sys :=
  if negb (blocked_pipe (proc_at s i) =? self) then (p, s) else
  (set_waiters (clear_bits (reader_waiters p) (slot_bit i))
     (clear_bits (writer_waiters p) (slot_bit i)) p,
   upd i (set_blocked_pipe 0) s).

Definition pipe_block_locked (self want : Z) (i : nat) (p : pipe_t) (s : sys) : pipe_t * sys :=
  let s := upd i (fun t => set_state PROC_WAITING (set_blocked_pipe_read want (set_blocked_pipe self t))) s in
  if ztrue want
  then (set_waiters (Z.lor (reader_waiters p) (slot_bit i)) (writer_waiters p) p, s)
  else (set_waiters (reader_waiters p) (Z.lor (writer_waiters p) (slot_bit i)) p, s).

(** The part of [pipe_block_or_consume_signal] before [sched_block_current]. *)
Definition publish_if_signalled (i : nat) (s : sys) : sys :=
  if ztrue (proc_blocking_sig_mask (proc_at s i)) then wake i s else s.

(** ** The locked loops *)

Inductive exit := ExFull | ExReturn | ExBlock | ExPipe.

(** [while (done < len)] of [pipe_read]; [out] holds the [done] bytes copied. *)
Fixpoint read_loop (fuel : nat) (len : Z) (p : pipe_t) (out : list Z) :
    option (pipe_t * list Z * exit) :=
  match fuel with
  | O => None
  | S f =>
      let done := blen out in
      if done <? len then
        if count p =? 0 then
          if write_refs p =? 0 then Some (p, out, ExReturn) else
          if 0 <? done then Some (p, out, ExReturn) else Some (p, out, ExBlock)
        else
          let tk := if count p <? len - done then count p else len - done in
          let first := if PIPE_BUFSZ - rpos p <? tk then PIPE_BUFSZ - rpos p else tk in
          let got := slice (buf p) (rpos p) first ++
                     (if first <? tk then slice (buf p) 0 (tk - first) else []) in
          read_loop f len
            (set_ring (buf p) (u32 (rpos p + u32 tk) `mod` PIPE_BUFSZ) (u32 (count p - u32 tk)) p)
            (out ++ got)
      else Some (p, out, ExFull)
  end.

(** [while (done < len)] of [pipe_peek]. *)
Fixpoint peek_loop (fuel : nat) (len skip : Z) (p : pipe_t) (out : list Z) :
    option (list Z * exit) :=
  match fuel with
  | O => None
  | S f =>
      let done := blen out in
      if done <? len then
        if count p <=? u64 (skip + done) then
          if write_refs p =? 0 then Some (out, ExReturn) else
          if 0 <? done then Some (out, ExReturn) else Some (out, ExBlock)
        else
          let available := u64 (count p - skip - done) in
          let tk := if available <? len - done then available else len - done in
          let pos := u32 (rpos p + u32 skip + u32 done) `mod` PIPE_BUFSZ in
          let first := if PIPE_BUFSZ - pos <? tk then PIPE_BUFSZ - pos else tk in
          let got := slice (buf p) pos first ++
                     (if first <? tk then slice (buf p) 0 (tk - first) else []) in
          peek_loop f len skip p (out ++ got)
      else Some (out, ExFull)
  end.

(** [while (done < len)] of [pipe_write] with its inner wait test. *)
Fixpoint write_loop (fuel : nat) (inp : list Z) (p : pipe_t) (done : Z) : option (pipe_t * Z * exit) :=
  match fuel with
  | O => None
  | S f =>
      if done <? blen inp then
        if count p =? PIPE_BUFSZ then
          if read_refs p =? 0 then Some (p, done, ExPipe) else Some (p, done, ExBlock)
        else
          let wpos := u32 (rpos p + count p) `mod` PIPE_BUFSZ in
          let space := PIPE_BUFSZ - count p in
          let put := if space <? blen inp - done then space else blen inp - done in
          let first := if PIPE_BUFSZ - wpos <? put then PIPE_BUFSZ - wpos else put in
          let b1 := blit (buf p) wpos (slice inp done first) in
          let b2 := if first <? put then blit b1 0 (slice inp (done + first) (put - first)) else b1 in
          write_loop f inp (set_ring b2 (rpos p) (u32 (count p + u32 put)) p) (done + put)
      else Some (p, done, ExFull)
  end.

(** Each loop takes what there is in its first round, so three rounds suffice. *)
Definition LOOP_FUEL : nat := 3.

(** ** Interleaved execution *)

(** Where a call restarts after a wake-up. *)
Inductive cont :=
  | KRead (len : Z) (out : list Z)
  | KPeek (len skip : Z) (out : list Z)
  | KWrite (inp : list Z) (done : Z).

Inductive pc :=
  | Idle
  | Enter (k : cont)                  (* spin_lock at the top of the for loop *)
  | FullWake (inp : list Z) (done : Z) (* pipe_wake(p, 1) of a blocking writer *)
  | BlockOrSignal (k : cont)
  | Sleep (k : cont)                  (* inside sched_block_current *)
  | Cancel (k : cont)                 (* pipe_cancel_wait *)
  | CheckSignal (k : cont)
  | FinalWake (want ret : Z) (out : list Z)
  | UnrefWake (want : Z)              (* the last reference of one side is gone *)
  | EndpointPut
  | Ret (ret : Z) (out : list Z).

Inductive op :=
  | ORead (len : Z) | OPeek (len skip : Z) | OWrite (inp : list Z)
  | ORefRead | ORefWrite | OUnrefRead | OUnrefWrite.

Inductive event :=
  | Call (t : nat) (o : op)
  | Step (t : nat)
  | Signal (t : nat) (sig : Z).

(** What an event adds to or takes from the pipe. *)
Inductive label := Silent | Put (bs : list Z) | Get (bs : list Z).

Record world := mkWorld {
  pp : pipe_t;
  sy : sys;
  pcs : list pc;
}.

Definition pc_at (w : world) (t : nat) : pc := aget Idle (pcs w) t.
Definition goto (t : nat) (c : pc) (p : pipe_t) (s : sys) (w : world) : world :=
  mkWorld p s (<[t := c]> (pcs w)).

Definition errno_or_done (done err : Z) : Z := if ztrue done then done else - err.

Definition k_done (k : cont) : Z :=
  match k with KRead _ out | KPeek _ _ out => blen out | KWrite _ done => done end.

Definition k_out (k : cont) : list Z :=
  match k with KRead _ out | KPeek _ _ out => out | KWrite _ _ => [] end.

(** One pass of the [for] loop of [pipe_read]: the critical section and where it
    leads.  A drained or writer-less pipe returns at once, a full read goes on to
    [pipe_wake(p, 0)]. *)
Definition pipe_read (self : Z) (t : nat) (len : Z) (out : list Z) (w : world) : option (world * label) :=
  '(p, out', e) ← read_loop LOOP_FUEL len (pp w) out;
  let l := Get (drop (length out) out') in
  match e with
  | ExFull => Some (goto t (FinalWake 0 (blen out') out') p (sy w) w, l)
  | ExBlock =>
      let '(p, s) := pipe_block_locked self 1 t p (sy w) in
      Some (goto t (BlockOrSignal (KRead len out')) p s w, l)
  | _ => Some (goto t (Ret (blen out') out') p (sy w) w, l)
  end.

Definition pipe_peek (self : Z) (t : nat) (len skip : Z) (out : list Z) (w : world) :
    option (world * label) :=
  '(out', e) ← peek_loop LOOP_FUEL len skip (pp w) out;
  match e with
  | ExBlock =>
      let '(p, s) := pipe_block_locked self 1 t (pp w) (sy w) in
      Some (goto t (BlockOrSignal (KPeek len skip out')) p s w, Silent)
  | _ => Some (goto t (Ret (blen out') out') (pp w) (sy w) w, Silent)
  end.

Definition pipe_write (self : Z) (t : nat) (inp : list Z) (done : Z) (w : world) :
    option (world * label) :=
  '(p, done', e) ← write_loop LOOP_FUEL inp (pp w) done;
  let l := Put (slice inp done (done' - done)) in
  match e with
  | ExFull => Some (goto t (FinalWake 1 done' []) p (sy w) w, l)
  | ExBlock =>
      let '(p, s) := pipe_block_locked self 0 t p (sy w) in
      Some (goto t (FullWake inp done') p s w, l)
  | _ => Some (goto t (Ret (errno_or_done done' EPIPE) []) p (proc_send_signal t SIGPIPE (sy w)) w, l)
  end.

Definition locked (self : Z) (t : nat) (k : cont) (w : world) : option (world * label) :=
  match k with
  | KRead len out => pipe_read self t len out w
  | KPeek len skip out => pipe_peek self t len skip out w
  | KWrite inp done => pipe_write self t inp done w
  end.

(** The last reference frees the pipe. *)
Definition pipe_endpoint_put (self : Z) (p : pipe_t) (s : sys) : pipe_t * sys :=
  let p := set_refs (write_refs p) (read_refs p) (u32 (endpoint_refs p - 1)) p in
  if endpoint_refs p =? 0 then fst (pipe_free self p s) else (p, s).

Definition step (self : Z) (t : nat) (w : world) : option (world * label) :=
  match pc_at w t with
  | Idle | Ret _ _ => None
  | Enter k => locked self t k w
  | FullWake inp done =>
      let '(p, s) := pipe_wake self 1 (pp w) (sy w) in
      Some (goto t (BlockOrSignal (KWrite inp done)) p s w, Silent)
  | BlockOrSignal k => Some (goto t (Sleep k) (pp w) (publish_if_signalled t (sy w)) w, Silent)
  | Sleep k =>
      s ← sched_resume t (sy w);
      Some (goto t (Cancel k) (pp w) s w, Silent)
  | Cancel k =>
      let '(p, s) := pipe_cancel_wait self t (pp w) (sy w) in
      Some (goto t (CheckSignal k) p s w, Silent)
  | CheckSignal k =>
      if ztrue (proc_blocking_sig_mask (proc_at (sy w) t))
      then Some (goto t (Ret (errno_or_done (k_done k) EINTR) (k_out k)) (pp w) (sy w) w, Silent)
      else Some (goto t (Enter k) (pp w) (sy w) w, Silent)
  | FinalWake want ret out =>
      let '(p, s) := pipe_wake self want (pp w) (sy w) in
      Some (goto t (Ret ret out) p s w, Silent)
  | UnrefWake want =>
      let '(p, s) := pipe_wake self want (pp w) (sy w) in
      Some (goto t EndpointPut p s w, Silent)
  | EndpointPut =>
      let '(p, s) := pipe_endpoint_put self (pp w) (sy w) in
      Some (goto t (Ret 0 []) p s w, Silent)
  end.

Definition reader_k (k : cont) : bool := match k with KWrite _ _ => false | _ => true end.

(** Is the process inside [pipe_read]/[pipe_peek] (resp. [pipe_write])? *)
Definition inside (rd : bool) (c : pc) : bool :=
  match c with
  | Enter k | BlockOrSignal k | Sleep k | Cancel k | CheckSignal k => Bool.eqb (reader_k k) rd
  | FullWake _ _ => negb rd
  | _ => false
  end.

(** The reference drops: the compare-and-swap loop is an atomic decrement of a
    nonzero count; the result says whether it was the last one. *)
Definition pipe_unref_read (p : pipe_t) : option (pipe_t * bool) :=
  if read_refs p =? 0 then None else
  Some (set_refs (write_refs p) (read_refs p - 1) (endpoint_refs p) p, read_refs p =? 1).

Definition pipe_unref_write (p : pipe_t) : option (pipe_t * bool) :=
  if write_refs p =? 0 then None else
  Some (set_refs (write_refs p - 1) (read_refs p) (endpoint_refs p) p, write_refs p =? 1).

(** Entering a call.  A caller holds a file on its end, so that end has a
    reference; the borrowed file of a call in progress keeps it until the call
    returns. *)
Definition call (self : Z) (t : nat) (o : op) (w : world) : option (world * label) :=
  let p := pp w in
  match pc_at w t with
  | Idle | Ret _ _ =>
      match o with
      | ORead len =>
          if read_refs p =? 0 then None else
          Some (goto t (if pipe_valid self p then Enter (KRead len []) else Ret (- EIO) []) p (sy w) w, Silent)
      | OPeek len skip =>
          if read_refs p =? 0 then None else
          Some (goto t (if pipe_valid self p then Enter (KPeek len skip []) else Ret (- EIO) []) p (sy w) w, Silent)
      | OWrite inp =>
          if write_refs p =? 0 then None else
          if negb (pipe_valid self p) then Some (goto t (Ret (- EIO) []) p (sy w) w, Silent) else
          if read_refs p =? 0
          then Some (goto t (Ret (- EPIPE) []) p (proc_send_signal t SIGPIPE (sy w)) w, Silent) else
          if blen inp =? 0 then Some (goto t (Ret 0 []) p (sy w) w, Silent) else
          Some (goto t (Enter (KWrite inp 0)) p (sy w) w, Silent)
      | ORefRead => Some (goto t (Ret 0 []) (pipe_ref_read p) (sy w) w, Silent)
      | ORefWrite => Some (goto t (Ret 0 []) (pipe_ref_write p) (sy w) w, Silent)
      | OUnrefRead =>
          match pipe_unref_read p with
          | None => Some (goto t (Ret 0 []) p (sy w) w, Silent)
          | Some (p', last) =>
              if last && existsb (inside true) (pcs w) then None else
              Some (goto t (if last then UnrefWake 0 else EndpointPut) p' (sy w) w, Silent)
          end
      | OUnrefWrite =>
          match pipe_unref_write p with
          | None => Some (goto t (Ret 0 []) p (sy w) w, Silent)
          | Some (p', last) =>
              if last && existsb (inside false) (pcs w) then None else
              Some (goto t (if last then UnrefWake 1 else EndpointPut) p' (sy w) w, Silent)
          end
      end
  | _ => None
  end.

Definition exec (self : Z) (e : event) (w : world) : option (world * label) :=
  match e with
  | Call t o => if (t <? 64)%nat then call self t o w else None
  | Step t => if (t <? 64)%nat then step self t w else None
  | Signal t sig =>
      if (t <? 64)%nat then Some (mkWorld (pp w) (proc_send_signal t sig (sy w)) (pcs w), Silent) else None
  end.

Fixpoint run (self : Z) (es : list event) (w : world) : option (world * list label) :=
  match es with
  | [] => Some (w, [])
  | e :: es' =>
      '(w1, l) ← exec self e w;
      '(w2, ls) ← run self es' w1;
      Some (w2, l :: ls)
  end.

(** ** Ancillary file queue *)

Definition pipe_anc_send (self : Z) (fs : list Z) (n : Z) (p : pipe_t) : Z * pipe_t :=
  if negb (pipe_valid self p) || (n <=? 0) || (PIPE_ANC_MAXFDS <? n) then (-1, p) else
  let next := (anc_wr p + 1) `mod` PIPE_ANC_SLOTS in
  if next =? anc_rd p then (-1, p) else
  let slot := aget (mkAnc [] 0) (anc_q p) (Z.to_nat (anc_wr p)) in
  let slot' := mkAnc (take (Z.to_nat n) fs ++ drop (Z.to_nat n) (files slot)) n in
  (0, set_anc (<[Z.to_nat (anc_wr p) := slot']> (anc_q p)) next (anc_rd p) p).

Definition pipe_anc_recv (self max : Z) (p : pipe_t) : list Z * pipe_t :=
  if negb (pipe_valid self p) || (max <=? 0) then ([], p) else
  if anc_rd p =? anc_wr p then ([], p) else
  let slot := aget (mkAnc [] 0) (anc_q p) (Z.to_nat (anc_rd p)) in
  let n := if nfds slot <? max then nfds slot else max in
  (take (Z.to_nat n) (files slot),
   set_anc (anc_q p) (anc_wr p) ((anc_rd p + 1) `mod` PIPE_ANC_SLOTS) p).

(** ** The ring buffer as a queue *)

(** Byte [i] after position [r] of the ring, and the [n] bytes from there. *)
Definition cell (b : list Z) (r i : Z) : Z := aget 0 b (Z.to_nat ((r + i) `mod` PIPE_BUFSZ)).
Definition cells (b : list Z) (r n : Z) : list Z := map (cell b r) (seqZ 0 n).

(** The abstract state of a pipe: the bytes written and not yet read. *)
Definition contents (p : pipe_t) : list Z := cells (buf p) (rpos p) (count p).

Definition ring_ok (p : pipe_t) : Prop :=
  blen (buf p) = PIPE_BUFSZ /\ 0 <= rpos p < PIPE_BUFSZ /\ 0 <= count p <= PIPE_BUFSZ.

Lemma cells_blen b r n : 0 <= n -> blen (cells b r n) = n.
Proof. intros. unfold blen, cells. rewrite length_map, length_seqZ. lia. Qed.

Lemma cells_lookup b r n i : (i < Z.to_nat n)%nat -> cells b r n !! i = Some (cell b r (Z.of_nat i)).
Proof.
  intros Hi. unfold cells. rewrite list_lookup_fmap.
  rewrite (lookup_seqZ_lt 0 n i) by lia. simpl. do 2 f_equal.
Qed.

Lemma cells_app b r m n : 0 <= m -> 0 <= n -> cells b r (m + n) = cells b r m ++ cells b (r + m) n.
Proof.
  intros Hm Hn. unfold cells. rewrite seqZ_app by done. rewrite map_app. f_equal.
  rewrite <-(Z.add_0_r (0 + m)), <-fmap_add_seqZ, map_map. apply map_ext. intros i.
  unfold cell. do 3 f_equal. lia.
Qed.

Lemma cells_mod b r n : cells b (r `mod` PIPE_BUFSZ) n = cells b r n.
Proof. apply map_ext. intros i. unfold cell. by rewrite Zplus_mod_idemp_l. Qed.

Lemma slice_cells b r n :
  blen b = PIPE_BUFSZ -> 0 <= r -> 0 <= n -> r + n <= PIPE_BUFSZ -> slice b r n = cells b r n.
Proof.
  intros Hb Hr Hn Hle. apply list_eq_same_length with (Z.to_nat n).
  - unfold cells. rewrite length_map, length_seqZ. done.
  - apply slice_length; lia.
  - intros i x y Hi. rewrite slice_lookup by lia. rewrite cells_lookup by lia.
    intros Hx [= <-]. symmetry. unfold cell. apply aget_Some. rewrite <-Hx. f_equal.
    rewrite Z.mod_small by lia. lia.
Qed.

(** The one or two copies of a read yield the next [tk] bytes. *)
Lemma copy_out b r tk :
  blen b = PIPE_BUFSZ -> 0 <= r < PIPE_BUFSZ -> 0 <= tk <= PIPE_BUFSZ ->
  let first := if PIPE_BUFSZ - r <? tk then PIPE_BUFSZ - r else tk in
  slice b r first ++ (if first <? tk then slice b 0 (tk - first) else []) = cells b r tk.
Proof.
  intros Hb Hr Htk. cbv zeta. destruct (Z.ltb_spec (PIPE_BUFSZ - r) tk) as [Hw|Hw].
  - rewrite (proj2 (Z.ltb_lt _ _)) by lia. rewrite !slice_cells by lia.
    transitivity (cells b r ((PIPE_BUFSZ - r) + (tk - (PIPE_BUFSZ - r)))); [|f_equal; lia].
    rewrite (cells_app b r) by lia. f_equal.
    replace (r + (PIPE_BUFSZ - r)) with PIPE_BUFSZ by lia. by rewrite <-(cells_mod b PIPE_BUFSZ).
  - rewrite Z.ltb_irrefl, app_nil_r. apply slice_cells; lia.
Qed.

(** One contiguous copy into the free part appends to the queue. *)
Lemma blit_append b r c w src :
  blen b = PIPE_BUFSZ -> 0 <= r -> 0 <= c -> w = (r + c) `mod` PIPE_BUFSZ ->
  w + blen src <= PIPE_BUFSZ -> c + blen src <= PIPE_BUFSZ ->
  cells (blit b w src) r (c + blen src) = cells b r c ++ src.
Proof.
  intros Hb Hr Hc Hw Hfit Hcap.
  pose proof (Z.mod_pos_bound (r + c) PIPE_BUFSZ ltac:(done)) as Hwr. rewrite <-Hw in Hwr.
  pose proof (blen_nonneg src) as Hs.
  assert (Hcell : forall i, 0 <= i -> i < c + blen src ->
    cell (blit b w src) r i = if i <? c then cell b r i else aget 0 src (Z.to_nat (i - c))).
  { intros i Hi Hlt. unfold cell, aget.
    pose proof (Z.mod_pos_bound (r + i) PIPE_BUFSZ ltac:(done)) as Hp.
    rewrite blit_lookup by lia. rewrite Z2Nat.id by lia.
    pose proof (Z.div_mod (r + i) PIPE_BUFSZ ltac:(done)) as Hdi.
    pose proof (Z.div_mod (r + c) PIPE_BUFSZ ltac:(done)) as Hdc.
    unfold PIPE_BUFSZ in *. destruct (Z.ltb_spec i c).
    - replace ((w <=? (r + i) `mod` 65536) && ((r + i) `mod` 65536 <? w + blen src)) with false; [done|].
      symmetry. apply andb_false_iff. rewrite Z.leb_gt, Z.ltb_ge.
      assert ((r + i) / 65536 = (r + c) / 65536 \/ (r + i) / 65536 + 1 = (r + c) / 65536) by lia. lia.
    - assert (Heq : (r + i) `mod` 65536 = w + (i - c)).
      { symmetry. apply (Z.mod_unique _ _ ((r + c) / 65536)); lia. }
      rewrite Heq. rewrite (proj2 (Z.leb_le _ _)), (proj2 (Z.ltb_lt _ _)) by lia. simpl.
      do 2 f_equal. lia. }
  apply list_eq_same_length with (Z.to_nat (c + blen src)).
  - rewrite length_app. unfold cells. rewrite length_map, length_seqZ. unfold blen in *. lia.
  - unfold cells. by rewrite length_map, length_seqZ.
  - intros i x y Hi. rewrite cells_lookup by lia. intros [= <-].
    rewrite Hcell by lia. destruct (Z.ltb_spec (Z.of_nat i) c).
    + rewrite lookup_app_l by (unfold cells; rewrite length_map, length_seqZ; lia).
      rewrite cells_lookup by lia. congruence.
    + rewrite lookup_app_r by (unfold cells; rewrite length_map, length_seqZ; lia).
      unfold cells. rewrite length_map, length_seqZ. intros Hy. apply aget_Some.
      rewrite <-Hy. f_equal. lia.
Qed.

Lemma blen_cells_pos b r n : 0 <= n -> length (cells b r n) = Z.to_nat n.
Proof. intros. unfold cells. by rewrite length_map, length_seqZ. Qed.

(** The one or two copies of a write append [put] bytes. *)
Lemma copy_in b r c inp done put :
  blen b = PIPE_BUFSZ -> 0 <= r < PIPE_BUFSZ -> 0 <= c -> 0 <= put -> c + put <= PIPE_BUFSZ ->
  0 <= done -> done + put <= blen inp ->
  let w := (r + c) `mod` PIPE_BUFSZ in
  let first := if PIPE_BUFSZ - w <? put then PIPE_BUFSZ - w else put in
  let b1 := blit b w (slice inp done first) in
  let b2 := if first <? put then blit b1 0 (slice inp (done + first) (put - first)) else b1 in
  blen b2 = PIPE_BUFSZ /\ cells b2 r (c + put) = cells b r c ++ slice inp done put.
Proof.
  intros Hb Hr Hc Hp Hcap Hd Hlen. cbv zeta.
  pose proof (Z.mod_pos_bound (r + c) PIPE_BUFSZ ltac:(done)) as Hw.
  remember ((r + c) `mod` PIPE_BUFSZ) as w eqn:Ew.
  destruct (Z.ltb_spec (PIPE_BUFSZ - w) put) as [Hwrap|Hwrap].
  - rewrite (proj2 (Z.ltb_lt _ _)) by lia.
    remember (PIPE_BUFSZ - w) as first eqn:Ef.
    assert (Hs1 : blen (slice inp done first) = first) by (apply blen_slice; lia).
    assert (Hs2 : blen (slice inp (done + first) (put - first)) = put - first) by (apply blen_slice; lia).
    assert (Hb1 : blen (blit b w (slice inp done first)) = PIPE_BUFSZ).
    { unfold blen. rewrite blit_length by lia. exact Hb. }
    split; [unfold blen; rewrite blit_length by lia; exact Hb1|].
    replace (c + put) with ((c + first) + blen (slice inp (done + first) (put - first))) by lia.
    rewrite blit_append; [|lia..| |lia|lia].
    2:{ apply (Z.mod_unique _ _ ((r + c) / PIPE_BUFSZ + 1)); [unfold PIPE_BUFSZ in *; lia|].
        pose proof (Z.div_mod (r + c) PIPE_BUFSZ ltac:(done)). lia. }
    rewrite <-Hs1 at 2. rewrite blit_append by lia.
    rewrite <-app_assoc. f_equal. symmetry. apply slice_split; lia.
  - rewrite Z.ltb_irrefl.
    assert (Hs1 : blen (slice inp done put) = put) by (apply blen_slice; lia).
    split; [unfold blen; rewrite blit_length by lia; exact Hb|].
    rewrite <-Hs1 at 2. apply blit_append; lia.
Qed.

(** ** What the locked loops do *)

(** How a read ends once it has taken what it can. *)
Definition read_exit (len : Z) (p : pipe_t) (out : list Z) : exit :=
  if blen out <? len then
    if write_refs p =? 0 then ExReturn else if 0 <? blen out then ExReturn else ExBlock
  else ExFull.

Lemma read_loop_stop f len p out :
  len <= blen out \/ count p = 0 ->
  read_loop (S f) len p out = Some (p, out, read_exit len p out).
Proof.
  intros Hs. cbn [read_loop]. cbv zeta. unfold read_exit. destruct (Z.ltb_spec (blen out) len); [|done].
  destruct Hs as [|Hc]; [lia|]. rewrite Hc. cbn. by repeat case_raw.
Qed.

Lemma read_loop_spec len p out :
  ring_ok p -> 0 <= len < 2 ^ 64 ->
  exists r' c' got,
    let p' := set_ring (buf p) r' c' p in
    read_loop LOOP_FUEL len p out = Some (p', out ++ got, read_exit len p' (out ++ got)) /\
    ring_ok p' /\ contents p = got ++ contents p' /\
    (len <= blen (out ++ got) \/ count p' = 0).
Proof.
  intros Hok Hlen. destruct (Hok) as (Hb & Hr & Hc).
  destruct (Z.lt_ge_cases (blen out) len) as [Hlt|Hge].
  2:{ exists (rpos p), (count p), []. cbv zeta. rewrite app_nil_r. split_and!; try done; [|by left].
      unfold LOOP_FUEL. rewrite read_loop_stop by by left. by destruct p. }
  destruct (Z.eq_dec (count p) 0) as [Hz|Hnz].
  { exists (rpos p), (count p), []. cbv zeta. rewrite app_nil_r. split_and!; try done; [|by right].
    unfold LOOP_FUEL. rewrite read_loop_stop by by right. by destruct p. }
  pose (tk := if count p <? len - blen out then count p else len - blen out).
  assert (Htk : 0 < tk <= count p /\ (tk = count p \/ tk = len - blen out)).
  { unfold tk. destruct (Z.ltb_spec (count p) (len - blen out)); lia. }
  exists ((rpos p + tk) `mod` PIPE_BUFSZ), (count p - tk), (cells (buf p) (rpos p) tk). cbv zeta.
  assert (Hcount : blen (out ++ cells (buf p) (rpos p) tk) = blen out + tk).
  { rewrite blen_app, cells_blen; lia. }
  assert (Hstop : len <= blen (out ++ cells (buf p) (rpos p) tk) \/ count p - tk = 0) by lia.
  split_and!.
  - change LOOP_FUEL with (S 2). remember 2%nat as f eqn:Ef. cbn [read_loop]. cbv zeta. rewrite (proj2 (Z.ltb_lt _ _)) by done.
    rewrite (proj2 (Z.eqb_neq _ _)) by done. fold tk.
    rewrite (copy_out (buf p) (rpos p) tk) by (unfold PIPE_BUFSZ in *; lia).
    rewrite (u32_small tk) by (unfold is_u32, PIPE_BUFSZ in *; lia).
    rewrite (u32_small (rpos p + tk)) by (unfold is_u32, PIPE_BUFSZ in *; lia).
    rewrite (u32_small (count p - tk)) by (unfold is_u32, PIPE_BUFSZ in *; lia).
    rewrite Ef. apply (read_loop_stop 1). exact Hstop.
  - split_and!; simpl; try done; try lia; apply Z.mod_pos_bound; done.
  - unfold contents. simpl. rewrite cells_mod.
    transitivity (cells (buf p) (rpos p) (tk + (count p - tk))); [f_equal; lia|]. apply cells_app; lia.
  - exact Hstop.
Qed.

Definition peek_exit (len skip : Z) (p : pipe_t) (out : list Z) : exit := read_exit len p out.

Lemma peek_loop_stop f len skip p out :
  len <= blen out \/ count p <= u64 (skip + blen out) ->
  peek_loop (S f) len skip p out = Some (out, peek_exit len skip p out).
Proof.
  intros Hs. cbn [peek_loop]. cbv zeta. unfold peek_exit, read_exit.
  destruct (Z.ltb_spec (blen out) len); [|done].
  destruct Hs as [|Hc]; [lia|]. rewrite (proj2 (Z.leb_le _ _)) by done. by repeat case_raw.
Qed.

(** A peek that starts afresh sees the bytes after the first [skip]. *)
Lemma peek_loop_spec len skip p :
  ring_ok p -> 0 <= len < 2 ^ 64 -> is_u64 skip ->
  exists got,
    peek_loop LOOP_FUEL len skip p [] = Some (got, peek_exit len skip p got) /\
    got `prefix_of` drop (Z.to_nat skip) (contents p) /\
    (blen got = len \/ count p <= skip + blen got).
Proof.
  intros Hok Hlen Hskip. destruct (Hok) as (Hb & Hr & Hc). unfold is_u64 in Hskip.
  assert (Hs0 : u64 (skip + 0) = skip) by (rewrite Z.add_0_r; by apply u64_small).
  destruct (Z.eq_dec len 0) as [->|Hl0].
  { exists []. split_and!; [by apply peek_loop_stop; left|apply prefix_nil|by left]. }
  destruct (Z.le_gt_cases (count p) skip) as [Hle|Hgt].
  { exists []. split_and!; [apply peek_loop_stop; right; change (blen []) with 0; lia|apply prefix_nil|right; change (blen []) with 0; lia]. }
  pose (tk := if count p - skip <? len - 0 then count p - skip else len - 0).
  assert (Htk : 0 < tk /\ skip + tk <= count p /\ (tk = count p - skip \/ tk = len)).
  { unfold tk. destruct (Z.ltb_spec (count p - skip) (len - 0)); lia. }
  pose (r1 := (rpos p + skip) `mod` PIPE_BUFSZ).
  assert (Hr1 : 0 <= r1 < PIPE_BUFSZ) by (apply Z.mod_pos_bound; done).
  exists (cells (buf p) r1 tk).
  assert (Hbl : blen (cells (buf p) r1 tk) = tk) by (apply cells_blen; lia).
  assert (Hsplit : contents p = cells (buf p) (rpos p) skip ++ cells (buf p) (rpos p + skip) tk ++
    cells (buf p) (rpos p + skip + tk) (count p - skip - tk)).
  { rewrite <-cells_app, <-cells_app by lia. unfold contents. f_equal. lia. }
  split_and!.
  - change LOOP_FUEL with (S 2). remember 2%nat as f eqn:Ef. cbn [peek_loop]. cbv zeta. change (blen []) with 0 in *.
    rewrite Hs0. rewrite (proj2 (Z.ltb_lt 0 len)) by lia. rewrite (proj2 (Z.leb_gt _ _)) by done.
    replace (u64 (count p - skip - 0)) with (count p - skip)
      by (rewrite u64_small; [lia|unfold is_u64, PIPE_BUFSZ in *; lia]).
    fold tk. unfold PIPE_BUFSZ in Hr, Hc.
    rewrite (u32_small skip) by (unfold is_u32; lia). change (u32 0) with 0. rewrite Z.add_0_r.
    rewrite (u32_small (rpos p + skip)) by (unfold is_u32; lia). fold r1.
    rewrite (copy_out (buf p) r1 tk)
      by (first [done | exact Hr1 | unfold PIPE_BUFSZ; lia]).
    rewrite app_nil_l. rewrite Ef. apply (peek_loop_stop 1). rewrite Hbl.
    rewrite u64_small by (unfold is_u64; lia). lia.
  - rewrite Hsplit. rewrite drop_app_length' by (rewrite blen_cells_pos; lia).
    unfold r1. rewrite cells_mod. by eexists.
  - rewrite Hbl. lia.
Qed.

Definition write_exit (inp : list Z) (p : pipe_t) (done : Z) : exit :=
  if done <? blen inp then (if read_refs p =? 0 then ExPipe else ExBlock) else ExFull.

Lemma write_loop_stop f inp p done :
  blen inp <= done \/ count p = PIPE_BUFSZ ->
  write_loop (S f) inp p done = Some (p, done, write_exit inp p done).
Proof.
  intros Hs. cbn [write_loop]. unfold write_exit. destruct (Z.ltb_spec done (blen inp)); [|done].
  destruct Hs as [|Hc]; [lia|]. rewrite Hc, Z.eqb_refl. by case_raw.
Qed.

Lemma write_loop_spec inp p done :
  ring_ok p -> 0 <= done <= blen inp ->
  exists b' c' put,
    let p' := set_ring b' (rpos p) c' p in
    write_loop LOOP_FUEL inp p done = Some (p', done + put, write_exit inp p' (done + put)) /\
    ring_ok p' /\ 0 <= put /\ done + put <= blen inp /\
    contents p' = contents p ++ slice inp done put /\
    (blen inp <= done + put \/ count p' = PIPE_BUFSZ).
Proof.
  intros Hok Hd. destruct (Hok) as (Hb & Hr & Hc).
  destruct (Z.eq_dec done (blen inp)) as [He|Hne].
  { exists (buf p), (count p), 0. cbv zeta. rewrite Z.add_0_r, slice_nil, app_nil_r. split_and!; try done; try lia.
    unfold LOOP_FUEL. rewrite write_loop_stop by lia. by destruct p. }
  destruct (Z.eq_dec (count p) PIPE_BUFSZ) as [Hz|Hnz].
  { exists (buf p), (count p), 0. cbv zeta. rewrite Z.add_0_r, slice_nil, app_nil_r. split_and!; try done; try lia.
    - unfold LOOP_FUEL. rewrite write_loop_stop by lia. by destruct p.
    - by right. }
  pose (put := if PIPE_BUFSZ - count p <? blen inp - done then PIPE_BUFSZ - count p else blen inp - done).
  assert (Hput : 0 < put /\ count p + put <= PIPE_BUFSZ /\ done + put <= blen inp /\
    (done + put = blen inp \/ count p + put = PIPE_BUFSZ)).
  { unfold put. destruct (Z.ltb_spec (PIPE_BUFSZ - count p) (blen inp - done)); lia. }
  destruct (copy_in (buf p) (rpos p) (count p) inp done put) as [Hlen' Hcells]; [done|lia..|].
  eexists _, (count p + put), put. cbv zeta.
  split; [|split; [|split; [lia|split; [lia|split; [|]]]]].
  - change LOOP_FUEL with (S 2). remember 2%nat as f eqn:Ef. cbn [write_loop]. cbv zeta. rewrite (proj2 (Z.ltb_lt _ _)) by lia.
    rewrite (proj2 (Z.eqb_neq _ _)) by done. fold put.
    rewrite (u32_small (rpos p + count p)) by (unfold is_u32, PIPE_BUFSZ in *; lia).
    rewrite (u32_small put) by (unfold is_u32, PIPE_BUFSZ in *; lia).
    rewrite (u32_small (count p + put)) by (unfold is_u32, PIPE_BUFSZ in *; lia).
    rewrite Ef. apply (write_loop_stop 1). simpl. lia.
  - split; [exact Hlen'|]. simpl. lia.
  - exact Hcells.
  - simpl. lia.
Qed.

(** ** Invariants of interleaved execution *)

Definition pc_ok (c : pc) : Prop :=
  let k_ok k := match k with
    | KRead len _ => 0 <= len < 2 ^ 64
    | KPeek len skip out => 0 <= len < 2 ^ 64 /\ is_u64 skip /\ out = []
    | KWrite inp done => 0 <= done <= blen inp
    end in
  match c with
  | Enter k | BlockOrSignal k | Sleep k | Cancel k | CheckSignal k => k_ok k
  | FullWake inp done => 0 <= done <= blen inp
  | FinalWake want _ _ | UnrefWake want => want = 0 \/ want = 1
  | _ => True
  end.

(** A caller that has registered as a waiter and not yet resumed;
    [true] for readers. *)
Definition registered (c : pc) : option bool :=
  match c with
  | BlockOrSignal k | Sleep k => Some (reader_k k)
  | FullWake _ _ => Some false
  | _ => None
  end.

Definition asleep_reader (c : pc) : option cont :=
  match c with
  | BlockOrSignal k | Sleep k => if reader_k k then Some k else None
  | _ => None
  end.

(** The caller is about to run [pipe_wake(p, 1)]. *)
Definition waking (c : pc) : bool :=
  match c with
  | FullWake _ _ => true
  | FinalWake want _ _ | UnrefWake want => want =? 1
  | _ => false
  end.

(** Nothing to read for this reader, and writers remain. *)
Definition starved (k : cont) (p : pipe_t) : Prop :=
  write_refs p <> 0 /\
  match k with
  | KRead _ _ => count p = 0
  | KPeek _ skip _ => count p <= skip
  | KWrite _ _ => False
  end.

Definition mask (rd : bool) (p : pipe_t) : Z := if rd then reader_waiters p else writer_waiters p.

Definition want_of (rd : bool) : Z := if rd then 1 else 0.

(** The waiter's registration is such that [pipe_wake] finds it. *)
Definition reg_ok (self : Z) (rd : bool) (t : nat) (p : pipe_t) (s : sys) : Prop :=
  Z.testbit (mask rd p) (Z.of_nat t) = true /\
  blocked_pipe (proc_at s t) = self /\ blocked_pipe_read (proc_at s t) = want_of rd.

Record inv (self n : Z) (w : world) : Prop := mkInv {
  i_wf : wf (sy w);
  i_len : length (pcs w) = 64%nat;
  i_ring : ring_ok (pp w);
  i_masks : forall rd, is_u64 (mask rd (pp w));
  i_pcs : forall t, (t < 64)%nat -> pc_ok (pc_at w t);
  i_refs : (0 <= read_refs (pp w) /\ read_refs (pp w) + n < 2 ^ 32) /\
           (0 <= write_refs (pp w) /\ write_refs (pp w) + n < 2 ^ 32);
  i_reg : forall t rd, (t < 64)%nat -> registered (pc_at w t) = Some rd ->
    state (proc_at (sy w) t) = PROC_WAITING -> reg_ok self rd t (pp w) (sy w);
  i_in : forall t, (t < 64)%nat -> inside true (pc_at w t) = true -> read_refs (pp w) <> 0;
  i_live : forall t k, (t < 64)%nat -> asleep_reader (pc_at w t) = Some k ->
    state (proc_at (sy w) t) = PROC_WAITING ->
    starved k (pp w) \/ exists t', (t' < 64)%nat /\ waking (pc_at w t') = true;
}.

(** A change of the table that slot [j] sees at most as a wake-up. *)
Definition calm (s s' : sys) (j : nat) : Prop :=
  blocked_pipe (proc_at s' j) = blocked_pipe (proc_at s j) /\
  blocked_pipe_read (proc_at s' j) = blocked_pipe_read (proc_at s j) /\
  (state (proc_at s' j) = PROC_WAITING -> state (proc_at s j) = PROC_WAITING).

Lemma calm_refl s j : calm s s j.
Proof. done. Qed.

Lemma calm_trans s1 s2 s3 j : calm s1 s2 j -> calm s2 s3 j -> calm s1 s3 j.
Proof. unfold calm. intuition congruence. Qed.

Lemma calm_wake s i j : wf s -> (i < 64)%nat -> calm s (wake i s) j.
Proof.
  intros [Hl _] Hi. unfold calm. rewrite proc_at_wake by lia.
  destruct (decide (i = j)) as [<-|]; [|done]. by destruct (state (proc_at s i) =? PROC_WAITING).
Qed.

Lemma calm_upd_ne s i f j : i <> j -> calm s (upd i f s) j.
Proof. intros. unfold calm. by rewrite proc_at_upd_ne. Qed.

Lemma proc_at_set_ready s i j : proc_at (proc_set_ready i s) j = proc_at s j.
Proof. done. Qed.

Lemma calm_upd_pending s i g j :
  wf s -> (i < 64)%nat -> calm s (upd i (fun p => set_pending_sigs (g p) p) s) j.
Proof.
  intros [Hl _] Hi. unfold calm. rewrite proc_at_upd by lia. by destruct (decide (i = j)) as [<-|].
Qed.

Lemma send_signal_calm s i sig j :
  wf s -> (i < 64)%nat -> wf (proc_send_signal i sig s) /\ calm s (proc_send_signal i sig s) j.
Proof.
  intros Hwf Hi. unfold proc_send_signal. case_raw; [done|]. case_raw; [done|]. cbv zeta.
  match goal with |- context [upd i (fun p => set_pending_sigs (Z.lor _ _) p) ?s0] => pose (s1 := s0) end.
  fold s1. assert (H1 : wf s1 /\ calm s s1 j).
  { unfold s1. repeat case_raw; split; auto using calm_refl, calm_upd_pending with kyro. }
  clearbody s1. destruct H1 as [Hwf1 Hc1].
  match goal with |- context [wake i ?s0] => pose (s2 := s0) end. fold s2.
  assert (H2 : wf s2 /\ calm s s2 j).
  { unfold s2. split; [auto with kyro|]. eapply calm_trans; [exact Hc1|]. by apply calm_upd_pending. }
  clearbody s2. destruct H2 as [Hwf2 Hc2]. case_raw.
  - unfold proc_publish_ready. split; [auto with kyro|]. eapply calm_trans; [exact Hc2|].
    unfold calm. rewrite proc_at_set_ready. destruct Hwf2 as [Hl2 _].
    rewrite !proc_at_upd by (rewrite ?length_upd; lia).
    destruct (decide (i = j)) as [<-|]; [|done]. rewrite decide_True by done. done.
  - split; [auto with kyro|]. eapply calm_trans; [exact Hc2|]. by apply calm_wake.
Qed.

Lemma wake_waiter_wf self want s i : wf s -> 0 <= i < 64 -> wf (wake_waiter self want s i).
Proof. intros. unfold wake_waiter. case_raw; [|done]. apply wf_wake; [done|lia]. Qed.

(** The loop of [pipe_wake]: exactly the registered waiters of one direction
    become READY. *)
Lemma wake_loop self want s l j :
  wf s -> Forall (fun i => 0 <= i < 64) l ->
  let s' := foldl (wake_waiter self want) s l in
  wf s' /\
  proc_at s' j =
    if decide (Z.of_nat j ∈ l /\ blocked_pipe (proc_at s j) = self /\
               blocked_pipe_read (proc_at s j) = want /\ state (proc_at s j) = PROC_WAITING)
    then set_state PROC_READY (proc_at s j) else proc_at s j.
Proof.
  intros Hwf Hl. revert s Hwf. induction Hl as [|i l Hi Hl IH]; intros s Hwf; cbv zeta; cbn [foldl].
  { split; [done|]. rewrite decide_False; [done|]. intros [Hin _]. by apply elem_of_nil in Hin. }
  destruct (IH (wake_waiter self want s i)) as [Hwf' Hat]; [by apply wake_waiter_wf|].
  split; [done|]. rewrite Hat. clear IH Hat Hwf'.
  assert (Hw : proc_at (wake_waiter self want s i) j =
    if decide (Z.of_nat j = i /\ blocked_pipe (proc_at s j) = self /\
       blocked_pipe_read (proc_at s j) = want /\ state (proc_at s j) = PROC_WAITING)
    then set_state PROC_READY (proc_at s j) else proc_at s j).
  { unfold wake_waiter. destruct (decide (Z.of_nat j = i)) as [<-|Hne].
    - rewrite Nat2Z.id. destruct (Z.eqb_spec (blocked_pipe (proc_at s j)) self) as [Hb|Hb].
      2:{ simpl. rewrite decide_False; [done|tauto]. }
      destruct (Z.eqb_spec (blocked_pipe_read (proc_at s j)) want) as [Hr|Hr].
      2:{ simpl. rewrite decide_False; [done|tauto]. }
      simpl. rewrite proc_at_wake by (destruct Hwf; lia). rewrite decide_True by done.
      destruct (Z.eqb_spec (state (proc_at s j)) PROC_WAITING) as [Hs|Hs].
      + by rewrite decide_True.
      + rewrite decide_False; [done|tauto].
    - rewrite decide_False by tauto. case_raw; [|done].
      rewrite proc_at_wake by (destruct Hwf; lia). rewrite decide_False; [done|lia]. }
  rewrite Hw. clear Hw.
  destruct (decide (Z.of_nat j = i /\ _)) as [(He & Hb & Hr & Hs)|Hn].
  - rewrite decide_False by (intros (_ & _ & _ & ?); done).
    rewrite decide_True; [done|]. split_and!; [|done..]. rewrite He. left.
  - destruct (decide (Z.of_nat j ∈ l /\ _)) as [(Hin & Hb & Hr & Hs)|Hn2].
    + rewrite decide_True; [done|]. split_and!; [|done..]. by right.
    + rewrite decide_False; [done|]. intros ([He|Hin]%elem_of_cons & ?); tauto.
Qed.

Lemma set_bits_all m : is_u64 m -> Forall (fun i => 0 <= i < 64) (set_bits m).
Proof. intros Hm. apply Forall_forall. intros i. by apply set_bits_range. Qed.

Definition woken (self : Z) (rd : bool) (p : pipe_t) (s : sys) (j : nat) : Prop :=
  Z.testbit (mask rd p) (Z.of_nat j) = true /\ blocked_pipe (proc_at s j) = self /\
  blocked_pipe_read (proc_at s j) = want_of rd /\ state (proc_at s j) = PROC_WAITING.

Instance woken_dec self rd p s j : Decision (woken self rd p s j).
Proof. unfold woken. apply _. Defined.

Lemma pipe_wake_spec self rd p s p' s' j :
  wf s -> is_u64 (mask rd p) -> pipe_wake self (want_of rd) p s = (p', s') ->
  p' = (if rd then set_waiters 0 (writer_waiters p) p else set_waiters (reader_waiters p) 0 p) /\
  wf s' /\
  proc_at s' j = if decide (woken self rd p s j) then set_state PROC_READY (proc_at s j) else proc_at s j.
Proof.
  intros Hwf Hm Hw.
  assert (Hloop : p' = (if rd then set_waiters 0 (writer_waiters p) p else set_waiters (reader_waiters p) 0 p) /\
    s' = foldl (wake_waiter self (want_of rd)) s (set_bits (mask rd p))).
  { destruct rd; unfold pipe_wake in Hw; simpl in Hw; by simplify_eq. }
  destruct Hloop as [-> ->]. split; [done|].
  destruct (wake_loop self (want_of rd) s (set_bits (mask rd p)) j Hwf (set_bits_all _ Hm)) as [Hwf' Hat].
  split; [done|]. rewrite Hat. unfold woken.
  pose proof (elem_of_set_bits (mask rd p) (Z.of_nat j) Hm) as He.
  destruct (decide (Z.of_nat j ∈ _ /\ _)); destruct (decide (Z.testbit _ _ = true /\ _)); tauto.
Qed.

Lemma pc_at_goto w t c p s j :
  (t < length (pcs w))%nat -> pc_at (goto t c p s w) j = if decide (t = j) then c else pc_at w j.
Proof.
  intros Ht. unfold pc_at, aget, goto. simpl. destruct (decide (t = j)) as [<-|].
  - by rewrite list_lookup_insert_eq.
  - by rewrite list_lookup_insert_ne.
Qed.

(** Moving one caller: what has to be checked about it and about the others. *)
Lemma inv_goto self n m w t c p' s' :
  inv self n w -> (t < 64)%nat -> wf s' -> ring_ok p' -> (forall rd, is_u64 (mask rd p')) -> pc_ok c ->
  (0 <= read_refs p' /\ read_refs p' + m < 2 ^ 32) /\ (0 <= write_refs p' /\ write_refs p' + m < 2 ^ 32) ->
  (forall j rd, (j < 64)%nat -> j <> t -> registered (pc_at w j) = Some rd ->
     state (proc_at s' j) = PROC_WAITING ->
     calm (sy w) s' j /\
     (Z.testbit (mask rd (pp w)) (Z.of_nat j) = true -> Z.testbit (mask rd p') (Z.of_nat j) = true)) ->
  (forall rd, registered c = Some rd -> state (proc_at s' t) = PROC_WAITING -> reg_ok self rd t p' s') ->
  (read_refs (pp w) <> 0 -> (exists j, (j < 64)%nat /\ j <> t /\ inside true (pc_at w j) = true) ->
     read_refs p' <> 0) ->
  (inside true c = true -> read_refs p' <> 0) ->
  (forall j k, (j < 64)%nat -> j <> t -> asleep_reader (pc_at w j) = Some k ->
     state (proc_at s' j) = PROC_WAITING -> starved k (pp w) \/ waking (pc_at w t) = true ->
     starved k p' \/ waking c = true) ->
  (forall k, asleep_reader c = Some k -> state (proc_at s' t) = PROC_WAITING ->
     starved k p' \/ exists t', (t' < 64)%nat /\ t' <> t /\ waking (pc_at w t') = true) ->
  inv self m (goto t c p' s' w).
Proof.
  intros Hinv Ht Hwf Hring Hm Hpc Hrefs Hoth Hreg Hin Hinc Hlive Hlivec.
  destruct Hinv as [_ Hlen _ _ Hpcs _ Hireg Hiin Hilive].
  assert (Hpa : forall j, pc_at (goto t c p' s' w) j = if decide (t = j) then c else pc_at w j)
    by (intros; apply pc_at_goto; lia).
  assert (Hwt : forall j k, (j < 64)%nat -> j <> t -> asleep_reader (pc_at w j) = Some k ->
    state (proc_at s' j) = PROC_WAITING ->
    starved k p' \/ waking c = true \/ exists t', (t' < 64)%nat /\ t' <> t /\ waking (pc_at w t') = true).
  { intros j k Hj Hne Hk Hst.
    assert (Hrg : registered (pc_at w j) = Some true).
    { destruct (pc_at w j) as [| | |[]|[]| | | | | |]; simpl in *; try done. }
    destruct (Hoth j true Hj Hne Hrg Hst) as [(_ & _ & Hcalm) _].
    destruct (Hilive j k Hj Hk (Hcalm Hst)) as [Hs|(t' & Ht' & Hw)].
    - destruct (Hlive j k Hj Hne Hk Hst (or_introl Hs)); tauto.
    - destruct (decide (t' = t)) as [->|Hne'].
      + destruct (Hlive j k Hj Hne Hk Hst (or_intror Hw)); tauto.
      + right; right. by exists t'. }
  constructor; simpl; try done.
  - by rewrite length_insert.
  - intros j Hj. rewrite Hpa. destruct (decide (t = j)); [done|by apply Hpcs].
  - intros j rd Hj. rewrite Hpa. destruct (decide (t = j)) as [<-|Hne]; [by apply Hreg|].
    intros Hr Hst. destruct (Hoth j rd Hj ltac:(done) Hr Hst) as [(Hb & Hbr & Hcalm) Hbit].
    destruct (Hireg j rd Hj Hr (Hcalm Hst)) as (H1 & H2 & H3). split_and!; [auto|congruence..].
  - intros j Hj. rewrite Hpa. destruct (decide (t = j)) as [<-|Hne]; [by apply Hinc|].
    intros Hi. apply Hin; [by apply (Hiin j)|]. by exists j.
  - intros j k Hj. rewrite Hpa. destruct (decide (t = j)) as [<-|Hne].
    + intros Hk Hst. destruct (Hlivec k Hk Hst) as [|(t' & Ht' & Hne' & Hw)]; [by left|].
      right. exists t'. rewrite Hpa, decide_False by congruence. done.
    + intros Hk Hst. destruct (Hwt j k Hj ltac:(done) Hk Hst) as [Hs|[Hw|(t' & Ht' & Hne' & Hw)]].
      * by left.
      * right. exists t. rewrite Hpa, decide_True by done. done.
      * right. exists t'. rewrite Hpa, decide_False by congruence. done.
Qed.

(** The frequent case: the pipe keeps its references and wait masks and the
    table changes calmly. *)
Lemma inv_move self n w t c p' s' :
  inv self n w -> (t < 64)%nat -> wf s' -> ring_ok p' -> pc_ok c ->
  (forall rd, mask rd p' = mask rd (pp w)) ->
  read_refs p' = read_refs (pp w) -> write_refs p' = write_refs (pp w) ->
  (forall j, (j < 64)%nat -> calm (sy w) s' j) ->
  (forall rd, registered c = Some rd -> registered (pc_at w t) = Some rd) ->
  (inside true c = true -> inside true (pc_at w t) = true) ->
  (forall k, asleep_reader c = Some k -> asleep_reader (pc_at w t) = Some k) ->
  (count p' <= count (pp w) \/ waking c = true) ->
  (waking (pc_at w t) = true -> waking c = true) ->
  count p' = count (pp w) \/ asleep_reader c = None ->
  inv self n (goto t c p' s' w).
Proof.
  intros Hinv Ht Hwf Hring Hpc Hmask Hrr Hwr Hcalm Hreg Hin Has Hcount Hwk Hcnt.
  assert (Hstarve : forall k, count p' <= count (pp w) -> starved k (pp w) -> starved k p').
  { intros k Hle [Hw Hk]. split; [congruence|].
    destruct Hring as (_ & _ & Hc'). destruct k; [lia|lia|done]. }
  apply (inv_goto self n); try done.
  - intros rd. rewrite Hmask. by apply (i_masks _ _ _ Hinv).
  - rewrite Hrr, Hwr. apply (i_refs _ _ _ Hinv).
  - intros j rd Hj _ _ _. split; [by apply Hcalm|by rewrite Hmask].
  - intros rd Hr Hst. destruct (Hcalm t Ht) as (Hb & Hbr & Hc).
    destruct (i_reg _ _ _ Hinv t rd Ht (Hreg rd Hr) (Hc Hst)) as (H1 & H2 & H3).
    split_and!; [by rewrite Hmask|congruence..].
  - by rewrite Hrr.
  - intros Hi. rewrite Hrr. by apply (i_in _ _ _ Hinv t Ht), Hin.
  - intros j k Hj Hne Hk Hst [Hs|Hw]; [|right; auto].
    destruct Hcount as [Hle|]; [left|by right]. by apply Hstarve.
  - intros k Hk Hst. destruct Hcnt as [Heq|Hn]; [|congruence].
    destruct (Hcalm t Ht) as (_ & _ & Hc).
    destruct (i_live _ _ _ Hinv t k Ht (Has k Hk) (Hc Hst)) as [Hs|(t' & Ht' & Hw)].
    + left. apply Hstarve; [lia|done].
    + right. exists t'. split_and!; [done| |done]. intros ->.
      pose proof (Has k Hk) as Ha. by destruct (pc_at w t).
Qed.

Lemma asleep_registered c k : asleep_reader c = Some k -> registered c = Some true /\ inside true c = true.
Proof. by destruct c as [| | |[]|[]| | | | | |]. Qed.

Lemma mask_set_waiters_true r w p : mask true (set_waiters r w p) = r.
Proof. done. Qed.

(** Registering as a waiter. *)
Lemma inv_block self n w t rd c p' p'' s' :
  inv self n w -> (t < 64)%nat -> ring_ok p' -> pc_ok c ->
  (forall b, mask b p' = mask b (pp w)) ->
  read_refs p' = read_refs (pp w) -> write_refs p' = write_refs (pp w) ->
  (count p' <= count (pp w) \/ waking c = true) -> waking (pc_at w t) = false ->
  registered c = Some rd -> (inside true c = true -> inside true (pc_at w t) = true) ->
  (forall k, asleep_reader c = Some k -> starved k p') ->
  pipe_block_locked self (want_of rd) t p' (sy w) = (p'', s') ->
  inv self n (goto t c p'' s' w).
Proof.
  intros Hinv Ht Hring Hpc Hmask Hrr Hwr Hcount Hnw Hreg Hin Hst Hblk.
  pose proof (i_wf _ _ _ Hinv) as Hwf. pose proof (i_masks _ _ _ Hinv) as Hu.
  pose proof (slot_bit_u64 t Ht) as Hbit.
  assert (Hp'' : p'' = (if rd then set_waiters (Z.lor (reader_waiters p') (slot_bit t)) (writer_waiters p') p'
                      else set_waiters (reader_waiters p') (Z.lor (writer_waiters p') (slot_bit t)) p') /\
    s' = upd t (fun q => set_state PROC_WAITING (set_blocked_pipe_read (want_of rd) (set_blocked_pipe self q))) (sy w)).
  { destruct rd; unfold pipe_block_locked in Hblk; simpl in Hblk; by simplify_eq. }
  destruct Hp'' as [Hp'' ->].
  assert (Hm'' : forall b, mask b p'' = if Bool.eqb b rd then Z.lor (mask b (pp w)) (slot_bit t) else mask b (pp w)).
  { intros b. rewrite Hp'', <-!Hmask. by destruct rd, b. }
  assert (Hsame : count p'' = count p' /\ read_refs p'' = read_refs (pp w) /\ write_refs p'' = write_refs (pp w)).
  { rewrite Hp''. destruct rd; simpl; auto. }
  destruct Hsame as (Hc'' & Hrr'' & Hwr'').
  assert (Hring'' : ring_ok p'') by (rewrite Hp''; by destruct rd).
  apply (inv_goto self n); try done.
  - auto with kyro.
  - intros b. rewrite Hm''. pose proof (Hu b). case_raw; auto with kyro.
  - rewrite Hrr'', Hwr''. apply (i_refs _ _ _ Hinv).
  - intros j b Hj Hne Hrb Hw. split; [by apply calm_upd_ne|]. rewrite Hm''.
    intros Hb. case_raw; [|done]. rewrite Z.lor_spec, Hb. done.
  - intros b Hb Hw. rewrite Hreg in Hb. injection Hb as <-. unfold reg_ok. rewrite Hm'', eqb_reflx.
    rewrite lor_slot_testbit by lia. rewrite Z.eqb_refl, orb_true_r.
    rewrite proc_at_upd by (destruct Hwf; lia). by rewrite decide_True.
  - by rewrite Hrr''.
  - intros Hi. rewrite Hrr''. by apply (i_in _ _ _ Hinv t Ht), Hin.
  - intros j k Hj Hne Hk Hw [[Hs1 Hs2]|Hwk]; [|congruence]. destruct Hcount as [Hle|]; [left|by right].
    split; [congruence|]. destruct Hring as (_ & _ & Hcr). destruct k; [lia|lia|done].
  - intros k Hk _. left. destruct (Hst k Hk) as [H1 H2]. split; [congruence|].
    rewrite Hc''. by destruct k.
Qed.

(** Waking one direction. *)
Lemma inv_wake self n w t rd c p' s' :
  inv self n w -> (t < 64)%nat -> pc_ok c ->
  pipe_wake self (want_of rd) (pp w) (sy w) = (p', s') ->
  (forall b, registered c = Some b -> b = negb rd /\ registered (pc_at w t) = Some b) ->
  inside true c = false -> (waking (pc_at w t) = true -> rd = true) ->
  inv self n (goto t c p' s' w).
Proof.
  intros Hinv Ht Hpc Hwake Hreg Hin Hwk.
  pose proof (i_wf _ _ _ Hinv) as Hwf. pose proof (i_masks _ _ _ Hinv) as Hu.
  assert (Hspec := fun j => pipe_wake_spec self rd (pp w) (sy w) p' s' j Hwf (Hu rd) Hwake).
  destruct (Hspec 0%nat) as (Hp' & Hwf' & _).
  assert (Hm' : forall b, mask b p' = if Bool.eqb b rd then 0 else mask b (pp w)).
  { intros b. rewrite Hp'. by destruct rd, b. }
  assert (Hsame : count p' = count (pp w) /\ read_refs p' = read_refs (pp w) /\ write_refs p' = write_refs (pp w)).
  { rewrite Hp'. destruct rd; simpl; auto. }
  destruct Hsame as (Hc' & Hrr' & Hwr').
  assert (Hcalm : forall j, calm (sy w) s' j).
  { intros j. destruct (Hspec j) as (_ & _ & Hat). unfold calm. rewrite Hat. by destruct (decide _). }
  assert (Hgone : forall j, (j < 64)%nat -> registered (pc_at w j) = Some rd ->
    state (proc_at s' j) = PROC_WAITING -> False).
  { intros j Hj Hr Hst. destruct (Hspec j) as (_ & _ & Hat).
    destruct (Hcalm j) as (_ & _ & Hc). specialize (Hc Hst).
    destruct (i_reg _ _ _ Hinv j rd Hj Hr Hc) as (H1 & H2 & H3).
    rewrite decide_True in Hat by done. rewrite Hat in Hst. done. }
  apply (inv_goto self n); try done.
  - rewrite Hp'. destruct rd; apply (i_ring _ _ _ Hinv).
  - intros b. rewrite Hm'. case_raw; [done|apply Hu].
  - rewrite Hrr', Hwr'. apply (i_refs _ _ _ Hinv).
  - intros j b Hj Hne Hr Hst. split; [done|]. rewrite Hm'.
    destruct (Bool.eqb b rd) eqn:E; [|done]. apply eqb_prop in E as ->. exfalso. by apply (Hgone j).
  - intros b Hb Hst. destruct (Hreg b Hb) as [-> Hr]. destruct (Hcalm t) as (H1 & H2 & H3).
    destruct (i_reg _ _ _ Hinv t _ Ht Hr (H3 Hst)) as (H4 & H5 & H6).
    split_and!; [rewrite Hm'; by destruct rd|congruence..].
  - by rewrite Hrr'.
  - congruence.
  - intros j k Hj Hne Hk Hst Hor. destruct (asleep_registered _ _ Hk) as [Hr _]. left. destruct rd.
    + exfalso. by apply (Hgone j).
    + destruct Hor as [[H1 H2]|Hw]; [|by specialize (Hwk Hw)].
      split; [congruence|]. rewrite Hc'. by destruct k.
  - intros k Hk _. destruct (asleep_registered _ _ Hk) as [_ Hi]. congruence.
Qed.

(** Leaving the wait. *)
Lemma inv_cancel self n w t k p' s' :
  inv self n w -> (t < 64)%nat -> pc_at w t = Cancel k ->
  pipe_cancel_wait self t (pp w) (sy w) = (p', s') ->
  inv self n (goto t (CheckSignal k) p' s' w).
Proof.
  intros Hinv Ht Hpc Hcan. pose proof (i_pcs _ _ _ Hinv t Ht) as Hok. rewrite Hpc in Hok.
  pose proof (i_wf _ _ _ Hinv) as Hwf. pose proof (i_masks _ _ _ Hinv) as Hu.
  unfold pipe_cancel_wait in Hcan. case_raw; simplify_eq.
  { apply inv_move; rewrite ?Hpc; try done; [apply (i_ring _ _ _ Hinv)|left; lia|by left]. }
  assert (Hbits : forall b j, (j < 64)%nat -> j <> t -> Z.testbit (mask b (pp w)) (Z.of_nat j) = true ->
    Z.testbit (clear_bits (mask b (pp w)) (slot_bit t)) (Z.of_nat j) = true).
  { intros b j Hj Hne Hb. rewrite clear_slot_testbit by (apply Hu || lia). rewrite Hb.
    rewrite (proj2 (Z.eqb_neq _ _)) by lia. done. }
  apply (inv_goto self n); try done.
  - auto with kyro.
  - apply (i_ring _ _ _ Hinv).
  - intros []; apply clear_bits_is_u64.
  - apply (i_refs _ _ _ Hinv).
  - intros j b Hj Hne Hr Hst. split; [by apply calm_upd_ne|]. destruct b; [apply (Hbits true)|apply (Hbits false)]; done.
  - intros Hi. apply (i_in _ _ _ Hinv t Ht). by rewrite Hpc.
  - intros j k' Hj Hne Hk Hst [Hs|Hw]; [left|by rewrite Hpc in Hw]. by destruct k'.
Qed.

(** Dropping the allocation. *)
Lemma free_waiter_spec self s i j :
  wf s -> 0 <= i < 64 ->
  wf (free_waiter self s i) /\
  (Z.of_nat j = i -> state (proc_at (free_waiter self s i) j) <> PROC_WAITING) /\
  (Z.of_nat j <> i -> proc_at (free_waiter self s i) j = proc_at s j) /\
  (state (proc_at (free_waiter self s i) j) = PROC_WAITING -> state (proc_at s j) = PROC_WAITING).
Proof.
  intros Hwf Hi. unfold free_waiter. cbv zeta.
  match goal with |- context [wake _ ?s0] => pose (s1 := s0) end. fold s1.
  assert (H1 : wf s1 /\ state (proc_at s1 j) = state (proc_at s j) /\
    (Z.of_nat j <> i -> proc_at s1 j = proc_at s j)).
  { unfold s1. case_raw; [|done]. split; [auto with kyro|].
    rewrite proc_at_upd by (destruct Hwf; lia). destruct (decide (Z.to_nat i = j)); [subst j|done].
    split; [done|]. lia. }
  clearbody s1. destruct H1 as (Hwf1 & Hst & Hne).
  split; [apply wf_wake; [done|lia]|]. rewrite proc_at_wake by (destruct Hwf1; lia).
  destruct (decide (Z.to_nat i = j)) as [<-|Hd].
  - destruct (Z.eqb_spec (state (proc_at s1 (Z.to_nat i))) PROC_WAITING) as [He|He];
      split_and!; try done; try lia; congruence.
  - split_and!; [lia|done|congruence].
Qed.

Lemma free_loop self s l j :
  wf s -> Forall (fun i => 0 <= i < 64) l ->
  let s' := foldl (free_waiter self) s l in
  wf s' /\ (Z.of_nat j ∈ l -> state (proc_at s' j) <> PROC_WAITING) /\
  (Z.of_nat j ∉ l -> proc_at s' j = proc_at s j) /\
  (state (proc_at s' j) = PROC_WAITING -> state (proc_at s j) = PROC_WAITING).
Proof.
  intros Hwf Hl. revert s Hwf. induction Hl as [|i l Hi Hl IH]; intros s Hwf; cbv zeta; cbn [foldl].
  { split_and!; try done. intros Hin. by apply elem_of_nil in Hin. }
  destruct (free_waiter_spec self s i j Hwf Hi) as (Hwf1 & Hin1 & Hout1 & Hst1).
  destruct (IH _ Hwf1) as (Hwf2 & Hin2 & Hout2 & Hst2). split_and!; [done| | |auto].
  - intros [He|Hin]%elem_of_cons; [|by apply Hin2].
    destruct (decide (Z.of_nat j ∈ l)) as [Hin|Hn]; [by apply Hin2|].
    rewrite Hout2 by done. by apply Hin1.
  - intros [Hne Hn]%not_elem_of_cons. rewrite Hout2 by done. by apply Hout1.
Qed.

Lemma anc_drain_ring f p cl p' cl' :
  anc_drain f p cl = (p', cl') -> exists q wr rd, p' = set_anc q wr rd p.
Proof.
  revert p cl. induction f as [|f IH]; intros p cl; cbn [anc_drain]; cbv zeta.
  { intros [= <- _]. exists (anc_q p), (anc_wr p), (anc_rd p). by destruct p. }
  case_raw; [intros [= <- _]; exists (anc_q p), (anc_wr p), (anc_rd p); by destruct p|].
  intros (q & wr & rd & ->)%IH. by exists q, wr, rd.
Qed.

Lemma inv_endpoint_put self n w t w' l :
  inv self n w -> (t < 64)%nat -> pc_at w t = EndpointPut -> step self t w = Some (w', l) ->
  inv self n w' /\ l = Silent /\ contents (pp w') = contents (pp w).
Proof.
  intros Hinv Ht Hpc. unfold step, pipe_endpoint_put. rewrite Hpc. cbv zeta.
  pose proof (i_wf _ _ _ Hinv) as Hwf. pose proof (i_masks _ _ _ Hinv) as Hu.
  destruct (_ =? 0) eqn:E.
  2:{ intros [= <- <-]. split; [|done]. apply inv_move; rewrite ?Hpc; try done.
      - apply (i_ring _ _ _ Hinv).
      - left. simpl. lia.
      - by left. }
  unfold pipe_free. destruct (anc_drain _ _ _) as [p1 cl] eqn:Hd.
  apply anc_drain_ring in Hd as (q & wr & rd & ->).
  match goal with |- context [foldl _ ?s0 ?l0] => destruct (free_loop self s0 l0 t) as (Hwf' & _) end;
    [done|apply set_bits_all, (is_u64_lor _ _ (Hu true) (Hu false))|].
  simpl endpoint_refs in *. intros [= <- <-]. split; [|done].
  pose proof (fun j => free_loop self (sy w) (set_bits (Z.lor (reader_waiters (pp w)) (writer_waiters (pp w)))) j Hwf
    (set_bits_all _ (is_u64_lor _ _ (Hu true) (Hu false)))) as Hfree. cbv zeta in Hfree.
  assert (Hgone : forall j b, (j < 64)%nat -> registered (pc_at w j) = Some b ->
    state (proc_at (foldl (free_waiter self) (sy w)
      (set_bits (Z.lor (reader_waiters (pp w)) (writer_waiters (pp w))))) j) = PROC_WAITING -> False).
  { intros j b Hj Hr Hst. destruct (Hfree j) as (_ & Hin & _ & Hst'). apply Hin; [|done].
    apply elem_of_set_bits; [apply (is_u64_lor _ _ (Hu true) (Hu false))|].
    destruct (i_reg _ _ _ Hinv j b Hj Hr (Hst' Hst)) as (Hb & _).
    rewrite Z.lor_spec. destruct b; simpl in Hb; rewrite Hb; [done|]. by rewrite orb_true_r. }
  apply (inv_goto self n); try done.
  - apply (i_ring _ _ _ Hinv).
  - by intros [].
  - apply (i_refs _ _ _ Hinv).
  - intros j b Hj Hne Hr Hst. destruct (Hgone j b Hj Hr Hst).
  - intros j k Hj Hne Hk Hst _. destruct (asleep_registered _ _ Hk) as [Hr _].
    destruct (Hgone j true Hj Hr Hst).
Qed.

(** ** One critical section *)

Definition lab_put (l : label) : list Z := match l with Put bs => bs | _ => [] end.
Definition lab_got (l : label) : list Z := match l with Get bs => bs | _ => [] end.

(** The effect of an event on the queue. *)
Definition fifo (w : world) (l : label) (w' : world) : Prop :=
  contents (pp w) ++ lab_put l = lab_got l ++ contents (pp w').

Lemma contents_blen p : ring_ok p -> blen (contents p) = count p.
Proof. intros (_ & _ & Hc). apply cells_blen. lia. Qed.

Lemma exit_block_read len p out :
  read_exit len p out = ExBlock -> write_refs p <> 0 /\ out = [] /\ 0 < len.
Proof.
  unfold read_exit. intros He. destruct (Z.ltb_spec (blen out) len); [|done].
  destruct (Z.eqb_spec (write_refs p) 0); [done|]. destruct (Z.ltb_spec 0 (blen out)); [done|].
  destruct out; [|unfold blen in *; simpl in *; lia]. unfold blen in *. simpl in *. split_and!; [done|done|lia].
Qed.

Lemma locked_read self n w t len out w' l :
  inv self n w -> (t < 64)%nat -> pc_at w t = Enter (KRead len out) ->
  locked self t (KRead len out) w = Some (w', l) -> inv self n w' /\ fifo w l w'.
Proof.
  intros Hinv Ht Hpc. pose proof (i_ring _ _ _ Hinv) as Hring.
  pose proof (i_pcs _ _ _ Hinv t Ht) as Hok. rewrite Hpc in Hok. simpl in Hok.
  destruct (read_loop_spec len (pp w) out Hring Hok) as (r' & c' & got & Hrun & Hring' & Hcont & Hstop).
  unfold locked, pipe_read. rewrite Hrun. cbn [mbind option_bind]. cbv zeta.
  rewrite drop_app_length.
  assert (Hle : c' <= count (pp w)).
  { apply (f_equal blen) in Hcont. rewrite blen_app, !contents_blen in Hcont by done.
    simpl in Hcont. pose proof (blen_nonneg got). lia. }
  assert (Hfifo : contents (pp w) ++ [] = got ++ contents (set_ring (buf (pp w)) r' c' (pp w)))
    by by rewrite app_nil_r.
  assert (Hmv : forall c, registered c = None -> inside true c = false -> pc_ok c ->
    inv self n (goto t c (set_ring (buf (pp w)) r' c' (pp w)) (sy w) w)).
  { intros c Hr Hi Hpcok.
    assert (Has : asleep_reader c = None).
    { destruct (asleep_reader c) eqn:Ha; [|done]. destruct (asleep_registered _ _ Ha). congruence. }
    apply inv_move; rewrite ?Hpc; try done; try congruence; try (by left); try (by right).
    apply (i_wf _ _ _ Hinv). }
  destruct (read_exit _ _ _) eqn:He.
  - intros [= <- <-]. split; [|done]. by apply Hmv; [| |left].
  - intros [= <- <-]. split; [|done]. by apply Hmv.
  - destruct (pipe_block_locked _ _ _ _ _) as [p'' s'] eqn:Hblk. intros [= <- <-].
    apply exit_block_read in He as (Hw & Hnil & Hl). split.
    + eapply (inv_block self n w t true); [done|done|exact Hring'|exact Hok|..|exact Hblk];
        rewrite ?Hpc; try done; try (by left).
      intros k [= <-]. split; [done|]. rewrite Hnil in Hstop. unfold blen in Hstop. simpl in *. lia.
    + unfold fifo. simpl. unfold pipe_block_locked in Hblk. simpl in Hblk. simplify_eq. exact Hfifo.
  - intros [= <- <-]. split; [|done]. by apply Hmv.
Qed.

Lemma locked_peek self n w t len skip out w' l :
  inv self n w -> (t < 64)%nat -> pc_at w t = Enter (KPeek len skip out) ->
  locked self t (KPeek len skip out) w = Some (w', l) -> inv self n w' /\ fifo w l w'.
Proof.
  intros Hinv Ht Hpc. pose proof (i_ring _ _ _ Hinv) as Hring.
  pose proof (i_pcs _ _ _ Hinv t Ht) as Hok. rewrite Hpc in Hok. simpl in Hok.
  destruct Hok as (Hlen & Hskip & ->).
  destruct (peek_loop_spec len skip (pp w) Hring Hlen Hskip) as (got & Hrun & Hpre & Hstop).
  unfold locked, pipe_peek. rewrite Hrun. cbn [mbind option_bind]. cbv zeta.
  assert (Hmv : forall r o, inv self n (goto t (Ret r o) (pp w) (sy w) w)).
  { intros r o. apply inv_move; rewrite ?Hpc; try done; try (by left). apply (i_wf _ _ _ Hinv). }
  unfold fifo. destruct (peek_exit _ _ _ _) eqn:He.
  - intros [= <- <-]. split; [apply Hmv|]. simpl. by rewrite app_nil_r.
  - intros [= <- <-]. split; [apply Hmv|]. simpl. by rewrite app_nil_r.
  - destruct (pipe_block_locked _ _ _ _ _) as [p'' s'] eqn:Hblk. intros [= <- <-].
    apply exit_block_read in He as (Hw & Hnil & Hl). subst got. split.
    + eapply (inv_block self n w t true); [done|done|exact Hring| |..|exact Hblk];
        rewrite ?Hpc; try done; try (by left).
      intros k [= <-]. split; [done|]. change (blen []) with 0 in Hstop. lia.
    + unfold pipe_block_locked in Hblk. simpl in Hblk. simplify_eq. simpl. by rewrite app_nil_r.
  - intros [= <- <-]. split; [apply Hmv|]. simpl. by rewrite app_nil_r.
Qed.

Lemma locked_write self n w t inp dn w' l :
  inv self n w -> (t < 64)%nat -> pc_at w t = Enter (KWrite inp dn) ->
  locked self t (KWrite inp dn) w = Some (w', l) -> inv self n w' /\ fifo w l w'.
Proof.
  intros Hinv Ht Hpc. pose proof (i_ring _ _ _ Hinv) as Hring.
  pose proof (i_pcs _ _ _ Hinv t Ht) as Hok. rewrite Hpc in Hok. simpl in Hok.
  destruct (write_loop_spec inp (pp w) dn Hring Hok) as
    (b' & c' & put & Hrun & Hring' & Hput & Hle & Hcont & Hstop).
  unfold locked, pipe_write. rewrite Hrun. cbn [mbind option_bind]. cbv zeta.
  replace (dn + put - dn) with put by lia.
  destruct (write_exit _ _ _) eqn:He.
  - intros [= <- <-]. split; [|done]. apply inv_move; rewrite ?Hpc; try done; try (by right).
    apply (i_wf _ _ _ Hinv).
  - unfold write_exit in He. repeat case_raw; done.
  - destruct (pipe_block_locked _ _ _ _ _) as [p'' s'] eqn:Hblk. intros [= <- <-]. split.
    + eapply (inv_block self n w t false); [done|done|exact Hring'| |..|exact Hblk];
        rewrite ?Hpc; try done; try (by right). simpl. lia.
    + unfold fifo. unfold pipe_block_locked in Hblk. simpl in Hblk. simplify_eq. exact (eq_sym Hcont).
  - intros [= <- <-]. split; [|done].
    assert (Hr0 : read_refs (pp w) = 0).
    { unfold write_exit in He. simpl in He. repeat case_raw; try done. by dest_bool. }
    assert (Hno : forall j, (j < 64)%nat -> inside true (pc_at w j) = true -> False).
    { intros j Hj Hi. by apply (i_in _ _ _ Hinv j Hj Hi). }
    pose proof (i_wf _ _ _ Hinv) as Hwf.
    apply (inv_goto self n); try done.
    + by apply (send_signal_calm _ _ _ 0).
    + intros b. apply (i_masks _ _ _ Hinv).
    + apply (i_refs _ _ _ Hinv).
    + intros j b Hj Hne Hr Hst. split; [by apply send_signal_calm|]. by destruct b.
    + intros j k Hj Hne Hk. destruct (asleep_registered _ _ Hk) as [_ Hi]. destruct (Hno j Hj Hi).
Qed.

Lemma step_inv self n w t w' l :
  inv self n w -> (t < 64)%nat -> step self t w = Some (w', l) -> inv self n w' /\ fifo w l w'.
Proof.
  intros Hinv Ht Hstep. pose proof (i_pcs _ _ _ Hinv t Ht) as Hok.
  pose proof (i_wf _ _ _ Hinv) as Hwf. pose proof (i_ring _ _ _ Hinv) as Hring.
  assert (Hsil : forall v, contents (pp v) = contents (pp w) -> fifo w Silent v).
  { intros v Hv. unfold fifo. simpl. by rewrite app_nil_r, Hv. }
  assert (Hwakec : forall want p s, pipe_wake self want (pp w) (sy w) = (p, s) -> contents p = contents (pp w)).
  { intros want p s. unfold pipe_wake. case_raw; intros [= <- _]; done. }
  destruct (pc_at w t) as [|k|inp dn|k|k|k|k|want r o|want| |r o] eqn:Hpc.
  - unfold step in Hstep. by rewrite Hpc in Hstep.
  - unfold step in Hstep. rewrite Hpc in Hstep. destruct k.
    + by apply (locked_read self n w t len out).
    + by apply (locked_peek self n w t len skip out).
    + by apply (locked_write self n w t inp done).
  - unfold step in Hstep. rewrite Hpc in Hstep. destruct (pipe_wake _ _ _ _) as [p s] eqn:Hw. simplify_eq.
    split; [|by apply Hsil, (Hwakec 1 p s)].
    apply (inv_wake self n w t true _ _ _); rewrite ?Hpc; try done. by intros b [= <-].
  - unfold step in Hstep. rewrite Hpc in Hstep. simplify_eq. split; [|by apply Hsil].
    apply inv_move; rewrite ?Hpc; try done; try (by left).
    + unfold publish_if_signalled. case_raw; auto with kyro.
    + intros j Hj. unfold publish_if_signalled. case_raw; [by apply calm_wake|apply calm_refl].
  - unfold step in Hstep. rewrite Hpc in Hstep. unfold sched_resume in Hstep.
    case_raw; [|done]. cbn [mbind option_bind] in Hstep. simplify_eq. split; [|by apply Hsil].
    apply inv_move; rewrite ?Hpc; try done; try (by left).
    + auto with kyro.
    + intros j Hj. unfold calm. change (proc_at (proc_clear_ready t (upd t (set_state PROC_RUNNING) (sy w))) j)
        with (proc_at (upd t (set_state PROC_RUNNING) (sy w)) j).
      rewrite proc_at_upd by (destruct Hwf; lia). by destruct (decide (t = j)) as [<-|].
  - unfold step in Hstep. rewrite Hpc in Hstep. destruct (pipe_cancel_wait _ _ _ _) as [p s] eqn:Hc. simplify_eq.
    split; [by apply (inv_cancel self n w t k)|]. apply Hsil.
    unfold pipe_cancel_wait in Hc. case_raw; by simplify_eq.
  - unfold step in Hstep. rewrite Hpc in Hstep. case_raw; simplify_eq; (split; [|by apply Hsil]);
      apply inv_move; rewrite ?Hpc; try done; try (by left).
  - unfold step in Hstep. rewrite Hpc in Hstep. destruct (pipe_wake _ _ _ _) as [p s] eqn:Hw. simplify_eq.
    split; [|by apply Hsil, (Hwakec want p s)].
    destruct Hok as [->| ->]; [apply (inv_wake self n w t false _ _ _)|apply (inv_wake self n w t true _ _ _)];
      rewrite ?Hpc; done.
  - unfold step in Hstep. rewrite Hpc in Hstep. destruct (pipe_wake _ _ _ _) as [p s] eqn:Hw. simplify_eq.
    split; [|by apply Hsil, (Hwakec want p s)].
    destruct Hok as [->| ->]; [apply (inv_wake self n w t false _ _ _)|apply (inv_wake self n w t true _ _ _)];
      rewrite ?Hpc; done.
  - destruct (inv_endpoint_put self n w t w' l Hinv Ht Hpc Hstep) as (? & -> & ?). split; [done|]. by apply Hsil.
  - unfold step in Hstep. by rewrite Hpc in Hstep.
Qed.

(** ** Calls and signals *)

Definition op_ok (o : op) : Prop :=
  match o with
  | ORead len => is_u64 len
  | OPeek len skip => is_u64 len /\ is_u64 skip
  | _ => True
  end.

Definition event_ok (e : event) : Prop := match e with Call _ o => op_ok o | _ => True end.

Lemma inv_call self n w t c w0 r0 e0 s' :
  inv self (n + 1) w -> (t < 64)%nat -> wf s' -> pc_ok c -> registered c = None ->
  waking (pc_at w t) = false ->
  (forall j, (j < 64)%nat -> calm (sy w) s' j) ->
  (0 <= r0 <= read_refs (pp w) + 1) -> (0 <= w0 <= write_refs (pp w) + 1) ->
  (inside true c = true -> r0 <> 0) ->
  (r0 = 0 -> existsb (inside true) (pcs w) = false \/ read_refs (pp w) = 0) ->
  (w0 = 0 -> waking c = true \/ write_refs (pp w) = 0) ->
  inv self n (goto t c (set_refs w0 r0 e0 (pp w)) s' w).
Proof.
  intros Hinv Ht Hwf Hpc Hreg Hnw Hcalm Hr0 Hw0 Hic Hri Hwi.
  assert (Has : asleep_reader c = None).
  { destruct (asleep_reader c) eqn:Ha; [|done]. destruct (asleep_registered _ _ Ha). congruence. }
  destruct (i_refs _ _ _ Hinv) as [Hrr Hwr].
  apply (inv_goto self (n + 1)); try done.
  - apply (i_ring _ _ _ Hinv).
  - intros []; [apply (i_masks _ _ _ Hinv true)|apply (i_masks _ _ _ Hinv false)].
  - simpl. lia.
  - intros j b Hj Hne Hr Hst. split; [by apply Hcalm|]. by destruct b.
  - intros rd Hr. congruence.
  - intros Hnz (j & Hj & Hne & Hin) Hz. simpl in Hz. destruct (Hri Hz) as [He|]; [|done].
    assert (existsb (inside true) (pcs w) = true); [|congruence].
    apply existsb_exists. exists (pc_at w j). split; [|done].
    apply list_elem_of_In. unfold pc_at, aget. pose proof (i_len _ _ _ Hinv).
    destruct (lookup_lt_is_Some_2 (pcs w) j ltac:(lia)) as [x Hx]. rewrite Hx. simpl.
    by eapply list_elem_of_lookup_2.
  - intros j k Hj Hne Hk Hst [[Hs1 Hs2]|Hw]; [|congruence].
    destruct (Z.eq_dec w0 0) as [Hz|Hz]; [destruct (Hwi Hz); [by right|done]|]. by left.
  - intros k Hk. congruence.
Qed.

Lemma set_refs_self p : set_refs (write_refs p) (read_refs p) (endpoint_refs p) p = p.
Proof. by destruct p. Qed.

Lemma call_inv self n w t o w' l :
  inv self (n + 1) w -> 0 <= n -> op_ok o -> (t < 64)%nat -> call self t o w = Some (w', l) ->
  inv self n w' /\ fifo w l w'.
Proof.
  intros Hinv Hn Hop Ht. pose proof (i_wf _ _ _ Hinv) as Hwf. destruct (i_refs _ _ _ Hinv) as [Hrr Hwr].
  assert (Hsame : forall c s', wf s' -> (forall j, (j < 64)%nat -> calm (sy w) s' j) ->
    waking (pc_at w t) = false -> pc_ok c -> registered c = None ->
    (inside true c = true -> read_refs (pp w) <> 0) -> inv self n (goto t c (pp w) s' w)).
  { intros c s' Hs Hc Hw Hp Hr Hi. rewrite <-(set_refs_self (pp w)).
    apply inv_call; try done; try lia; by right. }
  assert (Hsil : forall v, contents (pp v) = contents (pp w) -> fifo w Silent v).
  { intros v Hv. unfold fifo. simpl. by rewrite app_nil_r, Hv. }
  assert (Hsig : forall sig, wf (proc_send_signal t sig (sy w)) /\
    (forall j, (j < 64)%nat -> calm (sy w) (proc_send_signal t sig (sy w)) j)).
  { intros sig. split; [by apply (send_signal_calm _ _ _ 0)|]. intros j _. by apply send_signal_calm. }
  assert (Hidle : call self t o w = Some (w', l) -> waking (pc_at w t) = false).
  { unfold call. by destruct (pc_at w t). }
  intros Hc. specialize (Hidle Hc). unfold call in Hc. cbv zeta in Hc.
  assert (Hgo : l = Silent /\ contents (pp w') = contents (pp w) /\ inv self n w').
  { assert (Hc2 : (exists rr oo, pc_at w t = Ret rr oo) \/ pc_at w t = Idle).
    { destruct (pc_at w t); eauto; done. }
    assert (Hc3 := Hc). clear Hc.
    destruct Hc2 as [(rr & oo & Hpc)|Hpc]; rewrite Hpc in Hc3.
    all: destruct o; unfold pipe_unref_read, pipe_unref_write in *; repeat case_raw; simplify_eq; dest_bool; (split; [done|]); (split; [done|]);
      simpl in Hop; try (apply Hsame; rewrite ?Hpc; try done; by apply Hsig).
    all: try (apply inv_call; rewrite ?Hpc; try done; try lia; try (by right); try (by left)).
    all: try (simpl; rewrite u32_small by (unfold is_u32; lia); lia).
    all: try (intros Hz; exfalso; revert Hz; simpl; rewrite u32_small by (unfold is_u32; lia); lia).
    all: apply Hsame; rewrite ?Hpc; try done; first [by destruct Hop | split; [lia|apply blen_nonneg]]. }
  destruct Hgo as (-> & Hcont & Hi). split; [done|]. by apply Hsil.
Qed.

(** ** Runs *)

Lemma inv_mono self n m w : inv self n w -> m <= n -> inv self m w.
Proof. intros [? ? ? ? ? Hr ? ? ?] Hm. constructor; try done. lia. Qed.

Lemma exec_inv self n w e w' l :
  inv self (n + 1) w -> 0 <= n -> event_ok e -> exec self e w = Some (w', l) ->
  inv self n w' /\ fifo w l w'.
Proof.
  intros Hinv Hn He. unfold exec. destruct e as [t o|t|t sig]; (case_raw; [|done]).
  - apply Nat.ltb_lt in Heqb. by apply call_inv.
  - apply Nat.ltb_lt in Heqb. apply step_inv; [|done]. eapply inv_mono; [exact Hinv|lia].
  - apply Nat.ltb_lt in Heqb. intros [= <- <-]. split; [|unfold fifo; simpl; by rewrite app_nil_r].
    pose proof (i_wf _ _ _ Hinv) as Hwf. apply (inv_mono _ (n + 1)); [|lia].
    pose proof (fun j => send_signal_calm (sy w) t sig j Hwf Heqb) as Hs.
    destruct Hinv as [_ ? ? ? ? ? Hreg ? Hlive]. constructor; simpl; try done.
    + apply (Hs 0%nat).
    + intros j rd Hj Hr Hst. destruct (Hs j) as [_ (H1 & H2 & H3)].
      destruct (Hreg j rd Hj Hr (H3 Hst)) as (H4 & H5 & H6). split_and!; [done|congruence..].
    + intros j k Hj Hk Hst. destruct (Hs j) as [_ (_ & _ & H3)]. by apply (Hlive j k Hj Hk), H3.
Qed.

Definition puts (ls : list label) : list Z := concat (map lab_put ls).
Definition gots (ls : list label) : list Z := concat (map lab_got ls).

Lemma run_inv self n es w w' ls :
  inv self (n + Z.of_nat (length es)) w -> 0 <= n -> Forall event_ok es ->
  run self es w = Some (w', ls) ->
  inv self n w' /\ contents (pp w) ++ puts ls = gots ls ++ contents (pp w').
Proof.
  intros Hinv Hn Hes. revert w ls Hinv. induction Hes as [|e es He Hes IH]; intros w ls Hinv; simpl.
  { intros [= <- <-]. split; [eapply inv_mono; [exact Hinv|simpl; lia]|]. unfold puts, gots. simpl. by rewrite app_nil_r. }
  destruct (exec self e w) as [[w1 l]|] eqn:Hx; [|done]. simpl.
  destruct (run self es w1) as [[w2 ls2]|] eqn:Hr; [|done]. intros [= <- <-].
  destruct (exec_inv self (n + Z.of_nat (length es)) w e w1 l) as [Hinv1 Hf]; [|lia|done|done|].
  { eapply inv_mono; [exact Hinv|simpl; lia]. }
  destruct (IH w1 ls2 Hinv1 Hr) as [Hinv2 Hq]. split; [done|].
  unfold puts, gots in *. simpl. unfold fifo in Hf.
  by rewrite app_assoc, Hf, <-app_assoc, Hq, app_assoc.
Qed.

(** A new pipe with [r] read and [w] write references and no caller inside. *)
Definition start (r w : Z) (s : sys) : world :=
  mkWorld (set_refs w r (r + w)
             (mkPipe PIPE_MAGIC (replicate (Z.to_nat PIPE_BUFSZ) 0) 0 0 0 0 0 0 0
                (replicate 8 (mkAnc [0; 0; 0; 0] 0)) 0 0))
    s (replicate 64 Idle).

Lemma pc_at_start r w s t : pc_at (start r w s) t = Idle.
Proof.
  unfold pc_at, aget, start. cbn [pcs]. destruct (replicate 64 Idle !! t) eqn:E; [|done].
  apply lookup_replicate in E as [-> _]. done.
Qed.

Lemma start_inv self n r w s :
  wf s -> 0 <= r -> 0 <= w -> r + n < 2 ^ 32 -> w + n < 2 ^ 32 -> inv self n (start r w s).
Proof.
  intros Hwf Hr Hw Hrn Hwn. constructor.
  - exact Hwf.
  - reflexivity.
  - split; [|done]. unfold start. cbn [pp set_refs buf]. unfold blen.
    rewrite length_replicate. by rewrite Z2Nat.id.
  - by intros [].
  - intros t _. by rewrite pc_at_start.
  - done.
  - intros t rd _. by rewrite pc_at_start.
  - intros t _. by rewrite pc_at_start.
  - intros t k _. by rewrite pc_at_start.
Qed.

(** C8: under every interleaving of readers, writers, reference changes and
    signals a pipe is a FIFO byte queue.  The bytes taken by the readers, in the
    order in which they are taken, followed by the bytes still in the ring are
    exactly the bytes put by the writers, in order: nothing is lost, duplicated
    or reordered, wherever the ring wraps around. *)
Theorem pipe_fifo self r wr s es w ls :
  wf s -> 0 <= r -> 0 <= wr ->
  r + Z.of_nat (length es) < 2 ^ 32 -> wr + Z.of_nat (length es) < 2 ^ 32 ->
  Forall event_ok es -> run self es (start r wr s) = Some (w, ls) ->
  puts ls = gots ls ++ contents (pp w).
Proof.
  intros Hwf Hr Hw Hrn Hwn Hes Hrun.
  destruct (run_inv self 0 es (start r wr s) w ls) as [_ Hq]; [|done|done|done|exact Hq].
  by apply start_inv.
Qed.

Lemma step_total self n w t k :
  inv self n w -> (t < 64)%nat -> pc_at w t = Enter k -> exists w' l, step self t w = Some (w', l).
Proof.
  intros Hinv Ht Hpc. pose proof (i_pcs _ _ _ Hinv t Ht) as Hok. rewrite Hpc in Hok.
  pose proof (i_ring _ _ _ Hinv) as Hring. unfold step. rewrite Hpc. destruct k as [len out|len skip out|inp dn].
  - destruct (read_loop_spec len (pp w) out Hring Hok) as (r' & c' & got & Hrun & _).
    unfold locked, pipe_read. rewrite Hrun. cbn [mbind option_bind]. cbv zeta.
    destruct (read_exit _ _ _); by do 2 eexists.
  - destruct Hok as (Hl & Hs & ->). destruct (peek_loop_spec len skip (pp w) Hring Hl Hs) as (got & Hrun & _).
    unfold locked, pipe_peek. rewrite Hrun. cbn [mbind option_bind]. cbv zeta.
    destruct (peek_exit _ _ _ _); by do 2 eexists.
  - destruct (write_loop_spec inp (pp w) dn Hring Hok) as (b' & c' & put & Hrun & _).
    unfold locked, pipe_write. rewrite Hrun. cbn [mbind option_bind]. cbv zeta.
    destruct (write_exit _ _ _); by do 2 eexists.
Qed.

(** a call never gets stuck inside the kernel.  In every reachable state each
    process inside [pipe_read], [pipe_peek], [pipe_write] or a reference drop can
    take its next step: the copy loops under the lock end (within three rounds,
    whatever the lengths and positions), and the only process that cannot move is
    one asleep that nobody has made READY. *)
Theorem pipe_call_progress self r wr s es w ls t :
  wf s -> 0 <= r -> 0 <= wr ->
  r + Z.of_nat (length es) < 2 ^ 32 -> wr + Z.of_nat (length es) < 2 ^ 32 ->
  Forall event_ok es -> run self es (start r wr s) = Some (w, ls) -> (t < 64)%nat ->
  match pc_at w t with
  | Idle | Ret _ _ => True
  | Sleep _ => state (proc_at (sy w) t) = PROC_READY -> is_Some (step self t w)
  | _ => is_Some (step self t w)
  end.
Proof.
  intros Hwf Hr Hw Hrn Hwn Hes Hrun Ht.
  destruct (run_inv self 0 es (start r wr s) w ls) as [Hinv _]; [by apply start_inv|done|done|done|].
  destruct (pc_at w t) as [|k|inp dn|k|k|k|k|want r0 o|want| |r0 o] eqn:Hpc; try done.
  - destruct (step_total self 0 w t k Hinv Ht Hpc) as (w' & l & ->). by eexists.
  - unfold step. rewrite Hpc. destruct (pipe_wake _ _ _ _). by eexists.
  - unfold step. rewrite Hpc. by eexists.
  - intros Hst. unfold step, sched_resume. rewrite Hpc, Hst. by eexists.
  - unfold step. rewrite Hpc. destruct (pipe_cancel_wait _ _ _ _). by eexists.
  - unfold step. rewrite Hpc. case_raw; by eexists.
  - unfold step. rewrite Hpc. destruct (pipe_wake _ _ _ _). by eexists.
  - unfold step. rewrite Hpc. destruct (pipe_wake _ _ _ _). by eexists.
  - unfold step. rewrite Hpc. destruct (pipe_endpoint_put _ _ _). by eexists.
Qed.

(** C17: no reader is left asleep on a readable pipe.  In every reachable state, a
    process asleep in [pipe_read] or [pipe_peek] although bytes for it are in the
    ring, or the last writer is gone, has a wake-up on its way: some other process
    is about to run [pipe_wake(p, 1)], and that step makes the sleeper READY. *)
Theorem pipe_reader_never_stranded self r wr s es w ls t k :
  wf s -> 0 <= r -> 0 <= wr ->
  r + Z.of_nat (length es) < 2 ^ 32 -> wr + Z.of_nat (length es) < 2 ^ 32 ->
  Forall event_ok es -> run self es (start r wr s) = Some (w, ls) ->
  (t < 64)%nat -> asleep_reader (pc_at w t) = Some k -> state (proc_at (sy w) t) = PROC_WAITING ->
  starved k (pp w) \/
  exists t' w', (t' < 64)%nat /\ step self t' w = Some (w', Silent) /\
    state (proc_at (sy w') t) = PROC_READY.
Proof.
  intros Hwf Hr Hw Hrn Hwn Hes Hrun Ht Hk Hst.
  destruct (run_inv self 0 es (start r wr s) w ls) as [Hinv _]; [by apply start_inv|done|done|done|].
  destruct (i_live _ _ _ Hinv t k Ht Hk Hst) as [|(t' & Ht' & Hwk)]; [by left|right].
  destruct (asleep_registered _ _ Hk) as [Hreg _].
  destruct (i_reg _ _ _ Hinv t true Ht Hreg Hst) as (H1 & H2 & H3).
  destruct (pipe_wake self 1 (pp w) (sy w)) as [p1 s1] eqn:Hwake.
  destruct (pipe_wake_spec self true (pp w) (sy w) p1 s1 t (i_wf _ _ _ Hinv) (i_masks _ _ _ Hinv true) Hwake)
    as (_ & _ & Hat).
  rewrite decide_True in Hat by done.
  exists t'. unfold step. destruct (pc_at w t') as [| |inp dn| | | | |want r0 o|want| |]; try done.
  - rewrite Hwake. eexists. split_and!; [done|reflexivity|]. simpl. by rewrite Hat.
  - apply Z.eqb_eq in Hwk as ->. rewrite Hwake. eexists. split_and!; [done|reflexivity|]. simpl. by rewrite Hat.
  - apply Z.eqb_eq in Hwk as ->. rewrite Hwake. eexists. split_and!; [done|reflexivity|]. simpl. by rewrite Hat.
Qed.

(** ** Writers *)

(** Sixty-four slots, none with a signal pending. *)
Definition quiet : sys := mkSys (replicate 64 proc0) 0 0 0.

Lemma quiet_wf : wf quiet.
Proof. unfold wf, is_u64. simpl. lia. Qed.

(** The sleeping writer of the run below. *)
Definition blocked_writer (self : Z) : sys :=
  upd 0 (fun t => set_state PROC_WAITING (set_blocked_pipe_read 0 (set_blocked_pipe self t))) quiet.

Lemma contents_set_waiters r w p : contents (set_waiters r w p) = contents p.
Proof. reflexivity. Qed.

(** Writing more than fits into an empty ring fills it and blocks. *)
Lemma fill_ring inp p :
  ring_ok p -> count p = 0 -> read_refs p <> 0 -> PIPE_BUFSZ < blen inp ->
  exists b, let p1 := set_ring b (rpos p) PIPE_BUFSZ p in
    write_loop LOOP_FUEL inp p 0 = Some (p1, PIPE_BUFSZ, ExBlock) /\
    ring_ok p1 /\ contents p1 = slice inp 0 PIPE_BUFSZ.
Proof.
  intros Hring Hc Hrd Hinp.
  destruct (write_loop_spec inp p 0 Hring) as (b & c1 & put & Hw & Hring1 & Hput & Hle & Hcont & Hstop);
    [unfold PIPE_BUFSZ in *; lia|].
  assert (Hc1 : c1 = put).
  { apply (f_equal blen) in Hcont. rewrite blen_app, !contents_blen, blen_slice, Hc in Hcont by (done || lia).
    exact Hcont. }
  assert (Hfull : put = PIPE_BUFSZ).
  { destruct Hring1 as (_ & _ & Hc'). simpl in Hc', Hstop. destruct Hstop; lia. }
  subst c1 put. exists b. cbv zeta. rewrite Z.add_0_l in Hw. split_and!; [|done|].
  - rewrite Hw. unfold write_exit. rewrite (proj2 (Z.ltb_lt _ _)) by lia. simpl read_refs.
    by rewrite (proj2 (Z.eqb_neq _ _)).
  - rewrite Hcont. unfold contents at 1. rewrite Hc. reflexivity.
Qed.

(** Reading more than it holds drains a full ring and returns at once. *)
Lemma drain_ring len p :
  ring_ok p -> count p = PIPE_BUFSZ -> PIPE_BUFSZ < len < 2 ^ 64 ->
  exists r, read_loop LOOP_FUEL len p [] = Some (set_ring (buf p) r 0 p, contents p, ExReturn) /\
    blen (contents p) = PIPE_BUFSZ.
Proof.
  intros Hring Hc Hlen.
  destruct (read_loop_spec len p [] Hring ltac:(unfold PIPE_BUFSZ in *; lia))
    as (r & c & got & Hr & Hring' & Hcont & Hstop). rewrite app_nil_l in Hr, Hstop.
  assert (Hbl : blen got + c = PIPE_BUFSZ).
  { apply (f_equal blen) in Hcont. rewrite blen_app, !contents_blen in Hcont by done. simpl in Hcont. lia. }
  assert (Hz : c = 0).
  { destruct Hring' as (_ & _ & Hc'). simpl in Hc', Hstop. destruct Hstop; lia. }
  subst c. exists r. split; [|rewrite contents_blen by done; exact Hc].
  assert (Hgot : contents p = got) by (rewrite Hcont; apply app_nil_r).
  rewrite Hgot, Hr. unfold read_exit. rewrite (proj2 (Z.ltb_lt _ _)) by lia.
  rewrite (proj2 (Z.ltb_lt 0 _)) by (unfold PIPE_BUFSZ in *; lia). by case_raw.
Qed.

(** A writer fills the ring and sleeps; a reader drains it and returns. *)
Lemma lost_wakeup_run inp len :
  PIPE_BUFSZ < blen inp -> PIPE_BUFSZ < len < 2 ^ 64 ->
  exists w ls,
    run HEAP_START [Call 0 (OWrite inp); Step 0; Step 0; Step 0; Call 1 (ORead len); Step 1]
      (start 1 1 quiet) = Some (w, ls) /\
    pc_at w 0 = Sleep (KWrite inp PIPE_BUFSZ) /\
    state (proc_at (sy w) 0) = PROC_WAITING /\
    contents (pp w) = [] /\ read_refs (pp w) = 1 /\
    pc_at w 1 = Ret PIPE_BUFSZ (slice inp 0 PIPE_BUFSZ) /\
    forall t, step HEAP_START t w = None.
Proof.
  intros Hinp Hlen. pose (p0 := pp (start 1 1 quiet)).
  pose proof (start_inv HEAP_START 0 1 1 quiet quiet_wf ltac:(lia) ltac:(lia) ltac:(lia) ltac:(lia)) as Hinv.
  destruct (fill_ring inp p0 (i_ring _ _ _ Hinv) eq_refl ltac:(done) Hinp) as (b & Hw & Hring1 & Hcont).
  pose (p1 := set_ring b (rpos p0) PIPE_BUFSZ p0). fold p1 in Hw, Hring1, Hcont.
  pose (p2 := set_waiters 0 (slot_bit 0) p1).
  destruct (drain_ring len p2 Hring1 eq_refl Hlen) as (r3 & Hr & Hgl).
  pose (p3 := set_ring (buf p2) r3 0 p2). fold p3 in Hr. pose (got := contents p2). fold got in Hr, Hgl.
  assert (Hgot : got = slice inp 0 PIPE_BUFSZ)
    by (unfold got, p2; rewrite contents_set_waiters; exact Hcont).
  clearbody got.
  pose (w0 := start 1 1 quiet).
  pose (w1 := goto 0 (Enter (KWrite inp 0)) p0 quiet w0).
  pose (w2 := goto 0 (FullWake inp PIPE_BUFSZ) p2 (blocked_writer HEAP_START) w1).
  pose (w3 := goto 0 (BlockOrSignal (KWrite inp PIPE_BUFSZ)) p2 (blocked_writer HEAP_START) w2).
  pose (w4 := goto 0 (Sleep (KWrite inp PIPE_BUFSZ)) p2 (blocked_writer HEAP_START) w3).
  pose (w5 := goto 1 (Enter (KRead len [])) p2 (blocked_writer HEAP_START) w4).
  pose (w6 := goto 1 (Ret PIPE_BUFSZ got) p3 (blocked_writer HEAP_START) w5).
  assert (E1 : call HEAP_START 0 (OWrite inp) w0 = Some (w1, Silent)).
  { unfold call. change (pc_at w0 0) with Idle. cbv iota zeta.
    rewrite (proj2 (Z.eqb_neq (blen inp) 0)) by (unfold PIPE_BUFSZ in *; lia). reflexivity. }
  assert (E2 : step HEAP_START 0 w1 = Some (w2, Put (slice inp 0 PIPE_BUFSZ))).
  { unfold step. change (pc_at w1 0) with (Enter (KWrite inp 0)). cbv iota.
    unfold locked, pipe_write. change (pp w1) with p0. rewrite Hw. reflexivity. }
  assert (E3 : step HEAP_START 0 w2 = Some (w3, Silent)) by reflexivity.
  assert (E4 : step HEAP_START 0 w3 = Some (w4, Silent)) by reflexivity.
  assert (E5 : call HEAP_START 1 (ORead len) w4 = Some (w5, Silent)) by reflexivity.
  assert (E6 : step HEAP_START 1 w5 = Some (w6, Get got)).
  { unfold step. change (pc_at w5 1) with (Enter (KRead len [])). cbv iota.
    unfold locked, pipe_read. change (pp w5) with p2. rewrite Hr. cbn [mbind option_bind]. cbv zeta iota.
    rewrite Hgl. reflexivity. }
  exists w6. eexists. split.
  { cbn [run exec Nat.ltb Nat.leb]. fold w0. rewrite E1. cbn [mbind option_bind].
    rewrite E2. cbn [mbind option_bind]. rewrite E3. cbn [mbind option_bind].
    rewrite E4. cbn [mbind option_bind]. rewrite E5. cbn [mbind option_bind].
    rewrite E6. cbn [mbind option_bind]. reflexivity. }
  split_and!; [reflexivity..| |].
  - change (pc_at w6 1) with (Ret PIPE_BUFSZ got). f_equal. exact Hgot.
  - intros t. unfold step.
    assert (Hpc : pc_at w6 t = Sleep (KWrite inp PIPE_BUFSZ) /\ t = 0%nat \/
      pc_at w6 t = Ret PIPE_BUFSZ got \/ pc_at w6 t = Idle).
    { destruct t as [|[|t]]; [by left|by right; left|right; right].
      change (pc_at w6 (S (S t))) with (aget Idle (replicate 62 Idle) t). unfold aget.
      destruct (replicate 62 Idle !! t) eqn:E; [|done]. by apply lookup_replicate in E as [-> _]. }
    destruct Hpc as [[-> ->]|[->| ->]]; reflexivity.
Qed.

(** a reader that drains the pipe leaves a blocked writer asleep.  Process 0
    writes more than the ring holds and blocks; process 1 asks for more than the
    ring holds, gets every byte in it and returns, without [pipe_wake(p, 0)].  The
    ring is then empty and still has a reader, the writer is WAITING in the middle
    of its data, and no process has a step left to take: only a later read, a
    signal or a close can wake the writer. *)
Theorem pipe_write_lost_wakeup inp len :
  PIPE_BUFSZ < blen inp -> PIPE_BUFSZ < len < 2 ^ 64 ->
  exists w ls,
    run HEAP_START [Call 0 (OWrite inp); Step 0; Step 0; Step 0; Call 1 (ORead len); Step 1]
      (start 1 1 quiet) = Some (w, ls) /\
    pc_at w 0 = Sleep (KWrite inp PIPE_BUFSZ) /\
    state (proc_at (sy w) 0) = PROC_WAITING /\
    contents (pp w) = [] /\ read_refs (pp w) = 1 /\
    pc_at w 1 = Ret PIPE_BUFSZ (slice inp 0 PIPE_BUFSZ) /\
    forall t, step HEAP_START t w = None.
Proof. intros Hinp Hlen. by apply lost_wakeup_run. Qed.

Lemma big_input : exists inp, PIPE_BUFSZ < blen inp.
Proof.
  exists (replicate (Z.to_nat (PIPE_BUFSZ + 1)) 7). unfold blen. rewrite length_replicate.
  rewrite Z2Nat.id; unfold PIPE_BUFSZ; lia.
Qed.

Lemma pipe_write_lost_wakeup_witness :
  exists inp w ls,
    run HEAP_START [Call 0 (OWrite inp); Step 0; Step 0; Step 0; Call 1 (ORead 70000); Step 1]
      (start 1 1 quiet) = Some (w, ls) /\
    state (proc_at (sy w) 0) = PROC_WAITING /\ forall t, step HEAP_START t w = None.
Proof.
  destruct big_input as [inp Hinp].
  destruct (pipe_write_lost_wakeup inp 70000 Hinp (conj eq_refl eq_refl))
    as (w & ls & Hrun & _ & Hst & _ & _ & _ & Hno).
  exists inp, w, ls. split; [exact Hrun|]. split; [exact Hst|exact Hno].
Defined.

Lemma pipe_fifo_witness :
  exists inp w ls,
    run HEAP_START [Call 0 (OWrite inp); Step 0; Step 0; Step 0; Call 1 (ORead 70000); Step 1]
      (start 1 1 quiet) = Some (w, ls) /\
    puts ls = gots ls ++ contents (pp w).
Proof.
  destruct big_input as [inp Hinp].
  destruct (lost_wakeup_run inp 70000 Hinp (conj eq_refl eq_refl)) as (w & ls & Hrun & _).
  exists inp, w, ls. split; [exact Hrun|].
  refine (pipe_fifo HEAP_START 1 1 quiet _ w ls quiet_wf _ _ _ _ _ Hrun);
    [lia|lia|cbn [length]; lia|cbn [length]; lia|].
  repeat (apply Forall_cons; split); done.
Defined.

(** A reader asleep on the empty pipe when the last writer goes away. *)
Lemma stranded_run :
  exists w ls,
    run HEAP_START [Call 1 (ORead 4); Step 1; Step 1; Call 0 OUnrefWrite]
      (start 1 1 quiet) = Some (w, ls) /\
    pc_at w 1 = Sleep (KRead 4 []) /\ state (proc_at (sy w) 1) = PROC_WAITING.
Proof.
  pose (w0 := start 1 1 quiet). pose (p0 := pp w0).
  pose (s1 := upd 1 (fun t => set_state PROC_WAITING (set_blocked_pipe_read 1 (set_blocked_pipe HEAP_START t))) quiet).
  pose (p1 := set_waiters (slot_bit 1) 0 p0).
  pose (w1 := goto 1 (Enter (KRead 4 [])) p0 quiet w0).
  pose (w2 := goto 1 (BlockOrSignal (KRead 4 [])) p1 s1 w1).
  pose (w3 := goto 1 (Sleep (KRead 4 [])) p1 s1 w2).
  assert (E1 : call HEAP_START 1 (ORead 4) w0 = Some (w1, Silent)) by reflexivity.
  assert (E2 : step HEAP_START 1 w1 = Some (w2, Get [])) by reflexivity.
  assert (E3 : step HEAP_START 1 w2 = Some (w3, Silent)) by reflexivity.
  assert (E4 : call HEAP_START 0 OUnrefWrite w3 =
    Some (goto 0 (UnrefWake 1) (set_refs 0 1 2 p1) s1 w3, Silent)) by reflexivity.
  do 2 eexists. split.
  { cbn [run exec Nat.ltb Nat.leb]. fold w0. rewrite E1. cbn [mbind option_bind].
    rewrite E2. cbn [mbind option_bind]. rewrite E3. cbn [mbind option_bind].
    rewrite E4. cbn [mbind option_bind]. reflexivity. }
  split; reflexivity.
Qed.

Lemma pipe_reader_never_stranded_witness :
  exists w ls,
    run HEAP_START [Call 1 (ORead 4); Step 1; Step 1; Call 0 OUnrefWrite]
      (start 1 1 quiet) = Some (w, ls) /\
    (starved (KRead 4 []) (pp w) \/
     exists t' w', (t' < 64)%nat /\ step HEAP_START t' w = Some (w', Silent) /\
       state (proc_at (sy w') 1) = PROC_READY).
Proof.
  destruct stranded_run as (w & ls & Hrun & Hpc & Hst). exists w, ls. split; [exact Hrun|].
  refine (pipe_reader_never_stranded HEAP_START 1 1 quiet _ w ls 1 _ quiet_wf _ _ _ _ _ Hrun _ _ Hst);
    try (simpl; lia).
  - repeat (apply Forall_cons; split); try done.
  - rewrite Hpc. reflexivity.
Defined.

Lemma pipe_call_progress_witness :
  exists w ls,
    run HEAP_START [Call 1 (ORead 4); Step 1; Step 1; Call 0 OUnrefWrite]
      (start 1 1 quiet) = Some (w, ls) /\
    (pc_at w 0 = UnrefWake 1 -> is_Some (step HEAP_START 0 w)).
Proof.
  destruct stranded_run as (w & ls & Hrun & _). exists w, ls. split; [exact Hrun|]. intros Hpc.
  assert (Hes : Forall event_ok [Call 1 (ORead 4); Step 1; Step 1; Call 0 OUnrefWrite])
    by (repeat (apply Forall_cons; split); done).
  pose proof (pipe_call_progress HEAP_START 1 1 quiet
    [Call 1 (ORead 4); Step 1; Step 1; Call 0 OUnrefWrite] w ls 0 quiet_wf ltac:(lia) ltac:(lia)
    ltac:(simpl; lia) ltac:(simpl; lia) Hes Hrun ltac:(lia)) as Hp.
  by rewrite Hpc in Hp.
Defined.
