(* ===== verification/Heap.v ===== *)
(** * Heap: the kernel allocator.

    Models [kernel/mm/heap.c].  The doubly linked list from [g_head] to [g_tail]
    is the list [blocks] in address order, a free bin is the list of its members
    from its head, and a per-CPU cache class is its stack of payload pointers with
    its counter; pointers are addresses.  Every operation runs with the heap lock
    held or interrupts off, as one step.  [grow_ok] answers whether the pages of a
    growth could be allocated and mapped. *)

From S2P Require Import Prelude Bits.

Definition HEAP_START := 0xffff910000000000.
Definition HEAP_MAX := 0xffff920000000000.
Definition HEAP_CAPACITY := HEAP_MAX - HEAP_START.
Definition HDR_SIZE := 48.
Definition MIN_SPLIT := HDR_SIZE + 16.
Definition PAGE_SIZE := 4096.
Definition GROW_BYTES := 16 * PAGE_SIZE.
Definition HEAP_BIN_COUNT := 32.
Definition SMALL_CLASS_COUNT := 16.
Definition SMALL_CACHE_LIMIT := 32.

(** [free]: 0 allocated, 1 in a free bin, 2 being freed, 3 in a CPU cache. *)
Record block_hdr_t := mkBlk {
  addr : Z;
  size : Z;
  free : Z;
}.

Record heap := mkHeap {
  blocks : list block_hdr_t;
  g_free_bins : list (list Z);
  g_brk : Z;
  g_kmalloc_total : Z;
  g_kfree_total : Z;
  g_small_cache : nat -> nat -> list Z * Z; (* CPU, class: stack and count *)
}.

Definition set_blocks (bs : list block_hdr_t) (h : heap) : heap :=
  mkHeap bs (g_free_bins h) (g_brk h) (g_kmalloc_total h) (g_kfree_total h) (g_small_cache h).
Definition set_bins (bn : list (list Z)) (h : heap) : heap :=
  mkHeap (blocks h) bn (g_brk h) (g_kmalloc_total h) (g_kfree_total h) (g_small_cache h).
Definition set_brk (v : Z) (h : heap) : heap :=
  mkHeap (blocks h) (g_free_bins h) v (g_kmalloc_total h) (g_kfree_total h) (g_small_cache h).
Definition add_malloc (v : Z) (h : heap) : heap :=
  mkHeap (blocks h) (g_free_bins h) (g_brk h) (u64 (g_kmalloc_total h + v)) (g_kfree_total h)
    (g_small_cache h).
Definition add_free (v : Z) (h : heap) : heap :=
  mkHeap (blocks h) (g_free_bins h) (g_brk h) (g_kmalloc_total h) (u64 (g_kfree_total h + v))
    (g_small_cache h).
Definition set_cache (cpu cls : nat) (v : list Z * Z) (h : heap) : heap :=
  mkHeap (blocks h) (g_free_bins h) (g_brk h) (g_kmalloc_total h) (g_kfree_total h)
    (fun c k => if (c =? cpu)%nat && (k =? cls)%nat then v else g_small_cache h c k).

Definition heap0 : heap :=
  mkHeap [] (replicate 32 []) HEAP_START 0 0 (fun _ _ => ([], 0)).

(** [while (units > 1 && bin + 1 < HEAP_BIN_COUNT)]; the bound is its fuel. *)
Fixpoint bin_loop (fuel : nat) (units : Z) (bin : nat) : nat :=
  match fuel with
  | O => bin
  | S f => if 1 <? units then bin_loop f (Z.shiftr (units + 1) 1) (S bin) else bin
  end.

Definition bin_for_size (sz : Z) : nat := bin_loop 31 (Z.shiftr (u64 (sz + 15)) 4) 0.

Definition free_remove (b : block_hdr_t) (h : heap) : heap :=
  set_bins (alter (filter (fun a => a <> addr b)) (bin_for_size (size b)) (g_free_bins h)) h.

Definition free_insert (b : block_hdr_t) (h : heap) : heap :=
  set_bins (alter (cons (addr b)) (bin_for_size (size b)) (g_free_bins h)) h.

Definition index_of (a : Z) (h : heap) : option nat := find_index (fun b => addr b =? a) (blocks h).

(** [blk->size] of a member of a bin. *)
Definition size_at (h : heap) (a : Z) : Z :=
  match index_of a h with
  | Some i => size (aget (mkBlk 0 0 0) (blocks h) i)
  | None => 0
  end.

Fixpoint find_fit_bins (h : heap) (sz : Z) (bins : list (list Z)) : option Z :=
  match bins with
  | [] => None
  | bn :: rest =>
      match filter (fun a => sz <= size_at h a) bn with
      | a :: _ => Some a
      | [] => find_fit_bins h sz rest
      end
  end.

Definition find_fit (sz : Z) (h : heap) : option Z :=
  find_fit_bins h sz (drop (bin_for_size sz) (g_free_bins h)).

(** [None] when the growth fails; otherwise the address of a free block. *)
Definition heap_grow (grow_ok : Z -> bool) (min_payload : Z) (h : heap) : option (Z * heap) :=
  if HEAP_CAPACITY - HDR_SIZE <? min_payload then None else
  let need := min_payload + HDR_SIZE in
  let need := if need <? GROW_BYTES then GROW_BYTES else need in
  if U64_MAX - (PAGE_SIZE - 1) <? need then None else
  let need := Z.land (u64 (need + (PAGE_SIZE - 1))) (u64 (Z.lnot (PAGE_SIZE - 1))) in
  if (HEAP_MAX <? g_brk h) || (HEAP_MAX - g_brk h <? need) then None else
  if negb (grow_ok (need / PAGE_SIZE)) then None else
  let a := g_brk h in
  let h := set_brk (g_brk h + need) h in
  match last (blocks h) with
  | Some t =>
      if free t =? 1 then
        let t' := mkBlk (addr t) (size t + need) 1 in
        let h := free_remove t h in
        let h := set_blocks (removelast (blocks h) ++ [t']) h in
        Some (addr t, free_insert t' h)
      else
        let b := mkBlk a (need - HDR_SIZE) 1 in
        Some (a, free_insert b (set_blocks (blocks h ++ [b]) h))
  | None =>
      let b := mkBlk a (need - HDR_SIZE) 1 in
      Some (a, free_insert b (set_blocks [b] h))
  end.

Definition heap_init (grow_ok : Z -> bool) (h : heap) : heap :=
  match heap_grow grow_ok 0 h with Some (_, h') => h' | None => h end.

(** Take the free block at [a], splitting off what is not needed. *)
Definition take_block (a sz : Z) (h : heap) : option (Z * heap) :=
  i ← index_of a h;
  blk ← blocks h !! i;
  let h := free_remove blk h in
  if sz + MIN_SPLIT <=? size blk then
    let tl := mkBlk (addr blk + HDR_SIZE + sz) (size blk - sz - HDR_SIZE) 1 in
    let h := set_blocks (take i (blocks h) ++ mkBlk (addr blk) sz 0 :: tl :: drop (S i) (blocks h)) h in
    let h := free_insert tl h in
    Some (addr blk + HDR_SIZE, add_malloc sz h)
  else
    let h := set_blocks (<[i := mkBlk (addr blk) (size blk) 0]> (blocks h)) h in
    Some (addr blk + HDR_SIZE, add_malloc (size blk) h).

Definition set_state_at (a v : Z) (h : heap) : heap :=
  set_blocks (map (fun b => if addr b =? a then mkBlk (addr b) (size b) v else b) (blocks h)) h.

(** The per-CPU fast path of [kmalloc]. *)
Definition cache_pop (cpu : nat) (sz : Z) (h : heap) : option (Z * heap) :=
  let cls := Z.to_nat (sz / 16 - 1) in
  match g_small_cache h cpu cls with
  | (item :: rest, n) =>
      let h := set_cache cpu cls (rest, u8 (n - 1)) h in
      let h := set_state_at (item - HDR_SIZE) 0 h in
      Some (item, add_malloc sz h)
  | ([], _) => None
  end.

(** [None] is [NULL]. *)
Definition kmalloc (grow_ok : Z -> bool) (cpu : nat) (sz : Z) (h : heap) : option Z * heap :=
  if sz =? 0 then (None, h) else
  if (HEAP_CAPACITY <? sz) || (U64_MAX - 15 <? sz) then (None, h) else
  let sz := Z.land (u64 (sz + 15)) (u64 (Z.lnot 15)) in
  match (if sz <=? SMALL_CLASS_COUNT * 16 then cache_pop cpu sz h else None) with
  | Some (p, h') => (Some p, h')
  | None =>
      match find_fit sz h with
      | Some a => match take_block a sz h with Some (p, h') => (Some p, h') | None => (None, h) end
      | None =>
          match heap_grow grow_ok sz h with
          | None => (None, h)
          | Some (a, h1) =>
              match take_block a sz h1 with Some (p, h') => (Some p, h') | None => (None, h1) end
          end
      end
  end.

(** Merge block [i] with a free successor, then with a free predecessor, and
    put the result into its bin. *)
Definition coalesce_next (i : nat) (b : block_hdr_t) (h : heap) : block_hdr_t * heap :=
  match blocks h !! S i with
  | Some nx =>
      if free nx =? 1 then
        let h := free_remove nx h in
        let b' := mkBlk (addr b) (size b + (HDR_SIZE + size nx)) (free b) in
        (b', set_blocks (take i (blocks h) ++ b' :: drop (S (S i)) (blocks h)) h)
      else (b, h)
  | None => (b, h)
  end.

Definition coalesce_prev (i : nat) (b : block_hdr_t) (h : heap) : heap :=
  match i with
  | S j =>
      match blocks h !! j with
      | Some pv =>
          if free pv =? 1 then
            let h := free_remove pv h in
            let b' := mkBlk (addr pv) (size pv + (HDR_SIZE + size b)) 1 in
            free_insert b' (set_blocks (take j (blocks h) ++ b' :: drop (S i) (blocks h)) h)
          else
            let b' := mkBlk (addr b) (size b) 1 in
            free_insert b' (set_blocks (<[i := b']> (blocks h)) h)
      | None => h
      end
  | O =>
      let b' := mkBlk (addr b) (size b) 1 in
      free_insert b' (set_blocks (<[i := b']> (blocks h)) h)
  end.

(** Freeing a pointer that is not a block is undefined ([None]). *)
Definition kfree (cpu : nat) (ptr : Z) (h : heap) : option heap :=
  if ptr =? 0 then Some h else
  i ← index_of (ptr - HDR_SIZE) h;
  blk ← blocks h !! i;
  if negb (free blk =? 0) then Some h else
  let cls := Z.to_nat (size blk / 16 - 1) in
  let small := ztrue (size blk) && (size blk <=? SMALL_CLASS_COUNT * 16) &&
               negb (ztrue (Z.land (size blk) 15)) in
  let '(items, n) := g_small_cache h cpu cls in
  if small && (n <? SMALL_CACHE_LIMIT) then
    let h := set_cache cpu cls (ptr :: items, u8 (n + 1)) h in
    let h := set_state_at (addr blk) 3 h in
    Some (add_free (size blk) h)
  else
    let h := set_state_at (addr blk) 2 h in
    let h := add_free (size blk) h in
    let '(b, h) := coalesce_next i (mkBlk (addr blk) (size blk) 2) h in
    Some (coalesce_prev i b h).

(** The caller's [memset] of the [nmemb * size] bytes is not part of the heap. *)
Definition kcalloc (grow_ok : Z -> bool) (cpu : nat) (nmemb sz : Z) (h : heap) : option Z * heap :=
  if ztrue sz && (U64_MAX / sz <? nmemb) then (None, h) else
  kmalloc grow_ok cpu (u64 (nmemb * sz)) h.

(** The result pointer with the heap; [inl tt] is an invalid pointer. *)
Definition krealloc (grow_ok : Z -> bool) (cpu : nat) (ptr new_size : Z) (h : heap) :
    unit + (option Z * heap) :=
  if ptr =? 0 then inr (kmalloc grow_ok cpu new_size h) else
  if new_size =? 0 then
    match kfree cpu ptr h with Some h' => inr (None, h') | None => inl tt end
  else
  match index_of (ptr - HDR_SIZE) h with
  | None => inl tt
  | Some _ =>
      if (HEAP_CAPACITY <? new_size) || (U64_MAX - 15 <? new_size) then inr (None, h) else
      let aligned := Z.land (u64 (new_size + 15)) (u64 (Z.lnot 15)) in
      if aligned <=? size_at h (ptr - HDR_SIZE) then inr (Some ptr, h) else
      let '(np, h1) := kmalloc grow_ok cpu new_size h in
      match np with
      | None => inr (None, h1)
      | Some p => match kfree cpu ptr h1 with Some h2 => inr (Some p, h2) | None => inl tt end
      end
  end.

Definition heap_alloc_delta (h : heap) : Z := s64 (g_kmalloc_total h - g_kfree_total h).

(** The payloads [heap_walk_used] reports, in order. *)
Definition heap_walk_used (h : heap) : list (Z * Z) :=
  map (fun b => (addr b + HDR_SIZE, size b)) (filter (fun b => free b = 0) (blocks h)).

(** Blocks, used and free bytes as [heap_stats] counts them. *)
Definition heap_stats (h : heap) : Z * Z * Z :=
  foldl (fun '(n, used, fr) b =>
    (n + 1, if ztrue (free b) then used else u64 (used + size b),
     if ztrue (free b) then u64 (fr + size b) else fr)) (0, 0, 0) (blocks h).

(** ** Invariant *)

(** The blocks tile an address range without gaps; payloads are multiples of 16. *)
Fixpoint tiled (start : Z) (bs : list block_hdr_t) (stop : Z) : Prop :=
  match bs with
  | [] => start = stop
  | b :: bs' =>
      addr b = start /\ 0 < size b /\ size b `mod` 16 = 0 /\ tiled (start + HDR_SIZE + size b) bs' stop
  end.

(** No two neighbours are both in a free bin. *)
Fixpoint merged (bs : list block_hdr_t) : Prop :=
  match bs with
  | b1 :: bs' =>
      match bs' with
      | b2 :: _ => ~ (free b1 = 1 /\ free b2 = 1)
      | [] => True
      end /\ merged bs'
  | [] => True
  end.

Definition bin_of (b : block_hdr_t) : nat := bin_for_size (size b).

Definition bin_at (bins : list (list Z)) (k : nat) : list Z := aget [] bins k.

(** The bins hold exactly the free blocks, each once and in the bin of its size. *)
Definition bins_ok (bs : list block_hdr_t) (bins : list (list Z)) : Prop :=
  length bins = 32%nat /\
  (forall k, NoDup (bin_at bins k)) /\
  (forall k a, a ∈ bin_at bins k <-> exists b, b ∈ bs /\ addr b = a /\ free b = 1 /\ bin_of b = k).

(** A block is in the cache of a CPU. *)
Definition cached (h : heap) (cpu cls : nat) (p : Z) : Prop := p ∈ fst (g_small_cache h cpu cls).

Record caches_ok (h : heap) : Prop := mkCachesOk {
  co_sound : forall cpu cls p, cached h cpu cls p ->
    exists b, b ∈ blocks h /\ p = addr b + HDR_SIZE /\ free b = 3 /\ size b = 16 * (Z.of_nat cls + 1);
  co_complete : forall b, b ∈ blocks h -> free b = 3 ->
    exists cpu cls, cached h cpu cls (addr b + HDR_SIZE);
  co_once : forall cpu cls cpu' cls' p,
    cached h cpu cls p -> cached h cpu' cls' p -> cpu = cpu' /\ cls = cls';
  co_nodup : forall cpu cls, NoDup (fst (g_small_cache h cpu cls));
  co_count : forall cpu cls, snd (g_small_cache h cpu cls) = Z.of_nat (length (fst (g_small_cache h cpu cls))) /\
    snd (g_small_cache h cpu cls) <= SMALL_CACHE_LIMIT;
}.

Record heap_ok (h : heap) : Prop := mkHeapOk {
  ok_tiled : tiled HEAP_START (blocks h) (g_brk h);
  ok_brk : HEAP_START <= g_brk h <= HEAP_MAX /\ (g_brk h - HEAP_START) `mod` PAGE_SIZE = 0;
  ok_states : forall b, b ∈ blocks h -> free b = 0 \/ free b = 1 \/ free b = 3;
  ok_merged : merged (blocks h);
  ok_bins : bins_ok (blocks h) (g_free_bins h);
  ok_caches : caches_ok h;
}.

(** The allocated blocks. *)
Definition live (h : heap) : list block_hdr_t := filter (fun b => free b = 0) (blocks h).

(** ** Tiling *)

Lemma tiled_app s bs1 bs2 e :
  tiled s (bs1 ++ bs2) e <-> exists m, tiled s bs1 m /\ tiled m bs2 e.
Proof.
  revert s. induction bs1 as [|b bs1 IH]; intros s; simpl.
  - split; [intros H; by exists s|]. by intros (m & -> & H).
  - rewrite IH. split.
    + intros (Ha & Hs & Hm & m & H1 & H2). exists m. done.
    + intros (m & (Ha & Hs & Hm & H1) & H2). split_and!; try done. by exists m.
Qed.

Lemma tiled_le s bs e : tiled s bs e -> s <= e.
Proof.
  revert s. induction bs as [|b bs IH]; intros s; simpl; [lia|].
  intros (_ & Hs & _ & H). apply IH in H. unfold HDR_SIZE in *. lia.
Qed.

Lemma tiled_elem s bs e b :
  tiled s bs e -> b ∈ bs ->
  s <= addr b /\ addr b + HDR_SIZE + size b <= e /\ 0 < size b /\ size b `mod` 16 = 0 /\
  (addr b - s) `mod` 16 = 0.
Proof.
  revert s. induction bs as [|c bs IH]; intros s Ht Hin; [by apply elem_of_nil in Hin|].
  destruct Ht as (Ha & Hs & Hm & Ht). apply elem_of_cons in Hin as [->|Hin].
  - pose proof (tiled_le _ _ _ Ht). rewrite Ha, Z.sub_diag. split_and!; try done; lia.
  - destruct (IH _ Ht Hin) as (H1 & H2 & H3 & H4 & H5). unfold HDR_SIZE in *. split_and!; try done; try lia.
    replace (addr b - s) with ((addr b - (s + 48 + size c)) + (48 + size c)) by lia.
    rewrite Z.add_mod, H5 by done. rewrite (Z.add_mod 48), Hm by done. done.
Qed.

(** Distinct blocks do not overlap. *)
Lemma tiled_disjoint s bs e b1 b2 :
  tiled s bs e -> b1 ∈ bs -> b2 ∈ bs ->
  b1 = b2 \/ addr b1 + HDR_SIZE + size b1 <= addr b2 \/ addr b2 + HDR_SIZE + size b2 <= addr b1.
Proof.
  revert s. induction bs as [|c bs IH]; intros s Ht H1 H2; [by apply elem_of_nil in H1|].
  destruct Ht as (Ha & Hs & Hm & Ht).
  apply elem_of_cons in H1 as [->|H1]; apply elem_of_cons in H2 as [->|H2]; [by left| | |by apply (IH _ Ht)].
  - right; left. apply (tiled_elem _ _ _ _ Ht) in H2. lia.
  - right; right. apply (tiled_elem _ _ _ _ Ht) in H1. lia.
Qed.

Lemma tiled_inj s bs e b1 b2 :
  tiled s bs e -> b1 ∈ bs -> b2 ∈ bs -> addr b1 = addr b2 -> b1 = b2.
Proof.
  intros Ht H1 H2 Heq. destruct (tiled_disjoint _ _ _ _ _ Ht H1 H2) as [|Hd]; [done|].
  apply (tiled_elem _ _ _ _ Ht) in H1. apply (tiled_elem _ _ _ _ Ht) in H2. unfold HDR_SIZE in *. lia.
Qed.

Lemma index_of_spec h a i :
  index_of a h = Some i -> exists b, blocks h !! i = Some b /\ addr b = a.
Proof.
  unfold index_of. intros (b & Hb & Ha)%find_index_Some. exists b. split; [done|]. by apply Z.eqb_eq in Ha.
Qed.

Lemma index_of_elem h b :
  b ∈ blocks h -> exists i, index_of (addr b) h = Some i.
Proof.
  intros (j & Hj)%list_elem_of_lookup. unfold index_of.
  destruct (find_index_is_Some (fun c => addr c =? addr b) (blocks h) j b Hj) as [i Hi]; [apply Z.eqb_refl|].
  by exists i.
Qed.

Lemma split_at {A} (l : list A) i x :
  l !! i = Some x -> l = take i l ++ x :: drop (S i) l /\ length (take i l) = i.
Proof.
  intros H. split; [by rewrite take_drop_middle|]. rewrite length_take.
  apply lookup_lt_Some in H. lia.
Qed.

Lemma size_at_elem h b :
  tiled HEAP_START (blocks h) (g_brk h) -> b ∈ blocks h -> size_at h (addr b) = size b.
Proof.
  intros Ht Hb. destruct (index_of_elem h b Hb) as [i Hi]. unfold size_at. rewrite Hi.
  destruct (index_of_spec h _ _ Hi) as (c & Hc & Ha). rewrite (aget_Some _ _ _ _ Hc).
  f_equal. apply (tiled_inj _ _ _ _ _ Ht); [by eapply list_elem_of_lookup_2|done|done].
Qed.

(** ** Bins *)

Lemma bin_loop_le fuel units bin : (bin_loop fuel units bin <= bin + fuel)%nat.
Proof.
  revert units bin. induction fuel as [|f IH]; intros units bin; simpl; [lia|].
  case_raw; [|lia]. specialize (IH (Z.shiftr (units + 1) 1) (S bin)). lia.
Qed.

Lemma bin_for_size_lt sz : (bin_for_size sz < 32)%nat.
Proof. unfold bin_for_size. pose proof (bin_loop_le 31 (Z.shiftr (u64 (sz + 15)) 4) 0). lia. Qed.

Lemma bin_loop_mono fuel u v bin :
  u <= v -> (bin_loop fuel u bin <= bin_loop fuel v bin)%nat.
Proof.
  revert u v bin. induction fuel as [|f IH]; intros u v bin Huv; simpl; [lia|].
  destruct (Z.ltb_spec 1 u), (Z.ltb_spec 1 v); try lia.
  - apply IH. rewrite !Z.shiftr_div_pow2 by lia. apply Z.div_le_mono; lia.
  - clear IH. assert (H1 : forall f u b, (b <= bin_loop f u b)%nat).
    { clear. induction f as [|f IH]; intros u b; simpl; [lia|]. case_raw; [|lia].
      specialize (IH (Z.shiftr (u + 1) 1) (S b)). lia. }
    specialize (H1 f (Z.shiftr (v + 1) 1) (S bin)). lia.
Qed.

(** Bigger blocks are never in a lower bin. *)
Lemma bin_for_size_mono a b : 0 <= a <= b -> b + 15 < 2 ^ 64 -> (bin_for_size a <= bin_for_size b)%nat.
Proof.
  intros Hab Hb. apply bin_loop_mono. rewrite !u64_small by (unfold is_u64; lia).
  rewrite !Z.shiftr_div_pow2 by lia. apply Z.div_le_mono; lia.
Qed.

Lemma bin_at_alter f k bins j :
  (k < length bins)%nat -> bin_at (alter f k bins) j = if decide (k = j) then f (bin_at bins j) else bin_at bins j.
Proof.
  intros Hk. unfold bin_at, aget. destruct (decide (k = j)) as [<-|Hne].
  - rewrite list_lookup_alter_eq. destruct (lookup_lt_is_Some_2 _ _ Hk) as [x ->]. done.
  - by rewrite list_lookup_alter_ne.
Qed.

Lemma bins_remove bins b k a :
  length bins = 32%nat ->
  a ∈ bin_at (alter (filter (fun x => x <> addr b)) (bin_of b) bins) k <->
  a ∈ bin_at bins k /\ ~ (k = bin_of b /\ a = addr b).
Proof.
  intros Hl. rewrite bin_at_alter by (rewrite Hl; apply bin_for_size_lt).
  destruct (decide (bin_of b = k)) as [<-|Hne]; [|intuition congruence].
  rewrite list_elem_of_filter. intuition congruence.
Qed.

Lemma bins_insert bins b k a :
  length bins = 32%nat ->
  a ∈ bin_at (alter (cons (addr b)) (bin_of b) bins) k <->
  a ∈ bin_at bins k \/ (k = bin_of b /\ a = addr b).
Proof.
  intros Hl. rewrite bin_at_alter by (rewrite Hl; apply bin_for_size_lt).
  destruct (decide (bin_of b = k)) as [<-|Hne]; [|intuition congruence].
  rewrite elem_of_cons. intuition congruence.
Qed.

Lemma bins_remove_nodup bins b k :
  length bins = 32%nat -> NoDup (bin_at bins k) ->
  NoDup (bin_at (alter (filter (fun x => x <> addr b)) (bin_of b) bins) k).
Proof.
  intros Hl Hn. rewrite bin_at_alter by (rewrite Hl; apply bin_for_size_lt). case_decide; [|done].
  by apply NoDup_filter.
Qed.

Lemma bins_insert_nodup bins b k :
  length bins = 32%nat -> NoDup (bin_at bins k) -> addr b ∉ bin_at bins (bin_of b) ->
  NoDup (bin_at (alter (cons (addr b)) (bin_of b) bins) k).
Proof.
  intros Hl Hn Hni. rewrite bin_at_alter by (rewrite Hl; apply bin_for_size_lt). case_decide; [|done].
  subst k. by constructor.
Qed.

(** Changing a block that is in no bin, before or after, leaves the bins right. *)
Lemma bins_ok_skip pre b post bins :
  free b <> 1 -> bins_ok (pre ++ b :: post) bins <-> bins_ok (pre ++ post) bins.
Proof.
  intros Hf.
  assert (Heq : forall k a, (exists c, c ∈ pre ++ b :: post /\ addr c = a /\ free c = 1 /\ bin_of c = k) <->
                            (exists c, c ∈ pre ++ post /\ addr c = a /\ free c = 1 /\ bin_of c = k)).
  { intros k a. split; intros (c & Hin & Ha & Hc & Hk); exists c; split_and!; try done;
      rewrite elem_of_app in *; rewrite ?elem_of_cons in *; [|tauto].
    destruct Hin as [?|[->|?]]; [tauto|congruence|tauto]. }
  unfold bins_ok. split; intros (Hl & Hn & Hm); split_and!; try done; intros k a; by rewrite Hm, Heq.
Qed.

(** Taking a block out of its bin. *)
Lemma bins_ok_remove pre b post bins :
  bins_ok (pre ++ b :: post) bins -> free b = 1 -> (forall c, c ∈ pre ++ post -> addr c <> addr b) ->
  bins_ok (pre ++ post) (alter (filter (fun x => x <> addr b)) (bin_of b) bins).
Proof.
  intros (Hl & Hn & Hm) Hf Hother. split_and!.
  - by rewrite length_alter.
  - intros k. by apply bins_remove_nodup.
  - intros k a. rewrite bins_remove by done. rewrite Hm. split.
    + intros ((c & Hin & Ha & Hc & Hk) & Hne). exists c. split_and!; try done.
      rewrite elem_of_app, elem_of_cons in Hin. rewrite elem_of_app.
      destruct Hin as [?|[->|?]]; [tauto| |tauto]. destruct Hne. done.
    + intros (c & Hin & Ha & Hc & Hk). split.
      * exists c. split_and!; try done. rewrite elem_of_app, elem_of_cons. rewrite elem_of_app in Hin. tauto.
      * intros [_ Heq]. apply (Hother c Hin). congruence.
Qed.

(** Putting a block into its bin. *)
Lemma bins_ok_insert pre b post bins :
  bins_ok (pre ++ post) bins -> free b = 1 -> (forall c, c ∈ pre ++ post -> addr c <> addr b) ->
  bins_ok (pre ++ b :: post) (alter (cons (addr b)) (bin_of b) bins).
Proof.
  intros (Hl & Hn & Hm) Hf Hother. split_and!.
  - by rewrite length_alter.
  - intros k. apply bins_insert_nodup; [done..|]. intros Hin. apply Hm in Hin as (c & Hin & Ha & _).
    by apply (Hother c).
  - intros k a. rewrite bins_insert by done. rewrite Hm. split.
    + intros [(c & Hin & Ha & Hc & Hk)|[-> ->]].
      * exists c. split_and!; try done. rewrite elem_of_app, elem_of_cons. rewrite elem_of_app in Hin. tauto.
      * exists b. split_and!; try done. rewrite elem_of_app, elem_of_cons. tauto.
    + intros (c & Hin & Ha & Hc & Hk). rewrite elem_of_app, elem_of_cons in Hin.
      destruct Hin as [?|[->|?]]; [left|by right|left]; exists c; rewrite elem_of_app; tauto.
Qed.

Lemma tiled_others s pre b post e :
  tiled s (pre ++ b :: post) e -> forall c, c ∈ pre ++ post -> addr c <> addr b.
Proof.
  intros (m & H1 & H2)%tiled_app c Hin. destruct H2 as (Ha & Hs & _ & H2).
  unfold HDR_SIZE in *. apply elem_of_app in Hin as [Hin|Hin].
  - apply (tiled_elem _ _ _ _ H1) in Hin. unfold HDR_SIZE in *. lia.
  - apply (tiled_elem _ _ _ _ H2) in Hin. lia.
Qed.

(** ** Neighbours *)

Definition apart (o1 o2 : option block_hdr_t) : Prop :=
  match o1, o2 with
  | Some b1, Some b2 => ~ (free b1 = 1 /\ free b2 = 1)
  | _, _ => True
  end.

Lemma merged_app l1 l2 : merged (l1 ++ l2) <-> merged l1 /\ merged l2 /\ apart (last l1) (head l2).
Proof.
  induction l1 as [|b l1 IH]; [simpl; tauto|]. destruct l1 as [|c l1].
  - simpl. destruct l2; simpl; tauto.
  - change (last (b :: c :: l1)) with (last (c :: l1)). cbn [app merged] in *. tauto.
Qed.

Lemma merged_cons b l : merged (b :: l) <-> merged l /\ apart (Some b) (head l).
Proof. simpl. destruct l; simpl; tauto. Qed.

Lemma merged_middle l1 b l2 :
  merged (l1 ++ b :: l2) <-> merged l1 /\ merged l2 /\ apart (last l1) (Some b) /\ apart (Some b) (head l2).
Proof. rewrite merged_app, merged_cons. simpl. tauto. Qed.

Lemma apart_not_free_l b o : free b <> 1 -> apart (Some b) o.
Proof. destruct o; simpl; tauto. Qed.

Lemma apart_not_free_r b o : free b <> 1 -> apart o (Some b).
Proof. destruct o; simpl; tauto. Qed.

Lemma live_app (l1 l2 : list block_hdr_t) :
  filter (fun b => free b = 0) (l1 ++ l2) = filter (fun b => free b = 0) l1 ++ filter (fun b => free b = 0) l2.
Proof. apply filter_app. Qed.

Lemma live_cons_no b l :
  free b <> 0 -> filter (fun b => free b = 0) (b :: l) = filter (fun b => free b = 0) l.
Proof. intros. rewrite filter_cons. by rewrite decide_False. Qed.

Lemma live_cons_yes b l :
  free b = 0 -> filter (fun b => free b = 0) (b :: l) = b :: filter (fun b => free b = 0) l.
Proof. intros. rewrite filter_cons. by rewrite decide_True. Qed.

(** Caches see only the cached blocks. *)
Lemma caches_ok_same h h' :
  caches_ok h -> g_small_cache h' = g_small_cache h ->
  (forall b, free b = 3 -> b ∈ blocks h' <-> b ∈ blocks h) -> caches_ok h'.
Proof.
  intros [Hs Hc Ho Hn Hk] Hsc Hb. constructor; unfold cached in *; rewrite ?Hsc; try done.
  - intros cpu cls p Hp. destruct (Hs cpu cls p Hp) as (b & Hin & He & Hf & Hz).
    exists b. split_and!; try done. by apply Hb.
  - intros b Hin Hf. apply (Hc b); [by apply Hb|done].
Qed.

(** ** Taking a free block *)

Lemma tiled_middle s pre b post e :
  tiled s (pre ++ b :: post) e <->
  exists m, tiled s pre m /\ addr b = m /\ 0 < size b /\ size b `mod` 16 = 0 /\
            tiled (m + HDR_SIZE + size b) post e.
Proof. rewrite tiled_app. done. Qed.

Lemma take_block_ok h b sz :
  heap_ok h -> b ∈ blocks h -> free b = 1 -> 0 < sz -> sz `mod` 16 = 0 -> sz <= size b ->
  exists h' nb,
    take_block (addr b) sz h = Some (addr b + HDR_SIZE, h') /\ heap_ok h' /\
    addr nb = addr b /\ free nb = 0 /\ sz <= size nb /\ nb ∈ blocks h' /\ live h' ≡ₚ nb :: live h.
Proof.
  intros [Ht Hbrk Hst Hmg Hbin Hca] Hin Hf Hsz Hsz16 Hle.
  destruct (index_of_elem h b Hin) as [i Hi]. destruct (index_of_spec h _ _ Hi) as (b0 & Hb0 & Ha0).
  assert (b0 = b) as -> by (apply (tiled_inj _ _ _ _ _ Ht); [by eapply list_elem_of_lookup_2|done|done]).
  destruct (split_at _ _ _ Hb0) as [Hsplit Hli]. remember (take i (blocks h)) as pre eqn:Epre.
  remember (drop (S i) (blocks h)) as post eqn:Epost.
  unfold take_block. rewrite Hi. cbn [mbind option_bind]. rewrite Hb0. cbn [mbind option_bind].
  rewrite Hsplit in Ht, Hst, Hmg, Hbin.
  pose proof (tiled_others _ _ _ _ _ Ht) as Hoth.
  pose proof (bins_ok_remove _ _ _ _ Hbin Hf Hoth) as Hbin1.
  apply tiled_middle in Ht as (m & Ht1 & Hm & Hbs & Hb16 & Ht2).
  apply merged_middle in Hmg as (Hmg1 & Hmg2 & Hap1 & Hap2).
  assert (Hlive : live h = filter (fun b => free b = 0) pre ++ filter (fun b => free b = 0) post).
  { unfold live. rewrite Hsplit, live_app, live_cons_no by lia. done. }
  destruct (Z.leb_spec (sz + MIN_SPLIT) (size b)) as [Hsp|Hsp].
  - pose (nb := mkBlk (addr b) sz 0).
    pose (tl := mkBlk (addr b + HDR_SIZE + sz) (size b - sz - HDR_SIZE) 1).
    eexists _, nb. split; [reflexivity|].
    cbn [blocks set_blocks free_remove set_bins]. rewrite <-Epre, <-Epost. fold nb tl.
    assert (Htl : tiled HEAP_START (pre ++ nb :: tl :: post) (g_brk h)).
    { apply tiled_middle. exists m. unfold nb, tl, MIN_SPLIT, HDR_SIZE in *. simpl.
      split_and!; try done; try lia.
      - rewrite Zminus_mod, (Zminus_mod (size b)), Hb16, Hsz16 by done. done.
      - unfold HDR_SIZE. by replace (m + 48 + sz + 48 + (size b - sz - 48)) with (m + 48 + size b) by lia. }
    assert (Hbins : bins_ok (pre ++ nb :: tl :: post)
      (alter (cons (addr tl)) (bin_of tl) (alter (filter (fun x => x <> addr b)) (bin_of b) (g_free_bins h)))).
    { replace (pre ++ nb :: tl :: post) with ((pre ++ [nb]) ++ tl :: post) in * by by rewrite <-app_assoc.
      apply bins_ok_insert; [|done|by apply (tiled_others _ _ _ _ _ Htl)].
      rewrite <-app_assoc. by apply bins_ok_skip. }
    split_and!; try done.
    + constructor; simpl; try done.
      * intros c Hc. rewrite elem_of_app, !elem_of_cons in Hc.
        destruct Hc as [Hc|[->|[->|Hc]]]; [apply Hst|by left|by right; left|apply Hst];
          rewrite elem_of_app, elem_of_cons; tauto.
      * apply merged_middle. split_and!; try done.
        -- apply merged_cons. split; [done|]. destruct post; simpl in *; tauto.
        -- by apply apart_not_free_r.
        -- by apply apart_not_free_l.
      * eapply (caches_ok_same h); [done|done|]. intros x Hx. simpl. rewrite Hsplit.
        rewrite !elem_of_app, !elem_of_cons.
        split; [intros [?|[->|[->|?]]]|intros [?|[->|?]]]; try tauto; simpl in Hx; lia.
    + simpl. rewrite elem_of_app, elem_of_cons. tauto.
    + unfold live at 1. simpl. rewrite Hlive, live_app, live_cons_yes, live_cons_no by done.
      by rewrite Permutation_middle.
  - pose (nb := mkBlk (addr b) (size b) 0). eexists _, nb. split; [reflexivity|].
    cbn [blocks set_blocks free_remove set_bins]. fold nb.
    assert (Hbl : <[i := nb]> (blocks h) = pre ++ nb :: post).
    { rewrite Hsplit. rewrite <-Hli at 1. rewrite insert_app_r_alt, Nat.sub_diag by lia. done. }
    rewrite Hbl.
    split_and!; try done.
    + constructor; simpl; try done.
      * apply tiled_middle. by exists m.
      * intros c Hc. rewrite elem_of_app, elem_of_cons in Hc.
        destruct Hc as [Hc|[->|Hc]]; [apply Hst|by left|apply Hst]; rewrite elem_of_app, elem_of_cons; tauto.
      * apply merged_middle. split_and!; try done; [by apply apart_not_free_r|by apply apart_not_free_l].
      * by apply bins_ok_skip.
      * eapply (caches_ok_same h); [done|done|]. intros x Hx. simpl. rewrite Hsplit.
        rewrite !elem_of_app, !elem_of_cons. split; (intros [?|[->|?]]; try tauto; simpl in Hx; lia).
    + simpl. rewrite elem_of_app, elem_of_cons. tauto.
    + unfold live at 1. simpl. rewrite Hlive, live_app, live_cons_yes by done. by rewrite Permutation_middle.
Qed.

(** ** Growing *)

(** The number of bytes a growth adds. *)
Definition grow_need (min_payload : Z) : Z :=
  let need := min_payload + HDR_SIZE in
  let need := if need <? GROW_BYTES then GROW_BYTES else need in
  Z.land (u64 (need + (PAGE_SIZE - 1))) (u64 (Z.lnot (PAGE_SIZE - 1))).

Lemma grow_need_spec m :
  0 <= m <= HEAP_CAPACITY ->
  m + HDR_SIZE <= grow_need m /\ grow_need m `mod` PAGE_SIZE = 0 /\ GROW_BYTES <= grow_need m.
Proof.
  intros Hm. unfold grow_need. change (PAGE_SIZE - 1) with (2 ^ 12 - 1).
  rewrite align_down by (auto with kyro || lia). cbv zeta. unfold HEAP_CAPACITY, HEAP_MAX, HEAP_START in Hm.
  remember (if m + HDR_SIZE <? GROW_BYTES then GROW_BYTES else m + HDR_SIZE) as n eqn:En.
  assert (Hn : m + HDR_SIZE <= n /\ GROW_BYTES <= n /\ n <= 2 ^ 50).
  { rewrite En. unfold HDR_SIZE, GROW_BYTES, PAGE_SIZE in *. case_if; lia. }
  unfold GROW_BYTES, PAGE_SIZE in *. change (2 ^ 12) with 4096 in *.
  rewrite u64_small by (unfold is_u64; lia).
  pose proof (Z.mod_pos_bound (n + (4096 - 1)) 4096 ltac:(lia)).
  split_and!; [lia| |lia].
  pose proof (Z.div_mod (n + (4096 - 1)) 4096 ltac:(lia)).
  symmetry. apply (Z.mod_unique _ _ ((n + (4096 - 1)) / 4096)); lia.
Qed.

Lemma mod16_of_page z : z `mod` PAGE_SIZE = 0 -> z `mod` 16 = 0.
Proof. unfold PAGE_SIZE. intros. pose proof (Z.div_mod z 4096). pose proof (Z.div_mod z 16).
  pose proof (Z.mod_pos_bound z 16). lia. Qed.

Lemma heap_grow_ok grow_ok m h a h' :
  heap_ok h -> 0 <= m <= HEAP_CAPACITY -> heap_grow grow_ok m h = Some (a, h') ->
  heap_ok h' /\ live h' = live h /\
  exists b, b ∈ blocks h' /\ addr b = a /\ free b = 1 /\ m <= size b.
Proof.
  intros [Ht Hbrk Hst Hmg Hbin Hca] Hm. unfold heap_grow. case_raw; [done|]. cbv zeta.
  case_raw; [done|]. fold (grow_need m).
  destruct (grow_need_spec m Hm) as (Hn1 & Hn2 & Hn3). remember (grow_need m) as need eqn:En.
  assert (Hpos : 0 < need) by (unfold GROW_BYTES, PAGE_SIZE in *; lia).
  case_raw; [done|]. case_raw; [done|]. dest_bool. destruct Hbrk as [Hbrk Hpg].
  assert (Hbrk' : (HEAP_START <= g_brk h + need <= HEAP_MAX) /\ (g_brk h + need - HEAP_START) `mod` PAGE_SIZE = 0).
  { split; [lia|]. replace (g_brk h + need - HEAP_START) with (g_brk h - HEAP_START + need) by lia.
    by rewrite Z.add_mod, Hpg, Hn2. }
  pose proof (mod16_of_page _ Hn2) as Hn16.
  cbn [blocks set_brk]. pose (nb := mkBlk (g_brk h) (need - HDR_SIZE) 1).
  assert (Hnew : apart (last (blocks h)) (Some nb) ->
    heap_ok (free_insert nb (set_blocks (blocks h ++ [nb]) (set_brk (g_brk h + need) h))) /\
    live (free_insert nb (set_blocks (blocks h ++ [nb]) (set_brk (g_brk h + need) h))) = live h).
  { intros Hap.
    assert (Htl : tiled HEAP_START (blocks h ++ [nb]) (g_brk h + need)).
    { apply tiled_app. exists (g_brk h). split; [done|]. unfold nb. cbn [tiled addr size].
      unfold HDR_SIZE, GROW_BYTES, PAGE_SIZE in *. split_and!; try lia. rewrite Zminus_mod, Hn16. done. }
    split.
    - constructor; simpl; try done.
      + intros c Hc. rewrite elem_of_app, list_elem_of_singleton in Hc. destruct Hc as [Hc| ->]; [by apply Hst|].
        right; by left.
      + apply merged_app. split_and!; done.
      + apply bins_ok_insert; [by rewrite app_nil_r|done|by apply (tiled_others _ _ _ _ _ Htl)].
      + eapply (caches_ok_same h); [done|done|]. intros x Hx. simpl.
        rewrite elem_of_app, list_elem_of_singleton. split; [|tauto].
        intros [?| ->]; [done|]. simpl in Hx. lia.
    - unfold live. simpl. rewrite live_app, live_cons_no by done. by rewrite app_nil_r. }
  assert (Hsz : m <= size nb) by (unfold nb; simpl; lia).
  destruct (last (blocks h)) as [t|] eqn:Hlast.
  - apply last_Some in Hlast as (pre & Hpre). destruct (Z.eqb_spec (free t) 1) as [Hf|Hf].
    + intros [= <- <-]. pose (t' := mkBlk (addr t) (size t + need) 1). fold t'.
      cbn [blocks free_remove set_bins set_brk]. rewrite Hpre, removelast_last.
      rewrite Hpre in Ht, Hst, Hmg, Hbin. pose proof (tiled_others _ _ _ _ _ Ht) as Hoth.
      pose proof (bins_ok_remove _ _ _ _ Hbin Hf Hoth) as Hbin1.
      apply tiled_middle in Ht as (e & Ht1 & He & Hts & Ht16 & Ht2). simpl in Ht2.
      apply merged_middle in Hmg as (Hmg1 & _ & Hap1 & _).
      assert (Htl : tiled HEAP_START (pre ++ [t']) (g_brk h + need)).
      { apply tiled_middle. exists e. unfold t', HDR_SIZE in *. simpl. unfold HDR_SIZE. split_and!; try done; try lia.
        by rewrite Z.add_mod, Ht16, Hn16. }
      split_and!.
      * constructor; simpl; try done.
        -- intros c Hc. rewrite elem_of_app, list_elem_of_singleton in Hc.
           destruct Hc as [Hc| ->]; [|right; by left]. apply Hst. rewrite elem_of_app. tauto.
        -- apply merged_middle. split_and!; try done. destruct (last pre); simpl in *; [|done]. intuition.
        -- apply bins_ok_insert; [exact Hbin1|done|by apply (tiled_others _ _ _ _ _ Htl)].
        -- eapply (caches_ok_same h); [done|done|]. intros x Hx. simpl. rewrite Hpre.
           rewrite !elem_of_app, !list_elem_of_singleton. split; (intros [?| ->]; [tauto|simpl in Hx; lia]).
      * unfold live. simpl. rewrite Hpre, !live_app, !live_cons_no by (simpl; lia). done.
      * exists t'. split_and!; try done; [simpl; rewrite elem_of_app, list_elem_of_singleton; tauto|simpl; unfold HDR_SIZE in *; lia].
    + intros [= <- <-]. fold nb. destruct Hnew as [H1 H2].
      { intros [H1 _]. by apply Hf. }
      split_and!; [done|done|]. exists nb. split_and!; try done. simpl.
      rewrite elem_of_app, list_elem_of_singleton. tauto.
  - intros [= <- <-]. fold nb. apply last_None in Hlast. rewrite Hlast in *. destruct Hnew as [H1 H2]; [done|].
    split_and!; [done|done|]. exists nb. split_and!; try done. simpl. apply list_elem_of_singleton. done.
Qed.

(** ** Searching *)

Lemma find_fit_bins_Some h sz bins a :
  find_fit_bins h sz bins = Some a -> exists k bn, bins !! k = Some bn /\ a ∈ bn /\ sz <= size_at h a.
Proof.
  induction bins as [|bn bins IH]; simpl; [done|].
  destruct (filter _ bn) as [|x l] eqn:Hf.
  - intros (k & b & Hk & Hin & Hs)%IH. by exists (S k), b.
  - intros [= ->]. assert (Hin : a ∈ filter (fun a => sz <= size_at h a) bn) by (rewrite Hf; left).
    apply list_elem_of_filter in Hin as [Hs Hin]. by exists 0%nat, bn.
Qed.

Lemma find_fit_bins_None h sz bins k bn a :
  find_fit_bins h sz bins = None -> bins !! k = Some bn -> a ∈ bn -> size_at h a < sz.
Proof.
  revert k. induction bins as [|b bins IH]; intros k; simpl; [by rewrite lookup_nil|].
  destruct (filter _ b) as [|x l] eqn:Hf; [|done]. intros Hn Hk Hin. destruct k as [|k]; simpl in Hk; [|by apply (IH k)].
  simplify_eq. apply Z.nle_gt. intros Hle.
  assert (Hx : a ∈ filter (fun a => sz <= size_at h a) bn) by (by apply list_elem_of_filter).
  rewrite Hf in Hx. by apply elem_of_nil in Hx.
Qed.

Lemma bin_at_lookup bins k bn : bins !! k = Some bn -> bin_at bins k = bn.
Proof. apply aget_Some. Qed.

Lemma find_fit_sound h sz a :
  heap_ok h -> find_fit sz h = Some a ->
  exists b, b ∈ blocks h /\ addr b = a /\ free b = 1 /\ sz <= size b.
Proof.
  intros Hok Hf. destruct Hok as [Ht _ _ _ (Hl & _ & Hm) _].
  apply find_fit_bins_Some in Hf as (k & bn & Hk & Hin & Hs). rewrite lookup_drop in Hk.
  rewrite <-(bin_at_lookup _ _ _ Hk) in Hin. apply Hm in Hin as (b & Hb & <- & Hf1 & _).
  exists b. rewrite (size_at_elem h b Ht Hb) in Hs. done.
Qed.

(** No fitting block is overlooked: a block at least as large is in a bin at
    least as high. *)
Lemma find_fit_complete h sz b :
  heap_ok h -> 0 <= sz -> find_fit sz h = None -> b ∈ blocks h -> free b = 1 -> size b < sz.
Proof.
  intros Hok Hsz Hf Hb Hfr. destruct Hok as [Ht Hbrk _ _ (Hl & _ & Hm) _].
  apply Z.nle_gt. intros Hle.
  assert (Hbin : (bin_for_size sz <= bin_of b)%nat).
  { apply bin_for_size_mono; [lia|]. pose proof (tiled_elem _ _ _ _ Ht Hb).
    unfold HEAP_MAX, HEAP_START, HDR_SIZE in *. lia. }
  assert (Hin : addr b ∈ bin_at (g_free_bins h) (bin_of b)) by (apply Hm; by exists b).
  pose proof (bin_for_size_lt (size b)) as Hlt.
  destruct (lookup_lt_is_Some_2 (g_free_bins h) (bin_of b)) as [bn Hbn]; [rewrite Hl; exact Hlt|].
  rewrite (bin_at_lookup _ _ _ Hbn) in Hin.
  assert (Hsz' : size_at h (addr b) < sz).
  { eapply (find_fit_bins_None h sz _ (bin_of b - bin_for_size sz) bn); [exact Hf| |exact Hin].
    rewrite lookup_drop. rewrite <-Hbn. f_equal. lia. }
  rewrite (size_at_elem h b Ht Hb) in Hsz'. lia.
Qed.

(** ** Changing the state of a block that is in no bin *)

Lemma set_state_blocks h pre b post v :
  tiled HEAP_START (blocks h) (g_brk h) -> blocks h = pre ++ b :: post ->
  blocks (set_state_at (addr b) v h) = pre ++ mkBlk (addr b) (size b) v :: post.
Proof.
  intros Ht Hb. rewrite Hb in Ht. pose proof (tiled_others _ _ _ _ _ Ht) as Hoth.
  simpl. rewrite Hb, map_app. cbn [map]. rewrite Z.eqb_refl.
  assert (Hid : forall l, (forall c, c ∈ l -> c ∈ pre ++ post) ->
    map (fun b0 => if addr b0 =? addr b then mkBlk (addr b0) (size b0) v else b0) l = l).
  { intros l Hl. rewrite <-(map_id l) at 2. apply map_ext_in. intros c Hc%list_elem_of_In.
    rewrite (proj2 (Z.eqb_neq _ _)); [done|]. by apply Hoth, Hl. }
  rewrite !Hid; [done|intros c Hc; apply elem_of_app; tauto..].
Qed.

Definition core_ok (bs : list block_hdr_t) (bins : list (list Z)) (brk : Z) : Prop :=
  tiled HEAP_START bs brk /\ (forall b, b ∈ bs -> free b = 0 \/ free b = 1 \/ free b = 3) /\
  merged bs /\ bins_ok bs bins.

Lemma heap_ok_core h : heap_ok h -> core_ok (blocks h) (g_free_bins h) (g_brk h).
Proof. by intros [? _ ? ? ? _]. Qed.

Lemma core_replace pre b post v bins brk :
  core_ok (pre ++ b :: post) bins brk -> free b <> 1 -> v = 0 \/ v = 3 ->
  core_ok (pre ++ mkBlk (addr b) (size b) v :: post) bins brk.
Proof.
  intros (Ht & Hst & Hmg & Hbin) Hf Hv. split_and!.
  - apply tiled_middle in Ht as (m & Ht). apply tiled_middle. by exists m.
  - intros c Hc. rewrite elem_of_app, elem_of_cons in Hc.
    destruct Hc as [Hc|[->|Hc]]; [apply Hst|simpl; tauto|apply Hst]; rewrite elem_of_app, elem_of_cons; tauto.
  - apply merged_middle in Hmg as (H1 & H2 & _ & _). apply merged_middle.
    split_and!; try done; [apply apart_not_free_r|apply apart_not_free_l]; simpl; lia.
  - apply bins_ok_skip; [simpl; lia|]. by apply (bins_ok_skip pre b post).
Qed.

Lemma tiled_NoDup s bs e : tiled s bs e -> NoDup bs.
Proof.
  revert s. induction bs as [|b bs IH]; intros s Ht; [constructor|]. destruct Ht as (Ha & Hs & _ & Ht).
  constructor; [|by eapply IH]. intros Hin. apply (tiled_elem _ _ _ _ Ht) in Hin. unfold HDR_SIZE in *. lia.
Qed.

Lemma elem_split_block h b : b ∈ blocks h -> exists pre post, blocks h = pre ++ b :: post.
Proof. intros (l1 & l2 & H)%list_elem_of_split. by exists l1, l2. Qed.

(** ** The per-CPU caches *)

(** The caches after one block changed its state and only its own payload moved
    into or out of a cache. *)
Lemma caches_change h h' pre b b' post :
  heap_ok h -> blocks h = pre ++ b :: post -> blocks h' = pre ++ b' :: post -> addr b' = addr b ->
  (forall cpu cls q, q <> addr b + HDR_SIZE -> cached h' cpu cls q <-> cached h cpu cls q) ->
  (forall cpu cls, cached h' cpu cls (addr b + HDR_SIZE) -> free b' = 3 /\ size b' = 16 * (Z.of_nat cls + 1)) ->
  (free b' = 3 -> exists cpu cls, cached h' cpu cls (addr b + HDR_SIZE)) ->
  (forall cpu cls cpu' cls', cached h' cpu cls (addr b + HDR_SIZE) -> cached h' cpu' cls' (addr b + HDR_SIZE) ->
     cpu = cpu' /\ cls = cls') ->
  (forall cpu cls, NoDup (fst (g_small_cache h' cpu cls)) /\
     snd (g_small_cache h' cpu cls) = Z.of_nat (length (fst (g_small_cache h' cpu cls))) /\
     snd (g_small_cache h' cpu cls) <= SMALL_CACHE_LIMIT) ->
  caches_ok h'.
Proof.
  intros Hok Hb Hb' Ha Hother Hin Hex Huniq Hnd. pose proof (ok_caches _ Hok) as Hca.
  assert (Hoth : forall c, c ∈ pre ++ post -> addr c <> addr b).
  { pose proof (ok_tiled _ Hok) as Ht. rewrite Hb in Ht. by apply (tiled_others _ _ _ _ _ Ht). }
  constructor.
  - intros cpu cls q Hq. destruct (Z.eq_dec q (addr b + HDR_SIZE)) as [->|Hne].
    + exists b'. destruct (Hin _ _ Hq). split_and!; try done; [|lia].
      rewrite Hb', elem_of_app, elem_of_cons. tauto.
    + apply Hother in Hq; [|done]. destruct (co_sound _ Hca cpu cls q Hq) as (c & Hcin & -> & Hcf & Hcs).
      exists c. split_and!; try done. rewrite Hb'. rewrite Hb in Hcin. rewrite elem_of_app, elem_of_cons in *.
      destruct Hcin as [?|[->|?]]; [tauto|congruence|tauto].
  - intros c Hcin Hcf. rewrite Hb' in Hcin. rewrite elem_of_app, elem_of_cons in Hcin.
    destruct Hcin as [Hc|[->|Hc]]; [|rewrite Ha; by apply Hex|].
    all: assert (Hc2 : c ∈ pre ++ post) by (rewrite elem_of_app; tauto).
    all: destruct (co_complete _ Hca c) as (cpu & cls & Hq);
      [rewrite Hb, elem_of_app, elem_of_cons; tauto|done|].
    all: exists cpu, cls; apply Hother; [pose proof (Hoth c Hc2); lia|done].
  - intros cpu cls cpu' cls' q H1 H2. destruct (Z.eq_dec q (addr b + HDR_SIZE)) as [->|Hne]; [by apply Huniq|].
    apply Hother in H1; [|done]. apply Hother in H2; [|done]. by apply (co_once _ Hca _ _ _ _ q).
  - intros cpu cls. apply Hnd.
  - intros cpu cls. apply Hnd.
Qed.

(** A heap in which one block changed between allocated and cached. *)
Lemma heap_ok_change h h' pre b v post :
  heap_ok h -> blocks h = pre ++ b :: post -> free b <> 1 -> v = 0 \/ v = 3 ->
  blocks h' = pre ++ mkBlk (addr b) (size b) v :: post ->
  g_free_bins h' = g_free_bins h -> g_brk h' = g_brk h -> caches_ok h' -> heap_ok h'.
Proof.
  intros Hok Hb Hf Hv Hb' Hbins Hbrk Hca.
  destruct (core_replace pre b post v (g_free_bins h) (g_brk h)) as (Ht & Hst & Hmg & Hbin);
    [rewrite <-Hb; by apply heap_ok_core|done|done|].
  constructor; rewrite ?Hb', ?Hbins, ?Hbrk; try done. apply (ok_brk _ Hok).
Qed.

Lemma cached_set_cache h a v cpu cls l n cpu' cls' q :
  cached (set_state_at a v (set_cache cpu cls (l, n) h)) cpu' cls' q <->
  (if (cpu' =? cpu)%nat && (cls' =? cls)%nat then q ∈ l else cached h cpu' cls' q).
Proof. unfold cached. simpl. by case_raw. Qed.

Lemma cache_pop_ok cpu sz h p h' :
  heap_ok h -> 0 < sz <= 256 -> sz `mod` 16 = 0 -> cache_pop cpu sz h = Some (p, h') ->
  heap_ok h' /\ exists b, p = addr b + HDR_SIZE /\ size b = sz /\ free b = 0 /\ b ∈ blocks h' /\
    live h' ≡ₚ b :: live h.
Proof.
  intros Hok Hsz Hsz16. unfold cache_pop. cbv zeta.
  remember (Z.to_nat (sz / 16 - 1)) as cls eqn:Ecls.
  destruct (g_small_cache h cpu cls) as [[|item rest] n] eqn:Hc; [done|]. intros [= <- <-].
  pose proof (ok_caches _ Hok) as Hca.
  assert (Hitem : cached h cpu cls item) by (unfold cached; rewrite Hc; left).
  destruct (co_sound _ Hca cpu cls item Hitem) as (b & Hb & -> & Hf & Hbs).
  destruct (elem_split_block h b Hb) as (pre & post & Hsplit).
  replace (addr b + HDR_SIZE - HDR_SIZE) with (addr b) by lia.
  pose (h1 := set_state_at (addr b) 0 (set_cache cpu cls (rest, u8 (n - 1)) h)). fold h1.
  pose (nb := mkBlk (addr b) (size b) 0).
  assert (Hbl : blocks h1 = pre ++ nb :: post) by (apply set_state_blocks; [apply (ok_tiled _ Hok)|done]).
  pose proof (co_nodup _ Hca cpu cls) as Hnd. rewrite Hc in Hnd. apply NoDup_cons in Hnd as [Hni Hnd].
  pose proof (co_count _ Hca cpu cls) as [Hn Hlim]. rewrite Hc in Hn, Hlim. simpl in Hn, Hlim.
  assert (Hgone : forall cpu' cls', ~ cached h1 cpu' cls' (addr b + HDR_SIZE)).
  { intros cpu' cls' Hq. apply cached_set_cache in Hq. destruct ((cpu' =? cpu)%nat && (cls' =? cls)%nat) eqn:E; [done|].
    destruct (co_once _ Hca _ _ _ _ _ Hq Hitem) as [-> ->]. by rewrite !Nat.eqb_refl in E. }
  assert (Hca1 : caches_ok h1).
  { apply (caches_change h h1 pre b nb post); try done.
    - intros cpu' cls' q Hq. unfold h1. rewrite cached_set_cache. destruct (Nat.eqb_spec cpu' cpu) as [->|]; [|done].
      destruct (Nat.eqb_spec cls' cls) as [->|]; [|done]. unfold cached. rewrite Hc. simpl. rewrite elem_of_cons. tauto.
    - intros cpu' cls' Hq. by destruct (Hgone cpu' cls').
    - intros cpu' cls' c2 k2 Hq. by destruct (Hgone cpu' cls').
    - intros cpu' cls'. simpl. case_raw; [|split; [apply (co_nodup _ Hca)|apply (co_count _ Hca)]].
      simpl. unfold SMALL_CACHE_LIMIT in *. rewrite u8_small by (unfold is_u8; lia). split_and!; [done|lia..]. }
  split.
  { apply (heap_ok_change h _ pre b 0 post); try done; [lia|by left|].
    by apply (caches_ok_same h1). }
  exists nb. split_and!; try done.
  - unfold nb. simpl. rewrite Hbs, Ecls. pose proof (Z.div_mod sz 16 ltac:(lia)). lia.
  - simpl blocks in *. rewrite Hbl, elem_of_app, elem_of_cons. tauto.
  - unfold live. simpl blocks in *. rewrite Hbl, Hsplit, !live_app, live_cons_yes, (live_cons_no b) by (done || lia).
    by rewrite Permutation_middle.
Qed.

(** ** Allocation *)

Definition round16 (sz : Z) : Z := Z.land (u64 (sz + 15)) (u64 (Z.lnot 15)).

Lemma round16_spec sz :
  0 < sz <= HEAP_CAPACITY -> sz <= round16 sz < sz + 16 /\ round16 sz `mod` 16 = 0.
Proof.
  intros Hsz. unfold round16. change (Z.lnot 15) with (Z.lnot (2 ^ 4 - 1)). rewrite align_down by (auto with kyro || lia).
  unfold HEAP_CAPACITY, HEAP_MAX, HEAP_START in Hsz. rewrite u64_small by (unfold is_u64; lia).
  change (2 ^ 4) with 16. pose proof (Z.mod_pos_bound (sz + 15) 16 ltac:(lia)).
  pose proof (Z.div_mod (sz + 15) 16 ltac:(lia)). split; [lia|].
  symmetry. apply (Z.mod_unique _ _ ((sz + 15) / 16)); lia.
Qed.

(** A block does not overlap the allocated blocks. *)
Definition disjoint_from (b : block_hdr_t) (bs : list block_hdr_t) : Prop :=
  forall c, c ∈ bs -> addr b + HDR_SIZE + size b <= addr c \/ addr c + HDR_SIZE + size c <= addr b.

Definition alloc_post (sz : Z) (h : heap) (r : option Z * heap) : Prop :=
  let '(o, h') := r in
  heap_ok h' /\
  match o with
  | Some p =>
      exists b, p = addr b + HDR_SIZE /\ sz <= size b /\ p `mod` 16 = 0 /\
        HEAP_START <= addr b /\ p + size b <= HEAP_MAX /\
        live h' ≡ₚ b :: live h /\ disjoint_from b (live h)
  | None =>
      h' = h /\ (sz = 0 \/ HEAP_CAPACITY < sz \/ forall b, b ∈ blocks h -> free b = 1 -> size b < sz)
  end.

Lemma alloc_post_Some sz h h' b :
  heap_ok h' -> b ∈ blocks h' -> free b = 0 -> sz <= size b -> live h' ≡ₚ b :: live h ->
  alloc_post sz h (Some (addr b + HDR_SIZE), h').
Proof.
  intros Hok Hb Hf Hs Hl. split; [done|]. exists b.
  pose proof (ok_tiled _ Hok) as Ht. destruct (tiled_elem _ _ _ _ Ht Hb) as (H1 & H2 & H3 & H4 & H5).
  pose proof (ok_brk _ Hok) as [Hbrk _]. split_and!; try done; try lia.
  - replace (addr b + HDR_SIZE) with ((addr b - HEAP_START) + (HEAP_START + HDR_SIZE)) by lia.
    rewrite Z.add_mod, H5 by done. done.
  - intros c Hc.
    assert (Hnd : NoDup (b :: live h)).
    { rewrite <-Hl. apply NoDup_filter. by eapply tiled_NoDup. }
    apply NoDup_cons in Hnd as [Hnb _].
    assert (Hc' : c ∈ blocks h').
    { assert (Hc1 : c ∈ live h') by (rewrite Hl; by right). by apply list_elem_of_filter in Hc1 as [_ ?]. }
    destruct (tiled_disjoint _ _ _ _ _ Ht Hb Hc') as [->|Hd]; [done|exact Hd].
Qed.

Lemma take_post h h1 a b sz sz0 :
  heap_ok h1 -> live h1 = live h -> b ∈ blocks h1 -> addr b = a -> free b = 1 -> 0 < sz -> sz `mod` 16 = 0 ->
  sz <= size b -> sz0 <= sz ->
  alloc_post sz0 h (match take_block a sz h1 with Some (p, h') => (Some p, h') | None => (None, h1) end).
Proof.
  intros Hok Hl Hb <- Hf Hs H16 Hle H0.
  destruct (take_block_ok h1 b sz Hok Hb Hf Hs H16 Hle) as (h' & nb & -> & Hok' & Ha & Hnf & Hns & Hnb & Hlive).
  rewrite <-Ha. apply alloc_post_Some; try done; [lia|]. by rewrite Hlive, Hl.
Qed.

Lemma kmalloc_ok grow_ok cpu sz h :
  heap_ok h -> 0 <= sz < 2 ^ 64 -> alloc_post sz h (kmalloc grow_ok cpu sz h).
Proof.
  intros Hok Hsz. unfold kmalloc. destruct (Z.eqb_spec sz 0) as [->|Hnz]; [split; [done|]; by split; [|left]|].
  destruct (Z.ltb_spec HEAP_CAPACITY sz) as [Hbig|Hcap]; simpl.
  { split; [done|]. split; [done|]. by right; left. }
  rewrite (proj2 (Z.ltb_ge (U64_MAX - 15) sz)).
  2:{ unfold HEAP_CAPACITY, HEAP_MAX, HEAP_START, U64_MAX in *. lia. }
  cbv zeta. fold (round16 sz). destruct (round16_spec sz ltac:(lia)) as [Hr H16].
  remember (round16 sz) as rs eqn:Ers.
  destruct (if rs <=? SMALL_CLASS_COUNT * 16 then cache_pop cpu rs h else None) as [[p h']|] eqn:Hpop.
  { destruct (Z.leb_spec rs (SMALL_CLASS_COUNT * 16)); [|done]. unfold SMALL_CLASS_COUNT in *.
    destruct (cache_pop_ok cpu rs h p h' Hok ltac:(lia) H16 Hpop) as (Hok' & b & -> & Hbs & Hbf & Hb & Hl).
    apply alloc_post_Some; try done. lia. }
  clear Hpop. destruct (find_fit rs h) as [a|] eqn:Hfit.
  { destruct (find_fit_sound h rs a Hok Hfit) as (b & Hb & Ha & Hf & Hs).
    apply (take_post h h a b rs); try done; lia. }
  destruct (heap_grow grow_ok rs h) as [[a h1]|] eqn:Hg.
  - destruct (heap_grow_ok grow_ok rs h a h1 Hok) as (Hok1 & Hl1 & b & Hb & Ha & Hf & Hs); [|done|].
    { unfold HEAP_CAPACITY, HEAP_MAX, HEAP_START in *. pose proof (Z.div_mod rs 16 ltac:(lia)). lia. }
    apply (take_post h h1 a b rs); try done; lia.
  - split; [done|]. split; [done|]. right; right. intros b Hb Hf.
    pose proof (find_fit_complete h rs b Hok ltac:(lia) Hfit Hb Hf).
    pose proof (tiled_elem _ _ _ _ (ok_tiled _ Hok) Hb) as (_ & _ & _ & Hb16 & _).
    pose proof (Z.div_mod rs 16 ltac:(lia)). pose proof (Z.div_mod (size b) 16 ltac:(lia)). lia.
Qed.

(** ** Release *)

(** A block taken out of circulation between [pre] and [post]: everything about
    the heap but that block. *)
Record hole (pre : list block_hdr_t) (b : block_hdr_t) (post : list block_hdr_t)
    (bins : list (list Z)) (brk : Z) : Prop := mkHole {
  ho_tiled : tiled HEAP_START (pre ++ b :: post) brk;
  ho_free : free b = 2;
  ho_states : forall c, c ∈ pre ++ post -> free c = 0 \/ free c = 1 \/ free c = 3;
  ho_pre : merged pre;
  ho_post : merged post;
  ho_bins : bins_ok (pre ++ post) bins;
}.

(** Merging with a free successor. *)
Lemma coalesce_next_ok pre b post h :
  blocks h = pre ++ b :: post -> hole pre b post (g_free_bins h) (g_brk h) ->
  exists b1 post1 h1,
    coalesce_next (length pre) b h = (b1, h1) /\ blocks h1 = pre ++ b1 :: post1 /\
    hole pre b1 post1 (g_free_bins h1) (g_brk h1) /\ apart (Some (mkBlk 0 0 1)) (head post1) /\
    g_brk h1 = g_brk h /\ g_small_cache h1 = g_small_cache h /\
    (forall v, v <> 1 -> filter (fun c => free c = v) post1 = filter (fun c => free c = v) post).
Proof.
  intros Hb [Ht Hf Hst Hpre Hpost Hbin]. unfold coalesce_next. rewrite Hb.
  rewrite lookup_app_r by lia. replace (S (length pre) - length pre)%nat with 1%nat by lia.
  destruct post as [|nx post]; cbn [lookup list_lookup].
  { exists b, [], h. by split_and!. }
  destruct (Z.eqb_spec (free nx) 1) as [Hn|Hn].
  2:{ exists b, (nx :: post), h. split_and!; try done. simpl. tauto. }
  eexists _, post, _. split; [reflexivity|].
  cbn [blocks set_blocks free_remove set_bins g_free_bins g_brk g_small_cache].
  rewrite Hb, take_app_length, drop_app_ge by lia.
  replace (S (S (length pre)) - length pre)%nat with 2%nat by lia. cbn [drop].
  assert (Htn : tiled HEAP_START ((pre ++ [b]) ++ nx :: post) (g_brk h)) by by rewrite <-app_assoc.
  pose proof (tiled_others _ _ _ _ _ Htn) as Hoth.
  apply tiled_middle in Ht as (m & Ht1 & Hm & Hbs & Hb16 & Hns & Hnp & Hn16 & Ht2).
  apply merged_cons in Hpost as [Hpost Hap].
  split_and!; try done.
  - constructor; simpl; try done.
    + apply tiled_middle. exists m. unfold HDR_SIZE in *. simpl. split_and!; try done; try lia.
      * by rewrite Z.add_mod, Hb16, (Z.add_mod 48), Hn16.
      * unfold HDR_SIZE. by replace (m + 48 + (size b + (48 + size nx))) with (m + 48 + size b + 48 + size nx) by lia.
    + intros c Hc. apply Hst. rewrite elem_of_app, elem_of_cons. rewrite elem_of_app in Hc. tauto.
    + apply bins_ok_remove; [done|done|]. intros c Hc. apply Hoth.
      rewrite !elem_of_app in *. tauto.
  - destruct (head post); simpl in *; [tauto|done].
  - intros v Hv. rewrite filter_cons, decide_False; [done|]. congruence.
Qed.

(** Merging with a free predecessor and binning the result. *)
Lemma coalesce_prev_ok pre b post h :
  blocks h = pre ++ b :: post -> hole pre b post (g_free_bins h) (g_brk h) ->
  apart (Some (mkBlk 0 0 1)) (head post) ->
  let h' := coalesce_prev (length pre) b h in
  core_ok (blocks h') (g_free_bins h') (g_brk h') /\
  g_brk h' = g_brk h /\ g_small_cache h' = g_small_cache h /\
  (forall v, v <> 1 -> filter (fun c => free c = v) (blocks h') =
     filter (fun c => free c = v) pre ++ filter (fun c => free c = v) post).
Proof.
  intros Hb [Ht Hf Hst Hpre Hpost Hbin] Hap. cbv zeta.
  assert (Hplain : apart (last pre) (Some (mkBlk 0 0 1)) ->
    let b' := mkBlk (addr b) (size b) 1 in
    let h' := free_insert b' (set_blocks (<[length pre := b']> (blocks h)) h) in
    core_ok (blocks h') (g_free_bins h') (g_brk h') /\
    g_brk h' = g_brk h /\ g_small_cache h' = g_small_cache h /\
    (forall v, v <> 1 -> filter (fun c => free c = v) (blocks h') =
       filter (fun c => free c = v) pre ++ filter (fun c => free c = v) post)).
  { intros Hl. cbv zeta. pose (b' := mkBlk (addr b) (size b) 1). fold b'.
    cbn [blocks free_insert set_bins set_blocks g_free_bins g_brk g_small_cache].
    rewrite Hb, insert_app_r_alt, Nat.sub_diag by lia. cbn [insert list_insert].
    assert (Ht' : tiled HEAP_START (pre ++ b' :: post) (g_brk h))
      by (apply tiled_middle in Ht as (m & Ht); apply tiled_middle; by exists m).
    split_and!; try done.
    - split_and!; try done.
      + intros c Hc. rewrite elem_of_app, elem_of_cons in Hc.
        destruct Hc as [Hc|[->|Hc]]; [apply Hst|by right; left|apply Hst]; rewrite elem_of_app; tauto.
      + by apply merged_middle.
      + apply bins_ok_insert; [done|done|by apply (tiled_others _ _ _ _ _ Ht')].
    - intros v Hv. rewrite filter_app, filter_cons, decide_False; [done|]. simpl. congruence. }
  destruct pre as [|pv pre] using rev_ind; [by apply Hplain|]. clear IHpre.
  rewrite length_app. cbn [length]. rewrite Nat.add_1_r. unfold coalesce_prev.
  assert (Hlook : blocks h !! length pre = Some pv).
  { rewrite Hb, <-app_assoc. cbn [app]. by rewrite lookup_app_r, Nat.sub_diag by lia. }
  rewrite Hlook.
  destruct (Z.eqb_spec (free pv) 1) as [Hp|Hp].
  2:{ replace (S (length pre)) with (length (pre ++ [pv])) by (rewrite length_app; simpl; lia).
      apply Hplain. rewrite last_snoc. simpl. tauto. }
  clear Hplain. pose (fb := mkBlk (addr pv) (size pv + (HDR_SIZE + size b)) 1). fold fb.
  cbn [blocks free_insert free_remove set_bins set_blocks g_free_bins g_brk g_small_cache].
  rewrite Hb, <-app_assoc. cbn [app]. rewrite take_app_length, drop_app_ge by lia.
  replace (S (S (length pre)) - length pre)%nat with 2%nat by lia. cbn [drop].
  assert (Htp : tiled HEAP_START (pre ++ pv :: b :: post) (g_brk h)) by by rewrite <-app_assoc in Ht.
  pose proof (tiled_others _ _ _ _ _ Htp) as Hoth.
  apply tiled_middle in Htp as (m & Ht1 & Hm & Hps & Hp16 & Hba & Hbs & Hb16 & Ht2).
  apply merged_middle in Hpre as (Hpre & _ & Hapl & _).
  assert (Ht' : tiled HEAP_START (pre ++ fb :: post) (g_brk h)).
  { apply tiled_middle. exists m. unfold fb, HDR_SIZE in *. simpl. split_and!; try done; try lia.
    - by rewrite Z.add_mod, Hp16, (Z.add_mod 48), Hb16.
    - unfold HDR_SIZE. by replace (m + 48 + (size pv + (48 + size b))) with (m + 48 + size pv + 48 + size b) by lia. }
  rewrite <-app_assoc in Hbin, Hst. cbn [app] in Hbin, Hst.
  split_and!; try done.
  - split_and!; try done.
    + intros c Hc. rewrite elem_of_app, elem_of_cons in Hc.
      destruct Hc as [Hc|[->|Hc]]; [apply Hst|by right; left|apply Hst]; rewrite elem_of_app, elem_of_cons; tauto.
    + apply merged_middle. split_and!; try done; destruct (last pre); simpl in *; tauto.
    + apply bins_ok_insert; [|done|by apply (tiled_others _ _ _ _ _ Ht')].
      apply bins_ok_remove; [done|done|]. intros c Hc. apply Hoth. rewrite !elem_of_app, ?elem_of_cons in *. tauto.
  - intros v Hv. rewrite !filter_app, !filter_cons. rewrite (decide_False (P := free fb = v)) by (simpl; congruence).
    rewrite decide_False by congruence. rewrite filter_nil, app_nil_r. done.
Qed.

(** Releasing a block into the cache of a CPU. *)
Lemma cache_push_ok cpu h pre b post items n :
  heap_ok h -> blocks h = pre ++ b :: post -> free b = 0 -> size b <= 256 ->
  let cls := Z.to_nat (size b / 16 - 1) in
  g_small_cache h cpu cls = (items, n) -> n < SMALL_CACHE_LIMIT ->
  let h' := set_state_at (addr b) 3 (set_cache cpu cls (addr b + HDR_SIZE :: items, u8 (n + 1)) h) in
  heap_ok h' /\ blocks h' = pre ++ mkBlk (addr b) (size b) 3 :: post.
Proof.
  intros Hok Hsplit Hf Hsz cls Hc Hn h'. pose proof (ok_caches _ Hok) as Hca. pose proof (ok_tiled _ Hok) as Ht.
  assert (Hb : b ∈ blocks h) by (rewrite Hsplit, elem_of_app, elem_of_cons; tauto).
  destruct (tiled_elem _ _ _ _ Ht Hb) as (_ & _ & Hpos & H16 & _).
  assert (Hbl : blocks h' = pre ++ mkBlk (addr b) (size b) 3 :: post) by (apply set_state_blocks; [done|done]).
  split; [|done].
  assert (Hnot : forall cpu' cls', ~ cached h cpu' cls' (addr b + HDR_SIZE)).
  { intros cpu' cls' Hq. destruct (co_sound _ Hca _ _ _ Hq) as (c & Hcin & Heq & Hcf & _).
    assert (c = b) as -> by (apply (tiled_inj _ _ _ _ _ Ht); [done|done|lia]). lia. }
  assert (Hitem : forall cpu' cls', cached h' cpu' cls' (addr b + HDR_SIZE) <-> cpu' = cpu /\ cls' = cls).
  { intros cpu' cls'. unfold h'. rewrite cached_set_cache.
    destruct (Nat.eqb_spec cpu' cpu) as [->|]; simpl; [destruct (Nat.eqb_spec cls' cls) as [->|]; simpl|].
    - rewrite elem_of_cons. tauto.
    - split; [intros Hq; by apply Hnot in Hq|tauto].
    - split; [intros Hq; by apply Hnot in Hq|tauto]. }
  pose proof (co_count _ Hca cpu cls) as [Hcnt Hlim]. rewrite Hc in Hcnt, Hlim. simpl in Hcnt, Hlim.
  apply (heap_ok_change h h' pre b 3 post); try done; [lia|by right|].
  apply (caches_change h h' pre b (mkBlk (addr b) (size b) 3) post); try done.
  - intros cpu' cls' q Hq. unfold h'. rewrite cached_set_cache. destruct (Nat.eqb_spec cpu' cpu) as [->|]; [|done].
    destruct (Nat.eqb_spec cls' cls) as [->|]; [|done]. unfold cached. rewrite Hc. simpl. rewrite elem_of_cons. tauto.
  - intros cpu' cls' [-> ->]%Hitem. split; [done|]. simpl. unfold cls.
    pose proof (Z.div_mod (size b) 16 ltac:(lia)). lia.
  - intros _. exists cpu, cls. by apply Hitem.
  - intros c1 k1 c2 k2 [-> ->]%Hitem [-> ->]%Hitem. done.
  - intros cpu' cls'. simpl. case_raw; [|split; [apply (co_nodup _ Hca)|apply (co_count _ Hca)]].
    unfold SMALL_CACHE_LIMIT in *. simpl. rewrite u8_small by (unfold is_u8; lia). split_and!; [|lia..].
    constructor; [|pose proof (co_nodup _ Hca cpu cls) as Hnd; by rewrite Hc in Hnd].
    intros Hq. apply (Hnot cpu cls). unfold cached. by rewrite Hc.
Qed.

Lemma kfree_live cpu h b :
  heap_ok h -> b ∈ blocks h -> free b = 0 ->
  exists h', kfree cpu (addr b + HDR_SIZE) h = Some h' /\ heap_ok h' /\ live h ≡ₚ b :: live h'.
Proof.
  intros Hok Hin Hf. pose proof (ok_tiled _ Hok) as Ht.
  destruct (index_of_elem h b Hin) as [i Hi]. destruct (index_of_spec h _ _ Hi) as (b0 & Hb0 & Ha0).
  assert (b0 = b) as -> by (apply (tiled_inj _ _ _ _ _ Ht); [by eapply list_elem_of_lookup_2|done|done]).
  destruct (split_at _ _ _ Hb0) as [Hsplit Hli].
  remember (take i (blocks h)) as pre eqn:Epre. remember (drop (S i) (blocks h)) as post eqn:Epost.
  destruct (tiled_elem _ _ _ _ Ht Hin) as (Hlo & _ & Hpos & H16 & _).
  unfold kfree. rewrite (proj2 (Z.eqb_neq _ _)) by (unfold HEAP_START, HDR_SIZE in *; lia).
  replace (addr b + HDR_SIZE - HDR_SIZE) with (addr b) by lia. rewrite Hi. cbn [mbind option_bind].
  rewrite Hb0. cbn [mbind option_bind]. rewrite Hf. cbn [Z.eqb negb]. cbv zeta.
  assert (Hlive : live h = filter (fun b => free b = 0) pre ++ b :: filter (fun b => free b = 0) post).
  { unfold live. rewrite Hsplit, live_app, live_cons_yes by done. done. }
  destruct (g_small_cache h cpu _) as [items n] eqn:Hc. case_raw.
  - dest_bool. unfold SMALL_CLASS_COUNT in *. eexists. split; [reflexivity|].
    destruct (cache_push_ok cpu h pre b post items n Hok Hsplit Hf ltac:(lia) Hc ltac:(lia)) as [Hok' Hbl].
    split.
    + destruct Hok' as [? ? ? ? ? Hca]. constructor; try done. by apply (caches_ok_same _ _ Hca).
    + rewrite Hlive. unfold live. simpl blocks in *. rewrite Hbl, live_app, live_cons_no by done.
      by rewrite Permutation_middle.
  - pose (h1 := add_free (size b) (set_state_at (addr b) 2 h)). fold h1.
    pose (b2 := mkBlk (addr b) (size b) 2). fold b2.
    assert (Hbl : blocks h1 = pre ++ b2 :: post) by (apply (set_state_blocks h); done).
    assert (Hhole : hole pre b2 post (g_free_bins h1) (g_brk h1)).
    { destruct (heap_ok_core h Hok) as (H1 & H2 & H3 & H4). rewrite Hsplit in H1, H2, H3, H4.
      apply merged_middle in H3 as (? & ? & _). apply bins_ok_skip in H4; [|lia]. constructor; try done.
      - apply tiled_middle in H1 as (m & H1). apply tiled_middle. by exists m.
      - intros c Hc2. apply H2. rewrite elem_of_app, elem_of_cons. rewrite elem_of_app in Hc2. tauto. }
    rewrite <-Hli.
    destruct (coalesce_next_ok pre b2 post h1 Hbl Hhole)
      as (b3 & post3 & h3 & -> & Hbl3 & Hhole3 & Hap & Hbrk3 & Hca3 & Hpost3).
    destruct (coalesce_prev_ok pre b3 post3 h3 Hbl3 Hhole3 Hap) as ((Ht4 & Hst4 & Hmg4 & Hbin4) & Hbrk4 & Hca4 & Hf4).
    eexists. split; [reflexivity|]. split.
    + constructor; try done.
      * rewrite Hbrk4, Hbrk3. apply (ok_brk _ Hok).
      * apply (caches_ok_same h); [apply (ok_caches _ Hok)|by rewrite Hca4, Hca3|].
        intros x Hx. specialize (Hf4 3 ltac:(lia)). rewrite (Hpost3 3) in Hf4 by lia.
        assert (Hh3 : filter (fun c => free c = 3) (blocks h) =
          filter (fun c => free c = 3) pre ++ filter (fun c => free c = 3) post).
        { rewrite Hsplit, filter_app, filter_cons, decide_False by lia. done. }
        rewrite <-Hh3 in Hf4.
        pose proof (list_elem_of_filter (fun c => free c = 3) (blocks h) x) as E1.
        pose proof (list_elem_of_filter (fun c => free c = 3) (blocks (coalesce_prev (length pre) b3 h3)) x) as E2.
        rewrite Hf4 in E2. tauto.
    + rewrite Hlive. unfold live. rewrite (Hf4 0) by lia. rewrite (Hpost3 0) by lia.
      by rewrite Permutation_middle.
Qed.

Lemma kfree_dead cpu h b :
  heap_ok h -> b ∈ blocks h -> free b <> 0 -> kfree cpu (addr b + HDR_SIZE) h = Some h.
Proof.
  intros Hok Hin Hf. pose proof (ok_tiled _ Hok) as Ht.
  destruct (index_of_elem h b Hin) as [i Hi]. destruct (index_of_spec h _ _ Hi) as (b0 & Hb0 & Ha0).
  assert (b0 = b) as -> by (apply (tiled_inj _ _ _ _ _ Ht); [by eapply list_elem_of_lookup_2|done|done]).
  unfold kfree. case_raw; [done|].
  replace (addr b + HDR_SIZE - HDR_SIZE) with (addr b) by lia. rewrite Hi. cbn [mbind option_bind].
  rewrite Hb0. cbn [mbind option_bind]. by rewrite (proj2 (Z.eqb_neq _ _)).
Qed.

Lemma heap0_ok : heap_ok heap0.
Proof.
  assert (Hnil : forall (A : Type) (x : A), x ∉ []) by (intros A x Hx; by apply elem_of_nil in Hx).
  assert (Hbin : forall k, bin_at (g_free_bins heap0) k = []).
  { intros k. unfold bin_at, aget. change (g_free_bins heap0) with (replicate 32 ([] : list Z)).
    destruct (_ !! k) as [x|] eqn:E; [|done]. by apply lookup_replicate in E as [-> _]. }
  constructor.
  - done.
  - done.
  - intros b Hb. by apply Hnil in Hb.
  - done.
  - split; [done|]. split; [intros k; rewrite Hbin; constructor|]. intros k a. rewrite Hbin.
    split; [intros Ha; by apply Hnil in Ha|]. intros (b & Hb & _). by apply Hnil in Hb.
  - constructor.
    + intros cpu cls p Hp. by apply Hnil in Hp.
    + intros b Hb. by apply Hnil in Hb.
    + intros cpu cls cpu' cls' p Hp. by apply Hnil in Hp.
    + intros cpu cls. constructor.
    + done.
Qed.

(** C14: [kmalloc] is a correct allocator.  From every consistent heap it returns a
    16-byte aligned pointer to a block of at least the requested size inside the
    heap that overlaps no allocated block, adds exactly that block to the
    allocated ones and keeps the heap consistent (the blocks tile the heap, free
    neighbours are merged, the bins hold exactly the free blocks, the CPU caches
    exactly the cached ones).  It returns [NULL] only for a size of zero or beyond
    the heap, or when no free block fits and the heap cannot grow; the heap is
    then unchanged. *)
Theorem kmalloc_correct grow_ok cpu sz h :
  heap_ok h -> 0 <= sz < 2 ^ 64 -> alloc_post sz h (kmalloc grow_ok cpu sz h).
Proof. apply kmalloc_ok. Qed.

Lemma kmalloc_correct_witness :
  heap_ok heap0 /\ alloc_post 100 heap0 (kmalloc (fun _ => true) 0 100 heap0).
Proof. split; [exact heap0_ok|]. apply (kmalloc_correct (fun _ => true) 0 100 heap0 heap0_ok). lia. Defined.

(** [kfree] removes exactly the freed block from the allocated ones and keeps
    the heap consistent, whether the block goes to the CPU cache or is merged with
    its free neighbours and binned; freeing a block that is not allocated (a
    double free) changes nothing. *)
Theorem kfree_correct cpu h b :
  heap_ok h -> b ∈ blocks h ->
  exists h', kfree cpu (addr b + HDR_SIZE) h = Some h' /\ heap_ok h' /\
    (free b = 0 -> live h ≡ₚ b :: live h') /\ (free b <> 0 -> h' = h).
Proof.
  intros Hok Hb. destruct (Z.eq_dec (free b) 0) as [Hf|Hf].
  - destruct (kfree_live cpu h b Hok Hb Hf) as (h' & Hk & Hok' & Hl). by exists h'.
  - exists h. split; [by apply kfree_dead|]. by split_and!.
Qed.

(** A heap with one allocated block. *)
Lemma one_block : exists h b, heap_ok h /\ b ∈ blocks h /\ free b = 0 /\ 100 <= size b.
Proof.
  pose proof (kmalloc_ok (fun _ => true) 0 100 heap0 heap0_ok ltac:(lia)) as H.
  destruct (kmalloc (fun _ => true) 0 100 heap0) as [[p|] h] eqn:E; [|vm_compute in E; discriminate].
  destruct H as (Hok & b & _ & Hs & _ & _ & _ & Hl & _). exists h, b. split; [done|].
  assert (Hb : b ∈ live h) by (rewrite Hl; left). apply list_elem_of_filter in Hb as [Hf Hb]. done.
Qed.

Lemma kfree_correct_witness :
  exists h b h', heap_ok h /\ b ∈ blocks h /\ kfree 0 (addr b + HDR_SIZE) h = Some h' /\
    live h ≡ₚ b :: live h'.
Proof.
  destruct one_block as (h & b & Hok & Hb & Hf & _).
  destruct (kfree_correct 0 h b Hok Hb) as (h' & Hk & _ & Hl & _). exists h, b, h'. auto.
Defined.

(** [krealloc] of an allocated block either keeps the pointer (the block is
    already large enough), or moves to a block of the new size that overlaps no
    allocated block and frees the old one, or fails without freeing anything;
    [new_size = 0] frees the block.  The heap stays consistent throughout. *)
Theorem krealloc_correct grow_ok cpu h b new_size :
  heap_ok h -> b ∈ blocks h -> free b = 0 -> 0 <= new_size < 2 ^ 64 ->
  exists o h', krealloc grow_ok cpu (addr b + HDR_SIZE) new_size h = inr (o, h') /\ heap_ok h' /\
    match o with
    | None => if new_size =? 0 then live h ≡ₚ b :: live h' else live h' = live h
    | Some p =>
        (p = addr b + HDR_SIZE /\ h' = h /\ new_size <= size b) \/
        exists b', p = addr b' + HDR_SIZE /\ new_size <= size b' /\ disjoint_from b' (live h) /\
          b :: live h' ≡ₚ b' :: live h
    end.
Proof.
  intros Hok Hb Hf Hn. pose proof (ok_tiled _ Hok) as Ht.
  destruct (tiled_elem _ _ _ _ Ht Hb) as (Hlo & _ & Hpos & _).
  unfold krealloc. rewrite (proj2 (Z.eqb_neq (addr b + HDR_SIZE) 0)) by (unfold HEAP_START, HDR_SIZE in *; lia).
  destruct (Z.eqb_spec new_size 0) as [->|Hnz].
  { destruct (kfree_live cpu h b Hok Hb Hf) as (h' & -> & Hok' & Hl). by exists None, h'. }
  replace (addr b + HDR_SIZE - HDR_SIZE) with (addr b) by lia.
  destruct (index_of_elem h b Hb) as [i ->]. case_raw; [by exists None, h|]. cbv zeta. fold (round16 new_size).
  apply orb_false_iff in Heqb0 as [Hcap _]. apply Z.ltb_ge in Hcap.
  destruct (round16_spec new_size ltac:(lia)) as [Hr _]. rewrite (size_at_elem h b Ht Hb).
  destruct (Z.leb_spec (round16 new_size) (size b)) as [Hle|Hgt].
  { exists (Some (addr b + HDR_SIZE)), h. split_and!; [done|done|]. left. split_and!; [done|done|lia]. }
  pose proof (kmalloc_ok grow_ok cpu new_size h Hok Hn) as Hk.
  destruct (kmalloc grow_ok cpu new_size h) as [[p|] h1].
  - destruct Hk as (Hok1 & b' & -> & Hs & _ & _ & _ & Hl1 & Hd).
    assert (Hb1 : b ∈ live h1) by (rewrite Hl1; right; by apply list_elem_of_filter).
    apply list_elem_of_filter in Hb1 as [_ Hb1].
    destruct (kfree_live cpu h1 b Hok1 Hb1 Hf) as (h2 & -> & Hok2 & Hl2).
    exists (Some (addr b' + HDR_SIZE)), h2. split_and!; [done|done|]. right. exists b'.
    split_and!; try done. by rewrite <-Hl2, <-Hl1.
  - destruct Hk as (Hok1 & -> & _). by exists None, h.
Qed.

Lemma krealloc_correct_witness :
  exists h b o h', heap_ok h /\ krealloc (fun _ => true) 0 (addr b + HDR_SIZE) 5000 h = inr (o, h') /\ heap_ok h'.
Proof.
  destruct one_block as (h & b & Hok & Hb & Hf & _).
  destruct (krealloc_correct (fun _ => true) 0 h b 5000 Hok Hb Hf ltac:(lia)) as (o & h' & Hk & Hok' & _).
  exists h, b, o, h'. auto.
Defined.
