(* ===== verification/KString.v ===== *)
(** * KString: the kernel's string routines.

    Models [kernel/lib/string.c].  The block routines work on byte memory, with
    the quadword and byte runs of the [rep] instructions (direction flag clear).
    A C string is the list of its bytes from the pointer on, as [unsigned char];
    where the list ends the terminating zero is read, and a string may go on past
    an embedded zero as a fixed-size buffer does.  Buffers do not wrap around the
    end of the address space. *)

From S2P Require Import Prelude Bytes.

(** ** Block routines *)

(** [rep stos]: [n] stores of the low [w] bytes of [v]. *)
Fixpoint stos (w : nat) (m : memory) (p v : Z) (n : nat) : memory :=
  match n with
  | O => m
  | S n' => stos w (store_bytes m p (le_bytes w v)) (p + Z.of_nat w) v n'
  end.

Definition memset (m : memory) (dst c n : Z) : memory :=
  let v := u8 c in
  let w := u64 (0x0101010101010101 * v) in
  let q := Z.shiftr n 3 in
  let r := Z.land n 7 in
  stos 1 (stos 8 m dst w (Z.to_nat q)) (dst + 8 * q) w (Z.to_nat r).

(** [rep movs]: [n] moves of [w] bytes, upwards. *)
Fixpoint movs (w : nat) (m : memory) (d s : Z) (n : nat) : memory :=
  match n with
  | O => m
  | S n' => movs w (store_bytes m d (load_bytes m s w)) (d + Z.of_nat w) (s + Z.of_nat w) n'
  end.

Definition memcpy (m : memory) (dst src n : Z) : memory :=
  let q := Z.shiftr n 3 in
  let r := Z.land n 7 in
  movs 1 (movs 8 m dst src (Z.to_nat q)) (dst + 8 * q) (src + 8 * q) (Z.to_nat r).

(** [while (r--) { n--; d[n] = s[n]; }] *)
Fixpoint bytes_down (m : memory) (d s n : Z) (r : nat) : memory * Z :=
  match r with
  | O => (m, n)
  | S r' => bytes_down (store_bytes m (d + (n - 1)) (load_bytes m (s + (n - 1)) 1)) d s (n - 1) r'
  end.

(** [while (q--) dq[q] = sq[q];] *)
Fixpoint quads_down (m : memory) (d s : Z) (q : nat) : memory :=
  match q with
  | O => m
  | S q' =>
      quads_down (store_bytes m (d + 8 * Z.of_nat q') (load_bytes m (s + 8 * Z.of_nat q') 8)) d s q'
  end.

Definition memmove (m : memory) (dst src n : Z) : memory :=
  if (dst =? src) || (n =? 0) then m else
  if (dst <? src) || (n <=? dst - src) then memcpy m dst src n else
  let '(m, n) := bytes_down m dst src n (Z.to_nat (Z.land n 7)) in
  quads_down m dst src (Z.to_nat (Z.shiftr n 3)).

Fixpoint memcmp (a b : list Z) (n : nat) : Z :=
  match n with
  | O => 0
  | S n' => if negb (hd 0 a =? hd 0 b) then hd 0 a - hd 0 b else memcmp (tl a) (tl b) n'
  end.

(** ** Strings *)

Fixpoint strlen (s : list Z) : Z :=
  match s with
  | [] => 0
  | c :: s' => if ztrue c then 1 + strlen s' else 0
  end.

Fixpoint strnlen (s : list Z) (n : nat) : Z :=
  match n, s with
  | S n', c :: s' => if ztrue c then 1 + strnlen s' n' else 0
  | _, _ => 0
  end.

Fixpoint strcmp (a b : list Z) : Z :=
  match a with
  | [] => 0 - hd 0 b
  | c :: a' => if ztrue c && (c =? hd 0 b) then strcmp a' (tl b) else c - hd 0 b
  end.

Fixpoint strncmp (a b : list Z) (n : nat) : Z :=
  match n with
  | O => 0
  | S n' =>
      if ztrue (hd 0 a) && (hd 0 a =? hd 0 b) then strncmp (tl a) (tl b) n' else hd 0 a - hd 0 b
  end.

(** The bytes of a string, without the terminating zero. *)
Fixpoint cstr (s : list Z) : list Z :=
  match s with
  | [] => []
  | c :: s' => if ztrue c then c :: cstr s' else []
  end.

Definition strcpy (dst src : list Z) : list Z := blit dst 0 (cstr src ++ [0]).

(** The [n] bytes [strncpy] writes. *)
Fixpoint strncpy_bytes (src : list Z) (n : nat) : list Z :=
  match n with
  | O => []
  | S n' =>
      match src with
      | c :: src' => if ztrue c then c :: strncpy_bytes src' n' else replicate n 0
      | [] => replicate n 0
      end
  end.

Definition strncpy (dst src : list Z) (n : nat) : list Z := blit dst 0 (strncpy_bytes src n).

Definition strcat (dst src : list Z) : list Z := blit dst (strlen dst) (cstr src ++ [0]).

(** The index of the result, [None] for [NULL]. *)
Fixpoint strchr_from (i : nat) (s : list Z) (c : Z) : option nat :=
  match s with
  | x :: s' =>
      if ztrue x then if x =? u8 c then Some i else strchr_from (S i) s' c
      else if c =? 0 then Some i else None
  | [] => if c =? 0 then Some i else None
  end.

Definition strchr (s : list Z) (c : Z) : option nat := strchr_from 0 s c.

(** The inner loop of [strstr]: the needle left over where the match stops. *)
Fixpoint match_here (h n : list Z) : list Z :=
  match n with
  | y :: n' =>
      match h with
      | x :: h' => if ztrue x && ztrue y && (x =? y) then match_here h' n' else n
      | [] => n
      end
  | [] => []
  end.

Fixpoint strstr_from (i : nat) (h n : list Z) : option nat :=
  match h with
  | x :: h' =>
      if ztrue x then
        if negb (ztrue (hd 0 (match_here h n))) then Some i else strstr_from (S i) h' n
      else None
  | [] => None
  end.

Definition strstr (haystack needle : list Z) : option nat :=
  if negb (ztrue (hd 0 needle)) then Some 0%nat else strstr_from 0 haystack needle.

(** [char] codes used below. *)
Definition ch_tab := 9.
Definition ch_nl := 10.
Definition ch_cr := 13.
Definition ch_space := 32.
Definition ch_plus := 43.
Definition ch_comma := 44.
Definition ch_minus := 45.
Definition ch_dot := 46.
Definition ch_slash := 47.
Definition ch_0 := 48.
Definition ch_9 := 57.
Definition ch_colon := 58.

Definition is_digit (c : Z) : bool := (ch_0 <=? c) && (c <=? ch_9).

Fixpoint skip_while (P : Z -> bool) (s : list Z) : list Z :=
  match s with
  | c :: s' => if P c then skip_while P s' else s
  | [] => []
  end.

(** The digit loop; [int] arithmetic wraps. *)
Fixpoint atoi_digits (n : Z) (s : list Z) : Z :=
  match s with
  | c :: s' => if is_digit c then atoi_digits (s32 (n * 10 + (c - ch_0))) s' else n
  | [] => n
  end.

Definition atoi (s : list Z) : Z :=
  let s := skip_while (fun c => (c =? ch_space) || (c =? ch_tab)) s in
  let neg := hd 0 s =? ch_minus in
  let s := if neg then tl s else if hd 0 s =? ch_plus then tl s else s in
  let n := atoi_digits 0 s in
  if neg then s32 (- n) else n.

(** ** Block routines against their meaning *)

(** What copying [n] bytes from [s] to [d] means, the source being read first. *)
Definition copied (m : memory) (d s n : Z) : memory := fun x =>
  if (d <=? x) && (x <? d + n) then m (x - d + s) else m x.

(** What filling [n] bytes means. *)
Definition filled (m : memory) (d c n : Z) : memory := fun x =>
  if (d <=? x) && (x <? d + n) then u8 c else m x.

Lemma blen_load_bytes m a n : blen (load_bytes m a n) = Z.of_nat n.
Proof. unfold blen, load_bytes. by rewrite length_map, length_seq. Qed.

Lemma aget_load_bytes m a n i : (i < n)%nat -> aget 0 (load_bytes m a n) i = m (a + Z.of_nat i).
Proof.
  intros Hi. apply aget_Some. unfold load_bytes. rewrite list_lookup_fmap, lookup_seq_lt by done. done.
Qed.

Lemma store_load_bytes m d s n x :
  store_bytes m d (load_bytes m s n) x = copied m d s (Z.of_nat n) x.
Proof.
  unfold store_bytes, copied. rewrite blen_load_bytes. case_raw; [|done]. dest_bool.
  rewrite aget_load_bytes by lia. f_equal. lia.
Qed.

(** Bytes that are not read after they are written may be copied upwards. *)
Lemma movs_spec w m d s n x :
  d < s \/ Z.of_nat w * Z.of_nat n <= d - s ->
  movs w m d s n x = copied m d s (Z.of_nat w * Z.of_nat n) x.
Proof.
  revert m d s. induction n as [|n IH]; intros m d s Hd; cbn [movs].
  { unfold copied. bsolve. }
  rewrite IH by lia. unfold copied at 1. rewrite !store_load_bytes. unfold copied.
  repeat case_if; try lia; f_equal; lia.
Qed.

Lemma stos_spec w m p v c n x :
  (forall i, (i < w)%nat -> aget 0 (le_bytes w v) i = u8 c) ->
  stos w m p v n x = filled m p c (Z.of_nat w * Z.of_nat n) x.
Proof.
  intros Hv. revert m p. induction n as [|n IH]; intros m p; cbn [stos].
  { unfold filled. bsolve. }
  rewrite IH. unfold filled, store_bytes, blen. rewrite le_bytes_length.
  repeat case_if; try lia; try done. apply Hv. lia.
Qed.

(** Copying downwards is right when the destination is above the source. *)
Lemma quads_down_spec m d s q x :
  s <= d -> quads_down m d s q x = copied m d s (8 * Z.of_nat q) x.
Proof.
  revert m. induction q as [|q IH]; intros m Hd; cbn [quads_down].
  { unfold copied. bsolve. }
  rewrite IH by done. unfold copied at 1. rewrite !store_load_bytes. unfold copied.
  repeat case_if; try lia; f_equal; lia.
Qed.

Lemma bytes_down_spec m d s n r x :
  s <= d -> Z.of_nat r <= n ->
  snd (bytes_down m d s n r) = n - Z.of_nat r /\
  fst (bytes_down m d s n r) x = copied m (d + (n - Z.of_nat r)) (s + (n - Z.of_nat r)) (Z.of_nat r) x.
Proof.
  revert m n. induction r as [|r IH]; intros m n Hd Hr; cbn [bytes_down].
  { split; [simpl; lia|]. unfold copied. simpl. bsolve. }
  destruct (IH (store_bytes m (d + (n - 1)) (load_bytes m (s + (n - 1)) 1)) (n - 1) Hd ltac:(lia)) as [-> ->].
  split; [lia|]. unfold copied at 1. rewrite !store_load_bytes. unfold copied.
  repeat case_if; try lia; f_equal; lia.
Qed.

Lemma quad_split n : 0 <= n -> n = 8 * Z.shiftr n 3 + Z.land n 7 /\ 0 <= Z.shiftr n 3 /\ 0 <= Z.land n 7 < 8.
Proof.
  intros Hn. change 7 with (Z.ones 3). rewrite Z.land_ones, Z.shiftr_div_pow2 by lia.
  change (2 ^ 3) with 8. pose proof (Z.div_mod n 8 ltac:(lia)). pose proof (Z.mod_pos_bound n 8 ltac:(lia)).
  pose proof (Z.div_pos n 8 Hn ltac:(lia)). lia.
Qed.

Lemma memcpy_spec m dst src n x :
  0 <= n -> dst < src \/ n <= dst - src -> memcpy m dst src n x = copied m dst src n x.
Proof.
  intros Hn Hd. destruct (quad_split n Hn) as (Hq & Hq0 & Hr). unfold memcpy.
  rewrite movs_spec by lia. unfold copied at 1. rewrite !movs_spec by lia. unfold copied.
  rewrite !Z2Nat.id by lia. repeat case_if; try lia; f_equal; lia.
Qed.

(** A byte repeated [n] times, as an integer. *)
Fixpoint splat (n : nat) (v : Z) : Z :=
  match n with O => 0 | S n' => v + 2 ^ 8 * splat n' v end.

Lemma le_bytes_splat n v : is_u8 v -> le_bytes n (splat n v) = replicate n v.
Proof.
  intros Hv. induction n as [|n IH]; [done|]. cbn [le_bytes splat replicate]. f_equal.
  - unfold u8. rewrite Z.mul_comm, Z_mod_plus_full. by apply Z.mod_small.
  - rewrite Z.mul_comm, Z.div_add by lia. rewrite (Z.div_small v) by done. by rewrite Z.add_0_l.
Qed.

(** The pattern [0x0101010101010101 * v] holds the byte [v] eight times. *)
Lemma le_bytes_pattern c :
  le_bytes 8 (u64 (0x0101010101010101 * u8 c)) = replicate 8 (u8 c).
Proof.
  pose proof (u8_range c) as Hc. rewrite u64_small by (unfold is_u8, is_u64 in *; lia).
  rewrite <-le_bytes_splat by done. f_equal. cbn [splat]. lia.
Qed.

Lemma memset_spec m dst c n x : 0 <= n -> memset m dst c n x = filled m dst c n x.
Proof.
  intros Hn. destruct (quad_split n Hn) as (Hq & Hq0 & Hr). unfold memset.
  pose proof (le_bytes_pattern c) as Hp.
  assert (H8 : forall i, (i < 8)%nat -> aget 0 (le_bytes 8 (u64 (0x0101010101010101 * u8 c))) i = u8 c).
  { intros i Hi. rewrite Hp. apply aget_Some. by apply lookup_replicate. }
  rewrite (stos_spec 1 _ _ _ c).
  - unfold filled at 1. rewrite (stos_spec 8 _ _ _ c) by done. unfold filled.
    rewrite !Z2Nat.id by lia. repeat case_if; try lia; done.
  - intros i Hi. destruct i; [|lia]. apply (H8 0%nat). lia.
Qed.

(** [memmove] copies correctly for every length and every overlap of source
    and destination: each destination byte receives the source byte as it was
    before the call and nothing else changes.  The upward quadword copy (through
    [memcpy]) and the downward one (trailing bytes, then quadwords) both never
    read a byte they have already overwritten. *)
Theorem memmove_correct m dst src n x :
  0 <= n -> memmove m dst src n x = copied m dst src n x.
Proof.
  intros Hn. unfold memmove. case_raw; [unfold copied; bsolve; f_equal; lia|].
  case_raw; [apply memcpy_spec; [done|]; dest_bool; lia|]. dest_bool.
  destruct (quad_split n Hn) as (Hq & Hq0 & Hr).
  destruct (bytes_down_spec m dst src n (Z.to_nat (Z.land n 7)) x) as [Hn' _]; [lia|lia|].
  assert (Hb : forall y, fst (bytes_down m dst src n (Z.to_nat (Z.land n 7))) y =
                 copied m (dst + 8 * Z.shiftr n 3) (src + 8 * Z.shiftr n 3) (Z.land n 7) y).
  { intros y. destruct (bytes_down_spec m dst src n (Z.to_nat (Z.land n 7)) y) as [_ ->]; [lia|lia|].
    rewrite Z2Nat.id by lia. replace (n - Z.land n 7) with (8 * Z.shiftr n 3) by lia. done. }
  destruct (bytes_down _ _ _ _ _) as [m' n']. simpl in Hn', Hb.
  replace n' with (8 * Z.shiftr n 3) by lia. rewrite Z.shiftr_div_pow2, Z.mul_comm, Z.div_mul by lia.
  rewrite quads_down_spec, Z2Nat.id by lia. unfold copied at 1. rewrite !Hb. unfold copied.
  repeat case_if; try lia; f_equal; lia.
Qed.

Lemma memmove_correct_witness :
  memmove (fun x => x) 103 100 21 110 = copied (fun x => x) 103 100 21 110 /\
  memmove (fun x => x) 103 100 21 110 = 107.
Proof. split; [apply (memmove_correct (fun x => x) 103 100 21 110); lia|vm_compute; done]. Defined.

(** ** Strings *)

Lemma cstr_nonzero s : Forall (fun c => c <> 0) (cstr s).
Proof. induction s as [|c s IH]; simpl; [done|]. unfold ztrue. bsolve; by constructor. Qed.

Lemma cstr_id s : Forall (fun c => c <> 0) s -> cstr s = s.
Proof. induction 1 as [|c s Hc _ IH]; simpl; [done|]. unfold ztrue. by rewrite (proj2 (Z.eqb_neq c 0)), IH. Qed.

Lemma cstr_app_nul s r : Forall (fun c => c <> 0) s -> cstr (s ++ 0 :: r) = s.
Proof. induction 1 as [|c s Hc _ IH]; simpl; [done|]. unfold ztrue. by rewrite (proj2 (Z.eqb_neq c 0)), IH. Qed.

Lemma strlen_cstr s : strlen s = blen (cstr s).
Proof.
  induction s as [|c s IH]; [done|]. simpl. case_raw; [|done]. rewrite IH. unfold blen. simpl. lia.
Qed.

(** [strncmp] with the length of [b] tests whether [b] is a prefix. *)
Lemma strncmp_prefix a b :
  Forall (fun c => c <> 0) b -> strncmp a b (length b) = 0 <-> b `prefix_of` a.
Proof.
  intros Hb. revert a. induction Hb as [|c b Hc _ IH]; intros a; simpl.
  { split; [intros _; apply prefix_nil|done]. }
  destruct a as [|x a]; simpl.
  { split; [lia|]. intros Hp. by apply prefix_nil_not in Hp. }
  unfold ztrue. destruct (Z.eqb_spec x c) as [->|Hx].
  - rewrite (proj2 (Z.eqb_neq c 0)) by done. simpl. rewrite IH. split; [apply prefix_cons|apply prefix_cons_inv_2].
  - rewrite andb_false_r. split; [lia|]. by intros ?%prefix_cons_inv_1.
Qed.
