(* ===== verification/Printf.v ===== *)
(** * Printf: the kernel's formatter.

    Models [kernel/lib/printf.c].  The output of a call is the list of characters
    handed to the callback, in order; the returned count is its length.  [va_arg]
    takes the next argument of the call; reading past the last one, or one of the
    other kind, gives zero.  A format that ends inside a directive makes the code
    read past its terminator; here such a format ends with the [?] of the default
    case. *)

From S2P Require Import Prelude Bytes KString.

Inductive arg :=
| ArgInt (v : Z)
| ArgStr (s : option (list Z)).

Definition va_int (ap : list arg) : Z * list arg :=
  match ap with ArgInt v :: ap' => (v, ap') | _ :: ap' => (0, ap') | [] => (0, []) end.

Definition va_str (ap : list arg) : option (list Z) * list arg :=
  match ap with ArgStr s :: ap' => (s, ap') | _ :: ap' => (None, ap') | [] => (None, []) end.

(** The padding loop [for (i = len; i < width; i++) emit(pad);]. *)
Definition padding (c len width : Z) : list Z := replicate (Z.to_nat (width - len)) c.

Definition emit_str (s : list Z) (width : Z) (lft : bool) : list Z :=
  let len := strlen s in
  (if lft then [] else padding ch_space len width) ++ cstr s ++
  (if lft then padding ch_space len width else []).

Definition digit (upper : bool) (d : Z) : Z :=
  if d <? 10 then ch_0 + d else (if upper then 65 else 97) + (d - 10).

(** [while (val)]: the digits from the least significant one; a 64-bit value has
    at most 64 in any base. *)
Fixpoint digits_rev (fuel : nat) (upper : bool) (base v : Z) : list Z :=
  match fuel with
  | O => []
  | S f => if v =? 0 then [] else digit upper (v `mod` base) :: digits_rev f upper base (v / base)
  end.

Definition emit_uint (v base : Z) (upper : bool) (width : Z) (lft zero_pad : bool) : list Z :=
  let buf := if v =? 0 then [ch_0] else rev (digits_rev 64 upper base v) in
  let len := blen buf in
  let pad := if zero_pad then ch_0 else ch_space in
  (if lft then [] else padding pad len width) ++ buf ++
  (if lft then padding ch_space len width else []).

(** Flags, width and length modifier of a directive. *)
Fixpoint parse_flags (lft zero : bool) (fmt : list Z) : bool * bool * list Z :=
  match fmt with
  | c :: f =>
      if c =? ch_minus then parse_flags true zero f
      else if c =? ch_0 then parse_flags lft true f
      else (lft, zero, fmt)
  | [] => (lft, zero, [])
  end.

Fixpoint parse_width (w : Z) (fmt : list Z) : Z * list Z :=
  match fmt with
  | c :: f => if is_digit c then parse_width (s32 (w * 10 + (c - ch_0))) f else (w, fmt)
  | [] => (w, [])
  end.

Definition ch_l := 108.

Definition parse_long (fmt : list Z) : bool * list Z :=
  let is_long := hd 0 fmt =? ch_l in
  let fmt := if is_long then tl fmt else fmt in
  (is_long, if hd 0 fmt =? ch_l then tl fmt else fmt).

(** One conversion: its characters and the arguments lft. *)
Definition convert (c : Z) (lft zero_pad is_long : bool) (width : Z) (ap : list arg) :
    list Z * list arg :=
  let unsigned base upper :=
    let '(v, ap) := va_int ap in
    (emit_uint (if is_long then u64 v else u32 v) base upper width lft zero_pad, ap) in
  if c =? 99 then let '(v, ap) := va_int ap in ([u8 v], ap)                        (* c *)
  else if c =? 115 then                                                            (* s *)
    let '(s, ap) := va_str ap in
    (emit_str (default [40; 110; 117; 108; 108; 41] s) width lft, ap)
  else if (c =? 100) || (c =? 105) then                                            (* d, i *)
    let '(v, ap) := va_int ap in
    let v := if is_long then s64 v else s32 v in
    ((if v <? 0 then [ch_minus] else []) ++
       emit_uint (u64 (Z.abs v)) 10 false width lft zero_pad, ap)
  else if c =? 117 then unsigned 10 false                                          (* u *)
  else if c =? 120 then unsigned 16 false                                          (* x *)
  else if c =? 88 then unsigned 16 true                                            (* X *)
  else if c =? 111 then unsigned 8 false                                           (* o *)
  else if c =? 112 then                                                            (* p *)
    let '(v, ap) := va_int ap in
    ([ch_0; 120] ++ emit_uint (u64 v) 16 false 16 false true, ap)
  else if c =? 37 then ([37], ap)                                                  (* % *)
  else ([63], ap).

Fixpoint vprintf_loop (fuel : nat) (fmt : list Z) (ap : list arg) : list Z :=
  match fuel with
  | O => []
  | S f =>
      match fmt with
      | [] => []
      | c :: fmt' =>
          if negb (ztrue c) then [] else
          if negb (c =? 37) then c :: vprintf_loop f fmt' ap
          else
            let '(lft, zero, fmt1) := parse_flags false false fmt' in
            let zero_pad := if lft then false else zero in
            let '(width, fmt2) := parse_width 0 fmt1 in
            let '(is_long, fmt3) := parse_long fmt2 in
            let '(out, ap') := convert (hd 0 fmt3) lft zero_pad is_long width ap in
            out ++ vprintf_loop f (tl fmt3) ap'
      end
  end.

(** The format is consumed by at least one character per round. *)
Definition vprintf_cb (fmt : list Z) (ap : list arg) : list Z := vprintf_loop (length fmt) fmt ap.

(** The bytes written, terminator included, and the returned count. *)
Definition vsnprintf (size : Z) (fmt : list Z) (ap : list arg) : list Z * Z :=
  let out := vprintf_cb fmt ap in
  (if ztrue size then take (Z.to_nat (size - 1)) out ++ [0] else [], blen out).

Definition snprintf (size : Z) (fmt : list Z) (ap : list arg) : list Z * Z := vsnprintf size fmt ap.

(** Format strings of the callers modelled here: [%s], [%s%s], [%s/%s] and the
    uid map line. *)
Definition fmt_s : list Z := [37; 115].
Definition fmt_ss : list Z := [37; 115; 37; 115].
Definition fmt_s_s : list Z := [37; 115; 47; 37; 115].
Definition fmt_map : list Z := [37; 117; 32; 37; 117; 32; 37; 117; 10].

Lemma emit_str_plain s : emit_str s 0 false = cstr s.
Proof.
  unfold emit_str, padding. rewrite strlen_cstr. replace (Z.to_nat (0 - _)) with 0%nat.
  - simpl. by rewrite app_nil_r.
  - pose proof (blen_nonneg (cstr s)). lia.
Qed.

Lemma vprintf_s s : vprintf_cb fmt_s [ArgStr (Some s)] = cstr s.
Proof. cbn -[emit_str]. by rewrite emit_str_plain, app_nil_r. Qed.

Lemma vprintf_ss s t : vprintf_cb fmt_ss [ArgStr (Some s); ArgStr (Some t)] = cstr s ++ cstr t.
Proof. cbn -[emit_str]. by rewrite !emit_str_plain, app_nil_r. Qed.

Lemma vprintf_s_s s t :
  vprintf_cb fmt_s_s [ArgStr (Some s); ArgStr (Some t)] = cstr s ++ ch_slash :: cstr t.
Proof. cbn -[emit_str]. by rewrite !emit_str_plain, app_nil_r. Qed.

(** ** Decimal numbers *)

(** The number a digit string denotes, most significant digit first. *)
Definition dec_value (ds : list Z) : Z := foldl (fun n c => n * 10 + (c - ch_0)) 0 ds.

Lemma digit_dec d : 0 <= d < 10 -> digit false d = ch_0 + d /\ is_digit (digit false d) = true.
Proof. unfold digit, is_digit, ch_0, ch_9. intros Hd. bsolve. Qed.

Lemma digits_rev_digits n v : 0 <= v -> Forall (fun c => is_digit c = true) (digits_rev n false 10 v).
Proof.
  revert v. induction n as [|n IH]; intros v Hv; cbn [digits_rev]; [done|]. case_raw; [done|].
  constructor; [apply digit_dec, Z.mod_pos_bound; lia|]. apply IH, Z.div_pos; lia.
Qed.

Lemma digits_rev_value n v :
  0 <= v < 10 ^ Z.of_nat n -> dec_value (rev (digits_rev n false 10 v)) = v.
Proof.
  revert v. induction n as [|n IH]; intros v Hv.
  { replace (10 ^ Z.of_nat 0) with 1 in Hv by done. simpl. unfold dec_value. simpl. lia. }
  cbn [digits_rev]. destruct (Z.eqb_spec v 0) as [->|Hnz]; [done|]. cbn [rev].
  rewrite Nat2Z.inj_succ, Z.pow_succ_r in Hv by lia.
  unfold dec_value in *. rewrite foldl_app. rewrite IH by (split; [apply Z.div_pos; lia|apply Z.div_lt_upper_bound; lia]).
  cbn [foldl]. rewrite (proj1 (digit_dec (v `mod` 10) (Z.mod_pos_bound v 10 ltac:(lia)))).
  pose proof (Z.div_mod v 10 ltac:(lia)). lia.
Qed.

Lemma digits_rev_length n v k :
  0 <= v < 10 ^ k -> 0 <= k -> blen (digits_rev n false 10 v) <= k.
Proof.
  unfold blen. revert v k. induction n as [|n IH]; intros v k Hv Hk; cbn [digits_rev]; [simpl; lia|].
  destruct (Z.eqb_spec v 0) as [->|Hnz]; [simpl; lia|]. cbn [length].
  destruct (Z.eq_dec k 0) as [->|]; [simpl in Hv; lia|].
  specialize (IH (v / 10) (k - 1)). rewrite Nat2Z.inj_succ.
  enough (Z.of_nat (length (digits_rev n false 10 (v / 10))) <= k - 1) by lia. apply IH; [|lia].
  replace k with (Z.succ (k - 1)) in Hv by lia. rewrite Z.pow_succ_r in Hv by lia.
  split; [apply Z.div_pos; lia|apply Z.div_lt_upper_bound; lia].
Qed.

(** The characters of a number as [%u] prints it. *)
Definition udec (v : Z) : list Z := emit_uint v 10 false 0 false false.

Lemma udec_eq v : udec v = if v =? 0 then [ch_0] else rev (digits_rev 64 false 10 v).
Proof.
  unfold udec, emit_uint, padding. cbv zeta. set (b := if v =? 0 then [ch_0] else _). pose proof (blen_nonneg b).
  replace (Z.to_nat (0 - blen b)) with 0%nat by lia. simpl. by rewrite app_nil_r.
Qed.

(** [%u] prints a 32-bit number as one to ten digits that denote it. *)
Lemma udec_spec v :
  is_u32 v ->
  dec_value (udec v) = v /\ Forall (fun c => is_digit c = true) (udec v) /\ udec v <> [] /\ blen (udec v) <= 10.
Proof.
  intros Hv. unfold is_u32 in Hv. rewrite udec_eq. destruct (Z.eqb_spec v 0) as [->|Hnz].
  { split_and!; [done|by repeat constructor|done|unfold blen; simpl; lia]. }
  assert (Hval : dec_value (rev (digits_rev 64 false 10 v)) = v).
  { apply digits_rev_value. split; [lia|]. apply Z.lt_trans with (2 ^ 32); [lia|done]. }
  split_and!; [done| | |].
  - apply Forall_rev, digits_rev_digits. lia.
  - intros Hn. rewrite Hn in Hval. by cbn in Hval.
  - unfold blen. rewrite length_rev. apply (digits_rev_length 64 v 10); [|lia].
    split; [lia|]. apply Z.lt_trans with (2 ^ 32); [lia|done].
Qed.

Lemma vprintf_map a b c :
  vprintf_cb fmt_map [ArgInt a; ArgInt b; ArgInt c] =
    udec (u32 a) ++ ch_space :: udec (u32 b) ++ ch_space :: udec (u32 c) ++ [ch_nl].
Proof. cbn -[emit_uint u32]. reflexivity. Qed.

(** The conversion loop consumes the format: more fuel than its length never
    changes the output. *)
Lemma parse_flags_length l z fmt : (length (snd (parse_flags l z fmt)) <= length fmt)%nat.
Proof.
  revert l z. induction fmt as [|c fmt IH]; intros l z; simpl; [lia|].
  case_raw; [specialize (IH true z)|case_raw; [specialize (IH l true)|simpl]]; lia.
Qed.

Lemma parse_width_length w fmt : (length (snd (parse_width w fmt)) <= length fmt)%nat.
Proof.
  revert w. induction fmt as [|c fmt IH]; intros w; simpl; [lia|]. case_raw; [|simpl; lia].
  specialize (IH (s32 (w * 10 + (c - ch_0)))). lia.
Qed.

Lemma length_tl_le {A} (l : list A) : (length (tl l) <= length l)%nat.
Proof. destruct l; simpl; lia. Qed.

Lemma parse_long_length fmt : (length (snd (parse_long fmt)) <= length fmt)%nat.
Proof.
  unfold parse_long. cbn [snd]. pose proof (length_tl_le fmt). pose proof (length_tl_le (tl fmt)).
  repeat case_raw; lia.
Qed.

Lemma vprintf_loop_fuel f1 f2 fmt ap :
  (length fmt <= f1)%nat -> (length fmt <= f2)%nat -> vprintf_loop f1 fmt ap = vprintf_loop f2 fmt ap.
Proof.
  revert f2 fmt ap. induction f1 as [|f1 IH]; intros f2 fmt ap H1 H2.
  { destruct fmt; [by destruct f2|simpl in H1; lia]. }
  destruct f2 as [|f2]; [destruct fmt; [done|simpl in H2; lia]|].
  destruct fmt as [|c fmt]; [done|]. cbn [vprintf_loop]. simpl in H1, H2.
  case_raw; [done|]. case_raw; [f_equal; apply IH; lia|].
  pose proof (parse_flags_length false false fmt). destruct (parse_flags _ _ _) as [[lf z] fmt1].
  pose proof (parse_width_length 0 fmt1). destruct (parse_width _ _) as [w fmt2].
  pose proof (parse_long_length fmt2). destruct (parse_long _) as [lg fmt3].
  pose proof (length_tl_le fmt3). simpl in *.
  destruct (convert _ _ _ _ _ _) as [out ap']. f_equal. apply IH; lia.
Qed.
