(* ===== verification/ChaCha20.v ===== *)
(** * ChaCha20: the stream cipher and the kernel random generator.

    Models [kernel/crypto/chacha20.c].  The sixteen-word state is a list of
    32-bit integers and the key stream is read as its little-endian bytes.  The
    generator's lock makes each call one step. *)

From S2P Require Import Prelude Bytes.

Definition CHACHA20_BLOCK_SIZE := 64.

Definition rotl32 (x n : Z) : Z := Z.lor (u32 (Z.shiftl x n)) (Z.shiftr x (32 - n)).

Definition load32_le (p : list Z) : Z :=
  Z.lor (Z.lor (Z.lor (aget 0 p 0) (Z.shiftl (aget 0 p 1) 8)) (Z.shiftl (aget 0 p 2) 16))
    (Z.shiftl (aget 0 p 3) 24).

(** The bytes written at [p]. *)
Definition store32_le (x : Z) : list Z :=
  [u8 x; u8 (Z.shiftr x 8); u8 (Z.shiftr x 16); u8 (Z.shiftr x 24)].

Definition store64_le (x : Z) : list Z := store32_le (u32 x) ++ store32_le (u32 (Z.shiftr x 32)).

Record chacha20_ctx := mkCtx {
  state : list Z;
  keystream32 : list Z;
  position : Z;
}.

Record chacha20_rng := mkRng {
  inner : chacha20_ctx;
  counter : Z;
}.

(** One line pair of the rounds: [x[a] += x[b]; x[d] = rotl32(x[d] ^ x[a], n);] *)
Definition add32 (x y : Z) : Z := u32 (x + y).
Definition xrot (x y n : Z) : Z := rotl32 (Z.lxor x y) n.

Definition arx (x : list Z) (l : nat * nat * nat * Z) : list Z :=
  let '(a, b, d, n) := l in
  let x := <[a := add32 (aget 0 x a) (aget 0 x b)]> x in
  <[d := xrot (aget 0 x d) (aget 0 x a) n]> x.

(** The body of the round loop, in source order. *)
Definition round_lines : list (nat * nat * nat * Z) :=
  [(0, 4, 12, 16%Z); (1, 5, 13, 16%Z); (2, 6, 14, 16%Z); (3, 7, 15, 16%Z);
   (8, 12, 4, 12%Z); (9, 13, 5, 12%Z); (10, 14, 6, 12%Z); (11, 15, 7, 12%Z);
   (0, 4, 12, 8%Z); (1, 5, 13, 8%Z); (2, 6, 14, 8%Z); (3, 7, 15, 8%Z);
   (8, 12, 4, 7%Z); (9, 13, 5, 7%Z); (10, 14, 6, 7%Z); (11, 15, 7, 7%Z);
   (0, 5, 15, 16%Z); (1, 6, 12, 16%Z); (2, 7, 13, 16%Z); (3, 4, 14, 16%Z);
   (10, 15, 5, 12%Z); (11, 12, 6, 12%Z); (8, 13, 7, 12%Z); (9, 14, 4, 12%Z);
   (0, 5, 15, 8%Z); (1, 6, 12, 8%Z); (2, 7, 13, 8%Z); (3, 4, 14, 8%Z);
   (10, 15, 5, 7%Z); (11, 12, 6, 7%Z); (8, 13, 7, 7%Z); (9, 14, 4, 7%Z)]%nat.

Definition round_body (x : list Z) : list Z := foldl arx x round_lines.

Definition chacha20_next_block (ctx : chacha20_ctx) : chacha20_ctx :=
  let x := Nat.iter 10 round_body (state ctx) in
  let ks := zip_with add32 x (state ctx) in
  let c := add32 (aget 0 (state ctx) 12) 1 in
  let st := <[12%nat := c]> (state ctx) in
  let st := if c =? 0 then <[13%nat := add32 (aget 0 st 13) 1]> st else st in
  mkCtx st ks (position ctx).

Definition magic : list Z :=
  [101; 120; 112; 97; 110; 100; 32; 51; 50; 45; 98; 121; 116; 101; 32; 107].

Definition load_words (p : list Z) (n : nat) : list Z :=
  map (fun i => load32_le (drop (4 * i) p)) (seq 0 n).

Definition chacha20_init (key nonce : list Z) (counter : Z) : chacha20_ctx :=
  mkCtx (load_words magic 4 ++ load_words key 8 ++ [counter] ++ load_words nonce 3)
    (replicate 16 0) CHACHA20_BLOCK_SIZE.

(** The key stream read as bytes. *)
Definition ks_bytes (ctx : chacha20_ctx) : list Z := concat (map (le_bytes 4) (keystream32 ctx)).

(** One byte of key stream, as both byte loops take it. *)
Definition next_byte (ctx : chacha20_ctx) : Z * chacha20_ctx :=
  let ctx :=
    if CHACHA20_BLOCK_SIZE <=? position ctx then
      let c := chacha20_next_block ctx in mkCtx (state c) (keystream32 c) 0
    else ctx in
  (aget 0 (ks_bytes ctx) (Z.to_nat (position ctx)),
   mkCtx (state ctx) (keystream32 ctx) (position ctx + 1)).

Fixpoint chacha20_encrypt (ctx : chacha20_ctx) (data : list Z) : list Z * chacha20_ctx :=
  match data with
  | [] => ([], ctx)
  | b :: data' =>
      let '(k, ctx) := next_byte ctx in
      let '(out, ctx) := chacha20_encrypt ctx data' in
      (Z.lxor b k :: out, ctx)
  end.

Fixpoint stream (ctx : chacha20_ctx) (n : nat) : list Z * chacha20_ctx :=
  match n with
  | O => ([], ctx)
  | S n' =>
      let '(k, ctx) := next_byte ctx in
      let '(out, ctx) := stream ctx n' in
      (k :: out, ctx)
  end.

Definition chacha20_rng_reseed (seed : list Z) : chacha20_rng :=
  mkRng (chacha20_init seed (replicate 12 0) 0) 0.

Definition chacha20_rng_init (seed : list Z) : chacha20_rng := chacha20_rng_reseed seed.

Definition chacha20_rng_bytes_unlocked (rng : chacha20_rng) (len : nat) : list Z * chacha20_rng :=
  let '(buf, ctx) := stream (inner rng) len in
  (buf, mkRng ctx (u64 (counter rng + Z.of_nat len))).

Definition chacha20_rng_bytes (rng : chacha20_rng) (len : nat) : list Z * chacha20_rng :=
  chacha20_rng_bytes_unlocked rng len.

(** The string [kyronix kyronix], zero padded. *)
Definition fold_init : list Z :=
  [107; 121; 114; 111; 110; 105; 120; 32; 107; 121; 114; 111; 110; 105; 120] ++ replicate 49 0.

(** One chunk of at most 64 bytes at offset [off]. *)
Definition fold_chunk (st : list Z) (off : nat) (chunk : list Z) : list Z :=
  let st := imap (fun i s =>
    match chunk !! i with
    | Some d => Z.lxor s (u8 (d + u8 (Z.of_nat (off + i))))
    | None => s
    end) st in
  let st := blit st 44 (store32_le (Z.of_nat (off / 64))) in
  let ctx := chacha20_init st (drop 32 st) 0 in
  let block := fst (chacha20_encrypt ctx st) in
  imap (fun i b => Z.lxor b (u8 (aget 0 st ((i + 17) mod 64) + Z.of_nat i))) block.

Fixpoint fold_loop (fuel : nat) (st : list Z) (off : nat) (data : list Z) : list Z :=
  match fuel with
  | O => st
  | S f =>
      match data with
      | [] => st
      | _ => fold_loop f (fold_chunk st off (take 64 data)) (off + 64) (drop 64 data)
      end
  end.

Definition chacha20_rng_fold (data : list Z) : list Z :=
  let st := blit fold_init 48 (store64_le (Z.of_nat (length data))) in
  let st := fold_loop (length data) st 0 data in
  zip_with Z.lxor (take 32 st) (drop 32 st).

Definition chacha20_rng_mix (rng : chacha20_rng) (data : list Z) : chacha20_rng :=
  match data with
  | [] => rng
  | _ =>
      let folded := chacha20_rng_fold data in
      let '(seed, _) := chacha20_rng_bytes_unlocked rng 32 in
      chacha20_rng_reseed (zip_with Z.lxor seed folded)
  end.

(** ** The block function of RFC 8439 *)

Definition quarter_round (a b c d : nat) (x : list Z) : list Z :=
  foldl arx x [(a, b, d, 16); (c, d, b, 12); (a, b, d, 8); (c, d, b, 7)].

Definition double_round (x : list Z) : list Z :=
  let x := quarter_round 0 4 8 12 x in
  let x := quarter_round 1 5 9 13 x in
  let x := quarter_round 2 6 10 14 x in
  let x := quarter_round 3 7 11 15 x in
  let x := quarter_round 0 5 10 15 x in
  let x := quarter_round 1 6 11 12 x in
  let x := quarter_round 2 7 8 13 x in
  quarter_round 3 4 9 14 x.

Definition rfc_block (st : list Z) : list Z := zip_with add32 (Nat.iter 10 double_round st) st.

(** The 64-bit block counter in words 12 and 13. *)
Definition block_counter (st : list Z) : Z := aget 0 st 12 + 2 ^ 32 * aget 0 st 13.

Definition ctx_ok (ctx : chacha20_ctx) : Prop :=
  length (state ctx) = 16%nat /\ Forall is_u32 (state ctx) /\ length (keystream32 ctx) = 16%nat /\
  0 <= position ctx <= 64.

Lemma length_arx x l : length (arx x l) = length x.
Proof. destruct l as [[[a b] d] n]. unfold arx. by rewrite !length_insert. Qed.

Lemma length_foldl_arx x ls : length (foldl arx x ls) = length x.
Proof. revert x. induction ls as [|l ls IH]; intros x; simpl; [done|]. by rewrite IH, length_arx. Qed.

(** The interleaved lines of the loop body compute one double round. *)
Lemma round_body_double_round x : length x = 16%nat -> round_body x = double_round x.
Proof.
  intros Hx. do 16 (destruct x as [|? x]; [discriminate Hx|]). destruct x; [|discriminate Hx]. clear Hx.
  unfold round_body, round_lines, double_round, quarter_round, arx.
  generalize add32, xrot. intros add rot. vm_compute. reflexivity.
Qed.

Lemma length_round_body x : length (round_body x) = length x.
Proof. apply length_foldl_arx. Qed.

#[local] Opaque round_body double_round.

Lemma rounds_rfc n x :
  length x = 16%nat ->
  Nat.iter n round_body x = Nat.iter n double_round x /\ length (Nat.iter n round_body x) = 16%nat.
Proof.
  intros Hx. induction n as [|n [IH Hl]]; [split; [reflexivity|exact Hx]|].
  rewrite !Nat.iter_succ, length_round_body. split; [|exact Hl].
  rewrite round_body_double_round by exact Hl. by rewrite IH.
Qed.

Lemma next_block_keystream ctx :
  keystream32 (chacha20_next_block ctx) = zip_with add32 (Nat.iter 10 round_body (state ctx)) (state ctx).
Proof. reflexivity. Qed.

Lemma next_block_state ctx :
  state (chacha20_next_block ctx) =
    let c := add32 (aget 0 (state ctx) 12) 1 in
    let st := <[12%nat := c]> (state ctx) in
    if c =? 0 then <[13%nat := add32 (aget 0 st 13) 1]> st else st.
Proof. reflexivity. Qed.

Lemma keystream_length ctx :
  length (state ctx) = 16%nat -> length (keystream32 (chacha20_next_block ctx)) = 16%nat.
Proof.
  intros Hs. rewrite next_block_keystream. destruct (rounds_rfc 10 (state ctx) Hs) as [_ Hl]. by rewrite length_zip_with, Hl, Hs.
Qed.

Lemma block_counter_inc st :
  length st = 16%nat -> Forall is_u32 st ->
  block_counter (let c := add32 (aget 0 st 12) 1 in
    let st' := <[12%nat := c]> st in
    if c =? 0 then <[13%nat := add32 (aget 0 st' 13) 1]> st' else st') = u64 (block_counter st + 1).
Proof.
  intros Hl Hu. pose proof (aget_u32 st 12 Hu) as H12. pose proof (aget_u32 st 13 Hu) as H13.
  do 16 (destruct st as [|? st]; [done|]). destruct st; [|done]. clear Hl Hu.
  unfold block_counter, add32, aget in *. simpl in *. unfold is_u32 in *.
  assert (Hc : u32 (z11 + 1) = if z11 =? 2 ^ 32 - 1 then 0 else z11 + 1).
  { case_if; [subst; done|]. apply u32_small. unfold is_u32. lia. }
  rewrite Hc. destruct (Z.eqb_spec z11 (2 ^ 32 - 1)) as [->|Hne].
  - simpl. assert (Hd : u32 (z12 + 1) = if z12 =? 2 ^ 32 - 1 then 0 else z12 + 1).
    { case_if; [subst; done|]. apply u32_small. unfold is_u32. lia. }
    rewrite Hd. unfold u64. case_if; [subst; done|]. rewrite Z.mod_small by lia. lia.
  - rewrite (proj2 (Z.eqb_neq (z11 + 1) 0)) by lia. simpl. rewrite u64_small by (unfold is_u64; lia). lia.
Qed.

Lemma next_block_ok ctx : ctx_ok ctx -> ctx_ok (chacha20_next_block ctx).
Proof.
  intros (Hl & Hu & Hk & Hp). split_and!; [| |by apply keystream_length|cbn; lia|cbn; lia].
  - rewrite next_block_state. cbv zeta. case_raw; by rewrite ?length_insert.
  - rewrite next_block_state. cbv zeta. assert (Forall is_u32 (<[12%nat := add32 (aget 0 (state ctx) 12) 1]> (state ctx)))
      by (apply Forall_insert; [done|apply u32_range]).
    case_raw; [apply Forall_insert; [done|apply u32_range]|done].
Qed.



(** The first block of the example in section 2.3.2 of RFC 8439. *)
Example rfc8439_vector :
  keystream32 (chacha20_next_block
    (chacha20_init (map Z.of_nat (seq 0 32)) [0; 0; 0; 9; 0; 0; 0; 0x4a; 0; 0; 0; 0] 1)) =
  [0xe4e7f110; 0x15593bd1; 0x1fdd0f50; 0xc47120a3; 0xc7f4d1c7; 0x0368c033; 0x9aaa2204; 0x4e6cd4c3;
   0x466482d2; 0x09aa9f07; 0x05d7c214; 0xa2028bd9; 0xd19c12b5; 0xb94e16de; 0xe883d0cb; 0x4e3c50a2].
Proof. vm_compute. reflexivity. Qed.

(** ** The cipher as a stream *)

Lemma encrypt_stream ctx data :
  chacha20_encrypt ctx data =
    (zip_with Z.lxor data (fst (stream ctx (length data))), snd (stream ctx (length data))).
Proof.
  revert ctx. induction data as [|b data IH]; intros ctx; [done|]. cbn [chacha20_encrypt stream length].
  destruct (next_byte ctx) as [k c]. rewrite IH. by destruct (stream c (length data)).
Qed.

Lemma stream_app ctx n k :
  stream ctx (n + k) =
    (fst (stream ctx n) ++ fst (stream (snd (stream ctx n)) k), snd (stream (snd (stream ctx n)) k)).
Proof.
  revert ctx. induction n as [|n IH]; intros ctx; cbn [Nat.add stream].
  { cbn [fst snd app]. apply surjective_pairing. }
  destruct (next_byte ctx) as [b c]. rewrite IH. by destruct (stream c n).
Qed.

Lemma stream_length ctx n : length (fst (stream ctx n)) = n.
Proof.
  revert ctx. induction n as [|n IH]; intros ctx; [done|]. cbn [stream].
  destruct (next_byte ctx) as [b c]. specialize (IH c). destruct (stream c n). simpl in *. by rewrite IH.
Qed.

Lemma xor_twice data ks : length data = length ks -> zip_with Z.lxor (zip_with Z.lxor data ks) ks = data.
Proof.
  revert ks. induction data as [|b data IH]; intros [|k ks] Hl; simplify_eq/=; [done|].
  rewrite IH by done. by rewrite Z.lxor_assoc, Z.lxor_nilpotent, Z.lxor_0_r.
Qed.

(** [chacha20_encrypt] is its own inverse and is independent of how the data
    is cut into calls: running it twice from the same context gives the data
    back and leaves the same context, and encrypting two pieces one after the
    other is encrypting their concatenation. *)
Theorem chacha20_encrypt_roundtrip ctx d1 d2 :
  let '(out1, c1) := chacha20_encrypt ctx d1 in
  let '(out2, c2) := chacha20_encrypt c1 d2 in
  chacha20_encrypt ctx (d1 ++ d2) = (out1 ++ out2, c2) /\
  chacha20_encrypt ctx (out1 ++ out2) = (d1 ++ d2, c2).
Proof.
  rewrite !encrypt_stream. cbn [fst snd]. set (s1 := stream ctx (length d1)).
  set (s2 := stream (snd s1) (length d2)).
  assert (Hs : stream ctx (length d1 + length d2) = (fst s1 ++ fst s2, snd s2)) by apply stream_app.
  assert (H1 : length (fst s1) = length d1) by apply stream_length.
  assert (H2 : length (fst s2) = length d2) by apply stream_length.
  assert (Hz : zip_with Z.lxor (d1 ++ d2) (fst s1 ++ fst s2) =
                 zip_with Z.lxor d1 (fst s1) ++ zip_with Z.lxor d2 (fst s2))
    by (apply zip_with_app; by rewrite H1).
  split.
  - rewrite length_app, Hs. cbn [fst snd]. by rewrite Hz.
  - rewrite length_app, !length_zip_with, H1, H2, !Nat.min_id, Hs. cbn [fst snd].
    rewrite <-Hz, xor_twice; [done|]. by rewrite !length_app, H1, H2.
Qed.

(** The generator hands out the key stream of its seed: two requests give what
    one request of the total length gives. *)
Lemma rng_bytes_stream rng n k :
  0 <= counter rng < 2 ^ 64 ->
  chacha20_rng_bytes rng (n + k) =
    (let '(b1, r1) := chacha20_rng_bytes rng n in
     let '(b2, r2) := chacha20_rng_bytes r1 k in (b1 ++ b2, r2)).
Proof.
  intros Hc. unfold chacha20_rng_bytes, chacha20_rng_bytes_unlocked. rewrite stream_app.
  destruct (stream (inner rng) n) as [b1 c1]. cbn [fst snd inner counter].
  destruct (stream c1 k) as [b2 c2]. cbn [fst snd]. do 2 f_equal.
  unfold u64. rewrite Zplus_mod_idemp_l. f_equal. lia.
Qed.

Lemma fold_loop_done fuel st off data :
  (length data <= 64 * fuel)%nat -> forall k, fold_loop (fuel + k) st off data = fold_loop fuel st off data.
Proof.
  revert st off data. induction fuel as [|f IH]; intros st off data Hl k; cbn [Nat.add fold_loop].
  - destruct data; [by destruct k|simpl in Hl; lia].
  - destruct data as [|b data]; [done|]. apply IH. rewrite length_drop. lia.
Qed.
