(* ===== verification/Ns.v ===== *)
(** * Ns: user and pid namespaces.

    Models the user-namespace part of [kernel/proc/ns.c] (id maps, the parser of
    [/proc/<pid>/uid_map], [setgroups]) and its pid-namespace tables.  A user
    namespace is [None] for [init_user_ns] and otherwise its record, of which the
    first [nuid_map] and [ngid_map] map entries are kept as lists.  Text is a list
    of bytes; [readable] is the verdict of [uptr_ok] on the caller's buffer. *)

From S2P Require Import Prelude Bytes KString Printf.

Definition EPERM := 1.
Definition ENOENT := 2.
Definition ESRCH := 3.
Definition EAGAIN := 11.
Definition ENOMEM := 12.
Definition EACCES := 13.
Definition EFAULT := 14.
Definition EINVAL := 22.
Definition ENOSPC := 28.

Definition NS_UID_GID_MAP_MAX := 5%nat.
Definition NS_PID_MAX := 64.
Definition NOBODY := 65534.

Record ns_uid_gid_map_t := mkMap {
  inside : Z;
  outside : Z;
  count : Z;
}.

Record user_namespace_t := mkUns {
  owner : Z;
  map_written : bool;
  gid_map_written : bool;
  groups_disabled : bool;
  uid_map : list ns_uid_gid_map_t;
  gid_map : list ns_uid_gid_map_t;
}.

Definition userns := option user_namespace_t.

(** [user_ns_create], once the memory is there. *)
Definition user_ns_create (owner : Z) : user_namespace_t := mkUns owner false false false [] [].

(** ** Id translation *)

Fixpoint maps_to_local (maps : list ns_uid_gid_map_t) (k : Z) : option Z :=
  match maps with
  | [] => None
  | m :: rest =>
      let off := u64 (k - outside m) in
      if (outside m <=? k) && (off <? count m) then Some (u32 (inside m + u32 off))
      else maps_to_local rest k
  end.

Fixpoint maps_to_kid (maps : list ns_uid_gid_map_t) (u : Z) : option Z :=
  match maps with
  | [] => None
  | m :: rest =>
      let off := u64 (u - inside m) in
      if (inside m <=? u) && (off <? count m) then Some (u32 (outside m + u32 off))
      else maps_to_kid rest u
  end.

(** [None] is the failure [-1]; the output is then [65534] for the first two. *)
Definition ns_uid_to_local (ns : userns) (kuid : Z) : option Z :=
  match ns with None => Some kuid | Some n => maps_to_local (uid_map n) kuid end.

Definition ns_gid_to_local (ns : userns) (kgid : Z) : option Z :=
  match ns with None => Some kgid | Some n => maps_to_local (gid_map n) kgid end.

Definition ns_local_to_kuid (ns : userns) (uid : Z) : option Z :=
  match ns with None => Some uid | Some n => maps_to_kid (uid_map n) uid end.

Definition ns_local_to_kgid (ns : userns) (gid : Z) : option Z :=
  match ns with None => Some gid | Some n => maps_to_kid (gid_map n) gid end.

(** ** Writing a map *)

Definition is_blank (c : Z) : bool := (c =? ch_space) || (c =? ch_tab).
Definition is_eol (c : Z) : bool := (c =? ch_nl) || (c =? ch_cr).

(** The digit loop; [None] when the value leaves 32 bits. *)
Fixpoint span_digits (v : Z) (s : list Z) : option (Z * list Z) :=
  match s with
  | c :: s' =>
      if is_digit c then
        let v := v * 10 + (c - ch_0) in
        if 0xffffffff <? v then None else span_digits v s'
      else Some (v, s)
  | [] => Some (v, [])
  end.

Definition parse_u32_span (s : list Z) : option (Z * list Z) :=
  let s := skip_while is_blank s in
  match s with
  | [] => None
  | c :: _ =>
      if negb (is_digit c) then None else
      match span_digits 0 s with
      | None => None
      | Some (v, s) => Some (v, skip_while is_blank s)
      end
  end.

(** The overlap test of a new entry against an entry accepted before. *)
Definition overlaps (ins outs n : Z) (m : ns_uid_gid_map_t) : bool :=
  ((ins <? inside m + count m) && (inside m <? ins + n)) ||
  ((outs <? outside m + count m) && (outside m <? outs + n)).

(** One line: the entry and the rest of the text, or [None] for [-EINVAL]. *)
Definition map_line (s : list Z) (maps : list ns_uid_gid_map_t) :
    option (ns_uid_gid_map_t * list Z) :=
  match parse_u32_span s with
  | None => None
  | Some (ins, s) =>
  match parse_u32_span s with
  | None => None
  | Some (outs, s) =>
  match parse_u32_span s with
  | None => None
  | Some (n, s) =>
      if n =? 0 then None else
      if 0x100000000 <? ins + n then None else
      if 0x100000000 <? outs + n then None else
      if existsb (overlaps ins outs n) maps then None else
      let s := skip_while is_blank s in
      if match s with c :: _ => negb (is_eol c) | [] => false end then None
      else Some (mkMap ins outs n, s)
  end end end.

(** [while (s < end)]: the outer [None] is a loop that needs more fuel, the inner
    one is [-EINVAL]. *)
Fixpoint map_loop (fuel : nat) (s : list Z) (maps : list ns_uid_gid_map_t) :
    option (option (list ns_uid_gid_map_t)) :=
  match fuel with
  | O => None
  | S f =>
      match skip_while (fun c => is_eol c || is_blank c) s with
      | [] => Some (Some maps)
      | s =>
          if (NS_UID_GID_MAP_MAX <=? length maps)%nat then Some None else
          match map_line s maps with
          | None => Some None
          | Some (m, s) => map_loop f s (maps ++ [m])
          end
      end
  end.

Definition set_map (gid : bool) (maps : list ns_uid_gid_map_t) (ns : user_namespace_t) : user_namespace_t :=
  if gid then mkUns (owner ns) (map_written ns) true (groups_disabled ns) (uid_map ns) maps
  else mkUns (owner ns) true (gid_map_written ns) (groups_disabled ns) maps (gid_map ns).

(** The result with the namespace; each round of the loop takes at least five
    characters, so the length of the text is enough fuel. *)
Definition user_map_write (readable : bool) (ns : user_namespace_t) (gid : bool) (buf : list Z) :
    Z * user_namespace_t :=
  if (blen buf =? 0) || (512 <=? blen buf) then (- EINVAL, ns) else
  if negb readable then (- EFAULT, ns) else
  if (gid && gid_map_written ns) || (negb gid && map_written ns) then (- EPERM, ns) else
  if gid && negb (groups_disabled ns) then (- EPERM, ns) else
  match map_loop (S (length buf)) buf [] with
  | Some (Some (m :: maps)) => (0, set_map gid (m :: maps) ns)
  | _ => (- EINVAL, ns)
  end.

(** [self] is [target == cur()]. *)
Definition ns_user_map_write (self host_priv readable : bool) (ns : userns) (gid : bool) (buf : list Z) :
    Z * userns :=
  match ns with
  | None => (- EPERM, None)
  | Some n =>
      if negb self && negb host_priv then (- EPERM, ns) else
      let '(r, n') := user_map_write readable n gid buf in (r, Some n')
  end.

(** The text [0 0 4294967295] of the initial namespace. *)
Definition init_map_text : list Z := [48; 32; 48; 32; 52; 50; 57; 52; 57; 54; 55; 50; 57; 53; 10].

(** The lines that fit: [snprintf] into what is left, up to the first that does not. *)
Fixpoint map_lines (room : Z) (maps : list ns_uid_gid_map_t) : list Z :=
  match maps with
  | [] => []
  | m :: rest =>
      let '(out, n) := snprintf room fmt_map [ArgInt (inside m); ArgInt (outside m); ArgInt (count m)] in
      if room <=? n then [] else cstr out ++ map_lines (room - n) rest
  end.

Definition ns_user_map_read (ns : userns) (gid : bool) (len : Z) : list Z :=
  match ns with
  | None => take (Z.to_nat len) init_map_text
  | Some n => map_lines len (if gid then gid_map n else uid_map n)
  end.

Definition text_deny : list Z := [100; 101; 110; 121].
Definition text_allow : list Z := [97; 108; 108; 111; 119].

Definition ns_user_setgroups_write (self host_priv readable : bool) (ns : userns) (buf : list Z) :
    Z * userns :=
  match ns with
  | None => (- EPERM, None)
  | Some n =>
      if negb self && negb host_priv then (- EPERM, ns) else
      if gid_map_written n then (- EPERM, ns) else
      if (blen buf =? 0) || (16 <=? blen buf) then (- EINVAL, ns) else
      if negb readable then (- EFAULT, ns) else
      let set d := Some (mkUns (owner n) (map_written n) (gid_map_written n) d (uid_map n) (gid_map n)) in
      if (4 <=? blen buf) && (memcmp buf text_deny 4 =? 0) then (0, set true) else
      if (5 <=? blen buf) && (memcmp buf text_allow 5 =? 0) then (0, set false) else
      (- EINVAL, ns)
  end.

(** ** Maps are partial bijections *)

Definition entry_ok (m : ns_uid_gid_map_t) : Prop :=
  0 <= inside m /\ 0 <= outside m /\ 0 < count m < 2 ^ 32 /\
  inside m + count m <= 2 ^ 32 /\ outside m + count m <= 2 ^ 32.

Definition covers_in (m : ns_uid_gid_map_t) (u : Z) : Prop := inside m <= u < inside m + count m.
Definition covers_out (m : ns_uid_gid_map_t) (k : Z) : Prop := outside m <= k < outside m + count m.

(** No id is covered by two entries. *)
Record maps_ok (maps : list ns_uid_gid_map_t) : Prop := {
  mo_entries : Forall entry_ok maps;
  mo_nodup : NoDup maps;
  mo_in : forall m1 m2 u, m1 ∈ maps -> m2 ∈ maps -> covers_in m1 u -> covers_in m2 u -> m1 = m2;
  mo_out : forall m1 m2 k, m1 ∈ maps -> m2 ∈ maps -> covers_out m1 k -> covers_out m2 k -> m1 = m2;
}.

Lemma maps_ok_nil : maps_ok [].
Proof. split; [done|constructor|intros ??? H; by apply elem_of_nil in H..]. Qed.

Lemma maps_ok_app maps m :
  maps_ok maps -> entry_ok m -> existsb (overlaps (inside m) (outside m) (count m)) maps = false ->
  maps_ok (maps ++ [m]).
Proof.
  intros [He Hn Hi Ho] Hm Hx.
  assert (Hno : forall m', m' ∈ maps -> (forall u, covers_in m u -> covers_in m' u -> False) /\
                                (forall k, covers_out m k -> covers_out m' k -> False)).
  { intros m' Hin. assert (overlaps (inside m) (outside m) (count m) m' = false) as Hov.
    { destruct (overlaps _ _ _ m') eqn:E; [|done].
      rewrite <-Hx. symmetry. apply existsb_exists. exists m'. by rewrite <-list_elem_of_In. }
    unfold overlaps in Hov. apply orb_false_iff in Hov as [H1 H2].
    unfold covers_in, covers_out. apply andb_false_iff in H1, H2. rewrite !Z.ltb_ge in H1, H2. split; intros; lia. }
  split.
  - apply Forall_app. by split; [|constructor].
  - apply NoDup_app. split_and!; [done| |apply NoDup_singleton].
    intros m' Hin ->%list_elem_of_singleton. destruct (Hno m Hin) as [Hc _].
    apply (Hc (inside m)); unfold entry_ok, covers_in in *; lia.
  - intros m1 m2 u [H1| ->]%elem_of_snoc [H2| ->]%elem_of_snoc;
      eauto; intros; exfalso; [destruct (Hno m1 H1)|destruct (Hno m2 H2)]; eauto.
  - intros m1 m2 u [H1| ->]%elem_of_snoc [H2| ->]%elem_of_snoc;
      eauto; intros; exfalso; [destruct (Hno m1 H1)|destruct (Hno m2 H2)]; eauto.
Qed.

(** An id inside an entry is found, and translated by the offset. *)
Lemma to_local_hit m k : entry_ok m -> is_u32 k ->
  (outside m <=? k) && (u64 (k - outside m) <? count m) = true <-> covers_out m k.
Proof.
  unfold entry_ok, covers_out, is_u32. intros Hm Hk. rewrite andb_true_iff, Z.leb_le, Z.ltb_lt.
  destruct (Z.le_gt_cases (outside m) k); [|lia]. rewrite u64_small by (unfold is_u64; lia). lia.
Qed.

Lemma to_kid_hit m u : entry_ok m -> is_u32 u ->
  (inside m <=? u) && (u64 (u - inside m) <? count m) = true <-> covers_in m u.
Proof.
  unfold entry_ok, covers_in, is_u32. intros Hm Hk. rewrite andb_true_iff, Z.leb_le, Z.ltb_lt.
  destruct (Z.le_gt_cases (inside m) u); [|lia]. rewrite u64_small by (unfold is_u64; lia). lia.
Qed.

Lemma shift_u32 base x lo n :
  0 <= base -> base + n <= 2 ^ 32 -> lo <= x < lo + n -> 0 <= lo -> lo + n <= 2 ^ 32 ->
  u32 (base + u32 (u64 (x - lo))) = base + (x - lo).
Proof.
  intros. rewrite u64_small by (unfold is_u64; lia). rewrite (u32_small (x - lo)) by (unfold is_u32; lia).
  apply u32_small. unfold is_u32. lia.
Qed.

Lemma maps_to_local_spec maps k u :
  maps_ok maps -> is_u32 k ->
  maps_to_local maps k = Some u <->
  exists m, m ∈ maps /\ covers_out m k /\ u = inside m + (k - outside m).
Proof.
  intros [He _ _ Ho] Hk.
  assert (Hfind : forall l, Forall entry_ok l ->
    match maps_to_local l k with
    | Some u => exists m, m ∈ l /\ covers_out m k /\ u = inside m + (k - outside m)
    | None => forall m, m ∈ l -> ~ covers_out m k
    end).
  { induction 1 as [|m l Hm Hl IH]; simpl; [by intros m ?%elem_of_nil|].
    pose proof (to_local_hit m k Hm Hk) as Hhit. destruct (_ && _).
    - exists m. assert (covers_out m k) as Hc by tauto. split_and!; [left|done|].
      unfold entry_ok, covers_out in *. apply (shift_u32 _ _ _ (count m)); lia.
    - destruct (maps_to_local l k) as [v|].
      + destruct IH as (m' & Hin & Hm'). exists m'. split; [by right|done].
      + intros m' [->|Hin]%elem_of_cons Hc; [|by apply (IH m')]. by apply Hhit in Hc. }
  specialize (Hfind maps He). split.
  - intros Heq. by rewrite Heq in Hfind.
  - intros (m & Hin & Hc & ->). destruct (maps_to_local maps k) as [v|].
    + destruct Hfind as (m' & Hin' & Hc' & ->). by rewrite (Ho m m' k).
    + by apply Hfind in Hc.
Qed.

Lemma maps_to_kid_spec maps u k :
  maps_ok maps -> is_u32 u ->
  maps_to_kid maps u = Some k <->
  exists m, m ∈ maps /\ covers_in m u /\ k = outside m + (u - inside m).
Proof.
  intros [He _ Hi _] Hu.
  assert (Hfind : forall l, Forall entry_ok l ->
    match maps_to_kid l u with
    | Some k => exists m, m ∈ l /\ covers_in m u /\ k = outside m + (u - inside m)
    | None => forall m, m ∈ l -> ~ covers_in m u
    end).
  { induction 1 as [|m l Hm Hl IH]; simpl; [by intros m ?%elem_of_nil|].
    pose proof (to_kid_hit m u Hm Hu) as Hhit. destruct (_ && _).
    - exists m. assert (covers_in m u) as Hc by tauto. split_and!; [left|done|].
      unfold entry_ok, covers_in in *. apply (shift_u32 _ _ _ (count m)); lia.
    - destruct (maps_to_kid l u) as [v|].
      + destruct IH as (m' & Hin & Hm'). exists m'. split; [by right|done].
      + intros m' [->|Hin]%elem_of_cons Hc; [|by apply (IH m')]. by apply Hhit in Hc. }
  specialize (Hfind maps He). split.
  - intros Heq. by rewrite Heq in Hfind.
  - intros (m & Hin & Hc & ->). destruct (maps_to_kid maps u) as [v|].
    + destruct Hfind as (m' & Hin' & Hc' & ->). by rewrite (Hi m m' u).
    + by apply Hfind in Hc.
Qed.

(** The two directions of a map are inverse to each other. *)
Lemma maps_inverse maps u k :
  maps_ok maps -> is_u32 u -> is_u32 k ->
  maps_to_kid maps u = Some k <-> maps_to_local maps k = Some u.
Proof.
  intros Hok Hu Hk. rewrite maps_to_kid_spec, maps_to_local_spec by done.
  unfold covers_in, covers_out. split; intros (m & Hin & Hc & ->); exists m; split_and!; try done; lia.
Qed.

(** ** The parser *)

Lemma skip_while_length P s : (length (skip_while P s) <= length s)%nat.
Proof. induction s as [|c s IH]; simpl; [lia|]. case_raw; simpl; lia. Qed.

Lemma span_digits_length v s n r : span_digits v s = Some (n, r) -> (length r <= length s)%nat.
Proof.
  revert v. induction s as [|c s IH]; intros v; cbn [span_digits]; [by intros; simplify_eq|].
  case_raw; [|intros; simplify_eq; done]. cbv zeta. case_raw; [done|]. intros H%IH. simpl. lia.
Qed.

Lemma span_digits_range v s n r : 0 <= v <= 0xffffffff -> span_digits v s = Some (n, r) -> is_u32 n.
Proof.
  revert v. induction s as [|c s IH]; intros v Hv; cbn [span_digits]; [intros; simplify_eq; unfold is_u32; lia|].
  case_raw; [|intros; simplify_eq; unfold is_u32; lia]. cbv zeta. case_raw; [done|]. apply IH.
  unfold is_digit, ch_0, ch_9 in *. dest_bool. lia.
Qed.

Lemma parse_u32_span_spec s n r : parse_u32_span s = Some (n, r) -> is_u32 n /\ (length r < length s)%nat.
Proof.
  unfold parse_u32_span. pose proof (skip_while_length is_blank s) as Hs.
  destruct (skip_while is_blank s) as [|c s']; [done|]. case_raw; [done|]. dest_bool.
  destruct (span_digits 0 (c :: s')) as [[v r']|] eqn:E; [|done]. intros [= <- <-].
  split; [eapply (span_digits_range 0); [lia|done]|].
  cbn [span_digits] in E. rewrite Heqb in E. cbv zeta in E. case_raw; [done|]. apply span_digits_length in E.
  pose proof (skip_while_length is_blank r'). simpl in Hs. lia.
Qed.

Lemma map_line_spec s maps m r :
  map_line s maps = Some (m, r) ->
  entry_ok m /\ existsb (overlaps (inside m) (outside m) (count m)) maps = false /\ (length r < length s)%nat.
Proof.
  unfold map_line. destruct (parse_u32_span s) as [[a s1]|] eqn:E1; [|done].
  destruct (parse_u32_span s1) as [[b s2]|] eqn:E2; [|done].
  destruct (parse_u32_span s2) as [[n s3]|] eqn:E3; [|done].
  apply parse_u32_span_spec in E1 as [Ha H1], E2 as [Hb H2], E3 as [Hn H3].
  pose proof (skip_while_length is_blank s3). cbv zeta. repeat (case_raw; [done|]).
  intros [= <- <-]. unfold entry_ok, is_u32 in *. simpl. dest_bool. split_and!; try done; lia.
Qed.

Lemma map_loop_spec fuel s maps :
  (length s < fuel)%nat -> maps_ok maps -> (length maps <= 5)%nat ->
  exists r, map_loop fuel s maps = Some r /\
    match r with Some maps' => maps_ok maps' /\ (length maps' <= 5)%nat | None => True end.
Proof.
  revert s maps. induction fuel as [|f IH]; intros s maps Hf Hok Hlen; [lia|]. cbn [map_loop].
  pose proof (skip_while_length (fun c => is_eol c || is_blank c) s) as Hs.
  destruct (skip_while _ s) as [|c s']; [by exists (Some maps)|].
  destruct (Nat.leb_spec NS_UID_GID_MAP_MAX (length maps)) as [|Hlt]; [by exists None|].
  destruct (map_line (c :: s') maps) as [[m r]|] eqn:E; [|by exists None].
  apply map_line_spec in E as (Hm & Hx & Hr). unfold NS_UID_GID_MAP_MAX in Hlt.
  apply IH; [lia|by apply maps_ok_app|rewrite length_app; simpl; lia].
Qed.

(** C36: writing [uid_map] or [gid_map] is safe.  The parser terminates on every
    text; a write that succeeds happens at most once per map and installs one to
    five entries whose two translations are inverse to each other, so that no two
    ids of the namespace name the same kernel id and conversely; a write that
    fails changes nothing. *)
Theorem user_map_write_bijective readable ns gid buf :
  map_loop (S (length buf)) buf [] <> None /\
  let '(r, ns') := user_map_write readable ns gid buf in
  (r = 0 /\ (if gid then gid_map_written ns else map_written ns) = false /\
   exists maps, ns' = set_map gid maps ns /\ maps <> [] /\ (length maps <= 5)%nat /\
     forall u k, is_u32 u -> is_u32 k ->
       (maps_to_kid maps u = Some k <-> maps_to_local maps k = Some u)) \/
  (r < 0 /\ ns' = ns).
Proof.
  destruct (map_loop_spec (S (length buf)) buf [] ltac:(lia) maps_ok_nil ltac:(simpl; lia)) as (r & Hr & Hok).
  split; [by rewrite Hr|]. unfold user_map_write, EINVAL, EFAULT, EPERM.
  case_raw; [by right|]. case_raw; [by right|]. case_raw; [by right|]. case_raw; [by right|].
  rewrite Hr. destruct r as [[|m maps]|]; [by right| |by right].
  left. split; [done|]. split.
  { destruct gid, (gid_map_written ns), (map_written ns); done. }
  exists (m :: maps). destruct Hok as [Hok Hl]. split_and!; try done. intros. by apply maps_inverse.
Qed.

(** ** Printing a map and reading it back *)

Lemma span_digits_app ds v rest :
  Forall (fun c => is_digit c = true) ds -> 0 <= v ->
  foldl (fun n c => n * 10 + (c - ch_0)) v ds <= 0xffffffff ->
  match rest with c :: _ => is_digit c = false | [] => True end ->
  span_digits v (ds ++ rest) = Some (foldl (fun n c => n * 10 + (c - ch_0)) v ds, rest).
Proof.
  intros Hds. revert v. induction Hds as [|c ds Hc Hds IH]; intros v Hv Hle Hrest; simpl.
  { destruct rest as [|c rest]; [done|]. simpl. by rewrite Hrest. }
  rewrite Hc. simpl in Hle.
  assert (Hmono : forall ds v, Forall (fun c => is_digit c = true) ds -> 0 <= v ->
            v <= foldl (fun n c => n * 10 + (c - ch_0)) v ds).
  { intros l. induction l as [|d l IHl]; intros w Hl Hw; simpl; [lia|].
    apply Forall_cons in Hl as [Hd Hl]. unfold is_digit, ch_0, ch_9 in Hd. dest_bool.
    specialize (IHl (w * 10 + (d - ch_0)) Hl ltac:(unfold ch_0; lia)). unfold ch_0 in *. lia. }
  assert (0 <= v * 10 + (c - ch_0)) by (unfold is_digit, ch_0, ch_9 in *; dest_bool; lia).
  specialize (Hmono ds (v * 10 + (c - ch_0)) Hds ltac:(done)).
  rewrite (proj2 (Z.ltb_ge _ _)) by lia. by apply IH.
Qed.

Lemma skip_while_id P c s : P c = false -> skip_while P (c :: s) = c :: s.
Proof. intros H. simpl. by rewrite H. Qed.

Lemma digit_not_blank c : is_digit c = true -> is_blank c = false /\ is_eol c = false.
Proof.
  unfold is_digit, is_blank, is_eol, ch_0, ch_9, ch_space, ch_tab, ch_nl, ch_cr. intros H. dest_bool.
  split; apply orb_false_iff; split; apply Z.eqb_neq; lia.
Qed.

(** A printed number followed by a separator is parsed back. *)
Lemma parse_udec v c rest :
  is_u32 v -> is_digit c = false ->
  parse_u32_span (udec v ++ c :: rest) = Some (v, skip_while is_blank (c :: rest)).
Proof.
  intros Hv Hc. destruct (udec_spec v Hv) as (Hval & Hds & Hne & _).
  assert (Hsp : span_digits 0 (udec v ++ c :: rest) = Some (v, c :: rest)).
  { unfold dec_value in Hval. rewrite span_digits_app; rewrite ?Hval; unfold is_u32 in *; try done; lia. }
  unfold parse_u32_span. destruct (udec v) as [|d ds]; [done|]. apply Forall_cons in Hds as [Hd _].
  cbn [app] in *. rewrite skip_while_id by (by apply digit_not_blank). rewrite Hd. cbn [negb]. by rewrite Hsp.
Qed.

Definition line_text (m : ns_uid_gid_map_t) : list Z :=
  udec (inside m) ++ ch_space :: udec (outside m) ++ ch_space :: udec (count m) ++ [ch_nl].

(** The end of the text after a line: another line or nothing. *)
Lemma map_line_text m maps rest :
  entry_ok m -> existsb (overlaps (inside m) (outside m) (count m)) maps = false ->
  map_line (line_text m ++ rest) maps = Some (m, ch_nl :: rest).
Proof.
  intros Hm Hx. unfold entry_ok in Hm. unfold map_line, line_text.
  replace ((udec (inside m) ++ ch_space :: udec (outside m) ++ ch_space :: udec (count m) ++ [ch_nl]) ++ rest)
    with (udec (inside m) ++ ch_space :: udec (outside m) ++ ch_space :: udec (count m) ++ ch_nl :: rest)
    by (rewrite <-app_assoc; cbn [app]; rewrite <-app_assoc; cbn [app]; by rewrite <-app_assoc).
  assert (Hskip : forall v r, is_u32 v ->
    skip_while is_blank (ch_space :: udec v ++ r) = udec v ++ r).
  { intros v r Hv. cbn [skip_while]. change (is_blank ch_space) with true. cbv iota.
    destruct (udec_spec v Hv) as (_ & Hds & Hne & _). destruct (udec v) as [|d ds]; [done|].
    apply Forall_cons in Hds as [Hd _]. cbn [app]. apply skip_while_id. by apply digit_not_blank. }
  rewrite parse_udec, Hskip, parse_udec, Hskip, parse_udec by (unfold is_u32; done || lia).
  rewrite (proj2 (Z.eqb_neq (count m) 0)), !(proj2 (Z.ltb_ge 0x100000000 _)), Hx by lia. cbn [skip_while].
  change (is_blank ch_nl) with false. cbv iota. cbn [skip_while]. change (is_blank ch_nl) with false. cbv iota.
  change (is_eol ch_nl) with true. cbn [negb]. by destruct m.
Qed.

Lemma no_overlap maps m :
  maps_ok (maps ++ [m]) -> existsb (overlaps (inside m) (outside m) (count m)) maps = false.
Proof.
  intros [He Hn Hi Ho]. apply not_true_iff_false. intros (m' & Hin & Hov)%existsb_exists.
  apply list_elem_of_In in Hin. apply NoDup_app in Hn as (_ & Hn & _). apply (Hn m' Hin).
  apply list_elem_of_singleton. assert (entry_ok m /\ entry_ok m') as [Hm Hm'].
  { rewrite Forall_forall in He. split; apply He, elem_of_snoc; auto. }
  assert (m' ∈ maps ++ [m] /\ m ∈ maps ++ [m]) as [H1 H2] by (rewrite !elem_of_snoc; auto).
  unfold overlaps in Hov. unfold entry_ok in *. apply orb_true_iff in Hov as [Hov|Hov]; dest_bool.
  - apply (Hi m' m (Z.max (inside m) (inside m')) H1 H2); unfold covers_in; lia.
  - apply (Ho m' m (Z.max (outside m) (outside m')) H1 H2); unfold covers_out; lia.
Qed.

Lemma maps_ok_prefix maps rest : maps_ok (maps ++ rest) -> maps_ok maps.
Proof.
  intros [He Hn Hi Ho]. apply Forall_app in He as [He _]. apply NoDup_app in Hn as (Hn & _ & _).
  split; [done|done| |]; intros m1 m2 x H1 H2; [apply Hi|apply Ho]; apply elem_of_app; auto.
Qed.

Definition map_text (maps : list ns_uid_gid_map_t) : list Z := concat (map line_text maps).

Lemma line_text_head m : entry_ok m -> exists c r, line_text m = c :: r /\ is_digit c = true.
Proof.
  intros Hm. unfold entry_ok in Hm. unfold line_text.
  destruct (udec_spec (inside m)) as (_ & Hds & Hne & _); [unfold is_u32; lia|].
  destruct (udec (inside m)) as [|d ds]; [done|]. apply Forall_cons in Hds as [Hd _]. by eexists d, _.
Qed.

Lemma map_loop_text fuel pre maps acc :
  (pre = [] \/ pre = [ch_nl]) -> (length maps < fuel)%nat ->
  maps_ok (acc ++ maps) -> (length (acc ++ maps) <= 5)%nat ->
  map_loop fuel (pre ++ map_text maps) acc = Some (Some (acc ++ maps)).
Proof.
  revert pre maps acc. induction fuel as [|f IH]; intros pre maps acc Hpre Hf Hok Hl; [lia|].
  assert (Hskip : skip_while (fun c => is_eol c || is_blank c) (pre ++ map_text maps) = map_text maps).
  { assert (H0 : skip_while (fun c => is_eol c || is_blank c) (map_text maps) = map_text maps).
    { destruct maps as [|m maps]; [done|]. unfold map_text. cbn [map concat].
      destruct (line_text_head m) as (c & r & -> & Hc).
      { destruct Hok as [He _ _ _]. apply Forall_app in He as [_ He]. by apply Forall_cons in He as [He _]. }
      cbn [app]. apply skip_while_id. destruct (digit_not_blank c Hc) as [-> ->]. done. }
    destruct Hpre as [->| ->]; exact H0. }
  cbn [map_loop]. rewrite Hskip. destruct maps as [|m maps]; [by rewrite app_nil_r|].
  unfold map_text in *. cbn [map concat] in *. rewrite (cons_middle m acc maps) in *.
  rewrite (app_assoc acc [m] maps) in *.
  pose proof (maps_ok_prefix _ _ Hok) as Hok1. pose proof (mo_entries _ Hok1) as He.
  apply Forall_app in He as [_ He]. apply Forall_cons in He as [He _].
  destruct (line_text m ++ concat (map line_text maps)) as [|c s] eqn:E.
  { destruct (line_text_head m He) as (c & r & Hr & _). by rewrite Hr in E. }
  rewrite <-E. destruct (Nat.leb_spec NS_UID_GID_MAP_MAX (length acc)) as [Hge|_].
  { unfold NS_UID_GID_MAP_MAX in Hge. rewrite !length_app in Hl. simpl in Hl. lia. }
  rewrite map_line_text by (done || by apply no_overlap).
  apply (IH [ch_nl]); [by right|simpl in Hf; lia|done|done].
Qed.

Lemma line_text_nonzero m : entry_ok m -> Forall (fun c => c <> 0) (line_text m).
Proof.
  intros Hm. unfold entry_ok in Hm.
  assert (H : forall v, is_u32 v -> Forall (fun c => c <> 0) (udec v)).
  { intros v Hv. destruct (udec_spec v Hv) as (_ & Hds & _). eapply Forall_impl; [exact Hds|].
    intros c Hc ->. done. }
  unfold line_text. rewrite Forall_app, Forall_cons, Forall_app, Forall_cons, Forall_app.
  split_and!; [apply H|..|by repeat constructor]; try done; try apply H; unfold is_u32; lia.
Qed.

Lemma line_text_length m : entry_ok m -> blen (line_text m) <= 33.
Proof.
  intros Hm. unfold entry_ok in Hm.
  assert (H : forall v, is_u32 v -> blen (udec v) <= 10) by (intros v Hv; apply udec_spec, Hv).
  pose proof (H (inside m) ltac:(unfold is_u32; lia)). pose proof (H (outside m) ltac:(unfold is_u32; lia)).
  pose proof (H (count m) ltac:(unfold is_u32; lia)). unfold line_text, blen in *.
  rewrite length_app. simpl. rewrite length_app. simpl. rewrite length_app. simpl. lia.
Qed.

Lemma map_lines_text room maps :
  Forall entry_ok maps -> 33 * Z.of_nat (length maps) < room -> map_lines room maps = map_text maps.
Proof.
  intros He. revert room. induction He as [|m maps Hm He IH]; intros room Hroom; [done|].
  cbn [map_lines]. unfold snprintf, vsnprintf. rewrite vprintf_map.
  pose proof Hm as Hm'. unfold entry_ok in Hm'. rewrite !u32_small by (unfold is_u32; lia).
  fold (line_text m). pose proof (line_text_length m Hm) as Hlen. pose proof (blen_nonneg (line_text m)).
  rewrite Nat2Z.inj_succ in Hroom || simpl length in Hroom.
  rewrite (proj2 (Z.leb_gt room _)) by lia. unfold ztrue. rewrite (proj2 (Z.eqb_neq room 0)) by lia. cbn [negb].
  rewrite take_ge by (unfold blen in *; lia). rewrite cstr_app_nul by (by apply line_text_nonzero).
  rewrite IH by lia. done.
Qed.

Lemma map_text_bounds maps :
  maps <> [] -> Forall entry_ok maps ->
  0 < blen (map_text maps) <= 33 * Z.of_nat (length maps) /\ (length maps <= length (map_text maps))%nat.
Proof.
  intros Hne He. split_and!.
  - destruct maps as [|m maps]; [done|]. apply Forall_cons in He as [Hm _].
    destruct (line_text_head m Hm) as (c & r & Hr & _). unfold map_text, blen. simpl. rewrite Hr. simpl. lia.
  - clear Hne. induction He as [|m maps Hm _ IH]; [done|]. pose proof (line_text_length m Hm).
    unfold map_text, blen in *. cbn [map concat length] in *. rewrite length_app. lia.
  - clear Hne. induction He as [|m maps Hm _ IH]; [done|].
    destruct (line_text_head m Hm) as (c & r & Hr & _). unfold map_text in *. cbn [map concat length].
    rewrite length_app, Hr. simpl. lia.
Qed.

(** Writing the text of a map installs the map. *)
Lemma map_write_text maps fresh :
  maps_ok maps -> maps <> [] -> (length maps <= 5)%nat -> map_written fresh = false ->
  user_map_write true fresh false (map_text maps) = (0, set_map false maps fresh).
Proof.
  intros Hok Hne Hl Hw. destruct (map_text_bounds maps Hne (mo_entries _ Hok)) as [Hb Hf].
  unfold user_map_write. rewrite (proj2 (Z.eqb_neq _ 0)), (proj2 (Z.leb_gt 512 _)) by lia. rewrite Hw. cbn [negb orb andb].
  pose proof (map_loop_text (S (length (map_text maps))) [] maps [] ltac:(by left) ltac:(lia) Hok Hl) as Hloop.
  cbn [app] in Hloop. rewrite Hloop. by destruct maps.
Qed.

(** what [uid_map] shows can be written to another namespace: the text that
    [ns_user_map_read] prints for a well-formed map is accepted by
    [user_map_write] and installs exactly the same map. *)
Theorem uid_map_roundtrip (ns fresh : user_namespace_t) len :
  maps_ok (uid_map ns) -> uid_map ns <> [] -> (length (uid_map ns) <= 5)%nat ->
  map_written fresh = false -> 512 <= len ->
  user_map_write true fresh false (ns_user_map_read (Some ns) false len) =
    (0, set_map false (uid_map ns) fresh).
Proof.
  intros Hok Hne Hl Hw Hlen. unfold ns_user_map_read.
  rewrite map_lines_text by (apply Hok || lia). by apply map_write_text.
Qed.

(** A map of one entry. *)
Lemma maps_ok_single m : entry_ok m -> maps_ok [m].
Proof. intros Hm. by apply (maps_ok_app [] m maps_ok_nil Hm). Qed.

Lemma uid_map_roundtrip_witness :
  user_map_write true (user_ns_create 1000) false
    (ns_user_map_read (Some (set_map false [mkMap 0 1000 1] (user_ns_create 5))) false 512) =
    (0, set_map false [mkMap 0 1000 1] (user_ns_create 1000)).
Proof.
  apply (uid_map_roundtrip (set_map false [mkMap 0 1000 1] (user_ns_create 5)) (user_ns_create 1000) 512).
  - apply maps_ok_single. unfold entry_ok. simpl. lia.
  - done.
  - simpl. lia.
  - done.
  - lia.
Defined.
