(* ===== verification/PidNs.v ===== *)
(** * PidNs: pid namespaces.

    Models the pid tables of [kernel/proc/ns.c].  The namespaces are a list in
    creation order, [0] being [init_pid_ns]; a namespace is created with an
    existing parent, so parents come first and the recursion over parents ends.
    A pid here is the global pid of a process, its slot in the process table
    plus one. *)

From S2P Require Import Prelude Ns.

Record pid_namespace_t := mkPns {
  parent : option nat;
  level : Z;
  next_pid : Z;
  local_of_global : list Z;
  global_of_local : list Z;
}.

Abbreviation store := (list pid_namespace_t).

Definition zero_tab : list Z := replicate 64 0.

(** [ns_init]: the identity tables of the initial namespace. *)
Definition ns_init : store :=
  [mkPns None 0 (NS_PID_MAX + 1) (map (fun i => Z.of_nat (S i)) (seq 0 64)) (map (fun i => Z.of_nat (S i)) (seq 0 64))].

Definition ns_at (s : store) (i : nat) : pid_namespace_t := aget (mkPns None 0 0 zero_tab zero_tab) s i.

Definition set_next (v : Z) (n : pid_namespace_t) : pid_namespace_t :=
  mkPns (parent n) (level n) v (local_of_global n) (global_of_local n).

(** Both tables at a pair of pids. *)
Definition set_pair (g l vl vg : Z) (n : pid_namespace_t) : pid_namespace_t :=
  mkPns (parent n) (level n) (next_pid n) (<[Z.to_nat (g - 1) := vl]> (local_of_global n))
    (<[Z.to_nat (l - 1) := vg]> (global_of_local n)).

Definition tab (t : list Z) (pid : Z) : Z := aget 0 t (Z.to_nat (pid - 1)).

(** The new namespace is the last of the store. *)
Definition pid_ns_create (s : store) (par : nat) : store :=
  s ++ [mkPns (Some par) (level (ns_at s par) + 1) 1 zero_tab zero_tab].

Definition clear_pair (g : Z) (n : pid_namespace_t) : pid_namespace_t :=
  let l := tab (local_of_global n) g in
  if ztrue l then set_pair g l 0 0 n else n.

Fixpoint pid_ns_register (fuel : nat) (s : store) (ns : nat) (global : Z) : bool * store :=
  match fuel with
  | O => (false, s)
  | S f =>
      if (global =? 0) || (NS_PID_MAX <? global) then (false, s) else
      if (ns =? 0)%nat then (true, s) else
      match parent (ns_at s ns) with
      | None => (false, s)
      | Some par =>
          let '(ok, s) := pid_ns_register f s par global in
          if negb ok then (false, s) else
          let n := ns_at s ns in
          if ztrue (tab (local_of_global n) global) then (true, s) else
          let local := next_pid n in
          let s := alter (set_next (u32 (local + 1))) ns s in
          if (local =? 0) || (NS_PID_MAX <? local) then
            let s := alter (set_next (NS_PID_MAX + 1)) ns s in
            (false, alter (clear_pair global) par s)
          else (true, alter (set_pair global local local global) ns s)
      end
  end.

Fixpoint pid_ns_unregister (fuel : nat) (s : store) (ns : nat) (global : Z) : store :=
  match fuel with
  | O => s
  | S f =>
      if (ns =? 0)%nat || (global =? 0) || (NS_PID_MAX <? global) then s else
      let n := ns_at s ns in
      let local := tab (local_of_global n) global in
      if negb (ztrue local) then s else
      let s := alter (set_pair global local 0 0) ns s in
      match parent n with
      | None => s
      | Some par => pid_ns_unregister f s par global
      end
  end.

(** A namespace has fewer ancestors than its number. *)
Definition ns_register (s : store) (ns : nat) (global : Z) : bool * store :=
  pid_ns_register (S ns) s ns global.

Definition ns_unregister (s : store) (ns : nat) (global : Z) : store :=
  pid_ns_unregister (S ns) s ns global.

(** [p] is the global pid of the process. *)
Definition ns_proc_pid_in (s : store) (p : Z) (ns : nat) : Z :=
  if (p =? 0) || (NS_PID_MAX <? p) then 0 else
  if (ns =? 0)%nat then p else tab (local_of_global (ns_at s ns)) p.

Definition ns_pid_to_global (s : store) (ns : nat) (local : Z) : Z :=
  if (local =? 0) || (NS_PID_MAX <? local) then 0 else
  if (ns =? 0)%nat then local else tab (global_of_local (ns_at s ns)) local.

Fixpoint pid_chain (fuel : nat) (s : store) (p : Z) (ns : nat) (max : nat) : list Z :=
  match fuel, max with
  | S f, S max' =>
      let local := ns_proc_pid_in s p ns in
      if negb (ztrue local) then [] else
      local :: match parent (ns_at s ns) with Some par => pid_chain f s p par max' | None => [] end
  | _, _ => []
  end.

Definition ns_pid_chain (s : store) (p : Z) (ns : nat) (max : nat) : list Z := pid_chain (S ns) s p ns max.

(** ** The tables are inverse to each other *)

Record pns_ok (n : pid_namespace_t) : Prop := {
  pk_len : length (local_of_global n) = 64%nat /\ length (global_of_local n) = 64%nat;
  pk_next : 0 <= next_pid n <= 65;
  pk_inv : forall i j, (i < 64)%nat -> (j < 64)%nat ->
    aget 0 (local_of_global n) i = Z.of_nat (S j) <-> aget 0 (global_of_local n) j = Z.of_nat (S i);
  pk_lrange : forall i, 0 <= aget 0 (local_of_global n) i <= 64;
  pk_grange : forall j, 0 <= aget 0 (global_of_local n) j <= 64;
  pk_fresh : forall j, aget 0 (global_of_local n) j <> 0 -> Z.of_nat (S j) < next_pid n;
}.

(** Every namespace is consistent and parents come first. *)
Definition store_ok (s : store) : Prop :=
  (0 < length s)%nat /\
  forall i n, s !! i = Some n -> pns_ok n /\ (forall par, parent n = Some par -> (par < i)%nat).

Lemma aget_zero j : aget 0 zero_tab j = 0.
Proof.
  unfold aget, zero_tab. destruct (replicate 64 0 !! j) as [x|] eqn:E; [|done].
  by apply lookup_replicate in E as [-> _].
Qed.

Lemma aget_id j : aget 0 (map (fun i => Z.of_nat (S i)) (seq 0 64)) j = if decide (j < 64)%nat then Z.of_nat (S j) else 0.
Proof.
  unfold aget. rewrite list_lookup_fmap. case_decide.
  - by rewrite lookup_seq_lt.
  - rewrite lookup_ge_None_2; [done|]. rewrite length_seq. lia.
Qed.

Lemma ns_init_ok : store_ok ns_init.
Proof.
  split; [simpl; lia|]. intros i n Hn. apply list_lookup_singleton_Some in Hn as [-> <-]. split; [|done].
  split; cbn [local_of_global global_of_local next_pid]; unfold NS_PID_MAX.
  - done.
  - lia.
  - intros i j Hi Hj. rewrite !aget_id. rewrite !decide_True by done. lia.
  - intros i. rewrite aget_id. case_decide; lia.
  - intros i. rewrite aget_id. case_decide; lia.
  - intros j. rewrite aget_id. case_decide; lia.
Qed.

Lemma pns_new_ok par lv : pns_ok (mkPns par lv 1 zero_tab zero_tab).
Proof.
  split; cbn [local_of_global global_of_local next_pid]; try done; try lia.
  all: intros; rewrite ?aget_zero in *; lia.
Qed.

(** Clearing a pair that is there. *)
Lemma set_pair_clear_ok n i j :
  pns_ok n -> (i < 64)%nat -> (j < 64)%nat -> aget 0 (local_of_global n) i = Z.of_nat (S j) ->
  pns_ok (set_pair (Z.of_nat (S i)) (Z.of_nat (S j)) 0 0 n).
Proof.
  intros [[L1 L2] Hn Hinv Hl Hg Hf] Hi Hj Hij. pose proof (proj1 (Hinv i j Hi Hj) Hij) as Hji.
  unfold set_pair. replace (Z.to_nat (Z.of_nat (S i) - 1)) with i by lia.
  replace (Z.to_nat (Z.of_nat (S j) - 1)) with j by lia.
  split; cbn [local_of_global global_of_local next_pid]; rewrite ?length_insert; try done.
  - intros i' j' Hi' Hj'. rewrite !aget_insert by lia. pose proof (Hinv i' j' Hi' Hj') as H1.
    destruct (decide (i = i')) as [<-|Hne], (decide (j = j')) as [<-|Hne']; try lia.
  - intros k. rewrite aget_insert by lia. case_decide; [lia|apply Hl].
  - intros k. rewrite aget_insert by lia. case_decide; [lia|apply Hg].
  - intros k. rewrite aget_insert by lia. case_decide; [lia|apply Hf].
Qed.

(** Adding the next pid for a process that has none. *)
Lemma set_pair_new_ok n i :
  pns_ok n -> (i < 64)%nat -> aget 0 (local_of_global n) i = 0 -> 0 < next_pid n <= 64 ->
  pns_ok (set_pair (Z.of_nat (S i)) (next_pid n) (next_pid n) (Z.of_nat (S i))
           (set_next (next_pid n + 1) n)).
Proof.
  intros [[L1 L2] Hn Hinv Hl Hg Hf] Hi H0 Hr. unfold set_pair, set_next.
  cbn [local_of_global global_of_local next_pid parent level].
  replace (Z.to_nat (Z.of_nat (S i) - 1)) with i by lia.
  set (k := Z.to_nat (next_pid n - 1)). assert (Hk : next_pid n = Z.of_nat (S k)) by (subst k; lia).
  assert (Hgk : aget 0 (global_of_local n) k = 0).
  { destruct (Z.eq_dec (aget 0 (global_of_local n) k) 0) as [|Hx]; [done|]. apply Hf in Hx. lia. }
  split; cbn [local_of_global global_of_local next_pid]; rewrite ?length_insert; try done; try lia.
  - intros i' j' Hi' Hj'. rewrite !aget_insert by lia. pose proof (Hinv i' j' Hi' Hj') as H1.
    destruct (decide (i = i')) as [<-|Hne], (decide (k = j')) as [<-|Hne']; try lia.
  - intros q. rewrite aget_insert by lia. case_decide; [lia|apply Hl].
  - intros q. rewrite aget_insert by lia. case_decide; [lia|apply Hg].
  - intros q. rewrite aget_insert by lia. case_decide; [lia|]. intros Hx%Hf. lia.
Qed.

Lemma clear_pair_ok n g : pns_ok n -> 0 < g <= 64 -> pns_ok (clear_pair g n).
Proof.
  intros Hok Hg. unfold clear_pair, ztrue, tab. destruct (Z.eqb_spec (aget 0 (local_of_global n) (Z.to_nat (g - 1))) 0)
    as [|Hnz]; [done|]. cbn [negb].
  pose proof (pk_lrange _ Hok (Z.to_nat (g - 1))) as Hr. set (l := aget 0 (local_of_global n) (Z.to_nat (g - 1))) in *.
  replace g with (Z.of_nat (S (Z.to_nat (g - 1)))) at 1 by lia.
  replace l with (Z.of_nat (S (Z.to_nat (l - 1)))) by lia.
  apply set_pair_clear_ok; [done|lia|lia|]. fold l. lia.
Qed.

Lemma set_next_max_ok n : pns_ok n -> pns_ok (set_next (NS_PID_MAX + 1) n).
Proof.
  intros [HL Hn Hinv Hl Hg Hf]. split; cbn [set_next local_of_global global_of_local next_pid]; unfold NS_PID_MAX; try done.
  intros j Hx. pose proof (Hf j Hx). lia.
Qed.

(** A change of one namespace that keeps it consistent and keeps its parent. *)
Lemma store_ok_alter s i f :
  store_ok s -> (forall n, s !! i = Some n -> pns_ok n -> pns_ok (f n) /\ parent (f n) = parent n) ->
  store_ok (alter f i s).
Proof.
  intros [Hl Hs] Hf. split; [by rewrite length_alter|]. intros j n Hn.
  destruct (decide (i = j)) as [<-|Hne].
  - rewrite list_lookup_alter_eq in Hn. destruct (s !! i) as [m|] eqn:E; [|done]. simpl in Hn. simplify_eq.
    destruct (Hs i m E) as [Hok Hp]. destruct (Hf m eq_refl Hok) as [Hok' ->]. done.
  - rewrite list_lookup_alter_ne in Hn by done. by apply Hs.
Qed.

Lemma ns_at_lookup s i : (i < length s)%nat -> s !! i = Some (ns_at s i).
Proof. intros Hi. unfold ns_at, aget. by destruct (lookup_lt_is_Some_2 s i Hi) as [n ->]. Qed.

Lemma store_ok_at s i : store_ok s -> (i < length s)%nat -> pns_ok (ns_at s i).
Proof. intros [_ Hs] Hi. by apply (Hs i), ns_at_lookup. Qed.

Lemma parent_lt s i par : store_ok s -> (i < length s)%nat -> parent (ns_at s i) = Some par -> (par < i)%nat.
Proof. intros [_ Hs] Hi. by apply (Hs i), ns_at_lookup. Qed.

Lemma ns_at_alter s i j f :
  (i < length s)%nat -> ns_at (alter f i s) j = if decide (i = j) then f (ns_at s i) else ns_at s j.
Proof.
  intros Hi. unfold ns_at, aget. destruct (decide (i = j)) as [<-|Hne].
  - rewrite list_lookup_alter_eq. by destruct (lookup_lt_is_Some_2 s i Hi) as [n ->].
  - by rewrite list_lookup_alter_ne.
Qed.

Lemma create_ok s par : store_ok s -> (par < length s)%nat -> store_ok (pid_ns_create s par).
Proof.
  intros [Hl Hs] Hp. unfold pid_ns_create. split; [rewrite length_app; simpl; lia|].
  intros i n [Hn|[Hge Hn]]%lookup_app_Some; [by apply Hs|].
  apply list_lookup_singleton_Some in Hn as [Hi <-]. split; [apply pns_new_ok|].
  intros par' [= <-]. lia.
Qed.

(** What registering may change: only the entries of [g]. *)
Definition same_others (g : Z) (s s' : store) : Prop :=
  forall i p, p <> g -> 0 < p <= 64 -> ns_proc_pid_in s' p i = ns_proc_pid_in s p i.

Lemma same_others_refl g s : same_others g s s.
Proof. done. Qed.

Lemma same_others_trans g s1 s2 s3 : same_others g s1 s2 -> same_others g s2 s3 -> same_others g s1 s3.
Proof. intros H1 H2 i p Hp Hr. by rewrite H2, H1. Qed.

Lemma same_others_alter g s i f :
  (i < length s)%nat -> 0 < g <= 64 ->
  (forall n j, j <> Z.to_nat (g - 1) -> aget 0 (local_of_global (f n)) j = aget 0 (local_of_global n) j) ->
  same_others g s (alter f i s).
Proof.
  intros Hi Hg Hf k p Hp Hr. unfold ns_proc_pid_in. case_raw; [done|]. case_raw; [done|].
  rewrite ns_at_alter by done. case_decide as Hik; [|done]. subst k. unfold tab. apply Hf. lia.
Qed.

Lemma local_set_pair g l vl vg n j :
  j <> Z.to_nat (g - 1) -> aget 0 (local_of_global (set_pair g l vl vg n)) j = aget 0 (local_of_global n) j.
Proof. intros Hj. cbn. unfold aget. by rewrite list_lookup_insert_ne. Qed.

Lemma local_clear_pair g n j :
  j <> Z.to_nat (g - 1) -> aget 0 (local_of_global (clear_pair g n)) j = aget 0 (local_of_global n) j.
Proof. intros Hj. unfold clear_pair. case_raw; [by apply local_set_pair|done]. Qed.

Definition same_tree (s s' : store) : Prop :=
  length s' = length s /\ forall i, parent (ns_at s' i) = parent (ns_at s i).

Lemma same_tree_alter s i f :
  (i < length s)%nat -> (forall n, parent (f n) = parent n) -> same_tree s (alter f i s).
Proof.
  intros Hi Hf. split; [apply length_alter|]. intros j. rewrite ns_at_alter by done.
  case_decide; [subst; apply Hf|done].
Qed.

Lemma same_tree_trans s1 s2 s3 : same_tree s1 s2 -> same_tree s2 s3 -> same_tree s1 s3.
Proof. intros [H1 H2] [H3 H4]. split; [congruence|]. intros i. by rewrite H4. Qed.

Lemma parent_clear_pair g n : parent (clear_pair g n) = parent n.
Proof. unfold clear_pair. by case_raw. Qed.

(** The namespaces that see the members of [ns]: itself and its ancestors. *)
Inductive ancestor (s : store) : nat -> nat -> Prop :=
| anc_self i : ancestor s i i
| anc_parent i par j : parent (ns_at s i) = Some par -> ancestor s par j -> ancestor s i j.

Lemma ancestor_le s i j : store_ok s -> (i < length s)%nat -> ancestor s i j -> (j <= i)%nat.
Proof.
  intros Hok Hi H. induction H as [i|i par j Hp _ IH]; [done|].
  pose proof (parent_lt _ _ _ Hok Hi Hp). specialize (IH ltac:(lia)). lia.
Qed.

Lemma ancestor_same_tree s s' i j : same_tree s s' -> ancestor s' i j -> ancestor s i j.
Proof. intros [_ Ht] H. induction H as [|i par j Hp _ IH]; [constructor|]. rewrite Ht in Hp. by econstructor. Qed.

(** The outcome of a registration. *)
Definition register_post (s : store) (ns : nat) (g : Z) (r : bool * store) : Prop :=
  let '(ok, s') := r in
  store_ok s' /\ same_tree s s' /\ same_others g s s' /\
  (ok = true -> forall a, ancestor s ns a -> ns_proc_pid_in s' g a <> 0).

Lemma visible_other s ns g f i :
  (ns < length s)%nat -> i <> ns -> ns_proc_pid_in (alter f ns s) g i = ns_proc_pid_in s g i.
Proof.
  intros Hn Hi. unfold ns_proc_pid_in. case_raw; [done|]. case_raw; [done|].
  by rewrite ns_at_alter, decide_False by congruence.
Qed.

(** One namespace gives the process its next pid, or undoes the parent's. *)
Lemma register_step s1 ns par g :
  store_ok s1 -> (ns < length s1)%nat -> (0 < ns)%nat -> 0 < g <= 64 ->
  parent (ns_at s1 ns) = Some par ->
  (forall a, ancestor s1 par a -> ns_proc_pid_in s1 g a <> 0) ->
  register_post s1 ns g
    (let n := ns_at s1 ns in
     if ztrue (tab (local_of_global n) g) then (true, s1) else
     let local := next_pid n in
     let s := alter (set_next (u32 (local + 1))) ns s1 in
     if (local =? 0) || (NS_PID_MAX <? local) then
       (false, alter (clear_pair g) par (alter (set_next (NS_PID_MAX + 1)) ns s))
     else (true, alter (set_pair g local local g) ns s)).
Proof.
  intros Hok Hns Hpos Hg Hp Hvis. pose proof (parent_lt _ _ _ Hok Hns Hp) as Hlt.
  pose proof (store_ok_at _ _ Hok Hns) as Hn.
  assert (Hanc : forall a, ancestor s1 ns a -> a = ns \/ ancestor s1 par a).
  { intros a Ha. inversion Ha; simplify_eq; auto. }
  assert (Hself : forall s', ns_proc_pid_in s' g ns = tab (local_of_global (ns_at s' ns)) g).
  { intros s'. unfold ns_proc_pid_in, NS_PID_MAX. rewrite (proj2 (Z.eqb_neq g 0)), (proj2 (Z.ltb_ge 64 g)) by lia.
    cbn [orb]. by rewrite (proj2 (Nat.eqb_neq ns 0)) by lia. }
  cbv zeta. unfold ztrue. destruct (Z.eqb_spec (tab (local_of_global (ns_at s1 ns)) g) 0) as [H0|Hnz]; cbn [negb].
  - rewrite !alter_alter. pose proof (pk_next _ Hn) as Hnx.
    destruct (Z.eqb_spec (next_pid (ns_at s1 ns)) 0) as [Hz|Hnz]; [cbn [orb]|cbn [orb]; case_raw];
      dest_bool; unfold register_post.
    1,2: assert (Hok2 : store_ok (alter (fun x => set_next (NS_PID_MAX + 1) (set_next (u32 (next_pid (ns_at s1 ns) + 1)) x)) ns s1))
      by (apply store_ok_alter; [done|]; intros n Hl Hk; split; [|done]; by apply set_next_max_ok in Hk);
      split_and!; [apply store_ok_alter; [exact Hok2|]; intros n Hl Hk; split;
        [by apply clear_pair_ok|by apply parent_clear_pair]
      |eapply same_tree_trans; apply same_tree_alter; rewrite ?length_alter; try lia; try done; apply parent_clear_pair
      |eapply same_others_trans; apply same_others_alter; rewrite ?length_alter; try lia; try done; intros; by apply local_clear_pair
      |done].
    assert (Hr : 0 < next_pid (ns_at s1 ns) <= 64) by (unfold NS_PID_MAX in *; lia).
    rewrite u32_small by (unfold is_u32; lia).
    split_and!.
    + apply store_ok_alter; [done|]. intros n Hl Hk. rewrite ns_at_lookup in Hl by done. simplify_eq. split; [|done].
      replace g with (Z.of_nat (S (Z.to_nat (g - 1)))) by lia. apply set_pair_new_ok; [done|lia| |done].
      unfold tab in H0. replace (Z.to_nat (Z.of_nat (S (Z.to_nat (g - 1))) - 1)) with (Z.to_nat (g - 1)) in * by lia. done.
    + by apply same_tree_alter.
    + apply same_others_alter; [done|done|]. intros n j Hj. by rewrite local_set_pair.
    + intros _ a [->|Ha]%Hanc.
      * rewrite Hself, ns_at_alter, decide_True by done. unfold tab. cbn.
        rewrite aget_insert, decide_True by (done || rewrite (proj1 (pk_len _ Hn)); lia). lia.
      * pose proof (ancestor_le s1 par a Hok ltac:(lia) Ha). rewrite visible_other by (done || lia). by apply Hvis.
  - unfold register_post. split_and!; [done|done|done|]. intros _ a [->|Ha]%Hanc; [by rewrite Hself|by apply Hvis].
Qed.

Lemma register_ok fuel s ns g :
  store_ok s -> (ns < length s)%nat -> (ns < fuel)%nat -> 0 < g ->
  register_post s ns g (pid_ns_register fuel s ns g).
Proof.
  revert s ns. induction fuel as [|f IH]; intros s ns Hok Hns Hf Hg; [lia|]. cbn [pid_ns_register].
  assert (Htriv : register_post s ns g (false, s)) by (split_and!; done).
  rewrite (proj2 (Z.eqb_neq g 0)) by lia. cbn [orb]. case_raw; [done|]. dest_bool. unfold NS_PID_MAX in *.
  destruct (Nat.eqb_spec ns 0) as [->|Hne].
  { split_and!; try done. intros _ a Ha%ancestor_le; [|done|done]. assert (a = 0%nat) as -> by lia.
    unfold ns_proc_pid_in, NS_PID_MAX. rewrite (proj2 (Z.eqb_neq g 0)), (proj2 (Z.ltb_ge 64 g)) by lia. cbn. lia. }
  destruct (parent (ns_at s ns)) as [par|] eqn:Hp; [|done]. pose proof (parent_lt _ _ _ Hok Hns Hp) as Hlt.
  specialize (IH s par Hok ltac:(lia) ltac:(lia) Hg). destruct (pid_ns_register f s par g) as [ok s1].
  destruct IH as (Hok1 & Ht & Hs & Hvis). destruct ok; cbn [negb]; [|split_and!; done].
  pose proof (register_step s1 ns par g Hok1) as Hstep. rewrite (proj1 Ht), (proj2 Ht) in Hstep.
  specialize (Hstep Hns ltac:(lia) ltac:(lia) Hp).
  assert (Hv1 : forall a, ancestor s1 par a -> ns_proc_pid_in s1 g a <> 0).
  { intros a Ha. apply Hvis; [done|]. by eapply ancestor_same_tree. }
  specialize (Hstep Hv1). cbv zeta in Hstep. unfold NS_PID_MAX in *.
  match goal with |- register_post _ _ _ ?r => destruct r as [ok s2] end.
  destruct Hstep as (H1 & H2 & H3 & H4). split_and!; [done|by eapply same_tree_trans|by eapply same_others_trans|].
  intros Hok2 a Ha. apply H4; [done|]. clear -Ha Ht. induction Ha as [|i q j Hq _ IH]; [constructor|].
  destruct Ht as [_ Ht]. econstructor; [|exact IH]. by rewrite Ht.
Qed.

Lemma unregister_ok fuel s ns g :
  store_ok s -> (ns < length s)%nat -> 0 <= g ->
  store_ok (pid_ns_unregister fuel s ns g) /\ same_tree s (pid_ns_unregister fuel s ns g).
Proof.
  revert s ns. induction fuel as [|f IH]; intros s ns Hok Hns Hg; [done|]. cbn [pid_ns_unregister].
  case_raw; [done|]. dest_bool. unfold NS_PID_MAX in *. cbv zeta. unfold ztrue.
  set (l := tab (local_of_global (ns_at s ns)) g). destruct (Z.eqb_spec l 0) as [|Hl]; cbn [negb]; [done|].
  assert (Hok1 : store_ok (alter (set_pair g l 0 0) ns s)).
  { apply store_ok_alter; [done|]. intros n Hlk Hn. split; [|done]. rewrite ns_at_lookup in Hlk by done. simplify_eq.
    pose proof (clear_pair_ok _ g Hn ltac:(lia)) as Hc. unfold clear_pair, ztrue in Hc. fold l in Hc.
    by rewrite (proj2 (Z.eqb_neq l 0)) in Hc. }
  assert (Ht1 : same_tree s (alter (set_pair g l 0 0) ns s)) by (by apply same_tree_alter).
  destruct (parent (ns_at s ns)) as [par|] eqn:Hp; [|done]. pose proof (parent_lt _ _ _ Hok Hns Hp).
  destruct (IH (alter (set_pair g l 0 0) ns s) par Hok1) as [Hr1 Hr2]; [rewrite length_alter; lia|lia|].
  split; [done|by eapply same_tree_trans].
Qed.

(** ** Every reachable state *)

Inductive op := OpCreate (par : nat) | OpRegister (ns : nat) (g : Z) | OpUnregister (ns : nat) (g : Z).

(** The callers pass existing namespaces and pids of the process table. *)
Definition op_ok (s : store) (o : op) : bool :=
  match o with
  | OpCreate par => (par <? length s)%nat
  | OpRegister ns g | OpUnregister ns g => (ns <? length s)%nat && (0 <? g)
  end.

Definition step (s : store) (o : op) : store :=
  if negb (op_ok s o) then s else
  match o with
  | OpCreate par => pid_ns_create s par
  | OpRegister ns g => snd (ns_register s ns g)
  | OpUnregister ns g => ns_unregister s ns g
  end.

Definition run (ops : list op) : store := foldl step ns_init ops.

Lemma step_ok s o : store_ok s -> store_ok (step s o).
Proof.
  intros Hok. unfold step. destruct (op_ok s o) eqn:E; cbn [negb]; [|done]. destruct o as [par|ns g|ns g]; simpl in E.
  - apply create_ok; [done|]. by apply Nat.ltb_lt.
  - apply andb_true_iff in E as [H1%Nat.ltb_lt H2%Z.ltb_lt]. unfold ns_register.
    pose proof (register_ok (S ns) s ns g Hok H1 ltac:(lia) H2) as Hr.
    by destruct (pid_ns_register (S ns) s ns g), Hr.
  - apply andb_true_iff in E as [H1%Nat.ltb_lt H2%Z.ltb_lt]. apply unregister_ok; [done|done|lia].
Qed.

Lemma run_ok ops : store_ok (run ops).
Proof.
  unfold run. generalize ns_init, ns_init_ok. induction ops as [|o ops IH]; intros s Hs; [done|].
  apply IH. by apply step_ok.
Qed.

Lemma pid_inverse s ns p l :
  store_ok s -> (ns < length s)%nat -> 0 < p -> 0 < l ->
  ns_proc_pid_in s p ns = l <-> ns_pid_to_global s ns l = p.
Proof.
  intros Hok Hns Hp Hl. pose proof (store_ok_at _ _ Hok Hns) as Hn. unfold ns_proc_pid_in, ns_pid_to_global, NS_PID_MAX.
  rewrite (proj2 (Z.eqb_neq p 0)), (proj2 (Z.eqb_neq l 0)) by lia. cbn [orb].
  destruct (Nat.eqb_spec ns 0) as [->|Hne].
  { repeat case_if; lia. }
  unfold tab. pose proof (pk_inv _ Hn (Z.to_nat (p - 1)) (Z.to_nat (l - 1))) as Hinv.
  pose proof (pk_lrange _ Hn (Z.to_nat (p - 1))). pose proof (pk_grange _ Hn (Z.to_nat (l - 1))).
  destruct (Z.ltb_spec 64 p), (Z.ltb_spec 64 l); [lia..|].
  specialize (Hinv ltac:(lia) ltac:(lia)).
  replace (Z.of_nat (S (Z.to_nat (l - 1)))) with l in Hinv by lia.
  by replace (Z.of_nat (S (Z.to_nat (p - 1)))) with p in Hinv by lia.
Qed.

(** C18: pid translation is a partial bijection in every pid namespace, after any
    sequence of namespace creations, process registrations and removals: a
    process has the pid [l] in a namespace exactly when looking [l] up in that
    namespace finds the process, so no two processes share a pid. *)
Theorem pid_translation_bijective ops ns p l :
  (ns < length (run ops))%nat -> 0 < p -> 0 < l ->
  ns_proc_pid_in (run ops) p ns = l <-> ns_pid_to_global (run ops) ns l = p.
Proof. intros. apply pid_inverse; auto using run_ok. Qed.

Definition ops0 : list op := [OpCreate 0; OpCreate 1; OpRegister 2 7; OpRegister 1 9; OpRegister 2 3].

Lemma pid_translation_bijective_witness :
  (2 < length (run ops0))%nat /\ ns_proc_pid_in (run ops0) 3 2 = 2 /\ ns_pid_to_global (run ops0) 2 2 = 3.
Proof.
  assert (Hl : (2 < length (run ops0))%nat) by (vm_compute; lia).
  assert (H : ns_proc_pid_in (run ops0) 3 2 = 2) by (vm_compute; reflexivity).
  split_and!; [exact Hl|exact H|]. by apply (pid_translation_bijective ops0 2 3 2 Hl ltac:(lia) ltac:(lia)).
Defined.

(** a successful registration makes the process visible in its namespace and
    in every ancestor, and neither it nor a failing one changes the pid of any
    other process in any namespace. *)
Theorem register_visible ops ns g :
  (ns < length (run ops))%nat -> 0 < g ->
  let '(ok, s') := ns_register (run ops) ns g in
  (ok = true -> forall a, ancestor (run ops) ns a -> ns_proc_pid_in s' g a <> 0) /\
  (forall i p, p <> g -> 0 < p <= 64 -> ns_proc_pid_in s' p i = ns_proc_pid_in (run ops) p i).
Proof.
  intros Hns Hg. pose proof (register_ok (S ns) (run ops) ns g (run_ok ops) Hns ltac:(lia) Hg) as Hr.
  unfold ns_register. destruct (pid_ns_register (S ns) (run ops) ns g) as [ok s'].
  by destruct Hr as (_ & _ & Hs & Hv).
Qed.

Lemma register_visible_witness :
  fst (ns_register (run ops0) 2 11) = true /\ ns_proc_pid_in (snd (ns_register (run ops0) 2 11)) 11 1 <> 0.
Proof.
  assert (H : fst (ns_register (run ops0) 2 11) = true) by (vm_compute; reflexivity).
  pose proof (register_visible ops0 2 11 ltac:(vm_compute; lia) ltac:(lia)) as Hr.
  destruct (ns_register (run ops0) 2 11) as [ok s'] eqn:E. simpl in H |- *. split; [exact H|].
  apply (proj1 Hr H). apply anc_parent with 1%nat; [vm_compute; reflexivity|constructor].
Defined.

(** Process 2 enters and leaves namespace 1, [n] times. *)
Fixpoint churn (n : nat) : list op :=
  match n with O => [] | S n' => OpRegister 1 2 :: OpUnregister 1 2 :: churn n' end.

(** pids of a namespace are used once.  After 64 processes have come and
    gone, a namespace that has no member left accepts no further process. *)
Theorem pid_ns_exhausted :
  let s := run (OpCreate 0 :: churn 64) in
  (forall p, ns_proc_pid_in s p 1 = 0) /\ fst (ns_register s 1 2) = false.
Proof.
  cbv zeta. split; [|vm_compute; reflexivity]. intros p. unfold ns_proc_pid_in. case_raw; [done|].
  assert (Ht : local_of_global (ns_at (run (OpCreate 0 :: churn 64)) 1) = zero_tab) by (vm_compute; reflexivity).
  cbn [Nat.eqb]. rewrite Ht. apply aget_zero.
Qed.
