(* ===== verification/Jail.v ===== *)
(** * Jail: jails and path confinement.

    Models [kernel/proc/jail.c] and the jail system calls of
    [kernel/syscall/jailsys.c].  The table [g_jails] is a list of 32 slots.  Of a
    process only what jails use is kept: its effective uid, whether it is in the
    initial user namespace, its jail and its working directory.  Paths are byte
    lists without the terminating zero; buffer sizes are those of the source. *)

From S2P Require Import Prelude Bytes KString Printf Ns.

Definition JAIL_MAX := 32.
Definition JAIL_NAME_MAX := 32%nat.
Definition JAIL_ROOT_MAX := 256%nat.
Definition JAIL_HOST := 0.
Definition JAILF_FS := 1.
Definition JAILF_PID := 2.
Definition JAILF_IPC := 4.
Definition JAILF_PRIV := 8.
Definition JAILF_ALL := 15.

Inductive jail_state := JAIL_UNUSED | JAIL_ACTIVE | JAIL_DYING.

#[export] Instance jail_state_eq_dec : EqDecision jail_state.
Proof. solve_decision. Defined.

Record jail_t := mkJail {
  jstate : jail_state;
  id : Z;
  parent_id : Z;
  flags : Z;
  name : list Z;
  root : list Z;
  nprocs : Z;
  max_procs : Z;
  creator_uid : Z;
}.

Record kjail_conf_t := mkConf {
  cfg_root : list Z;
  cfg_name : list Z;
  cfg_flags : Z;
  cfg_max_procs : Z;
  cfg_attach : Z;
}.

Record jproc := mkJproc {
  p_euid : Z;
  p_initial : bool; (* ns_user_is_initial *)
  p_jail_id : Z;
  p_exempt : Z;
  p_cwd : list Z;
}.

Definition no_jail : jail_t := mkJail JAIL_UNUSED 0 0 0 [] [] 0 0 0.

Definition jail_init : list jail_t := replicate 32 no_jail.

Definition set_nprocs (v : Z) (j : jail_t) : jail_t :=
  mkJail (jstate j) (id j) (parent_id j) (flags j) (name j) (root j) v (max_procs j) (creator_uid j).
Definition set_jstate (v : jail_state) (j : jail_t) : jail_t :=
  mkJail v (id j) (parent_id j) (flags j) (name j) (root j) (nprocs j) (max_procs j) (creator_uid j).

(** The slot of a live jail. *)
Definition jail_slot (js : list jail_t) (jid : Z) : option nat :=
  if jid =? JAIL_HOST then None else
  find_index (fun j => bool_decide (jstate j <> JAIL_UNUSED) && (id j =? jid)) js.

Definition jail_find (js : list jail_t) (jid : Z) : option jail_t :=
  i ← jail_slot js jid; js !! i.

Definition has_flag (j : jail_t) (f : Z) : bool := ztrue (Z.land (flags j) f).

(** ** Paths *)

Definition not_slash (c : Z) : bool := negb (c =? ch_slash).

Fixpoint take_while (P : Z -> bool) (s : list Z) : list Z :=
  match s with
  | c :: s' => if P c then c :: take_while P s' else []
  | [] => []
  end.

Definition dot : list Z := [ch_dot].
Definition dotdot : list Z := [ch_dot; ch_dot].

(** The text of a stack of components. *)
Definition join (comps : list (list Z)) : list Z := concat (map (cons ch_slash) comps).

(** [while ( *p )]: each round consumes a component, so the length of the path is
    enough fuel.  [starts] is the stack of components written so far. *)
Fixpoint canon_loop (fuel : nat) (p : list Z) (comps : list (list Z)) (sz : Z) : list (list Z) :=
  match fuel with
  | O => comps
  | S f =>
      let p := skip_while (fun c => c =? ch_slash) p in
      match p with
      | [] => comps
      | _ =>
          let s := take_while not_slash p in
          let p := drop (length s) p in
          if bool_decide (s = dot) then canon_loop f p comps sz else
          if bool_decide (s = dotdot) then canon_loop f p (removelast comps) sz else
          if (128 <=? length comps)%nat || (sz <=? blen (join comps) + 1 + blen s) then comps
          else canon_loop f p (comps ++ [s]) sz
      end
  end.

Definition path_canon (inp : list Z) (sz : Z) : list Z :=
  let comps := canon_loop (length inp) inp [] sz in
  match comps with [] => [ch_slash] | _ => join comps end.

(** The new contents of [path]. *)
Definition jail_canon_clamp (path : list Z) (sz : Z) (root : list Z) : list Z :=
  if blen root =? 0 then path else
  let rlen := length root in
  let under_root :=
    (strncmp path root rlen =? 0) &&
    ((hd 0 (drop rlen path) =? 0) || (hd 0 (drop rlen path) =? ch_slash)) in
  let sub := if under_root then drop rlen path else path in
  let canon := path_canon sub 512 in
  let tmp :=
    if bool_decide (canon = [ch_slash]) then fst (snprintf 768 fmt_s [ArgStr (Some root)])
    else fst (snprintf 768 fmt_ss [ArgStr (Some root); ArgStr (Some canon)]) in
  cstr (strncpy_bytes tmp (Z.to_nat (sz - 1))).

Definition jail_root_current (js : list jail_t) (p : option jproc) : list Z :=
  match p with
  | None => []
  | Some p =>
      match jail_find js (p_jail_id p) with
      | Some j => if has_flag j JAILF_FS && negb (blen (root j) =? 0) then root j else []
      | None => []
      end
  end.

Definition jail_strip_root (js : list jail_t) (p : option jproc) (abs : list Z) : list Z :=
  let root := jail_root_current js p in
  let rlen := length root in
  if (rlen =? 0)%nat || negb (strncmp abs root rlen =? 0) then abs else
  match drop rlen abs with
  | [] => [ch_slash]
  | sub => sub
  end.

(** ** The tree of jails *)

(** [for (guard = 0; cur != JAIL_HOST && guard <= JAIL_MAX; guard++)] *)
Fixpoint descend_loop (fuel : nat) (js : list jail_t) (a cur : Z) : bool :=
  match fuel with
  | O => false
  | S f =>
      if cur =? JAIL_HOST then false else
      match jail_find js cur with
      | None => false
      | Some j => if parent_id j =? a then true else descend_loop f js a (parent_id j)
      end
  end.

Definition jail_is_descendant (js : list jail_t) (a b : Z) : bool :=
  if a =? b then true else
  if a =? JAIL_HOST then true else
  descend_loop (Z.to_nat (JAIL_MAX + 1)) js a b.

(** [None] is a [NULL] observer: the kernel. *)
Definition jail_can_see (js : list jail_t) (observer : option Z) (target : Z) : bool :=
  match observer with
  | None => true
  | Some o =>
      match jail_find js o with
      | Some oj => if has_flag oj JAILF_PID then o =? target else true
      | None => true
      end
  end.

Definition jail_host_priv (js : list jail_t) (p : option jproc) : bool :=
  match p with
  | None => true
  | Some p =>
      if negb (p_euid p =? 0) then false else
      if negb (p_initial p) then false else
      match jail_find js (p_jail_id p) with
      | Some j => negb (has_flag j JAILF_PRIV)
      | None => true
      end
  end.

Definition upd_jail (f : jail_t -> jail_t) (jid : Z) (js : list jail_t) : list jail_t :=
  match jail_slot js jid with Some i => alter f i js | None => js end.

Definition jail_ref (jid : Z) (js : list jail_t) : list jail_t :=
  upd_jail (fun j => set_nprocs (u32 (nprocs j + 1)) j) jid js.

Definition jail_unref (jid : Z) (js : list jail_t) : list jail_t :=
  upd_jail (fun j => if ztrue (nprocs j) then set_nprocs (nprocs j - 1) j else j) jid js.

Definition jail_retire (jid : Z) (js : list jail_t) : list jail_t := upd_jail (set_jstate JAIL_DYING) jid js.

Definition jail_reap (jid : Z) (js : list jail_t) : list jail_t :=
  upd_jail (fun j =>
    if bool_decide (jstate j = JAIL_DYING) && (nprocs j =? 0) then set_jstate JAIL_UNUSED j else j) jid js.

Definition jail_can_fork (js : list jail_t) (jid : Z) : bool :=
  match jail_find js jid with
  | None => true
  | Some j =>
      if bool_decide (jstate j <> JAIL_ACTIVE) then false
      else negb (ztrue (max_procs j) && (max_procs j <=? nprocs j))
  end.

Definition jail_enter (p : jproc) (jid : Z) (js : list jail_t) : jproc * list jail_t :=
  if p_jail_id p =? jid then (p, js) else
  let js := jail_unref (p_jail_id p) js in
  let js := jail_ref jid js in
  let cwd :=
    match jail_find js jid with
    | Some j =>
        if has_flag j JAILF_FS then
          cstr (strncpy_bytes (if blen (root j) =? 0 then [ch_slash] else root j) 511)
        else p_cwd p
    | None => p_cwd p
    end in
  (mkJproc (p_euid p) (p_initial p) jid 0 cwd, js).

(** The new id, or a negative error; the table. *)
Definition jail_create (parent_jid : Z) (cfg : kjail_conf_t) (creator : Z) (js : list jail_t) :
    Z * list jail_t :=
  let proot :=
    if parent_jid =? JAIL_HOST then Some []
    else match jail_find js parent_jid with Some pj => Some (root pj) | None => None end in
  match proot with
  | None => (- EINVAL, js)
  | Some proot =>
      let combined := cstr (fst (snprintf 512 fmt_s_s [ArgStr (Some proot); ArgStr (Some (cfg_root cfg))])) in
      let canon := path_canon combined 512 in
      let plen := length proot in
      let canon :=
        if negb (plen =? 0)%nat && negb (strncmp canon proot plen =? 0)
        then cstr (strncpy_bytes proot 511) else canon in
      if (JAIL_ROOT_MAX <=? length canon)%nat then (- EINVAL, js) else
      match find_index (fun j => bool_decide (jstate j = JAIL_UNUSED)) js with
      | None => (- ENOSPC, js)
      | Some i =>
          let j := mkJail JAIL_ACTIVE (Z.of_nat i + 1) parent_jid (Z.land (cfg_flags cfg) JAILF_ALL)
                     (cstr (strncpy_bytes (cfg_name cfg) (JAIL_NAME_MAX - 1)))
                     (cstr (strncpy_bytes canon (JAIL_ROOT_MAX - 1))) 0 (cfg_max_procs cfg) creator in
          (Z.of_nat i + 1, <[i := j]> js)
      end
  end.

Definition jail_remove (jid : Z) (requester : option jproc) (js : list jail_t) : Z * list jail_t :=
  match jail_find js jid with
  | None => (- ENOENT, js)
  | Some j =>
      if negb (jail_host_priv js requester) &&
         negb (match requester with
               | Some r => jail_is_descendant js (p_jail_id r) jid && negb (p_jail_id r =? jid)
               | None => false
               end)
      then (- EPERM, js)
      else (0, upd_jail (set_jstate (if nprocs j =? 0 then JAIL_UNUSED else JAIL_DYING)) jid js)
  end.

(** ** System calls of a process *)

(** [ucfg] is the configuration read from the caller, [None] for a bad pointer;
    its strings are cut at the last byte of their fields. *)
Definition sys_jail_create (p : jproc) (ucfg : option kjail_conf_t) (js : list jail_t) :
    Z * jproc * list jail_t :=
  if negb (jail_host_priv js (Some p)) then (- EPERM, p, js) else
  match ucfg with
  | None => (- EFAULT, p, js)
  | Some c =>
      let cfg := mkConf (take (JAIL_ROOT_MAX - 1) (cfg_root c)) (take (JAIL_NAME_MAX - 1) (cfg_name c))
                   (cfg_flags c) (cfg_max_procs c) (cfg_attach c) in
      let '(jid, js) := jail_create (p_jail_id p) cfg (p_euid p) js in
      if jid <? 0 then (jid, p, js) else
      if ztrue (cfg_attach cfg) then let '(p, js) := jail_enter p jid js in (jid, p, js)
      else (jid, p, js)
  end.

Definition sys_jail_attach (p : jproc) (jid : Z) (js : list jail_t) : Z * jproc * list jail_t :=
  match jail_find js jid with
  | None => (- ESRCH, p, js)
  | Some j =>
      if bool_decide (jstate j <> JAIL_ACTIVE) then (- ESRCH, p, js) else
      if negb (jail_is_descendant js (p_jail_id p) jid) then (- EPERM, p, js) else
      if negb (jail_can_fork js jid) then (- EAGAIN, p, js) else
      let '(p, js) := jail_enter p jid js in (0, p, js)
  end.

(** The ids the caller may see, in slot order. *)
Definition sys_jail_list (p : jproc) (js : list jail_t) : list Z :=
  map id (filter (fun j =>
    jstate j <> JAIL_UNUSED /\ jail_is_descendant js (p_jail_id p) (id j) = true) js).

Definition sys_jail_remove (p : jproc) (jid : Z) (js : list jail_t) : Z * list jail_t :=
  jail_remove jid (Some p) js.

Definition sys_jail_set_auto (p : jproc) (on : Z) (js : list jail_t) (auto : Z) : Z * Z :=
  if negb (jail_host_priv js (Some p)) then (- EPERM, auto) else (0, if ztrue on then 1 else 0).

(** ** Path normalisation against a reference *)

(** The components between slashes, without the empty ones. *)
Fixpoint split_path (fuel : nat) (p : list Z) : list (list Z) :=
  match fuel with
  | O => []
  | S f =>
      match skip_while (fun c => c =? ch_slash) p with
      | [] => []
      | p => take_while not_slash p :: split_path f (drop (length (take_while not_slash p)) p)
      end
  end.

Definition components (p : list Z) : list (list Z) := split_path (length p) p.

(** One component of a lexical walk that stays at the top on [..]. *)
Definition walk (comps : list (list Z)) (s : list Z) : list (list Z) :=
  if bool_decide (s = dot) then comps else
  if bool_decide (s = dotdot) then removelast comps else comps ++ [s].

(** A component that names a file below its directory. *)
Definition good (s : list Z) : Prop := s <> [] /\ (ch_slash ∉ s) /\ s <> dot /\ s <> dotdot.

Lemma take_while_head P c s : P c = true -> take_while P (c :: s) <> [].
Proof. intros Hc. simpl. by rewrite Hc. Qed.

Lemma take_while_forall P s : Forall (fun c => P c = true) (take_while P s).
Proof. induction s as [|c s IH]; simpl; [done|]. destruct (P c) eqn:E; [by constructor|done]. Qed.

Lemma take_while_no_slash s : ch_slash ∉ take_while not_slash s.
Proof.
  intros Hin. pose proof (take_while_forall not_slash s) as Hf. rewrite Forall_forall in Hf.
  by apply Hf in Hin.
Qed.

Lemma length_take_while P s : (length (take_while P s) <= length s)%nat.
Proof. induction s as [|c s IH]; simpl; [lia|]. destruct (P c); simpl; lia. Qed.

Lemma skip_slash_head s : match skip_while (fun c => c =? ch_slash) s with c :: _ => not_slash c = true | [] => True end.
Proof. induction s as [|c s IH]; simpl; [done|]. destruct (c =? ch_slash) eqn:E; [done|]. unfold not_slash. by rewrite E. Qed.

(** The result is a list of proper components that fits the buffer. *)
Lemma canon_loop_good fuel p comps sz :
  Forall good comps -> Forall good (canon_loop fuel p comps sz).
Proof.
  revert p comps. induction fuel as [|f IH]; intros p comps Hg; cbn [canon_loop]; [done|]. cbv zeta.
  pose proof (skip_slash_head p) as Hh. destruct (skip_while _ p) as [|c q] eqn:E; [done|].
  set (s := take_while not_slash (c :: q)). repeat case_bool_decide; [by apply IH|by apply IH, Forall_removelast|].
  case_raw; [done|]. apply IH, Forall_app. split; [done|]. constructor; [|done].
  split_and!; [by apply take_while_head|apply take_while_no_slash|done|done].
Qed.

Lemma join_app a b : join (a ++ b) = join a ++ join b.
Proof. unfold join. by rewrite map_app, concat_app. Qed.

Lemma join_snoc_length comps s : blen (join (comps ++ [s])) = blen (join comps) + 1 + blen s.
Proof. rewrite join_app, blen_app. unfold join, blen. simpl. rewrite app_nil_r. lia. Qed.

Lemma removelast_length_join comps : blen (join (removelast comps)) <= blen (join comps).
Proof.
  destruct comps as [|x l _] using rev_ind; [done|]. rewrite removelast_last, join_snoc_length.
  pose proof (blen_nonneg x). lia.
Qed.

Lemma canon_loop_fits fuel p comps sz :
  blen (join comps) < sz -> (length comps <= 128)%nat ->
  blen (join (canon_loop fuel p comps sz)) < sz /\ (length (canon_loop fuel p comps sz) <= 128)%nat.
Proof.
  revert p comps. induction fuel as [|f IH]; intros p comps Hs Hl; cbn [canon_loop]; [done|]. cbv zeta.
  destruct (skip_while _ p) as [|c q]; [done|]. set (s := take_while not_slash (c :: q)).
  repeat case_bool_decide; [by apply IH| |].
  - apply IH; [pose proof (removelast_length_join comps); lia|].
    destruct comps as [|x l _] using rev_ind; [done|]. rewrite removelast_last.
    rewrite length_app in Hl. lia.
  - destruct (Nat.leb_spec 128 (length comps)); [done|]. cbn [orb]. case_raw; [done|]. dest_bool.
    apply IH; [by rewrite join_snoc_length|]. rewrite length_app. simpl. lia.
Qed.

(** The slash a first component without one gets. *)
Definition lead (p : list Z) : Z := if not_slash (hd ch_slash p) then 1 else 0.

Lemma skip_slash_lead p c q :
  skip_while (fun c => c =? ch_slash) p = c :: q -> 1 + blen (c :: q) <= lead p + blen p.
Proof.
  unfold lead, not_slash, blen. destruct p as [|d p]; [done|]. cbn [hd skip_while].
  destruct (Z.eqb_spec d ch_slash); cbn [negb].
  - pose proof (skip_while_length (fun c => c =? ch_slash) p) as Hl. intros E. rewrite E in Hl. simpl in *. lia.
  - intros [= <- <-]. lia.
Qed.

Lemma lead_rest p : lead (drop (length (take_while not_slash p)) p) = 0.
Proof.
  unfold lead. induction p as [|c p IH]; [done|]. cbn [take_while].
  destruct (not_slash c) eqn:E; cbn [length drop]; [done|]. cbn [hd]. by rewrite E.
Qed.

(** Within the limits of the buffer the loop is the reference walk. *)
Lemma canon_loop_walk fuel p comps sz :
  (length p <= fuel)%nat -> blen (join comps) + lead p + blen p < sz ->
  (length comps + length p < 128)%nat ->
  canon_loop fuel p comps sz = foldl walk comps (split_path fuel p).
Proof.
  revert p comps. induction fuel as [|f IH]; intros p comps Hf Hs Hl; cbn [canon_loop split_path]; [done|]. cbv zeta.
  pose proof (skip_slash_head p) as Hh. pose proof (skip_while_length (fun c => c =? ch_slash) p) as Hp.
  destruct (skip_while _ p) as [|c q] eqn:E; [done|]. apply skip_slash_lead in E.
  pose proof (lead_rest (c :: q)) as Hlead. set (s := take_while not_slash (c :: q)) in *.
  assert (Hlen : (0 < length s <= length (c :: q))%nat).
  { split; [|apply length_take_while]. pose proof (take_while_head not_slash c q Hh). fold s in H. destruct s; [done|simpl; lia]. }
  set (rest := drop (length s) (c :: q)) in *.
  assert (Hd : length rest = (length (c :: q) - length s)%nat) by apply length_drop.
  unfold blen in E. assert (Hb : blen rest = Z.of_nat (length rest) /\ blen s = Z.of_nat (length s) /\
    blen p = Z.of_nat (length p)) by done.
  cbn [foldl]. unfold walk at 2. repeat case_bool_decide.
  - apply IH; lia.
  - pose proof (removelast_length_join comps).
    assert ((length (removelast comps) <= length comps)%nat).
    { destruct comps as [|x l _] using rev_ind; [done|]. rewrite removelast_last, length_app. lia. }
    apply IH; lia.
  - destruct (Nat.leb_spec 128 (length comps)); [lia|]. cbn [orb].
    rewrite (proj2 (Z.leb_gt sz _)) by lia.
    apply IH; [lia|rewrite join_snoc_length; lia|rewrite length_app; simpl; lia].
Qed.

(** [path_canon] is lexical normalisation.  Its result is ["/"] or slash
    separated components none of which is empty, ["."] or [".."], it fits the
    buffer, and for a path below the buffer's limits it is what walking the
    components from the top gives, [".."] at the top staying there. *)
Theorem path_canon_normalises inp sz :
  1 < sz ->
  exists comps, Forall good comps /\
    path_canon inp sz = (match comps with [] => [ch_slash] | _ => join comps end) /\
    blen (path_canon inp sz) < sz /\
    (Z.of_nat (length inp) + 1 < sz -> (length inp < 128)%nat -> comps = foldl walk [] (components inp)).
Proof.
  intros Hsz. exists (canon_loop (length inp) inp [] sz).
  destruct (canon_loop_fits (length inp) inp [] sz) as [Hfit _]; [unfold blen; simpl; lia|simpl; lia|].
  split_and!; [by apply canon_loop_good|done| |].
  - unfold path_canon. destruct (canon_loop _ _ _ _) eqn:E; [unfold blen; simpl; lia|done].
  - intros H1 H2. apply canon_loop_walk; [done| |simpl; lia].
    unfold lead, blen. simpl. case_raw; lia.
Qed.

Lemma path_canon_normalises_witness :
  exists comps, Forall good comps /\ comps = foldl walk [] (components [47; 97; 47; 46; 46; 47; 46; 46; 47; 98]) /\
    path_canon [47; 97; 47; 46; 46; 47; 46; 46; 47; 98] 512 = [47; 98].
Proof.
  destruct (path_canon_normalises [47; 97; 47; 46; 46; 47; 46; 46; 47; 98] 512 ltac:(lia))
    as (comps & Hg & _ & _ & Hw).
  exists comps. split_and!; [exact Hg|apply Hw; simpl; lia|vm_compute; reflexivity].
Defined.

(** ** Confinement *)

Definition clean (s : list Z) : Prop := Forall (fun c => c <> 0) s.

Lemma clean_take_while P s : clean s -> clean (take_while P s).
Proof. induction 1 as [|c s Hc _ IH]; simpl; [constructor|]. destruct (P c); by constructor. Qed.

Lemma clean_skip_while P s : clean s -> clean (skip_while P s).
Proof. induction 1 as [|c s Hc Hs IH]; simpl; [constructor|]. destruct (P c); [done|by constructor]. Qed.

Lemma canon_loop_clean fuel p comps sz :
  clean p -> Forall clean comps -> Forall clean (canon_loop fuel p comps sz).
Proof.
  revert p comps. induction fuel as [|f IH]; intros p comps Hp Hc; cbn [canon_loop]; [done|]. cbv zeta.
  pose proof (clean_skip_while (fun c => c =? ch_slash) p Hp) as Hq. destruct (skip_while _ p) as [|c q]; [done|].
  pose proof (Forall_drop _ (length (take_while not_slash (c :: q))) _ Hq).
  repeat case_bool_decide; [by apply IH|apply IH; [done|by apply Forall_removelast]|]. case_raw; [done|].
  apply IH; [done|]. apply Forall_app. split; [done|]. constructor; [by apply clean_take_while|done].
Qed.

Lemma clean_join comps : Forall clean comps -> clean (join comps).
Proof.
  induction 1 as [|s comps Hs _ IH]; [by constructor|]. unfold join in *. simpl. constructor; [done|].
  by apply Forall_app.
Qed.

Lemma cstr_strncpy_bytes s n : clean s -> cstr (strncpy_bytes (s ++ [0]) n) = take n s.
Proof.
  intros Hs. revert n. induction Hs as [|c s Hc _ IH]; intros [|n]; simpl; try done.
  unfold ztrue. rewrite (proj2 (Z.eqb_neq c 0)) by done. cbn [negb cstr]. unfold ztrue.
  rewrite (proj2 (Z.eqb_neq c 0)) by done. cbn [negb]. by rewrite IH.
Qed.

Lemma snprintf_fits size out :
  0 < size -> blen out < size -> (if ztrue size then take (Z.to_nat (size - 1)) out ++ [0] else []) = out ++ [0].
Proof.
  intros H1 H2. unfold ztrue. rewrite (proj2 (Z.eqb_neq size 0)) by lia. cbn [negb].
  rewrite take_ge; [done|]. unfold blen in H2. lia.
Qed.

(** What the clamp computes, for roots that fit the jail record. *)
Lemma clamp_eq sz root comps :
  clean root -> root <> [] -> blen root < 256 -> Forall clean comps -> blen (join comps) < 512 ->
  let canon := match comps with [] => [ch_slash] | _ => join comps end in
  Forall good comps ->
  cstr (strncpy_bytes
    (if bool_decide (canon = [ch_slash]) then fst (snprintf 768 fmt_s [ArgStr (Some root)])
     else fst (snprintf 768 fmt_ss [ArgStr (Some root); ArgStr (Some canon)])) (Z.to_nat (sz - 1))) =
  take (Z.to_nat (sz - 1)) (root ++ join comps).
Proof.
  intros Hr Hne Hl Hc Hj. cbv zeta. intros Hg. unfold snprintf, vsnprintf. cbn [fst].
  rewrite vprintf_s, vprintf_ss, !(cstr_id root) by done. destruct comps as [|s comps].
  - rewrite bool_decide_true by done. change (join []) with (@nil Z). rewrite app_nil_r.
    rewrite (snprintf_fits 768 root) by lia. by apply cstr_strncpy_bytes.
  - rewrite bool_decide_false.
    + pose proof (clean_join _ Hc) as Hcj. rewrite (cstr_id (join (s :: comps))) by done.
      rewrite snprintf_fits by (rewrite ?blen_app; lia). apply cstr_strncpy_bytes. by apply Forall_app.
    + apply Forall_cons in Hg as [[Hs _] _]. unfold join. simpl. destruct s; [done|]. intros [=].
Qed.


Definition jroot : list Z := [47; 106; 97; 105; 108; 115; 47; 97]. (* /jails/a *)


(** ** Two ways out *)

(** the parent check of [jail_create] compares names, not path components: a
    privileged process inside the jail [/jails/a] creates a jail rooted at
    [/jails/ab], outside its own root, and enters it. *)
Theorem jail_create_escapes_root :
  let cfg r := mkConf r [] JAILF_FS 0 1 in
  let p0 := mkJproc 0 true JAIL_HOST 0 [ch_slash] in
  let '(_, p1, js1) := sys_jail_create p0 (Some (cfg jroot)) jail_init in
  let '(r2, p2, js2) := sys_jail_create p1 (Some (cfg ([46; 46; 47; 97; 98]))) js1 in (* ../ab *)
  p_cwd p1 = jroot /\ r2 = 2 /\ jail_root_current js2 (Some p2) = jroot ++ [98] /\
  p_cwd p2 = jroot ++ [98].
Proof. vm_compute. repeat split. Qed.

(** [sys_jail_attach] lets a process escape upwards.  Jail ids are reused while
    children still name them as their parent: jail 2 is a child of jail 1, jail 1
    is removed, and a process of jail 2 creates a jail that gets the id 1 again,
    now a child of jail 2.  A process of that jail may then attach to jail 2,
    its own parent, because each of the two counts as a descendant of the other. *)
Theorem jail_attach_escapes_upwards :
  let cfg a := mkConf [] [] 0 0 a in
  let p0 := mkJproc 0 true JAIL_HOST 0 [ch_slash] in
  let '(_, pa, js) := sys_jail_create p0 (Some (cfg 1)) jail_init in  (* jail 1, entered *)
  let '(_, pb, js) := sys_jail_create pa (Some (cfg 1)) js in         (* jail 2, below 1, entered *)
  let '(r3, js) := sys_jail_remove p0 1 js in                         (* the host removes jail 1 *)
  let '(_, pc, js) := sys_jail_create pb (Some (cfg 1)) js in         (* a jail below 2 gets id 1 *)
  r3 = 0 /\ p_jail_id pb = 2 /\ p_jail_id pc = 1 /\
  option_map parent_id (jail_find js 1) = Some 2 /\
  jail_is_descendant js 1 2 = true /\ jail_is_descendant js 2 1 = true /\
  (let '(r, p, _) := sys_jail_attach pc 2 js in r = 0 /\ p_jail_id p = 2).
Proof. vm_compute. repeat split. Qed.
