(* ===== verification/Cred.v ===== *)
(** * Cred: credentials, capabilities and process groups.

    Models [kernel/syscall/cred.c], [sys_prctl] of [kernel/syscall/syscall.c], the
    credential part of [execve] and [fork] ([kernel/syscall/procctl.c],
    [proc_security_inherit] of [kernel/proc/proc.c]) and the permission checks of
    [kernel/fs/vfs.c].  A process is the record of its credential fields; [cur()]
    is never [NULL] in a system call and every process has an [nsproxy].  A user
    id argument is 32 bits wide, [NOID] being [(uint32_t) -1].  Verdicts of
    [uptr_ok] on the caller's buffers are Boolean arguments. *)

From S2P Require Import Prelude Bits Bytes KString Printf Ns PidNs Jail.

Definition NOID := 2 ^ 32 - 1.
Definition CAP_LAST_CAP := 40.
Definition CAP_SETPCAP := 8.
Definition CAP_FULL_MASK := 2 ^ 41 - 1.
Definition CAP_VERSION_3 := 0x20080522.
Definition PROC_MAX := 64.
Definition NSIG := 64.

Record ids_t := mkIds {
  uid : Z; gid : Z;
  euid : Z; egid : Z;
  suid : Z; sgid : Z;
  fsuid : Z; fsgid : Z;
}.

Record caps_t := mkCaps {
  cap_effective : Z;
  cap_permitted : Z;
  cap_inheritable : Z;
  cap_bounding : Z;
  cap_ambient : Z;
}.

(** The flags [prctl] controls. *)
Record prflags_t := mkPr {
  no_new_privs : Z;
  keepcaps : Z;
  dumpable : Z;
  child_subreaper : Z;
  pdeathsig : Z;
  comm : list Z;
}.

Record cproc := mkCproc {
  pid : Z;
  ppid : Z;
  pgid : Z;
  ids : ids_t;
  sup_groups : list Z;
  ngroups : Z;
  caps : caps_t;
  pr : prflags_t;
  jail_id : Z;
  user_ns : userns;
  pid_ns : nat;
}.

Definition set_ids (v : ids_t) (p : cproc) : cproc :=
  mkCproc (pid p) (ppid p) (pgid p) v (sup_groups p) (ngroups p) (caps p) (pr p) (jail_id p) (user_ns p) (pid_ns p).
Definition set_groups (g : list Z) (n : Z) (p : cproc) : cproc :=
  mkCproc (pid p) (ppid p) (pgid p) (ids p) g n (caps p) (pr p) (jail_id p) (user_ns p) (pid_ns p).
Definition set_caps (v : caps_t) (p : cproc) : cproc :=
  mkCproc (pid p) (ppid p) (pgid p) (ids p) (sup_groups p) (ngroups p) v (pr p) (jail_id p) (user_ns p) (pid_ns p).
Definition set_pr (v : prflags_t) (p : cproc) : cproc :=
  mkCproc (pid p) (ppid p) (pgid p) (ids p) (sup_groups p) (ngroups p) (caps p) v (jail_id p) (user_ns p) (pid_ns p).
Definition set_user_ns (v : userns) (p : cproc) : cproc :=
  mkCproc (pid p) (ppid p) (pgid p) (ids p) (sup_groups p) (ngroups p) (caps p) (pr p) (jail_id p) v (pid_ns p).
Definition set_pgid (v : Z) (p : cproc) : cproc :=
  mkCproc (pid p) (ppid p) v (ids p) (sup_groups p) (ngroups p) (caps p) (pr p) (jail_id p) (user_ns p) (pid_ns p).

(** ** Reading credentials *)

Definition cred_uid (p : cproc) (kuid : Z) : Z := default NOBODY (ns_uid_to_local (user_ns p) kuid).
Definition cred_gid (p : cproc) (kgid : Z) : Z := default NOBODY (ns_gid_to_local (user_ns p) kgid).

Definition sys_getuid (p : cproc) : Z := cred_uid p (uid (ids p)).
Definition sys_getgid (p : cproc) : Z := cred_gid p (gid (ids p)).
Definition sys_geteuid (p : cproc) : Z := cred_uid p (euid (ids p)).
Definition sys_getegid (p : cproc) : Z := cred_gid p (egid (ids p)).

Definition sys_getresuid (p : cproc) : Z * Z * Z :=
  (cred_uid p (uid (ids p)), cred_uid p (euid (ids p)), cred_uid p (suid (ids p))).
Definition sys_getresgid (p : cproc) : Z * Z * Z :=
  (cred_gid p (gid (ids p)), cred_gid p (egid (ids p)), cred_gid p (sgid (ids p))).

Definition ns_user_is_initial (p : cproc) : bool := match user_ns p with None => true | Some _ => false end.

Definition ns_user_is_root (p : cproc) : bool :=
  default NOBODY (ns_uid_to_local (user_ns p) (euid (ids p))) =? 0.

Definition cred_has_cap (p : cproc) (cap : Z) : bool :=
  if CAP_LAST_CAP <? cap then false else ztrue (Z.land (cap_effective (caps p)) (Z.shiftl 1 cap)).

(** ** Changing user and group ids *)

Definition cred_drop_caps_for_uid (p : cproc) (old_euid new_euid : Z) : cproc :=
  if negb (old_euid =? 0) || (new_euid =? 0) || ztrue (keepcaps (pr p)) then p
  else set_caps (mkCaps 0 0 (cap_inheritable (caps p)) (cap_bounding (caps p)) 0) p.

Definition sys_setfsuid (u : Z) (p : cproc) : Z * cproc :=
  let i := ids p in
  let old := fsuid i in
  if u =? NOID then (old, p) else
  if ns_user_is_root p || (u =? uid i) || (u =? euid i) || (u =? suid i)
  then (old, set_ids (mkIds (uid i) (gid i) (euid i) (egid i) (suid i) (sgid i) u (fsgid i)) p)
  else (old, p).

Definition sys_setfsgid (g : Z) (p : cproc) : Z * cproc :=
  let i := ids p in
  let old := fsgid i in
  if g =? NOID then (old, p) else
  if ns_user_is_root p || (g =? gid i) || (g =? egid i) || (g =? sgid i)
  then (old, set_ids (mkIds (uid i) (gid i) (euid i) (egid i) (suid i) (sgid i) (fsuid i) g) p)
  else (old, p).

(** *** Supplementary groups from [/etc/passwd] and [/etc/group] *)

(** [acc] is the current column, reversed. *)
Fixpoint parse_col_loop (line : list Z) (c col : nat) (acc : list Z) : list Z :=
  match line with
  | [] => if (c =? col)%nat then rev acc else []
  | ch :: line' =>
      if ch =? ch_colon then
        if (c =? col)%nat then rev acc else parse_col_loop line' (S c) col []
      else parse_col_loop line' c col (ch :: acc)
  end.

Definition parse_col (line : list Z) (col outsz : nat) : list Z :=
  take (outsz - 1) (parse_col_loop line 0 col []).

(** Each round skips at least one character. *)
Fixpoint in_list_loop (fuel : nat) (p name : list Z) : bool :=
  match fuel with
  | O => false
  | S f =>
      if negb (ztrue (hd 0 p)) then false else
      let nlen := Z.to_nat (strlen name) in
      let c := hd 0 (drop nlen p) in
      if (strncmp p name nlen =? 0) && ((c =? ch_comma) || (c =? 0)) then true else
      let p := skip_while (fun c => ztrue c && negb (c =? ch_comma)) p in
      in_list_loop f (if hd 0 p =? ch_comma then tl p else p) name
  end.

Definition name_in_list (members name : list Z) : bool := in_list_loop (S (length members)) members name.

(** The lines of a file: what the two scanning loops step through. *)
Fixpoint file_lines (fuel : nat) (data : list Z) : list (list Z) :=
  match fuel, data with
  | S f, _ :: _ =>
      let line := take_while (fun c => negb (c =? ch_nl)) data in
      line :: file_lines f (drop (S (length line)) data)
  | _, _ => []
  end.

Fixpoint find_user (lines : list (list Z)) (u : Z) : list Z :=
  match lines with
  | [] => []
  | line :: rest =>
      let fuid := parse_col line 2 32 in
      if ztrue (hd 0 fuid) && (u32 (atoi fuid) =? u) then parse_col line 0 64 else find_user rest u
  end.

Fixpoint find_groups (lines : list (list Z)) (uname : list Z) (groups : list Z) : list Z :=
  match lines with
  | [] => groups
  | line :: rest =>
      if (64 <=? length groups)%nat then groups else
      let ggid := parse_col line 2 32 in
      let members := parse_col line 3 512 in
      find_groups rest uname
        (if ztrue (hd 0 ggid) && ztrue (hd 0 members) && name_in_list members uname
         then groups ++ [u32 (atoi ggid)] else groups)
  end.

(** The contents of the two files, [None] when the lookup gives no regular file
    with data. *)
Record etc := mkEtc { passwd : option (list Z); group : option (list Z) }.

Definition lines_of (f : option (list Z)) : list (list Z) :=
  match f with Some d => file_lines (length d) d | None => [] end.

Definition kernel_initgroups (e : etc) (u : Z) (p : cproc) : cproc :=
  let uname := find_user (lines_of (passwd e)) u in
  let groups := [gid (ids p)] in
  if negb (ztrue (hd 0 uname)) then set_groups (sup_groups p) 1 p else
  let groups := find_groups (lines_of (group e)) uname groups in
  set_groups (groups ++ drop (length groups) (sup_groups p)) (Z.of_nat (length groups)) p.

(** *** The calls *)

Definition sys_setuid (e : etc) (u : Z) (p : cproc) : Z * cproc :=
  let i := ids p in
  if ns_user_is_root p then
    let old := euid i in
    let p := set_ids (mkIds u (gid i) u (egid i) u (sgid i) u (fsgid i)) p in
    let p := cred_drop_caps_for_uid p old u in
    (0, if negb (u =? 0) then kernel_initgroups e u p else p)
  else if negb (u =? uid i) && negb (u =? suid i) then (- EPERM, p)
  else
    let old := euid i in
    let p := set_ids (mkIds (uid i) (gid i) u (egid i) (suid i) (sgid i) u (fsgid i)) p in
    (0, cred_drop_caps_for_uid p old u).

Definition sys_setgid (g : Z) (p : cproc) : Z * cproc :=
  let i := ids p in
  if ns_user_is_root p then
    (0, set_ids (mkIds (uid i) g (euid i) g (suid i) g (fsuid i) g) p)
  else if negb (g =? gid i) && negb (g =? sgid i) then (- EPERM, p)
  else (0, set_ids (mkIds (uid i) (gid i) (euid i) g (suid i) (sgid i) (fsuid i) g) p).

Definition keep (v old : Z) : Z := if v =? NOID then old else v.

Definition sys_setreuid (r e : Z) (p : cproc) : Z * cproc :=
  let i := ids p in
  if negb (ns_user_is_root p) && (negb (r =? NOID) && negb (r =? uid i) && negb (r =? euid i))
  then (- EPERM, p) else
  if negb (ns_user_is_root p) &&
     (negb (e =? NOID) && negb (e =? uid i) && negb (e =? euid i) && negb (e =? suid i))
  then (- EPERM, p) else
  let old := euid i in
  let new := keep e old in
  let p := set_ids (mkIds (keep r (uid i)) (gid i) new (egid i) (suid i) (sgid i) (keep e (fsuid i)) (fsgid i)) p in
  let p := cred_drop_caps_for_uid p old new in
  let i := ids p in
  (0, set_ids (mkIds (uid i) (gid i) (euid i) (egid i) (euid i) (sgid i) (fsuid i) (fsgid i)) p).

Definition sys_setregid (r e : Z) (p : cproc) : Z * cproc :=
  let i := ids p in
  if negb (ns_user_is_root p) && (negb (r =? NOID) && negb (r =? gid i) && negb (r =? egid i))
  then (- EPERM, p) else
  if negb (ns_user_is_root p) &&
     (negb (e =? NOID) && negb (e =? gid i) && negb (e =? egid i) && negb (e =? sgid i))
  then (- EPERM, p) else
  let new := keep e (egid i) in
  (0, set_ids (mkIds (uid i) (keep r (gid i)) (euid i) new (suid i) new (fsuid i) (keep e (fsgid i))) p).

(** [cur_set] in the source. *)
Definition allowed (v a b c : Z) : bool := (v =? NOID) || (v =? a) || (v =? b) || (v =? c).

Definition sys_setresuid (r e s : Z) (p : cproc) : Z * cproc :=
  let i := ids p in
  if negb (ns_user_is_root p) && negb (allowed r (uid i) (euid i) (suid i)) then (- EPERM, p) else
  if negb (ns_user_is_root p) && negb (allowed e (uid i) (euid i) (suid i)) then (- EPERM, p) else
  if negb (ns_user_is_root p) && negb (allowed s (uid i) (euid i) (suid i)) then (- EPERM, p) else
  let old := euid i in
  let new := keep e old in
  let p := set_ids (mkIds (keep r (uid i)) (gid i) new (egid i) (suid i) (sgid i) (keep e (fsuid i)) (fsgid i)) p in
  let p := cred_drop_caps_for_uid p old new in
  let i := ids p in
  (0, set_ids (mkIds (uid i) (gid i) (euid i) (egid i) (keep s (suid i)) (sgid i) (fsuid i) (fsgid i)) p).

Definition sys_setresgid (r e s : Z) (p : cproc) : Z * cproc :=
  let i := ids p in
  if negb (ns_user_is_root p) && negb (allowed r (gid i) (egid i) (sgid i)) then (- EPERM, p) else
  if negb (ns_user_is_root p) && negb (allowed e (gid i) (egid i) (sgid i)) then (- EPERM, p) else
  if negb (ns_user_is_root p) && negb (allowed s (gid i) (egid i) (sgid i)) then (- EPERM, p) else
  (0, set_ids (mkIds (uid i) (keep r (gid i)) (euid i) (keep e (egid i)) (suid i) (keep s (sgid i))
                 (fsuid i) (keep e (fsgid i))) p).

(** The ids reported to the caller, or an error. *)
Definition sys_getgroups (size : Z) (writable : bool) (p : cproc) : Z * list Z :=
  let n := ngroups p in
  if size =? 0 then (n, []) else
  if size <? n then (- EINVAL, []) else
  if negb writable then (- EFAULT, []) else
  (n, map (cred_gid p) (take (Z.to_nat n) (sup_groups p))).

Definition sys_setgroups (l : list Z) (size : Z) (readable : bool) (p : cproc) : Z * cproc :=
  if negb (ns_user_is_root p) then (- EPERM, p) else
  if match user_ns p with Some n => groups_disabled n | None => false end then (- EPERM, p) else
  if size <? 0 then (- EINVAL, p) else
  if 64 <? size then (- EINVAL, p) else
  if (0 <? size) && negb readable then (- EFAULT, p) else
  let l := take (Z.to_nat size) l in
  (0, set_groups (l ++ drop (length l) (sup_groups p)) size p).

(** ** Capabilities *)

(** The two 32-bit halves [capget] stores for the three sets. *)
Definition lo32 (v : Z) : Z := u32 v.
Definition hi32 (v : Z) : Z := u32 (Z.shiftr v 32).

Definition sys_capget (p : cproc) (version hpid self_pid : Z) (hdr_ok data_ok : bool) : Z * list Z :=
  if negb hdr_ok then (- EFAULT, []) else
  if negb (version =? CAP_VERSION_3) then (- EINVAL, []) else
  if negb (hpid =? 0) && negb (hpid =? self_pid) then (- EPERM, []) else
  if negb data_ok then (- EFAULT, []) else
  let c := caps p in
  (0, [lo32 (cap_effective c); lo32 (cap_permitted c); lo32 (cap_inheritable c);
       hi32 (cap_effective c); hi32 (cap_permitted c); hi32 (cap_inheritable c)]).

Definition wide (lo hi : Z) : Z := Z.lor lo (Z.shiftl hi 32).

Definition sys_capset (version hpid self_pid : Z) (ptrs_ok : bool) (d : list Z) (p : cproc) : Z * cproc :=
  if negb ptrs_ok then (- EFAULT, p) else
  if negb (version =? CAP_VERSION_3) then (- EINVAL, p) else
  if negb (hpid =? 0) && negb (hpid =? self_pid) then (- EPERM, p) else
  let effective := wide (aget 0 d 0) (aget 0 d 3) in
  let permitted := wide (aget 0 d 1) (aget 0 d 4) in
  let inheritable := wide (aget 0 d 2) (aget 0 d 5) in
  let c := caps p in
  if ztrue (Z.ldiff effective permitted) then (- EPERM, p) else
  if ztrue (Z.ldiff permitted (cap_permitted c)) then (- EPERM, p) else
  if ztrue (Z.ldiff inheritable (Z.lor (cap_inheritable c) (cap_permitted c))) then (- EPERM, p) else
  let pm := Z.land permitted CAP_FULL_MASK in
  let inh := Z.land inheritable CAP_FULL_MASK in
  (0, set_caps (mkCaps (Z.land effective CAP_FULL_MASK) pm inh (cap_bounding c)
                  (Z.land (cap_ambient c) (Z.land inh pm))) p).

(** ** [prctl]

    [name] gives the bytes of the [PR_SET_NAME] argument, [None] where the caller's
    memory is not readable, and [writable] the verdict on an output pointer; the
    seccomp operations ([Seccomp.v]) enter with their mode and their result. *)
Fixpoint read_name (fuel : nat) (name : list (option Z)) : option (list Z) :=
  match fuel with
  | O => Some []
  | S f =>
      match name with
      | Some c :: rest => if ztrue c then (cons c) <$> read_name f rest else Some [c]
      | _ => None
      end
  end.

Definition set_flag (op v : Z) (f : prflags_t) : prflags_t :=
  if op =? 4 then mkPr (no_new_privs f) (keepcaps f) v (child_subreaper f) (pdeathsig f) (comm f)
  else if op =? 8 then mkPr (no_new_privs f) v (dumpable f) (child_subreaper f) (pdeathsig f) (comm f)
  else if op =? 36 then mkPr (no_new_privs f) (keepcaps f) (dumpable f) v (pdeathsig f) (comm f)
  else if op =? 1 then mkPr (no_new_privs f) (keepcaps f) (dumpable f) (child_subreaper f) v (comm f)
  else mkPr v (keepcaps f) (dumpable f) (child_subreaper f) (pdeathsig f) (comm f).

Definition set_ambient (v : Z) (p : cproc) : cproc :=
  let c := caps p in
  set_caps (mkCaps (cap_effective c) (cap_permitted c) (cap_inheritable c) (cap_bounding c) v) p.

Definition prctl_ambient (a2 a3 : Z) (p : cproc) : Z * cproc :=
  let c := caps p in
  if a2 =? 4 then (0, set_ambient 0 p) else                                  (* CLEAR_ALL *)
  if CAP_LAST_CAP <? a3 then (- EINVAL, p) else
  let b := bit a3 in
  if a2 =? 1 then (if ztrue (Z.land (cap_ambient c) b) then 1 else 0, p) else (* IS_SET *)
  if a2 =? 2 then                                                            (* RAISE *)
    if negb (ztrue (Z.land (cap_inheritable c) b)) || negb (ztrue (Z.land (cap_permitted c) b))
    then (- EPERM, p) else (0, set_ambient (Z.lor (cap_ambient c) b) p) else
  if a2 =? 3 then (0, set_ambient (clear_bits (cap_ambient c) b) p) else     (* LOWER *)
  (- EINVAL, p).

Definition sys_prctl (name : list (option Z)) (writable : bool) (seccomp_mode seccomp_ret : Z)
    (op a2 a3 a4 a5 : Z) (p : cproc) : Z * cproc :=
  let f := pr p in
  let flag01 := if 1 <? a2 then (- EINVAL, p) else (0, set_pr (set_flag op a2 f) p) in
  let out (v : Z) := if writable then (0, p) else (- EFAULT, p) in
  if op =? 1 then if NSIG <=? a2 then (- EINVAL, p) else (0, set_pr (set_flag 1 a2 f) p)
  else if op =? 2 then out (pdeathsig f)
  else if op =? 3 then (dumpable f, p)
  else if op =? 4 then flag01
  else if op =? 8 then flag01
  else if op =? 9 then (keepcaps f, p)
  else if op =? 15 then
    match read_name 15 name with
    | None => (- EFAULT, p)
    | Some n => (0, set_pr (mkPr (no_new_privs f) (keepcaps f) (dumpable f) (child_subreaper f)
                              (pdeathsig f) (n ++ replicate (16 - length n) 0)) p)
    end
  else if op =? 16 then out 0
  else if op =? 21 then (seccomp_mode, p)
  else if op =? 22 then (seccomp_ret, p)
  else if op =? 23 then
    if CAP_LAST_CAP <? a2 then (- EINVAL, p)
    else (Z.land (Z.shiftr (cap_bounding (caps p)) a2) 1, p)
  else if op =? 24 then
    if CAP_LAST_CAP <? a2 then (- EINVAL, p) else
    if negb (cred_has_cap p CAP_SETPCAP) then (- EPERM, p) else
    let c := caps p in
    (0, set_caps (mkCaps (cap_effective c) (cap_permitted c) (cap_inheritable c)
                    (clear_bits (cap_bounding c) (bit a2)) (cap_ambient c)) p)
  else if op =? 36 then flag01
  else if op =? 37 then out (child_subreaper f)
  else if op =? 38 then
    if negb (a2 =? 1) || ztrue a3 || ztrue a4 || ztrue a5 then (- EINVAL, p)
    else (0, set_pr (set_flag 38 1 f) p)
  else if op =? 39 then (no_new_privs f, p)
  else if op =? 47 then prctl_ambient a2 a3 p
  else (- EINVAL, p).

(** ** [execve] and [fork] *)

Definition S_ISUID := 0x800.
Definition S_ISGID := 0x400.
Definition S_ISVTX := 0x200.

(** The ids after loading a program of the given mode and owner. *)
Definition exec_creds (mode exec_uid exec_gid : Z) (p : cproc) : cproc :=
  let nnp := ztrue (no_new_privs (pr p)) in
  let i := ids p in
  let i := if negb nnp && ztrue (Z.land mode S_ISUID)
           then mkIds (uid i) (gid i) exec_uid (egid i) exec_uid (sgid i) exec_uid (fsgid i) else i in
  let i := if negb nnp && ztrue (Z.land mode S_ISGID)
           then mkIds (uid i) (gid i) (euid i) exec_gid (suid i) exec_gid (fsuid i) exec_gid else i in
  set_ids i p.

(** [filter_ok]: there is no filter, or [seccomp_chain_clone] copied it. *)
Definition proc_security_inherit (filter_ok : bool) (child parent : cproc) : bool * cproc :=
  let f := pr parent in
  (filter_ok, set_pr (mkPr (no_new_privs f) (keepcaps f) (dumpable f) 0 0 (comm f)) (set_caps (caps parent) child)).

(** The credentials [fork] and [clone] give the child; [None] is [ENOMEM]. *)
Definition fork_creds (filter_ok : bool) (child parent : cproc) : option cproc :=
  let n := Z.to_nat (Z.min (ngroups parent) 64) in
  let child := set_pgid (pgid parent) child in
  let child := set_ids (ids parent) child in
  let child := set_groups (take n (sup_groups parent) ++ drop n (sup_groups child)) (ngroups parent) child in
  let '(ok, child) := proc_security_inherit filter_ok child parent in
  if ok then Some child else None.

(** ** Permission checks of the file system *)

Record vnode := mkVnode { v_is_dir : bool; v_mode : Z; v_uid : Z; v_gid : Z }.

Definition cred_is_root (p : option cproc) : bool := match p with None => true | Some p => euid (ids p) =? 0 end.
Definition cred_fsroot (p : option cproc) : bool := match p with None => true | Some p => fsuid (ids p) =? 0 end.
Definition cred_fsuid (p : option cproc) : Z := match p with None => 0 | Some p => fsuid (ids p) end.
Definition cred_fsgid (p : option cproc) : Z := match p with None => 0 | Some p => fsgid (ids p) end.

Definition may_access (p : option cproc) (n : vnode) (need : Z) : bool :=
  if cred_fsroot p then true else
  let bits :=
    if v_uid n =? cred_fsuid p then Z.land (Z.shiftr (v_mode n) 6) 7
    else if v_gid n =? cred_fsgid p then Z.land (Z.shiftr (v_mode n) 3) 7
    else Z.land (v_mode n) 7 in
  Z.land bits need =? need.

Definition may_create_in (p : option cproc) (dir : vnode) : bool := v_is_dir dir && may_access p dir 3.

Definition may_delete_in (p : option cproc) (dir : vnode) (victim : option vnode) : bool :=
  if negb (may_create_in p dir) then false else
  if negb (ztrue (Z.land (v_mode dir) S_ISVTX)) then true else
  if cred_fsroot p then true else
  match victim with Some v => v_uid v =? cred_fsuid p | None => false end || (v_uid dir =? cred_fsuid p).

Definition mode_without_priv_bits (p : option cproc) (mode : Z) : Z :=
  if cred_is_root p then Z.land mode 0xfff else Z.land mode 0x3ff.

Definition may_change_owner (p : option cproc) : bool := cred_is_root p.

Definition may_change_mode (p : option cproc) (n : vnode) : bool := cred_is_root p || (v_uid n =? cred_fsuid p).

(** ** Process groups

    [procs] are the processes [proc_find] can find; the reference it takes is
    dropped again before each call returns. *)

Definition find_pid (procs : list cproc) (g : Z) : option cproc :=
  i ← find_index (fun p => pid p =? g) procs; procs !! i.

Lemma find_pid_spec procs g q : find_pid procs g = Some q -> q ∈ procs /\ pid q = g.
Proof.
  unfold find_pid. destruct (find_index _ procs) as [i|] eqn:Hi; [|done]. cbn. intros Hq.
  apply find_index_Some in Hi as (p & Hp & Hg). simplify_eq.
  split; [by eapply list_elem_of_lookup_2|by apply Z.eqb_eq].
Qed.

Definition sys_getpid (st : list pid_namespace_t) (p : cproc) : Z :=
  let l := ns_proc_pid_in st (pid p) (pid_ns p) in if ztrue l then l else 1.

Definition sys_getppid (st : list pid_namespace_t) (procs : list cproc) (p : cproc) : Z :=
  if negb (ztrue (ppid p)) then 0 else
  match find_pid procs (ppid p) with
  | None => 0
  | Some par => ns_proc_pid_in st (pid par) (pid_ns p)
  end.

Definition pgid_local (st : list pid_namespace_t) (procs : list cproc) (self p : cproc) : Z :=
  match find_pid procs (u32 (pgid p)) with
  | None => ns_proc_pid_in st (pid p) (pid_ns self)
  | Some leader => ns_proc_pid_in st (pid leader) (pid_ns self)
  end.

Definition sys_getpgrp (st : list pid_namespace_t) (procs : list cproc) (p : cproc) : Z :=
  let g := pgid_local st procs p p in
  if ztrue g then g else ns_proc_pid_in st (pid p) (pid_ns p).

Definition sys_getpgid (st : list pid_namespace_t) (js : list jail_t) (procs : list cproc) (self : cproc) (v : Z) : Z :=
  if v =? 0 then sys_getpgrp st procs self else
  let global := ns_pid_to_global st (pid_ns self) (u32 v) in
  if negb (ztrue global) then - ESRCH else
  match find_pid procs global with
  | None => - ESRCH
  | Some p => if negb (jail_can_see js (Some (jail_id self)) (jail_id p)) then - ESRCH else pgid_local st procs self p
  end.

Definition sys_setsid (st : list pid_namespace_t) (p : cproc) : Z * cproc :=
  (ns_proc_pid_in st (pid p) (pid_ns p), set_pgid (pid p) p).

(** What [jail_host_priv] reads of a process. *)
Definition as_jproc (p : cproc) : jproc := mkJproc (euid (ids p)) (ns_user_is_initial p) (jail_id p) 0 [].

Definition host_priv (js : list jail_t) (p : cproc) : bool := jail_host_priv js (Some (as_jproc p)).

(** The table after the call; [self] is the slot of the caller. *)
Definition sys_setpgid (st : list pid_namespace_t) (js : list jail_t) (procs : list cproc) (self : nat) (v g : Z) :
    Z * list cproc :=
  match procs !! self with
  | None => (- ESRCH, procs)
  | Some me =>
      let global_pid := if v =? 0 then pid me else ns_pid_to_global st (pid_ns me) (u32 v) in
      if negb (ztrue global_pid) then (- ESRCH, procs) else
      match (if v =? 0 then Some self else find_index (fun p => pid p =? global_pid) procs) with
      | None => (- ESRCH, procs)
      | Some i =>
          match procs !! i with
          | None => (- ESRCH, procs)
          | Some p =>
              if negb (jail_can_see js (Some (jail_id me)) (jail_id p)) then (- ESRCH, procs) else
              if negb (i =? self)%nat &&
                 (negb (ppid p =? pid me) || negb (jail_id p =? jail_id me) ||
                  (negb (host_priv js me) && negb (uid (ids p) =? uid (ids me))))
              then (- EPERM, procs) else
              let global_pgid :=
                if g =? 0 then Some (pid p) else
                let gg := ns_pid_to_global st (pid_ns me) (u32 g) in
                if negb (ztrue gg) then None else
                match find_pid procs gg with None => None | Some _ => Some gg end in
              match global_pgid with
              | None => (- ESRCH, procs)
              | Some gg => if PROC_MAX <? gg then (- EINVAL, procs) else (0, <[i := set_pgid gg p]> procs)
              end
          end
      end
  end.

(** ** Sequences of calls of one process *)

Inductive call :=
| CSetuid (u : Z) | CSetgid (g : Z)
| CSetreuid (r e : Z) | CSetregid (r e : Z)
| CSetresuid (r e s : Z) | CSetresgid (r e s : Z)
| CSetfsuid (u : Z) | CSetfsgid (g : Z)
| CSetgroups (l : list Z) (size : Z) (readable : bool)
| CCapset (version hpid self_pid : Z) (ptrs_ok : bool) (d : list Z)
| CPrctl (name : list (option Z)) (writable : bool) (seccomp_mode seccomp_ret op a2 a3 a4 a5 : Z)
| CExec (mode exec_uid exec_gid : Z)
| CUnshareUser
| CMapWrite (gid : bool) (buf : list Z)
| CSetgroupsFile (buf : list Z).

Definition do_call (e : etc) (p : cproc) (c : call) : cproc :=
  match c with
  | CSetuid u => snd (sys_setuid e u p)
  | CSetgid g => snd (sys_setgid g p)
  | CSetreuid r x => snd (sys_setreuid r x p)
  | CSetregid r x => snd (sys_setregid r x p)
  | CSetresuid r x s => snd (sys_setresuid r x s p)
  | CSetresgid r x s => snd (sys_setresgid r x s p)
  | CSetfsuid u => snd (sys_setfsuid u p)
  | CSetfsgid g => snd (sys_setfsgid g p)
  | CSetgroups l n rd => snd (sys_setgroups l n rd p)
  | CCapset v h s ok d => snd (sys_capset v h s ok d p)
  | CPrctl n w sm sr op a2 a3 a4 a5 => snd (sys_prctl n w sm sr op a2 a3 a4 a5 p)
  | CExec m u g => exec_creds m u g p
  | CUnshareUser => set_user_ns (Some (user_ns_create (euid (ids p)))) p
  | CMapWrite g buf => set_user_ns (snd (ns_user_map_write true false true (user_ns p) g buf)) p
  | CSetgroupsFile buf => set_user_ns (snd (ns_user_setgroups_write true false true (user_ns p) buf)) p
  end.

Definition do_calls (e : etc) (cs : list call) (p : cproc) : cproc := foldl (do_call e) p cs.

(** ** An unprivileged process stays within its ids *)

(** Calls that do not touch the user namespace. *)
Definition no_ns (c : call) : bool :=
  match c with CUnshareUser | CMapWrite _ _ | CSetgroupsFile _ => false | _ => true end.

(** All user ids in [S], all group ids in [G]; groups, namespace and the
    [no_new_privs] flag as in [p0]. *)
Record confined (S G : Z -> Prop) (p0 p : cproc) : Prop := {
  cf_uids : S (uid (ids p)) /\ S (euid (ids p)) /\ S (suid (ids p)) /\ S (fsuid (ids p));
  cf_gids : G (gid (ids p)) /\ G (egid (ids p)) /\ G (sgid (ids p)) /\ G (fsgid (ids p));
  cf_groups : sup_groups p = sup_groups p0 /\ ngroups p = ngroups p0;
  cf_ns : user_ns p = user_ns p0;
  cf_nnp : no_new_privs (pr p) = 1;
}.

Lemma confined_set_ids S G p0 p i :
  confined S G p0 p ->
  S (uid i) /\ S (euid i) /\ S (suid i) /\ S (fsuid i) ->
  G (gid i) /\ G (egid i) /\ G (sgid i) /\ G (fsgid i) -> confined S G p0 (set_ids i p).
Proof. by intros [] ? ?. Qed.

Lemma confined_set_caps S G p0 p c : confined S G p0 p -> confined S G p0 (set_caps c p).
Proof. by intros []. Qed.

Lemma confined_set_pr S G p0 p f : no_new_privs f = 1 -> confined S G p0 p -> confined S G p0 (set_pr f p).
Proof. by intros ? []. Qed.

Lemma confined_drop S G p0 p a b : confined S G p0 p -> confined S G p0 (cred_drop_caps_for_uid p a b).
Proof. unfold cred_drop_caps_for_uid. case_raw; [done|apply confined_set_caps]. Qed.

Lemma keep_in (S : Z -> Prop) v old : S old -> (v <> NOID -> S v) -> S (keep v old).
Proof. intros H1 H2. unfold keep. destruct (Z.eqb_spec v NOID); auto. Qed.

Lemma allowed_in (S : Z -> Prop) v a b c : S a -> S b -> S c -> allowed v a b c = true -> v <> NOID -> S v.
Proof. unfold allowed. rewrite !orb_true_iff, !Z.eqb_eq. intuition congruence. Qed.

Lemma ids_drop p a b : ids (cred_drop_caps_for_uid p a b) = ids p.
Proof. unfold cred_drop_caps_for_uid. by case_raw. Qed.

Ltac cred_cases :=
  repeat match goal with
  | |- context [if ?b then _ else _] => lazymatch type of b with bool => destruct b eqn:? end
  end; cbn [snd]; dest_bool; subst; try done.

Lemma set_flag_nnp op v f : op <> 38 -> no_new_privs f = 1 -> op ∈ [1; 4; 8; 36] -> no_new_privs (set_flag op v f) = 1.
Proof. intros H38 Hn Hop. unfold set_flag. set_unfold in Hop. destruct Hop as [->|[->|[->|[->|[]]]]]; done. Qed.

Lemma confined_prctl S G p0 p n w sm sr op a2 a3 a4 a5 :
  confined S G p0 p -> confined S G p0 (snd (sys_prctl n w sm sr op a2 a3 a4 a5 p)).
Proof.
  intros Hc. pose proof (cf_nnp _ _ _ _ Hc) as Hn. unfold sys_prctl, prctl_ambient, set_ambient.
  repeat (case_raw; cbn [snd]; try done); dest_bool; subst; try (by apply confined_set_caps);
    try (apply confined_set_pr; [done || (by apply set_flag_nnp; [lia|done|set_solver])|done]).
  destruct (read_name 15 n); [|done]. by apply confined_set_pr.
Qed.

Lemma refused3 (S : Z -> Prop) v a b :
  S a -> S b -> negb (v =? NOID) && negb (v =? a) && negb (v =? b) = false -> v <> NOID -> S v.
Proof. rewrite !andb_false_iff, !negb_false_iff, !Z.eqb_eq. intuition congruence. Qed.

Lemma refused4 (S : Z -> Prop) v a b c :
  S a -> S b -> S c -> negb (v =? NOID) && negb (v =? a) && negb (v =? b) && negb (v =? c) = false -> v <> NOID -> S v.
Proof. rewrite !andb_false_iff, !negb_false_iff, !Z.eqb_eq. intuition congruence. Qed.

Lemma one_of2 (S : Z -> Prop) v a b : S a -> S b -> negb (v =? a) && negb (v =? b) = false -> S v.
Proof. rewrite !andb_false_iff, !negb_false_iff, !Z.eqb_eq. intuition congruence. Qed.

Lemma one_of3 (S : Z -> Prop) v a b c : S a -> S b -> S c -> (v =? a) || (v =? b) || (v =? c) = true -> S v.
Proof. rewrite !orb_true_iff, !Z.eqb_eq. intuition congruence. Qed.

Ltac confined_solve :=
  cbn -[keep]; try done; split_and!; try done; try (apply keep_in; by auto).

Section unprivileged.
Context (S G : Z -> Prop) (p0 : cproc).
Hypothesis no_root : forall u, S u -> default NOBODY (ns_uid_to_local (user_ns p0) u) <> 0.

Lemma confined_not_root p : confined S G p0 p -> ns_user_is_root p = false.
Proof.
  intros []. unfold ns_user_is_root. rewrite cf_ns0. apply Z.eqb_neq, no_root. tauto.
Qed.

Lemma confined_uid_call e p c :
  match c with CSetuid _ | CSetreuid _ _ | CSetresuid _ _ _ | CSetfsuid _ => True | _ => False end ->
  confined S G p0 p -> confined S G p0 (do_call e p c).
Proof.
  intros Hk Hc. pose proof (confined_not_root p Hc) as Hr.
  pose proof (cf_uids _ _ _ _ Hc) as (U1 & U2 & U3 & U4). pose proof (cf_gids _ _ _ _ Hc) as (G1 & G2 & G3 & G4).
  destruct c; try done; cbn [do_call].
  - unfold sys_setuid. rewrite Hr. destruct (_ && _) eqn:E; [done|]. apply (one_of2 S) in E; [|done|done].
    by apply confined_drop, confined_set_ids.
  - unfold sys_setreuid. rewrite Hr. cbn [negb andb]. do 2 (case_raw; [done|]). cbn [snd]. rewrite ids_drop. cbn -[keep].
    pose proof (refused3 S _ _ _ U1 U2 Heqb). pose proof (refused4 S _ _ _ _ U1 U2 U3 Heqb0).
    apply confined_set_ids; [apply confined_drop, confined_set_ids|..]; confined_solve.
  - unfold sys_setresuid. rewrite Hr. cbn [negb andb]. do 3 (case_raw; [done|]). cbn [snd]. rewrite ids_drop. cbn -[keep]. dest_bool.
    pose proof (allowed_in S _ _ _ _ U1 U2 U3 Heqb). pose proof (allowed_in S _ _ _ _ U1 U2 U3 Heqb0).
    pose proof (allowed_in S _ _ _ _ U1 U2 U3 Heqb1).
    apply confined_set_ids; [apply confined_drop, confined_set_ids|..]; confined_solve.
  - unfold sys_setfsuid. rewrite Hr. cbn [orb]. case_raw; [done|]. destruct (_ || _) eqn:E; [|done].
    apply (one_of3 S) in E; [|done..]. by apply confined_set_ids.
Qed.

Lemma confined_gid_call e p c :
  match c with CSetgid _ | CSetregid _ _ | CSetresgid _ _ _ | CSetfsgid _ => True | _ => False end ->
  confined S G p0 p -> confined S G p0 (do_call e p c).
Proof.
  intros Hk Hc. pose proof (confined_not_root p Hc) as Hr.
  pose proof (cf_uids _ _ _ _ Hc) as (U1 & U2 & U3 & U4). pose proof (cf_gids _ _ _ _ Hc) as (G1 & G2 & G3 & G4).
  destruct c; try done; cbn [do_call].
  - unfold sys_setgid. rewrite Hr. destruct (_ && _) eqn:E; [done|]. apply (one_of2 G) in E; [|done|done].
    by apply confined_set_ids.
  - unfold sys_setregid. rewrite Hr. cbn [negb andb]. do 2 (case_raw; [done|]). cbn [snd].
    pose proof (refused3 G _ _ _ G1 G2 Heqb). pose proof (refused4 G _ _ _ _ G1 G2 G3 Heqb0).
    apply confined_set_ids; confined_solve.
  - unfold sys_setresgid. rewrite Hr. cbn [negb andb]. do 3 (case_raw; [done|]). cbn [snd]. dest_bool.
    pose proof (allowed_in G _ _ _ _ G1 G2 G3 Heqb). pose proof (allowed_in G _ _ _ _ G1 G2 G3 Heqb0).
    pose proof (allowed_in G _ _ _ _ G1 G2 G3 Heqb1).
    apply confined_set_ids; confined_solve.
  - unfold sys_setfsgid. rewrite Hr. cbn [orb]. case_raw; [done|]. destruct (_ || _) eqn:E; [|done].
    apply (one_of3 G) in E; [|done..]. by apply confined_set_ids.
Qed.

Lemma confined_call e p c : no_ns c = true -> confined S G p0 p -> confined S G p0 (do_call e p c).
Proof.
  intros Hns Hc. destruct c; try done; try (by apply confined_uid_call); try (by apply confined_gid_call); cbn [do_call].
  - unfold sys_setgroups. by rewrite (confined_not_root p Hc).
  - unfold sys_capset. repeat (case_raw; [done|]). by apply confined_set_caps.
  - by apply confined_prctl.
  - unfold exec_creds. rewrite (cf_nnp _ _ _ _ Hc). cbn. destruct Hc. by apply confined_set_ids.
Qed.

Lemma confined_calls e cs p :
  forallb no_ns cs = true -> confined S G p0 p -> confined S G p0 (do_calls e cs p).
Proof.
  revert p. induction cs as [|c cs IH]; intros p Hns Hc; [done|]. cbn in Hns. apply andb_true_iff in Hns as [H1 H2].
  apply IH; [done|]. by apply confined_call.
Qed.
End unprivileged.

(** C12: an unprivileged process with [no_new_privs] is confined.  None of its ids
    being root in its user namespace, no sequence of [set*id], [setgroups],
    [capset], [prctl] and [execve] calls (of set-user-id programs of any owner
    too) gives it a user or group id it did not start with, changes its groups,
    or clears the flag. *)
Theorem unprivileged_confined e (U G : Z -> Prop) cs p :
  (U (uid (ids p)) /\ U (euid (ids p)) /\ U (suid (ids p)) /\ U (fsuid (ids p))) ->
  (G (gid (ids p)) /\ G (egid (ids p)) /\ G (sgid (ids p)) /\ G (fsgid (ids p))) ->
  (forall u, U u -> default NOBODY (ns_uid_to_local (user_ns p) u) <> 0) ->
  no_new_privs (pr p) = 1 -> forallb no_ns cs = true ->
  confined U G p (do_calls e cs p).
Proof. intros HU HG Hr Hn Hc. by apply confined_calls. Qed.

(** A user's process, in the initial namespace. *)
Definition user_ids (u g : Z) : ids_t := mkIds u g u g u g u g.
Definition user_proc (u g nnp : Z) : cproc :=
  mkCproc 2 1 2 (user_ids u g) (replicate 64 0) 1 (mkCaps 0 0 0 CAP_FULL_MASK 0)
    (mkPr nnp 0 1 0 0 []) 0 None 0.

Lemma unprivileged_confined_witness :
  confined (fun u => u = 1000) (fun g => g = 100) (user_proc 1000 100 1)
    (do_calls (mkEtc None None) [CExec 0x800 0 0; CSetuid 0; CSetresuid 0 0 0] (user_proc 1000 100 1)).
Proof.
  apply (unprivileged_confined (mkEtc None None) (fun u => u = 1000) (fun g => g = 100)
           [CExec 0x800 0 0; CSetuid 0; CSetresuid 0 0 0] (user_proc 1000 100 1)).
  - done.
  - done.
  - intros u ->. done.
  - done.
  - reflexivity.
Defined.

(** ** Capability sets *)

(** Inclusion of bit sets. *)
Definition subset (x y : Z) : Prop := forall i, 0 <= i -> Z.testbit x i = true -> Z.testbit y i = true.

Lemma subset_refl x : subset x x.
Proof. by unfold subset. Qed.

Lemma subset_trans x y z : subset x y -> subset y z -> subset x z.
Proof. unfold subset. auto. Qed.

Lemma subset_0 y : subset 0 y.
Proof. intros i _. by rewrite Z.bits_0. Qed.

Lemma subset_land_l x y : subset (Z.land x y) x.
Proof. intros i _. rewrite Z.land_spec. by intros [??]%andb_true_iff. Qed.

Lemma subset_land_r x y : subset (Z.land x y) y.
Proof. intros i _. rewrite Z.land_spec. by intros [??]%andb_true_iff. Qed.

Lemma subset_land_mono x y m : subset x y -> subset (Z.land x m) (Z.land y m).
Proof.
  intros H i Hi. rewrite !Z.land_spec, !andb_true_iff. intros [H1 H2]. split; [by apply H|done].
Qed.

Lemma subset_ldiff x y : Z.ldiff x y = 0 -> subset x y.
Proof.
  intros H i Hi Hx. assert (Hb : Z.testbit (Z.ldiff x y) i = false) by (rewrite H; apply Z.bits_0).
  rewrite Z.ldiff_spec, Hx in Hb. by destruct (Z.testbit y i).
Qed.

Lemma subset_lor x y z : subset x z -> subset y z -> subset (Z.lor x y) z.
Proof. intros H1 H2 i Hi. rewrite Z.lor_spec, orb_true_iff. intros [H|H]; auto. Qed.

#[local] Hint Resolve subset_refl subset_0 subset_land_l subset_land_r : kyro.

(** Effective within permitted, ambient within permitted and inheritable. *)
Definition caps_ok (p : cproc) : Prop :=
  subset (cap_effective (caps p)) (cap_permitted (caps p)) /\
  subset (cap_ambient (caps p)) (cap_permitted (caps p)) /\
  subset (cap_ambient (caps p)) (cap_inheritable (caps p)).

(** The sets only shrink, except that the inheritable set may take up permitted
    capabilities. *)
Definition caps_shrink (p p' : cproc) : Prop :=
  subset (cap_permitted (caps p')) (cap_permitted (caps p)) /\
  subset (cap_bounding (caps p')) (cap_bounding (caps p)) /\
  subset (cap_inheritable (caps p')) (Z.lor (cap_inheritable (caps p)) (cap_permitted (caps p))).

Lemma caps_shrink_same p p' : caps p' = caps p -> caps_shrink p p'.
Proof.
  unfold caps_shrink. intros ->. split_and!; auto with kyro. intros i Hi H. by rewrite Z.lor_spec, H.
Qed.

Lemma caps_same p p' : caps p' = caps p -> caps_ok p -> caps_ok p' /\ caps_shrink p p'.
Proof. intros He Hok. split; [|by apply caps_shrink_same]. unfold caps_ok in *. by rewrite He. Qed.

Lemma caps_drop p a b : caps_ok p -> caps_ok (cred_drop_caps_for_uid p a b) /\ caps_shrink p (cred_drop_caps_for_uid p a b).
Proof.
  intros Hok. unfold cred_drop_caps_for_uid. case_raw; [by apply caps_same|]. split.
  - unfold caps_ok. cbn. split_and!; auto with kyro.
  - unfold caps_shrink. cbn. split_and!; auto with kyro. intros i Hi H. by rewrite Z.lor_spec, H.
Qed.

Lemma caps_capset v h s ok d p :
  caps_ok p -> caps_ok (snd (sys_capset v h s ok d p)) /\ caps_shrink p (snd (sys_capset v h s ok d p)).
Proof.
  intros Hok. unfold sys_capset. do 3 (case_raw; [by apply caps_same|]). cbv zeta.
  repeat (case_raw; [by apply caps_same|]). unfold ztrue in *. apply negb_false_iff, Z.eqb_eq, subset_ldiff in Heqb2, Heqb3, Heqb4.
  cbn [snd]. split.
  - unfold caps_ok. cbn [caps set_caps cap_effective cap_permitted cap_inheritable cap_ambient]. split_and!.
    + by apply subset_land_mono.
    + eapply subset_trans; [apply subset_land_r|apply subset_land_r].
    + eapply subset_trans; [apply subset_land_r|apply subset_land_l].
  - unfold caps_shrink. cbn. split_and!; auto with kyro.
    + eapply subset_trans; [apply subset_land_l|done].
    + eapply subset_trans; [apply subset_land_l|done].
Qed.

Lemma bit_subset b y : 0 <= b < 64 -> ztrue (Z.land y (bit b)) = true -> subset (bit b) y.
Proof.
  intros Hb Hz i Hi. rewrite bit_testbit by lia. intros ->%Z.eqb_eq.
  destruct (Z.testbit y b) eqn:E; [done|]. exfalso. unfold ztrue in Hz. apply negb_true_iff, Z.eqb_neq in Hz. apply Hz.
  apply Z.bits_inj'. intros j Hj. rewrite Z.land_spec, Z.bits_0, bit_testbit by lia.
  destruct (Z.eqb_spec j b) as [->|]; [by rewrite E|apply andb_false_r].
Qed.

Lemma caps_prctl n w sm sr op a2 a3 a4 a5 p :
  0 <= a3 -> caps_ok p ->
  caps_ok (snd (sys_prctl n w sm sr op a2 a3 a4 a5 p)) /\ caps_shrink p (snd (sys_prctl n w sm sr op a2 a3 a4 a5 p)).
Proof.
  intros Ha3 Hok. unfold sys_prctl, prctl_ambient, CAP_LAST_CAP. pose proof Hok as (H1 & H2 & H3).
  assert (Hamb : forall v, subset v (cap_permitted (caps p)) -> subset v (cap_inheritable (caps p)) ->
            caps_ok (set_ambient v p) /\ caps_shrink p (set_ambient v p)).
  { intros v Hv1 Hv2. split; [done|]. unfold caps_shrink. cbn. split_and!; auto with kyro.
    intros i Hi H. by rewrite Z.lor_spec, H. }
  repeat (case_raw; cbn [snd]; try (by apply caps_same)); dest_bool.
  - destruct (read_name 15 n); by apply caps_same.
  - split; [done|]. unfold caps_shrink. cbn. split_and!; auto with kyro.
    + apply subset_land_l.
    + intros i Hi H'. by rewrite Z.lor_spec, H'.
  - apply Hamb; apply subset_0.
  - apply Hamb; (apply subset_lor; [done|]); apply bit_subset; try done; lia.
  - apply Hamb; (eapply subset_trans; [apply subset_land_l|done]).
Qed.

Lemma caps_after_drop p i p2 a b :
  caps p2 = caps (cred_drop_caps_for_uid (set_ids i p) a b) -> caps_ok p -> caps_ok p2 /\ caps_shrink p p2.
Proof.
  intros E2 Hok. destruct (caps_drop (set_ids i p) a b Hok) as [Hd1 Hd2].
  unfold caps_ok, caps_shrink in *. by rewrite E2.
Qed.

Lemma caps_initgroups e u p : caps (kernel_initgroups e u p) = caps p.
Proof. unfold kernel_initgroups. cbv zeta. by case_raw. Qed.

(** Arguments a caller can pass: registers are unsigned. *)
Definition call_ok (c : call) : Prop :=
  match c with CPrctl _ _ _ _ _ _ a3 _ _ => 0 <= a3 | _ => True end.

Lemma caps_call e p c : call_ok c -> caps_ok p -> caps_ok (do_call e p c) /\ caps_shrink p (do_call e p c).
Proof.
  intros Hc Hok. destruct c; cbn [do_call call_ok] in *;
    try (by apply caps_same); try (by apply caps_prctl); try (by apply caps_capset).
  - unfold sys_setuid. cbv zeta. case_raw; [|case_raw; [by apply caps_same|]].
    + eapply caps_after_drop; [|done]. cbn [snd]. case_raw; [apply caps_initgroups|done].
    + by eapply caps_after_drop.
  - unfold sys_setgid. repeat case_raw; by apply caps_same.
  - unfold sys_setreuid. do 2 (case_raw; [by apply caps_same|]). by eapply caps_after_drop.
  - unfold sys_setregid. do 2 (case_raw; [by apply caps_same|]). by apply caps_same.
  - unfold sys_setresuid. do 3 (case_raw; [by apply caps_same|]). by eapply caps_after_drop.
  - unfold sys_setresgid. do 3 (case_raw; [by apply caps_same|]). by apply caps_same.
  - unfold sys_setfsuid. repeat case_raw; by apply caps_same.
  - unfold sys_setfsgid. repeat case_raw; by apply caps_same.
  - unfold sys_setgroups. repeat case_raw; by apply caps_same.
Qed.

(** C38: capabilities are never gained.  In every process the effective set stays
    within the permitted one and the ambient set within both the permitted and
    the inheritable one, and no sequence of calls (of root or not, across
    namespaces and [execve]) adds a capability to the permitted or the bounding
    set. *)
Theorem capabilities_never_gained e cs p :
  caps_ok p -> Forall call_ok cs ->
  caps_ok (do_calls e cs p) /\
  subset (cap_permitted (caps (do_calls e cs p))) (cap_permitted (caps p)) /\
  subset (cap_bounding (caps (do_calls e cs p))) (cap_bounding (caps p)).
Proof.
  intros Hok Hcs. revert p Hok. induction Hcs as [|c cs Hc Hcs IH]; intros p Hok.
  { split_and!; [done|apply subset_refl|apply subset_refl]. }
  destruct (caps_call e p c Hc Hok) as (Hok1 & Hp & Hb & _). destruct (IH (do_call e p c) Hok1) as (H1 & H2 & H3).
  split_and!; [done|by eapply subset_trans|by eapply subset_trans].
Qed.

(** [init] as [proc_alloc] sets it up. *)
Definition root_proc : cproc :=
  mkCproc 1 0 1 (user_ids 0 0) (replicate 64 0) 0
    (mkCaps CAP_FULL_MASK CAP_FULL_MASK CAP_FULL_MASK CAP_FULL_MASK 0) (mkPr 0 0 1 0 0 []) 0 None 0.

Lemma capabilities_never_gained_witness :
  subset (cap_permitted (caps (do_calls (mkEtc None None) [CPrctl [] true 0 0 24 7 0 0 0; CSetuid 5; CSetuid 0] root_proc)))
    CAP_FULL_MASK.
Proof.
  apply (capabilities_never_gained (mkEtc None None) [CPrctl [] true 0 0 24 7 0 0 0; CSetuid 5; CSetuid 0] root_proc).
  - split_and!; [apply subset_refl|apply subset_0|apply subset_0].
  - repeat constructor; cbn; lia.
Defined.

(** ** A user namespace gives root on the host *)

(** any user can become root on the host.  A process of user [u] creates a
    user namespace, maps its own id to the root of the namespace and calls
    [setuid(0)]: as [setuid] stores the namespace's id without translating it,
    all kernel ids of the process are now 0, and the file system grants it every
    access. *)
Theorem userns_root_is_host_root e u g :
  0 < u < 2 ^ 32 - 1 ->
  let p := do_calls e [CUnshareUser; CMapWrite false (map_text [mkMap 0 u 1]); CSetuid 0] (user_proc u g 0) in
  uid (ids p) = 0 /\ euid (ids p) = 0 /\ suid (ids p) = 0 /\ fsuid (ids p) = 0 /\
  forall n need, may_access (Some p) n need = true.
Proof.
  intros Hu. assert (Hok : entry_ok (mkMap 0 u 1)) by (unfold entry_ok; cbn; lia).
  pose proof (map_write_text [mkMap 0 u 1] (user_ns_create u) (maps_ok_single _ Hok) ltac:(done) ltac:(simpl; lia)
    eq_refl) as Hw.
  cbv zeta. unfold do_calls. cbn [foldl do_call]. cbn [user_ns set_user_ns user_proc user_ids ids euid].
  unfold ns_user_map_write. cbn [negb andb]. rewrite Hw. cbn [snd].
  set (ns := set_map false [mkMap 0 u 1] (user_ns_create u)).
  assert (Hl : ns_uid_to_local (Some ns) u = Some 0).
  { unfold ns_uid_to_local, ns. cbn -[Z.leb Z.ltb].
    rewrite Z.leb_refl, Z.sub_diag. done. }
  unfold sys_setuid, ns_user_is_root. cbn [user_ns set_user_ns ids user_ids euid user_proc]. rewrite Hl. cbn [default Z.eqb].
  unfold cred_drop_caps_for_uid. cbn. split_and!; try done; intros; by destruct (_ =? 0).
Qed.

Lemma userns_root_is_host_root_witness :
  may_access
    (Some (do_calls (mkEtc None None) [CUnshareUser; CMapWrite false (map_text [mkMap 0 1000 1]); CSetuid 0]
             (user_proc 1000 100 0)))
    (mkVnode false 0 0 0) 7 = true.
Proof. apply (userns_root_is_host_root (mkEtc None None) 1000 100). lia. Defined.

(** ** Supplementary groups of an unknown user *)

(** when root drops to a user without an entry in [/etc/passwd],
    [kernel_initgroups] leaves through its early return: the process has one
    supplementary group, and it is whichever group was first in the list of the
    root process, not the process's own group. *)
Theorem setuid_unknown_user_keeps_group e u p :
  ns_user_is_root p = true -> u <> 0 -> hd 0 (find_user (lines_of (passwd e)) u) = 0 ->
  let p' := snd (sys_setuid e u p) in
  uid (ids p') = u /\ ngroups p' = 1 /\ sup_groups p' = sup_groups p.
Proof.
  intros Hr Hu Hp. unfold sys_setuid. rewrite Hr, (proj2 (Z.eqb_neq u 0) Hu). cbn [negb].
  unfold kernel_initgroups. rewrite Hp. cbn. split_and!; try done; unfold cred_drop_caps_for_uid; by repeat case_match.
Qed.

Lemma setuid_unknown_user_keeps_group_witness :
  uid (ids (snd (sys_setuid (mkEtc None None) 1234 (set_groups [0; 4; 24] 3 (user_proc 0 100 0))))) = 1234 /\
  ngroups (snd (sys_setuid (mkEtc None None) 1234 (set_groups [0; 4; 24] 3 (user_proc 0 100 0)))) = 1 /\
  sup_groups (snd (sys_setuid (mkEtc None None) 1234 (set_groups [0; 4; 24] 3 (user_proc 0 100 0)))) = [0; 4; 24].
Proof. apply (setuid_unknown_user_keeps_group (mkEtc None None) 1234); [reflexivity|lia|reflexivity]. Defined.

(** ** Process groups *)

(** [setpgid] changes at most the process group of one process, which is
    the caller itself or a child of it in the same jail and, unless the caller
    is privileged on the host, of the same user; and the new group is the
    process's own pid or the pid of a process of the table. *)
Theorem setpgid_only_self_or_child st js procs self v g procs' :
  sys_setpgid st js procs self v g = (0, procs') ->
  exists me i p gg,
    procs !! self = Some me /\ procs !! i = Some p /\ procs' = <[i := set_pgid gg p]> procs /\
    (i = self \/
     ppid p = pid me /\ jail_id p = jail_id me /\ (host_priv js me = true \/ uid (ids p) = uid (ids me))) /\
    (gg = pid p \/ exists q, q ∈ procs /\ pid q = gg) /\ gg <= PROC_MAX.
Proof.
  unfold sys_setpgid. cbv zeta. intros H.
  destruct (procs !! self) as [me|] eqn:Hme; [|done].
  destruct (negb _) eqn:? in H; [done|].
  destruct (if v =? 0 then _ else _) as [i|] eqn:Hi in H; [|done].
  destruct (procs !! i) as [p|] eqn:Hp; [|done].
  destruct (negb (jail_can_see _ _ _)) eqn:? in H; [done|].
  destruct (negb _ && _) eqn:Hperm in H; [done|].
  destruct (if g =? 0 then _ else _) as [gg|] eqn:Hgg in H; [|done].
  destruct (PROC_MAX <? gg) eqn:Hmax; [done|]. injection H as <-.
  exists me, i, p, gg. split_and!; try done.
  - destruct (decide (i = self)) as [|Hne]; [by left|right].
    rewrite (proj2 (Nat.eqb_neq i self) Hne) in Hperm. cbn [negb andb] in Hperm.
    apply orb_false_iff in Hperm as [[Hpp Hj]%orb_false_iff Hu].
    apply negb_false_iff, Z.eqb_eq in Hpp, Hj. split_and!; try done.
    apply andb_false_iff in Hu as [Hu|Hu]; apply negb_false_iff in Hu; [by left|right; by apply Z.eqb_eq].
  - destruct (g =? 0); [injection Hgg as <-; by left|right].
    destruct (negb _) eqn:? in Hgg; [done|]. destruct (find_pid _ _) as [q|] eqn:Hq; [|done]. injection Hgg as <-.
    exists q. by apply find_pid_spec.
  - by apply Z.ltb_ge.
Qed.

Lemma setpgid_only_self_or_child_witness :
  exists me i p gg, [user_proc 1000 100 0] !! 0%nat = Some me /\ [user_proc 1000 100 0] !! i = Some p /\
    [set_pgid 2 (user_proc 1000 100 0)] = <[i := set_pgid gg p]> [user_proc 1000 100 0] /\ gg <= PROC_MAX.
Proof.
  destruct (setpgid_only_self_or_child [] [] [user_proc 1000 100 0] 0 0 0 [set_pgid 2 (user_proc 1000 100 0)] eq_refl)
    as (me & i & p & gg & H1 & H2 & H3 & _ & _ & H4).
  exists me, i, p, gg. auto.
Defined.
