(* ===== verification/RamFile.v ===== *)
(** * The contents of regular files in memory.

    Models what [kernel/fs/vfs.c] does with the buffer of a regular file of the
    memory file system: [fd_pread_kbuf], [fd_pwrite] and [vfs_node_truncate], and
    the parts of [fd_read_ex] and [fd_write_dispatch] they share.  [n->data] is an
    optional buffer of [n->capacity] bytes of which [n->size] are the file;
    [None] as a result is an access outside the buffer or through a null
    pointer.  [kmalloc n] is the contents of the block the allocator returns for
    [n] bytes, which the kernel does not clear, or [None].  The theorems relate
    the operations to a file that is a list of bytes. *)

From S2P Require Import Prelude Bits Bytes.

Definition INT64_MAX : Z := 2 ^ 63 - 1.
Definition EFBIG : Z := 27.
Definition ENOSPC : Z := 28.
Definition EINVAL : Z := 22.

Record rfile := mkRfile { r_data : option (list Z); r_size : Z; r_capacity : Z }.

Definition new_file : rfile := mkRfile None 0 0.

Section ops.
Context (kmalloc : Z -> option (list Z)).

(** [memcpy(n->data + off, src, |src|)]. *)
Definition copy_in (data : option (list Z)) (off : Z) (src : list Z) : option (list Z) :=
  b ← data; if off + blen src <=? blen b then Some (blit b off src) else None.

Definition copy_out (data : option (list Z)) (off n : Z) : option (list Z) :=
  b ← data; if off + n <=? blen b then Some (slice b off n) else None.

(** [off >= n->size] up to the [memcpy] to the caller's buffer. *)
Definition ram_read (f : rfile) (off len : Z) : option (Z * list Z) :=
  if r_size f <=? off then Some (0, []) else
  let avail := r_size f - off in
  let r := if len <? avail then len else avail in
  out ← copy_out (r_data f) off r;
  Some (r, out).

(** The buffer of [newcap] bytes that replaces a smaller one. *)
Definition grown (f : rfile) (newdata : list Z) (newcap : Z) : option rfile :=
  match r_data f with
  | None => Some (mkRfile (Some newdata) (r_size f) newcap)
  | Some _ =>
      old ← copy_out (r_data f) 0 (r_size f);
      d ← copy_in (Some newdata) 0 old;
      Some (mkRfile (Some d) (r_size f) newcap)
  end.

(** The negative error, or the file with room up to [end_]. *)
Definition ram_reserve (f : rfile) (end_ : Z) : option (Z * rfile) :=
  if r_capacity f <? end_ then
    if U64_MAX - 4095 <? end_ then Some (- EFBIG, f) else
    let newcap := Z.land (end_ + 4095) (Z.lnot 4095) in
    match kmalloc newcap with
    | None => Some (- ENOSPC, f)
    | Some newdata => f ← grown f newdata newcap; Some (0, f)
    end
  else Some (0, f).

(** From [end = off + len] on. *)
Definition ram_put (f : rfile) (off : Z) (src : list Z) : option (Z * rfile) :=
  let end_ := off + blen src in
  r ← ram_reserve f end_;
  let '(rc, f) := r in
  if rc <? 0 then Some (rc, f) else
  d ← copy_in (r_data f) off src;
  Some (blen src, mkRfile (Some d) (if r_size f <? end_ then end_ else r_size f) (r_capacity f)).

(** [fd_pwrite_kbuf] on a regular file, after the checks on the descriptor. *)
Definition ram_pwrite (f : rfile) (off : Z) (src : list Z) : option (Z * rfile) :=
  if blen src =? 0 then Some (0, f) else
  if INT64_MAX <? off then Some (- EINVAL, f) else
  if INT64_MAX - off <? blen src then Some (- EFBIG, f) else
  ram_put f off src.

(** [fd_write] on a regular file, at the position of the descriptor. *)
Definition ram_write (f : rfile) (pos : Z) (src : list Z) : option (Z * rfile) :=
  if blen src =? 0 then Some (0, f) else
  if (INT64_MAX <? pos) || (INT64_MAX - pos <? blen src) then Some (- EFBIG, f) else
  ram_put f pos src.

(** [krealloc] keeps the bytes of the old block. *)
Definition ram_truncate (f : rfile) (len : Z) : option (Z * rfile) :=
  r ← (if r_capacity f <? len then
         if U64_MAX - 4095 <? len then Some (- EFBIG, f) else
         let cap := Z.land (len + 4095) (Z.lnot 4095) in
         match kmalloc cap with
         | None => Some (- ENOSPC, f)
         | Some newdata =>
             let old := default [] (r_data f) in
             d ← copy_in (Some newdata) 0 old;
             Some (0, mkRfile (Some d) (r_size f) cap)
         end
       else Some (0, f));
  let '(rc, f) := r in
  if rc <? 0 then Some (rc, f) else
  if r_size f <? len then
    d ← copy_in (r_data f) (r_size f) (replicate (Z.to_nat (len - r_size f)) 0);
    Some (0, mkRfile (Some d) len (r_capacity f))
  else Some (0, mkRfile (r_data f) len (r_capacity f)).
End ops.

(** [vfs_link] copies the file. *)
Definition ram_link (kmalloc : Z -> option (list Z)) (f : rfile) : option rfile :=
  match r_data f with
  | Some d =>
      if 0 <? r_size f then
        match kmalloc (r_size f) with
        | None => None
        | Some b => Some (mkRfile (copy_in (Some b) 0 (slice d 0 (r_size f))) (r_size f) (r_size f))
        end
      else Some (mkRfile None (r_size f) (r_capacity f))
  | None => Some (mkRfile None (r_size f) (r_capacity f))
  end.

(** ** Correctness *)

Record rfile_ok (f : rfile) : Prop := {
  ro_size : 0 <= r_size f;
  ro_buffer : match r_data f with Some b => blen b = r_capacity f /\ r_size f <= r_capacity f | None => r_size f = 0 /\ r_capacity f = 0 end;
}.

Definition content (f : rfile) : list Z := take (Z.to_nat (r_size f)) (default [] (r_data f)).

(** A write past the end of the file leaves a gap; the kernel does not clear it. *)
Definition write_gap (c gap src : list Z) (off : Z) : list Z := take (Z.to_nat off) (c ++ gap) ++ src ++ drop (Z.to_nat off + length src) c.

Lemma new_file_ok : rfile_ok new_file.
Proof. by split. Qed.

Lemma blen_file_content f : rfile_ok f -> blen (content f) = r_size f.
Proof.
  intros [H1 H2]. unfold content, blen. rewrite length_take. destruct (r_data f) as [b|]; cbn [from_option id]; [unfold blen in H2; lia|]. cbn [length]. lia.
Qed.

Lemma file_ok_data f : rfile_ok f -> 0 < r_size f -> exists b, r_data f = Some b /\ blen b = r_capacity f /\ r_size f <= r_capacity f.
Proof. intros [H1 H2] Hs. destruct (r_data f) as [b|]; [by exists b|lia]. Qed.

Lemma read_correct f off len :
  rfile_ok f -> 0 <= off -> 0 <= len -> let out := slice (content f) off len in ram_read f off len = Some (blen out, out).
Proof.
  intros Hok Hoff Hlen. cbv zeta. pose proof (blen_file_content f Hok) as Hbl. unfold ram_read. destruct (Z.leb_spec (r_size f) off) as [Hle|Hgt].
  { unfold slice. rewrite drop_ge by (unfold blen in Hbl; lia). by rewrite take_nil. }
  destruct (file_ok_data f Hok) as (b & Hb & Hcap & Hsz); [lia|]. set (r := if _ <? _ then _ else _). assert (Hr : r = Z.min len (r_size f - off)) by (unfold r; destruct (Z.ltb_spec len (r_size f - off)); lia).
  unfold copy_out. rewrite Hb. cbn [mbind option_bind]. rewrite (proj2 (Z.leb_le _ _)) by lia. cbn [mbind option_bind].
  assert (Hout : slice b off r = slice (content f) off len).
  { apply list_eq_same_length with (Z.to_nat r).
    - unfold slice. rewrite length_take, length_drop. unfold blen in Hbl. lia.
    - rewrite slice_length; unfold blen in *; lia.
    - intros i x y Hi. rewrite !slice_lookup by lia. unfold content. rewrite Hb. cbn [from_option id]. rewrite lookup_take_lt by lia. congruence. }
  rewrite <-Hout, blen_slice by lia. done.
Qed.

Section correct.
Context (kmalloc : Z -> option (list Z)) (Hk : forall n b, kmalloc n = Some b -> blen b = n).

Lemma round_up n : 0 <= n -> n <= Z.land (n + 4095) (Z.lnot 4095).
Proof.
  intros Hn. replace 4095 with (Z.ones 12) at 2 by done. rewrite <-Z.ldiff_land, Z.ldiff_ones_r by lia. rewrite Z.shiftl_mul_pow2, Z.shiftr_div_pow2 by lia.
  pose proof (Z.div_mod (n + 4095) (2 ^ 12) ltac:(lia)). pose proof (Z.mod_pos_bound (n + 4095) (2 ^ 12) ltac:(lia)). lia.
Qed.

(** The buffer [d] continues the file [f]. *)
Definition extends (f : rfile) (d : list Z) : Prop := take (Z.to_nat (r_size f)) d = content f.

Lemma extends_content f : rfile_ok f -> extends f (default [] (r_data f)).
Proof. done. Qed.

Lemma content_blit f d off src newsize :
  rfile_ok f -> extends f d -> 0 <= off -> off + blen src <= blen d -> newsize = Z.max (r_size f) (off + blen src) -> newsize <= blen d ->
  exists gap, blen gap = Z.max 0 (off - r_size f) /\ take (Z.to_nat newsize) (blit d off src) = write_gap (content f) gap src off.
Proof.
  intros Hok Hd Hoff Hin -> Hn. pose proof (blen_file_content f Hok) as Hbl. pose proof (ro_size _ Hok) as H0. pose proof (blen_nonneg src).
  exists (slice d (r_size f) (Z.max 0 (off - r_size f))). split; [apply blen_slice; lia|].
  assert (Hpre : content f ++ slice d (r_size f) (Z.max 0 (off - r_size f)) = take (Z.to_nat (Z.max (r_size f) off)) d).
  { rewrite <-Hd. unfold slice. rewrite take_take_drop. f_equal. lia. }
  unfold write_gap. rewrite Hpre, take_take. replace (Z.to_nat off `min` Z.to_nat (Z.max (r_size f) off))%nat with (Z.to_nat off) by lia.
  unfold blit. rewrite !take_app, length_take. unfold blen in *. rewrite take_take. f_equal; [f_equal; lia|]. f_equal; [apply take_ge; lia|].
  rewrite <-Hd, skipn_firstn_comm. f_equal. lia.
Qed.

Lemma copy_in_ok d off src : 0 <= off -> off + blen src <= blen d -> copy_in (Some d) off src = Some (blit d off src) /\ blen (blit d off src) = blen d.
Proof. intros Hoff Hin. unfold copy_in. cbn [mbind option_bind]. rewrite (proj2 (Z.leb_le _ _)) by done. split; [done|]. unfold blen. by rewrite blit_length. Qed.

Lemma blit_start d old n : blen old <= blen d -> (Z.to_nat n <= length old)%nat -> take (Z.to_nat n) (blit d 0 old) = take (Z.to_nat n) old.
Proof. intros H1 H2. change (blit d 0 old) with (old ++ drop (0 + length old) d). by rewrite take_app_le by lia. Qed.

(** The file in a larger buffer. *)
Lemma larger_ok f d cap old :
  rfile_ok f -> blen d = cap -> blen old <= cap -> r_size f <= blen old -> take (Z.to_nat (r_size f)) old = content f ->
  rfile_ok (mkRfile (Some (blit d 0 old)) (r_size f) cap) /\ content (mkRfile (Some (blit d 0 old)) (r_size f) cap) = content f.
Proof.
  intros Hok Hd Ho Hs Hc. pose proof (ro_size _ Hok). assert (Hl : blen (blit d 0 old) = cap) by (rewrite <-Hd; unfold blen in *; rewrite blit_length; unfold blen; lia).
  split; [split; [done|]; cbn [r_data r_size r_capacity]; lia|]. unfold content at 1. cbn [r_data r_size from_option id]. rewrite blit_start by (unfold blen in *; lia). done.
Qed.

Lemma reserve_ok f end_ :
  rfile_ok f -> 0 < end_ ->
  exists rc f', ram_reserve kmalloc f end_ = Some (rc, f') /\
    (rc < 0 /\ f' = f \/ rc = 0 /\ rfile_ok f' /\ r_size f' = r_size f /\ content f' = content f /\ exists d, r_data f' = Some d /\ end_ <= blen d).
Proof.
  intros Hok He. pose proof Hok as [H0 Hb]. unfold ram_reserve. destruct (Z.ltb_spec (r_capacity f) end_) as [Hc|Hc].
  2:{ exists 0, f. split; [done|]. right. split_and!; try done. destruct (r_data f) as [d|]; [exists d; split; [done|lia]|lia]. }
  destruct (Z.ltb_spec (U64_MAX - 4095) end_) as [Hbig|Hbig]; [exists (- EFBIG), f; split; [done|]; by left|]. pose proof (round_up end_ ltac:(lia)) as Hr. set (cap := Z.land _ _) in *.
  destruct (kmalloc cap) as [d|] eqn:Hd; [|exists (- ENOSPC), f; split; [done|]; by left]. apply Hk in Hd. unfold grown. destruct (r_data f) as [b|] eqn:Hdata.
  - destruct Hb as [Hb1 Hb2]. unfold copy_out. cbn [mbind option_bind]. rewrite (proj2 (Z.leb_le _ _)) by lia. cbn [mbind option_bind].
    assert (Hold : blen (slice b 0 (r_size f)) = r_size f) by (apply blen_slice; lia). destruct (copy_in_ok d 0 (slice b 0 (r_size f))) as [-> Hl]; [lia|lia|]. cbn [mbind option_bind].
    destruct (larger_ok f d cap (slice b 0 (r_size f)) Hok Hd) as [G1 G2]; [lia|lia| |].
    { unfold slice, content. rewrite Hdata. cbn [Z.to_nat drop from_option id]. rewrite take_take. f_equal. lia. }
    eexists 0, _. split; [done|]. right. split_and!; try done. eexists. split; [done|]. lia.
  - destruct Hb as [Hs Hcap]. eexists 0, _. split; [done|]. right. split; [done|]. split; [split; cbn [r_data r_size r_capacity]; lia|]. split; [done|]. split; [|exists d; split; [done|lia]].
    unfold content. cbn [r_data r_size]. by rewrite Hs.
Qed.

Lemma put_ok f off src :
  rfile_ok f -> 0 <= off -> 0 < blen src ->
  exists rc f', ram_put kmalloc f off src = Some (rc, f') /\
    (rc < 0 /\ f' = f \/ rc = blen src /\ rfile_ok f' /\ exists gap, blen gap = Z.max 0 (off - r_size f) /\ content f' = write_gap (content f) gap src off).
Proof.
  intros Hok Hoff Hs. unfold ram_put. destruct (reserve_ok f (off + blen src) Hok ltac:(lia)) as (rc & f1 & -> & [[Hrc ->]|(-> & Hok1 & Hsz & Hc & d & Hd & Hin)]); cbn [mbind option_bind].
  { rewrite (proj2 (Z.ltb_lt _ _)) by done. eexists _, _. split; [done|]. by left. }
  cbn [Z.ltb Z.compare]. rewrite Hd. destruct (copy_in_ok d off src Hoff Hin) as [-> Hl]. cbn [mbind option_bind].
  assert (Hnew : (if r_size f1 <? off + blen src then off + blen src else r_size f1) = Z.max (r_size f1) (off + blen src)) by (destruct (Z.ltb_spec (r_size f1) (off + blen src)); lia).
  pose proof (ro_buffer _ Hok1) as Hb. rewrite Hd in Hb. destruct Hb as [Hb1 Hb2]. pose proof (ro_size _ Hok1).
  destruct (content_blit f1 d off src (Z.max (r_size f1) (off + blen src)) Hok1) as (gap & Hg & Hcont); try done; [unfold extends, content; by rewrite Hd|lia|].
  eexists _, _. split; [done|]. right. split; [done|]. rewrite Hnew. split; [split; cbn [r_data r_size r_capacity]; lia|]. exists gap. rewrite Hsz in Hg. split; [done|]. rewrite <-Hc. exact Hcont.
Qed.

Lemma truncate_ok f len :
  rfile_ok f -> 0 <= len ->
  exists rc f', ram_truncate kmalloc f len = Some (rc, f') /\ (rc < 0 /\ f' = f \/ rc = 0 /\ rfile_ok f' /\ content f' = file_resize (content f) len).
Proof.
  intros Hok Hlen. pose proof Hok as [H0 Hb]. unfold ram_truncate.
  assert (Htail : forall f1, rfile_ok f1 -> r_size f1 = r_size f -> content f1 = content f -> len <= r_capacity f1 -> exists rc f', (if 0 <? 0 then Some (0, f1) else if r_size f1 <? len then
      d ← copy_in (r_data f1) (r_size f1) (replicate (Z.to_nat (len - r_size f1)) 0); Some (0, mkRfile (Some d) len (r_capacity f1)) else Some (0, mkRfile (r_data f1) len (r_capacity f1))) = Some (rc, f') /\
      (rc < 0 /\ f' = f \/ rc = 0 /\ rfile_ok f' /\ content f' = file_resize (content f) len)).
  { intros f1 Hok1 Hs Hc Hcap. pose proof (blen_file_content f1 Hok1) as Hbl. cbn [Z.ltb Z.compare]. pose proof Hok1 as [_ Hb1]. unfold file_resize. destruct (Z.ltb_spec (r_size f1) len) as [Hlt|Hge].
    - destruct (r_data f1) as [d|] eqn:Hd; [|lia]. destruct Hb1 as [Hb1 Hb2]. assert (Hz : blen (replicate (Z.to_nat (len - r_size f1)) 0) = len - r_size f1) by (unfold blen; rewrite length_replicate; lia).
      destruct (copy_in_ok d (r_size f1) (replicate (Z.to_nat (len - r_size f1)) 0)) as [-> Hl]; [lia|lia|]. cbn [mbind option_bind]. eexists _, _. split; [done|]. right. split; [done|].
      split; [split; cbn [r_data r_size r_capacity]; lia|]. unfold content at 1. cbn [r_data r_size from_option id]. rewrite <-Hc, Hbl. unfold blit. rewrite app_assoc, take_app_le.
      2:{ rewrite length_app, length_take, length_replicate. unfold blen in Hb1. lia. }
      rewrite take_ge by (rewrite length_app, length_take, length_replicate; unfold blen in Hb1; lia). f_equal. unfold content. rewrite Hd. cbn [from_option id]. rewrite take_take. f_equal. lia.
    - eexists _, _. split; [done|]. right. split; [done|]. split; [split; cbn [r_data r_size r_capacity]; [lia|]; destruct (r_data f1); lia|].
      unfold content at 1. cbn [r_data r_size]. rewrite <-Hc, Hbl. replace (Z.to_nat (len - r_size f1)) with 0%nat by lia. cbn [replicate]. rewrite app_nil_r. unfold content. rewrite take_take. f_equal. lia. }
  destruct (Z.ltb_spec (r_capacity f) len) as [Hc|Hc]; [|cbn [mbind option_bind]; by apply Htail].
  destruct (Z.ltb_spec (U64_MAX - 4095) len) as [Hbig|Hbig]; [cbn; eexists _, _; split; [done|]; by left|]. pose proof (round_up len Hlen) as Hr. set (cap := Z.land _ _) in *.
  destruct (kmalloc cap) as [d|] eqn:Hd; [|cbn; eexists _, _; split; [done|]; by left]. apply Hk in Hd.
  assert (Hold : blen (default [] (r_data f)) = r_capacity f) by (destruct (r_data f); cbn; [apply Hb|unfold blen; cbn; lia]).
  destruct (copy_in_ok d 0 (default [] (r_data f))) as [-> Hl]; [lia|lia|]. cbn [mbind option_bind].
  destruct (larger_ok f d cap (default [] (r_data f)) Hok Hd) as [G1 G2]; [lia|destruct (r_data f); cbn in *; lia|done|]. by apply Htail.
Qed.
End correct.

(** ** Sequences of operations *)

Inductive ram_op :=
  | FRead (off len : Z)
  | FWrite (off : Z) (src : list Z)
  | FTruncate (len : Z).

(** Offsets and lengths are unsigned. *)
Definition ram_op_ok (op : ram_op) : Prop :=
  match op with FRead off len => 0 <= off /\ 0 <= len | FWrite off _ => 0 <= off | FTruncate len => 0 <= len end.

Definition run_ram_op (kmalloc : Z -> option (list Z)) (f : rfile) (op : ram_op) : option (Z * list Z * rfile) :=
  match op with
  | FRead off len => '(rc, out) ← ram_read f off len; Some (rc, out, f)
  | FWrite off src => '(rc, f) ← ram_pwrite kmalloc f off src; Some (rc, [], f)
  | FTruncate len => '(rc, f) ← ram_truncate kmalloc f len; Some (rc, [], f)
  end.

Fixpoint run_ram_ops (kmalloc : Z -> option (list Z)) (f : rfile) (ops : list ram_op) : option (list (Z * list Z) * rfile) :=
  match ops with
  | [] => Some ([], f)
  | op :: ops =>
      '(rc, out, f) ← run_ram_op kmalloc f op;
      '(res, f) ← run_ram_ops kmalloc f ops;
      Some ((rc, out) :: res, f)
  end.

(** The same on a list of bytes.  Growing can fail; bytes between the old end and
    the start of a write are unspecified. *)
Inductive bytes_step (c : list Z) : ram_op -> Z * list Z -> list Z -> Prop :=
  | bytes_read off len : let out := slice c off len in bytes_step c (FRead off len) (blen out, out) c
  | bytes_write_none off : bytes_step c (FWrite off []) (0, []) c
  | bytes_write off src gap :
      src <> [] -> blen gap = Z.max 0 (off - blen c) -> bytes_step c (FWrite off src) (blen src, []) (write_gap c gap src off)
  | bytes_truncate len : bytes_step c (FTruncate len) (0, []) (file_resize c len)
  | bytes_fail op rc : rc < 0 -> (forall off len, op <> FRead off len) -> bytes_step c op (rc, []) c.

Inductive bytes_run : list Z -> list ram_op -> list (Z * list Z) -> list Z -> Prop :=
  | bytes_done c : bytes_run c [] [] c
  | bytes_next c op res c' ops rest c'' : bytes_step c op res c' -> bytes_run c' ops rest c'' -> bytes_run c (op :: ops) (res :: rest) c''.

Lemma ram_op_correct kmalloc f op :
  (forall n b, kmalloc n = Some b -> blen b = n) -> rfile_ok f -> ram_op_ok op ->
  exists rc out f', run_ram_op kmalloc f op = Some (rc, out, f') /\ rfile_ok f' /\ bytes_step (content f) op (rc, out) (content f').
Proof.
  intros Hk Hok Hop. destruct op as [off len|off src|len]; cbn [run_ram_op ram_op_ok] in *.
  - destruct Hop as [Hoff Hlen]. rewrite (read_correct f off len Hok Hoff Hlen). eexists _, _, _. split; [done|]. split; [done|]. exact (bytes_read _ off len).
  - unfold ram_pwrite. assert (Hfail : forall rc, rc < 0 -> exists rc' out f', ('(rc, f) ← Some (rc, f); Some (rc, @nil Z, f)) = Some (rc', out, f') /\ rfile_ok f' /\ bytes_step (content f) (FWrite off src) (rc', out) (content f')).
    { intros rc Hrc. eexists _, _, _. split; [done|]. split; [done|]. by apply bytes_fail. }
    destruct (Z.eqb_spec (blen src) 0) as [Hz|Hz].
    { destruct src; [|unfold blen in Hz; cbn [length] in Hz; lia]. eexists _, _, _. split; [done|]. split; [done|]. apply bytes_write_none. }
    destruct (_ <? off); [by apply Hfail|]. destruct (_ <? blen src); [by apply Hfail|]. pose proof (blen_nonneg src).
    destruct (put_ok kmalloc Hk f off src Hok Hop ltac:(lia)) as (rc & f' & -> & [[Hrc ->]|(-> & Hok' & gap & Hg & Hc)]); [by apply Hfail|].
    eexists _, _, _. split; [done|]. split; [done|]. rewrite Hc. apply bytes_write; [by intros ->|]. by rewrite blen_file_content.
  - destruct (truncate_ok kmalloc Hk f len Hok Hop) as (rc & f' & -> & [[Hrc ->]|(-> & Hok' & Hc)]); eexists _, _, _; (split; [done|]); (split; [done|]).
    + by apply bytes_fail.
    + rewrite Hc. apply bytes_truncate.
Qed.


(** An allocator that returns blocks full of the byte 42. *)
Definition dirty_kmalloc (n : Z) : option (list Z) := if n <? 0 then None else Some (replicate (Z.to_nat n) 42).

Lemma dirty_kmalloc_size n b : dirty_kmalloc n = Some b -> blen b = n.
Proof. unfold dirty_kmalloc. destruct (Z.ltb_spec n 0); [done|]. intros [= <-]. unfold blen. rewrite length_replicate. lia. Qed.

Definition demo_ram_ops : list ram_op := [FWrite 0 [1; 2; 3; 4]; FTruncate 2; FTruncate 6; FRead 0 10; FWrite 4 [9]; FRead 3 3].

Lemma demo_ram_ops_ok : Forall ram_op_ok demo_ram_ops.
Proof. repeat constructor; done. Qed.

Lemma demo_ram_results :
  fst <$> run_ram_ops dirty_kmalloc new_file demo_ram_ops = Some [(4, []); (0, []); (0, []); (6, [1; 2; 0; 0; 0; 0]); (1, []); (3, [0; 9; 0])].
Proof. vm_compute. reflexivity. Qed.

(** A program that writes past the end of a file reads kernel memory: the gap
    holds what the allocator's block held before. *)
Theorem write_gap_leaks_memory :
  fst <$> run_ram_ops dirty_kmalloc new_file [FWrite 3 [7]; FRead 0 4] = Some [(1, []); (4, [42; 42; 42; 7])].
Proof. vm_compute. reflexivity. Qed.

(** A file that was emptied keeps its capacity, and [vfs_link] copies the capacity
    but not the buffer: a write to the link goes through a null pointer. *)
Theorem link_of_emptied_file_faults :
  exists f g, snd <$> run_ram_ops dirty_kmalloc new_file [FWrite 0 [1]; FTruncate 0] = Some f /\ ram_link dirty_kmalloc f = Some g /\ ram_pwrite dirty_kmalloc g 0 [1] = None.
Proof. eexists _, _. vm_compute. split; [reflexivity|]. split; reflexivity. Qed.

