(* ===== verification/Vfs.v ===== *)
(** * The tree of the virtual file system.

    Models [kernel/fs/vfs.c]: nodes, directories with their hash index, path
    lookup with symbolic links, mounts, [..] and permissions, and the operations
    on the tree ([mkdir], [unlink], [rename], ...), for the memory file system.
    Of [kernel/proc/ns.c] and [kernel/syscall/mount.c] it has the mounts of a
    mount namespace as lookup uses them.

    Nodes live in a map from pointers to records; a freed node has no entry, and
    a computation that follows a null or freed pointer is [None].  The lists that
    the [next] and [hash_next] links form are kept in the directory.  Paths are
    byte lists without the terminating zero, cut to the buffers of the source.
    The outcomes of the kernel allocator are arguments, and so is the hook by
    which [/proc] creates the directory of a process during lookup.
    Notifications, the race detector and files on disk are left out.  The kernel
    runs these functions with interrupts off; here each is one step. *)

From S2P Require Import Prelude Bits Bytes KString Ns Jail Cred RamFile.

Inductive vfs_type := VFS_TYPE_REG | VFS_TYPE_DIR | VFS_TYPE_SYM | VFS_TYPE_CHR | VFS_TYPE_SOCK.

#[export] Instance vfs_type_eq_dec : EqDecision vfs_type.
Proof. solve_decision. Defined.

Definition S_IFMT : Z := 0xf000.
Definition S_IFREG : Z := 0x8000.
Definition S_IFDIR : Z := 0x4000.
Definition S_IFLNK : Z := 0xa000.
Definition S_IFCHR : Z := 0x2000.
Definition MS_RDONLY : Z := 1.
Definition VFS_DIR_BUCKETS : nat := 64.
Definition NS_MNT_MAX : nat := 64.

Record node := mkNode {
  n_name : list Z;
  n_type : vfs_type;
  n_mode : Z;
  n_uid : Z;
  n_gid : Z;
  n_ino : Z;
  n_refcnt : Z;
  n_deleted : bool;
  n_file : rfile;
  n_children : list nat;
  n_index : option (list (list nat));
  n_parent : option nat;
  n_symlink : option (list Z);
}.

Definition set_name (x : list Z) (n : node) : node :=
  mkNode x (n_type n) (n_mode n) (n_uid n) (n_gid n) (n_ino n) (n_refcnt n) (n_deleted n) (n_file n) (n_children n) (n_index n) (n_parent n) (n_symlink n).
Definition set_mode (x : Z) (n : node) : node :=
  mkNode (n_name n) (n_type n) x (n_uid n) (n_gid n) (n_ino n) (n_refcnt n) (n_deleted n) (n_file n) (n_children n) (n_index n) (n_parent n) (n_symlink n).
Definition set_owner (u g : Z) (n : node) : node :=
  mkNode (n_name n) (n_type n) (n_mode n) u g (n_ino n) (n_refcnt n) (n_deleted n) (n_file n) (n_children n) (n_index n) (n_parent n) (n_symlink n).
Definition set_refcnt (x : Z) (n : node) : node :=
  mkNode (n_name n) (n_type n) (n_mode n) (n_uid n) (n_gid n) (n_ino n) x (n_deleted n) (n_file n) (n_children n) (n_index n) (n_parent n) (n_symlink n).
Definition set_deleted (x : bool) (n : node) : node :=
  mkNode (n_name n) (n_type n) (n_mode n) (n_uid n) (n_gid n) (n_ino n) (n_refcnt n) x (n_file n) (n_children n) (n_index n) (n_parent n) (n_symlink n).
Definition set_file (x : rfile) (n : node) : node :=
  mkNode (n_name n) (n_type n) (n_mode n) (n_uid n) (n_gid n) (n_ino n) (n_refcnt n) (n_deleted n) x (n_children n) (n_index n) (n_parent n) (n_symlink n).
Definition set_entries (c : list nat) (i : option (list (list nat))) (n : node) : node :=
  mkNode (n_name n) (n_type n) (n_mode n) (n_uid n) (n_gid n) (n_ino n) (n_refcnt n) (n_deleted n) (n_file n) c i (n_parent n) (n_symlink n).
Definition set_parent (x : option nat) (n : node) : node :=
  mkNode (n_name n) (n_type n) (n_mode n) (n_uid n) (n_gid n) (n_ino n) (n_refcnt n) (n_deleted n) (n_file n) (n_children n) (n_index n) x (n_symlink n).
Definition set_symlink (x : option (list Z)) (n : node) : node :=
  mkNode (n_name n) (n_type n) (n_mode n) (n_uid n) (n_gid n) (n_ino n) (n_refcnt n) (n_deleted n) (n_file n) (n_children n) (n_index n) (n_parent n) x.

Record vfs := mkVfs { nodes : gmap nat node; next_ptr : nat; g_next_ino : Z; g_root : nat }.

Record mnt_mount := mkMount { m_target : list Z; m_root : option nat; m_flags : Z }.
Record mnt_namespace := mkMnt { mns_root : option nat; mns_root_flags : Z; mns_mounts : list (option mnt_mount) }.

(** The process that calls: its credentials ([None] is the kernel itself), its
    [umask], working directory, the root of its jail ([[]] if it has none) and
    its mount namespace. *)
Record caller := mkCaller { c_cred : option cproc; c_umask : Z; c_cwd : list Z; c_jail : list Z; c_mnt : mnt_namespace }.

(** Whether the allocations of an operation succeed: a node, its data, the index
    of a directory, and the data of a file that is created once more. *)
Record allocs := mkAllocs { ok_node : bool; ok_data : bool; ok_index : bool; ok_again : bool }.

(** ** Computations *)

Definition M (X : Type) : Type := vfs -> option (X * vfs).

#[export] Instance M_ret : MRet M := fun X x s => Some (x, s).
#[export] Instance M_bind : MBind M := fun X Y k m s => match m s with Some (x, s') => k x s' | None => None end.

Definition fetch (p : nat) : M node := fun s => n ← nodes s !! p; Some (n, s).
Definition modify (p : nat) (f : node -> node) : M unit :=
  fun s => n ← nodes s !! p; Some (tt, mkVfs (<[p := f n]> (nodes s)) (next_ptr s) (g_next_ino s) (g_root s)).
Definition kfree (p : nat) : M unit := fun s => n ← nodes s !! p; Some (tt, mkVfs (delete p (nodes s)) (next_ptr s) (g_next_ino s) (g_root s)).
Definition get_root : M nat := fun s => Some (g_root s, s).
Definition lift {X} (x : option X) : M X := fun s => y ← x; Some (y, s).

(** ** Nodes and directories *)

Definition node_alloc (c : caller) (ok : bool) (name : list Z) (type : vfs_type) (mode : Z) : M (option nat) := fun s =>
  if negb ok then Some (None, s) else
  let p := next_ptr s in
  let n := mkNode (take 255 name) type mode (cred_fsuid (c_cred c)) (cred_fsgid (c_cred c)) (g_next_ino s) 0 false new_file [] None None None in
  Some (Some p, mkVfs (<[p := n]> (nodes s)) (S p) (u32 (g_next_ino s + 1)) (g_root s)).

Definition dir_hash (name : list Z) : nat :=
  let h := foldl (fun h b => u32 (Z.lxor h b * 16777619)) 2166136261 name in
  Z.to_nat (Z.land h (Z.of_nat VFS_DIR_BUCKETS - 1)).

Definition dir_insert_nolock (ok_index : bool) (dir child : nat) : M unit :=
  modify child (set_parent (Some dir));;
  d ← fetch dir;
  n ← fetch child;
  let index := match n_index d with Some b => Some b | None => if ok_index then Some (replicate VFS_DIR_BUCKETS []) else None end in
  let bucket := dir_hash (n_name n) in
  modify dir (set_entries (child :: n_children d) ((fun b => <[bucket := child :: aget [] b bucket]> b) <$> index)).

Fixpoint find_named (l : list nat) (name : list Z) : M (option nat) :=
  match l with
  | [] => mret None
  | c :: l => n ← fetch c; if bool_decide (n_name n = name) then mret (Some c) else find_named l name
  end.

Definition dir_find (dir : nat) (name : list Z) : M (option nat) :=
  d ← fetch dir; find_named (match n_index d with Some b => aget [] b (dir_hash name) | None => n_children d end) name.

Definition lookup_ref (p : nat) : M (option nat) :=
  n ← fetch p;
  if n_deleted n then mret None else modify p (set_refcnt (u32 (n_refcnt n + 1)));; mret (Some p).

(** The list without [child]; the search reads every node before it. *)
Fixpoint unlink_from (l : list nat) (child : nat) : M (list nat) :=
  match l with
  | [] => mret []
  | c :: l => if (c =? child)%nat then mret l else fetch c;; l ← unlink_from l child; mret (c :: l)
  end.

Definition dir_remove (parent child : nat) : M unit :=
  d ← fetch parent;
  c ← fetch child;
  l ← unlink_from (n_children d) child;
  i ← match n_index d with
      | Some b => let bucket := dir_hash (n_name c) in l ← unlink_from (aget [] b bucket) child; mret (Some (<[bucket := l]> b))
      | None => mret None
      end;
  modify parent (set_entries l i);;
  modify child (set_parent None).

Definition node_destroy (p : nat) : M unit := kfree p.

Definition node_ref (p : nat) : M unit := n ← fetch p; modify p (set_refcnt (u32 (n_refcnt n + 1))).

Definition node_unref (p : option nat) : M unit :=
  match p with
  | None => mret tt
  | Some p =>
      n ← fetch p;
      if n_refcnt n =? 0 then mret tt else
      modify p (set_refcnt (n_refcnt n - 1));;
      if (n_refcnt n =? 1) && n_deleted n then node_destroy p else mret tt
  end.

Definition node_unlink_or_destroy (p : nat) : M unit :=
  modify p (fun n => set_parent None (set_deleted true n));;
  n ← fetch p;
  if n_refcnt n =? 0 then node_destroy p else mret tt.

(** ** Permissions *)

Definition perm_of (n : node) : vnode := mkVnode (bool_decide (n_type n = VFS_TYPE_DIR)) (n_mode n) (n_uid n) (n_gid n).
Definition node_access (c : caller) (n : node) (need : Z) : bool := may_access (c_cred c) (perm_of n) need.
Definition node_create_in (c : caller) (n : node) : bool := may_create_in (c_cred c) (perm_of n).
Definition node_delete_in (c : caller) (d n : node) : bool := may_delete_in (c_cred c) (perm_of d) (Some (perm_of n)).
Definition apply_umask (c : caller) (mode : Z) : Z := match c_cred c with Some _ => Z.land mode (u32 (Z.lnot (c_umask c))) | None => mode end.

(** ** Mounts of a namespace *)

(** The last slot in use with this target. *)
Definition ns_mnt_find (ns : mnt_namespace) (target : list Z) : option mnt_mount :=
  foldl (fun r m => match m with Some m => if bool_decide (m_target m = target) then Some m else r | None => r end) None (mns_mounts ns).

Definition path_under (path prefix : list Z) : bool :=
  bool_decide (take (length prefix) path = prefix) && (match drop (length prefix) path with [] => true | ch :: _ => ch =? ch_slash end).

(** The flags of the mount with the longest target above an absolute path. *)
Definition ns_mnt_resolve (ns : mnt_namespace) (path : list Z) : Z :=
  (foldl (fun '(best_flags, best_len) m =>
    match m with
    | Some (mkMount target (Some _) flags) =>
        if blen target <? best_len then (best_flags, best_len) else
        if negb (path_under path target) then (best_flags, best_len) else (flags, blen target)
    | _ => (best_flags, best_len)
    end) (mns_root_flags ns, 1) (mns_mounts ns)).1.

Definition ns_mnt_path_flags (ns : mnt_namespace) (path : list Z) : Z :=
  if bool_decide (head path = Some ch_slash) then ns_mnt_resolve ns (path_canon path 512) else 0.

Definition ns_mnt_path_readonly (c : caller) (path : list Z) : bool := ztrue (Z.land (ns_mnt_path_flags (c_mnt c) path) MS_RDONLY).

(** ** Path lookup *)

(** The ancestors of a node from itself up to below the root, at most 128. *)
Fixpoint ancestors (fuel : nat) (cur : option nat) : M (option (list nat)) :=
  match cur with
  | None => mret (Some [])
  | Some p =>
      n ← fetch p;
      if bool_decide (n_parent n = Some p) then mret (Some []) else
      match fuel with
      | O => mret None
      | S fuel => l ← ancestors fuel (n_parent n); mret (cons p <$> l)
      end
  end.

Fixpoint path_of (l : list nat) (buf : list Z) (sz : Z) : M (option (list Z)) :=
  match l with
  | [] => mret (Some buf)
  | p :: l =>
      n ← fetch p;
      let buf := if 1 <? blen buf then buf ++ [ch_slash] else buf in
      if sz <=? blen buf + blen (n_name n) then mret None else path_of l (buf ++ n_name n) sz
  end.

Definition vfs_node_path (p : nat) (sz : Z) : M (option (list Z)) :=
  n ← fetch p;
  if bool_decide (n_parent n = Some p) then mret (if sz <? 2 then None else Some [ch_slash]) else
  l ← ancestors 127 (Some p);
  match l with
  | None => mret None
  | Some l => path_of (rev l) [ch_slash] sz
  end.

Definition lookup_path_push (buf : list Z) (sz : Z) (comp : list Z) : option (list Z) :=
  if sz <=? blen buf + 1 + blen comp then None else Some ((if 1 <? blen buf then buf ++ [ch_slash] else buf) ++ comp).

(** Drops the last component, never the leading slash. *)
Fixpoint drop_comp (rbuf : list Z) : list Z :=
  match rbuf with
  | [] => []
  | [ch] => [ch]
  | ch :: rbuf => if ch =? ch_slash then (match rbuf with [] => [ch] | _ => rbuf end) else drop_comp rbuf
  end.
Definition lookup_path_pop (buf : list Z) : list Z := rev (drop_comp (rev buf)).

Definition snprintf512 (s : list Z) : list Z := take 511 s.

(** The path a symbolic link with target [link] in directory [dir] stands for,
    with the rest [p] of the path appended. *)
Definition link_path (c : caller) (dir : option nat) (link p : list Z) : M (option (list Z)) :=
  let tail := match p with [] => [] | _ => ch_slash :: p end in
  r ← (if bool_decide (head link = Some ch_slash) then mret (Some (snprintf512 (c_jail c ++ link ++ tail)))
       else
         d ← lift dir;
         base ← vfs_node_path d 512;
         mret match base with
              | None => None
              | Some base => Some (snprintf512 ((if bool_decide (base = [ch_slash]) then [] else base) ++ [ch_slash] ++ link ++ tail))
              end);
  mret ((fun r => if blen (c_jail c) =? 0 then r else jail_canon_clamp r 512 (c_jail c)) <$> r).

Inductive walked := Found (p : nat) | NotFound | Link (path : list Z).

Definition proc_name : list Z := [112; 114; 111; 99].

Section lookup.
Context (try_pid_dir : nat -> list Z -> vfs -> vfs) (c : caller).

(** [dir_find], and the second one after [/proc] may have made the entry. *)
Definition find_child (cur : nat) (n : node) (comp : list Z) : M (option nat) :=
  child ← dir_find cur comp;
  match child with
  | Some q => mret (Some q)
  | None =>
      root ← get_root;
      (if bool_decide (n_parent n = Some root) && bool_decide (n_name n = proc_name) then fun s => Some (tt, try_pid_dir cur comp s) else mret tt);;
      dir_find cur comp
  end.

(** The loop over the components of the path. *)
Fixpoint walk (fuel : nat) (follow_last : bool) (cur boundary : nat) (cur_path p : list Z) : M walked :=
  match fuel with
  | O => fun _ => None
  | S fuel =>
      match p with
      | [] => mret (Found cur)
      | _ =>
          let comp := take_while not_slash p in
          let p := skip_while (fun ch => ch =? ch_slash) (drop (length comp) p) in
          if bool_decide (comp = dot) then walk fuel follow_last cur boundary cur_path p else
          if bool_decide (comp = dotdot) then
            if (cur =? boundary)%nat then walk fuel follow_last cur boundary cur_path p else
            n ← fetch cur;
            match n_parent n with
            | Some q => walk fuel follow_last q boundary (lookup_path_pop cur_path) p
            | None => walk fuel follow_last cur boundary cur_path p
            end
          else
          if 256 <=? blen comp then mret NotFound else
          let last := bool_decide (p = []) in
          n ← fetch cur;
          if negb (bool_decide (n_type n = VFS_TYPE_DIR)) then mret NotFound else
          if negb (node_access c n 1) then mret NotFound else
          child ← find_child cur n comp;
          match child with
          | None => mret NotFound
          | Some q =>
              cn ← fetch q;
              if bool_decide (n_type cn = VFS_TYPE_SYM) && (follow_last || negb last) then
                match n_symlink cn with
                | None => mret NotFound
                | Some l => r ← link_path c (n_parent cn) l p; mret (match r with Some r => Link r | None => NotFound end)
                end
              else
              match lookup_path_push cur_path 512 comp with
              | None => mret NotFound
              | Some cand =>
                  match ns_mnt_find (c_mnt c) cand with
                  | Some (mkMount _ (Some r) _) => walk fuel follow_last r r cand p
                  | _ => walk fuel follow_last q boundary cand p
                  end
              end
          end
      end
  end.

(** [k] is how many more levels of recursion there may be; [lookup_internal]
    gives up at depth 33. *)
Fixpoint lookup_internal (k : nat) (path : list Z) (follow_last : bool) : M (option nat) :=
  match path, k with
  | [], _ => mret None
  | _, O => mret None
  | ch :: _, S k =>
      if ch =? ch_slash then
        root ← get_root;
        let cur := default root (mns_root (c_mnt c)) in
        match skip_while (fun ch => ch =? ch_slash) path with
        | [] => lookup_ref cur
        | p =>
            w ← walk (S (length p)) follow_last cur cur [ch_slash] p;
            match w with
            | Found q => lookup_ref q
            | NotFound => mret None
            | Link path => lookup_internal k path true
            end
        end
      else
      let cwd := c_cwd c in
      if 512 <=? blen cwd + 1 + blen path then mret None else
      lookup_internal k (cwd ++ (if bool_decide (last cwd = Some ch_slash) then [] else [ch_slash]) ++ path) follow_last
  end.

Definition vfs_lookup (path : list Z) : M (option nat) := lookup_internal 33 path true.
Definition vfs_lookup_nofollow (path : list Z) : M (option nat) := lookup_internal 33 path false.

(** The directory that holds the last component of [path], and that component
    (with the slashes that follow it). *)
Definition last_slash (s : list Z) : option nat :=
  foldl (fun r '(i, ch) => if ch =? ch_slash then Some i else r) None (zip (seq 0 (length s)) s).

Definition strip_slashes (s : list Z) : list Z := match s with [] => [] | ch :: t => ch :: rev (skip_while (fun x => x =? ch_slash) (rev t)) end.

Definition parent_of (path : list Z) : M (option nat * list Z) :=
  match last_slash (strip_slashes path) with
  | None | Some O => d ← vfs_lookup [ch_slash]; mret (d, if bool_decide (head path = Some ch_slash) then drop 1 path else path)
  | Some i => if (512 <=? i)%nat then mret (None, []) else d ← vfs_lookup (take i path); mret (d, drop (S i) path)
  end.
End lookup.

(** ** Operations on the tree *)

Definition EEXIST : Z := 17.
Definition ENOTDIR : Z := 20.
Definition EISDIR : Z := 21.
Definition EROFS : Z := 30.
Definition ENOTEMPTY : Z := 39.

Section ops.
Context (try_pid_dir : nat -> list Z -> vfs -> vfs) (c : caller) (ok : allocs).

Abbreviation lookup_follow := (vfs_lookup try_pid_dir c).
Abbreviation lookup_nofollow := (vfs_lookup_nofollow try_pid_dir c).
Abbreviation find_parent := (parent_of try_pid_dir c).

(** Drops the references taken so far and returns [rc]. *)
Fixpoint unrefs (l : list (option nat)) : M unit := match l with [] => mret tt | p :: l => node_unref p;; unrefs l end.
Definition fail (l : list (option nat)) (rc : Z) : M Z := unrefs l;; mret rc.

(** Inserts the new node [p] under [parent] unless the name is taken. *)
Definition insert_new (parent p : nat) (leaf : list Z) : M Z :=
  e ← dir_find parent leaf;
  match e with
  | Some _ => kfree p;; fail [Some parent] (- EEXIST)
  | None => dir_insert_nolock (ok_index ok) parent p;; fail [Some parent] 0
  end.

Definition is_dir (p : nat) : M bool := n ← fetch p; mret (bool_decide (n_type n = VFS_TYPE_DIR)).

Definition vfs_mkdir (path : list Z) (mode : Z) : M Z :=
  e ← lookup_nofollow path;
  match e with
  | Some _ => fail [e] (- EEXIST)
  | None =>
      if ns_mnt_path_readonly c path then mret (- EROFS) else
      '(parent, leaf) ← find_parent path;
      match parent with
      | None => fail [parent] (- ENOENT)
      | Some d =>
          dn ← fetch d;
          if negb (bool_decide (n_type dn = VFS_TYPE_DIR)) || bool_decide (leaf = []) then fail [parent] (- ENOENT) else
          if negb (node_create_in c dn) then fail [parent] (- EACCES) else
          p ← node_alloc c (ok_node ok) leaf VFS_TYPE_DIR (Z.lor (apply_umask c (Z.land mode 0xfff)) S_IFDIR);
          match p with None => fail [parent] (- ENOMEM) | Some p => insert_new d p leaf end
      end
  end.

(** The pointer returned is not counted as a reference. *)
Definition vfs_create_file (path : list Z) (mode : Z) (data : list Z) : M (option nat) :=
  if ns_mnt_path_readonly c path then mret None else
  '(parent, leaf) ← find_parent path;
  match parent with
  | None => mret None
  | Some d =>
      isd ← is_dir d;
      if negb isd then node_unref parent;; mret None else
      p ← node_alloc c (ok_node ok) leaf VFS_TYPE_REG (Z.lor (apply_umask c (Z.land mode 0xfff)) S_IFREG);
      match p with
      | None => node_unref parent;; mret None
      | Some p =>
          if (0 <? blen data) && negb (ok_data ok) then kfree p;; node_unref parent;; mret None else
          let contents := if 0 <? blen data then mkRfile (Some data) (blen data) (blen data) else new_file in
          modify p (set_file contents);;
          e ← dir_find d leaf;
          match e with
          | Some e =>
              kfree p;;
              en ← fetch e;
              if negb (bool_decide (n_type en = VFS_TYPE_REG)) then node_unref parent;; mret None else
              modify e (set_file new_file);;
              if (0 <? blen data) && negb (ok_again ok) then node_unref parent;; mret None else
              modify e (set_file contents);;
              node_unref parent;; mret (Some e)
          | None => dir_insert_nolock (ok_index ok) d p;; node_unref parent;; mret (Some p)
          end
      end
  end.

Definition vfs_create_symlink (path target : list Z) : M (option nat) :=
  if ns_mnt_path_readonly c path then mret None else
  '(parent, leaf) ← find_parent path;
  match parent with
  | None => mret None
  | Some d =>
      dn ← fetch d;
      if negb (node_create_in c dn) then node_unref parent;; mret None else
      p ← node_alloc c (ok_node ok) leaf VFS_TYPE_SYM (Z.lor 0x1ff S_IFLNK);
      match p with
      | None => node_unref parent;; mret None
      | Some p =>
          if negb (ok_data ok) then kfree p;; node_unref parent;; mret None else
          let t := take 511 target in
          modify p (fun n => set_symlink (Some t) (set_file (mkRfile None (blen t) 0) n));;
          e ← dir_find d leaf;
          match e with
          | Some _ => kfree p;; node_unref parent;; mret None
          | None => dir_insert_nolock (ok_index ok) d p;; node_unref parent;; mret (Some p)
          end
      end
  end.

Definition vfs_create_chr (path : list Z) : M (option nat) :=
  '(parent, leaf) ← find_parent path;
  match parent with
  | None => mret None
  | Some d =>
      p ← node_alloc c (ok_node ok) leaf VFS_TYPE_CHR (Z.lor 0x1b6 S_IFCHR);
      match p with
      | None => node_unref parent;; mret None
      | Some p =>
          e ← dir_find d leaf;
          match e with
          | Some _ => kfree p;; node_unref parent;; mret None
          | None => dir_insert_nolock (ok_index ok) d p;; node_unref parent;; mret (Some p)
          end
      end
  end.

Definition vfs_mknod (path : list Z) (mode : Z) : M Z :=
  if ns_mnt_path_readonly c path then mret (- EROFS) else
  '(parent, leaf) ← find_parent path;
  match parent with
  | None => fail [parent] (- ENOENT)
  | Some d =>
      dn ← fetch d;
      if negb (bool_decide (n_type dn = VFS_TYPE_DIR)) then fail [parent] (- ENOENT) else
      if bool_decide (leaf = []) then fail [parent] (- EINVAL) else
      if negb (cred_is_root (c_cred c)) then fail [parent] (- EPERM) else
      if negb (node_create_in c dn) then fail [parent] (- EACCES) else
      let ftype := if Z.land mode S_IFMT =? 0 then S_IFREG else Z.land mode S_IFMT in
      let type := if ftype =? S_IFDIR then VFS_TYPE_DIR else VFS_TYPE_REG in
      p ← node_alloc c (ok_node ok) leaf type (Z.lor (apply_umask c (Z.land mode 0xfff)) ftype);
      match p with None => fail [parent] (- ENOMEM) | Some p => insert_new d p leaf end
  end.

(** The end of [vfs_unlink] and [vfs_rmdir]: [n] has a parent. *)
Definition remove_node (p : nat) (n : node) : M Z :=
  match n_parent n with
  | None => fail [Some p] (- EINVAL)
  | Some d =>
      dn ← fetch d;
      if negb (node_delete_in c dn n) then fail [Some p] (- EACCES) else
      dir_remove d p;;
      node_unlink_or_destroy p;;
      node_unref (Some p);;
      mret 0
  end.

Definition vfs_unlink (path : list Z) : M Z :=
  if ns_mnt_path_readonly c path then mret (- EROFS) else
  p ← lookup_nofollow path;
  match p with
  | None => mret (- ENOENT)
  | Some p =>
      n ← fetch p;
      if bool_decide (n_type n = VFS_TYPE_DIR) then fail [Some p] (- EISDIR) else remove_node p n
  end.

Definition vfs_rmdir (path : list Z) : M Z :=
  if ns_mnt_path_readonly c path then mret (- EROFS) else
  p ← lookup_follow path;
  match p with
  | None => mret (- ENOENT)
  | Some p =>
      n ← fetch p;
      if negb (bool_decide (n_type n = VFS_TYPE_DIR)) then fail [Some p] (- ENOTDIR) else
      if negb (bool_decide (n_children n = [])) then fail [Some p] (- ENOTEMPTY) else remove_node p n
  end.

(** What [vfs_rename] checks about the node that has the new name already; [0]
    if it may be replaced. *)
Definition replace_error (c : caller) (np e n : node) : Z :=
  if negb (node_delete_in c np e) then - EACCES else
  if bool_decide (n_type e = VFS_TYPE_DIR) then
    if negb (bool_decide (n_type n = VFS_TYPE_DIR)) then - EISDIR else
    if negb (bool_decide (n_children e = [])) then - ENOTEMPTY else 0
  else if bool_decide (n_type n = VFS_TYPE_DIR) then - ENOTDIR else 0.

(** From the search for the new name on; [p] and [new_parent] are referenced. *)
Definition rename_into (p old_parent new_parent : nat) (new_leaf : list Z) : M Z :=
  e ← dir_find new_parent new_leaf;
  rc ← match e with
       | None => mret 0
       | Some e =>
           node_ref e;;
           np ← fetch new_parent;
           en ← fetch e;
           n ← fetch p;
           let rc := replace_error c np en n in
           if rc <? 0 then fail [Some e; Some p; Some new_parent] rc else
           dir_remove new_parent e;;
           node_unlink_or_destroy e;;
           node_unref (Some e);;
           mret 0
       end;
  if rc <? 0 then mret rc else
  dir_remove old_parent p;;
  modify p (set_name (take 255 new_leaf));;
  dir_insert_nolock (ok_index ok) new_parent p;;
  fail [Some p; Some new_parent] 0.

Definition vfs_rename (oldpath newpath : list Z) : M Z :=
  if ns_mnt_path_readonly c oldpath || ns_mnt_path_readonly c newpath then mret (- EROFS) else
  p ← lookup_nofollow oldpath;
  match p with
  | None => mret (- ENOENT)
  | Some q =>
      n ← fetch q;
      match n_parent n with
      | None => fail [p] (- ENOENT)
      | Some old_parent =>
          '(new_parent, new_leaf) ← find_parent newpath;
          match new_parent with
          | None => fail [p; new_parent] (- ENOENT)
          | Some np =>
              npn ← fetch np;
              if negb (bool_decide (n_type npn = VFS_TYPE_DIR)) then fail [p; new_parent] (- ENOENT) else
              if bool_decide (new_leaf = []) then fail [p; new_parent] (- EINVAL) else
              opn ← fetch old_parent;
              n ← fetch q;
              if negb (node_delete_in c opn n) || negb (node_create_in c npn) then fail [p; new_parent] (- EACCES) else
              rename_into q old_parent np new_leaf
          end
      end
  end.

Definition vfs_rename_exchange (path1 path2 : list Z) : M Z :=
  if ns_mnt_path_readonly c path1 || ns_mnt_path_readonly c path2 then mret (- EROFS) else
  p1 ← lookup_nofollow path1;
  p2 ← lookup_nofollow path2;
  match p1, p2 with
  | Some q1, Some q2 =>
      n1 ← fetch q1;
      n2 ← fetch q2;
      match n_parent n1, n_parent n2 with
      | Some d1, Some d2 =>
          if (q1 =? q2)%nat then fail [p1; p2] 0 else
          dn1 ← fetch d1;
          dn2 ← fetch d2;
          if negb (node_delete_in c dn1 n1) || negb (node_delete_in c dn2 n2) || negb (node_create_in c dn1) || negb (node_create_in c dn2) then fail [p1; p2] (- EACCES) else
          dir_remove d1 q1;;
          dir_remove d2 q2;;
          modify q1 (set_name (n_name n2));;
          modify q2 (set_name (n_name n1));;
          dir_insert_nolock (ok_index ok) d2 q1;;
          dir_insert_nolock (ok_index ok) d1 q2;;
          fail [p1; p2] 0
      | _, _ => fail [p1; p2] (- ENOENT)
      end
  | _, _ => fail [p1; p2] (- ENOENT)
  end.

(** [kmalloc n] gives the block for a copy of [n] bytes. *)
Definition vfs_link (kmalloc : Z -> option (list Z)) (oldpath newpath : list Z) : M Z :=
  if ns_mnt_path_readonly c newpath then mret (- EROFS) else
  src ← lookup_follow oldpath;
  match src with
  | None => mret (- ENOENT)
  | Some q =>
      n ← fetch q;
      if bool_decide (n_type n = VFS_TYPE_DIR) then fail [src] (- EISDIR) else
      '(parent, leaf) ← find_parent newpath;
      match parent with
      | None => fail [src; parent] (- ENOENT)
      | Some d =>
          dn ← fetch d;
          if negb (bool_decide (n_type dn = VFS_TYPE_DIR)) then fail [src; parent] (- ENOENT) else
          if bool_decide (leaf = []) then fail [src; parent] (- EINVAL) else
          if negb (node_create_in c dn) then fail [src; parent] (- EACCES) else
          n ← fetch q;
          p ← node_alloc c (ok_node ok) leaf (n_type n) (n_mode n);
          match p with
          | None => fail [src; parent] (- ENOMEM)
          | Some p =>
              let copy :=
                match n_type n, n_symlink n with
                | VFS_TYPE_REG, _ => (fun f => (f, None)) <$> ram_link kmalloc (n_file n)
                | VFS_TYPE_SYM, Some l => if ok_data ok then Some (mkRfile None (blen l) 0, Some l) else None
                | _, _ => Some (mkRfile None (r_size (n_file n)) (r_capacity (n_file n)), None)
                end in
              match copy with
              | None => kfree p;; fail [src; parent] (- ENOMEM)
              | Some (f, l) =>
                  modify p (fun n => set_symlink l (set_file f n));;
                  e ← dir_find d leaf;
                  match e with
                  | Some _ => kfree p;; fail [src; parent] (- EEXIST)
                  | None => dir_insert_nolock (ok_index ok) d p;; fail [src; parent] 0
                  end
              end
          end
      end
  end.

(** ** Attributes *)

Definition vfs_chmod (path : list Z) (mode : Z) : M Z :=
  if ns_mnt_path_readonly c path then mret (- EROFS) else
  p ← lookup_follow path;
  match p with
  | None => mret (- ENOENT)
  | Some q =>
      n ← fetch q;
      if negb (may_change_mode (c_cred c) (perm_of n)) then fail [p] (- EPERM) else
      modify q (set_mode (Z.lor (Z.land (n_mode n) (u32 (Z.lnot 0xfff))) (mode_without_priv_bits (c_cred c) mode)));;
      fail [p] 0
  end.

Definition chown_node (p : nat) (uid gid : Z) : M Z :=
  n ← fetch p;
  if negb (may_change_owner (c_cred c)) then fail [Some p] (- EPERM) else
  modify p (fun n => set_mode (Z.land (n_mode n) (u32 (Z.lnot 0xc00))) (set_owner (if uid =? U32_MAX then n_uid n else uid) (if gid =? U32_MAX then n_gid n else gid) n));;
  fail [Some p] 0.

Definition vfs_chown (path : list Z) (uid gid : Z) : M Z :=
  if ns_mnt_path_readonly c path then mret (- EROFS) else
  p ← lookup_follow path;
  match p with None => mret (- ENOENT) | Some q => chown_node q uid gid end.

Definition vfs_lchown (path : list Z) (uid gid : Z) : M Z :=
  if ns_mnt_path_readonly c path then mret (- EROFS) else
  p ← lookup_nofollow path;
  match p with None => mret (- ENOENT) | Some q => chown_node q uid gid end.

Definition vfs_truncate (kmalloc : Z -> option (list Z)) (path : list Z) (len : Z) : M Z :=
  if ns_mnt_path_readonly c path then mret (- EROFS) else
  p ← lookup_follow path;
  match p with
  | None => mret (- ENOENT)
  | Some q =>
      n ← fetch q;
      if negb (bool_decide (n_type n = VFS_TYPE_REG)) then fail [p] (- EINVAL) else
      if negb (node_access c n 2) then fail [p] (- EACCES) else
      '(rc, f) ← lift (ram_truncate kmalloc (n_file n) len);
      modify q (set_file f);;
      fail [p] rc
  end.

Definition vfs_access (path : list Z) (mode : Z) : M Z :=
  if ztrue (Z.land mode (Z.lnot 7)) then mret (- EINVAL) else
  p ← lookup_follow path;
  match p with
  | None => mret (- ENOENT)
  | Some q =>
      if mode =? 0 then fail [p] 0 else
      n ← fetch q;
      if ztrue (Z.land mode 1) && negb (ztrue (Z.land (n_mode n) 0x49)) then fail [p] (- EACCES) else
      fail [p] (if node_access c n mode then 0 else - EACCES)
  end.

(** [readlink_common] on a link of the memory file system. *)
Definition readlink_common (path : list Z) (bufsz : Z) : M (Z * list Z) :=
  p ← lookup_nofollow path;
  match p with
  | None => mret (- ENOENT, [])
  | Some q =>
      n ← fetch q;
      if negb (bool_decide (n_type n = VFS_TYPE_SYM)) then node_unref p;; mret (- EINVAL, []) else
      l ← lift (n_symlink n);
      node_unref p;;
      let out := take (Z.to_nat bufsz) l in mret (blen out, out)
  end.
End ops.

(** Creates the directories of an absolute path that are missing; the kernel
    uses it before there are processes.  [oks] are the outcomes of the
    allocations. *)
Fixpoint mkdir_p_loop (fuel : nat) (c : caller) (ok : allocs) (cur : nat) (p : list Z) (mode : Z) : M (option nat) :=
  match fuel with
  | O => fun _ => None
  | S fuel =>
      match p with
      | [] => mret (Some cur)
      | _ =>
          let comp := take_while not_slash p in
          let p := skip_while (fun ch => ch =? ch_slash) (drop (length comp) p) in
          if bool_decide (comp = []) then mkdir_p_loop fuel c ok cur p mode else
          if 256 <=? blen comp then mret None else
          q ← node_alloc c (ok_node ok) comp VFS_TYPE_DIR (Z.lor mode S_IFDIR);
          match q with
          | None => mret None
          | Some q =>
              e ← dir_find cur comp;
              child ← (match e with
                       | None => dir_insert_nolock (ok_index ok) cur q;; mret q
                       | Some e => kfree q;; mret e
                       end : M nat);
              cn ← fetch child;
              if bool_decide (n_type cn = VFS_TYPE_DIR) then mkdir_p_loop fuel c ok child p mode else mret None
          end
      end
  end.

Definition vfs_mkdir_p (c : caller) (ok : allocs) (path : list Z) (mode : Z) : M (option nat) :=
  match path with
  | ch :: p => if ch =? ch_slash then root ← get_root; mkdir_p_loop (S (length p)) c ok root p mode else mret None
  | [] => mret None
  end.
