(* ===== verification/VfsTree.v ===== *)
(** * The invariant of the directory tree.

    Every child of a directory is a live node that points back to it, names in a
    directory are distinct, and the hash index agrees with the list of children.
    So [dir_find] is the lookup in a finite map from names to nodes, and the
    operations of [Vfs.v] on a directory change one entry of that map. *)

From S2P Require Import Prelude Bits Bytes KString Ns Jail Cred RamFile Vfs.

(** ** Running a computation *)

Definition upd (s : vfs) (m : gmap nat node) : vfs := mkVfs m (next_ptr s) (g_next_ino s) (g_root s).

Definition runs {X} (m : M X) (s : vfs) (Q : X -> vfs -> Prop) : Prop := match m s with Some (x, s') => Q x s' | None => False end.

Lemma runs_ret {X} (x : X) s (Q : X -> vfs -> Prop) : Q x s -> runs (mret x) s Q.
Proof. done. Qed.

Lemma runs_bind {X Y} (m : M X) (k : X -> M Y) s Q : runs m s (fun x s' => runs (k x) s' Q) -> runs (x ← m; k x) s Q.
Proof. unfold runs, mbind, M_bind. by destruct (m s) as [[x s']|]. Qed.

Lemma runs_mono {X} (m : M X) s (P Q : X -> vfs -> Prop) : runs m s P -> (forall x s', P x s' -> Q x s') -> runs m s Q.
Proof. unfold runs. destruct (m s) as [[x s']|]; [auto|done]. Qed.

Lemma runs_seq {X Y} (m : M X) (k : X -> M Y) s P Q : runs m s P -> (forall x s', P x s' -> runs (k x) s' Q) -> runs (x ← m; k x) s Q.
Proof. intros Hm Hk. apply runs_bind. by eapply runs_mono. Qed.

Lemma runs_eq {X} (m : M X) s Q : runs m s Q -> exists x s', m s = Some (x, s') /\ Q x s'.
Proof. unfold runs. destruct (m s) as [[x s']|]; [|done]. intros H. by exists x, s'. Qed.

Lemma runs_val {X} (m : M X) s x s' (Q : X -> vfs -> Prop) : m s = Some (x, s') -> Q x s' -> runs m s Q.
Proof. unfold runs. by intros ->. Qed.

Lemma runs_fetch {Y} p n (k : node -> M Y) s Q : nodes s !! p = Some n -> runs (k n) s Q -> runs (n ← fetch p; k n) s Q.
Proof. intros Hn Hk. apply runs_bind. unfold runs at 1, fetch. by rewrite Hn. Qed.

Lemma runs_modify {Y} p n f (k : unit -> M Y) s Q : nodes s !! p = Some n -> runs (k tt) (upd s (<[p := f n]> (nodes s))) Q -> runs (x ← modify p f; k x) s Q.
Proof. intros Hn Hk. apply runs_bind. unfold runs at 1, modify. by rewrite Hn. Qed.

Lemma runs_kfree {Y} p n (k : unit -> M Y) s Q : nodes s !! p = Some n -> runs (k tt) (upd s (delete p (nodes s))) Q -> runs (x ← kfree p; k x) s Q.
Proof. intros Hn Hk. apply runs_bind. unfold runs at 1, kfree. by rewrite Hn. Qed.

(** ** The invariant *)

Implicit Types m : gmap nat node.

Definition hash_of m (q : nat) : nat := dir_hash (default [] (n_name <$> m !! q)).

Definition index_ok m (n : node) : Prop :=
  match n_index n with
  | None => n_children n = []
  | Some b => length b = VFS_DIR_BUCKETS /\ forall h, (h < VFS_DIR_BUCKETS)%nat -> b !! h = Some (filter (fun q => hash_of m q = h) (n_children n))
  end.

Record tree_ok m : Prop := {
  t_child d n q : m !! d = Some n -> q ∈ n_children n -> exists c, m !! q = Some c /\ n_parent c = Some d /\ q <> d /\ n_deleted c = false;
  t_nodup d n : m !! d = Some n -> NoDup (n_children n);
  t_names d n q1 q2 : m !! d = Some n -> q1 ∈ n_children n -> q2 ∈ n_children n -> n_name <$> m !! q1 = n_name <$> m !! q2 -> q1 = q2;
  t_dir d n : m !! d = Some n -> n_children n <> [] -> n_type n = VFS_TYPE_DIR /\ n_deleted n = false;
  t_parent q c d : m !! q = Some c -> n_parent c = Some d -> d <> q -> exists n, m !! d = Some n /\ q ∈ n_children n;
  t_index d n : m !! d = Some n -> index_ok m n;
}.

(** The fields the invariant is about. *)
Definition shape (n : node) := (n_name n, n_type n, n_deleted n, n_children n, n_index n, n_parent n).

Definition same_shape m m' : Prop := forall p, shape <$> m' !! p = shape <$> m !! p.

Lemma shape_lookup m m' p n : same_shape m m' -> m' !! p = Some n -> exists n', m !! p = Some n' /\ shape n' = shape n.
Proof. intros H Hn. specialize (H p). rewrite Hn in H. destruct (m !! p) as [n'|]; [|done]. exists n'. split; [done|]. cbn in H. congruence. Qed.

Lemma shape_sym m m' : same_shape m m' -> same_shape m' m.
Proof. intros H p. symmetry. apply H. Qed.

Lemma shape_trans m1 m2 m3 : same_shape m1 m2 -> same_shape m2 m3 -> same_shape m1 m3.
Proof. intros H1 H2 p. by rewrite H2, H1. Qed.

Lemma shape_name m m' q : same_shape m m' -> n_name <$> m' !! q = n_name <$> m !! q.
Proof. intros H. specialize (H q). unfold shape in H. destruct (m !! q), (m' !! q); cbn in *; congruence. Qed.

Lemma filter_same {X} (P Q : X -> Prop) `{forall x, Decision (P x), forall x, Decision (Q x)} (l : list X) : (forall x, x ∈ l -> P x <-> Q x) -> filter P l = filter Q l.
Proof.
  induction l as [|x l IH]; intros Hl; [done|]. rewrite !filter_cons. assert (P x <-> Q x) by (apply Hl; left).
  rewrite IH by (intros y Hy; apply Hl; by right). destruct (decide (P x)), (decide (Q x)); tauto.
Qed.

Lemma tree_shape m m' : same_shape m m' -> tree_ok m -> tree_ok m'.
Proof.
  intros Hs [T1 T2 T3 T4 T5 T6]. assert (Hnm : forall q, n_name <$> m' !! q = n_name <$> m !! q) by (intros q; by apply shape_name).
  split.
  - intros d n q Hd Hq. destruct (shape_lookup _ _ _ _ Hs Hd) as (n' & Hn' & [= _ _ _ E _ _]). rewrite <-E in Hq. destruct (T1 d n' q Hn' Hq) as (c & Hc & H1 & H2 & H3).
    destruct (shape_lookup _ _ q c (shape_sym _ _ Hs) Hc) as (c' & Hc' & [= _ _ E1 _ _ E2]). exists c'. split; [done|]. split; [congruence|]. split; [done|congruence].
  - intros d n Hd. destruct (shape_lookup _ _ _ _ Hs Hd) as (n' & Hn' & [= _ _ _ E _ _]). rewrite <-E. by eapply T2.
  - intros d n q1 q2 Hd H1 H2 Hname. destruct (shape_lookup _ _ _ _ Hs Hd) as (n' & Hn' & [= _ _ _ E _ _]). rewrite <-E in H1, H2. apply (T3 d n'); try done. by rewrite <-!Hnm.
  - intros d n Hd Hne. destruct (shape_lookup _ _ _ _ Hs Hd) as (n' & Hn' & [= _ E1 E3 E _ _]). rewrite <-E1, <-E3. apply (T4 d n' Hn'). by rewrite E.
  - intros q c d Hq Hp Hne. destruct (shape_lookup _ _ _ _ Hs Hq) as (c' & Hc' & [= _ _ _ _ _ E]). rewrite <-E in Hp. destruct (T5 q c' d Hc' Hp Hne) as (n & Hn & Hin).
    destruct (shape_lookup _ _ d n (shape_sym _ _ Hs) Hn) as (n' & Hn' & [= _ _ _ E2 _ _]). exists n'. split; [done|]. by rewrite E2.
  - intros d n Hd. destruct (shape_lookup _ _ _ _ Hs Hd) as (n' & Hn' & [= _ _ _ E1 E2 _]). pose proof (T6 d n' Hn') as Hi. unfold index_ok in *. rewrite E2, E1 in Hi.
    destruct (n_index n) as [b|]; [|done]. destruct Hi as [Hl Hb]. split; [done|]. intros h Hh. rewrite (Hb h Hh). f_equal. apply filter_same. intros q _. unfold hash_of. by rewrite Hnm.
Qed.

(** ** The directory as a map *)

Definition named m (name : list Z) (q : nat) : Prop := n_name <$> m !! q = Some name.

#[export] Instance named_dec m name q : Decision (named m name q).
Proof. unfold named. solve_decision. Defined.

Definition entry m (d : nat) (name : list Z) : option nat := n ← m !! d; head (filter (named m name) (n_children n)).

Lemma head_Some {X} (l : list X) x : head l = Some x -> x ∈ l.
Proof. destruct l; [done|]. intros [= ->]. left. Qed.

Lemma entry_in m d name q : entry m d name = Some q -> exists n, m !! d = Some n /\ q ∈ n_children n /\ named m name q.
Proof.
  unfold entry. destruct (m !! d) as [n|]; [|done]. cbn [mbind option_bind]. intros H%head_Some%list_elem_of_filter. exists n. tauto.
Qed.

Lemma entry_Some m d name q n : tree_ok m -> m !! d = Some n -> q ∈ n_children n -> named m name q -> entry m d name = Some q.
Proof.
  intros T Hd Hq Hn. destruct (entry m d name) as [q'|] eqn:He.
  - apply entry_in in He as (n' & Hd' & Hq' & Hn'). assert (n' = n) as -> by congruence. f_equal. apply (t_names m T d n); try done. unfold named in *. congruence.
  - exfalso. unfold entry in He. rewrite Hd in He. cbn [mbind option_bind] in He. destruct (filter (named m name) (n_children n)) as [|x l] eqn:Hf; [|done].
    assert (Hin : q ∈ filter (named m name) (n_children n)) by (apply list_elem_of_filter; done). rewrite Hf in Hin. by apply not_elem_of_nil in Hin.
Qed.

Lemma entry_shape m m' d name : same_shape m m' -> entry m' d name = entry m d name.
Proof.
  intros H. unfold entry. pose proof (H d) as Hd. destruct (m !! d) as [n|], (m' !! d) as [n'|]; try done. injection Hd as _ _ _ E _ _. cbn [mbind option_bind]. rewrite E. f_equal.
  apply filter_same. intros q _. unfold named. by rewrite (shape_name m m').
Qed.

Lemma dir_hash_lt name : (dir_hash name < VFS_DIR_BUCKETS)%nat.
Proof.
  unfold dir_hash, VFS_DIR_BUCKETS. set (h := foldl _ _ _). change (Z.of_nat 64 - 1) with (Z.ones 6). rewrite Z.land_ones by lia. pose proof (Z.mod_pos_bound h (2 ^ 6) ltac:(lia)). lia.
Qed.

Lemma find_named_ok s name l : (forall q, q ∈ l -> is_Some (nodes s !! q)) -> find_named l name s = Some (head (filter (named (nodes s) name) l), s).
Proof.
  induction l as [|q l IH]; intros Hl; [done|]. cbn [find_named]. destruct (Hl q) as [n Hn]; [left|]. unfold mbind, M_bind, fetch. rewrite Hn. cbn [mbind option_bind].
  rewrite filter_cons. case_bool_decide as Hb.
  - rewrite decide_True by (unfold named; rewrite Hn; cbn; congruence). done.
  - rewrite decide_False by (unfold named; rewrite Hn; cbn; congruence). apply IH. intros x Hx. apply Hl. by right.
Qed.

Lemma dir_find_ok s d n name : tree_ok (nodes s) -> nodes s !! d = Some n -> dir_find d name s = Some (entry (nodes s) d name, s).
Proof.
  intros T Hd. unfold dir_find, mbind, M_bind, fetch. rewrite Hd. cbn [mbind option_bind]. unfold entry. rewrite Hd. cbn [mbind option_bind].
  assert (Hlive : forall q, q ∈ n_children n -> is_Some (nodes s !! q)) by (intros q Hq; destruct (t_child _ T d n q Hd Hq) as (c & Hc & _); by exists c).
  pose proof (t_index _ T d n Hd) as Hi. unfold index_ok in Hi. destruct (n_index n) as [b|]; [|by apply find_named_ok]. destruct Hi as [Hl Hb].
  unfold aget. rewrite (Hb _ (dir_hash_lt name)). cbn [from_option Datatypes.id]. rewrite find_named_ok.
  - rewrite list_filter_filter_l; [done|]. unfold named, hash_of. intros q ->. done.
  - intros q Hq%list_elem_of_filter. apply Hlive, Hq.
Qed.

Lemma runs_find {Y} d n name (k : option nat -> M Y) s Q :
  tree_ok (nodes s) -> nodes s !! d = Some n -> runs (k (entry (nodes s) d name)) s Q -> runs (e ← dir_find d name; k e) s Q.
Proof. intros T Hd Hk. apply runs_bind. eapply runs_val; [by eapply dir_find_ok|done]. Qed.

(** ** Inserting a node *)

Definition new_index (ok : bool) (dn : node) (h q : nat) : option (list (list nat)) :=
  (fun b => <[h := q :: aget [] b h]> b) <$> (match n_index dn with Some b => Some b | None => if ok then Some (replicate VFS_DIR_BUCKETS []) else None end).

Definition inserted (ok : bool) m (d : nat) (dn : node) (q : nat) (c : node) : gmap nat node :=
  <[d := set_entries (q :: n_children dn) (new_index ok dn (dir_hash (n_name c)) q) dn]> (<[q := set_parent (Some d) c]> m).

Lemma dir_insert_run ok s d dn q c :
  nodes s !! d = Some dn -> nodes s !! q = Some c -> d <> q -> dir_insert_nolock ok d q s = Some (tt, upd s (inserted ok (nodes s) d dn q c)).
Proof.
  intros Hd Hq Hne. unfold dir_insert_nolock, mbind, M_bind, modify, fetch. rewrite Hq. cbn [mbind option_bind nodes]. rewrite lookup_insert_ne by done. rewrite Hd. cbn [mbind option_bind nodes].
  rewrite lookup_insert_eq. cbn [mbind option_bind nodes n_name]. rewrite lookup_insert_ne by done. rewrite Hd. cbn [mbind option_bind nodes next_ptr g_next_ino g_root]. done.
Qed.

Section insert.
Context (ok : bool) m (d : nat) (dn : node) (q : nat) (c : node).
Context (T : tree_ok m) (Hd : m !! d = Some dn) (Hdir : n_type dn = VFS_TYPE_DIR) (Hlive : n_deleted dn = false) (Hq : m !! q = Some c) (Hp : n_parent c = None) (Hc : n_deleted c = false).
Context (Hne : d <> q) (Hfree : entry m d (n_name c) = None) (Hok : ok = true \/ n_index dn <> None).
Let m' := inserted ok m d dn q c.

Lemma inserted_dir : m' !! d = Some (set_entries (q :: n_children dn) (new_index ok dn (dir_hash (n_name c)) q) dn).
Proof. unfold m', inserted. apply lookup_insert_eq. Qed.

Lemma inserted_new : m' !! q = Some (set_parent (Some d) c).
Proof. unfold m', inserted. rewrite lookup_insert_ne by done. apply lookup_insert_eq. Qed.

Lemma inserted_other p : p <> d -> p <> q -> m' !! p = m !! p.
Proof. intros H1 H2. unfold m', inserted. by rewrite !lookup_insert_ne. Qed.

Lemma inserted_name p : n_name <$> m' !! p = n_name <$> m !! p.
Proof.
  destruct (decide (p = d)) as [->|H1]; [rewrite inserted_dir, Hd; done|]. destruct (decide (p = q)) as [->|H2]; [rewrite inserted_new, Hq; done|]. by rewrite inserted_other.
Qed.

Lemma inserted_hash p : hash_of m' p = hash_of m p.
Proof. unfold hash_of. by rewrite inserted_name. Qed.

Lemma inserted_fresh : q ∉ n_children dn.
Proof. intros Hin. destruct (t_child m T d dn q Hd Hin) as (c' & Hc' & Hpc & _). congruence. Qed.

(** Children of a node other than the new one. *)
Lemma inserted_children p n : m' !! p = Some n -> p = d /\ n_children n = q :: n_children dn \/ p <> d /\ exists n0, m !! p = Some n0 /\ n_children n0 = n_children n /\ n_index n0 = n_index n /\ n_type n0 = n_type n /\ n_deleted n0 = n_deleted n.
Proof.
  intros Hn. destruct (decide (p = d)) as [->|H1]; [rewrite inserted_dir in Hn; injection Hn as <-; by left|]. right. split; [done|].
  destruct (decide (p = q)) as [->|H2]; [rewrite inserted_new in Hn; injection Hn as <-; by exists c|]. rewrite inserted_other in Hn by done. by exists n.
Qed.

Lemma inserted_child d0 n0 p : m !! d0 = Some n0 -> p ∈ n_children n0 -> exists x, m' !! p = Some x /\ n_parent x = Some d0 /\ p <> d0 /\ n_deleted x = false.
Proof.
  intros H0 Hin. destruct (t_child m T d0 n0 p H0 Hin) as (x & Hx & H1 & H2 & H3). destruct (decide (p = d)) as [->|Hnd].
  - rewrite inserted_dir. eexists. split; [done|]. assert (x = dn) as -> by congruence. done.
  - assert (p <> q) by (intros ->; congruence). rewrite inserted_other by done. by exists x.
Qed.

Lemma inserted_index : index_ok m' (set_entries (q :: n_children dn) (new_index ok dn (dir_hash (n_name c)) q) dn).
Proof.
  unfold index_ok. cbn [n_index n_children set_entries]. unfold new_index. pose proof (t_index m T d dn Hd) as Hi. unfold index_ok in Hi.
  assert (Hb : exists b, (match n_index dn with Some b => Some b | None => if ok then Some (replicate VFS_DIR_BUCKETS []) else None end) = Some b /\ length b = VFS_DIR_BUCKETS /\
    forall h, (h < VFS_DIR_BUCKETS)%nat -> b !! h = Some (filter (fun x => hash_of m x = h) (n_children dn))).
  { destruct (n_index dn) as [b|]; [by exists b|]. destruct Hok as [->|]; [|done]. exists (replicate VFS_DIR_BUCKETS []). split; [done|]. split; [apply length_replicate|]. intros h Hh. rewrite Hi. by apply lookup_replicate. }
  destruct Hb as (b & -> & Hl & Hb). cbn [fmap option_fmap option_map]. split; [by rewrite length_insert|]. intros h Hh.
  assert (Hhq : hash_of m' q = dir_hash (n_name c)) by (rewrite inserted_hash; unfold hash_of; by rewrite Hq).
  assert (Hrest : filter (fun x => hash_of m' x = h) (n_children dn) = filter (fun x => hash_of m x = h) (n_children dn)) by (apply filter_same; intros x _; by rewrite inserted_hash).
  rewrite filter_cons, Hrest. destruct (decide (dir_hash (n_name c) = h)) as [He|Hn].
  - rewrite He, list_lookup_insert_eq by lia. rewrite decide_True by congruence. unfold aget. by rewrite (Hb h Hh).
  - rewrite list_lookup_insert_ne by done. rewrite decide_False by congruence. by apply Hb.
Qed.

Lemma insert_ok : tree_ok m'.
Proof.
  split.
  - intros p n x Hn Hx. destruct (inserted_children p n Hn) as [[-> Hch]|(Hpd & n0 & H0 & Hch & _)].
    + rewrite Hch in Hx. apply elem_of_cons in Hx as [->|Hx]; [exists (set_parent (Some d) c); split; [apply inserted_new|done]|]. by apply (inserted_child d dn).
    + rewrite <-Hch in Hx. by apply (inserted_child p n0).
  - intros p n Hn. destruct (inserted_children p n Hn) as [[-> Hch]|(Hpd & n0 & H0 & Hch & _)]; [|rewrite <-Hch; by eapply t_nodup]. rewrite Hch. apply NoDup_cons. split; [apply inserted_fresh|by eapply t_nodup].
  - intros p n x y Hn Hx Hy Hnm. rewrite !inserted_name in Hnm. destruct (inserted_children p n Hn) as [[-> Hch]|(Hpd & n0 & H0 & Hch & _)]; [|rewrite <-Hch in Hx, Hy; by apply (t_names m T p n0)].
    assert (Hno : forall z, z ∈ n_children dn -> n_name <$> m !! z <> n_name <$> m !! q).
    { intros z Hz He. rewrite Hq in He. pose proof (entry_Some m d (n_name c) z dn T Hd Hz He) as Hes. congruence. }
    rewrite Hch in Hx, Hy. apply elem_of_cons in Hx as [->|Hx], Hy as [->|Hy]; [done|by destruct (Hno y Hy)|by destruct (Hno x Hx)|by apply (t_names m T d dn)].
  - intros p n Hn Hnil. destruct (inserted_children p n Hn) as [[-> Hch]|(Hpd & n0 & H0 & Hch & _ & Hty & Hde)].
    + rewrite inserted_dir in Hn. injection Hn as <-. done.
    + rewrite <-Hty, <-Hde. apply (t_dir m T p n0 H0). by rewrite Hch.
  - intros p n x Hn Hpx Hxp. assert (Hold : forall n0, m !! p = Some n0 -> n_parent n0 = Some x -> exists n1, m' !! x = Some n1 /\ p ∈ n_children n1).
    { intros n0 H0 Hp0. destruct (t_parent m T p n0 x H0 Hp0 Hxp) as (n1 & H1 & Hin). destruct (decide (x = d)) as [->|Hxd].
      - rewrite inserted_dir. eexists. split; [done|]. cbn [n_children set_entries]. right. congruence.
      - destruct (decide (x = q)) as [->|Hxq]; [rewrite inserted_new; eexists; split; [done|]; assert (n1 = c) as -> by congruence; done|]. rewrite inserted_other by done. by exists n1. }
    destruct (decide (p = d)) as [->|Hpd]; [rewrite inserted_dir in Hn; injection Hn as <-; by apply (Hold dn)|].
    destruct (decide (p = q)) as [->|Hpq]; [|rewrite inserted_other in Hn by done; by apply (Hold n)]. rewrite inserted_new in Hn. injection Hn as <-. cbn in Hpx. injection Hpx as <-.
    rewrite inserted_dir. eexists. split; [done|]. left.
  - intros p n Hn. destruct (decide (p = d)) as [->|Hpd]; [rewrite inserted_dir in Hn; injection Hn as <-; apply inserted_index|].
    destruct (inserted_children p n Hn) as [[? _]|(_ & n0 & H0 & Hch & Hix & _)]; [done|]. pose proof (t_index m T p n0 H0) as Hi. unfold index_ok in *. rewrite Hix, Hch in Hi.
    destruct (n_index n) as [b|]; [|done]. destruct Hi as [Hl Hb]. split; [done|]. intros h Hh. rewrite (Hb h Hh). f_equal. apply filter_same. intros x _. by rewrite inserted_hash.
Qed.

(** The map gets one entry more. *)
Lemma insert_entry d0 name : entry m' d0 name = if decide (d0 = d /\ name = n_name c) then Some q else entry m d0 name.
Proof.
  assert (Hnm : forall x, named m' name x <-> named m name x) by (intros x; unfold named; by rewrite inserted_name).
  destruct (decide (d0 = d /\ name = n_name c)) as [[-> ->]|Hn].
  - apply (entry_Some m' d _ q _ insert_ok inserted_dir); [left|]. unfold named. rewrite inserted_name, Hq. done.
  - unfold entry. destruct (decide (d0 = d)) as [->|Hd0].
    + rewrite inserted_dir, Hd. cbn [mbind option_bind n_children set_entries]. rewrite filter_cons, decide_False.
      * f_equal. by apply filter_same.
      * rewrite Hnm. unfold named. rewrite Hq. cbn. intros [= <-]. by apply Hn.
    + assert (He : n_children <$> m' !! d0 = n_children <$> m !! d0) by (destruct (decide (d0 = q)) as [->|Hd0q]; [by rewrite inserted_new, Hq|by rewrite inserted_other]).
      destruct (m' !! d0) as [x|], (m !! d0) as [y|]; try done. cbn in He. injection He as He. cbn [mbind option_bind]. rewrite He. f_equal. by apply filter_same.
Qed.
End insert.

(** ** Removing a node *)

Definition without (q : nat) (l : list nat) : list nat := filter (fun x => x <> q) l.

Definition removed m (d : nat) (dn : node) (q : nat) (c : node) : gmap nat node :=
  let h := dir_hash (n_name c) in
  <[q := set_parent None c]> (<[d := set_entries (without q (n_children dn)) ((fun b => <[h := without q (aget [] b h)]> b) <$> n_index dn) dn]> m).

Lemma without_id q l : q ∉ l -> without q l = l.
Proof.
  unfold without. induction l as [|x l IH]; intros H; [done|]. apply not_elem_of_cons in H as [H1 H2]. rewrite filter_cons, decide_True by done. by rewrite IH.
Qed.

Lemma unlink_from_run s l q : NoDup l -> (forall x, x ∈ l -> is_Some (nodes s !! x)) -> unlink_from l q s = Some (without q l, s).
Proof.
  induction l as [|x l IH]; intros Hnd Hl; [done|]. apply NoDup_cons in Hnd as [Hx Hnd]. cbn [unlink_from]. unfold without. rewrite filter_cons. destruct (Nat.eqb_spec x q) as [->|Hne].
  - rewrite decide_False by tauto. pose proof (without_id q l Hx) as Hw. unfold without in Hw. by rewrite Hw.
  - rewrite decide_True by done. unfold mbind, M_bind, fetch. destruct (Hl x) as [n Hn]; [left|]. rewrite Hn. cbn [mbind option_bind]. rewrite IH; [done|done|]. intros y Hy. apply Hl. by right.
Qed.

Section remove.
Context m (d : nat) (dn : node) (q : nat) (c : node).
Context (T : tree_ok m) (Hd : m !! d = Some dn) (Hin : q ∈ n_children dn) (Hq : m !! q = Some c).
Let m' := removed m d dn q c.

Lemma removed_parent : n_parent c = Some d /\ q <> d /\ n_deleted c = false.
Proof. destruct (t_child m T d dn q Hd Hin) as (c' & Hc' & H). assert (c' = c) as -> by congruence. done. Qed.

Lemma removed_node : m' !! q = Some (set_parent None c).
Proof. unfold m', removed. apply lookup_insert_eq. Qed.

Lemma removed_dir : m' !! d = Some (set_entries (without q (n_children dn)) ((fun b => <[dir_hash (n_name c) := without q (aget [] b (dir_hash (n_name c)))]> b) <$> n_index dn) dn).
Proof. destruct removed_parent as (_ & Hne & _). unfold m', removed. cbv zeta. rewrite lookup_insert_ne by done. apply lookup_insert_eq. Qed.

Lemma removed_other p : p <> d -> p <> q -> m' !! p = m !! p.
Proof. intros H1 H2. unfold m', removed. cbv zeta. by rewrite !lookup_insert_ne. Qed.

Lemma removed_name p : n_name <$> m' !! p = n_name <$> m !! p.
Proof.
  destruct (decide (p = q)) as [->|H2]; [by rewrite removed_node, Hq|]. destruct (decide (p = d)) as [->|H1]; [by rewrite removed_dir, Hd|]. by rewrite removed_other.
Qed.

Lemma removed_hash p : hash_of m' p = hash_of m p.
Proof. unfold hash_of. by rewrite removed_name. Qed.

Lemma dir_remove_run s : nodes s = m -> dir_remove d q s = Some (tt, upd s m').
Proof.
  intros Hs. destruct removed_parent as (Hpar & Hne & _). unfold dir_remove. assert (Hlive : forall x, x ∈ n_children dn -> is_Some (nodes s !! x)).
  { intros x Hx. rewrite Hs. destruct (t_child m T d dn x Hd Hx) as (y & Hy & _). by exists y. }
  pose proof (t_nodup m T d dn Hd) as Hnd. pose proof (t_index m T d dn Hd) as Hix. unfold index_ok in Hix.
  unfold mbind, M_bind, fetch. rewrite Hs, Hd. cbn [mbind option_bind]. rewrite ?Hs, Hq. cbn [mbind option_bind]. rewrite (unlink_from_run s (n_children dn) q Hnd Hlive). unfold m', removed. cbv zeta.
  assert (Hfin : forall i, modify d (set_entries (without q (n_children dn)) i) s = Some (tt, upd s (<[d := set_entries (without q (n_children dn)) i dn]> m))) by (intros i; unfold modify; by rewrite Hs, Hd).
  assert (Hfin2 : forall n1, modify q (set_parent None) (upd s (<[d := n1]> m)) = Some (tt, upd s (<[q := set_parent None c]> (<[d := n1]> m)))).
  { intros n1. unfold modify, upd. cbn [nodes next_ptr g_next_ino g_root]. rewrite lookup_insert_ne by done. by rewrite Hq. }
  destruct (n_index dn) as [b|] eqn:Hb; cbn [fmap option_fmap option_map].
  - destruct Hix as [Hl Hbk]. unfold aget. rewrite (Hbk _ (dir_hash_lt (n_name c))). cbn [from_option Datatypes.id]. rewrite unlink_from_run.
    + cbn [mret M_ret]. unfold M_ret. rewrite Hfin. apply Hfin2.
    + by apply NoDup_filter.
    + intros x Hx%list_elem_of_filter. apply Hlive, Hx.
  - unfold mret, M_ret. rewrite Hfin. apply Hfin2.
Qed.

(** A node that keeps its children. *)
Lemma removed_children p n : m' !! p = Some n -> p = d /\ n_children n = without q (n_children dn) \/ p <> d /\ exists n0, m !! p = Some n0 /\ n_children n0 = n_children n /\ n_index n0 = n_index n /\ n_type n0 = n_type n /\ n_deleted n0 = n_deleted n.
Proof.
  intros Hn. destruct (decide (p = q)) as [->|H2].
  - destruct removed_parent as (_ & Hne & _). rewrite removed_node in Hn. injection Hn as <-. right. split; [done|]. by exists c.
  - destruct (decide (p = d)) as [->|H1]; [rewrite removed_dir in Hn; injection Hn as <-; by left|]. rewrite removed_other in Hn by done. right. split; [done|]. by exists n.
Qed.

Lemma removed_child d0 n0 p : m !! d0 = Some n0 -> p ∈ n_children n0 -> p <> q -> exists x, m' !! p = Some x /\ n_parent x = Some d0 /\ p <> d0 /\ n_deleted x = false.
Proof.
  intros H0 Hp Hpq. destruct (t_child m T d0 n0 p H0 Hp) as (x & Hx & H1 & H2 & H3). destruct (decide (p = d)) as [->|Hnd].
  - rewrite removed_dir. eexists. split; [done|]. assert (x = dn) as -> by congruence. done.
  - rewrite removed_other by done. by exists x.
Qed.

(** [q] is in no other directory. *)
Lemma only_parent d0 n0 : m !! d0 = Some n0 -> q ∈ n_children n0 -> d0 = d.
Proof. intros H0 Hq0. destruct (t_child m T d0 n0 q H0 Hq0) as (x & Hx & H1 & _). destruct removed_parent as (H2 & _). congruence. Qed.

Lemma removed_index : index_ok m' (set_entries (without q (n_children dn)) ((fun b => <[dir_hash (n_name c) := without q (aget [] b (dir_hash (n_name c)))]> b) <$> n_index dn) dn).
Proof.
  unfold index_ok. cbn [n_index n_children set_entries]. pose proof (t_index m T d dn Hd) as Hi. unfold index_ok in Hi. destruct (n_index dn) as [b|]; cbn [fmap option_fmap option_map]; [|by rewrite Hi].
  destruct Hi as [Hl Hb]. split; [by rewrite length_insert|]. intros h Hh.
  assert (Hhq : hash_of m q = dir_hash (n_name c)) by (unfold hash_of; by rewrite Hq).
  assert (Hf : filter (fun x => hash_of m' x = h) (without q (n_children dn)) = filter (fun x => hash_of m x = h) (without q (n_children dn))) by (apply filter_same; intros x _; by rewrite removed_hash).
  rewrite Hf. unfold without. rewrite list_filter_filter. destruct (decide (dir_hash (n_name c) = h)) as [He|Hn].
  - rewrite He, list_lookup_insert_eq by lia. unfold aget. rewrite (Hb h Hh). cbn [from_option Datatypes.id]. rewrite list_filter_filter. f_equal. apply filter_same. tauto.
  - rewrite list_lookup_insert_ne by done. rewrite (Hb h Hh). f_equal. apply filter_same. intros x _. split; [|tauto]. intros Hx. split; [done|]. intros ->. congruence.
Qed.

Lemma remove_ok : tree_ok m'.
Proof.
  destruct removed_parent as (Hpar & Hne & Hdel). split.
  - intros p n x Hn Hx. destruct (removed_children p n Hn) as [[-> Hch]|(Hpd & n0 & H0 & Hch & _)].
    + rewrite Hch in Hx. apply list_elem_of_filter in Hx as [Hxq Hx]. by apply (removed_child d dn).
    + rewrite <-Hch in Hx. apply (removed_child p n0 x H0 Hx). intros ->. by apply Hpd, (only_parent p n0).
  - intros p n Hn. destruct (removed_children p n Hn) as [[-> Hch]|(Hpd & n0 & H0 & Hch & _)]; [rewrite Hch; apply NoDup_filter|rewrite <-Hch]; by eapply t_nodup.
  - intros p n x y Hn Hx Hy Hnm. rewrite !removed_name in Hnm. destruct (removed_children p n Hn) as [[-> Hch]|(Hpd & n0 & H0 & Hch & _)].
    + rewrite Hch in Hx, Hy. apply list_elem_of_filter in Hx as [_ Hx], Hy as [_ Hy]. by apply (t_names m T d dn).
    + rewrite <-Hch in Hx, Hy. by apply (t_names m T p n0).
  - intros p n Hn Hnil. destruct (removed_children p n Hn) as [[-> Hch]|(Hpd & n0 & H0 & Hch & _ & Hty & Hde)].
    + rewrite removed_dir in Hn. injection Hn as <-. cbn [n_type n_deleted set_entries]. apply (t_dir m T d dn Hd). intros Hz. rewrite Hz in Hin. by apply not_elem_of_nil in Hin.
    + rewrite <-Hty, <-Hde. apply (t_dir m T p n0 H0). by rewrite Hch.
  - intros p n x Hn Hpx Hxp. destruct (decide (p = q)) as [->|Hpq]; [rewrite removed_node in Hn; by injection Hn as <-|].
    assert (Hold : exists n0, m !! p = Some n0 /\ n_parent n0 = Some x).
    { destruct (decide (p = d)) as [->|Hpd]; [rewrite removed_dir in Hn; injection Hn as <-; by exists dn|]. rewrite removed_other in Hn by done. by exists n. }
    destruct Hold as (n0 & H0 & Hp0). destruct (t_parent m T p n0 x H0 Hp0 Hxp) as (n1 & H1 & Hin1). destruct (decide (x = q)) as [->|Hxq].
    { rewrite removed_node. eexists. split; [done|]. cbn. assert (n1 = c) as -> by congruence. done. }
    destruct (decide (x = d)) as [->|Hxd]; [|rewrite removed_other by done; by exists n1]. rewrite removed_dir. eexists. split; [done|]. cbn [n_children set_entries].
    assert (n1 = dn) as -> by congruence. by apply list_elem_of_filter.
  - intros p n Hn. destruct (decide (p = d)) as [->|Hpd]; [rewrite removed_dir in Hn; injection Hn as <-; apply removed_index|].
    destruct (removed_children p n Hn) as [[? _]|(_ & n0 & H0 & Hch & Hix & _)]; [done|]. pose proof (t_index m T p n0 H0) as Hi. unfold index_ok in *. rewrite Hix, Hch in Hi.
    destruct (n_index n) as [b|]; [|done]. destruct Hi as [Hl Hb]. split; [done|]. intros h Hh. rewrite (Hb h Hh). f_equal. apply filter_same. intros x _. by rewrite removed_hash.
Qed.

(** The map loses the entry of [q]. *)
Lemma remove_entry d0 name : entry m' d0 name = if decide (d0 = d /\ name = n_name c) then None else entry m d0 name.
Proof.
  assert (Hnm : forall x, named m' name x <-> named m name x) by (intros x; unfold named; by rewrite removed_name). destruct removed_parent as (_ & Hne & _).
  destruct (decide (d0 = d /\ name = n_name c)) as [[-> ->]|Hn].
  - destruct (entry m' d (n_name c)) as [x|] eqn:He; [|done]. apply entry_in in He as (n & Hn & Hx & Hnx). rewrite removed_dir in Hn. injection Hn as <-.
    apply list_elem_of_filter in Hx as [Hxq Hx]. exfalso. apply Hxq, (t_names m T d dn); try done. rewrite Hq. apply Hnm in Hnx. exact Hnx.
  - unfold entry. destruct (decide (d0 = d)) as [->|Hd0].
    + rewrite removed_dir, Hd. cbn [mbind option_bind n_children set_entries]. f_equal. unfold without. rewrite list_filter_filter. apply filter_same. intros x Hx. rewrite Hnm. split; [tauto|]. intros Hnx. split; [done|].
      intros ->. unfold named in Hnx. rewrite Hq in Hnx. cbn in Hnx. injection Hnx as <-. by apply Hn.
    + assert (He : n_children <$> m' !! d0 = n_children <$> m !! d0) by (destruct (decide (d0 = q)) as [->|Hd0q]; [by rewrite removed_node, Hq|by rewrite removed_other]).
      destruct (m' !! d0) as [x|], (m !! d0) as [y|]; try done. cbn in He. injection He as He. cbn [mbind option_bind]. rewrite He. f_equal. by apply filter_same.
Qed.
End remove.

(** ** Nodes that are in no directory *)

Definition detached m (q : nat) : Prop := forall d n, m !! d = Some n -> q ∉ n_children n.

Lemma detached_parent m q c : tree_ok m -> m !! q = Some c -> n_parent c = None -> detached m q.
Proof. intros T Hq Hp d n Hd Hin. destruct (t_child m T d n q Hd Hin) as (c' & Hc' & Hpc & _). congruence. Qed.

Lemma detached_none m q : tree_ok m -> m !! q = None -> detached m q.
Proof. intros T Hq d n Hd Hin. destruct (t_child m T d n q Hd Hin) as (c & Hc & _). congruence. Qed.

Section replace.
Context m (q : nat) (c : node).
Context (T : tree_ok m) (Hdet : detached m q) (Hp : n_parent c = None) (Hch : n_children c = default [] (n_children <$> m !! q)) (Hix : n_index c = default None (n_index <$> m !! q)).
Context (Hdir : n_children c <> [] -> n_type c = VFS_TYPE_DIR /\ n_deleted c = false).

Lemma replace_name d n x : m !! d = Some n -> x ∈ n_children n -> (<[q := c]> m) !! x = m !! x.
Proof. intros Hd Hx. rewrite lookup_insert_ne; [done|]. intros ->. by apply (Hdet d n). Qed.

Lemma replace_old d n : (<[q := c]> m) !! d = Some n -> n_children n <> [] \/ n_index n <> None -> exists n0, m !! d = Some n0 /\ n_children n0 = n_children n /\ n_index n0 = n_index n.
Proof.
  intros Hd Hne. destruct (decide (d = q)) as [->|Hdq]; [|rewrite lookup_insert_ne in Hd by done; by exists n]. rewrite lookup_insert_eq in Hd. injection Hd as <-.
  destruct (m !! q) as [c0|]; [exists c0; cbn in *; done|]. cbn in Hch, Hix. destruct Hne; congruence.
Qed.

Lemma replace_filter d n (h : nat) : m !! d = Some n -> filter (fun x => hash_of (<[q := c]> m) x = h) (n_children n) = filter (fun x => hash_of m x = h) (n_children n).
Proof. intros Hd. apply filter_same. intros x Hx. unfold hash_of. by rewrite (replace_name d n x Hd Hx). Qed.

Lemma replace_ok : tree_ok (<[q := c]> m).
Proof.
  assert (Hcons : forall (l : list nat) x, x ∈ l -> l <> []) by (intros [|] x Hx; [by apply not_elem_of_nil in Hx|done]). split.
  - intros d n x Hd Hx. destruct (replace_old d n Hd) as (n0 & H0 & E & _); [left; by eapply Hcons|]. rewrite <-E in Hx. rewrite (replace_name d n0 x H0 Hx). by eapply t_child.
  - intros d n Hd. destruct (decide (n_children n = [])) as [->|Hne]; [constructor|]. destruct (replace_old d n Hd) as (n0 & H0 & E & _); [by left|]. rewrite <-E. by eapply t_nodup.
  - intros d n x y Hd Hx Hy. destruct (replace_old d n Hd) as (n0 & H0 & E & _); [left; by eapply Hcons|]. rewrite <-E in Hx, Hy. rewrite (replace_name d n0 x H0 Hx), (replace_name d n0 y H0 Hy). by apply (t_names m T d n0).
  - intros d n Hd Hne. destruct (decide (d = q)) as [->|Hdq]; [rewrite lookup_insert_eq in Hd; injection Hd as <-; auto|]. rewrite lookup_insert_ne in Hd by done. by eapply t_dir.
  - intros x n d Hx Hpar Hne. destruct (decide (x = q)) as [->|Hxq]; [rewrite lookup_insert_eq in Hx; injection Hx as <-; congruence|]. rewrite lookup_insert_ne in Hx by done.
    destruct (t_parent m T x n d Hx Hpar Hne) as (n0 & H0 & Hin). destruct (decide (d = q)) as [->|Hdq]; [|rewrite lookup_insert_ne by done; by exists n0].
    exists c. rewrite lookup_insert_eq. split; [done|]. rewrite Hch, H0. done.
  - intros d n Hd. unfold index_ok. destruct (decide (n_children n = [])) as [Hnil|Hne].
    + destruct (n_index n) as [b|] eqn:Hb; [|done]. destruct (replace_old d n Hd) as (n0 & H0 & E1 & E2); [right; congruence|]. pose proof (t_index m T d n0 H0) as Hi. unfold index_ok in Hi.
      rewrite E2, Hb, E1, Hnil in Hi. rewrite Hnil. exact Hi.
    + destruct (replace_old d n Hd) as (n0 & H0 & E1 & E2); [by left|]. pose proof (t_index m T d n0 H0) as Hi. unfold index_ok in Hi. rewrite <-E2, <-E1. destruct (n_index n0) as [b|]; [|done].
      destruct Hi as [Hl Hb]. split; [done|]. intros h Hh. by rewrite (replace_filter d n0 h H0), Hb.
Qed.

Lemma replace_entry d name : entry (<[q := c]> m) d name = entry m d name.
Proof.
  assert (Hf : forall n, m !! d = Some n -> filter (named (<[q := c]> m) name) (n_children n) = filter (named m name) (n_children n)).
  { intros n Hn. apply filter_same. intros x Hx. unfold named. by rewrite (replace_name d n x Hn Hx). }
  unfold entry. destruct (decide (d = q)) as [->|Hdq]; [|rewrite lookup_insert_ne by done; destruct (m !! d) as [n|]; [cbn; by rewrite Hf|done]].
  rewrite lookup_insert_eq. cbn [mbind option_bind]. rewrite Hch. destruct (m !! q) as [n|]; [cbn; by rewrite Hf|done].
Qed.
End replace.

Section free.
Context m (q : nat) (c : node).
Context (T : tree_ok m) (Hdet : detached m q) (Hq : m !! q = Some c) (Hch : n_children c = []).

Lemma free_other d n x : m !! d = Some n -> x ∈ n_children n -> delete q m !! x = m !! x.
Proof. intros Hd Hx. rewrite lookup_delete_ne; [done|]. intros ->. by apply (Hdet d n). Qed.

Lemma free_ok : tree_ok (delete q m).
Proof.
  assert (Hold : forall d n, delete q m !! d = Some n -> m !! d = Some n) by (intros d n [_ H]%lookup_delete_Some; done). split.
  - intros d n x Hd Hx. apply Hold in Hd. rewrite (free_other d n x Hd Hx). by eapply t_child.
  - intros d n Hd%Hold. by eapply t_nodup.
  - intros d n x y Hd%Hold Hx Hy. rewrite (free_other d n x Hd Hx), (free_other d n y Hd Hy). by apply (t_names m T d n).
  - intros d n Hd%Hold. by eapply t_dir.
  - intros x n d Hx%Hold Hpar Hne. destruct (t_parent m T x n d Hx Hpar Hne) as (n0 & H0 & Hin). exists n0. rewrite lookup_delete_ne; [done|]. intros ->.
    assert (n0 = c) as -> by congruence. rewrite Hch in Hin. by apply not_elem_of_nil in Hin.
  - intros d n Hd%Hold. pose proof (t_index m T d n Hd) as Hi. unfold index_ok in *. destruct (n_index n) as [b|]; [|done]. destruct Hi as [Hl Hb]. split; [done|]. intros h Hh. rewrite (Hb h Hh). f_equal.
    apply filter_same. intros x Hx. unfold hash_of. by rewrite (free_other d n x Hd Hx).
Qed.

Lemma free_entry d name : entry (delete q m) d name = entry m d name.
Proof.
  unfold entry. destruct (decide (d = q)) as [->|Hdq]; [rewrite lookup_delete_eq, Hq; cbn; by rewrite Hch|]. rewrite lookup_delete_ne by done. destruct (m !! d) as [n|] eqn:Hd; [|done]. cbn [mbind option_bind]. f_equal.
  apply filter_same. intros x Hx. unfold named. by rewrite (free_other d n x Hd Hx).
Qed.
End free.
