(* ===== verification/VfsLookup.v ===== *)
(** * Path lookup.

    [vfs_lookup] returns with a reference to the node it found, and changes
    nothing else.  The node can be reached from the root of the caller's mount
    namespace, or from the root of one of its mounts, through directories the
    caller may search: neither [..] nor a symbolic link leads out of a
    namespace.  A path of plain names leads to the node the names name. *)

From S2P Require Import Prelude Bits Bytes KString Ns Jail Cred RamFile Vfs VfsTree.

(** ** References held during an operation

    While an operation runs, the nodes it looked up have references more.  The
    state is written as the map of the nodes without them and the list of the
    references held. *)

Implicit Types m : gmap nat node.

Definition cnt (L : list nat) (p : nat) : Z := Z.of_nat (count_if (Nat.eqb p) L).
Definition held (L : list nat) (p : nat) (n : node) : node := set_refcnt (n_refcnt n + cnt L p) n.
Definition with_refs (L : list nat) m : gmap nat node := map_imap (fun p n => Some (held L p n)) m.
Definition st (s : vfs) (L : list nat) m : vfs := upd s (with_refs L m).

Definition refs_ok m : Prop := forall p n, m !! p = Some n -> 0 <= n_refcnt n < 2 ^ 32 - 8.

Lemma cnt_nonneg L p : 0 <= cnt L p.
Proof. unfold cnt. lia. Qed.

Lemma cnt_le L p : cnt L p <= Z.of_nat (length L).
Proof. unfold cnt. pose proof (count_if_le (Nat.eqb p) L). lia. Qed.

Lemma cnt_cons L q p : cnt (q :: L) p = (if (p =? q)%nat then 1 else 0) + cnt L p.
Proof. unfold cnt. cbn [count_if]. destruct (p =? q)%nat; lia. Qed.

Lemma cnt_nil p : cnt [] p = 0.
Proof. done. Qed.

Lemma lookup_refs L m p : with_refs L m !! p = held L p <$> m !! p.
Proof. unfold with_refs. rewrite map_lookup_imap. by destruct (m !! p). Qed.

Lemma st_lookup s L m p n : m !! p = Some n -> nodes (st s L m) !! p = Some (held L p n).
Proof. intros H. cbn [nodes st upd]. by rewrite lookup_refs, H. Qed.

Lemma held_nil p n : held [] p n = n.
Proof. unfold held. rewrite cnt_nil, Z.add_0_r. by destruct n. Qed.

Lemma with_refs_nil m : with_refs [] m = m.
Proof. apply map_eq. intros p. rewrite lookup_refs. destruct (m !! p) as [n|]; [|done]. cbn. by rewrite held_nil. Qed.

Lemma refs_shape L m : same_shape m (with_refs L m).
Proof. intros p. rewrite lookup_refs. by destruct (m !! p). Qed.

Lemma tree_refs L m : tree_ok m -> tree_ok (with_refs L m).
Proof. apply tree_shape, refs_shape. Qed.

Lemma with_refs_insert L m p n : with_refs L (<[p := n]> m) = <[p := held L p n]> (with_refs L m).
Proof.
  apply map_eq. intros q. rewrite lookup_refs. destruct (decide (q = p)) as [->|Hne]; [by rewrite !lookup_insert_eq|]. rewrite !lookup_insert_ne by done. by rewrite lookup_refs.
Qed.

Lemma with_refs_delete L m p : with_refs L (delete p m) = delete p (with_refs L m).
Proof.
  apply map_eq. intros q. rewrite lookup_refs. destruct (decide (q = p)) as [->|Hne]; [by rewrite !lookup_delete_eq|]. rewrite !lookup_delete_ne by done. by rewrite lookup_refs.
Qed.

Lemma with_refs_cons L m q n : m !! q = Some n -> with_refs (q :: L) m = <[q := set_refcnt (n_refcnt n + cnt L q + 1) n]> (with_refs L m).
Proof.
  intros Hq. apply map_eq. intros p. rewrite lookup_refs. destruct (decide (p = q)) as [->|Hne].
  - rewrite lookup_insert_eq, Hq. cbn. unfold held. rewrite cnt_cons, Nat.eqb_refl. do 2 f_equal. lia.
  - rewrite lookup_insert_ne, lookup_refs by done. destruct (m !! p); [|done]. cbn. unfold held. rewrite cnt_cons. destruct (Nat.eqb_spec p q); [done|]. do 3 f_equal.
Qed.

Lemma set_refcnt_twice a b n : set_refcnt a (set_refcnt b n) = set_refcnt a n.
Proof. done. Qed.

Section refs.
Context (s : vfs) (L : list nat) (m : gmap nat node).

Lemma runs_st_fetch {Y} p n (k : node -> M Y) Q : m !! p = Some n -> runs (k (held L p n)) (st s L m) Q -> runs (n ← fetch p; k n) (st s L m) Q.
Proof. intros Hp Hk. eapply runs_fetch; [by apply st_lookup|done]. Qed.

(** A change that does not depend on the reference count. *)
Definition blind (f : node -> node) : Prop := forall r n, f (set_refcnt r n) = set_refcnt r (f n) /\ n_refcnt (f n) = n_refcnt n.

Lemma runs_st_modify {Y} p n f (k : unit -> M Y) Q : m !! p = Some n -> blind f -> runs (k tt) (st s L (<[p := f n]> m)) Q -> runs (x ← modify p f; k x) (st s L m) Q.
Proof.
  intros Hp Hf Hk. eapply runs_modify; [by apply st_lookup|]. unfold st in Hk. rewrite with_refs_insert in Hk. unfold held in Hk |- *. destruct (Hf (n_refcnt n + cnt L p) n) as [-> E]. rewrite E in Hk. exact Hk.
Qed.

Lemma runs_st_kfree {Y} p n (k : unit -> M Y) Q : m !! p = Some n -> runs (k tt) (st s L (delete p m)) Q -> runs (x ← kfree p; k x) (st s L m) Q.
Proof. intros Hp Hk. eapply runs_kfree; [by apply st_lookup|]. unfold st in Hk. by rewrite with_refs_delete in Hk. Qed.

Lemma runs_st_find {Y} d n name (k : option nat -> M Y) Q : tree_ok m -> m !! d = Some n -> runs (k (entry m d name)) (st s L m) Q -> runs (e ← dir_find d name; k e) (st s L m) Q.
Proof.
  intros T Hd Hk. eapply runs_find; [by apply tree_refs|by apply st_lookup|]. cbn [nodes st upd]. by rewrite (entry_shape m (with_refs L m) _ _ (refs_shape L m)).
Qed.

Lemma lookup_ref_run q n : refs_ok m -> (length L < 8)%nat -> m !! q = Some n ->
  lookup_ref q (st s L m) = Some (if n_deleted n then (None, st s L m) else (Some q, st s (q :: L) m)).
Proof.
  intros Hr HL Hq. unfold lookup_ref, mbind, M_bind, fetch. rewrite (st_lookup s L m q n Hq). cbn [mbind option_bind n_deleted held set_refcnt]. destruct (n_deleted n); [done|].
  unfold modify. rewrite (st_lookup s L m q n Hq). cbn [mbind option_bind]. unfold mret, M_ret. do 2 f_equal. unfold st, upd. cbn [nodes next_ptr g_next_ino g_root]. f_equal. rewrite (with_refs_cons L m q n Hq). f_equal.
  unfold held. rewrite set_refcnt_twice. cbn [n_refcnt set_refcnt]. f_equal. unfold u32. apply Z.mod_small. pose proof (Hr q n Hq). pose proof (cnt_nonneg L q). pose proof (cnt_le L q). lia.
Qed.

(** Dropping a reference to a node that is not deleted. *)
Lemma unref_run q n : refs_ok m -> m !! q = Some n -> n_deleted n = false -> node_unref (Some q) (st s (q :: L) m) = Some (tt, st s L m).
Proof.
  intros Hr Hq Hd. unfold node_unref, mbind, M_bind, fetch. rewrite (st_lookup s (q :: L) m q n Hq). cbn [mbind option_bind n_refcnt n_deleted held set_refcnt]. rewrite Hd, andb_false_r.
  assert (Hc : cnt (q :: L) q = cnt L q + 1) by (rewrite cnt_cons, Nat.eqb_refl; lia). pose proof (Hr q n Hq). pose proof (cnt_nonneg L q). rewrite Hc. destruct (Z.eqb_spec (n_refcnt n + (cnt L q + 1)) 0); [lia|].
  unfold modify. rewrite (st_lookup s (q :: L) m q n Hq). cbn [mbind option_bind]. unfold mret, M_ret. do 2 f_equal. unfold st, upd. cbn [nodes next_ptr g_next_ino g_root]. f_equal.
  rewrite (with_refs_cons L m q n Hq), insert_insert_eq. apply map_eq. intros p. destruct (decide (p = q)) as [->|Hne]; [|by rewrite lookup_insert_ne].
  rewrite lookup_insert_eq, lookup_refs, Hq. cbn. unfold held. rewrite set_refcnt_twice. do 2 f_equal. lia.
Qed.
End refs.

(** ** Components of a path *)

Definition slash (ch : Z) : bool := ch =? ch_slash.
Definition rest_ok (p : list Z) : Prop := match p with [] => True | ch :: _ => ch <> ch_slash end.

Lemma skip_rest p : rest_ok (skip_while slash p).
Proof. induction p as [|ch p IH]; [done|]. cbn [skip_while]. unfold slash at 1. destruct (Z.eqb_spec ch ch_slash); [exact IH|done]. Qed.

Lemma skip_length p : (length (skip_while slash p) <= length p)%nat.
Proof. induction p as [|ch p IH]; [done|]. cbn [skip_while length]. destruct (slash ch); cbn [length]; lia. Qed.

Lemma take_while_length P p : (length (take_while P p) <= length p)%nat.
Proof. induction p as [|ch p IH]; [done|]. cbn [take_while length]. destruct (P ch); cbn [length]; lia. Qed.

Lemma rest_shorter ch p : ch <> ch_slash -> let comp := take_while not_slash (ch :: p) in (length (skip_while slash (drop (length comp) (ch :: p))) <= length p)%nat.
Proof.
  intros Hc. cbv zeta. cbn [take_while]. assert (E : not_slash ch = true) by (unfold not_slash; by rewrite (proj2 (Z.eqb_neq _ _) Hc)). rewrite E. cbn [length drop]. pose proof (skip_length (drop (length (take_while not_slash p)) p)).
  rewrite length_drop in *. lia.
Qed.

(** ** Lookup in a state of the tree *)

Section lookup.
Context (try_pid_dir : nat -> list Z -> vfs -> vfs) (Hhook : forall p comp s, try_pid_dir p comp s = s).
Context (c : caller) (s : vfs) (m : gmap nat node) (T : tree_ok m) (Hrefs : refs_ok m).

(** The directories lookup starts in. *)
Definition start : nat := default (g_root s) (mns_root (c_mnt c)).
Definition mounted (r : nat) : Prop := exists t f, Some (mkMount t (Some r) f) ∈ mns_mounts (c_mnt c).

Record roots_live : Prop := {
  rl_start : is_Some (m !! start);
  rl_mounts r : mounted r -> is_Some (m !! r);
}.
Context (Hroots : roots_live).

(** [q] is in directory [d], which the caller may search. *)
Definition edge (d q : nat) : Prop := exists n, m !! d = Some n /\ q ∈ n_children n /\ node_access c n 1 = true.
Definition reachable (q : nat) : Prop := exists b, (b = start \/ mounted b) /\ rtc edge b q.

Lemma parent_live q n d : m !! q = Some n -> n_parent n = Some d -> is_Some (m !! d).
Proof. intros Hq Hp. destruct (decide (d = q)) as [->|Hne]; [by exists n|]. destruct (t_parent m T q n d Hq Hp Hne) as (n' & Hn' & _). by exists n'. Qed.

(** A computation that reads the tree and does not depend on references. *)
Definition pure {X} (k : M X) (P : X -> Prop) : Prop := exists x, P x /\ forall L, k (st s L m) = Some (x, st s L m).

Lemma pure_ret {X} (x : X) (P : X -> Prop) : P x -> pure (mret x) P.
Proof. intros H. by exists x. Qed.

Lemma pure_bind {X Y} (k : M X) (f : X -> M Y) P Q : pure k P -> (forall x, P x -> pure (f x) Q) -> pure (x ← k; f x) Q.
Proof. intros (x & Hx & E) H. destruct (H x Hx) as (y & Hy & E'). exists y. split; [done|]. intros L. unfold mbind, M_bind. by rewrite E. Qed.

Lemma pure_mono {X} (k : M X) (P Q : X -> Prop) : pure k P -> (forall x, P x -> Q x) -> pure k Q.
Proof. intros (x & Hx & E) H. exists x. auto. Qed.

Lemma pure_fetch {Y} p n (f : node -> M Y) Q : m !! p = Some n -> (forall L, f (held L p n) = f n) -> pure (f n) Q -> pure (n ← fetch p; f n) Q.
Proof.
  intros Hp Hf (y & Hy & E). exists y. split; [done|]. intros L. unfold mbind, M_bind, fetch. rewrite (st_lookup s L m p n Hp). cbn [mbind option_bind]. by rewrite Hf.
Qed.

Lemma pure_find d n name : m !! d = Some n -> pure (dir_find d name) (fun e => e = entry m d name).
Proof.
  intros Hd. exists (entry m d name). split; [done|]. intros L. rewrite (dir_find_ok (st s L m) d (held L d n) name); [|by apply tree_refs|by apply st_lookup].
  cbn [nodes st upd]. by rewrite (entry_shape m (with_refs L m) _ _ (refs_shape L m)).
Qed.

Definition all_live (l : list nat) : Prop := Forall (fun q => is_Some (m !! q)) l.

Lemma ancestors_pure fuel cur : (forall q, cur = Some q -> is_Some (m !! q)) -> pure (ancestors fuel cur) (fun l => forall l', l = Some l' -> all_live l').
Proof.
  revert cur. induction fuel as [|fuel IH]; intros [q|] Hcur; cbn [ancestors]; try (apply pure_ret; intros l' [= <-]; constructor).
  - destruct (Hcur q eq_refl) as [n Hn]. eapply pure_fetch; [exact Hn|done|]. case_bool_decide; apply pure_ret; [|done]. intros l' [= <-]. constructor.
  - destruct (Hcur q eq_refl) as [n Hn]. eapply pure_fetch; [exact Hn|done|]. case_bool_decide; [apply pure_ret; intros l' [= <-]; constructor|].
    eapply pure_bind; [apply IH; intros d Hd; by eapply parent_live|]. intros l Hall. apply pure_ret. intros l' Hl'. destruct l as [l|]; [|done]. injection Hl' as <-. constructor; [by exists n|by apply Hall].
Qed.

Lemma path_of_pure sz l : forall buf, all_live l -> pure (path_of l buf sz) (fun _ => True).
Proof.
  induction l as [|q l IH]; intros buf Hl; cbn [path_of]; [by apply pure_ret|]. apply Forall_cons in Hl as [[n Hn] Hl]. eapply pure_fetch; [exact Hn|done|]. destruct (sz <=? _); [by apply pure_ret|by apply IH].
Qed.

Lemma node_path_pure q sz : is_Some (m !! q) -> pure (vfs_node_path q sz) (fun _ => True).
Proof.
  intros [n Hn]. unfold vfs_node_path. eapply pure_fetch; [exact Hn|done|]. case_bool_decide; [by apply pure_ret|].
  eapply pure_bind; [apply (ancestors_pure 127 (Some q)); intros x [= <-]; by exists n|]. intros [l|] Hall; [|by apply pure_ret]. apply path_of_pure. rewrite rev_alt. fold (reverse l). by apply Forall_reverse, Hall.
Qed.

Lemma link_path_pure d link p : is_Some (m !! d) -> pure (link_path c (Some d) link p) (fun _ => True).
Proof.
  intros Hd. unfold link_path. eapply (pure_bind _ _ (fun _ => True)); [|intros; by apply pure_ret]. case_bool_decide; [by apply pure_ret|].
  eapply (pure_bind _ _ (fun x => x = d)); [by exists d|]. intros x ->. eapply pure_bind; [by apply node_path_pure|]. intros; by apply pure_ret.
Qed.

Lemma ns_mnt_find_mounted t r f target : ns_mnt_find (c_mnt c) target = Some (mkMount t (Some r) f) -> mounted r.
Proof.
  unfold ns_mnt_find, mounted. intros H. enough (G : forall l acc, foldl (fun r (x : option mnt_mount) => match x with Some x => if bool_decide (m_target x = target) then Some x else r | None => r end) acc l = Some (mkMount t (Some r) f) ->
    acc = Some (mkMount t (Some r) f) \/ Some (mkMount t (Some r) f) ∈ l).
  { destruct (G _ _ H) as [?|?]; [done|]. by exists t, f. }
  clear H. intros l. induction l as [|x l IH]; intros acc H; [by left|]. cbn [foldl] in H. destruct (IH _ H) as [He|Hin]; [|right; by right]. destruct x as [x|]; [|by left]. case_bool_decide; [|by left]. injection He as ->. right. left.
Qed.

Lemma edge_live d q : edge d q -> is_Some (m !! q).
Proof. intros (n & Hn & Hin & _). destruct (t_child m T d n q Hn Hin) as (x & Hx & _). by exists x. Qed.

Lemma reachable_live q : reachable q -> is_Some (m !! q).
Proof. intros (b & Hb & Hr). destruct Hb as [->|Hb]; (apply rtc_inv_r in Hr as [<-|(d & _ & He)]; [|by eapply edge_live]); [by apply rl_start|by apply rl_mounts]. Qed.

(** [..] goes back along the last edge. *)
Lemma up_edge b q n : rtc edge b q -> q <> b -> m !! q = Some n -> exists d, n_parent n = Some d /\ rtc edge b d.
Proof.
  intros Hr Hne Hq. apply rtc_inv_r in Hr as [->|(d & Hr & dn & Hdn & Hin & _)]; [done|]. exists d. split; [|done]. destruct (t_child m T d dn q Hdn Hin) as (x & Hx & Hp & _). congruence.
Qed.

Lemma find_child_pure cur n comp : m !! cur = Some n -> pure (find_child try_pid_dir cur n comp) (fun e => e = entry m cur comp).
Proof.
  intros Hcur. eapply pure_bind; [by eapply pure_find|]. intros e ->. destruct (entry m cur comp) as [q|] eqn:Ee; [by apply pure_ret|]. eapply (pure_bind _ _ (fun _ => True)); [by exists (g_root s)|]. intros root _.
  eapply (pure_bind _ _ (fun _ => True)); [destruct (_ && _); [exists tt; split; [done|]; intros L; by rewrite Hhook|by apply pure_ret]|]. intros [] _. rewrite <- Ee. by eapply pure_find.
Qed.

Lemma child_edge cur n comp q : m !! cur = Some n -> node_access c n 1 = true -> entry m cur comp = Some q -> edge cur q /\ exists cn, m !! q = Some cn /\ n_parent cn = Some cur.
Proof.
  intros Hn Ha Ee. destruct (entry_in _ _ _ _ Ee) as (n' & Hn' & Hin & _). assert (n' = n) as -> by congruence. split; [by exists n|]. destruct (t_child m T cur n q Hn Hin) as (cn & Hcn & Hp & _). by exists cn.
Qed.

(** What the loop over the components returns. *)
Definition confined (w : walked) : Prop := match w with Found q => reachable q | _ => True end.

Lemma walk_pure fl : forall fuel cur b cp p, (b = start \/ mounted b) -> rtc edge b cur -> rest_ok p -> (length p < fuel)%nat -> pure (walk try_pid_dir c fuel fl cur b cp p) confined.
Proof.
  induction fuel as [|fuel IH]; intros cur b cp p Hb Hr Hp Hf; [lia|]. cbn [walk]. assert (Hre : reachable cur) by (by exists b). destruct (reachable_live cur Hre) as [n Hn].
  destruct p as [|ch p]; [by apply pure_ret|]. pose proof (rest_shorter ch p Hp) as Hsh. cbv zeta in Hsh. cbn [length] in Hf. set (comp := take_while not_slash (ch :: p)) in *. set (p' := skip_while _ (drop (length comp) (ch :: p))).
  assert (Hp' : rest_ok p') by apply skip_rest. assert (Hf' : (length p' < fuel)%nat) by (eapply Nat.le_lt_trans; [exact Hsh|lia]). clearbody p'.
  case_bool_decide; [by apply IH|]. case_bool_decide.
  { destruct (Nat.eqb_spec cur b) as [|Hne]; [by apply IH|]. eapply pure_fetch; [exact Hn|done|]. destruct (up_edge b cur n Hr Hne Hn) as (d & Hd & Hrd). rewrite Hd. by apply IH. }
  destruct (256 <=? blen comp); [by apply pure_ret|]. eapply pure_fetch; [exact Hn|done|]. destruct (negb (bool_decide _)); [by apply pure_ret|].
  destruct (node_access c n 1) eqn:Ha; [|by apply pure_ret]. cbn [negb]. eapply pure_bind; [by apply find_child_pure|]. intros e ->. destruct (entry m cur comp) as [q|] eqn:Ee; [|by apply pure_ret].
  destruct (child_edge cur n comp q Hn Ha Ee) as (He & cn & Hcn & Hpar). eapply pure_fetch; [exact Hcn|done|]. destruct (bool_decide _ && _).
  - destruct (n_symlink cn) as [l|]; [|by apply pure_ret]. rewrite Hpar. eapply pure_bind; [apply link_path_pure; by exists n|]. intros [r|] _; by apply pure_ret.
  - destruct (lookup_path_push cp 512 comp) as [cand|]; [|by apply pure_ret]. assert (Hrq : rtc edge b q) by (by eapply rtc_r).
    destruct (ns_mnt_find (c_mnt c) cand) as [[t [r|] f]|] eqn:Em; [|by apply IH|by apply IH]. apply IH; [right; by eapply ns_mnt_find_mounted|apply rtc_refl|done|done].
Qed.

Definition more (r : option nat) (L : list nat) : list nat := match r with Some q => q :: L | None => L end.

(** The node found, whatever references are held, with one reference more. *)
Definition gives (k : M (option nat)) (r : option nat) : Prop := forall L, (length L < 8)%nat -> k (st s L m) = Some (r, st s (more r L) m).
Definition good (r : option nat) : Prop := forall q, r = Some q -> reachable q /\ exists n, m !! q = Some n /\ n_deleted n = false.

Lemma lookup_ref_gives q n : m !! q = Some n -> gives (lookup_ref q) (if n_deleted n then None else Some q).
Proof. intros Hn L HL. rewrite (lookup_ref_run s L m q n Hrefs HL Hn). by destruct (n_deleted n). Qed.

Lemma lookup_ref_good q : reachable q -> exists r, gives (lookup_ref q) r /\ good r.
Proof.
  intros Hq. destruct (reachable_live q Hq) as [n Hn]. eexists. split; [by eapply lookup_ref_gives|]. destruct (n_deleted n) eqn:Ed; [done|]. intros x [= <-]. split; [done|]. by exists n.
Qed.

Lemma gives_bind {X} (k : M X) (f : X -> M (option nat)) P : pure k P -> (forall x, P x -> exists r, gives (f x) r /\ good r) -> exists r, gives (x ← k; f x) r /\ good r.
Proof. intros (x & Hx & E) H. destruct (H x Hx) as (r & Hr & Hg). exists r. split; [|done]. intros L HL. unfold mbind, M_bind. rewrite E. by apply Hr. Qed.

Lemma lookup_internal_good k : forall path fl, exists r, gives (lookup_internal try_pid_dir c k path fl) r /\ good r.
Proof.
  induction k as [|k IH]; intros [|ch path] fl; cbn [lookup_internal]; try by exists None. destruct (ch =? ch_slash) eqn:Ec; [|destruct (512 <=? _); [by exists None|apply IH]].
  eapply (gives_bind _ _ (fun x => x = g_root s)); [by exists (g_root s)|]. intros root ->. fold start. assert (Hs : reachable start) by (exists start; split; [by left|apply rtc_refl]).
  pose proof (skip_rest (ch :: path)) as Hrest. unfold slash in Hrest. destruct (skip_while _ (ch :: path)) as [|ch' p]; [by apply lookup_ref_good|].
  eapply gives_bind; [apply walk_pure; [by left|apply rtc_refl|done|lia]|]. intros [q| |p'] Hw; [by apply lookup_ref_good|by exists None|apply IH].
Qed.

(** ** Paths of plain names *)

(** A name that is a component of a path and none of the special ones. *)
Definition plain (x : list Z) : Prop := x <> [] /\ (ch_slash ∉ x) /\ x <> dot /\ x <> dotdot /\ blen x < 256.

Definition flat (names : list (list Z)) : list Z := flat_map (cons ch_slash) names.
Definition abs_path (names : list (list Z)) : list Z := match names with [] => [ch_slash] | _ => flat names end.

Definition mount_root (names : list (list Z)) : option nat := mt ← ns_mnt_find (c_mnt c) (abs_path names); m_root mt.

Inductive resolved := Hit (q : nat) | Miss | Symlink.

(** Resolution by name, on the map of entries: [pre] are the names so far. *)
Fixpoint resolve (fl : bool) (cur : nat) (pre names : list (list Z)) : resolved :=
  match names with
  | [] => Hit cur
  | x :: names =>
      match m !! cur with
      | None => Miss
      | Some n =>
          if bool_decide (n_type n = VFS_TYPE_DIR) && node_access c n 1 then
            match entry m cur x with
            | None => Miss
            | Some q =>
                if bool_decide (n_type <$> m !! q = Some VFS_TYPE_SYM) && (fl || negb (bool_decide (names = []))) then Symlink
                else resolve fl (default q (mount_root (pre ++ [x]))) (pre ++ [x]) names
            end
          else Miss
      end
  end.

Lemma flat_cons x names : flat (x :: names) = ch_slash :: x ++ flat names.
Proof. done. Qed.

Lemma flat_app l1 l2 : flat (l1 ++ l2) = flat l1 ++ flat l2.
Proof. apply flat_map_app. Qed.

Lemma take_plain x names : ch_slash ∉ x -> take_while not_slash (x ++ flat names) = x.
Proof.
  induction x as [|ch x IH]; intros Hx; [by destruct names|]. apply not_elem_of_cons in Hx as [Hc Hx]. cbn [app take_while]. unfold not_slash at 1. rewrite (proj2 (Z.eqb_neq _ _)) by congruence. cbn [negb]. by rewrite IH.
Qed.

Lemma skip_flat names : Forall plain names -> skip_while slash (flat names) = drop 1 (flat names).
Proof.
  intros Hn. destruct names as [|x names]; [done|]. apply Forall_cons in Hn as [(Hx & Hs & _) _]. cbn [flat flat_map app drop skip_while]. unfold slash at 1. rewrite Z.eqb_refl.
  destruct x as [|ch x]; [done|]. cbn [app skip_while]. unfold slash at 1. apply not_elem_of_cons in Hs as [Hs _]. by rewrite (proj2 (Z.eqb_neq _ _)) by congruence.
Qed.

Lemma push_path pre x : Forall plain pre -> blen (flat pre) + 1 + blen x < 511 -> lookup_path_push (abs_path pre) 512 x = Some (abs_path (pre ++ [x])).
Proof.
  intros Hp Hl. unfold lookup_path_push. assert (Hb : blen (abs_path pre) <= blen (flat pre) + 1) by (destruct pre; [done|]; unfold abs_path; lia).
  destruct (Z.leb_spec 512 (blen (abs_path pre) + 1 + blen x)); [lia|]. f_equal. destruct pre as [|y pre]; [cbn; by rewrite app_nil_r|]. apply Forall_cons in Hp as [(Hy & _) _]. cbn [app]. unfold abs_path. rewrite app_comm_cons, flat_app.
  assert (1 < blen (flat (y :: pre))) by (destruct y; [done|]; unfold flat, blen; cbn [flat_map app length]; lia). destruct (Z.ltb_spec 1 (blen (flat (y :: pre)))); [|lia]. rewrite <- app_assoc. cbn [flat flat_map app]. by rewrite app_nil_r.
Qed.

Definition as_resolved (r : resolved) (w : walked) : Prop := match r with Hit q => w = Found q | Miss => w = NotFound | Symlink => True end.

Lemma drop_flat names : Forall plain names -> drop 1 (flat names) = [] <-> names = [].
Proof. intros Hn. destruct names as [|y names]; [done|]. apply Forall_cons in Hn as [(Hy & _) _]. split; [|done]. by destruct y. Qed.

Lemma names_pure fl : forall names fuel cur b pre, reachable cur -> Forall plain pre -> Forall plain names -> blen (flat pre) + blen (flat names) < 511 -> (length (drop 1 (flat names)) < fuel)%nat ->
  pure (walk try_pid_dir c fuel fl cur b (abs_path pre) (drop 1 (flat names))) (as_resolved (resolve fl cur pre names)).
Proof.
  intros names. induction names as [|x names IH]; intros [|fuel] cur b pre Hre Hpre Hn Hl Hf; [cbn in Hf; lia|by apply pure_ret|lia|]. destruct (reachable_live cur Hre) as [n Hcur].
  apply Forall_cons in Hn as [Hx Hn]. pose proof Hx as (Hxn & Hs & Hd & Hdd & Hxl). rewrite flat_cons in *. change (drop 1 (ch_slash :: x ++ flat names)) with (x ++ flat names) in *. rewrite length_app in Hf.
  assert (Hf' : (length (drop 1 (flat names)) < fuel)%nat) by (rewrite length_drop; destruct x; [done|]; cbn [length] in Hf; lia). clear Hf.
  assert (Hl1 : blen (flat pre) + (1 + blen x + blen (flat names)) < 511) by (revert Hl; unfold blen; cbn [length]; rewrite length_app; lia). clear Hl.
  cbn [walk]. destruct (x ++ flat names) as [|ch p] eqn:Ep; [by destruct x|]. rewrite <- Ep. rewrite (take_plain x names Hs). clear ch p Ep.
  rewrite drop_app_length. change (fun ch => ch =? ch_slash) with slash. rewrite (skip_flat names Hn). cbn [resolve]. rewrite Hcur. rewrite (bool_decide_false _ Hd), (bool_decide_false _ Hdd). destruct (Z.leb_spec 256 (blen x)); [lia|].
  eapply pure_fetch; [exact Hcur|done|]. destruct (bool_decide (n_type n = VFS_TYPE_DIR)) eqn:Et; [|by apply pure_ret]. destruct (node_access c n 1) eqn:Ha; [|by apply pure_ret]. cbn [negb andb].
  eapply pure_bind; [by apply find_child_pure|]. intros e ->. destruct (entry m cur x) as [q|] eqn:Ee; [|by apply pure_ret]. destruct (child_edge cur n x q Hcur Ha Ee) as (He & cn & Hcn & Hpar).
  eapply pure_fetch; [exact Hcn|done|]. rewrite Hcn. cbn [fmap option_fmap option_map]. rewrite (bool_decide_ext _ _ (drop_flat names Hn)). rewrite (bool_decide_ext (Some (n_type cn) = Some VFS_TYPE_SYM) (n_type cn = VFS_TYPE_SYM)) by (split; congruence).
  destruct (bool_decide (n_type cn = VFS_TYPE_SYM) && _).
  - destruct (n_symlink cn) as [l|]; [|by apply pure_ret]. rewrite Hpar. eapply pure_bind; [apply link_path_pure; by exists n|]. intros; by apply pure_ret.
  - rewrite push_path; [|done|unfold blen in *; lia]. unfold mount_root. assert (Hb : reachable q) by (destruct Hre as (b' & Hb' & Hr'); exists b'; split; [done|by eapply rtc_r]).
    assert (Hpre' : Forall plain (pre ++ [x])) by (apply Forall_app; split; [done|by repeat constructor]).
    assert (Hl' : blen (flat (pre ++ [x])) + blen (flat names) < 511) by (rewrite flat_app; unfold blen in *; rewrite length_app; cbn [flat flat_map app length]; rewrite app_nil_r; lia).
    destruct (ns_mnt_find (c_mnt c) _) as [[t [r|] f]|] eqn:Em; cbn [mbind option_bind m_root default from_option]; apply IH; try done; try lia.
    exists r. split; [right; by eapply ns_mnt_find_mounted|apply rtc_refl].
Qed.

Lemma lookup_names_gives k fl names : Forall plain names -> blen (flat names) < 511 ->
  match resolve fl start [] names with
  | Symlink => True
  | Hit q => n_deleted <$> m !! q = Some false -> gives (lookup_internal try_pid_dir c (S k) (abs_path names) fl) (Some q)
  | Miss => gives (lookup_internal try_pid_dir c (S k) (abs_path names) fl) None
  end.
Proof.
  intros Hn Hl. assert (Hs : reachable start) by (exists start; split; [by left|apply rtc_refl]).
  assert (Href : forall q, n_deleted <$> m !! q = Some false -> gives (lookup_ref q) (Some q)).
  { intros q Hq. destruct (m !! q) as [n|] eqn:En; [|done]. pose proof (lookup_ref_gives q n En) as H. injection Hq as Hq. by rewrite Hq in H. }
  destruct names as [|x names]; [exact (Href start)|]. assert (Hp : exists ch p, drop 1 (flat (x :: names)) = ch :: p).
  { destruct (drop 1 (flat (x :: names))) as [|ch p] eqn:E; [|by exists ch, p]. by apply drop_flat in E. }
  destruct Hp as (ch & p & Ep). destruct (names_pure fl (x :: names) (S (length (ch :: p))) start start [] Hs (List.Forall_nil _) Hn Hl) as (w & Hw & E); [rewrite Ep; lia|].
  change (abs_path []) with [ch_slash] in E. rewrite Ep in E.
  assert (Hk : forall L, lookup_internal try_pid_dir c (S k) (abs_path (x :: names)) fl (st s L m) = match w with Found q => lookup_ref q (st s L m) | NotFound => Some (None, st s L m) | Link p => lookup_internal try_pid_dir c k p true (st s L m) end).
  { intros L. pose proof (skip_flat _ Hn) as Hsk. unfold slash in Hsk. rewrite Ep in Hsk. cbn [abs_path]. rewrite flat_cons in Hsk |- *. cbn [lookup_internal]. rewrite Z.eqb_refl. rewrite Hsk. unfold get_root. unfold mbind at 1, M_bind at 1.
    change (g_root (st s L m)) with (g_root s). fold start. unfold mbind, M_bind. rewrite E. by destruct w. }
  destruct (resolve fl start [] (x :: names)) as [q| |]; [|intros L HL; rewrite Hk; cbn in Hw; by subst w|done]. intros Hq L HL. rewrite Hk. cbn in Hw. subst w. by apply Href.
Qed.
End lookup.

Lemma st_nil s : st s [] (nodes s) = s.
Proof. unfold st, upd. rewrite with_refs_nil. by destruct s. Qed.


(** a path of plain names leads where the names say.  The path written from
    names that are not empty, not [.] or [..], without slash and shorter than
    256 bytes, in all shorter than 511, is looked up by taking from the root of
    the namespace the entry of each name in turn, and the mounted root where
    something is mounted on the path so far.  It fails exactly if an entry is
    missing, or lies in something that is not a directory, or in a directory the
    caller may not search. *)
Theorem lookup_names try_pid_dir c s names fl
  (Hhook : forall p comp s, try_pid_dir p comp s = s) (T : tree_ok (nodes s)) (Hrefs : refs_ok (nodes s)) (Hroots : roots_live c s (nodes s))
  (Hn : Forall plain names) (Hl : blen (flat names) < 511) :
  match resolve c (nodes s) fl (start c s) [] names with
  | Hit q => n_deleted <$> nodes s !! q = Some false -> lookup_internal try_pid_dir c 33 (abs_path names) fl s = Some (Some q, st s [q] (nodes s))
  | Miss => lookup_internal try_pid_dir c 33 (abs_path names) fl s = Some (None, s)
  | Symlink => True
  end.
Proof.
  pose proof (lookup_names_gives try_pid_dir Hhook c s (nodes s) T Hrefs Hroots 32 fl names Hn Hl) as H. assert (H8 : (length (@nil nat) < 8)%nat) by (cbn; lia).
  destruct (resolve _ _ _ _ _ _) as [q| |]; [intros Hq; specialize (H Hq [] H8)|specialize (H [] H8)|done]; cbn [more] in H; rewrite !st_nil in H; exact H.
Qed.

(** ** A small tree *)

Definition demo_node (name : list Z) (type : vfs_type) : node := mkNode name type 0x1ed 0 0 1 0 false new_file [] None None None.
Definition demo_root : node := set_parent (Some 0%nat) (demo_node [ch_slash] VFS_TYPE_DIR).

Lemma demo_root_ok r : n_parent r = Some 0%nat -> n_children r = [] -> n_index r = None -> tree_ok {[ 0%nat := r ]}.
Proof.
  intros Hp Hc Hi. split.
  - intros d n q Hd Hin. apply lookup_singleton_Some in Hd as [<- <-]. rewrite Hc in Hin. by inversion Hin.
  - intros d n Hd. apply lookup_singleton_Some in Hd as [<- <-]. rewrite Hc. constructor.
  - intros d n q1 q2 Hd Hin. apply lookup_singleton_Some in Hd as [<- <-]. rewrite Hc in Hin. by inversion Hin.
  - intros d n Hd Hne. apply lookup_singleton_Some in Hd as [<- <-]. by rewrite Hc in Hne.
  - intros q x d Hq Hd Hne. apply lookup_singleton_Some in Hq as [<- <-]. congruence.
  - intros d n Hd. apply lookup_singleton_Some in Hd as [<- <-]. unfold index_ok. rewrite Hi. by rewrite ?Hc.
Qed.

(** [/usr], a directory, and [/usr/lib], a symbolic link to [.]. *)
Definition n_usr : list Z := [117; 115; 114].
Definition n_lib : list Z := [108; 105; 98].
Definition demo_usr : node := demo_node n_usr VFS_TYPE_DIR.
Definition demo_lib : node := set_symlink (Some dot) (demo_node n_lib VFS_TYPE_SYM).
Definition demo_m0 : gmap nat node := <[1%nat := demo_usr]> {[ 0%nat := demo_root ]}.
Definition demo_m1 : gmap nat node := inserted true demo_m0 0 demo_root 1 demo_usr.
Definition demo_usr1 : node := set_parent (Some 0%nat) demo_usr.
Definition demo_m2 : gmap nat node := <[2%nat := demo_lib]> demo_m1.
Definition demo_m3 : gmap nat node := inserted true demo_m2 1 demo_usr1 2 demo_lib.
Definition demo_vfs : vfs := mkVfs demo_m3 3 4 0.
Definition demo_caller : caller := mkCaller None 0x12 [ch_slash] [] (mkMnt None 0 [None]).
Definition no_hook (_ : nat) (_ : list Z) (s : vfs) : vfs := s.

Lemma demo_tree : tree_ok demo_m3.
Proof.
  assert (T0 : tree_ok demo_m0) by (apply replace_ok; [by apply demo_root_ok|apply detached_none; [by apply demo_root_ok|done]|done|done|done|done]).
  assert (T1 : tree_ok demo_m1) by (apply insert_ok; try done; by left).
  assert (T2 : tree_ok demo_m2) by (apply replace_ok; [done|by apply detached_none|done|done|done|done]).
  apply insert_ok; try done; by left.
Qed.

Lemma demo_refs : refs_ok demo_m3.
Proof.
  intros p n Hp. assert (Hall : map_Forall (fun _ n => n_refcnt n = 0) demo_m3) by (refine (bool_decide_unpack _ _); vm_compute; exact I). rewrite (Hall p n Hp). lia.
Qed.

Lemma demo_roots : roots_live demo_caller demo_vfs demo_m3.
Proof. split; [by eexists|]. intros r (t & f & Hin). by apply list_elem_of_singleton in Hin. Qed.

(** [/usr/lib/../lib/.] is [/usr]. *)
Definition demo_path : list Z := ch_slash :: n_usr ++ [ch_slash] ++ n_lib ++ [ch_slash] ++ dotdot ++ [ch_slash] ++ n_usr ++ [ch_slash] ++ n_lib ++ [ch_slash] ++ dot.


Lemma lookup_names_witness : lookup_internal no_hook demo_caller 33 (abs_path [n_usr; n_lib]) false demo_vfs = Some (Some 2%nat, st demo_vfs [2%nat] demo_m3).
Proof.
  assert (Hn : Forall plain [n_usr; n_lib]) by (repeat constructor; refine (bool_decide_unpack _ _); vm_compute; exact I). assert (Hl : blen (flat [n_usr; n_lib]) < 511) by (vm_compute; reflexivity).
  pose proof (lookup_names no_hook demo_caller demo_vfs [n_usr; n_lib] false (fun _ _ _ => eq_refl) demo_tree demo_refs demo_roots Hn Hl) as H.
  assert (E : resolve demo_caller (nodes demo_vfs) false (start demo_caller demo_vfs) [] [n_usr; n_lib] = Hit 2) by (vm_compute; reflexivity). rewrite E in H. apply H. vm_compute. reflexivity.
Defined.
