(* ===== verification/VfsSpec.v ===== *)
(** * The file system as names and attributes.

    What the operations of [kernel/fs/vfs.c] mean, without lists of children,
    hash buckets, parent pointers and reference counts taken on the way: a
    directory maps names to nodes, and a node has a type, a mode, an owner and
    contents.  [spec_op] says for each operation what it returns and which maps
    it leaves behind; [VfsOps.v] shows that the operations do this. *)

From S2P Require Import Prelude Bits Bytes KString Ns Jail Cred RamFile Vfs VfsTree VfsLookup.

Implicit Types m : gmap nat node.

(** ** The abstract state *)

(** [a_refs] counts the references held elsewhere: by descriptors, mounts and
    mappings. *)
Record attr := mkAttr { a_type : vfs_type; a_mode : Z; a_uid : Z; a_gid : Z; a_data : list Z; a_link : option (list Z); a_refs : Z; a_deleted : bool }.

Definition attr_of (n : node) : attr := mkAttr (n_type n) (n_mode n) (n_uid n) (n_gid n) (content (n_file n)) (n_symlink n) (n_refcnt n) (n_deleted n).

Record afs := mkAfs { ent : nat -> list Z -> option nat; att : nat -> option attr }.

Definition view m : afs := mkAfs (entry m) (fun p => attr_of <$> m !! p).

#[export] Instance afs_equiv : Equiv afs := fun A B => (forall d x, ent A d x = ent B d x) /\ (forall p, att A p = att B p).

#[export] Instance afs_equivalence : Equivalence (≡@{afs}).
Proof.
  split; [by split|intros A B [H1 H2]; split; intros; by rewrite ?H1, ?H2|intros A B C [H1 H2] [H3 H4]; split; intros; [by rewrite H1, H3|by rewrite H2, H4]].
Qed.

(** Attributes of a node; [None] frees it. *)
Definition put (q : nat) (a : option attr) (A : afs) : afs := mkAfs (ent A) (fun p => if decide (p = q) then a else att A p).
(** Name [x] of directory [d] is node [q]. *)
Definition link (q d : nat) (x : list Z) (A : afs) : afs := mkAfs (fun d' x' => if decide (d' = d /\ x' = x) then Some q else ent A d' x') (att A).
(** No name is node [q]. *)
Definition unlink (q : nat) (A : afs) : afs := mkAfs (fun d x => if decide (ent A d x = Some q) then None else ent A d x) (att A).

#[export] Instance put_proper q a : Proper ((≡) ==> (≡)) (put q a).
Proof. intros A B [H1 H2]. split; cbn; intros; [by rewrite H1|case_decide; [done|by rewrite H2]]. Qed.
#[export] Instance link_proper q d x : Proper ((≡) ==> (≡)) (link q d x).
Proof. intros A B [H1 H2]. split; cbn; intros; [case_decide; [done|by rewrite H1]|by rewrite H2]. Qed.
#[export] Instance unlink_proper q : Proper ((≡) ==> (≡)) (unlink q).
Proof. intros A B [H1 H2]. split; cbn; intros; [by rewrite H1|by rewrite H2]. Qed.

(** A node without a name goes away, or waits for its last reference. *)
Definition discard (q : nat) (n : node) (A : afs) : afs :=
  put q (if n_refcnt n =? 0 then None else Some (attr_of (set_deleted true n))) A.

#[export] Instance discard_proper q n : Proper ((≡) ==> (≡)) (discard q n).
Proof. intros A B H. unfold discard. by rewrite H. Qed.

(** ** Operations *)

Inductive op :=
  | OMkdir (path : list Z) (mode : Z) | OCreate (path : list Z) (mode : Z) (data : list Z) | OSymlink (path target : list Z) | OChr (path : list Z) | OMknod (path : list Z) (mode : Z)
  | OUnlink (path : list Z) | ORmdir (path : list Z) | ORename (oldpath newpath : list Z) | OExchange (path1 path2 : list Z) | OLink (oldpath newpath : list Z)
  | OChmod (path : list Z) (mode : Z) | OChown (path : list Z) (uid gid : Z) | OLchown (path : list Z) (uid gid : Z) | OTruncate (path : list Z) (len : Z)
  | OAccess (path : list Z) (mode : Z) | OReadlink (path : list Z) (bufsz : Z).

(** What an operation returns: a return code, a node or the bytes of a link. *)
Inductive result := Rc (rc : Z) | Ptr (p : option nat) | Text (rc : Z) (l : list Z).

Section ops.
Context (try_pid_dir : nat -> list Z -> vfs -> vfs) (kmalloc : Z -> option (list Z)) (c : caller) (ok : allocs).

Definition rc_of (k : M Z) : M result := r ← k; mret (Rc r).
Definition ptr_of (k : M (option nat)) : M result := r ← k; mret (Ptr r).

Definition run_op (o : op) : M result :=
  match o with
  | OMkdir path mode => rc_of (vfs_mkdir try_pid_dir c ok path mode)
  | OCreate path mode data => ptr_of (vfs_create_file try_pid_dir c ok path mode data)
  | OSymlink path target => ptr_of (vfs_create_symlink try_pid_dir c ok path target)
  | OChr path => ptr_of (vfs_create_chr try_pid_dir c ok path)
  | OMknod path mode => rc_of (vfs_mknod try_pid_dir c ok path mode)
  | OUnlink path => rc_of (vfs_unlink try_pid_dir c path)
  | ORmdir path => rc_of (vfs_rmdir try_pid_dir c path)
  | ORename p1 p2 => rc_of (vfs_rename try_pid_dir c ok p1 p2)
  | OExchange p1 p2 => rc_of (vfs_rename_exchange try_pid_dir c ok p1 p2)
  | OLink p1 p2 => rc_of (vfs_link try_pid_dir c ok kmalloc p1 p2)
  | OChmod path mode => rc_of (vfs_chmod try_pid_dir c path mode)
  | OChown path u g => rc_of (vfs_chown try_pid_dir c path u g)
  | OLchown path u g => rc_of (vfs_lchown try_pid_dir c path u g)
  | OTruncate path len => rc_of (vfs_truncate try_pid_dir c kmalloc path len)
  | OAccess path mode => rc_of (vfs_access try_pid_dir c path mode)
  | OReadlink path n => r ← readlink_common try_pid_dir c path n; mret (Text r.1 r.2)
  end.

(** ** What the operations mean *)

Section spec.
Context (s : vfs).
Let m := nodes s.

(** The node a path leads to, and the directory and the name of its last component. *)
Definition node_at (path : list Z) (follow : bool) : option nat := match lookup_internal try_pid_dir c 33 path follow s with Some (r, _) => r | None => None end.
Definition parent_at (path : list Z) : option nat * list Z := match parent_of try_pid_dir c path s with Some (r, _) => r | None => (None, []) end.

Definition keep (r : result) : result * afs := (r, view m).
Definition err (e : Z) : result * afs := keep (Rc (- e)).

Definition with_node (q : nat) (f : node -> result * afs) : result * afs := match m !! q with Some n => f n | None => err ENOENT end.

Definition set_attr (q : nat) (n : node) (mode uid gid : Z) (data : list Z) : afs :=
  put q (Some (mkAttr (n_type n) mode uid gid data (n_symlink n) (n_refcnt n) (n_deleted n))) (view m).

Definition new_attr (type : vfs_type) (mode : Z) (data : list Z) (l : option (list Z)) : attr :=
  mkAttr type mode (cred_fsuid (c_cred c)) (cred_fsgid (c_cred c)) data l 0 false.

(** A new node with a name that is free. *)
Definition add (d : nat) (x : list Z) (a : attr) : afs := link (next_ptr s) d x (put (next_ptr s) (Some a) (view m)).

Definition spec_insert (d : nat) (x : list Z) (a : attr) : result * afs := match entry m d x with Some _ => err EEXIST | None => (Rc 0, add d x a) end.

Definition spec_mkdir (path : list Z) (mode : Z) : result * afs :=
  match node_at path false with
  | Some _ => err EEXIST
  | None =>
      if ns_mnt_path_readonly c path then err EROFS else
      match parent_at path with
      | (None, _) => err ENOENT
      | (Some d, x) =>
          with_node d (fun dn =>
            if negb (bool_decide (n_type dn = VFS_TYPE_DIR)) || bool_decide (x = []) then err ENOENT else
            if negb (node_create_in c dn) then err EACCES else
            if negb (ok_node ok) then err ENOMEM else
            spec_insert d x (new_attr VFS_TYPE_DIR (Z.lor (apply_umask c (Z.land mode 0xfff)) S_IFDIR) [] None))
      end
  end.

Definition spec_mknod (path : list Z) (mode : Z) : result * afs :=
  if ns_mnt_path_readonly c path then err EROFS else
  match parent_at path with
  | (None, _) => err ENOENT
  | (Some d, x) =>
      with_node d (fun dn =>
        if negb (bool_decide (n_type dn = VFS_TYPE_DIR)) then err ENOENT else
        if bool_decide (x = []) then err EINVAL else
        if negb (cred_is_root (c_cred c)) then err EPERM else
        if negb (node_create_in c dn) then err EACCES else
        if negb (ok_node ok) then err ENOMEM else
        let ftype := if Z.land mode S_IFMT =? 0 then S_IFREG else Z.land mode S_IFMT in
        spec_insert d x (new_attr (if ftype =? S_IFDIR then VFS_TYPE_DIR else VFS_TYPE_REG) (Z.lor (apply_umask c (Z.land mode 0xfff)) ftype) [] None))
  end.

(** Creating a file that exists replaces its contents, and loses them if there is
    no memory for the new ones. *)
Definition spec_create (path : list Z) (mode : Z) (data : list Z) : result * afs :=
  if ns_mnt_path_readonly c path then keep (Ptr None) else
  match parent_at path with
  | (None, _) => keep (Ptr None)
  | (Some d, x) =>
      with_node d (fun dn =>
        if negb (bool_decide (n_type dn = VFS_TYPE_DIR)) || negb (ok_node ok) || ((0 <? blen data) && negb (ok_data ok)) then keep (Ptr None) else
        match entry m d x with
        | None => (Ptr (Some (next_ptr s)), add d x (new_attr VFS_TYPE_REG (Z.lor (apply_umask c (Z.land mode 0xfff)) S_IFREG) data None))
        | Some e =>
            with_node e (fun en =>
              if negb (bool_decide (n_type en = VFS_TYPE_REG)) then keep (Ptr None) else
              if (0 <? blen data) && negb (ok_again ok) then (Ptr None, set_attr e en (n_mode en) (n_uid en) (n_gid en) []) else
              (Ptr (Some e), set_attr e en (n_mode en) (n_uid en) (n_gid en) data))
        end)
  end.

Definition spec_new (d : nat) (x : list Z) (a : attr) : result * afs := match entry m d x with Some _ => keep (Ptr None) | None => (Ptr (Some (next_ptr s)), add d x a) end.

Definition spec_symlink (path target : list Z) : result * afs :=
  if ns_mnt_path_readonly c path then keep (Ptr None) else
  match parent_at path with
  | (None, _) => keep (Ptr None)
  | (Some d, x) =>
      with_node d (fun dn =>
        if negb (node_create_in c dn) || negb (ok_node ok) || negb (ok_data ok) then keep (Ptr None) else
        spec_new d x (new_attr VFS_TYPE_SYM (Z.lor 0x1ff S_IFLNK) [] (Some (take 511 target))))
  end.

Definition spec_chr (path : list Z) : result * afs :=
  match parent_at path with
  | (None, _) => keep (Ptr None)
  | (Some d, x) => if negb (ok_node ok) then keep (Ptr None) else spec_new d x (new_attr VFS_TYPE_CHR (Z.lor 0x1b6 S_IFCHR) [] None)
  end.

(** Removing a node that has a name. *)
Definition spec_remove (q : nat) (n : node) : result * afs :=
  match n_parent n with
  | None => err EINVAL
  | Some d => with_node d (fun dn => if negb (node_delete_in c dn n) then err EACCES else (Rc 0, discard q n (unlink q (view m))))
  end.

Definition spec_unlink (path : list Z) : result * afs :=
  if ns_mnt_path_readonly c path then err EROFS else
  match node_at path false with
  | None => err ENOENT
  | Some q => with_node q (fun n => if bool_decide (n_type n = VFS_TYPE_DIR) then err EISDIR else spec_remove q n)
  end.

Definition spec_rmdir (path : list Z) : result * afs :=
  if ns_mnt_path_readonly c path then err EROFS else
  match node_at path true with
  | None => err ENOENT
  | Some q =>
      with_node q (fun n =>
        if negb (bool_decide (n_type n = VFS_TYPE_DIR)) then err ENOTDIR else
        if negb (bool_decide (n_children n = [])) then err ENOTEMPTY else spec_remove q n)
  end.

(** Renaming replaces a node that has the new name, if it may. *)
Definition spec_rename (oldpath newpath : list Z) : result * afs :=
  if ns_mnt_path_readonly c oldpath || ns_mnt_path_readonly c newpath then err EROFS else
  match node_at oldpath false with
  | None => err ENOENT
  | Some q =>
      with_node q (fun n =>
        match n_parent n, parent_at newpath with
        | Some d, (Some np, x) =>
            with_node np (fun npn => with_node d (fun dn =>
              if negb (bool_decide (n_type npn = VFS_TYPE_DIR)) then err ENOENT else
              if bool_decide (x = []) then err EINVAL else
              if negb (node_delete_in c dn n) || negb (node_create_in c npn) then err EACCES else
              match entry m np x with
              | None => (Rc 0, link q np x (unlink q (view m)))
              | Some e =>
                  with_node e (fun en =>
                    let rc := replace_error c npn en n in
                    if rc <? 0 then keep (Rc rc) else (Rc 0, link q np x (unlink q (discard e en (unlink e (view m))))))
              end))
        | _, _ => err ENOENT
        end)
  end.

(** Exchanging two names. *)
Definition spec_exchange (path1 path2 : list Z) : result * afs :=
  if ns_mnt_path_readonly c path1 || ns_mnt_path_readonly c path2 then err EROFS else
  match node_at path1 false, node_at path2 false with
  | Some q1, Some q2 =>
      with_node q1 (fun n1 => with_node q2 (fun n2 =>
        match n_parent n1, n_parent n2 with
        | Some d1, Some d2 =>
            if (q1 =? q2)%nat then keep (Rc 0) else
            with_node d1 (fun dn1 => with_node d2 (fun dn2 =>
              if negb (node_delete_in c dn1 n1) || negb (node_delete_in c dn2 n2) || negb (node_create_in c dn1) || negb (node_create_in c dn2) then err EACCES else
              (Rc 0, link q2 d1 (n_name n1) (link q1 d2 (n_name n2) (unlink q2 (unlink q1 (view m)))))))
        | _, _ => err ENOENT
        end))
  | _, _ => err ENOENT
  end.

(** A new node with the contents of the old one. *)
Definition spec_link (oldpath newpath : list Z) : result * afs :=
  if ns_mnt_path_readonly c newpath then err EROFS else
  match node_at oldpath true with
  | None => err ENOENT
  | Some q =>
      with_node q (fun n =>
        if bool_decide (n_type n = VFS_TYPE_DIR) then err EISDIR else
        match parent_at newpath with
        | (None, _) => err ENOENT
        | (Some d, x) =>
            with_node d (fun dn =>
              if negb (bool_decide (n_type dn = VFS_TYPE_DIR)) then err ENOENT else
              if bool_decide (x = []) then err EINVAL else
              if negb (node_create_in c dn) then err EACCES else
              if negb (ok_node ok) then err ENOMEM else
              let reg := bool_decide (n_type n = VFS_TYPE_REG) in
              let sym := bool_decide (n_type n = VFS_TYPE_SYM) in
              if (reg && (0 <? r_size (n_file n)) && negb (bool_decide (is_Some (kmalloc (r_size (n_file n)))))) || (sym && negb (ok_data ok)) then err ENOMEM else
              spec_insert d x (new_attr (n_type n) (n_mode n) (if reg then content (n_file n) else []) (if sym then n_symlink n else None)))
        end)
  end.

Definition spec_chmod (path : list Z) (mode : Z) : result * afs :=
  if ns_mnt_path_readonly c path then err EROFS else
  match node_at path true with
  | None => err ENOENT
  | Some q =>
      with_node q (fun n =>
        if negb (may_change_mode (c_cred c) (perm_of n)) then err EPERM else
        (Rc 0, set_attr q n (Z.lor (Z.land (n_mode n) (u32 (Z.lnot 0xfff))) (mode_without_priv_bits (c_cred c) mode)) (n_uid n) (n_gid n) (content (n_file n))))
  end.

Definition spec_chown (follow : bool) (path : list Z) (uid gid : Z) : result * afs :=
  if ns_mnt_path_readonly c path then err EROFS else
  match node_at path follow with
  | None => err ENOENT
  | Some q =>
      with_node q (fun n =>
        if negb (may_change_owner (c_cred c)) then err EPERM else
        (Rc 0, set_attr q n (Z.land (n_mode n) (u32 (Z.lnot 0xc00))) (if uid =? U32_MAX then n_uid n else uid) (if gid =? U32_MAX then n_gid n else gid) (content (n_file n))))
  end.

Definition spec_truncate (path : list Z) (len : Z) : result * afs :=
  if ns_mnt_path_readonly c path then err EROFS else
  match node_at path true with
  | None => err ENOENT
  | Some q =>
      with_node q (fun n =>
        if negb (bool_decide (n_type n = VFS_TYPE_REG)) then err EINVAL else
        if negb (node_access c n 2) then err EACCES else
        if r_capacity (n_file n) <? len then
          if U64_MAX - 4095 <? len then err EFBIG else
          if bool_decide (is_Some (kmalloc (Z.land (len + 4095) (Z.lnot 4095)))) then (Rc 0, set_attr q n (n_mode n) (n_uid n) (n_gid n) (file_resize (content (n_file n)) len)) else err ENOSPC
        else (Rc 0, set_attr q n (n_mode n) (n_uid n) (n_gid n) (file_resize (content (n_file n)) len)))
  end.

Definition spec_access (path : list Z) (mode : Z) : result * afs :=
  if ztrue (Z.land mode (Z.lnot 7)) then err EINVAL else
  match node_at path true with
  | None => err ENOENT
  | Some q =>
      if mode =? 0 then keep (Rc 0) else
      with_node q (fun n =>
        if ztrue (Z.land mode 1) && negb (ztrue (Z.land (n_mode n) 0x49)) then err EACCES else
        if node_access c n mode then keep (Rc 0) else err EACCES)
  end.

Definition spec_readlink (path : list Z) (bufsz : Z) : result * afs :=
  match node_at path false with
  | None => keep (Text (- ENOENT) [])
  | Some q =>
      with_node q (fun n =>
        match n_type n, n_symlink n with
        | VFS_TYPE_SYM, Some l => let out := take (Z.to_nat bufsz) l in keep (Text (blen out) out)
        | _, _ => keep (Text (- EINVAL) [])
        end)
  end.

Definition spec_op (o : op) : result * afs :=
  match o with
  | OMkdir path mode => spec_mkdir path mode
  | OCreate path mode data => spec_create path mode data
  | OSymlink path target => spec_symlink path target
  | OChr path => spec_chr path
  | OMknod path mode => spec_mknod path mode
  | OUnlink path => spec_unlink path
  | ORmdir path => spec_rmdir path
  | ORename p1 p2 => spec_rename p1 p2
  | OExchange p1 p2 => spec_exchange p1 p2
  | OLink p1 p2 => spec_link p1 p2
  | OChmod path mode => spec_chmod path mode
  | OChown path u g => spec_chown true path u g
  | OLchown path u g => spec_chown false path u g
  | OTruncate path len => spec_truncate path len
  | OAccess path mode => spec_access path mode
  | OReadlink path n => spec_readlink path n
  end.
End spec.
End ops.
