(* ===== verification/VfsInv.v ===== *)
(** * The invariant of the tree of nodes, and each change to it.

    A node is created, entered into a directory, taken out of it, renamed,
    changed or released.  Each of these keeps the invariant, changes the view of
    the file system in one place, and can be made with references held. *)

From S2P Require Import Prelude Bits Bytes KString Ns Jail Cred RamFile Vfs VfsTree VfsLookup VfsSpec.

Implicit Types m : gmap nat node.

Definition node_ok (n : node) : Prop := (n_type n = VFS_TYPE_REG -> rfile_ok (n_file n)) /\ (n_type n = VFS_TYPE_SYM -> is_Some (n_symlink n)).

(** [R] are the nodes that mount namespaces start from; they are referenced, or
    they are their own parent.  Pointers from [nx] on are not in use. *)
Record minv (R : nat -> Prop) (nx : nat) m : Prop := {
  i_tree : tree_ok m;
  i_refs : refs_ok m;
  i_fresh p : (nx <= p)%nat -> m !! p = None;
  i_node p n : m !! p = Some n -> node_ok n;
  i_root r : R r -> exists n, m !! r = Some n /\ (0 < n_refcnt n \/ n_parent n = Some r);
}.

(** ** Changes of the map *)

Section changes.
Context (R : nat -> Prop) (nx : nat) (m : gmap nat node) (I : minv R nx m).

(** The fields of a node that neither its name nor its place are. *)
Lemma insert_minv (q : nat) (n' : node) m' :
  tree_ok m' -> (forall p, p <> q -> attr_of <$> m' !! p = attr_of <$> m !! p /\ n_file <$> m' !! p = n_file <$> m !! p /\ (forall n, m !! p = Some n -> n_parent n = Some p -> n_parent <$> m' !! p = Some (Some p))) ->
  m' !! q = Some n' -> 0 <= n_refcnt n' < 2 ^ 32 - 8 -> node_ok n' -> (R q -> 0 < n_refcnt n' \/ n_parent n' = Some q) -> forall nx', (nx <= nx')%nat -> (q < nx')%nat -> minv R nx' m'.
Proof.
  intros T' Hp Hq Hr Hn HR nx' Hnx Hq'.
  assert (Hback : forall p n, p <> q -> m' !! p = Some n -> exists n0, m !! p = Some n0 /\ attr_of n0 = attr_of n /\ n_file n0 = n_file n).
  { intros p n Hne Hn'. destruct (Hp p Hne) as (E1 & E2 & _). rewrite Hn' in E1, E2. destruct (m !! p) as [n0|]; [|done]. exists n0. cbn in *. split; [done|]. split; congruence. }
  split; [done|..].
  - intros p n Hpn. destruct (decide (p = q)) as [->|Hne]; [assert (n = n') as -> by congruence; done|]. destruct (Hback p n Hne Hpn) as (n0 & H0 & E & _). pose proof (i_refs _ _ _ I p n0 H0) as G. replace (n_refcnt n) with (n_refcnt n0); [done|]. by injection E.
  - intros p Hle. destruct (m' !! p) as [n|] eqn:E; [|done]. destruct (decide (p = q)) as [->|Hne]; [lia|]. destruct (Hback p n Hne E) as (n0 & H0 & _). rewrite (i_fresh _ _ _ I p) in H0; [done|lia].
  - intros p n Hpn. destruct (decide (p = q)) as [->|Hne]; [assert (n = n') as -> by congruence; done|]. destruct (Hback p n Hne Hpn) as (n0 & H0 & E & F). pose proof (i_node _ _ _ I p n0 H0) as [G1 G2].
    injection E as E1 _ _ _ _ E2 _ _. split; [rewrite <- E1, <- F; done|rewrite <- E1, <- E2; done].
  - intros r HRr. destruct (i_root _ _ _ I r HRr) as (n & Hn0 & Ho). destruct (decide (r = q)) as [->|Hne]; [exists n'; split; [done|by apply HR]|].
    destruct (Hp r Hne) as (E1 & _ & E3). rewrite Hn0 in E1. destruct (m' !! r) as [n1|] eqn:En1; [|done]. exists n1. split; [done|]. cbn in E1. injection E1 as _ _ _ _ _ _ Er _. destruct Ho as [Ho|Ho]; [left; lia|right].
    specialize (E3 n Hn0 Ho). cbn in E3. congruence.
Qed.

(** A new node. *)
Definition fresh_node (n : node) : Prop := n_children n = [] /\ n_index n = None /\ n_parent n = None /\ n_refcnt n = 0 /\ n_deleted n = false /\ node_ok n.

Lemma detached_fresh : detached m nx.
Proof. apply detached_none; [apply I|by apply I]. Qed.

Lemma new_minv n : fresh_node n -> minv R (S nx) (<[nx := n]> m).
Proof.
  intros (Hc & Hi & Hp & Hr & Hd & Hok). assert (Hnx : m !! nx = None) by (by apply I). apply (insert_minv nx n); try done; try lia; [|..].
  - apply replace_ok; try done; [apply I|apply detached_fresh|by rewrite Hnx|by rewrite Hnx].
  - intros p Hne. rewrite lookup_insert_ne by done. split; [done|]. split; [done|]. intros n0 -> Hs. cbn. congruence.
  - by rewrite lookup_insert_eq.
  - intros HR. destruct (i_root _ _ _ I nx HR) as (n0 & H0 & _). congruence.
Qed.

Lemma new_view n : fresh_node n -> view (<[nx := n]> m) ≡ put nx (Some (attr_of n)) (view m).
Proof.
  intros (Hc & Hi & Hp & Hr & Hd & Hok). assert (Hnx : m !! nx = None) by (by apply I). split; intros; cbn.
  - apply replace_entry; [apply detached_fresh|by rewrite Hnx|by rewrite Hnx].
  - case_decide as E; [subst; by rewrite lookup_insert_eq|by rewrite lookup_insert_ne].
Qed.

Lemma freed_minv : minv R (S nx) m.
Proof. destruct I. split; try done. intros p Hp. apply i_fresh0. lia. Qed.

(** A node without a place gets one. *)
Section enter.
Context (d : nat) (dn : node) (q : nat) (c : node).
Context (Hd : m !! d = Some dn) (Hdir : n_type dn = VFS_TYPE_DIR) (Hlive : n_deleted dn = false) (Hq : m !! q = Some c) (Hp : n_parent c = None) (Hc : n_deleted c = false) (Hne : d <> q) (Hfree : entry m d (n_name c) = None).
Let m' := inserted true m d dn q c.

Lemma enter_tree : tree_ok m'.
Proof. apply insert_ok; try done; [apply I|by left]. Qed.

Lemma enter_att p : attr_of <$> m' !! p = attr_of <$> m !! p.
Proof.
  destruct (decide (p = d)) as [->|Hpd]; [unfold m'; by rewrite inserted_dir, Hd|]. destruct (decide (p = q)) as [->|Hpq]; [unfold m'; by rewrite inserted_new, Hq|]. unfold m'. by rewrite inserted_other.
Qed.

Lemma enter_minv : minv R nx m'.
Proof.
  assert (Hqx : (q < nx)%nat) by (destruct (Nat.le_gt_cases nx q) as [H|H]; [rewrite (i_fresh _ _ _ I q H) in Hq; done|done]).
  apply (insert_minv q (set_parent (Some d) c)); try done; [apply enter_tree| | | |..].
  - intros p Hpq. split; [apply enter_att|]. destruct (decide (p = d)) as [->|Hpd]; [unfold m'; rewrite inserted_dir, Hd; cbn; split; [done|]; intros n [= ->] Hs; congruence|].
    unfold m'. rewrite inserted_other by done. split; [done|]. intros n -> Hs. cbn. congruence.
  - apply inserted_new; done.
  - by apply (i_refs _ _ _ I q c).
  - by apply (i_node _ _ _ I q c).
  - intros HR. destruct (i_root _ _ _ I q HR) as (n & Hn & [Ho|Ho]); assert (n = c) as -> by congruence; [by left|congruence].
Qed.

Lemma enter_view : view m' ≡ link q d (n_name c) (view m).
Proof. split; [intros d' x; cbn; apply insert_entry; try done; [apply I|by left]|apply enter_att]. Qed.
End enter.

(** A node is taken out of its directory. *)
Section leave.
Context (d : nat) (dn : node) (q : nat) (c : node).
Context (Hd : m !! d = Some dn) (Hq : m !! q = Some c) (Hp : n_parent c = Some d) (Hdq : d <> q).
Let m' := removed m d dn q c.

Lemma leave_in : q ∈ n_children dn.
Proof. destruct (t_parent m (i_tree _ _ _ I) q c d Hq Hp Hdq) as (n & Hn & Hin). congruence. Qed.

Lemma leave_tree : tree_ok m'.
Proof. apply remove_ok; try done; [apply I|apply leave_in]. Qed.

Lemma leave_dir : m' !! d = Some (set_entries (without q (n_children dn)) ((fun b => <[dir_hash (n_name c) := without q (aget [] b (dir_hash (n_name c)))]> b) <$> n_index dn) dn).
Proof. apply removed_dir; try done; [apply I|apply leave_in]. Qed.

Lemma leave_att p : attr_of <$> m' !! p = attr_of <$> m !! p.
Proof.
  destruct (decide (p = d)) as [->|Hpd]; [by rewrite leave_dir, Hd|]. destruct (decide (p = q)) as [->|Hpq]; [unfold m'; by rewrite removed_node, Hq|]. unfold m'. by rewrite removed_other.
Qed.

Lemma leave_minv : (R q -> 0 < n_refcnt c) -> minv R nx m'.
Proof.
  intros HR. assert (Hqx : (q < nx)%nat) by (destruct (Nat.le_gt_cases nx q) as [H|H]; [rewrite (i_fresh _ _ _ I q H) in Hq; done|done]).
  apply (insert_minv q (set_parent None c)); try done; [apply leave_tree| | | |..].
  - intros p Hpq. split; [apply leave_att|]. destruct (decide (p = d)) as [->|Hpd]; [rewrite leave_dir, Hd; cbn; split; [done|]; intros n [= ->] Hs; congruence|].
    unfold m'. rewrite removed_other by done. split; [done|]. intros n -> Hs. cbn. congruence.
  - apply removed_node.
  - by apply (i_refs _ _ _ I q c).
  - by apply (i_node _ _ _ I q c).
  - intros H. left. by apply HR.
Qed.

Lemma entry_name d' x : entry m d' x = Some q <-> d' = d /\ x = n_name c.
Proof.
  split.
  - intros He. destruct (entry_in _ _ _ _ He) as (n & Hn & Hin & Hx). unfold named in Hx. rewrite Hq in Hx. cbn in Hx. split; [|congruence]. destruct (t_child m (i_tree _ _ _ I) d' n q Hn Hin) as (c' & Hc' & Hp' & _). congruence.
  - intros [-> ->]. apply (entry_Some m d (n_name c) q dn); [apply I|done|apply leave_in|]. unfold named. by rewrite Hq.
Qed.

Lemma leave_view : view m' ≡ unlink q (view m).
Proof.
  split; [|apply leave_att]. intros d' x. cbn. unfold m'. rewrite (remove_entry m d dn q c (i_tree _ _ _ I) Hd leave_in Hq). pose proof (entry_name d' x) as E. do 2 case_decide; try done; tauto.
Qed.

Lemma leave_node : m' !! q = Some (set_parent None c).
Proof. apply removed_node. Qed.
End leave.

(** A node is changed, and keeps its name and place. *)
Section change.
Context (q : nat) (n n' : node).
Context (Hq : m !! q = Some n) (Hs : shape n' = shape n) (Hr : n_refcnt n' = n_refcnt n) (Hok : node_ok n').

Lemma change_shape : same_shape m (<[q := n']> m).
Proof. intros p. destruct (decide (p = q)) as [->|Hne]; [rewrite lookup_insert_eq, Hq; cbn; congruence|by rewrite lookup_insert_ne]. Qed.

Lemma change_minv : minv R nx (<[q := n']> m).
Proof.
  assert (Hqx : (q < nx)%nat) by (destruct (Nat.le_gt_cases nx q) as [H|H]; [rewrite (i_fresh _ _ _ I q H) in Hq; done|done]).
  apply (insert_minv q n'); try done; [by eapply tree_shape, I; apply change_shape| | |..].
  - intros p Hne. rewrite lookup_insert_ne by done. split; [done|]. split; [done|]. intros n0 -> Hs0. cbn. congruence.
  - apply lookup_insert_eq.
  - rewrite Hr. by apply (i_refs _ _ _ I q n).
  - intros HR. destruct (i_root _ _ _ I q HR) as (n0 & Hn0 & Ho). assert (n0 = n) as -> by congruence. rewrite Hr. injection Hs as _ _ _ _ _ ->. done.
Qed.

Lemma change_view : view (<[q := n']> m) ≡ put q (Some (attr_of n')) (view m).
Proof. split; intros; cbn; [apply entry_shape, change_shape|]. case_decide as E; [subst; by rewrite lookup_insert_eq|by rewrite lookup_insert_ne]. Qed.
End change.

(** A node without a place gets another name, or is marked deleted. *)
Section detached.
Context (q : nat) (n n' : node).
Context (Hq : m !! q = Some n) (Hp : n_parent n = None) (Hp' : n_parent n' = None) (Hch : n_children n' = n_children n) (Hix : n_index n' = n_index n) (Hr : n_refcnt n' = n_refcnt n) (Hok : node_ok n').
Context (Hdir : n_children n' <> [] -> n_type n' = VFS_TYPE_DIR /\ n_deleted n' = false).

Lemma detached_q : detached m q.
Proof. eapply detached_parent; [apply I|done|done]. Qed.

Lemma detached_minv : minv R nx (<[q := n']> m).
Proof.
  assert (Hqx : (q < nx)%nat) by (destruct (Nat.le_gt_cases nx q) as [H|H]; [rewrite (i_fresh _ _ _ I q H) in Hq; done|done]).
  apply (insert_minv q n'); try done; [| | |..].
  - apply replace_ok; try done; [apply I|apply detached_q|by rewrite Hq|by rewrite Hq].
  - intros p Hne. rewrite lookup_insert_ne by done. split; [done|]. split; [done|]. intros n0 -> Hs0. cbn. congruence.
  - apply lookup_insert_eq.
  - rewrite Hr. by apply (i_refs _ _ _ I q n).
  - intros HR. destruct (i_root _ _ _ I q HR) as (n0 & Hn0 & Ho). assert (n0 = n) as -> by congruence. rewrite Hr. destruct Ho; [by left|congruence].
Qed.

Lemma detached_view : view (<[q := n']> m) ≡ put q (Some (attr_of n')) (view m).
Proof.
  split; intros; cbn; [apply replace_entry; [apply detached_q|by rewrite Hq|by rewrite Hq]|]. case_decide as E; [subst; by rewrite lookup_insert_eq|by rewrite lookup_insert_ne].
Qed.
End detached.

(** A node without a place and children is given up. *)
Definition gone (q : nat) (c : node) : gmap nat node := if n_refcnt c =? 0 then delete q m else <[q := set_parent None (set_deleted true c)]> m.

Section release.
Context (q : nat) (n : node).
Context (Hq : m !! q = Some n) (Hp : n_parent n = None) (Hch : n_children n = []).

Lemma gone_minv : minv R nx (gone q n).
Proof.
  unfold gone. destruct (Z.eqb_spec (n_refcnt n) 0) as [Hz|Hz]; [|eapply detached_minv; try done; cbn; try congruence; by apply (i_node _ _ _ I q n)].
  destruct I as [T Hrefs Hf Hn HR]. assert (Hold : forall p x, delete q m !! p = Some x -> m !! p = Some x) by (intros p x [_ H]%lookup_delete_Some; done).
  split; [eapply free_ok; try done; by eapply detached_parent|intros p x Hx%Hold; eauto| |intros p x Hx%Hold; eauto|].
  - intros p Hp'. destruct (delete q m !! p) as [x|] eqn:E; [|done]. apply Hold in E. rewrite Hf in E; done.
  - intros r Hr. destruct (HR r Hr) as (x & Hx & Ho). exists x. split; [|done]. rewrite lookup_delete_ne; [done|]. intros ->. assert (x = n) as -> by congruence. destruct Ho; [lia|congruence].
Qed.

Lemma gone_view : view (gone q n) ≡ discard q n (view m).
Proof.
  unfold gone, discard. destruct (Z.eqb_spec (n_refcnt n) 0) as [Hz|Hz].
  - split; intros; cbn; [eapply free_entry; try done; eapply detached_parent; [apply I|done|done]|]. case_decide as E; [subst; by rewrite lookup_delete_eq|by rewrite lookup_delete_ne].
  - by rewrite (detached_view q n).
Qed.
End release.
End changes.

(** ** The operations with references held *)

Lemma cnt_notin L p : p ∉ L -> cnt L p = 0.
Proof.
  unfold cnt. induction L as [|q L IH]; intros H; [done|]. apply not_elem_of_cons in H as [H1 H2]. cbn [count_if]. destruct (Nat.eqb_spec p q); [done|]. by apply IH.
Qed.

Lemma runs_lift {X Y} (x : option X) y (k : X -> M Y) s Q : x = Some y -> runs (k y) s Q -> runs (y ← lift x; k y) s Q.
Proof. intros -> H. exact H. Qed.

Lemma st_perm s L L' m : L ≡ₚ L' -> st s L m = st s L' m.
Proof.
  intros H. unfold st. f_equal. unfold with_refs. apply map_eq. intros p. rewrite !map_lookup_imap. destruct (m !! p) as [n|]; [|done]. cbn. unfold held. do 3 f_equal. unfold cnt. f_equal.
  induction H; cbn [count_if]; [done|lia|lia|lia].
Qed.

Section run.
Context (s : vfs) (L : list nat) (m : gmap nat node).

Lemma runs_alloc {Y} c name type mode (k : option nat -> M Y) Q :
  m !! next_ptr s = None -> next_ptr s ∉ L ->
  (let n := mkNode (take 255 name) type mode (cred_fsuid (c_cred c)) (cred_fsgid (c_cred c)) (g_next_ino s) 0 false new_file [] None None None in
   runs (k (Some (next_ptr s))) (st (mkVfs (nodes s) (S (next_ptr s)) (u32 (g_next_ino s + 1)) (g_root s)) L (<[next_ptr s := n]> m)) Q) ->
  runs (p ← node_alloc c true name type mode; k p) (st s L m) Q.
Proof.
  intros Hm HL Hk. apply runs_bind. unfold runs, node_alloc. cbn [negb]. unfold runs in Hk. unfold st, upd in *. cbn [next_ptr g_next_ino g_root nodes] in *. rewrite with_refs_insert in Hk. unfold held in Hk. rewrite cnt_notin in Hk by done. exact Hk.
Qed.

Lemma runs_free_new {Y} q n (k : unit -> M Y) Q : m !! q = None -> runs (k tt) (st s L m) Q -> runs (x ← kfree q; k x) (st s L (<[q := n]> m)) Q.
Proof. intros Hq Hk. eapply runs_st_kfree; [apply lookup_insert_eq|]. by rewrite delete_insert_eq, delete_id. Qed.

Lemma runs_insert {Y} ok d dn q n (k : unit -> M Y) Q : m !! d = Some dn -> m !! q = Some n -> d <> q ->
  runs (k tt) (st s L (inserted ok m d dn q n)) Q -> runs (x ← dir_insert_nolock ok d q; k x) (st s L m) Q.
Proof.
  intros Hd Hq Hne Hk. apply runs_bind. eapply runs_val; [apply (dir_insert_run ok (st s L m) d (held L d dn) q (held L q n)); [by apply st_lookup|by apply st_lookup|done]|]. cbn beta.
  unfold st in Hk. unfold inserted in Hk. rewrite !with_refs_insert in Hk. exact Hk.
Qed.

Lemma runs_remove {Y} d dn q n (k : unit -> M Y) Q : tree_ok m -> m !! d = Some dn -> q ∈ n_children dn -> m !! q = Some n ->
  runs (k tt) (st s L (removed m d dn q n)) Q -> runs (x ← dir_remove d q; k x) (st s L m) Q.
Proof.
  intros T Hd Hin Hq Hk. apply runs_bind. eapply runs_val; [apply (dir_remove_run (with_refs L m) d (held L d dn) q (held L q n)); [by apply tree_refs|by rewrite lookup_refs, Hd|done|by rewrite lookup_refs, Hq|done]|]. cbn beta.
  unfold st in Hk. unfold removed in Hk. cbv zeta in Hk. rewrite !with_refs_insert in Hk. exact Hk.
Qed.

(** The reference held keeps a node that is given up until it is dropped. *)
Lemma runs_release {Y} q n (k : unit -> M Y) Q : m !! q = Some n -> q ∉ L -> 0 <= n_refcnt n ->
  runs (k tt) (st s L (gone m q n)) Q -> runs (node_unlink_or_destroy q;; x ← node_unref (Some q); k x) (st s (q :: L) m) Q.
Proof.
  intros Hq HL Hr Hk. unfold node_unlink_or_destroy. apply runs_bind, runs_st_modify with (n := n); [done|by intros r x|]. set (n' := set_parent None (set_deleted true n)). cbn beta.
  assert (Hq' : <[q := n']> m !! q = Some n') by apply lookup_insert_eq. eapply runs_st_fetch; [exact Hq'|]. cbn [n_refcnt held set_refcnt]. rewrite cnt_cons, Nat.eqb_refl, (cnt_notin L q HL). change (n_refcnt n') with (n_refcnt n).
  destruct (Z.eqb_spec (n_refcnt n + (1 + 0)) 0); [lia|]. apply runs_ret. apply runs_bind. unfold node_unref. eapply runs_st_fetch; [exact Hq'|]. cbn [n_refcnt held set_refcnt n_deleted]. rewrite cnt_cons, Nat.eqb_refl, (cnt_notin L q HL). change (n_refcnt n') with (n_refcnt n).
  destruct (Z.eqb_spec (n_refcnt n + (1 + 0)) 0); [lia|]. change (n_deleted n') with true. rewrite andb_true_r. eapply runs_modify; [by apply st_lookup|]. cbn beta.
  set (s1 := upd _ _). assert (E1 : s1 = st s L (<[q := n']> m)).
  { subst s1. unfold st, upd. cbn [nodes next_ptr g_next_ino g_root]. f_equal. rewrite (with_refs_cons L (<[q := n']> m) q n' Hq'), with_refs_insert, !insert_insert_eq. f_equal. unfold held. rewrite set_refcnt_twice. f_equal.
    rewrite (cnt_notin L q HL). change (n_refcnt n') with (n_refcnt n). lia. }
  clearbody s1. subst s1. unfold gone in Hk. fold n' in Hk. destruct (Z.eqb_spec (n_refcnt n) 0) as [Hz|Hz].
  - replace (n_refcnt n + (1 + 0) =? 1) with true by (symmetry; apply Z.eqb_eq; lia). unfold node_destroy, kfree, runs. rewrite (st_lookup s L _ q n' Hq'). cbn [mbind option_bind]. unfold runs in Hk. unfold st, upd in *. cbn [nodes next_ptr g_next_ino g_root] in *.
    rewrite <- with_refs_delete, delete_insert_eq. exact Hk.
  - replace (n_refcnt n + (1 + 0) =? 1) with false by (symmetry; apply Z.eqb_neq; lia). exact Hk.
Qed.
End run.

Definition live m (q : nat) : Prop := exists n, m !! q = Some n /\ n_deleted n = false.

Lemma unrefs_run s m l : refs_ok m -> forall L, omap Datatypes.id l ≡ₚ L -> Forall (live m) L -> unrefs l (st s L m) = Some (tt, st s [] m).
Proof.
  intros Hr. induction l as [|[q|] l IH]; intros L HL Hlive; cbn [unrefs].
  - cbn in HL. by apply Permutation_nil in HL as ->.
  - cbn in HL. fold (omap Datatypes.id l) in HL. rewrite <- (st_perm s _ _ m HL). rewrite <- HL in Hlive. apply Forall_cons in Hlive as [(n & Hn & Hd) Hlive]. unfold mbind, M_bind. rewrite (unref_run s _ m q n Hr Hn Hd). by apply IH.
  - cbn in HL. unfold mbind, M_bind. cbn [node_unref]. unfold mret, M_ret. by apply IH.
Qed.

Lemma fail_run s m l L rc (Q : Z -> vfs -> Prop) : refs_ok m -> omap Datatypes.id l ≡ₚ L -> Forall (live m) L -> Q rc (st s [] m) -> runs (fail l rc) (st s L m) Q.
Proof. intros Hr HL Hlive HQ. unfold fail. eapply runs_bind, runs_val; [by apply unrefs_run|]. by apply runs_ret. Qed.

(** ** Moving a node *)

Lemma att_node m m' p n : att (view m') p = att (view m) p -> m !! p = Some n -> exists n', m' !! p = Some n' /\ attr_of n' = attr_of n.
Proof. cbn. intros E Hp. rewrite Hp in E. destruct (m' !! p) as [n'|]; [|done]. exists n'. split; [done|]. cbn in E. congruence. Qed.

Lemma live_att m m' p : att (view m') p = att (view m) p -> live m p -> live m' p.
Proof. intros E (n & Hn & Hd). destruct (att_node m m' p n E Hn) as (n' & Hn' & Ha). exists n'. split; [done|]. change (a_deleted (attr_of n') = false). by rewrite Ha. Qed.

Section move.
Context (R : nat -> Prop) (nx : nat) (m : gmap nat node) (I : minv R nx m) (q : nat) (n : node) (x : list Z).

Lemma root_counted : m !! q = Some n -> n_parent n <> Some q -> R q -> 0 < n_refcnt n.
Proof. intros Hq Hs HR. destruct (i_root _ _ _ I q HR) as (n' & Hn' & [Ho|Ho]); assert (n' = n) as -> by congruence; [done|congruence]. Qed.

(** A node without a place gets another name. *)
Lemma named_minv : m !! q = Some n -> n_parent n = None -> n_deleted n = false -> minv R nx (<[q := set_name x n]> m).
Proof.
  intros Hq Hp Hd. eapply detached_minv; try done; [by apply (i_node _ _ _ I q n)|]. intros Hch. by apply (t_dir m (i_tree _ _ _ I) q n).
Qed.

Lemma named_view : m !! q = Some n -> n_parent n = None -> view (<[q := set_name x n]> m) ≡ view m.
Proof.
  intros Hq Hp. rewrite (detached_view R nx m I q n (set_name x n) Hq Hp eq_refl eq_refl). split; [done|]. intros p. cbn. case_decide as E; [subst; by rewrite Hq|done].
Qed.
End move.

(** Taken out of directory [d] under one name and entered into [np] under another. *)
Lemma runs_move {Y} R nx m s L d q n np x (k : unit -> M Y) Q : minv R nx m -> m !! q = Some n -> n_deleted n = false -> n_parent n = Some d -> d <> q -> np <> q -> blen x < 256 ->
  (exists npn, m !! np = Some npn /\ n_type npn = VFS_TYPE_DIR /\ n_deleted npn = false) -> entry m np x = None ->
  (forall m', minv R nx m' -> view m' ≡ link q np x (unlink q (view m)) -> runs (k tt) (st s L m') Q) ->
  runs (dir_remove d q;; modify q (set_name (take 255 x));; y ← dir_insert_nolock true np q; k y) (st s L m) Q.
Proof.
  intros I Hq Hdel Hp Hdq Hnq Hx (npn & Hnp & Hdir & Hnd) Hfree Hk. destruct (t_parent m (i_tree _ _ _ I) q n d Hq Hp Hdq) as (dn & Hd & Hin).
  eapply runs_remove; [apply I|exact Hd|exact Hin|exact Hq|]. assert (Hs : n_parent n <> Some q) by congruence.
  pose proof (leave_minv R nx m I d dn q n Hd Hq Hp Hdq (root_counted R nx m I q n Hq Hs)) as I1. pose proof (leave_view R nx m I d dn q n Hd Hq Hp Hdq) as V1. pose proof (leave_node m d dn q n) as Hq1. set (m1 := removed m d dn q n) in *. clearbody m1.
  eapply runs_st_modify; [exact Hq1|by intros|]. rewrite take_ge by (unfold blen in Hx; lia). pose proof (named_minv R nx m1 I1 q _ x Hq1 eq_refl Hdel) as I2. pose proof (named_view R nx m1 I1 q _ x Hq1 eq_refl) as V2.
  set (n2 := set_name x (set_parent None n)) in *. assert (Hq2 : <[q := n2]> m1 !! q = Some n2) by apply lookup_insert_eq. set (m2 := <[q := n2]> m1) in *. clearbody m2. rewrite V1 in V2.
  destruct (att_node m m2 np npn) as (npn2 & Hnp2 & Ha); [by destruct V2 as [_ ->]|done|]. injection Ha as Ht _ _ _ _ _ _ Hdd.
  assert (E2 : entry m2 np x = None). { destruct V2 as [E _]. specialize (E np x). cbn in E. rewrite E, Hfree. by case_decide. }
  assert (Ht2 : n_type npn2 = VFS_TYPE_DIR) by congruence. assert (Hd2 : n_deleted npn2 = false) by congruence.
  eapply runs_insert; [exact Hnp2|exact Hq2|done|]. apply Hk; [by apply enter_minv|]. rewrite (enter_view R nx m2 I2 np npn2 q n2); try done. by rewrite V2.
Qed.

Lemma runs_node_ref {Y} s L m q n (k : unit -> M Y) Q : refs_ok m -> (length L < 8)%nat -> m !! q = Some n -> runs (k tt) (st s (q :: L) m) Q -> runs (x ← node_ref q; k x) (st s L m) Q.
Proof.
  intros Hr HL Hq Hk. apply runs_bind. unfold node_ref. eapply runs_st_fetch; [exact Hq|]. unfold modify, runs. rewrite (st_lookup s L m q n Hq). cbn [mbind option_bind]. unfold runs in Hk. unfold st, upd in *. cbn [nodes next_ptr g_next_ino g_root] in *.
  rewrite (with_refs_cons L m q n Hq) in Hk. unfold held. rewrite set_refcnt_twice. cbn [n_refcnt set_refcnt]. unfold u32. rewrite Z.mod_small; [exact Hk|]. pose proof (Hr q n Hq). pose proof (cnt_nonneg L q). pose proof (cnt_le L q). lia.
Qed.
