(* ===== verification/VfsOps.v ===== *)
(** * The operations on the file system do what they mean.

    [run_op] returns for every operation, from every state of the invariant:
    no freed node is read, no reference is lost, and the result and the view of
    the file system are those of [spec_op]. *)

From S2P Require Import Prelude Bits Bytes KString Ns Jail Cred RamFile Vfs VfsTree VfsLookup VfsSpec VfsInv.

Implicit Types m : gmap nat node.

#[local] Opaque lookup_internal.

(** The mount namespace of a caller starts from nodes of [R]. *)
Definition caller_in (R : nat -> Prop) (s : vfs) (c : caller) : Prop := R (start c s) /\ forall r, mounted c r -> R r.

(** The invariant of a file system whose root is [g]. *)
Definition vfs_inv (R : nat -> Prop) (s : vfs) : Prop := minv R (next_ptr s) (nodes s).

(** The cases of a verdict. *)
Ltac verdict_cases :=
  repeat match goal with
  | |- context [match ?x with _ => _ end] => destruct x eqn:?
  | |- context [if ?x then _ else _] => destruct x eqn:?
  end.

Section ops.
Context (R : nat -> Prop) (try_pid_dir : nat -> list Z -> vfs -> vfs) (Hhook : forall p comp s, try_pid_dir p comp s = s).
Context (kmalloc : Z -> option (list Z)) (Hk : forall n b, kmalloc n = Some b -> blen b = n).
Context (c : caller) (ok : allocs) (Hix : ok_index ok = true).
Context (s : vfs) (I : vfs_inv R s) (Hc : caller_in R s c).
Abbreviation m := (nodes s).

Abbreviation at_ := (node_at try_pid_dir c s).
Abbreviation parent_ := (parent_at try_pid_dir c s).

Definition Post (p : result * afs) (r : result) (s' : vfs) : Prop := r = p.1 /\ view (nodes s') ≡ p.2 /\ vfs_inv R s' /\ g_root s' = g_root s.

Lemma post_st s1 m' r A : g_root s1 = g_root s -> minv R (next_ptr s1) m' -> view m' ≡ A -> Post (r, A) r (st s1 [] m').
Proof. intros Hg Hm Hv. unfold Post, vfs_inv, st, upd. cbn [nodes next_ptr g_root fst snd]. by rewrite with_refs_nil. Qed.

Lemma post_keep r : Post (keep s r) r (st s [] m).
Proof. by apply post_st. Qed.

Lemma runs_start {X} (k : M X) Q : runs k (st s [] m) Q -> runs k s Q.
Proof. by rewrite st_nil. Qed.

Lemma runs_rc (k : M Z) p : runs k (st s [] m) (fun rc => Post p (Rc rc)) -> runs (rc_of k) s (Post p).
Proof. intros H. apply runs_start. unfold rc_of. eapply runs_seq; [exact H|]. intros rc s' Hp. by apply runs_ret. Qed.

Lemma runs_ptr (k : M (option nat)) p : runs k (st s [] m) (fun r => Post p (Ptr r)) -> runs (ptr_of k) s (Post p).
Proof. intros H. apply runs_start. unfold ptr_of. eapply runs_seq; [exact H|]. intros rc s' Hp. by apply runs_ret. Qed.

Lemma roots_alive : roots_live c s m.
Proof. destruct Hc as [H1 H2]. split; [destruct (i_root _ _ _ I _ H1) as (n & Hn & _); by exists n|]. intros r Hr. destruct (i_root _ _ _ I _ (H2 r Hr)) as (n & Hn & _). by exists n. Qed.

Lemma node_at_gives path fl : gives s m (lookup_internal try_pid_dir c 33 path fl) (at_ path fl) /\ forall q, at_ path fl = Some q -> live m q.
Proof.
  destruct (lookup_internal_good try_pid_dir Hhook c s m (i_tree _ _ _ I) (i_refs _ _ _ I) roots_alive 33 path fl) as (r & Hr & Hg).
  assert (E : at_ path fl = r). { unfold node_at. specialize (Hr []). rewrite st_nil in Hr. rewrite Hr; [done|cbn; lia]. }
  rewrite E. split; [done|]. intros q Hq. by destruct (Hg q Hq) as [_ H].
Qed.

Lemma runs_look {Y} path fl L (k : option nat -> M Y) Q : (length L < 8)%nat ->
  ((forall q, at_ path fl = Some q -> live m q) -> runs (k (at_ path fl)) (st s (more (at_ path fl) L) m) Q) -> runs (r ← lookup_internal try_pid_dir c 33 path fl; k r) (st s L m) Q.
Proof. intros HL H. destruct (node_at_gives path fl) as [G1 G2]. apply runs_bind. eapply runs_val; [by apply G1|]. by apply H. Qed.

Lemma parent_gives path : (forall L, (length L < 8)%nat -> parent_of try_pid_dir c path (st s L m) = Some (parent_ path, st s (more (parent_ path).1 L) m)) /\ forall q, (parent_ path).1 = Some q -> live m q.
Proof.
  assert (H : exists r : option nat * list Z, (forall L, (length L < 8)%nat -> parent_of try_pid_dir c path (st s L m) = Some (r, st s (more r.1 L) m)) /\ forall q, r.1 = Some q -> live m q).
  { assert (Hl : forall p x, exists r : option nat * list Z, (forall L, (length L < 8)%nat -> (d ← vfs_lookup try_pid_dir c p; mret (d, x) : M (option nat * list Z)) (st s L m) = Some (r, st s (more r.1 L) m)) /\ forall q, r.1 = Some q -> live m q).
    { intros p x. destruct (node_at_gives p true) as [G1 G2]. exists (at_ p true, x). split; [|done]. intros L HL. unfold mbind, M_bind, vfs_lookup. by rewrite (G1 L HL). }
    unfold parent_of. destruct (last_slash _) as [[|i]|]; [apply Hl| |apply Hl]. destruct (512 <=? S i)%nat; [by exists (None, [])|apply Hl]. }
  destruct H as (r & Hr & Hg). assert (E : parent_ path = r). { unfold parent_at. specialize (Hr []). rewrite st_nil in Hr. rewrite Hr; [done|cbn; lia]. }
  by rewrite E.
Qed.

Lemma runs_parent {Y} path L (k : option nat * list Z -> M Y) Q : (length L < 8)%nat ->
  ((forall q, (parent_ path).1 = Some q -> live m q) -> runs (k (parent_ path)) (st s (more (parent_ path).1 L) m) Q) -> runs (r ← parent_of try_pid_dir c path; k r) (st s L m) Q.
Proof. intros HL H. destruct (parent_gives path) as [G1 G2]. apply runs_bind. eapply runs_val; [by apply G1|]. by apply H. Qed.

(** ** New nodes *)

Lemma live_old q : live m q -> (q < next_ptr s)%nat.
Proof. intros (n & Hn & _). destruct (Nat.le_gt_cases (next_ptr s) q) as [H|H]; [|done]. rewrite (i_fresh _ _ _ I q H) in Hn. done. Qed.

Definition s_next : vfs := mkVfs (nodes s) (S (next_ptr s)) (u32 (g_next_ino s + 1)) (g_root s).

Lemma live_insert q n p : live m p -> q <> p -> live (<[q := n]> m) p.
Proof. intros (n0 & Hn & Hd) Hne. exists n0. by rewrite lookup_insert_ne. Qed.

(** A node made by [node_alloc] enters the directory [d]. *)
Section made.
Context (d : nat) (dn : node) (n : node).
Context (Hd : m !! d = Some dn) (Hdl : n_deleted dn = false) (Hdir : n_type dn = VFS_TYPE_DIR) (Hn : fresh_node n).
Abbreviation q := (next_ptr s).
Abbreviation m1 := (<[q := n]> m).

Lemma made_ne : d <> q.
Proof. assert (d < q)%nat by (apply live_old; by exists dn). lia. Qed.

Lemma made_dir : m1 !! d = Some dn.
Proof. rewrite lookup_insert_ne; [done|]. intros E. by apply made_ne. Qed.

Lemma made_new : m1 !! q = Some n.
Proof. apply lookup_insert_eq. Qed.

Lemma made_entry x : entry m1 d x = entry m d x.
Proof. destruct (new_view R q m I n Hn) as [E _]. apply E. Qed.

(** The name is looked for once more; if it is taken the new node is freed. *)
Lemma runs_made {Y} L (KA : nat -> M Y) (KB : M Y) Q :
  (forall e, entry m d (n_name n) = Some e -> runs (KA e) (st s_next L m) Q) -> (entry m d (n_name n) = None -> runs KB (st s_next L (inserted true m1 d dn q n)) Q) ->
  runs (e ← dir_find d (n_name n); match e with Some e => kfree q;; KA e | None => dir_insert_nolock (ok_index ok) d q;; KB end) (st s_next L m1) Q.
Proof.
  intros HA HB. eapply runs_st_find; [eapply i_tree, new_minv; [exact I|exact Hn]|exact made_dir|]. rewrite made_entry. destruct (entry m d (n_name n)) as [e|] eqn:E.
  - apply runs_free_new; [by apply I|]. by apply HA.
  - rewrite Hix. eapply runs_insert; [exact made_dir|exact made_new|exact made_ne|]. by apply HB.
Qed.

Context (Hfree : entry m d (n_name n) = None).

Lemma made_minv : minv R (S q) (inserted true m1 d dn q n).
Proof.
  destruct Hn as (_ & _ & Hp & _ & Hdel & _). apply enter_minv; try done; [by apply new_minv|apply made_dir|apply made_new|apply made_ne|by rewrite made_entry].
Qed.

Lemma made_view : view (inserted true m1 d dn q n) ≡ link q d (n_name n) (put q (Some (attr_of n)) (view m)).
Proof.
  destruct Hn as (_ & _ & Hp & _ & Hdel & _). rewrite (enter_view R (S q) m1); try done; [by rewrite (new_view R q m I n Hn)|by apply new_minv|apply made_dir|apply made_new|apply made_ne|by rewrite made_entry].
Qed.

Lemma made_live p : live m p -> live (inserted true m1 d dn q n) p.
Proof.
  intros Hp. pose proof (live_old p Hp). assert (Hq : live m1 p) by (apply live_insert; [done|lia]). destruct Hq as (x & Hx & Hxd). destruct (decide (p = d)) as [->|Hne].
  - eexists. split; [apply inserted_dir|done].
  - exists x. split; [|done]. rewrite inserted_other; [done|done|lia].
Qed.

End made.

Lemma keep_next r : Post (keep s r) r (st s_next [] m).
Proof. apply post_st; [done|apply freed_minv, I|done]. Qed.

Lemma refs_next n : fresh_node n -> refs_ok (<[next_ptr s := n]> m).
Proof. intros Hn. apply (new_minv R _ _ I n Hn). Qed.

(** A blank node with name, type and mode, and then contents. *)
Definition blank (name : list Z) (type : vfs_type) (mode : Z) : node :=
  mkNode name type mode (cred_fsuid (c_cred c)) (cred_fsgid (c_cred c)) (g_next_ino s) 0 false new_file [] None None None.
Definition fill (f : rfile) (l : option (list Z)) (n : node) : node := set_symlink l (set_file f n).

Lemma fill_fresh name type mode f l : (type = VFS_TYPE_REG -> rfile_ok f) -> (type = VFS_TYPE_SYM -> is_Some l) -> fresh_node (fill f l (blank name type mode)).
Proof. intros H1 H2. unfold fresh_node, node_ok. cbn. tauto. Qed.

Lemma fill_blank name type mode : fill new_file None (blank name type mode) = blank name type mode.
Proof. done. Qed.

Lemma fill_attr name type mode f l : attr_of (fill f l (blank name type mode)) = new_attr c type mode (content f) l.
Proof. done. Qed.

Lemma content_none size cap : content (mkRfile None size cap) = [].
Proof. apply take_nil. Qed.

Lemma runs_blank {Y} L name type mode (k : option nat -> M Y) Q : blen name < 256 -> Forall (live m) L ->
  (ok_node ok = false -> runs (k None) (st s L m) Q) -> (ok_node ok = true -> runs (k (Some (next_ptr s))) (st s_next L (<[next_ptr s := blank name type mode]> m)) Q) ->
  runs (p ← node_alloc c (ok_node ok) name type mode; k p) (st s L m) Q.
Proof.
  intros Hl HL H1 H2. destruct (ok_node ok); [|by apply runs_bind, H1]. apply runs_alloc; [by apply I|..].
  - intros Hin. rewrite Forall_forall in HL. pose proof (live_old _ (HL _ Hin)). lia.
  - cbv zeta. rewrite take_ge by (unfold blen in Hl; lia). by apply H2.
Qed.

Lemma fail_keep l L rc : omap Datatypes.id l ≡ₚ L -> Forall (live m) L -> runs (fail l rc) (st s L m) (fun rc' => Post (keep s (Rc rc)) (Rc rc')).
Proof. intros H1 H2. eapply fail_run; [apply I|done|done|apply post_keep]. Qed.

Lemma fail_next l L rc : omap Datatypes.id l ≡ₚ L -> Forall (live m) L -> runs (fail l rc) (st s_next L m) (fun rc' => Post (keep s (Rc rc)) (Rc rc')).
Proof. intros H1 H2. eapply fail_run; [apply I|done|done|apply keep_next]. Qed.

(** The node [n] is in directory [d] now, and the references are dropped. *)
Lemma fail_made d dn n l L r :
  m !! d = Some dn -> n_deleted dn = false -> n_type dn = VFS_TYPE_DIR -> fresh_node n -> entry m d (n_name n) = None -> omap Datatypes.id l ≡ₚ L -> Forall (live m) L ->
  unrefs l (st s_next L (inserted true (<[next_ptr s := n]> m) d dn (next_ptr s) n)) = Some (tt, st s_next [] (inserted true (<[next_ptr s := n]> m) d dn (next_ptr s) n)) /\
  Post (r, add s d (n_name n) (attr_of n)) r (st s_next [] (inserted true (<[next_ptr s := n]> m) d dn (next_ptr s) n)).
Proof.
  intros Hd Hdl Hdir Hn Hfree Hl HL. pose proof (made_minv d dn n Hd Hdl Hdir Hn Hfree) as Hm. split.
  - apply unrefs_run; [apply Hm|done|]. eapply Forall_impl; [exact HL|]. intros p Hp. by apply made_live.
  - apply post_st; [done|exact Hm|by apply made_view].
Qed.

Lemma insert_new_run d dn n x : m !! d = Some dn -> n_deleted dn = false -> n_type dn = VFS_TYPE_DIR -> fresh_node n -> n_name n = x ->
  runs (insert_new ok d (next_ptr s) x) (st s_next [d] (<[next_ptr s := n]> m)) (fun rc => Post (spec_insert s d x (attr_of n)) (Rc rc)).
Proof.
  intros Hd Hdl Hdir Hn Hx. subst x. assert (Hlive : Forall (live m) [d]) by (repeat constructor; by exists dn). unfold insert_new, spec_insert. eapply (runs_made d dn n Hd Hdl Hn).
  - intros e ->. by apply fail_next.
  - intros E. rewrite E. destruct (fail_made d dn n [Some d] [d] (Rc 0) Hd Hdl Hdir Hn E (Permutation_refl _) Hlive) as [E1 E2]. unfold fail. eapply runs_bind, runs_val; [exact E1|]. by apply runs_ret.
Qed.

(** The leaf names are shorter than 256 bytes. *)
Definition short (path : list Z) : Prop := blen (parent_ path).2 < 256.

Lemma mkdir_refines path mode : short path -> runs (run_op try_pid_dir kmalloc c ok (OMkdir path mode)) s (Post (spec_op try_pid_dir kmalloc c ok s (OMkdir path mode))).
Proof.
  intros Hsh. apply runs_rc. cbn [spec_op]. unfold vfs_mkdir, spec_mkdir, vfs_lookup_nofollow. apply runs_look; [cbn; lia|]. intros Hat. destruct (at_ path false) as [e|].
  { apply fail_keep; [done|]. repeat constructor. by apply Hat. }
  destruct (ns_mnt_path_readonly c path); [apply runs_ret, post_keep|]. apply runs_parent; [cbn; lia|]. intros Hpar. unfold short in Hsh. destruct (parent_ path) as [[d|] x]; [|by apply fail_keep].
  destruct (Hpar d eq_refl) as (dn & Hd & Hdl). assert (HL : Forall (live m) [d]) by (repeat constructor; by exists dn). unfold with_node. rewrite Hd. cbn [more fst]. eapply runs_st_fetch; [exact Hd|]. cbn [n_type held set_refcnt].
  destruct (bool_decide (n_type dn = VFS_TYPE_DIR)) eqn:Hdir; [apply bool_decide_eq_true in Hdir|by apply fail_keep]. cbn [negb orb]. destruct (bool_decide (x = [])); [by apply fail_keep|]. change (node_create_in c (held [d] d dn)) with (node_create_in c dn).
  destruct (node_create_in c dn); [|by apply fail_keep]. cbn [negb]. cbn [snd] in Hsh. apply runs_blank; [done|done|intros ->; by apply fail_keep|]. intros ->. cbn [negb].
  by eapply insert_new_run.
Qed.

Lemma mknod_refines path mode : short path -> runs (run_op try_pid_dir kmalloc c ok (OMknod path mode)) s (Post (spec_op try_pid_dir kmalloc c ok s (OMknod path mode))).
Proof.
  intros Hsh. apply runs_rc. cbn [spec_op]. unfold vfs_mknod, spec_mknod. destruct (ns_mnt_path_readonly c path); [apply runs_ret, post_keep|]. apply runs_parent; [cbn; lia|]. intros Hpar. unfold short in Hsh.
  destruct (parent_ path) as [[d|] x]; [|by apply fail_keep]. destruct (Hpar d eq_refl) as (dn & Hd & Hdl). assert (HL : Forall (live m) [d]) by (repeat constructor; by exists dn). unfold with_node. rewrite Hd. cbn [more fst]. eapply runs_st_fetch; [exact Hd|]. cbn [n_type held set_refcnt].
  destruct (bool_decide (n_type dn = VFS_TYPE_DIR)) eqn:Hdir; [apply bool_decide_eq_true in Hdir|by apply fail_keep]. cbn [negb]. destruct (bool_decide (x = [])); [by apply fail_keep|]. destruct (cred_is_root (c_cred c)); [|by apply fail_keep].
  change (node_create_in c (held [d] d dn)) with (node_create_in c dn). destruct (node_create_in c dn); [|by apply fail_keep]. cbn [negb]. cbn [snd] in Hsh. apply runs_blank; [done|done|intros ->; by apply fail_keep|]. intros ->. cbn [negb].
  eapply insert_new_run; try done. apply (fill_fresh x _ _ new_file None); [intros _; apply new_file_ok|]. by destruct (_ =? S_IFDIR).
Qed.

Lemma unref_ret {Y} s1 d (r : Y) m' (Q : Y -> vfs -> Prop) : refs_ok m' -> live m' d -> Q r (st s1 [] m') -> runs (node_unref (Some d);; mret r) (st s1 [d] m') Q.
Proof. intros Hr (n & Hn & Hd) HQ. eapply runs_bind, runs_val; [by apply (unref_run s1 [] m' d n)|]. by apply runs_ret. Qed.

Lemma unref_keep d r : live m d -> runs (node_unref (Some d);; mret r) (st s [d] m) (fun p => Post (keep s (Ptr r)) (Ptr p)).
Proof. intros Hd. apply unref_ret; [apply I|done|apply post_keep]. Qed.

Lemma unref_next d r : live m d -> runs (node_unref (Some d);; mret r) (st s_next [d] m) (fun p => Post (keep s (Ptr r)) (Ptr p)).
Proof. intros Hd. apply unref_ret; [apply I|done|apply keep_next]. Qed.

(** The end of the functions that return the new node. *)
Lemma new_run d dn n x : m !! d = Some dn -> n_deleted dn = false -> n_type dn = VFS_TYPE_DIR -> fresh_node n -> n_name n = x -> entry m d x = None ->
  runs (node_unref (Some d);; mret (Some (next_ptr s))) (st s_next [d] (inserted true (<[next_ptr s := n]> m) d dn (next_ptr s) n)) (fun p => Post (Ptr (Some (next_ptr s)), add s d x (attr_of n)) (Ptr p)).
Proof.
  intros Hd Hdl Hdir Hn Hx E. subst x. assert (Hlive : Forall (live m) [d]) by (repeat constructor; by exists dn). destruct (fail_made d dn n [Some d] [d] (Ptr (Some (next_ptr s))) Hd Hdl Hdir Hn E (Permutation_refl _) Hlive) as [_ E2].
  apply unref_ret; [|by apply made_live; try done; exists dn|exact E2]. eapply i_refs. by eapply made_minv.
Qed.

Lemma new_end d dn n x : m !! d = Some dn -> n_deleted dn = false -> n_type dn = VFS_TYPE_DIR -> fresh_node n -> n_name n = x ->
  runs (e ← dir_find d x; match e with Some _ => kfree (next_ptr s);; node_unref (Some d);; mret None | None => dir_insert_nolock (ok_index ok) d (next_ptr s);; node_unref (Some d);; mret (Some (next_ptr s)) end)
    (st s_next [d] (<[next_ptr s := n]> m)) (fun p => Post (spec_new s d x (attr_of n)) (Ptr p)).
Proof.
  intros Hd Hdl Hdir Hn Hx. subst x. unfold spec_new. eapply (runs_made d dn n Hd Hdl Hn); [intros e ->; apply unref_next; by exists dn|]. intros E. rewrite E. by eapply new_run.
Qed.

Lemma create_in_dir dn : node_create_in c dn = true -> n_type dn = VFS_TYPE_DIR.
Proof. unfold node_create_in, may_create_in. cbn [v_is_dir perm_of]. intros [H _]%andb_prop. by apply bool_decide_eq_true in H. Qed.

Lemma symlink_refines path target : short path -> runs (run_op try_pid_dir kmalloc c ok (OSymlink path target)) s (Post (spec_op try_pid_dir kmalloc c ok s (OSymlink path target))).
Proof.
  intros Hsh. apply runs_ptr. cbn [spec_op]. unfold vfs_create_symlink, spec_symlink. destruct (ns_mnt_path_readonly c path); [apply runs_ret, post_keep|]. apply runs_parent; [cbn; lia|]. intros Hpar. unfold short in Hsh.
  destruct (parent_ path) as [[d|] x]; [|apply runs_ret, post_keep]. destruct (Hpar d eq_refl) as (dn & Hd & Hdl). assert (HL : live m d) by (by exists dn). unfold with_node. rewrite Hd. cbn [more fst]. eapply runs_st_fetch; [exact Hd|].
  change (node_create_in c (held [d] d dn)) with (node_create_in c dn). destruct (node_create_in c dn) eqn:Hcr; [|by apply unref_keep]. cbn [negb orb]. apply create_in_dir in Hcr. cbn [snd] in Hsh.
  apply runs_blank; [done|by repeat constructor|intros ->; by apply unref_keep|]. intros ->. cbn [negb orb]. destruct (ok_data ok); cbn [negb]; [|apply runs_free_new; [by apply I|by apply unref_next]].
  eapply runs_st_modify; [apply lookup_insert_eq|by intros|]. rewrite insert_insert_eq. pose proof (fill_attr x VFS_TYPE_SYM (Z.lor 0x1ff S_IFLNK) (mkRfile None (blen (take 511 target)) 0) (Some (take 511 target))) as E.
  rewrite content_none in E. rewrite <- E. by eapply new_end.
Qed.

Lemma chr_refines path : short path -> (forall d n, (parent_ path).1 = Some d -> m !! d = Some n -> n_type n = VFS_TYPE_DIR) ->
  runs (run_op try_pid_dir kmalloc c ok (OChr path)) s (Post (spec_op try_pid_dir kmalloc c ok s (OChr path))).
Proof.
  intros Hsh Hdir. apply runs_ptr. cbn [spec_op]. unfold vfs_create_chr, spec_chr. apply runs_parent; [cbn; lia|]. intros Hpar. unfold short in Hsh.
  destruct (parent_ path) as [[d|] x]; [|apply runs_ret, post_keep]. destruct (Hpar d eq_refl) as (dn & Hd & Hdl). assert (HL : live m d) by (by exists dn). cbn [more fst snd] in *.
  apply runs_blank; [done|by repeat constructor|intros ->; by apply unref_keep|]. intros ->. cbn [negb]. eapply (new_end d dn (blank x VFS_TYPE_CHR (Z.lor 0x1b6 S_IFCHR))); try done. by apply (Hdir d).
Qed.

Lemma data_ok data : rfile_ok (if 0 <? blen data then mkRfile (Some data) (blen data) (blen data) else new_file).
Proof. destruct (Z.ltb_spec 0 (blen data)); [|apply new_file_ok]. split; cbn; unfold blen in *; lia. Qed.

Lemma data_content data : content (if 0 <? blen data then mkRfile (Some data) (blen data) (blen data) else new_file) = data.
Proof.
  destruct (Z.ltb_spec 0 (blen data)) as [H|H]; unfold content; cbn [r_size r_data from_option Datatypes.id new_file]; [apply take_ge; unfold blen; lia|]. destruct data; [done|]. unfold blen in H. cbn [length] in H. lia.
Qed.

(** A file that exists has got other contents. *)
Lemma rewritten_end e en d dn f data r : m !! e = Some en -> m !! d = Some dn -> n_deleted dn = false -> rfile_ok f -> content f = data ->
  runs (node_unref (Some d);; mret r) (st s_next [d] (<[e := set_file f en]> m)) (fun p => Post (Ptr r, set_attr s e en (n_mode en) (n_uid en) (n_gid en) data) (Ptr p)).
Proof.
  intros Hen Hd Hdl Hf <-. assert (Hok : node_ok (set_file f en)) by (split; [done|apply (i_node _ _ _ I e en Hen)]). pose proof (change_minv R (next_ptr s) m I e en (set_file f en) Hen eq_refl eq_refl Hok) as Hm.
  apply unref_ret; [apply Hm|destruct (decide (d = e)) as [->|Hne]; [eexists; split; [apply lookup_insert_eq|]; assert (en = dn) as -> by congruence; done|exists dn; by rewrite lookup_insert_ne]|].
  apply post_st; [done|apply (freed_minv _ _ _ Hm)|]. by rewrite (change_view m e en (set_file f en) Hen eq_refl).
Qed.

Lemma create_refines path mode data : short path -> runs (run_op try_pid_dir kmalloc c ok (OCreate path mode data)) s (Post (spec_op try_pid_dir kmalloc c ok s (OCreate path mode data))).
Proof.
  intros Hsh. apply runs_ptr. cbn [spec_op]. unfold vfs_create_file, spec_create. destruct (ns_mnt_path_readonly c path); [apply runs_ret, post_keep|]. apply runs_parent; [cbn; lia|]. intros Hpar. unfold short in Hsh.
  destruct (parent_ path) as [[d|] x]; [|apply runs_ret, post_keep]. destruct (Hpar d eq_refl) as (dn & Hd & Hdl). assert (HL : live m d) by (by exists dn). unfold with_node. rewrite Hd. cbn [more fst snd] in *.
  unfold is_dir. apply runs_bind. eapply runs_st_fetch; [exact Hd|]. apply runs_ret. cbn [n_type held set_refcnt]. destruct (bool_decide (n_type dn = VFS_TYPE_DIR)) eqn:Hdir; [apply bool_decide_eq_true in Hdir|by apply unref_keep]. cbn [negb orb].
  apply runs_blank; [done|by repeat constructor|intros ->; by apply unref_keep|]. intros ->. cbn [negb orb]. destruct ((0 <? blen data) && negb (ok_data ok)); [apply runs_free_new; [by apply I|by apply unref_next]|].
  set (f := if 0 <? blen data then _ else _). assert (Hf : rfile_ok f) by apply data_ok. assert (Hcf : content f = data) by apply data_content. clearbody f.
  eapply runs_st_modify; [apply lookup_insert_eq|by intros|]. rewrite insert_insert_eq. set (n := set_file f _). assert (Hn : fresh_node n) by (by apply (fill_fresh x VFS_TYPE_REG _ f None)).
  eapply (runs_made d dn n Hd Hdl Hn).
  - intros e Ee. change (n_name n) with x in Ee. rewrite Ee. destruct (entry_in _ _ _ _ Ee) as (dn' & Hdn' & Hin & _). destruct (t_child m (i_tree _ _ _ I) d dn' e Hdn' Hin) as (en & Hen & _). rewrite Hen.
    eapply runs_st_fetch; [exact Hen|]. cbn [n_type held set_refcnt]. destruct (bool_decide (n_type en = VFS_TYPE_REG)) eqn:Et; cbn [negb]; [apply bool_decide_eq_true in Et|by apply unref_next].
    eapply runs_st_modify; [exact Hen|by intros|]. assert (Hk1 : content new_file = []) by done. destruct ((0 <? blen data) && negb (ok_again ok)); [by apply (rewritten_end e en d dn new_file [] None); try done; apply new_file_ok|].
    eapply runs_st_modify; [apply lookup_insert_eq|by intros|]. rewrite insert_insert_eq. by apply (rewritten_end e en d dn f data (Some e)).
  - intros Ee. change (n_name n) with x in Ee. rewrite Ee. replace (new_attr _ _ _ _ _) with (attr_of n) by (rewrite <- Hcf; done). by eapply new_run.
Qed.

(** ** Removing nodes *)

Lemma remove_run q n : m !! q = Some n -> n_deleted n = false -> n_children n = [] -> n_parent n <> Some q ->
  runs (remove_node c q (held [q] q n)) (st s [q] m) (fun rc => Post (spec_remove c s q n) (Rc rc)).
Proof.
  intros Hq Hdel Hch Hself. assert (HL : Forall (live m) [q]) by (repeat constructor; by exists n). unfold remove_node, spec_remove. cbn [n_parent held set_refcnt]. destruct (n_parent n) as [d|] eqn:Hp; [|by apply fail_keep].
  assert (Hdq : d <> q) by congruence. destruct (t_parent m (i_tree _ _ _ I) q n d Hq Hp Hdq) as (dn & Hd & Hin). unfold with_node. rewrite Hd. eapply runs_st_fetch; [exact Hd|].
  change (node_delete_in c (held [q] d dn) (held [q] q n)) with (node_delete_in c dn n). destruct (node_delete_in c dn n); [|by apply fail_keep]. cbn [negb].
  eapply runs_remove; [apply I|exact Hd|exact Hin|exact Hq|]. pose proof (i_refs _ _ _ I q n Hq) as Hr.
  assert (HR : R q -> 0 < n_refcnt n) by (intros HRq; destruct (i_root _ _ _ I q HRq) as (n' & Hn' & [Ho|Ho]); assert (n' = n) as -> by congruence; [done|congruence]).
  pose proof (leave_minv R _ m I d dn q n Hd Hq Hp Hdq HR) as Hm. pose proof (leave_node m d dn q n) as Hq'.
  eapply runs_release; [exact Hq'|apply not_elem_of_nil|cbn; lia|]. apply runs_ret. 
  apply post_st; [done|by apply gone_minv|]. rewrite (gone_view R (next_ptr s) _ Hm q (set_parent None n) Hq' eq_refl Hch). unfold discard. by rewrite (leave_view R _ m I d dn q n Hd Hq Hp Hdq).
Qed.

(** The node is not the root of the file system or of a mount. *)
Definition placed (r : option nat) : Prop := forall q n, r = Some q -> m !! q = Some n -> n_parent n <> Some q.

Lemma leaf_children q n : m !! q = Some n -> n_type n <> VFS_TYPE_DIR -> n_children n = [].
Proof. intros Hq Ht. destruct (decide (n_children n = [])) as [E|E]; [done|]. by destruct (t_dir m (i_tree _ _ _ I) q n Hq E). Qed.

Lemma unlink_refines path : placed (at_ path false) -> runs (run_op try_pid_dir kmalloc c ok (OUnlink path)) s (Post (spec_op try_pid_dir kmalloc c ok s (OUnlink path))).
Proof.
  intros Hpl. apply runs_rc. cbn [spec_op]. unfold vfs_unlink, spec_unlink. destruct (ns_mnt_path_readonly c path); [apply runs_ret, post_keep|]. unfold vfs_lookup_nofollow. apply runs_look; [cbn; lia|]. intros Hat.
  destruct (at_ path false) as [q|]; [|apply runs_ret, post_keep]. destruct (Hat q eq_refl) as (n & Hq & Hdel). unfold with_node. rewrite Hq. cbn [more]. eapply runs_st_fetch; [exact Hq|]. cbn [n_type held set_refcnt].
  case_bool_decide as Ht; [apply fail_keep; [done|repeat constructor; by exists n]|]. apply remove_run; try done; [by eapply leaf_children|by apply (Hpl q)].
Qed.

Lemma rmdir_refines path : placed (at_ path true) -> runs (run_op try_pid_dir kmalloc c ok (ORmdir path)) s (Post (spec_op try_pid_dir kmalloc c ok s (ORmdir path))).
Proof.
  intros Hpl. apply runs_rc. cbn [spec_op]. unfold vfs_rmdir, spec_rmdir. destruct (ns_mnt_path_readonly c path); [apply runs_ret, post_keep|]. unfold vfs_lookup. apply runs_look; [cbn; lia|]. intros Hat.
  destruct (at_ path true) as [q|]; [|apply runs_ret, post_keep]. destruct (Hat q eq_refl) as (n & Hq & Hdel). assert (HL : Forall (live m) [q]) by (repeat constructor; by exists n). unfold with_node. rewrite Hq. cbn [more].
  eapply runs_st_fetch; [exact Hq|]. cbn [n_type n_children held set_refcnt]. case_bool_decide as Ht; cbn [negb]; [|by apply fail_keep]. case_bool_decide as Hch; cbn [negb]; [|by apply fail_keep]. apply remove_run; try done. by apply (Hpl q).
Qed.

(** ** Renaming *)

(** The checks let only a node without children be replaced. *)
Lemma replace_childless np e en n : m !! e = Some en -> replace_error c np en n = 0 -> n_children en = [].
Proof.
  intros He. unfold replace_error. destruct (negb _); [done|]. case_bool_decide as Ht; [|intros _; by eapply leaf_children]. destruct (negb (bool_decide (n_type n = _))); [done|]. case_bool_decide; [done|]. done.
Qed.

Lemma replace_codes np en n : replace_error c np en n <= 0.
Proof. unfold replace_error, EACCES, EISDIR, ENOTEMPTY, ENOTDIR. repeat match goal with |- context [if ?b then _ else _] => destruct b end; lia. Qed.

(** The node that has the new name is removed. *)
Lemma replace_run {Y} np npn e en q (k : unit -> M Y) Q : m !! np = Some npn -> entry m np (n_name en) = Some e -> m !! e = Some en -> n_children en = [] -> e <> q -> np <> q ->
  (forall m', minv R (next_ptr s) m' -> view m' ≡ discard e en (unlink e (view m)) -> m' !! q = m !! q -> runs (k tt) (st s [np; q] m') Q) ->
  runs (dir_remove np e;; node_unlink_or_destroy e;; x ← node_unref (Some e); k x) (st s [e; np; q] m) Q.
Proof.
  intros Hnp Ee He Hch Heq Hnq Hk'. destruct (entry_in _ _ _ _ Ee) as (npn' & Hnp' & Hin & _). assert (npn' = npn) as -> by congruence. destruct (t_child m (i_tree _ _ _ I) np npn e Hnp Hin) as (en' & He' & Hpar & Hne & Hdel). assert (en' = en) as -> by congruence.
  eapply runs_remove; [apply I|exact Hnp|exact Hin|exact He|]. assert (Hs : n_parent en <> Some e) by congruence. assert (Hne' : np <> e) by done.
  pose proof (leave_minv R _ m I np npn e en Hnp He Hpar Hne' (root_counted R _ m I e en He Hs)) as I1. pose proof (leave_view R _ m I np npn e en Hnp He Hpar Hne') as V1. pose proof (leave_node m np npn e en) as He1.
  assert (Hq1 : removed m np npn e en !! q = m !! q) by (by apply removed_other). set (m1 := removed m np npn e en) in *. clearbody m1. pose proof (i_refs _ _ _ I e en He).
  eapply runs_release; [exact He1|apply not_elem_of_cons; split; [done|]; apply not_elem_of_cons; split; [done|apply not_elem_of_nil]|cbn; lia|]. apply Hk'; [by apply gone_minv| |].
  - rewrite (gone_view R (next_ptr s) m1 I1 e (set_parent None en) He1 eq_refl Hch). unfold discard. by rewrite V1.
  - unfold gone. case_match; [by rewrite lookup_delete_ne|by rewrite lookup_insert_ne].
Qed.

Lemma move_end q np r A m' : live m q -> live m np -> att A q = att (view m) q -> att A np = att (view m) np -> minv R (next_ptr s) m' -> view m' ≡ A ->
  runs (fail [Some q; Some np] r) (st s [np; q] m') (fun rc => Post (Rc r, A) (Rc rc)).
Proof.
  intros Hq Hnp Aq Anp Hm HA. eapply fail_run; [apply Hm|apply perm_swap| |by apply post_st]. destruct HA as [_ HA]. repeat constructor; (eapply live_att; [|done]); by rewrite HA.
Qed.

Lemma rename_into_run q n d np npn x : m !! q = Some n -> n_deleted n = false -> n_parent n = Some d -> d <> q -> m !! np = Some npn -> n_deleted npn = false -> n_type npn = VFS_TYPE_DIR -> np <> q -> blen x < 256 -> entry m np x <> Some q ->
  runs (rename_into c ok q d np x) (st s [np; q] m)
    (fun rc => Post (match entry m np x with
                     | None => (Rc 0, link q np x (unlink q (view m)))
                     | Some e => with_node s e (fun en => let rc := replace_error c npn en n in if rc <? 0 then keep s (Rc rc) else (Rc 0, link q np x (unlink q (discard e en (unlink e (view m))))))
                     end) (Rc rc)).
Proof.
  intros Hq Hdel Hp Hdq Hnp Hnd Hdir Hnq Hx Hother. assert (Lq : live m q) by (by exists n). assert (Lnp : live m np) by (by exists npn). unfold rename_into. rewrite Hix. eapply runs_st_find; [apply I|exact Hnp|].
  destruct (entry m np x) as [e|] eqn:Ee.
  - assert (Heq : e <> q) by congruence. destruct (entry_in _ _ _ _ Ee) as (npn' & Hnp' & Hin & Hname). assert (npn' = npn) as -> by congruence. destruct (t_child m (i_tree _ _ _ I) np npn e Hnp Hin) as (en & He & Hpar & Hne & Hed).
    unfold named in Hname. rewrite He in Hname. injection Hname as Hname. unfold with_node. rewrite He. apply runs_bind. eapply runs_node_ref; [apply I|cbn; lia|exact He|]. eapply runs_st_fetch; [exact Hnp|]. eapply runs_st_fetch; [exact He|]. eapply runs_st_fetch; [exact Hq|].
    change (replace_error c (held _ np npn) (held _ e en) (held _ q n)) with (replace_error c npn en n). cbv zeta. pose proof (replace_codes npn en n) as Hrc. destruct (Z.ltb_spec (replace_error c npn en n) 0) as [Hlt|Hge].
    { eapply runs_mono; [apply (fail_keep [Some e; Some q; Some np] [e; np; q]); [apply perm_skip, perm_swap|repeat constructor; try done; by exists en]|]. intros rc s' Hpost. assert (rc = replace_error c npn en n) as -> by (destruct Hpost as [E _]; by injection E).
      rewrite (proj2 (Z.ltb_lt _ _) Hlt). by apply runs_ret. }
    assert (Hz : replace_error c npn en n = 0) by lia. subst x. eapply replace_run; try done; [by eapply replace_childless|]. intros m' I' V' Hq'. apply runs_ret. cbn [Z.ltb Z.compare].
    destruct V' as [Ve Va]. assert (Anp : att (view m') np = att (view m) np) by (rewrite Va; cbn; by case_decide). assert (Aq : att (view m') q = att (view m) q) by (rewrite Va; cbn; by case_decide).
    eapply runs_move; [exact I'|by rewrite Hq'|done|done|done|done|done| | |].
    + destruct (att_node m m' np npn Anp Hnp) as (npn1 & Hnp1 & Ha). exists npn1. split; [done|]. split; [change (a_type (attr_of npn1) = VFS_TYPE_DIR)|change (a_deleted (attr_of npn1) = false)]; by rewrite Ha.
    + specialize (Ve np (n_name en)). cbn in Ve. rewrite Ve, Ee. by rewrite decide_True.
    + intros m2 I2 V2. assert (V' : view m' ≡ discard e en (unlink e (view m))) by (by split). rewrite V' in V2. apply move_end; try done; cbn; by case_decide.
  - apply runs_bind, runs_ret. cbn [Z.ltb Z.compare]. eapply runs_move; [exact I|done|done|done|done|done|done|by exists npn|done|]. intros m2 I2 V2. by apply move_end.
Qed.

Lemma rename_refines oldpath newpath : short newpath -> placed (at_ oldpath false) ->
  (forall q, at_ oldpath false = Some q -> (parent_ newpath).1 <> Some q /\ forall np, (parent_ newpath).1 = Some np -> entry m np (parent_ newpath).2 <> Some q) ->
  runs (run_op try_pid_dir kmalloc c ok (ORename oldpath newpath)) s (Post (spec_op try_pid_dir kmalloc c ok s (ORename oldpath newpath))).
Proof.
  intros Hsh Hpl Hself. apply runs_rc. cbn [spec_op]. unfold vfs_rename, spec_rename. destruct (_ || _); [apply runs_ret, post_keep|]. unfold vfs_lookup_nofollow. apply runs_look; [cbn; lia|]. intros Hat.
  destruct (at_ oldpath false) as [q|]; [|apply runs_ret, post_keep]. destruct (Hat q eq_refl) as (n & Hq & Hdel). destruct (Hself q eq_refl) as [Hs1 Hs2]. unfold with_node at 1. rewrite Hq. cbn [more]. eapply runs_st_fetch; [exact Hq|]. cbn [n_parent held set_refcnt].
  assert (HL : Forall (live m) [q]) by (repeat constructor; by exists n). destruct (n_parent n) as [d|] eqn:Hp; [|by apply fail_keep]. assert (Hdq : d <> q) by (intros ->; by apply (Hpl q n)). apply runs_parent; [cbn; lia|]. intros Hpar. unfold short in Hsh.
  destruct (parent_ newpath) as [[np|] x]; cbn [fst snd more] in *; [|by apply fail_keep]. destruct (Hpar np eq_refl) as (npn & Hnp & Hnd). assert (Hnq : np <> q) by congruence. assert (HL2 : Forall (live m) [np; q]) by (constructor; [by exists npn|done]).
  destruct (t_parent m (i_tree _ _ _ I) q n d Hq Hp Hdq) as (dn & Hd & Hin). unfold with_node at 1 2. rewrite Hnp, Hd. eapply runs_st_fetch; [exact Hnp|]. cbn [n_type held set_refcnt].
  destruct (bool_decide (n_type npn = VFS_TYPE_DIR)) eqn:Hdir; [apply bool_decide_eq_true in Hdir|by apply fail_keep; [apply perm_swap|]]. cbn [negb]. destruct (bool_decide (x = [])); [by apply fail_keep; [apply perm_swap|]|].
  eapply runs_st_fetch; [exact Hd|]. eapply runs_st_fetch; [exact Hq|]. change (node_delete_in c (held _ d dn) (held _ q n)) with (node_delete_in c dn n). change (node_create_in c (held _ np npn)) with (node_create_in c npn).
  destruct (_ || _); [by apply fail_keep; [apply perm_swap|]|]. apply rename_into_run; try done. by apply Hs2.
Qed.

(** The two nodes, without a place and renamed, are entered. *)
Lemma exchange_end q1 n1 d1 dn1 q2 n2 d2 dn2 m' : m !! d1 = Some dn1 -> n_type dn1 = VFS_TYPE_DIR -> n_deleted dn1 = false -> m !! d2 = Some dn2 -> n_type dn2 = VFS_TYPE_DIR -> n_deleted dn2 = false ->
  entry m d1 (n_name n2) = Some q1 -> entry m d2 (n_name n1) = Some q2 -> live m q1 -> live m q2 -> q1 <> q2 -> d2 <> q1 -> d1 <> q2 -> d2 <> q2 ->
  minv R (next_ptr s) m' -> view m' ≡ unlink q2 (unlink q1 (view m)) -> m' !! q1 = Some n1 -> m' !! q2 = Some n2 -> n_parent n1 = None -> n_parent n2 = None -> n_deleted n1 = false -> n_deleted n2 = false ->
  runs (dir_insert_nolock true d2 q1;; dir_insert_nolock true d1 q2;; fail [Some q1; Some q2] 0) (st s [q2; q1] m')
    (fun rc => Post (Rc 0, link q2 d1 (n_name n2) (link q1 d2 (n_name n1) (unlink q2 (unlink q1 (view m))))) (Rc rc)).
Proof.
  intros Hd1 T1 D1 Hd2 T2 D2 E1 E2 L1 L2 Hne H21 H12 H22 I' V' Hq1 Hq2 P1 P2 X1 X2.
  assert (Hdir : forall m0 d dn, att (view m0) d = att (view m) d -> m !! d = Some dn -> n_type dn = VFS_TYPE_DIR -> n_deleted dn = false -> exists dn', m0 !! d = Some dn' /\ n_type dn' = VFS_TYPE_DIR /\ n_deleted dn' = false).
  { intros m0 d dn Ha Hd Ht Hl. destruct (att_node m m0 d dn Ha Hd) as (dn' & Hd' & Ha'). exists dn'. split; [done|]. split; [change (a_type (attr_of dn') = VFS_TYPE_DIR)|change (a_deleted (attr_of dn') = false)]; by rewrite Ha'. }
  destruct (Hdir m' d2 dn2) as (dn2' & Hd2' & T2' & D2'); try done; [by destruct V' as [_ ->]|].
  assert (F1 : entry m' d2 (n_name n1) = None). { destruct V' as [V' _]. specialize (V' d2 (n_name n1)). cbn in V'. rewrite V', E2. destruct (decide (Some q2 = Some q1)); [congruence|]. by rewrite decide_True. }
  eapply runs_insert; [exact Hd2'|exact Hq1|done|]. pose proof (enter_minv R _ m' I' d2 dn2' q1 n1 Hd2' T2' D2' Hq1 P1 X1 H21 F1) as I5. pose proof (enter_view R _ m' I' d2 dn2' q1 n1 Hd2' T2' D2' Hq1 P1 X1 H21 F1) as V5. rewrite V' in V5.
  assert (Hq2' : inserted true m' d2 dn2' q1 n1 !! q2 = Some n2) by (rewrite inserted_other; try done; congruence). set (m5 := inserted true m' d2 dn2' q1 n1) in *. clearbody m5.
  destruct (Hdir m5 d1 dn1) as (dn1' & Hd1' & T1' & D1'); try done; [by destruct V5 as [_ ->]|].
  assert (F2 : entry m5 d1 (n_name n2) = None). { destruct V5 as [V5 _]. specialize (V5 d1 (n_name n2)). cbn in V5. rewrite V5, E1. case_decide as G; [destruct G as [-> G]; rewrite G in E1; congruence|]. destruct (decide (Some q1 = Some q1)); [|done]. by rewrite decide_False. }
  eapply runs_insert; [exact Hd1'|exact Hq2'|done|]. pose proof (enter_minv R _ m5 I5 d1 dn1' q2 n2 Hd1' T1' D1' Hq2' P2 X2 H12 F2) as I6. pose proof (enter_view R _ m5 I5 d1 dn1' q2 n2 Hd1' T1' D1' Hq2' P2 X2 H12 F2) as V6. rewrite V5 in V6.
  apply move_end; done.
Qed.

(** Two names in a directory, or in two, are exchanged. *)
Lemma exchange_run q1 n1 d1 q2 n2 d2 : m !! q1 = Some n1 -> n_deleted n1 = false -> n_parent n1 = Some d1 -> d1 <> q1 -> m !! q2 = Some n2 -> n_deleted n2 = false -> n_parent n2 = Some d2 -> d2 <> q2 -> q1 <> q2 -> d1 <> q2 -> d2 <> q1 ->
  runs (dir_remove d1 q1;; dir_remove d2 q2;; modify q1 (set_name (n_name n2));; modify q2 (set_name (n_name n1));; dir_insert_nolock true d2 q1;; dir_insert_nolock true d1 q2;; fail [Some q1; Some q2] 0) (st s [q2; q1] m)
    (fun rc => Post (Rc 0, link q2 d1 (n_name n1) (link q1 d2 (n_name n2) (unlink q2 (unlink q1 (view m))))) (Rc rc)).
Proof.
  intros Hq1 Hl1 Hp1 Hs1 Hq2 Hl2 Hp2 Hs2 Hne H12 H21. assert (L1 : live m q1) by (by exists n1). assert (L2 : live m q2) by (by exists n2).
  destruct (t_parent m (i_tree _ _ _ I) q1 n1 d1 Hq1 Hp1 Hs1) as (dn1 & Hd1 & Hin1). destruct (t_parent m (i_tree _ _ _ I) q2 n2 d2 Hq2 Hp2 Hs2) as (dn2 & Hd2 & Hin2).
  assert (E1 : entry m d1 (n_name n1) = Some q1) by (by apply (entry_name R _ m I d1 dn1 q1 n1)). assert (E2 : entry m d2 (n_name n2) = Some q2) by (by apply (entry_name R _ m I d2 dn2 q2 n2)).
  assert (Hdir : forall d dn q, m !! d = Some dn -> q ∈ n_children dn -> n_type dn = VFS_TYPE_DIR /\ n_deleted dn = false) by (intros d dn q Hd Hin; apply (t_dir m (i_tree _ _ _ I) d dn Hd); by intros Hnil; rewrite Hnil in Hin; inversion Hin).
  destruct (Hdir _ _ _ Hd1 Hin1) as [T1 D1]. destruct (Hdir _ _ _ Hd2 Hin2) as [T2 D2]. clear Hdir. assert (Hn1 : n_parent n1 <> Some q1) by congruence. assert (Hn2 : n_parent n2 <> Some q2) by congruence.
  (* taken out of their directories *)
  eapply runs_remove; [apply I|exact Hd1|exact Hin1|exact Hq1|]. pose proof (leave_minv R _ m I d1 dn1 q1 n1 Hd1 Hq1 Hp1 Hs1 (root_counted R _ m I q1 n1 Hq1 Hn1)) as I1. pose proof (leave_view R _ m I d1 dn1 q1 n1 Hd1 Hq1 Hp1 Hs1) as V1.
  pose proof (leave_node m d1 dn1 q1 n1) as A1. assert (A2 : removed m d1 dn1 q1 n1 !! q2 = Some n2) by (by rewrite removed_other). set (m1 := removed m d1 dn1 q1 n1) in *. clearbody m1.
  destruct (t_parent m1 (i_tree _ _ _ I1) q2 n2 d2 A2 Hp2 Hs2) as (dn2' & Hd2' & Hin2'). eapply runs_remove; [apply I1|exact Hd2'|exact Hin2'|exact A2|].
  pose proof (leave_minv R _ m1 I1 d2 dn2' q2 n2 Hd2' A2 Hp2 Hs2 (root_counted R _ m1 I1 q2 n2 A2 Hn2)) as I2. pose proof (leave_view R _ m1 I1 d2 dn2' q2 n2 Hd2' A2 Hp2 Hs2) as V2. pose proof (leave_node m1 d2 dn2' q2 n2) as B2.
  assert (B1 : removed m1 d2 dn2' q2 n2 !! q1 = Some (set_parent None n1)) by (by rewrite removed_other). set (m2 := removed m1 d2 dn2' q2 n2) in *. clearbody m2. rewrite V1 in V2. clear I1 V1 A1 A2.
  (* renamed *)
  eapply runs_st_modify; [exact B1|by intros|]. pose proof (named_minv R _ m2 I2 q1 _ (n_name n2) B1 eq_refl Hl1) as I3. pose proof (named_view R _ m2 I2 q1 _ (n_name n2) B1 eq_refl) as V3. rewrite V2 in V3.
  set (n1' := set_name (n_name n2) (set_parent None n1)) in *. assert (C1 : <[q1 := n1']> m2 !! q1 = Some n1') by apply lookup_insert_eq. assert (C2 : <[q1 := n1']> m2 !! q2 = Some (set_parent None n2)) by (by rewrite lookup_insert_ne).
  set (m3 := <[q1 := n1']> m2) in *. clearbody m3. eapply runs_st_modify; [exact C2|by intros|]. pose proof (named_minv R _ m3 I3 q2 _ (n_name n1) C2 eq_refl Hl2) as I4. pose proof (named_view R _ m3 I3 q2 _ (n_name n1) C2 eq_refl) as V4. rewrite V3 in V4.
  set (n2' := set_name (n_name n1) (set_parent None n2)) in *. assert (F2 : <[q2 := n2']> m3 !! q2 = Some n2') by apply lookup_insert_eq. assert (F1 : <[q2 := n2']> m3 !! q1 = Some n1') by (by rewrite lookup_insert_ne).
  set (m4 := <[q2 := n2']> m3) in *. clearbody m4. clear I2 I3 V2 V3 B1 B2 C1 C2.
  (* entered again *)
  exact (exchange_end q1 n1' d1 dn1 q2 n2' d2 dn2 m4 Hd1 T1 D1 Hd2 T2 D2 E1 E2 L1 L2 Hne H21 H12 Hs2 I4 V4 F1 F2 eq_refl eq_refl Hl1 Hl2).
Qed.

Lemma exchange_refines path1 path2 : placed (at_ path1 false) -> placed (at_ path2 false) ->
  (forall q1 q2 n1 n2, at_ path1 false = Some q1 -> at_ path2 false = Some q2 -> m !! q1 = Some n1 -> m !! q2 = Some n2 -> n_parent n1 <> Some q2 /\ n_parent n2 <> Some q1) ->
  runs (run_op try_pid_dir kmalloc c ok (OExchange path1 path2)) s (Post (spec_op try_pid_dir kmalloc c ok s (OExchange path1 path2))).
Proof.
  intros Hpl1 Hpl2 Hap. apply runs_rc. cbn [spec_op]. unfold vfs_rename_exchange, spec_exchange. destruct (_ || _); [apply runs_ret, post_keep|]. unfold vfs_lookup_nofollow. apply runs_look; [cbn; lia|]. intros Hat1.
  apply runs_look; [destruct (at_ path1 false); cbn; lia|]. intros Hat2.
  destruct (at_ path1 false) as [q1|]; [|destruct (at_ path2 false) as [q2|]; (apply fail_keep; [done|repeat constructor; by apply Hat2])]. destruct (at_ path2 false) as [q2|]; [|apply fail_keep; [done|repeat constructor; by apply Hat1]]. cbn [more].
  destruct (Hat1 q1 eq_refl) as (n1 & Hq1 & Hl1). destruct (Hat2 q2 eq_refl) as (n2 & Hq2 & Hl2). assert (HL : Forall (live m) [q2; q1]) by (repeat constructor; [by exists n2|by exists n1]). unfold with_node at 1 2. rewrite Hq1, Hq2.
  eapply runs_st_fetch; [exact Hq1|]. eapply runs_st_fetch; [exact Hq2|]. cbn [n_parent held set_refcnt n_name]. destruct (n_parent n1) as [d1|] eqn:Hp1; [|by apply fail_keep; [apply perm_swap|]]. destruct (n_parent n2) as [d2|] eqn:Hp2; [|by apply fail_keep; [apply perm_swap|]].
  destruct (Nat.eqb_spec q1 q2) as [Heq|Hne]; [by apply (fail_keep [Some q1; Some q2] [q2; q1] 0); [apply perm_swap|]|].
  assert (Hs1 : d1 <> q1) by (intros ->; by apply (Hpl1 q1 n1)). assert (Hs2 : d2 <> q2) by (intros ->; by apply (Hpl2 q2 n2)). destruct (Hap q1 q2 n1 n2 eq_refl eq_refl Hq1 Hq2) as [H12 H21]. rewrite Hp1 in H12. rewrite Hp2 in H21.
  destruct (t_parent m (i_tree _ _ _ I) q1 n1 d1 Hq1 Hp1 Hs1) as (dn1 & Hd1 & _). destruct (t_parent m (i_tree _ _ _ I) q2 n2 d2 Hq2 Hp2 Hs2) as (dn2 & Hd2 & _). unfold with_node. rewrite Hd1, Hd2. eapply runs_st_fetch; [exact Hd1|]. eapply runs_st_fetch; [exact Hd2|].
  change (node_delete_in c (held _ d1 dn1) (held _ q1 n1)) with (node_delete_in c dn1 n1). change (node_delete_in c (held _ d2 dn2) (held _ q2 n2)) with (node_delete_in c dn2 n2).
  change (node_create_in c (held _ d1 dn1)) with (node_create_in c dn1). change (node_create_in c (held _ d2 dn2)) with (node_create_in c dn2).
  destruct (_ || _); [by apply fail_keep; [apply perm_swap|]|]. rewrite Hix. apply exchange_run; try done; congruence.
Qed.

(** ** Copies *)

Lemma link_data n : n_type n = VFS_TYPE_REG -> rfile_ok (n_file n) -> (r_size (n_file n) = 0 -> r_capacity (n_file n) = 0) ->
  match ram_link kmalloc (n_file n) with
  | None => 0 < r_size (n_file n) /\ kmalloc (r_size (n_file n)) = None
  | Some f => (0 < r_size (n_file n) -> is_Some (kmalloc (r_size (n_file n)))) /\ rfile_ok f /\ content f = content (n_file n)
  end.
Proof.
  intros _ Hok Hcap. destruct (n_file n) as [data size cap]. pose proof Hok as [H0 Hb]. unfold ram_link, content in *. cbn [r_data r_size r_capacity] in *. destruct data as [b|].
  - destruct (Z.ltb_spec 0 size) as [Hlt|Hge].
    + destruct (kmalloc size) as [nb|] eqn:Ek; [|done]. apply Hk in Ek. split; [by eexists|]. destruct Hb as [Hb1 Hb2]. unfold slice. cbn [drop]. set (src := take _ _).
      assert (Hsrc : blen src = size) by (unfold src, blen in *; rewrite length_take, length_drop; lia). destruct (copy_in_ok nb 0 src) as [-> Hbl]; [lia|lia|]. split; [split; cbn [r_data r_size r_capacity]; lia|]. cbn [r_size r_data from_option Datatypes.id].
      unfold blit. rewrite take_0. cbn [app Z.to_nat]. rewrite take_app_le by (unfold blen in *; lia). by rewrite take_ge by (unfold blen in *; lia).
    + split; [lia|]. assert (size = 0) as -> by lia. rewrite Hcap by done. split; [split; done|]. done.
  - destruct Hb as [-> ->]. split; [lia|]. split; [split; done|]. done.
Qed.

(** A file that was emptied keeps a buffer; it must not be linked. *)
Definition linkable (r : option nat) : Prop := forall q n, r = Some q -> m !! q = Some n -> n_type n = VFS_TYPE_REG -> r_size (n_file n) = 0 -> r_capacity (n_file n) = 0.

Definition copy_of (n : node) : option (rfile * option (list Z)) :=
  match n_type n, n_symlink n with
  | VFS_TYPE_REG, _ => (fun f => (f, None)) <$> ram_link kmalloc (n_file n)
  | VFS_TYPE_SYM, Some l => if ok_data ok then Some (mkRfile None (blen l) 0, Some l) else None
  | _, _ => Some (mkRfile None (r_size (n_file n)) (r_capacity (n_file n)), None)
  end.

Lemma copy_of_ok n : node_ok n -> (n_type n = VFS_TYPE_REG -> r_size (n_file n) = 0 -> r_capacity (n_file n) = 0) ->
  let reg := bool_decide (n_type n = VFS_TYPE_REG) in
  let sym := bool_decide (n_type n = VFS_TYPE_SYM) in
  let bad := (reg && (0 <? r_size (n_file n)) && negb (bool_decide (is_Some (kmalloc (r_size (n_file n)))))) || (sym && negb (ok_data ok)) in
  match copy_of n with
  | None => bad = true
  | Some (f, l) => bad = false /\ (n_type n = VFS_TYPE_REG -> rfile_ok f) /\ (n_type n = VFS_TYPE_SYM -> is_Some l) /\ content f = (if reg then content (n_file n) else []) /\ l = (if sym then n_symlink n else None)
  end.
Proof.
  intros [Hf Hl] Hcap. unfold copy_of. destruct (n_type n) eqn:Ht; cbn [andb orb]; try (split_and!; try done; apply content_none).
  - change (bool_decide (VFS_TYPE_REG = VFS_TYPE_REG)) with true. change (bool_decide (VFS_TYPE_REG = VFS_TYPE_SYM)) with false. pose proof (link_data n Ht (Hf eq_refl) (Hcap eq_refl)) as H. destruct (ram_link kmalloc (n_file n)) as [f|]; cbn.
    + destruct H as (H1 & H2 & H3). split_and!; try done. destruct (Z.ltb_spec 0 (r_size (n_file n))); [|done]. rewrite bool_decide_eq_true_2; [done|auto].
    + destruct H as [H1 H2]. rewrite (proj2 (Z.ltb_lt _ _) H1). rewrite bool_decide_eq_false_2; [done|]. rewrite H2. by intros [? ?].
  - destruct (Hl eq_refl) as [l Hsl]. rewrite Hsl. destruct (ok_data ok); [|done]. split_and!; try done. apply content_none.
Qed.

Lemma link_refines oldpath newpath : short newpath -> linkable (at_ oldpath true) -> runs (run_op try_pid_dir kmalloc c ok (OLink oldpath newpath)) s (Post (spec_op try_pid_dir kmalloc c ok s (OLink oldpath newpath))).
Proof.
  intros Hsh Hcap. apply runs_rc. cbn [spec_op]. unfold vfs_link, spec_link. destruct (ns_mnt_path_readonly c newpath); [apply runs_ret, post_keep|]. unfold vfs_lookup. apply runs_look; [cbn; lia|]. intros Hat.
  destruct (at_ oldpath true) as [q|]; [|apply runs_ret, post_keep]. destruct (Hat q eq_refl) as (n & Hq & Hdel). specialize (Hcap q n eq_refl Hq). unfold with_node at 1. rewrite Hq. cbn [more]. eapply runs_st_fetch; [exact Hq|]. cbn [n_type held set_refcnt].
  assert (HL1 : Forall (live m) [q]) by (repeat constructor; by exists n). destruct (bool_decide (n_type n = VFS_TYPE_DIR)); [by apply fail_keep|]. apply runs_parent; [cbn; lia|]. intros Hpar. unfold short in Hsh.
  destruct (parent_ newpath) as [[d|] x]; cbn [fst snd more] in *; [|by apply fail_keep]. destruct (Hpar d eq_refl) as (dn & Hd & Hdl). assert (HL : Forall (live m) [d; q]) by (constructor; [by exists dn|done]). unfold with_node. rewrite Hd.
  eapply runs_st_fetch; [exact Hd|]. cbn [n_type held set_refcnt]. destruct (bool_decide (n_type dn = VFS_TYPE_DIR)) eqn:Hdir; [apply bool_decide_eq_true in Hdir|by apply fail_keep; [apply perm_swap|]]. cbn [negb].
  destruct (bool_decide (x = [])); [by apply fail_keep; [apply perm_swap|]|]. change (node_create_in c (held _ d dn)) with (node_create_in c dn). destruct (node_create_in c dn); [|by apply fail_keep; [apply perm_swap|]]. cbn [negb].
  eapply runs_st_fetch; [exact Hq|]. cbn [n_type n_mode n_symlink n_file held set_refcnt]. apply runs_blank; [done|done|intros ->; by apply fail_keep; [apply perm_swap|]|]. intros ->. cbn [negb].
  pose proof (copy_of_ok n (i_node _ _ _ I q n Hq) Hcap) as Hcopy. cbv zeta in Hcopy |- *. fold (copy_of n). destruct (copy_of n) as [[f l]|].
  - destruct Hcopy as (Hbad & Hfo & Hlo & Hcont & Hl). rewrite Hbad, <- Hcont, <- Hl. eapply runs_st_modify; [apply lookup_insert_eq|by intros|]. rewrite insert_insert_eq. set (nn := set_symlink l _).
    assert (Hn : fresh_node nn) by (by apply (fill_fresh x (n_type n) (n_mode n) f l)). eapply (runs_made d dn nn Hd Hdl Hn); unfold spec_insert; change (n_name nn) with x.
    + intros e ->. apply fail_next; [apply perm_swap|done].
    + intros E. rewrite E. destruct (fail_made d dn nn [Some q; Some d] [d; q] (Rc 0) Hd Hdl Hdir Hn E (perm_swap _ _ _) HL) as [E1 E2]. unfold fail. eapply runs_bind, runs_val; [exact E1|]. by apply runs_ret.
  - rewrite Hcopy. apply runs_free_new; [by apply I|]. apply fail_next; [apply perm_swap|done].
Qed.

(** ** Attributes *)

(** A node found is changed in place. *)
Lemma change_run q n n' : m !! q = Some n -> n_deleted n = false -> shape n' = shape n -> n_refcnt n' = n_refcnt n -> node_ok n' ->
  runs (fail [Some q] 0) (st s [q] (<[q := n']> m)) (fun rc => Post (Rc 0, put q (Some (attr_of n')) (view m)) (Rc rc)).
Proof.
  intros Hq Hdel Hs Hr Hok. pose proof (change_minv R (next_ptr s) m I q n n' Hq Hs Hr Hok) as Hm. eapply fail_run; [apply Hm|done| |apply post_st; [done|done|by eapply change_view]].
  repeat constructor. exists n'. split; [apply lookup_insert_eq|]. injection Hs as _ _ -> _ _ _. done.
Qed.

Lemma chmod_refines path mode : runs (run_op try_pid_dir kmalloc c ok (OChmod path mode)) s (Post (spec_op try_pid_dir kmalloc c ok s (OChmod path mode))).
Proof.
  apply runs_rc. cbn [spec_op]. unfold vfs_chmod, spec_chmod. destruct (ns_mnt_path_readonly c path); [apply runs_ret, post_keep|]. unfold vfs_lookup. apply runs_look; [cbn; lia|]. intros Hat.
  destruct (at_ path true) as [q|]; [|apply runs_ret, post_keep]. destruct (Hat q eq_refl) as (n & Hq & Hdel). unfold with_node. rewrite Hq. cbn [more]. eapply runs_st_fetch; [exact Hq|]. change (perm_of (held [q] q n)) with (perm_of n).
  destruct (may_change_mode (c_cred c) (perm_of n)); cbn [negb]; [|apply fail_keep; [done|repeat constructor; by exists n]]. eapply runs_st_modify; [exact Hq|by intros|]. eapply (change_run q n); try done. by apply (i_node _ _ _ I q n).
Qed.

Lemma chown_run q n uid gid : m !! q = Some n -> n_deleted n = false ->
  runs (chown_node c q uid gid) (st s [q] m)
    (fun rc => Post (if negb (may_change_owner (c_cred c)) then err s EPERM else
                     (Rc 0, set_attr s q n (Z.land (n_mode n) (u32 (Z.lnot 0xc00))) (if uid =? U32_MAX then n_uid n else uid) (if gid =? U32_MAX then n_gid n else gid) (content (n_file n)))) (Rc rc)).
Proof.
  intros Hq Hdel. unfold chown_node. eapply runs_st_fetch; [exact Hq|]. destruct (may_change_owner (c_cred c)); cbn [negb]; [|apply fail_keep; [done|repeat constructor; by exists n]].
  eapply runs_st_modify; [exact Hq|by intros|]. eapply (change_run q n); try done. by apply (i_node _ _ _ I q n).
Qed.

Lemma chown_refines path uid gid : runs (run_op try_pid_dir kmalloc c ok (OChown path uid gid)) s (Post (spec_op try_pid_dir kmalloc c ok s (OChown path uid gid))).
Proof.
  apply runs_rc. cbn [spec_op]. unfold vfs_chown, spec_chown. destruct (ns_mnt_path_readonly c path); [apply runs_ret, post_keep|]. unfold vfs_lookup. apply runs_look; [cbn; lia|]. intros Hat.
  destruct (at_ path true) as [q|]; [|apply runs_ret, post_keep]. destruct (Hat q eq_refl) as (n & Hq & Hdel). unfold with_node. rewrite Hq. by apply chown_run.
Qed.

Lemma lchown_refines path uid gid : runs (run_op try_pid_dir kmalloc c ok (OLchown path uid gid)) s (Post (spec_op try_pid_dir kmalloc c ok s (OLchown path uid gid))).
Proof.
  apply runs_rc. cbn [spec_op]. unfold vfs_lchown, spec_chown. destruct (ns_mnt_path_readonly c path); [apply runs_ret, post_keep|]. unfold vfs_lookup_nofollow. apply runs_look; [cbn; lia|]. intros Hat.
  destruct (at_ path false) as [q|]; [|apply runs_ret, post_keep]. destruct (Hat q eq_refl) as (n & Hq & Hdel). unfold with_node. rewrite Hq. by apply chown_run.
Qed.

(** What [ram_truncate] returns. *)
Lemma truncate_rc f len rc f' : ram_truncate kmalloc f len = Some (rc, f') ->
  rc = if r_capacity f <? len then if U64_MAX - 4095 <? len then - EFBIG else if bool_decide (is_Some (kmalloc (Z.land (len + 4095) (Z.lnot 4095)))) then 0 else - ENOSPC else 0.
Proof.
  unfold ram_truncate. assert (Hend : forall g, (if 0 <? 0 then Some (0, g) else if r_size g <? len then d ← copy_in (r_data g) (r_size g) (replicate (Z.to_nat (len - r_size g)) 0); Some (0, mkRfile (Some d) len (r_capacity g))
      else Some (0, mkRfile (r_data g) len (r_capacity g))) = Some (rc, f') -> rc = 0).
  { intros g. cbn [Z.ltb Z.compare]. destruct (r_size g <? len); [destruct (copy_in _ _ _)|]; cbn; congruence. }
  destruct (r_capacity f <? len); [|cbn [mbind option_bind]; apply Hend]. destruct (U64_MAX - 4095 <? len); [unfold EFBIG; cbn; by intros [= <- _]|]. destruct (kmalloc _) as [nd|]; cbn [mbind option_bind].
  - rewrite bool_decide_eq_true_2 by done. destruct (copy_in _ _ _); cbn [mbind option_bind]; [apply Hend|done].
  - rewrite bool_decide_eq_false_2 by (by intros [? ?]). unfold ENOSPC. cbn. by intros [= <- _].
Qed.

Lemma truncate_refines path len : 0 <= len -> runs (run_op try_pid_dir kmalloc c ok (OTruncate path len)) s (Post (spec_op try_pid_dir kmalloc c ok s (OTruncate path len))).
Proof.
  intros Hlen. apply runs_rc. cbn [spec_op]. unfold vfs_truncate, spec_truncate. destruct (ns_mnt_path_readonly c path); [apply runs_ret, post_keep|]. unfold vfs_lookup. apply runs_look; [cbn; lia|]. intros Hat.
  destruct (at_ path true) as [q|]; [|apply runs_ret, post_keep]. destruct (Hat q eq_refl) as (n & Hq & Hdel). assert (HL : Forall (live m) [q]) by (repeat constructor; by exists n). unfold with_node. rewrite Hq. cbn [more].
  eapply runs_st_fetch; [exact Hq|]. cbn [n_type n_file held set_refcnt]. case_bool_decide as Ht; cbn [negb]; [|by apply fail_keep]. change (node_access c (held [q] q n) 2) with (node_access c n 2). destruct (node_access c n 2); cbn [negb]; [|by apply fail_keep].
  destruct (i_node _ _ _ I q n Hq) as [Hf Hl]. destruct (truncate_ok kmalloc Hk (n_file n) len (Hf Ht) Hlen) as (rc & f & E & Hcase). pose proof (truncate_rc _ _ _ _ E) as Hrc. eapply runs_lift; [exact E|].
  eapply runs_st_modify; [exact Hq|by intros|]. destruct Hcase as [[Hneg ->]|(-> & Hfo & Hcont)].
  - assert (En : set_file (n_file n) n = n) by (by destruct n). rewrite En, insert_id by done.
    destruct (r_capacity (n_file n) <? len); [|lia]. destruct (U64_MAX - 4095 <? len); [subst rc; by apply fail_keep|]. destruct (bool_decide _); [lia|]. subst rc. by apply fail_keep.
  - assert (Hp : runs (fail [Some q] 0) (st s [q] (<[q := set_file f n]> m)) (fun rc => Post (Rc 0, set_attr s q n (n_mode n) (n_uid n) (n_gid n) (file_resize (content (n_file n)) len)) (Rc rc))).
    { unfold set_attr. rewrite <- Hcont. eapply (change_run q n (set_file f n)); try done. }
    destruct (r_capacity (n_file n) <? len); [|exact Hp]. destruct (U64_MAX - 4095 <? len); [done|]. destruct (bool_decide _); [exact Hp|done].
Qed.

Lemma access_refines path mode : runs (run_op try_pid_dir kmalloc c ok (OAccess path mode)) s (Post (spec_op try_pid_dir kmalloc c ok s (OAccess path mode))).
Proof.
  apply runs_rc. cbn [spec_op]. unfold vfs_access, spec_access. destruct (ztrue (Z.land mode (Z.lnot 7))); [apply runs_ret, post_keep|]. unfold vfs_lookup. apply runs_look; [cbn; lia|]. intros Hat.
  destruct (at_ path true) as [q|]; [|apply runs_ret, post_keep]. destruct (Hat q eq_refl) as (n & Hq & Hdel). assert (HL : Forall (live m) [q]) by (repeat constructor; by exists n). cbn [more]. destruct (mode =? 0); [by apply (fail_keep _ _ 0)|].
  unfold with_node. rewrite Hq. eapply runs_st_fetch; [exact Hq|]. cbn [n_mode held set_refcnt]. change (node_access c (held [q] q n) mode) with (node_access c n mode). destruct (_ && _); [by apply fail_keep|]. destruct (node_access c n mode); [by apply (fail_keep _ _ 0)|by apply fail_keep].
Qed.

Lemma readlink_refines path sz : runs (run_op try_pid_dir kmalloc c ok (OReadlink path sz)) s (Post (spec_op try_pid_dir kmalloc c ok s (OReadlink path sz))).
Proof.
  apply runs_start. cbn [run_op spec_op]. apply runs_bind. unfold readlink_common, spec_readlink, vfs_lookup_nofollow. apply runs_look; [cbn; lia|]. intros Hat. destruct (at_ path false) as [q|]; [|apply runs_ret, runs_ret, post_keep].
  destruct (Hat q eq_refl) as (n & Hq & Hdel). assert (HL : live m q) by (by exists n). unfold with_node. rewrite Hq. cbn [more]. eapply runs_st_fetch; [exact Hq|]. cbn [n_type n_symlink held set_refcnt]. destruct (i_node _ _ _ I q n Hq) as [_ Hl].
  assert (Hend : forall z l, runs (node_unref (Some q);; mret (z, l)) (st s [q] m) (fun r s' => runs (mret (Text r.1 r.2)) s' (Post (keep s (Text z l))))).
  { intros z l. apply unref_ret; [apply I|done|]. apply runs_ret, post_keep. }
  destruct (n_type n) eqn:Ht; try apply Hend. destruct (Hl eq_refl) as [l El]. rewrite El. cbn [negb]. eapply runs_lift; [done|]. apply Hend.
Qed.

(** ** Every operation *)

(** What an operation needs: a name shorter than 256 bytes for a new entry, and
    for the entries removed and moved that they are not roots, and are not moved
    onto or into themselves. *)
Definition op_ok (o : op) : Prop :=
  match o with
  | OMkdir path _ | OCreate path _ _ | OSymlink path _ | OMknod path _ => short path
  | OChr path => short path /\ forall d n, (parent_ path).1 = Some d -> m !! d = Some n -> n_type n = VFS_TYPE_DIR
  | OUnlink path => placed (at_ path false)
  | ORmdir path => placed (at_ path true)
  | ORename p1 p2 =>
      short p2 /\ placed (at_ p1 false) /\
      forall q, at_ p1 false = Some q -> (parent_ p2).1 <> Some q /\ forall np, (parent_ p2).1 = Some np -> entry m np (parent_ p2).2 <> Some q
  | OExchange p1 p2 =>
      placed (at_ p1 false) /\ placed (at_ p2 false) /\
      forall q1 q2 n1 n2, at_ p1 false = Some q1 -> at_ p2 false = Some q2 -> m !! q1 = Some n1 -> m !! q2 = Some n2 -> n_parent n1 <> Some q2 /\ n_parent n2 <> Some q1
  | OLink p1 p2 => short p2 /\ linkable (at_ p1 true)
  | OTruncate _ len => 0 <= len
  | _ => True
  end.

Lemma op_post o : op_ok o -> runs (run_op try_pid_dir kmalloc c ok o) s (Post (spec_op try_pid_dir kmalloc c ok s o)).
Proof.
  destruct o; cbn [op_ok]; intros Ho; [by apply mkdir_refines|by apply create_refines|by apply symlink_refines|by apply chr_refines; apply Ho|by apply mknod_refines|by apply unlink_refines|by apply rmdir_refines|
    by apply rename_refines; apply Ho|by apply exchange_refines; apply Ho|by apply link_refines; apply Ho|by apply chmod_refines|by apply chown_refines|by apply lchown_refines|by apply truncate_refines|by apply access_refines|by apply readlink_refines].
Qed.

(** ** What every operation leaves alone *)

Definition refs_of (n : option node) : Z := default 0 (n_refcnt <$> n).

(** The references to each node are those before. *)
Definition refs_kept (A : afs) : Prop := forall p, match att A p with Some a => a_refs a = refs_of (m !! p) | None => refs_of (m !! p) = 0 end.

Lemma kept_view : refs_kept (view m).
Proof. intros p. cbn. by destruct (m !! p). Qed.
Lemma kept_link q d x A : refs_kept A -> refs_kept (link q d x A).
Proof. done. Qed.
Lemma kept_unlink q A : refs_kept A -> refs_kept (unlink q A).
Proof. done. Qed.
Lemma kept_put q a A : refs_kept A -> a_refs a = refs_of (m !! q) -> refs_kept (put q (Some a) A).
Proof. intros H Ha p. cbn. case_decide as E; [by subst|apply H]. Qed.
Lemma kept_discard q n A : m !! q = Some n -> refs_kept A -> refs_kept (discard q n A).
Proof.
  intros Hq H. unfold discard. destruct (Z.eqb_spec (n_refcnt n) 0) as [E|E]; [|apply kept_put; [done|by rewrite Hq]]. intros p. cbn. case_decide as Ep; [subst; by rewrite Hq|apply H].
Qed.
Lemma kept_add d x type mode data l : refs_kept (add s d x (new_attr c type mode data l)).
Proof. apply kept_link, kept_put; [apply kept_view|]. by rewrite (i_fresh _ _ _ I). Qed.
Lemma kept_set q n mode uid gid data : m !! q = Some n -> refs_kept (set_attr s q n mode uid gid data).
Proof. intros Hq. apply kept_put; [apply kept_view|by rewrite Hq]. Qed.
Lemma kept_keep r : refs_kept (keep s r).2.
Proof. apply kept_view. Qed.

Lemma spec_kept o : refs_kept (spec_op try_pid_dir kmalloc c ok s o).2.
Proof.
  destruct o; cbn [spec_op];
    unfold spec_mkdir, spec_create, spec_symlink, spec_chr, spec_mknod, spec_unlink, spec_rmdir, spec_rename, spec_exchange, spec_link, spec_chmod, spec_chown, spec_truncate, spec_access, spec_readlink, spec_insert, spec_new, spec_remove, with_node, err; cbv zeta;
    verdict_cases; cbn [snd];
    eauto 8 using kept_keep, kept_view, kept_link, kept_unlink, kept_discard, kept_add, kept_set.
Qed.

Definition failed (r : result) : Prop := match r with Rc z => z < 0 | Ptr p => p = None | Text z _ => z < 0 end.

Lemma spec_failed o : ok_again ok = true -> let p := spec_op try_pid_dir kmalloc c ok s o in failed p.1 -> p.2 = view m.
Proof.
  intros Hag. cbv zeta. destruct o; cbn [spec_op];
    unfold spec_mkdir, spec_create, spec_symlink, spec_chr, spec_mknod, spec_unlink, spec_rmdir, spec_rename, spec_exchange, spec_link, spec_chmod, spec_chown, spec_truncate, spec_access, spec_readlink, spec_insert, spec_new, spec_remove, with_node, err; cbv zeta;
    rewrite ?Hag, ?andb_false_r; verdict_cases; cbn [fst snd failed]; try done; lia.
Qed.
End ops.



(** ** Sequences of operations *)

Definition call : Type := caller * allocs * op.

Fixpoint run_calls (try_pid_dir : nat -> list Z -> vfs -> vfs) (kmalloc : Z -> option (list Z)) (l : list call) : M unit :=
  match l with
  | [] => mret tt
  | (c, ok, o) :: l => run_op try_pid_dir kmalloc c ok o;; run_calls try_pid_dir kmalloc l
  end.

(** Every call is one that may be made in the state it is made in. *)
Fixpoint calls_ok (R : nat -> Prop) (try_pid_dir : nat -> list Z -> vfs -> vfs) (kmalloc : Z -> option (list Z)) (s : vfs) (l : list call) : Prop :=
  match l with
  | [] => True
  | (c, ok, o) :: l => ok_index ok = true /\ caller_in R s c /\ op_ok try_pid_dir c s o /\ forall r s', run_op try_pid_dir kmalloc c ok o s = Some (r, s') -> calls_ok R try_pid_dir kmalloc s' l
  end.


(** ** Checking that calls may be made *)

Section check.
Context (try_pid_dir : nat -> list Z -> vfs -> vfs).

Definition placedb (s : vfs) (r : option nat) : bool :=
  match r with Some q => match nodes s !! q with Some n => negb (bool_decide (n_parent n = Some q)) | None => true end | None => true end.

Definition op_okb (c : caller) (s : vfs) (o : op) : bool :=
  let at_ := node_at try_pid_dir c s in
  let parent_ := parent_at try_pid_dir c s in
  let shortb path := blen (parent_ path).2 <? 256 in
  match o with
  | OMkdir path _ | OCreate path _ _ | OSymlink path _ | OMknod path _ => shortb path
  | OChr path => shortb path && match (parent_ path).1 with Some d => match nodes s !! d with Some n => bool_decide (n_type n = VFS_TYPE_DIR) | None => true end | None => true end
  | OUnlink path => placedb s (at_ path false)
  | ORmdir path => placedb s (at_ path true)
  | ORename p1 p2 =>
      shortb p2 && placedb s (at_ p1 false) &&
      match at_ p1 false, (parent_ p2).1 with Some q, Some np => negb (q =? np)%nat && negb (bool_decide (entry (nodes s) np (parent_ p2).2 = Some q)) | _, _ => true end
  | OExchange p1 p2 =>
      placedb s (at_ p1 false) && placedb s (at_ p2 false) &&
      match at_ p1 false, at_ p2 false with
      | Some q1, Some q2 => negb (bool_decide (n_parent <$> nodes s !! q1 = Some (Some q2))) && negb (bool_decide (n_parent <$> nodes s !! q2 = Some (Some q1)))
      | _, _ => true
      end
  | OLink p1 p2 =>
      shortb p2 && match at_ p1 true with Some q => match nodes s !! q with Some n => negb (r_size (n_file n) =? 0) || (r_capacity (n_file n) =? 0) | None => true end | None => true end
  | OTruncate _ len => 0 <=? len
  | _ => true
  end.

Lemma placedb_ok s r : placedb s r = true -> placed s r.
Proof. intros H q n -> Hq. cbn in H. rewrite Hq in H. apply negb_true_iff, bool_decide_eq_false in H. done. Qed.

Lemma op_okb_ok c s o : op_okb c s o = true -> op_ok try_pid_dir c s o.
Proof.
  destruct o; cbn [op_okb op_ok]; unfold short; rewrite ?andb_true_iff, ?Z.ltb_lt, ?Z.leb_le; try tauto; try apply placedb_ok.
  - intros [H1 H2]. split; [done|]. intros d n Hd Hn. rewrite Hd, Hn in H2. by apply bool_decide_eq_true in H2.
  - intros [[H1 H2] H3]. split; [done|]. split; [by apply placedb_ok|]. intros q Hq. rewrite Hq in H3. destruct (parent_at _ _ _ _) as [[np|] x]; cbn [fst snd] in *; [|done]. rewrite andb_true_iff, !negb_true_iff, Nat.eqb_neq, bool_decide_eq_false in H3.
    destruct H3 as [H3 H4]. split; [congruence|]. by intros np' [= <-].
  - intros [[H1 H2] H3]. split; [by apply placedb_ok|]. split; [by apply placedb_ok|]. intros q1 q2 n1 n2 E1 E2 Hn1 Hn2. rewrite E1, E2, Hn1, Hn2 in H3. rewrite andb_true_iff, !negb_true_iff, !bool_decide_eq_false in H3. cbn in H3. destruct H3. split; congruence.
  - intros [H1 H2]. split; [done|]. intros q n E Hq Ht Hz. rewrite E, Hq in H2. rewrite Hz in H2. cbn in H2. by apply Z.eqb_eq.
Qed.

Context (Rl : list nat).

Definition caller_inb (s : vfs) (c : caller) : bool :=
  bool_decide (start c s ∈ Rl) && forallb (fun x => match x with Some (mkMount _ (Some r) _) => bool_decide (r ∈ Rl) | _ => true end) (mns_mounts (c_mnt c)).

Lemma caller_inb_ok s c : caller_inb s c = true -> caller_in (fun r => r ∈ Rl) s c.
Proof.
  unfold caller_inb. intros [H1 H2]%andb_prop. split; [by apply bool_decide_eq_true in H1|]. intros r (t & f & Hin). rewrite forallb_forall in H2. specialize (H2 _ (proj1 (list_elem_of_In _ _) Hin)). cbn in H2. by apply bool_decide_eq_true in H2.
Qed.

Context (kmalloc : Z -> option (list Z)).

Fixpoint calls_okb (s : vfs) (l : list call) : bool :=
  match l with
  | [] => true
  | (c, ok, o) :: l => ok_index ok && caller_inb s c && op_okb c s o && match run_op try_pid_dir kmalloc c ok o s with Some (_, s') => calls_okb s' l | None => true end
  end.

Lemma calls_okb_ok l : forall s, calls_okb s l = true -> calls_ok (fun r => r ∈ Rl) try_pid_dir kmalloc s l.
Proof.
  induction l as [|[[c ok] o] l IH]; intros s H; [done|]. cbn [calls_okb] in H. rewrite !andb_true_iff in H. destruct H as [[[H1 H2] H3] H4]. split; [done|]. split; [by apply caller_inb_ok|]. split; [by apply op_okb_ok|].
  intros r s' E. rewrite E in H4. by apply IH.
Qed.
End check.

(** ** A small file system *)

Definition demo_R (r : nat) : Prop := r ∈ [0%nat].

Lemma demo_inv : vfs_inv demo_R demo_vfs.
Proof.
  assert (Hold : forall p n, demo_m3 !! p = Some n -> (p < 3)%nat /\ node_ok n).
  { intros p n Hp. unfold demo_m3, inserted, demo_m2, demo_m1, inserted, demo_m0 in Hp. assert (Hok : forall n, n_type n = VFS_TYPE_DIR -> node_ok n) by (intros x Hx; split; congruence).
    repeat (apply lookup_insert_Some in Hp as [[<- <-]|[_ Hp]]; [split; [lia|try (by apply Hok)]|]); [split; [done|by eexists]..|]. apply lookup_singleton_Some in Hp as [<- <-]. split; [lia|by apply Hok]. }
  split; [exact demo_tree|exact demo_refs| | |].
  - intros p Hp. cbn [next_ptr demo_vfs] in Hp. destruct (nodes demo_vfs !! p) as [n|] eqn:E; [|done]. apply Hold in E. lia.
  - intros p n Hp. by apply (Hold p n).
  - intros r Hr. apply list_elem_of_singleton in Hr as ->. eexists. split; [done|]. right. done.
Qed.

Definition n_bin : list Z := [98; 105; 110].
Definition n_sh : list Z := [115; 104].
Definition demo_allocs : allocs := mkAllocs true true true true.
Definition on (o : op) : call := (demo_caller, demo_allocs, o).
Definition demo_p (names : list (list Z)) : list Z := abs_path names.

(** [mkdir /usr/bin], [creat /usr/bin/sh], [ln /usr/bin/sh /sh],
    [mv /usr/bin/sh /usr/sh], [mv --exchange /sh /usr/lib], [rmdir /usr/bin],
    [chmod /sh], [unlink /usr/sh]. *)
Definition demo_calls : list call :=
  [on (OMkdir (demo_p [n_usr; n_bin]) 0x1ed); on (OCreate (demo_p [n_usr; n_bin; n_sh]) 0x1ed [1; 2; 3]); on (OLink (demo_p [n_usr; n_bin; n_sh]) (demo_p [n_sh]));
   on (ORename (demo_p [n_usr; n_bin; n_sh]) (demo_p [n_usr; n_sh])); on (OExchange (demo_p [n_sh]) (demo_p [n_usr; n_lib])); on (ORmdir (demo_p [n_usr; n_bin]));
   on (OChmod (demo_p [n_usr; n_lib]) 0x1c0); on (OUnlink (demo_p [n_usr; n_sh]))].




(** ** Operations outside [op_ok] *)

(** [rename] of an empty directory onto itself succeeds and frees the node,
    which is then entered into its directory again. *)
Theorem rename_onto_itself_frees :
  let p := demo_p [n_usr; n_bin] in
  (fun '(rc, s') => (rc, nodes s' !! 3%nat, n_children <$> nodes s' !! 1%nat)) <$>
    (run_op no_hook dirty_kmalloc demo_caller demo_allocs (OMkdir p 0x1ed);; run_op no_hook dirty_kmalloc demo_caller demo_allocs (ORename p p)) demo_vfs = Some (Rc 0, None, Some [3%nat; 2%nat]).
Proof. vm_compute. done. Qed.

(** [mount -t tmpfs] leaves the root of the new file system, its own parent,
    without a reference; [rmdir] of the mount point then frees it, and the mount
    still leads to it. *)
Definition tmpfs_root : node := set_parent (Some 3%nat) (demo_node [ch_slash] VFS_TYPE_DIR).
Definition tmpfs_vfs : vfs := mkVfs (<[3%nat := tmpfs_root]> demo_m3) 4 5 0.
Definition tmpfs_caller : caller := mkCaller None 0x12 [ch_slash] [] (mkMnt None 0 [Some (mkMount (demo_p [n_usr]) (Some 3%nat) 0)]).

Theorem rmdir_frees_mount_root :
  (fun '(rc, s') => (rc, nodes s' !! 3%nat, vfs_lookup no_hook tmpfs_caller (demo_p [n_usr]) s')) <$> run_op no_hook dirty_kmalloc tmpfs_caller demo_allocs (ORmdir (demo_p [n_usr])) tmpfs_vfs = Some (Rc 0, None, None).
Proof. vm_compute. done. Qed.

(** Two names of more than 255 bytes that begin alike are two entries with one
    name. *)
Theorem long_names_collide :
  let p := ch_slash :: replicate 300 97 in
  (fun '(rc, s') => (rc, (fun q => n_name <$> nodes s' !! q) <$> default [] (n_children <$> nodes s' !! 0%nat))) <$>
    (run_op no_hook dirty_kmalloc demo_caller demo_allocs (OMkdir p 0x1ed);; run_op no_hook dirty_kmalloc demo_caller demo_allocs (OMkdir p 0x1ed)) demo_vfs
  = Some (Rc 0, [Some (replicate 255 97); Some (replicate 255 97); Some n_usr]).
Proof. vm_compute. done. Qed.

(** Creating a file that exists, without memory for the second copy of the data,
    fails and empties the file. *)
Theorem failed_create_empties_file :
  let p := demo_p [n_sh] in
  (fun '(r, s') => (r, (fun n => content (n_file n)) <$> nodes s' !! 3%nat)) <$>
    (run_op no_hook dirty_kmalloc demo_caller demo_allocs (OCreate p 0x1ed [1; 2; 3]);; run_op no_hook dirty_kmalloc demo_caller (mkAllocs true true true false) (OCreate p 0x1ed [4])) demo_vfs = Some (Ptr None, Some []).
Proof. vm_compute. done. Qed.
