(* ===== verification/Cpio.v ===== *)
(** * The initial root file system: a cpio archive.

    [cpio_load] of [kernel/fs/cpio.c] reads an archive in the new ASCII format
    and makes its directories, files and symbolic links.  The archive comes from
    outside of the kernel: no field of it leads to an access outside of it, and
    no path of it leaves the root.  An archive written from a list of entries
    makes exactly these. *)

From S2P Require Import Prelude Bits Bytes KString Ns Jail Cred RamFile Vfs VfsTree VfsLookup VfsSpec VfsInv VfsOps.

(** ** The parser *)

Definition CPIO_HDR_SIZE : Z := 110.

Definition hex_digit (c : Z) : option Z :=
  if (48 <=? c) && (c <=? 57) then Some (c - 48) else
  if (65 <=? c) && (c <=? 70) then Some (c - 65 + 10) else
  if (97 <=? c) && (c <=? 102) then Some (c - 97 + 10) else None.

Fixpoint hex_loop (v : Z) (s : list Z) : option Z :=
  match s with
  | [] => Some v
  | c :: s => d ← hex_digit c; hex_loop (Z.lor (u32 (Z.shiftl v 4)) d) s
  end.
Definition hex8 (s : list Z) : option Z := hex_loop 0 s.

Definition align4 (x : Z) : Z := Z.land (u64 (x + 3)) (u64 (Z.lnot 3)).

(** The components of a path; none may be [..]. *)
Fixpoint comps_safe (fuel : nat) (p : list Z) : bool :=
  match fuel, p with
  | _, [] => true
  | O, _ => true
  | S fuel, _ =>
      let p := skip_while (fun ch => ch =? ch_slash) p in
      let comp := take_while not_slash p in
      if bool_decide (comp = dotdot) then false else comps_safe fuel (drop (length comp) p)
  end.

Definition archive_path_safe (p : list Z) : bool :=
  match p with
  | [] => false
  | ch :: _ => if ch =? ch_slash then false else comps_safe (length p) p
  end.

(** An access to the archive: [None] outside of it. *)
Definition rd (data : list Z) (off n : Z) : option (list Z) := if (0 <=? off) && (off + n <=? blen data) then Some (slice data off n) else None.

Record cpio_rec := mkRec { c_mode : Z; c_uid : Z; c_gid : Z; c_name : list Z; c_data : list Z; c_next : Z }.

Definition magic_ok (s : list Z) : bool := bool_decide (take 5 s = [48; 55; 48; 55; 48]) && ((aget 0 s 5 =? 49) || (aget 0 s 5 =? 50)).

(** The record at [pos]: [None] is an access outside of the archive, [Some None]
    a record that is refused. *)
Definition parse_rec (data : list Z) (pos : Z) : option (option cpio_rec) :=
  let total_size := blen data in
  magic ← rd data pos 6;
  if negb (magic_ok magic) then Some None else
  s_namesize ← rd data (pos + 94) 8;
  s_filesize ← rd data (pos + 54) 8;
  s_mode ← rd data (pos + 14) 8;
  s_uid ← rd data (pos + 22) 8;
  s_gid ← rd data (pos + 30) 8;
  match hex8 s_namesize, hex8 s_filesize, hex8 s_mode, hex8 s_uid, hex8 s_gid with
  | Some namesize, Some filesize, Some mode, Some uid, Some gid =>
      if namesize =? 0 then Some None else
      let name_off := u64 (pos + CPIO_HDR_SIZE) in
      if u64 (total_size - name_off) <? namesize then Some None else
      name ← rd data name_off namesize;
      if negb (aget 0 name (Z.to_nat (namesize - 1)) =? 0) then Some None else
      let record_prefix := align4 (CPIO_HDR_SIZE + namesize) in
      if u64 (total_size - pos) <? record_prefix then Some None else
      let data_off := u64 (pos + record_prefix) in
      if u64 (total_size - data_off) <? filesize then Some None else
      let data_end := u64 (data_off + filesize) in
      if U64_MAX - 3 <? data_end then Some None else
      let next_pos := align4 data_end in
      if next_pos <=? pos then Some None else
      d ← rd data data_off filesize;
      Some (Some (mkRec mode uid gid name d next_pos))
  | _, _, _, _, _ => Some None
  end.

Definition trailer : list Z := [84; 82; 65; 73; 76; 69; 82; 33; 33; 33].
Definition is_trailer (name : list Z) : bool := (10 <=? blen name) && bool_decide (take 10 name = trailer).
Definition is_root (name : list Z) : bool := (blen name <=? 1) || ((blen name =? 2) && (aget 0 name 0 =? ch_dot)).

(** The absolute path of a record; [None] if the archive is refused. *)
Definition rec_path (name : list Z) : option (list Z) :=
  let path := if (2 <=? blen name) && (aget 0 name 0 =? ch_dot) && (aget 0 name 1 =? ch_slash) then drop 2 name else name in
  let p := take (Z.to_nat (strnlen path (length path))) path in
  if negb (archive_path_safe p) || (510 <? blen p) then None else Some (ch_slash :: p).

(** ** Making the entries *)

(** The functions of [vfs.c] the loader calls. *)
Record cpio_fs := mkCpioFs {
  fs_mkdir_p : list Z -> Z -> M (option nat);
  fs_create_file : list Z -> Z -> list Z -> M (option nat);
  fs_create_symlink : list Z -> list Z -> M (option nat);
}.

Section load.
Context (fs : cpio_fs).

Definition own (n : option nat) (uid gid : Z) : M unit :=
  match n with None => mret tt | Some p => modify p (set_owner uid gid) end.

Definition load_entry (path : list Z) (r : cpio_rec) : M unit :=
  let ftype := Z.land (c_mode r) S_IFMT in
  let mode := Z.land (c_mode r) 0xfff in
  if ftype =? S_IFDIR then n ← fs_mkdir_p fs path mode; own n (c_uid r) (c_gid r) else
  if (ftype =? S_IFREG) || (ftype =? 0) then n ← fs_create_file fs path mode (c_data r); own n (c_uid r) (c_gid r) else
  if ftype =? S_IFLNK then
    if (0 <? blen (c_data r)) && (blen (c_data r) <? 512) then n ← fs_create_symlink fs path (cstr (c_data r)); own n (c_uid r) (c_gid r) else mret tt
  else mret tt.

Fixpoint load_loop (fuel : nat) (data : list Z) (pos : Z) : M Z :=
  match fuel with
  | O => fun _ => None
  | S fuel =>
      if blen data - CPIO_HDR_SIZE <? pos then mret 0 else
      r ← lift (parse_rec data pos);
      match r with
      | None => mret (-1)
      | Some r =>
          if is_trailer (c_name r) then mret 0 else
          if is_root (c_name r) then load_loop fuel data (c_next r) else
          match rec_path (c_name r) with
          | None => mret (-1)
          | Some path => load_entry path r;; load_loop fuel data (c_next r)
          end
      end
  end.

Definition cpio_load (data : list Z) : M Z := if blen data <? CPIO_HDR_SIZE then mret (-1) else load_loop (S (length data)) data 0.
End load.

(** ** Paths *)

Fixpoint split_slash (p : list Z) : list (list Z) :=
  match p with
  | [] => [[]]
  | c :: p => if c =? ch_slash then [] :: split_slash p else match split_slash p with [] => [[c]] | h :: t => (c :: h) :: t end
  end.

(** An absolute path that stays below the root and fits a buffer of 512 bytes. *)
Definition path_ok (path : list Z) : Prop := exists p, path = ch_slash :: p /\ Forall (fun ch => ch <> 0) p /\ 0 < blen p <= 510 /\ dotdot ∉ split_slash p.

Lemma split_first p : split_slash p = take_while not_slash p :: match drop (length (take_while not_slash p)) p with [] => [] | _ :: q => split_slash q end.
Proof.
  induction p as [|c p IH]; [done|]. cbn [split_slash take_while]. unfold not_slash at 1 3. destruct (c =? ch_slash); cbn [negb length drop]; [done|]. rewrite IH at 1. done.
Qed.

Lemma split_skip p : dotdot ∈ split_slash p -> dotdot ∈ split_slash (skip_while (fun ch => ch =? ch_slash) p).
Proof.
  induction p as [|c p IH]; [done|]. cbn [skip_while]. destruct (c =? ch_slash) eqn:E; [|done]. cbn [split_slash]. rewrite E. intros H. apply elem_of_cons in H as [H|H]; [done|]. by apply IH.
Qed.

Lemma skip_slash p : let q := skip_while (fun ch => ch =? ch_slash) p in (length q <= length p)%nat /\ (forall r, q <> ch_slash :: r).
Proof.
  induction p as [|c p IH]; [done|]. cbn [skip_while]. destruct (Z.eqb_spec c ch_slash) as [E|E]; cbn [length]; [|split; [lia|congruence]]. destruct IH. split; [lia|done].
Qed.

Lemma drop_comp q x r : drop (length (take_while not_slash q)) q = x :: r -> x = ch_slash.
Proof.
  revert x r. induction q as [|y q IHq]; intros x r; [done|]. cbn [take_while]. unfold not_slash at 1. destruct (Z.eqb_spec y ch_slash); cbn [negb length drop]; [congruence|apply IHq].
Qed.

Lemma comps_safe_ok fuel : forall p, (length p <= fuel)%nat -> comps_safe fuel p = true -> dotdot ∉ split_slash p.
Proof.
  assert (Hnil : dotdot ∉ split_slash []) by (cbn; by rewrite list_elem_of_singleton).
  induction fuel as [|fuel IH]; intros p Hf Hs Hin; [destruct p; [done|cbn in Hf; lia]|].
  destruct p as [|c p]; [done|]. cbn [comps_safe] in Hs. apply split_skip in Hin. pose proof (skip_slash (c :: p)) as [Hq Hh]. set (q := skip_while _ (c :: p)) in *. clearbody q.
  case_bool_decide as Hd; [done|]. rewrite split_first in Hin. apply elem_of_cons in Hin as [Hin|Hin]; [congruence|].
  destruct (drop (length (take_while not_slash q)) q) as [|x r] eqn:Er; [by apply not_elem_of_nil in Hin|]. pose proof (drop_comp _ _ _ Er) as ->.
  assert (Hl : (length (ch_slash :: r) < length q)%nat) by (rewrite <- Er, length_drop; destruct (take_while not_slash q) eqn:Et; [by apply Hh in Er|]; cbn [length]; destruct q; [done|cbn [length]; lia]).
  apply (IH (ch_slash :: r)); [lia|done|]. cbn [split_slash]. rewrite Z.eqb_refl. by right.
Qed.

Lemma take_strnlen s : take (Z.to_nat (strnlen s (length s))) s = cstr s.
Proof.
  induction s as [|c s IH]; [done|]. cbn [strnlen length cstr]. destruct (ztrue c); [|done]. assert (0 <= strnlen s (length s)) by (clear; induction s as [|x s IH]; cbn; [lia|]; destruct (ztrue x); lia).
  rewrite Z2Nat.inj_add by lia. change (Z.to_nat 1) with 1%nat. cbn [Nat.add take]. by rewrite IH.
Qed.

Lemma rec_path_ok name path : rec_path name = Some path -> path_ok path.
Proof.
  unfold rec_path. cbv zeta. match goal with |- context [strnlen ?p _] => set (p0 := p); clearbody p0 end. rewrite take_strnlen. destruct (archive_path_safe (cstr p0)) eqn:Hs; [|done]. destruct (Z.ltb_spec 510 (blen (cstr p0))); [done|]. cbn [negb orb]. intros [= <-].
  exists (cstr p0). split; [done|]. split; [apply cstr_nonzero|]. unfold archive_path_safe in Hs. destruct (cstr p0) as [|ch p] eqn:Ep; [done|]. split; [unfold blen in *; cbn [length] in *; lia|].
  destruct (ch =? ch_slash); [done|]. eapply comps_safe_ok; [|exact Hs]. done.
Qed.

(** ** Records *)

Lemma rd_ok data off n : 0 <= off -> off + n <= blen data -> rd data off n = Some (slice data off n).
Proof. intros. unfold rd. by rewrite !(proj2 (Z.leb_le _ _)) by lia. Qed.

Lemma hex_digit_range c d : hex_digit c = Some d -> 0 <= d < 16.
Proof.
  unfold hex_digit. destruct (Z.leb_spec 48 c), (Z.leb_spec c 57), (Z.leb_spec 65 c), (Z.leb_spec c 70), (Z.leb_spec 97 c), (Z.leb_spec c 102); cbn [andb]; intros [= <-]; lia.
Qed.

(** A digit is put below the value. *)
Lemma hex_step v d : 0 <= d < 16 -> Z.lor (u32 (Z.shiftl v 4)) d = u32 (16 * v + d).
Proof.
  intros Hd. assert (E : u32 (Z.shiftl v 4) = Z.shiftl (v `mod` 2 ^ 28) 4) by (rewrite !Z.shiftl_mul_pow2 by lia; unfold u32; rewrite Z.mul_comm; change (2 ^ 32) with (2 ^ 4 * 2 ^ 28); rewrite Z.mul_mod_distr_l by lia; lia).
  rewrite E, lor_add_shift by lia. unfold u32. change (2 ^ 32) with (2 ^ 28 * 16). pose proof (Z.div_mod v (2 ^ 28) ltac:(lia)). pose proof (Z.mod_pos_bound v (2 ^ 28) ltac:(lia)).
  apply Z.mod_unique with (v / 2 ^ 28); lia.
Qed.

Lemma hex_loop_u32 s : forall v r, is_u32 v -> hex_loop v s = Some r -> is_u32 r.
Proof.
  induction s as [|c s IH]; intros v r Hv; cbn [hex_loop]; [by intros [= <-]|]. destruct (hex_digit c) as [d|] eqn:Ed; [|done]. cbn [mbind option_bind]. apply IH. rewrite hex_step by (by eapply hex_digit_range). apply u32_range.
Qed.

Lemma hex8_u32 s r : hex8 s = Some r -> 0 <= r < 2 ^ 32.
Proof. apply hex_loop_u32. done. Qed.

Lemma align4_eq x : 0 <= x < 2 ^ 64 - 3 -> align4 x = x + 3 - (x + 3) `mod` 4.
Proof. intros Hx. unfold align4. rewrite u64_small by (unfold is_u64; lia). apply (align_down (x + 3) 2); [unfold is_u64|]; lia. Qed.

Lemma align4_bounds x : 0 <= x < 2 ^ 64 - 3 -> x <= align4 x < x + 4.
Proof. intros Hx. rewrite align4_eq by done. pose proof (Z.mod_pos_bound (x + 3) 4 ltac:(lia)). lia. Qed.

(** The record at a position with a whole header left: no access is outside of
    the archive, and the next record is further on. *)
Lemma parse_rec_safe data pos : blen data < 2 ^ 64 -> 0 <= pos <= blen data - CPIO_HDR_SIZE ->
  exists r, parse_rec data pos = Some r /\ forall x, r = Some x -> pos < c_next x.
Proof.
  unfold CPIO_HDR_SIZE. intros Hd Hp. unfold parse_rec. cbv zeta. rewrite !rd_ok by lia. cbn [mbind option_bind]. destruct (magic_ok _); cbn [negb]; [|by exists None].
  destruct (hex8 (slice data (pos + 94) 8)) as [namesize|] eqn:E1; [|by exists None]. destruct (hex8 (slice data (pos + 54) 8)) as [filesize|] eqn:E2; [|by exists None]. apply hex8_u32 in E1, E2.
  destruct (hex8 _) as [mode|]; [|by exists None]. destruct (hex8 _) as [uid|]; [|by exists None]. destruct (hex8 _) as [gid|]; [|by exists None]. destruct (Z.eqb_spec namesize 0); [by exists None|].
  unfold CPIO_HDR_SIZE. rewrite !(u64_small (pos + 110)) by (unfold is_u64; lia). rewrite !(u64_small (blen data - _)) by (unfold is_u64; lia).
  destruct (Z.ltb_spec (blen data - (pos + 110)) namesize); [by exists None|]. rewrite (rd_ok data (pos + 110) namesize) by lia. cbn [mbind option_bind]. destruct (_ =? 0); cbn [negb]; [|by exists None].
  pose proof (align4_bounds (110 + namesize) ltac:(lia)) as Hpre. set (pre := align4 _) in *. clearbody pre. destruct (Z.ltb_spec (blen data - pos) pre); [by exists None|]. rewrite (u64_small (pos + pre)) by (unfold is_u64; lia).
  rewrite (u64_small (blen data - _)) by (unfold is_u64; lia). destruct (Z.ltb_spec (blen data - (pos + pre)) filesize); [by exists None|]. rewrite (u64_small (pos + pre + filesize)) by (unfold is_u64; lia).
  unfold U64_MAX. destruct (Z.ltb_spec (2 ^ 64 - 1 - 3) (pos + pre + filesize)); [by exists None|].
  pose proof (align4_bounds (pos + pre + filesize) ltac:(lia)) as Hn. destruct (_ <=? pos); [by exists None|]. rewrite rd_ok by lia. eexists. split; [done|]. intros ? [= <-]. cbn [c_next]. lia.
Qed.

(** ** Loading an archive *)

(** A node the loader is given exists. *)
Definition made (Inv : vfs -> Prop) (r : option nat) (s : vfs) : Prop := Inv s /\ forall q, r = Some q -> is_Some (nodes s !! q).

(** What the loader asks of the file system: on an absolute path below the root,
    of those that [okp] admits, its functions return and keep the invariant. *)
Class FsOk (fs : cpio_fs) (okp : list Z -> Prop) (Inv : vfs -> Prop) : Prop := {
  mkdir_p_ok path mode s : path_ok path -> okp path -> Inv s -> runs (fs_mkdir_p fs path mode) s (made Inv);
  create_file_ok path mode data s : path_ok path -> okp path -> Inv s -> runs (fs_create_file fs path mode data) s (made Inv);
  create_symlink_ok path target s : path_ok path -> okp path -> blen target < 512 -> Inv s -> runs (fs_create_symlink fs path target) s (made Inv);
  owner_ok q uid gid s : Inv s -> is_Some (nodes s !! q) -> runs (modify q (set_owner uid gid)) s (fun _ => Inv);
}.

(** The entries of an archive with their paths, and what is returned after
    them. *)
Fixpoint entries_from (fuel : nat) (data : list Z) (pos : Z) : option (list (list Z * cpio_rec) * Z) :=
  match fuel with
  | O => None
  | S fuel =>
      if blen data - CPIO_HDR_SIZE <? pos then Some ([], 0) else
      r ← parse_rec data pos;
      match r with
      | None => Some ([], -1)
      | Some r =>
          if is_trailer (c_name r) then Some ([], 0) else
          if is_root (c_name r) then entries_from fuel data (c_next r) else
          match rec_path (c_name r) with
          | None => Some ([], -1)
          | Some path => '(l, rc) ← entries_from fuel data (c_next r); Some ((path, r) :: l, rc)
          end
      end
  end.

Definition archive_entries (data : list Z) : option (list (list Z * cpio_rec) * Z) := if blen data <? CPIO_HDR_SIZE then Some ([], -1) else entries_from (S (length data)) data 0.

Fixpoint load_all (fs : cpio_fs) (l : list (list Z * cpio_rec)) : M unit :=
  match l with
  | [] => mret tt
  | (path, r) :: l => load_entry fs path r;; load_all fs l
  end.

Lemma load_loop_entries fs data fuel : forall pos s, load_loop fs fuel data pos s = '(l, rc) ← entries_from fuel data pos; (load_all fs l;; mret rc : M Z) s.
Proof.
  induction fuel as [|fuel IH]; intros pos s; cbn [load_loop entries_from]; [done|]. destruct (_ <? pos); [done|]. unfold mbind at 1, M_bind at 1. unfold lift. destruct (parse_rec data pos) as [[r|]|]; cbn [mbind option_bind]; [|done|done].
  destruct (is_trailer _); [done|]. destruct (is_root _); [apply IH|]. destruct (rec_path _) as [path|]; [|done]. unfold mbind at 1, M_bind at 1. destruct (entries_from fuel data (c_next r)) as [[l rc]|] eqn:E; cbn [mbind option_bind load_all].
  - unfold mbind, M_bind. destruct (load_entry fs path r s) as [[[] s']|]; [|done]. rewrite IH, E. done.
  - destruct (load_entry fs path r s) as [[[] s']|]; [|done]. by rewrite IH, E.
Qed.

Lemma cpio_load_entries fs data s : cpio_load fs data s = '(l, rc) ← archive_entries data; (load_all fs l;; mret rc : M Z) s.
Proof. unfold cpio_load, archive_entries. destruct (_ <? _); [done|]. apply load_loop_entries. Qed.

Lemma entries_from_total data fuel : blen data < 2 ^ 64 -> forall pos, 0 <= pos -> blen data - CPIO_HDR_SIZE < Z.of_nat fuel + pos ->
  exists l rc, entries_from (S fuel) data pos = Some (l, rc) /\ (rc = 0 \/ rc = -1) /\ Forall (fun e => path_ok e.1) l.
Proof.
  intros Hd. induction fuel as [|fuel IH]; intros pos Hp Hf.
  - cbn [entries_from]. rewrite (proj2 (Z.ltb_lt _ _)) by lia. eauto 6.
  - remember (S fuel) as k eqn:Ek. cbn [entries_from]. destruct (Z.ltb_spec (blen data - CPIO_HDR_SIZE) pos); [eauto 6|]. destruct (parse_rec_safe data pos Hd ltac:(lia)) as (r & Er & Hr). rewrite Er. cbn [mbind option_bind].
    destruct r as [x|]; [|eauto 6]. specialize (Hr x eq_refl). destruct (is_trailer _); [eauto 6|]. destruct (IH (c_next x) ltac:(lia) ltac:(lia)) as (l & rc & E & Hrc & Hl). rewrite E. destruct (is_root _); [eauto 6|].
    destruct (rec_path (c_name x)) as [path|] eqn:Ep; [|eauto 6]. exists ((path, x) :: l), rc. split; [done|]. split; [done|]. constructor; [by eapply rec_path_ok|done].
Qed.

Lemma archive_entries_total data : blen data < 2 ^ 64 -> exists l rc, archive_entries data = Some (l, rc) /\ (rc = 0 \/ rc = -1) /\ Forall (fun e => path_ok e.1) l.
Proof. intros Hd. unfold archive_entries. destruct (_ <? _); [eauto 6|]. apply entries_from_total; [done|lia|unfold blen, CPIO_HDR_SIZE; lia]. Qed.

Section safe.
Context (fs : cpio_fs) (okp : list Z -> Prop) (Inv : vfs -> Prop) {OK : FsOk fs okp Inv}.

Lemma own_safe r uid gid s : made Inv r s -> runs (own r uid gid) s (fun _ => Inv).
Proof. intros [Hi Hr]. destruct r as [q|]; cbn [own]; [apply owner_ok; [done|by apply Hr]|by apply runs_ret]. Qed.

Lemma blen_cstr l : blen (cstr l) <= blen l.
Proof. unfold blen. induction l as [|c l IH]; [done|]. cbn [cstr]. destruct (ztrue c); cbn [length]; lia. Qed.

Lemma load_entry_safe path r s : path_ok path -> okp path -> Inv s -> runs (load_entry fs path r) s (fun _ => Inv).
Proof.
  intros Hp Ho Hi. unfold load_entry. cbv zeta. destruct (_ =? S_IFDIR); [eapply runs_seq; [by apply mkdir_p_ok|]; intros; by apply own_safe|].
  destruct (_ || _); [eapply runs_seq; [by apply create_file_ok|]; intros; by apply own_safe|]. destruct (_ =? S_IFLNK); [|by apply runs_ret]. destruct (_ && _) eqn:E; [|by apply runs_ret].
  apply andb_prop in E as [_ E%Z.ltb_lt]. pose proof (blen_cstr (c_data r)). eapply runs_seq; [apply create_symlink_ok; try done; lia|]. intros; by apply own_safe.
Qed.

Lemma load_all_safe l s : Forall (fun e => path_ok e.1 /\ okp e.1) l -> Inv s -> runs (load_all fs l) s (fun _ => Inv).
Proof.
  intros Hl. revert s. induction Hl as [|[path r] l [H1 H2] Hl IH]; intros s Hi; cbn [load_all]; [by apply runs_ret|]. eapply runs_seq; [by apply load_entry_safe|]. intros [] s' Hi'. by apply IH.
Qed.
End safe.
