(* ===== verification/CpioEnc.v ===== *)
(** * Archives written from entries.

    The new ASCII format: a header of 110 bytes with fields of eight hexadecimal
    digits, the name with its zero byte, and the data, each padded to four bytes;
    an entry [TRAILER!!!] ends the archive.  Loading such an archive makes the
    entries, in their order. *)

From S2P Require Import Prelude Bits Bytes KString Ns Jail Cred RamFile Vfs VfsTree VfsLookup VfsSpec VfsInv Cpio.

(** ** The format *)

Definition hex_char (d : Z) : Z := if d <? 10 then 48 + d else 87 + d.

Fixpoint hex_digits (n : nat) (v : Z) : list Z :=
  match n with
  | O => []
  | S n => hex_char ((v / 16 ^ Z.of_nat n) `mod` 16) :: hex_digits n v
  end.

Record arc_entry := mkEntry { e_mode : Z; e_uid : Z; e_gid : Z; e_name : list Z; e_data : list Z }.

Definition pad4 (n : Z) : list Z := replicate (Z.to_nat ((- n) `mod` 4)) 0.

Definition enc_hdr (e : arc_entry) : list Z :=
  let f := hex_digits 8 in
  [48; 55; 48; 55; 48; 49] ++ f 0 ++ f (e_mode e) ++ f (e_uid e) ++ f (e_gid e) ++ f 1 ++ f 0 ++ f (blen (e_data e)) ++ f 0 ++ f 0 ++ f 0 ++ f 0 ++ f (blen (e_name e) + 1) ++ f 0.

Definition enc_rec (e : arc_entry) : list Z :=
  enc_hdr e ++ (e_name e ++ [0]) ++ pad4 (CPIO_HDR_SIZE + (blen (e_name e) + 1)) ++ e_data e ++ pad4 (blen (e_data e)).

Definition encode (es : list arc_entry) : list Z := concat (enc_rec <$> es) ++ enc_rec (mkEntry 0 0 0 trailer []).

(** An entry whose fields fit, and whose name is a path below the root. *)
Definition fits (e : arc_entry) : Prop := is_u32 (e_mode e) /\ is_u32 (e_uid e) /\ is_u32 (e_gid e) /\ blen (e_name e) <= 510 /\ is_u32 (blen (e_data e)).
Definition name_ok (x : list Z) : Prop :=
  Forall (fun ch => ch <> 0) x /\ head x <> None /\ head x <> Some ch_slash /\ (dotdot ∉ split_slash x) /\ x <> [ch_dot] /\ take 2 x <> [ch_dot; ch_slash] /\ take 10 x <> trailer.

(** ** Numbers *)

Lemma hex_char_digit d : 0 <= d < 16 -> hex_digit (hex_char d) = Some d.
Proof. intros Hd. assert (H : d ∈ seqZ 0 16) by (apply elem_of_seqZ; lia). clear Hd. revert d H. apply Forall_forall. vm_compute. repeat constructor. Qed.

Lemma hex_digits_loop v n : is_u32 v -> hex_loop (v / 16 ^ Z.of_nat n) (hex_digits n v) = Some v.
Proof.
  intros Hv. induction n as [|n IH]; [cbn; by rewrite Z.div_1_r|]. cbn [hex_digits hex_loop]. rewrite hex_char_digit by (apply Z.mod_pos_bound; lia). cbn [mbind option_bind]. rewrite hex_step by (apply Z.mod_pos_bound; lia).
  rewrite Nat2Z.inj_succ, Z.pow_succ_r by lia. rewrite (Z.mul_comm 16 (16 ^ Z.of_nat n)), <- Z.div_div by lia. rewrite <- Z.div_mod by lia. rewrite u32_small; [done|]. unfold is_u32 in *. split; [apply Z.div_pos; lia|].
  eapply Z.le_lt_trans; [|apply Hv]. apply Z.div_le_upper_bound; [lia|]. nia.
Qed.

Lemma hex8_digits v : is_u32 v -> hex8 (hex_digits 8 v) = Some v.
Proof. intros Hv. unfold hex8. rewrite <- (hex_digits_loop v 8 Hv). f_equal. unfold is_u32 in Hv. change (16 ^ Z.of_nat 8) with (2 ^ 32). symmetry. by apply Z.div_small. Qed.

(** ** Names *)

Lemma split_skip_back p : dotdot ∈ split_slash (skip_while (fun ch => ch =? ch_slash) p) -> dotdot ∈ split_slash p.
Proof. induction p as [|c p IH]; [done|]. cbn [skip_while]. destruct (c =? ch_slash) eqn:E; [|done]. intros H. cbn [split_slash]. rewrite E. right. by apply IH. Qed.

Lemma comps_safe_back fuel : forall p, dotdot ∉ split_slash p -> comps_safe fuel p = true.
Proof.
  induction fuel as [|fuel IH]; intros p Hp; [by destruct p|]. destruct p as [|c p]; [done|]. cbn [comps_safe]. set (q := skip_while _ _). assert (Hq : dotdot ∉ split_slash q) by (intros H; apply Hp; by apply split_skip_back).
  clearbody q. rewrite split_first in Hq. apply not_elem_of_cons in Hq as [H1 H2]. rewrite bool_decide_eq_false_2 by congruence. apply IH. destruct (drop _ q) as [|x r] eqn:E; [cbn; by rewrite list_elem_of_singleton|].
  rewrite (drop_comp _ _ _ E). cbn [split_slash]. rewrite Z.eqb_refl. intros H. apply elem_of_cons in H as [H|H]; done.
Qed.

Lemma rec_path_name x : name_ok x -> blen x <= 510 -> rec_path (x ++ [0]) = Some (ch_slash :: x).
Proof.
  intros (H0 & Hne & Hs & Hdd & _ & Hds & _) Hl. unfold rec_path. cbv zeta. destruct x as [|c0 x]; [done|].
  assert (E : (2 <=? blen ((c0 :: x) ++ [0])) && (aget 0 ((c0 :: x) ++ [0]) 0 =? ch_dot) && (aget 0 ((c0 :: x) ++ [0]) 1 =? ch_slash) = false).
  { destruct x as [|c1 x]; cbn; [by rewrite andb_false_r|]. destruct (Z.eqb_spec c0 ch_dot), (Z.eqb_spec c1 ch_slash); try by rewrite ?andb_false_r. subst. by destruct Hds. }
  rewrite E, take_strnlen, cstr_app_nul by done. replace (510 <? _) with false by (symmetry; apply Z.ltb_ge; lia). unfold archive_path_safe. destruct (Z.eqb_spec c0 ch_slash); [subst; by destruct Hs|]. by rewrite comps_safe_back.
Qed.

(** ** Records *)

Lemma slice_field a b d off n : 0 <= off -> 0 <= n -> off + n <= blen b -> slice (a ++ b ++ d) (blen a + off) n = slice b off n.
Proof.
  intros H1 H2 H3. unfold slice, blen in *. replace (Z.to_nat (Z.of_nat (length a) + off)) with (length a + Z.to_nat off)%nat by lia. rewrite drop_app_add, drop_app_le by lia. apply take_app_le. rewrite length_drop. lia.
Qed.

Lemma rd_field a b d off n : 0 <= off -> 0 <= n -> off + n <= blen b -> rd (a ++ b ++ d) (blen a + off) n = Some (slice b off n).
Proof. intros H1 H2 H3. rewrite rd_ok, slice_field; try done; [unfold blen; lia|]. rewrite !blen_app. unfold blen in *. lia. Qed.

Lemma rd_part a b d : rd (a ++ b ++ d) (blen a) (blen b) = Some b.
Proof. rewrite <- (Z.add_0_r (blen a)). rewrite rd_field by (unfold blen; lia). by rewrite slice_full. Qed.

Lemma blen_pad n : blen (pad4 n) = (- n) `mod` 4.
Proof. unfold blen, pad4. rewrite length_replicate. pose proof (Z.mod_pos_bound (- n) 4). lia. Qed.

Lemma align4_pad x : 0 <= x < 2 ^ 64 - 3 -> align4 x = x + blen (pad4 x).
Proof. intros Hx. rewrite align4_eq, blen_pad by done. Z.to_euclidean_division_equations. lia. Qed.

Lemma blen_hdr e : blen (enc_hdr e) = 110.
Proof. done. Qed.

Lemma enc_fields e : fits e ->
  magic_ok (slice (enc_hdr e) 0 6) = true /\ hex8 (slice (enc_hdr e) 94 8) = Some (blen (e_name e) + 1) /\ hex8 (slice (enc_hdr e) 54 8) = Some (blen (e_data e)) /\
  hex8 (slice (enc_hdr e) 14 8) = Some (e_mode e) /\ hex8 (slice (enc_hdr e) 22 8) = Some (e_uid e) /\ hex8 (slice (enc_hdr e) 30 8) = Some (e_gid e).
Proof.
  intros (H1 & H2 & H3 & H4 & H5). split; [done|]. assert (Hn : is_u32 (blen (e_name e) + 1)) by (unfold is_u32, blen in *; lia).
  rewrite <- (hex8_digits _ Hn), <- (hex8_digits _ H5), <- (hex8_digits _ H1), <- (hex8_digits _ H2), <- (hex8_digits _ H3). repeat split.
Qed.

(** Where the parts of a record are. *)
Record placed_at (total : list Z) (pos : Z) (e : arc_entry) : Prop := {
  p_magic : rd total pos 6 = Some (slice (enc_hdr e) 0 6);
  p_field off : 0 <= off <= 102 -> rd total (pos + off) 8 = Some (slice (enc_hdr e) off 8);
  p_name : rd total (pos + 110) (blen (e_name e) + 1) = Some (e_name e ++ [0]);
  p_data : rd total (pos + align4 (110 + (blen (e_name e) + 1))) (blen (e_data e)) = Some (e_data e);
  p_size : pos + blen (enc_rec e) <= blen total;
}.

Lemma rec_placed pre e rest : fits e -> placed_at (pre ++ enc_rec e ++ rest) (blen pre) e.
Proof.
  intros (_ & _ & _ & Hn & _). assert (0 <= blen (e_name e)) by (unfold blen; lia). pose proof (align4_pad (110 + (blen (e_name e) + 1)) ltac:(lia)) as Ha. pose proof (blen_hdr e) as Hh.
  assert (Hname : blen (e_name e ++ [0]) = blen (e_name e) + 1) by (by rewrite blen_app). set (p1 := pad4 (110 + _)) in Ha.
  assert (E : pre ++ enc_rec e ++ rest = pre ++ enc_hdr e ++ (e_name e ++ [0]) ++ p1 ++ e_data e ++ pad4 (blen (e_data e)) ++ rest) by (unfold enc_rec, CPIO_HDR_SIZE; fold p1; by rewrite <- !app_assoc).
  split; [| | | |rewrite !blen_app; unfold blen; lia]; rewrite E; clear E; generalize dependent (enc_hdr e); intros hdr Hh; generalize dependent (e_name e ++ [0]); intros name Hname; clearbody p1.
  - rewrite <- (Z.add_0_r (blen pre)). apply rd_field; lia.
  - intros off Hoff. apply rd_field; lia.
  - rewrite <- Hname, <- Hh, <- blen_app, (app_assoc pre hdr). apply rd_part.
  - rewrite Ha, <- Hname. replace (blen pre + (110 + blen name + blen p1)) with (blen (pre ++ hdr ++ name ++ p1)) by (rewrite !blen_app; lia).
    replace (pre ++ hdr ++ name ++ p1 ++ e_data e ++ pad4 (blen (e_data e)) ++ rest) with ((pre ++ hdr ++ name ++ p1) ++ e_data e ++ pad4 (blen (e_data e)) ++ rest) by (by rewrite <- !app_assoc). apply rd_part.
Qed.

Lemma blen_rec e : fits e -> blen (enc_rec e) = align4 (110 + (blen (e_name e) + 1)) + blen (e_data e) + blen (pad4 (blen (e_data e))).
Proof. intros (_ & _ & _ & Hn & _). unfold enc_rec. rewrite !blen_app, blen_hdr. assert (0 <= blen (e_name e)) by (unfold blen; lia). rewrite align4_pad by lia. change (blen [0]) with 1. unfold CPIO_HDR_SIZE. lia. Qed.

Lemma rec_aligned e : fits e -> blen (enc_rec e) `mod` 4 = 0.
Proof.
  intros He. rewrite blen_rec by done. destruct He as (_ & _ & _ & Hn & _). assert (0 <= blen (e_name e)) by (unfold blen; lia). rewrite align4_eq, blen_pad by lia. Z.to_euclidean_division_equations. lia.
Qed.

Lemma parse_enc total pos e : fits e -> placed_at total pos e -> 0 <= pos -> pos `mod` 4 = 0 -> blen total < 2 ^ 64 - 4 ->
  parse_rec total pos = Some (Some (mkRec (e_mode e) (e_uid e) (e_gid e) (e_name e ++ [0]) (e_data e) (pos + blen (enc_rec e)))).
Proof.
  intros He P Hp Hm Hl. pose proof (enc_fields e He) as (F0 & F1 & F2 & F3 & F4 & F5). pose proof (p_size _ _ _ P) as Hsz. rewrite (blen_rec e He) in *. destruct He as (_ & _ & _ & Hn & Hd). unfold is_u32 in Hd.
  assert (Hn0 : 0 <= blen (e_name e)) by (unfold blen; lia). unfold parse_rec. cbv zeta. rewrite (p_magic _ _ _ P). cbn [mbind option_bind]. rewrite F0. cbn [negb]. rewrite !(p_field _ _ _ P) by lia. cbn [mbind option_bind]. rewrite F1, F2, F3, F4, F5.
  unfold CPIO_HDR_SIZE. pose proof (align4_bounds (110 + (blen (e_name e) + 1)) ltac:(lia)) as Hb. assert (Hb4 : align4 (110 + (blen (e_name e) + 1)) `mod` 4 = 0) by (rewrite align4_eq by lia; Z.to_euclidean_division_equations; lia).
  set (prefix := align4 (110 + (blen (e_name e) + 1))) in *. pose proof (p_data _ _ _ P) as Pd. pose proof (p_name _ _ _ P) as Pn. fold prefix in Pd. clearbody prefix. pose proof (blen_pad (blen (e_data e))) as Hpad. pose proof (Z.mod_pos_bound (- blen (e_data e)) 4 ltac:(lia)).
  rewrite (u64_small (pos + 110)), (u64_small (pos + prefix)) by (unfold is_u64; lia). rewrite (u64_small (pos + prefix + _)) by (unfold is_u64; lia). rewrite !(u64_small (blen total - _)) by (unfold is_u64; lia).
  destruct (Z.eqb_spec (blen (e_name e) + 1) 0); [lia|]. destruct (Z.ltb_spec (blen total - (pos + 110)) (blen (e_name e) + 1)); [lia|]. rewrite Pn. cbn [mbind option_bind].
  replace (aget 0 (e_name e ++ [0]) _) with 0 by (unfold aget, blen; replace (Z.to_nat _) with (length (e_name e)) by lia; by rewrite lookup_app_r, Nat.sub_diag by lia). cbn [Z.eqb negb].
  destruct (Z.ltb_spec (blen total - pos) prefix); [lia|]. destruct (Z.ltb_spec (blen total - (pos + prefix)) (blen (e_data e))); [lia|]. unfold U64_MAX. destruct (Z.ltb_spec (2 ^ 64 - 1 - 3) (pos + prefix + blen (e_data e))); [lia|].
  rewrite align4_pad, blen_pad by lia. replace ((- (pos + prefix + blen (e_data e))) `mod` 4) with ((- blen (e_data e)) `mod` 4) by (Z.to_euclidean_division_equations; lia).
  destruct (Z.leb_spec (pos + prefix + blen (e_data e) + (- blen (e_data e)) `mod` 4) pos); [lia|]. rewrite Pd. cbn [mbind option_bind]. rewrite Hpad. do 3 f_equal. lia.
Qed.

(** ** The whole archive *)

Definition same_item (e : arc_entry) (x : list Z * cpio_rec) : Prop :=
  x.1 = ch_slash :: e_name e /\ c_mode x.2 = e_mode e /\ c_uid x.2 = e_uid e /\ c_gid x.2 = e_gid e /\ c_data x.2 = e_data e.

Definition item (e : arc_entry) : list Z * cpio_rec := (ch_slash :: e_name e, mkRec (e_mode e) (e_uid e) (e_gid e) (e_name e ++ [0]) (e_data e) 0).

Lemma hdr_left total pos e : placed_at total pos e -> (blen total - CPIO_HDR_SIZE <? pos) = false.
Proof.
  intros P. pose proof (p_size _ _ _ P) as H. unfold enc_rec in H. rewrite blen_app, blen_hdr in H. set (l := _ ++ _ ++ _) in H. assert (0 <= blen l) by (unfold blen; lia). apply Z.ltb_ge. unfold CPIO_HDR_SIZE. lia.
Qed.

Lemma not_special x : name_ok x -> is_trailer (x ++ [0]) = false /\ is_root (x ++ [0]) = false.
Proof.
  intros (H0 & Hne & _ & _ & Hdot & _ & Ht). split.
  - unfold is_trailer. apply andb_false_iff. destruct (decide (10 <= blen x)) as [Hl|Hl]; [right; apply bool_decide_eq_false_2; rewrite take_app_le by (unfold blen in Hl; lia); done|]. destruct (decide (blen x = 9)) as [E|E]; [|left; apply Z.leb_gt; rewrite blen_app; unfold blen in *; cbn [length] in *; lia].
    right. apply bool_decide_eq_false_2. rewrite take_ge by (rewrite length_app; unfold blen in E; cbn; lia). intros H. apply (f_equal last) in H. rewrite last_snoc in H. done.
  - unfold is_root. rewrite blen_app. change (blen [0]) with 1. destruct x as [|c0 [|c1 x]]; [done|cbn; destruct (Z.eqb_spec c0 ch_dot); [by subst|done]|].
    rewrite (proj2 (Z.leb_gt _ _)), (proj2 (Z.eqb_neq _ _)) by (unfold blen; cbn [length]; lia). done.
Qed.

Lemma trailer_fits : fits (mkEntry 0 0 0 trailer []).
Proof. done. Qed.

Lemma entries_enc es : Forall (fun e => fits e /\ name_ok (e_name e)) es -> forall pre fuel, blen pre `mod` 4 = 0 -> blen (pre ++ encode es) < 2 ^ 64 - 4 -> (length es < fuel)%nat ->
  exists l, entries_from fuel (pre ++ encode es) (blen pre) = Some (l, 0) /\ Forall2 same_item es l.
Proof.
  induction 1 as [|e es [He Hn] Hes IH]; intros pre fuel Hm Hl Hf; (destruct fuel as [|fuel]; [cbn in Hf; lia|]); cbn [entries_from].
  - assert (P : placed_at (pre ++ encode []) (blen pre) (mkEntry 0 0 0 trailer [])) by (unfold encode; cbn [fmap list_fmap concat app]; rewrite <- (app_nil_r (enc_rec _)); apply rec_placed, trailer_fits).
    rewrite (hdr_left _ _ _ P), (parse_enc _ _ _ trailer_fits P) by (done || unfold blen; lia). cbn [mbind option_bind c_name]. exists []. by split.
  - assert (E : encode (e :: es) = enc_rec e ++ encode es) by (unfold encode; cbn [fmap list_fmap concat]; by rewrite app_assoc). rewrite E in *. pose proof (rec_placed pre e (encode es) He) as P.
    rewrite (hdr_left _ _ _ P), (parse_enc _ _ _ He P) by (done || unfold blen; lia). cbn [mbind option_bind c_name c_next]. destruct (not_special _ Hn) as [-> ->]. rewrite rec_path_name by (done || apply He).
    rewrite app_assoc in Hl |- *. rewrite <- blen_app. destruct (IH (pre ++ enc_rec e) fuel) as (l & El & Hal); [rewrite blen_app, Z.add_mod, Hm, (rec_aligned e He) by lia; done|done|cbn in Hf; lia|]. rewrite El. cbn [mbind option_bind]. eexists. split; [done|]. constructor; [done|exact Hal].
Qed.

Lemma load_all_same fs es l : Forall2 same_item es l -> forall s, load_all fs l s = load_all fs (item <$> es) s.
Proof.
  induction 1 as [|e [path r] es l (H1 & H2 & H3 & H4 & H5) Hl IH]; intros s; [done|]. cbn [fst snd] in *. subst path.
  change (load_all fs (item <$> e :: es)) with (load_entry fs (ch_slash :: e_name e) (item e).2;; load_all fs (item <$> es)). cbn [load_all]. unfold mbind, M_bind.
  assert (E : load_entry fs (ch_slash :: e_name e) r s = load_entry fs (ch_slash :: e_name e) (item e).2 s) by (unfold load_entry; cbn [item snd c_mode c_uid c_gid c_data]; by rewrite H2, H3, H4, H5).
  rewrite E. clear E. match goal with |- match ?x with _ => _ end = _ => destruct x as [[[] s']|] end; [|done]. apply IH.
Qed.
