(* ===== verification/CpioVfs.v ===== *)
(** * The archive is loaded into the virtual file system.

    The functions of [vfs.c] are what the loader of the initial archive asks of a
    file system ([FsOk] of [Cpio.v]), for paths shorter than 256 bytes. *)

From S2P Require Import Prelude Bits Bytes KString Ns Jail Cred RamFile Vfs VfsTree VfsLookup VfsSpec VfsInv VfsOps Cpio CpioEnc.

Implicit Types m : gmap nat node.

#[local] Opaque lookup_internal.

Definition dir_in m (p : nat) : Prop := exists n, m !! p = Some n /\ n_type n = VFS_TYPE_DIR /\ n_deleted n = false.

(** Directories stay directories. *)
Definition dirs_kept m m' : Prop := forall p, dir_in m p -> dir_in m' p.

Lemma dirs_view m m' A : view m' ≡ A -> (forall p a, att (view m) p = Some a -> a_type a = VFS_TYPE_DIR -> exists a', att A p = Some a' /\ a_type a' = VFS_TYPE_DIR /\ a_deleted a' = a_deleted a) -> dirs_kept m m'.
Proof.
  intros [_ Hv] H p (n & Hn & Ht & Hd). destruct (H p (attr_of n)) as (a & Ha & Hat & Had); [cbn; by rewrite Hn|done|]. rewrite <- Hv in Ha. cbn in Ha. destruct (m' !! p) as [n'|] eqn:E; [|done]. cbn in Ha. exists n'. split; [done|]. injection Ha as <-. by rewrite <- Hd.
Qed.

Section boot.
Context (R : nat -> Prop) (try_pid_dir : nat -> list Z -> vfs -> vfs) (c : caller) (ok : allocs).

(** The state the loader works on: the root is a directory. *)
Definition boot_inv (s : vfs) : Prop := vfs_inv R s /\ caller_in R s c /\ dir_in (nodes s) (g_root s).

Definition vfs_fs : cpio_fs := mkCpioFs (vfs_mkdir_p c ok) (vfs_create_file try_pid_dir c ok) (vfs_create_symlink try_pid_dir c ok).

Lemma boot_next s s' : boot_inv s -> g_root s' = g_root s -> vfs_inv R s' -> dirs_kept (nodes s) (nodes s') -> boot_inv s'.
Proof.
  intros (_ & [Hc1 Hc2] & Hd) Hg I Hk. split; [done|]. split; [|rewrite Hg; by apply Hk]. split; [|done]. unfold start in *. by rewrite Hg.
Qed.

Lemma boot_st s s1 m' : boot_inv s -> g_root s1 = g_root s -> minv R (next_ptr s1) m' -> dirs_kept (nodes s) m' -> boot_inv (st s1 [] m').
Proof. intros B Hg I Hk. apply (boot_next s); [done|done|unfold vfs_inv, st, upd; cbn; by rewrite with_refs_nil|unfold st, upd; cbn; by rewrite with_refs_nil]. Qed.

(** ** The owner *)

Lemma owner_run q uid gid s : boot_inv s -> is_Some (nodes s !! q) -> runs (modify q (set_owner uid gid)) s (fun _ => boot_inv).
Proof.
  intros B [n Hn]. destruct B as (I & B). set (n' := set_owner uid gid n). apply (runs_val _ _ tt (upd s (<[q := n']> (nodes s)))); [unfold modify; by rewrite Hn|].
  assert (Hok : node_ok n') by (by apply (i_node _ _ _ I q n)). apply (boot_next s); [done|done|by apply (change_minv R _ _ I q n)|].
  intros p (x & Hx & Ht & Hd). destruct (decide (p = q)) as [->|Hne]; [exists n'; split; [apply lookup_insert_eq|]; by assert (x = n) as -> by congruence|exists x; cbn; by rewrite lookup_insert_ne].
Qed.

(** ** Directories *)

Lemma add_kept s d x a : minv R (next_ptr s) (nodes s) -> forall p b, att (view (nodes s)) p = Some b -> a_type b = VFS_TYPE_DIR -> exists a', att (add s d x a) p = Some a' /\ a_type a' = VFS_TYPE_DIR /\ a_deleted a' = a_deleted b.
Proof.
  intros I p b Hb Ht. exists b. split; [|done]. cbn in *. case_decide as E; [|done]. subst. by rewrite (i_fresh _ _ _ I) in Hb.
Qed.

Lemma mkdir_p_step s cur comp mode (k : nat -> M (option nat)) Q : ok_index ok = true -> boot_inv s -> dir_in (nodes s) cur -> blen comp < 256 -> comp <> [] ->
  (forall child s', boot_inv s' -> is_Some (nodes s' !! child) -> (forall n, nodes s' !! child = Some n -> n_deleted n = false) -> runs (k child) s' Q) -> Q None s ->
  runs (q ← node_alloc c (ok_node ok) comp VFS_TYPE_DIR mode;
        match q with
        | None => mret None
        | Some q =>
            e ← dir_find cur comp;
            child ← (match e with None => dir_insert_nolock (ok_index ok) cur q;; mret q | Some e => kfree q;; mret e end : M nat);
            k child
        end) s Q.
Proof.
  intros Hix B (dn & Hd & Hdir & Hdl) Hc Hne Hk HQ. destruct B as (I & B). apply runs_start. apply (runs_blank R c ok s I []); [done|constructor|intros _; apply runs_ret; by rewrite st_nil|]. intros Hok. set (n := blank _ _ _ _ _) in *.
  assert (Hn : fresh_node n) by (apply (fill_fresh c s comp VFS_TYPE_DIR mode new_file None); done). eapply (runs_st_find _ _ _ _ dn); [eapply i_tree, new_minv; [exact I|exact Hn]|by eapply made_dir|].
  rewrite (made_entry R s I cur n Hn). destruct (entry (nodes s) cur comp) as [e|] eqn:E.
  - apply runs_bind. apply runs_free_new; [by apply I|]. apply runs_ret. destruct (entry_in _ _ _ _ E) as (dn' & Hdn' & Hin & _). destruct (t_child _ (i_tree _ _ _ I) cur dn' e Hdn' Hin) as (en & Hen & _ & _ & Hed).
    assert (He : nodes (st (s_next s) [] (nodes s)) !! e = Some en) by (unfold st, upd; cbn; by rewrite with_refs_nil). apply Hk; [apply (boot_st s); [done|done|apply (freed_minv _ _ _ I)|by intros p]|by exists en|]. intros x Hx. congruence.
  - rewrite Hix. apply runs_bind. eapply runs_insert; [by eapply made_dir|apply made_new|by eapply made_ne|]. apply runs_ret. pose proof (made_minv R s I cur dn n Hd Hdl Hdir Hn E) as I'. pose proof (made_view R s I cur dn n Hd Hdl Hdir Hn E) as V.
    set (m' := inserted _ _ _ _ _ _) in *. assert (Hq : att (view m') (next_ptr s) = Some (attr_of n)) by (destruct V as [_ V]; rewrite V; cbn; by rewrite decide_True).
    cbn in Hq. destruct (m' !! next_ptr s) as [n'|] eqn:En; [|done]. cbn in Hq. assert (He : nodes (st (s_next s) [] m') !! next_ptr s = Some n') by (unfold st, upd; cbn; by rewrite with_refs_nil).
    apply Hk; [apply (boot_st s); [done|done|done|]; eapply dirs_view; [exact V|by apply add_kept]|by exists n'|]. intros x Hx. assert (x = n') as -> by congruence. by injection Hq.
Qed.

Lemma mkdir_p_run mode : ok_index ok = true -> forall fuel p s cur, (length p < fuel)%nat -> boot_inv s -> dir_in (nodes s) cur -> runs (mkdir_p_loop fuel c ok cur p mode) s (made boot_inv).
Proof.
  intros Hix. induction fuel as [|fuel IH]; intros p s cur Hf B Hcur; [lia|]. cbn [mkdir_p_loop]. destruct p as [|ch p]; [apply runs_ret; split; [done|]; intros q [= <-]; destruct Hcur as (n & Hn & _); by exists n|].
  set (comp := take_while not_slash (ch :: p)). set (p' := skip_while _ _).
  assert (Hp' : (length p' < fuel)%nat). { pose proof (skip_slash (drop (length comp) (ch :: p))) as [H1 H2]. fold p' in H1. rewrite length_drop in H1. destruct comp as [|x comp'] eqn:Ec; [|cbn [length] in *; lia].
    unfold comp in Ec. cbn [take_while] in Ec. unfold not_slash in Ec. destruct (Z.eqb_spec ch ch_slash) as [E|E]; [|done]. subst p'. cbn [length drop skip_while]. rewrite E, Z.eqb_refl. pose proof (skip_slash p) as [H3 _]. cbn [length] in Hf. lia. }
  clearbody p'. case_bool_decide as Hc; [by apply IH|]. destruct (Z.leb_spec 256 (blen comp)); [by apply runs_ret|].
  apply mkdir_p_step; try done. intros child s' B' [cn Hcn] Hdel. eapply runs_fetch; [exact Hcn|]. case_bool_decide as Ht; [|by apply runs_ret]. apply IH; [done|done|]. exists cn. split; [done|]. split; [done|]. by apply Hdel.
Qed.

(** ** Files and links *)

Lemma leaf_le s path : blen (parent_at try_pid_dir c s path).2 <= blen path.
Proof.
  unfold parent_at, parent_of. assert (Hd : forall i, blen (drop i path) <= blen path) by (intros i; unfold blen; rewrite length_drop; lia).
  assert (Hl : forall p x, blen x <= blen path -> blen (match (d ← vfs_lookup try_pid_dir c p; mret (d, x) : M (option nat * list Z)) s with Some (r, _) => r | None => (None, []) end).2 <= blen path).
  { intros p x Hx. unfold mbind, M_bind. destruct (vfs_lookup _ _ _ _) as [[d s']|]; [done|]. cbn. unfold blen. cbn. lia. }
  destruct (last_slash _) as [[|i]|]; [apply Hl; case_bool_decide; [apply Hd|done]| |apply Hl; case_bool_decide; [apply Hd|done]]. destruct (512 <=? S i)%nat; [cbn; unfold blen; cbn; lia|]. by apply Hl.
Qed.
(** What the verdict of an operation that makes a node tells. *)
Definition making (s : vfs) (p : result * afs) : Prop :=
  (forall q, p.1 = Ptr (Some q) -> is_Some (att p.2 q)) /\ (forall q a, att (view (nodes s)) q = Some a -> a_type a = VFS_TYPE_DIR -> exists a', att p.2 q = Some a' /\ a_type a' = VFS_TYPE_DIR /\ a_deleted a' = a_deleted a).

Lemma making_keep s r : (forall q, r <> Ptr (Some q)) -> making s (keep s r).
Proof. intros H. split; [intros q Hq; by apply H in Hq|]. intros q a Ha Ht. by exists a. Qed.

Lemma making_add s d x a : minv R (next_ptr s) (nodes s) -> making s (Ptr (Some (next_ptr s)), add s d x a).
Proof. intros I. split; [intros q [= <-]; cbn; rewrite decide_True by done; by eexists|by apply add_kept]. Qed.

Lemma making_set s e en r mode uid gid data : nodes s !! e = Some en -> (forall q, r = Some q -> q = e) -> making s (Ptr r, set_attr s e en mode uid gid data).
Proof.
  intros He Hr. split; [intros q [= E]; rewrite (Hr q E); cbn; rewrite decide_True by done; by eexists|]. intros q a Ha Ht. cbn in *. case_decide as E; [|by exists a]. subst. rewrite He in Ha. injection Ha as <-. by eexists.
Qed.

Lemma ptr_made s (k : M (option nat)) p : boot_inv s -> runs (ptr_of k) s (Post R s p) -> making s p -> runs k s (made boot_inv).
Proof.
  intros B H [Hq Hk]. unfold runs, ptr_of, mbind, M_bind in *. destruct (k s) as [[r s']|]; [|done]. destruct H as (Hr & Hv & I & Hg). split; [apply (boot_next s); try done; by eapply dirs_view|].
  intros q ->. specialize (Hq q (eq_sym Hr)). destruct Hv as [_ Hv]. rewrite <- Hv in Hq. cbn in Hq. by apply fmap_is_Some in Hq.
Qed.

Context (Hhook : forall p comp s, try_pid_dir p comp s = s) (Hix : ok_index ok = true).

Let no_memory : Z -> option (list Z) := fun _ => None.

#[export] Instance vfs_fs_ok : FsOk vfs_fs (fun path => blen path < 256) boot_inv.
Proof.
  assert (Hsh : forall s path, blen path < 256 -> short try_pid_dir c s path) by (intros s path Hl; unfold short; pose proof (leaf_le s path); lia).
  split; cbn [vfs_fs fs_mkdir_p fs_create_file fs_create_symlink]; [| | |by apply owner_run].
  - intros path mode s (p & -> & _) _ B. unfold vfs_mkdir_p. rewrite Z.eqb_refl. eapply runs_bind, runs_val; [done|]. apply mkdir_p_run; [done|lia|done|apply B].
  - intros path mode data s _ Hl B. pose proof B as (I & Hc & _). eapply ptr_made; [done|apply (create_refines R try_pid_dir Hhook no_memory c ok Hix s I Hc path mode data); by apply Hsh|].
    cbn [spec_op]. unfold spec_create, with_node, err. verdict_cases; try (by apply making_keep); [by apply making_set|by apply making_set; intros; congruence|by apply making_add].
  - intros path target s _ Hl _ B. pose proof B as (I & Hc & _). eapply ptr_made; [done|apply (symlink_refines R try_pid_dir Hhook no_memory c ok Hix s I Hc path target); by apply Hsh|].
    cbn [spec_op]. unfold spec_symlink, spec_new, with_node, err. verdict_cases; try (by apply making_keep). by apply making_add.
Qed.
End boot.

(** ** What the loader guarantees *)

Definition archive_paths (data : list Z) : list (list Z) := match archive_entries data with Some (l, _) => l.*1 | None => [] end.

(** C20: loading an archive is safe whatever is in it.  For every archive, also one
    that was made to do harm, [cpio_load] returns 0 or -1: it never reads
    outside of the archive, it comes to an end, and the paths that it gives to
    the file system are absolute, shorter than 512 bytes and without [..], so
    that a file system that keeps its invariant on such paths keeps it. *)
Theorem cpio_load_safe fs okp Inv data s (OK : FsOk fs okp Inv) (Hd : blen data < 2 ^ 64) (Hl : Forall okp (archive_paths data)) (Hi : Inv s) :
  exists rc s', cpio_load fs data s = Some (rc, s') /\ (rc = 0 \/ rc = -1) /\ Inv s'.
Proof.
  destruct (archive_entries_total data Hd) as (l & rc & E & Hrc & Hp). unfold archive_paths in Hl. rewrite E in Hl. rewrite Forall_map in Hl. rewrite cpio_load_entries, E. cbn [mbind option_bind].
  assert (H : runs (load_all fs l) s (fun _ => Inv)) by (apply (load_all_safe fs okp Inv); [|done]; apply Forall_and; split; [exact Hp|exact Hl]). apply runs_eq in H as ([] & s' & Es & Hs'). exists rc, s'. split; [|done]. unfold mbind, M_bind. by rewrite Es.
Qed.


(** [/usr/bin], [/usr/bin/sh] and a link [/sh] to it. *)
Definition demo_es : list arc_entry :=
  [mkEntry 0x41ed 0 0 (n_usr ++ [ch_slash] ++ n_bin) []; mkEntry 0x81ed 7 8 (n_usr ++ [ch_slash] ++ n_bin ++ [ch_slash] ++ n_sh) [1; 2; 3]; mkEntry 0xa1ff 0 0 n_sh (demo_p [n_usr; n_bin; n_sh])].

Definition demo_fs : cpio_fs := vfs_fs no_hook demo_caller demo_allocs.

Lemma demo_es_ok : Forall (fun e => fits e /\ name_ok (e_name e)) demo_es.
Proof. repeat constructor; try (vm_compute; congruence); by apply (bool_decide_unpack _); vm_compute. Qed.

Lemma demo_boot : boot_inv demo_R demo_caller demo_vfs.
Proof.
  split; [exact demo_inv|]. split; [apply (caller_inb_ok [0%nat]); vm_compute; reflexivity|]. eexists. split; [vm_compute; reflexivity|]. done.
Qed.

Lemma cpio_load_safe_witness : exists rc s', cpio_load demo_fs (encode demo_es) demo_vfs = Some (rc, s') /\ boot_inv demo_R demo_caller s'.
Proof.
  destruct (cpio_load_safe demo_fs (fun path => blen path < 256) (boot_inv demo_R demo_caller) (encode demo_es) demo_vfs (vfs_fs_ok demo_R no_hook demo_caller demo_allocs (fun _ _ _ => eq_refl) eq_refl)) as (rc & s' & E & _ & I).
  - vm_compute. reflexivity.
  - refine (bool_decide_unpack _ _). vm_compute. exact I.
  - exact demo_boot.
  - exists rc, s'. split; [exact E|exact I].
Defined.

