(* ===== verification/Fd.v ===== *)
(** * File descriptors.

    The descriptor tables of the processes ([vfs.c], [fdctl.c], [fdpipe.c] and
    the constructors of [eventfd.c] and [signalfd.c]).  A slot of a table points to a file
    ([vfs_file_t]); files that came from one [open] by [dup] and [fork] share an
    open file description, and every file holds references to what it stands
    for: a node, ends of pipes, an event counter and so on.  A file is counted
    by the slots that point to it and by the system calls that use it.

    A pointer is a key of a map; [file_valid] holds for a slot that is [Used], the
    reserved slot being [VFS_FD_RESERVED].  There is a current process.  The path
    and the peer of a file, what closing tells a device, a socket or a watcher,
    and the contents of objects are left out. *)

From S2P Require Import Prelude Bits.

(** ** Data *)

Definition VFS_FD_MAX : nat := 1024.

Record fdesc := mkDesc { d_pos : Z; d_flags : Z; d_refs : Z }.

Record file := mkFile {
  f_node : option nat; f_desc : option nat; f_pipe : option nat; f_read_end : bool; f_wpipe : option nat; f_cloexec : bool;
  f_efd : option nat; f_tfd : option nat; f_sfd : option nat; f_ifd : option nat; f_inet : option nat; f_refs : Z;
}.

Inductive slot := Free | Reserved | Used (p : nat).

(** What a file holds a reference to. *)
Inductive obj := ONode (n : nat) | OReader (p : nat) | OWriter (p : nat) | OEvent (e : nat) | OTimer (t : nat) | OSignal (s : nat) | ONotify (i : nat) | OInet (c : nat).

#[export] Instance slot_eq : EqDecision slot.
Proof. solve_decision. Defined.
#[export] Instance obj_eq : EqDecision obj.
Proof. solve_decision. Defined.

Record table := mkTable { t_slots : list slot; t_refs : Z }.
Record fproc := mkProc { p_table : option nat; p_borrows : list nat; p_active : bool }.

(** [counts] are the reference counts of the objects; [fresh] counts the
    allocations. *)
Record fdst := mkFd { files : gmap nat file; descs : gmap nat fdesc; counts : obj -> Z; tables : gmap nat table; procs : gmap nat fproc; fresh : nat }.

(** Errors of C type [int] are values; [None] is an access to a freed object. *)
Definition F (X : Type) : Type := fdst -> option (X * fdst).
#[export] Instance F_ret : MRet F := fun X x s => Some (x, s).
#[export] Instance F_bind : MBind F := fun X Y k m s => match m s with Some (x, s') => k x s' | None => None end.

Definition set_files x s := mkFd x (descs s) (counts s) (tables s) (procs s) (fresh s).
Definition set_descs x s := mkFd (files s) x (counts s) (tables s) (procs s) (fresh s).
Definition set_counts x s := mkFd (files s) (descs s) x (tables s) (procs s) (fresh s).
Definition set_tables x s := mkFd (files s) (descs s) (counts s) x (procs s) (fresh s).
Definition set_procs x s := mkFd (files s) (descs s) (counts s) (tables s) x (fresh s).

Definition with_refs (r : Z) (f : file) := mkFile (f_node f) (f_desc f) (f_pipe f) (f_read_end f) (f_wpipe f) (f_cloexec f) (f_efd f) (f_tfd f) (f_sfd f) (f_ifd f) (f_inet f) r.
Definition with_cloexec (c : bool) (f : file) := mkFile (f_node f) (f_desc f) (f_pipe f) (f_read_end f) (f_wpipe f) c (f_efd f) (f_tfd f) (f_sfd f) (f_ifd f) (f_inet f) (f_refs f).
Definition with_node (n : option nat) (f : file) := mkFile n (f_desc f) (f_pipe f) (f_read_end f) (f_wpipe f) (f_cloexec f) (f_efd f) (f_tfd f) (f_sfd f) (f_ifd f) (f_inet f) (f_refs f).

Definition get_file (p : nat) : F file := fun s => f ← files s !! p; Some (f, s).
Definition put_file (p : nat) (f : file) : F unit := fun s => Some (tt, set_files (<[p := f]> (files s)) s).
Definition kfree_file (p : nat) : F unit := fun s => Some (tt, set_files (delete p (files s)) s).
Definition get_desc (d : nat) : F fdesc := fun s => x ← descs s !! d; Some (x, s).
Definition put_desc (d : nat) (x : fdesc) : F unit := fun s => Some (tt, set_descs (<[d := x]> (descs s)) s).
Definition kfree_desc (d : nat) : F unit := fun s => Some (tt, set_descs (delete d (descs s)) s).
Definition get_table (t : nat) : F table := fun s => x ← tables s !! t; Some (x, s).
Definition put_table (t : nat) (x : table) : F unit := fun s => Some (tt, set_tables (<[t := x]> (tables s)) s).
Definition get_proc (pr : nat) : F fproc := fun s => x ← procs s !! pr; Some (x, s).
Definition put_proc (pr : nat) (x : fproc) : F unit := fun s => Some (tt, set_procs (<[pr := x]> (procs s)) s).

(** References to an object; the last one gone, it is freed. *)
Definition put_count (o : obj) (z : Z) : F unit := fun s => Some (tt, set_counts (fun o' => if decide (o' = o) then z else counts s o') s).
Definition obj_ref (o : obj) : F unit := fun s => put_count o (counts s o + 1) s.
Definition obj_unref (o : obj) : F unit := fun s => if 0 <? counts s o then put_count o (counts s o - 1) s else None.

Fixpoint each {A} (f : A -> F unit) (l : list A) : F unit := match l with [] => mret tt | x :: l => f x;; each f l end.

Definition opt (o : option nat) (c : nat -> obj) : list obj := match o with Some n => [c n] | None => [] end.

(** ** Files *)

Section ops.
(** Whether the n-th allocation finds memory, which nodes are sockets, and the
    answer of a memory file to a request about its seals. *)
Context (room : nat -> bool) (is_sock : nat -> bool) (seal_call : nat -> Z -> Z -> option Z).

Definition kalloc : F (option nat) :=
  fun s => Some (if room (fresh s) then Some (fresh s) else None, mkFd (files s) (descs s) (counts s) (tables s) (procs s) (S (fresh s))).

Definition blank (d : nat) : file := mkFile None (Some d) None false None false None None None None None 1.

Definition file_alloc : F (option nat) :=
  f ← kalloc;
  match f with
  | None => mret None
  | Some f =>
      d ← kalloc;
      match d with
      | None => mret None
      | Some d => put_desc d (mkDesc 0 0 1);; put_file f (blank d);; mret (Some f)
      end
  end.

Definition pipe_end (f : file) (p : nat) : obj := if f_read_end f then OReader p else OWriter p.

(** What [file_destroy] gives back, in its order and with its early returns. *)
Definition destroy_list (f : file) : list obj :=
  match f_efd f, f_tfd f, f_sfd f, f_ifd f, f_inet f with
  | Some e, _, _, _, _ => [OEvent e]
  | _, Some t, _, _, _ => [OTimer t]
  | _, _, Some s, _, _ => [OSignal s]
  | _, _, _, Some i, _ => [ONotify i]
  | _, _, _, _, Some c => [OInet c]
  | None, None, None, None, None =>
      match f_wpipe f with
      | Some w => opt (f_pipe f) OReader ++ [OWriter w]
      | None => opt (f_pipe f) (pipe_end f)
      end ++ opt (f_node f) ONode
  end.

Definition file_destroy (p : nat) : F unit :=
  f ← get_file p;
  match f_desc f with
  | Some d => x ← get_desc d; if d_refs x - 1 =? 0 then kfree_desc d else put_desc d (mkDesc (d_pos x) (d_flags x) (d_refs x - 1))
  | None => mret tt
  end;;
  each obj_unref (destroy_list f);;
  kfree_file p.

Definition file_close (p : nat) : F unit :=
  f ← get_file p;
  if f_refs f =? 0 then mret tt else
  put_file p (with_refs (f_refs f - 1) f);;
  if f_refs f =? 1 then file_destroy p else mret tt.

(** What [file_addref] takes. *)
Definition addref_list (f : file) : list obj :=
  opt (f_efd f) OEvent ++ opt (f_tfd f) OTimer ++ opt (f_sfd f) OSignal ++ opt (f_ifd f) ONotify ++ opt (f_inet f) OInet ++ opt (f_node f) ONode ++
  match f_pipe f with
  | None => []
  | Some p => match f_wpipe f with Some w => [OReader p; OWriter w] | None => [pipe_end f p] end
  end.

Definition file_addref (p : nat) : F unit :=
  f ← get_file p;
  match f_desc f with
  | Some d => x ← get_desc d; put_desc d (mkDesc (d_pos x) (d_flags x) (d_refs x + 1))
  | None => mret tt
  end;;
  each obj_ref (addref_list f).

Definition vfs_file_clone (p : nat) : F (option nat) :=
  f ← get_file p;
  q ← kalloc;
  match q with
  | None => mret None
  | Some q => put_file q (with_cloexec false (with_refs 1 f));; file_addref q;; mret (Some q)
  end.

(** ** Slots *)

(** The first free slot from [start] on. *)
Definition is_free (x : slot) : bool := match x with Free => true | _ => false end.
Definition fd_alloc_from (t : nat) (start : nat) : F (option nat) :=
  x ← get_table t;
  match find_index is_free (drop start (t_slots x)) with
  | Some i => put_table t (mkTable (<[(start + i)%nat := Reserved]> (t_slots x)) (t_refs x));; mret (Some (start + i)%nat)
  | None => mret None
  end.

Definition in_range (fd : Z) : bool := (0 <=? fd) && (fd <? Z.of_nat VFS_FD_MAX).

Definition set_slot (t : nat) (fd : nat) (v : slot) : F unit := x ← get_table t; put_table t (mkTable (<[fd := v]> (t_slots x)) (t_refs x)).
Definition vfs_fd_install (t fd p : nat) : F unit := set_slot t fd (Used p).
Definition vfs_fd_clear (t fd : nat) : F unit := set_slot t fd Free.
Definition slot_of (t : nat) (fd : Z) : F slot := x ← get_table t; mret (aget Free (t_slots x) (Z.to_nat fd)).

(** The table of a process. *)
Definition no_table : F nat := fun _ => None.
Definition cur_fds (pr : nat) : F nat := x ← get_proc pr; match p_table x with Some t => mret t | None => no_table end.

(** ** Borrowed files *)

Definition borrow_register (pr p : nat) : F bool :=
  x ← get_proc pr;
  if negb (p_active x) then mret true else
  if bool_decide (p ∈ p_borrows x) then file_close p;; mret true else
  if (VFS_FD_MAX <=? length (p_borrows x))%nat then file_close p;; mret false else
  put_proc pr (mkProc (p_table x) (p_borrows x ++ [p]) true);; mret true.

Definition vfs_syscall_borrow_begin (pr : nat) : F unit := x ← get_proc pr; put_proc pr (mkProc (p_table x) [] true).

Definition vfs_syscall_borrow_end (pr : nat) : F unit :=
  x ← get_proc pr;
  if negb (p_active x) then mret tt else
  put_proc pr (mkProc (p_table x) [] false);;
  each file_close (p_borrows x).

Definition fd_get (pr : nat) (fd : Z) : F (option nat) :=
  if negb (in_range fd) then mret None else
  t ← cur_fds pr;
  v ← slot_of t fd;
  match v with
  | Used p =>
      f ← get_file p;
      x ← get_proc pr;
      if p_active x then
        put_file p (with_refs (f_refs f + 1) f);;
        b ← borrow_register pr p;
        mret (if (b : bool) then Some p else None)
      else mret (Some p)
  | _ => mret None
  end.

(** ** System calls *)

Definition EBADF : Z := 9.
Definition ENOMEM : Z := 12.
Definition EBUSY : Z := 16.
Definition EINVAL : Z := 22.
Definition EMFILE : Z := 24.
Definition O_RDONLY : Z := 0.
Definition O_WRONLY : Z := 1.
Definition O_RDWR : Z := 2.
Definition O_ACCMODE : Z := 3.
Definition O_APPEND : Z := 0x400.
Definition O_NONBLOCK : Z := 0x800.
Definition O_CLOEXEC : Z := 0x80000.

Definition fd_close (pr : nat) (fd : Z) : F Z :=
  if negb (in_range fd) then mret (- EBADF) else
  t ← cur_fds pr;
  v ← slot_of t fd;
  match v with
  | Used p => vfs_fd_clear t (Z.to_nat fd);; file_close p;; mret 0
  | _ => mret (- EBADF)
  end.

(** A new file in the slot [fd] that [make] fills in; [undo] if there is no
    memory. *)
Definition install_new (t fd : nat) (flags : Z) (make : file -> file) (undo : F unit) : F Z :=
  f ← file_alloc;
  match f with
  | None => vfs_fd_clear t fd;; undo;; mret (- ENOMEM)
  | Some p =>
      f ← get_file p;
      put_file p (make f);;
      match f_desc f with Some d => x ← get_desc d; put_desc d (mkDesc (d_pos x) flags (d_refs x)) | None => mret tt end;;
      vfs_fd_install t fd p;;
      mret (Z.of_nat fd)
  end.

(** [n] is not null. *)
Definition fd_open_node (pr n : nat) (flags : Z) : F Z :=
  t ← cur_fds pr;
  fd ← fd_alloc_from t 0;
  match fd with
  | None => mret (- EMFILE)
  | Some fd =>
      f ← file_alloc;
      match f with
      | None => vfs_fd_clear t fd;; mret (- ENOMEM)
      | Some p =>
          f ← get_file p;
          put_file p (with_node (Some n) f);;
          match f_desc f with Some d => x ← get_desc d; put_desc d (mkDesc (d_pos x) flags (d_refs x)) | None => mret tt end;;
          obj_ref (ONode n);;
          vfs_fd_install t fd p;;
          mret (Z.of_nat fd)
      end
  end.

Definition has (flags bit : Z) : bool := ztrue (Z.land flags bit).
Definition nonblock (flags : Z) : Z := if has flags O_NONBLOCK then O_NONBLOCK else 0.

(** A descriptor for a new object: [eventfd], [timerfd_create], [signalfd].  Here
    the object is its reference count; the counter, the timer and the mask it
    starts with are in [Eventfd.v]. *)
Definition fd_new (pr : nat) (c : nat -> obj) (flags : Z) (make : nat -> file -> file) : F Z :=
  e ← kalloc;
  match e with
  | None => mret (- ENOMEM)
  | Some e =>
      put_count (c e) 1;;
      t ← cur_fds pr;
      fd ← fd_alloc_from t 0;
      match fd with
      | None => put_count (c e) 0;; mret (- EMFILE)
      | Some fd => install_new t fd flags (make e) (put_count (c e) 0)
      end
  end.

Definition fd_eventfd (pr : nat) (eflags : Z) : F Z :=
  fd_new pr OEvent (Z.lor O_RDWR (nonblock eflags)) (fun e f => mkFile (f_node f) (f_desc f) (f_pipe f) (f_read_end f) (f_wpipe f) (has eflags O_CLOEXEC) (Some e) (f_tfd f) (f_sfd f) (f_ifd f) (f_inet f) (f_refs f)).

Definition fd_timerfd_create (pr : nat) (tflags : Z) : F Z :=
  fd_new pr OTimer (Z.lor O_RDWR (nonblock tflags)) (fun e f => mkFile (f_node f) (f_desc f) (f_pipe f) (f_read_end f) (f_wpipe f) (has tflags O_CLOEXEC) (f_efd f) (Some e) (f_sfd f) (f_ifd f) (f_inet f) (f_refs f)).

Definition fd_signalfd (pr : nat) (fd : Z) (flags : Z) : F Z :=
  if ztrue (Z.land flags (Z.lnot (Z.lor O_NONBLOCK O_CLOEXEC))) then mret (- EINVAL) else
  if 0 <=? fd then
    f ← fd_get pr fd;
    match f with
    | None => mret (- EINVAL)
    | Some p => f ← get_file p; mret (if bool_decide (f_sfd f = None) then - EINVAL else fd)
    end
  else
    fd_new pr OSignal (Z.lor O_RDONLY (nonblock flags)) (fun e f => mkFile (f_node f) (f_desc f) (f_pipe f) (f_read_end f) (f_wpipe f) (has flags O_CLOEXEC) (f_efd f) (f_tfd f) (Some e) (f_ifd f) (f_inet f) (f_refs f)).

Definition F_DUPFD : Z := 0.
Definition F_GETFD : Z := 1.
Definition F_SETFD : Z := 2.
Definition F_GETFL : Z := 3.
Definition F_SETFL : Z := 4.
Definition F_GETLK : Z := 5.
Definition F_SETLK : Z := 6.
Definition F_SETLKW : Z := 7.
Definition F_DUPFD_CLOEXEC : Z := 1030.
Definition F_ADD_SEALS : Z := 1033.
Definition F_GET_SEALS : Z := 1034.
Definition FD_CLOEXEC : Z := 1.

Definition dup_from (pr p start : nat) (cloexec : bool) : F Z :=
  t ← cur_fds pr;
  newfd ← fd_alloc_from t start;
  match newfd with
  | None => mret (- EMFILE)
  | Some newfd =>
      nf ← vfs_file_clone p;
      match nf with
      | None => vfs_fd_clear t newfd;; mret (- ENOMEM)
      | Some q => f ← get_file q; put_file q (with_cloexec cloexec f);; vfs_fd_install t newfd q;; mret (Z.of_nat newfd)
      end
  end.

Definition the_desc (f : file) : F (nat * fdesc) := match f_desc f with Some d => x ← get_desc d; mret (d, x) | None => fun _ => None end.

Definition fd_fcntl (pr : nat) (fd cmd arg : Z) : F Z :=
  f ← fd_get pr fd;
  match f with
  | None => mret (- EBADF)
  | Some p =>
      f ← get_file p;
      if cmd =? F_GETFD then mret (if f_cloexec f then FD_CLOEXEC else 0) else
      if cmd =? F_SETFD then put_file p (with_cloexec (has arg FD_CLOEXEC) f);; mret 0 else
      if cmd =? F_GETFL then '(_, x) ← the_desc f; mret (d_flags x) else
      if cmd =? F_SETFL then
        let changeable := Z.lor O_APPEND O_NONBLOCK in
        '(d, x) ← the_desc f;
        put_desc d (mkDesc (d_pos x) (Z.lor (Z.land (d_flags x) (Z.lnot changeable)) (Z.land arg changeable)) (d_refs x));; mret 0 else
      if (cmd =? F_DUPFD) || (cmd =? F_DUPFD_CLOEXEC) then
        if Z.of_nat VFS_FD_MAX <=? arg then mret (- EINVAL) else dup_from pr p (Z.to_nat arg) (cmd =? F_DUPFD_CLOEXEC) else
      if (cmd =? F_GETLK) || (cmd =? F_SETLK) || (cmd =? F_SETLKW) then mret 0 else
      if (cmd =? F_ADD_SEALS) || (cmd =? F_GET_SEALS) then mret (match n ← f_node f; seal_call n cmd arg with Some r => r | None => - EINVAL end) else
      mret (- EINVAL)
  end.

Definition fd_dup (pr : nat) (oldfd : Z) : F Z := fd_fcntl pr oldfd F_DUPFD 0.

(** Puts a file into a slot that is not reserved; gives the file that was
    there. *)
Definition vfs_fd_replace (t fd p : nat) : F (option (option nat)) :=
  old ← slot_of t (Z.of_nat fd);
  match old with
  | Reserved => mret None
  | Free => set_slot t fd (Used p);; mret (Some None)
  | Used o => set_slot t fd (Used p);; mret (Some (Some o))
  end.

Definition fd_dup2 (pr : nat) (oldfd newfd : Z) : F Z :=
  if oldfd =? newfd then f ← fd_get pr oldfd; mret (match f with Some _ => oldfd | None => - EBADF end) else
  f ← fd_get pr oldfd;
  match f with
  | None => mret (- EBADF)
  | Some p =>
      if negb (in_range newfd) then mret (- EBADF) else
      nf ← vfs_file_clone p;
      match nf with
      | None => mret (- ENOMEM)
      | Some q =>
          t ← cur_fds pr;
          r ← vfs_fd_replace t (Z.to_nat newfd) q;
          match r with
          | None => file_close q;; mret (- EBUSY)
          | Some old => match old with Some o => file_close o | None => mret tt end;; mret newfd
          end
      end
  end.

Definition fd_dup3 (pr : nat) (oldfd newfd flags : Z) : F Z :=
  if oldfd =? newfd then mret (- EINVAL) else
  if ztrue (Z.land flags (Z.lnot O_CLOEXEC)) then mret (- EINVAL) else
  r ← fd_dup2 pr oldfd newfd;
  if 0 <=? r then
    f ← fd_get pr r;
    match f with Some p => f ← get_file p; put_file p (with_cloexec (has flags O_CLOEXEC) f) | None => mret tt end;; mret r
  else mret r.

(** ** Pipes *)

Definition pipe_free (p : nat) : F unit := put_count (OReader p) 0;; put_count (OWriter p) 0.

Definition set_flags (p : nat) (flags : Z) : F unit := f ← get_file p; '(d, x) ← the_desc f; put_desc d (mkDesc (d_pos x) flags (d_refs x)).
Definition set_pipes (p : nat) (rd : option nat) (read_end : bool) (wr : option nat) : F unit :=
  f ← get_file p; put_file p (mkFile (f_node f) (f_desc f) rd read_end wr (f_cloexec f) (f_efd f) (f_tfd f) (f_sfd f) (f_ifd f) (f_inet f) (f_refs f)).

Definition fd_pipe (pr : nat) : F (Z + nat * nat) :=
  p ← kalloc;
  match p with
  | None => mret (inl (- ENOMEM))
  | Some p =>
      obj_ref (OReader p);; obj_ref (OWriter p);;
      t ← cur_fds pr;
      rfd ← fd_alloc_from t 0;
      match rfd with
      | None => pipe_free p;; mret (inl (- EMFILE))
      | Some rfd =>
          rf ← file_alloc;
          match rf with
          | None => vfs_fd_clear t rfd;; pipe_free p;; mret (inl (- ENOMEM))
          | Some rf =>
              set_pipes rf (Some p) true None;; set_flags rf O_RDONLY;; vfs_fd_install t rfd rf;;
              wfd ← fd_alloc_from t 0;
              match wfd with
              | None => vfs_fd_clear t rfd;; file_close rf;; pipe_free p;; mret (inl (- EMFILE))
              | Some wfd =>
                  wf ← file_alloc;
                  match wf with
                  | None => vfs_fd_clear t rfd;; vfs_fd_clear t wfd;; file_close rf;; pipe_free p;; mret (inl (- ENOMEM))
                  | Some wf => set_pipes wf (Some p) false None;; set_flags wf O_WRONLY;; vfs_fd_install t wfd wf;; mret (inr (rfd, wfd))
                  end
              end
          end
      end
  end.

Definition free_pipe (p : option nat) : F unit := match p with Some p => pipe_free p | None => mret tt end.
Definition close_file (f : option nat) : F unit := match f with Some f => file_close f | None => mret tt end.

Definition fd_socketpair (pr : nat) : F (Z + nat * nat) :=
  pa ← kalloc;
  pb ← kalloc;
  match pa, pb with
  | Some a, Some b =>
      obj_ref (OReader a);; obj_ref (OWriter a);; obj_ref (OReader b);; obj_ref (OWriter b);;
      t ← cur_fds pr;
      fd0 ← fd_alloc_from t 0;
      match fd0 with
      | None => pipe_free a;; pipe_free b;; mret (inl (- EMFILE))
      | Some fd0 =>
          f0 ← file_alloc;
          f1 ← file_alloc;
          match f0, f1 with
          | Some x, Some y =>
              set_pipes x (Some a) true (Some b);; set_flags x O_RDWR;;
              set_pipes y (Some b) true (Some a);; set_flags y O_RDWR;;
              vfs_fd_install t fd0 x;;
              fd1 ← fd_alloc_from t 0;
              match fd1 with
              | None => vfs_fd_clear t fd0;; file_close x;; file_close y;; mret (inl (- EMFILE))
              | Some fd1 => vfs_fd_install t fd1 y;; mret (inr (fd0, fd1))
              end
          | _, _ => vfs_fd_clear t fd0;; close_file f0;; close_file f1;; pipe_free a;; pipe_free b;; mret (inl (- ENOMEM))
          end
      end
  | _, _ => free_pipe pa;; free_pipe pb;; mret (inl (- ENOMEM))
  end.

(** ** Tables *)

(** [execve] closes the descriptors marked for it. *)
Fixpoint flush_loop (pr : nat) (fd : Z) (n : nat) : F unit :=
  match n with
  | O => mret tt
  | S n =>
      t ← cur_fds pr;
      v ← slot_of t fd;
      match v with
      | Used p => f ← get_file p; if f_cloexec f then fd_close pr fd;; mret tt else mret tt
      | _ => mret tt
      end;;
      flush_loop pr (fd + 1) n
  end.
Definition vfs_cloexec_flush (pr : nat) : F unit := flush_loop pr 0 VFS_FD_MAX.

(** A slot of the table of a child. *)
Definition copy_slot (v : slot) : F slot :=
  match v with
  | Used p =>
      f ← get_file p;
      put_file p (with_refs (f_refs f + 1) f);;
      q ← kalloc;
      match q with
      | Some q =>
          f ← get_file p;
          let sock := match f_node f with Some n => is_sock n | None => false end in
          put_file q (with_refs 1 (if sock then with_node None f else f));;
          file_addref q;;
          file_close p;; mret (Used q)
      | None => file_close p;; mret Free
      end
  | _ => mret Free
  end.

Fixpoint copy_loop (dst src : nat) (fd : nat) (n : nat) : F unit :=
  match n with
  | O => mret tt
  | S n => v ← slot_of src (Z.of_nat fd); v ← copy_slot v; set_slot dst fd v;; copy_loop dst src (S fd) n
  end.
Definition vfs_copy_fdtable (dst src : nat) : F unit := copy_loop dst src 0 VFS_FD_MAX.

Fixpoint free_loop (t : nat) (fd : nat) (n : nat) : F unit :=
  match n with
  | O => mret tt
  | S n =>
      v ← slot_of t (Z.of_nat fd);
      match v with Free => mret tt | Reserved => set_slot t fd Free | Used p => file_close p;; set_slot t fd Free end;;
      free_loop t (S fd) n
  end.
Definition kfree_table (t : nat) : F unit := fun s => Some (tt, set_tables (delete t (tables s)) s).
Definition vfs_free_fdtable (t : nat) : F unit := free_loop t 0 VFS_FD_MAX;; kfree_table t.

Definition proc_release_fdtable (pr : nat) : F unit :=
  x ← get_proc pr;
  match p_table x with
  | None => mret tt
  | Some t =>
      y ← get_table t;
      put_table t (mkTable (t_slots y) (t_refs y - 1));;
      (if t_refs y =? 1 then vfs_free_fdtable t else mret tt);;
      x ← get_proc pr;
      put_proc pr (mkProc None (p_borrows x) (p_active x))
  end.

(** A process [child] with a copy of the table of [pr], or with the table
    itself; [proc_alloc] has allocated an empty one. *)
Definition fork_fds (pr child : nat) : F bool :=
  t ← kalloc;
  match t with
  | None => mret false
  | Some t =>
      put_table t (mkTable (replicate VFS_FD_MAX Free) 1);;
      put_proc child (mkProc (Some t) [] false);;
      src ← cur_fds pr;
      vfs_copy_fdtable t src;; mret true
  end.

Definition clone_files (pr child : nat) : F bool :=
  t ← kalloc;
  match t with
  | None => mret false
  | Some _ =>
      src ← cur_fds pr;
      y ← get_table src;
      put_proc child (mkProc (Some src) [] false);;
      put_table src (mkTable (t_slots y) (t_refs y + 1));; mret true
  end.

Definition exit_fds (pr : nat) : F unit := vfs_syscall_borrow_end pr;; proc_release_fdtable pr.
End ops.

(** ** Seeking *)

Section seek.
(** Which nodes are character devices of size 0, and the size of a node. *)
Context (no_seek : nat -> bool) (size_of : nat -> Z).

Definition ESPIPE : Z := 29.
Definition SEEK_SET : Z := 0.
Definition SEEK_CUR : Z := 1.
Definition SEEK_END : Z := 2.

(** [f->node] is followed without a test. *)
Definition the_node (f : file) : F nat := fun s => n ← f_node f; Some (n, s).

Definition fd_lseek (pr : nat) (fd off whence : Z) : F Z :=
  f ← fd_get pr fd;
  match f with
  | None => mret (- EBADF)
  | Some p =>
      f ← get_file p;
      if bool_decide (f_pipe f <> None) || bool_decide (f_ifd f <> None) then mret (- ESPIPE) else
      n ← the_node f;
      if no_seek n then mret (- EINVAL) else
      '(d, x) ← the_desc f;
      match (if whence =? SEEK_SET then Some off else if whence =? SEEK_CUR then Some (s64 (s64 (d_pos x) + off)) else if whence =? SEEK_END then Some (s64 (s64 (size_of n) + off)) else None) with
      | None => mret (- EINVAL)
      | Some new_pos => if new_pos <? 0 then mret (- EINVAL) else put_desc d (mkDesc new_pos (d_flags x) (d_refs x));; mret new_pos
      end
  end.
End seek.
