(* ===== verification/FdInv.v ===== *)
(** * The reference counts of descriptors are exact.

    [fdinv] is the invariant of the descriptor tables: a file is counted by the
    slots that point to it and the system calls that use it, a description by
    its files, and an object by the files that stand for it. *)

From S2P Require Import Prelude Bits Fd.

(** ** Sums over maps *)

Definition msum {A} (g : A -> Z) (m : gmap nat A) : Z := map_fold (fun _ x acc => g x + acc) 0 m.

Section msum.
Context {A : Type} (g : A -> Z).
Implicit Types m : gmap nat A.

Lemma msum_new m i x : m !! i = None -> msum g (<[i := x]> m) = g x + msum g m.
Proof. intros H. unfold msum. rewrite map_fold_insert_L; [done| |done]. intros. lia. Qed.

Lemma msum_delete m i x : m !! i = Some x -> msum g (delete i m) = msum g m - g x.
Proof. intros H. rewrite <- (insert_delete_id m i x H) at 2. rewrite msum_new by apply lookup_delete_eq. lia. Qed.

Lemma msum_update m i x y : m !! i = Some x -> msum g (<[i := y]> m) = msum g m + g y - g x.
Proof. intros H. rewrite <- insert_delete_eq, msum_new by apply lookup_delete_eq. rewrite (msum_delete m i x H). lia. Qed.

Lemma msum_nonneg m : (forall x, 0 <= g x) -> 0 <= msum g m.
Proof. intros Hg. induction m as [|i x m Hi IH] using map_ind; [done|]. rewrite msum_new by done. specialize (Hg x). lia. Qed.

Lemma msum_le m i x : (forall x, 0 <= g x) -> m !! i = Some x -> g x <= msum g m.
Proof. intros Hg H. rewrite <- (insert_delete_id m i x H), msum_new by apply lookup_delete_eq. pose proof (msum_nonneg (delete i m) Hg). lia. Qed.

Lemma msum_pos m : (forall x, 0 <= g x) -> 0 < msum g m -> exists i x, m !! i = Some x /\ 0 < g x.
Proof.
  intros Hg. induction m as [|i x m Hi IH] using map_ind; [done|]. rewrite msum_new by done. intros H. destruct (decide (0 < g x)) as [Hx|Hx]; [exists i, x; by rewrite lookup_insert_eq|].
  destruct IH as (j & y & Hj & Hy); [lia|]. exists j, y. split; [|done]. rewrite lookup_insert_ne; [done|congruence].
Qed.

Lemma msum_bound m b : (forall i x, m !! i = Some x -> g x <= b) -> msum g m <= b * Z.of_nat (size m).
Proof.
  induction m as [|i x m Hi IH] using map_ind; [rewrite map_size_empty; change (msum g ∅) with 0; lia|]. intros H. rewrite msum_new, map_size_insert_None by done. assert (g x <= b) by (apply (H i); apply lookup_insert_eq).
  assert (msum g m <= b * Z.of_nat (size m)) by (apply IH; intros j y Hj; apply (H j); rewrite lookup_insert_ne; [done|congruence]). lia.
Qed.
End msum.

(** ** Counting in lists *)

Section tally.
Context {A : Type} `{EqDecision A}.

Fixpoint tally (x : A) (l : list A) : Z := match l with [] => 0 | y :: l => (if decide (x = y) then 1 else 0) + tally x l end.

Lemma tally_nonneg x l : 0 <= tally x l.
Proof. induction l as [|y l IH]; cbn; [lia|]. case_decide; lia. Qed.
Lemma tally_app x l k : tally x (l ++ k) = tally x l + tally x k.
Proof. induction l as [|y l IH]; cbn; [done|]. rewrite IH. lia. Qed.
Lemma tally_in x l : 0 < tally x l <-> x ∈ l.
Proof.
  induction l as [|y l IH]; cbn; [split; [lia|by intros ?%not_elem_of_nil]|]. rewrite elem_of_cons, <- IH. pose proof (tally_nonneg x l). case_decide; [split; [by left|lia]|]. split; [right; lia|intros [?|?]; [done|lia]].
Qed.
Lemma tally_insert x l i y z : l !! i = Some y -> tally x (<[i := z]> l) = tally x l + (if decide (x = z) then 1 else 0) - (if decide (x = y) then 1 else 0).
Proof. revert i. induction l as [|w l IH]; intros [|i] H; [done|done|injection H as ->; cbn; lia|]. change (<[S i:=z]> (w :: l)) with (w :: <[i:=z]> l). cbn [tally]. rewrite (IH i H). lia. Qed.
Lemma tally_le x l : tally x l <= Z.of_nat (length l).
Proof. induction l as [|y l IH]; cbn [tally length]; [lia|]. case_decide; lia. Qed.
Lemma tally_perm x l k : l ≡ₚ k -> tally x l = tally x k.
Proof. induction 1; cbn; lia. Qed.
End tally.

(** ** Running calls *)

Definition fruns {X} (m : F X) (s : fdst) (Q : X -> fdst -> Prop) : Prop := match m s with Some (x, s') => Q x s' | None => False end.

Lemma f_ret {X} (x : X) s (Q : X -> fdst -> Prop) : Q x s -> fruns (mret x) s Q.
Proof. done. Qed.
Lemma f_bind {X Y} (m : F X) (k : X -> F Y) s Q : fruns m s (fun x s' => fruns (k x) s' Q) -> fruns (x ← m; k x) s Q.
Proof. unfold fruns, mbind, F_bind. by destruct (m s) as [[x s']|]. Qed.
Lemma f_mono {X} (m : F X) s (P Q : X -> fdst -> Prop) : fruns m s P -> (forall x s', P x s' -> Q x s') -> fruns m s Q.
Proof. unfold fruns. destruct (m s) as [[x s']|]; [|done]. intros H HQ. by apply HQ. Qed.
Lemma f_seq {X Y} (m : F X) (k : X -> F Y) s P Q : fruns m s P -> (forall x s', P x s' -> fruns (k x) s' Q) -> fruns (x ← m; k x) s Q.
Proof. intros H HQ. apply f_bind. by eapply f_mono. Qed.
Lemma f_val {X} (m : F X) s x s' (Q : X -> fdst -> Prop) : m s = Some (x, s') -> Q x s' -> fruns m s Q.
Proof. unfold fruns. by intros ->. Qed.
Lemma f_eq {X} (m : F X) s Q : fruns m s Q -> exists x s', m s = Some (x, s') /\ Q x s'.
Proof. unfold fruns. destruct (m s) as [[x s']|]; [|done]. eauto. Qed.

Lemma f_file {Y} p f (k : file -> F Y) s Q : files s !! p = Some f -> fruns (k f) s Q -> fruns (f ← get_file p; k f) s Q.
Proof. intros H. unfold fruns, get_file, mbind, F_bind. rewrite H. done. Qed.
Lemma f_desc_ {Y} d x (k : fdesc -> F Y) s Q : descs s !! d = Some x -> fruns (k x) s Q -> fruns (x ← get_desc d; k x) s Q.
Proof. intros H. unfold fruns, get_desc, mbind, F_bind. rewrite H. done. Qed.
Lemma f_table {Y} t x (k : table -> F Y) s Q : tables s !! t = Some x -> fruns (k x) s Q -> fruns (x ← get_table t; k x) s Q.
Proof. intros H. unfold fruns, get_table, mbind, F_bind. rewrite H. done. Qed.
Lemma f_proc {Y} pr x (k : fproc -> F Y) s Q : procs s !! pr = Some x -> fruns (k x) s Q -> fruns (x ← get_proc pr; k x) s Q.
Proof. intros H. unfold fruns, get_proc, mbind, F_bind. rewrite H. done. Qed.

Definition bump (o : obj) (z : Z) (s : fdst) : fdst := set_counts (fun o' => if decide (o' = o) then counts s o + z else counts s o') s.

Lemma each_cons {A} (f : A -> F unit) x l s s' : f x s = Some (tt, s') -> each f (x :: l) s = each f l s'.
Proof. intros H. cbn [each]. unfold mbind, F_bind. by rewrite H. Qed.

Lemma obj_unref_run o s : 0 < counts s o -> obj_unref o s = Some (tt, bump o (-1) s).
Proof. intros H. unfold obj_unref. by rewrite (proj2 (Z.ltb_lt _ _)) by lia. Qed.

Lemma bump_counts o z s o' : counts (bump o z s) o' = counts s o' + (if decide (o' = o) then z else 0).
Proof. cbn. case_decide; [by subst|lia]. Qed.

Lemma unref_list l : forall s, (forall o, tally o l <= counts s o) -> exists c, each obj_unref l s = Some (tt, set_counts c s) /\ forall o, c o = counts s o - tally o l.
Proof.
  induction l as [|x l IH]; intros s H; [exists (counts s); split; [by destruct s|]; intros o; cbn; lia|]. pose proof (H x) as Hx. cbn [tally] in Hx. rewrite decide_True in Hx by done. pose proof (tally_nonneg x l).
  rewrite (each_cons _ _ _ _ _ (obj_unref_run x s ltac:(lia))). destruct (IH (bump x (-1) s)) as (c & E & Hc).
  - intros o. rewrite bump_counts. specialize (H o). cbn [tally] in H. case_decide; lia.
  - exists c. split; [by rewrite E|]. intros o. rewrite Hc, bump_counts. cbn [tally]. case_decide; lia.
Qed.

Lemma ref_list l : forall s, exists c, each obj_ref l s = Some (tt, set_counts c s) /\ forall o, c o = counts s o + tally o l.
Proof.
  induction l as [|x l IH]; intros s; [exists (counts s); split; [by destruct s|]; intros o; cbn; lia|]. rewrite (each_cons _ _ _ _ (bump x 1 s) eq_refl). destruct (IH (bump x 1 s)) as (c & E & Hc).
  exists c. split; [by rewrite E|]. intros o. rewrite Hc, bump_counts. cbn [tally]. case_decide; lia.
Qed.

(** ** What closing a file does not look at *)

Section frame.
Context (u : fdst -> fdst) (Hf : forall s, files (u s) = files s) (Hd : forall s, descs (u s) = descs s) (Hc : forall s, counts (u s) = counts s).
Context (Uf : forall x s, set_files x (u s) = u (set_files x s)) (Ud : forall x s, set_descs x (u s) = u (set_descs x s)) (Uc : forall x s, set_counts x (u s) = u (set_counts x s)).

Definition apart {X} (m : F X) : Prop := forall s, m (u s) = (fun '(x, s') => (x, u s')) <$> m s.

Lemma apart_ret {X} (x : X) : apart (mret x).
Proof. done. Qed.
Lemma apart_bind {X Y} (m : F X) (k : X -> F Y) : apart m -> (forall x, apart (k x)) -> apart (x ← m; k x).
Proof. intros Hm Hk s. unfold mbind, F_bind. rewrite Hm. destruct (m s) as [[x s']|]; [|done]. cbn. apply Hk. Qed.
Lemma apart_if {X} (b : bool) (m k : F X) : apart m -> apart k -> apart (if b then m else k).
Proof. by destruct b. Qed.

Lemma apart_unrefs l : apart (each obj_unref l).
Proof. induction l as [|o l IH]; [done|]. apply apart_bind; [|done]. intros s. unfold obj_unref, put_count. rewrite Hc. destruct (0 <? counts s o); [|done]. cbn. by rewrite Uc. Qed.

Lemma apart_close p : apart (file_close p).
Proof.
  assert (Hg : apart (get_file p)) by (intros s; unfold get_file; rewrite Hf; by destruct (files s !! p)). assert (Hp : forall f, apart (put_file p f)) by (intros f s; unfold put_file; by rewrite Hf, Uf).
  assert (Hgd : forall d, apart (get_desc d)) by (intros d s; unfold get_desc; rewrite Hd; by destruct (descs s !! d)).
  apply apart_bind; [done|]. intros f. apply apart_if; [done|]. apply apart_bind; [done|]. intros _. apply apart_if; [|done]. apply apart_bind; [done|]. intros g. apply apart_bind.
  - destruct (f_desc g) as [d|]; [|done]. apply apart_bind; [done|]. intros x. apply apart_if; intros s; [unfold kfree_desc|unfold put_desc]; by rewrite Hd, Ud.
  - intros _. apply apart_bind; [apply apart_unrefs|]. intros _ s. unfold kfree_file. by rewrite Hf, Uf.
Qed.
End frame.

(** ** The invariant *)

(** A file stands for one thing: an event counter, a timer, a set of signals, a
    watch, a connection, or a node with ends of pipes. *)
Definition kind_ok (f : file) : Prop :=
  match f_efd f, f_tfd f, f_sfd f, f_ifd f, f_inet f with
  | None, None, None, None, None => f_wpipe f = None \/ is_Some (f_pipe f)
  | Some _, None, None, None, None | None, Some _, None, None, None | None, None, Some _, None, None | None, None, None, Some _, None | None, None, None, None, Some _ =>
      f_node f = None /\ f_pipe f = None /\ f_wpipe f = None
  | _, _, _, _, _ => False
  end.

Lemma destroy_addref f : kind_ok f -> destroy_list f ≡ₚ addref_list f.
Proof.
  unfold kind_ok, destroy_list, addref_list. destruct (f_efd f), (f_tfd f), (f_sfd f), (f_ifd f), (f_inet f); try (by intros []); try (intros (E1 & E2 & _); rewrite E1, E2; reflexivity).
  intros [->|[p Hp]]; cbn [opt app]; [|rewrite Hp]; [apply Permutation_app_comm|destruct (f_wpipe f); apply Permutation_app_comm].
Qed.

(** The slots and the system calls that refer to a file. *)
Definition slot_refs (p : nat) (x : table) : Z := tally (Used p) (t_slots x).
Definition refs (s : fdst) (p : nat) : Z := msum (slot_refs p) (tables s) + msum (fun x => tally p (p_borrows x)) (procs s).

Definition of_desc (d : nat) (f : file) : Z := if decide (f_desc f = Some d) then 1 else 0.
Definition holds (o : obj) (f : file) : Z := tally o (addref_list f).
Definition in_table (t : nat) (x : fproc) : Z := if decide (p_table x = Some t) then 1 else 0.

(** The objects the kernel allocates with a descriptor. *)
Definition own (o : obj) : option nat := match o with OReader i | OWriter i | OEvent i | OTimer i | OSignal i => Some i | _ => None end.

Section inv.
(** The references that are not held by files: to nodes, watches and
    connections. *)
Context (base : obj -> Z) (Hbase : forall o, 0 <= base o).

(** [O] and [P] are references that a call holds in its variables, to objects
    and to files. *)
Record cinv (O : list obj) (P : list nat) (s : fdst) : Prop := {
  c_file p f : files s !! p = Some f -> f_refs f = refs s p + tally p P /\ 0 < f_refs f /\ kind_ok f /\ exists d, f_desc f = Some d /\ is_Some (descs s !! d);
  c_none p : files s !! p = None -> refs s p + tally p P = 0;
  c_desc d x : descs s !! d = Some x -> d_refs x = msum (of_desc d) (files s) /\ 0 < d_refs x;
  c_obj o : counts s o = base o + tally o O + msum (holds o) (files s);
  c_new p : (fresh s <= p)%nat -> files s !! p = None /\ descs s !! p = None /\ tables s !! p = None;
  c_own o i : own o = Some i -> (fresh s <= i)%nat -> counts s o = 0;
}.

(** [V] are the slots a call has reserved. *)
Record tinv (V : list (nat * nat)) (s : fdst) : Prop := {
  v_table t x : tables s !! t = Some x -> length (t_slots x) = VFS_FD_MAX /\ t_refs x = msum (in_table t) (procs s) /\ 0 < t_refs x;
  v_slot t x fd : tables s !! t = Some x -> t_slots x !! fd = Some Reserved <-> (t, fd) ∈ V;
  v_proc pr x : procs s !! pr = Some x -> NoDup (p_borrows x) /\ (length (p_borrows x) <= VFS_FD_MAX)%nat /\ (p_active x = false -> p_borrows x = []) /\ forall t, p_table x = Some t -> is_Some (tables s !! t);
}.

Definition I (O : list obj) (P : list nat) (V : list (nat * nat)) (s : fdst) : Prop := cinv O P s /\ tinv V s.
Definition fdinv (s : fdst) : Prop := I [] [] [] s.
(** ** Closing a file *)

Lemma refs_nonneg s p : 0 <= refs s p.
Proof. unfold refs. pose proof (msum_nonneg (slot_refs p) (tables s) (fun x => tally_nonneg _ _)). pose proof (msum_nonneg (fun x => tally p (p_borrows x)) (procs s) (fun x => tally_nonneg _ _)). lia. Qed.

Lemma held_file O P s p : cinv O P s -> 0 < refs s p + tally p P -> exists f, files s !! p = Some f.
Proof. intros C H. destruct (files s !! p) as [f|] eqn:E; [by exists f|]. pose proof (c_none _ _ _ C p E). lia. Qed.

Definition same (s s' : fdst) : Prop := tables s' = tables s /\ procs s' = procs s.

Lemma same_refs s s' p : same s s' -> refs s' p = refs s p.
Proof. intros [H1 H2]. unfold refs. by rewrite H1, H2. Qed.

Lemma same_tinv V s s' : same s s' -> tinv V s -> tinv V s'.
Proof. intros [H1 H2] []. split; rewrite ?H1, ?H2; done. Qed.

(** The access mode of a description is the one it was made with. *)
Definition mode_of (x : fdesc) : Z := Z.land (d_flags x) O_ACCMODE.
Definition modes (s s' : fdst) : Prop := (fresh s <= fresh s')%nat /\ forall e x', descs s' !! e = Some x' -> (e < fresh s)%nat -> exists x, descs s !! e = Some x /\ mode_of x' = mode_of x.

Lemma modes_trans s1 s2 s3 : modes s1 s2 -> modes s2 s3 -> modes s1 s3.
Proof.
  intros [H1 M1] [H2 M2]. split; [lia|]. intros e x Hx He. destruct (M2 e x Hx ltac:(lia)) as (y & Hy & E1). destruct (M1 e y Hy He) as (z & Hz & E2). exists z. split; [done|congruence].
Qed.

Lemma modes_flags s s' : (fresh s <= fresh s')%nat -> (forall e, d_flags <$> descs s' !! e = d_flags <$> descs s !! e) -> modes s s'.
Proof.
  intros Hf H. split; [done|]. intros e x' Hx' _. specialize (H e). rewrite Hx' in H. destruct (descs s !! e) as [x|]; [|done]. exists x. split; [done|]. injection H as E. unfold mode_of. by rewrite E.
Qed.

(** A file changes, with the references it holds and the references to it. *)
Lemma cinv_file O O' P P' s p f f' : cinv O P s -> files s !! p = Some f -> (forall o, tally o O' + holds o f' = tally o O + holds o f) -> f_desc f' = f_desc f -> kind_ok f' ->
  (forall q, q <> p -> tally q P' = tally q P) -> f_refs f' = refs s p + tally p P' -> 0 < f_refs f' -> cinv O' P' (set_files (<[p := f']> (files s)) s).
Proof.
  intros C Hp Ha Hd Hk HP Hr Hpos. assert (Hof : forall d, of_desc d f' = of_desc d f) by (intros d; unfold of_desc; by rewrite Hd). split; cbn [files descs counts fresh tables set_files].
  - intros q g Hq. change (refs (set_files _ s) q) with (refs s q). destruct (decide (q = p)) as [->|Hne].
    + rewrite lookup_insert_eq in Hq. injection Hq as <-. split; [done|]. split; [done|]. split; [done|]. destruct (c_file _ _ _ C p f Hp) as (_ & _ & _ & d & Ed & Hx). exists d. by rewrite Hd.
    + rewrite lookup_insert_ne in Hq by done. rewrite HP by done. by apply (c_file _ _ _ C).
  - intros q Hq. change (refs (set_files _ s) q) with (refs s q). apply lookup_insert_None in Hq as [Hq Hne]. rewrite HP by done. by apply (c_none _ _ _ C).
  - intros d x Hx. rewrite (msum_update _ _ _ f) by done. rewrite Hof. destruct (c_desc _ _ _ C d x Hx). split; [lia|done].
  - intros o. rewrite (msum_update _ _ _ f) by done. rewrite (c_obj _ _ _ C). specialize (Ha o). lia.
  - intros q Hq. destruct (c_new _ _ _ C q Hq) as (H1 & H2 & H3). split; [|done]. rewrite lookup_insert_ne; [done|]. intros ->. congruence.
  - apply (c_own _ _ _ C).
Qed.
Definition less_desc (d : nat) (x : fdesc) (m : gmap nat fdesc) : gmap nat fdesc := if d_refs x - 1 =? 0 then delete d m else <[d := mkDesc (d_pos x) (d_flags x) (d_refs x - 1)]> m.

Lemma less_desc_ne d x m e : e <> d -> less_desc d x m !! e = m !! e.
Proof. intros H. unfold less_desc. destruct (_ =? 0); [by rewrite lookup_delete_ne|by rewrite lookup_insert_ne]. Qed.

Lemma less_modes s d x c m : descs s !! d = Some x -> modes s (mkFd m (less_desc d x (descs s)) c (tables s) (procs s) (fresh s)).
Proof.
  intros Hx. split; [done|]. cbn [descs]. intros e x' He _. destruct (decide (e = d)) as [->|Hne]; [|rewrite less_desc_ne in He by done; by exists x'].
  exists x. split; [done|]. unfold less_desc in He. destruct (_ =? 0); [by rewrite lookup_delete_eq in He|]. rewrite lookup_insert_eq in He. by injection He as <-.
Qed.

Lemma cinv_destroy O P s p f d x c : cinv O (p :: P) s -> files s !! p = Some f -> refs s p + tally p P = 0 -> f_desc f = Some d -> descs s !! d = Some x -> (forall o, c o = counts s o - holds o f) ->
  cinv O P (mkFd (delete p (files s)) (less_desc d x (descs s)) c (tables s) (procs s) (fresh s)).
Proof.
  intros C Hp Hz Hd Hx Hc. set (s' := mkFd _ _ _ _ _ _). assert (Hoc : forall q, q <> p -> tally q (p :: P) = tally q P) by (intros q Hq; cbn; by rewrite decide_False). destruct (c_desc _ _ _ C d x Hx) as [Hxr _].
  assert (Hof : forall e, msum (of_desc e) (delete p (files s)) = msum (of_desc e) (files s) - of_desc e f) by (intros e; by apply msum_delete).
  assert (Hofd : of_desc d f = 1) by (unfold of_desc; by rewrite decide_True). assert (Hn : 0 <= msum (of_desc d) (delete p (files s))) by (apply msum_nonneg; intros y; unfold of_desc; case_decide; lia). rewrite Hof, Hofd in Hn. split; cbn [files descs counts fresh tables s'].
  - intros q g [Hne Hq]%lookup_delete_Some. change (refs s' q) with (refs s q). destruct (c_file _ _ _ C q g Hq) as (H1 & H2 & H3 & e & He & Hex). rewrite Hoc in H1 by done. split; [done|]. split; [done|]. split; [done|]. exists e. split; [done|].
    destruct (decide (e = d)) as [->|Hed]; [|by rewrite less_desc_ne]. assert (H4 : of_desc d g <= msum (of_desc d) (delete p (files s))) by (apply (msum_le _ _ q); [intros y; unfold of_desc; case_decide; lia|by rewrite lookup_delete_ne]).
    rewrite Hof, Hofd in H4. unfold of_desc in H4 at 1. rewrite decide_True in H4 by done. unfold less_desc. destruct (Z.eqb_spec (d_refs x - 1) 0); [lia|]. rewrite lookup_insert_eq. by eexists.
  - intros q Hq. change (refs s' q) with (refs s q). destruct (decide (q = p)) as [->|Hne]; [done|]. rewrite lookup_delete_ne in Hq by done. rewrite <- Hoc by done. by apply (c_none _ _ _ C).
  - intros e y Hy. rewrite Hof. destruct (decide (e = d)) as [->|Hed].
    + rewrite Hofd. unfold less_desc in Hy. destruct (Z.eqb_spec (d_refs x - 1) 0); [by rewrite lookup_delete_eq in Hy|]. rewrite lookup_insert_eq in Hy. injection Hy as <-. cbn [d_refs]. lia.
    + rewrite less_desc_ne in Hy by done. destruct (c_desc _ _ _ C e y Hy). unfold of_desc at 2. rewrite decide_False by congruence. lia.
  - intros o. rewrite Hc, (msum_delete _ _ _ f) by done. rewrite (c_obj _ _ _ C). lia.
  - intros q Hq. destruct (c_new _ _ _ C q Hq) as (H1 & H2 & H3). split; [by rewrite lookup_delete_ne by congruence|]. split; [|done]. rewrite less_desc_ne; [done|congruence].
  - intros o i Ho Hi. rewrite Hc. pose proof (c_own _ _ _ C o i Ho Hi) as H0. pose proof (c_obj _ _ _ C o) as H1. pose proof (msum_le (holds o) (files s) p f (fun y => tally_nonneg _ _) Hp). pose proof (Hbase o). pose proof (tally_nonneg o O). pose proof (tally_nonneg o (addref_list f)). unfold holds in *. lia.
Qed.

Lemma close_cinv O P s p : cinv O (p :: P) s -> fruns (file_close p) s (fun _ s' => cinv O P s' /\ same s s' /\ modes s s' /\ (forall q, q <> p -> files s' !! q = files s !! q) /\ (refs s p + tally p P = 0 -> files s' = delete p (files s)) /\ (forall q f', files s' !! q = Some f' -> exists f, files s !! q = Some f /\ f' = with_refs (f_refs f') f)).
Proof.
  intros C. pose proof (refs_nonneg s p) as Hrn. pose proof (tally_nonneg p P) as Hon. assert (Hoc : tally p (p :: P) = 1 + tally p P) by (cbn; by rewrite decide_True).
  destruct (held_file O (p :: P) s p C ltac:(lia)) as [f Hp]. destruct (c_file _ _ _ C p f Hp) as (Hr & Hpos & Hk & d & Hd & [x Hx]). unfold file_close. eapply f_file; [exact Hp|]. destruct (Z.eqb_spec (f_refs f) 0); [lia|].
  eapply f_bind, f_val; [done|]. destruct (Z.eqb_spec (f_refs f) 1) as [E|E].
  - unfold file_destroy. eapply f_file; [apply lookup_insert_eq|]. change (f_desc (with_refs (f_refs f - 1) f)) with (f_desc f). rewrite Hd.
    set (s1 := set_descs (less_desc d x (descs s)) (set_files (<[p := with_refs (f_refs f - 1) f]> (files s)) s)).
    apply (f_seq _ _ _ (fun _ s' => s' = s1)); [eapply f_desc_; [exact Hx|]; apply (f_val _ _ tt s1); [unfold s1, less_desc; by destruct (_ =? 0)|done]|]. intros [] ? ->.
    destruct (unref_list (destroy_list f) s1) as (c & Ec & Hc).
    { intros o. change (counts s1 o) with (counts s o). rewrite (tally_perm o _ _ (destroy_addref f Hk)), (c_obj _ _ _ C). pose proof (msum_le (holds o) (files s) p f (fun y => tally_nonneg _ _) Hp). pose proof (Hbase o). pose proof (tally_nonneg o O). unfold holds in *. lia. }
    change (destroy_list (with_refs (f_refs f - 1) f)) with (destroy_list f). eapply f_bind, f_val; [exact Ec|].
    apply (f_val _ _ tt (mkFd (delete p (files s)) (less_desc d x (descs s)) c (tables s) (procs s) (fresh s))); [unfold kfree_file, set_files; cbn; by rewrite delete_insert_eq|].
    split; [|split; [done|]; split; [by apply less_modes|]; split; [intros q Hq; cbn; by rewrite lookup_delete_ne|]; split; [done|]; intros q g Hg; cbn [files] in Hg; apply lookup_delete_Some in Hg as [_ Hg]; exists g; split; [done|by destruct g]]. eapply cinv_destroy; try done; [lia|]. intros o. rewrite Hc, (tally_perm o _ _ (destroy_addref f Hk)). done.
  - apply f_ret. split; [|split; [done|]; split; [by apply modes_flags|]; split; [intros q Hq; cbn; by rewrite lookup_insert_ne|]; split; [lia|]; intros q g Hg; cbn [files set_files] in Hg; apply lookup_insert_Some in Hg as [[<- <-]|[_ Hg]]; [by exists f|exists g; split; [done|by destruct g]]]. eapply (cinv_file O O); try done; cbn [with_refs f_refs]; [intros q Hq; cbn; by rewrite decide_False|lia|lia].
Qed.

Lemma close_I O P V s p : I O (p :: P) V s -> fruns (file_close p) s (fun _ s' => I O P V s' /\ same s s' /\ modes s s' /\ (forall q, q <> p -> files s' !! q = files s !! q) /\ (refs s p + tally p P = 0 -> files s' = delete p (files s)) /\ (forall q f', files s' !! q = Some f' -> exists f, files s !! q = Some f /\ f' = with_refs (f_refs f') f)).
Proof. intros [C T]. eapply f_mono; [by apply close_cinv|]. intros [] s' (H1 & H2 & H3). split; [|done]. split; [done|by apply (same_tinv V s)]. Qed.

(** ** New files *)

Definition next (s : fdst) : fdst := mkFd (files s) (descs s) (counts s) (tables s) (procs s) (S (fresh s)).

Lemma next_I O P V s : I O P V s -> I O P V (next s).
Proof.
  intros [C T]. split; [|by apply (same_tinv V s)]. destruct C as [C1 C2 C3 C4 C5 C6]. split; try done; cbn [fresh next].
  - intros p Hp. apply C5. lia.
  - intros o i Ho Hi. apply (C6 o i Ho). lia.
Qed.

Lemma next_modes s : modes s (next s).
Proof. apply modes_flags; [cbn; lia|done]. Qed.

Lemma kalloc_run {Y} room (k : option nat -> F Y) s Q : (forall r, r = None \/ r = Some (fresh s) -> fruns (k r) (next s) Q) -> fruns (r ← kalloc room; k r) s Q.
Proof. intros H. eapply f_bind, f_val; [reflexivity|]. apply H. destruct (room (fresh s)); eauto. Qed.

(** A file enters, with a description of its own or that of another file. *)
Lemma cinv_enter O P s q f d ds c : cinv O P s -> files s !! q = None -> (q < fresh s)%nat -> f_refs f = 1 -> kind_ok f -> f_desc f = Some d ->
  (forall e, e <> d -> ds !! e = descs s !! e) -> (exists x, ds !! d = Some x /\ d_refs x = 1 + msum (of_desc d) (files s)) -> (d < fresh s)%nat -> (forall o, c o = counts s o + holds o f) -> (forall o i, own o = Some i -> (fresh s <= i)%nat -> holds o f = 0) ->
  cinv O (q :: P) (mkFd (<[q := f]> (files s)) ds c (tables s) (procs s) (fresh s)).
Proof.
  intros C Hq Hqf Hr Hk Hd Hds (x & Hx & Hxr) Hdf Hc Hho. set (s' := mkFd _ _ _ _ _ _). assert (Hof : forall e, msum (of_desc e) (<[q := f]> (files s)) = of_desc e f + msum (of_desc e) (files s)) by (intros e; by apply msum_new).
  assert (Hn : 0 <= msum (of_desc d) (files s)) by (apply msum_nonneg; intros y; unfold of_desc; case_decide; lia). split; cbn [files descs counts fresh tables s'].
  - intros p g Hp. change (refs s' p) with (refs s p). destruct (decide (p = q)) as [->|Hne].
    + rewrite lookup_insert_eq in Hp. injection Hp as <-. pose proof (c_none _ _ _ C q Hq). cbn [tally]. rewrite decide_True by done. split; [lia|]. split; [lia|]. split; [done|]. exists d. split; [done|by exists x].
    + rewrite lookup_insert_ne in Hp by done. destruct (c_file _ _ _ C p g Hp) as (H1 & H2 & H3 & e & He & Hex). cbn [tally]. rewrite decide_False by done. split; [lia|]. split; [done|]. split; [done|]. exists e. split; [done|]. destruct (decide (e = d)) as [->|Hed]; [by exists x|by rewrite Hds].
  - intros p Hp. change (refs s' p) with (refs s p). apply lookup_insert_None in Hp as [Hp Hne]. cbn [tally]. rewrite decide_False by done. by apply (c_none _ _ _ C).
  - intros e y Hy. rewrite Hof. destruct (decide (e = d)) as [->|Hed]; [unfold of_desc at 1; rewrite decide_True by done; assert (y = x) as -> by congruence; lia|].
    rewrite Hds in Hy by done. destruct (c_desc _ _ _ C e y Hy). unfold of_desc at 1. rewrite decide_False by congruence. lia.
  - intros o. rewrite Hc, msum_new by done. rewrite (c_obj _ _ _ C). lia.
  - intros p Hp. destruct (c_new _ _ _ C p Hp) as (H1 & H2 & H3). split; [rewrite lookup_insert_ne; [done|lia]|]. split; [|done]. rewrite Hds; [done|lia].
  - intros o i Ho Hi. rewrite Hc, (Hho o i Ho Hi). rewrite (c_own _ _ _ C o i Ho Hi). lia.
Qed.

Lemma file_alloc_I {Y} room O P V s (k : option nat -> F Y) Q : I O P V s ->
  (forall s', I O P V s' -> same s s' -> modes s s' -> files s' = files s -> counts s' = counts s -> fruns (k None) s' Q) ->
  (forall s' q d, I O (q :: P) V s' -> same s s' -> modes s s' -> files s !! q = None -> files s' = <[q := blank d]> (files s) -> descs s' !! d = Some (mkDesc 0 0 1) -> (fresh s <= d)%nat -> counts s' = counts s -> (forall e, e <> d -> descs s' !! e = descs s !! e) -> fruns (k (Some q)) s' Q) ->
  fruns (r ← file_alloc room; k r) s Q.
Proof.
  intros H HN HS. unfold file_alloc. apply f_bind. apply kalloc_run. intros r [->| ->]; [apply f_ret, HN; try done; [by apply next_I|apply next_modes]|].
  assert (M2 : modes s (next (next s))) by (eapply modes_trans; apply next_modes). apply kalloc_run. intros r [->| ->]; [apply f_ret, HN; try done; by apply next_I, next_I|].
  eapply f_bind, f_val; [reflexivity|]. eapply f_bind, f_val; [reflexivity|]. apply f_ret. destruct H as [C T]. destruct (c_new _ _ _ C (fresh s) ltac:(lia)) as (Hf & _). destruct (c_new _ _ _ C (S (fresh s)) ltac:(lia)) as (_ & Hd & _).
  apply (HS _ (fresh s) (S (fresh s))); [|done| |done|done|apply lookup_insert_eq|lia|done|intros e He; cbn; by rewrite lookup_insert_ne].
  2:{ split; [cbn; lia|]. intros e x' Hx' He. cbn in Hx'. rewrite lookup_insert_ne in Hx' by lia. by exists x'. } split; [|by apply (same_tinv V s)].
  assert (C2 : cinv O P (next (next s))) by (by apply (next_I O P V (next s)), next_I). apply (cinv_enter O P (next (next s)) (fresh s) (blank (S (fresh s))) (S (fresh s))); try done; cbn.
  - lia.
  - by left.
  - intros e He. by rewrite lookup_insert_ne.
  - exists (mkDesc 0 0 1). split; [apply lookup_insert_eq|]. cbn [d_refs]. assert (E : msum (of_desc (S (fresh s))) (files s) = 0); [|lia].
    destruct (decide (0 < msum (of_desc (S (fresh s))) (files s))) as [Hp|Hp]; [|pose proof (msum_nonneg (of_desc (S (fresh s))) (files s) ltac:(intros y; unfold of_desc; case_decide; lia)); lia].
    apply msum_pos in Hp as (i & f & Hi & Hfd); [|intros y; unfold of_desc; case_decide; lia]. unfold of_desc in Hfd. case_decide as E; [|lia]. destruct (c_file _ _ _ C i f Hi) as (_ & _ & _ & d & Hd' & [x Hx]). congruence.
  - lia.
  - intros o. unfold holds. cbn. lia.
Qed.
Lemma holds_own O P s o i f p : cinv O P s -> files s !! p = Some f -> own o = Some i -> (fresh s <= i)%nat -> holds o f = 0.
Proof.
  intros C Hp Ho Hi. pose proof (c_own _ _ _ C o i Ho Hi). pose proof (c_obj _ _ _ C o). pose proof (Hbase o). pose proof (tally_nonneg o O). pose proof (msum_le (holds o) (files s) p f (fun y => tally_nonneg _ _) Hp). pose proof (tally_nonneg o (addref_list f)). unfold holds in *. lia.
Qed.

(** A copy of a file that shares its description. *)
Lemma addref_I O P V s p f f' q : I O P V s -> files s !! p = Some f -> files s !! q = None -> (q < fresh s)%nat -> f_refs f' = 1 -> kind_ok f' -> f_desc f' = f_desc f -> (forall o, holds o f' <= holds o f) ->
  fruns (put_file q f';; file_addref q) s (fun _ s' => I O (q :: P) V s' /\ same s s' /\ files s' = <[q := f']> (files s) /\ modes s s').
Proof.
  intros [C T] Hp Hq Hqf Hr Hk Hd Hh. destruct (c_file _ _ _ C p f Hp) as (_ & _ & _ & d & Ed & [x Hx]). rewrite Ed in Hd. destruct (c_desc _ _ _ C d x Hx) as [Hxr _]. eapply f_bind, f_val; [reflexivity|]. unfold file_addref. eapply f_file; [apply lookup_insert_eq|]. rewrite Hd.
  eapply f_bind, f_desc_; [exact Hx|]. eapply f_val; [reflexivity|]. cbn [mbind]. set (s1 := set_descs _ _). destruct (ref_list (addref_list f') s1) as (c & Ec & Hc). eapply f_val; [exact Ec|].
  assert (Hdf : (d < fresh s)%nat) by (destruct (Nat.lt_ge_cases d (fresh s)) as [H|H]; [done|]; destruct (c_new _ _ _ C d H) as (_ & H2 & _); congruence).
  split; [|split; [done|]; split; [done|]; apply modes_flags; [done|]; intros e; cbn; destruct (decide (e = d)) as [->|He]; [by rewrite lookup_insert_eq, Hx|by rewrite lookup_insert_ne]]. split; [|by apply (same_tinv V s)].
  apply (cinv_enter O P s q f' d (<[d := mkDesc (d_pos x) (d_flags x) (d_refs x + 1)]> (descs s)) c); try done.
  - intros e He. by rewrite lookup_insert_ne.
  - eexists. split; [apply lookup_insert_eq|]. cbn [d_refs]. lia.
  - intros o i Ho Hi. pose proof (holds_own O P s o i f p C Hp Ho Hi). specialize (Hh o). pose proof (tally_nonneg o (addref_list f')). unfold holds in *. lia.
Qed.

Lemma clone_I {Y} room O P V s p f (k : option nat -> F Y) Q : I O P V s -> files s !! p = Some f ->
  (forall s', I O P V s' -> same s s' -> modes s s' -> files s' = files s -> fruns (k None) s' Q) ->
  (forall s' q, I O (q :: P) V s' -> same s s' -> files s !! q = None -> files s' = <[q := with_cloexec false (with_refs 1 f)]> (files s) -> modes s s' -> fruns (k (Some q)) s' Q) ->
  fruns (r ← vfs_file_clone room p; k r) s Q.
Proof.
  intros H Hp HN HS. apply f_bind. unfold vfs_file_clone. eapply f_file; [exact Hp|]. apply kalloc_run. intros r [->| ->]; [apply f_ret, HN; try done; [by apply next_I|by apply next_modes]|]. pose proof H as [C _]. destruct (c_new _ _ _ C (fresh s) ltac:(lia)) as (Hq & _).
  assert (A := addref_I O P V (next s) p f (with_cloexec false (with_refs 1 f)) (fresh s) (next_I _ _ _ _ H) Hp Hq ltac:(cbn; lia) eq_refl ltac:(by apply (c_file _ _ _ C p f Hp)) eq_refl ltac:(intros o; done)).
  apply f_eq in A as ([] & s' & E & A1 & A2 & A3 & A4). unfold fruns, mbind, F_bind in *. cbn in E |- *. rewrite E. apply (HS s' (fresh s)); try done. by eapply modes_trans; [apply next_modes|].
Qed.

(** The description gets other flags. *)
Lemma cinv_desc O P s d x y : cinv O P s -> descs s !! d = Some x -> d_refs y = d_refs x -> cinv O P (set_descs (<[d := y]> (descs s)) s).
Proof.
  intros [C1 C2 C3 C4 C5 C6] Hx Hy. split; try done; cbn [files descs counts tables fresh set_descs].
  - intros p f Hp. destruct (C1 p f Hp) as (H1 & H2 & H3 & e & He & Hex). split; [done|]. split; [done|]. split; [done|]. exists e. split; [done|]. destruct (decide (e = d)) as [->|Hne]; [rewrite lookup_insert_eq; by eexists|by rewrite lookup_insert_ne].
  - intros e z Hz. destruct (decide (e = d)) as [->|Hne]; [rewrite lookup_insert_eq in Hz; injection Hz as <-; rewrite Hy; by apply C3|rewrite lookup_insert_ne in Hz by done; by apply C3].
  - intros p Hp. destruct (C5 p Hp) as (H1 & H2 & H3). split; [done|]. split; [|done]. rewrite lookup_insert_ne; [done|]. congruence.
Qed.

(** ** Slots *)

Definition used (p : nat) (v : slot) : Z := if decide (Used p = v) then 1 else 0.

Lemma set_slot_cinv O P P' s t x fd v old : cinv O P s -> tables s !! t = Some x -> t_slots x !! fd = Some old -> (forall p, tally p P' + used p v = tally p P + used p old) ->
  cinv O P' (set_tables (<[t := mkTable (<[fd := v]> (t_slots x)) (t_refs x)]> (tables s)) s).
Proof.
  intros C Hx Hold HP. set (s' := set_tables _ s). assert (Hr : forall p, refs s' p = refs s p + used p v - used p old).
  { intros p. unfold refs. cbn [tables procs s' set_tables]. rewrite (msum_update _ _ _ x) by done. unfold slot_refs at 2 3. cbn [t_slots]. rewrite (tally_insert _ _ _ old) by done. unfold used. lia. }
  destruct C as [C1 C2 C3 C4 C5 C6]. split; try done; cbn [files descs counts tables fresh s' set_tables].
  - intros p f Hp. destruct (C1 p f Hp) as (H1 & H2). split; [|done]. rewrite Hr. specialize (HP p). lia.
  - intros p Hp. rewrite Hr. specialize (HP p). specialize (C2 p Hp). lia.
  - intros p Hp. destruct (C5 p Hp) as (H1 & H2 & H3). split; [done|]. split; [done|]. rewrite lookup_insert_ne; [done|congruence].
Qed.

Lemma set_slot_I O P P' V V' s t x fd v old : I O P V s -> tables s !! t = Some x -> t_slots x !! fd = Some old -> (forall p, tally p P' + used p v = tally p P + used p old) ->
  (forall t' fd', (t', fd') ∈ V' <-> if decide ((t', fd') = (t, fd)) then v = Reserved else (t', fd') ∈ V) ->
  let s' := set_tables (<[t := mkTable (<[fd := v]> (t_slots x)) (t_refs x)]> (tables s)) s in set_slot t fd v s = Some (tt, s') /\ I O P' V' s'.
Proof.
  intros [C T] Hx Hold HP HV s'. split; [unfold set_slot, get_table, mbind, F_bind; by rewrite Hx|]. split.
  - by eapply set_slot_cinv.
  - destruct T as [T1 T2 T3]. split; cbn [tables procs s' set_tables].
    + intros t' y Hy. destruct (decide (t' = t)) as [->|Hne]; [rewrite lookup_insert_eq in Hy; injection Hy as <-; cbn [t_slots t_refs]; rewrite length_insert; by apply T1|rewrite lookup_insert_ne in Hy by done; by apply T1].
    + intros t' y fd' Hy. rewrite HV. destruct (decide (t' = t)) as [->|Hne].
      * rewrite lookup_insert_eq in Hy. injection Hy as <-. cbn [t_slots]. destruct (decide (fd' = fd)) as [->|Hnf].
        -- rewrite list_lookup_insert_eq by (by eapply lookup_lt_Some). rewrite decide_True by done. split; [by intros [= ->]|by intros ->].
        -- rewrite list_lookup_insert_ne by done. rewrite decide_False by congruence. by apply T2.
      * rewrite lookup_insert_ne in Hy by done. rewrite decide_False by congruence. by apply T2.
    + intros pr y Hy. destruct (T3 pr y Hy) as (H1 & H2 & H3 & H4). split; [done|]. split; [done|]. split; [done|]. intros t' Ht. destruct (decide (t' = t)) as [->|Hne]; [rewrite lookup_insert_eq; by eexists|rewrite lookup_insert_ne by done; by apply H4].
Qed.
End inv.
