(* ===== verification/FdOps.v ===== *)
(** * The calls on descriptors keep the counts exact.

    Each call of [Fd.v] returns from every state of the invariant of [FdInv.v] and
    keeps it; [run_calls] is any sequence of them by any processes. *)

From S2P Require Import Prelude Bits Fd FdInv.

(** What every call leaves: the modes of the descriptions, the tables of the
    processes. *)
Record keeps (s s' : fdst) : Prop := {
  k_modes : modes s s';
  k_procs pr x : procs s !! pr = Some x -> exists x', procs s' !! pr = Some x' /\ p_table x' = p_table x /\ p_active x' = p_active x;
  k_tables t : is_Some (tables s !! t) -> is_Some (tables s' !! t);
}.

Lemma modes_refl s : modes s s.
Proof. by apply modes_flags. Qed.

Lemma keeps_refl s : keeps s s.
Proof. split; [apply modes_refl|intros pr x H; by exists x|done]. Qed.

Lemma keeps_trans s1 s2 s3 : keeps s1 s2 -> keeps s2 s3 -> keeps s1 s3.
Proof.
  intros [M1 P1 T1] [M2 P2 T2]. split; [by eapply modes_trans| |by intros t H; apply T2, T1].
  intros pr x H. destruct (P1 pr x H) as (y & Hy & E1 & E2). destruct (P2 pr y Hy) as (z & Hz & E3 & E4). exists z. split; [done|]. split; congruence.
Qed.

Lemma keeps_same s s' : same s s' -> modes s s' -> keeps s s'.
Proof. intros [H1 H2] M. split; [done|rewrite H2; intros pr x H; by exists x|by rewrite H1]. Qed.

(** Only slots have changed. *)
Record quiet (s s' : fdst) : Prop := {
  q_files : files s' = files s; q_descs : descs s' = descs s; q_counts : counts s' = counts s; q_procs : procs s' = procs s; q_fresh : fresh s' = fresh s;
  q_tables t : is_Some (tables s !! t) -> is_Some (tables s' !! t);
}.

Lemma quiet_keeps s s' : quiet s s' -> keeps s s'.
Proof. intros []. split; [apply modes_flags; [by rewrite q_fresh0|by rewrite q_descs0]|rewrite q_procs0; intros pr x H; by exists x|done]. Qed.

Lemma quiet_set s t x y : tables s !! t = Some x -> quiet s (set_tables (<[t := y]> (tables s)) s).
Proof. intros Hx. split; try done. cbn. intros t' H. destruct (decide (t' = t)) as [->|Hne]; [rewrite lookup_insert_eq; by eexists|by rewrite lookup_insert_ne]. Qed.

Section ops.
Context (base : obj -> Z) (Hbase : forall o, 0 <= base o).
Context (room : nat -> bool) (is_sock : nat -> bool) (seal_call : nat -> Z -> Z -> option Z).

Abbreviation I := (I base).

(** ** Steps *)

Lemma alloc_slot {Y} O P V s t x start (k : option nat -> F Y) Q : I O P V s -> tables s !! t = Some x -> fruns (k None) s Q ->
  (forall i, (start <= i)%nat -> t_slots x !! i = Some Free -> let s' := set_tables (<[t := mkTable (<[i := Reserved]> (t_slots x)) (t_refs x)]> (tables s)) s in
    I O P ((t, i) :: V) s' -> quiet s s' -> (t, i) ∉ V -> fruns (k (Some i)) s' Q) ->
  fruns (r ← fd_alloc_from t start; k r) s Q.
Proof.
  intros H Hx HN HS. apply f_bind. unfold fd_alloc_from. eapply f_table; [exact Hx|]. destruct (find_index is_free (drop start (t_slots x))) as [i|] eqn:E; [|by apply f_ret].
  apply find_index_Some in E as (v & Hv & Hf). rewrite lookup_drop in Hv. destruct v; try done.
  destruct (set_slot_I base O P P V ((t, (start + i)%nat) :: V) s t x (start + i) Reserved Free H Hx Hv) as [E1 E2].
  - intros p. unfold used. by rewrite !decide_False.
  - intros t' fd'. rewrite elem_of_cons. case_decide as Ed; [split; [done|by left]|]. split; [by intros [?|?]|by right].
  - eapply f_bind, f_val; [reflexivity|]. apply f_ret. apply HS; [lia|done|exact E2|by eapply quiet_set|]. intros Hin. destruct H as [_ T]. apply (v_slot _ _ T t x (start + i)%nat Hx) in Hin. congruence.
Qed.

Lemma put_slot {Y} O P P' V s t fd v (k : unit -> F Y) Q : I O P ((t, fd) :: V) s -> (t, fd) ∉ V -> is_Some (tables s !! t) -> v <> Reserved -> (forall p, tally p P' + used p v = tally p P) ->
  (forall s', I O P' V s' -> quiet s s' -> fruns (k tt) s' Q) -> fruns (x ← set_slot t fd v; k x) s Q.
Proof.
  intros H HV [x Hx] Hv HP HQ. pose proof H as [_ T]. assert (Hold : t_slots x !! fd = Some Reserved) by (apply (v_slot _ _ T t x fd Hx); by left).
  destruct (set_slot_I base O P P' ((t, fd) :: V) V s t x fd v Reserved H Hx Hold) as [E1 E2].
  - intros p. rewrite HP. unfold used. rewrite decide_False by done. lia.
  - intros t' fd'. case_decide as Ed; [injection Ed as -> ->; by split|]. rewrite elem_of_cons. split; [by right|by intros [?|?]].
  - eapply f_bind, f_val; [exact E1|]. apply HQ; [done|by eapply quiet_set].
Qed.

Lemma clear_slot {Y} O P V s t fd (k : unit -> F Y) Q : I O P ((t, fd) :: V) s -> (t, fd) ∉ V -> is_Some (tables s !! t) -> (forall s', I O P V s' -> quiet s s' -> fruns (k tt) s' Q) -> fruns (x ← vfs_fd_clear t fd; k x) s Q.
Proof. intros H HV Ht HQ. eapply put_slot; try done. intros p. unfold used. rewrite decide_False by done. lia. Qed.

Lemma install_slot {Y} O P V s t fd p (k : unit -> F Y) Q : I O (p :: P) ((t, fd) :: V) s -> (t, fd) ∉ V -> is_Some (tables s !! t) -> (forall s', I O P V s' -> quiet s s' -> fruns (k tt) s' Q) -> fruns (x ← vfs_fd_install t fd p; k x) s Q.
Proof. intros H HV Ht HQ. eapply put_slot; try done. intros q. unfold used. cbn [tally]. destruct (decide (q = p)) as [->|Hne]; [rewrite decide_True by done; lia|rewrite decide_False by congruence; lia]. Qed.

(** A slot in use gets another value. *)
Lemma swap_slot {Y} O P P' V s t x fd v p (k : unit -> F Y) Q : I O P V s -> tables s !! t = Some x -> t_slots x !! fd = Some (Used p) -> v <> Reserved -> (forall q, tally q P' + used q v = tally q (p :: P)) ->
  (forall s', s' = set_tables (<[t := mkTable (<[fd := v]> (t_slots x)) (t_refs x)]> (tables s)) s -> I O P' V s' -> quiet s s' -> fruns (k tt) s' Q) -> fruns (x ← set_slot t fd v; k x) s Q.
Proof.
  intros H Hx Hold Hv HP HQ. destruct (set_slot_I base O P P' V V s t x fd v (Used p) H Hx Hold) as [E1 E2].
  - intros q. rewrite HP. cbn [tally]. unfold used. destruct (decide (q = p)) as [->|Hne]; [rewrite decide_True by done; lia|rewrite decide_False by congruence; lia].
  - intros t' fd'. case_decide as Ed; [|done]. injection Ed as -> ->. split; [|by intros]. intros Hin. destruct H as [_ T]. apply (v_slot _ _ T t x fd Hx) in Hin. congruence.
  - eapply f_bind, f_val; [exact E1|]. apply HQ; [done|done|by eapply quiet_set].
Qed.

Lemma close_run {Y} O P V s p (k : unit -> F Y) Q : I O (p :: P) V s ->
  (forall s', I O P V s' -> same s s' -> modes s s' -> (forall q, q <> p -> files s' !! q = files s !! q) -> (refs s p + tally p P = 0 -> files s' = delete p (files s)) -> fruns (k tt) s' Q) -> fruns (x ← file_close p; k x) s Q.
Proof. intros H HQ. eapply f_seq; [by apply close_I|]. intros [] s' (H1 & H2 & H3 & H4 & H5 & _). by apply HQ. Qed.

Lemma close_end O P V s p : I O (p :: P) V s -> fruns (file_close p) s (fun _ s' => I O P V s' /\ same s s' /\ modes s s').
Proof. intros H. eapply f_mono; [by apply close_I|]. intros [] s' (H1 & H2 & H3 & _). done. Qed.

Lemma close_all O P V l : forall s, I O (l ++ P) V s -> fruns (each file_close l) s (fun _ s' => I O P V s' /\ same s s' /\ modes s s').
Proof.
  induction l as [|p l IH]; intros s H; cbn [each]; [apply f_ret; split; [done|]; split; [done|apply modes_refl]|]. eapply (close_run O (l ++ P)); [exact H|]. intros s1 H1 [S1 S2] M _ _.
  eapply f_mono; [by apply IH|]. intros [] s2 (H3 & [S3 S4] & M2). split; [done|]. split; [split; congruence|by eapply modes_trans].
Qed.

(** The file of a slot in use. *)
Lemma slot_file O P V s t x fd p : I O P V s -> tables s !! t = Some x -> t_slots x !! fd = Some (Used p) -> 0 < refs s p /\ exists f, files s !! p = Some f.
Proof.
  intros [C T] Hx Hs. assert (Hr : 0 < refs s p).
  { unfold refs. pose proof (msum_le (slot_refs p) (tables s) t x (fun y => tally_nonneg _ _) Hx) as H1. assert (H2 : 0 < slot_refs p x) by (apply tally_in; by eapply list_elem_of_lookup_2). pose proof (msum_nonneg (fun x => tally p (p_borrows x)) (procs s) (fun y => tally_nonneg _ _)). lia. }
  split; [done|]. eapply held_file; [exact C|]. pose proof (tally_nonneg p P). lia.
Qed.
(** ** Borrowed files *)

Lemma put_proc_I O P P' V s pr x y : I O P V s -> procs s !! pr = Some x -> p_table y = p_table x -> (forall p, tally p P' + tally p (p_borrows y) = tally p P + tally p (p_borrows x)) ->
  NoDup (p_borrows y) -> (length (p_borrows y) <= VFS_FD_MAX)%nat -> (p_active y = false -> p_borrows y = []) -> I O P' V (set_procs (<[pr := y]> (procs s)) s).
Proof.
  intros [C T] Hx Ht HP Hnd Hlen Hact. set (s' := set_procs _ s). assert (Hr : forall p, refs s' p = refs s p + tally p (p_borrows y) - tally p (p_borrows x)) by (intros p; unfold refs; cbn [tables procs s' set_procs]; rewrite (msum_update _ _ _ x) by done; lia). split.
  - destruct C as [C1 C2 C3 C4 C5 C6]. split; try done; cbn [files s' set_procs].
    + intros p f Hp. destruct (C1 p f Hp) as [H1 H2]. split; [|done]. rewrite Hr. specialize (HP p). lia.
    + intros p Hp. rewrite Hr. specialize (HP p). specialize (C2 p Hp). lia.
  - destruct T as [T1 T2 T3]. split; [|done|]; cbn [tables procs s' set_procs].
    + intros t z Hz. rewrite (msum_update _ _ _ x) by done. assert (E : in_table t y = in_table t x) by (unfold in_table; by rewrite Ht). destruct (T1 t z Hz) as (H1 & H2 & H3). split; [done|]. split; [lia|done].
    + intros pr' z Hz. destruct (decide (pr' = pr)) as [->|Hne]; [|rewrite lookup_insert_ne in Hz by done; by apply (T3 pr')]. rewrite lookup_insert_eq in Hz. injection Hz as <-. rewrite Ht. split; [done|]. split; [done|]. split; [done|]. by apply (T3 pr x).
Qed.

Lemma keeps_proc s pr x y : procs s !! pr = Some x -> p_table y = p_table x -> p_active y = p_active x -> keeps s (set_procs (<[pr := y]> (procs s)) s).
Proof.
  intros Hx Ht Ha. split; [by apply modes_flags| |done]. cbn. intros pr' z Hz. destruct (decide (pr' = pr)) as [->|Hne]; [rewrite lookup_insert_eq; exists y; by assert (z = x) as -> by congruence|rewrite lookup_insert_ne by done; by exists z].
Qed.

Lemma borrow_run O P V s pr x p : I O (p :: P) V s -> procs s !! pr = Some x -> p_active x = true -> 0 < refs s p ->
  fruns (borrow_register pr p) s (fun _ s' => I O P V s' /\ keeps s s' /\ tables s' = tables s).
Proof.
  intros H Hx Ha Hr. unfold borrow_register. eapply f_proc; [exact Hx|]. rewrite Ha. cbn [negb]. assert (Hcl : forall b : bool, fruns (file_close p;; mret b) s (fun _ s' => I O P V s' /\ keeps s s' /\ tables s' = tables s)).
  { intros b. eapply (close_run O P); [exact H|]. intros s' H1 S1 M1 _ _. apply f_ret. split; [done|]. split; [by apply keeps_same|apply S1]. }
  case_bool_decide as Hin; [apply Hcl|]. destruct (Nat.leb_spec VFS_FD_MAX (length (p_borrows x))); [apply Hcl|]. eapply f_bind, f_val; [reflexivity|]. apply f_ret. pose proof H as [_ T]. destruct (v_proc _ _ T pr x Hx) as (Hnd & Hlen & _).
  split; [|split; [by eapply keeps_proc|done]]. eapply put_proc_I; [exact H|exact Hx|done| | | |done]; cbn [p_borrows].
  - intros q. rewrite tally_app. cbn [tally]. case_decide; lia.
  - apply NoDup_app. split; [done|]. split; [|apply NoDup_singleton]. intros y Hy Hp. apply list_elem_of_singleton in Hp as ->. done.
  - rewrite length_app. cbn. lia.
Qed.

Definition table_of (s : fdst) (pr t : nat) : Prop := exists x, procs s !! pr = Some x /\ p_table x = Some t.

Lemma table_keeps s s' pr t : keeps s s' -> table_of s pr t -> table_of s' pr t.
Proof. intros K (x & Hx & Ht). destruct (k_procs _ _ K pr x Hx) as (y & Hy & E & _). exists y. split; [done|congruence]. Qed.

Lemma table_some O P V s pr t : I O P V s -> table_of s pr t -> is_Some (tables s !! t).
Proof. intros [_ T] (x & Hx & Ht). by apply (v_proc _ _ T pr x Hx). Qed.

Lemma cur_run {Y} s pr t (k : nat -> F Y) Q : table_of s pr t -> fruns (k t) s Q -> fruns (t ← cur_fds pr; k t) s Q.
Proof. intros (x & Hx & Ht) Hk. apply f_bind. unfold cur_fds. eapply f_proc; [exact Hx|]. rewrite Ht. by apply f_ret. Qed.

Lemma slot_run {Y} s t x fd (k : slot -> F Y) Q : tables s !! t = Some x -> fruns (k (aget Free (t_slots x) (Z.to_nat fd))) s Q -> fruns (v ← slot_of t fd; k v) s Q.
Proof. intros Hx Hk. apply f_bind. unfold slot_of. eapply f_table; [exact Hx|]. by apply f_ret. Qed.

Lemma aget_used l i p : aget Free l i = Used p -> l !! i = Some (Used p).
Proof. unfold aget. destruct (l !! i) as [v|]; [intros H; cbn in H; by rewrite H|done]. Qed.

(** The file of a descriptor stays while the call uses it. *)
Lemma get_run {Y} O P V s pr t fd (k : option nat -> F Y) Q : I O P V s -> table_of s pr t ->
  (forall s' r, I O P V s' -> keeps s s' -> tables s' = tables s -> (forall p, r = Some p -> in_range fd = true /\ exists x, tables s !! t = Some x /\ t_slots x !! Z.to_nat fd = Some (Used p)) -> fruns (k r) s' Q) ->
  fruns (r ← fd_get pr fd; k r) s Q.
Proof.
  intros H Ht HQ. apply f_bind. unfold fd_get. destruct (in_range fd) eqn:Hin; cbn [negb]; [|apply f_ret, HQ; [done|apply keeps_refl|done|done]]. eapply cur_run; [exact Ht|]. destruct (table_some _ _ _ _ _ _ H Ht) as [x Hx]. eapply slot_run; [exact Hx|].
  destruct (aget Free (t_slots x) (Z.to_nat fd)) as [| |p] eqn:Es; [apply f_ret, HQ; [done|apply keeps_refl|done|done]..|]. apply aget_used in Es. destruct (slot_file _ _ _ _ _ _ _ _ H Hx Es) as [Hr [f Hf]]. eapply f_file; [exact Hf|].
  destruct Ht as (y & Hy & Ht). eapply f_proc; [exact Hy|]. destruct (p_active y) eqn:Ha; [|apply f_ret, HQ; [done|apply keeps_refl|done|intros q [= <-]; split; [done|by exists x]]]. eapply f_bind, f_val; [reflexivity|].
  set (s1 := set_files _ s). assert (H1 : I O (p :: P) V s1).
  { destruct H as [C T]. split; [|by apply (same_tinv V s)]. destruct (c_file _ _ _ _ C p f Hf) as (E & Hpos & Hk & _). eapply (cinv_file base O O P); try done; cbn [with_refs f_refs]; [intros q Hq; cbn; by rewrite decide_False|cbn; rewrite decide_True by done; lia|lia]. }
  eapply f_seq; [by apply (borrow_run O P V s1 pr y p H1)|]. intros b s2 (H2 & K2 & T2). apply f_ret. apply HQ; [done| |done|].
  - eapply keeps_trans; [|exact K2]. by apply keeps_same; [|apply modes_flags].
  - intros q Hq. destruct b; [|done]. injection Hq as <-. split; [done|by exists x].
Qed.

Lemma begin_run O P V s pr x : I O P V s -> procs s !! pr = Some x -> p_active x = false -> fruns (vfs_syscall_borrow_begin pr) s (fun _ s' => I O P V s' /\ modes s s').
Proof.
  intros H Hx Ha. unfold vfs_syscall_borrow_begin. eapply f_proc; [exact Hx|]. eapply f_val; [reflexivity|]. pose proof H as [_ T]. destruct (v_proc _ _ T pr x Hx) as (_ & _ & Hb & _). split; [|by apply modes_flags]. eapply put_proc_I; [exact H|exact Hx|done| |constructor|cbn; lia|done]. by rewrite Hb.
Qed.

Lemma end_run O P V s pr x : I O P V s -> procs s !! pr = Some x -> fruns (vfs_syscall_borrow_end pr) s (fun _ s' => I O P V s' /\ modes s s' /\ tables s' = tables s /\ procs s' = <[pr := mkProc (p_table x) [] false]> (procs s)).
Proof.
  intros H Hx. unfold vfs_syscall_borrow_end. eapply f_proc; [exact Hx|]. pose proof H as [_ T]. destruct (v_proc _ _ T pr x Hx) as (_ & _ & Hb & _). destruct (p_active x) eqn:Ha; cbn [negb].
  - eapply f_bind, f_val; [reflexivity|]. set (s1 := set_procs _ s). assert (H1 : I O (p_borrows x ++ P) V s1) by (eapply put_proc_I; [exact H|exact Hx|done| |constructor|cbn; lia|done]; intros p; rewrite tally_app; cbn; lia).
    eapply f_mono; [by apply close_all|]. intros [] s' (H2 & [S1 S2] & M). split; [done|]. split; [exact M|]. split; [by rewrite S1|by rewrite S2].
  - apply f_ret. split; [done|]. split; [apply modes_refl|]. split; [done|]. rewrite insert_id; [done|]. rewrite Hx. specialize (Hb eq_refl). destruct x as [a b c]. cbn in *. by subst.
Qed.
(** ** Objects and new descriptors *)

Lemma counts_I O O' P V s c : I O P V s -> (forall o, tally o O' = tally o O + c o - counts s o) -> (forall o i, own o = Some i -> (fresh s <= i)%nat -> c o = 0) -> I O' P V (set_counts c s).
Proof.
  intros [C T] HO Ho. split; [|by apply (same_tinv V s)]. destruct C as [C1 C2 C3 C4 C5 C6]. split; try done; cbn [counts set_counts]. intros o. specialize (HO o). specialize (C4 o). change (files (set_counts _ s)) with (files s). lia.
Qed.

Lemma count_I O O' P V s o z : I O P V s -> (forall o', tally o' O' = tally o' O + (if decide (o' = o) then z - counts s o else 0)) -> (forall i, own o = Some i -> (i < fresh s)%nat) ->
  I O' P V (set_counts (fun o' => if decide (o' = o) then z else counts s o') s).
Proof.
  intros H HO Ho. eapply counts_I; [exact H| |].
  - intros o'. specialize (HO o'). case_decide; [subst|]; lia.
  - intros o' i Hi Hf. case_decide as E; [subst; specialize (Ho i Hi); lia|]. destruct H as [C _]. by apply (c_own _ _ _ _ C o' i).
Qed.

Lemma ref_I O P V s o : I O P V s -> (forall i, own o = Some i -> (i < fresh s)%nat) -> I (o :: O) P V (bump o 1 s).
Proof. intros H Ho. eapply count_I; [exact H| |done]. intros o'. cbn [tally]. case_decide; [subst|]; lia. Qed.

Lemma keeps_count s c : keeps s (set_counts c s).
Proof. by apply keeps_same; [|apply modes_flags]. Qed.

(** A new file gets what it stands for, and its flags. *)
Lemma fill_I L O P V s q d f flags : I (L ++ O) (q :: P) V s -> files s !! q = Some (blank d) -> descs s !! d = Some (mkDesc 0 0 1) -> addref_list f = L -> kind_ok f -> f_desc f = Some d -> f_refs f = 1 ->
  I O (q :: P) V (set_descs (<[d := mkDesc 0 flags 1]> (descs s)) (set_files (<[q := f]> (files s)) s)).
Proof.
  intros [C T] Hq Hd HL Hk Hfd Hr. split; [|by apply (same_tinv V s)]. destruct (c_file _ _ _ _ C q _ Hq) as (E & Hpos & _). cbn [f_refs blank] in E, Hpos.
  eapply (cinv_desc base O (q :: P) (set_files (<[q := f]> (files s)) s) d (mkDesc 0 0 1)); [|done|done]. eapply (cinv_file base (L ++ O) O (q :: P) (q :: P)); try done; [|lia|lia].
  intros o. unfold holds. rewrite HL, tally_app. change (addref_list (blank d)) with (@nil obj). cbn [tally]. lia.
Qed.

Lemma fill_modes s0 s d q f flags : modes s0 s -> (fresh s0 <= d)%nat -> modes s0 (set_descs (<[d := mkDesc 0 flags 1]> (descs s)) (set_files (<[q := f]> (files s)) s)).
Proof. intros [H1 H2] Hd. split; [done|]. cbn. intros e x He Hf. rewrite lookup_insert_ne in He by lia. by apply H2. Qed.

Lemma install_new_run L O P V s t fd flags make undo : I (L ++ O) P ((t, fd) :: V) s -> (t, fd) ∉ V -> is_Some (tables s !! t) -> (forall d, addref_list (make (blank d)) = L /\ kind_ok (make (blank d)) /\ f_desc (make (blank d)) = Some d /\ f_refs (make (blank d)) = 1) ->
  (forall s', I (L ++ O) P V s' -> keeps s s' -> counts s' = counts s -> fruns undo s' (fun _ s'' => I O P V s'' /\ keeps s' s'')) -> fruns (install_new room t fd flags make undo) s (fun _ s' => I O P V s' /\ keeps s s').
Proof.
  intros H HV Ht Hmk Hun. unfold install_new. eapply (file_alloc_I base room (L ++ O) P); [exact H| |].
  - intros s1 H1 S1 M1 _ Ec. pose proof (keeps_same _ _ S1 M1) as K1. eapply clear_slot; [exact H1|done|by apply K1|]. intros s2 H2 Q2. pose proof (keeps_trans _ _ _ K1 (quiet_keeps _ _ Q2)) as K2.
    eapply f_seq; [apply Hun; [exact H2|exact K2|by rewrite (q_counts _ _ Q2)]|]. intros [] s3 [H3 K3]. apply f_ret. split; [done|by eapply keeps_trans].
  - intros s1 q d H1 S1 M1 Hq Hf Hd Hdf Ec _. assert (Hq1 : files s1 !! q = Some (blank d)) by (rewrite Hf; apply lookup_insert_eq). eapply f_file; [exact Hq1|]. eapply f_bind, f_val; [reflexivity|]. cbn [f_desc blank]. eapply f_bind, f_desc_; [exact Hd|]. eapply f_val; [reflexivity|].
    destruct (Hmk d) as (E1 & E2 & E3 & E4). pose proof (fill_I L O P _ s1 q d (make (blank d)) flags H1 Hq1 Hd E1 E2 E3 E4) as H2. pose proof (fill_modes s s1 d q (make (blank d)) flags M1 Hdf) as M2. cbn [d_pos d_refs]. set (s2 := set_descs _ _) in *.
    assert (K2 : keeps s s2) by (by apply keeps_same). eapply install_slot; [exact H2|done|by apply K2|]. intros s3 H3 Q3. apply f_ret. split; [done|]. eapply keeps_trans; [exact K2|by apply quiet_keeps].
Qed.

Lemma fd_new_run P V s pr t c flags make : I [] P V s -> table_of s pr t -> (forall e, own (c e) = Some e) -> (forall e d, addref_list (make e (blank d)) = [c e] /\ kind_ok (make e (blank d)) /\ f_desc (make e (blank d)) = Some d /\ f_refs (make e (blank d)) = 1) ->
  fruns (fd_new room pr c flags make) s (fun _ s' => I [] P V s' /\ keeps s s').
Proof.
  intros H Ht Hc Hmk. unfold fd_new. apply kalloc_run. pose proof (keeps_same s (next s) (conj eq_refl eq_refl) (next_modes s)) as K1. intros r [->| ->]; [apply f_ret; split; [by apply next_I|done]|]. set (e := fresh s). eapply f_bind, f_val; [reflexivity|].
  assert (Hz : counts s (c e) = 0) by (destruct H as [C _]; by apply (c_own _ _ _ _ C _ e)). set (s1 := set_counts _ (next s)). assert (Hc1 : counts s1 (c e) = 1) by (cbn; by rewrite decide_True).
  assert (H1 : I [c e] P V s1) by (apply (count_I [] [c e]); [by apply next_I| |intros i Hi; rewrite Hc in Hi; injection Hi as <-; cbn; lia]; intros o; cbn [tally counts next]; case_decide as E; [subst; lia|lia]).
  assert (K2 : keeps s s1) by (eapply keeps_trans; [exact K1|apply keeps_count]).
  assert (Hundo : forall s2 V', I [c e] P V' s2 -> (fresh s1 <= fresh s2)%nat -> counts s2 (c e) = 1 -> I [] P V' (set_counts (fun o' => if decide (o' = c e) then 0 else counts s2 o') s2)).
  { intros s2 V' H2 Hf E. apply (count_I [c e] []); [done| |intros i Hi; rewrite Hc in Hi; injection Hi as <-; cbn in Hf; lia]. intros o. cbn [tally]. case_decide; lia. }
  pose proof (table_keeps _ _ _ _ K2 Ht) as Ht1. eapply cur_run; [exact Ht1|]. destruct (table_some _ _ _ _ _ _ H1 Ht1) as [x Hx]. eapply alloc_slot; [exact H1|exact Hx| |].
  - eapply f_bind, f_val; [reflexivity|]. apply f_ret. split; [by apply Hundo|]. eapply keeps_trans; [exact K2|apply keeps_count].
  - intros fd _ _ s2 H2 Q2 HV. pose proof (keeps_trans _ _ _ K2 (quiet_keeps _ _ Q2)) as K3. eapply f_mono; [eapply (install_new_run [c e] [] P V); [exact H2|done|by apply (q_tables _ _ Q2); exists x|intros d; apply Hmk|]|].
    + intros s3 H3 K4 Ec. eapply f_val; [reflexivity|]. split; [|apply keeps_count]. apply Hundo; [done|apply K4|by rewrite Ec].
    + intros z s3 [H3 K4]. split; [done|by eapply keeps_trans].
Qed.
(** ** The calls *)

Definition done_ok {X} (V : list (nat * nat)) (s : fdst) (_ : X) (s' : fdst) : Prop := I [] [] V s' /\ keeps s s'.

Lemma ok_ret {X} V s (r : X) : I [] [] V s -> fruns (mret r) s (done_ok V s).
Proof. intros H. apply f_ret. split; [done|apply keeps_refl]. Qed.

Lemma ok_step {X} V s s1 (k : F X) : keeps s s1 -> fruns k s1 (done_ok V s1) -> fruns k s1 (done_ok V s).
Proof. intros K H. eapply f_mono; [exact H|]. intros x s' [H1 H2]. split; [done|by eapply keeps_trans]. Qed.

Lemma used_free q p (P : list nat) : tally q (p :: P) + used q Free = tally q (p :: P).
Proof. unfold used. rewrite decide_False by done. lia. Qed.

Lemma fd_close_run V s pr t fd : I [] [] V s -> table_of s pr t -> fruns (fd_close pr fd) s (done_ok V s).
Proof.
  intros H Ht. unfold fd_close. destruct (in_range fd); cbn [negb]; [|by apply ok_ret]. eapply cur_run; [exact Ht|]. destruct (table_some _ _ _ _ _ _ H Ht) as [x Hx]. eapply slot_run; [exact Hx|].
  destruct (aget Free (t_slots x) (Z.to_nat fd)) as [| |p] eqn:Es; [by apply ok_ret..|]. apply aget_used in Es. eapply (swap_slot [] [] [p]); [exact H|exact Hx|exact Es|done|intros q; apply used_free|]. intros s1 _ H1 Q1.
  eapply (close_run [] []); [exact H1|]. intros s2 H2 S2 M2 _ _. apply f_ret. split; [done|]. eapply keeps_trans; [by apply quiet_keeps|by apply keeps_same].
Qed.

Lemma fd_open_node_run V s pr t n flags : I [] [] V s -> table_of s pr t -> fruns (fd_open_node room pr n flags) s (done_ok V s).
Proof.
  intros H Ht. unfold fd_open_node. eapply cur_run; [exact Ht|]. destruct (table_some _ _ _ _ _ _ H Ht) as [x Hx]. eapply alloc_slot; [exact H|exact Hx|by apply ok_ret|]. intros fd _ _ s1 H1 Q1 HV. pose proof (quiet_keeps _ _ Q1) as K1.
  assert (Ht1 : is_Some (tables s1 !! t)) by (apply (q_tables _ _ Q1); by exists x). clearbody s1. apply (ok_step V s s1); [done|]. eapply (file_alloc_I base room [] []); [exact H1| |].
  - intros s2 H2 S2 M2 _ _. pose proof (keeps_same _ _ S2 M2) as K2. eapply clear_slot; [exact H2|done|by apply K2|]. intros s3 H3 Q3. apply f_ret. split; [done|]. eapply keeps_trans; [exact K2|by apply quiet_keeps].
  - intros s2 q d H2 S2 M2 Hq Hf Hd Hdf _ _. assert (Hq1 : files s2 !! q = Some (blank d)) by (rewrite Hf; apply lookup_insert_eq). eapply f_file; [exact Hq1|]. eapply f_bind, f_val; [reflexivity|]. cbn [f_desc blank]. eapply f_bind, f_desc_; [exact Hd|]. eapply f_val; [reflexivity|].
    eapply f_bind, f_val; [reflexivity|]. cbn [d_pos d_refs]. pose proof (ref_I [] [q] _ s2 (ONode n) H2 ltac:(done)) as H3. pose proof (fill_I [ONode n] [] [] _ (bump (ONode n) 1 s2) q d (with_node (Some n) (blank d)) flags H3 Hq1 Hd eq_refl ltac:(by left) eq_refl eq_refl) as H4.
    pose proof (fill_modes s1 (bump (ONode n) 1 s2) d q (with_node (Some n) (blank d)) flags M2 Hdf) as M4. set (s4 := set_descs _ _) in H4, M4. assert (K4 : keeps s1 s4) by (by apply keeps_same). change (fruns (vfs_fd_install t fd q;; mret (Z.of_nat fd)) s4 (done_ok V s1)).
    eapply install_slot; [exact H4|done|by apply K4|]. intros s5 H5 Q5. apply f_ret. split; [done|]. eapply keeps_trans; [exact K4|by apply quiet_keeps].
Qed.

(** A file changes its close-on-exec mark. *)
Lemma cloexec_I O P V s p f b : I O P V s -> files s !! p = Some f -> I O P V (set_files (<[p := with_cloexec b f]> (files s)) s) /\ keeps s (set_files (<[p := with_cloexec b f]> (files s)) s).
Proof.
  intros [C T] Hp. destruct (c_file _ _ _ _ C p f Hp) as (E & Hpos & Hk & _). split; [|by apply keeps_same; [|apply modes_flags]]. split; [|by apply (same_tinv V s)]. by eapply (cinv_file base O O P P).
Qed.

Lemma dup_from_run V s pr t p f start b : I [] [] V s -> table_of s pr t -> files s !! p = Some f -> fruns (dup_from room pr p start b) s (done_ok V s).
Proof.
  intros H Ht Hp. unfold dup_from. eapply cur_run; [exact Ht|]. destruct (table_some _ _ _ _ _ _ H Ht) as [x Hx]. eapply alloc_slot; [exact H|exact Hx|by apply ok_ret|]. intros fd _ _ s1 H1 Q1 HV. pose proof (quiet_keeps _ _ Q1) as K1.
  assert (Ht1 : is_Some (tables s1 !! t)) by (apply (q_tables _ _ Q1); by exists x). assert (Hp1 : files s1 !! p = Some f) by done. clearbody s1. apply (ok_step V s s1); [done|]. eapply (clone_I base Hbase room [] []); [exact H1|exact Hp1| |].
  - intros s2 H2 S2 M2 _. pose proof (keeps_same _ _ S2 M2) as K2. eapply clear_slot; [exact H2|done|by apply K2|]. intros s3 H3 Q3. apply f_ret. split; [done|]. eapply keeps_trans; [exact K2|by apply quiet_keeps].
  - intros s2 q H2 S2 Hq Hf M2. eapply f_file; [rewrite Hf; apply lookup_insert_eq|]. eapply f_bind, f_val; [reflexivity|]. destruct (cloexec_I _ _ _ s2 q (with_cloexec false (with_refs 1 f)) b H2) as [H3 K3]; [rewrite Hf; apply lookup_insert_eq|].
    assert (K4 : keeps s1 (set_files (<[q := with_cloexec b (with_cloexec false (with_refs 1 f))]> (files s2)) s2)) by (eapply keeps_trans; [by apply keeps_same|exact K3]).
    eapply install_slot; [exact H3|done|by apply K4|]. intros s5 H5 Q5. apply f_ret. split; [done|]. eapply keeps_trans; [exact K4|by apply quiet_keeps].
Qed.
(** Only the status flags can be changed. *)
Lemma setfl_mode fl arg : let changeable := Z.lor O_APPEND O_NONBLOCK in Z.land (Z.lor (Z.land fl (Z.lnot changeable)) (Z.land arg changeable)) O_ACCMODE = Z.land fl O_ACCMODE.
Proof.
  cbv zeta. rewrite Z.land_lor_distr_l, <- !Z.land_assoc. change (Z.land (Z.lnot (Z.lor O_APPEND O_NONBLOCK)) O_ACCMODE) with O_ACCMODE. change (Z.land (Z.lor O_APPEND O_NONBLOCK) O_ACCMODE) with 0. by rewrite Z.land_0_r, Z.lor_0_r.
Qed.

Lemma keeps_desc s d x y : descs s !! d = Some x -> mode_of y = mode_of x -> keeps s (set_descs (<[d := y]> (descs s)) s).
Proof.
  intros Hx Hy. apply keeps_same; [done|]. split; [done|]. cbn. intros e z Hz _. destruct (decide (e = d)) as [->|Hne]; [rewrite lookup_insert_eq in Hz; injection Hz as <-; by exists x|rewrite lookup_insert_ne in Hz by done; by exists z].
Qed.

Lemma the_desc_run {Y} O P V s p f (k : nat * fdesc -> F Y) Q : I O P V s -> files s !! p = Some f -> (forall d x, f_desc f = Some d -> descs s !! d = Some x -> fruns (k (d, x)) s Q) -> fruns (y ← the_desc f; k y) s Q.
Proof. intros [C _] Hp HQ. destruct (c_file _ _ _ _ C p f Hp) as (_ & _ & _ & d & Hd & [x Hx]). apply f_bind. unfold the_desc. rewrite Hd. eapply f_desc_; [exact Hx|]. apply f_ret. by apply HQ. Qed.

(** The file a descriptor led to is there. *)
Lemma got_file O P V s s' t x fd p : I O P V s' -> tables s' = tables s -> tables s !! t = Some x -> t_slots x !! fd = Some (Used p) -> exists f, files s' !! p = Some f.
Proof. intros H E Hx Hs. rewrite <- E in Hx. by destruct (slot_file _ _ _ _ _ _ _ _ H Hx Hs). Qed.

Lemma fd_fcntl_run V s pr t fd cmd arg : I [] [] V s -> table_of s pr t -> fruns (fd_fcntl room seal_call pr fd cmd arg) s (done_ok V s).
Proof.
  intros H Ht. unfold fd_fcntl. eapply get_run; [exact H|exact Ht|]. intros s1 r H1 K1 E1 Hr. apply (ok_step V s s1); [done|]. destruct r as [p|]; [|by apply ok_ret]. destruct (Hr p eq_refl) as (Hin & x & Hx & Hs). destruct (got_file _ _ _ _ _ _ _ _ _ H1 E1 Hx Hs) as [f Hf]. eapply f_file; [exact Hf|].
  destruct (cmd =? F_GETFD); [by apply ok_ret|]. destruct (cmd =? F_SETFD); [eapply f_bind, f_val; [reflexivity|]; apply f_ret; by apply cloexec_I|]. destruct (cmd =? F_GETFL); [eapply the_desc_run; [exact H1|exact Hf|]; intros d y _ _; by apply ok_ret|].
  destruct (cmd =? F_SETFL); [|destruct (_ || _); [destruct (_ <=? arg); [by apply ok_ret|]; eapply dup_from_run; [done|by eapply table_keeps|done]|destruct (_ || _); [by apply ok_ret|]; destruct (_ || _); by apply ok_ret]].
  cbv zeta. eapply the_desc_run; [exact H1|exact Hf|]. intros d y Hd Hy. eapply f_bind, f_val; [reflexivity|]. apply f_ret. split; [|eapply keeps_desc; [exact Hy|apply setfl_mode]]. destruct H1 as [C T]. split; [by eapply cinv_desc|by apply (same_tinv V s1)].
Qed.

(** The two descriptors lead to files that share a description and stand for the
    same object; no other slot has changed. *)
Definition shares (s : fdst) (t : nat) (oldfd newfd : Z) (s' : fdst) : Prop :=
  exists x p q f g, tables s !! t = Some x /\ tables s' = <[t := mkTable (<[Z.to_nat newfd := Used q]> (t_slots x)) (t_refs x)]> (tables s) /\ t_slots x !! Z.to_nat oldfd = Some (Used p) /\
    files s' !! p = Some f /\ files s' !! q = Some g /\ p <> q /\ f_desc g = f_desc f /\ addref_list g = addref_list f /\ f_cloexec g = false.

Lemma used_swap z q (P : list nat) : tally z P + used z (Used q) = tally z (q :: P).
Proof. unfold used. cbn [tally]. destruct (decide (z = q)) as [->|Hne]; [rewrite decide_True by done; lia|rewrite decide_False by congruence; lia]. Qed.

Lemma fd_replace_run V s t y p q f oldfd newfd : I [] [q] V s -> tables s !! t = Some y -> in_range newfd = true -> Z.to_nat oldfd <> Z.to_nat newfd -> t_slots y !! Z.to_nat oldfd = Some (Used p) ->
  files s !! p = Some f -> files s !! q = Some (with_cloexec false (with_refs 1 f)) -> p <> q ->
  fruns (r ← vfs_fd_replace t (Z.to_nat newfd) q;
         match r with
         | None => file_close q;; mret (- EBUSY)
         | Some old => match old with Some o => file_close o | None => mret tt end;; mret newfd
         end) s (fun r s' => done_ok V s r s' /\ (0 <= r -> shares s t oldfd newfd s')).
Proof.
  intros H Hy Hrange Hne Hold Hp Hq Hpq. unfold in_range in Hrange. apply andb_prop in Hrange as [Hr0%Z.leb_le Hr1%Z.ltb_lt]. assert (Hlen : length (t_slots y) = VFS_FD_MAX) by (destruct H as [_ T2]; by apply (v_table _ _ T2 t y)).
  destruct (lookup_lt_is_Some_2 (t_slots y) (Z.to_nat newfd)) as [v Hv]; [lia|]. unfold vfs_fd_replace. apply f_bind. eapply slot_run; [exact Hy|]. rewrite Nat2Z.id, (aget_Some _ _ _ _ Hv). destruct v as [| |o].
  - destruct (set_slot_I base [] [q] [] V V s t y (Z.to_nat newfd) (Used q) Free H Hy Hv) as [E3 H3].
    + intros z. rewrite used_swap. unfold used. rewrite decide_False by done. lia.
    + intros t' fd'. case_decide as Ed; [|done]. injection Ed as -> ->. split; [|done]. intros Hin. destruct H as [_ T]. apply (v_slot _ _ T t y _ Hy) in Hin. congruence.
    + eapply f_bind, f_val; [exact E3|]. apply f_ret. eapply f_bind, f_ret. apply f_ret. split; [split; [done|]; apply quiet_keeps; by eapply quiet_set|]. intros _. by exists y, p, q, f, (with_cloexec false (with_refs 1 f)).
  - apply f_ret. eapply (close_run [] []); [exact H|]. intros s3 H3 S3 M3 _ _. apply f_ret. split; [split; [done|by apply keeps_same]|]. unfold EBUSY. lia.
  - eapply (swap_slot [] [q] [o]); [exact H|exact Hy|exact Hv|done| |].
    + intros z. rewrite used_swap. cbn [tally]. lia.
    + intros s3 E3 H3 Q3. apply f_ret. eapply f_seq; [by apply close_I|]. intros [] s4 (H4 & [S1 S2] & M4 & _ & _ & Hsub). apply f_ret. split; [split; [done|]; eapply keeps_trans; [by apply quiet_keeps|by apply keeps_same]|]. intros _.
      assert (T4 : tables s4 = <[t := mkTable (<[Z.to_nat newfd := Used q]> (t_slots y)) (t_refs y)]> (tables s)) by (rewrite S1, E3; done). assert (Hy4 : tables s4 !! t = Some (mkTable (<[Z.to_nat newfd := Used q]> (t_slots y)) (t_refs y))) by (rewrite T4; apply lookup_insert_eq).
      destruct (slot_file _ _ _ s4 t _ (Z.to_nat oldfd) p H4 Hy4) as [_ [f4 Hf4]]; [cbn [t_slots]; by rewrite list_lookup_insert_ne|]. destruct (slot_file _ _ _ s4 t _ (Z.to_nat newfd) q H4 Hy4) as [_ [g4 Hg4]]; [cbn [t_slots]; apply list_lookup_insert_eq; lia|].
      destruct (Hsub p f4 Hf4) as (f3 & Hf3 & Ef). destruct (Hsub q g4 Hg4) as (g3 & Hg3 & Eg). rewrite (q_files _ _ Q3), Hp in Hf3. rewrite (q_files _ _ Q3), Hq in Hg3. injection Hf3 as <-. injection Hg3 as <-. exists y, p, q, f4, g4. do 6 (split; [done|]). by rewrite Ef, Eg.
Qed.

Lemma fd_dup2_spec V s pr t oldfd newfd : I [] [] V s -> table_of s pr t -> fruns (fd_dup2 room pr oldfd newfd) s (fun r s' => done_ok V s r s' /\ (0 <= r -> oldfd <> newfd -> shares s t oldfd newfd s')).
Proof.
  intros H Ht. unfold fd_dup2. destruct (Z.eqb_spec oldfd newfd) as [E|Hne]; [eapply get_run; [exact H|exact Ht|]; intros s1 r H1 K1 _ _; by apply f_ret; split|]. eapply get_run; [exact H|exact Ht|]. intros s1 r H1 K1 E1 Hr. assert (Hneg : forall z, z < 0 -> fruns (mret z) s1 (fun r s' => done_ok V s r s' /\ (0 <= r -> oldfd <> newfd -> shares s t oldfd newfd s'))) by (intros z Hz; apply f_ret; split; [done|lia]).
  destruct r as [p|]; [|by apply Hneg].
  destruct (in_range newfd) eqn:Hrange; cbn [negb]; [|by apply Hneg]. destruct (Hr p eq_refl) as (Hin & x & Hx & Hs). destruct (got_file _ _ _ _ _ _ _ _ _ H1 E1 Hx Hs) as [f Hf]. pose proof (table_keeps _ _ _ _ K1 Ht) as Ht1.
  eapply (clone_I base Hbase room [] []); [exact H1|exact Hf|intros s2 H2 S2 M2 _; apply f_ret; split; [split; [done|]; eapply keeps_trans; [exact K1|by apply keeps_same]|unfold ENOMEM; lia]|]. intros s2 q H2 S2 Hq Hf2 M2. pose proof (keeps_same _ _ S2 M2) as K2.
  eapply cur_run; [by eapply table_keeps|]. assert (T2 : tables s2 = tables s) by (destruct S2 as [-> _]; done). assert (Hpq : p <> q) by congruence.
  assert (Hnn : Z.to_nat oldfd <> Z.to_nat newfd) by (unfold in_range in *; apply andb_prop in Hin as [?%Z.leb_le _], Hrange as [?%Z.leb_le _]; lia).
  eapply f_mono; [apply (fd_replace_run V s2 t x p q f oldfd newfd H2); try done; [by rewrite T2|rewrite Hf2, lookup_insert_ne; [done|congruence]|rewrite Hf2; apply lookup_insert_eq]|]. intros r s' [[H3 K3] Hsh]. split; [split; [done|]; eapply keeps_trans; [exact K1|by eapply keeps_trans]|].
  intros Hr' _. destruct (Hsh Hr') as (y & a & b & g1 & g2 & Hy & Ht' & Hrest). exists y, a, b, g1, g2. rewrite T2 in Hy, Ht'. done.
Qed.

Lemma fd_dup2_run V s pr t oldfd newfd : I [] [] V s -> table_of s pr t -> fruns (fd_dup2 room pr oldfd newfd) s (done_ok V s).
Proof. intros H Ht. eapply f_mono; [by eapply fd_dup2_spec|]. by intros r s' [H1 _]. Qed.

Lemma fd_dup3_run V s pr t oldfd newfd flags : I [] [] V s -> table_of s pr t -> fruns (fd_dup3 room pr oldfd newfd flags) s (done_ok V s).
Proof.
  intros H Ht. unfold fd_dup3. destruct (_ =? _); [by apply ok_ret|]. destruct (ztrue _); [by apply ok_ret|]. eapply f_seq; [by eapply fd_dup2_run|]. intros r s1 [H1 K1]. apply (ok_step V s s1); [done|]. destruct (0 <=? r); [|by apply ok_ret].
  eapply get_run; [exact H1|by eapply table_keeps|]. intros s2 g H2 K2 E2 Hg. apply (ok_step V s1 s2); [done|]. destruct g as [p|]; [|eapply f_bind, f_ret; by apply ok_ret]. destruct (Hg p eq_refl) as (_ & x & Hx & Hs). destruct (got_file _ _ _ _ _ _ _ _ _ H2 E2 Hx Hs) as [f Hf].
  eapply f_bind, f_file; [exact Hf|]. eapply f_val; [reflexivity|]. apply f_ret. by apply cloexec_I.
Qed.

Lemma fd_eventfd_run V s pr t flags : I [] [] V s -> table_of s pr t -> fruns (fd_eventfd room pr flags) s (done_ok V s).
Proof. intros H Ht. eapply (fd_new_run [] V s pr t OEvent); [done|done|done|]. intros e d. done. Qed.

Lemma fd_timerfd_run V s pr t flags : I [] [] V s -> table_of s pr t -> fruns (fd_timerfd_create room pr flags) s (done_ok V s).
Proof. intros H Ht. eapply (fd_new_run [] V s pr t OTimer); [done|done|done|]. intros e d. done. Qed.

Lemma fd_signalfd_run V s pr t fd flags : I [] [] V s -> table_of s pr t -> fruns (fd_signalfd room pr fd flags) s (done_ok V s).
Proof.
  intros H Ht. unfold fd_signalfd. destruct (ztrue _); [by apply ok_ret|]. destruct (0 <=? fd); [|eapply (fd_new_run [] V s pr t OSignal); [done|done|done|]; intros e d; done].
  eapply get_run; [exact H|exact Ht|]. intros s1 r H1 K1 E1 Hr. apply (ok_step V s s1); [done|]. destruct r as [p|]; [|by apply ok_ret]. destruct (Hr p eq_refl) as (Hin & x & Hx & Hs). destruct (got_file _ _ _ _ _ _ _ _ _ H1 E1 Hx Hs) as [f Hf]. eapply f_file; [exact Hf|]. by apply ok_ret.
Qed.
(** ** Pipes *)

Lemma pipe_free_run {Y} L O' P V s p (k : unit -> F Y) Q : I L P V s -> (p < fresh s)%nat -> (forall o, tally o O' = tally o L - (if decide (o = OReader p \/ o = OWriter p) then counts s o else 0)) ->
  (forall s', I O' P V s' -> keeps s s' -> (forall o, o <> OReader p -> o <> OWriter p -> counts s' o = counts s o) -> fresh s' = fresh s -> fruns (k tt) s' Q) -> fruns (x ← pipe_free p; k x) s Q.
Proof.
  intros H Hp HO HQ. eapply f_bind, f_bind, f_val; [reflexivity|]. eapply f_val; [reflexivity|]. set (c := fun o' => if decide (o' = OWriter p) then 0 else if decide (o' = OReader p) then 0 else counts s o'). apply (HQ (set_counts c s)); [|apply keeps_count|intros o H1 H2; cbn; unfold c; by rewrite !decide_False|done].
  eapply counts_I; [exact H| |].
  - intros o. rewrite HO. unfold c. destruct (decide (o = OWriter p)); [rewrite decide_True by (by right); lia|]. destruct (decide (o = OReader p)); [rewrite decide_True by (by left); lia|rewrite decide_False by (by intros [?|?]); lia].
  - intros o i Ho Hi. unfold c. destruct (decide _); [done|]. destruct (decide _); [done|]. destruct H as [C _]. by apply (c_own _ _ _ _ C o i).
Qed.

(** A new pipe, with a reference to each end. *)
Lemma pipe_new_I O P V s p : I O P V s -> (p < fresh s)%nat -> counts s (OReader p) = 0 -> counts s (OWriter p) = 0 ->
  let s' := bump (OWriter p) 1 (bump (OReader p) 1 s) in I (OWriter p :: OReader p :: O) P V s' /\ keeps s s' /\ counts s' (OReader p) = 1 /\ counts s' (OWriter p) = 1 /\ (forall o, o <> OReader p -> o <> OWriter p -> counts s' o = counts s o).
Proof.
  intros H Hp H1 H2 s'. split; [|split; [eapply keeps_trans; apply keeps_count|]]. { apply ref_I; [apply ref_I; [done|]|]; intros i [= <-]; done. }
  unfold s'. split; [|split]; [..|intros o Ho1 Ho2]; rewrite !bump_counts; repeat case_decide; try done; lia.
Qed.

(** The ends of pipes of a new file. *)
Lemma set_pipes_run {Y} L O P V s q d rd re wr flags (k : unit -> F Y) Q : I (L ++ O) (q :: P) V s -> files s !! q = Some (blank d) -> descs s !! d = Some (mkDesc 0 0 1) ->
  let f := mkFile None (Some d) rd re wr false None None None None None 1 in addref_list f = L -> kind_ok f ->
  (let s' := set_descs (<[d := mkDesc 0 flags 1]> (descs s)) (set_files (<[q := f]> (files s)) s) in I O (q :: P) V s' -> fruns (k tt) s' Q) -> fruns (set_pipes q rd re wr;; x ← set_flags q flags; k x) s Q.
Proof.
  intros H Hq Hd f HL Hk HQ. unfold set_pipes, set_flags. eapply f_bind, f_file; [exact Hq|]. eapply f_val; [reflexivity|]. eapply f_bind, f_file; [apply lookup_insert_eq|]. unfold the_desc. cbn [f_desc blank]. apply f_bind. eapply f_desc_; [exact Hd|]. apply f_ret. eapply f_val; [reflexivity|].
  apply HQ. by eapply fill_I.
Qed.

Lemma install_slot_at {Y} O P V s t x fd p (k : unit -> F Y) Q : I O (p :: P) ((t, fd) :: V) s -> (t, fd) ∉ V -> tables s !! t = Some x ->
  (let s' := set_tables (<[t := mkTable (<[fd := Used p]> (t_slots x)) (t_refs x)]> (tables s)) s in I O P V s' -> quiet s s' -> fruns (k tt) s' Q) -> fruns (x ← vfs_fd_install t fd p; k x) s Q.
Proof.
  intros H HV Hx HQ. eapply f_bind. unfold vfs_fd_install, set_slot. eapply f_table; [exact Hx|]. eapply f_val; [reflexivity|]. apply HQ; [|by eapply quiet_set].
  pose proof H as [_ T]. assert (Hold : t_slots x !! fd = Some Reserved) by (apply (v_slot _ _ T t x fd Hx); by left). eapply (set_slot_I base O (p :: P) P ((t, fd) :: V) V s t x fd (Used p) Reserved H Hx Hold).
  - intros q. unfold used. cbn [tally]. rewrite (decide_False (P := Used q = Reserved)) by done. destruct (decide (q = p)) as [->|Hne]; [rewrite decide_True by done; lia|rewrite decide_False by congruence; lia].
  - intros t' fd'. case_decide as Ed; [injection Ed as -> ->; by split|]. rewrite elem_of_cons. split; [by right|by intros [?|?]].
Qed.
(** The only reference to a file is dropped. *)
Lemma close_last {Y} O P V s p f (k : unit -> F Y) Q : I O (p :: P) V s -> files s !! p = Some f -> f_refs f = 1 ->
  (forall s', I O P V s' -> keeps s s' -> tables s' = tables s -> files s' = delete p (files s) -> (forall o, counts s' o = counts s o - holds o f) -> fruns (k tt) s' Q) -> fruns (x ← file_close p; k x) s Q.
Proof.
  intros H Hf Hr HQ. pose proof H as [C _]. destruct (c_file _ _ _ _ C p f Hf) as (Er & _). cbn [tally] in Er. rewrite decide_True in Er by done. eapply (close_run O P); [exact H|]. intros s1 I1 S1 M1 _ Hdel. specialize (Hdel ltac:(lia)).
  apply HQ; [done|by apply keeps_same|apply S1|done|]. intros o. destruct I1 as [C1 _]. rewrite (c_obj _ _ _ _ C1 o), (c_obj _ _ _ _ C o), Hdel, (msum_delete _ _ _ f) by done. lia.
Qed.

(** The file of the read end is closed again, and the pipe freed. *)
Lemma pipe_undo V s p rf f (r : Z + nat * nat) : I [OWriter p] [rf] V s -> files s !! rf = Some f -> f_refs f = 1 -> addref_list f = [OReader p] -> (p < fresh s)%nat -> counts s (OReader p) = 1 -> counts s (OWriter p) = 1 ->
  fruns (file_close rf;; pipe_free p;; mret r) s (done_ok V s).
Proof.
  intros H Hf Hr Ha Hp H1 H2. eapply (close_last [OWriter p] []); [exact H|exact Hf|exact Hr|]. intros s1 I1 K1 _ _ Hc. unfold holds in Hc. rewrite Ha in Hc.
  eapply (pipe_free_run [OWriter p] []); [exact I1|destruct (k_modes _ _ K1); lia| |intros s2 H2' K2 _ _; apply f_ret; split; [done|by eapply keeps_trans]].
  clear room is_sock seal_call. intros o. rewrite Hc. cbn [tally]. repeat case_decide; subst; try congruence; try tauto; lia.
Qed.

Lemma tally_two o p : tally o [] = tally o [OWriter p; OReader p] - (if decide (o = OReader p \/ o = OWriter p) then 1 else 0).
Proof. clear room is_sock seal_call. cbn [tally]. repeat case_decide; subst; try congruence; try tauto; lia. Qed.

Lemma pipe_drop V s p (r : Z + nat * nat) : I [OWriter p; OReader p] [] V s -> (p < fresh s)%nat -> counts s (OReader p) = 1 -> counts s (OWriter p) = 1 -> fruns (pipe_free p;; mret r) s (done_ok V s).
Proof.
  intros H Hp H1 H2. eapply (pipe_free_run [OWriter p; OReader p] []); [exact H|done| |intros s' H' K' _ _; by apply f_ret]. intros o. rewrite (tally_two o p). destruct (decide (o = OReader p \/ o = OWriter p)) as [[->| ->]|]; lia.
Qed.

(** The write end, once the read end is in its slot. *)
Lemma pipe_writer V s t x p rfd rf rfile : I [OWriter p] [] V s -> tables s !! t = Some x -> t_slots x !! rfd = Some (Used rf) -> files s !! rf = Some rfile -> f_refs rfile = 1 -> addref_list rfile = [OReader p] -> (p < fresh s)%nat -> counts s (OReader p) = 1 -> counts s (OWriter p) = 1 ->
  fruns (wfd ← fd_alloc_from t 0;
         match wfd with
         | None => vfs_fd_clear t rfd;; file_close rf;; pipe_free p;; mret (inl (- EMFILE))
         | Some wfd =>
             wf ← file_alloc room;
             match wf with
             | None => vfs_fd_clear t rfd;; vfs_fd_clear t wfd;; file_close rf;; pipe_free p;; mret (inl (- ENOMEM))
             | Some wf => set_pipes wf (Some p) false None;; set_flags wf O_WRONLY;; vfs_fd_install t wfd wf;; mret (inr (rfd, wfd))
             end
         end) s (done_ok V s).
Proof.
  intros H Hx Hs Hf Hr Ha Hp H1 H2. eapply alloc_slot; [exact H|exact Hx| |].
  - eapply (swap_slot [OWriter p] [] [rf]); [exact H|exact Hx|exact Hs|done|intros q; apply used_free|]. intros s1 E1 I1 Q1. apply (ok_step V s s1); [by apply quiet_keeps|]. subst s1. by eapply pipe_undo.
  - intros wfd _ Hfree s1 I1 Q1 HV. assert (Hne : wfd <> rfd) by congruence. assert (Hx1 : tables s1 !! t = Some (mkTable (<[wfd := Reserved]> (t_slots x)) (t_refs x))) by (unfold s1; cbn; by rewrite lookup_insert_eq).
    assert (Hs1 : t_slots (mkTable (<[wfd := Reserved]> (t_slots x)) (t_refs x)) !! rfd = Some (Used rf)) by (cbn; by rewrite list_lookup_insert_ne). apply (ok_step V s s1); [by apply quiet_keeps|].
    assert (Hf1 : files s1 !! rf = Some rfile) by done. assert (Hc1 : counts s1 = counts s) by done. assert (Hp1 : (p < fresh s1)%nat) by done. clearbody s1. set (x1 := mkTable _ _) in *. clearbody x1. eapply (file_alloc_I base room [OWriter p] []); [exact I1| |].
    + intros s2 I2 S2 M2 Ef Ec. pose proof (keeps_same _ _ S2 M2) as K2. apply (ok_step V s1 s2); [done|]. destruct S2 as [St _]. eapply (swap_slot [OWriter p] [] [rf]); [exact I2|by rewrite St|exact Hs1|done|intros q; apply used_free|].
      intros s3 _ I3 Q3. apply (ok_step V s2 s3); [by apply quiet_keeps|]. eapply clear_slot; [exact I3|done|apply (q_tables _ _ Q3); rewrite St; by exists x1|]. intros s4 I4 Q4. apply (ok_step V s3 s4); [by apply quiet_keeps|].
      assert (Ec4 : counts s4 = counts s1) by (by rewrite (q_counts _ _ Q4), (q_counts _ _ Q3)). eapply pipe_undo; [exact I4| |exact Hr|exact Ha| |by rewrite Ec4, Hc1|by rewrite Ec4, Hc1].
      * by rewrite (q_files _ _ Q4), (q_files _ _ Q3), Ef.
      * rewrite (q_fresh _ _ Q4), (q_fresh _ _ Q3). destruct M2. lia.
    + intros s2 q d I2 S2 M2 Hq Hfs Hd Hdf Ec _. eapply (set_pipes_run [OWriter p] []); [exact I2|rewrite Hfs; apply lookup_insert_eq|exact Hd|done|by left|]. intros s3 I3. pose proof (fill_modes s1 s2 d q (mkFile None (Some d) (Some p) false None false None None None None None 1) O_WRONLY M2 Hdf) as M3. fold s3 in M3.
      assert (K3 : keeps s1 s3) by (by apply keeps_same). clearbody s3. eapply install_slot; [exact I3|done|apply K3; by exists x1|]. intros s4 I4 Q4. apply f_ret. split; [done|]. eapply keeps_trans; [exact K3|by apply quiet_keeps].
Qed.

Lemma fd_pipe_run V s pr t : I [] [] V s -> table_of s pr t -> fruns (fd_pipe room pr) s (done_ok V s).
Proof.
  intros H Ht. unfold fd_pipe. apply kalloc_run. pose proof (keeps_same s (next s) (conj eq_refl eq_refl) (next_modes s)) as K1. intros r [->| ->]; [apply f_ret; split; [by apply next_I|done]|]. set (p := fresh s). eapply f_bind, f_val; [reflexivity|]. eapply f_bind, f_val; [reflexivity|].
  pose proof H as [C _]. destruct (pipe_new_I [] [] V (next s) p (next_I _ _ _ _ _ H) ltac:(cbn; lia)) as (I1 & K2 & Hc1 & Hc2 & _); [by apply (c_own _ _ _ _ C _ p)|by apply (c_own _ _ _ _ C _ p)|]. set (s1 := bump _ _ _) in *.
  change (set_counts _ _) with s1. assert (Hp1 : (p < fresh s1)%nat) by (cbn; lia). clearbody s1. apply (ok_step V s s1); [by eapply keeps_trans|]. pose proof (table_keeps _ _ _ _ (keeps_trans _ _ _ K1 K2) Ht) as Ht1. eapply cur_run; [exact Ht1|]. destruct (table_some _ _ _ _ _ _ I1 Ht1) as [x Hx].
  eapply alloc_slot; [exact I1|exact Hx|by apply pipe_drop|]. intros rfd _ Hfree s2 I2 Q2 HV. assert (Hx2 : tables s2 !! t = Some (mkTable (<[rfd := Reserved]> (t_slots x)) (t_refs x))) by (unfold s2; cbn; by rewrite lookup_insert_eq).
  apply (ok_step V s1 s2); [by apply quiet_keeps|]. assert (Hc : counts s2 = counts s1) by done. assert (Hp2 : (p < fresh s2)%nat) by done. assert (Hlt : (rfd < length (t_slots x))%nat) by (by eapply lookup_lt_Some). clearbody s2. eapply (file_alloc_I base room [OWriter p; OReader p] []); [exact I2| |].
  - intros s3 I3 S3 M3 _ Ec. pose proof (keeps_same _ _ S3 M3) as K3. apply (ok_step V s2 s3); [done|]. eapply clear_slot; [exact I3|done|apply K3; by eexists|]. intros s4 I4 Q4. apply (ok_step V s3 s4); [by apply quiet_keeps|].
    assert (Ec4 : counts s4 = counts s1) by (by rewrite (q_counts _ _ Q4), Ec). apply pipe_drop; [done|rewrite (q_fresh _ _ Q4); destruct M3; lia|by rewrite Ec4|by rewrite Ec4].
  - intros s3 q d I3 S3 M3 Hq Hfs Hd Hdf Ec _. assert (I3' : I ([OReader p] ++ [OWriter p]) [q] ((t, rfd) :: V) s3) by (destruct I3 as [C3 T3]; split; [|done]; destruct C3 as [D1 D2 D3 D4 D5 D6]; split; try done; intros o; rewrite D4; cbn [tally app]; lia).
    eapply (set_pipes_run [OReader p] [OWriter p]); [exact I3'|rewrite Hfs; apply lookup_insert_eq|exact Hd|done|by left|]. set (rfile := mkFile None (Some d) (Some p) true None false None None None None None 1). intros s4 I4. pose proof (fill_modes s2 s3 d q rfile O_RDONLY M3 Hdf) as M4. fold s4 in M4.
    assert (K4 : keeps s2 s4) by (by apply keeps_same). assert (Ec4 : counts s4 = counts s1) by (cbn; by rewrite Ec). assert (Hf4 : files s4 !! q = Some rfile) by (cbn; apply lookup_insert_eq). assert (Hp4 : (p < fresh s4)%nat) by (destruct M4; lia).
    assert (Hx4 : tables s4 !! t = Some (mkTable (<[rfd := Reserved]> (t_slots x)) (t_refs x))) by (cbn; destruct S3 as [-> _]; done). clearbody s4. apply (ok_step V s2 s4); [done|]. eapply install_slot_at; [exact I4|done|exact Hx4|]. intros s5 I5 Q5. apply (ok_step V s4 s5); [by apply quiet_keeps|].
    eapply (pipe_writer V s5 t _ p rfd q rfile); [exact I5|unfold s5; cbn; apply lookup_insert_eq| |done|done|done|done|by cbn; rewrite Ec4|by cbn; rewrite Ec4]. cbn [t_slots]. rewrite list_insert_insert_eq. by rewrite list_lookup_insert_eq.
Qed.
(** ** Pairs of sockets *)

Definition pair_objs (a b : nat) : list obj := [OWriter b; OReader b; OWriter a; OReader a].

Definition pair_held (a b : nat) (s : fdst) : Prop :=
  a <> b /\ (a < fresh s)%nat /\ (b < fresh s)%nat /\ counts s (OReader a) = 1 /\ counts s (OWriter a) = 1 /\ counts s (OReader b) = 1 /\ counts s (OWriter b) = 1.

Lemma pair_counts a b s s' : pair_held a b s -> counts s' = counts s -> (fresh s <= fresh s')%nat -> pair_held a b s'.
Proof. intros (H1 & H2 & H3 & H4) E Hf. unfold pair_held. rewrite E. split; [done|]. split; [lia|]. split; [lia|done]. Qed.

Lemma pair_drop V s a b (r : Z + nat * nat) : I (pair_objs a b) [] V s -> pair_held a b s -> fruns (pipe_free a;; pipe_free b;; mret r) s (done_ok V s).
Proof.
  intros H (Hab & Ha & Hb & C1 & C2 & C3 & C4). eapply (pipe_free_run _ [OWriter b; OReader b]); [exact H|done| |].
  - clear room is_sock seal_call. intros o. unfold pair_objs. cbn [tally]. repeat case_decide; subst; try congruence; try (intuition congruence); intuition (subst; lia).
  - intros s1 I1 K1 Hc Hf. apply (ok_step V s s1); [done|]. apply pipe_drop; [done|lia|rewrite Hc; congruence|rewrite Hc; congruence].
Qed.

Lemma I_perm O O' P P' V s : O ≡ₚ O' -> P ≡ₚ P' -> I O P V s -> I O' P' V s.
Proof.
  intros HO HP [[C1 C2 C3 C4 C5 C6] T]. split; [|done]. split; try done.
  - intros p f Hp. rewrite <- (tally_perm p _ _ HP). by apply C1.
  - intros p Hp. rewrite <- (tally_perm p _ _ HP). by apply C2.
  - intros o. rewrite <- (tally_perm o _ _ HO). apply C4.
Qed.

(** The files of both sides are filled in and installed. *)
Lemma pair_install V s0 s t x a b fd0 f0 f1 d0 d1 : I (pair_objs a b) [f1; f0] ((t, fd0) :: V) s -> (t, fd0) ∉ V -> tables s !! t = Some x -> files s !! f0 = Some (blank d0) -> files s !! f1 = Some (blank d1) -> f0 <> f1 -> d0 <> d1 -> descs s !! d0 = Some (mkDesc 0 0 1) -> descs s !! d1 = Some (mkDesc 0 0 1) ->
  same s0 s -> modes s0 s -> (fresh s0 <= d0)%nat -> (fresh s0 <= d1)%nat ->
  fruns (set_pipes f0 (Some a) true (Some b);; set_flags f0 O_RDWR;; set_pipes f1 (Some b) true (Some a);; set_flags f1 O_RDWR;; vfs_fd_install t fd0 f0;;
         fd1 ← fd_alloc_from t 0;
         match fd1 with
         | None => vfs_fd_clear t fd0;; file_close f0;; file_close f1;; mret (inl (- EMFILE))
         | Some fd1 => vfs_fd_install t fd1 f1;; mret (inr (fd0, fd1))
         end) s (done_ok V s0).
Proof.
  intros H HV Hx Hf0 Hf1 Hff Hdd Hd0 Hd1 S0 M0 Hfd0 Hfd1. assert (H0 : I ([OReader a; OWriter b] ++ [OReader b; OWriter a]) [f0; f1] ((t, fd0) :: V) s) by (eapply I_perm; [| |exact H]; [unfold pair_objs; cbn [app]; solve_Permutation|solve_Permutation]).
  eapply (set_pipes_run [OReader a; OWriter b] [OReader b; OWriter a]); [exact H0|exact Hf0|exact Hd0|done|by right; eexists|]. intros s1 I1. pose proof (fill_modes s0 s d0 f0 (mkFile None (Some d0) (Some a) true (Some b) false None None None None None 1) O_RDWR M0 Hfd0) as M1. fold s1 in M1.
  assert (I1' : I ([OReader b; OWriter a] ++ []) [f1; f0] ((t, fd0) :: V) s1) by (eapply I_perm; [| |exact I1]; solve_Permutation).
  eapply (set_pipes_run [OReader b; OWriter a] []); [exact I1'|unfold s1; cbn; by rewrite lookup_insert_ne|unfold s1; cbn; by rewrite lookup_insert_ne|done|by right; eexists|]. intros s2 I2. pose proof (fill_modes s0 s1 d1 f1 (mkFile None (Some d1) (Some b) true (Some a) false None None None None None 1) O_RDWR M1 Hfd1) as M2. fold s2 in M2.
  assert (K2 : keeps s0 s2) by (by apply keeps_same). assert (Hx2 : tables s2 !! t = Some x) by done. clearbody s2. apply (ok_step V s0 s2); [done|]. assert (I2' : I [] [f0; f1] ((t, fd0) :: V) s2) by (eapply I_perm; [| |exact I2]; solve_Permutation).
  assert (Hlt : (fd0 < length (t_slots x))%nat) by (destruct I2 as [_ T2]; apply lookup_lt_is_Some; exists Reserved; apply (v_slot _ _ T2 t x fd0 Hx2); by left).
  eapply install_slot_at; [exact I2'|done|exact Hx2|]. intros s3 I3 Q3. apply (ok_step V s2 s3); [by apply quiet_keeps|]. assert (Hx3 : tables s3 !! t = Some (mkTable (<[fd0 := Used f0]> (t_slots x)) (t_refs x))) by (unfold s3; cbn; apply lookup_insert_eq). clearbody s3.
  eapply alloc_slot; [exact I3|exact Hx3| |].
  - eapply (swap_slot [] [f1] [f0; f1]); [exact I3|exact Hx3|cbn; by apply list_lookup_insert_eq|done|intros q; apply used_free|]. intros s4 _ I4 Q4. apply (ok_step V s3 s4); [by apply quiet_keeps|]. eapply (close_run [] [f1]); [exact I4|]. intros s5 I5 S5 M5 _ _. apply (ok_step V s4 s5); [by apply keeps_same|].
    eapply (close_run [] []); [exact I5|]. intros s6 I6 S6 M6 _ _. apply f_ret. split; [done|by apply keeps_same].
  - intros fd1 _ _ s4 I4 Q4 HV4. apply (ok_step V s3 s4); [by apply quiet_keeps|]. eapply install_slot; [exact I4|done|apply (q_tables _ _ Q4); by eexists|]. intros s5 I5 Q5. apply f_ret. split; [done|by apply quiet_keeps].
Qed.

(** A new file that stands for nothing yet is closed. *)
Lemma close_blank V s a b f d P (k : F (Z + nat * nat)) : I (pair_objs a b) (f :: P) V s -> pair_held a b s -> files s !! f = Some (blank d) ->
  (forall s', I (pair_objs a b) P V s' -> pair_held a b s' -> keeps s s' -> fruns k s' (done_ok V s')) -> fruns (file_close f;; k) s (done_ok V s).
Proof.
  intros H Hp Hf HQ. eapply (close_last (pair_objs a b) P); [exact H|exact Hf|done|]. intros s' I' K' _ _ Hc. apply (ok_step V s s'); [done|]. apply HQ; [done| |done].
  assert (E : forall o, counts s' o = counts s o) by (intros o; rewrite Hc; change (holds o (blank d)) with 0; lia). destruct Hp as (H1 & H2 & H3 & H4). destruct (k_modes _ _ K') as [Hfr _]. unfold pair_held. rewrite !E. split; [done|]. split; [lia|]. split; [lia|done].
Qed.

(** Both pipes are there. *)
Lemma pair_both V s pr t a b : I [] [] V s -> table_of s pr t -> a <> b -> (a < fresh s)%nat -> (b < fresh s)%nat -> counts s (OReader a) = 0 -> counts s (OWriter a) = 0 -> counts s (OReader b) = 0 -> counts s (OWriter b) = 0 ->
  fruns (obj_ref (OReader a);; obj_ref (OWriter a);; obj_ref (OReader b);; obj_ref (OWriter b);;
         t ← cur_fds pr;
         fd0 ← fd_alloc_from t 0;
         match fd0 with
         | None => pipe_free a;; pipe_free b;; mret (inl (- EMFILE))
         | Some fd0 =>
             f0 ← file_alloc room;
             f1 ← file_alloc room;
             match f0, f1 with
             | Some x, Some y =>
                 set_pipes x (Some a) true (Some b);; set_flags x O_RDWR;;
                 set_pipes y (Some b) true (Some a);; set_flags y O_RDWR;;
                 vfs_fd_install t fd0 x;;
                 fd1 ← fd_alloc_from t 0;
                 match fd1 with
                 | None => vfs_fd_clear t fd0;; file_close x;; file_close y;; mret (inl (- EMFILE))
                 | Some fd1 => vfs_fd_install t fd1 y;; mret (inr (fd0, fd1))
                 end
             | _, _ => vfs_fd_clear t fd0;; close_file f0;; close_file f1;; pipe_free a;; pipe_free b;; mret (inl (- ENOMEM))
             end
         end) s (done_ok V s).
Proof.
  intros H Ht Hab Ha Hb Za1 Za2 Zb1 Zb2. do 4 (eapply f_bind, f_val; [reflexivity|]). destruct (pipe_new_I [] [] V s a H Ha Za1 Za2) as (I1 & K1 & A1 & A2 & Ao). set (s1 := bump (OWriter a) 1 (bump (OReader a) 1 s)) in *.
  destruct (pipe_new_I _ [] V s1 b I1 Hb) as (I2 & K2 & B1 & B2 & Bo); [rewrite Ao; congruence|rewrite Ao; congruence|]. set (s2 := bump (OWriter b) 1 (bump (OReader b) 1 s1)) in *. match goal with |- fruns _ ?x _ => change x with s2 end.
  assert (Hp2 : pair_held a b s2) by (split; [done|]; split; [done|]; split; [done|]; rewrite (Bo (OReader a)), (Bo (OWriter a)) by congruence; done). change [OWriter b; OReader b; OWriter a; OReader a] with (pair_objs a b) in I2.
  pose proof (keeps_trans _ _ _ K1 K2) as K12. clearbody s2. apply (ok_step V s s2); [done|]. pose proof (table_keeps _ _ _ _ K12 Ht) as Ht2. eapply cur_run; [exact Ht2|]. destruct (table_some _ _ _ _ _ _ I2 Ht2) as [x Hx].
  eapply alloc_slot; [exact I2|exact Hx|by apply pair_drop|]. intros fd0 _ Hfree s3 I3 Q3 HV. apply (ok_step V s2 s3); [by apply quiet_keeps|]. assert (Hp3 : pair_held a b s3) by (by eapply pair_counts). assert (Hx3 : is_Some (tables s3 !! t)) by (apply (q_tables _ _ Q3); by exists x). clearbody s3.
  eapply (file_alloc_I base room _ []); [exact I3| |].
  - intros s4 I4 S4 M4 _ Ec4. pose proof (pair_counts _ _ _ s4 Hp3 Ec4 (proj1 M4)) as Hp4. apply (ok_step V s3 s4); [by apply keeps_same|]. assert (Hx4 : is_Some (tables s4 !! t)) by (destruct S4 as [-> _]; done). eapply (file_alloc_I base room _ []); [exact I4| |].
    + intros s5 I5 S5 M5 _ Ec5. pose proof (pair_counts _ _ _ s5 Hp4 Ec5 (proj1 M5)) as Hp5. apply (ok_step V s4 s5); [by apply keeps_same|]. eapply clear_slot; [exact I5|done|destruct S5 as [-> _]; done|]. intros s6 I6 Q6. apply (ok_step V s5 s6); [by apply quiet_keeps|].
      do 2 eapply f_bind, f_ret. apply pair_drop; [done|]. eapply pair_counts; [exact Hp5|by rewrite (q_counts _ _ Q6)|by rewrite (q_fresh _ _ Q6)].
    + intros s5 y d I5 S5 M5 _ Hf5 _ _ Ec5 _. pose proof (pair_counts _ _ _ s5 Hp4 Ec5 (proj1 M5)) as Hp5. apply (ok_step V s4 s5); [by apply keeps_same|]. eapply clear_slot; [exact I5|done|destruct S5 as [-> _]; done|]. intros s6 I6 Q6. apply (ok_step V s5 s6); [by apply quiet_keeps|].
      eapply f_bind, f_ret. eapply close_blank; [exact I6|eapply pair_counts; [exact Hp5|by rewrite (q_counts _ _ Q6)|by rewrite (q_fresh _ _ Q6)]|rewrite (q_files _ _ Q6), Hf5; apply lookup_insert_eq|]. intros s7 I7 Hp7 _. by apply pair_drop.
  - intros s4 y0 d0 I4 S4 M4 Hn4 Hf4 Hd4 Hdf4 Ec4 _. pose proof (pair_counts _ _ _ s4 Hp3 Ec4 (proj1 M4)) as Hp4. assert (Hx4 : is_Some (tables s4 !! t)) by (destruct S4 as [-> _]; done). eapply (file_alloc_I base room _ [y0]); [exact I4| |].
    + intros s5 I5 S5 M5 Ef5 Ec5. pose proof (pair_counts _ _ _ s5 Hp4 Ec5 (proj1 M5)) as Hp5. apply (ok_step V s3 s5); [eapply keeps_trans; by apply keeps_same|]. eapply clear_slot; [exact I5|done|destruct S5 as [-> _]; done|]. intros s6 I6 Q6. apply (ok_step V s5 s6); [by apply quiet_keeps|].
      eapply close_blank; [exact I6|eapply pair_counts; [exact Hp5|by rewrite (q_counts _ _ Q6)|by rewrite (q_fresh _ _ Q6)]|rewrite (q_files _ _ Q6), Ef5, Hf4; apply lookup_insert_eq|]. intros s7 I7 Hp7 _. eapply f_bind, f_ret. by apply pair_drop.
    + intros s5 y1 d1 I5 S5 M5 Hn5 Hf5 Hd5 Hdf5 Ec5 Hde5. assert (Hne : y0 <> y1) by (intros ->; rewrite Hf4, lookup_insert_eq in Hn5; done). destruct Hx4 as [x4 Hx4].
      assert (Hd04 : (d0 < fresh s4)%nat) by (destruct I4 as [C4 _]; destruct (Nat.lt_ge_cases d0 (fresh s4)) as [?|Hge]; [done|]; destruct (c_new _ _ _ _ C4 d0 Hge) as (_ & E & _); congruence).
      assert (Hdd : d0 <> d1) by lia. eapply (pair_install V s3 s5 t x4 a b fd0 y0 y1 d0 d1); try done; [by destruct S5 as [-> _]|rewrite Hf5, lookup_insert_ne, Hf4 by done; apply lookup_insert_eq|rewrite Hf5; apply lookup_insert_eq|by rewrite Hde5|destruct S4, S5; split; congruence|by eapply modes_trans|destruct M4; lia].
Qed.

Lemma fd_socketpair_run V s pr t : I [] [] V s -> table_of s pr t -> fruns (fd_socketpair room pr) s (done_ok V s).
Proof.
  intros H Ht. unfold fd_socketpair. pose proof (keeps_same s (next s) (conj eq_refl eq_refl) (next_modes s)) as K1. pose proof (keeps_same (next s) (next (next s)) (conj eq_refl eq_refl) (next_modes _)) as K2. pose proof (keeps_trans _ _ _ K1 K2) as K12.
  pose proof (next_I base _ _ _ _ (next_I base _ _ _ _ H)) as I2. assert (Hz : forall o i, own o = Some i -> (fresh s <= i)%nat -> counts s o = 0) by (destruct H as [C _]; apply (c_own _ _ _ _ C)). apply kalloc_run. intros ra Ha. apply kalloc_run. intros rb Hb. set (s2 := next (next s)) in *. apply (ok_step V s s2); [done|].
  assert (Hone : forall p s', I [] [] V s' -> counts s' = counts s -> (fresh s <= p < fresh s')%nat -> forall k : F (Z + nat * nat), (forall s'', I [] [] V s'' -> keeps s' s'' -> fruns k s'' (done_ok V s'')) -> fruns (pipe_free p;; k) s' (done_ok V s')).
  { intros p s' I' Ec Hp k Hk. eapply (pipe_free_run [] []); [exact I'|lia| |intros s'' I'' K'' _ _; apply (ok_step V s' s''); [done|by apply Hk]]. intros o. rewrite Ec. cbn [tally]. case_decide as E; [|done]. destruct E as [->| ->]; rewrite (Hz _ p) by (done || lia); done. }
  assert (Hno : forall s' (r : Z + nat * nat), I [] [] V s' -> fruns (mret r) s' (done_ok V s')) by (intros; by apply ok_ret).
  destruct Ha as [->| ->], Hb as [->| ->]; cbn [free_pipe].
  - eapply f_bind, f_ret, f_bind, f_ret. by apply ok_ret.
  - eapply f_bind, f_ret. apply Hone; [done|done|cbn; lia|]. intros s'' I'' _. by apply ok_ret.
  - apply Hone; [done|done|cbn; lia|]. intros s'' I'' _. eapply f_bind, f_ret. by apply ok_ret.
  - apply (pair_both V s2 pr t); [done|by eapply table_keeps|unfold s2; cbn; lia|unfold s2; cbn; lia|unfold s2; cbn; lia| | | |]; (eapply Hz; [reflexivity|cbn; lia]).
Qed.

(** ** Closing on [execve] *)

Lemma flush_run V pr t : forall n fd s, I [] [] V s -> table_of s pr t -> fruns (flush_loop pr fd n) s (done_ok V s).
Proof.
  induction n as [|n IH]; intros fd s H Ht; cbn [flush_loop]; [by apply ok_ret|]. eapply cur_run; [exact Ht|]. destruct (table_some _ _ _ _ _ _ H Ht) as [x Hx]. eapply slot_run; [exact Hx|].
  apply (f_seq _ _ _ (done_ok V s)); [|intros [] s' [H' K']; apply (ok_step V s s'); [done|]; apply IH; [done|by eapply table_keeps]]. destruct (aget Free (t_slots x) (Z.to_nat fd)) as [| |p] eqn:Es; [by apply ok_ret..|].
  apply aget_used in Es. destruct (slot_file _ _ _ _ _ _ _ _ H Hx Es) as [_ [f Hf]]. eapply f_file; [exact Hf|]. destruct (f_cloexec f); [|by apply ok_ret]. eapply f_seq; [by eapply fd_close_run|]. intros z s' Hs'. by apply f_ret.
Qed.

(** ** Freeing a table *)

Lemma set_tables_same s : set_tables (tables s) s = s.
Proof. by destruct s. Qed.

(** The file of a slot is closed, and then the slot cleared. *)
Lemma close_slot O P s t x fd p : cinv base O P s -> tables s !! t = Some x -> t_slots x !! fd = Some (Used p) ->
  fruns (file_close p;; set_slot t fd Free) s (fun _ s' => cinv base O P s' /\ modes s s' /\ tables s' = <[t := mkTable (<[fd := Free]> (t_slots x)) (t_refs x)]> (tables s) /\ procs s' = procs s).
Proof.
  intros C Hx Hs. set (T := <[t := mkTable (<[fd := Free]> (t_slots x)) (t_refs x)]> (tables s)).
  assert (C1 : cinv base O (p :: P) (set_tables T s)) by (apply (set_slot_cinv base O P (p :: P) s t x fd Free (Used p)); try done; intros q; rewrite used_free; cbn [tally]; unfold used; destruct (decide (q = p)) as [->|Hne]; [rewrite decide_True by done; lia|rewrite decide_False by congruence; lia]).
  pose proof (close_cinv base Hbase O P (set_tables T s) p C1) as H. apply f_eq in H as ([] & s2 & E2 & C2 & [S1 S2] & M2 & _). assert (A : forall T', apart (set_tables T') (file_close p)) by (intros T'; by apply apart_close).
  rewrite (A T s) in E2. destruct (file_close p s) as [[[] s1]|] eqn:E1; [|done]. injection E2 as <-. assert (Et : tables s1 = tables s) by (pose proof (A (tables s) s) as A1; rewrite set_tables_same, E1 in A1; injection A1 as A1; rewrite A1; done).
  eapply f_bind, f_val; [exact E1|]. unfold set_slot. eapply f_table; [by rewrite Et|]. eapply f_val; [reflexivity|]. rewrite Et. fold T. done.
Qed.

Definition cleared (t : nat) (x : table) (fd n : nat) (s s' : fdst) : Prop :=
  cinv base [] [] s' /\ modes s s' /\ procs s' = procs s /\ exists l, tables s' = <[t := mkTable l (t_refs x)]> (tables s) /\ length l = length (t_slots x) /\ (forall i, (i < fd)%nat -> l !! i = t_slots x !! i) /\ (forall i, (fd <= i < fd + n)%nat -> l !! i = Some Free).

Lemma free_loop_run t : forall n fd s x, cinv base [] [] s -> tables s !! t = Some x -> (fd + n <= length (t_slots x))%nat -> fruns (free_loop t fd n) s (fun _ => cleared t x fd n s).
Proof.
  induction n as [|n IH]; intros fd s x C Hx Hl; cbn [free_loop].
  { apply f_ret. split; [done|]. split; [apply modes_refl|]. split; [done|]. exists (t_slots x). rewrite insert_id by (by destruct x). split; [done|]. split; [done|]. split; [done|]. intros i Hi. lia. }
  eapply slot_run; [exact Hx|]. rewrite Nat2Z.id. destruct (lookup_lt_is_Some_2 (t_slots x) fd) as [v Hv]; [lia|]. rewrite (aget_Some _ _ _ _ Hv).
  apply (f_seq _ _ _ (fun _ s1 => cinv base [] [] s1 /\ modes s s1 /\ procs s1 = procs s /\ tables s1 = <[t := mkTable (<[fd := Free]> (t_slots x)) (t_refs x)]> (tables s))).
  - destruct v as [| |p].
    + apply f_ret. split; [done|]. split; [apply modes_refl|]. split; [done|]. rewrite list_insert_id by done. rewrite insert_id by (by destruct x). done.
    + unfold set_slot. eapply f_table; [exact Hx|]. eapply f_val; [reflexivity|]. split; [|split; [by apply modes_flags|done]]. by apply (set_slot_cinv base [] [] [] s t x fd Free Reserved).
    + eapply f_mono; [by eapply close_slot|]. intros [] s1 (H1 & H2 & H3 & H4). done.
  - intros [] s1 (C1 & M1 & P1 & T1). eapply f_mono; [apply (IH (S fd) s1 (mkTable (<[fd := Free]> (t_slots x)) (t_refs x)) C1)|].
    + rewrite T1. apply lookup_insert_eq.
    + cbn [t_slots]. rewrite length_insert. lia.
    + intros [] s2 (C2 & M2 & P2 & l & T2 & L1 & L2 & L3). split; [done|]. split; [by eapply modes_trans|]. split; [congruence|]. exists l. cbn [t_slots t_refs] in *. split; [rewrite T2, T1; apply insert_insert_eq|]. split; [by rewrite L1, length_insert|]. split.
      * intros i Hi. rewrite L2 by lia. by rewrite list_lookup_insert_ne by lia.
      * intros i Hi. destruct (decide (i = fd)) as [->|Hne]; [rewrite L2 by lia; rewrite list_lookup_insert_eq by lia; done|apply L3; lia].
Qed.

Lemma cinv_tables O P s T : cinv base O P s -> (forall p, msum (slot_refs p) T = msum (slot_refs p) (tables s)) -> (forall p, (fresh s <= p)%nat -> T !! p = None) -> cinv base O P (set_tables T s).
Proof.
  intros [C1 C2 C3 C4 C5 C6] HT Hn. assert (Hr : forall p, refs (set_tables T s) p = refs s p) by (intros p; unfold refs; cbn; by rewrite HT). split; try done.
  - intros p f Hp. rewrite Hr. by apply C1.
  - intros p Hp. rewrite Hr. by apply C2.
  - intros p Hp. destruct (C5 p Hp) as (H1 & H2 & _). split; [done|]. split; [done|]. by apply Hn.
Qed.

Lemma free_slots_zero l p : (forall i, (i < length l)%nat -> l !! i = Some Free) -> tally (Used p) l = 0.
Proof.
  intros H. destruct (decide (0 < tally (Used p) l)) as [Hp|Hp]; [|pose proof (tally_nonneg (Used p) l); lia]. apply tally_in in Hp. apply list_elem_of_lookup in Hp as [i Hi]. rewrite H in Hi by (by eapply lookup_lt_Some). done.
Qed.

Lemma free_table_run s t x : cinv base [] [] s -> tables s !! t = Some x -> length (t_slots x) = VFS_FD_MAX -> fruns (vfs_free_fdtable t) s (fun _ s' => cinv base [] [] s' /\ modes s s' /\ procs s' = procs s /\ tables s' = delete t (tables s)).
Proof.
  intros C Hx Hl. unfold vfs_free_fdtable. eapply f_seq; [apply (free_loop_run t VFS_FD_MAX 0 s x C Hx); lia|]. intros [] s1 (C1 & M1 & P1 & l & T1 & L1 & _ & L3). eapply f_val; [reflexivity|].
  assert (E : delete t (tables s1) = delete t (tables s)) by (rewrite T1; apply delete_insert_eq). split; [|split; [|split; [done|cbn; by rewrite E]]].
  - apply cinv_tables; [done| |].
    + intros p. assert (Ht1 : tables s1 !! t = Some (mkTable l (t_refs x))) by (rewrite T1; apply lookup_insert_eq). rewrite (msum_delete _ _ _ _ Ht1). unfold slot_refs at 2. cbn [t_slots]. rewrite free_slots_zero; [lia|]. intros i Hi. apply L3. lia.
    + intros p Hp. destruct (c_new _ _ _ _ C1 p Hp) as (_ & _ & Hn). apply lookup_delete_None. by right.
  - eapply modes_trans; [exact M1|]. by apply modes_flags.
Qed.

(** ** Leaving a table *)

Lemma in_table_nonneg t x : 0 <= in_table t x.
Proof. unfold in_table. case_decide; lia. Qed.

Lemma cinv_procs O P s m : cinv base O P s -> (forall p, msum (fun x => tally p (p_borrows x)) m = msum (fun x => tally p (p_borrows x)) (procs s)) -> cinv base O P (set_procs m s).
Proof.
  intros [C1 C2 C3 C4 C5 C6] Hm. assert (Hr : forall p, refs (set_procs m s) p = refs s p) by (intros p; unfold refs; cbn; by rewrite Hm). split; try done.
  - intros p f Hp. rewrite Hr. by apply C1.
  - intros p Hp. rewrite Hr. by apply C2.
Qed.

(** The tables after a process has left the table [t]. *)
Definition left_tables (t : nat) (x : table) (m : gmap nat table) : gmap nat table := if t_refs x =? 1 then delete t m else <[t := mkTable (t_slots x) (t_refs x - 1)]> m.

Lemma leave_tinv s s' pr y t x : tinv [] s -> procs s !! pr = Some y -> p_table y = Some t -> tables s !! t = Some x -> tables s' = left_tables t x (tables s) -> procs s' = <[pr := mkProc None (p_borrows y) (p_active y)]> (procs s) -> tinv [] s'.
Proof.
  intros [T1 T2 T3] Hy Ht Hx Et Ep. destruct (T1 t x Hx) as (Hl & Hr & Hpos). set (y' := mkProc None (p_borrows y) (p_active y)) in *.
  assert (Hin : forall t', msum (in_table t') (procs s') = msum (in_table t') (procs s) - in_table t' y) by (intros t'; rewrite Ep, (msum_update _ _ _ y) by done; change (in_table t' y') with 0; lia).
  assert (Hin1 : in_table t y = 1) by (unfold in_table; by rewrite decide_True). assert (Hold : forall t' z, tables s' !! t' = Some z -> (t' <> t /\ tables s !! t' = Some z) \/ (t' = t /\ t_refs x <> 1 /\ z = mkTable (t_slots x) (t_refs x - 1))).
  { intros t' z. rewrite Et. unfold left_tables. destruct (Z.eqb_spec (t_refs x) 1); [intros [H1 H2]%lookup_delete_Some; left; done|]. intros [[<- <-]|[H1 H2]]%lookup_insert_Some; [right; done|left; done]. }
  split.
  - intros t' z Hz. rewrite Hin. destruct (Hold t' z Hz) as [[Hne Hz']|(-> & Hn1 & ->)]; [|cbn [t_slots t_refs]; split; [done|]; split; lia]. destruct (T1 t' z Hz') as (H1 & H2 & H3). unfold in_table at 2. rewrite decide_False by congruence. split; [done|]. split; [lia|done].
  - intros t' z fd Hz. destruct (Hold t' z Hz) as [[Hne Hz']|(-> & Hn1 & ->)]; [by apply T2|]. cbn [t_slots]. by apply T2.
  - intros pr' z Hz. rewrite Ep in Hz. destruct (decide (pr' = pr)) as [->|Hne].
    + rewrite lookup_insert_eq in Hz. injection Hz as <-. destruct (T3 pr y Hy) as (H1 & H2 & H3 & _). done.
    + rewrite lookup_insert_ne in Hz by done. destruct (T3 pr' z Hz) as (H1 & H2 & H3 & H4). split; [done|]. split; [done|]. split; [done|]. intros t' Ht'. specialize (H4 t' Ht'). rewrite Et. unfold left_tables. destruct (Z.eqb_spec (t_refs x) 1) as [E1|E1].
      * destruct (decide (t' = t)) as [->|Hnt]; [|by rewrite lookup_delete_ne]. pose proof (msum_le (in_table t) (delete pr (procs s)) pr' z (in_table_nonneg t) ltac:(by rewrite lookup_delete_ne)) as Hle. rewrite (msum_delete _ _ _ y) in Hle by done.
        unfold in_table in Hle at 1. rewrite decide_True in Hle by done. lia.
      * destruct (decide (t' = t)) as [->|Hnt]; [rewrite lookup_insert_eq; by eexists|by rewrite lookup_insert_ne].
Qed.

Lemma release_run s pr y : I [] [] [] s -> procs s !! pr = Some y -> fruns (proc_release_fdtable pr) s (fun _ s' => I [] [] [] s' /\ modes s s' /\ procs s' = <[pr := mkProc None (p_borrows y) (p_active y)]> (procs s)).
Proof.
  intros [C T] Hy. unfold proc_release_fdtable. eapply f_proc; [exact Hy|]. destruct (p_table y) as [t|] eqn:Ht; [|apply f_ret; split; [done|]; split; [apply modes_refl|]; rewrite insert_id; [done|]; rewrite Hy; destruct y; cbn in *; by subst].
  destruct (v_proc _ _ T pr y Hy) as (_ & _ & _ & Htab). destruct (Htab t Ht) as [x Hx]. destruct (v_table _ _ T t x Hx) as (Hl & Hr & Hpos). eapply f_table; [exact Hx|]. eapply f_bind, f_val; [reflexivity|]. set (x' := mkTable (t_slots x) (t_refs x - 1)). set (s1 := set_tables _ s).
  assert (C1 : cinv base [] [] s1).
  { apply cinv_tables; [done| |].
    - intros p. rewrite (msum_update _ _ _ x) by done. change (slot_refs p x') with (slot_refs p x). lia.
    - intros p Hp. destruct (c_new _ _ _ _ C p Hp) as (_ & _ & Hn). rewrite lookup_insert_ne; [done|congruence]. }
  apply (f_seq _ _ _ (fun _ s2 => cinv base [] [] s2 /\ modes s s2 /\ procs s2 = procs s /\ tables s2 = left_tables t x (tables s))).
  - unfold left_tables. destruct (t_refs x =? 1).
    + eapply f_mono; [apply (free_table_run s1 t x' C1); [apply lookup_insert_eq|done]|]. intros [] s2 (H1 & H2 & H3 & H4). split; [done|]. split; [exact H2|]. split; [done|]. rewrite H4. cbn. apply delete_insert_eq.
    + apply f_ret. split; [done|]. split; [by apply modes_flags|done].
  - intros [] s2 (C2 & M2 & P2 & T2). eapply f_proc; [by rewrite P2|]. eapply f_val; [reflexivity|]. split; [|split; [eapply modes_trans; [exact M2|by apply modes_flags]|cbn; by rewrite P2]]. split.
    + apply cinv_procs; [done|]. intros p. rewrite (msum_update _ _ _ y) by (by rewrite P2). cbn [p_borrows]. lia.
    + eapply (leave_tinv s); try done. cbn. by rewrite P2.
Qed.

Lemma exit_run s pr y : I [] [] [] s -> procs s !! pr = Some y -> fruns (exit_fds pr) s (fun _ s' => I [] [] [] s' /\ modes s s' /\ procs s' = <[pr := mkProc None [] false]> (procs s)).
Proof.
  intros H Hy. unfold exit_fds. eapply f_seq; [by eapply end_run|]. intros [] s1 (H1 & M1 & T1 & P1). eapply f_mono; [apply (release_run s1 pr (mkProc (p_table y) [] false)); [done|rewrite P1; apply lookup_insert_eq]|].
  intros [] s2 (H2 & M2 & P2). split; [done|]. split; [by eapply modes_trans|]. rewrite P2, P1. cbn [p_borrows p_active]. apply insert_insert_eq.
Qed.

(** ** New processes *)

(** The slot of a process that is not in use. *)
Definition unused (s : fdst) (pr : nat) : Prop := procs s !! pr = None \/ procs s !! pr = Some (mkProc None [] false).

Lemma unused_sum s pr y (g : fproc -> Z) : unused s pr -> g (mkProc None [] false) = 0 -> msum g (<[pr := y]> (procs s)) = msum g (procs s) + g y.
Proof. intros [H|H] Hg; [rewrite msum_new by done; lia|rewrite (msum_update _ _ _ _ _ H); lia]. Qed.

(** A process gets the table [t], which has one more reference. *)
Lemma join_tinv s s' child t z : tinv [] s -> unused s child -> tables s' = <[t := z]> (tables s) -> procs s' = <[child := mkProc (Some t) [] false]> (procs s) -> length (t_slots z) = VFS_FD_MAX -> t_refs z = 1 + msum (in_table t) (procs s) -> (forall fd, t_slots z !! fd <> Some Reserved) -> tinv [] s'.
Proof.
  intros [T1 T2 T3] Hu Et Ep Hl Hr Hno. assert (Hin : forall t', msum (in_table t') (procs s') = msum (in_table t') (procs s) + (if decide (t' = t) then 1 else 0)).
  { intros t'. rewrite Ep, unused_sum by done. unfold in_table at 2. cbn [p_table]. destruct (decide (t' = t)) as [->|Hne]; [by rewrite decide_True|by rewrite decide_False by congruence]. }
  assert (Hn : 0 <= msum (in_table t) (procs s)) by (apply msum_nonneg, in_table_nonneg). split.
  - intros t' w Hw. rewrite Et in Hw. rewrite Hin. destruct (decide (t' = t)) as [->|Hne]; [rewrite lookup_insert_eq in Hw; injection Hw as <-; split; [done|]; split; lia|]. rewrite lookup_insert_ne in Hw by done. destruct (T1 t' w Hw) as (H1 & H2 & H3). split; [done|]. split; [lia|done].
  - intros t' w fd Hw. rewrite Et in Hw. destruct (decide (t' = t)) as [->|Hne]; [rewrite lookup_insert_eq in Hw; injection Hw as <-; split; [intros H; by apply Hno in H|by intros ?%not_elem_of_nil]|]. rewrite lookup_insert_ne in Hw by done. by apply T2.
  - intros pr x Hx. rewrite Ep in Hx. assert (Hsome : forall t', t' = t \/ is_Some (tables s !! t') -> is_Some (tables s' !! t')) by (intros t' Ht'; rewrite Et; destruct (decide (t' = t)) as [->|Hne]; [rewrite lookup_insert_eq; by eexists|rewrite lookup_insert_ne by done; by destruct Ht']).
    destruct (decide (pr = child)) as [->|Hne]; [rewrite lookup_insert_eq in Hx; injection Hx as <-; cbn; split; [constructor|]; split; [lia|]; split; [done|]; intros t' [= <-]; apply Hsome; by left|].
    rewrite lookup_insert_ne in Hx by done. destruct (T3 pr x Hx) as (H1 & H2 & H3 & H4). split; [done|]. split; [done|]. split; [done|]. intros t' Ht'. apply Hsome. right. by apply H4.
Qed.

Lemma replicate_free fd : replicate VFS_FD_MAX Free !! fd <> Some Reserved.
Proof. intros H. by apply lookup_replicate in H as [? _]. Qed.

Lemma fork_start s child t : I [] [] [] s -> unused s child -> tables s !! t = None -> (t < fresh s)%nat ->
  I [] [] [] (set_procs (<[child := mkProc (Some t) [] false]> (procs s)) (set_tables (<[t := mkTable (replicate VFS_FD_MAX Free) 1]> (tables s)) s)).
Proof.
  intros [C T] Hu Ht Hf. split.
  - apply cinv_procs; [|intros p; cbn [procs set_tables]; rewrite unused_sum by done; cbn [p_borrows tally]; lia]. apply cinv_tables; [done| |].
    + intros p. rewrite msum_new by done. unfold slot_refs at 1. cbn [t_slots]. rewrite free_slots_zero; [lia|]. intros i Hi. rewrite length_replicate in Hi. by apply lookup_replicate_2.
    + intros p Hp. destruct (c_new _ _ _ _ C p Hp) as (_ & _ & Hn). rewrite lookup_insert_ne; [done|lia].
  - eapply (join_tinv s _ child t); [done|done|reflexivity|reflexivity|apply length_replicate| |apply replicate_free]; cbn [t_slots t_refs]. assert (E : msum (in_table t) (procs s) = 0); [|lia]. pose proof (msum_nonneg (in_table t) (procs s) (in_table_nonneg t)).
    destruct (decide (0 < msum (in_table t) (procs s))) as [Hp|Hp]; [|lia]. apply msum_pos in Hp as (pr & x & Hx & Hi); [|apply in_table_nonneg]. unfold in_table in Hi. case_decide as Ep; [|lia]. destruct (v_proc _ _ T pr x Hx) as (_ & _ & _ & H4). specialize (H4 t Ep). rewrite Ht in H4. by destruct H4.
Qed.

(** ** Copying a table *)

Lemma sock_kind f (b : bool) : kind_ok f -> kind_ok (with_refs 1 (if b then with_node None f else f)).
Proof. destruct b; [|done]. unfold kind_ok. cbn. destruct (f_efd f), (f_tfd f), (f_sfd f), (f_ifd f), (f_inet f); try done; by intros (_ & H1 & H2). Qed.

Lemma sock_holds f (b : bool) o : holds o (with_refs 1 (if b then with_node None f else f)) <= holds o f.
Proof. destruct b; [|done]. unfold holds, addref_list. cbn [f_efd f_tfd f_sfd f_ifd f_inet f_node f_pipe f_wpipe with_node with_refs]. change (pipe_end (with_refs 1 (with_node None f))) with (pipe_end f). rewrite !tally_app. cbn [opt tally]. pose proof (tally_nonneg o (opt (f_node f) ONode)). lia. Qed.

Definition copied (s : fdst) (v : slot) (s' : fdst) : Prop := v <> Reserved /\ I [] (match v with Used q => [q] | _ => [] end) [] s' /\ keeps s s' /\ tables s' = tables s.

Lemma copy_slot_run s t x fd : I [] [] [] s -> tables s !! t = Some x -> fruns (copy_slot room is_sock (aget Free (t_slots x) fd)) s (copied s).
Proof.
  intros H Hx. unfold copy_slot. destruct (aget Free (t_slots x) fd) as [| |p] eqn:Es; [apply f_ret; split; [done|]; split; [done|]; split; [apply keeps_refl|done]..|]. apply aget_used in Es. destruct (slot_file _ _ _ _ _ _ _ _ H Hx Es) as [Hr [f Hf]].
  eapply f_file; [exact Hf|]. eapply f_bind, f_val; [reflexivity|]. set (f1 := with_refs (f_refs f + 1) f). set (s1 := set_files _ s). assert (I1 : I [] [p] [] s1).
  { destruct H as [C T]. split; [|by apply (same_tinv [] s)]. destruct (c_file _ _ _ _ C p f Hf) as (E & Hpos & Hk & _). eapply (cinv_file base [] [] [] [p]); try done; cbn [with_refs f_refs f1]; [intros q Hq; cbn; by rewrite decide_False|cbn in *; rewrite decide_True by done; lia|lia]. }
  assert (K1 : keeps s s1) by (by apply keeps_same; [|apply modes_flags]). assert (Hf1 : files s1 !! p = Some f1) by apply lookup_insert_eq. assert (T1 : tables s1 = tables s) by done. clearbody s1. apply kalloc_run.
  pose proof (next_I base _ _ _ _ I1) as I2. assert (K2 : keeps s (next s1)) by (eapply keeps_trans; [exact K1|]; apply keeps_same; [done|apply next_modes]).
  assert (Hend : forall s3 (v : slot) P, v <> Reserved -> I [] (p :: P) [] s3 -> P = (match v with Used q => [q] | _ => [] end) -> keeps s s3 -> tables s3 = tables s -> fruns (file_close p;; mret v) s3 (copied s)).
  { intros s3 v P Hv I3 -> K3 T3. eapply close_run; [exact I3|]. intros s4 I4 [S1 S2] M4 _ _. apply f_ret. split; [done|]. split; [done|]. split; [eapply keeps_trans; [exact K3|by apply keeps_same]|by rewrite S1]. }
  intros r [->| ->]; [by apply (Hend _ Free [])|]. eapply f_file; [exact Hf1|]. set (b := match f_node f1 with Some n => is_sock n | None => false end). cbv zeta. pose proof I1 as [C1 _]. destruct (c_new _ _ _ _ C1 (fresh s1) ltac:(lia)) as (Hq & _).
  pose proof (addref_I base Hbase [] [p] [] (next s1) p f1 (with_refs 1 (if b then with_node None f1 else f1)) (fresh s1) I2 Hf1 Hq ltac:(cbn; lia) eq_refl (sock_kind f1 b ltac:(by apply (c_file _ _ _ _ C1 p f1 Hf1))) ltac:(by destruct b) (sock_holds f1 b)) as A.
  apply f_eq in A as ([] & s3 & E3 & I3 & [S1 S2] & _ & M3). assert (Hrun : forall (k : F slot) Q, fruns k s3 Q -> fruns (put_file (fresh s1) (with_refs 1 (if b then with_node None f1 else f1));; file_addref (fresh s1);; k) (next s1) Q) by (intros k Q Hk; unfold fruns, mbind, F_bind in *; cbn in E3 |- *; by rewrite E3).
  apply Hrun. eapply (Hend s3 (Used (fresh s1)) [fresh s1]); [done| |done|eapply keeps_trans; [exact K2|by apply keeps_same]|by rewrite S1]. eapply I_perm; [done| |exact I3]. apply Permutation_swap.
Qed.

Lemma copy_loop_run dst src : dst <> src -> forall n fd s xs xd, I [] [] [] s -> tables s !! src = Some xs -> tables s !! dst = Some xd -> (fd + n <= VFS_FD_MAX)%nat -> (forall i, (fd <= i < VFS_FD_MAX)%nat -> t_slots xd !! i = Some Free) ->
  fruns (copy_loop room is_sock dst src fd n) s (fun _ s' => I [] [] [] s' /\ keeps s s').
Proof.
  intros Hne. induction n as [|n IH]; intros fd s xs xd H Hs Hd Hn Hfree; cbn [copy_loop]; [apply f_ret; split; [done|apply keeps_refl]|]. eapply slot_run; [exact Hs|]. rewrite Nat2Z.id. eapply f_seq; [by eapply copy_slot_run|]. intros v s1 (Hv & I1 & K1 & T1).
  destruct (set_slot_I base [] (match v with Used q => [q] | _ => [] end) [] [] [] s1 dst xd fd v Free I1) as [E2 I2]; [by rewrite T1|apply Hfree; lia| | |].
  - intros p. destruct v as [| |q]; [done|done|]. unfold used. cbn [tally]. rewrite (decide_False (P := Used p = Free)) by done. destruct (decide (p = q)) as [->|Hpq]; [rewrite decide_True by done; lia|rewrite decide_False by congruence; lia].
  - intros t' fd'. split; [by intros ?%not_elem_of_nil|]. case_decide; done.
  - eapply f_bind, f_val; [exact E2|]. set (s2 := set_tables _ s1) in *. assert (K2 : keeps s s2) by (eapply keeps_trans; [exact K1|]; apply quiet_keeps; eapply quiet_set; by rewrite T1). eapply f_mono; [eapply (IH (S fd) s2 xs (mkTable (<[fd := v]> (t_slots xd)) (t_refs xd))); [exact I2| | |lia|]|].
    + unfold s2. cbn. rewrite T1, lookup_insert_ne; done.
    + unfold s2. cbn. apply lookup_insert_eq.
    + intros i Hi. cbn [t_slots]. rewrite list_lookup_insert_ne by lia. apply Hfree. lia.
    + intros [] s3 [I3 K3]. split; [done|by eapply keeps_trans].
Qed.

Lemma fork_run s pr t child : I [] [] [] s -> table_of s pr t -> unused s child -> fruns (fork_fds room is_sock pr child) s (fun _ s' => I [] [] [] s' /\ modes s s').
Proof.
  intros H Ht Hu. unfold fork_fds. apply kalloc_run. intros r [->| ->]; [apply f_ret; split; [by apply next_I|apply next_modes]|]. eapply f_bind, f_val; [reflexivity|]. eapply f_bind, f_val; [reflexivity|]. pose proof H as [C _]. destruct (c_new _ _ _ _ C (fresh s) ltac:(lia)) as (_ & _ & Hn).
  pose proof (fork_start (next s) child (fresh s) (next_I base _ _ _ _ H) Hu Hn ltac:(cbn; lia)) as I1. set (s1 := set_procs _ _) in *. match goal with |- fruns _ ?x _ => change x with s1 end. pose proof (table_some _ _ _ _ _ _ H Ht) as [x Hx].
  assert (Hne : t <> fresh s) by congruence. destruct Ht as (y & Hy & Hty). assert (Hpc : pr <> child) by (intros ->; destruct Hu as [Hu|Hu]; rewrite Hu in Hy; [done|]; injection Hy as <-; done).
  eapply (cur_run s1 pr t); [exists y; split; [unfold s1; cbn; by rewrite lookup_insert_ne|done]|]. eapply f_seq; [eapply (copy_loop_run (fresh s) t (not_eq_sym Hne) VFS_FD_MAX 0 s1 x (mkTable (replicate VFS_FD_MAX Free) 1)); [exact I1| |exact (lookup_insert_eq _ _ _)|lia|]|].
  - unfold s1. cbn. by rewrite lookup_insert_ne.
  - intros i Hi. cbn [t_slots]. apply lookup_replicate_2. lia.
  - intros [] s2 [I2 K2]. apply f_ret. split; [done|]. eapply modes_trans; [|apply K2]. apply modes_flags; [cbn; lia|done].
Qed.

Lemma clone_files_run s pr t child : I [] [] [] s -> table_of s pr t -> unused s child -> fruns (clone_files room pr child) s (fun _ s' => I [] [] [] s' /\ modes s s').
Proof.
  intros H Ht Hu. unfold clone_files. apply kalloc_run. intros r [->| ->]; [apply f_ret; split; [by apply next_I|apply next_modes]|]. pose proof (next_I base _ _ _ _ H) as I1. eapply (cur_run (next s) pr t); [done|]. destruct (table_some _ _ _ _ _ _ H Ht) as [x Hx]. eapply f_table; [exact Hx|].
  eapply f_bind, f_val; [reflexivity|]. eapply f_bind, f_val; [reflexivity|]. apply f_ret. destruct I1 as [C1 T1]. destruct (v_table _ _ T1 t x Hx) as (Hl & Hr & Hpos). split; [|apply modes_flags; [cbn; lia|done]]. split.
  - apply (cinv_tables [] [] (set_procs _ (next s))); [|intros p|intros p Hp].
    + apply cinv_procs; [done|]. intros p. cbn [procs next]. rewrite unused_sum by done. cbn [p_borrows tally]. lia.
    + cbn [tables set_procs next]. rewrite (msum_update _ _ _ x) by done. unfold slot_refs at 2 3. cbn [t_slots]. lia.
    + cbn [tables set_procs next]. destruct (c_new _ _ _ _ C1 p Hp) as (_ & _ & Hn). cbn in Hn. rewrite lookup_insert_ne; [done|congruence].
  - eapply (join_tinv (next s) _ child t); [done|done|reflexivity|reflexivity|done|cbn [t_refs]; lia|]. intros fd Hfd. by apply (v_slot _ _ T1 t x fd Hx), not_elem_of_nil in Hfd.
Qed.
End ops.

(** ** Any sequence of calls *)

Inductive call :=
  | CBegin | CEnd | CGet (fd : Z) | CClose (fd : Z) | CFcntl (fd cmd arg : Z) | CDup (fd : Z) | CDup2 (oldfd newfd : Z) | CDup3 (oldfd newfd flags : Z)
  | COpenNode (n : nat) (flags : Z) | CEventfd (flags : Z) | CTimerfd (flags : Z) | CSignalfd (fd flags : Z) | CPipe | CSocketpair | CExec | CFork (child : nat) | CClone (child : nat) | CExit.

Section calls.
Context (room : nat -> bool) (is_sock : nat -> bool) (seal_call : nat -> Z -> Z -> option Z).

Definition ignore {X} (m : F X) : F unit := m;; mret tt.

Definition run_call (pr : nat) (c : call) : F unit :=
  match c with
  | CBegin => vfs_syscall_borrow_begin pr
  | CEnd => vfs_syscall_borrow_end pr
  | CGet fd => ignore (fd_get pr fd)
  | CClose fd => ignore (fd_close pr fd)
  | CFcntl fd cmd arg => ignore (fd_fcntl room seal_call pr fd cmd arg)
  | CDup fd => ignore (fd_dup room seal_call pr fd)
  | CDup2 o n => ignore (fd_dup2 room pr o n)
  | CDup3 o n fl => ignore (fd_dup3 room pr o n fl)
  | COpenNode n fl => ignore (fd_open_node room pr n fl)
  | CEventfd fl => ignore (fd_eventfd room pr fl)
  | CTimerfd fl => ignore (fd_timerfd_create room pr fl)
  | CSignalfd fd fl => ignore (fd_signalfd room pr fd fl)
  | CPipe => ignore (fd_pipe room pr)
  | CSocketpair => ignore (fd_socketpair room pr)
  | CExec => vfs_cloexec_flush pr
  | CFork child => ignore (fork_fds room is_sock pr child)
  | CClone child => ignore (clone_files room pr child)
  | CExit => exit_fds pr
  end.

(** The process is there, a system call begins when none is under way, and a new
    process has a slot of the process table that is free. *)
Definition call_ok (s : fdst) (pr : nat) (c : call) : Prop :=
  (exists t, table_of s pr t) /\
  match c with CBegin => exists x, procs s !! pr = Some x /\ p_active x = false | CFork child | CClone child => unused s child | _ => True end.

(** The calls of all processes, in the order in which they are made. *)
Fixpoint run_calls (l : list (nat * call)) : F unit := match l with [] => mret tt | (pr, c) :: l => run_call pr c;; run_calls l end.
Fixpoint calls_ok (s : fdst) (l : list (nat * call)) : Prop :=
  match l with [] => True | (pr, c) :: l => call_ok s pr c /\ forall s', run_call pr c s = Some (tt, s') -> calls_ok s' l end.

Context (base : obj -> Z) (Hbase : forall o, 0 <= base o).

Lemma ignore_run {X} (m : F X) s Q : fruns m s (fun _ => Q) -> fruns (ignore m) s (fun _ => Q).
Proof. intros H. eapply f_seq; [exact H|]. intros x s' Hs. by apply f_ret. Qed.

Lemma run_call_ok s pr c : fdinv base s -> call_ok s pr c -> fruns (run_call pr c) s (fun _ s' => fdinv base s' /\ modes s s').
Proof.
  intros H [[t Ht] Hc]. pose proof Ht as (x & Hx & Htx). assert (Hk : forall X (m : F X), fruns m s (done_ok base [] s) -> fruns (ignore m) s (fun _ s' => fdinv base s' /\ modes s s')) by (intros X m Hm; apply ignore_run; eapply f_mono; [exact Hm|]; intros y s' [H1 H2]; split; [done|apply H2]).
  destruct c; cbn [run_call].
  - destruct Hc as (y & Hy & Ha). exact (begin_run base [] [] [] s pr y H Hy Ha).
  - eapply f_mono; [exact (end_run base Hbase [] [] [] s pr x H Hx)|]. intros [] s' (H1 & H2 & _). done.
  - eapply (get_run base Hbase [] [] []); [exact H|exact Ht|]. intros s' r H1 K1 _ _. apply f_ret. split; [done|apply K1].
  - by apply Hk, (fd_close_run base Hbase [] s pr t).
  - by apply Hk, (fd_fcntl_run base Hbase room seal_call [] s pr t).
  - by apply Hk, (fd_fcntl_run base Hbase room seal_call [] s pr t).
  - by apply Hk, (fd_dup2_run base Hbase room [] s pr t).
  - by apply Hk, (fd_dup3_run base Hbase room [] s pr t).
  - by apply Hk, (fd_open_node_run base room [] s pr t).
  - by apply Hk, (fd_eventfd_run base room [] s pr t).
  - by apply Hk, (fd_timerfd_run base room [] s pr t).
  - by apply Hk, (fd_signalfd_run base Hbase room [] s pr t).
  - by apply Hk, (fd_pipe_run base Hbase room [] s pr t).
  - by apply Hk, (fd_socketpair_run base Hbase room [] s pr t).
  - eapply f_mono; [exact (flush_run base Hbase [] pr t VFS_FD_MAX 0 s H Ht)|]. intros [] s' [H1 K1]. split; [done|apply K1].
  - by apply ignore_run, (fork_run base Hbase room is_sock s pr t).
  - by apply ignore_run, (clone_files_run base room s pr t).
  - eapply f_mono; [exact (exit_run base Hbase s pr x H Hx)|]. intros [] s' (H1 & H2 & _). done.
Qed.

Lemma run_calls_ok l : forall s, fdinv base s -> calls_ok s l -> fruns (run_calls l) s (fun _ s' => fdinv base s' /\ modes s s').
Proof.
  induction l as [|[pr c] l IH]; intros s H Hl; cbn [run_calls]; [apply f_ret; split; [done|apply modes_refl]|]. destruct Hl as [Hc Hl]. pose proof (run_call_ok s pr c H Hc) as Hr. apply f_eq in Hr as ([] & s1 & E & H1 & M1). eapply f_bind, f_val; [exact E|].
  eapply f_mono; [by apply IH, Hl|]. intros [] s2 [H2 M2]. split; [done|by eapply modes_trans].
Qed.
End calls.
