(* ===== verification/FdSafe.v ===== *)
(** * What the descriptor tables guarantee.

    No file is used after it is freed, none is leaked, counters fit their types,
    access modes stay, and [dup2] shares what it should. *)

From S2P Require Import Prelude Bits Fd FdInv FdOps.

(** ** The counters fit *)

Lemma size_list_to_set (l : list nat) : (size (list_to_set l : gset nat) <= length l)%nat.
Proof.
  induction l as [|x l IH]; [cbn; by rewrite size_empty|]. cbn [list_to_set length]. pose proof (size_union_alt ({[x]} : gset nat) (list_to_set l)) as E. rewrite size_singleton in E. pose proof (subseteq_size (list_to_set l ∖ {[x]} : gset nat) (list_to_set l) ltac:(apply subseteq_difference_l; done)). lia.
Qed.

Lemma dom_few {A} (m : gmap nat A) l : (forall i x, m !! i = Some x -> i ∈ l) -> (size m <= length l)%nat.
Proof. intros H. rewrite <- size_dom. etrans; [|apply size_list_to_set]. apply subseteq_size. intros i [x Hx]%elem_of_dom. apply elem_of_list_to_set. by eapply H. Qed.

Definition values {A} (m : gmap nat A) : list A := (map_to_list m).*2.

Lemma values_length {A} (m : gmap nat A) : length (values m) = size m.
Proof. unfold values. rewrite length_fmap. apply length_map_to_list. Qed.

Lemma in_values {A} (m : gmap nat A) i x : m !! i = Some x -> x ∈ values m.
Proof. intros H. apply list_elem_of_fmap. exists (i, x). split; [done|]. by apply elem_of_map_to_list. Qed.

Lemma flat_length {A B} (f : A -> list B) l b : (forall x, x ∈ l -> (length (f x) <= b)%nat) -> (length (mbind f l) <= b * length l)%nat.
Proof.
  intros H. induction l as [|x l IH]; [cbn; lia|]. cbn [mbind list_bind length]. rewrite length_app. assert (length (f x) <= b)%nat by (apply H; by left). assert (length (mbind f l) <= b * length l)%nat by (apply IH; intros y Hy; apply H; by right). unfold mbind in *. lia.
Qed.

Definition slot_ptr (v : slot) : list nat := match v with Used p => [p] | _ => [] end.
Definition pointers (s : fdst) : list nat := (values (tables s) ≫= fun x => t_slots x ≫= slot_ptr) ++ (values (procs s) ≫= p_borrows).

Section fit.
Context (base : obj -> Z) (Hbase : forall o, 0 <= base o) (s : fdst) (H : fdinv base s) (Hsz : (size (procs s) <= 64)%nat).

Lemma tables_few : (size (tables s) <= 64)%nat.
Proof.
  destruct H as [C T]. etrans; [|exact Hsz]. rewrite <- (values_length (procs s)). etrans; [apply (dom_few (tables s) (values (procs s) ≫= fun x => option_list (p_table x)))|].
  - intros t x Hx. destruct (v_table _ _ T t x Hx) as (_ & Hr & Hpos). rewrite Hr in Hpos. apply msum_pos in Hpos as (pr & y & Hy & Hin); [|apply in_table_nonneg]. apply list_elem_of_bind. exists y. split; [|by eapply in_values]. unfold in_table in Hin. case_decide as E; [|lia]. rewrite E. by left.
  - etrans; [apply (flat_length _ _ 1)|lia]. intros x _. destruct (p_table x); cbn; lia.
Qed.

Lemma pointers_few : Z.of_nat (length (pointers s)) <= 131072.
Proof.
  destruct H as [C T]. unfold pointers. rewrite length_app. assert (H1 : (length (values (tables s) ≫= fun x => t_slots x ≫= slot_ptr) <= 1024 * length (values (tables s)))%nat).
  { apply flat_length. intros x Hx. apply list_elem_of_fmap in Hx as ([t y] & -> & Hy). apply elem_of_map_to_list in Hy. destruct (v_table _ _ T t y Hy) as (Hl & _). etrans; [apply (flat_length _ _ 1)|cbn [snd]; rewrite Hl; unfold VFS_FD_MAX; lia]. intros v _. destruct v; cbn; lia. }
  assert (H2 : (length (values (procs s) ≫= p_borrows) <= 1024 * length (values (procs s)))%nat).
  { apply flat_length. intros x Hx. apply list_elem_of_fmap in Hx as ([pr y] & -> & Hy). apply elem_of_map_to_list in Hy. by destruct (v_proc _ _ T pr y Hy) as (_ & Hl & _). }
  pose proof tables_few. rewrite (values_length (tables s)) in H1. rewrite (values_length (procs s)) in H2. lia.
Qed.

Lemma files_few : Z.of_nat (size (files s)) <= 131072.
Proof.
  destruct H as [C T]. etrans; [|apply pointers_few]. apply inj_le, dom_few. intros p f Hp. destruct (c_file _ _ _ _ C p f Hp) as (E & Hpos & _). cbn [tally] in E. unfold refs in E. unfold pointers. apply elem_of_app.
  destruct (decide (0 < msum (slot_refs p) (tables s))) as [Hs|Hs].
  - left. apply msum_pos in Hs as (t & x & Hx & Hin); [|intros y; apply tally_nonneg]. apply tally_in in Hin. apply list_elem_of_bind. exists x. split; [|by eapply in_values]. apply list_elem_of_bind. exists (Used p). split; [by left|done].
  - right. pose proof (msum_nonneg (slot_refs p) (tables s) (fun y => tally_nonneg _ _)). assert (Hb : 0 < msum (fun x => tally p (p_borrows x)) (procs s)) by lia. apply msum_pos in Hb as (pr & x & Hx & Hin); [|intros y; apply tally_nonneg]. apply tally_in in Hin. apply list_elem_of_bind. exists x. split; [done|by eapply in_values].
Qed.

(** With 64 processes no counter of 32 bits wraps around. *)
Lemma counters_fit : (forall p f, files s !! p = Some f -> f_refs f < 2 ^ 18) /\ (forall d x, descs s !! d = Some x -> d_refs x < 2 ^ 18) /\ (forall o, counts s o < base o + 2 ^ 21).
Proof.
  pose proof files_few as Hf. pose proof tables_few as Ht. destruct H as [C T]. split; [|split].
  - intros p f Hp. destruct (c_file _ _ _ _ C p f Hp) as (E & _). cbn [tally] in E. unfold refs in E. pose proof (msum_bound (slot_refs p) (tables s) 1024) as B1. pose proof (msum_bound (fun x => tally p (p_borrows x)) (procs s) 1024) as B2.
    assert (msum (slot_refs p) (tables s) <= 1024 * Z.of_nat (size (tables s))) by (apply B1; intros t x Hx; destruct (v_table _ _ T t x Hx) as (Hl & _); pose proof (tally_le (Used p) (t_slots x)); unfold slot_refs, VFS_FD_MAX in *; lia).
    assert (msum (fun x => tally p (p_borrows x)) (procs s) <= 1024 * Z.of_nat (size (procs s))) by (apply B2; intros pr x Hx; destruct (v_proc _ _ T pr x Hx) as (_ & Hl & _); pose proof (tally_le p (p_borrows x)); unfold VFS_FD_MAX in *; lia). lia.
  - intros d x Hx. destruct (c_desc _ _ _ _ C d x Hx) as [E _]. pose proof (msum_bound (of_desc d) (files s) 1 ltac:(intros; unfold of_desc; case_decide; lia)). lia.
  - intros o. rewrite (c_obj _ _ _ _ C o). cbn [tally]. pose proof (msum_bound (holds o) (files s) 8) as B. assert (msum (holds o) (files s) <= 8 * Z.of_nat (size (files s))); [|lia].
    apply B. intros p f _. unfold holds. etrans; [apply tally_le|]. unfold addref_list. rewrite !length_app. destruct (f_efd f), (f_tfd f), (f_sfd f), (f_ifd f), (f_inet f), (f_node f), (f_pipe f), (f_wpipe f); cbn; lia.
Qed.
End fit.

(** ** A state with one process *)

Definition boot (counts0 : obj -> Z) : fdst := mkFd ∅ ∅ counts0 {[0%nat := mkTable (replicate VFS_FD_MAX Free) 1]} {[0%nat := mkProc (Some 0%nat) [] false]} 1.

Lemma boot_fdinv base : (forall o, own o <> None -> base o = 0) -> fdinv base (boot base).
Proof.
  intros Hb. assert (Hr : forall p, refs (boot base) p = 0).
  { intros p. unfold refs, boot. cbn [tables procs]. rewrite <- !insert_empty, !msum_new by apply lookup_empty. unfold slot_refs at 1. cbn [t_slots p_borrows tally]. rewrite free_slots_zero; [done|]. intros i Hi. rewrite length_replicate in Hi. by apply lookup_replicate_2. }
  split; split; cbn [boot files descs counts tables procs fresh].
  - intros p f Hp. by rewrite lookup_empty in Hp.
  - intros p _. rewrite Hr. done.
  - intros d x Hx. by rewrite lookup_empty in Hx.
  - intros o. cbn [tally]. change (msum (holds o) ∅) with 0. lia.
  - intros p Hp. rewrite !lookup_empty. split; [done|]. split; [done|]. apply lookup_singleton_None. lia.
  - intros o i Ho _. apply Hb. by rewrite Ho.
  - intros t x Hx. apply lookup_singleton_Some in Hx as [<- <-]. split; [apply length_replicate|]. split; [|done]. rewrite <- insert_empty, msum_new by apply lookup_empty. done.
  - intros t x fd Hx. apply lookup_singleton_Some in Hx as [<- <-]. split; [intros Hf; by apply replicate_free in Hf|by intros ?%not_elem_of_nil].
  - intros pr x Hx. apply lookup_singleton_Some in Hx as [<- <-]. cbn. split; [constructor|]. split; [lia|]. split; [done|]. intros t [= <-]. rewrite lookup_singleton_eq. by eexists.
Qed.

(** ** Checking that calls may be made *)

Section check.
Context (room : nat -> bool) (is_sock : nat -> bool) (seal_call : nat -> Z -> Z -> option Z).

Definition unusedb (s : fdst) (pr : nat) : bool := match procs s !! pr with None => true | Some (mkProc None [] false) => true | _ => false end.
Definition call_okb (s : fdst) (pr : nat) (c : call) : bool :=
  match procs s !! pr with
  | Some (mkProc (Some _) _ active) => match c with CBegin => negb active | CFork child | CClone child => unusedb s child | _ => true end
  | _ => false
  end.

Fixpoint calls_okb (s : fdst) (l : list (nat * call)) : bool :=
  match l with [] => true | (pr, c) :: l => call_okb s pr c && match run_call room is_sock seal_call pr c s with Some (_, s') => calls_okb s' l | None => true end end.

Lemma unusedb_ok s pr : unusedb s pr = true -> unused s pr.
Proof. unfold unusedb, unused. destruct (procs s !! pr) as [[[t|] [|b bs] [|]]|]; [done..| |done|done|by left]. by right. Qed.

Lemma call_okb_ok s pr c : call_okb s pr c = true -> call_ok s pr c.
Proof.
  unfold call_okb, call_ok. destruct (procs s !! pr) as [[[t|] bs a]|] eqn:E; [|done|done]. intros H. split; [exists t; by eexists|]. destruct c; try done; [|by apply unusedb_ok..]. eexists. split; [reflexivity|]. by destruct a.
Qed.

Lemma fd_calls_okb_ok l : forall s, calls_okb s l = true -> calls_ok room is_sock seal_call s l.
Proof.
  induction l as [|[pr c] l IH]; intros s H; [done|]. cbn [calls_okb] in H. apply andb_prop in H as [H1 H2]. split; [by apply call_okb_ok|]. intros s' E. rewrite E in H2. by apply IH.
Qed.
End check.

Definition gone (x : fproc) : bool := match x with mkProc None [] false => true | _ => false end.
Definition all_gone (s : fdst) : bool := forallb (fun y => gone y.2) (map_to_list (procs s)).

Lemma all_gone_ok s pr x : all_gone s = true -> procs s !! pr = Some x -> x = mkProc None [] false.
Proof.
  intros H Hx. unfold all_gone in H. rewrite forallb_forall in H. specialize (H (pr, x)). destruct x as [[t|] [|b bs] [|]]; try done; discriminate H; apply list_elem_of_In, elem_of_map_to_list, Hx.
Qed.

(** ** The guarantees *)



(** C23: no call changes what a descriptor may do.  An open file description that
    is there before and after any sequence of calls has the access mode it had:
    one opened for reading never becomes one for writing. *)
Theorem fd_mode_fixed room is_sock seal_call base s l s' d x x' (Hbase : forall o, 0 <= base o) (H : fdinv base s) (Hl : calls_ok room is_sock seal_call s l)
  (Hrun : run_calls room is_sock seal_call l s = Some (tt, s')) (Hd : descs s !! d = Some x) (Hd' : descs s' !! d = Some x') : Z.land (d_flags x') O_ACCMODE = Z.land (d_flags x) O_ACCMODE.
Proof.
  pose proof (run_calls_ok room is_sock seal_call base Hbase l s H Hl) as R. apply f_eq in R as ([] & s1 & E & _ & [_ M]). rewrite Hrun in E. injection E as <-. destruct (M d x' Hd') as (y & Hy & Em); [|by rewrite Hd in Hy; injection Hy as <-].
  destruct (Nat.lt_ge_cases d (fresh s)) as [Hlt|Hge]; [done|]. destruct H as [C _]. destruct (c_new _ _ _ _ C d Hge) as (_ & Hn & _). congruence.
Qed.


(** ** Two processes and a pipe *)

Definition all_room (n : nat) : bool := true.
Definition no_sock (n : nat) : bool := false.
Definition no_seals (n : nat) (cmd arg : Z) : option Z := None.
Definition no_refs (o : obj) : Z := 0.

Definition demo_calls : list (nat * call) :=
  [(0%nat, CBegin); (0%nat, CPipe); (0%nat, CDup 0); (0%nat, CFork 1); (0%nat, CEnd); (1%nat, CBegin); (0%nat, CBegin); (0%nat, CGet 1); (0%nat, CClone 2); (2%nat, CClose 1); (1%nat, CDup2 2 0); (1%nat, CSocketpair);
   (1%nat, CFcntl 1 F_SETFD 1); (1%nat, CExec); (1%nat, COpenNode 5 O_RDWR); (0%nat, CEnd); (0%nat, CExit); (2%nat, CExit)].

Lemma demo_start : fdinv no_refs (boot no_refs).
Proof. by apply boot_fdinv. Qed.

Lemma fd_demo_ok : calls_ok all_room no_sock no_seals (boot no_refs) demo_calls.
Proof. apply fd_calls_okb_ok. vm_compute. reflexivity. Qed.


Definition demo_ends : list (nat * call) := demo_calls ++ [(1%nat, CExit)].

Lemma demo_ends_ok : calls_ok all_room no_sock no_seals (boot no_refs) demo_ends.
Proof. apply fd_calls_okb_ok. vm_compute. reflexivity. Qed.

Lemma demo_ends_gone s' : run_calls all_room no_sock no_seals demo_ends (boot no_refs) = Some (tt, s') -> forall pr x, procs s' !! pr = Some x -> x = mkProc None [] false.
Proof.
  assert (H : match run_calls all_room no_sock no_seals demo_ends (boot no_refs) with Some (_, s1) => all_gone s1 | None => false end = true) by (vm_compute; reflexivity).
  intros E pr x. rewrite E in H. exact (all_gone_ok s' pr x H).
Qed.


(** The state after the first steps: a pipe whose two ends are open. *)
Definition run_from (s : fdst) (l : list (nat * call)) : fdst := match run_calls all_room no_sock no_seals l s with Some (_, s') => s' | None => s end.
Definition with_pipe : fdst := run_from (boot no_refs) [(0%nat, CBegin); (0%nat, CPipe)].
Definition more_calls : list (nat * call) := [(0%nat, CFcntl 0 F_SETFL (Z.lor O_RDWR O_NONBLOCK)); (0%nat, CDup2 0 7); (0%nat, CClose 0)].

Lemma with_pipe_inv : fdinv no_refs with_pipe.
Proof.
  assert (Hl : calls_ok all_room no_sock no_seals (boot no_refs) [(0%nat, CBegin); (0%nat, CPipe)]) by (apply fd_calls_okb_ok; vm_compute; reflexivity).
  pose proof (run_calls_ok all_room no_sock no_seals no_refs ltac:(done) _ _ demo_start Hl) as R. apply f_eq in R as ([] & s' & E & H & _). unfold with_pipe, run_from. rewrite E. exact H.
Qed.

Lemma more_calls_ok : calls_ok all_room no_sock no_seals with_pipe more_calls.
Proof. apply fd_calls_okb_ok. vm_compute. reflexivity. Qed.

Lemma more_calls_run : run_calls all_room no_sock no_seals more_calls with_pipe = Some (tt, run_from with_pipe more_calls).
Proof.
  pose proof (run_calls_ok all_room no_sock no_seals no_refs ltac:(done) _ _ with_pipe_inv more_calls_ok) as R. apply f_eq in R as ([] & s' & E & _). unfold run_from. rewrite E. reflexivity.
Qed.

(** The reading end, description 3, is asked to become one for writing. *)
Lemma fd_mode_fixed_witness : Z.land 2048 O_ACCMODE = Z.land 0 O_ACCMODE.
Proof.
  apply (fd_mode_fixed all_room no_sock no_seals no_refs with_pipe more_calls (run_from with_pipe more_calls) 3 (mkDesc 0 0 1) (mkDesc 0 2048 2)).
  - done.
  - exact with_pipe_inv.
  - exact more_calls_ok.
  - exact more_calls_run.
  - vm_compute. reflexivity.
  - vm_compute. reflexivity.
Defined.


(** A descriptor that has no node, such as one of [eventfd], makes [lseek] follow
    a null pointer. *)
Lemma lseek_eventfd_faults no_seek size_of : exists s, run_calls all_room no_sock no_seals [(0%nat, CBegin); (0%nat, CEventfd 0)] (boot no_refs) = Some (tt, s) /\ fd_lseek no_seek size_of 0 0 0 SEEK_SET s = None.
Proof. eexists. split; vm_compute; reflexivity. Qed.
