(* ===== verification/Eventfd.v ===== *)
(** * Event counters, timers and signal descriptors.

    Models what is behind the descriptors of [kernel/fs/eventfd.c] and
    [kernel/fs/signalfd.c].  A section under the lock of an object is one step;
    [erun] interleaves the steps of the processes that read and write an event
    counter, which sleep and wake each other through the table of [Proc.v].  A
    timer is read at a given tick.  The functions get the object behind a
    descriptor; finding it and the reference counts are in [Fd.v].
    [poll_notify_object], which wakes processes in [poll], is left out. *)

From S2P Require Import Prelude Bits Bytes Proc Signal Pipe.

Definition EFD_SEMAPHORE : Z := 1.
Definition TFD_TIMER_ABSTIME : Z := 1.
Definition CLOCK_REALTIME : Z := 0.
Definition E_AGAIN : Z := 11.
Definition E_INVAL : Z := 22.
Definition E_INTR : Z := 4.

(** ** Event counters *)

Record eventfd_state_t := mkEvent { counter : Z; semaphore : bool; waiter : option nat }.

(** The object [fd_eventfd] allocates. *)
Definition eventfd_new (initval eflags : Z) : eventfd_state_t := mkEvent initval (ztrue (Z.land eflags EFD_SEMAPHORE)) None.

(** Where a process is in [eventfd_read]. *)
Inductive epc := EIdle | ERead | ESleep | EAwake | ERet (r : Z) (val : option Z).

Record eworld := mkE { ev : eventfd_state_t; esy : sys; epcs : list epc }.

Definition epc_at (w : eworld) (t : nat) : epc := aget EIdle (epcs w) t.
Definition egoto (t : nat) (c : epc) (e : eventfd_state_t) (s : sys) (w : eworld) : eworld := mkE e s (<[t := c]> (epcs w)).

Inductive elabel := ESilent | EPut (v : Z) | EGet (v : Z).

(** One round of the loop; [nb] is whether the description has [O_NONBLOCK]. *)
Definition eventfd_read (t : nat) (nb : bool) (w : eworld) : eworld * elabel :=
  let e := ev w in
  if ztrue (counter e) then
    let '(val, c) := if semaphore e then (1, u64 (counter e - 1)) else (counter e, 0) in
    (egoto t (ERet 8 (Some val)) (mkEvent c (semaphore e) (waiter e)) (esy w) w, EGet val)
  else if nb then (egoto t (ERet (- E_AGAIN) None) e (esy w) w, ESilent)
  else (egoto t ESleep (mkEvent (counter e) (semaphore e) (Some t)) (upd t (set_state PROC_WAITING) (esy w)) w, ESilent).

Definition wake_reader (x : option nat) (s : sys) : sys := match x with Some i => wake i s | None => s end.

Definition eventfd_write (t : nat) (len val : Z) (w : eworld) : eworld * elabel :=
  if len <? 8 then (egoto t (ERet (- E_INVAL) None) (ev w) (esy w) w, ESilent) else
  if val =? U64_MAX then (egoto t (ERet (- E_INVAL) None) (ev w) (esy w) w, ESilent) else
  let e := ev w in
  (egoto t (ERet 8 None) (mkEvent (u64 (counter e + val)) (semaphore e) None) (wake_reader (waiter e) (esy w)) w, EPut val).

Definition estep (t : nat) (nb : bool) (w : eworld) : option (eworld * elabel) :=
  match epc_at w t with
  | EIdle | ERet _ _ => None
  | ERead => Some (eventfd_read t nb w)
  | ESleep => s ← sched_resume t (esy w); Some (egoto t EAwake (ev w) s w, ESilent)
  | EAwake =>
      let e := ev w in
      Some (egoto t ERead (mkEvent (counter e) (semaphore e) (if bool_decide (waiter e = Some t) then None else waiter e)) (esy w) w, ESilent)
  end.

Inductive eevent := ECallRead (t : nat) (len : Z) | ECallWrite (t : nat) (len val : Z) | EStep (t : nat) (nb : bool) | ESignal (t : nat) (sig : Z).

Definition idle (c : epc) : bool := match c with EIdle | ERet _ _ => true | _ => false end.

Definition eexec (x : eevent) (w : eworld) : option (eworld * elabel) :=
  match x with
  | ECallRead t len => if idle (epc_at w t) then Some (egoto t (if len <? 8 then ERet (- E_INVAL) None else ERead) (ev w) (esy w) w, ESilent) else None
  | ECallWrite t len val => if idle (epc_at w t) then Some (eventfd_write t len val w) else None
  | EStep t nb => estep t nb w
  | ESignal t sig => Some (mkE (ev w) (proc_send_signal t sig (esy w)) (epcs w), ESilent)
  end.

Fixpoint erun (l : list eevent) (w : eworld) : option (eworld * list elabel) :=
  match l with
  | [] => Some (w, [])
  | x :: l => '(w, a) ← eexec x w; '(w, k) ← erun l w; Some (w, a :: k)
  end.

Definition estart (initval eflags : Z) (s : sys) : eworld := mkE (eventfd_new initval eflags) s (replicate 64 EIdle).

(** ** Timers *)

Record timerfd_state_t := mkTimer { clockid : Z; interval_ms : Z; next_tick : Z; overruns : Z; t_waiter : option nat }.
Record ktimespec_t := mkSpec { sec : Z; nsec : Z }.
Record kitimerspec_t := mkIt { interval : ktimespec_t; value : ktimespec_t }.

Definition timerfd_new (clock : Z) : timerfd_state_t := mkTimer clock 0 0 0 None.

Definition to_ms (x : ktimespec_t) : Z := u64 (u64 (sec x * 1000) + nsec x / 1000000).
Definition of_ms (ms : Z) : ktimespec_t := mkSpec (ms / 1000) (ms `mod` 1000 * 1000000).

Definition fd_timerfd_gettime (g_ticks : Z) (t : timerfd_state_t) : kitimerspec_t :=
  let remaining_ms := if g_ticks <? next_tick t then next_tick t - g_ticks else 0 in
  mkIt (of_ms (interval_ms t)) (of_ms remaining_ms).

(** [now] is [realtime_now_ms()]; the old value is that of
    [fd_timerfd_gettime]. *)
Definition fd_timerfd_settime (flags : Z) (new_val : kitimerspec_t) (g_ticks now : Z) (t : timerfd_state_t) (s : sys) : timerfd_state_t * kitimerspec_t * sys :=
  let old_val := fd_timerfd_gettime g_ticks t in
  let val_ms := to_ms (value new_val) in
  let next :=
    if negb (ztrue val_ms) && negb (ztrue (sec (value new_val))) && negb (ztrue (nsec (value new_val))) then 0
    else if ztrue (Z.land flags TFD_TIMER_ABSTIME) then
      let base_ms := if clockid t =? CLOCK_REALTIME then now else g_ticks in
      if base_ms <? val_ms then u64 (g_ticks + (val_ms - base_ms)) else g_ticks
    else u64 (g_ticks + val_ms) in
  (mkTimer (clockid t) (to_ms (interval new_val)) next 0 None, old_val, wake_reader (t_waiter t) s).

(** One round of the loop of [timerfd_read]: the value read, or the result when
    nothing is due; a process that goes to sleep sets its wake-up tick. *)
Inductive tround := TRead (val : Z) | TAgain | TSleep.

Definition timerfd_read (p : nat) (nb : bool) (g_ticks : Z) (t : timerfd_state_t) (s : sys) : timerfd_state_t * sys * tround :=
  if ztrue (next_tick t) && (next_tick t <=? g_ticks) then
    let next := if ztrue (interval_ms t) then u64 (next_tick t + interval_ms t) else 0 in
    (mkTimer (clockid t) (interval_ms t) next 0 (t_waiter t), s, TRead (u64 (1 + overruns t)))
  else if nb then (t, s, TAgain)
  else
    let s := if ztrue (next_tick t) then proc_set_timer p (upd p (set_wakeup_tick (next_tick t)) s) else s in
    (mkTimer (clockid t) (interval_ms t) (next_tick t) (overruns t) (Some p), upd p (set_state PROC_WAITING) s, TSleep).

(** ** Signal descriptors *)

Definition SIGINFO_SIZE : Z := 128.

(** The mask that [fd_signalfd] stores. *)
Definition signalfd_mask (mask : Z) : Z := clear_bits mask (Z.lor (SIG_BIT SIGKILL) (SIG_BIT SIGSTOP)).

Definition signalfd_pollin (mask : Z) (p : proc_t) : bool := ztrue (Z.land (pending_sigs p) mask).

Definition fill_siginfo (sig : Z) (p : proc_t) : list Z := le_bytes 4 sig ++ replicate 8 0 ++ le_bytes 4 (pid p) ++ le_bytes 4 (uid p) ++ replicate 108 0.

(** One round of the loop: the process is not told apart from one that yields. *)
Inductive sround := SRead (buf : list Z) | SErr (e : Z) | SYield.

Definition signalfd_read (mask : Z) (nb : bool) (len : Z) (i : nat) (s : sys) : sys * sround :=
  if len <? SIGINFO_SIZE then (s, SErr (- E_INVAL)) else
  let bits := Z.land (pending_sigs (proc_at s i)) mask in
  if ztrue bits then
    let sig := ctzll bits + 1 in
    (upd i (fun p => set_pending_sigs (clear_bits (pending_sigs p) (SIG_BIT sig)) p) s, SRead (fill_siginfo sig (proc_at s i)))
  else if nb then (s, SErr (- E_AGAIN))
  else if ztrue (proc_blocking_sig_mask (proc_at s i)) then (s, SErr (- E_INTR)) else (s, SYield).

(** ** Every wake-up counts *)

Fixpoint eputs (l : list elabel) : Z := match l with [] => 0 | EPut v :: l => v + eputs l | _ :: l => eputs l end.
Fixpoint egots (l : list elabel) : list Z := match l with [] => [] | EGet v :: l => v :: egots l | _ :: l => egots l end.
Definition total (l : list Z) : Z := foldr Z.add 0 l.

Definition event_ok (x : eevent) : Prop :=
  match x with ECallRead t _ | EStep t _ | ESignal t _ => (t < 64)%nat | ECallWrite t _ v => (t < 64)%nat /\ is_u64 v end.

Definition reads_by (r : nat) (x : eevent) : Prop := match x with ECallRead t _ => t = r | _ => True end.

Definition asleep (w : eworld) (r : nat) : Prop := epc_at w r = ESleep /\ state (proc_at (esy w) r) = PROC_WAITING.

Record einv (w : eworld) : Prop := mkEinv { ei_len : length (epcs w) = 64%nat; ei_wf : wf (esy w); ei_cnt : is_u64 (counter (ev w)); ei_wait i : waiter (ev w) = Some i -> (i < 64)%nat }.

(** The only process that reads sleeps only on a counter that is zero, and is
    registered for the next write. *)
Record one_reader (r : nat) (w : eworld) : Prop := mkOne {
  or_idle t : t <> r -> idle (epc_at w t) = true;
  or_sleep : asleep w r -> counter (ev w) = 0 /\ waiter (ev w) = Some r;
}.

Lemma epc_goto t c e s w t' : length (epcs w) = 64%nat -> (t < 64)%nat -> epc_at (egoto t c e s w) t' = if decide (t = t') then c else epc_at w t'.
Proof.
  intros Hl Ht. unfold epc_at, egoto. cbn [epcs]. rewrite aget_insert by lia. done.
Qed.

Lemma egoto_len t c e s w : length (epcs (egoto t c e s w)) = length (epcs w).
Proof. cbn. apply length_insert. Qed.

Definition fair (sem : bool) (v : Z) : Prop := 0 < v /\ (sem = true -> v = 1).

(** What one event does to the counter. *)
Definition balanced (w w' : eworld) (a : elabel) : Prop :=
  semaphore (ev w') = semaphore (ev w) /\ (counter (ev w') + total (egots [a])) `mod` 2 ^ 64 = (counter (ev w) + eputs [a]) `mod` 2 ^ 64 /\ Forall (fair (semaphore (ev w))) (egots [a]).

Lemma balanced_silent w w' : semaphore (ev w') = semaphore (ev w) -> counter (ev w') = counter (ev w) -> balanced w w' ESilent.
Proof. intros H1 H2. split; [done|]. split; [by rewrite H2|constructor]. Qed.

Lemma einv_goto t c e s w : einv w -> wf s -> is_u64 (counter e) -> (forall i, waiter e = Some i -> (i < 64)%nat) -> einv (egoto t c e s w).
Proof. intros [H1 _ _ _] H2 H3 H4. split; [by rewrite egoto_len|done|done|done]. Qed.

Lemma read_balanced t nb w w' a : einv w -> (t < 64)%nat -> eventfd_read t nb w = (w', a) -> einv w' /\ balanced w w' a.
Proof.
  intros I Ht E. pose proof (ei_wf w I) as Hw. pose proof (ei_cnt w I) as Hc. pose proof (ei_wait w I) as Hi. unfold eventfd_read in E. destruct (ztrue (counter (ev w))) eqn:Ez.
  - apply negb_true_iff, Z.eqb_neq in Ez. unfold is_u64 in Hc. destruct (semaphore (ev w)) eqn:Es; injection E as <- <-.
    + assert (Hu : u64 (counter (ev w) - 1) = counter (ev w) - 1) by (apply u64_small; unfold is_u64; lia). split; [apply einv_goto; [done|done|cbn; rewrite Hu; unfold is_u64; lia|done]|]. split; [done|]. cbn. rewrite Hu. split; [f_equal; lia|]. by repeat constructor.
    + split; [apply einv_goto; [done|done|cbn; unfold is_u64; lia|done]|]. split; [done|]. cbn. split; [f_equal; lia|]. repeat constructor; [lia|by rewrite Es].
  - destruct nb; injection E as <- <-; (split; [apply einv_goto; auto with kyro|by apply balanced_silent]). intros i [= <-]. done.
Qed.

Lemma write_balanced t len v w w' a : einv w -> (t < 64)%nat -> is_u64 v -> eventfd_write t len v w = (w', a) -> einv w' /\ balanced w w' a.
Proof.
  intros I Ht Hv E. pose proof (ei_wf w I) as Hw. pose proof (ei_cnt w I) as Hc. pose proof (ei_wait w I) as Hi. unfold eventfd_write in E.
  destruct (len <? 8); [injection E as <- <-; split; [by apply einv_goto|by apply balanced_silent]|]. destruct (v =? U64_MAX); injection E as <- <-; [split; [by apply einv_goto|by apply balanced_silent]|].
  split; [apply einv_goto; [done| |apply u64_range|done]|].
  - destruct (waiter (ev w)) as [i|] eqn:Ew; [|done]. apply wf_wake; [done|by apply Hi].
  - split; [done|]. split; [|constructor]. cbn [ev egoto counter egots eputs total foldr]. unfold u64. rewrite Z.add_0_r, Z.add_0_r. apply Z.mod_mod. lia.
Qed.

Lemma resume_wf t s s' : wf s -> sched_resume t s = Some s' -> wf s'.
Proof. unfold sched_resume. intros Hw. destruct (state (proc_at s t) =? PROC_READY); [|done]. intros [= <-]. auto with kyro. Qed.

Lemma exec_balanced x w w' a : event_ok x -> einv w -> eexec x w = Some (w', a) -> einv w' /\ balanced w w' a.
Proof.
  intros Hx I E. pose proof (ei_wf w I) as Hw. pose proof (ei_cnt w I) as Hc. pose proof (ei_wait w I) as Hi. destruct x as [t len|t len v|t nb|t sig]; cbn [eexec event_ok] in *.
  - destruct (idle (epc_at w t)); [|done]. injection E as <- <-. split; [by apply einv_goto|by apply balanced_silent].
  - destruct (idle (epc_at w t)); [|done]. apply (inj Some) in E. destruct Hx as [Ht Hv]. exact (write_balanced t len v w w' a I Ht Hv E).
  - unfold estep in E. destruct (epc_at w t); [done|apply (inj Some) in E; exact (read_balanced t nb w w' a I Hx E)| | |done].
    + destruct (sched_resume t (esy w)) as [s|] eqn:Es; [|done]. injection E as <- <-. split; [|by apply balanced_silent]. apply einv_goto; [done|by eapply resume_wf|done|done].
    + injection E as <- <-. split; [|by apply balanced_silent]. apply einv_goto; [done|done|done|]. cbn. intros i. case_bool_decide; [done|apply Hi].
  - injection E as <- <-. split; [|by apply balanced_silent]. destruct I. split; [done|by apply (send_signal_calm (esy w) t sig 0)|done|done].
Qed.

(** ** The sleeper is woken *)

Lemma one_goto r t c e s w : einv w -> (t < 64)%nat -> one_reader r w -> (t = r \/ idle c = true) ->
  (forall c', (if decide (t = r) then c else epc_at w r) = c' -> c' = ESleep -> state (proc_at s r) = PROC_WAITING -> counter e = 0 /\ waiter e = Some r) -> one_reader r (egoto t c e s w).
Proof.
  intros I Ht [Hi _] Hc Hs. split.
  - intros t' Hne. rewrite epc_goto by (done || apply I). destruct (decide (t = t')) as [<-|]; [|by apply Hi]. by destruct Hc.
  - intros [H1 H2]. rewrite epc_goto in H1 by (done || apply I). by eapply Hs.
Qed.

Lemma sleeping_pc r w c' : epc_at w r = c' -> c' = ESleep -> state (proc_at (esy w) r) = PROC_WAITING -> asleep w r.
Proof. intros <- H1 H2. done. Qed.

Lemma exec_one r x w w' a : event_ok x -> (r < 64)%nat -> reads_by r x -> einv w -> one_reader r w -> eexec x w = Some (w', a) -> one_reader r w'.
Proof.
  intros Hx Hr Hby I O E. destruct (ei_wf w I) as [Hlen _]. pose proof (or_sleep r w O) as Hs. destruct x as [t len|t len v|t nb|t sig]; cbn [eexec event_ok reads_by] in *.
  - subst t. destruct (idle (epc_at w r)); [|done]. injection E as <- <-. apply one_goto; [done|done|done|by left|]. rewrite decide_True by done. intros c' <-. by destruct (len <? 8).
  - destruct Hx as [Ht Hv]. destruct (idle (epc_at w t)) eqn:Et; [|done]. apply (inj Some) in E. unfold eventfd_write in E.
    destruct (len <? 8); [|destruct (v =? U64_MAX)]; injection E as <- <-; (apply one_goto; [done|done|done|by right|]); (destruct (decide (t = r)) as [->|]; [by intros c' <-|]).
    + intros c' H1 H2 H3. apply Hs. by eapply sleeping_pc.
    + intros c' H1 H2 H3. apply Hs. by eapply sleeping_pc.
    + intros c' H1 H2 H3. exfalso. assert (Ha : asleep w r). { split; [congruence|]. destruct (waiter (ev w)) as [i|] eqn:Ew; [|done]. cbn [wake_reader] in H3. pose proof (ei_wait w I i Ew). by apply (calm_wake (esy w) i r) in H3; [|apply I|]. }
      destruct (Hs Ha) as [_ Ew]. rewrite Ew in H3. cbn [wake_reader] in H3. rewrite proc_at_wake in H3 by lia. rewrite decide_True in H3 by done. destruct Ha as [_ Ha]. rewrite Ha in H3. done.
  - unfold estep in E. destruct (decide (t = r)) as [->|Hne]; [|pose proof (or_idle r w O t Hne) as Hi; by destruct (epc_at w t)]. destruct (epc_at w r) eqn:Ep; [done| | | |done].
    + apply (inj Some) in E. unfold eventfd_read in E. destruct (ztrue (counter (ev w))) eqn:Ez; [|destruct nb].
      * destruct (semaphore (ev w)); injection E as <- <-; (apply one_goto; [done|done|done|by left|]); rewrite decide_True by done; by intros c' <-.
      * injection E as <- <-. apply one_goto; [done|done|done|by left|]. rewrite decide_True by done. by intros c' <-.
      * injection E as <- <-. apply one_goto; [done|done|done|by left|]. intros _ _ _ _. split; [|done]. cbn. apply negb_false_iff, Z.eqb_eq in Ez. done.
    + destruct (sched_resume r (esy w)) as [s|]; [|done]. injection E as <- <-. apply one_goto; [done|done|done|by left|]. rewrite decide_True by done. by intros c' <-.
    + injection E as <- <-. apply one_goto; [done|done|done|by left|]. rewrite decide_True by done. by intros c' <-.
  - injection E as <- <-. split; [apply (or_idle r w O)|]. intros [H1 H2]. apply Hs. split; [done|]. by apply (send_signal_calm (esy w) t sig r) in H2; [|apply I|].
Qed.

Lemma erun_ok l : forall w w' ls, Forall event_ok l -> einv w -> erun l w = Some (w', ls) ->
  einv w' /\ semaphore (ev w') = semaphore (ev w) /\ (total (egots ls) + counter (ev w')) `mod` 2 ^ 64 = (counter (ev w) + eputs ls) `mod` 2 ^ 64 /\ Forall (fair (semaphore (ev w))) (egots ls) /\
  forall r, (r < 64)%nat -> Forall (reads_by r) l -> one_reader r w -> one_reader r w'.
Proof.
  induction l as [|x l IH]; intros w w' ls Hl I E; [injection E as <- <-; split_and!; try done; cbn; f_equal; lia|]. cbn [erun] in E.
  apply Forall_cons in Hl as [Hx Hl]. destruct (eexec x w) as [[w1 a]|] eqn:E1; [|done]. cbn [mbind option_bind] in E. destruct (erun l w1) as [[w2 k]|] eqn:E2; [|done]. injection E as <- <-.
  destruct (exec_balanced x w w1 a Hx I E1) as (I1 & S1 & B1 & F1). destruct (IH w1 w2 k Hl I1 E2) as (I2 & S2 & B2 & F2 & O2). split; [done|]. split; [congruence|]. rewrite S1 in F2.
  assert (Hg : total (egots (a :: k)) = total (egots [a]) + total (egots k) /\ eputs (a :: k) = eputs [a] + eputs k /\ Forall (fair (semaphore (ev w))) (egots (a :: k))).
  { destruct a; cbn [egots eputs total foldr] in *; fold (total (egots k)); (split; [lia|]); (split; [lia|]); [done|done|]. constructor; [by inversion F1|done]. }
  destruct Hg as (-> & -> & Hf). split; [|split; [done|]].
  - rewrite <- Z.add_assoc, (Z.add_mod (total (egots [a]))), B2, <- Z.add_mod by lia. replace (_ + (_ + eputs k)) with (counter (ev w1) + total (egots [a]) + eputs k) by lia. rewrite Z.add_mod, B1, <- Z.add_mod by lia. f_equal. lia.
  - intros r Hr Hby O. apply Forall_cons in Hby as [Hb1 Hb2]. apply O2; [done|done|]. exact (exec_one r x w w1 a Hx Hr Hb1 I O E1).
Qed.

Lemma start_ok init eflags s : wf s -> is_u64 init -> einv (estart init eflags s) /\ forall r, one_reader r (estart init eflags s).
Proof.
  intros Hs Hi. assert (Hp : forall t, epc_at (estart init eflags s) t = EIdle).
  { intros t. unfold epc_at, estart, aget. cbn [epcs]. destruct (replicate 64 EIdle !! t) eqn:E; [|done]. by apply lookup_replicate in E as [-> _]. }
  split; [by split|]. intros r. split; [intros t _; by rewrite Hp|]. intros [H _]. by rewrite Hp in H.
Qed.

(** C19: an event counter loses nothing.  Under every interleaving of readers,
    writers and signals the values read and the counter together are the initial
    value and the values written, as 64-bit sums; every value read is positive,
    and one in semaphore mode.  If only one process reads, it sleeps only while
    the counter is zero, and the next write makes it READY. *)
Theorem eventfd_correct init eflags s l w ls (Hs : wf s) (Hi : is_u64 init) (Hl : Forall event_ok l) (Hrun : erun l (estart init eflags s) = Some (w, ls)) :
  (total (egots ls) + counter (ev w)) `mod` 2 ^ 64 = (init + eputs ls) `mod` 2 ^ 64 /\ Forall (fair (semaphore (eventfd_new init eflags))) (egots ls) /\
  forall r, (r < 64)%nat -> Forall (reads_by r) l -> asleep w r ->
    counter (ev w) = 0 /\ forall t v, t <> r -> v <> U64_MAX -> exists w', eexec (ECallWrite t 8 v) w = Some (w', EPut v) /\ state (proc_at (esy w') r) = PROC_READY.
Proof.
  destruct (start_ok init eflags s Hs Hi) as [I O]. destruct (erun_ok l _ w ls Hl I Hrun) as (I' & _ & B & F & O'). split; [done|]. split; [done|].
  intros r Hr Hby Ha. specialize (O' r Hr Hby (O r)). destruct (or_sleep r w O' Ha) as [Hc Hw]. split; [done|]. intros t v Hne Hv. cbn [eexec]. rewrite (or_idle r w O' t Hne). unfold eventfd_write. rewrite (proj2 (Z.eqb_neq v U64_MAX) Hv). cbn [Z.ltb Z.compare Pos.compare Pos.compare_cont].
  eexists. split; [done|]. cbn [esy egoto]. rewrite Hw. cbn [wake_reader]. destruct (ei_wf w I') as [Hlen _]. rewrite proc_at_wake by lia. rewrite decide_True by done. destruct Ha as [_ ->]. done.
Qed.

(** A table of processes that all run. *)
Definition running : sys := mkSys (replicate 64 (set_state PROC_RUNNING proc0)) 0 0 0.

Lemma running_wf : wf running.
Proof. split_and!; done. Qed.

Definition demo_events : list eevent := [ECallWrite 0 8 3; ECallRead 1 8; EStep 1 false; ECallRead 1 8; EStep 1 false].

Lemma eventfd_correct_witness : exists w ls, erun demo_events (estart 4 0 running) = Some (w, ls) /\ egots ls = [7] /\ counter (ev w) = 0 /\ exists w', eexec (ECallWrite 2 8 5) w = Some (w', EPut 5) /\ state (proc_at (esy w') 1) = PROC_READY.
Proof.
  destruct (erun demo_events (estart 4 0 running)) as [[w ls]|] eqn:E; [|vm_compute in E; discriminate E]. exists w, ls.
  assert (Ha : asleep w 1 /\ egots ls = [7]). { vm_compute in E. injection E as <- <-. done. }
  destruct (eventfd_correct 4 0 running demo_events w ls running_wf) as (_ & _ & H); [split; lia|repeat constructor; lia|exact E|].
  destruct (H 1%nat) as [Hc Hw]; [lia|repeat constructor|apply Ha|]. split; [reflexivity|]. split; [apply Ha|]. split; [exact Hc|]. apply Hw; [lia|vm_compute; congruence].
Defined.

(** With two readers one is forgotten: the second to sleep takes the place of the
    first, which no later write wakes although there is something to read. *)
Lemma eventfd_second_reader_stranded : exists w ls,
  erun [ECallRead 1 8; EStep 1 false; ECallRead 2 8; EStep 2 false; ECallWrite 0 8 1; EStep 2 false; EStep 2 false; EStep 2 false; ECallWrite 0 8 5] (estart 0 0 running) = Some (w, ls) /\
  asleep w 1 /\ counter (ev w) = 5 /\ waiter (ev w) = None.
Proof. eexists _, _. split; [vm_compute; reflexivity|]. split_and!; done. Qed.

(** A process that is sent SIGKILL in [eventfd_read] goes back to sleep. *)
Lemma eventfd_read_ignores_sigkill : exists w ls,
  erun [ECallRead 1 8; EStep 1 false; ESignal 1 SIGKILL; EStep 1 false; EStep 1 false; EStep 1 false] (estart 0 0 running) = Some (w, ls) /\ asleep w 1 /\ Z.testbit (pending_sigs (proc_at (esy w) 1)) (SIGKILL - 1) = true.
Proof. eexists _, _. split; [vm_compute; reflexivity|]. split_and!; done. Qed.

(** The sum wraps around instead of the write waiting. *)
Lemma eventfd_write_wraps : exists w ls, erun [ECallWrite 0 8 (2 ^ 64 - 2); ECallWrite 0 8 3] (estart 0 0 running) = Some (w, ls) /\ counter (ev w) = 1.
Proof. eexists _, _. split; [vm_compute; reflexivity|done]. Qed.

(** ** Timers expire as often as they should *)

(** How often a timer has expired since its next tick was set. *)
Definition due (t : timerfd_state_t) (now : Z) : Z :=
  if negb (ztrue (next_tick t)) || (now <? next_tick t) then 0 else if interval_ms t =? 0 then 1 else 1 + (now - next_tick t) / interval_ms t.

(** A read succeeds exactly if an expiration is due that was not read, takes
    one, and does not change when the others are due. *)
Lemma timerfd_read_due p now t s : is_u64 now -> 0 <= next_tick t -> 0 <= interval_ms t -> now + interval_ms t < 2 ^ 64 -> overruns t = 0 ->
  match timerfd_read p true now t s with
  | (t', s', TRead v) => v = 1 /\ s' = s /\ 0 < due t now /\ overruns t' = 0 /\ forall now', now <= now' -> due t' now' = due t now' - 1
  | (t', s', _) => t' = t /\ s' = s /\ due t now = 0
  end.
Proof.
  intros Hn Ht Hi Hlim Ho. unfold is_u64 in Hn. unfold timerfd_read, due, ztrue. destruct (next_tick t =? 0) eqn:E0; [done|]. apply Z.eqb_neq in E0. cbn [negb andb orb].
  destruct (next_tick t <=? now) eqn:E1; [|apply Z.leb_gt in E1; by rewrite (proj2 (Z.ltb_lt _ _) E1)]. apply Z.leb_le in E1. rewrite Ho. split; [done|]. split; [done|]. rewrite (proj2 (Z.ltb_ge now _) E1).
  cbn [overruns next_tick interval_ms]. destruct (interval_ms t =? 0) eqn:E2; cbn [negb].
  - split; [lia|]. split; [done|]. intros now' Hle. rewrite (proj2 (Z.ltb_ge now' (next_tick t))) by lia. done.
  - apply Z.eqb_neq in E2. split; [pose proof (Z.div_pos (now - next_tick t) (interval_ms t)); lia|]. split; [done|]. intros now' Hle. rewrite u64_small by (unfold is_u64; lia). rewrite (proj2 (Z.eqb_neq (next_tick t + interval_ms t) 0)) by lia. rewrite (proj2 (Z.ltb_ge now' (next_tick t))) by lia. cbn [negb orb].
    destruct (now' <? next_tick t + interval_ms t) eqn:E3; [apply Z.ltb_lt in E3; rewrite Z.div_small by lia; lia|]. apply Z.ltb_ge in E3.
    replace (now' - next_tick t) with (now' - (next_tick t + interval_ms t) + 1 * interval_ms t) by lia. rewrite Z.div_add by lia. lia.
Qed.

(** A timer set to [ms] from now is due from then on. *)
Lemma timerfd_settime_due new_val now rt t s t' old s' : is_u64 now -> 0 < to_ms (value new_val) -> now + to_ms (value new_val) < 2 ^ 64 -> fd_timerfd_settime 0 new_val now rt t s = (t', old, s') ->
  next_tick t' = now + to_ms (value new_val) /\ interval_ms t' = to_ms (interval new_val) /\ overruns t' = 0 /\ old = fd_timerfd_gettime now t /\ (forall later, now <= later -> 0 < due t' later <-> now + to_ms (value new_val) <= later).
Proof.
  intros Hn Hp Hlim E. unfold fd_timerfd_settime in E. unfold is_u64 in Hn. unfold ztrue at 1 in E. rewrite (proj2 (Z.eqb_neq (to_ms (value new_val)) 0)) in E by lia. cbn [negb andb] in E. change (ztrue (Z.land 0 TFD_TIMER_ABSTIME)) with false in E. cbn iota in E. rewrite u64_small in E by (unfold is_u64; lia).
  injection E as <- <- <-. split_and!; try done. intros later Hle. unfold due, ztrue. cbn [next_tick interval_ms]. rewrite (proj2 (Z.eqb_neq (now + to_ms (value new_val)) 0)) by lia. cbn [negb orb].
  destruct (later <? now + to_ms (value new_val)) eqn:E1; [apply Z.ltb_lt in E1; lia|]. apply Z.ltb_ge in E1. assert (Hi : 0 <= to_ms (interval new_val)) by apply u64_range. destruct (to_ms (interval new_val) =? 0) eqn:E2; [lia|]. apply Z.eqb_neq in E2. pose proof (Z.div_pos (later - (now + to_ms (value new_val))) (to_ms (interval new_val))). lia.
Qed.

(** ** Signals that are read *)

(** Reading takes exactly one pending signal of the mask, the lowest, and never
    SIGKILL or SIGSTOP. *)
Lemma signalfd_read_takes mask nb len i s s' buf : (i < length (g_proctable s))%nat -> is_u64 mask -> is_u64 (pending_sigs (proc_at s i)) -> signalfd_read (signalfd_mask mask) nb len i s = (s', SRead buf) ->
  exists sig, 1 <= sig <= 64 /\ sig <> SIGKILL /\ sig <> SIGSTOP /\ take 4 buf = le_bytes 4 sig /\ blen buf = SIGINFO_SIZE /\
    Z.testbit (pending_sigs (proc_at s i)) (sig - 1) = true /\ forall k, 0 <= k -> Z.testbit (pending_sigs (proc_at s' i)) k = Z.testbit (pending_sigs (proc_at s i)) k && negb (k =? sig - 1).
Proof.
  intros Hi Hm Hp E. unfold signalfd_read in E. destruct (len <? SIGINFO_SIZE); [done|]. set (bits := Z.land _ _) in E. destruct (ztrue bits) eqn:Ez; [|destruct nb; [discriminate E|]; destruct (ztrue (proc_blocking_sig_mask _)); discriminate E]. injection E as <- <-.
  assert (Hb : is_u64 bits) by (apply is_u64_land; [done|apply clear_bits_is_u64]). apply negb_true_iff, Z.eqb_neq in Ez. assert (Hlow : Z.testbit bits (ctzll bits) = true) by (apply ctzll_testbit; unfold is_u64 in Hb; lia).
  pose proof (testbit_lt_width bits 64 _ ltac:(unfold is_u64 in Hb; lia) ltac:(lia) Hlow) as Hr. unfold bits at 1 in Hlow. rewrite Z.land_spec in Hlow. apply andb_prop in Hlow as [H1 H2]. unfold signalfd_mask in H2. rewrite clear_bits_testbit in H2 by (done || lia). apply andb_prop in H2 as [_ H2].
  exists (ctzll bits + 1). rewrite Z.add_simpl_r. split; [lia|]. split; [intros E9|split; [intros E9|]].
  - replace (ctzll bits) with 8 in H2 by (unfold SIGKILL in E9; lia). done.
  - replace (ctzll bits) with 18 in H2 by (unfold SIGSTOP in E9; lia). done.
  - split; [done|]. split; [done|]. split; [done|]. intros k Hk. rewrite proc_at_upd, decide_True by done. cbn [pending_sigs set_pending_sigs]. rewrite clear_bits_testbit by (done || lia). f_equal. f_equal. unfold SIG_BIT. rewrite Z.add_simpl_r. rewrite bit_testbit by lia. done.
Qed.
