(* ===== verification/Bitfield.v ===== *)
(** * Bitfield: the 512-bit allocation maps of the frame allocator.

    Models [kernel/mm/bitfield.c] and the index arithmetic of
    [kernel/mm/utils.h].  A bit field is the list of its eight 64-bit rows; a set
    bit is an allocated frame.  Operations are sequential: a compare-and-exchange
    is one test and store, and [atom_update] succeeds on its first round.  The
    kernel is built with [NDEBUG], so an [assert] changes nothing. *)

From S2P Require Import Prelude Bits.

Definition LLFREE_ATOMIC_SIZE := 64.
Definition LLFREE_CHILD_SIZE := 512.
Definition FIELD_N : nat := 8.

(** ** [utils.h] *)

Definition trailing_zeros (val : Z) : Z := if val =? 0 then 64 else ctzll val.

Definition count_ones (val : Z) : Z := Z.of_nat (length (set_bits val)).

(** The values [for_offsetted(start, len, i)] takes. *)
Definition for_offsetted (start len : nat) : list nat :=
  (fun i => start - start mod len + (i + start mod len) mod len)%nat <$> seq 0 len.

(** ** One row *)

(** [*v |= ones << p] after a successful search. *)
Definition take_zeros (v p ones : Z) : option (Z * Z) :=
  if p <? 64 then Some (p, Z.lor v (u64 (Z.shiftl ones p))) else None.

(** The position found and the new row. *)
Definition first_zeros_aligned (v order : Z) : option (Z * Z) :=
  match order with
  | 0 => take_zeros v (trailing_zeros (u64 (Z.lnot v))) 1
  | 1 =>
      let mask := 0xaaaaaaaaaaaaaaaa in
      take_zeros v (trailing_zeros (u64 (Z.lnot (Z.lor (Z.lor v (Z.shiftr v 1)) mask)))) 3
  | 2 =>
      let mask := 0x1111111111111111 in
      take_zeros v (trailing_zeros (Z.land (Z.shiftr (Z.land (u64 (v - mask)) (u64 (Z.lnot v))) 3) mask)) 15
  | 3 =>
      let mask := 0x0101010101010101 in
      take_zeros v (trailing_zeros (Z.land (Z.shiftr (Z.land (u64 (v - mask)) (u64 (Z.lnot v))) 7) mask)) 0xff
  | 4 =>
      let mask := 0x0001000100010001 in
      take_zeros v (trailing_zeros (Z.land (Z.shiftr (Z.land (u64 (v - mask)) (u64 (Z.lnot v))) 15) mask)) 0xffff
  | 5 =>
      let mask := 0xffffffff in
      if u32 v =? 0 then Some (0, Z.lor v mask)
      else if Z.shiftr v 32 =? 0 then Some (32, Z.lor v (u64 (Z.shiftl mask 32))) else None
  | 6 => if v =? 0 then Some (0, U64_MAX) else None
  | _ => None
  end.

Definition row_toggle (row mask : Z) (expected : bool) : option Z :=
  if expected then if Z.land row mask =? mask then Some (clear_bits row mask) else None
  else if Z.land row mask =? 0 then Some (Z.lor row mask) else None.

(** ** The field *)

Abbreviation bitfield := (list Z).

(** [atom_cmp_exchange(&rows[i], &old, new)]: whether it stored, the value it
    saw, and the rows. *)
Definition cmp_exchange (rows : bitfield) (i : nat) (old new : Z) : bool * Z * bitfield :=
  let cur := aget 0 rows i in
  if cur =? old then (true, old, <[i := new]> rows) else (false, cur, rows).

Definition field_init : bitfield := replicate FIELD_N 0.

(** The search over single rows. *)
Fixpoint set_next_row (rows : bitfield) (order : Z) (idx : list nat) : option Z * bitfield :=
  match idx with
  | [] => (None, rows)
  | i :: idx' =>
      match first_zeros_aligned (aget 0 rows i) order with
      | Some (pos, v) => (Some (Z.of_nat i * LLFREE_ATOMIC_SIZE + pos), <[i := v]> rows)
      | None => set_next_row rows order idx'
      end
  end.

(** [for (j = 0; j < n; j++)]: undo the rows already taken. *)
Definition undo_rows (rows : bitfield) (base n : nat) : bitfield :=
  foldl (fun r j => (cmp_exchange r (base + j) U64_MAX 0).2) rows (seq 0 n).

(** Take the rows [base + i .. base + entries - 1], [todo] of them. *)
Fixpoint take_rows (todo : nat) (rows : bitfield) (base i : nat) : bool * bitfield :=
  match todo with
  | O => (true, rows)
  | S t =>
      match cmp_exchange rows (base + i) 0 U64_MAX with
      | (true, _, rows') => take_rows t rows' base (S i)
      | (false, _, _) => (false, undo_rows rows base i)
      end
  end.

Fixpoint set_next_rows (rows : bitfield) (entries : nat) (idx : list nat) : option Z * bitfield :=
  match idx with
  | [] => (None, rows)
  | i :: idx' =>
      match take_rows entries rows (i * entries) 0 with
      | (true, rows') => (Some (Z.of_nat i * Z.of_nat entries * LLFREE_ATOMIC_SIZE), rows')
      | (false, rows') => set_next_rows rows' entries idx'
      end
  end.

Definition row_from_frame (frame : Z) : Z := Z.shiftr frame 6.

(** [None] is [LLFREE_ERR_MEMORY]. *)
Definition field_set_next (field : bitfield) (start_frame order : Z) : option Z * bitfield :=
  let num_frames := Z.shiftl 1 order in
  let row := (Z.to_nat (row_from_frame start_frame) mod FIELD_N)%nat in
  if num_frames <=? LLFREE_ATOMIC_SIZE
  then set_next_row field order (for_offsetted row FIELD_N)
  else
    let entries := Z.to_nat (num_frames / LLFREE_ATOMIC_SIZE) in
    set_next_rows field entries (for_offsetted (row / entries) (FIELD_N / entries)).

(** [for (j = 0; j < i; j++)] of [field_toggle]; a failed exchange replaces
    [mask] by the value it saw. *)
Definition undo_toggle (field : bitfield) (row i : nat) (mask : Z) : bitfield :=
  (foldl (fun '(m, r) j =>
            let '(_, m', r') := cmp_exchange r (row + i - j - 1) m (u64 (Z.lnot m)) in (m', r'))
         (mask, field) (seq 0 i)).2.

Fixpoint toggle_rows (todo : nat) (field : bitfield) (row i : nat) (mask : Z) : bool * bitfield :=
  match todo with
  | O => (true, field)
  | S t =>
      match cmp_exchange field (row + i) mask (u64 (Z.lnot mask)) with
      | (true, _, field') => toggle_rows t field' row (S i) mask
      | (false, _, _) => (false, undo_toggle field row i mask)
      end
  end.

(** [true] is [LLFREE_ERR_OK], [false] is [LLFREE_ERR_MEMORY]. *)
Definition field_toggle (field : bitfield) (index order : Z) (expected : bool) : bool * bitfield :=
  let index := index `mod` LLFREE_CHILD_SIZE in
  let row := Z.to_nat (index / LLFREE_ATOMIC_SIZE) in
  let b := index `mod` LLFREE_ATOMIC_SIZE in
  let num_frames := Z.shiftl 1 order in
  if LLFREE_ATOMIC_SIZE <? num_frames then
    toggle_rows (Z.to_nat (num_frames / LLFREE_ATOMIC_SIZE)) field row 0 (if expected then U64_MAX else 0)
  else
    let mask := u64 (Z.shiftl (Z.shiftr U64_MAX (LLFREE_ATOMIC_SIZE - num_frames)) b) in
    match row_toggle (aget 0 field row) mask expected with
    | Some v => (true, <[row := v]> field)
    | None => (false, field)
    end.

Definition field_count_ones (field : bitfield) : Z := foldr (fun r acc => count_ones r + acc) 0 (take FIELD_N field).

Definition field_is_free (field : bitfield) (index : Z) : bool :=
  let index := index `mod` LLFREE_CHILD_SIZE in
  let row := aget 0 field (Z.to_nat (index / LLFREE_ATOMIC_SIZE)) in
  Z.land row (bit (index `mod` LLFREE_ATOMIC_SIZE)) =? 0.

(** ** Searching a row for zeros *)

(** The [k]-th block of [w] bits. *)
Definition blk (v w k : Z) : Z := (v / 2 ^ (w * k)) `mod` 2 ^ w.

(** The reference for [first_zeros_aligned]: try the aligned blocks upwards. *)
Definition first_zero_block (v order : Z) : option Z :=
  let w := 2 ^ order in
  Z.of_nat <$> find_index (fun k => blk v w (Z.of_nat k) =? 0) (seq 0 (Z.to_nat (64 / w))).

Lemma ctzll_unique m p :
  0 <= p -> Z.testbit m p = true -> 0 <= m -> (forall i, 0 <= i < p -> Z.testbit m i = false) -> ctzll m = p.
Proof.
  intros Hp Ht Hm Hlow. assert (0 < m).
  { destruct (Z.eq_dec m 0) as [->|]; [by rewrite Z.bits_0 in Ht|lia]. }
  pose proof (ctzll_nonneg m). destruct (Z.lt_trichotomy (ctzll m) p) as [Hlt|[Heq|Hgt]]; [|done|].
  - pose proof (ctzll_testbit m ltac:(done)). rewrite Hlow in H1 by lia. done.
  - rewrite ctzll_low in Ht by lia. done.
Qed.

Lemma find_index_seq P n k :
  find_index P (seq 0 n) = Some k <-> (k < n)%nat /\ P k = true /\ forall j, (j < k)%nat -> P j = false.
Proof.
  split.
  - intros Hk. destruct (find_index_Some _ _ _ Hk) as (x & Hx & Hp).
    apply lookup_seq in Hx as [-> Hn]. split_and!; [done|done|].
    intros j Hj. destruct (P j) eqn:Ej; [|done].
    assert (Hjs : seq 0 n !! j = Some j) by (apply lookup_seq; lia).
    pose proof (find_index_first P _ _ _ _ Hk Hjs Ej). lia.
  - intros (Hn & Hp & Hlow). assert (Hks : seq 0 n !! k = Some k) by (apply lookup_seq; lia).
    destruct (find_index_is_Some P _ _ _ Hks Hp) as [i Hi]. rewrite Hi. f_equal.
    pose proof (find_index_first P _ _ _ _ Hi Hks Hp).
    destruct (find_index_Some _ _ _ Hi) as (x & Hx & Hpx). apply lookup_seq in Hx as [-> Hx].
    destruct (decide (i = k)); [done|]. rewrite Hlow in Hpx by lia. done.
Qed.

Lemma find_index_seq_None P n : find_index P (seq 0 n) = None <-> forall j, (j < n)%nat -> P j = false.
Proof.
  rewrite find_index_None. split.
  - intros H j Hj. apply (H j). apply lookup_seq. lia.
  - intros H i x [-> Hi]%lookup_seq. by apply H.
Qed.

(** A word that flags, among the starts of blocks, every block whose
    predecessors are all non-zero correctly, finds the first zero block. *)
Lemma trailing_zeros_flags X v w n :
  0 < w -> (forall k, (k < n)%nat -> w * Z.of_nat k < 64) -> 0 <= X ->
  (forall i, Z.testbit X i = true -> exists k, (k < n)%nat /\ i = w * Z.of_nat k) ->
  (forall k, (k < n)%nat -> (forall j, (j < k)%nat -> blk v w (Z.of_nat j) <> 0) ->
     Z.testbit X (w * Z.of_nat k) = (blk v w (Z.of_nat k) =? 0)) ->
  trailing_zeros X =
    match find_index (fun k => blk v w (Z.of_nat k) =? 0) (seq 0 n) with
    | Some k => w * Z.of_nat k
    | None => 64
    end.
Proof.
  intros Hw Hn HX Hpos Hflag. destruct (find_index _ _) as [k|] eqn:E.
  - apply find_index_seq in E as (Hk & Hb & Hlow).
    assert (Hnz : forall j, (j < k)%nat -> blk v w (Z.of_nat j) <> 0).
    { intros j Hj. by apply Z.eqb_neq, (Hlow j). }
    assert (Ht : Z.testbit X (w * Z.of_nat k) = true) by by rewrite Hflag.
    unfold trailing_zeros. rewrite (proj2 (Z.eqb_neq X 0)).
    2:{ intros ->. by rewrite Z.bits_0 in Ht. }
    apply ctzll_unique; [nia|done|done|]. intros i Hi. destruct (Z.testbit X i) eqn:Ei; [|done].
    destruct (Hpos i Ei) as (j & Hj & ->). assert (j < k)%nat by nia.
    rewrite Hflag in Ei by (try done; intros; apply Hnz; lia). by rewrite Hlow in Ei.
  - pose proof (proj1 (find_index_seq_None _ _) E) as Hnone. unfold trailing_zeros.
    destruct (Z.eqb_spec X 0) as [|Hne]; [done|]. exfalso.
    pose proof (ctzll_testbit X ltac:(lia)) as Ht. destruct (Hpos _ Ht) as (k & Hk & Hc). rewrite Hc in Ht.
    rewrite Hflag in Ht; [by rewrite Hnone in Ht|done|].
    intros j Hj. apply Z.eqb_neq, (Hnone j). lia.
Qed.

(** *** The borrow trick of orders 2 to 4 *)

(** [1 + 2^w + 2^2w + ...], [n] terms. *)
Fixpoint ones_every (w : Z) (n : nat) : Z :=
  match n with O => 0 | S n' => ones_every w n' + 2 ^ (w * Z.of_nat n') end.

Lemma ones_every_nonneg w n : 0 < w -> 0 <= ones_every w n.
Proof. intros Hw. induction n as [|n IH]; simpl; [lia|]. pose proof (Z.pow_pos_nonneg 2 (w * Z.of_nat n)). nia. Qed.

(** The part above the first [k] terms. *)
Lemma ones_every_split w n k :
  0 < w -> (k <= n)%nat -> ones_every w n = ones_every w k + 2 ^ (w * Z.of_nat k) * ones_every w (n - k).
Proof.
  intros Hw. induction n as [|n IH]; intros Hk.
  - replace k with 0%nat by lia. simpl. lia.
  - destruct (decide (k = S n)) as [->|Hne].
    { rewrite Nat.sub_diag. cbn [ones_every]. lia. }
    rewrite Nat.sub_succ_l by lia. cbn [ones_every]. rewrite IH by lia.
    replace (w * Z.of_nat n) with (w * Z.of_nat k + w * Z.of_nat (n - k)) by nia.
    rewrite Z.pow_add_r by nia. ring.
Qed.

Lemma ones_every_mod w n : 0 < w -> (0 < n)%nat -> ones_every w n `mod` 2 ^ w = 1 `mod` 2 ^ w.
Proof.
  intros Hw Hn. rewrite (ones_every_split w n 1) by lia.
  replace (w * Z.of_nat 1) with w by lia. replace (ones_every w 1) with 1 by (cbn; rewrite Z.mul_0_r; done).
  rewrite Z.mul_comm, Z.mod_add; [done|]. apply Z.pow_nonzero; lia.
Qed.

Lemma mod_pow2_split v a b : 0 <= a -> 0 <= b ->
  v `mod` 2 ^ (a + b) = v `mod` 2 ^ a + 2 ^ a * ((v / 2 ^ a) `mod` 2 ^ b).
Proof.
  intros Ha Hb. rewrite Z.pow_add_r by done. apply Z.rem_mul_r; apply Z.pow_nonzero || apply Z.pow_pos_nonneg; lia.
Qed.

(** If the first [k] blocks are not zero, subtracting borrows nothing from the rest. *)
Lemma low_blocks_ge v w k :
  0 < w -> (forall j, (j < k)%nat -> blk v w (Z.of_nat j) <> 0) ->
  ones_every w k <= v `mod` 2 ^ (w * Z.of_nat k).
Proof.
  intros Hw. induction k as [|k IH]; intros Hb.
  - simpl. rewrite Z.mul_0_r, Z.pow_0_r, Z.mod_1_r. lia.
  - specialize (IH ltac:(auto)). cbn [ones_every].
    replace (w * Z.of_nat (S k)) with (w * Z.of_nat k + w) by lia. rewrite mod_pow2_split by lia.
    specialize (Hb k ltac:(lia)). unfold blk in Hb.
    pose proof (Z.mod_pos_bound (v / 2 ^ (w * Z.of_nat k)) (2 ^ w) ltac:(apply Z.pow_pos_nonneg; lia)).
    pose proof (Z.pow_pos_nonneg 2 (w * Z.of_nat k) ltac:(lia) ltac:(lia)). nia.
Qed.

Lemma testbit_div v n i : 0 <= n -> 0 <= i -> Z.testbit v (n + i) = Z.testbit (v / 2 ^ n) i.
Proof. intros Hn Hi. rewrite <-Z.shiftr_div_pow2, Z.shiftr_spec by done. f_equal. lia. Qed.

(** The top bit of a block of [w] bits. *)
Lemma top_bit_mod z w : 0 < w -> Z.testbit z (w - 1) = (2 ^ (w - 1) <=? z `mod` 2 ^ w).
Proof.
  intros Hw. rewrite <-(Z.mod_pow2_bits_low z w (w - 1)) by lia.
  pose proof (Z.mod_pos_bound z (2 ^ w) ltac:(apply Z.pow_pos_nonneg; lia)) as Hr.
  set (y := z `mod` 2 ^ w) in *. assert (Hp : 2 ^ w = 2 * 2 ^ (w - 1)).
  { rewrite <-Z.pow_succ_r by lia. f_equal. lia. }
  rewrite Z.testbit_odd, Z.shiftr_div_pow2 by lia. destruct (Z.leb_spec (2 ^ (w - 1)) y).
  - replace (y / 2 ^ (w - 1)) with 1; [done|]. apply (Z.div_unique _ _ _ (y - 2 ^ (w - 1))); lia.
  - by rewrite Z.div_small by lia.
Qed.

Lemma borrow_flag v w n k :
  1 < w -> (k < n)%nat -> (forall j, (j < k)%nat -> blk v w (Z.of_nat j) <> 0) ->
  Z.testbit (v - ones_every w n) (w * Z.of_nat k + (w - 1)) && negb (Z.testbit v (w * Z.of_nat k + (w - 1))) =
  (blk v w (Z.of_nat k) =? 0).
Proof.
  intros Hw Hk Hb. pose proof (low_blocks_ge v w k ltac:(lia) Hb) as Hge.
  set (s := w * Z.of_nat k) in *. assert (Hs : 0 <= s) by (unfold s; lia).
  pose proof (Z.pow_pos_nonneg 2 s ltac:(lia) Hs) as Hps.
  rewrite !testbit_div by lia.
  replace ((v - ones_every w n) / 2 ^ s) with (v / 2 ^ s - ones_every w (n - k)).
  2:{ rewrite (ones_every_split w n k) by lia. fold s.
      pose proof (Z.div_mod v (2 ^ s) ltac:(lia)) as Hdm. pose proof (Z.mod_pos_bound v (2 ^ s) Hps) as Hmod.
      pose proof (ones_every_nonneg w k ltac:(lia)).
      apply (Z.div_unique _ _ _ (v `mod` 2 ^ s - ones_every w k)); [lia|nia]. }
  rewrite !top_bit_mod by lia. unfold blk. fold s. rewrite Zminus_mod, ones_every_mod by lia.
  pose proof (Z.mod_pos_bound (v / 2 ^ s) (2 ^ w) ltac:(apply Z.pow_pos_nonneg; lia)) as Hd.
  set (d := (v / 2 ^ s) `mod` 2 ^ w) in *. assert (Hp : 2 ^ w = 2 * 2 ^ (w - 1)).
  { rewrite <-Z.pow_succ_r by lia. f_equal. lia. }
  assert (1 < 2 ^ (w - 1)) by (apply Z.pow_gt_1; lia). rewrite (Z.mod_small 1) by lia.
  destruct (Z.eqb_spec d 0) as [Hd0|Hd0].
  - rewrite Hd0. replace ((0 - 1) `mod` 2 ^ w) with (2 ^ w - 1) by (apply (Z.mod_unique_pos _ _ (-1)); lia).
    rewrite (proj2 (Z.leb_le _ _)), (proj2 (Z.leb_gt _ _)) by lia. done.
  - rewrite (Z.mod_small (d - 1)) by lia.
    destruct (Z.leb_spec (2 ^ (w - 1)) d); [by rewrite andb_false_r|].
    by rewrite (proj2 (Z.leb_gt _ _)) by lia.
Qed.

(** *** The five searches flag the first zero block *)

Definition below_64 (P : nat -> bool) : bool := forallb P (seq 0 64).

Lemma below_64_spec P i : below_64 P = true -> 0 <= i < 64 -> P (Z.to_nat i) = true.
Proof.
  intros HP Hi. unfold below_64 in HP. rewrite forallb_forall in HP. apply HP, in_seq. lia.
Qed.

(** A mask with the multiples of [w] below 64, or with all but them. *)
Definition mask_of (w M : Z) (sense : bool) : bool :=
  below_64 (fun i => Bool.eqb (Z.testbit M (Z.of_nat i)) (Bool.eqb (Z.of_nat i `mod` w =? 0) sense)).

Lemma mask_of_spec w M sense i :
  mask_of w M sense = true -> 0 <= i < 64 -> Z.testbit M i = Bool.eqb (i `mod` w =? 0) sense.
Proof.
  intros HM Hi. pose proof (below_64_spec _ i HM Hi) as H. cbn beta in H.
  rewrite Z2Nat.id in H by lia. by apply eqb_prop in H.
Qed.

Lemma mult_index w i n : 0 < w -> w * Z.of_nat n = 64 -> 0 <= i < 64 -> i `mod` w = 0 ->
  exists k, (k < n)%nat /\ i = w * Z.of_nat k.
Proof.
  intros Hw Hn Hi Hm. exists (Z.to_nat (i / w)). pose proof (Z.div_mod i w ltac:(lia)).
  assert (0 <= i / w) by (apply Z.div_pos; lia). rewrite Z2Nat.id by done. split; [|lia]. nia.
Qed.

Lemma borrow_search v w n M :
  1 < w -> w * Z.of_nat n = 64 -> M = ones_every w n -> mask_of w M true = true -> is_u64 v -> is_u64 M ->
  trailing_zeros (Z.land (Z.shiftr (Z.land (u64 (v - M)) (u64 (Z.lnot v))) (w - 1)) M) =
    match find_index (fun k => blk v w (Z.of_nat k) =? 0) (seq 0 n) with
    | Some k => w * Z.of_nat k
    | None => 64
    end.
Proof.
  intros Hw Hn HM Hmask Hv HMr. apply trailing_zeros_flags; [lia|nia| | |].
  - apply Z.land_nonneg. right. apply HMr.
  - intros i. rewrite Z.land_spec, andb_true_iff. intros [_ Hi].
    pose proof (testbit_lt_width M 64 i HMr ltac:(lia) Hi) as Hr.
    rewrite (mask_of_spec w M true) in Hi by done. apply mult_index; [lia|done|done|].
    apply Z.eqb_eq. by destruct (i `mod` w =? 0).
  - intros k Hk Hb. rewrite Z.land_spec, (mask_of_spec w M true) by (done || nia).
    rewrite Z.mul_comm, Z.mod_mul, Z.mul_comm by lia. cbn [Bool.eqb]. rewrite Z.eqb_refl, andb_true_r.
    rewrite shiftr_testbit by nia. rewrite Z.land_spec. unfold u64. rewrite !mod_pow2_testbit by nia.
    rewrite (proj2 (Z.ltb_lt _ 64)) by nia. rewrite !andb_true_l, Z.lnot_spec by nia.
    rewrite HM. by apply borrow_flag.
Qed.

Lemma blk1 v k : 0 <= k -> (blk v 1 k =? 0) = negb (Z.testbit v k).
Proof.
  intros Hk. unfold blk. rewrite Z.mul_1_l. rewrite Z.testbit_odd, Z.shiftr_div_pow2 by done.
  change (2 ^ 1) with 2. rewrite Zmod_odd. by destruct (Z.odd _).
Qed.

Lemma blk_0_iff v w k : 0 <= k -> 0 < w -> blk v w k = 0 <-> forall i, 0 <= i < w -> Z.testbit v (w * k + i) = false.
Proof.
  intros Hk Hw. unfold blk. split.
  - intros H i Hi. rewrite testbit_div by nia. rewrite <-(Z.mod_pow2_bits_low _ w) by lia. rewrite H. apply Z.bits_0.
  - intros H. apply Z.bits_inj'. intros i Hi. rewrite mod_pow2_testbit by lia. rewrite Z.bits_0.
    destruct (Z.ltb_spec i w); [|done]. cbn [andb]. rewrite <-testbit_div by nia. apply H. lia.
Qed.

Lemma order0_search v : is_u64 v ->
  trailing_zeros (u64 (Z.lnot v)) =
    match find_index (fun k => blk v 1 (Z.of_nat k) =? 0) (seq 0 64) with
    | Some k => 1 * Z.of_nat k
    | None => 64
    end.
Proof.
  intros Hv. apply trailing_zeros_flags; [lia|lia|apply u64_range| |].
  - intros i Hi. pose proof (testbit_lt_width _ 64 i (u64_range _) ltac:(lia) Hi). exists (Z.to_nat i). lia.
  - intros k Hk _. unfold u64. rewrite mod_pow2_testbit, Z.lnot_spec, blk1 by lia.
    rewrite (proj2 (Z.ltb_lt _ 64)) by lia. by rewrite Z.mul_1_l.
Qed.

Lemma order1_search v : is_u64 v ->
  trailing_zeros (u64 (Z.lnot (Z.lor (Z.lor v (Z.shiftr v 1)) 0xaaaaaaaaaaaaaaaa))) =
    match find_index (fun k => blk v 2 (Z.of_nat k) =? 0) (seq 0 32) with
    | Some k => 2 * Z.of_nat k
    | None => 64
    end.
Proof.
  intros Hv. assert (Hmask : mask_of 2 0xaaaaaaaaaaaaaaaa false = true) by (vm_compute; reflexivity).
  assert (Hbit : forall i, 0 <= i < 64 -> Z.testbit (u64 (Z.lnot (Z.lor (Z.lor v (Z.shiftr v 1)) 0xaaaaaaaaaaaaaaaa))) i =
    negb (Z.testbit v i) && negb (Z.testbit v (i + 1)) && (i `mod` 2 =? 0)).
  { intros i Hi. unfold u64. rewrite mod_pow2_testbit, Z.lnot_spec, !Z.lor_spec, shiftr_testbit by lia.
    rewrite (mask_of_spec _ _ _ i Hmask Hi), (proj2 (Z.ltb_lt i 64)) by lia. rewrite !negb_orb.
    by destruct (i `mod` 2 =? 0). }
  apply trailing_zeros_flags; [lia|lia|apply u64_range| |].
  - intros i Hi. pose proof (testbit_lt_width _ 64 i (u64_range _) ltac:(lia) Hi) as Hr.
    rewrite Hbit in Hi by done. apply andb_true_iff in Hi as [_ Hi%Z.eqb_eq]. by apply mult_index.
  - intros k Hk _. rewrite Hbit by lia. rewrite Z.mul_comm, Z.mod_mul, Z.mul_comm by lia.
    rewrite Z.eqb_refl, andb_true_r. apply eq_true_iff_eq.
    rewrite andb_true_iff, !negb_true_iff, Z.eqb_eq, blk_0_iff by lia. split.
    + intros [H0 H1] i Hi. assert (i = 0 \/ i = 1) as [-> | ->] by lia; [by rewrite Z.add_0_r|done].
    + intros H. split; [rewrite <-(Z.add_0_r (2 * Z.of_nat k)); apply H; lia|apply H; lia].
Qed.

Lemma ones_shift_u64 w p : 0 <= w -> 0 <= p -> p + w <= 64 -> u64 (Z.shiftl (Z.ones w) p) = Z.shiftl (Z.ones w) p.
Proof.
  intros Hw Hp Hs. apply u64_small. unfold is_u64. rewrite Z.shiftl_mul_pow2, Z.ones_equiv by lia.
  pose proof (Z.pow_pos_nonneg 2 w ltac:(lia) Hw). pose proof (Z.pow_pos_nonneg 2 p ltac:(lia) Hp).
  assert (2 ^ w * 2 ^ p <= 2 ^ 64) by (rewrite <-Z.pow_add_r by lia; apply Z.pow_le_mono_r; lia). nia.
Qed.

Lemma take_zeros_found v w n P :
  0 < w -> w * Z.of_nat n = 64 ->
  take_zeros v (match find_index P (seq 0 n) with Some k => w * Z.of_nat k | None => 64 end) (Z.ones w) =
    (fun k => (w * k, Z.lor v (Z.shiftl (Z.ones w) (w * k)))) <$> (Z.of_nat <$> find_index P (seq 0 n)).
Proof.
  intros Hw Hn. destruct (find_index P (seq 0 n)) as [k|] eqn:E; [|done].
  apply find_index_seq in E as (Hk & _). unfold take_zeros.
  rewrite (proj2 (Z.ltb_lt _ 64)) by nia. rewrite ones_shift_u64 by nia. done.
Qed.

Lemma first_zeros_order5 v : is_u64 v ->
  first_zeros_aligned v 5 =
    (fun k => (32 * k, Z.lor v (Z.shiftl (Z.ones 32) (32 * k)))) <$>
      (Z.of_nat <$> find_index (fun k => blk v 32 (Z.of_nat k) =? 0) (seq 0 2)).
Proof.
  intros Hv. cbn -[Z.ones u32 u64 Z.shiftr Z.shiftl blk Z.lor].
  change (Z.of_nat 0) with 0. change (Z.of_nat 1) with 1.
  replace (blk v 32 0) with (u32 v) by (unfold blk, u32; by rewrite Z.mul_0_r, Z.pow_0_r, Z.div_1_r).
  replace (blk v 32 1) with (Z.shiftr v 32).
  2:{ unfold blk. rewrite Z.shiftr_div_pow2 by lia. rewrite Z.mul_1_r. symmetry. apply Z.mod_small.
      unfold is_u64 in Hv. split; [apply Z.div_pos; lia|apply Z.div_lt_upper_bound; lia]. }
  destruct (u32 v =? 0); [done|]. by destruct (Z.shiftr v 32 =? 0).
Qed.

Lemma first_zeros_order6 v : is_u64 v ->
  first_zeros_aligned v 6 =
    (fun k => (64 * k, Z.lor v (Z.shiftl (Z.ones 64) (64 * k)))) <$>
      (Z.of_nat <$> find_index (fun k => blk v 64 (Z.of_nat k) =? 0) (seq 0 1)).
Proof.
  intros Hv. cbn -[Z.ones blk Z.lor Z.shiftl]. change (Z.of_nat 0) with 0. replace (blk v 64 0) with v.
  - destruct (Z.eqb_spec v 0) as [->|]; reflexivity.
  - unfold blk. rewrite Z.mul_0_r, Z.pow_0_r, Z.div_1_r. symmetry. by apply Z.mod_small.
Qed.

Lemma first_zeros_aligned_eq v order :
  is_u64 v -> 0 <= order <= 6 ->
  first_zeros_aligned v order =
    (fun k => (2 ^ order * k, Z.lor v (Z.shiftl (Z.ones (2 ^ order)) (2 ^ order * k)))) <$> first_zero_block v order.
Proof.
  intros Hv Ho. unfold first_zero_block.
  assert (order = 0 \/ order = 1 \/ order = 2 \/ order = 3 \/ order = 4 \/ order = 5 \/ order = 6)
    as [->|[->|[->|[->|[->|[->| ->]]]]]] by lia.
  - unfold first_zeros_aligned. rewrite order0_search by done. apply (take_zeros_found v 1 64); lia.
  - unfold first_zeros_aligned. rewrite order1_search by done. apply (take_zeros_found v 2 32); lia.
  - unfold first_zeros_aligned. rewrite (borrow_search v 4 16) by (done || (vm_compute; done)).
    apply (take_zeros_found v 4 16); lia.
  - unfold first_zeros_aligned. rewrite (borrow_search v 8 8) by (done || (vm_compute; done)).
    apply (take_zeros_found v 8 8); lia.
  - unfold first_zeros_aligned. rewrite (borrow_search v 16 4) by (done || (vm_compute; done)).
    apply (take_zeros_found v 16 4); lia.
  - by apply first_zeros_order5.
  - by apply first_zeros_order6.
Qed.

(** the bit tricks of [first_zeros_aligned] are correct for every word: for
    each order it finds exactly the lowest aligned block of [2^order] zero bits,
    and sets its bits, or reports that there is none. *)
Theorem first_zeros_aligned_correct v order :
  is_u64 v -> 0 <= order <= 6 ->
  first_zeros_aligned v order =
    (fun k => (2 ^ order * k, Z.lor v (Z.shiftl (Z.ones (2 ^ order)) (2 ^ order * k)))) <$> first_zero_block v order.
Proof. apply first_zeros_aligned_eq. Qed.

Lemma first_zeros_aligned_correct_witness :
  first_zeros_aligned 0xfff00ff0ff0f0f1f 2 =
    (fun k => (2 ^ 2 * k, Z.lor 0xfff00ff0ff0f0f1f (Z.shiftl (Z.ones (2 ^ 2)) (2 ^ 2 * k)))) <$>
      first_zero_block 0xfff00ff0ff0f0f1f 2.
Proof. apply (first_zeros_aligned_correct 0xfff00ff0ff0f0f1f 2); unfold is_u64; lia. Defined.

(** ** The bits of a field *)

Definition fbit (f : bitfield) (i : Z) : bool := Z.testbit (aget 0 f (Z.to_nat (i / 64))) (i `mod` 64).

Record field_ok (f : bitfield) : Prop := {
  fo_len : length f = FIELD_N;
  fo_u64 : Forall is_u64 f;
}.

Definition in_block (p n i : Z) : bool := (p <=? i) && (i <? p + n).

Lemma in_block_true p n i : in_block p n i = true <-> p <= i < p + n.
Proof. unfold in_block. rewrite andb_true_iff, Z.leb_le, Z.ltb_lt. done. Qed.

Lemma in_block_false p n i : in_block p n i = false <-> ~ (p <= i < p + n).
Proof. by rewrite <-in_block_true, not_true_iff_false. Qed.

Lemma aget_u64 f r : field_ok f -> is_u64 (aget 0 f r).
Proof.
  intros [_ Hf]. unfold aget. destruct (f !! r) as [x|] eqn:E; simpl; [|done]. by eapply Forall_lookup_1 in Hf.
Qed.

Lemma aget_ext (f g : bitfield) : length f = length g -> (forall j, aget 0 f j = aget 0 g j) -> f = g.
Proof.
  intros Hl H. apply list_eq. intros j. specialize (H j). unfold aget in H.
  destruct (f !! j) as [x|] eqn:Ef, (g !! j) as [y|] eqn:Eg; simpl in H; subst; try done.
  - apply lookup_lt_Some in Ef. apply lookup_ge_None in Eg. lia.
  - apply lookup_lt_Some in Eg. apply lookup_ge_None in Ef. lia.
Qed.

Lemma field_ok_insert f r v : field_ok f -> is_u64 v -> field_ok (<[r := v]> f).
Proof. intros [Hl Hf] Hv. split; [by rewrite length_insert|by apply Forall_insert]. Qed.

Lemma fbit_insert f r v i :
  (r < length f)%nat -> fbit (<[r := v]> f) i = if decide (Z.to_nat (i / 64) = r) then Z.testbit v (i `mod` 64) else fbit f i.
Proof.
  intros Hr. unfold fbit. rewrite aget_insert by done. repeat case_decide; congruence || done.
Qed.

Lemma field_is_free_spec f i : 0 <= i < 512 -> field_is_free f i = negb (fbit f i).
Proof.
  intros Hi. unfold field_is_free, fbit, LLFREE_CHILD_SIZE, LLFREE_ATOMIC_SIZE. rewrite (Z.mod_small i) by lia.
  set (r := aget _ _ _). pose proof (Z.mod_pos_bound i 64 ltac:(lia)) as Hb. set (b := i `mod` 64) in *.
  apply eq_true_iff_eq. rewrite Z.eqb_eq, negb_true_iff. split.
  - intros H. assert (Ht : Z.testbit (Z.land r (bit b)) b = false) by (rewrite H; apply Z.bits_0).
    rewrite Z.land_spec, bit_testbit, Z.eqb_refl, andb_true_r in Ht by lia. done.
  - intros H. apply Z.bits_inj'. intros j Hj. rewrite Z.land_spec, bit_testbit, Z.bits_0 by lia.
    destruct (Z.eqb_spec j b) as [->|]; [by rewrite H|by rewrite andb_false_r].
Qed.

(** What a search for [n] free bits promises. *)
Definition set_next_ok (f : bitfield) (n : Z) (res : option Z * bitfield) : Prop :=
  match res with
  | (Some p, f') =>
      0 <= p /\ p + n <= 512 /\ p `mod` n = 0 /\ field_ok f' /\
      (forall i, p <= i < p + n -> fbit f i = false) /\
      (forall i, 0 <= i < 512 -> fbit f' i = fbit f i || in_block p n i)
  | (None, f') =>
      f' = f /\ forall p, 0 <= p -> p + n <= 512 -> p `mod` n = 0 -> exists i, p <= i < p + n /\ fbit f i = true
  end.

Lemma elem_of_for_offsetted s n i :
  (0 < n)%nat -> i ∈ for_offsetted s n <-> (s - s mod n <= i < s - s mod n + n)%nat.
Proof.
  intros Hn. unfold for_offsetted. rewrite list_elem_of_fmap. pose proof (Nat.mod_upper_bound s n ltac:(lia)) as Hs.
  set (o := (s mod n)%nat) in *. split.
  - intros (k & -> & Hk). pose proof (Nat.mod_upper_bound (k + o) n ltac:(lia)). lia.
  - intros Hi. set (d := (i - (s - o))%nat). exists ((d + (n - o)) mod n)%nat.
    pose proof (Nat.mod_upper_bound (d + (n - o)) n ltac:(lia)). split; [|apply elem_of_seq; lia].
    replace i with (s - o + d)%nat at 1 by lia. f_equal.
    rewrite Nat.Div0.add_mod_idemp_l. replace (d + (n - o) + o)%nat with (d + 1 * n)%nat by lia.
    rewrite Nat.Div0.mod_add. symmetry. apply Nat.mod_small. lia.
Qed.

(** *** Orders 0 to 6: one row *)

Lemma first_zero_block_Some v order k :
  0 <= order <= 6 -> first_zero_block v order = Some k ->
  0 <= k /\ 2 ^ order * k + 2 ^ order <= 64 /\
  forall i, 0 <= i < 2 ^ order -> Z.testbit v (2 ^ order * k + i) = false.
Proof.
  intros Ho. unfold first_zero_block. set (w := 2 ^ order). assert (Hw : 0 < w) by (apply Z.pow_pos_nonneg; lia).
  destruct (find_index _ _) as [j|] eqn:E; [|done]. cbn. intros [= <-].
  apply find_index_seq in E as (Hj & Hb & _). apply Z.eqb_eq in Hb.
  pose proof (Z.mul_div_le 64 w ltac:(lia)). split_and!; [lia|nia|]. by apply blk_0_iff; [lia|lia|].
Qed.

Lemma first_zero_block_None v order k :
  0 <= order <= 6 -> first_zero_block v order = None -> 0 <= k -> 2 ^ order * k + 2 ^ order <= 64 ->
  exists i, 0 <= i < 2 ^ order /\ Z.testbit v (2 ^ order * k + i) = true.
Proof.
  intros Ho. unfold first_zero_block. set (w := 2 ^ order). assert (Hw : 0 < w) by (apply Z.pow_pos_nonneg; lia).
  destruct (find_index _ _) eqn:E; [done|]. intros _ Hk Hb.
  assert (w * (64 / w) = 64).
  { subst w. assert (order = 0 \/ order = 1 \/ order = 2 \/ order = 3 \/ order = 4 \/ order = 5 \/ order = 6)
      as [->|[->|[->|[->|[->|[->| ->]]]]]] by lia; done. }
  pose proof (proj1 (find_index_seq_None _ _) E (Z.to_nat k) ltac:(nia)) as Hz. cbn beta in Hz.
  apply Z.eqb_neq in Hz. rewrite Z2Nat.id in Hz by done.
  destruct (decide (Exists (fun i => Z.testbit v (w * k + Z.of_nat i) = true) (seq 0 (Z.to_nat w)))) as [He|He].
  - apply Exists_exists in He as (i & Hi & Ht). apply elem_of_seq in Hi. exists (Z.of_nat i). split; [lia|done].
  - exfalso. apply Hz. apply blk_0_iff; [lia|lia|]. intros i Hi.
    destruct (Z.testbit v (w * k + i)) eqn:Et; [|done]. exfalso. apply He, Exists_exists.
    exists (Z.to_nat i). rewrite elem_of_seq, Z2Nat.id by lia. split; [lia|done].
Qed.

Lemma ones_testbit w p i : 0 <= w -> 0 <= p -> 0 <= i -> Z.testbit (Z.shiftl (Z.ones w) p) i = in_block p w i.
Proof.
  intros Hw Hp Hi. rewrite shiftl_testbit by done. apply eq_true_iff_eq. rewrite in_block_true.
  destruct (Z.lt_ge_cases i p); [rewrite Z.testbit_neg_r by lia; split; [done|lia]|].
  rewrite Z.testbit_ones_nonneg by lia. rewrite Z.ltb_lt. lia.
Qed.

Lemma div_mod_64 r i : 0 <= r -> 0 <= i < 64 -> (64 * r + i) / 64 = r /\ (64 * r + i) `mod` 64 = i.
Proof.
  intros Hr Hi. split.
  - symmetry. apply (Z.div_unique_pos _ _ _ i); lia.
  - symmetry. apply (Z.mod_unique_pos _ _ r); lia.
Qed.

Lemma fbit_row f r i : 0 <= r -> 0 <= i < 64 -> fbit f (64 * r + i) = Z.testbit (aget 0 f (Z.to_nat r)) i.
Proof. intros Hr Hi. unfold fbit. by destruct (div_mod_64 r i Hr Hi) as [-> ->]. Qed.

Lemma index_split i : 0 <= i -> exists r b, 0 <= r /\ 0 <= b < 64 /\ i = 64 * r + b /\ r = i / 64 /\ b = i `mod` 64.
Proof.
  intros Hi. exists (i / 64), (i `mod` 64). pose proof (Z.div_mod i 64 ltac:(lia)).
  pose proof (Z.mod_pos_bound i 64 ltac:(lia)). pose proof (Z.div_pos i 64 Hi ltac:(lia)). lia.
Qed.

(** Setting the block at [b] of row [r]. *)
Lemma set_row_block f r b w :
  field_ok f -> (r < 8)%nat -> 0 <= w -> 0 <= b -> b + w <= 64 ->
  let f' := <[r := Z.lor (aget 0 f r) (Z.shiftl (Z.ones w) b)]> f in
  field_ok f' /\ forall i, 0 <= i < 512 -> fbit f' i = fbit f i || in_block (64 * Z.of_nat r + b) w i.
Proof.
  intros Hf Hr Hw Hb Hs. cbv zeta. split.
  - apply field_ok_insert; [done|]. apply is_u64_lor; [by apply aget_u64|].
    rewrite <-(ones_shift_u64 w b) by lia. apply u64_range.
  - intros i Hi. destruct (index_split i ltac:(lia)) as (q & c & Hq & Hc & Hi' & Hdiv & Hmod).
    rewrite fbit_insert by (rewrite (fo_len f Hf); done). rewrite <-Hdiv, <-Hmod.
    destruct (decide (Z.to_nat q = r)) as [<-|Hne].
    + rewrite Z.lor_spec, ones_testbit by lia. rewrite Z2Nat.id by lia. rewrite Hi' at 1.
      rewrite fbit_row by lia. f_equal. apply eq_true_iff_eq. rewrite !in_block_true. lia.
    + rewrite (proj2 (in_block_false _ _ _)); [by rewrite orb_false_r|]. lia.
Qed.

Lemma set_next_row_found f order idx :
  field_ok f -> 0 <= order <= 6 -> Forall (fun r => (r < 8)%nat) idx ->
  match set_next_row f order idx with
  | (Some p, f') =>
      exists r k, (r < 8)%nat /\ first_zero_block (aget 0 f r) order = Some k /\ p = 64 * Z.of_nat r + 2 ^ order * k /\
        f' = <[r := Z.lor (aget 0 f r) (Z.shiftl (Z.ones (2 ^ order)) (2 ^ order * k))]> f
  | (None, f') => f' = f /\ forall r, r ∈ idx -> first_zero_block (aget 0 f r) order = None
  end.
Proof.
  intros Hf Ho. induction idx as [|r idx IH]; intros Hidx; cbn [set_next_row].
  { split; [done|]. by intros r Hr%not_elem_of_nil. }
  apply Forall_cons in Hidx as [Hr Hidx].
  rewrite first_zeros_aligned_eq by (try apply aget_u64; done).
  destruct (first_zero_block (aget 0 f r) order) as [k|] eqn:E; cbn.
  - exists r, k. unfold LLFREE_ATOMIC_SIZE. split_and!; [done|done|lia|done].
  - specialize (IH Hidx). destruct (set_next_row f order idx) as [[p|] f']; [done|].
    destruct IH as [-> IH]. split; [done|]. intros q [->|Hq]%elem_of_cons; [done|by apply IH].
Qed.

Lemma aligned_in_row order p :
  0 <= order <= 6 -> 0 <= p -> p `mod` 2 ^ order = 0 ->
  exists r k, 0 <= r /\ 0 <= k /\ p = 64 * r + 2 ^ order * k /\ 2 ^ order * k + 2 ^ order <= 64.
Proof.
  intros Ho Hp Hm. exists (p / 64), (p `mod` 64 / 2 ^ order). set (w := 2 ^ order) in *.
  assert (Hw : 0 < w) by (apply Z.pow_pos_nonneg; lia).
  assert (exists c, 64 = w * c) as [c Hc].
  { exists (2 ^ (6 - order)). subst w. rewrite <-Z.pow_add_r by lia. by replace (order + (6 - order)) with 6 by lia. }
  pose proof (Z.div_mod p 64 ltac:(lia)) as Hd. pose proof (Z.mod_pos_bound p 64 ltac:(lia)) as Hb.
  assert (Hz : (p `mod` 64) `mod` w = 0).
  { rewrite Z.mod_mod_divide; [done|]. exists c. etransitivity; [exact Hc|ring]. }
  pose proof (Z.div_mod (p `mod` 64) w ltac:(lia)) as He. rewrite Hz, Z.add_0_r in He.
  split_and!; [apply Z.div_pos; lia|apply Z.div_pos; lia|by rewrite <-He|].
  set (k := p `mod` 64 / w) in *. assert (k < c) by nia. nia.
Qed.

Lemma set_next_row_ok f order s :
  field_ok f -> 0 <= order <= 6 -> (s < 8)%nat ->
  set_next_ok f (2 ^ order) (set_next_row f order (for_offsetted s 8)).
Proof.
  intros Hf Ho Hs. set (w := 2 ^ order). assert (Hw : 0 < w) by (apply Z.pow_pos_nonneg; lia).
  assert (Hin : forall r, r ∈ for_offsetted s 8 <-> (r < 8)%nat).
  { intros r. rewrite elem_of_for_offsetted by lia. rewrite Nat.mod_small by lia. lia. }
  pose proof (set_next_row_found f order (for_offsetted s 8) Hf Ho) as H.
  specialize (H ltac:(apply Forall_forall; intros r Hr; by apply Hin)).
  destruct (set_next_row _ _ _) as [[p|] f']; cbn.
  - destruct H as (r & k & Hr & Hz & -> & ->). apply first_zero_block_Some in Hz as (Hk & Hb & Hz); [|done]. fold w in Hb, Hz.
    destruct (set_row_block f r (w * k) w Hf Hr) as [Hok Hbits]; [lia|nia|lia|].
    assert (Hal : (64 * Z.of_nat r + w * k) `mod` w = 0).
    { replace 64 with (w * 2 ^ (6 - order)).
      - replace (w * 2 ^ (6 - order) * Z.of_nat r + w * k) with ((2 ^ (6 - order) * Z.of_nat r + k) * w) by ring.
        apply Z.mod_mul. lia.
      - subst w. rewrite <-Z.pow_add_r by lia. by replace (order + (6 - order)) with 6 by lia. }
    split_and!; [nia|nia|done|done| |done]. intros i Hi.
    replace i with (64 * Z.of_nat r + (w * k + (i - 64 * Z.of_nat r - w * k))) by lia.
    rewrite fbit_row by nia. rewrite Nat2Z.id. apply Hz. lia.
  - destruct H as [-> H]. split; [done|]. intros p Hp Hp' Hm.
    destruct (aligned_in_row order p Ho Hp Hm) as (r & k & Hr & Hk & -> & Hb). fold w in Hb.
    destruct (first_zero_block_None (aget 0 f (Z.to_nat r)) order k Ho) as (i & Hi & Ht); [|done|done|].
    { apply H, Hin. lia. }
    fold w in Hi, Ht. exists (64 * r + (w * k + i)). split; [lia|]. by rewrite fbit_row by nia.
Qed.

(** *** Orders 7 and 8: whole rows *)

(** [f'] is [f] with the rows [base .. base + n - 1] replaced by [v]. *)
Definition rows_are (f : bitfield) (base n : nat) (v : Z) (f' : bitfield) : Prop :=
  length f' = length f /\
  forall j, aget 0 f' j = if decide (base <= j < base + n)%nat then v else aget 0 f j.

Lemma rows_are_0 f base v : rows_are f base 0 v f.
Proof. split; [done|]. intros j. case_decide; [lia|done]. Qed.

Lemma rows_are_S f base n v f' :
  rows_are f base n v f' -> (base + n < length f)%nat -> rows_are f base (S n) v (<[(base + n)%nat := v]> f').
Proof.
  intros [Hl Hg] Hn. split; [by rewrite length_insert|]. intros j.
  rewrite aget_insert by lia. rewrite Hg. repeat case_decide; try done; lia.
Qed.

Lemma rows_are_next f base n v f' : rows_are f base n v f' -> aget 0 f' (base + n) = aget 0 f (base + n).
Proof. intros [_ Hg]. rewrite Hg. case_decide; [lia|done]. Qed.

Lemma undo_rows_spec f f' base n :
  rows_are f base n U64_MAX f' -> (base + n <= length f)%nat ->
  (forall j, (base <= j < base + n)%nat -> aget 0 f j = 0) -> undo_rows f' base n = f.
Proof.
  intros [Hl Hg] Hn Hz.
  assert (H : forall k, (k <= n)%nat -> length (undo_rows f' base k) = length f /\
    forall j, aget 0 (undo_rows f' base k) j = if decide (base <= j < base + k)%nat then 0 else aget 0 f' j).
  { induction k as [|k IH]; intros Hk; unfold undo_rows in *.
    - split; [done|]. intros j. case_decide; [lia|done].
    - rewrite seq_S, foldl_app. cbn [foldl]. destruct (IH ltac:(lia)) as [IHl IHg].
      set (r := foldl _ _ _) in *. unfold cmp_exchange. rewrite Nat.add_0_l, IHg.
      case_decide; [lia|]. rewrite Hg. case_decide; [|lia]. rewrite Z.eqb_refl. cbn [snd].
      split; [by rewrite length_insert|]. intros j. rewrite aget_insert, IHg by lia.
      repeat case_decide; try done; lia. }
  destruct (H n ltac:(lia)) as [Hul Hug]. apply aget_ext; [done|].
  intros j. rewrite Hug, Hg. repeat case_decide; try done. by rewrite Hz.
Qed.

Lemma take_rows_spec todo f f' base i :
  rows_are f base i U64_MAX f' -> (base + i + todo <= length f)%nat ->
  (forall j, (base <= j < base + i)%nat -> aget 0 f j = 0) ->
  match take_rows todo f' base i with
  | (true, g) => rows_are f base (i + todo) U64_MAX g /\
      (forall j, (base <= j < base + (i + todo))%nat -> aget 0 f j = 0)
  | (false, g) => g = f /\ exists j, (base + i <= j < base + i + todo)%nat /\ aget 0 f j <> 0
  end.
Proof.
  revert f' i. induction todo as [|t IH]; intros f' i Hr Hb Hz; cbn [take_rows].
  { by rewrite Nat.add_0_r. }
  unfold cmp_exchange. rewrite (rows_are_next _ _ _ _ _ Hr). destruct (Z.eqb_spec (aget 0 f (base + i)) 0) as [He|Hne].
  - specialize (IH (<[(base + i)%nat := U64_MAX]> f') (S i)). cbv iota.
    assert (Hz' : forall j, (base <= j < base + S i)%nat -> aget 0 f j = 0).
    { intros j Hj. destruct (decide (j = base + i)%nat) as [->|]; [done|]. apply Hz. lia. }
    specialize (IH ltac:(apply rows_are_S; [done|lia]) ltac:(lia) Hz').
    destruct (take_rows t _ base (S i)) as [[] g].
    + rewrite <-Nat.add_succ_comm. done.
    + destruct IH as [-> (j & Hj & Hn)]. split; [done|]. exists j. split; [lia|done].
  - cbv iota. split; [by apply undo_rows_spec; [|lia|]|]. exists (base + i)%nat. split; [lia|done].
Qed.

(** The bits of a field after whole rows were replaced. *)
Lemma rows_are_bits f base n (b : bool) f' :
  field_ok f -> rows_are f base n (if b then U64_MAX else 0) f' ->
  field_ok f' /\
  forall i, 0 <= i < 512 -> fbit f' i = if in_block (64 * Z.of_nat base) (64 * Z.of_nat n) i then b else fbit f i.
Proof.
  intros Hf [Hl Hg]. split.
  - split; [rewrite Hl; apply Hf|]. apply Forall_lookup. intros j x Hx.
    pose proof (aget_Some 0 f' j x Hx) as Hj. rewrite Hg in Hj. rewrite <-Hj.
    case_decide; [by destruct b|by apply aget_u64].
  - intros i Hi. destruct (index_split i ltac:(lia)) as (q & c & Hq & Hc & Hi' & _ & _).
    rewrite Hi', !fbit_row by done. rewrite Hg. destruct (decide _) as [Hd|Hd].
    + rewrite (proj2 (in_block_true _ _ _)) by lia. destruct b; [|apply Z.bits_0].
      change U64_MAX with (Z.ones 64). apply Z.ones_spec_low. lia.
    + rewrite (proj2 (in_block_false _ _ _)) by lia. done.
Qed.

Lemma row_all f r (b : bool) :
  field_ok f -> 0 <= r -> aget 0 f (Z.to_nat r) = (if b then U64_MAX else 0) <->
  forall i, 64 * r <= i < 64 * r + 64 -> fbit f i = b.
Proof.
  intros Hf Hr. split.
  - intros H i Hi. replace i with (64 * r + (i - 64 * r)) by lia. rewrite fbit_row, H by lia.
    destruct b; [|apply Z.bits_0]. change U64_MAX with (Z.ones 64). apply Z.ones_spec_low. lia.
  - intros H. apply Z.bits_inj'. intros i Hi. pose proof (aget_u64 f (Z.to_nat r) Hf) as Hu.
    destruct (Z.lt_ge_cases i 64).
    + specialize (H (64 * r + i) ltac:(lia)). rewrite fbit_row in H by lia. rewrite H.
      destruct b; [|by rewrite Z.bits_0]. change U64_MAX with (Z.ones 64). symmetry. apply Z.ones_spec_low. lia.
    + assert (Ht : Z.testbit (aget 0 f (Z.to_nat r)) i = false).
      { destruct (Z.testbit _ i) eqn:E; [|done]. apply (testbit_lt_width _ 64) in E; [lia|done|lia]. }
      rewrite Ht. destruct b; [|by rewrite Z.bits_0]. change U64_MAX with (Z.ones 64). symmetry. apply Z.ones_spec_high. lia.
Qed.

(** A row with a set bit is not zero. *)
Lemma row_nonzero f r :
  field_ok f -> 0 <= r -> aget 0 f (Z.to_nat r) <> 0 -> exists i, 64 * r <= i < 64 * r + 64 /\ fbit f i = true.
Proof.
  intros Hf Hr Hnz. pose proof (aget_u64 f (Z.to_nat r) Hf) as Hu. set (v := aget 0 f (Z.to_nat r)) in *.
  assert (Hv : 0 < v) by (destruct Hu; lia). pose proof (ctzll_testbit v Hv) as Ht.
  pose proof (testbit_lt_width v 64 _ Hu ltac:(lia) Ht). exists (64 * r + ctzll v). split; [lia|].
  by rewrite fbit_row by lia.
Qed.

Lemma set_next_rows_found f e idx :
  field_ok f -> (0 < e)%nat -> Forall (fun i => (i * e + e <= 8)%nat) idx ->
  match set_next_rows f e idx with
  | (Some p, f') => exists i, (i * e + e <= 8)%nat /\ p = 64 * Z.of_nat (i * e) /\ rows_are f (i * e) e U64_MAX f' /\
      (forall j, (i * e <= j < i * e + e)%nat -> aget 0 f j = 0)
  | (None, f') => f' = f /\ forall i, i ∈ idx -> exists j, (i * e <= j < i * e + e)%nat /\ aget 0 f j <> 0
  end.
Proof.
  intros Hf He. induction idx as [|i idx IH]; intros Hidx; cbn [set_next_rows].
  { split; [done|]. by intros i Hi%not_elem_of_nil. }
  apply Forall_cons in Hidx as [Hi Hidx].
  pose proof (take_rows_spec e f f (i * e) 0 (rows_are_0 _ _ _)) as H.
  rewrite Nat.add_0_r, (fo_len f Hf) in H. specialize (H ltac:(unfold FIELD_N; lia) ltac:(lia)).
  destruct (take_rows e f (i * e) 0) as [[] f'].
  - destruct H as [Hr Hz]. exists i. split_and!; [done|unfold LLFREE_ATOMIC_SIZE; lia|done|done].
  - destruct H as [-> H]. specialize (IH Hidx). destruct (set_next_rows f e idx) as [[p|] f'']; [done|].
    destruct IH as [-> IH]. split; [done|]. intros k [->|Hk]%elem_of_cons; [done|by apply IH].
Qed.

Lemma set_next_rows_ok f e s :
  field_ok f -> (0 < e)%nat -> (s < 8)%nat -> (e * (8 / e) = 8)%nat ->
  set_next_ok f (64 * Z.of_nat e) (set_next_rows f e (for_offsetted (s / e) (8 / e))).
Proof.
  intros Hf He Hs Hdiv. set (m := (8 / e)%nat) in *. assert (Hm : (0 < m)%nat) by nia.
  assert (Hin : forall r, r ∈ for_offsetted (s / e) m <-> (r < m)%nat).
  { intros r. rewrite elem_of_for_offsetted by lia. rewrite Nat.mod_small; [lia|]. apply Nat.Div0.div_lt_upper_bound. lia. }
  pose proof (set_next_rows_found f e (for_offsetted (s / e) m) Hf He) as H.
  specialize (H ltac:(apply Forall_forall; intros r Hr; apply Hin in Hr; nia)).
  destruct (set_next_rows _ _ _) as [[p|] f']; cbn.
  - destruct H as (i & Hi & -> & Hr & Hz). destruct (rows_are_bits f (i * e) e true f' Hf Hr) as [Hok Hbits].
    split_and!; [lia|lia| |done| |].
    + replace (64 * Z.of_nat (i * e)) with (Z.of_nat i * (64 * Z.of_nat e)) by lia. apply Z.mod_mul. lia.
    + intros j Hj. destruct (index_split j ltac:(lia)) as (q & c & Hq & Hc & Hj' & _ & _).
      rewrite Hj', fbit_row by lia. rewrite Hz by lia. apply Z.bits_0.
    + intros j Hj. rewrite Hbits by done. destruct (in_block _ _ _); [by rewrite orb_true_r|by rewrite orb_false_r].
  - destruct H as [-> H]. split; [done|]. intros p Hp Hp' Hal.
    set (i := Z.to_nat (p / (64 * Z.of_nat e))).
    pose proof (Z.div_mod p (64 * Z.of_nat e) ltac:(lia)) as Hd. rewrite Hal, Z.add_0_r in Hd.
    pose proof (Z.div_pos p (64 * Z.of_nat e) Hp ltac:(lia)) as Hq.
    assert (Hpi : p = 64 * Z.of_nat (i * e)) by (unfold i; rewrite Nat2Z.inj_mul, Z2Nat.id by done; lia).
    destruct (H i) as (j & Hj & Hnz); [apply Hin; nia|].
    destruct (row_nonzero f (Z.of_nat j) Hf ltac:(lia)) as (b & Hb & Ht); [by rewrite Nat2Z.id|].
    exists b. split; [lia|done].
Qed.

(** [field_set_next] finds and marks an aligned block of [2^order] free
    frames of the bit field whenever there is one, wherever the search starts;
    it marks exactly that block, and changes nothing when it fails. *)
Lemma field_set_next_ok f start order :
  field_ok f -> 0 <= start -> 0 <= order <= 8 -> set_next_ok f (2 ^ order) (field_set_next f start order).
Proof.
  intros Hf Hs Ho. unfold field_set_next, LLFREE_ATOMIC_SIZE, FIELD_N. rewrite Z.shiftl_1_l.
  pose proof (Nat.mod_upper_bound (Z.to_nat (row_from_frame start)) 8 ltac:(lia)) as Hr.
  destruct (Z.leb_spec (2 ^ order) 64) as [Hle|Hgt].
  - apply set_next_row_ok; [done| |done]. split; [lia|]. apply Z.nlt_ge. intros Hlt.
    pose proof (Z.pow_lt_mono_r 2 6 order ltac:(lia) ltac:(lia) Hlt). lia.
  - assert (order = 7 \/ order = 8) as [-> | ->].
    { destruct (Z.le_gt_cases order 6) as [H6|]; [|lia]. pose proof (Z.pow_le_mono_r 2 order 6 ltac:(lia) H6). lia. }
    + apply (set_next_rows_ok f 2); [done|lia|done|done].
    + apply (set_next_rows_ok f 4); [done|lia|done|done].
Qed.

(** ** Toggling a given block *)

(** What a toggle of [n] bits at [p] from [e] to [negb e] promises. *)
Definition toggle_ok (f : bitfield) (p n : Z) (e : bool) (res : bool * bitfield) : Prop :=
  field_ok res.2 /\
  match res with
  | (true, f') =>
      (forall i, p <= i < p + n -> fbit f i = e) /\
      (forall i, 0 <= i < 512 -> fbit f' i = if in_block p n i then negb e else fbit f i)
  | (false, _) => exists i, p <= i < p + n /\ fbit f i = negb e
  end.

Lemma block_dec f p n e :
  0 <= n -> (forall i, p <= i < p + n -> fbit f i = e) \/ exists i, p <= i < p + n /\ fbit f i = negb e.
Proof.
  intros Hn. replace n with (Z.of_nat (Z.to_nat n)) by lia. induction (Z.to_nat n) as [|k IH]; [left; lia|].
  destruct IH as [IH|(i & Hi & Ht)]; [|right; exists i; split; [lia|done]].
  destruct (bool_decide (fbit f (p + Z.of_nat k) = e)) eqn:E.
  - apply bool_decide_eq_true in E. left. intros i Hi. destruct (Z.eq_dec i (p + Z.of_nat k)) as [->|]; [done|].
    apply IH. lia.
  - apply bool_decide_eq_false in E. right. exists (p + Z.of_nat k). split; [lia|]. by destruct (fbit f _), e.
Qed.

Lemma undo_toggle_ok f row i mask : field_ok f -> is_u64 mask -> field_ok (undo_toggle f row i mask).
Proof.
  intros Hf Hm. unfold undo_toggle.
  assert (H : forall l m r, field_ok r -> is_u64 m ->
    field_ok (foldl (fun '(m, r) j =>
      let '(_, m', r') := cmp_exchange r (row + i - j - 1) m (u64 (Z.lnot m)) in (m', r')) (m, r) l).2).
  { induction l as [|j l IH]; intros m r Hr Hm'; [done|]. cbn [foldl]. unfold cmp_exchange at 2.
    destruct (_ =? m); apply IH; try done; [|by apply aget_u64]. apply field_ok_insert; [done|apply u64_range]. }
  by apply H.
Qed.

Lemma toggle_rows_spec todo f f' base i (e : bool) :
  field_ok f -> rows_are f base i (if negb e then U64_MAX else 0) f' -> (base + i + todo <= length f)%nat ->
  (forall j, (base <= j < base + i)%nat -> aget 0 f j = if e then U64_MAX else 0) ->
  match toggle_rows todo f' base i (if e then U64_MAX else 0) with
  | (true, g) => rows_are f base (i + todo) (if negb e then U64_MAX else 0) g /\
      (forall j, (base <= j < base + (i + todo))%nat -> aget 0 f j = if e then U64_MAX else 0)
  | (false, g) => field_ok g /\ exists j, (base + i <= j < base + i + todo)%nat /\ aget 0 f j <> if e then U64_MAX else 0
  end.
Proof.
  intros Hf. revert f' i. induction todo as [|t IH]; intros f' i Hr Hb Hz; cbn [toggle_rows].
  { by rewrite Nat.add_0_r. }
  unfold cmp_exchange. rewrite (rows_are_next _ _ _ _ _ Hr).
  set (mask := if e then U64_MAX else 0) in *.
  destruct (Z.eqb_spec (aget 0 f (base + i)) mask) as [He|Hne]; cbv iota.
  - replace (u64 (Z.lnot mask)) with (if negb e then U64_MAX else 0) by by destruct e.
    specialize (IH (<[(base + i)%nat := if negb e then U64_MAX else 0]> f') (S i)).
    assert (Hz' : forall j, (base <= j < base + S i)%nat -> aget 0 f j = mask).
    { intros j Hj. destruct (decide (j = base + i)%nat) as [->|]; [done|]. apply Hz. lia. }
    specialize (IH ltac:(apply rows_are_S; [done|lia]) ltac:(lia) Hz').
    destruct (toggle_rows t _ base (S i) _) as [[] g].
    + rewrite <-Nat.add_succ_comm. done.
    + destruct IH as [Hg (j & Hj & Hn)]. split; [done|]. exists j. split; [lia|done].
  - split; [|exists (base + i)%nat; split; [lia|done]].
    apply undo_toggle_ok; [|by destruct e]. by destruct (rows_are_bits f base i (negb e) f' Hf Hr).
Qed.

Lemma row_toggle_spec row mask e :
  is_u64 row -> is_u64 mask ->
  match row_toggle row mask e with
  | Some v => is_u64 v /\ (forall i, 0 <= i < 64 -> Z.testbit mask i = true -> Z.testbit row i = e) /\
      (forall i, 0 <= i < 64 -> Z.testbit v i = if Z.testbit mask i then negb e else Z.testbit row i)
  | None => exists i, 0 <= i < 64 /\ Z.testbit mask i = true /\ Z.testbit row i = negb e
  end.
Proof.
  intros Hr Hm. assert (Hd : forall i, Z.testbit (Z.land row mask) i = Z.testbit row i && Z.testbit mask i) by (intros; apply Z.land_spec).
  destruct e; cbn [row_toggle negb].
  - destruct (Z.eqb_spec (Z.land row mask) mask) as [He|Hne].
    + split_and!; [by apply clear_bits_u64| |].
      * intros i _ Ht. specialize (Hd i). rewrite He, Ht in Hd. by destruct (Z.testbit row i).
      * intros i Hi. rewrite clear_bits_testbit by (done || lia). destruct (Z.testbit mask i); [by rewrite andb_false_r|by rewrite andb_true_r].
    + destruct (Z.eq_dec (Z.lxor (Z.land row mask) mask) 0) as [E|E]; [by apply Z.lxor_eq in E|].
      set (x := Z.lxor _ _) in E. assert (Hx : is_u64 x).
      { apply lxor_pow2; [lia| |done]. destruct Hm. by apply land_pow2. }
      assert (Hc : Z.testbit x (ctzll x) = true) by (apply ctzll_testbit; destruct Hx; lia).
      exists (ctzll x). split; [by apply (testbit_lt_width x)|]. unfold x in Hc.
      rewrite Z.lxor_spec, Hd in Hc. fold x in Hc. by destruct (Z.testbit row _), (Z.testbit mask _).
  - destruct (Z.eqb_spec (Z.land row mask) 0) as [He|Hne].
    + split_and!; [by apply is_u64_lor| |].
      * intros i _ Ht. specialize (Hd i). rewrite He, Ht, Z.bits_0 in Hd. by destruct (Z.testbit row i).
      * intros i Hi. rewrite Z.lor_spec. by destruct (Z.testbit mask i), (Z.testbit row i).
    + set (x := Z.land row mask) in *. assert (Hx : is_u64 x) by (destruct Hm; by apply land_pow2).
      assert (Hc : Z.testbit x (ctzll x) = true) by (apply ctzll_testbit; destruct Hx; lia).
      exists (ctzll x). split; [by apply (testbit_lt_width x)|]. rewrite Hd in Hc.
      by destruct (Z.testbit row _), (Z.testbit mask _).
Qed.

Lemma field_toggle_rows f p order e :
  field_ok f -> 7 <= order <= 9 -> 0 <= p -> p + 2 ^ order <= 512 -> p `mod` 2 ^ order = 0 ->
  toggle_ok f p (2 ^ order) e (field_toggle f p order e).
Proof.
  intros Hf Ho Hp Hb Hal. unfold field_toggle, LLFREE_CHILD_SIZE, LLFREE_ATOMIC_SIZE. rewrite Z.shiftl_1_l.
  set (n := Z.to_nat (2 ^ order / 64)). assert (Hn : 2 ^ order = 64 * Z.of_nat n /\ 1 < Z.of_nat n).
  { subst n. assert (order = 7 \/ order = 8 \/ order = 9) as [->|[->| ->]] by lia; done. }
  destruct Hn as [Hn Hn1]. rewrite Hn in *. rewrite (Z.mod_small p 512) by lia. cbv zeta.
  rewrite (proj2 (Z.ltb_lt 64 _)) by lia.
  assert (Hp64 : p = 64 * Z.of_nat (Z.to_nat (p / 64))).
  { rewrite Z2Nat.id by (apply Z.div_pos; lia). pose proof (Z.div_mod p 64 ltac:(lia)) as Hd.
    assert (Hz : p `mod` 64 = 0); [|lia].
    rewrite <-(Z.mod_mod_divide p (64 * Z.of_nat n) 64) by (exists (Z.of_nat n); lia). by rewrite Hal. }
  set (r := Z.to_nat (p / 64)) in *.
  pose proof (toggle_rows_spec n f f r 0 e Hf (rows_are_0 _ _ _)) as H.
  rewrite Nat.add_0_r, (fo_len f Hf) in H. specialize (H ltac:(unfold FIELD_N; lia) ltac:(lia)).
  destruct (toggle_rows n f r 0 _) as [[] g]; unfold toggle_ok; cbn [snd].
  - destruct H as [Hr Hz]. destruct (rows_are_bits f r n (negb e) g Hf Hr) as [Hok Hbits].
    split; [done|]. split; [|by rewrite Hp64].
    intros i Hi. destruct (index_split i ltac:(lia)) as (q & c & Hq & Hc & Hi' & _ & _).
    apply (proj1 (row_all f q e Hf Hq)); [|lia]. apply Hz. lia.
  - destruct H as [Hg (j & Hj & Hne)]. split; [done|].
    destruct (block_dec f (64 * Z.of_nat j) 64 e ltac:(lia)) as [Hall|(i & Hi & Ht)].
    + apply (row_all f (Z.of_nat j) e Hf ltac:(lia)) in Hall. by rewrite Nat2Z.id in Hall.
    + exists i. split; [lia|done].
Qed.

Lemma field_toggle_row f p order e :
  field_ok f -> 0 <= order <= 6 -> 0 <= p -> p + 2 ^ order <= 512 -> p `mod` 2 ^ order = 0 ->
  toggle_ok f p (2 ^ order) e (field_toggle f p order e) /\
  (forall f', field_toggle f p order e = (false, f') -> f' = f).
Proof.
  intros Hf Ho Hp Hb Hal. destruct (aligned_in_row order p Ho Hp Hal) as (r & k & Hr & Hk & -> & Hrow).
  unfold field_toggle, LLFREE_CHILD_SIZE, LLFREE_ATOMIC_SIZE. rewrite Z.shiftl_1_l. set (w := 2 ^ order) in *.
  assert (Hw : 0 < w) by (apply Z.pow_pos_nonneg; lia).
  rewrite (Z.mod_small _ 512) by nia. cbv zeta. rewrite (proj2 (Z.ltb_ge 64 w)) by nia.
  destruct (div_mod_64 r (w * k) Hr ltac:(nia)) as [-> ->].
  replace (Z.shiftr U64_MAX (64 - w)) with (Z.ones w).
  2:{ subst w. assert (order = 0 \/ order = 1 \/ order = 2 \/ order = 3 \/ order = 4 \/ order = 5 \/ order = 6)
        as [->|[->|[->|[->|[->|[->| ->]]]]]] by lia; done. }
  rewrite ones_shift_u64 by nia. set (row := aget 0 f (Z.to_nat r)). pose proof (aget_u64 f (Z.to_nat r) Hf) as Hu.
  assert (Hm : is_u64 (Z.shiftl (Z.ones w) (w * k))) by (rewrite <-ones_shift_u64 by nia; apply u64_range).
  pose proof (row_toggle_spec row _ e Hu Hm) as H.
  assert (Hrl : (Z.to_nat r < length f)%nat) by (rewrite (fo_len f Hf); unfold FIELD_N; nia).
  assert (Hmb : forall i, 0 <= i < 64 -> Z.testbit (Z.shiftl (Z.ones w) (w * k)) i = in_block (w * k) w i).
  { intros i Hi. apply ones_testbit; nia. }
  destruct (row_toggle row _ e) as [v|]; (split; [|by intros f' [=]]); unfold toggle_ok; cbn [snd].
  - destruct H as (Hv & Hall & Hbits). split; [by apply field_ok_insert|]. split.
    + intros i Hi. replace i with (64 * r + (i - 64 * r)) by lia. rewrite fbit_row by nia.
      apply Hall; [nia|]. rewrite Hmb by nia. apply in_block_true. lia.
    + intros i Hi. destruct (index_split i ltac:(lia)) as (q & c & Hq & Hc & Hi' & Hdiv & Hmod).
      rewrite fbit_insert by done. rewrite <-Hdiv, <-Hmod. destruct (decide (Z.to_nat q = Z.to_nat r)) as [Heq|Hne].
      * assert (q = r) as -> by lia. rewrite Hbits, Hmb, Hi', fbit_row by lia.
        replace (in_block (64 * r + w * k) w (64 * r + c)) with (in_block (w * k) w c); [done|].
        apply eq_true_iff_eq. rewrite !in_block_true. lia.
      * rewrite (proj2 (in_block_false _ _ _)); [done|]. nia.
  - destruct H as (i & Hi & Ht & Hrow'). split; [done|]. rewrite Hmb in Ht by done. apply in_block_true in Ht.
    exists (64 * r + i). split; [lia|]. by rewrite fbit_row by lia.
Qed.

Lemma field_toggle_ok f p order e :
  field_ok f -> 0 <= order <= 9 -> 0 <= p -> p + 2 ^ order <= 512 -> p `mod` 2 ^ order = 0 ->
  toggle_ok f p (2 ^ order) e (field_toggle f p order e).
Proof.
  intros. destruct (Z.le_gt_cases order 6); [apply field_toggle_row|apply field_toggle_rows]; (lia || done).
Qed.

(** ** Counting *)

(** The number of free frames of a field. *)
Definition zeros (f : bitfield) : Z := Z.of_nat (count_if (fun i => negb (fbit f i)) (seqZ 0 512)).

Lemma seqZ_split3 p n :
  0 <= p -> 0 <= n -> p + n <= 512 -> seqZ 0 512 = seqZ 0 p ++ seqZ p n ++ seqZ (p + n) (512 - p - n).
Proof.
  intros Hp Hn Hb. rewrite <-seqZ_app by lia. replace p with (0 + p) at 2 by lia. rewrite <-seqZ_app by lia.
  f_equal. lia.
Qed.

(** Flipping a block of free bits takes its size from the count. *)
Lemma zeros_block f f' p n :
  0 <= p -> 0 <= n -> p + n <= 512 -> (forall i, p <= i < p + n -> fbit f i = false) ->
  (forall i, p <= i < p + n -> fbit f' i = true) ->
  (forall i, 0 <= i < 512 -> ~ (p <= i < p + n) -> fbit f' i = fbit f i) ->
  zeros f = zeros f' + n.
Proof.
  intros Hp Hn Hb Hfree Hset Hother. unfold zeros.
  rewrite (seqZ_split3 p n) by lia.
  rewrite !count_if_app.
  rewrite (count_if_ext (fun i => negb (fbit f' i)) (fun i => negb (fbit f i)) (seqZ 0 p)).
  2:{ intros i Hi%elem_of_seqZ. f_equal. apply Hother; lia. }
  rewrite (count_if_ext (fun i => negb (fbit f' i)) (fun i => negb (fbit f i)) (seqZ (p + n) (512 - p - n))).
  2:{ intros i Hi%elem_of_seqZ. f_equal. apply Hother; lia. }
  rewrite (count_if_all (fun i => negb (fbit f i)) (seqZ p n)) by (intros i Hi%elem_of_seqZ; by rewrite Hfree by lia).
  rewrite (count_if_none (fun i => negb (fbit f' i)) (seqZ p n)) by (intros i Hi%elem_of_seqZ; by rewrite Hset by lia).
  rewrite length_seqZ. lia.
Qed.
