(* ===== verification/Lower.v ===== *)
(** * Lower: the lower frame allocator.

    Models [kernel/mm/child.c] and [kernel/mm/lower.c].  Every 512 frames form a
    child: a bit field and an entry with the number of its free frames, or the
    mark that the child is allocated as one huge frame.  Eight children form a
    tree.  Operations are sequential (see [Bitfield.v]); with [NDEBUG] the
    asserts after a failed undo do nothing. *)

From S2P Require Import Prelude Bits Bitfield.

Definition LLFREE_HUGE_ORDER := 9.
Definition LLFREE_TREE_ORDER := 12.
Definition LLFREE_TREE_SIZE := 4096.
Definition LLFREE_TREE_CHILDREN : nat := 8.

Definition LLFREE_ERR_OK := 0.
Definition LLFREE_ERR_MEMORY := 1.
Definition LLFREE_ERR_ARGUMENT := 2.
Definition LLFREE_ERR_INIT := 3.

Definition LLFREE_INIT_FREE := 0.
Definition LLFREE_INIT_ALLOC := 1.
Definition LLFREE_INIT_RECOVER := 2.
Definition LLFREE_INIT_NONE := 4.

Record llfree_result := mkRes { frame : Z; class : Z; error : Z }.
Definition llfree_ok (f c : Z) : llfree_result := mkRes f c LLFREE_ERR_OK.
Definition llfree_err (e : Z) : llfree_result := mkRes 0 0 e.
Definition llfree_is_ok (r : llfree_result) : bool := error r =? LLFREE_ERR_OK.

(** ** Child entries *)

Record child_t := mkChild { free : Z; huge : bool }.

#[global] Instance child_eq_dec : EqDecision child_t.
Proof. solve_decision. Defined.

Definition child_inc (c : child_t) (order : Z) : option child_t :=
  let num_pages := u16 (Z.shiftl 1 order) in
  if huge c || (LLFREE_CHILD_SIZE <? u16 (free c + num_pages)) then None
  else Some (mkChild (free c + num_pages) (huge c)).

Definition child_dec (c : child_t) (order : Z) : option child_t :=
  let num_pages := u16 (Z.shiftl 1 order) in
  if negb (huge c) && (num_pages <=? free c) then Some (mkChild (free c - num_pages) (huge c)) else None.

(** ** State *)

Record lower_t := mkLower { frames : Z; fields : list bitfield; children : list child_t }.

Definition div_ceil (a b : Z) : Z := (a + b - 1) / b.
(** [align_down] to a power of two, [align_up] built on it. *)
Definition align_down (v align : Z) : Z := clear_bits v (align - 1).
Definition align_up (v align : Z) : Z := align_down (v + align - 1) align.

Definition child_count (l : lower_t) : Z := div_ceil (frames l) LLFREE_CHILD_SIZE.
Definition children_count (l : lower_t) : Z := div_ceil (child_count l) 8.

Definition get_child (l : lower_t) (i : nat) : child_t := aget (mkChild 0 false) (children l) i.
Definition get_field (l : lower_t) (i : nat) : bitfield := aget [] (fields l) i.
Definition set_child (i : nat) (c : child_t) (l : lower_t) : lower_t :=
  mkLower (frames l) (fields l) (<[i := c]> (children l)).
Definition set_field (i : nat) (f : bitfield) (l : lower_t) : lower_t :=
  mkLower (frames l) (<[i := f]> (fields l)) (children l).

(** Both entries of the metadata are 64 bytes. *)
Definition lower_metadata_size (n : Z) : Z :=
  let children := div_ceil n LLFREE_CHILD_SIZE in
  let trees := div_ceil children 8 in
  align_up (children * 64) 64 + align_up (trees * 64) 64.

(** ** Initialisation *)

Definition zero_field : bitfield := replicate FIELD_N 0.

Fixpoint init_rows (n : nat) (fr : Z) : bitfield :=
  match n with
  | O => []
  | S n' =>
      if LLFREE_ATOMIC_SIZE <=? fr then 0 :: init_rows n' (fr - LLFREE_ATOMIC_SIZE)
      else if 0 <? fr then u64 (Z.shiftl U64_MAX fr) :: init_rows n' 0
      else U64_MAX :: init_rows n' fr
  end.

Definition init_field (fr : Z) : bitfield := init_rows FIELD_N fr.

Definition clear_free (n : Z) (free_all : bool) (i : nat) : Z :=
  if free_all then Z.min LLFREE_CHILD_SIZE (n - Z.of_nat i * LLFREE_CHILD_SIZE) else 0.

Definition lower_clear (n : Z) (free_all : bool) : lower_t :=
  let child_c := Z.to_nat (div_ceil n LLFREE_CHILD_SIZE) in
  let fr := clear_free n free_all in
  mkLower n
    ((fun i => if fr i =? 0 then zero_field else init_field (fr i)) <$> seq 0 child_c)
    (((fun i => mkChild (fr i) (fr i =? 0)) <$> seq 0 child_c) ++
     replicate (Z.to_nat (align_up (Z.of_nat child_c) 8) - child_c) (mkChild 0 true)).

Definition recover_child (l : lower_t) (i : nat) : lower_t :=
  if huge (get_child l i) then set_field i field_init (set_child i (mkChild 0 true) l)
  else set_child i (mkChild (u16 (LLFREE_CHILD_SIZE - field_count_ones (get_field l i))) false) l.

Definition lower_recover (l : lower_t) : lower_t :=
  foldl recover_child l (seq 0 (Z.to_nat (child_count l))).

(** [prev]: the contents of the metadata buffer, read by the last two modes. *)
Definition lower_init (n init : Z) (prev : list bitfield * list child_t) : llfree_result * lower_t :=
  let l := mkLower n prev.1 prev.2 in
  if init =? LLFREE_INIT_FREE then (llfree_err LLFREE_ERR_OK, lower_clear n true)
  else if init =? LLFREE_INIT_ALLOC then (llfree_err LLFREE_ERR_OK, lower_clear n false)
  else if init =? LLFREE_INIT_NONE then (llfree_err LLFREE_ERR_OK, l)
  else if init =? LLFREE_INIT_RECOVER then (llfree_err LLFREE_ERR_OK, lower_recover l)
  else (llfree_err LLFREE_ERR_INIT, l).

(** ** Huge frames *)

Definition cas_child (l : lower_t) (i : nat) (old new : child_t) : bool * lower_t :=
  if bool_decide (get_child l i = old) then (true, set_child i new l) else (false, l).

(** [for (k = 0; k < j; k++)]: the entry [base_idx + (j - k)] goes back to [expected]. *)
Definition undo_huge (l : lower_t) (base_idx j : nat) (expected desired : child_t) : lower_t :=
  foldl (fun l k => (cas_child l (base_idx + (j - k)) desired expected).2) l (seq 0 j).

Fixpoint update_huge (todo : nat) (l : lower_t) (base_idx j : nat) (expected desired : child_t) : bool * lower_t :=
  match todo with
  | O => (true, l)
  | S t =>
      match cas_child l (base_idx + j) expected desired with
      | (true, l') => update_huge t l' base_idx (S j) expected desired
      | (false, _) => (false, undo_huge l base_idx j expected desired)
      end
  end.

Definition try_update_huge_n (l : lower_t) (base_idx h_num : nat) (expected desired : child_t) : bool * lower_t :=
  update_huge h_num l base_idx 0 expected desired.

Definition all_free : child_t := mkChild LLFREE_CHILD_SIZE false.
Definition one_huge : child_t := mkChild 0 true.

(** ** Allocation *)

Definition lower_get_at (l : lower_t) (f order : Z) : llfree_result * lower_t :=
  let n := u32 (Z.shiftl 1 order) in
  if (frames l <? f + n) || negb (f `mod` n =? 0) then (llfree_err LLFREE_ERR_ARGUMENT, l) else
  let child_idx := Z.to_nat (Z.shiftr f 9) in
  if LLFREE_HUGE_ORDER <=? order then
    let h_num := Z.to_nat (Z.shiftl 1 (order - LLFREE_HUGE_ORDER)) in
    match try_update_huge_n l child_idx h_num all_free one_huge with
    | (true, l') => (llfree_ok f 0, l')
    | (false, l') => (llfree_err LLFREE_ERR_MEMORY, l')
    end
  else
    match child_dec (get_child l child_idx) order with
    | Some c =>
        let l := set_child child_idx c l in
        let '(ok, fd) := field_toggle (get_field l child_idx) (f `mod` LLFREE_CHILD_SIZE) order false in
        let l := set_field child_idx fd l in
        if ok then (llfree_ok f 0, l)
        else
          (llfree_err LLFREE_ERR_MEMORY,
           match child_inc (get_child l child_idx) order with Some c' => set_child child_idx c' l | None => l end)
    | None => (llfree_err LLFREE_ERR_MEMORY, l)
    end.

(** The search over the huge frames of a tree. *)
Fixpoint get_huge (l : lower_t) (h_num : nat) (idx : list nat) : llfree_result * lower_t :=
  match idx with
  | [] => (llfree_err LLFREE_ERR_MEMORY, l)
  | current_i :: idx' =>
      let i := (current_i * h_num)%nat in
      match try_update_huge_n l i h_num all_free one_huge with
      | (true, l') => (llfree_ok (Z.shiftl (Z.of_nat i) 9) 0, l')
      | (false, l') => get_huge l' h_num idx'
      end
  end.

(** The search over the children of a tree. *)
Fixpoint get_small (l : lower_t) (start_frame order : Z) (idx : list nat) : llfree_result * lower_t :=
  match idx with
  | [] => (llfree_err LLFREE_ERR_MEMORY, l)
  | i :: idx' =>
      match child_dec (get_child l i) order with
      | Some c =>
          let l := set_child i c l in
          let '(pos, fd) := field_set_next (get_field l i) start_frame order in
          let l := set_field i fd l in
          match pos with
          | Some p => (llfree_ok (Z.shiftl (Z.of_nat i) 9 + p) 0, l)
          | None =>
              get_small (match child_inc (get_child l i) order with Some c' => set_child i c' l | None => l end)
                start_frame order idx'
          end
      | None => get_small l start_frame order idx'
      end
  end.

Definition lower_get (l : lower_t) (start_frame order : Z) (at_frame : option Z) : llfree_result * lower_t :=
  match at_frame with
  | None =>
      let idx := Z.shiftr start_frame 9 in
      if LLFREE_HUGE_ORDER <=? order then
        let h_num := Z.to_nat (Z.shiftl 1 (order - LLFREE_HUGE_ORDER)) in
        let idx := Z.to_nat (align_down idx (Z.of_nat h_num)) in
        get_huge l h_num (for_offsetted (idx / h_num) (LLFREE_TREE_CHILDREN / h_num))
      else get_small l start_frame order (for_offsetted (Z.to_nat idx) LLFREE_TREE_CHILDREN)
  | Some f => lower_get_at l f order
  end.

(** ** Freeing *)

(** A huge frame of which a part is freed becomes a field of set bits.  In a
    sequential run the entry is still [old], and the wait for another CPU's split
    ends with the entry unchanged. *)
Definition split_huge (l : lower_t) (i : nat) (old : child_t) : llfree_result * lower_t :=
  let '(ok, fd) := field_toggle (get_field l i) 0 9 false in
  let l := set_field i fd l in
  if ok then (llfree_err LLFREE_ERR_OK, (cas_child l i old (mkChild 0 false)).2)
  else if huge (get_child l i) then (llfree_err LLFREE_ERR_MEMORY, l) else (llfree_err LLFREE_ERR_OK, l).

(** Clear the bits and count the frames. *)
Definition put_bits (l : lower_t) (i : nat) (field_index order : Z) : llfree_result * lower_t :=
  let '(ok, fd) := field_toggle (get_field l i) field_index order true in
  let l := set_field i fd l in
  if negb ok then (llfree_err LLFREE_ERR_MEMORY, l) else
  (llfree_err LLFREE_ERR_OK,
   match child_inc (get_child l i) order with Some c => set_child i c l | None => l end).

Definition lower_put (l : lower_t) (f order : Z) : llfree_result * lower_t :=
  let n := Z.shiftl 1 order in
  if (frames l <? f + n) || negb (f `mod` n =? 0) then (llfree_err LLFREE_ERR_ARGUMENT, l) else
  let child_idx := Z.shiftr f 9 in
  if LLFREE_HUGE_ORDER <=? order then
    let h_num := Z.shiftl 1 (order - LLFREE_HUGE_ORDER) in
    let base_idx := align_down child_idx h_num in
    if negb (child_idx =? base_idx) then (llfree_err LLFREE_ERR_ARGUMENT, l) else
    match try_update_huge_n l (Z.to_nat base_idx) (Z.to_nat h_num) one_huge all_free with
    | (true, l') => (llfree_err LLFREE_ERR_OK, l')
    | (false, l') => (llfree_err LLFREE_ERR_ARGUMENT, l')
    end
  else
    let i := Z.to_nat child_idx in
    let old := get_child l i in
    let '(res, l) := if huge old then split_huge l i old else (llfree_err LLFREE_ERR_OK, l) in
    if negb (llfree_is_ok res) then (res, l) else
    put_bits l i (f `mod` LLFREE_CHILD_SIZE) order.

(** ** Statistics *)

Record ll_stats_t := mkStats { free_frames : Z; free_huge : Z; free_trees : Z }.

Definition b2z (b : bool) : Z := if b then 1 else 0.

Definition tree_free (l : lower_t) (start : nat) : Z :=
  foldr (fun j acc => free (get_child l (start + j)) + acc) 0 (seq 0 8).
Definition tree_huge (l : lower_t) (start : nat) : Z :=
  foldr (fun j acc => b2z (free (get_child l (start + j)) =? LLFREE_CHILD_SIZE) + acc) 0 (seq 0 8).

Definition lower_stats (l : lower_t) : ll_stats_t :=
  foldr (fun i st =>
           mkStats (tree_free l (8 * i) + free_frames st) (tree_huge l (8 * i) + free_huge st)
             (b2z (tree_free l (8 * i) =? LLFREE_TREE_SIZE) + free_trees st))
        (mkStats 0 0 0) (seq 0 (Z.to_nat (children_count l))).

Definition lower_stats_at (l : lower_t) (f order : Z) : ll_stats_t :=
  if frames l <=? f then mkStats 0 0 0 else
  let i := Z.to_nat (Z.shiftr f 9) in
  let c := get_child l i in
  if order =? 0 then
    if free c =? LLFREE_CHILD_SIZE then mkStats 1 0 0
    else if 0 <? free c then mkStats (b2z (field_is_free (get_field l i) (f `mod` LLFREE_CHILD_SIZE))) 0 0
    else mkStats 0 0 0
  else if order =? LLFREE_HUGE_ORDER then mkStats (free c) (b2z (free c =? LLFREE_CHILD_SIZE)) 0
  else if order =? LLFREE_TREE_ORDER then
    let start := Z.to_nat (align_down (Z.shiftr f 9) 8) in
    mkStats (tree_free l start) (tree_huge l start) (b2z (tree_free l start =? LLFREE_TREE_SIZE))
  else mkStats 0 0 0.

(** ** The invariant *)

Record child_ok (n : Z) (i : nat) (c : child_t) (f : bitfield) : Prop := {
  co_field : field_ok f;
  co_huge : huge c = true -> free c = 0 /\ forall j, 0 <= j < 512 -> fbit f j = false;
  co_small : huge c = false ->
    free c = zeros f /\ forall j, 0 <= j < 512 -> n <= 512 * Z.of_nat i + j -> fbit f j = true;
}.

Abbreviation nchildren l := (Z.to_nat (child_count l)).

Record lower_ok (l : lower_t) : Prop := {
  lo_frames : 0 < frames l;
  lo_fields : length (fields l) = nchildren l;
  lo_children : (nchildren l <= length (children l))%nat;
  lo_child i : (i < nchildren l)%nat -> child_ok (frames l) i (get_child l i) (get_field l i);
  lo_rest i : (nchildren l <= i)%nat -> free (get_child l i) = 0;
}.

(** Frame [p] is managed and free. *)
Definition lfree (l : lower_t) (p : Z) : bool :=
  let i := Z.to_nat (p / 512) in
  (0 <=? p) && (i <? nchildren l)%nat && negb (huge (get_child l i)) && negb (fbit (get_field l i) (p `mod` 512)).

Lemma div_mod_512 i j : 0 <= i -> 0 <= j < 512 -> (512 * i + j) / 512 = i /\ (512 * i + j) `mod` 512 = j.
Proof.
  intros Hi Hj. split.
  - symmetry. apply (Z.div_unique_pos _ _ _ j); lia.
  - symmetry. apply (Z.mod_unique_pos _ _ i); lia.
Qed.

Lemma frame_split p : 0 <= p -> exists i j, 0 <= j < 512 /\ p = 512 * Z.of_nat i + j.
Proof.
  intros Hp. exists (Z.to_nat (p / 512)), (p `mod` 512). pose proof (Z.div_mod p 512 ltac:(lia)).
  pose proof (Z.mod_pos_bound p 512 ltac:(lia)). rewrite Z2Nat.id by (apply Z.div_pos; lia). lia.
Qed.

Lemma lfree_child l i j :
  0 <= j < 512 ->
  lfree l (512 * Z.of_nat i + j) = (i <? nchildren l)%nat && negb (huge (get_child l i)) && negb (fbit (get_field l i) j).
Proof.
  intros Hj. unfold lfree. destruct (div_mod_512 (Z.of_nat i) j ltac:(lia) Hj) as [-> ->].
  rewrite Nat2Z.id. rewrite (proj2 (Z.leb_le 0 _)) by lia. done.
Qed.

Lemma lfree_neg l p : p < 0 -> lfree l p = false.
Proof. intros Hp. unfold lfree. by rewrite (proj2 (Z.leb_gt 0 p)). Qed.

Lemma lfree_range l p : lower_ok l -> lfree l p = true -> 0 <= p < frames l.
Proof.
  intros Hl Hp. destruct (Z.lt_ge_cases p 0) as [Hn|Hn]; [by rewrite lfree_neg in Hp|].
  destruct (frame_split p Hn) as (i & j & Hj & ->). rewrite lfree_child in Hp by done.
  apply andb_true_iff in Hp as [[Hi%Nat.ltb_lt Hh%negb_true_iff]%andb_true_iff Hb%negb_true_iff].
  destruct (co_small _ _ _ _ (lo_child l Hl i Hi) Hh) as [_ Ht]. split; [done|].
  apply Z.nle_gt. intros Hle. rewrite Ht in Hb by done. done.
Qed.

(** Replacing one child and its field. *)
Definition update_child (l : lower_t) (i : nat) (c : child_t) (f : bitfield) : lower_t :=
  set_field i f (set_child i c l).

Lemma get_child_update l i c f k :
  (i < length (children l))%nat -> get_child (update_child l i c f) k = if decide (i = k) then c else get_child l k.
Proof. intros Hi. unfold get_child. cbn. by rewrite aget_insert. Qed.

Lemma get_field_update l i c f k :
  (i < length (fields l))%nat -> get_field (update_child l i c f) k = if decide (i = k) then f else get_field l k.
Proof. intros Hi. unfold get_field. cbn. by rewrite aget_insert. Qed.

Lemma update_child_ok l i c f :
  lower_ok l -> (i < nchildren l)%nat -> child_ok (frames l) i c f -> lower_ok (update_child l i c f).
Proof.
  intros Hl Hi Hc. pose proof (lo_fields l Hl) as Hf. pose proof (lo_children l Hl) as Hch. split.
  - apply Hl.
  - cbn. by rewrite length_insert.
  - cbn. rewrite length_insert. done.
  - intros k Hk. rewrite get_child_update, get_field_update by lia. case_decide; [by subst|by apply (lo_child l Hl)].
  - intros k Hk. change (nchildren (update_child l i c f)) with (nchildren l) in Hk.
    rewrite get_child_update by lia. case_decide; [lia|by apply (lo_rest l Hl)].
Qed.

Lemma lfree_update l i c f k j :
  lower_ok l -> (i < nchildren l)%nat -> 0 <= j < 512 ->
  lfree (update_child l i c f) (512 * Z.of_nat k + j) =
    if decide (k = i) then negb (huge c) && negb (fbit f j) else lfree l (512 * Z.of_nat k + j).
Proof.
  intros Hl Hi Hj. pose proof (lo_fields l Hl) as Hf. pose proof (lo_children l Hl) as Hch.
  rewrite !lfree_child by done. change (nchildren (update_child l i c f)) with (nchildren l).
  rewrite get_child_update, get_field_update by lia. repeat case_decide; try congruence.
  subst. by rewrite (proj2 (Nat.ltb_lt _ _)).
Qed.

Lemma update_child_id l i :
  (i < length (children l))%nat -> (i < length (fields l))%nat -> update_child l i (get_child l i) (get_field l i) = l.
Proof.
  intros Hc Hf. destruct l as [n fs cs]. unfold update_child, set_field, set_child, get_child, get_field, aget. cbn in *.
  destruct (lookup_lt_is_Some_2 cs i Hc) as [c Hc']. destruct (lookup_lt_is_Some_2 fs i Hf) as [f Hf'].
  rewrite Hc', Hf'. cbn. by rewrite !list_insert_id.
Qed.

(** ** Free counts *)

Lemma zeros_range f : 0 <= zeros f <= 512.
Proof. unfold zeros. pose proof (count_if_le (fun i => negb (fbit f i)) (seqZ 0 512)). rewrite length_seqZ in *. lia. Qed.

Lemma zeros_512 f : zeros f = 512 -> forall j, 0 <= j < 512 -> fbit f j = false.
Proof.
  intros Hz j Hj. destruct (fbit f j) eqn:E; [|done]. exfalso. unfold zeros in Hz.
  assert (H : (count_if (fun i => negb (fbit f i)) (seqZ 0 512) < count_if (fun _ => true) (seqZ 0 512))%nat).
  { eapply (count_if_lt _ _ _ (Z.to_nat j) j); [done| |by rewrite E|done]. apply lookup_seqZ. lia. }
  pose proof (count_if_le (fun _ : Z => true) (seqZ 0 512)). rewrite length_seqZ in *. lia.
Qed.

(** A free block is counted. *)
Lemma zeros_ge f p n : 0 <= p -> 0 <= n -> p + n <= 512 -> (forall i, p <= i < p + n -> fbit f i = false) -> n <= zeros f.
Proof.
  intros Hp Hn Hb Hf. unfold zeros.
  rewrite (seqZ_split3 p n) by lia.
  rewrite !count_if_app, (count_if_all _ (seqZ p n)) by (intros i Hi%elem_of_seqZ; by rewrite Hf by lia).
  rewrite length_seqZ. lia.
Qed.

(** ** Allocation is correct *)

(** What an allocation of [n] frames in the tree [t] promises. *)
Definition get_ok (l : lower_t) (n t : Z) (res : llfree_result * lower_t) : Prop :=
  let f := frame res.1 in
  (llfree_is_ok res.1 = true /\ lower_ok res.2 /\ frames res.2 = frames l /\
   f `mod` n = 0 /\ LLFREE_TREE_SIZE * t <= f /\ f + n <= LLFREE_TREE_SIZE * (t + 1) /\ f + n <= frames l /\
   (forall q, f <= q < f + n -> lfree l q = true) /\
   (forall q, lfree res.2 q = lfree l q && negb (in_block f n q)) /\
   (n = 512 -> get_child res.2 (Z.to_nat (f / 512)) = one_huge)) \/
  (error res.1 = LLFREE_ERR_MEMORY /\ res.2 = l /\
   forall p, LLFREE_TREE_SIZE * t <= p -> p + n <= LLFREE_TREE_SIZE * (t + 1) -> p `mod` n = 0 ->
     exists q, p <= q < p + n /\ lfree l q = false).

Lemma pow2_u16 order : 0 <= order <= 9 -> u16 (Z.shiftl 1 order) = 2 ^ order /\ 1 <= 2 ^ order <= 512.
Proof.
  intros Ho. rewrite Z.shiftl_1_l.
  pose proof (Z.pow_pos_nonneg 2 order ltac:(lia) ltac:(lia)). pose proof (Z.pow_le_mono_r 2 order 9 ltac:(lia) ltac:(lia)).
  split; [|lia]. apply u16_small. unfold is_u16. lia.
Qed.

(** A block of one child that was free is now allocated. *)
Lemma take_block l i c f' p n :
  lower_ok l -> (i < nchildren l)%nat -> huge (get_child l i) = false ->
  c = mkChild (free (get_child l i) - n) false -> field_ok f' -> 0 <= p -> 0 < n -> p + n <= 512 ->
  (forall j, p <= j < p + n -> fbit (get_field l i) j = false) ->
  (forall j, 0 <= j < 512 -> fbit f' j = fbit (get_field l i) j || in_block p n j) ->
  let l' := update_child l i c f' in
  let f := 512 * Z.of_nat i + p in
  lower_ok l' /\ f + n <= frames l /\ (forall q, f <= q < f + n -> lfree l q = true) /\
  (forall q, lfree l' q = lfree l q && negb (in_block f n q)).
Proof.
  intros Hl Hi Hh -> Hf' Hp Hn Hb Hfree Hbits. cbv zeta.
  destruct (co_small _ _ _ _ (lo_child l Hl i Hi) Hh) as [Hcnt Htail].
  assert (Hin : forall q, 512 * Z.of_nat i + p <= q < 512 * Z.of_nat i + p + n -> lfree l q = true).
  { intros q Hq. replace q with (512 * Z.of_nat i + (q - 512 * Z.of_nat i)) by lia. rewrite lfree_child by lia.
    rewrite (proj2 (Nat.ltb_lt _ _)), Hh, Hfree by lia. done. }
  assert (Hz : zeros (get_field l i) = zeros f' + n).
  { apply (zeros_block _ _ p n); try done; try lia.
    - intros j Hj. rewrite Hbits by lia. rewrite (proj2 (in_block_true p n j)) by lia. by rewrite orb_true_r.
    - intros j Hj Hnot. rewrite Hbits by lia. rewrite (proj2 (in_block_false p n j)) by lia. by rewrite orb_false_r. }
  split_and!; [|pose proof (lfree_range l _ Hl (Hin (512 * Z.of_nat i + p + n - 1) ltac:(lia))); lia|done|].
  - apply update_child_ok; [done|done|]. split; [done|by intros [=]|]. intros _. cbn. split; [lia|].
    intros j Hj Hle. rewrite Hbits, Htail by done. done.
  - intros q. destruct (Z.lt_ge_cases q 0); [by rewrite !lfree_neg by done|].
    destruct (frame_split q ltac:(done)) as (k & j & Hj & ->). rewrite lfree_update by done.
    destruct (decide (k = i)) as [->|Hne].
    + rewrite lfree_child, (proj2 (Nat.ltb_lt _ _)), Hh, Hbits, negb_orb by done. cbn. f_equal. f_equal.
      apply eq_true_iff_eq. rewrite !in_block_true. lia.
    + rewrite (proj2 (in_block_false _ _ _)); [by rewrite andb_true_r|]. lia.
Qed.

(** No block of child [i] is free. *)
Definition child_full (l : lower_t) (n : Z) (i : nat) : Prop :=
  forall p, 0 <= p -> p + n <= 512 -> p `mod` n = 0 ->
    exists q, 512 * Z.of_nat i + p <= q < 512 * Z.of_nat i + p + n /\ lfree l q = false.

Lemma child_full_out l n i : 0 < n -> (nchildren l <= i)%nat -> child_full l n i.
Proof.
  intros Hn Hi p Hp Hb _. exists (512 * Z.of_nat i + p). split; [lia|]. rewrite lfree_child by lia.
  by rewrite (proj2 (Nat.ltb_ge _ _)).
Qed.

Lemma child_full_bit l n i :
  0 < n -> (forall p, 0 <= p -> p + n <= 512 -> p `mod` n = 0 -> exists j, p <= j < p + n /\ fbit (get_field l i) j = true) ->
  child_full l n i.
Proof.
  intros Hn H p Hp Hb Ha. destruct (H p Hp Hb Ha) as (j & Hj & Ht). exists (512 * Z.of_nat i + j).
  split; [lia|]. rewrite lfree_child, Ht by lia. by rewrite andb_false_r.
Qed.

Lemma child_dec_None_full l i order :
  lower_ok l -> 0 <= order <= 9 -> child_dec (get_child l i) order = None -> child_full l (2 ^ order) i.
Proof.
  intros Hl Ho Hd. destruct (pow2_u16 order Ho) as [Hu Hr].
  destruct (decide (nchildren l <= i)%nat) as [Hout|Hin]; [apply child_full_out; [lia|done]|].
  assert (Hi : (i < nchildren l)%nat) by lia. pose proof (lo_child l Hl i Hi) as Hc.
  unfold child_dec in Hd. rewrite Hu in Hd. destruct (huge (get_child l i)) eqn:Hh.
  - intros p Hp Hb _. exists (512 * Z.of_nat i + p). split; [lia|]. rewrite lfree_child, Hh by lia. by rewrite andb_false_r.
  - cbn [negb andb] in Hd. destruct (Z.leb_spec (2 ^ order) (free (get_child l i))) as [|Hlt]; [done|].
    apply child_full_bit; [lia|]. intros p Hp Hb _.
    destruct (block_dec (get_field l i) p (2 ^ order) false ltac:(lia)) as [Hall|He]; [|done].
    apply zeros_ge in Hall; [|lia..]. destruct (co_small _ _ _ _ Hc Hh). lia.
Qed.

Lemma child_dec_Some c order c' :
  0 <= order <= 9 -> child_dec c order = Some c' ->
  huge c = false /\ 2 ^ order <= free c /\ c' = mkChild (free c - 2 ^ order) false.
Proof.
  intros Ho. destruct (pow2_u16 order Ho) as [Hu Hr]. unfold child_dec. rewrite Hu.
  destruct (huge c) eqn:Hh; [done|]. cbn [negb andb]. destruct (Z.leb_spec (2 ^ order) (free c)); [|done].
  by intros [= <-].
Qed.

Lemma child_inc_Some f order :
  0 <= order <= 9 -> 0 <= f -> f + 2 ^ order <= 512 ->
  child_inc (mkChild f false) order = Some (mkChild (f + 2 ^ order) false).
Proof.
  intros Ho Hf Hb. destruct (pow2_u16 order Ho) as [Hu Hr]. unfold child_inc. rewrite Hu. cbn [huge free orb].
  rewrite u16_small by (unfold is_u16; lia). by rewrite (proj2 (Z.ltb_ge _ _)).
Qed.

Lemma set_child_field l i c c' f : set_child i c' (set_field i f (set_child i c l)) = update_child l i c' f.
Proof. unfold update_child, set_child, set_field. cbn. by rewrite list_insert_insert_eq. Qed.

(** Undoing [child_dec] after a failed search. *)
Lemma undo_child_dec l i order c f :
  lower_ok l -> (i < nchildren l)%nat -> 0 <= order <= 9 -> child_dec (get_child l i) order = Some c ->
  f = get_field l i ->
  match child_inc (get_child (set_field i f (set_child i c l)) i) order with
  | Some c' => set_child i c' (set_field i f (set_child i c l))
  | None => set_field i f (set_child i c l)
  end = l.
Proof.
  intros Hl Hi Ho Hd ->. pose proof (lo_children l Hl). pose proof (lo_fields l Hl).
  destruct (child_dec_Some _ _ _ Ho Hd) as (Hh & Hge & ->).
  destruct (co_small _ _ _ _ (lo_child l Hl i Hi) Hh) as [Hz _]. pose proof (zeros_range (get_field l i)).
  change (get_child (set_field i (get_field l i) (set_child i (mkChild (free (get_child l i) - 2 ^ order) false) l)) i)
    with (get_child (update_child l i (mkChild (free (get_child l i) - 2 ^ order) false) (get_field l i)) i).
  rewrite get_child_update by lia. rewrite decide_True by done. rewrite child_inc_Some by lia.
  rewrite set_child_field. replace (mkChild _ false) with (get_child l i); [by apply update_child_id; lia|].
  destruct (get_child l i) as [fr hg]. cbn in *. subst hg. f_equal. lia.
Qed.

Lemma get_small_ok l s order idx :
  lower_ok l -> 0 <= s -> 0 <= order <= 8 ->
  let n := 2 ^ order in let res := get_small l s order idx in
  (exists i p, i ∈ idx /\ 0 <= p /\ p + n <= 512 /\ p `mod` n = 0 /\ llfree_is_ok res.1 = true /\
     let f := 512 * Z.of_nat i + p in
     frame res.1 = f /\ lower_ok res.2 /\ frames res.2 = frames l /\ f + n <= frames l /\
     (forall q, f <= q < f + n -> lfree l q = true) /\ (forall q, lfree res.2 q = lfree l q && negb (in_block f n q))) \/
  (error res.1 = LLFREE_ERR_MEMORY /\ res.2 = l /\ forall i, i ∈ idx -> child_full l n i).
Proof.
  intros Hl Hs Ho. cbv zeta. induction idx as [|i idx IH]; cbn [get_small].
  { right. split_and!; [done|done|]. by intros i Hi%not_elem_of_nil. }
  assert (Hnext : child_full l (2 ^ order) i -> forall res, res = get_small l s order idx ->
    (exists k p, k ∈ i :: idx /\ 0 <= p /\ p + 2 ^ order <= 512 /\ p `mod` 2 ^ order = 0 /\ llfree_is_ok res.1 = true /\
       frame res.1 = 512 * Z.of_nat k + p /\ lower_ok res.2 /\ frames res.2 = frames l /\
       512 * Z.of_nat k + p + 2 ^ order <= frames l /\
       (forall q, 512 * Z.of_nat k + p <= q < 512 * Z.of_nat k + p + 2 ^ order -> lfree l q = true) /\
       (forall q, lfree res.2 q = lfree l q && negb (in_block (512 * Z.of_nat k + p) (2 ^ order) q))) \/
    (error res.1 = LLFREE_ERR_MEMORY /\ res.2 = l /\ forall k, k ∈ i :: idx -> child_full l (2 ^ order) k)).
  { intros Hfull res ->. destruct IH as [(k & p & Hk & IH)|(He & Hr & IH)].
    - left. exists k, p. split; [apply elem_of_cons; by right|done].
    - right. split_and!; [done|done|]. intros k [->|Hk]%elem_of_cons; [done|by apply IH]. }
  destruct (child_dec (get_child l i) order) as [c|] eqn:Hd.
  2:{ apply Hnext; [|done]. apply child_dec_None_full; [done|lia|done]. }
  destruct (child_dec_Some _ order _ ltac:(lia) Hd) as (Hh & Hge & Hc). destruct (pow2_u16 order ltac:(lia)) as [_ Hpow].
  assert (Hi : (i < nchildren l)%nat).
  { destruct (decide (i < nchildren l)%nat) as [|Hout]; [done|]. pose proof (lo_rest l Hl i ltac:(lia)). lia. }
  change (get_field (set_child i c l) i) with (get_field l i).
  pose proof (field_set_next_ok (get_field l i) s order (co_field _ _ _ _ (lo_child l Hl i Hi)) Hs Ho) as Hset.
  destruct (field_set_next (get_field l i) s order) as [[p|] fd]; cbn [set_next_ok] in Hset.
  - destruct Hset as (Hp & Hb & Hal & Hfd & Hfree & Hbits). left. exists i, p.
    destruct (take_block l i c fd p (2 ^ order) Hl Hi Hh Hc Hfd Hp ltac:(lia) Hb Hfree Hbits) as (H1 & H2 & H3 & H4).
    split_and!; try done; [apply elem_of_cons; by left|]. cbn. rewrite Z.shiftl_mul_pow2 by lia. lia.
  - destruct Hset as [-> Hnone]. apply Hnext; [apply child_full_bit; [lia|done]|].
    cbv beta zeta. f_equal. apply undo_child_dec; (done || lia).
Qed.

(** With a single entry there is nothing to undo. *)
Lemma try_update_huge_1 l i expected desired :
  try_update_huge_n l i 1 expected desired =
    if bool_decide (get_child l i = expected) then (true, set_child i desired l) else (false, l).
Proof.
  unfold try_update_huge_n. cbn [update_huge]. rewrite Nat.add_0_r. unfold cas_child.
  by destruct (bool_decide (get_child l i = expected)).
Qed.

Lemma set_child_update l i c : lower_ok l -> (i < nchildren l)%nat -> set_child i c l = update_child l i c (get_field l i).
Proof.
  intros Hl Hi. pose proof (lo_fields l Hl). destruct l as [n fs cs]. unfold update_child, set_field, set_child, get_field, aget.
  cbn in *. destruct (lookup_lt_is_Some_2 fs i ltac:(lia)) as [f Hf]. rewrite Hf. cbn. by rewrite (list_insert_id fs).
Qed.

(** Taking a whole child. *)
Lemma take_child l i :
  lower_ok l -> get_child l i = all_free ->
  let l' := set_child i one_huge l in let f := 512 * Z.of_nat i in
  (i < nchildren l)%nat /\ lower_ok l' /\ f + 512 <= frames l /\ (forall q, f <= q < f + 512 -> lfree l q = true) /\
  (forall q, lfree l' q = lfree l q && negb (in_block f 512 q)).
Proof.
  intros Hl Hc. cbv zeta. assert (Hi : (i < nchildren l)%nat).
  { destruct (decide (i < nchildren l)%nat) as [|Hout]; [done|]. pose proof (lo_rest l Hl i ltac:(lia)) as Hr. rewrite Hc in Hr. by vm_compute in Hr. }
  pose proof (lo_child l Hl i Hi) as Hok. destruct (co_small _ _ _ _ Hok) as [Hz Htail]; [by rewrite Hc|].
  rewrite Hc in Hz. cbn in Hz. pose proof (zeros_512 _ (eq_sym Hz)) as Hbits.
  assert (Hin : forall q, 512 * Z.of_nat i <= q < 512 * Z.of_nat i + 512 -> lfree l q = true).
  { intros q Hq. replace q with (512 * Z.of_nat i + (q - 512 * Z.of_nat i)) by lia. rewrite lfree_child by lia.
    by rewrite (proj2 (Nat.ltb_lt _ _)), Hc, Hbits by lia. }
  rewrite set_child_update by done. split_and!; [done| | |done|].
  - apply update_child_ok; [done|done|]. split; [apply Hok|done|by intros [=]].
  - pose proof (lfree_range l _ Hl (Hin (512 * Z.of_nat i + 511) ltac:(lia))). lia.
  - intros q. destruct (Z.lt_ge_cases q 0); [by rewrite !lfree_neg by done|].
    destruct (frame_split q ltac:(done)) as (k & j & Hj & ->). rewrite lfree_update by done.
    destruct (decide (k = i)) as [->|Hne].
    + rewrite (proj2 (in_block_true _ _ _)) by lia. by rewrite andb_false_r.
    + rewrite (proj2 (in_block_false _ _ _)) by lia. by rewrite andb_true_r.
Qed.

Lemma not_all_free_full l i : lower_ok l -> get_child l i <> all_free -> child_full l 512 i.
Proof.
  intros Hl Hne. destruct (decide (nchildren l <= i)%nat) as [Hout|Hin]; [by apply child_full_out; [lia|]|].
  pose proof (lo_child l Hl i ltac:(lia)) as Hc. destruct (huge (get_child l i)) eqn:Hh.
  - intros p Hp Hb _. exists (512 * Z.of_nat i + p). split; [lia|]. rewrite lfree_child, Hh by lia. by rewrite andb_false_r.
  - apply child_full_bit; [lia|]. intros p Hp Hb _. assert (p = 0) as -> by lia.
    destruct (block_dec (get_field l i) 0 512 false ltac:(lia)) as [Hall|He]; [|done].
    apply zeros_ge in Hall; [|lia..]. pose proof (zeros_range (get_field l i)).
    destruct (co_small _ _ _ _ Hc Hh) as [Hz _]. exfalso. apply Hne.
    destruct (get_child l i) as [fr hg]. cbn in *. subst hg. unfold all_free, LLFREE_CHILD_SIZE. f_equal. lia.
Qed.

Lemma get_huge_ok l idx :
  lower_ok l ->
  let res := get_huge l 1 idx in
  (exists i, i ∈ idx /\ llfree_is_ok res.1 = true /\
     let f := 512 * Z.of_nat i in
     frame res.1 = f /\ get_child res.2 i = one_huge /\ lower_ok res.2 /\ frames res.2 = frames l /\ f + 512 <= frames l /\
     (forall q, f <= q < f + 512 -> lfree l q = true) /\ (forall q, lfree res.2 q = lfree l q && negb (in_block f 512 q))) \/
  (error res.1 = LLFREE_ERR_MEMORY /\ res.2 = l /\ forall i, i ∈ idx -> child_full l 512 i).
Proof.
  intros Hl. cbv zeta. induction idx as [|i idx IH]; cbn [get_huge].
  { right. split_and!; [done|done|]. by intros i Hi%not_elem_of_nil. }
  rewrite Nat.mul_1_r, try_update_huge_1. case_bool_decide as Hc.
  - left. exists i. destruct (take_child l i Hl Hc) as (Hi & H1 & H2 & H3 & H4).
    split_and!; try done; [apply elem_of_cons; by left| |].
    + cbn. rewrite Z.shiftl_mul_pow2 by lia. lia.
    + pose proof (lo_children l Hl). unfold get_child, set_child. cbn. rewrite aget_insert by lia. by rewrite decide_True.
  - destruct IH as [(k & Hk & IH)|(He & Hr & IH)].
    + left. exists k. split; [apply elem_of_cons; by right|done].
    + right. split_and!; [done|done|]. intros k [->|Hk]%elem_of_cons; [by apply not_all_free_full|by apply IH].
Qed.

(** The children that the search of a tree visits. *)
Lemma tree_children s i :
  0 <= s -> i ∈ for_offsetted (Z.to_nat (Z.shiftr s 9)) 8 <-> s / 4096 * 8 <= Z.of_nat i < s / 4096 * 8 + 8.
Proof.
  intros Hs. rewrite elem_of_for_offsetted by lia. rewrite Z.shiftr_div_pow2 by lia. change (2 ^ 9) with 512.
  replace 4096 with (512 * 8) by lia. rewrite <-Z.div_div by lia. set (x := s / 512).
  assert (0 <= x) by (apply Z.div_pos; lia). pose proof (Nat.Div0.div_mod (Z.to_nat x) 8) as Hd.
  assert (Z.of_nat (Z.to_nat x / 8) = x / 8) by (rewrite Nat2Z.inj_div, Z2Nat.id by done; done).
  pose proof (Nat.mod_upper_bound (Z.to_nat x) 8 ltac:(lia)). lia.
Qed.

(** Blocks of at most 512 frames do not straddle children. *)
Lemma block_in_child p n :
  0 <= p -> 0 < n -> (n | 512) -> p `mod` n = 0 ->
  exists i j, 0 <= j /\ j + n <= 512 /\ j `mod` n = 0 /\ p = 512 * Z.of_nat i + j.
Proof.
  intros Hp Hn [c Hc] Hal. destruct (frame_split p Hp) as (i & j & Hj & ->). exists i, j.
  assert (Hjm : j `mod` n = 0).
  { rewrite Hc in Hal. replace (c * n * Z.of_nat i + j) with (j + (c * Z.of_nat i) * n) in Hal by ring.
    by rewrite Z.mod_add in Hal by lia. }
  split_and!; [lia| |done|done]. pose proof (Z.div_mod j n ltac:(lia)) as Hd. rewrite Hjm, Z.add_0_r in Hd.
  assert (j / n < c) by nia. nia.
Qed.

Lemma tree_full l n s :
  0 <= s -> 0 < n -> (n | 512) -> (forall i, i ∈ for_offsetted (Z.to_nat (Z.shiftr s 9)) 8 -> child_full l n i) ->
  forall p, LLFREE_TREE_SIZE * (s / 4096) <= p -> p + n <= LLFREE_TREE_SIZE * (s / 4096 + 1) -> p `mod` n = 0 ->
    exists q, p <= q < p + n /\ lfree l q = false.
Proof.
  intros Hs Hn Hdiv Hfull p Hp Hb Hal. unfold LLFREE_TREE_SIZE in *. pose proof (Z.div_pos s 4096 Hs ltac:(lia)).
  destruct (block_in_child p n ltac:(lia) Hn Hdiv Hal) as (i & j & Hj & Hjb & Hjm & ->).
  apply (Hfull i); [apply tree_children; lia|done..].
Qed.

Lemma pow2_divides_512 order : 0 <= order <= 9 -> (2 ^ order | 512).
Proof.
  intros Ho. exists (2 ^ (9 - order)). rewrite <-Z.pow_add_r by lia. by replace (9 - order + order) with 9 by lia.
Qed.

Lemma align_down_spec v k : is_u64 v -> 0 <= k <= 64 -> align_down v (2 ^ k) = v - v `mod` 2 ^ k.
Proof. apply Bits.align_down. Qed.

Lemma lower_get_ok l s order :
  lower_ok l -> is_u64 s -> 0 <= order <= 9 -> get_ok l (2 ^ order) (s / 4096) (lower_get l s order None).
Proof.
  intros Hl Hs Ho. unfold lower_get, get_ok, LLFREE_HUGE_ORDER, LLFREE_TREE_CHILDREN. cbv zeta.
  destruct (pow2_u16 order Ho) as [_ Hpow]. pose proof (pow2_divides_512 order Ho) as Hdiv. destruct Hs as [Hs0 Hs64].
  destruct (Z.leb_spec 9 order) as [H9|H9].
  - assert (order = 9) as -> by lia. change (Z.to_nat (Z.shiftl 1 (9 - 9))) with 1%nat. rewrite !Nat.div_1_r.
    change (Z.of_nat 1) with (2 ^ 0). rewrite align_down_spec, Z.pow_0_r, Z.mod_1_r, Z.sub_0_r; [|split|lia].
    2:{ apply Z.shiftr_nonneg. lia. }
    2:{ rewrite Z.shiftr_div_pow2 by lia. apply Z.div_lt_upper_bound; lia. }
    change (8 / 1)%nat with 8%nat. change (2 ^ 9) with 512 in *.
    destruct (get_huge_ok l (for_offsetted (Z.to_nat (Z.shiftr s 9)) 8) Hl) as [(i & Hi & H)|(He & Hr & H)].
    + destruct H as (Hok & Hf & Hone & H). left. rewrite Hf. apply tree_children in Hi; [|done]. unfold LLFREE_TREE_SIZE.
      split_and!; try apply H; [done|rewrite Z.mul_comm; apply Z.mod_mul; lia|lia|lia|].
      intros _. rewrite Z.mul_comm, Z.div_mul by lia. by rewrite Nat2Z.id.
    + right. split_and!; [done|done|]. apply tree_full; done || lia.
  - destruct (get_small_ok l s order (for_offsetted (Z.to_nat (Z.shiftr s 9)) 8) Hl Hs0 ltac:(lia))
      as [(i & p & Hi & Hp & Hb & Hal & Hok & Hf & H)|(He & Hr & H)].
    + left. rewrite Hf. apply tree_children in Hi; [|done]. unfold LLFREE_TREE_SIZE.
      split_and!; try apply H; [done| |lia|lia|pose proof (Z.pow_le_mono_r 2 order 8 ltac:(lia) ltac:(lia)); lia].
      destruct Hdiv as [c Hc]. rewrite Hc.
      replace (c * 2 ^ order * Z.of_nat i + p) with (p + (c * Z.of_nat i) * 2 ^ order) by ring.
      by rewrite Z.mod_add by lia.
    + right. split_and!; [done|done|]. apply tree_full; done || lia.
Qed.

(** a lower allocation of up to a huge frame is correct.  It returns an
    aligned block of [2^order] managed frames of the start frame's tree, all of
    which were free; exactly these become allocated, and the free counts and the
    bit fields stay in step.  It fails only when the tree has no such block, and
    then changes nothing. *)
Theorem lower_get_correct l start order :
  lower_ok l -> is_u64 start -> 0 <= order <= 9 -> get_ok l (2 ^ order) (start / 4096) (lower_get l start order None).
Proof. apply lower_get_ok. Qed.

(** ** Initialisation is correct *)

Lemma init_rows_length n fr : length (init_rows n fr) = n.
Proof. revert fr. induction n as [|n IH]; intros fr; [done|]. cbn. repeat case_raw; cbn; by rewrite IH. Qed.

Lemma init_rows_row n fr r :
  (r < n)%nat -> 0 <= fr ->
  aget 0 (init_rows n fr) r = u64 (Z.shiftl U64_MAX (Z.max 0 (fr - 64 * Z.of_nat r))).
Proof.
  revert fr r. induction n as [|n IH]; intros fr r Hr Hf; [lia|]. cbn [init_rows]. unfold LLFREE_ATOMIC_SIZE.
  assert (Hge : forall k, 64 <= k -> u64 (Z.shiftl U64_MAX k) = 0).
  { intros k Hk. unfold u64. rewrite Z.shiftl_mul_pow2 by lia.
    replace (2 ^ k) with (2 ^ (k - 64) * 2 ^ 64) by (rewrite <-Z.pow_add_r by lia; f_equal; lia).
    rewrite Z.mul_assoc. apply Z.mod_mul. lia. }
  destruct (Z.leb_spec 64 fr).
  - destruct r as [|r]; cbn.
    + rewrite Hge by lia. done.
    + change (aget 0 (init_rows n (fr - 64)) r = u64 (Z.shiftl U64_MAX (Z.max 0 (fr - 64 * Z.of_nat (S r))))).
      rewrite IH by lia. do 2 f_equal. lia.
  - destruct (Z.ltb_spec 0 fr) as [Hpos|Hz].
    + destruct r as [|r]; cbn -[Z.shiftl].
      * do 2 f_equal. lia.
      * change (aget 0 (init_rows n 0) r = u64 (Z.shiftl U64_MAX (Z.max 0 (fr - 64 * Z.of_nat (S r))))).
        rewrite IH by lia. do 2 f_equal. lia.
    + assert (fr = 0) as -> by lia. destruct r as [|r]; cbn -[Z.shiftl]; [done|].
      change (aget 0 (init_rows n 0) r = u64 (Z.shiftl U64_MAX (Z.max 0 (0 - 64 * Z.of_nat (S r))))).
      rewrite IH by lia. do 2 f_equal. lia.
Qed.

Lemma init_field_ok fr : 0 <= fr -> field_ok (init_field fr).
Proof.
  intros Hf. split; [apply init_rows_length|]. apply Forall_lookup. intros r x Hx.
  pose proof (lookup_lt_Some _ _ _ Hx) as Hlt. unfold init_field in Hlt. rewrite init_rows_length in Hlt.
  pose proof (aget_Some 0 _ _ _ Hx) as Ha. unfold init_field in Ha. rewrite init_rows_row in Ha by done.
  subst x. apply u64_range.
Qed.

Lemma init_field_bits fr j : 0 <= fr -> 0 <= j < 512 -> fbit (init_field fr) j = (fr <=? j).
Proof.
  intros Hf Hj. destruct (index_split j ltac:(lia)) as (r & b & Hr & Hb & -> & _ & _).
  rewrite fbit_row by done. unfold init_field. rewrite init_rows_row by (unfold FIELD_N; lia). rewrite Z2Nat.id by lia.
  unfold u64. rewrite mod_pow2_testbit, shiftl_testbit by lia. rewrite (proj2 (Z.ltb_lt b 64)) by lia. cbn [andb].
  destruct (Z.leb_spec fr (64 * r + b)).
  - change U64_MAX with (Z.ones 64). apply Z.ones_spec_low. lia.
  - apply Z.testbit_neg_r. lia.
Qed.

Lemma zeros_init fr : 0 <= fr <= 512 -> zeros (init_field fr) = fr.
Proof.
  intros Hf. unfold zeros. rewrite (seqZ_split3 0 fr) by lia. rewrite !count_if_app. change (seqZ 0 0) with ([] : list Z).
  rewrite (count_if_all _ (seqZ 0 fr)), (count_if_none _ (seqZ (0 + fr) _)).
  - rewrite length_seqZ. cbn [count_if]. lia.
  - intros j Hj%elem_of_seqZ. rewrite init_field_bits by lia. by rewrite (proj2 (Z.leb_le _ _)) by lia.
  - intros j Hj%elem_of_seqZ. rewrite init_field_bits by lia. by rewrite (proj2 (Z.leb_gt _ _)) by lia.
Qed.

Lemma child_count_bounds n : 0 < n -> let c := div_ceil n 512 in 0 < c /\ 512 * (c - 1) < n <= 512 * c.
Proof.
  intros Hn. cbv zeta. unfold div_ceil. pose proof (Z.div_mod (n + 512 - 1) 512 ltac:(lia)).
  pose proof (Z.mod_pos_bound (n + 512 - 1) 512 ltac:(lia)). lia.
Qed.

Lemma align_up_ge v k : 0 <= v < 2 ^ 63 -> 0 <= k <= 62 -> v <= align_up v (2 ^ k).
Proof.
  intros Hv Hk. unfold align_up. pose proof (Z.pow_pos_nonneg 2 k ltac:(lia) ltac:(lia)).
  pose proof (Z.pow_le_mono_r 2 k 62 ltac:(lia) ltac:(lia)).
  rewrite align_down_spec by (unfold is_u64; lia). pose proof (Z.mod_pos_bound (v + 2 ^ k - 1) (2 ^ k) ltac:(lia)). lia.
Qed.

(** The entries of a cleared allocator. *)
Lemma lower_clear_child n all i :
  (i < Z.to_nat (div_ceil n 512))%nat ->
  let fr := clear_free n all i in
  get_child (lower_clear n all) i = mkChild fr (fr =? 0) /\
  get_field (lower_clear n all) i = if fr =? 0 then zero_field else init_field fr.
Proof.
  intros Hi. cbv zeta. unfold get_child, get_field, aget, lower_clear. cbn -[clear_free zero_field init_field]. split.
  - rewrite lookup_app_l by (rewrite length_fmap, length_seq; done). by rewrite list_lookup_fmap, lookup_seq_lt.
  - by rewrite list_lookup_fmap, lookup_seq_lt.
Qed.

Lemma zero_field_bits j : fbit zero_field j = false.
Proof. unfold fbit, zero_field, aget. destruct (replicate FIELD_N 0 !! _) eqn:E; [|apply Z.bits_0].
  apply lookup_replicate in E as [-> _]. apply Z.bits_0. Qed.

Lemma lower_clear_ok n all :
  0 < n < 2 ^ 63 ->
  lower_ok (lower_clear n all) /\ frames (lower_clear n all) = n /\
  forall p, lfree (lower_clear n all) p = all && (0 <=? p) && (p <? n).
Proof.
  intros Hn. destruct (child_count_bounds n ltac:(lia)) as [Hc0 Hc]. set (l := lower_clear n all).
  change (lower_ok l /\ n = n /\ forall p, lfree l p = all && (0 <=? p) && (p <? n)).
  change (div_ceil n 512) with (child_count l) in *.
  assert (Hfr : forall i, (i < nchildren l)%nat -> 0 <= clear_free n all i <= 512 /\ (clear_free n all i = 0 <-> all = false)).
  { intros i Hi. unfold clear_free, LLFREE_CHILD_SIZE. destruct all; [|lia]. split; [lia|]. split; [lia|done]. }
  split_and!; [|done|].
  - split.
    + cbn. lia.
    + cbn. by rewrite length_fmap, length_seq.
    + cbn. rewrite length_app, length_fmap, length_seq. change (div_ceil n LLFREE_CHILD_SIZE) with (child_count l). lia.
    + intros i Hi. destruct (lower_clear_child n all i Hi) as [Hgc Hgf]. fold l in Hgc, Hgf. rewrite Hgc, Hgf. destruct (Hfr i Hi) as [Hr Hz].
      destruct (Z.eqb_spec (clear_free n all i) 0) as [H0|H0].
      * split; [split; [done|by repeat constructor]| |done]. intros _. split; [done|]. intros. apply zero_field_bits.
      * split; [apply init_field_ok; lia|done|]. intros _. cbn [free]. rewrite zeros_init by lia. split; [done|].
        intros j Hj Hle. change (frames l) with n in Hle. rewrite init_field_bits by lia. apply Z.leb_le. unfold clear_free, LLFREE_CHILD_SIZE in *.
        destruct all; lia.
    + intros i Hi. unfold get_child, aget. destruct (children l !! i) as [c|] eqn:E; [|done]. cbn in E |- *.
      rewrite lookup_app_r in E by (rewrite length_fmap, length_seq; exact Hi).
      by apply lookup_replicate in E as [-> _].
  - intros p. destruct (Z.leb_spec 0 p) as [Hp|Hp]; [|by rewrite lfree_neg, andb_false_r by lia].
    destruct (frame_split p Hp) as (i & j & Hj & ->). rewrite lfree_child, andb_true_r by done.
    destruct (Nat.ltb_spec i (nchildren l)) as [Hi|Hi]; cbn [andb].
    + destruct (lower_clear_child n all i Hi) as [Hgc Hgf]. fold l in Hgc, Hgf. rewrite Hgc, Hgf. destruct (Hfr i Hi) as [Hr Hz]. cbn [huge].
      destruct (Z.eqb_spec (clear_free n all i) 0) as [H0|H0]; cbn [negb andb].
      * by rewrite (proj1 Hz H0).
      * destruct all; [|by destruct Hz as [_ Hz]; specialize (Hz eq_refl)]. rewrite init_field_bits by lia. cbn [andb].
        unfold clear_free, LLFREE_CHILD_SIZE. destruct (Z.ltb_spec (512 * Z.of_nat i + j) n).
        -- rewrite (proj2 (Z.leb_gt _ _)) by lia. done.
        -- rewrite (proj2 (Z.leb_le _ _)) by lia. done.
    + rewrite (proj2 (Z.ltb_ge _ _)) by lia. by rewrite andb_false_r.
Qed.

(** ** Freeing is correct *)

(** What freeing [n] frames at [p] promises. *)
Definition put_ok (l : lower_t) (p n : Z) (res : llfree_result * lower_t) : Prop :=
  (llfree_is_ok res.1 = true /\ lower_ok res.2 /\ frames res.2 = frames l /\
   (forall q, p <= q < p + n -> lfree l q = false) /\
   (forall q, lfree res.2 q = lfree l q || in_block p n q)) \/
  (llfree_is_ok res.1 = false /\ (n <= 64 \/ n = 512 -> res.2 = l) /\
   (n < 512 -> exists q, p <= q < p + n /\ lfree l q = true) /\
   (n = 512 -> get_child l (Z.to_nat (p / 512)) <> one_huge)).

Lemma set_field_update l i f : lower_ok l -> (i < nchildren l)%nat -> set_field i f l = update_child l i (get_child l i) f.
Proof.
  intros Hl Hi. pose proof (lo_children l Hl). destruct l as [n fs cs]. unfold update_child, set_field, set_child, get_child, aget.
  cbn in *. destruct (lookup_lt_is_Some_2 cs i ltac:(lia)) as [c Hc]. rewrite Hc. cbn. by rewrite (list_insert_id cs).
Qed.

Lemma set_child_set_field l i c f : set_child i c (set_field i f l) = update_child l i c f.
Proof. done. Qed.

Lemma put_bits_ok l i j order :
  lower_ok l -> (i < nchildren l)%nat -> huge (get_child l i) = false -> 0 <= order <= 8 ->
  0 <= j -> j + 2 ^ order <= 512 -> j `mod` 2 ^ order = 0 -> 512 * Z.of_nat i + j + 2 ^ order <= frames l ->
  put_ok l (512 * Z.of_nat i + j) (2 ^ order) (put_bits l i j order).
Proof.
  intros Hl Hi Hh Ho Hj Hb Hal Hfr. set (n := 2 ^ order) in *. pose proof (lo_child l Hl i Hi) as Hc.
  destruct (co_small _ _ _ _ Hc Hh) as [Hz Htail]. assert (Hn : 0 < n) by (apply Z.pow_pos_nonneg; lia).
  pose proof (field_toggle_ok (get_field l i) j order true (co_field _ _ _ _ Hc) ltac:(lia) Hj Hb Hal) as Ht.
  assert (Hsame : forall f', field_toggle (get_field l i) j order true = (false, f') -> n <= 64 -> f' = get_field l i).
  { intros f' Hf' H64. apply (proj2 (field_toggle_row (get_field l i) j order true (co_field _ _ _ _ Hc)
      ltac:(split; [lia|]; apply Z.nlt_ge; intros H6; pose proof (Z.pow_le_mono_r 2 7 order ltac:(lia) ltac:(lia)); lia)
      Hj Hb Hal) f' Hf'). }
  unfold put_bits, put_ok. destruct (field_toggle (get_field l i) j order true) as [ok f'].
  destruct Ht as [Hf' Ht]. cbn [snd] in Hf'. destruct ok; cbn [negb].
  - destruct Ht as [Hset Hbits]. left.
    assert (Hz' : zeros f' = zeros (get_field l i) + n).
    { apply (zeros_block f' (get_field l i) j n); try done; try lia.
      - intros k Hk. rewrite Hbits by lia. by rewrite (proj2 (in_block_true _ _ _)) by lia.
      - intros k Hk Hnot. rewrite Hbits by lia. by rewrite (proj2 (in_block_false _ _ _)) by lia. }
    pose proof (zeros_range f'). pose proof (zeros_range (get_field l i)).
    change (get_child (set_field i f' l) i) with (get_child l i).
    replace (get_child l i) with (mkChild (zeros (get_field l i)) false).
    2:{ destruct (get_child l i) as [fr hg]. cbn in *. by subst. }
    unfold n in *. rewrite child_inc_Some by lia. rewrite set_child_set_field. cbn [fst snd]. split_and!.
    + done.
    + apply update_child_ok; [done|done|]. split; [done|done|]. intros _. cbn [free]. split; [lia|].
      intros k Hk Hle. rewrite Hbits by lia. rewrite (proj2 (in_block_false _ _ _)) by lia. by apply Htail.
    + done.
    + intros q Hq. replace q with (512 * Z.of_nat i + (q - 512 * Z.of_nat i)) by lia. rewrite lfree_child by lia.
      rewrite Hset by lia. by rewrite andb_false_r.
    + intros q. destruct (Z.lt_ge_cases q 0).
      { rewrite !lfree_neg, (proj2 (in_block_false _ _ _)) by lia. done. }
      destruct (frame_split q ltac:(done)) as (k & b & Hb' & ->). rewrite lfree_update by done.
      destruct (decide (k = i)) as [->|Hne].
      * rewrite lfree_child, (proj2 (Nat.ltb_lt _ _)), Hh, Hbits by done. cbn [negb andb huge].
        replace (in_block (512 * Z.of_nat i + j) (2 ^ order) (512 * Z.of_nat i + b)) with (in_block j (2 ^ order) b).
        -- destruct (in_block j _ b); [by rewrite orb_true_r|by rewrite orb_false_r].
        -- apply eq_true_iff_eq. rewrite !in_block_true. lia.
      * rewrite (proj2 (in_block_false _ _ _)) by lia. by rewrite orb_false_r.
  - right. cbn [fst snd]. pose proof (Z.pow_le_mono_r 2 order 8 ltac:(lia) ltac:(lia)). split_and!; [done| | |unfold n; lia].
    + intros [H64|H512].
      * rewrite (Hsame f' eq_refl H64), set_field_update by done. pose proof (lo_fields l Hl). pose proof (lo_children l Hl).
        by apply update_child_id; lia.
      * unfold n in H512. lia.
    + intros _. destruct Ht as (k & Hk & Hbit). exists (512 * Z.of_nat i + k). split; [lia|].
      rewrite lfree_child, (proj2 (Nat.ltb_lt _ _)), Hh, Hbit by (done || lia). done.
Qed.

(** Splitting a huge frame changes the representation and nothing else. *)
Lemma split_huge_ok l i :
  lower_ok l -> (i < nchildren l)%nat -> huge (get_child l i) = true ->
  let res := split_huge l i (get_child l i) in
  llfree_is_ok res.1 = true /\ lower_ok res.2 /\ frames res.2 = frames l /\ huge (get_child res.2 i) = false /\
  forall q, lfree res.2 q = lfree l q.
Proof.
  intros Hl Hi Hh. cbv zeta. pose proof (lo_child l Hl i Hi) as Hc. destruct (co_huge _ _ _ _ Hc Hh) as [Hf0 Hbits].
  pose proof (field_toggle_ok (get_field l i) 0 9 false (co_field _ _ _ _ Hc) ltac:(lia) ltac:(lia) ltac:(lia) eq_refl) as Ht.
  unfold split_huge. destruct (field_toggle (get_field l i) 0 9 false) as [[] g]; destruct Ht as [Hg Ht]; cbn [snd] in Hg.
  2:{ destruct Ht as (k & Hk & Hbit). rewrite Hbits in Hbit by lia. done. }
  destruct Ht as [_ Hset]. unfold cas_child. change (get_child (set_field i g l) i) with (get_child l i).
  rewrite bool_decide_true by done. cbn [fst snd]. rewrite set_child_set_field.
  assert (Hall : forall j, 0 <= j < 512 -> fbit g j = true).
  { intros j Hj. rewrite Hset by done. by rewrite (proj2 (in_block_true _ _ _)) by lia. }
  pose proof (lo_children l Hl). split_and!; try done.
  - apply update_child_ok; [done|done|]. split; [done|done|]. intros _. cbn [free]. split; [|intros; by apply Hall].
    unfold zeros. rewrite count_if_none; [done|]. intros j Hj%elem_of_seqZ. by rewrite Hall by lia.
  - rewrite get_child_update by lia. by rewrite decide_True.
  - intros q. destruct (Z.lt_ge_cases q 0); [by rewrite !lfree_neg|].
    destruct (frame_split q ltac:(done)) as (k & b & Hb & ->). rewrite lfree_update by done.
    destruct (decide (k = i)) as [->|]; [|done]. rewrite lfree_child, Hh, Hall by done. cbn [huge negb andb]. by rewrite andb_false_r.
Qed.

Lemma put_huge_ok l i :
  lower_ok l -> 512 * Z.of_nat i + 512 <= frames l ->
  put_ok l (512 * Z.of_nat i) 512
    match try_update_huge_n l i 1 one_huge all_free with
    | (true, l') => (llfree_err LLFREE_ERR_OK, l')
    | (false, l') => (llfree_err LLFREE_ERR_ARGUMENT, l')
    end.
Proof.
  intros Hl Hfr. rewrite try_update_huge_1. unfold put_ok. case_bool_decide as Hc; [left|right]; cbn [fst snd].
  2:{ split_and!; [done|done|lia|]. intros _. rewrite Z.mul_comm, Z.div_mul by lia. by rewrite Nat2Z.id. }
  assert (Hi : (i < nchildren l)%nat).
  { destruct (child_count_bounds (frames l) (lo_frames l Hl)) as [H0 H1].
    change (div_ceil (frames l) 512) with (child_count l) in *. lia. }
  pose proof (lo_child l Hl i Hi) as Hok. destruct (co_huge _ _ _ _ Hok) as [Hf0 Hbits]; [by rewrite Hc|].
  rewrite set_child_update by done. split_and!; [done| |done| |].
  - apply update_child_ok; [done|done|]. split; [apply Hok|done|]. intros _. cbn [free]. split; [|intros; lia].
    unfold zeros. rewrite count_if_all; [rewrite length_seqZ; reflexivity|]. intros j Hj%elem_of_seqZ. by rewrite Hbits by lia.
  - intros q Hq. replace q with (512 * Z.of_nat i + (q - 512 * Z.of_nat i)) by lia. rewrite lfree_child, Hc by lia.
    by rewrite andb_false_r.
  - intros q. destruct (Z.lt_ge_cases q 0).
    { rewrite !lfree_neg, (proj2 (in_block_false _ _ _)) by lia. done. }
    destruct (frame_split q ltac:(done)) as (k & b & Hb & ->). rewrite lfree_update by done.
    destruct (decide (k = i)) as [->|Hne].
    + rewrite Hbits, (proj2 (in_block_true _ _ _)) by lia. by rewrite orb_true_r.
    + rewrite (proj2 (in_block_false _ _ _)) by lia. by rewrite orb_false_r.
Qed.

Lemma lower_put_ok l p order :
  lower_ok l -> 0 <= order <= 9 -> is_u64 p -> p + 2 ^ order <= frames l -> p `mod` 2 ^ order = 0 ->
  put_ok l p (2 ^ order) (lower_put l p order).
Proof.
  intros Hl Ho Hp Hfr Hal. destruct (pow2_u16 order Ho) as [_ Hpow].
  destruct (block_in_child p (2 ^ order) ltac:(apply Hp) ltac:(lia) (pow2_divides_512 order Ho) Hal)
    as (i & j & Hj & Hjb & Hjm & Hpi).
  unfold lower_put. rewrite Z.shiftl_1_l, (proj2 (Z.ltb_ge _ _)) by lia. rewrite Hal. cbn [Z.eqb negb orb].
  rewrite Z.shiftr_div_pow2 by lia. change (2 ^ 9) with 512.
  assert (Hdiv : p / 512 = Z.of_nat i) by (rewrite Hpi; apply div_mod_512; lia).
  assert (Hmod : p `mod` 512 = j) by (rewrite Hpi; apply div_mod_512; lia).
  assert (Hi : (i < nchildren l)%nat).
  { destruct (child_count_bounds (frames l) (lo_frames l Hl)) as [H0 H1].
    change (div_ceil (frames l) 512) with (child_count l) in *. lia. }
  unfold LLFREE_HUGE_ORDER, LLFREE_CHILD_SIZE. rewrite Hdiv, Hmod. destruct (Z.leb_spec 9 order) as [H9|H9].
  - assert (order = 9) as -> by lia. cbv zeta. change (Z.shiftl 1 (9 - 9)) with (2 ^ 0).
    rewrite align_down_spec; [|unfold is_u64 in *; lia|lia]. rewrite Z.pow_0_r, Z.mod_1_r, Z.sub_0_r, Z.eqb_refl.
    cbn [negb]. rewrite Nat2Z.id. change (2 ^ 9) with 512 in *. assert (j = 0) as -> by lia.
    rewrite Hpi, Z.add_0_r. apply put_huge_ok; [done|lia].
  - cbv zeta. rewrite Nat2Z.id. destruct (huge (get_child l i)) eqn:Hh.
    + destruct (split_huge_ok l i Hl Hi Hh) as (Hok & Hl1 & Hfr1 & Hh1 & Hsame).
      destruct (split_huge l i (get_child l i)) as [r1 l1]. cbn [fst snd] in *. rewrite Hok. cbn [negb].
      assert (Hn : nchildren l1 = nchildren l) by (unfold child_count; by rewrite Hfr1).
      pose proof (put_bits_ok l1 i j order Hl1 ltac:(lia) Hh1 ltac:(lia) Hj Hjb Hjm ltac:(lia)) as Hput.
      rewrite <-Hpi in Hput. destruct Hput as [(H1 & H2 & H3 & H4 & H5)|(H1 & _ & H3 & _)].
      * left. split_and!; [done|done|congruence| |].
        -- intros q Hq. rewrite <-Hsame. by apply H4.
        -- intros q. by rewrite H5, Hsame.
      * exfalso. destruct H3 as (q & Hq & Hf); [pose proof (Z.pow_le_mono_r 2 order 8 ltac:(lia) ltac:(lia)); lia|].
        rewrite Hsame in Hf. replace q with (512 * Z.of_nat i + (q - 512 * Z.of_nat i)) in Hf by lia.
        rewrite lfree_child, Hh in Hf by lia. by rewrite andb_false_r in Hf.
    + cbn [fst snd negb llfree_is_ok llfree_err error]. rewrite Hpi. apply put_bits_ok; done || lia.
Qed.

(** freeing is the inverse of allocation.  A block that [lower_get] returned
    can be given back: [lower_put] succeeds and every frame is free or allocated
    as it was before the allocation. *)
Theorem lower_get_put_roundtrip l start order :
  lower_ok l -> frames l < 2 ^ 63 -> is_u64 start -> 0 <= order <= 9 ->
  let '(r, l1) := lower_get l start order None in
  llfree_is_ok r = true ->
  let '(r', l2) := lower_put l1 (frame r) order in
  llfree_is_ok r' = true /\ lower_ok l2 /\ forall q, lfree l2 q = lfree l q.
Proof.
  intros Hl Hfr Hs Ho. pose proof (lower_get_ok l start order Hl Hs Ho) as Hget.
  destruct (lower_get l start order None) as [r l1]. intros Hok. unfold get_ok in Hget. cbn [fst snd] in Hget.
  destruct Hget as [(_ & Hl1 & Hf1 & Hal & Hlo & _ & Hhi & Hin & Hfree & Hone)|(He & _)].
  2:{ unfold llfree_is_ok in Hok. by rewrite He in Hok. }
  destruct (pow2_u16 order Ho) as [_ Hpow].
  assert (Hp : 0 <= frame r) by (pose proof (Z.div_pos start 4096 ltac:(apply Hs) ltac:(lia)); unfold LLFREE_TREE_SIZE in *; lia).
  pose proof (lower_put_ok l1 (frame r) order Hl1 Ho ltac:(unfold is_u64; lia) ltac:(lia) Hal) as Hput.
  destruct (lower_put l1 (frame r) order) as [r' l2]. unfold put_ok in Hput. cbn [fst snd] in Hput.
  destruct Hput as [(Hok' & Hl2 & _ & _ & Hfree')|(_ & _ & Hsmall & Hbig)].
  - split_and!; [done|done|]. intros q. rewrite Hfree', Hfree.
    destruct (in_block (frame r) (2 ^ order) q) eqn:Hb.
    + apply in_block_true in Hb. by rewrite (Hin q Hb).
    + by rewrite andb_true_r, orb_false_r.
  - exfalso. destruct (Z.eq_dec (2 ^ order) 512) as [He|Hne]; [by apply Hbig, Hone|].
    destruct Hsmall as (q & Hq & Ht); [lia|]. rewrite Hfree, (proj2 (in_block_true _ _ _) Hq), andb_false_r in Ht. done.
Qed.

Lemma lower_get_put_roundtrip_witness :
  match lower_get (lower_clear 1000 true) 0 3 None with
  | (r, l1) => llfree_is_ok (lower_put l1 (frame r) 3).1 = true /\
      forall q, lfree (lower_put l1 (frame r) 3).2 q = lfree (lower_clear 1000 true) q
  end.
Proof.
  pose proof (lower_get_put_roundtrip (lower_clear 1000 true) 0 3 (proj1 (lower_clear_ok 1000 true ltac:(lia)))
    ltac:(reflexivity) ltac:(unfold is_u64; lia) ltac:(lia)) as H.
  destruct (lower_get (lower_clear 1000 true) 0 3 None) as [r l1] eqn:E.
  assert (Hr : r = fst (lower_get (lower_clear 1000 true) 0 3 None)) by (rewrite E; reflexivity).
  specialize (H ltac:(rewrite Hr; vm_compute; reflexivity)).
  destruct (lower_put l1 (frame r) 3) as [r' l2]. destruct H as (H1 & _ & H3). split; [exact H1|exact H3].
Defined.

Lemma lower_get_correct_witness :
  get_ok (lower_clear 1000 true) (2 ^ 3) (0 / 4096) (lower_get (lower_clear 1000 true) 0 3 None).
Proof.
  apply (lower_get_correct (lower_clear 1000 true) 0 3 (proj1 (lower_clear_ok 1000 true ltac:(lia))));
    [unfold is_u64|]; lia.
Defined.

(** ** Requests of several huge frames *)

(** a request for more than one huge frame can hand out memory that is in
    use.  The second of two huge frames is allocated, the first is freed, and a
    request for two consecutive huge frames fails on that pair: the undo loop
    starts one entry too high, marks the frame in use as free and leaves the
    first one allocated.  The next request for a huge frame returns the frame
    that is still in use. *)
Theorem huge_pair_double_allocation :
  let l0 := lower_clear 4096 true in
  let '(r1, l1) := lower_get l0 0 9 None in
  let '(r2, l2) := lower_get l1 0 9 None in
  let '(r3, l3) := lower_put l2 (frame r1) 9 in
  let '(r4, l4) := lower_get l3 0 10 None in
  let '(r5, l5) := lower_get l4 0 9 None in
  llfree_is_ok r1 = true /\ llfree_is_ok r2 = true /\ llfree_is_ok r3 = true /\ llfree_is_ok r4 = true /\
  llfree_is_ok r5 = true /\
  frame r2 = 512 /\ frame r5 = frame r2.
Proof. vm_compute. repeat split. Qed.

(** The general form: where the second entry is allocated, a failed request for
    two huge frames exchanges the two. *)
Lemma undo_exchanges l b :
  get_child l b = all_free -> get_child l (S b) = one_huge -> (S b < length (children l))%nat ->
  try_update_huge_n l b 2 all_free one_huge = (false, set_child (S b) all_free (set_child b one_huge l)).
Proof.
  intros H0 H1 Hlen. unfold try_update_huge_n. cbn [update_huge]. unfold cas_child at 1. rewrite Nat.add_0_r.
  rewrite bool_decide_true by done. cbv iota. set (l1 := set_child b one_huge l).
  assert (Hc : get_child l1 (b + 1) = one_huge).
  { unfold l1, get_child, set_child. cbn. rewrite aget_insert by lia. rewrite decide_False by lia. by rewrite Nat.add_1_r. }
  unfold cas_child at 1. rewrite bool_decide_false by by rewrite Hc.
  unfold undo_huge. cbn [foldl seq]. rewrite Nat.sub_0_r. unfold cas_child. rewrite bool_decide_true by done. cbn [snd].
  by rewrite Nat.add_1_r.
Qed.
