(* ===== verification/LLFree.v ===== *)
(** * LLFree: trees, local reservations and the frame allocator.

    Models [kernel/mm/tree.c], [kernel/mm/trees.c], [kernel/mm/local.c] and
    [kernel/mm/llfree.c] on top of [Lower.v].  A tree entry counts the free frames
    of 4096 frames; a local slot (one per CPU and class) may reserve a tree and
    take its count.  Operations are sequential, so [atom_update] succeeds at
    once; the allocator is built with [NDEBUG] and without
    [LLFREE_ENABLE_FREE_RESERVE].  Bit fields of the C structures are cut to their
    width where they are stored. *)

From S2P Require Import Prelude Bits Bitfield Lower.

Definition LLFREE_CLASS_NONE := 255.
Definition LLFREE_MAX_CLASSES : nat := 8.

Inductive llfree_policy_type := MATCH | STEAL | DEMOTE | INVALID.

#[global] Instance policy_type_eq_dec : EqDecision llfree_policy_type.
Proof. solve_decision. Defined.

Record llfree_policy_t := mkPol { ptype : llfree_policy_type; priority : Z }.

Definition llfree_policy_fn := Z -> Z -> Z -> llfree_policy_t.

(** The policy the kernel configures: class 0 for small, 1 for huge frames. *)
Definition llfree_simple_policy : llfree_policy_fn := fun requested target fr =>
  if target <? requested then mkPol STEAL 0
  else if requested <? target then mkPol DEMOTE 0
  else if LLFREE_TREE_SIZE / 2 <=? fr then mkPol MATCH 1
  else if LLFREE_TREE_SIZE / 64 <=? fr then mkPol MATCH 255
  else mkPol MATCH 0.

Record llfree_request_t := mkReq { order : Z; rclass : Z; rlocal : option nat }.

(** ** Tree entries *)

Definition free28 (z : Z) : Z := z `mod` 2 ^ 28.

Record tree_t := mkTree { reserved : bool; tclass : Z; tfree : Z }.

Definition tree_put (t : tree_t) (n : Z) (policy : llfree_policy_fn) (default_class : Z) : option tree_t :=
  let fr := u32 (tfree t + n) in
  let t := mkTree (reserved t) (tclass t) (free28 fr) in
  Some (if (fr =? LLFREE_TREE_SIZE) && bool_decide (ptype (policy (tclass t) default_class (tfree t)) <> INVALID)
        then mkTree (reserved t) default_class (tfree t) else t).

(** The tree and the class of the frames taken. *)
Definition tree_steal (t : tree_t) (n cls : Z) (policy : llfree_policy_fn) : option (tree_t * Z) :=
  if tfree t <? n then None else
  match ptype (policy cls (tclass t) (tfree t)) with
  | MATCH | DEMOTE => Some (mkTree (reserved t) cls (tfree t - n), cls)
  | STEAL => Some (mkTree (reserved t) (tclass t) (tfree t - n), tclass t)
  | INVALID => None
  end.

(** The tree, whether it was reserved, and the class. *)
Definition tree_reserve_or_steal (t : tree_t) (n : Z) (policy : llfree_policy_fn) (cls : Z) :
    option (tree_t * bool * Z) :=
  if reserved t || (tfree t <? n) then None else
  match ptype (policy cls (tclass t) (tfree t)) with
  | MATCH | DEMOTE => Some (mkTree true cls 0, true, cls)
  | STEAL => Some (mkTree (reserved t) (tclass t) (tfree t - n), false, tclass t)
  | INVALID => None
  end.

Definition tree_unreserve_add (t : tree_t) (n cls : Z) (policy : llfree_policy_fn) (default_class : Z) :
    option tree_t :=
  if negb (reserved t) then None else
  let c := if bool_decide (ptype (policy cls (tclass t) n) = DEMOTE) then cls else tclass t in
  tree_put (mkTree false c (tfree t)) n policy default_class.

Definition tree_sync_steal (t : tree_t) (min : Z) : option tree_t :=
  if reserved t && (min <? tfree t) then Some (mkTree (reserved t) (tclass t) 0) else None.

Inductive llfree_tree_operation_t := OP_NONE | OP_ONLINE | OP_OFFLINE.

Definition tree_change (t : tree_t) (match_class min_free change_class : Z) (operation : llfree_tree_operation_t)
    (online_free : Z) : option tree_t :=
  if reserved t then None else
  if negb (match_class =? LLFREE_CLASS_NONE) && negb (tclass t =? match_class) then None else
  if tfree t <? min_free then None else
  let c := if negb (change_class =? LLFREE_CLASS_NONE) then change_class else tclass t in
  match operation with
  | OP_NONE => Some (mkTree (reserved t) c (tfree t))
  | OP_OFFLINE => Some (mkTree (reserved t) c 0)
  | OP_ONLINE => if negb (tfree t =? 0) then None else Some (mkTree (reserved t) c (free28 online_free))
  end.

(** ** Reservations *)

Definition row35 (z : Z) : Z := z `mod` 2 ^ 35.

Record reserved_t := mkReserved { present : bool; rfree : Z; start_row : Z }.

Definition tree_from_row (row : Z) : Z := Z.shiftr (Z.shiftl row 6) LLFREE_TREE_ORDER.
Definition row_from_tree (t : Z) : Z := Z.shiftr (Z.shiftl t LLFREE_TREE_ORDER) 6.
Definition frame_from_row (row : Z) : Z := Z.shiftl row 6.
Definition frame_from_tree (t : Z) : Z := Z.shiftl t LLFREE_TREE_ORDER.
Definition tree_from_frame (f : Z) : Z := Z.shiftr f LLFREE_TREE_ORDER.

Definition ll_reserved_new (p : bool) (fr row : Z) : reserved_t := mkReserved p (free28 fr) (row35 row).

Definition ll_reserved_dec (r : reserved_t) (tree_idx : option Z) (n : Z) : option reserved_t :=
  if negb (present r) then None else
  if match tree_idx with Some t => negb (tree_from_row (start_row r) =? t) | None => false end then None else
  if rfree r <? n then None else Some (mkReserved (present r) (rfree r - n) (start_row r)).

Definition ll_reserved_inc (r : reserved_t) (tree_idx n : Z) : option reserved_t :=
  if negb (present r) || negb (tree_from_row (start_row r) =? tree_idx) then None
  else Some (mkReserved (present r) (free28 (u32 (rfree r + n))) (start_row r)).

Definition ll_reserved_set_start (r : reserved_t) (row : Z) : option reserved_t :=
  if negb (present r) || negb (tree_from_row (start_row r) =? tree_from_row row) then None
  else Some (mkReserved (present r) (rfree r) (row35 row)).

Definition no_reservation : reserved_t := ll_reserved_new false 0 0.

Definition ll_reserved_take (r : reserved_t) (tree_idx : option Z) (n : Z) : option reserved_t :=
  match ll_reserved_dec r tree_idx n with Some _ => Some no_reservation | None => None end.

(** The slots of all classes in one buffer; a configured class is its offset
    and its number of slots. *)
Record local_t := mkLocal { classes : list (nat * option nat); entries : list reserved_t }.

Definition class_of (lc : local_t) (c : Z) : nat * option nat := aget (0%nat, None) (classes lc) (Z.to_nat c).

Definition ll_local_class_locals (lc : local_t) (c : Z) : option nat :=
  if Z.of_nat LLFREE_MAX_CLASSES <=? c then None else (class_of lc c).2.

Definition slot (lc : local_t) (c : Z) (index : nat) : nat := ((class_of lc c).1 + index)%nat.
Definition get_entry (lc : local_t) (i : nat) : reserved_t := aget no_reservation (entries lc) i.
Definition set_entry (i : nat) (r : reserved_t) (lc : local_t) : local_t :=
  mkLocal (classes lc) (<[i := r]> (entries lc)).

(** [classing]: class id and number of slots. *)
Definition ll_local_init (classing : list (Z * nat)) : local_t :=
  (foldl (fun '(lc, offset) '(c, count) =>
            (mkLocal (<[Z.to_nat c := (offset, Some count)]> (classes lc))
                     (entries lc ++ replicate count no_reservation), (offset + count)%nat))
         (mkLocal (replicate LLFREE_MAX_CLASSES (0%nat, None)) [], 0%nat) classing).1.

(** The result of a local operation is the reservation it found, with its class. *)
Record local_result_t := mkLres { success : bool; lclass : Z; old : reserved_t }.

(** [atom_update] of a slot: the old value and whether it was updated. *)
Definition update_entry (lc : local_t) (i : nat) (fn : reserved_t -> option reserved_t) : bool * reserved_t * local_t :=
  let r := get_entry lc i in
  match fn r with Some r' => (true, r, set_entry i r' lc) | None => (false, r, lc) end.

Definition ll_local_get (lc : local_t) (c : Z) (index : nat) (tree_idx : option Z) (n : Z) : local_result_t * local_t :=
  let '(ok, r, lc) := update_entry lc (slot lc c index) (fun r => ll_reserved_dec r tree_idx n) in (mkLres ok c r, lc).

Definition ll_local_put (lc : local_t) (c : Z) (index : nat) (tree_idx n : Z) : bool * local_t :=
  let '(ok, _, lc) := update_entry lc (slot lc c index) (fun r => ll_reserved_inc r tree_idx n) in (ok, lc).

Definition ll_local_set_start (lc : local_t) (c : Z) (index : nat) (row : Z) : local_t :=
  (update_entry lc (slot lc c index) (fun r => ll_reserved_set_start r row)).2.

Definition ll_local_swap (lc : local_t) (c : Z) (index : nat) (new_tree_idx new_free : Z) : local_result_t * local_t :=
  let new := ll_reserved_new true new_free (row_from_tree new_tree_idx) in
  let '(_, r, lc) := update_entry lc (slot lc c index) (fun _ => Some new) in (mkLres true c r, lc).

(** The slots of a class, from [index] around. *)
Definition slots_from (offset len index : nat) : list nat := (fun j => (offset + (index + j) mod len)%nat) <$> seq 0 len.

(** Try the slots in turn. *)
Fixpoint first_entry (lc : local_t) (fn : reserved_t -> option reserved_t) (sl : list nat) :
    option (nat * reserved_t) * local_t :=
  match sl with
  | [] => (None, lc)
  | i :: sl' =>
      match update_entry lc i fn with
      | (true, r, lc') => (Some (i, r), lc')
      | (false, _, _) => first_entry lc fn sl'
      end
  end.

(** Try the classes in turn: those with slots whose policy is acceptable. *)
Fixpoint first_class (lc : local_t) (policy : llfree_policy_fn) (accept : llfree_policy_type -> bool) (cls : Z)
    (index : nat) (fn : reserved_t -> option reserved_t) (n : Z) (cs : list Z) : option (Z * reserved_t) * local_t :=
  match cs with
  | [] => (None, lc)
  | c :: cs' =>
      match class_of lc c with
      | (offset, Some (S len)) =>
          if accept (ptype (policy cls c n)) then
            match first_entry lc fn (slots_from offset (S len) index) with
            | (Some (_, r), lc') => (Some (c, r), lc')
            | (None, _) => first_class lc policy accept cls index fn n cs'
            end
          else first_class lc policy accept cls index fn n cs'
      | _ => first_class lc policy accept cls index fn n cs'
      end
  end.

Definition classes_from (first : nat) (cls : Z) : list Z :=
  (fun i => (Z.of_nat i + cls) `mod` Z.of_nat LLFREE_MAX_CLASSES) <$> seq first (LLFREE_MAX_CLASSES - first).

Definition ll_local_steal (lc : local_t) (cls : Z) (index : nat) (tree_idx : option Z) (n : Z)
    (policy : llfree_policy_fn) : option (Z * reserved_t) * local_t :=
  first_class lc policy (fun p => bool_decide (p = MATCH \/ p = STEAL)) cls index
    (fun r => ll_reserved_dec r tree_idx n) n (classes_from 0 cls).

Record demote_any_result_t := mkDem { row : Z; unreserve : bool; unres_row : Z; unres_class : Z; unres_free : Z }.

Definition ll_local_demote_any (lc : local_t) (cls : Z) (index : option nat) (tree_idx : option Z) (n : Z)
    (policy : llfree_policy_fn) : option demote_any_result_t * local_t :=
  let idx := default 0%nat index in
  match first_class lc policy (fun p => bool_decide (p = DEMOTE)) cls idx
          (fun r => ll_reserved_take r tree_idx n) n (classes_from 1 cls) with
  | (Some (_, r), lc) =>
      let new_res := default r (ll_reserved_dec r tree_idx n) in
      match index, class_of lc cls with
      | Some i, (offset, Some len) =>
          if (i <? len)%nat then
            let '(_, prev, lc) := update_entry lc (offset + i) (fun _ => Some new_res) in
            (Some (mkDem (start_row new_res) (present prev) (start_row prev) cls (rfree prev)), lc)
          else (Some (mkDem (start_row new_res) true (start_row new_res) cls (rfree new_res)), lc)
      | _, _ => (Some (mkDem (start_row new_res) true (start_row new_res) cls (rfree new_res)), lc)
      end
  | (None, lc) => (None, lc)
  end.

Definition ll_local_drain (lc : local_t) (c : Z) (index : nat) : local_result_t * local_t :=
  let '(_, r, lc) := update_entry lc (slot lc c index) (fun _ => Some no_reservation) in (mkLres (present r) c r, lc).

(** ** The allocator *)

Record llfree_t := mkLL {
  lower : lower_t;
  local : local_t;
  trees : list tree_t;
  default_class : Z;
  num_classes : Z;
}.

Definition set_lower (v : lower_t) (s : llfree_t) := mkLL v (local s) (trees s) (default_class s) (num_classes s).
Definition set_local (v : local_t) (s : llfree_t) := mkLL (lower s) v (trees s) (default_class s) (num_classes s).
Definition set_trees (v : list tree_t) (s : llfree_t) := mkLL (lower s) (local s) v (default_class s) (num_classes s).

Definition no_tree : tree_t := mkTree false 0 0.
Definition get_tree (s : llfree_t) (t : Z) : tree_t := aget no_tree (trees s) (Z.to_nat t).
Definition set_tree (t : Z) (v : tree_t) (s : llfree_t) : llfree_t := set_trees (<[Z.to_nat t := v]> (trees s)) s.
Definition ntrees (s : llfree_t) : Z := Z.of_nat (length (trees s)).

Section allocator.
Variable policy : llfree_policy_fn.

(** *** [trees.c] *)

Definition trees_init (l : lower_t) (n dclass : Z) : list tree_t :=
  (fun i => mkTree false dclass (free28 (tree_free l (8 * i)))) <$> seq 0 (Z.to_nat (div_ceil n LLFREE_TREE_SIZE)).

Definition trees_steal (s : llfree_t) (t n cls : Z) : option (Z * llfree_t) :=
  match tree_steal (get_tree s t) n cls policy with
  | Some (v, c) => Some (c, set_tree t v s)
  | None => None
  end.

Definition trees_put (s : llfree_t) (t n : Z) : llfree_t :=
  match tree_put (get_tree s t) n policy (default_class s) with Some v => set_tree t v s | None => s end.

(** Whether the tree was reserved, its old count, the class. *)
Definition trees_reserve_or_steal (s : llfree_t) (t n cls : Z) : option (bool * Z * Z * llfree_t) :=
  match tree_reserve_or_steal (get_tree s t) n policy cls with
  | Some (v, res, c) => Some (res, tfree (get_tree s t), c, set_tree t v s)
  | None => None
  end.

Definition trees_unreserve (s : llfree_t) (t n cls : Z) : llfree_t :=
  match tree_unreserve_add (get_tree s t) n cls policy (default_class s) with Some v => set_tree t v s | None => s end.

Definition trees_sync_steal (s : llfree_t) (t min : Z) : option (Z * llfree_t) :=
  match tree_sync_steal (get_tree s t) min with
  | Some v => Some (tfree (get_tree s t), set_tree t v s)
  | None => None
  end.

(** The trees a search visits: alternately above and below [start]. *)
Definition search_index (len start i : Z) : Z :=
  let off := if Z.even i then i / 2 else - ((i + 1) / 2) in
  u64 (start + len + off) `mod` len.

Definition search_indices (len start offset n : Z) : list Z := search_index len start <$> seqZ offset (n - offset).

Abbreviation access_fn := (Z -> llfree_t -> llfree_result * llfree_t).

Fixpoint trees_search (cb : access_fn) (s : llfree_t) (ts : list Z) : llfree_result * llfree_t :=
  match ts with
  | [] => (llfree_err LLFREE_ERR_MEMORY, s)
  | t :: ts' =>
      let '(res, s') := cb t s in
      if error res =? LLFREE_ERR_MEMORY then trees_search cb s' ts' else (res, s')
  end.

(** The candidates kept for later: at most eight, by falling priority. *)
Fixpoint insert_best (prio idx : Z) (best : list (Z * Z)) : list (Z * Z) :=
  match best with
  | [] => [(prio, idx)]
  | (p, i) :: best' => if p <? prio then (prio, idx) :: best else (p, i) :: insert_best prio idx best'
  end.

Definition keep_best (prio idx : Z) (best : list (Z * Z)) : list (Z * Z) :=
  if prio =? 0 then best else take 8 (insert_best prio idx best).

(** The first pass: perfect matches at once, the others into [best]. *)
Fixpoint search_perfect (rate : Z -> Z -> llfree_policy_t) (cb : access_fn) (s : llfree_t) (ts : list Z)
    (best : list (Z * Z)) : option llfree_result * list (Z * Z) * llfree_t :=
  match ts with
  | [] => (None, best, s)
  | t :: ts' =>
      let tree := get_tree s t in
      if reserved tree then search_perfect rate cb s ts' best else
      let p := rate (tclass tree) (tfree tree) in
      match ptype p with
      | INVALID => search_perfect rate cb s ts' best
      | ty =>
          if bool_decide (ty = MATCH) && (priority p =? 255) then
            let '(res, s') := cb t s in
            if error res =? LLFREE_ERR_MEMORY then search_perfect rate cb s' ts' best else (Some res, best, s')
          else search_perfect rate cb s ts' (keep_best (u8 (priority p + 1)) t best)
      end
  end.

Definition trees_search_best (rate : Z -> Z -> llfree_policy_t) (cb : access_fn) (s : llfree_t)
    (start offset n : Z) : llfree_result * llfree_t :=
  match search_perfect rate cb s (search_indices (ntrees s) start offset n) [] with
  | (Some res, _, s') => (res, s')
  | (None, best, s') => trees_search cb s' (snd <$> best)
  end.

(** *** Rating trees *)

Definition rate_reserve_near_tree (cls n : Z) (tree_class fr : Z) : llfree_policy_t :=
  if fr <? n then mkPol INVALID 0 else
  let p := policy cls tree_class fr in
  match ptype p with
  | MATCH => p
  | DEMOTE => if fr =? LLFREE_TREE_SIZE then mkPol MATCH 255 else mkPol INVALID 0
  | _ => mkPol INVALID 0
  end.

Definition rate_reserve_global_tree (cls n : Z) (tree_class fr : Z) : llfree_policy_t :=
  if fr <? n then mkPol INVALID 0 else
  let p := policy cls tree_class fr in
  match ptype p with
  | MATCH => mkPol MATCH 255
  | DEMOTE => if fr =? LLFREE_TREE_SIZE then mkPol MATCH 255 else p
  | _ => p
  end.

Definition rate_global_tree (cls n : Z) (tree_class fr : Z) : llfree_policy_t :=
  if fr <? n then mkPol INVALID 0 else policy cls tree_class fr.

(** *** Core allocation helpers *)

Definition swap_reserved (s : llfree_t) (cls : Z) (index : nat) (new_idx new_free : Z) : llfree_t :=
  let '(o, lc) := ll_local_swap (local s) cls index new_idx new_free in
  let s := set_local lc s in
  if present (old o) then trees_unreserve s (tree_from_row (start_row (old o))) (rfree (old o)) (lclass o) else s.

Definition frames_of (order : Z) : Z := u32 (Z.shiftl 1 order).

(** A lower allocation inside the allocator. *)
Definition lower_get_in (s : llfree_t) (start ord : Z) (at_frame : option Z) : llfree_result * llfree_t :=
  let '(res, l) := lower_get (lower s) start ord at_frame in (res, set_lower l s).

(** Undo of a reservation ([res]) or of a steal. *)
Definition give_back (s : llfree_t) (t : Z) (res : bool) (old_free n cls : Z) : llfree_t :=
  if res then trees_unreserve s t old_free cls else trees_put s t n.

Definition reserve_or_steal_cb (ord cls : Z) (index : nat) (t : Z) (s : llfree_t) : llfree_result * llfree_t :=
  let n := frames_of ord in
  match trees_reserve_or_steal s t n cls with
  | None => (llfree_err LLFREE_ERR_MEMORY, s)
  | Some (res, old_free, target_class, s) =>
      match ll_local_class_locals (local s) target_class with
      | None | Some O => (llfree_err LLFREE_ERR_MEMORY, give_back s t res old_free n target_class)
      | Some (S len) =>
          let index := (index mod S len)%nat in
          let '(r, s) := lower_get_in s (frame_from_tree t) ord None in
          if llfree_is_ok r then
            let s := if res then swap_reserved s target_class index t (u32 (old_free - n)) else s in
            (mkRes (frame r) target_class (error r), s)
          else (r, give_back s t res old_free n target_class)
      end
  end.

Definition steal_cb (ord cls : Z) (t : Z) (s : llfree_t) : llfree_result * llfree_t :=
  let n := frames_of ord in
  match trees_steal s t n cls with
  | None => (llfree_err LLFREE_ERR_MEMORY, s)
  | Some (c, s) =>
      let '(r, s) := lower_get_in s (frame_from_tree t) ord None in
      if llfree_is_ok r then (mkRes (frame r) c (error r), s) else (r, trees_put s t n)
  end.

Definition next_pow2 (v : Z) : Z := if v <=? 1 then 1 else Z.shiftl 1 (Z.log2 (v - 1) + 1).

Definition search_and_reserve (s : llfree_t) (cls : Z) (index : nat) (ord start : Z) : llfree_result * llfree_t :=
  let near := Z.max (ntrees s / 16) 4 in
  let start := align_down start (next_pow2 (2 * near)) in
  let n := frames_of ord in
  let cb := reserve_or_steal_cb ord cls index in
  let '(res, s) := if ord <? LLFREE_HUGE_ORDER
                   then trees_search_best (rate_reserve_near_tree cls n) cb s start 1 near
                   else (llfree_err LLFREE_ERR_MEMORY, s) in
  if negb (error res =? LLFREE_ERR_MEMORY) then (res, s) else
  trees_search_best (rate_reserve_global_tree cls n) cb s start 0 (ntrees s).

(** Whether frames moved from the tree's count to the reservation. *)
Definition sync_with_global (s : llfree_t) (cls : Z) (index : nat) (needed : Z) (o : reserved_t) : bool * llfree_t :=
  if needed <=? rfree o then (false, s) else
  let t := tree_from_row (start_row o) in
  match trees_sync_steal s t (needed - rfree o) with
  | None => (false, s)
  | Some (stolen, s) =>
      let '(ok, lc) := ll_local_put (local s) cls index t stolen in
      let s := set_local lc s in
      if ok then (true, s) else (false, trees_put s t stolen)
  end.

(** One round of [get_local]: the result, the start tree it reports, and the
    reservation when the slot had too few frames. *)
Definition get_local_round (s : llfree_t) (cls : Z) (index : nat) (ord n : Z) (at_frame : option Z) :
    llfree_result * option Z * option reserved_t * llfree_t :=
  let '(o, lc) := ll_local_get (local s) cls index (tree_from_frame <$> at_frame) n in
  let s := set_local lc s in
  let r := old o in
  if success o then
    let '(res, s) := lower_get_in s (frame_from_row (start_row r)) ord at_frame in
    if llfree_is_ok res then
      let row := row_from_frame (frame res) in
      let s := if negb (start_row r =? row) then set_local (ll_local_set_start (local s) cls index row) s else s in
      (llfree_ok (frame res) cls, None, None, s)
    else (res, Some (tree_from_row (start_row r)), None, trees_put s (tree_from_row (start_row r)) n)
  else
    (llfree_err LLFREE_ERR_MEMORY, if present r then Some (tree_from_row (start_row r)) else None,
     if present r then Some r else None, s).

(** With [sync]: a second round after frames were taken over from the tree. *)
Definition get_local (s : llfree_t) (cls : Z) (index : nat) (ord n : Z) (at_frame : option Z) :
    llfree_result * option Z * llfree_t :=
  let '(res, start, missed, s) := get_local_round s cls index ord n at_frame in
  match missed with
  | None => (res, start, s)
  | Some r =>
      let '(synced, s) := sync_with_global s cls index n r in
      if synced then let '(res, start, _, s) := get_local_round s cls index ord n at_frame in (res, start, s)
      else (res, start, s)
  end.

Definition steal_local (s : llfree_t) (req : llfree_request_t) (at_frame : option Z) : llfree_result * llfree_t :=
  let n := frames_of (order req) in
  match ll_local_steal (local s) (rclass req) (default 0%nat (rlocal req)) (tree_from_frame <$> at_frame) n policy with
  | (None, lc) => (llfree_err LLFREE_ERR_MEMORY, set_local lc s)
  | (Some (c, r), lc) =>
      let '(res, s) := lower_get_in (set_local lc s) (frame_from_row (start_row r)) (order req) at_frame in
      if llfree_is_ok res then (llfree_ok (frame res) c, s)
      else
        let s := trees_put s (tree_from_row (start_row r)) n in
        (if negb (error res =? LLFREE_ERR_MEMORY) then res else llfree_err LLFREE_ERR_MEMORY, s)
  end.

Definition demote_local (s : llfree_t) (req : llfree_request_t) (at_frame : option Z) : llfree_result * llfree_t :=
  let n := frames_of (order req) in
  match ll_local_demote_any (local s) (rclass req) (rlocal req) (tree_from_frame <$> at_frame) n policy with
  | (None, lc) => (llfree_err LLFREE_ERR_MEMORY, set_local lc s)
  | (Some dem, lc) =>
      let s := set_local lc s in
      let s := if unreserve dem then trees_unreserve s (tree_from_row (unres_row dem)) (unres_free dem) (unres_class dem)
               else s in
      let '(res, s) := lower_get_in s (frame_from_row (row dem)) (order req) at_frame in
      if llfree_is_ok res then (llfree_ok (frame res) (rclass req), s)
      else
        let s := trees_put s (tree_from_row (row dem)) n in
        (if negb (error res =? LLFREE_ERR_MEMORY) then res else llfree_err LLFREE_ERR_MEMORY, s)
  end.

Definition llfree_get_at (s : llfree_t) (f : Z) (req : llfree_request_t) : llfree_result * llfree_t :=
  let t := tree_from_frame f in
  let n := frames_of (order req) in
  let '(res, s) := match rlocal req with
                   | Some i => let '(res, _, s) := get_local s (rclass req) i (order req) n (Some f) in (res, s)
                   | None => (llfree_err LLFREE_ERR_MEMORY, s)
                   end in
  if negb (error res =? LLFREE_ERR_MEMORY) then (res, s) else
  match trees_steal s t n (rclass req) with
  | Some (c, s) =>
      let '(res, s) := lower_get_in s f (order req) (Some f) in
      if llfree_is_ok res then (llfree_ok (frame res) c, s) else (res, trees_put s t n)
  | None =>
      let '(res, s) := steal_local s req (Some f) in
      if negb (error res =? LLFREE_ERR_MEMORY) then (res, s) else demote_local s req (Some f)
  end.

Definition validate_request (s : llfree_t) (req : llfree_request_t) (at_frame : option Z) : bool :=
  if LLFREE_TREE_ORDER <? order req then false else
  match ll_local_class_locals (local s) (rclass req) with
  | None => false
  | Some len =>
      if match rlocal req with Some i => (len <=? i)%nat | None => false end then false else
      let req_frames := Z.shiftl 1 (order req) in
      let n := frames (lower s) in
      if n <? req_frames then false else
      match at_frame with
      | None => true
      | Some f => if n - req_frames <? f then false else f `mod` req_frames =? 0
      end
  end.

Definition llfree_get (s : llfree_t) (at_frame : option Z) (req : llfree_request_t) : llfree_result * llfree_t :=
  if negb (validate_request s req at_frame) then (llfree_err LLFREE_ERR_ARGUMENT, s) else
  match at_frame with
  | Some f => llfree_get_at s f req
  | None =>
      let count := default 0%nat (ll_local_class_locals (local s) (rclass req)) in
      let start := match rlocal req with
                   | Some i => if (count =? 0)%nat then 0 else ntrees s / Z.of_nat count * Z.of_nat i
                   | None => 0
                   end in
      let n := frames_of (order req) in
      let '(res, s) :=
        match rlocal req with
        | Some i =>
            if negb (count =? 0)%nat && (Z.of_nat count <? ntrees s) then
              let '(res, start', s) := get_local s (rclass req) i (order req) n None in
              if negb (error res =? LLFREE_ERR_MEMORY) then (res, s)
              else search_and_reserve s (rclass req) i (order req) (default start start')
            else trees_search_best (rate_global_tree (rclass req) n) (steal_cb (order req) (rclass req)) s start 0 (ntrees s)
        | None =>
            trees_search_best (rate_global_tree (rclass req) n) (steal_cb (order req) (rclass req)) s start 0 (ntrees s)
        end in
      if negb (error res =? LLFREE_ERR_MEMORY) then (res, s) else
      let '(res, s) := steal_local s req None in
      if negb (error res =? LLFREE_ERR_MEMORY) then (res, s) else demote_local s req None
  end.

Definition llfree_put (s : llfree_t) (f : Z) (req : llfree_request_t) : llfree_result * llfree_t :=
  if negb (validate_request s req (Some f)) then (llfree_err LLFREE_ERR_ARGUMENT, s) else
  let '(res, l) := lower_put (lower s) f (order req) in
  let s := set_lower l s in
  if negb (llfree_is_ok res) then (res, s) else
  let t := tree_from_frame f in
  let n := frames_of (order req) in
  let '(done, s) := match rlocal req with
                    | Some i => let '(ok, lc) := ll_local_put (local s) (rclass req) i t n in (ok, set_local lc s)
                    | None => (false, s)
                    end in
  (llfree_ok 0 0, if done then s else trees_put s t n).

(** Drain the slots of class [c] one by one. *)
Definition drain_slot (c : Z) (s : llfree_t) (i : nat) : llfree_t :=
  let '(o, lc) := ll_local_drain (local s) c i in
  let s := set_local lc s in
  if present (old o) then trees_unreserve s (tree_from_row (start_row (old o))) (rfree (old o)) (lclass o) else s.

Definition drain_class (s : llfree_t) (c : Z) : llfree_t :=
  match ll_local_class_locals (local s) c with
  | None => s
  | Some len => foldl (drain_slot c) s (seq 0 len)
  end.

Definition llfree_drain (s : llfree_t) : llfree_t := foldl drain_class s (seqZ 0 8).

(** *** Changing trees *)

Record llfree_tree_match_t := mkMatch { match_id : option Z; match_class : Z; match_free : Z }.
Record llfree_tree_change_t := mkChange { change_class : Z; operation : llfree_tree_operation_t }.

Definition trees_change_at (m : llfree_tree_match_t) (c : llfree_tree_change_t) (t : Z) (s : llfree_t) :
    llfree_result * llfree_t :=
  let online_free := match operation c with
                     | OP_ONLINE => u32 (free_frames (lower_stats_at (lower s) (frame_from_tree t) LLFREE_TREE_ORDER))
                     | _ => 0
                     end in
  match tree_change (get_tree s t) (match_class m) (u32 (match_free m)) (change_class c) (operation c) online_free with
  | None => (llfree_err LLFREE_ERR_MEMORY, s)
  | Some v => (llfree_ok 0 0, set_tree t v s)
  end.

Definition llfree_change_tree (s : llfree_t) (m : llfree_tree_match_t) (c : llfree_tree_change_t) :
    llfree_result * llfree_t :=
  if LLFREE_TREE_SIZE <? match_free m then (llfree_err LLFREE_ERR_MEMORY, s) else
  match match_id m with
  | Some t => if ntrees s <=? t then (llfree_err LLFREE_ERR_MEMORY, s) else trees_change_at m c t s
  | None => trees_search (trees_change_at m c) s (search_indices (ntrees s) 0 0 (ntrees s))
  end.

End allocator.

(** *** Initialisation *)

Definition MIN_PAGES := 512.
Definition MAX_PAGES := 2 ^ 52.

Definition llfree_init (n init : Z) (prev : list bitfield * list child_t) (prev_trees : list tree_t)
    (classing : list (Z * nat)) (dclass : Z) : llfree_result * option llfree_t :=
  if 5 <=? init then (llfree_err LLFREE_ERR_INIT, None) else
  if (n <? MIN_PAGES) || (MAX_PAGES <? n) then (llfree_err LLFREE_ERR_INIT, None) else
  let '(res, l) := lower_init n init prev in
  if negb (llfree_is_ok res) then (res, None) else
  let ts := if negb (init =? LLFREE_INIT_NONE) then trees_init l n dclass else prev_trees in
  (llfree_ok 0 0, Some (mkLL l (ll_local_init classing) ts dclass (Z.of_nat (length classing)))).

(** Two classes with one slot per CPU each. *)
Definition llfree_classing_simple (cores : nat) : list (Z * nat) := [(0, cores); (1, cores)].

(** *** Statistics and validation *)

Definition sum_free (l : list Z) : Z := foldr Z.add 0 l.

Definition local_free (lc : local_t) : Z :=
  sum_free ((fun r => if present r then rfree r else 0) <$> entries lc).

(** The frames [llfree_tree_stats] counts. *)
Definition tree_stats_free (s : llfree_t) : Z := local_free (local s) + sum_free (tfree <$> trees s).

Definition validate_tree_counters (s : llfree_t) (r : reserved_t) : bool :=
  let t := tree_from_row (start_row r) in
  let tree := get_tree s t in
  (t <? ntrees s) && reserved tree && (tfree tree + rfree r <=? LLFREE_TREE_SIZE) &&
  (tfree tree + rfree r =? free_frames (lower_stats_at (lower s) (frame_from_row (start_row r)) LLFREE_TREE_ORDER)).

(** The checks of [llfree_validate] on the counters; its checks of the class
    numbers are left out. *)
Definition validate_counters (s : llfree_t) : bool :=
  (free_frames (lower_stats (lower s)) =? tree_stats_free s) &&
  forallb (fun i =>
    let tree := get_tree s (Z.of_nat i) in
    (tfree tree <=? LLFREE_TREE_SIZE) &&
    (reserved tree ||
     (free_frames (lower_stats_at (lower s) (frame_from_tree (Z.of_nat i)) LLFREE_TREE_ORDER) =? tfree tree)))
    (seq 0 (length (trees s))) &&
  forallb (fun r => (rfree r <=? LLFREE_TREE_SIZE) && (negb (present r) || validate_tree_counters s r)) (entries (local s)).

(** ** Counting the free frames of a tree *)

Definition tcount (l : lower_t) (t : Z) : Z := Z.of_nat (count_if (lfree l) (seqZ (4096 * t) 4096)).

Lemma count_shift P m n : count_if P (seqZ m n) = count_if (fun j => P (m + j)) (seqZ 0 n).
Proof. rewrite <-(Z.add_0_r m) at 1. rewrite <-fmap_add_seqZ. by rewrite count_if_fmap. Qed.

Lemma child_free_count l i : lower_ok l -> free (get_child l i) = Z.of_nat (count_if (lfree l) (seqZ (512 * Z.of_nat i) 512)).
Proof.
  intros Hl. rewrite count_shift. destruct (decide (i < nchildren l)%nat) as [Hi|Hi].
  - pose proof (lo_child l Hl i Hi) as Hc. destruct (huge (get_child l i)) eqn:Hh.
    + destruct (co_huge _ _ _ _ Hc Hh) as [-> _]. rewrite count_if_none; [done|].
      intros j Hj%elem_of_seqZ. rewrite lfree_child, Hh by lia. by rewrite andb_false_r.
    + destruct (co_small _ _ _ _ Hc Hh) as [-> _]. unfold zeros. f_equal. apply count_if_ext.
      intros j Hj%elem_of_seqZ. rewrite lfree_child, Hh by lia. by rewrite (proj2 (Nat.ltb_lt _ _)).
  - rewrite (lo_rest l Hl i) by lia. rewrite count_if_none; [done|].
    intros j Hj%elem_of_seqZ. rewrite lfree_child by lia. by rewrite (proj2 (Nat.ltb_ge _ _)) by lia.
Qed.

Lemma children_free_count l b m k :
  lower_ok l ->
  foldr (fun j acc => free (get_child l (b + j)) + acc) 0 (seq m k) =
    Z.of_nat (count_if (lfree l) (seqZ (512 * Z.of_nat (b + m)) (512 * Z.of_nat k))).
Proof.
  intros Hl. revert m. induction k as [|k IH]; intros m; [done|]. cbn [seq foldr]. rewrite IH, child_free_count by done.
  replace (512 * Z.of_nat (S k)) with (512 + 512 * Z.of_nat k) by lia. rewrite seqZ_app by lia. rewrite count_if_app.
  replace (512 * Z.of_nat (b + m) + 512) with (512 * Z.of_nat (b + S m)) by lia. lia.
Qed.

Lemma tree_free_tcount l t : lower_ok l -> tree_free l (8 * t) = tcount l (Z.of_nat t).
Proof.
  intros Hl. unfold tree_free, tcount. rewrite children_free_count by done. do 3 f_equal; lia.
Qed.

Lemma tcount_range l t : 0 <= tcount l t <= 4096.
Proof. unfold tcount. pose proof (count_if_le (lfree l) (seqZ (4096 * t) 4096)). rewrite length_seqZ in *. lia. Qed.

(** Flipping a block. *)
Lemma count_if_block (P P' : Z -> bool) lo len p n :
  lo <= p -> 0 <= n -> p + n <= lo + len -> (forall i, p <= i < p + n -> P i = true /\ P' i = false) ->
  (forall i, ~ (p <= i < p + n) -> P' i = P i) ->
  Z.of_nat (count_if P (seqZ lo len)) = Z.of_nat (count_if P' (seqZ lo len)) + n.
Proof.
  intros Hlo Hn Hhi Hin Hout.
  replace (seqZ lo len) with (seqZ lo (p - lo) ++ seqZ p n ++ seqZ (p + n) (lo + len - p - n)).
  2:{ rewrite <-seqZ_app by lia. replace p with (lo + (p - lo)) at 2 by lia. rewrite <-seqZ_app by lia. f_equal. lia. }
  rewrite !count_if_app.
  rewrite (count_if_ext P' P (seqZ lo (p - lo))) by (intros i Hi%elem_of_seqZ; apply Hout; lia).
  rewrite (count_if_ext P' P (seqZ (p + n) _)) by (intros i Hi%elem_of_seqZ; apply Hout; lia).
  rewrite (count_if_all P (seqZ p n)) by (intros i Hi%elem_of_seqZ; apply Hin; lia).
  rewrite (count_if_none P' (seqZ p n)) by (intros i Hi%elem_of_seqZ; apply Hin; lia).
  rewrite length_seqZ. lia.
Qed.

Lemma tcount_flip l l' p n t :
  0 <= n -> 4096 * t <= p -> p + n <= 4096 * (t + 1) ->
  (forall q, p <= q < p + n -> lfree l q = true /\ lfree l' q = false) ->
  (forall q, ~ (p <= q < p + n) -> lfree l' q = lfree l q) ->
  forall t', tcount l t' = tcount l' t' + if t' =? t then n else 0.
Proof.
  intros Hn Hlo Hhi Hin Hout t'. unfold tcount. destruct (Z.eqb_spec t' t) as [->|Hne].
  - apply (count_if_block _ _ _ _ p n); try done; lia.
  - rewrite Z.add_0_r. f_equal. apply count_if_ext. intros q Hq%elem_of_seqZ. symmetry. apply Hout. lia.
Qed.

Lemma tcount_take l l' p n t :
  0 <= n -> 4096 * t <= p -> p + n <= 4096 * (t + 1) -> (forall q, p <= q < p + n -> lfree l q = true) ->
  (forall q, lfree l' q = lfree l q && negb (in_block p n q)) ->
  forall t', tcount l t' = tcount l' t' + if t' =? t then n else 0.
Proof.
  intros Hn Hlo Hhi Hin Hl'. apply (tcount_flip _ _ p n t); try done.
  - intros q Hq. split; [by apply Hin|]. rewrite Hl', (proj2 (in_block_true _ _ _) Hq). apply andb_false_r.
  - intros q Hq. rewrite Hl', (proj2 (in_block_false _ _ _) Hq). apply andb_true_r.
Qed.

(** ** Accounting *)

(** The frames of tree [t] that a reservation holds. *)
Definition contrib (t : Z) (r : reserved_t) : Z :=
  if present r && (tree_from_row (start_row r) =? t) then rfree r else 0.

Definition local_sum (lc : local_t) (t : Z) : Z := sum_free (contrib t <$> entries lc).

(** Every free frame is counted once: in its tree's entry, in the slot that
    reserves the tree, or in the count [d] that the running call has taken. *)
Definition accounted (s : llfree_t) (d : Z -> Z) : Prop :=
  forall t, 0 <= t < ntrees s -> tfree (get_tree s t) + local_sum (local s) t + d t = tcount (lower s) t.

Record slot_ok (s : llfree_t) (r : reserved_t) : Prop := {
  so_free : 0 <= rfree r;
  so_row : present r = true -> 0 <= start_row r < 2 ^ 35 /\ 64 * start_row r < frames (lower s);
  so_tree : present r = true -> tree_from_row (start_row r) < ntrees s;
  so_reserved : present r = true -> reserved (get_tree s (tree_from_row (start_row r))) = true;
}.

Record shape (s : llfree_t) : Prop := {
  sh_lower : lower_ok (lower s);
  sh_frames : frames (lower s) < 2 ^ 40;
  sh_trees : ntrees s = div_ceil (frames (lower s)) 4096;
  sh_tfree t : 0 <= tfree (get_tree s t);
  sh_slots i r : entries (local s) !! i = Some r -> slot_ok s r;
  sh_absent i r : entries (local s) !! i = Some r -> present r = false -> rfree r = 0;
  sh_unique i j ri rj : entries (local s) !! i = Some ri -> entries (local s) !! j = Some rj -> i <> j ->
    present ri = true -> present rj = true -> tree_from_row (start_row ri) <> tree_from_row (start_row rj);
  sh_classes c off len : classes (local s) !! c = Some (off, Some len) -> (off + len <= length (entries (local s)))%nat;
}.

Record ll_inv (s : llfree_t) (d : Z -> Z) : Prop := {
  iv_shape : shape s;
  iv_debt t : 0 <= d t;
  iv_acc : accounted s d;
}.

Definition at_tree (t n : Z) : Z -> Z := fun t' => if t' =? t then n else 0.

Lemma ll_inv_ext s d d' : ll_inv s d -> (forall t, d t = d' t) -> ll_inv s d'.
Proof.
  intros [Hs Hd Ha] He. split; [done| |].
  - intros t. rewrite <-He. apply Hd.
  - intros t Ht. rewrite <-He. by apply Ha.
Qed.

Lemma contrib_nonneg s r t : slot_ok s r -> 0 <= contrib t r.
Proof. intros Hr. unfold contrib. case_raw; [apply Hr|lia]. Qed.

Lemma sum_free_nonneg l : Forall (fun z => 0 <= z) l -> 0 <= sum_free l.
Proof. induction 1 as [|x l Hx _ IH]; [done|]. unfold sum_free in *. cbn. lia. Qed.

Lemma local_sum_nonneg s t : shape s -> 0 <= local_sum (local s) t.
Proof.
  intros Hs. apply sum_free_nonneg. apply Forall_fmap, Forall_lookup. intros i r Hr. cbn.
  apply (contrib_nonneg s). by eapply sh_slots.
Qed.

Lemma sum_free_cons x l : sum_free (x :: l) = x + sum_free l.
Proof. done. Qed.

Lemma sum_free_insert (g : reserved_t -> Z) l i r r' :
  l !! i = Some r -> sum_free (g <$> <[i := r']> l) = sum_free (g <$> l) - g r + g r'.
Proof.
  revert i. induction l as [|x l IH]; intros i Hi; [done|]. destruct i as [|i]; cbn in Hi.
  - simplify_eq. change (<[0%nat := r']> (r :: l)) with (r' :: l). rewrite !fmap_cons, !sum_free_cons. lia.
  - change (<[S i := r']> (x :: l)) with (x :: <[i := r']> l). rewrite !fmap_cons, !sum_free_cons, IH by done. lia.
Qed.

(** All counts are at most the size of a tree. *)
Lemma inv_bounds s d t :
  ll_inv s d -> 0 <= t < ntrees s ->
  0 <= tfree (get_tree s t) /\ tfree (get_tree s t) + local_sum (local s) t + d t <= 4096.
Proof.
  intros [Hs Hd Ha] Ht. specialize (Ha t Ht). pose proof (tcount_range (lower s) t). pose proof (sh_tfree s Hs t). lia.
Qed.

(** *** Index arithmetic *)

Lemma tree_from_row_div row : tree_from_row row = row / 64.
Proof.
  unfold tree_from_row, LLFREE_TREE_ORDER. rewrite Z.shiftl_mul_pow2, Z.shiftr_div_pow2 by lia.
  change (2 ^ 12) with (64 * 2 ^ 6). by rewrite Z.div_mul_cancel_r by lia.
Qed.

Lemma row_from_tree_mul t : row_from_tree t = 64 * t.
Proof.
  unfold row_from_tree, LLFREE_TREE_ORDER. rewrite Z.shiftl_mul_pow2, Z.shiftr_div_pow2 by lia.
  change (2 ^ 12) with (64 * 2 ^ 6). rewrite Z.mul_assoc, Z.div_mul by lia. lia.
Qed.

Lemma frame_from_tree_div t : frame_from_tree t / 4096 = t.
Proof. unfold frame_from_tree, LLFREE_TREE_ORDER. rewrite Z.shiftl_mul_pow2 by lia. by apply Z.div_mul. Qed.

Lemma frame_from_row_div row : frame_from_row row / 4096 = tree_from_row row.
Proof.
  rewrite tree_from_row_div. unfold frame_from_row. rewrite Z.shiftl_mul_pow2 by lia.
  change 4096 with (64 * 2 ^ 6). by rewrite Z.div_mul_cancel_r by lia.
Qed.

Lemma ntrees_bound s : shape s -> 0 < ntrees s < 2 ^ 28 + 1.
Proof.
  intros Hs. rewrite (sh_trees s Hs). pose proof (sh_frames s Hs). pose proof (lo_frames _ (sh_lower s Hs)).
  unfold div_ceil. split; [apply Z.div_str_pos; lia|]. apply Z.div_lt_upper_bound; lia.
Qed.

Lemma tree_below_frames s t : shape s -> 0 <= t < ntrees s -> 4096 * t < frames (lower s).
Proof.
  intros Hs Ht. rewrite (sh_trees s Hs) in Ht. unfold div_ceil in Ht. set (k := frames (lower s)) in *.
  pose proof (Z.mul_div_le (k + 4096 - 1) 4096 ltac:(lia)). lia.
Qed.

Lemma tree_of_new_reservation t n :
  0 <= t < 2 ^ 28 + 1 ->
  let r := ll_reserved_new true n (row_from_tree t) in
  tree_from_row (start_row r) = t /\ 0 <= start_row r < 2 ^ 35 /\ present r = true /\ rfree r = free28 n /\
  start_row r = 64 * t.
Proof.
  intros Ht. cbv zeta. unfold ll_reserved_new. cbn [start_row present rfree]. rewrite row_from_tree_mul. unfold row35.
  rewrite Z.mod_small by lia. rewrite tree_from_row_div. split_and!; try done; [|lia|lia].
  rewrite Z.mul_comm. by apply Z.div_mul.
Qed.

Lemma free28_small z : 0 <= z <= 4096 -> free28 z = z.
Proof. intros. unfold free28. apply Z.mod_small. lia. Qed.

(** *** Changing one entry *)

Lemma get_tree_set s t v t' :
  0 <= t < ntrees s -> get_tree (set_tree t v s) t' = if decide (Z.to_nat t = Z.to_nat t') then v else get_tree s t'.
Proof. intros Ht. unfold get_tree, set_tree, ntrees in *. cbn. apply aget_insert. lia. Qed.

Lemma ntrees_set s t v : ntrees (set_tree t v s) = ntrees s.
Proof. unfold ntrees, set_tree. cbn. by rewrite length_insert. Qed.

(** No slot reserves [t]. *)
Definition unheld (s : llfree_t) (t : Z) : Prop :=
  forall i r, entries (local s) !! i = Some r -> present r = true -> tree_from_row (start_row r) <> t.

Lemma inv_set_tree s d t v k :
  ll_inv s d -> 0 <= t < ntrees s -> tfree v = tfree (get_tree s t) - k -> 0 <= tfree v ->
  (forall t', 0 <= d t' + at_tree t k t') -> (reserved v = true \/ unheld s t) ->
  ll_inv (set_tree t v s) (fun t' => d t' + at_tree t k t').
Proof.
  intros [Hs Hd Ha] Ht Hv Hv0 Hd' Hres. split; [|done|].
  - split.
    + apply Hs.
    + apply Hs.
    + rewrite ntrees_set. apply Hs.
    + intros t'. rewrite get_tree_set by done. case_decide; [done|apply Hs].
    + intros i r Hr. destruct (sh_slots s Hs i r Hr) as [H1 H2 H3 H4]. split; [done|done|by rewrite ntrees_set|].
      intros Hp. rewrite get_tree_set by done. case_decide as He; [|by apply H4].
      destruct Hres as [Hres|Hun]; [done|]. exfalso. apply (Hun i r Hr Hp).
      pose proof (H2 Hp). rewrite tree_from_row_div in *. pose proof (Z.div_pos (start_row r) 64). lia.
    + apply Hs.
    + apply Hs.
    + apply Hs.
  - intros t' Ht'. rewrite ntrees_set in Ht'. rewrite get_tree_set by done. specialize (Ha t' Ht').
    change (local (set_tree t v s)) with (local s). change (lower (set_tree t v s)) with (lower s).
    unfold at_tree. case_decide as He.
    + assert (t' = t) as -> by lia. rewrite Z.eqb_refl. lia.
    + rewrite (proj2 (Z.eqb_neq t' t)) by congruence. lia.
Qed.

Lemma inv_set_entry s d i r r' :
  ll_inv s d -> entries (local s) !! i = Some r -> slot_ok s r' -> (present r' = false -> rfree r' = 0) ->
  (present r' = true -> forall j rj, j <> i -> entries (local s) !! j = Some rj -> present rj = true ->
     tree_from_row (start_row rj) <> tree_from_row (start_row r')) ->
  (forall t, 0 <= d t + contrib t r - contrib t r') ->
  ll_inv (set_local (set_entry i r' (local s)) s) (fun t => d t + contrib t r - contrib t r').
Proof.
  intros [Hs Hd Ha] Hi Hr' Hab Hun Hd'. set (s' := set_local _ s).
  assert (Hsl : forall q, slot_ok s q -> slot_ok s' q) by (intros q [? ? ? ?]; by split).
  split; [|done|].
  - split; [apply Hs|apply Hs|apply Hs|apply Hs| | | |].
    + intros j q Hq. apply Hsl. apply lookup_insert_cases in Hq as [(_ & -> & _)|[_ Hq]]; [done|by eapply sh_slots].
    + intros j q Hq. apply lookup_insert_cases in Hq as [(_ & -> & _)|[_ Hq]]; [done|by eapply (sh_absent s Hs)].
    + intros j k rj rk Hj Hk Hne Hpj Hpk.
      apply lookup_insert_cases in Hj as [(-> & -> & _)|[Hnj Hj]]; apply lookup_insert_cases in Hk as [(-> & -> & _)|[Hnk Hk]].
      * done.
      * apply not_eq_sym. by apply (Hun Hpj k rk).
      * by apply (Hun Hpk j rj).
      * by eapply (sh_unique s Hs).
    + intros c off len Hc. cbn. rewrite length_insert. by eapply (sh_classes s Hs).
  - intros t Ht. specialize (Ha t Ht). change (get_tree s' t) with (get_tree s t). change (lower s') with (lower s).
    unfold local_sum. change (entries (local s')) with (<[i := r']> (entries (local s))).
    rewrite (sum_free_insert _ _ _ r) by done. unfold local_sum in Ha. lia.
Qed.

(** *** The tree operations *)

Section proofs.
Variable policy : llfree_policy_fn.

Lemma tree_put_spec v n dc :
  0 <= tfree v -> 0 <= n -> tfree v + n <= 4096 ->
  exists c, tree_put v n policy dc = Some (mkTree (reserved v) c (tfree v + n)).
Proof.
  intros Hv Hn Hb. unfold tree_put. rewrite u32_small by (unfold is_u32; lia). rewrite free28_small by lia.
  cbn [tclass tfree reserved]. case_raw; by eexists.
Qed.

Lemma trees_put_inv s d t n :
  ll_inv s d -> 0 <= t < ntrees s -> 0 <= n <= d t -> ll_inv (trees_put policy s t n) (fun t' => d t' - at_tree t n t').
Proof.
  intros Hinv Ht Hn. destruct (inv_bounds s d t Hinv Ht) as [H0 H1]. pose proof (local_sum_nonneg s t (iv_shape _ _ Hinv)).
  unfold trees_put. destruct (tree_put_spec (get_tree s t) n (default_class s) ltac:(lia) ltac:(lia) ltac:(lia)) as [c ->].
  eapply ll_inv_ext; [apply (inv_set_tree s d t _ (- n) Hinv Ht); cbn [tfree reserved]|].
  - lia.
  - lia.
  - intros t'. pose proof (iv_debt _ _ Hinv t'). unfold at_tree. destruct (Z.eqb_spec t' t); [subst; lia|lia].
  - destruct (reserved (get_tree s t)) eqn:Hr; [by left|right]. intros i r Hi Hp He.
    destruct (sh_slots s (iv_shape _ _ Hinv) i r Hi) as [_ _ _ H4]. specialize (H4 Hp). rewrite He in H4. congruence.
  - intros t'. unfold at_tree. case_raw; lia.
Qed.

Lemma trees_unreserve_inv s d t n cls :
  ll_inv s d -> 0 <= t < ntrees s -> 0 <= n <= d t -> reserved (get_tree s t) = true -> unheld s t ->
  ll_inv (trees_unreserve policy s t n cls) (fun t' => d t' - at_tree t n t').
Proof.
  intros Hinv Ht Hn Hr Hun. destruct (inv_bounds s d t Hinv Ht) as [H0 H1].
  pose proof (local_sum_nonneg s t (iv_shape _ _ Hinv)).
  unfold trees_unreserve, tree_unreserve_add. rewrite Hr. cbn [negb].
  set (c := if bool_decide _ then _ else _).
  destruct (tree_put_spec (mkTree false c (tfree (get_tree s t))) n (default_class s)) as [c' ->]; cbn [tfree]; [lia..|].
  eapply ll_inv_ext; [apply (inv_set_tree s d t _ (- n) Hinv Ht); cbn [tfree reserved]|].
  - lia.
  - lia.
  - intros t'. pose proof (iv_debt _ _ Hinv t'). unfold at_tree. destruct (Z.eqb_spec t' t); [subst; lia|lia].
  - by right.
  - intros t'. unfold at_tree. case_raw; lia.
Qed.

Lemma unheld_unreserved s d t : ll_inv s d -> reserved (get_tree s t) = false -> unheld s t.
Proof.
  intros Hinv Hr i r Hi Hp He. destruct (sh_slots s (iv_shape _ _ Hinv) i r Hi) as [_ _ _ H4].
  specialize (H4 Hp). rewrite He in H4. congruence.
Qed.

Lemma trees_steal_inv s d t n cls c s' :
  ll_inv s d -> 0 <= t < ntrees s -> 0 <= n -> trees_steal policy s t n cls = Some (c, s') ->
  ll_inv s' (fun t' => d t' + at_tree t n t') /\ lower s' = lower s /\ local s' = local s /\ ntrees s' = ntrees s.
Proof.
  intros Hinv Ht Hn. unfold trees_steal, tree_steal. destruct (Z.ltb_spec (tfree (get_tree s t)) n) as [|Hge]; [done|].
  assert (Hmain : forall c', ll_inv (set_tree t (mkTree (reserved (get_tree s t)) c' (tfree (get_tree s t) - n)) s)
                               (fun t' => d t' + at_tree t n t')).
  { intros c'. apply inv_set_tree; cbn [tfree reserved]; try done; try lia.
    - intros t'. pose proof (iv_debt _ _ Hinv t'). unfold at_tree. case_raw; lia.
    - destruct (reserved (get_tree s t)) eqn:Hr; [by left|right]. by eapply unheld_unreserved. }
  destruct (ptype _); intros [= <- <-]; (split; [apply Hmain|]); by rewrite ntrees_set.
Qed.

Lemma trees_reserve_or_steal_inv s d t n cls res old_free c s' :
  ll_inv s d -> 0 <= t < ntrees s -> 0 <= n -> trees_reserve_or_steal policy s t n cls = Some (res, old_free, c, s') ->
  ll_inv s' (fun t' => d t' + at_tree t (if res then old_free else n) t') /\ n <= old_free <= 4096 /\
  (res = true -> reserved (get_tree s' t) = true) /\ unheld s' t /\
  lower s' = lower s /\ local s' = local s /\ ntrees s' = ntrees s.
Proof.
  intros Hinv Ht Hn. unfold trees_reserve_or_steal, tree_reserve_or_steal.
  destruct (inv_bounds s d t Hinv Ht) as [H0 H1]. pose proof (local_sum_nonneg s t (iv_shape _ _ Hinv)). pose proof (iv_debt _ _ Hinv t).
  destruct (reserved (get_tree s t)) eqn:Hr; [done|]. cbn [orb].
  destruct (Z.ltb_spec (tfree (get_tree s t)) n) as [|Hge]; [done|].
  pose proof (unheld_unreserved s d t Hinv Hr) as Hun.
  assert (Hres : forall k v, tfree v = tfree (get_tree s t) - k -> 0 <= tfree v -> 0 <= k ->
            ll_inv (set_tree t v s) (fun t' => d t' + at_tree t k t')).
  { intros k v Hv Hv0 Hk. apply inv_set_tree; try done.
    - intros t'. pose proof (iv_debt _ _ Hinv t'). unfold at_tree. case_raw; lia.
    - by right. }
  assert (Hget : forall v, get_tree (set_tree t v s) t = v) by (intros v; rewrite get_tree_set by done; by rewrite decide_True).
  destruct (ptype _); intros [= <- <- <- <-]; rewrite ?Hget, ?ntrees_set; split_and!; try done; try lia;
    apply Hres; cbn [tfree]; lia.
Qed.

(** *** The lower allocation *)

(** What a call that allocates [n] frames promises about the lower allocator. *)
Definition alloc_ok (l : lower_t) (n : Z) (res : llfree_result * llfree_t) : Prop :=
  let f := frame res.1 in
  (llfree_is_ok res.1 = true /\ 0 <= f /\ f + n <= frames l /\ f `mod` n = 0 /\ frames (lower res.2) = frames l /\
   (forall q, f <= q < f + n -> lfree l q = true) /\
   (forall q, lfree (lower res.2) q = lfree l q && negb (in_block f n q))) \/
  (error res.1 = LLFREE_ERR_MEMORY /\ lower res.2 = l).

Lemma frames_of_pow ord : 0 <= ord <= 9 -> frames_of ord = 2 ^ ord /\ 1 <= 2 ^ ord <= 512.
Proof.
  intros Ho. destruct (pow2_u16 ord Ho) as [_ Hp]. unfold frames_of. rewrite Z.shiftl_1_l.
  split; [|done]. apply u32_small. unfold is_u32. lia.
Qed.

Lemma set_lower_id s : set_lower (lower s) s = s.
Proof. by destruct s. Qed.

Lemma set_local_id s : set_local (local s) s = s.
Proof. by destruct s. Qed.

Lemma lower_get_in_inv s d start ord t :
  ll_inv s d -> is_u64 start -> start / 4096 = t -> t < ntrees s -> 0 <= ord <= 9 -> 2 ^ ord <= d t ->
  let '(res, s') := lower_get_in s start ord None in
  (llfree_is_ok res = true /\ alloc_ok (lower s) (2 ^ ord) (res, s') /\ frame res / 4096 = t /\
   ll_inv s' (fun t' => d t' - at_tree t (2 ^ ord) t') /\
   local s' = local s /\ trees s' = trees s) \/
  (error res = LLFREE_ERR_MEMORY /\ s' = s).
Proof.
  intros Hinv Hst Htr Hlt Ho Hd. unfold lower_get_in. destruct (frames_of_pow ord Ho) as [_ Hp].
  pose proof (lower_get_ok (lower s) start ord (sh_lower s (iv_shape _ _ Hinv)) Hst Ho) as Hget.
  destruct (lower_get (lower s) start ord None) as [res l']. unfold get_ok in Hget. cbn [fst snd] in Hget. rewrite Htr in Hget.
  destruct Hget as [(Hok & Hl' & Hf & Hal & Hlo & Hhi & Hfr & Hin & Hfree & _)|(He & -> & _)].
  2:{ right. split; [done|apply set_lower_id]. }
  left. assert (0 <= t) by (subst t; apply Z.div_pos; [apply Hst|lia]). unfold LLFREE_TREE_SIZE in *.
  pose proof (tcount_take (lower s) l' (frame res) (2 ^ ord) t ltac:(lia) Hlo Hhi Hin Hfree) as Hcnt.
  split_and!; try done.
  - left. cbn [fst snd]. split_and!; try done. lia.
  - symmetry. apply (Z.div_unique_pos _ _ _ (frame res - 4096 * t)); lia.
  - destruct Hinv as [Hs Hdd Ha]. split.
    + split; try apply Hs; cbn [lower set_lower]; [done|rewrite Hf; apply Hs|rewrite Hf; apply Hs|].
      intros i r Hr. destruct (sh_slots s Hs i r Hr) as [? ? ? ?]. split; cbn [lower set_lower]; try done. by rewrite Hf.
    + intros t'. pose proof (Hdd t'). unfold at_tree. destruct (Z.eqb_spec t' t); [subst; lia|lia].
    + intros t' Ht'. specialize (Ha t' Ht'). cbn [lower set_lower local]. rewrite (Hcnt t') in Ha.
      change (get_tree (set_lower l' s) t') with (get_tree s t'). unfold at_tree. lia.
Qed.

(** *** Local slots *)

Lemma get_entry_lookup lc i : (i < length (entries lc))%nat -> entries lc !! i = Some (get_entry lc i).
Proof. intros Hi. destruct (lookup_lt_is_Some_2 _ _ Hi) as [r Hr]. unfold get_entry, aget. by rewrite Hr. Qed.

Lemma get_entry_out lc i : (length (entries lc) <= i)%nat -> get_entry lc i = no_reservation.
Proof. intros Hi. unfold get_entry, aget. by rewrite lookup_ge_None_2. Qed.

Lemma slot_lt s c len index :
  shape s -> ll_local_class_locals (local s) c = Some len -> (index < len)%nat ->
  (slot (local s) c index < length (entries (local s)))%nat.
Proof.
  intros Hs Hl Hi. unfold ll_local_class_locals, slot in *. destruct (_ <=? c); [done|].
  unfold class_of, aget in *. destruct (classes (local s) !! Z.to_nat c) as [[off l]|] eqn:E; [|done]. cbn in *. subst l.
  pose proof (sh_classes s Hs _ _ _ E). lia.
Qed.

Lemma reserved_dec_None r n r' :
  ll_reserved_dec r None n = Some r' -> present r = true /\ n <= rfree r /\ r' = mkReserved true (rfree r - n) (start_row r).
Proof.
  unfold ll_reserved_dec. destruct (present r); [|done]. cbn [negb]. destruct (Z.ltb_spec (rfree r) n); [done|].
  by intros [= <-].
Qed.

(** Taking frames from a reservation. *)
Lemma dec_entry_inv s d i n r' :
  ll_inv s d -> 0 <= n -> ll_reserved_dec (get_entry (local s) i) None n = Some r' ->
  let r := get_entry (local s) i in
  let s' := set_local (set_entry i r' (local s)) s in
  ll_inv s' (fun t => d t + at_tree (tree_from_row (start_row r)) n t) /\ slot_ok s r /\ present r = true /\
  (i < length (entries (local s)))%nat.
Proof.
  intros Hinv Hn Hdec. cbv zeta. destruct (reserved_dec_None _ _ _ Hdec) as (Hp & Hge & ->).
  assert (Hi : (i < length (entries (local s)))%nat).
  { destruct (decide (i < length (entries (local s)))%nat) as [|Hout]; [done|]. by rewrite get_entry_out in Hp by lia. }
  pose proof (get_entry_lookup _ _ Hi) as Hr. set (r := get_entry (local s) i) in *.
  pose proof (sh_slots s (iv_shape _ _ Hinv) i r Hr) as Hok. split_and!; try done.
  assert (Hc : forall t, contrib t r - contrib t (mkReserved true (rfree r - n) (start_row r)) =
                 at_tree (tree_from_row (start_row r)) n t).
  { intros t. unfold contrib, at_tree. cbn [present start_row rfree]. rewrite Hp. cbn [andb].
    rewrite (Z.eqb_sym t). case_raw; lia. }
  eapply ll_inv_ext; [apply (inv_set_entry s d i r (mkReserved true (rfree r - n) (start_row r)) Hinv Hr)|].
  - destruct Hok as [H1 H2 H3 H4]. split; cbn [rfree present start_row]; [lia|by rewrite Hp in H2|by rewrite Hp in H3|by rewrite Hp in H4].
  - done.
  - cbn [start_row]. intros _ j rj Hne Hj Hpj. by eapply (sh_unique s (iv_shape _ _ Hinv)).
  - intros t. pose proof (iv_debt _ _ Hinv t). specialize (Hc t). pose proof Hc. unfold at_tree in Hc. destruct (_ =? _) in Hc; lia.
  - intros t. specialize (Hc t). cbn beta. lia.
Qed.

(** Moving the start row of a reservation inside its tree changes no count. *)
Lemma set_start_inv s d i r' row :
  ll_inv s d -> 0 <= row < 2 ^ 35 /\ 64 * row < frames (lower s) -> ll_reserved_set_start (get_entry (local s) i) row = Some r' ->
  ll_inv (set_local (set_entry i r' (local s)) s) d.
Proof.
  intros Hinv Hrow. unfold ll_reserved_set_start. destruct (present _) eqn:Hp; [|done]. cbn [negb orb].
  destruct (Z.eqb_spec (tree_from_row (start_row (get_entry (local s) i))) (tree_from_row row)) as [He|]; [|done].
  cbn [negb]. intros [= <-]. unfold row35. rewrite Z.mod_small by lia.
  assert (Hi : (i < length (entries (local s)))%nat).
  { destruct (decide (i < length (entries (local s)))%nat) as [|Hout]; [done|]. by rewrite get_entry_out in Hp by lia. }
  pose proof (get_entry_lookup _ _ Hi) as Hr. set (r := get_entry (local s) i) in *.
  pose proof (sh_slots s (iv_shape _ _ Hinv) i r Hr) as Hok.
  assert (Hc : forall t, contrib t r = contrib t (mkReserved true (rfree r) row)).
  { intros t. unfold contrib. cbn [present start_row rfree]. by rewrite Hp, He. }
  eapply ll_inv_ext; [apply (inv_set_entry s d i r _ Hinv Hr)|].
  - destruct Hok as [H1 H2 H3 H4]. split; cbn [rfree present start_row]; [done|done|rewrite <-He; auto|rewrite <-He; auto].
  - done.
  - cbn [start_row]. intros _ j rj Hne Hj Hpj. rewrite <-He. by eapply (sh_unique s (iv_shape _ _ Hinv)).
  - intros t. rewrite <-Hc. pose proof (iv_debt _ _ Hinv t). lia.
  - intros t. cbn beta. rewrite <-Hc. lia.
Qed.

(** Giving frames to a reservation. *)
Lemma inc_entry_inv s d i t n r' :
  ll_inv s d -> 0 <= t < ntrees s -> 0 <= n <= d t -> ll_reserved_inc (get_entry (local s) i) t n = Some r' ->
  ll_inv (set_local (set_entry i r' (local s)) s) (fun t' => d t' - at_tree t n t').
Proof.
  intros Hinv Ht Hn. unfold ll_reserved_inc. destruct (present _) eqn:Hp; [|done]. cbn [negb orb].
  destruct (Z.eqb_spec (tree_from_row (start_row (get_entry (local s) i))) t) as [He|]; [|done].
  cbn [negb]. intros [= <-].
  assert (Hi : (i < length (entries (local s)))%nat).
  { destruct (decide (i < length (entries (local s)))%nat) as [|Hout]; [done|]. by rewrite get_entry_out in Hp by lia. }
  pose proof (get_entry_lookup _ _ Hi) as Hr. set (r := get_entry (local s) i) in *.
  pose proof (sh_slots s (iv_shape _ _ Hinv) i r Hr) as Hok. pose proof (so_free _ _ Hok).
  assert (Hrb : rfree r + n <= 4096).
  { destruct (inv_bounds s d t Hinv Ht) as [H0 H1].
    assert (rfree r <= local_sum (local s) t); [|lia].
    pose proof (sum_free_insert (contrib t) _ i r no_reservation Hr) as Hs.
    assert (0 <= sum_free (contrib t <$> <[i := no_reservation]> (entries (local s)))).
    { apply sum_free_nonneg, Forall_fmap, Forall_lookup. intros j q Hq. cbn.
      apply lookup_insert_cases in Hq as [(_ & -> & _)|[_ Hq]]; [done|].
      apply (contrib_nonneg s). by eapply (sh_slots s (iv_shape _ _ Hinv)). }
    unfold local_sum. unfold contrib at 3 in Hs. rewrite Hp, He, Z.eqb_refl in Hs. cbn [andb] in Hs.
    change (contrib t no_reservation) with 0 in Hs. lia. }
  rewrite u32_small by (unfold is_u32; lia). rewrite free28_small by lia.
  assert (Hc : forall t', contrib t' r - contrib t' (mkReserved true (rfree r + n) (start_row r)) = - at_tree t n t').
  { intros t'. unfold contrib, at_tree. cbn [present start_row rfree]. rewrite Hp, He. cbn [andb].
    rewrite (Z.eqb_sym t'). case_raw; lia. }
  eapply ll_inv_ext; [apply (inv_set_entry s d i r _ Hinv Hr)|].
  - destruct Hok as [H1 H2 H3 H4]. split; cbn [rfree present start_row]; [lia|by rewrite Hp in H2|by rewrite Hp in H3|by rewrite Hp in H4].
  - done.
  - cbn [start_row]. intros _ j rj Hne Hj Hpj. by eapply (sh_unique s (iv_shape _ _ Hinv)).
  - intros t'. pose proof (iv_debt _ _ Hinv t'). specialize (Hc t'). pose proof Hc. unfold at_tree in Hc.
    destruct (Z.eqb_spec t' t) in Hc; [subst; lia|lia].
  - intros t'. specialize (Hc t'). cbn beta. lia.
Qed.

(** The configuration, which no call changes. *)
Definition same_conf (s s' : llfree_t) : Prop :=
  ntrees s' = ntrees s /\ classes (local s') = classes (local s) /\
  length (entries (local s')) = length (entries (local s)).

Lemma same_conf_refl s : same_conf s s.
Proof. done. Qed.

Lemma same_conf_trans s1 s2 s3 : same_conf s1 s2 -> same_conf s2 s3 -> same_conf s1 s3.
Proof. unfold same_conf. intros (-> & -> & ->) (-> & -> & ->). done. Qed.

Lemma trees_put_frame s t n :
  lower (trees_put policy s t n) = lower s /\ local (trees_put policy s t n) = local s /\ same_conf s (trees_put policy s t n).
Proof. unfold trees_put. cbn. unfold same_conf. by rewrite ntrees_set. Qed.

Lemma trees_unreserve_frame s t n c :
  lower (trees_unreserve policy s t n c) = lower s /\ local (trees_unreserve policy s t n c) = local s /\
  same_conf s (trees_unreserve policy s t n c).
Proof. unfold trees_unreserve. destruct (tree_unreserve_add _ _ _ _ _); [|done]. cbn. unfold same_conf. by rewrite ntrees_set. Qed.

Lemma set_entry_conf s i r : same_conf s (set_local (set_entry i r (local s)) s).
Proof. unfold same_conf. cbn. by rewrite length_insert. Qed.

(** Unreserving the tree of a slot whose reservation was just replaced. *)
Lemma unreserve_old s d i r r' cls :
  ll_inv s d -> entries (local s) !! i = Some r -> slot_ok s r' -> (present r' = false -> rfree r' = 0) ->
  (present r' = true -> forall j rj, entries (local s) !! j = Some rj -> (j = i -> present rj = true /\ rj = r) -> j <> i ->
     present rj = true -> tree_from_row (start_row rj) <> tree_from_row (start_row r')) ->
  (present r = true -> present r' = true -> tree_from_row (start_row r) <> tree_from_row (start_row r')) ->
  (forall t, contrib t r' <= d t) ->
  let s1 := set_local (set_entry i r' (local s)) s in
  let s2 := if present r then trees_unreserve policy s1 (tree_from_row (start_row r)) (rfree r) cls else s1 in
  ll_inv s2 (fun t => d t - contrib t r') /\ lower s2 = lower s /\ same_conf s s2.
Proof.
  intros Hinv Hi Hr' Hab Hun Hne Hle. cbv zeta.
  assert (Hlt : (i < length (entries (local s)))%nat) by by eapply lookup_lt_Some.
  pose proof (sh_slots s (iv_shape _ _ Hinv) i r Hi) as Hok.
  assert (H1 : ll_inv (set_local (set_entry i r' (local s)) s) (fun t => d t + contrib t r - contrib t r')).
  { apply inv_set_entry; try done.
    - intros Hp j rj Hj He Hpj. apply (Hun Hp j rj He); done.
    - intros t. specialize (Hle t). pose proof (contrib_nonneg s r t Hok). lia. }
  set (s1 := set_local (set_entry i r' (local s)) s) in *. destruct (present r) eqn:Hp.
  - destruct (trees_unreserve_frame s1 (tree_from_row (start_row r)) (rfree r) cls) as (Hl & _ & Hc).
    split_and!; [|done|eapply same_conf_trans; [apply set_entry_conf|done]].
    pose proof (so_row _ _ Hok Hp) as Hrow. pose proof (so_tree _ _ Hok Hp) as Htr.
    assert (Ht0 : 0 <= tree_from_row (start_row r)) by (rewrite tree_from_row_div; apply Z.div_pos; lia).
    assert (Hcr : forall t, contrib t r = at_tree (tree_from_row (start_row r)) (rfree r) t).
    { intros t. unfold contrib, at_tree. rewrite Hp. cbn [andb]. by rewrite (Z.eqb_sym t). }
    eapply ll_inv_ext; [apply (trees_unreserve_inv s1 _ _ (rfree r) cls H1)|].
    + by split.
    + cbn beta. pose proof (so_free _ _ Hok). specialize (Hle (tree_from_row (start_row r))).
      rewrite Hcr. unfold at_tree. rewrite Z.eqb_refl. lia.
    + apply (so_reserved _ _ Hok Hp).
    + intros j rj Hj Hpj He. apply lookup_insert_cases in Hj as [(-> & -> & _)|[Hnj Hj]].
      * by apply (Hne eq_refl Hpj).
      * revert He. by eapply (sh_unique s (iv_shape _ _ Hinv)).
    + intros t. cbn beta. rewrite Hcr. lia.
  - split_and!; [|done|apply set_entry_conf]. eapply ll_inv_ext; [exact H1|]. intros t. cbn beta.
    unfold contrib at 1. rewrite Hp. cbn [andb]. lia.
Qed.

Lemma swap_reserved_inv s d c index t nf :
  ll_inv s d -> 0 <= t < ntrees s -> reserved (get_tree s t) = true -> unheld s t -> 0 <= nf <= d t ->
  (slot (local s) c index < length (entries (local s)))%nat ->
  let s' := swap_reserved policy s c index t nf in
  ll_inv s' (fun t' => d t' - at_tree t nf t') /\ lower s' = lower s /\ same_conf s s'.
Proof.
  intros Hinv Ht Hres Hun Hnf Hi. cbv zeta. unfold swap_reserved, ll_local_swap, update_entry. cbv iota beta.
  pose proof (get_entry_lookup _ _ Hi) as Hr. cbn [old lclass].
  pose proof (ntrees_bound s (iv_shape _ _ Hinv)) as Hnt. destruct (inv_bounds s d t Hinv Ht) as [H0 H1].
  pose proof (local_sum_nonneg s t (iv_shape _ _ Hinv)).
  destruct (tree_of_new_reservation t nf ltac:(lia)) as (Htree & Hrow & Hpres & Hfree & Hst). rewrite free28_small in Hfree by lia.
  set (r' := ll_reserved_new true nf (row_from_tree t)) in *. set (r := get_entry (local s) (slot (local s) c index)) in *.
  assert (Hcr : forall t', contrib t' r' = at_tree t nf t').
  { intros t'. unfold contrib, at_tree. rewrite Hpres, Htree, Hfree. cbn [andb]. by rewrite (Z.eqb_sym t'). }
  destruct (unreserve_old s d _ r r' c Hinv Hr) as (Hinv' & Hl & Hc).
  - split; [rewrite Hfree; lia| |rewrite Htree; lia|by rewrite Htree]. intros _. split; [done|].
    rewrite Hst. pose proof (tree_below_frames s t (iv_shape _ _ Hinv) Ht). lia.
  - by rewrite Hpres.
  - intros _ j rj Hj _ _ Hpj. rewrite Htree. by eapply Hun.
  - intros Hp _. rewrite Htree. by eapply Hun.
  - intros t'. rewrite Hcr. pose proof (iv_debt _ _ Hinv t'). unfold at_tree. destruct (Z.eqb_spec t' t) as [->|]; lia.
  - split_and!; try done. eapply ll_inv_ext; [exact Hinv'|]. intros t'. cbn beta. by rewrite Hcr.
Qed.

(** *** Allocating from a tree *)

Definition no_debt : Z -> Z := fun _ => 0.

(** A call that allocates [n] frames or fails leaves a consistent allocator. *)
Definition step_ok (s : llfree_t) (n : Z) (res : llfree_result * llfree_t) : Prop :=
  alloc_ok (lower s) n res /\ ll_inv res.2 no_debt /\ same_conf s res.2.

Lemma step_ok_fail s n s' :
  lower s' = lower s -> ll_inv s' no_debt -> same_conf s s' -> step_ok s n (llfree_err LLFREE_ERR_MEMORY, s').
Proof. intros Hl Hi Hc. split_and!; [by right|done|done]. Qed.

(** After a failed step the next one starts from the same lower allocator. *)
Lemma step_ok_next s n r s' res :
  step_ok s n (r, s') -> error r = LLFREE_ERR_MEMORY -> step_ok s' n res -> step_ok s n res.
Proof.
  intros (Ha & _ & Hc) He (Ha' & Hi' & Hc'). destruct Ha as [(Hok & _)|(_ & Hl)]; cbn [fst snd] in *.
  { unfold llfree_is_ok in Hok. by rewrite He in Hok. }
  split_and!; [by rewrite <-Hl|done|by eapply same_conf_trans].
Qed.

Lemma debt_self t n t' : no_debt t' + at_tree t n t' = at_tree t n t'.
Proof. done. Qed.

Lemma give_back_inv s d t (res : bool) old_free n cls :
  ll_inv s d -> 0 <= t < ntrees s -> (res = true -> reserved (get_tree s t) = true) -> unheld s t ->
  0 <= (if res then old_free else n) <= d t ->
  let s' := give_back policy s t res old_free n cls in
  ll_inv s' (fun t' => d t' - at_tree t (if res then old_free else n) t') /\ lower s' = lower s /\ same_conf s s'.
Proof.
  intros Hinv Ht Hres Hun Hn. cbv zeta. unfold give_back. destruct res.
  - destruct (trees_unreserve_frame s t old_free cls) as (Hl & _ & Hc). split_and!; [|done|done].
    apply trees_unreserve_inv; auto.
  - destruct (trees_put_frame s t n) as (Hl & _ & Hc). split_and!; [|done|done]. by apply trees_put_inv.
Qed.

Lemma ntrees_get_tree s s' t : trees s' = trees s -> get_tree s' t = get_tree s t /\ ntrees s' = ntrees s.
Proof. intros He. unfold get_tree, ntrees. by rewrite He. Qed.

Lemma tree_start_u64 s t : shape s -> 0 <= t < ntrees s -> is_u64 (frame_from_tree t).
Proof.
  intros Hs Ht. pose proof (ntrees_bound s Hs). unfold frame_from_tree, LLFREE_TREE_ORDER, is_u64.
  rewrite Z.shiftl_mul_pow2 by lia. lia.
Qed.

Lemma reserve_or_steal_cb_ok s ord cls index t :
  ll_inv s no_debt -> 0 <= t < ntrees s -> 0 <= ord <= 9 ->
  step_ok s (2 ^ ord) (reserve_or_steal_cb policy ord cls index t s).
Proof.
  intros Hinv Ht Ho. unfold reserve_or_steal_cb. destruct (frames_of_pow ord Ho) as [-> Hp].
  destruct (trees_reserve_or_steal policy s t (2 ^ ord) cls) as [[[[res old_free] c] s1]|] eqn:Hrs.
  2:{ by apply step_ok_fail. }
  destruct (trees_reserve_or_steal_inv s no_debt t (2 ^ ord) cls res old_free c s1 Hinv Ht ltac:(lia) Hrs)
    as (Hinv1 & Hold & Hres1 & Hun1 & Hl1 & Hlc1 & Hn1).
  assert (Ht1 : 0 <= t < ntrees s1) by lia.
  assert (Hconf1 : same_conf s s1) by (unfold same_conf; by rewrite Hlc1).
  set (k := if res then old_free else 2 ^ ord) in *. assert (Hk : 2 ^ ord <= k <= 4096) by (subst k; destruct res; lia).
  assert (Hback : let s' := give_back policy s1 t res old_free (2 ^ ord) c in
    ll_inv s' no_debt /\ lower s' = lower s /\ same_conf s s').
  { destruct (give_back_inv s1 _ t res old_free (2 ^ ord) c Hinv1 Ht1 Hres1 Hun1) as (H1 & H2 & H3).
    - cbn beta. unfold no_debt, at_tree. rewrite Z.eqb_refl. fold k. lia.
    - split_and!; [|congruence|by eapply same_conf_trans]. eapply ll_inv_ext; [exact H1|]. intros t'. cbn beta. fold k. lia. }
  destruct Hback as (Hb1 & Hb2 & Hb3).
  destruct (ll_local_class_locals (local s1) c) as [[|len]|] eqn:Hlen; [by apply step_ok_fail| |by apply step_ok_fail].
  pose proof (lower_get_in_inv s1 _ (frame_from_tree t) ord t Hinv1 (tree_start_u64 s1 t (iv_shape _ _ Hinv1) Ht1)
    (frame_from_tree_div t) ltac:(lia) Ho) as Hget. cbn beta in Hget.
  specialize (Hget ltac:(unfold no_debt, at_tree; rewrite Z.eqb_refl; lia)).
  destruct (lower_get_in s1 (frame_from_tree t) ord None) as [r s2]. destruct Hget as [(Hok & Hal & _ & Hinv2 & Hlc2 & Htr2)|(He & ->)].
  - rewrite Hok. assert (Hal' : alloc_ok (lower s) (2 ^ ord) (r, s2)) by by rewrite <-Hl1.
    destruct (ntrees_get_tree s1 s2 t Htr2) as [Hgt2 Hnt2].
    assert (Hconf2 : same_conf s s2) by (eapply same_conf_trans; [exact Hconf1|]; unfold same_conf; by rewrite Hlc2, Hnt2).
    destruct res.
    + replace (u32 (old_free - 2 ^ ord)) with (old_free - 2 ^ ord) by (symmetry; apply u32_small; unfold is_u32; lia).
      assert (Hun2 : unheld s2 t) by (unfold unheld; by rewrite Hlc2).
      assert (Hslot : (slot (local s2) c (index mod S len) < length (entries (local s2)))%nat).
      { rewrite Hlc2. eapply slot_lt; [apply Hinv1|exact Hlen|]. apply Nat.mod_upper_bound. lia. }
      destruct (swap_reserved_inv s2 _ c (index mod S len) t (old_free - 2 ^ ord) Hinv2 ltac:(lia)
        ltac:(rewrite Hgt2; auto) Hun2) as (Hi3 & Hl3 & Hc3); [|exact Hslot|].
      { cbn beta. unfold no_debt, at_tree. rewrite Z.eqb_refl. subst k. lia. }
      split_and!; [|cbn [snd]|cbn [snd]; by eapply same_conf_trans].
      * destruct Hal' as [Hal'|[He' _]]; [|unfold llfree_is_ok in Hok; cbn in He'; by rewrite He' in Hok].
        left. cbn [fst snd frame error] in *. rewrite Hl3. apply Hal'.
      * eapply ll_inv_ext; [exact Hi3|]. intros t'. cbn beta. unfold no_debt, at_tree, k. case_raw; lia.
    + split_and!; [exact Hal'| |exact Hconf2]. eapply ll_inv_ext; [exact Hinv2|].
      intros t'. cbn beta. unfold no_debt, at_tree, k. case_raw; lia.
  - assert (Hnok : llfree_is_ok r = false) by (unfold llfree_is_ok; by rewrite He). rewrite Hnok.
    split_and!; [right; by split|done|done].
Qed.

Lemma steal_cb_ok s ord cls t :
  ll_inv s no_debt -> 0 <= t < ntrees s -> 0 <= ord <= 9 -> step_ok s (2 ^ ord) (steal_cb policy ord cls t s).
Proof.
  intros Hinv Ht Ho. unfold steal_cb. destruct (frames_of_pow ord Ho) as [-> Hp].
  destruct (trees_steal policy s t (2 ^ ord) cls) as [[c s1]|] eqn:Hst; [|by apply step_ok_fail].
  destruct (trees_steal_inv s no_debt t (2 ^ ord) cls c s1 Hinv Ht ltac:(lia) Hst) as (Hinv1 & Hl1 & Hlc1 & Hn1).
  assert (Hconf1 : same_conf s s1) by (unfold same_conf; by rewrite Hlc1).
  assert (Hd1 : forall t', no_debt t' + at_tree t (2 ^ ord) t' - at_tree t (2 ^ ord) t' = no_debt t') by (intros; lia).
  pose proof (lower_get_in_inv s1 _ (frame_from_tree t) ord t Hinv1 (tree_start_u64 s1 t (iv_shape _ _ Hinv1) ltac:(lia))
    (frame_from_tree_div t) ltac:(lia) Ho) as Hget. cbn beta in Hget.
  specialize (Hget ltac:(unfold no_debt, at_tree; rewrite Z.eqb_refl; lia)).
  destruct (lower_get_in s1 (frame_from_tree t) ord None) as [r s2]. destruct Hget as [(Hok & Hal & _ & Hinv2 & Hlc2 & Htr2)|(He & ->)].
  - rewrite Hok. destruct (ntrees_get_tree s1 s2 t Htr2) as [_ Hnt2].
    split_and!; [by rewrite <-Hl1|by eapply ll_inv_ext|]. eapply same_conf_trans; [exact Hconf1|]. unfold same_conf. cbn [snd].
    by rewrite Hlc2, Hnt2.
  - assert (Hnok : llfree_is_ok r = false) by (unfold llfree_is_ok; by rewrite He). rewrite Hnok.
    destruct (trees_put_frame s1 t (2 ^ ord)) as (Hl & _ & Hc).
    split_and!; [right; split; [done|]; cbn [snd]; congruence| |by eapply same_conf_trans].
    eapply ll_inv_ext; [apply (trees_put_inv s1 _ t (2 ^ ord) Hinv1 ltac:(lia))|exact Hd1].
    cbn beta. unfold no_debt, at_tree. rewrite Z.eqb_refl. lia.
Qed.

(** *** Searching the trees *)

Definition cb_ok (n : Z) (cb : Z -> llfree_t -> llfree_result * llfree_t) : Prop :=
  forall t s, ll_inv s no_debt -> 0 <= t < ntrees s -> step_ok s n (cb t s).

Abbreviation valid s ts := (Forall (fun t => 0 <= t < ntrees s) ts).

Lemma valid_conf s s' ts : same_conf s s' -> valid s ts -> valid s' ts.
Proof. intros (Hn & _) H. by rewrite Hn. Qed.

Lemma search_indices_valid s start offset n : shape s -> valid s (search_indices (ntrees s) start offset n).
Proof.
  intros Hs. pose proof (ntrees_bound s Hs). apply Forall_fmap, Forall_forall. intros i _. apply Z.mod_pos_bound. lia.
Qed.

Lemma step_ok_cases s n r s' :
  step_ok s n (r, s') -> (error r =? LLFREE_ERR_MEMORY) = negb (llfree_is_ok r).
Proof.
  intros ([(Hok & _)|(He & _)] & _); cbn [fst] in *.
  - rewrite Hok. unfold llfree_is_ok in Hok. apply Z.eqb_eq in Hok. by rewrite Hok.
  - unfold llfree_is_ok. by rewrite He.
Qed.

Lemma trees_search_ok n cb s ts : cb_ok n cb -> ll_inv s no_debt -> valid s ts -> step_ok s n (trees_search cb s ts).
Proof.
  intros Hcb. revert s. induction ts as [|t ts IH]; intros s Hinv Hts; cbn [trees_search].
  { by apply step_ok_fail. }
  apply Forall_cons in Hts as [Ht Hts]. pose proof (Hcb t s Hinv Ht) as Hstep.
  destruct (cb t s) as [r s'] eqn:E. destruct (Z.eqb_spec (error r) LLFREE_ERR_MEMORY) as [He|He]; [|done].
  eapply step_ok_next; [exact Hstep|done|]. destruct Hstep as (_ & Hi & Hc). apply IH; [done|by eapply valid_conf].
Qed.

Lemma keep_best_valid (P : Z -> Prop) prio idx best :
  P idx -> Forall P (snd <$> best) -> Forall P (snd <$> keep_best prio idx best).
Proof.
  intros Hi Hb. unfold keep_best. case_raw; [done|].
  assert (H : Forall P (snd <$> insert_best prio idx best)).
  { induction best as [|[p i] best IH]; cbn; [by repeat constructor|]. apply Forall_cons in Hb as [Hh Hb].
    case_raw; cbn; [by repeat constructor|]. constructor; [done|by apply IH]. }
  rewrite Forall_fmap in *. by apply Forall_take.
Qed.

Lemma search_perfect_ok n rate cb s ts best :
  cb_ok n cb -> ll_inv s no_debt -> valid s ts -> valid s (snd <$> best) ->
  match search_perfect rate cb s ts best with
  | (Some r, _, s') => step_ok s n (r, s')
  | (None, best', s') => lower s' = lower s /\ ll_inv s' no_debt /\ same_conf s s' /\ valid s' (snd <$> best')
  end.
Proof.
  intros Hcb. revert s best. induction ts as [|t ts IH]; intros s best Hinv Hts Hb; cbn [search_perfect]; [done|].
  apply Forall_cons in Hts as [Ht Hts]. destruct (reserved (get_tree s t)); [by apply IH|].
  set (p := rate _ _). assert (Hkeep : forall prio, valid s (snd <$> keep_best prio t best)) by (intros; by apply keep_best_valid).
  assert (Hrest : forall ty,
    match (if bool_decide (ty = MATCH) && (priority p =? 255) then
             let '(res, s') := cb t s in
             if error res =? LLFREE_ERR_MEMORY then search_perfect rate cb s' ts best else (Some res, best, s')
           else search_perfect rate cb s ts (keep_best (u8 (priority p + 1)) t best)) with
    | (Some r, _, s') => step_ok s n (r, s')
    | (None, best', s') => lower s' = lower s /\ ll_inv s' no_debt /\ same_conf s s' /\ valid s' (snd <$> best')
    end).
  { intros ty. case_raw; [|by apply IH]. pose proof (Hcb t s Hinv Ht) as Hstep. destruct (cb t s) as [r s'] eqn:E.
    pose proof (step_ok_cases _ _ _ _ Hstep) as Hcases.
    destruct (Z.eqb_spec (error r) LLFREE_ERR_MEMORY) as [He|He]; [|done].
    destruct Hstep as (Ha & Hi & Hc). cbn [snd] in *.
    specialize (IH s' best Hi ltac:(by eapply valid_conf) ltac:(by eapply valid_conf)).
    assert (Hl : lower s' = lower s).
    { destruct Ha as [(Hok & _)|(_ & Hl)]; [|done]. cbn [fst] in Hok. unfold llfree_is_ok in Hok. by rewrite He in Hok. }
    destruct (search_perfect rate cb s' ts best) as [[[r2|] b2] s2].
    - eapply step_ok_next; [split_and!; [right; by split|exact Hi|exact Hc]|done|exact IH].
    - destruct IH as (H1 & H2 & H3 & H4). split_and!; [congruence|done|by eapply same_conf_trans|done]. }
  destruct (ptype p); first [apply Hrest | by apply IH].
Qed.

Lemma trees_search_best_ok n rate cb s start offset len :
  cb_ok n cb -> ll_inv s no_debt -> step_ok s n (trees_search_best rate cb s start offset len).
Proof.
  intros Hcb Hinv. unfold trees_search_best.
  pose proof (search_perfect_ok n rate cb s (search_indices (ntrees s) start offset len) [] Hcb Hinv
    (search_indices_valid s start offset len (iv_shape _ _ Hinv)) ltac:(constructor)) as H.
  destruct (search_perfect _ _ _ _ _) as [[[r|] best] s']; [done|]. destruct H as (Hl & Hi & Hc & Hv).
  eapply step_ok_next; [by apply (step_ok_fail s n s')|done|]. by apply trees_search_ok.
Qed.

Lemma search_and_reserve_ok s cls index ord start :
  ll_inv s no_debt -> 0 <= ord <= 9 -> step_ok s (2 ^ ord) (search_and_reserve policy s cls index ord start).
Proof.
  intros Hinv Ho. unfold search_and_reserve.
  assert (Hcb : cb_ok (2 ^ ord) (reserve_or_steal_cb policy ord cls index)).
  { intros t s' Hi Ht. by apply reserve_or_steal_cb_ok. }
  set (rate := rate_reserve_near_tree _ _ _). set (st := align_down _ _).
  assert (Hnear : forall s1 r1, (r1, s1) = (if ord <? LLFREE_HUGE_ORDER
      then trees_search_best rate (reserve_or_steal_cb policy ord cls index) s st 1 (Z.max (ntrees s / 16) 4)
      else (llfree_err LLFREE_ERR_MEMORY, s)) -> step_ok s (2 ^ ord) (r1, s1)).
  { intros s1 r1 ->. case_raw; [by apply trees_search_best_ok|by apply step_ok_fail]. }
  destruct (if ord <? LLFREE_HUGE_ORDER then _ else _) as [r1 s1] eqn:E. specialize (Hnear s1 r1 eq_refl).
  destruct (Z.eqb_spec (error r1) LLFREE_ERR_MEMORY) as [He|He]; cbn [negb]; [|done].
  eapply step_ok_next; [exact Hnear|done|]. apply trees_search_best_ok; [done|]. apply Hnear.
Qed.

(** *** Allocating from a reservation *)

Lemma slot_tree_range s r : shape s -> slot_ok s r -> present r = true -> 0 <= tree_from_row (start_row r) < ntrees s.
Proof.
  intros Hs Hr Hp. split; [|by apply Hr]. rewrite tree_from_row_div. apply Z.div_pos; [apply (so_row _ _ Hr Hp)|lia].
Qed.

Lemma slot_start_u64 s r : slot_ok s r -> present r = true -> is_u64 (frame_from_row (start_row r)).
Proof.
  intros Hr Hp. pose proof (so_row _ _ Hr Hp). unfold frame_from_row, is_u64. rewrite Z.shiftl_mul_pow2 by lia. lia.
Qed.

(** Taking [n] frames that a reservation gave up from the lower allocator, or
    returning them to the tree. *)
Lemma alloc_or_return s0 s1 t start ord :
  ll_inv s1 (fun t' => no_debt t' + at_tree t (2 ^ ord) t') -> lower s1 = lower s0 -> same_conf s0 s1 ->
  is_u64 start -> start / 4096 = t -> 0 <= t < ntrees s1 -> 0 <= ord <= 9 ->
  let '(res, s2) := lower_get_in s1 start ord None in
  (llfree_is_ok res = true /\ step_ok s0 (2 ^ ord) (res, s2) /\ local s2 = local s1) \/
  (error res = LLFREE_ERR_MEMORY /\ step_ok s0 (2 ^ ord) (res, trees_put policy s2 t (2 ^ ord))).
Proof.
  intros Hinv Hl Hc Hst Htr Ht Ho. destruct (frames_of_pow ord Ho) as [_ Hp].
  pose proof (lower_get_in_inv s1 _ start ord t Hinv Hst Htr ltac:(lia) Ho) as Hget. cbn beta in Hget.
  specialize (Hget ltac:(unfold no_debt, at_tree; rewrite Z.eqb_refl; lia)).
  assert (Hd : forall t', no_debt t' + at_tree t (2 ^ ord) t' - at_tree t (2 ^ ord) t' = no_debt t') by (intros; lia).
  destruct (lower_get_in s1 start ord None) as [res s2].
  destruct Hget as [(Hok & Hal & _ & Hinv2 & Hlc2 & Htr2)|(He & ->)]; [left|right].
  - destruct (ntrees_get_tree s1 s2 t Htr2) as [_ Hnt2]. split_and!; [done| |done].
    split_and!; [by rewrite <-Hl|by eapply ll_inv_ext|]. eapply same_conf_trans; [exact Hc|]. unfold same_conf. cbn [snd].
    by rewrite Hlc2, Hnt2.
  - split; [done|]. destruct (trees_put_frame s1 t (2 ^ ord)) as (Hl' & _ & Hc').
    split_and!; [right; split; [done|]; cbn [snd]; congruence| |by eapply same_conf_trans].
    eapply ll_inv_ext; [apply (trees_put_inv s1 _ t (2 ^ ord) Hinv Ht)|exact Hd].
    cbn beta. unfold no_debt, at_tree. rewrite Z.eqb_refl. lia.
Qed.

(** Replacing the state by one with the same lower allocator. *)
Lemma step_ok_state s n r s' s'' c :
  step_ok s n (r, s') -> llfree_is_ok r = true -> lower s'' = lower s' -> ll_inv s'' no_debt -> same_conf s' s'' ->
  step_ok s n (llfree_ok (frame r) c, s'').
Proof.
  intros (Ha & Hi & Hc) Hok Hl Hi' Hc'. split_and!; [|done|by eapply same_conf_trans].
  destruct Ha as [Ha|[He _]]; [|cbn in He; unfold llfree_is_ok in Hok; by rewrite He in Hok].
  left. cbn [fst snd frame llfree_ok error llfree_is_ok] in *. rewrite Hl. split_and!; try apply Ha. done.
Qed.

Lemma get_local_round_ok s cls index ord :
  ll_inv s no_debt -> 0 <= ord <= 9 ->
  let '(res, start, missed, s') := get_local_round policy s cls index ord (2 ^ ord) None in
  step_ok s (2 ^ ord) (res, s') /\
  (forall r, missed = Some r -> error res = LLFREE_ERR_MEMORY /\ s' = s /\ r = get_entry (local s) (slot (local s) cls index) /\ present r = true).
Proof.
  intros Hinv Ho. destruct (frames_of_pow ord Ho) as [_ Hp]. unfold get_local_round, ll_local_get, update_entry. cbn [fmap option_fmap option_map].
  set (i := slot (local s) cls index). set (r := get_entry (local s) i).
  destruct (ll_reserved_dec r None (2 ^ ord)) as [r'|] eqn:Hdec; cbn [success old].
  - destruct (dec_entry_inv s no_debt i (2 ^ ord) r' Hinv ltac:(lia) Hdec) as (Hinv1 & Hok & Hpres & Hi).
    set (s1 := set_local (set_entry i r' (local s)) s) in *. fold r in Hinv1, Hok, Hpres.
    pose proof (alloc_or_return s s1 (tree_from_row (start_row r)) (frame_from_row (start_row r)) ord Hinv1 eq_refl
      (set_entry_conf s i r') (slot_start_u64 s r Hok Hpres) (frame_from_row_div _)
      (slot_tree_range s r (iv_shape _ _ Hinv) Hok Hpres) Ho) as Hal.
    destruct (lower_get_in s1 (frame_from_row (start_row r)) ord None) as [res s2].
    destruct Hal as [(Hres & Hstep & Hlc)|(He & Hstep)].
    + rewrite Hres. split; [|by intros q [=]]. eapply step_ok_state; [exact Hstep|done| | |].
      * case_raw; done.
      * destruct Hstep as (Hal & Hi2 & _). case_raw; [|done]. unfold ll_local_set_start, update_entry.
        assert (Hsl : slot (local s2) cls index = i) by by rewrite Hlc.
        rewrite Hsl. destruct (ll_reserved_set_start (get_entry (local s2) i) _) as [r2|] eqn:Hset; cbn [snd].
        -- eapply set_start_inv; [done| |exact Hset]. unfold row_from_frame. rewrite Z.shiftr_div_pow2 by lia. change (2 ^ 6) with 64.
           destruct Hal as [(_ & H0 & H1 & H2)|[He _]]; [|cbn in He; unfold llfree_is_ok in Hres; by rewrite He in Hres].
           cbn [fst snd] in *. pose proof (sh_frames s (iv_shape _ _ Hinv)). destruct H2 as (_ & Hfr2 & _).
           pose proof (Z.mul_div_le (frame res) 64 ltac:(lia)).
           split_and!; [apply Z.div_pos; lia|apply Z.div_lt_upper_bound; lia|lia].
        -- by rewrite set_local_id.
      * case_raw; [|done]. unfold ll_local_set_start, update_entry.
        destruct (ll_reserved_set_start _ _); cbn [snd]; [apply set_entry_conf|by rewrite set_local_id].
    + assert (Hn : llfree_is_ok res = false) by (unfold llfree_is_ok; by rewrite He). rewrite Hn.
      split; [done|by intros q [=]].
  - rewrite set_local_id. split; [by apply step_ok_fail|]. intros q Hq. destruct (present r) eqn:Hpr; [|done].
    injection Hq as <-. by fold r.
Qed.

Lemma sync_with_global_ok s cls index needed :
  ll_inv s no_debt -> let r := get_entry (local s) (slot (local s) cls index) in present r = true ->
  let '(ok, s') := sync_with_global policy s cls index needed r in
  ll_inv s' no_debt /\ lower s' = lower s /\ same_conf s s'.
Proof.
  intros Hinv r Hp. unfold sync_with_global. case_raw; [done|].
  assert (Hi : (slot (local s) cls index < length (entries (local s)))%nat).
  { destruct (decide (slot (local s) cls index < length (entries (local s)))%nat) as [|Hout]; [done|].
    unfold r in Hp. by rewrite get_entry_out in Hp by lia. }
  pose proof (sh_slots s (iv_shape _ _ Hinv) _ _ (get_entry_lookup _ _ Hi)) as Hok. fold r in Hok.
  pose proof (slot_tree_range s r (iv_shape _ _ Hinv) Hok Hp) as Ht. set (t := tree_from_row (start_row r)) in *.
  unfold trees_sync_steal, tree_sync_steal. pose proof (so_reserved _ _ Hok Hp) as Hrv. fold t in Hrv. rewrite Hrv. cbn [andb].
  destruct (_ <? tfree (get_tree s t)); [|done].
  set (v := mkTree true (tclass (get_tree s t)) 0). set (k := tfree (get_tree s t)).
  assert (Hk : 0 <= k) by apply (sh_tfree s (iv_shape _ _ Hinv)).
  assert (Hinv1 : ll_inv (set_tree t v s) (fun t' => no_debt t' + at_tree t k t')).
  { apply inv_set_tree; try done; cbn [tfree v reserved]; try lia.
    intros t'. unfold no_debt, at_tree. case_raw; lia. }
  set (s1 := set_tree t v s) in *. assert (Hd : forall t', no_debt t' + at_tree t k t' - at_tree t k t' = no_debt t') by (intros; lia).
  assert (Hdt : 0 <= k <= no_debt t + at_tree t k t) by (unfold no_debt, at_tree; rewrite Z.eqb_refl; lia).
  assert (Ht1 : 0 <= t < ntrees s1) by (unfold s1; by rewrite ntrees_set).
  assert (Hc1 : same_conf s s1) by (unfold same_conf, s1; by rewrite ntrees_set).
  unfold ll_local_put, update_entry. change (local s1) with (local s). fold r.
  destruct (ll_reserved_inc r t k) as [r'|] eqn:Hinc.
  - split_and!; [|done|].
    + eapply ll_inv_ext; [eapply (inc_entry_inv s1 _ _ t k r' Hinv1 Ht1 Hdt); exact Hinc|exact Hd].
    + eapply same_conf_trans; [exact Hc1|]. apply (set_entry_conf s1).
  - change (set_local (local s) s1) with s1. destruct (trees_put_frame s1 t k) as (Hl & _ & Hc).
    split_and!; [|done|by eapply same_conf_trans]. eapply ll_inv_ext; [by apply (trees_put_inv s1 _ t k Hinv1 Ht1)|exact Hd].
Qed.

Lemma get_local_ok s cls index ord :
  ll_inv s no_debt -> 0 <= ord <= 9 ->
  let '(res, start, s') := get_local policy s cls index ord (2 ^ ord) None in step_ok s (2 ^ ord) (res, s').
Proof.
  intros Hinv Ho. unfold get_local. pose proof (get_local_round_ok s cls index ord Hinv Ho) as Hround.
  destruct (get_local_round policy s cls index ord (2 ^ ord) None) as [[[res start] missed] s1].
  destruct Hround as [Hstep Hmiss]. destruct missed as [r|]; [|done].
  destruct (Hmiss r eq_refl) as (He & -> & -> & Hp). pose proof (sync_with_global_ok s cls index (2 ^ ord) Hinv Hp) as Hsync.
  destruct (sync_with_global policy s cls index (2 ^ ord) _) as [synced s2]. destruct Hsync as (Hi2 & Hl2 & Hc2).
  assert (Hfail : step_ok s (2 ^ ord) (llfree_err LLFREE_ERR_MEMORY, s2)) by by apply step_ok_fail.
  destruct synced.
  - pose proof (get_local_round_ok s2 cls index ord Hi2 Ho) as Hround.
    destruct (get_local_round policy s2 cls index ord (2 ^ ord) None) as [[[res3 start3] m3] s3].
    eapply step_ok_next; [exact Hfail|done|apply Hround].
  - split_and!; [right; by split|done|done].
Qed.

(** *** Allocating from other reservations *)

Lemma first_entry_spec lc fn sl :
  match first_entry lc fn sl with
  | (Some (i, r), lc') => exists r', r = get_entry lc i /\ fn r = Some r' /\ lc' = set_entry i r' lc
  | (None, lc') => lc' = lc
  end.
Proof.
  induction sl as [|i sl IH]; [done|]. cbn [first_entry]. unfold update_entry.
  destruct (fn (get_entry lc i)) as [r'|] eqn:E; [by exists r'|done].
Qed.

Lemma first_class_spec lc pol accept cls index fn n cs :
  match first_class lc pol accept cls index fn n cs with
  | (Some (c, r), lc') => exists i r', r = get_entry lc i /\ fn r = Some r' /\ lc' = set_entry i r' lc
  | (None, lc') => lc' = lc
  end.
Proof.
  induction cs as [|c cs IH]; [done|]. cbn [first_class].
  destruct (class_of lc c) as [off [[|len]|]]; [done| |done]. destruct (accept _); [|done].
  pose proof (first_entry_spec lc fn (slots_from off (S len) index)) as H.
  destruct (first_entry _ _ _) as [[[i r]|] lc']; [|done]. destruct H as (r' & H). by exists i, r'.
Qed.

(** The end of [steal_local] and [demote_local]. *)
Lemma finish_alloc s0 s1 t start ord c :
  ll_inv s1 (fun t' => no_debt t' + at_tree t (2 ^ ord) t') -> lower s1 = lower s0 -> same_conf s0 s1 ->
  is_u64 start -> start / 4096 = t -> 0 <= t < ntrees s1 -> 0 <= ord <= 9 ->
  step_ok s0 (2 ^ ord)
    (let '(res, s) := lower_get_in s1 start ord None in
     if llfree_is_ok res then (llfree_ok (frame res) c, s)
     else (if negb (error res =? LLFREE_ERR_MEMORY) then res else llfree_err LLFREE_ERR_MEMORY,
           trees_put policy s t (2 ^ ord))).
Proof.
  intros Hinv Hl Hc Hst Htr Ht Ho. pose proof (alloc_or_return s0 s1 t start ord Hinv Hl Hc Hst Htr Ht Ho) as Hal.
  destruct (lower_get_in s1 start ord None) as [res s2]. destruct Hal as [(Hok & Hstep & _)|(He & Hstep)].
  - rewrite Hok. eapply step_ok_state; [exact Hstep|done|done|apply Hstep|done].
  - assert (Hn : llfree_is_ok res = false) by (unfold llfree_is_ok; by rewrite He). rewrite Hn, He. cbn [Z.eqb negb].
    destruct Hstep as (Ha & Hi & Hc'). apply step_ok_fail; [|done|done].
    destruct Ha as [(Hok & _)|(_ & Ha)]; [cbn in Hok; congruence|done].
Qed.

Lemma steal_local_ok s req :
  ll_inv s no_debt -> 0 <= order req <= 9 -> step_ok s (2 ^ order req) (steal_local policy s req None).
Proof.
  intros Hinv Ho. unfold steal_local, ll_local_steal. destruct (frames_of_pow (order req) Ho) as [-> Hp].
  cbn [fmap option_fmap option_map]. set (n := 2 ^ order req) in *.
  match goal with |- context [first_class ?a ?b ?c ?d ?e ?f ?g ?h] => pose proof (first_class_spec a b c d e f g h) as Hf end.
  destruct (first_class _ _ _ _ _ _ _ _) as [[[c r]|] lc'].
  2:{ subst lc'. rewrite set_local_id. by apply step_ok_fail. }
  destruct Hf as (i & r' & -> & Hdec & ->).
  destruct (dec_entry_inv s no_debt i n r' Hinv ltac:(lia) Hdec) as (Hinv1 & Hok & Hpres & Hi).
  apply (finish_alloc s _ (tree_from_row (start_row (get_entry (local s) i)))); try done.
  - apply set_entry_conf.
  - by eapply slot_start_u64.
  - apply frame_from_row_div.
  - exact (slot_tree_range s _ (iv_shape _ _ Hinv) Hok Hpres).
Qed.

(** Clearing a slot. *)
Lemma clear_entry_inv s i r :
  ll_inv s no_debt -> entries (local s) !! i = Some r -> present r = true ->
  let s' := set_local (set_entry i no_reservation (local s)) s in
  let t := tree_from_row (start_row r) in
  ll_inv s' (at_tree t (rfree r)) /\ unheld s' t /\ reserved (get_tree s' t) = true /\ 0 <= t < ntrees s' /\ same_conf s s'.
Proof.
  intros Hinv Hi Hp. cbv zeta. pose proof (sh_slots s (iv_shape _ _ Hinv) i r Hi) as Hok.
  split_and!; [| |by apply (so_reserved _ _ Hok)|apply (slot_tree_range s r (iv_shape _ _ Hinv) Hok Hp)..|apply set_entry_conf].
  - assert (Hc : forall t, contrib t r = at_tree (tree_from_row (start_row r)) (rfree r) t).
    { intros t. unfold contrib, at_tree. rewrite Hp. cbn [andb]. by rewrite (Z.eqb_sym t). }
    eapply ll_inv_ext; [apply (inv_set_entry s no_debt i r no_reservation Hinv Hi)|].
    + by split.
    + done.
    + done.
    + intros t. change (contrib t no_reservation) with 0. pose proof (contrib_nonneg s r t Hok). unfold no_debt. lia.
    + intros t. cbn beta. change (contrib t no_reservation) with 0. rewrite Hc. unfold no_debt. lia.
  - intros j rj Hj Hpj He. apply lookup_insert_cases in Hj as [(-> & -> & _)|[Hnj Hj]]; [done|].
    revert He. by eapply (sh_unique s (iv_shape _ _ Hinv)).
Qed.

Lemma demote_local_ok s req :
  ll_inv s no_debt -> 0 <= order req <= 9 -> step_ok s (2 ^ order req) (demote_local policy s req None).
Proof.
  intros Hinv Ho. unfold demote_local, ll_local_demote_any. destruct (frames_of_pow (order req) Ho) as [-> Hpow].
  cbn [fmap option_fmap option_map]. set (n := 2 ^ order req) in *.
  match goal with |- context [first_class ?a ?b ?c ?d ?e ?f ?g ?h] => pose proof (first_class_spec a b c d e f g h) as Hf end.
  destruct (first_class _ _ _ _ _ _ _ _) as [[[c r]|] lc'].
  2:{ subst lc'. rewrite set_local_id. by apply step_ok_fail. }
  destruct Hf as (i & r' & Hr & Htake & ->). unfold ll_reserved_take in Htake.
  destruct (ll_reserved_dec r None n) as [new_res|] eqn:Hdec; [|done]. injection Htake as <-. cbn [default].
  destruct (reserved_dec_None _ _ _ Hdec) as (Hp & Hge & Hnew).
  assert (Hi : (i < length (entries (local s)))%nat).
  { destruct (decide (i < length (entries (local s)))%nat) as [|Hout]; [done|]. subst r. by rewrite get_entry_out in Hp by lia. }
  assert (Hlk : entries (local s) !! i = Some r) by (rewrite Hr; by apply get_entry_lookup).
  destruct (clear_entry_inv s i r Hinv Hlk Hp) as (Hinv1 & Hun1 & Hres1 & Ht1 & Hc1).
  set (s1 := set_local (set_entry i no_reservation (local s)) s) in *. set (t := tree_from_row (start_row r)) in *.
  pose proof (sh_slots s (iv_shape _ _ Hinv) i r Hlk) as Hok.
  assert (Hfin : forall s2, ll_inv s2 (fun t' => no_debt t' + at_tree t n t') -> lower s2 = lower s -> same_conf s s2 ->
    step_ok s n (let '(res, s) := lower_get_in s2 (frame_from_row (start_row new_res)) (order req) None in
     if llfree_is_ok res then (llfree_ok (frame res) (rclass req), s)
     else (if negb (error res =? LLFREE_ERR_MEMORY) then res else llfree_err LLFREE_ERR_MEMORY,
           trees_put policy s (tree_from_row (start_row new_res)) n))).
  { intros s2 Hi2 Hl2 Hc2. replace (start_row new_res) with (start_row r) by by rewrite Hnew.
    apply finish_alloc; try done; [by eapply slot_start_u64|apply frame_from_row_div|].
    destruct Hc2 as [-> _]. exact (slot_tree_range s r (iv_shape _ _ Hinv) Hok Hp). }
  assert (Hnr : slot_ok s1 new_res /\ present new_res = true /\ tree_from_row (start_row new_res) = t /\ rfree new_res = rfree r - n).
  { rewrite Hnew. split_and!; try done. split; cbn [rfree present start_row]; [lia|intros _; by apply Hok|intros _; apply Ht1|done]. }
  destruct Hnr as (Hnr & Hpn & Htn & Hfn).
  assert (Hunres : let s2 := trees_unreserve policy s1 t (rfree new_res) (rclass req) in
    ll_inv s2 (fun t' => no_debt t' + at_tree t n t') /\ lower s2 = lower s /\ same_conf s s2).
  { destruct (trees_unreserve_frame s1 t (rfree new_res) (rclass req)) as (Hl & _ & Hc). split_and!; [|done|by eapply same_conf_trans].
    eapply ll_inv_ext; [apply (trees_unreserve_inv s1 _ t (rfree new_res) (rclass req) Hinv1 Ht1)|]; try done.
    - unfold at_tree. rewrite Z.eqb_refl. pose proof (so_free _ _ Hnr). lia.
    - intros t'. cbn beta. unfold no_debt, at_tree. case_raw; lia. }
  destruct Hunres as (Hu1 & Hu2 & Hu3).
  assert (Hdefault : step_ok s n
    (let s2 := trees_unreserve policy s1 (tree_from_row (start_row new_res)) (rfree new_res) (rclass req) in
     let '(res, s) := lower_get_in s2 (frame_from_row (start_row new_res)) (order req) None in
     if llfree_is_ok res then (llfree_ok (frame res) (rclass req), s)
     else (if negb (error res =? LLFREE_ERR_MEMORY) then res else llfree_err LLFREE_ERR_MEMORY,
           trees_put policy s (tree_from_row (start_row new_res)) n))).
  { rewrite Htn. cbv zeta. rewrite <-Htn. apply Hfin; rewrite Htn; done. }
  destruct (rlocal req) as [k|]; [|exact Hdefault].
  change (class_of (set_entry i no_reservation (local s)) (rclass req)) with (class_of (local s1) (rclass req)).
  destruct (class_of (local s1) (rclass req)) as [off [len|]] eqn:Hcls; [|exact Hdefault].
  destruct (Nat.ltb_spec k len) as [Hk|Hk]; [|exact Hdefault].
  cbv iota beta zeta delta [update_entry]. cbn [unreserve unres_row unres_free unres_class row].
  assert (Hslot : (off + k < length (entries (local s1)))%nat).
  { unfold class_of, aget in Hcls. destruct (classes (local s1) !! Z.to_nat (rclass req)) as [[off' l]|] eqn:E; [|done].
    cbn in Hcls. injection Hcls as -> ->. pose proof (sh_classes s1 (iv_shape _ _ Hinv1) _ _ _ E). lia. }
  pose proof (get_entry_lookup _ _ Hslot) as Hprev.
  destruct (unreserve_old s1 _ (off + k) (get_entry (local s1) (off + k)) new_res (rclass req) Hinv1 Hprev Hnr) as (H1 & H2 & H3).
  - by rewrite Hpn.
  - intros _ j rj Hj _ _ Hpj. rewrite Htn. by eapply Hun1.
  - intros Hpp _. rewrite Htn. by eapply Hun1.
  - intros t'. unfold contrib, at_tree. rewrite Hpn, Htn, Hfn, (Z.eqb_sym t'). cbn [andb]. case_raw; lia.
  - apply Hfin; [|exact H2|exact (same_conf_trans _ _ _ Hc1 H3)].
    eapply ll_inv_ext; [exact H1|]. intros t'. cbn beta. unfold contrib, no_debt, at_tree.
    rewrite Hpn, Htn, Hfn, (Z.eqb_sym t'). cbn [andb]. case_raw; lia.
Qed.

(** *** The calls *)

Lemma llfree_get_step s req :
  ll_inv s no_debt -> 0 <= order req <= 9 ->
  (llfree_get policy s None req = (llfree_err LLFREE_ERR_ARGUMENT, s) /\ validate_request s req None = false) \/
  (step_ok s (2 ^ order req) (llfree_get policy s None req) /\ validate_request s req None = true).
Proof.
  intros Hinv Ho. unfold llfree_get. destruct (validate_request s req None) eqn:Hv; cbn [negb]; [right|by left].
  split; [|done]. destruct (frames_of_pow (order req) Ho) as [-> _].
  assert (Hglobal : forall st, step_ok s (2 ^ order req)
    (trees_search_best (rate_global_tree policy (rclass req) (2 ^ order req)) (steal_cb policy (order req) (rclass req)) s st 0 (ntrees s))).
  { intros st. apply trees_search_best_ok; [|done]. intros t s' Hi Ht. by apply steal_cb_ok. }
  set (count := default 0%nat _). set (start := match rlocal req with Some i => _ | None => 0 end).
  match goal with |- step_ok s _ (let '(res, s) := ?first in _) => assert (Hfirst : step_ok s (2 ^ order req) first) end.
  { destruct (rlocal req) as [i|]; [|apply Hglobal]. case_raw; [|apply Hglobal].
    pose proof (get_local_ok s (rclass req) i (order req) Hinv Ho) as Hget.
    destruct (get_local policy s (rclass req) i (order req) (2 ^ order req) None) as [[res st'] s1].
    destruct (Z.eqb_spec (error res) LLFREE_ERR_MEMORY) as [He|He]; cbn [negb]; [|done].
    eapply step_ok_next; [exact Hget|done|]. apply search_and_reserve_ok; [apply Hget|done]. }
  match goal with |- step_ok s _ (let '(res, s) := ?first in _) => destruct first as [r1 s1] end.
  destruct (Z.eqb_spec (error r1) LLFREE_ERR_MEMORY) as [He|He]; cbn [negb]; [|done].
  eapply step_ok_next; [exact Hfirst|done|]. destruct Hfirst as (_ & Hi1 & _). cbn [snd] in Hi1.
  pose proof (steal_local_ok s1 req Hi1 Ho) as Hsteal. destruct (steal_local policy s1 req None) as [r2 s2].
  destruct (Z.eqb_spec (error r2) LLFREE_ERR_MEMORY) as [He2|He2]; cbn [negb]; [|done].
  eapply step_ok_next; [exact Hsteal|done|]. apply demote_local_ok; [apply Hsteal|done].
Qed.

(** What freeing [n] frames at [f] promises. *)
Definition free_ok (s : llfree_t) (f n : Z) (res : llfree_result * llfree_t) : Prop :=
  (llfree_is_ok res.1 = true /\ ll_inv res.2 no_debt /\ same_conf s res.2 /\ frames (lower res.2) = frames (lower s) /\
   (forall q, f <= q < f + n -> lfree (lower s) q = false) /\
   (forall q, lfree (lower res.2) q = lfree (lower s) q || in_block f n q)) \/
  (llfree_is_ok res.1 = false /\ (n <= 64 \/ n = 512 -> res.2 = s) /\
   (n < 512 -> exists q, f <= q < f + n /\ lfree (lower s) q = true)).

Lemma llfree_put_step s f req :
  ll_inv s no_debt -> 0 <= order req <= 9 -> 0 <= f ->
  (llfree_put policy s f req = (llfree_err LLFREE_ERR_ARGUMENT, s) /\ validate_request s req (Some f) = false) \/
  (free_ok s f (2 ^ order req) (llfree_put policy s f req) /\ validate_request s req (Some f) = true).
Proof.
  intros Hinv Ho Hf. unfold llfree_put. destruct (validate_request s req (Some f)) eqn:Hv; cbn [negb]; [right|by left].
  split; [|done]. destruct (frames_of_pow (order req) Ho) as [-> Hp]. set (n := 2 ^ order req) in *.
  assert (Hrange : f + n <= frames (lower s) /\ f `mod` n = 0).
  { unfold validate_request in Hv. rewrite Z.shiftl_1_l in Hv. fold n in Hv. destruct (_ <? order req); [done|].
    destruct (ll_local_class_locals _ _) as [len|]; [|done]. destruct (match rlocal req with Some i => _ | None => _ end); [done|].
    destruct (_ <? n); [done|]. destruct (Z.ltb_spec (frames (lower s) - n) f); [done|]. apply Z.eqb_eq in Hv. split; [lia|done]. }
  destruct Hrange as [Hfr Hal]. pose proof (sh_frames s (iv_shape _ _ Hinv)) as Hf40.
  pose proof (lower_put_ok (lower s) f (order req) (sh_lower s (iv_shape _ _ Hinv)) Ho ltac:(unfold is_u64; lia) Hfr Hal) as Hput.
  fold n in Hput. destruct (lower_put (lower s) f (order req)) as [res l']. unfold put_ok in Hput. cbn [fst snd] in Hput.
  destruct Hput as [(Hok & Hl' & Hfr' & Hin & Hfree)|(Hnok & Hsame & Hex & _)].
  2:{ rewrite Hnok. cbn [negb]. right. cbn [fst snd]. split_and!; [done| |done]. intros H. rewrite Hsame by done. apply set_lower_id. }
  rewrite Hok. cbn [negb]. set (t := tree_from_frame f).
  assert (Htd : t = f / 4096) by (unfold t, tree_from_frame, LLFREE_TREE_ORDER; rewrite Z.shiftr_div_pow2 by lia; done).
  assert (Hn512 : (n | 4096)).
  { destruct (pow2_divides_512 (order req) Ho) as [c Hc]. exists (8 * c). fold n in Hc. lia. }
  assert (Ht : 4096 * t <= f /\ f + n <= 4096 * (t + 1)).
  { rewrite Htd. pose proof (Z.div_mod f 4096 ltac:(lia)) as Hd. pose proof (Z.mod_pos_bound f 4096 ltac:(lia)) as Hm.
    split; [lia|]. destruct Hn512 as [c Hc].
    assert (Hz : (f `mod` 4096) `mod` n = 0) by (rewrite Z.mod_mod_divide; [done|by exists c]).
    pose proof (Z.div_mod (f `mod` 4096) n ltac:(lia)) as Hd2. rewrite Hz, Z.add_0_r in Hd2.
    assert (f `mod` 4096 / n < c) by nia. nia. }
  assert (Htn : 0 <= t < ntrees s).
  { rewrite (sh_trees s (iv_shape _ _ Hinv)). unfold div_ceil. split; [rewrite Htd; apply Z.div_pos; lia|].
    pose proof (Z.div_mod (frames (lower s) + 4096 - 1) 4096 ltac:(lia)).
    pose proof (Z.mod_pos_bound (frames (lower s) + 4096 - 1) 4096 ltac:(lia)). lia. }
  assert (Hcnt : forall t', tcount l' t' = tcount (lower s) t' + if t' =? t then n else 0).
  { apply (tcount_flip l' (lower s) f n t); try lia.
    - intros q Hq. rewrite Hfree, (proj2 (in_block_true _ _ _) Hq), orb_true_r. split; [done|by apply Hin].
    - intros q Hq. rewrite Hfree, (proj2 (in_block_false _ _ _) Hq). by rewrite orb_false_r. }
  set (s1 := set_lower l' s).
  assert (Hinv1 : ll_inv s1 (at_tree t n)).
  { destruct Hinv as [Hs Hd Ha]. split.
    - split; try apply Hs; cbn [lower set_lower s1]; [done|by rewrite Hfr'|by rewrite Hfr'; apply Hs|].
      intros i r Hr. destruct (sh_slots s Hs i r Hr) as [? ? ? ?]. split; cbn [lower set_lower s1]; try done. by rewrite Hfr'.
    - intros t'. unfold at_tree. case_raw; lia.
    - intros t' Ht'. specialize (Ha t' Ht'). unfold no_debt in Ha. cbn [lower set_lower s1 local]. rewrite Hcnt.
      change (get_tree s1 t') with (get_tree s t'). unfold at_tree. lia. }
  assert (Hd0 : forall t', at_tree t n t' - at_tree t n t' = no_debt t') by (intros; unfold no_debt; lia).
  assert (Hdt : 0 <= n <= at_tree t n t) by (unfold at_tree; rewrite Z.eqb_refl; lia).
  assert (Hgoal : forall s2, ll_inv s2 no_debt -> lower s2 = l' -> same_conf s1 s2 -> free_ok s f n (llfree_ok 0 0, s2)).
  { intros s2 Hi2 Hl2 Hc2. left. cbn [fst snd]. rewrite Hl2. split_and!; try done. }
  assert (Hglob : free_ok s f n (llfree_ok 0 0, trees_put policy s1 t n)).
  { destruct (trees_put_frame s1 t n) as (Hl & _ & Hc). apply Hgoal; [|done|done].
    eapply ll_inv_ext; [by apply (trees_put_inv s1 _ t n Hinv1)|exact Hd0]. }
  destruct (rlocal req) as [i|]; [|exact Hglob]. unfold ll_local_put, update_entry.
  destruct (ll_reserved_inc (get_entry (local s1) (slot (local s1) (rclass req) i)) t n) as [r'|] eqn:Hinc.
  - apply Hgoal; [|done|apply (set_entry_conf s1)].
    eapply ll_inv_ext; [by apply (inc_entry_inv s1 _ _ t n r' Hinv1)|exact Hd0].
  - exact Hglob.
Qed.

Lemma drain_slot_inv s c len i :
  ll_inv s no_debt -> ll_local_class_locals (local s) c = Some len -> (i < len)%nat ->
  let s' := drain_slot policy c s i in ll_inv s' no_debt /\ lower s' = lower s /\ same_conf s s'.
Proof.
  intros Hinv Hlen Hi. cbv zeta. unfold drain_slot, ll_local_drain, update_entry. cbn [old lclass].
  pose proof (slot_lt s c len i (iv_shape _ _ Hinv) Hlen Hi) as Hslot.
  destruct (unreserve_old s no_debt _ _ no_reservation c Hinv (get_entry_lookup _ _ Hslot)) as (H1 & H2 & H3); try done.
Qed.

Lemma llfree_drain_inv s :
  ll_inv s no_debt -> let s' := llfree_drain policy s in ll_inv s' no_debt /\ lower s' = lower s /\ same_conf s s'.
Proof.
  intros Hinv. cbv zeta. unfold llfree_drain. generalize (seqZ 0 8) as cs.
  assert (Hclass : forall s c, ll_inv s no_debt ->
    let s' := drain_class policy s c in ll_inv s' no_debt /\ lower s' = lower s /\ same_conf s s').
  { clear s Hinv. intros s c Hinv. cbv zeta. unfold drain_class. destruct (ll_local_class_locals (local s) c) as [len|] eqn:Hlen; [|done].
    assert (H : forall sl s0, Forall (fun i => (i < len)%nat) sl -> ll_inv s0 no_debt -> lower s0 = lower s -> same_conf s s0 ->
      let s' := foldl (drain_slot policy c) s0 sl in ll_inv s' no_debt /\ lower s' = lower s /\ same_conf s s').
    { induction sl as [|i sl IH]; intros s0 Hsl Hi0 Hl0 Hc0; [done|]. apply Forall_cons in Hsl as [Hi Hsl]. cbn [foldl].
      assert (Hlen0 : ll_local_class_locals (local s0) c = Some len).
      { destruct Hc0 as (_ & Hcl & _). unfold ll_local_class_locals, class_of in *. by rewrite Hcl. }
      destruct (drain_slot_inv s0 c len i Hi0 Hlen0 Hi) as (H1 & H2 & H3).
      apply IH; [done|done|congruence|by eapply same_conf_trans]. }
    apply H; try done. apply Forall_forall. intros i Hi%elem_of_seq. lia. }
  intros cs. revert s Hinv. induction cs as [|c cs IH]; intros s Hinv; [done|]. cbn [foldl].
  destruct (Hclass s c Hinv) as (H1 & H2 & H3). destruct (IH _ H1) as (H4 & H5 & H6).
  split_and!; [done|congruence|by eapply same_conf_trans].
Qed.

End proofs.

(** ** Initialisation *)

Lemma ll_local_init_ok classing :
  let lc := ll_local_init classing in
  Forall (fun r => r = no_reservation) (entries lc) /\
  forall c off len, classes lc !! c = Some (off, Some len) -> (off + len <= length (entries lc))%nat.
Proof.
  cbv zeta. unfold ll_local_init.
  assert (H : forall lc offset, length (entries lc) = offset -> Forall (fun r => r = no_reservation) (entries lc) ->
    (forall c off len, classes lc !! c = Some (off, Some len) -> (off + len <= length (entries lc))%nat) ->
    let lc' := (foldl (fun '(lc, offset) '(c, count) =>
      (mkLocal (<[Z.to_nat c := (offset, Some count)]> (classes lc)) (entries lc ++ replicate count no_reservation), (offset + count)%nat))
      (lc, offset) classing).1 in
    Forall (fun r => r = no_reservation) (entries lc') /\
    forall c off len, classes lc' !! c = Some (off, Some len) -> (off + len <= length (entries lc'))%nat).
  { induction classing as [|[c count] cl IH]; intros lc offset Hlen Hall Hcl; [done|]. cbn [foldl]. apply IH; cbn [entries classes].
    - rewrite length_app, length_replicate. lia.
    - apply Forall_app. split; [done|]. apply Forall_replicate. done.
    - intros c' off len Hc. rewrite length_app, length_replicate.
      apply lookup_insert_cases in Hc as [(-> & [= -> ->] & _)|[_ Hc]]; [lia|]. pose proof (Hcl _ _ _ Hc). lia. }
  apply H; [done|constructor|]. intros c off len Hc. by apply lookup_replicate in Hc as [[=] _].
Qed.

Lemma sum_free_zero (g : reserved_t -> Z) l : Forall (fun r => g r = 0) l -> sum_free (g <$> l) = 0.
Proof. induction 1 as [|r l Hr _ IH]; [done|]. rewrite fmap_cons, sum_free_cons. lia. Qed.

Lemma llfree_init_inv n classing dclass prev prev_trees :
  512 <= n < 2 ^ 40 ->
  exists s, llfree_init n LLFREE_INIT_FREE prev prev_trees classing dclass = (llfree_ok 0 0, Some s) /\
    ll_inv s no_debt /\ frames (lower s) = n /\ (forall q, lfree (lower s) q = (0 <=? q) && (q <? n)) /\
    local s = ll_local_init classing.
Proof.
  intros Hn. destruct (lower_clear_ok n true ltac:(lia)) as (Hl & Hf & Hfree). unfold llfree_init, LLFREE_INIT_FREE, MIN_PAGES, MAX_PAGES.
  rewrite (proj2 (Z.ltb_ge n 512)), (proj2 (Z.ltb_ge (2 ^ 52) n)) by lia. cbn -[lower_clear ll_local_init trees_init].
  set (l := lower_clear n true) in *. eexists. split; [done|]. set (s := mkLL _ _ _ _ _).
  destruct (ll_local_init_ok classing) as [Hnone Hcl]. pose proof (proj1 (Forall_lookup _ _) Hnone) as Hnone'.
  assert (Hnt : length (trees_init l n dclass) = Z.to_nat (div_ceil n 4096)) by (unfold trees_init; by rewrite length_fmap, length_seq).
  assert (Hd0 : 0 <= div_ceil n 4096) by (unfold div_ceil; apply Z.div_pos; lia).
  assert (Htf : forall t, 0 <= t < div_ceil n 4096 -> tfree (get_tree s t) = tcount l t).
  { intros t Ht. unfold get_tree, aget, s, trees_init. cbn [trees]. unfold LLFREE_TREE_SIZE. rewrite list_lookup_fmap, lookup_seq_lt by lia.
    cbn [fmap option_fmap option_map default tfree Nat.add]. rewrite tree_free_tcount by done. rewrite Z2Nat.id by lia. apply free28_small. apply tcount_range. }
  split_and!; try done. split; [|done|].
  - split; cbn [lower local s]; try done.
    + lia.
    + unfold ntrees, s. cbn [trees]. rewrite Hnt, Hf. lia.
    + intros t. unfold get_tree, aget, s, trees_init. cbn [trees]. rewrite list_lookup_fmap.
      destruct (seq 0 _ !! Z.to_nat t) as [k|] eqn:E; [|done]. cbn. apply Z.mod_pos_bound. lia.
    + intros i r Hr. rewrite (Hnone' i r Hr). by split.
    + intros i r Hr. by rewrite (Hnone' i r Hr).
    + intros i j ri rj Hi Hj _ Hp. by rewrite (Hnone' i ri Hi) in Hp.
  - intros t Ht. unfold ntrees, s in Ht. cbn [trees] in Ht. rewrite Hnt in Ht. rewrite Htf by lia.
    unfold local_sum. cbn [local s lower]. rewrite sum_free_zero; [unfold no_debt; lia|].
    eapply Forall_impl; [exact Hnone|]. intros r ->. done.
Qed.

(** ** The counters are exact *)

Lemma sum_free_app l k : sum_free (l ++ k) = sum_free l + sum_free k.
Proof. induction l as [|x l IH]; [done|]. cbn [app]. rewrite !sum_free_cons, IH. lia. Qed.

(** Each reservation lies in exactly one tree. *)
Lemma sum_contrib r (k : nat) :
  (present r = true -> 0 <= tree_from_row (start_row r) < Z.of_nat k) ->
  sum_free ((fun i => contrib (Z.of_nat i) r) <$> seq 0 k) = if present r then rfree r else 0.
Proof.
  intros Hr. destruct (present r) eqn:Hp.
  2:{ assert (H : forall m j, sum_free ((fun i => contrib (Z.of_nat i) r) <$> seq j m) = 0); [|apply H].
      induction m as [|m IH]; intros j; [done|]. cbn [seq]. rewrite fmap_cons, sum_free_cons, IH. unfold contrib. by rewrite Hp. }
  assert (H : forall m j, sum_free ((fun i => contrib (Z.of_nat i) r) <$> seq j m) =
    if decide (Z.of_nat j <= tree_from_row (start_row r) < Z.of_nat (j + m)) then rfree r else 0).
  { induction m as [|m IH]; intros j.
    - cbn. case_decide; [lia|done].
    - cbn [seq]. rewrite fmap_cons, sum_free_cons, IH. unfold contrib. rewrite Hp. cbn [andb].
      destruct (Z.eqb_spec (tree_from_row (start_row r)) (Z.of_nat j)); repeat case_decide; lia. }
  specialize (Hr eq_refl). rewrite H. case_decide; [done|lia].
Qed.

Lemma sum_free_plus {A} (g h : A -> Z) l : sum_free ((fun x => g x + h x) <$> l) = sum_free (g <$> l) + sum_free (h <$> l).
Proof. induction l as [|x l IH]; [done|]. rewrite !fmap_cons, !sum_free_cons, IH. lia. Qed.

Lemma local_sums s :
  shape s -> sum_free ((fun i => local_sum (local s) (Z.of_nat i)) <$> seq 0 (length (trees s))) = local_free (local s).
Proof.
  intros Hs. unfold local_sum, local_free. set (k := length (trees s)).
  assert (Hall : Forall (fun r => present r = true -> 0 <= tree_from_row (start_row r) < Z.of_nat k) (entries (local s))).
  { apply Forall_lookup. intros i r Hr Hp. apply (slot_tree_range s r Hs); [by eapply sh_slots|done]. }
  induction (entries (local s)) as [|r es IH].
  - assert (Hz : forall j m, sum_free ((fun _ : nat => 0) <$> seq j m) = 0).
    { intros j m. revert j. induction m as [|m IHm]; intros j; [done|]. cbn [seq]. rewrite fmap_cons, sum_free_cons, IHm. lia. }
    apply Hz.
  - apply Forall_cons in Hall as [Hr Hall]. rewrite fmap_cons, sum_free_cons, <-IH by done.
    rewrite <-(sum_contrib r k Hr). rewrite <-sum_free_plus. done.
Qed.

Lemma div_ceil_tree n : 0 < n -> div_ceil (div_ceil n 512) 8 = div_ceil n 4096.
Proof.
  intros Hn. unfold div_ceil. replace 4096 with (512 * 8) by lia. rewrite <-Z.div_div by lia.
  f_equal. replace (n + 512 * 8 - 1) with (n + 512 - 1 + 7 * 512) by lia. rewrite Z.div_add by lia. lia.
Qed.

Lemma lower_stats_sum l : free_frames (lower_stats l) = sum_free ((fun i => tree_free l (8 * i)) <$> seq 0 (Z.to_nat (children_count l))).
Proof.
  unfold lower_stats. generalize (seq 0 (Z.to_nat (children_count l))) as sl. induction sl as [|i sl IH]; [done|].
  rewrite fmap_cons, sum_free_cons, <-IH. done.
Qed.

Lemma stats_at_tree s f t :
  shape s -> 0 <= f < frames (lower s) -> f / 4096 = t ->
  free_frames (lower_stats_at (lower s) f LLFREE_TREE_ORDER) = tcount (lower s) t.
Proof.
  intros Hs Hf Ht. unfold lower_stats_at. rewrite (proj2 (Z.leb_gt _ _)) by lia. change (LLFREE_TREE_ORDER =? 0) with false.
  change (LLFREE_TREE_ORDER =? LLFREE_HUGE_ORDER) with false. change (LLFREE_TREE_ORDER =? LLFREE_TREE_ORDER) with true.
  cbv iota. cbn [free_frames]. pose proof (sh_frames s Hs).
  assert (Hd : Z.shiftr f 9 = f / 512) by (by rewrite Z.shiftr_div_pow2 by lia).
  assert (H512 : 0 <= f / 512 < 2 ^ 40) by (split; [apply Z.div_pos; lia|apply Z.div_lt_upper_bound; lia]).
  rewrite Hd. change 8 with (2 ^ 3). rewrite align_down_spec by (unfold is_u64; lia). change (2 ^ 3) with 8.
  assert (Hq : f / 512 / 8 = t) by (rewrite Z.div_div by lia; done).
  pose proof (Z.div_mod (f / 512) 8 ltac:(lia)). assert (0 <= t) by (subst t; apply Z.div_pos; lia).
  replace (Z.to_nat (f / 512 - (f / 512) `mod` 8)) with (8 * Z.to_nat t)%nat by lia.
  rewrite tree_free_tcount by apply Hs. by rewrite Z2Nat.id by lia.
Qed.

Lemma contrib_unheld s t : unheld s t -> local_sum (local s) t = 0.
Proof.
  intros Hun. unfold local_sum. apply sum_free_zero. apply Forall_lookup. intros i r Hr. unfold contrib.
  destruct (present r) eqn:Hp; [|done]. cbn [andb]. rewrite (proj2 (Z.eqb_neq _ _)); [done|]. by apply (Hun i r).
Qed.

(** The slot that holds a tree holds all that is reserved of it. *)
Lemma contrib_held s i r :
  shape s -> entries (local s) !! i = Some r -> present r = true -> local_sum (local s) (tree_from_row (start_row r)) = rfree r.
Proof.
  intros Hs Hi Hp. unfold local_sum. set (t := tree_from_row (start_row r)).
  pose proof (sum_free_insert (contrib t) _ i r no_reservation Hi) as Hins.
  assert (Hz : sum_free (contrib t <$> <[i := no_reservation]> (entries (local s))) = 0).
  { apply sum_free_zero, Forall_lookup. intros j q Hq. apply lookup_insert_cases in Hq as [(_ & -> & _)|[Hne Hq]]; [done|].
    unfold contrib. destruct (present q) eqn:Hpq; [|done]. cbn [andb]. rewrite (proj2 (Z.eqb_neq _ _)); [done|].
    by apply (sh_unique s Hs j i q r). }
  rewrite Hz in Hins. change (contrib t no_reservation) with 0 in Hins.
  replace (contrib t r) with (rfree r) in Hins by (unfold contrib; rewrite Hp; unfold t; by rewrite Z.eqb_refl). lia.
Qed.

Lemma validate_ok s : ll_inv s no_debt -> validate_counters s = true.
Proof.
  intros Hinv. pose proof (iv_shape _ _ Hinv) as Hs. pose proof (iv_acc _ _ Hinv) as Ha. pose proof (sh_lower s Hs) as Hl.
  unfold validate_counters. rewrite !andb_true_iff. split_and!.
  - apply Z.eqb_eq. rewrite lower_stats_sum. unfold tree_stats_free. rewrite <-local_sums by done.
    assert (Hc : Z.to_nat (children_count (lower s)) = length (trees s)).
    { pose proof (sh_trees s Hs) as Ht. unfold ntrees in Ht. unfold children_count, child_count, LLFREE_CHILD_SIZE.
      rewrite div_ceil_tree by apply Hl. lia. }
    rewrite Hc. replace (tfree <$> trees s) with ((fun i => tfree (get_tree s (Z.of_nat i))) <$> seq 0 (length (trees s))).
    2:{ apply list_eq. intros i. rewrite !list_lookup_fmap. destruct (decide (i < length (trees s))%nat) as [Hi|Hi].
        - rewrite lookup_seq_lt by done. cbn [fmap option_fmap option_map Nat.add]. unfold get_tree, aget. rewrite Nat2Z.id.
          destruct (lookup_lt_is_Some_2 _ _ Hi) as [v Hv]. cbn. by rewrite Hv.
        - rewrite lookup_seq_ge, lookup_ge_None_2 by lia. done. }
    rewrite <-sum_free_plus. f_equal. apply list_fmap_ext. intros i x [-> Hi]%lookup_seq. cbn [Nat.add].
    rewrite tree_free_tcount by done. rewrite <-(Ha (Z.of_nat i)) by (unfold ntrees; lia). unfold no_debt. lia.
  - apply forallb_forall. intros i Hi%in_seq. assert (Ht : 0 <= Z.of_nat i < ntrees s) by (unfold ntrees; lia).
    destruct (inv_bounds s no_debt (Z.of_nat i) Hinv Ht) as [H0 H1]. pose proof (local_sum_nonneg s (Z.of_nat i) Hs).
    unfold no_debt in *. rewrite andb_true_iff. split; [apply Z.leb_le; unfold LLFREE_TREE_SIZE; lia|].
    destruct (reserved (get_tree s (Z.of_nat i))) eqn:Hr; [done|]. cbn [orb]. apply Z.eqb_eq.
    pose proof (tree_below_frames s (Z.of_nat i) Hs Ht).
    rewrite (stats_at_tree s _ (Z.of_nat i) Hs) by
      (try apply frame_from_tree_div; unfold frame_from_tree, LLFREE_TREE_ORDER; rewrite Z.shiftl_mul_pow2 by lia; lia).
    rewrite <-(Ha _ Ht). rewrite contrib_unheld; [lia|]. by eapply unheld_unreserved.
  - apply forallb_forall. intros r Hin%list_elem_of_In. apply list_elem_of_lookup in Hin as [i Hi].
    pose proof (sh_slots s Hs i r Hi) as Hok. destruct (present r) eqn:Hp.
    + pose proof (slot_tree_range s r Hs Hok Hp) as Ht. destruct (inv_bounds s no_debt _ Hinv Ht) as [H0 H1].
      pose proof (contrib_held s i r Hs Hi Hp) as Hheld. unfold no_debt in *. destruct (so_row _ _ Hok Hp) as [Hrow Hrf].
      rewrite andb_true_iff. cbn [negb orb]. split; [apply Z.leb_le; unfold LLFREE_TREE_SIZE; lia|].
      unfold validate_tree_counters. rewrite (so_reserved _ _ Hok Hp). rewrite !andb_true_iff. split_and!; try done.
      * apply Z.ltb_lt. lia.
      * apply Z.leb_le. unfold LLFREE_TREE_SIZE. lia.
      * apply Z.eqb_eq. rewrite (stats_at_tree s (frame_from_row (start_row r)) (tree_from_row (start_row r)) Hs ltac:(unfold frame_from_row; rewrite Z.shiftl_mul_pow2 by lia; lia) (frame_from_row_div _)).
        rewrite <-(Ha _ Ht). unfold no_debt. lia.
    + rewrite (sh_absent s Hs i r Hi Hp). done.
Qed.

(** ** Runs of the allocator *)

Inductive ll_op :=
| LGet (req : llfree_request_t)
| LPut (f : Z) (req : llfree_request_t)
| LDrain.

(** Requests of at most one huge frame; freeing 128 or 256 frames at once is
    only asked for blocks that are allocated. *)
Definition op_ok (s : llfree_t) (op : ll_op) : Prop :=
  match op with
  | LGet req => 0 <= order req <= 9
  | LPut f req =>
      0 <= order req <= 9 /\ 0 <= f /\
      (order req <= 6 \/ order req = 9 \/ forall q, f <= q < f + 2 ^ order req -> lfree (lower s) q = false)
  | LDrain => True
  end.

Definition ll_exec (policy : llfree_policy_fn) (s : llfree_t) (op : ll_op) : llfree_t :=
  match op with
  | LGet req => (llfree_get policy s None req).2
  | LPut f req => (llfree_put policy s f req).2
  | LDrain => llfree_drain policy s
  end.

Inductive reachable (policy : llfree_policy_fn) (n : Z) (classing : list (Z * nat)) (dclass : Z) : llfree_t -> Prop :=
| reachable_init prev prev_trees s :
    llfree_init n LLFREE_INIT_FREE prev prev_trees classing dclass = (llfree_ok 0 0, Some s) ->
    reachable policy n classing dclass s
| reachable_step s op :
    reachable policy n classing dclass s -> op_ok s op -> reachable policy n classing dclass (ll_exec policy s op).

Lemma put_state_inv policy s f req :
  ll_inv s no_debt -> op_ok s (LPut f req) -> ll_inv (llfree_put policy s f req).2 no_debt.
Proof.
  intros Hinv (Ho & Hf & Hcase). destruct (llfree_put_step policy s f req Hinv Ho Hf) as [[-> _]|[Hfree _]]; [done|].
  destruct Hfree as [(_ & Hi & _)|(_ & Hsame & Hex)]; [done|]. destruct (frames_of_pow (order req) Ho) as [_ Hp].
  destruct (Z.le_gt_cases (order req) 6) as [H6|H6].
  { rewrite Hsame; [done|]. left. pose proof (Z.pow_le_mono_r 2 (order req) 6 ltac:(lia) ltac:(lia)). lia. }
  destruct (Z.eq_dec (order req) 9) as [H9|H9]; [rewrite Hsame; [done|]; right; by rewrite H9|].
  destruct Hcase as [|[|Hall]]; [lia|lia|]. destruct Hex as (q & Hq & Ht).
  { pose proof (Z.pow_le_mono_r 2 (order req) 8 ltac:(lia) ltac:(lia)). lia. }
  by rewrite Hall in Ht.
Qed.

Lemma reachable_inv policy n classing dclass s :
  512 <= n < 2 ^ 40 -> reachable policy n classing dclass s -> ll_inv s no_debt.
Proof.
  intros Hn. induction 1 as [prev prev_trees s Hinit|s op _ IH Hop].
  - destruct (llfree_init_inv n classing dclass prev prev_trees Hn) as (s' & Hs' & Hinv & _).
    rewrite Hs' in Hinit. by injection Hinit as <-.
  - destruct op as [req|f req|]; cbn [ll_exec].
    + destruct (llfree_get_step policy s req IH Hop) as [[-> _]|[(_ & Hi & _) _]]; done.
    + by apply put_state_inv.
    + by apply llfree_drain_inv.
Qed.


(** the fast counters are exact.  In every reachable state the checks that
    [llfree_validate] makes of the counters pass: the counts of the trees and of the local reservations
    add up to the number of free frames, each tree that is not reserved counts its
    own free frames, and each reservation together with its tree counts those of
    the reserved tree. *)
Theorem llfree_counters_exact policy n classing dclass s :
  512 <= n < 2 ^ 40 -> reachable policy n classing dclass s -> validate_counters s = true.
Proof. intros Hn Hr. by eapply validate_ok, reachable_inv. Qed.

(** a block that was allocated can be freed, by any CPU and through any
    class: [llfree_put] succeeds, and exactly its frames become free. *)
Theorem llfree_put_correct policy n classing dclass s f req :
  512 <= n < 2 ^ 40 -> reachable policy n classing dclass s -> 0 <= order req <= 8 -> 0 <= f ->
  validate_request s req (Some f) = true ->
  (forall q, f <= q < f + 2 ^ order req -> lfree (lower s) q = false) ->
  let res := llfree_put policy s f req in
  llfree_is_ok res.1 = true /\ forall q, lfree (lower res.2) q = lfree (lower s) q || in_block f (2 ^ order req) q.
Proof.
  intros Hn Hr Ho Hf Hv Hall. cbv zeta. pose proof (reachable_inv _ _ _ _ _ Hn Hr) as Hinv.
  destruct (llfree_put_step policy s f req Hinv ltac:(lia) Hf) as [[_ H]|[Hfree _]]; [congruence|].
  destruct Hfree as [(H1 & _ & _ & _ & _ & H2)|(_ & _ & Hex)]; [done|]. destruct Hex as (q & Hq & Ht).
  { pose proof (Z.pow_le_mono_r 2 (order req) 8 ltac:(lia) ltac:(lia)). lia. }
  by rewrite Hall in Ht.
Qed.

(** ** A concrete allocator *)

Definition demo : llfree_t :=
  default (mkLL (lower_clear 512 true) (ll_local_init []) [] 0 0)
    (llfree_init 10000 LLFREE_INIT_FREE ([], []) [] (llfree_classing_simple 2) 1).2.

Lemma demo_reachable : reachable llfree_simple_policy 10000 (llfree_classing_simple 2) 1 demo.
Proof. apply (reachable_init _ _ _ _ ([], []) [] demo). vm_compute. reflexivity. Qed.

Definition small (ord : Z) (cpu : nat) : llfree_request_t := mkReq ord 0 (Some cpu).


Lemma llfree_counters_exact_witness : validate_counters demo = true.
Proof.
  apply (llfree_counters_exact llfree_simple_policy 10000 (llfree_classing_simple 2) 1); [lia|exact demo_reachable].
Defined.

Lemma llfree_put_correct_witness :
  let s := (llfree_get llfree_simple_policy demo None (small 0 1)).2 in
  let f := frame (llfree_get llfree_simple_policy demo None (small 0 1)).1 in
  llfree_is_ok (llfree_put llfree_simple_policy s f (small 0 0)).1 = true /\
  lfree (lower (llfree_put llfree_simple_policy s f (small 0 0)).2) f = true.
Proof.
  cbv zeta. set (s := (llfree_get llfree_simple_policy demo None (small 0 1)).2).
  set (f := frame (llfree_get llfree_simple_policy demo None (small 0 1)).1).
  destruct (llfree_put_correct llfree_simple_policy 10000 (llfree_classing_simple 2) 1 s f (small 0 0)) as [H1 H2].
  - lia.
  - apply (reachable_step llfree_simple_policy 10000 (llfree_classing_simple 2) 1 demo (LGet (small 0 1)) demo_reachable).
    cbn. lia.
  - cbn. lia.
  - vm_compute. discriminate.
  - vm_compute. reflexivity.
  - intros q Hq. assert (q = f) as -> by (cbn in Hq; lia). vm_compute. reflexivity.
  - split; [exact H1|]. rewrite H2. vm_compute. reflexivity.
Defined.

(** the allocator hands out memory that is in use.  One CPU takes two huge
    frames, frees the first, takes a block of two huge frames and then five more
    huge frames: the last of them is the second one, which was never freed. *)
Theorem llfree_double_allocation :
  let get s ord := llfree_get llfree_simple_policy s None (small ord 0) in
  let '(r1, s1) := get demo 9 in
  let '(r2, s2) := get s1 9 in
  let '(r3, s3) := llfree_put llfree_simple_policy s2 (frame r1) (small 9 0) in
  let '(r4, s4) := get s3 10 in
  let s8 := (get (get (get (get s4 9).2 9).2 9).2 9).2 in
  let '(r9, s9) := get s8 9 in
  forallb llfree_is_ok [r1; r2; r3; r4; r9] = true /\ frame r2 = 512 /\ frame r9 = frame r2.
Proof. vm_compute. repeat split. Qed.
