(* ===== verification/Pmm.v ===== *)
(** * The physical page allocator.

    Models [kernel/mm/pmm.c]: choice of the managed region and of the DMA
    reserve from the boot memory map, reference counted pages, the pool of zeroed
    pages and blocks of contiguous pages.  What it needs of the frame allocator
    is the class [FrameAllocator]; [LLFree.v] is an instance of it.  Physical
    memory is a function from the address of a 64-bit word to its value, and one
    CPU runs at a time.  The leak detector ([CONFIG_KMEMLEAK]) is left out. *)

From S2P Require Import Prelude Bits Bitfield Lower LLFree.

Definition PAGE_SIZE := 4096.
Definition PAGE_SHIFT := 12.
Definition PAGE_ALIGN_UP (x : Z) : Z := clear_bits (u64 (x + PAGE_SIZE - 1)) (PAGE_SIZE - 1).
Definition PAGE_ALIGN_DOWN (x : Z) : Z := clear_bits x (PAGE_SIZE - 1).

Definition MAX_CPUS : nat := 16.

(** ** What the page allocator needs of a frame allocator

    [fa_get cpu order] and [fa_put cpu frame order] are the two calls;
    [fa_free] tells which frames are free. *)

Class FrameAllocator (A : Type) := {
  fa_init : Z -> option A;
  fa_get : nat -> Z -> A -> option Z * A;
  fa_put : nat -> Z -> Z -> A -> bool * A;
  fa_ok : A -> Prop;
  fa_frames : A -> Z;
  fa_free : A -> Z -> bool;
  fa_init_ok n a : fa_init n = Some a -> n < 2 ^ 40 ->
    fa_ok a /\ fa_frames a = n /\ forall q, fa_free a q = (0 <=? q) && (q <? n);
  fa_free_managed a q : fa_ok a -> fa_free a q = true -> 0 <= q < fa_frames a;
  fa_get_some cpu o a f a' : fa_ok a -> 0 <= o <= 9 -> fa_get cpu o a = (Some f, a') ->
    fa_ok a' /\ fa_frames a' = fa_frames a /\ 0 <= f /\ f + 2 ^ o <= fa_frames a /\ f `mod` 2 ^ o = 0 /\
    (forall q, f <= q < f + 2 ^ o -> fa_free a q = true) /\
    forall q, fa_free a' q = fa_free a q && negb (in_block f (2 ^ o) q);
  fa_get_none cpu o a a' : fa_ok a -> 0 <= o <= 9 -> fa_get cpu o a = (None, a') ->
    fa_ok a' /\ fa_frames a' = fa_frames a /\ forall q, fa_free a' q = fa_free a q;
  fa_put_ok cpu f o a : fa_ok a -> 0 <= o <= 8 -> (cpu < MAX_CPUS)%nat -> 0 <= f -> f + 2 ^ o <= fa_frames a ->
    f `mod` 2 ^ o = 0 -> (forall q, f <= q < f + 2 ^ o -> fa_free a q = false) ->
    exists a', fa_put cpu f o a = (true, a') /\ fa_ok a' /\ fa_frames a' = fa_frames a /\
      forall q, fa_free a' q = fa_free a q || in_block f (2 ^ o) q;
}.

(** ** The calls the kernel makes of LLFree *)

(** Two classes, one slot per CPU; requests are of class 0. *)
Definition pmm_llfree_init (n : Z) : option llfree_t :=
  (llfree_init n LLFREE_INIT_FREE ([], []) [] (llfree_classing_simple MAX_CPUS) 1).2.

Definition pmm_llfree_get (cpu : nat) (order : Z) (s : llfree_t) : option Z * llfree_t :=
  let '(r, s) := llfree_get llfree_simple_policy s None (mkReq order 0 (Some cpu)) in
  (if llfree_is_ok r then Some (frame r) else None, s).

Definition pmm_llfree_put (cpu : nat) (f order : Z) (s : llfree_t) : bool * llfree_t :=
  let '(r, s) := llfree_put llfree_simple_policy s f (mkReq order 0 (Some cpu)) in (llfree_is_ok r, s).

Definition pmm_llfree_ok (s : llfree_t) : Prop :=
  ll_inv s no_debt /\ ll_local_class_locals (local s) 0 = Some MAX_CPUS.

Lemma same_conf_locals s s' c : same_conf s s' -> ll_local_class_locals (local s') c = ll_local_class_locals (local s) c.
Proof. intros (_ & Hc & _). unfold ll_local_class_locals, class_of. by rewrite Hc. Qed.

Lemma pmm_llfree_init_ok n s : pmm_llfree_init n = Some s -> n < 2 ^ 40 ->
  pmm_llfree_ok s /\ frames (lower s) = n /\ forall q, lfree (lower s) q = (0 <=? q) && (q <? n).
Proof.
  intros Hi Hn. unfold pmm_llfree_init in Hi. assert (512 <= n) as H512.
  { unfold llfree_init, MIN_PAGES in Hi. destruct (Z.ltb_spec n 512); [done|lia]. }
  destruct (llfree_init_inv n (llfree_classing_simple MAX_CPUS) 1 ([], []) []) as (s' & Hs' & H1 & H2 & H3 & H4); [lia|].
  rewrite Hs' in Hi. injection Hi as <-. split_and!; [split; [done|]|done|done]. by rewrite H4.
Qed.

Lemma pmm_llfree_get_some cpu o s f s' :
  pmm_llfree_ok s -> 0 <= o <= 9 -> pmm_llfree_get cpu o s = (Some f, s') ->
  pmm_llfree_ok s' /\ frames (lower s') = frames (lower s) /\ 0 <= f /\ f + 2 ^ o <= frames (lower s) /\ f `mod` 2 ^ o = 0 /\
  (forall q, f <= q < f + 2 ^ o -> lfree (lower s) q = true) /\
  forall q, lfree (lower s') q = lfree (lower s) q && negb (in_block f (2 ^ o) q).
Proof.
  intros [Hinv Hc] Ho. unfold pmm_llfree_get.
  destruct (llfree_get_step llfree_simple_policy s (mkReq o 0 (Some cpu)) Hinv Ho) as [[-> _]|[(Ha & Hi & Hsc) _]]; [done|].
  destruct (llfree_get _ _ _ _) as [r s1]. unfold alloc_ok in Ha. cbn [fst snd order] in *. destruct Ha as [(Hok & H1 & H2 & H3 & H4 & H5 & H6)|(He & Hl)].
  - rewrite Hok. intros [= <- <-]. split_and!; try done. split; [done|]. by rewrite (same_conf_locals _ _ _ Hsc).
  - unfold llfree_is_ok. by rewrite He.
Qed.

Lemma pmm_llfree_get_none cpu o s s' :
  pmm_llfree_ok s -> 0 <= o <= 9 -> pmm_llfree_get cpu o s = (None, s') ->
  pmm_llfree_ok s' /\ frames (lower s') = frames (lower s) /\ forall q, lfree (lower s') q = lfree (lower s) q.
Proof.
  intros [Hinv Hc] Ho. unfold pmm_llfree_get.
  destruct (llfree_get_step llfree_simple_policy s (mkReq o 0 (Some cpu)) Hinv Ho) as [[-> _]|[(Ha & Hi & Hsc) _]].
  { by intros [= <-]. }
  destruct (llfree_get _ _ _ _) as [r s1]. unfold alloc_ok in Ha. cbn [fst snd order] in *. destruct Ha as [(Hok & _)|(He & Hl)]; [by rewrite Hok|].
  unfold llfree_is_ok. rewrite He. intros [= <-]. rewrite Hl. split_and!; try done.
  split; [done|]. by rewrite (same_conf_locals _ _ _ Hsc).
Qed.

Lemma pmm_llfree_put_ok cpu f o s :
  pmm_llfree_ok s -> 0 <= o <= 8 -> (cpu < MAX_CPUS)%nat -> 0 <= f -> f + 2 ^ o <= frames (lower s) -> f `mod` 2 ^ o = 0 ->
  (forall q, f <= q < f + 2 ^ o -> lfree (lower s) q = false) ->
  exists s', pmm_llfree_put cpu f o s = (true, s') /\ pmm_llfree_ok s' /\ frames (lower s') = frames (lower s) /\
    forall q, lfree (lower s') q = lfree (lower s) q || in_block f (2 ^ o) q.
Proof.
  intros [Hinv Hc] Ho Hcpu Hf Hin Hal Hall. unfold pmm_llfree_put.
  pose proof (Z.pow_le_mono_r 2 o 8 ltac:(lia) ltac:(lia)). pose proof (Z.pow_pos_nonneg 2 o ltac:(lia) ltac:(lia)).
  assert (Hv : validate_request s (mkReq o 0 (Some cpu)) (Some f) = true).
  { unfold validate_request. cbn [order rclass rlocal]. rewrite Hc, Z.shiftl_1_l. unfold LLFREE_TREE_ORDER.
    rewrite (proj2 (Z.ltb_ge 12 o)), (proj2 (Nat.leb_gt _ _)), !(proj2 (Z.ltb_ge _ _)) by lia. by apply Z.eqb_eq. }
  destruct (llfree_put_step llfree_simple_policy s f (mkReq o 0 (Some cpu)) Hinv ltac:(cbn; lia) Hf) as [[_ H']|[Hfree _]]; [congruence|].
  destruct (llfree_put _ _ _ _) as [r s1]. cbn [fst snd order] in *.
  destruct Hfree as [(H1 & H2 & H3 & H4 & _ & H5)|(_ & _ & Hex)]; cbn [fst snd order] in *.
  - rewrite H1. eexists. split; [done|]. split_and!; try done. split; [done|]. by rewrite (same_conf_locals _ _ _ H3).
  - destruct Hex as (q & Hq & Ht); [lia|]. by rewrite Hall in Ht.
Qed.

#[export] Instance llfree_frame_allocator : FrameAllocator llfree_t := {
  fa_init := pmm_llfree_init;
  fa_get := pmm_llfree_get;
  fa_put := pmm_llfree_put;
  fa_ok := pmm_llfree_ok;
  fa_frames s := frames (lower s);
  fa_free s := lfree (lower s);
  fa_init_ok := pmm_llfree_init_ok;
  fa_free_managed s q Hs := lfree_range (lower s) q (sh_lower s (iv_shape s no_debt (proj1 Hs)));
  fa_get_some := pmm_llfree_get_some;
  fa_get_none := pmm_llfree_get_none;
  fa_put_ok := pmm_llfree_put_ok;
}.

(** ** Memory map and physical memory *)

Record memmap_entry := mkEntry { e_base : Z; e_length : Z; e_type : Z }.
Definition LIMINE_MEMMAP_USABLE := 0.

(** [upd f i v] is [f] with the entry [i] set. *)
Definition upd (f : Z -> Z) (i v : Z) : Z -> Z := fun j => if j =? i then v else f j.

(** [memset(phys_to_virt(p), 0, PAGE_SIZE)]. *)
Definition zero_page (p : Z) (m : Z -> Z) : Z -> Z := fun a => if (p <=? a) && (a <? p + PAGE_SIZE) then 0 else m a.

(** ** The DMA reserve below 4 GiB *)

Record dma32_t := mkDma { g_dma32_base : Z; g_dma32_bytes : Z; g_dma32_used : Z }.

Definition DMA32_RESERVE_BYTES := 3 * 1024 * 1024.

Definition dma32_best (best : Z * Z) (e : memmap_entry) : Z * Z :=
  if negb (e_type e =? LIMINE_MEMMAP_USABLE) || (2 ^ 32 <=? e_base e) || (U64_MAX - e_base e <? e_length e) then best else
  let start := PAGE_ALIGN_UP (e_base e) in
  let start := if start <? 0x100000 then 0x100000 else start in
  let end_ := e_base e + e_length e in
  let end_ := if 2 ^ 32 <? end_ then 2 ^ 32 else end_ in
  let end_ := PAGE_ALIGN_DOWN end_ in
  if (start <? end_) && (best.2 - best.1 <? end_ - start) then (start, end_) else best.

Definition reserve_dma32 (mmap : list memmap_entry) : dma32_t :=
  let best := foldl dma32_best (0, 0) mmap in
  let bytes := PAGE_ALIGN_DOWN ((best.2 - best.1) / 2) in
  let bytes := if DMA32_RESERVE_BYTES <? bytes then DMA32_RESERVE_BYTES else bytes in
  if bytes <? 16 * PAGE_SIZE then mkDma 0 0 0 else mkDma (best.2 - bytes) bytes 0.

Definition pmm_dma32_reserve_alloc (pages : Z) (d : dma32_t) : option Z * dma32_t :=
  if (pages =? 0) || (DMA32_RESERVE_BYTES / PAGE_SIZE <? pages) then (None, d) else
  let bytes := pages * PAGE_SIZE in
  if bytes <=? u64 (g_dma32_bytes d - g_dma32_used d) then
    (Some (g_dma32_base d + g_dma32_used d), mkDma (g_dma32_base d) (g_dma32_bytes d) (g_dma32_used d + bytes))
  else (None, d).

(** ** Size of the metadata of LLFree, with the structure sizes of the x86-64 ABI:
    a [tree_t] has 4 bytes, an [entry_t] 64, a [local_t] 256 after alignment. *)

Definition trees_metadata_size (n : Z) : Z := Lower.align_up (4 * div_ceil n LLFREE_TREE_SIZE) 64.

Definition ll_local_size (classing : list (Z * nat)) : Z :=
  Lower.align_up 256 64 + 64 * Z.of_nat (foldr (fun c n => (c.2 + n)%nat) 0%nat classing).

Definition meta_total (total_frames : Z) : Z :=
  ll_local_size (llfree_classing_simple MAX_CPUS) + trees_metadata_size total_frames + lower_metadata_size total_frames.

(** ** The allocator *)

Definition PMM_REF_MAX_FRAMES := 2 ^ 22.
Definition ZPOOL_SIZE : nat := 32.

(** [g_zpool] holds the entries below [g_zpool_top], the top first. *)
Record pmm_t {A : Type} := mkPmm {
  llf : A;
  g_total_frames : Z;
  g_free_frames : Z;
  g_usable_pages : Z;
  g_alloc_total : Z;
  g_free_total : Z;
  g_first_frame : Z;
  g_dma32 : dma32_t;
  g_frame_refs : Z -> Z;
  g_zpool : list Z;
  mem : Z -> Z;
}.
#[global] Arguments pmm_t : clear implicits.

(** Smallest [order] with [n <= 2^order]; the loop doubles [p] at most 64 times. *)
Fixpoint order_loop (fuel : nat) (order p n : Z) : Z :=
  match fuel with
  | O => order
  | S fuel => if p <? n then order_loop fuel (u8 (order + 1)) (u64 (Z.shiftl p 1)) n else order
  end.

Definition order_for_pages (n : Z) : Z := if n =? 0 then 0 else order_loop 65 0 1 n.

Section pmm.
Context `{FA : FrameAllocator A}.
Implicit Type s : pmm_t A.

(** The fields an operation changes. *)
Definition set_llf (v : A) s : pmm_t A :=
  mkPmm A v (g_total_frames s) (g_free_frames s) (g_usable_pages s) (g_alloc_total s) (g_free_total s)
    (g_first_frame s) (g_dma32 s) (g_frame_refs s) (g_zpool s) (mem s).
Definition set_refs (v : Z -> Z) s : pmm_t A :=
  mkPmm A (llf s) (g_total_frames s) (g_free_frames s) (g_usable_pages s) (g_alloc_total s) (g_free_total s)
    (g_first_frame s) (g_dma32 s) v (g_zpool s) (mem s).
Definition set_zpool (v : list Z) s : pmm_t A :=
  mkPmm A (llf s) (g_total_frames s) (g_free_frames s) (g_usable_pages s) (g_alloc_total s) (g_free_total s)
    (g_first_frame s) (g_dma32 s) (g_frame_refs s) v (mem s).
Definition set_mem (v : Z -> Z) s : pmm_t A :=
  mkPmm A (llf s) (g_total_frames s) (g_free_frames s) (g_usable_pages s) (g_alloc_total s) (g_free_total s)
    (g_first_frame s) (g_dma32 s) (g_frame_refs s) (g_zpool s) v.
(** [g_free_frames -= n; g_alloc_total += n]. *)
Definition count_alloc (n : Z) s : pmm_t A :=
  mkPmm A (llf s) (g_total_frames s) (u64 (g_free_frames s - n)) (g_usable_pages s) (u64 (g_alloc_total s + n))
    (g_free_total s) (g_first_frame s) (g_dma32 s) (g_frame_refs s) (g_zpool s) (mem s).
(** [g_free_frames += n; g_free_total += n]. *)
Definition count_free (n : Z) s : pmm_t A :=
  mkPmm A (llf s) (g_total_frames s) (u64 (g_free_frames s + n)) (g_usable_pages s) (g_alloc_total s)
    (u64 (g_free_total s + n)) (g_first_frame s) (g_dma32 s) (g_frame_refs s) (g_zpool s) (mem s).

Definition pmm_ref_index s (phys : Z) : Z := u32 (u64 (Z.shiftr phys PAGE_SHIFT - g_first_frame s)).

Definition set_ref (i v : Z) s : pmm_t A := set_refs (upd (g_frame_refs s) i v) s.

(** Store [v] as the count of the page at [phys], if the table has an entry for it. *)
Definition store_ref (v : Z) s (phys : Z) : pmm_t A :=
  let i := pmm_ref_index s phys in if i <? PMM_REF_MAX_FRAMES then set_ref i v s else s.

Definition pmm_ref_set s (phys : Z) : pmm_t A := store_ref 1 s phys.

Definition phys_of s (f : Z) : Z := u64 (Z.shiftl (u64 (f + g_first_frame s)) PAGE_SHIFT).

Definition pmm_alloc (cpu : nat) s : option Z * pmm_t A :=
  match fa_get cpu 0 (llf s) with
  | (None, a) => (None, set_llf a s)
  | (Some f, a) =>
      let s := count_alloc 1 (set_llf a s) in
      let phys := phys_of s f in (Some phys, pmm_ref_set s phys)
  end.

Definition pmm_alloc_zeroed (cpu : nat) s : option Z * pmm_t A :=
  match g_zpool s with
  | phys :: rest => (Some phys, pmm_ref_set (count_alloc 1 (set_zpool rest s)) phys)
  | [] =>
      match pmm_alloc cpu s with
      | (None, s) => (None, s)
      | (Some phys, s) => (Some phys, set_mem (zero_page phys (mem s)) s)
      end
  end.

Definition pmm_retain (phys : Z) s : bool * pmm_t A :=
  if phys =? 0 then (false, s) else
  let i := pmm_ref_index s phys in
  if PMM_REF_MAX_FRAMES <=? i then (false, s) else
  let old := g_frame_refs s i in
  if (old =? 0) || (old =? 65535) then (false, s) else (true, set_ref i (u16 (old + 1)) s).

Definition pmm_ref_count (phys : Z) s : Z :=
  if phys =? 0 then 0 else
  let i := pmm_ref_index s phys in if i <? PMM_REF_MAX_FRAMES then g_frame_refs s i else 0.

(** The second half of [pmm_free] and of [pmm_free_contiguous]. *)
Definition put_frames (cpu : nat) (phys order : Z) s : pmm_t A :=
  let f := u64 (Z.shiftr phys PAGE_SHIFT - g_first_frame s) in
  let '(ok, a) := fa_put cpu f order (llf s) in
  let s := set_llf a s in if ok then count_free (Z.shiftl 1 order) s else s.

Definition pmm_free (cpu : nat) (phys : Z) s : pmm_t A :=
  if phys =? 0 then s else
  let i := pmm_ref_index s phys in
  if i <? PMM_REF_MAX_FRAMES then
    let old := g_frame_refs s i in
    let s := set_ref i (u16 (old - 1)) s in
    if old =? 0 then set_ref i (u16 (g_frame_refs s i + 1)) s
    else if 1 <? old then s
    else put_frames cpu phys 0 s
  else put_frames cpu phys 0 s.

(** The pages of a block. *)
Definition block_pages (phys order : Z) : list Z := (fun i => u64 (phys + i * PAGE_SIZE)) <$> seqZ 0 (Z.shiftl 1 order).

Definition LLFREE_MAX_ORDER := 12.

Definition pmm_alloc_contiguous (cpu : nat) (n : Z) s : option Z * pmm_t A :=
  if n =? 0 then (None, s) else
  if n =? 1 then pmm_alloc cpu s else
  let order := order_for_pages n in
  if LLFREE_MAX_ORDER <? order then (None, s) else
  match fa_get cpu order (llf s) with
  | (None, a) => (None, set_llf a s)
  | (Some f, a) =>
      let s := count_alloc (Z.shiftl 1 order) (set_llf a s) in
      let phys := phys_of s f in (Some phys, foldl pmm_ref_set s (block_pages phys order))
  end.

Definition pmm_free_contiguous (cpu : nat) (phys n : Z) s : pmm_t A :=
  if (phys =? 0) || (n =? 0) then s else
  if n =? 1 then pmm_free cpu phys s else
  let order := order_for_pages n in
  if LLFREE_MAX_ORDER <? order then s else
  put_frames cpu phys order (foldl (store_ref 0) s (block_pages phys order)).

(** ** Initialisation *)

(** The loop that picks the largest usable region outside the DMA reserve. *)
Definition pick_region (d : dma32_t) (best : Z * Z) (e : memmap_entry) : Z * Z :=
  if negb (e_type e =? LIMINE_MEMMAP_USABLE) then best else
  if (U64_MAX - e_base e <? e_length e) || (U64_MAX - PAGE_SIZE <? e_base e) then best else
  let start := PAGE_ALIGN_UP (e_base e) in
  let end_ := PAGE_ALIGN_DOWN (e_base e + e_length e) in
  let top := g_dma32_base d + g_dma32_bytes d in
  let '(start, end_) :=
    if negb (g_dma32_bytes d =? 0) && (start <? top) && (g_dma32_base d <? end_) then
      let before := if start <? g_dma32_base d then g_dma32_base d - start else 0 in
      let after := if top <? end_ then end_ - top else 0 in
      if before <? after then (top, end_) else (start, g_dma32_base d)
    else (start, end_) in
  if (start <? end_) && (best.2 <? end_ - start) then (start, end_ - start) else best.

Definition highest_address (mmap : list memmap_entry) : Z :=
  foldl (fun h e => if e_type e =? LIMINE_MEMMAP_USABLE then
                      let top := u64 (e_base e + e_length e) in if h <? top then top else h
                    else h) 0 mmap.

Definition usable_pages (mmap : list memmap_entry) : Z :=
  foldl (fun n e => if e_type e =? LIMINE_MEMMAP_USABLE then u64 (n + Z.shiftr (e_length e) PAGE_SHIFT) else n) 0 mmap.

Fixpoint fill_zpool (fuel : nat) (cpu : nat) s : pmm_t A :=
  match fuel with
  | O => s
  | S fuel =>
      match pmm_alloc cpu s with
      | (None, s) => s
      | (Some phys, s) => fill_zpool fuel cpu (set_zpool (phys :: g_zpool s) (set_mem (zero_page phys (mem s)) s))
      end
  end.

(** [None] where [pmm_init] reports an error and leaves no allocator. *)
Definition pmm_init (cpu : nat) (mmap : list memmap_entry) (kernel_end_phys : Z) (m : Z -> Z) : option (pmm_t A) :=
  let total := Z.shiftr (highest_address mmap) PAGE_SHIFT in
  let meta := meta_total total in
  let d := reserve_dma32 mmap in
  let '(region_base, region_len) := foldl (pick_region d) (0, 0) mmap in
  if region_base =? 0 then None else
  let region_end := region_base + region_len in
  let meta_phys := if (region_base <=? kernel_end_phys) && (kernel_end_phys <? region_end)
                   then PAGE_ALIGN_UP kernel_end_phys else region_base in
  if (region_end <? meta_phys) || (region_end - meta_phys <? meta) ||
     (region_end - meta_phys - meta <? 513 * PAGE_SIZE) then None else
  let first := Z.shiftr (meta_phys + meta + PAGE_SIZE - 1) PAGE_SHIFT in
  let managed := Z.shiftr region_end PAGE_SHIFT - first in
  if managed <? 512 then None else
  match fa_init managed with
  | None => None
  | Some a => Some (fill_zpool ZPOOL_SIZE cpu (mkPmm A a total managed (usable_pages mmap) 0 0 first d (fun _ => 0) [] m))
  end.

End pmm.

(** ** References

    [live s f] is the number of references the kernel holds to the frame [f]: the
    count of the table, or one for an allocated frame the table does not reach;
    the pages of the zero pool are held by the allocator itself. *)

Section spec.
Context `{FA : FrameAllocator A}.
Implicit Type s : pmm_t A.

Definition page s (f : Z) : Z := (g_first_frame s + f) * PAGE_SIZE.

Definition in_use s (f : Z) : bool := (0 <=? f) && (f <? fa_frames (llf s)) && negb (fa_free (llf s) f).

Definition pooled s (f : Z) : bool := bool_decide (page s f ∈ g_zpool s).

Definition live s (f : Z) : Z :=
  if pooled s f then 0 else
  if (0 <=? f) && (f <? PMM_REF_MAX_FRAMES) then g_frame_refs s f else if in_use s f then 1 else 0.

Definition nfree s : Z := Z.of_nat (count_if (fa_free (llf s)) (seqZ 0 (fa_frames (llf s)))).

(** A page of the pool: allocated, with one reference, and all zero. *)
Record pool_page s (p f : Z) : Prop := {
  pp_page : p = page s f;
  pp_used : in_use s f = true;
  pp_ref : f < PMM_REF_MAX_FRAMES -> g_frame_refs s f = 1;
  pp_zero a : p <= a < p + PAGE_SIZE -> mem s a = 0;
}.

(** [k] counts the pages handed out from the pool. *)
Record pmm_ok s (k : Z) : Prop := {
  po_fa : fa_ok (llf s);
  po_first : 1 <= g_first_frame s /\ 0 <= fa_frames (llf s) /\ g_first_frame s + fa_frames (llf s) <= 2 ^ 32;
  po_refs f : 0 <= f < PMM_REF_MAX_FRAMES -> 0 <= g_frame_refs s f <= 65535;
  po_used f : 0 <= f < PMM_REF_MAX_FRAMES -> (0 <? g_frame_refs s f) = in_use s f;
  po_pool p : p ∈ g_zpool s -> exists f, pool_page s p f;
  po_nodup : NoDup (g_zpool s);
  po_count : g_free_frames s = u64 (nfree s - k);
}.

Definition same_memory s s' : Prop :=
  g_first_frame s' = g_first_frame s /\ fa_frames (llf s') = fa_frames (llf s).

Lemma page_index s f : 1 <= g_first_frame s -> 0 <= f -> g_first_frame s + f < 2 ^ 32 ->
  pmm_ref_index s (page s f) = f /\ u64 (Z.shiftr (page s f) PAGE_SHIFT - g_first_frame s) = f /\ phys_of s f = page s f /\ page s f <> 0.
Proof.
  intros Hg Hf Hb. unfold pmm_ref_index, phys_of, page, PAGE_SHIFT, PAGE_SIZE.
  rewrite Z.shiftr_div_pow2 by lia. change (2 ^ 12) with 4096. rewrite Z.div_mul by lia.
  replace (g_first_frame s + f - g_first_frame s) with f by lia.
  rewrite (u64_small f) by (unfold is_u64; lia). rewrite (u32_small f) by (unfold is_u32; lia).
  rewrite (u64_small (f + _)) by (unfold is_u64; lia). rewrite Z.shiftl_mul_pow2, u64_small by (unfold is_u64; lia).
  lia.
Qed.

Lemma page_index_ok s k f : pmm_ok s k -> 0 <= f < fa_frames (llf s) ->
  pmm_ref_index s (page s f) = f /\ u64 (Z.shiftr (page s f) PAGE_SHIFT - g_first_frame s) = f /\ phys_of s f = page s f /\ page s f <> 0.
Proof. intros Hok Hf. pose proof (po_first _ _ Hok). apply page_index; lia. Qed.

Lemma page_inj s f g : page s f = page s g -> f = g.
Proof. unfold page, PAGE_SIZE. lia. Qed.

Lemma in_use_true s f : in_use s f = true <-> 0 <= f < fa_frames (llf s) /\ fa_free (llf s) f = false.
Proof. unfold in_use. rewrite !andb_true_iff, negb_true_iff, Z.leb_le, Z.ltb_lt. tauto. Qed.

Lemma live_nonneg s k f : pmm_ok s k -> 0 <= live s f.
Proof.
  intros Hok. unfold live. destruct (pooled s f); [lia|]. destruct (_ && _) eqn:H; [|destruct (in_use s f); lia].
  dest_bool. apply (po_refs _ _ Hok). lia.
Qed.

(** A frame is referenced when it is allocated and not in the pool. *)
Lemma live_pos s k f : pmm_ok s k -> 0 < live s f <-> in_use s f = true /\ pooled s f = false.
Proof.
  intros Hok. unfold live. destruct (pooled s f); [split; [lia|intros [_ [=]]]|].
  destruct (_ && _) eqn:H; [|destruct (in_use s f); split; try lia; intros [[=] _]].
  dest_bool. rewrite <-(po_used _ _ Hok) by lia. rewrite Z.ltb_lt. tauto.
Qed.

(** ** Allocating and releasing a block of frames *)

Lemma pool_page_ext s s' p f :
  pool_page s p f -> same_memory s s' -> in_use s' f = in_use s f ->
  (f < PMM_REF_MAX_FRAMES -> g_frame_refs s' f = g_frame_refs s f) ->
  (forall a, p <= a < p + PAGE_SIZE -> mem s' a = mem s a) -> pool_page s' p f.
Proof.
  intros [Hp Hu Hr Hz] [Hg _] Hu' Hr' Hm. split.
  - rewrite Hp. unfold page. by rewrite Hg.
  - by rewrite Hu'.
  - intros Hf. by rewrite Hr', Hr.
  - intros a Ha. by rewrite Hm, Hz.
Qed.

Lemma pooled_ext s s' f : same_memory s s' -> g_zpool s' = g_zpool s -> pooled s' f = pooled s f.
Proof. intros [Hg _] Hz. unfold pooled, page. by rewrite Hg, Hz. Qed.

Lemma pooled_used s k f : pmm_ok s k -> pooled s f = true -> in_use s f = true /\ (f < PMM_REF_MAX_FRAMES -> g_frame_refs s f = 1).
Proof.
  intros Hok Hp%bool_decide_eq_true. destruct (po_pool _ _ Hok _ Hp) as (g & Hg).
  rewrite (page_inj s f g (pp_page _ _ _ Hg)). split; [apply Hg|apply (pp_ref _ _ _ Hg)].
Qed.

Definition refs_are s s' (f n v : Z) : Prop :=
  forall i, 0 <= i < PMM_REF_MAX_FRAMES -> g_frame_refs s' i = if in_block f n i then v else g_frame_refs s i.

Lemma claim_block s s' k f n :
  pmm_ok s k -> fa_ok (llf s') -> same_memory s s' -> g_zpool s' = g_zpool s -> mem s' = mem s ->
  g_free_frames s' = u64 (g_free_frames s - n) -> 0 <= f -> 0 <= n -> f + n <= fa_frames (llf s) ->
  (forall q, f <= q < f + n -> fa_free (llf s) q = true) ->
  (forall q, fa_free (llf s') q = fa_free (llf s) q && negb (in_block f n q)) -> refs_are s s' f n 1 ->
  pmm_ok s' k /\ forall q, live s' q = if in_block f n q then 1 else live s q.
Proof.
  intros Hok Hfa Hsm Hz Hm Hc Hf Hn Hb Hin Hfree Hr. pose proof Hsm as [Hg Hfr].
  assert (Hu : forall q, in_use s' q = in_use s q || in_block f n q).
  { intros q. unfold in_use. rewrite Hfr, Hfree. destruct (in_block f n q) eqn:Hq; cbn [negb].
    - apply in_block_true in Hq. rewrite andb_false_r, orb_true_r, (proj2 (Z.leb_le 0 q)), (proj2 (Z.ltb_lt _ _)) by lia. done.
    - by rewrite andb_true_r, orb_false_r. }
  assert (Hpool : forall q, pooled s q = true -> in_block f n q = false).
  { intros q Hq. apply not_true_iff_false. intros Hq'%in_block_true. destruct (pooled_used s k q Hok Hq) as [Hq1 _].
    apply in_use_true in Hq1 as [_ Hq1]. by rewrite Hin in Hq1. }
  split; [split|].
  - done.
  - pose proof (po_first _ _ Hok). rewrite Hg, Hfr. lia.
  - intros q Hq. rewrite Hr by done. destruct (in_block f n q); [lia|by apply (po_refs _ _ Hok)].
  - intros q Hq. rewrite Hr, Hu by done. destruct (in_block f n q); [by rewrite orb_true_r|].
    rewrite orb_false_r. by apply (po_used _ _ Hok).
  - rewrite Hz. intros p Hp. destruct (po_pool _ _ Hok p Hp) as (q & Hq). exists q.
    assert (Hpq : pooled s q = true) by (apply bool_decide_eq_true; by rewrite <-(pp_page _ _ _ Hq)).
    pose proof (pp_used _ _ _ Hq) as Hqu. apply in_use_true in Hqu.
    eapply pool_page_ext; [exact Hq|done| | |by rewrite Hm].
    + rewrite Hu, (Hpool q Hpq). by rewrite orb_false_r.
    + intros Hq22. by rewrite Hr, (Hpool q Hpq) by lia.
  - rewrite Hz. apply (po_nodup _ _ Hok).
  - rewrite Hc, (po_count _ _ Hok). unfold nfree. rewrite Hfr.
    rewrite (count_if_block (fa_free (llf s)) (fa_free (llf s')) 0 (fa_frames (llf s)) f n) by
      (first [lia|intros i Hi; rewrite Hfree; first [by rewrite Hin, (proj2 (in_block_true _ _ _))|
        by rewrite (proj2 (in_block_false _ _ _)), andb_true_r]]).
    unfold u64. rewrite Zminus_mod_idemp_l. f_equal. lia.
  - intros q. unfold live. rewrite (pooled_ext s s' q Hsm Hz), Hu. destruct (pooled s q) eqn:Hq; [by rewrite Hpool|].
    destruct (_ && _) eqn:H22; [dest_bool; by rewrite Hr|]. destruct (in_block f n q); [by rewrite orb_true_r|by rewrite orb_false_r].
Qed.

Lemma release_block s s' k f n :
  pmm_ok s k -> fa_ok (llf s') -> same_memory s s' -> g_zpool s' = g_zpool s -> mem s' = mem s ->
  g_free_frames s' = u64 (g_free_frames s + n) -> 0 <= f -> 0 <= n -> f + n <= fa_frames (llf s) ->
  (forall q, f <= q < f + n -> 0 < live s q) ->
  (forall q, fa_free (llf s') q = fa_free (llf s) q || in_block f n q) -> refs_are s s' f n 0 ->
  pmm_ok s' k /\ forall q, live s' q = if in_block f n q then 0 else live s q.
Proof.
  intros Hok Hfa Hsm Hz Hm Hc Hf Hn Hb Hin Hfree Hr. pose proof Hsm as [Hg Hfr].
  assert (Hin' : forall q, f <= q < f + n -> fa_free (llf s) q = false /\ pooled s q = false).
  { intros q Hq. apply Hin, (live_pos s k q Hok) in Hq as [Hq1 Hq2]. by apply in_use_true in Hq1 as [_ ?]. }
  assert (Hu : forall q, in_use s' q = in_use s q && negb (in_block f n q)).
  { intros q. unfold in_use. rewrite Hfr, Hfree. destruct (in_block f n q) eqn:Hq; cbn [negb].
    - by rewrite orb_true_r, !andb_false_r.
    - by rewrite orb_false_r, andb_true_r. }
  assert (Hpool : forall q, pooled s q = true -> in_block f n q = false).
  { intros q Hq. apply not_true_iff_false. intros Hq'%in_block_true. destruct (Hin' q Hq'). congruence. }
  split; [split|].
  - done.
  - pose proof (po_first _ _ Hok). rewrite Hg, Hfr. lia.
  - intros q Hq. rewrite Hr by done. destruct (in_block f n q); [lia|by apply (po_refs _ _ Hok)].
  - intros q Hq. rewrite Hr, Hu by done. destruct (in_block f n q); [by rewrite andb_false_r|].
    rewrite andb_true_r. by apply (po_used _ _ Hok).
  - rewrite Hz. intros p Hp. destruct (po_pool _ _ Hok p Hp) as (q & Hq). exists q.
    assert (Hpq : pooled s q = true) by (apply bool_decide_eq_true; by rewrite <-(pp_page _ _ _ Hq)).
    pose proof (pp_used _ _ _ Hq) as Hqu. apply in_use_true in Hqu.
    eapply pool_page_ext; [exact Hq|done| | |by rewrite Hm].
    + rewrite Hu, (Hpool q Hpq). by rewrite andb_true_r.
    + intros Hq22. by rewrite Hr, (Hpool q Hpq) by lia.
  - rewrite Hz. apply (po_nodup _ _ Hok).
  - rewrite Hc, (po_count _ _ Hok). unfold nfree. rewrite Hfr.
    rewrite (count_if_block (fa_free (llf s')) (fa_free (llf s)) 0 (fa_frames (llf s)) f n) by
      (first [lia|intros i Hi; rewrite Hfree; first [by rewrite (proj1 (Hin' i Hi)), (proj2 (in_block_true _ _ _))|
        by rewrite (proj2 (in_block_false _ _ _)), orb_false_r]]).
    unfold u64. rewrite Zplus_mod_idemp_l. f_equal. lia.
  - intros q. unfold live. rewrite (pooled_ext s s' q Hsm Hz), Hu. destruct (pooled s q) eqn:Hq; [by rewrite Hpool|].
    destruct (_ && _) eqn:H22; [dest_bool; by rewrite Hr|]. destruct (in_block f n q); [by rewrite andb_false_r|by rewrite andb_true_r].
Qed.

(** Storing the counts of a list of frames. *)
Lemma store_refs_spec v l s :
  1 <= g_first_frame s -> (forall f, f ∈ l -> 0 <= f /\ g_first_frame s + f < 2 ^ 32) ->
  exists r, foldl (store_ref v) s (page s <$> l) = set_refs r s /\
    forall i, 0 <= i < PMM_REF_MAX_FRAMES -> r i = if bool_decide (i ∈ l) then v else g_frame_refs s i.
Proof.
  revert s. induction l as [|f l IH]; intros s Hg Hl; cbn [fmap list_fmap foldl].
  { exists (g_frame_refs s). split; [by destruct s|done]. }
  destruct (Hl f (list_elem_of_here _ _)) as [Hf Hb]. destruct (page_index s f Hg Hf Hb) as (Hidx & _).
  unfold store_ref at 2. rewrite Hidx. set (s1 := if f <? PMM_REF_MAX_FRAMES then set_ref f v s else s).
  assert (Hs1 : g_first_frame s1 = g_first_frame s) by (subst s1; by destruct (_ <? _)).
  destruct (IH s1) as (r & Hr & Hri); [lia|intros g Hg'; rewrite Hs1; apply Hl; by right|].
  assert (Hpg : page s1 <$> l = page s <$> l) by (unfold page; by rewrite Hs1).
  rewrite Hpg in Hr. exists r. split.
  - etransitivity; [exact Hr|]. subst s1. by destruct (_ <? _).
  - intros i Hi. rewrite Hri by done. subst s1. destruct (Z.ltb_spec f PMM_REF_MAX_FRAMES).
    + unfold set_ref, set_refs, upd. cbn [g_frame_refs]. destruct (Z.eqb_spec i f) as [->|Hne].
      * rewrite (bool_decide_eq_true_2 (f ∈ f :: l)) by by left. by case_bool_decide.
      * rewrite (bool_decide_ext (i ∈ f :: l) (i ∈ l)); [done|]. rewrite elem_of_cons. tauto.
    + rewrite (bool_decide_ext (i ∈ f :: l) (i ∈ l)); [done|]. rewrite elem_of_cons. split; [intros [->|]; [lia|done]|by right].
Qed.

Lemma block_pages_spec s f o : 1 <= g_first_frame s -> 0 <= f -> 0 <= o -> g_first_frame s + f + 2 ^ o <= 2 ^ 32 ->
  block_pages (page s f) o = page s <$> seqZ f (2 ^ o).
Proof.
  intros Hg Hf Ho Hb. unfold block_pages. rewrite Z.shiftl_1_l.
  replace (seqZ f (2 ^ o)) with (Z.add f <$> seqZ 0 (2 ^ o)) by (rewrite fmap_add_seqZ; f_equal; lia).
  rewrite <-list_fmap_compose. apply list_fmap_ext. intros i x Hx%lookup_seqZ. unfold compose, page, PAGE_SIZE.
  rewrite u64_small by (unfold is_u64; lia). lia.
Qed.

(** The counts of a block of [2^o] frames at [f]. *)
Lemma store_block v s s1 k f o :
  pmm_ok s k -> same_memory s s1 -> g_frame_refs s1 = g_frame_refs s -> 0 <= o -> 0 <= f -> f + 2 ^ o <= fa_frames (llf s) ->
  exists r, foldl (store_ref v) s1 (block_pages (page s f) o) = set_refs r s1 /\ refs_are s (set_refs r s1) f (2 ^ o) v.
Proof.
  intros Hok [Hg Hfr] Hrefs Ho Hf Hb. pose proof (po_first _ _ Hok).
  assert (Hpg : page s f = page s1 f) by (unfold page; by rewrite Hg). rewrite Hpg.
  rewrite block_pages_spec by lia.
  destruct (store_refs_spec v (seqZ f (2 ^ o)) s1) as (r & Hr & Hri); [lia|intros g Hg'%elem_of_seqZ; lia|].
  exists r. split; [done|]. intros i Hi. unfold set_refs. cbn [g_frame_refs]. rewrite Hri, Hrefs by done.
  destruct (in_block f (2 ^ o) i) eqn:Hib.
  - rewrite bool_decide_eq_true_2; [done|]. apply elem_of_seqZ. by apply in_block_true.
  - rewrite bool_decide_eq_false_2; [done|]. rewrite elem_of_seqZ. by apply in_block_false.
Qed.

(** What an allocation of [n] frames promises. *)
Definition alloc_spec s (k n : Z) (res : option Z * pmm_t A) : Prop :=
  match res with
  | (Some p, s') => exists f, p = page s f /\ 0 <= f /\ f + n <= fa_frames (llf s) /\ pmm_ok s' k /\ same_memory s s' /\
      g_zpool s' = g_zpool s /\ mem s' = mem s /\ (forall q, f <= q < f + n -> live s q = 0 /\ pooled s q = false) /\
      forall q, live s' q = if in_block f n q then 1 else live s q
  | (None, s') => pmm_ok s' k /\ same_memory s s' /\ g_zpool s' = g_zpool s /\ mem s' = mem s /\ forall q, live s' q = live s q
  end.

Lemma failed_get s k a :
  pmm_ok s k -> fa_ok a -> fa_frames a = fa_frames (llf s) -> (forall q, fa_free a q = fa_free (llf s) q) ->
  pmm_ok (set_llf a s) k /\ same_memory s (set_llf a s) /\ forall q, live (set_llf a s) q = live s q.
Proof.
  intros Hok Hfa Hfr Hfree. assert (Hu : forall q, in_use (set_llf a s) q = in_use s q).
  { intros q. unfold in_use, set_llf. cbn [llf]. by rewrite Hfr, Hfree. }
  split_and!; [split|done|].
  - done.
  - cbn [llf set_llf g_first_frame]. rewrite Hfr. apply (po_first _ _ Hok).
  - apply (po_refs _ _ Hok).
  - intros f Hf. rewrite Hu. by apply (po_used _ _ Hok).
  - intros p Hp. destruct (po_pool _ _ Hok p Hp) as (q & Hq). exists q. by eapply pool_page_ext.
  - apply (po_nodup _ _ Hok).
  - cbn [set_llf g_free_frames]. rewrite (po_count _ _ Hok). unfold nfree. cbn [llf set_llf]. rewrite Hfr. do 3 f_equal.
    apply count_if_ext. by intros.
  - intros q. unfold live. by rewrite Hu.
Qed.

(** Allocation of a block, as [pmm_alloc] and [pmm_alloc_contiguous] do it. *)
Lemma get_block cpu s k o :
  pmm_ok s k -> 0 <= o <= 9 ->
  alloc_spec s k (2 ^ o)
    (match fa_get cpu o (llf s) with
     | (None, a) => (None, set_llf a s)
     | (Some f, a) => let s := count_alloc (2 ^ o) (set_llf a s) in
                      (Some (phys_of s f), foldl pmm_ref_set s (block_pages (phys_of s f) o))
     end).
Proof.
  intros Hok Ho. pose proof (po_fa _ _ Hok) as Hfa. pose proof (Z.pow_pos_nonneg 2 o ltac:(lia) ltac:(lia)).
  destruct (fa_get cpu o (llf s)) as [[f|] a] eqn:Hget.
  - destruct (fa_get_some _ _ _ _ _ Hfa Ho Hget) as (Hfa' & Hfr & Hf & Hb & _ & Hin & Hfree). cbv zeta.
    set (s1 := count_alloc _ _). assert (Hsm : same_memory s s1) by done.
    destruct (page_index_ok s k f Hok ltac:(lia)) as (_ & _ & Hph & _). change (phys_of s1 f) with (phys_of s f). rewrite Hph.
    destruct (store_block 1 s s1 k f o Hok Hsm eq_refl ltac:(lia) Hf Hb) as (r & Hr & Hrefs).
    change (foldl pmm_ref_set) with (foldl (store_ref (A := A) 1)). rewrite Hr.
    destruct (claim_block s (set_refs r s1) k f (2 ^ o)) as [Hok' Hlive]; try done; try lia.
    exists f. split_and!; try done. intros q Hq.
    destruct (Z.le_gt_cases (live s q) 0) as [Hle|Hgt]; [|apply (live_pos s k q Hok) in Hgt as [Hgt _]; apply in_use_true in Hgt as [_ Hgt]; by rewrite Hin in Hgt].
    split; [pose proof (live_nonneg s k q Hok); lia|]. apply not_true_iff_false. intros Hp.
    destruct (pooled_used s k q Hok Hp) as [Hu _]. apply in_use_true in Hu as [_ Hu]. by rewrite Hin in Hu.
  - destruct (fa_get_none _ _ _ _ Hfa Ho Hget) as (Hfa' & Hfr & Hfree).
    destruct (failed_get s k a Hok Hfa' Hfr Hfree) as (H1 & H2 & H3). by split_and!.
Qed.

Lemma u64_u64 z : u64 (u64 z) = u64 z.
Proof. apply u64_small, u64_range. Qed.

Lemma pmm_alloc_ok cpu s k : pmm_ok s k -> alloc_spec s k 1 (pmm_alloc cpu s).
Proof.
  intros Hok. pose proof (get_block cpu s k 0 Hok ltac:(lia)) as H. change (2 ^ 0) with 1 in H. unfold pmm_alloc.
  destruct (fa_get cpu 0 (llf s)) as [[f|] a]; [|done]. cbv zeta in *. unfold block_pages in H.
  change (seqZ 0 (Z.shiftl 1 0)) with [0] in H. cbn [fmap list_fmap foldl] in H.
  rewrite Z.mul_0_l, Z.add_0_r in H. unfold phys_of in H at 2. rewrite u64_u64 in H. exact H.
Qed.

(** [upd] on a block of one frame. *)
Lemma in_block_one f q : in_block f 1 q = (q =? f).
Proof. apply eq_true_iff_eq. rewrite in_block_true, Z.eqb_eq. lia. Qed.

Definition pmm_inv s : Prop := exists k, pmm_ok s k.

(** What the allocation of a zeroed page promises. *)
Definition zeroed_spec s (res : option Z * pmm_t A) : Prop :=
  match res with
  | (Some p, s') => exists f, p = page s f /\ 0 <= f < fa_frames (llf s) /\ same_memory s s' /\ live s f = 0 /\
      (forall q, live s' q = upd (live s) f 1 q) /\ forall a, mem s' a = zero_page p (mem s) a
  | (None, s') => same_memory s s' /\ mem s' = mem s /\ forall q, live s' q = live s q
  end.

Lemma set_mem_ok s k m :
  pmm_ok s k -> (forall p a, p ∈ g_zpool s -> p <= a < p + PAGE_SIZE -> m a = 0) -> pmm_ok (set_mem m s) k.
Proof.
  intros [] Hm. split; try done. intros p Hp. destruct (po_pool0 p Hp) as (f & []). exists f. split; try done.
  intros a Ha. by apply (Hm p).
Qed.

(** A page taken from the pool. *)
Lemma take_pool s k p rest :
  pmm_ok s k -> g_zpool s = p :: rest ->
  pmm_ok (pmm_ref_set (count_alloc 1 (set_zpool rest s)) p) (k + 1) /\
  zeroed_spec s (Some p, pmm_ref_set (count_alloc 1 (set_zpool rest s)) p).
Proof.
  intros Hok Hz. destruct (po_pool _ _ Hok p) as (f & Hp); [rewrite Hz; by left|].
  pose proof (pp_used _ _ _ Hp) as Hu. apply in_use_true in Hu as [Hf Hfree].
  destruct (page_index_ok s k f Hok Hf) as (Hidx & _). rewrite <-(pp_page _ _ _ Hp) in Hidx.
  set (s1 := count_alloc 1 (set_zpool rest s)). set (s2 := pmm_ref_set s1 p).
  assert (Hr : forall i, 0 <= i < PMM_REF_MAX_FRAMES -> g_frame_refs s2 i = g_frame_refs s i).
  { intros i Hi. unfold s2, pmm_ref_set, store_ref. change (pmm_ref_index s1 p) with (pmm_ref_index s p). rewrite Hidx.
    destruct (Z.ltb_spec f PMM_REF_MAX_FRAMES); [|done]. unfold set_ref, set_refs, upd. cbn [g_frame_refs].
    destruct (Z.eqb_spec i f) as [->|]; [|done]. by rewrite (pp_ref _ _ _ Hp). }
  assert (Hs2 : llf s2 = llf s /\ g_zpool s2 = rest /\ mem s2 = mem s /\ g_first_frame s2 = g_first_frame s /\
                g_free_frames s2 = u64 (g_free_frames s - 1)).
  { unfold s2, pmm_ref_set, store_ref. by destruct (_ <? _). }
  destruct Hs2 as (Hllf & Hzp & Hm & Hg & Hc). assert (Hsm : same_memory s s2) by (split; [done|by rewrite Hllf]).
  assert (Hu : forall q, in_use s2 q = in_use s q) by (intros q; unfold in_use; by rewrite Hllf).
  pose proof (po_nodup _ _ Hok) as Hnd. rewrite Hz in Hnd. apply NoDup_cons in Hnd as [Hnin Hnd].
  split; [split|].
  - rewrite Hllf. apply (po_fa _ _ Hok).
  - rewrite Hg, Hllf. apply (po_first _ _ Hok).
  - intros i Hi. rewrite Hr by done. by apply (po_refs _ _ Hok).
  - intros i Hi. rewrite Hr, Hu by done. by apply (po_used _ _ Hok).
  - rewrite Hzp. intros p' Hp'. destruct (po_pool _ _ Hok p') as (g & Hg'); [rewrite Hz; by right|]. exists g.
    pose proof (pp_used _ _ _ Hg') as Hgu. apply in_use_true in Hgu.
    eapply pool_page_ext; [exact Hg'|done|done|intros; apply Hr; lia|by rewrite Hm].
  - by rewrite Hzp.
  - rewrite Hc, (po_count _ _ Hok). unfold nfree, u64. rewrite Hllf, Zminus_mod_idemp_l. f_equal. lia.
  - exists f. split_and!; try done; try apply Hp; try lia.
    + unfold live, pooled. rewrite bool_decide_eq_true_2; [done|]. rewrite Hz, <-(pp_page _ _ _ Hp). by left.
    + intros q. unfold live, upd. rewrite Hu. unfold pooled, page. rewrite Hg, Hzp, Hz. fold (page s q).
      destruct (Z.eqb_spec q f) as [->|Hne].
      * rewrite <-(pp_page _ _ _ Hp), bool_decide_eq_false_2 by done. rewrite (pp_used _ _ _ Hp).
        destruct (_ && _) eqn:H22; [|done]. dest_bool. rewrite Hr by lia. apply (pp_ref _ _ _ Hp). lia.
      * rewrite (bool_decide_ext (page s q ∈ p :: rest) (page s q ∈ rest)).
        -- destruct (bool_decide _); [done|]. destruct (_ && _) eqn:H22; [|done]. dest_bool. apply Hr. lia.
        -- rewrite elem_of_cons. split; [intros [Heq|]; [|done]|by right]. rewrite (pp_page _ _ _ Hp) in Heq. by apply page_inj in Heq.
    + intros a. rewrite Hm. unfold zero_page. destruct (_ && _) eqn:Ha; [|done]. dest_bool. apply (pp_zero _ _ _ Hp). lia.
Qed.

Lemma pmm_alloc_zeroed_ok cpu s k :
  pmm_ok s k -> (exists k', k <= k' <= k + 1 /\ pmm_ok (pmm_alloc_zeroed cpu s).2 k') /\ zeroed_spec s (pmm_alloc_zeroed cpu s).
Proof.
  intros Hok. unfold pmm_alloc_zeroed. destruct (g_zpool s) as [|p rest] eqn:Hz.
  - pose proof (pmm_alloc_ok cpu s k Hok) as H. destruct (pmm_alloc cpu s) as [[p|] s']; cbn [snd].
    + destruct H as (f & -> & Hf & Hb & Hok' & Hsm & Hz' & Hm & Hl0 & Hl). split.
      * exists k. split; [lia|]. apply set_mem_ok; [done|]. intros p a Hp. rewrite Hz', Hz in Hp. by apply not_elem_of_nil in Hp.
      * exists f. split_and!; try done; try lia; [by apply (Hl0 f ltac:(lia))| |by rewrite <-Hm].
        intros q. change (live (set_mem _ s') q) with (live s' q). rewrite Hl, in_block_one. done.
    + destruct H as (H1 & H2 & _ & H3 & H4). split; [exists k; split; [lia|done]|done].
  - destruct (take_pool s k p rest Hok Hz) as [H1 H2]. split; [|done]. exists (k + 1). split; [lia|done].
Qed.

(** ** References: taking and dropping *)

(** Changing the count of a frame that stays allocated. *)
Lemma set_ref_ok s k f v :
  pmm_ok s k -> 0 <= f < PMM_REF_MAX_FRAMES -> 0 < live s f -> 0 < v <= 65535 ->
  pmm_ok (set_ref f v s) k /\ forall q, live (set_ref f v s) q = upd (live s) f v q.
Proof.
  intros Hok Hf Hl Hv. apply (live_pos s k f Hok) in Hl as [Hu Hp].
  assert (Hr : forall q, g_frame_refs (set_ref f v s) q = upd (g_frame_refs s) f v q) by done.
  split; [split|]; try apply Hok.
  - intros q Hq. rewrite Hr. unfold upd. destruct (_ =? _); [lia|by apply (po_refs _ _ Hok)].
  - intros q Hq. rewrite Hr. unfold upd. destruct (Z.eqb_spec q f) as [->|]; [|by apply (po_used _ _ Hok)].
    rewrite (proj2 (Z.ltb_lt 0 v)) by lia. by rewrite <-Hu.
  - intros p Hpp. destruct (po_pool _ _ Hok p Hpp) as (g & Hg). exists g. eapply pool_page_ext; try done.
    intros _. rewrite Hr. unfold upd. destruct (Z.eqb_spec g f) as [->|]; [|done].
    unfold pooled in Hp. apply bool_decide_eq_false in Hp. destruct Hp. by rewrite <-(pp_page _ _ _ Hg).
  - intros q. unfold live. change (pooled (set_ref f v s) q) with (pooled s q). change (in_use (set_ref f v s) q) with (in_use s q).
    rewrite Hr. unfold upd. destruct (Z.eqb_spec q f) as [->|]; [|done]. rewrite Hp.
    by rewrite (proj2 (Z.leb_le 0 f)), (proj2 (Z.ltb_lt f _)) by lia.
Qed.

Lemma live_refs s f : pooled s f = false -> 0 <= f < PMM_REF_MAX_FRAMES -> live s f = g_frame_refs s f.
Proof. intros Hp Hf. unfold live. by rewrite Hp, (proj2 (Z.leb_le 0 f)), (proj2 (Z.ltb_lt f _)) by lia. Qed.

Lemma pmm_retain_ok s k f :
  pmm_ok s k -> 0 <= f < fa_frames (llf s) -> pooled s f = false ->
  let '(ok, s') := pmm_retain (page s f) s in
  ok = (0 <? live s f) && (live s f <? 65535) && (f <? PMM_REF_MAX_FRAMES) /\
  (ok = false -> s' = s) /\
  (ok = true -> pmm_ok s' k /\ same_memory s s' /\ mem s' = mem s /\ g_zpool s' = g_zpool s /\
    forall q, live s' q = upd (live s) f (live s f + 1) q).
Proof.
  intros Hok Hf Hp. destruct (page_index_ok s k f Hok Hf) as (Hidx & _ & _ & Hnz). unfold pmm_retain.
  rewrite (proj2 (Z.eqb_neq _ _) Hnz), Hidx. cbv zeta. destruct (Z.leb_spec PMM_REF_MAX_FRAMES f) as [Hhi|Hlo].
  { rewrite (proj2 (Z.ltb_ge f _)), andb_false_r by done. done. }
  rewrite (proj2 (Z.ltb_lt f _)), andb_true_r, <-(live_refs s f) by (done || lia).
  pose proof (po_refs _ _ Hok f ltac:(lia)) as Hr. rewrite <-(live_refs s f) in Hr by (done || lia).
  destruct (Z.eqb_spec (live s f) 0) as [->|]; [done|]. destruct (Z.eqb_spec (live s f) 65535) as [->|]; [done|]. cbn [orb].
  rewrite (proj2 (Z.ltb_lt 0 _)), (proj2 (Z.ltb_lt _ 65535)) by lia. split_and!; [done|done|]. intros _.
  rewrite u16_small by (unfold is_u16; lia). destruct (set_ref_ok s k f (live s f + 1)) as [H1 H2]; try done; lia.
Qed.

Lemma pmm_retain_false p s s' : pmm_retain p s = (false, s') -> s' = s.
Proof. unfold pmm_retain. cbv zeta. repeat case_raw; by intros [= <-]. Qed.

(** What dropping one reference to [f] promises. *)
Definition drop_spec s k f s' : Prop :=
  pmm_ok s' k /\ same_memory s s' /\ mem s' = mem s /\ g_zpool s' = g_zpool s /\
  forall q, live s' q = upd (live s) f (live s f - 1) q.

Lemma put_block cpu s s1 k f o :
  pmm_ok s k -> 0 <= o <= 8 -> (cpu < MAX_CPUS)%nat -> 0 <= f -> f + 2 ^ o <= fa_frames (llf s) -> f `mod` 2 ^ o = 0 ->
  (forall q, f <= q < f + 2 ^ o -> 0 < live s q) -> (exists r, s1 = set_refs r s) -> refs_are s s1 f (2 ^ o) 0 ->
  let s' := put_frames cpu (page s f) o s1 in
  pmm_ok s' k /\ same_memory s s' /\ mem s' = mem s /\ g_zpool s' = g_zpool s /\
  forall q, live s' q = if in_block f (2 ^ o) q then 0 else live s q.
Proof.
  intros Hok Ho Hcpu Hf Hb Hal Hin [r ->] Hr. cbv zeta. pose proof (Z.pow_pos_nonneg 2 o ltac:(lia) ltac:(lia)).
  destruct (page_index_ok s k f Hok ltac:(lia)) as (_ & Hfr & _). unfold put_frames. cbn [set_refs g_first_frame llf].
  rewrite Hfr. destruct (fa_put_ok cpu f o (llf s)) as (a & -> & Hfa & Hfra & Hfree); try done; [apply (po_fa _ _ Hok)| |].
  { intros q Hq. apply Hin, (live_pos s k q Hok) in Hq as [Hq _]. by apply in_use_true in Hq as [_ ?]. }
  rewrite Z.shiftl_1_l. set (s' := count_free _ _). destruct (release_block s s' k f (2 ^ o)); try done; lia.
Qed.

Lemma pmm_free_ok cpu s k f :
  pmm_ok s k -> (cpu < MAX_CPUS)%nat -> 0 < live s f -> drop_spec s k f (pmm_free cpu (page s f) s).
Proof.
  intros Hok Hcpu Hl. pose proof (live_pos s k f Hok) as Hlp. destruct (proj1 Hlp Hl) as [Hu Hp].
  apply in_use_true in Hu as [Hf Hfree]. destruct (page_index_ok s k f Hok Hf) as (Hidx & _ & _ & Hnz).
  assert (Hput : forall s1, live s f = 1 -> (exists r, s1 = set_refs r s) -> refs_are s s1 f 1 0 ->
                            drop_spec s k f (put_frames cpu (page s f) 0 s1)).
  { intros s1 H1 Hs1 Hr1. destruct (put_block cpu s s1 k f 0) as (G1 & G2 & G3 & G4 & G5); try done; try lia.
    - apply Z.mod_1_r.
    - intros q Hq. by replace q with f by lia.
    - split_and!; try done. intros q. rewrite G5. change (2 ^ 0) with 1. rewrite in_block_one, H1. done. }
  unfold pmm_free. rewrite (proj2 (Z.eqb_neq _ _) Hnz), Hidx. cbv zeta. destruct (Z.ltb_spec f PMM_REF_MAX_FRAMES) as [Hlo|Hhi].
  - rewrite <-(live_refs s f) by (done || lia). pose proof (po_refs _ _ Hok f ltac:(lia)) as Hr. rewrite <-(live_refs s f) in Hr by (done || lia).
    rewrite (proj2 (Z.eqb_neq (live s f) 0)) by lia. rewrite u16_small by (unfold is_u16; lia).
    destruct (Z.ltb_spec 1 (live s f)) as [H1|H1].
    + destruct (set_ref_ok s k f (live s f - 1)) as [G1 G2]; try done; lia.
    + assert (live s f = 1) as H1' by lia. rewrite H1'. apply Hput; [done|by eexists|].
      intros i Hi. rewrite in_block_one. done.
  - apply Hput; [|exists (g_frame_refs s); by destruct s|].
    + unfold live. rewrite Hp, (proj2 (Z.ltb_ge f _)), andb_false_r by done. by rewrite (proj2 (in_use_true s f)).
    + intros i Hi. rewrite in_block_one. destruct (Z.eqb_spec i f); [lia|done].
Qed.

(** Freeing a page that has no reference changes nothing. *)
Lemma pmm_free_twice cpu s k f :
  pmm_ok s k -> 0 <= f < fa_frames (llf s) -> f < PMM_REF_MAX_FRAMES -> pooled s f = false -> live s f = 0 ->
  exists r, pmm_free cpu (page s f) s = set_refs r s /\ forall i, r i = g_frame_refs s i.
Proof.
  intros Hok Hf Hlo Hp Hl. destruct (page_index_ok s k f Hok Hf) as (Hidx & _ & _ & Hnz).
  unfold pmm_free. rewrite (proj2 (Z.eqb_neq _ _) Hnz), Hidx. cbv zeta. rewrite (proj2 (Z.ltb_lt f _)) by done.
  rewrite (live_refs s f) in Hl by (done || lia). rewrite Hl. cbn [Z.eqb]. unfold set_ref. eexists. split; [done|].
  intros i. unfold upd, set_refs. cbn [g_frame_refs]. destruct (Z.eqb_spec i f) as [->|]; [|done]. by rewrite Z.eqb_refl, Hl.
Qed.

(** ** Blocks of contiguous pages *)

Lemma order_loop_spec fuel order n :
  0 <= order -> 1 <= n <= 2 ^ 63 -> (order = 0 \/ 2 ^ (order - 1) < n) -> 64 - order < Z.of_nat fuel ->
  let o := order_loop fuel order (2 ^ order) n in 0 <= o <= 63 /\ n <= 2 ^ o /\ (o = 0 \/ 2 ^ (o - 1) < n).
Proof.
  revert order. induction fuel as [|fuel IH]; intros order Ho Hn Hlt Hfuel.
  - assert (63 < order - 1) by lia. destruct Hlt as [->|Hlt]; [lia|].
    pose proof (Z.pow_le_mono_r 2 63 (order - 1) ltac:(lia) ltac:(lia)). lia.
  - assert (order <= 63).
    { destruct Hlt as [->|Hlt]; [lia|]. apply Z.nlt_ge. intros Hgt.
      pose proof (Z.pow_le_mono_r 2 63 (order - 1) ltac:(lia) ltac:(lia)). lia. }
    cbn [order_loop]. destruct (Z.ltb_spec (2 ^ order) n) as [Hp|Hp]; [|cbv zeta; lia].
    assert (order < 63) by (apply Z.nle_gt; intros ?; pose proof (Z.pow_le_mono_r 2 63 order ltac:(lia) ltac:(lia)); lia).
    rewrite (u8_small (order + 1)) by (unfold is_u8; lia).
    replace (u64 (Z.shiftl (2 ^ order) 1)) with (2 ^ (order + 1)).
    + apply IH; try lia. right. by replace (order + 1 - 1) with order by lia.
    + rewrite Z.shiftl_mul_pow2, <-Z.pow_add_r by lia. symmetry. apply u64_small. split; [apply Z.pow_nonneg; lia|].
      apply Z.pow_lt_mono_r; lia.
Qed.

Lemma order_for_pages_spec n :
  1 <= n <= 2 ^ 63 ->
  let o := order_for_pages n in 0 <= o <= 63 /\ n <= 2 ^ o /\ (o = 0 \/ 2 ^ (o - 1) < n).
Proof.
  intros Hn. unfold order_for_pages. rewrite (proj2 (Z.eqb_neq n 0)) by lia.
  apply (order_loop_spec 65 0 n); lia.
Qed.

Lemma order_for_pages_le n m : 2 <= n <= 2 ^ m -> 1 <= m <= 63 -> 1 <= order_for_pages n <= m.
Proof.
  intros Hn Hm. pose proof (Z.pow_le_mono_r 2 m 63 ltac:(lia) ltac:(lia)).
  destruct (order_for_pages_spec n ltac:(lia)) as (H1 & H2 & H3). split.
  - destruct (Z.eq_dec (order_for_pages n) 0) as [H0|]; [|lia]. rewrite H0 in H2. change (2 ^ 0) with 1 in H2. lia.
  - apply Z.nlt_ge. intros Hgt. destruct H3 as [H3|H3]; [lia|].
    pose proof (Z.pow_le_mono_r 2 m (order_for_pages n - 1) ltac:(lia) ltac:(lia)). lia.
Qed.

(** The number of pages a request for [n] pages takes. *)
Definition block_size (n : Z) : Z := 2 ^ order_for_pages n.

Lemma pmm_alloc_contiguous_ok cpu s k n :
  pmm_ok s k -> 1 <= n <= 512 -> alloc_spec s k (block_size n) (pmm_alloc_contiguous cpu n s).
Proof.
  intros Hok Hn. unfold pmm_alloc_contiguous, block_size. rewrite (proj2 (Z.eqb_neq n 0)) by lia.
  destruct (Z.eqb_spec n 1) as [->|Hne]; [by apply pmm_alloc_ok|].
  pose proof (order_for_pages_le n 9 ltac:(lia) ltac:(lia)) as Ho. cbv zeta. unfold LLFREE_MAX_ORDER.
  rewrite (proj2 (Z.ltb_ge 12 _)) by lia. rewrite Z.shiftl_1_l.
  apply (get_block cpu s k (order_for_pages n) Hok). lia.
Qed.

Lemma pmm_free_contiguous_ok cpu s k n f :
  pmm_ok s k -> (cpu < MAX_CPUS)%nat -> 1 <= n <= 256 -> f `mod` block_size n = 0 ->
  (forall q, f <= q < f + block_size n -> live s q = 1) ->
  let s' := pmm_free_contiguous cpu (page s f) n s in
  pmm_ok s' k /\ same_memory s s' /\ mem s' = mem s /\ g_zpool s' = g_zpool s /\
  forall q, live s' q = if in_block f (block_size n) q then 0 else live s q.
Proof.
  intros Hok Hcpu Hn Hal Hl. cbv zeta. unfold pmm_free_contiguous.
  destruct (order_for_pages_spec n ltac:(lia)) as (Ho & _ & _). unfold block_size in *. set (o := order_for_pages n) in *.
  pose proof (Z.pow_pos_nonneg 2 o ltac:(lia) ltac:(lia)).
  assert (Hused : forall q, f <= q < f + 2 ^ o -> 0 <= q < fa_frames (llf s)).
  { intros q Hq. pose proof (Hl q Hq) as H1. assert (0 < live s q) as H0 by lia.
    apply (live_pos s k q Hok) in H0 as [H0 _]. by apply in_use_true in H0 as [? _]. }
  pose proof (Hused f ltac:(lia)) as Hf. pose proof (Hused (f + 2 ^ o - 1) ltac:(lia)) as Hf2.
  destruct (page_index_ok s k f Hok Hf) as (_ & _ & _ & Hnz). rewrite (proj2 (Z.eqb_neq _ _) Hnz), (proj2 (Z.eqb_neq n 0)) by lia.
  cbn [orb]. destruct (Z.eqb_spec n 1) as [Hn1|Hne].
  - replace o with 0 in * by (subst o; by rewrite Hn1). change (2 ^ 0) with 1 in *.
    destruct (pmm_free_ok cpu s k f) as (G1 & G2 & G3 & G4 & G5); [done|done|rewrite Hl by lia; lia|].
    split_and!; try done. intros q. rewrite G5, in_block_one, (Hl f) by lia. done.
  - pose proof (order_for_pages_le n 8 ltac:(lia) ltac:(lia)) as Ho8. fold o in Ho8. unfold LLFREE_MAX_ORDER.
    rewrite (proj2 (Z.ltb_ge 12 o)) by lia.
    destruct (store_block 0 s s k f o Hok ltac:(done) eq_refl ltac:(lia) ltac:(lia) ltac:(lia)) as (r & Hr & Hrefs). rewrite Hr.
    apply (put_block cpu s (set_refs r s) k f o); try done; try lia; [|by eexists].
    intros q Hq. rewrite Hl by done. lia.
Qed.

(** ** The zero pool *)

Lemma push_pool s k f :
  pmm_ok s k -> live s f = 1 ->
  let p := page s f in
  let s' := set_zpool (p :: g_zpool s) (set_mem (zero_page p (mem s)) s) in
  pmm_ok s' k /\ same_memory s s' /\ forall q, live s' q = if q =? f then 0 else live s q.
Proof.
  intros Hok Hl. cbv zeta. set (p := page s f). set (s' := set_zpool _ _).
  destruct (proj1 (live_pos s k f Hok) ltac:(lia)) as [Hu Hp]. pose proof (proj1 (in_use_true s f) Hu) as [Hf _].
  assert (Hnin : p ∉ g_zpool s) by (by apply bool_decide_eq_false in Hp).
  split_and!; [split|done|]; try apply Hok.
  - intros p' Hp'. apply elem_of_cons in Hp' as [->|Hp'].
    + exists f. split; [done|done| |].
      * intros Hlo. rewrite live_refs in Hl by (done || lia). exact Hl.
      * intros a Ha. unfold s', set_zpool, set_mem, zero_page. cbn [mem]. by rewrite (proj2 (Z.leb_le _ _)), (proj2 (Z.ltb_lt _ _)) by lia.
    + destruct (po_pool _ _ Hok p' Hp') as (g & []). exists g. split; try done. intros a Ha.
      unfold s', set_zpool, set_mem, zero_page. cbn [mem]. destruct (_ && _); [done|by apply pp_zero0].
  - apply NoDup_cons. split; [done|apply (po_nodup _ _ Hok)].
  - intros q. unfold live at 1, pooled. change (page s' q) with (page s q). change (g_zpool s') with (p :: g_zpool s).
    change (in_use s' q) with (in_use s q). change (g_frame_refs s' q) with (g_frame_refs s q).
    destruct (Z.eqb_spec q f) as [->|Hne]; [rewrite bool_decide_eq_true_2; [done|by left]|].
    rewrite (bool_decide_ext (page s q ∈ p :: g_zpool s) (page s q ∈ g_zpool s)); [done|].
    rewrite elem_of_cons. split; [intros [Heq%page_inj|]; [lia|done]|by right].
Qed.

Lemma fill_zpool_ok fuel cpu s k :
  pmm_ok s k -> (forall q, live s q = 0) ->
  let s' := fill_zpool fuel cpu s in pmm_ok s' k /\ same_memory s s' /\ g_dma32 s' = g_dma32 s /\ forall q, live s' q = 0.
Proof.
  revert s. induction fuel as [|fuel IH]; intros s Hok Hl; cbn [fill_zpool]; [done|].
  pose proof (pmm_alloc_ok cpu s k Hok) as H. assert (Hd : g_dma32 (pmm_alloc cpu s).2 = g_dma32 s).
  { unfold pmm_alloc. destruct (fa_get _ _ _) as [[]]; [|done]. cbv zeta. cbn [snd]. unfold pmm_ref_set, store_ref. by destruct (_ <? _). }
  destruct (pmm_alloc cpu s) as [[p|] s1]; cbn [snd] in Hd; cbv zeta.
  - destruct H as (f & -> & Hf & Hb & Hok1 & Hsm & _ & _ & _ & Hl1).
    assert (Hpg : page s f = page s1 f) by (unfold page; by rewrite (proj1 Hsm)). rewrite Hpg.
    assert (Hlf : live s1 f = 1) by (by rewrite Hl1, in_block_one, Z.eqb_refl).
    destruct (push_pool s1 k f Hok1 Hlf) as (Hok2 & Hsm2 & Hl2). set (s2 := set_zpool _ _) in *.
    destruct (IH s2 Hok2) as (G1 & G2 & G3 & G4).
    { intros q. rewrite Hl2, Hl1, in_block_one. by destruct (q =? f). }
    split_and!; [done| |by rewrite G3|done]. split; etransitivity; try apply G2; etransitivity; try apply Hsm2; apply Hsm.
  - destruct H as (H1 & H2 & _ & _ & H3). split_and!; try done. intros q. by rewrite H3.
Qed.

(** ** Initialisation *)

Lemma page_align_down x : is_u64 x -> PAGE_ALIGN_DOWN x = x - x `mod` 4096.
Proof. intros Hx. exact (Bits.align_down x 12 Hx ltac:(lia)). Qed.

Lemma page_align_up x : 0 <= x -> x + 4095 < 2 ^ 64 -> exists r, PAGE_ALIGN_UP x = x + r /\ 0 <= r < 4096 /\ (x + r) `mod` 4096 = 0.
Proof.
  intros Hx Hb. unfold PAGE_ALIGN_UP, PAGE_SIZE. rewrite u64_small by (unfold is_u64; lia).
  change (clear_bits ?y (4096 - 1)) with (PAGE_ALIGN_DOWN y). rewrite page_align_down by (unfold is_u64; lia).
  pose proof (Z.mod_pos_bound (x + 4096 - 1) 4096 ltac:(lia)). exists (4095 - (x + 4096 - 1) `mod` 4096). split_and!; try lia.
  replace (x + (4095 - (x + 4096 - 1) `mod` 4096)) with (4096 * ((x + 4096 - 1) / 4096)).
  - by rewrite Z.mul_comm, Z.mod_mul.
  - pose proof (Z.div_mod (x + 4096 - 1) 4096 ltac:(lia)). lia.
Qed.

Lemma align_down_multiple x : is_u64 x -> PAGE_ALIGN_DOWN x <= x /\ 0 <= PAGE_ALIGN_DOWN x /\ PAGE_ALIGN_DOWN x `mod` 4096 = 0.
Proof.
  intros Hx. rewrite page_align_down by done. pose proof (Z.mod_pos_bound x 4096 ltac:(lia)).
  pose proof (Z.div_mod x 4096 ltac:(lia)). pose proof (Z.div_pos x 4096 ltac:(unfold is_u64 in *; lia) ltac:(lia)). split_and!; try lia.
  replace (x - x `mod` 4096) with (x / 4096 * 4096) by lia. by apply Z.mod_mul.
Qed.

(** A memory map of a machine with less than 16 TiB of address space. *)
Definition map_ok (mmap : list memmap_entry) : Prop :=
  forall e, e ∈ mmap -> 0 <= e_base e /\ 0 <= e_length e /\ e_base e + e_length e <= 2 ^ 44.

(** [lo, hi) is a page aligned part of a usable entry. *)
Definition usable_part (mmap : list memmap_entry) (lo hi : Z) : Prop :=
  lo `mod` 4096 = 0 /\ hi `mod` 4096 = 0 /\ 0 <= lo < hi /\
  exists e, e ∈ mmap /\ e_type e = LIMINE_MEMMAP_USABLE /\ e_base e <= lo /\ hi <= e_base e + e_length e.

Lemma foldl_inv {B C} (P : B -> Prop) (f : B -> C -> B) (l : list C) b :
  P b -> (forall b c, c ∈ l -> P b -> P (f b c)) -> P (foldl f b l).
Proof.
  revert b. induction l as [|c l IH]; intros b Hb Hf; [done|]. apply IH; [apply Hf; [by left|done]|].
  intros b' c' Hc. apply Hf. by right.
Qed.

Definition reserve_ok (mmap : list memmap_entry) (d : dma32_t) : Prop :=
  g_dma32_used d = 0 /\
  (g_dma32_bytes d = 0 \/
   usable_part mmap (g_dma32_base d) (g_dma32_base d + g_dma32_bytes d) /\
   g_dma32_base d + g_dma32_bytes d <= 2 ^ 32 /\ g_dma32_bytes d <= DMA32_RESERVE_BYTES).

Lemma dma32_best_ok mmap :
  map_ok mmap -> let best := foldl dma32_best (0, 0) mmap in best = (0, 0) \/ usable_part mmap best.1 best.2 /\ best.2 <= 2 ^ 32.
Proof.
  intros Hm. cbv zeta. apply (foldl_inv (fun best => best = (0, 0) \/ usable_part mmap best.1 best.2 /\ best.2 <= 2 ^ 32)); [by left|].
  intros best e He IH. unfold dma32_best. destruct (Hm e He) as (Hb & Hl & Ht).
  destruct (_ || _ || _) eqn:Hskip; [done|]. cbv zeta. dest_bool.
  destruct (page_align_up (e_base e) Hb ltac:(lia)) as (r & -> & Hr & Hr0).
  set (start := if e_base e + r <? 0x100000 then 0x100000 else e_base e + r).
  set (end0 := if 2 ^ 32 <? e_base e + e_length e then 2 ^ 32 else e_base e + e_length e).
  assert (Hend0 : 0 <= end0 <= 2 ^ 32 /\ end0 <= e_base e + e_length e) by (subst end0; destruct (Z.ltb_spec (2 ^ 32) (e_base e + e_length e)); lia).
  assert (Hst : e_base e <= start /\ start `mod` 4096 = 0) by (subst start; destruct (Z.ltb_spec (e_base e + r) 0x100000); [split; [lia|done]|split; [lia|done]]).
  destruct (align_down_multiple end0 ltac:(unfold is_u64; lia)) as (He1 & He2 & He3).
  destruct (_ && _) eqn:Hsel; [right|done]. dest_bool. cbn [fst snd]. split; [|lia].
  split_and!; try done; try lia. exists e. split_and!; try done; lia.
Qed.

Lemma reserve_dma32_ok mmap : map_ok mmap -> reserve_ok mmap (reserve_dma32 mmap).
Proof.
  intros Hm. unfold reserve_dma32. pose proof (dma32_best_ok mmap Hm) as Hbest. cbv zeta in *.
  destruct (foldl dma32_best (0, 0) mmap) as [lo hi]. cbn [fst snd] in *.
  destruct Hbest as [[= -> ->]|[(Hlo & Hhi & Hlt & e & He & Ht & H1 & H2) H32]]; [split; [done|by left]|].
  set (b0 := PAGE_ALIGN_DOWN ((hi - lo) / 2)). pose proof (Z.div_lt_upper_bound (hi - lo) 2 (hi - lo) ltac:(lia) ltac:(lia)) as Hd.
  pose proof (Z.div_pos (hi - lo) 2 ltac:(lia) ltac:(lia)) as Hd0.
  destruct (align_down_multiple ((hi - lo) / 2) ltac:(unfold is_u64; lia)) as (Hb1 & Hb2 & Hb3). fold b0 in Hb1, Hb2, Hb3.
  set (bytes := if DMA32_RESERVE_BYTES <? b0 then DMA32_RESERVE_BYTES else b0).
  assert (Hb : 0 <= bytes <= b0 /\ bytes `mod` 4096 = 0 /\ bytes <= DMA32_RESERVE_BYTES).
  { subst bytes. unfold DMA32_RESERVE_BYTES. destruct (Z.ltb_spec (3 * 1024 * 1024) b0); split_and!; try done; lia. }
  unfold PAGE_SIZE. destruct (Z.ltb_spec bytes (16 * 4096)); (split; [done|]); [by left|right]. cbn [g_dma32_base g_dma32_bytes].
  replace (hi - bytes + bytes) with hi by lia. split; [|lia].
  split; [rewrite Zminus_mod, Hhi, (proj1 (proj2 Hb)); done|]. split; [done|]. split; [lia|].
  exists e. split_and!; try done; lia.
Qed.

(** The two ranges do not meet; an empty reserve meets nothing. *)
Definition outside_reserve (d : dma32_t) (lo hi : Z) : Prop :=
  g_dma32_bytes d = 0 \/ hi <= g_dma32_base d \/ g_dma32_base d + g_dma32_bytes d <= lo.

(** What the search for the region keeps: no region, or a usable one outside the reserve. *)
Definition region_ok (mmap : list memmap_entry) (d : dma32_t) (best : Z * Z) : Prop :=
  best = (0, 0) \/ usable_part mmap best.1 (best.1 + best.2) /\ outside_reserve d best.1 (best.1 + best.2).

Lemma pick_region_ok mmap d :
  map_ok mmap -> reserve_ok mmap d -> region_ok mmap d (foldl (pick_region d) (0, 0) mmap).
Proof.
  intros Hm [_ Hd]. apply (foldl_inv (region_ok mmap d)); [by left|].
  intros best e He IH. unfold pick_region, U64_MAX, PAGE_SIZE. destruct (Hm e He) as (Hb & Hl & Ht).
  destruct (Z.eqb_spec (e_type e) LIMINE_MEMMAP_USABLE) as [Hty|]; [|done]. cbn [negb].
  rewrite (proj2 (Z.ltb_ge _ (e_length e))), (proj2 (Z.ltb_ge _ (e_base e))) by lia. cbn [orb]. cbv zeta.
  destruct (page_align_up (e_base e) Hb ltac:(lia)) as (r & -> & Hr & Hr0).
  destruct (align_down_multiple (e_base e + e_length e) ltac:(unfold is_u64; lia)) as (He1 & He2 & He3).
  set (end_ := PAGE_ALIGN_DOWN _) in *. set (top := g_dma32_base d + g_dma32_bytes d) in *.
  assert (Hgen : forall lo hi, lo `mod` 4096 = 0 -> hi `mod` 4096 = 0 -> e_base e <= lo -> hi <= e_base e + e_length e ->
    outside_reserve d lo hi -> region_ok mmap d (if (lo <? hi) && (best.2 <? hi - lo) then (lo, hi - lo) else best)).
  { intros lo hi H1 H2 H3 H4 H5. destruct (_ && _) eqn:Hsel; [right|done]. cbn [fst snd]. dest_bool.
    replace (lo + (hi - lo)) with hi by lia. split; [|done]. split_and!; try done; try lia. by exists e. }
  destruct (negb _ && _ && _) eqn:Hov.
  - dest_bool. destruct Hd as [Hd|[(Hd1 & Hd2 & Hd3 & _) _]]; [lia|]. fold top in Hd2.
    set (before := if e_base e + r <? g_dma32_base d then g_dma32_base d - (e_base e + r) else 0).
    set (after := if top <? end_ then end_ - top else 0).
    destruct (Z.ltb_spec before after); apply Hgen; try done; try lia; unfold outside_reserve; fold top; lia.
  - apply Hgen; try done; try lia. unfold outside_reserve. fold top.
    destruct (Z.eqb_spec (g_dma32_bytes d) 0); [by left|right]. cbn [negb andb] in Hov. dest_bool; lia.
Qed.

Lemma meta_total_nonneg n : 0 <= meta_total n.
Proof.
  unfold meta_total, ll_local_size, trees_metadata_size, lower_metadata_size, Lower.align_up, Lower.align_down. cbv zeta.
  pose proof (fun x y => proj1 (clear_bits_is_u64 x y)) as H. pose proof (H (256 + 64 - 1) (64 - 1)).
  pose proof (H (4 * div_ceil n LLFREE_TREE_SIZE + 64 - 1) (64 - 1)). pose proof (H (div_ceil n LLFREE_CHILD_SIZE * 64 + 64 - 1) (64 - 1)).
  pose proof (H (div_ceil (div_ceil n LLFREE_CHILD_SIZE) 8 * 64 + 64 - 1) (64 - 1)). lia.
Qed.

(** A fresh allocator. *)
Lemma fresh_ok a total free usable first d m n :
  fa_init n = Some a -> 1 <= first -> 0 <= n -> first + n <= 2 ^ 32 -> free = n ->
  let s := mkPmm A a total free usable 0 0 first d (fun _ => 0) [] m in pmm_ok s 0 /\ forall q, live s q = 0.
Proof.
  intros Hi Hf Hn Hb ->. cbv zeta. set (s := mkPmm _ _ _ _ _ _ _ _ _ _ _ _).
  destruct (fa_init_ok n a Hi ltac:(lia)) as (Hok & Hfr & Hfree).
  assert (Hu : forall q, in_use s q = false).
  { intros q. unfold in_use. change (llf s) with a. rewrite Hfr, Hfree. by destruct ((0 <=? q) && (q <? n)). }
  split; [split|].
  - done.
  - change (llf s) with a. rewrite Hfr. change (g_first_frame s) with first. lia.
  - intros f _. change (g_frame_refs s f) with 0. lia.
  - intros f _. by rewrite Hu.
  - intros p Hp. by apply not_elem_of_nil in Hp.
  - apply NoDup_nil_2.
  - change (g_free_frames s) with n. unfold nfree. change (llf s) with a. rewrite Hfr, count_if_all, length_seqZ.
    + rewrite Z2Nat.id, Z.sub_0_r, u64_small by (unfold is_u64; lia). done.
    + intros x Hx%elem_of_seqZ. rewrite Hfree, (proj2 (Z.leb_le _ _)), (proj2 (Z.ltb_lt _ _)) by lia. done.
  - intros q. unfold live, pooled. rewrite bool_decide_eq_false_2 by apply not_elem_of_nil. rewrite Hu. by destruct (_ && _).
Qed.

Lemma pmm_init_ok cpu mmap kernel_end m s :
  map_ok mmap -> 0 <= kernel_end -> pmm_init cpu mmap kernel_end m = Some s ->
  let lo := page s 0 in let hi := page s (fa_frames (llf s)) in
  pmm_inv s /\ (forall f, live s f = 0) /\ reserve_ok mmap (g_dma32 s) /\
  exists meta, usable_part mmap meta hi /\ meta + meta_total (Z.shiftr (highest_address mmap) 12) <= lo < hi /\
    (kernel_end <= meta \/ hi <= kernel_end) /\ outside_reserve (g_dma32 s) meta hi.
Proof.
  intros Hm Hk. unfold pmm_init. cbv zeta. change PAGE_SHIFT with 12. set (size := meta_total _).
  pose proof (meta_total_nonneg (Z.shiftr (highest_address mmap) 12)) as Hsz. fold size in Hsz.
  pose proof (reserve_dma32_ok mmap Hm) as Hd. set (d := reserve_dma32 mmap) in *.
  pose proof (pick_region_ok mmap d Hm Hd) as Hr. destruct (foldl (pick_region d) (0, 0) mmap) as [rb len].
  destruct (Z.eqb_spec rb 0) as [|Hrb]; [done|]. destruct Hr as [[= -> ->]|[(Hr1 & Hr2 & Hr3 & e & He & Hty & He1 & He2) Hout]]; [done|].
  cbn [fst snd] in *. set (hi := rb + len) in *. destruct (Hm e He) as (_ & _ & H44).
  set (mp := if _ && _ then PAGE_ALIGN_UP kernel_end else rb).
  assert (Hmp : rb <= mp /\ mp `mod` 4096 = 0 /\ (kernel_end <= mp \/ hi <= kernel_end)).
  { subst mp. destruct (_ && _) eqn:Hin; dest_bool; [|split_and!; try done; lia..].
    destruct (page_align_up kernel_end Hk ltac:(lia)) as (r & -> & Hr & Hr0). split_and!; try done; lia. }
  destruct Hmp as (Hmp1 & Hmp2 & Hmp3). unfold PAGE_SIZE. destruct (_ || _ || _) eqn:Hroom; [done|]. dest_bool.
  rewrite !Z.shiftr_div_pow2 by lia. change (2 ^ 12) with 4096. set (first := (mp + size + 4096 - 1) / 4096).
  set (managed := hi / 4096 - first). destruct (Z.ltb_spec managed 512) as [|Hmg]; [done|].
  destruct (fa_init managed) as [a|] eqn:Hi; [|done]. intros <-%(inj Some).
  pose proof (Z.div_mod (mp + size + 4096 - 1) 4096 ltac:(lia)) as Hdm. fold first in Hdm.
  pose proof (Z.mod_pos_bound (mp + size + 4096 - 1) 4096 ltac:(lia)). pose proof (Z.div_mod hi 4096 ltac:(lia)) as Hdh.
  assert (1 <= first) by (pose proof (Z.div_mod rb 4096 ltac:(lia)); lia).
  assert (first + managed <= 2 ^ 32) by (unfold managed; lia).
  set (s0 := mkPmm _ _ _ _ _ _ _ _ _ _ _ _).
  destruct (fresh_ok a (Z.shiftr (highest_address mmap) 12) managed (usable_pages mmap) first d m managed Hi) as [Hf0 Hl0]; try done; try lia.
  rewrite Z.shiftr_div_pow2 in Hf0, Hl0 by lia. change (2 ^ 12) with 4096 in Hf0, Hl0.
  destruct (fill_zpool_ok ZPOOL_SIZE cpu s0 0 Hf0 Hl0) as (Hok & [Hg Hfr] & Hdma & Hlive).
  assert (Hn : fa_frames (llf s0) = managed) by (apply (fa_init_ok managed a Hi); lia).
  cbv zeta. unfold page. rewrite Hg, Hfr, Hn, Hdma. change (g_first_frame s0) with first. change (g_dma32 s0) with d. unfold PAGE_SIZE.
  split; [by exists 0|]. split; [done|]. split; [done|]. exists mp. replace ((first + managed) * 4096) with hi by (unfold managed; lia).
  split; [split; [done|]; split; [done|]; split; [lia|]; exists e; split_and!; try done; lia|]. split; [lia|]. split; [done|].
  unfold outside_reserve in *. lia.
Qed.

(** ** The allocator in use *)

(** The calls of the kernel, naming pages by their frame; [OpWrite] is a write to
    memory. *)
Inductive pmm_op :=
| OpAlloc
| OpAllocZeroed
| OpAllocBlock (n : Z)
| OpRetain (f : Z)
| OpFree (f : Z)
| OpFreeBlock (f n : Z)
| OpWrite (m : Z -> Z).

(** A caller frees and retains only what it holds, frees a block as it was
    allocated, and writes only to pages it holds. *)
Definition op_allowed s (op : pmm_op) : Prop :=
  match op with
  | OpAlloc | OpAllocZeroed => True
  | OpAllocBlock n => 1 <= n <= 512
  | OpRetain f | OpFree f => 0 < live s f
  | OpFreeBlock f n => 1 <= n <= 256 /\ f `mod` block_size n = 0 /\ forall q, f <= q < f + block_size n -> live s q = 1
  | OpWrite m => forall a, m a = mem s a \/ exists f, 0 < live s f /\ page s f <= a < page s f + PAGE_SIZE
  end.

Definition pmm_exec (cpu : nat) s (op : pmm_op) : pmm_t A :=
  match op with
  | OpAlloc => (pmm_alloc cpu s).2
  | OpAllocZeroed => (pmm_alloc_zeroed cpu s).2
  | OpAllocBlock n => (pmm_alloc_contiguous cpu n s).2
  | OpRetain f => (pmm_retain (page s f) s).2
  | OpFree f => pmm_free cpu (page s f) s
  | OpFreeBlock f n => pmm_free_contiguous cpu (page s f) n s
  | OpWrite m => set_mem m s
  end.

Inductive pmm_reach : pmm_t A -> Prop :=
| reach_init cpu mmap kernel_end m s :
    map_ok mmap -> 0 <= kernel_end -> pmm_init cpu mmap kernel_end m = Some s -> pmm_reach s
| reach_op cpu s op : pmm_reach s -> (cpu < MAX_CPUS)%nat -> op_allowed s op -> pmm_reach (pmm_exec cpu s op).

Lemma alloc_spec_inv s k n res : alloc_spec s k n res -> pmm_ok res.2 k.
Proof. destruct res as [[p|] s']; [intros (f & _ & _ & _ & H & _); exact H|intros [H _]; exact H]. Qed.

Lemma write_ok s k m : pmm_ok s k -> op_allowed s (OpWrite m) -> pmm_ok (set_mem m s) k.
Proof.
  intros Hok Hw. apply set_mem_ok; [done|]. intros p a Hp Ha. destruct (po_pool _ _ Hok p Hp) as (g & Hg).
  destruct (Hw a) as [->|(f & Hl & Hf)]; [by apply (pp_zero _ _ _ Hg)|]. exfalso.
  apply (live_pos s k f Hok) in Hl as [_ Hl]. apply bool_decide_eq_false in Hl. apply Hl.
  rewrite (pp_page _ _ _ Hg) in Ha, Hp. unfold page, PAGE_SIZE in Ha, Hf. by replace f with g by lia.
Qed.

Lemma pmm_exec_inv cpu s op : pmm_inv s -> (cpu < MAX_CPUS)%nat -> op_allowed s op -> pmm_inv (pmm_exec cpu s op).
Proof.
  intros [k Hok] Hcpu Hop. destruct op as [| |n|f|f|f n|m]; cbn [pmm_exec op_allowed] in *.
  - exists k. by eapply alloc_spec_inv, pmm_alloc_ok.
  - destruct (pmm_alloc_zeroed_ok cpu s k Hok) as [(k' & _ & H) _]. by exists k'.
  - exists k. by eapply alloc_spec_inv, pmm_alloc_contiguous_ok.
  - exists k. apply (live_pos s k f Hok) in Hop as [Hu Hp]. apply in_use_true in Hu as [Hf _].
    pose proof (pmm_retain_ok s k f Hok Hf Hp) as H. destruct (pmm_retain _ s) as [[] s']; cbn [snd]; [by apply H|].
    by rewrite (proj1 (proj2 H) eq_refl).
  - exists k. by apply (pmm_free_ok cpu s k f Hok Hcpu Hop).
  - exists k. destruct Hop as (Hn & Hal & Hl). by apply (pmm_free_contiguous_ok cpu s k n f).
  - exists k. by apply write_ok.
Qed.

Lemma pmm_reach_inv s : pmm_reach s -> pmm_inv s.
Proof.
  induction 1 as [cpu mmap ke m s Hm Hk Hi|cpu s op _ IH Hcpu Hop].
  - by apply (pmm_init_ok cpu mmap ke m s).
  - by apply pmm_exec_inv.
Qed.


(** an allocated page belongs to the caller alone.  In every state the kernel can
    reach, a page that [pmm_alloc_zeroed] returns is a managed page without any
    reference; afterwards it has exactly one, no other count has changed, and it
    reads as zero while no other memory has changed.  A failed call changes
    nothing. *)
Theorem pmm_alloc_zeroed_correct cpu s :
  pmm_reach s ->
  match pmm_alloc_zeroed cpu s with
  | (Some p, s') => exists f, p = page s f /\ 0 <= f < fa_frames (llf s) /\ live s f = 0 /\
      (forall q, live s' q = if q =? f then 1 else live s q) /\
      (forall a, mem s' a = if (p <=? a) && (a <? p + PAGE_SIZE) then 0 else mem s a)
  | (None, s') => mem s' = mem s /\ forall q, live s' q = live s q
  end.
Proof.
  intros [k Hok]%pmm_reach_inv. destruct (pmm_alloc_zeroed_ok cpu s k Hok) as [_ H].
  destruct (pmm_alloc_zeroed cpu s) as [[p|] s'].
  - destruct H as (f & H1 & H2 & _ & H3 & H4 & H5). exists f. repeat (split; [done|]). done.
  - destruct H as (_ & H1 & H2). done.
Qed.

(** a page is released with its last reference.  [pmm_free] of a page that is
    held drops one reference, touches no other page, and gives the frame back to
    the frame allocator exactly if the reference was the last. *)
Theorem pmm_free_correct cpu s f :
  pmm_reach s -> (cpu < MAX_CPUS)%nat -> 0 < live s f ->
  let s' := pmm_free cpu (page s f) s in
  (forall q, live s' q = if q =? f then live s f - 1 else live s q) /\ mem s' = mem s /\
  (fa_free (llf s') f = true <-> live s f = 1).
Proof.
  intros [k Hok]%pmm_reach_inv Hcpu Hl. cbv zeta. pose proof (proj1 (live_pos s k f Hok) Hl) as [Hu Hp].
  apply in_use_true in Hu as [Hf _]. destruct (pmm_free_ok cpu s k f Hok Hcpu Hl) as (Hok' & [Hg Hfr] & Hm & Hz & Hl').
  set (s' := pmm_free _ _ _) in *. split; [done|]. split; [done|]. pose proof (live_pos s' k f Hok') as Hlp.
  rewrite Hl' in Hlp. unfold upd in Hlp. rewrite Z.eqb_refl, in_use_true, Hfr in Hlp.
  assert (Hp' : pooled s' f = false) by (by rewrite (pooled_ext s s' f)). rewrite Hp' in Hlp.
  destruct (fa_free (llf s') f).
  2:{ split; [done|]. intros H1. enough (0 < live s f - 1) by lia. by apply Hlp. }
  split; [|done]. intros _.
  destruct (Z.le_gt_cases (live s f - 1) 0); [lia|]. by destruct (proj1 Hlp ltac:(lia)) as [[_ [=]] _].
Qed.

End spec.

(** ** A concrete machine: 8 MiB of memory from 1 MiB *)

Definition demo_map : list memmap_entry := [mkEntry 0x100000 0x800000 LIMINE_MEMMAP_USABLE].

Definition demo_pmm : pmm_t llfree_t :=
  default (mkPmm llfree_t demo 0 0 0 0 0 1 (mkDma 0 0 0) (fun _ => 0) [] (fun _ => 0)) (pmm_init 0 demo_map 0 (fun _ => 7)).

Lemma demo_map_ok : map_ok demo_map.
Proof. intros e ->%list_elem_of_singleton. cbn. lia. Qed.

Lemma demo_pmm_init : pmm_init 0 demo_map 0 (fun _ => 7) = Some demo_pmm.
Proof.
  assert (H : bool_decide (is_Some (pmm_init (A := llfree_t) 0 demo_map 0 (fun _ => 7))) = true) by (vm_compute; reflexivity).
  apply bool_decide_eq_true in H as [s Hs]. unfold demo_pmm. by rewrite Hs.
Qed.

Lemma demo_pmm_reach : pmm_reach demo_pmm.
Proof. apply (reach_init 0 demo_map 0 (fun _ => 7)); [exact demo_map_ok|lia|exact demo_pmm_init]. Qed.


Lemma pmm_alloc_zeroed_correct_witness :
  match pmm_alloc_zeroed 3 demo_pmm with
  | (Some p, s') => exists f, p = page demo_pmm f /\ 0 <= f < fa_frames (llf demo_pmm) /\ live demo_pmm f = 0 /\
      (forall q, live s' q = if q =? f then 1 else live demo_pmm q) /\
      (forall a, mem s' a = if (p <=? a) && (a <? p + PAGE_SIZE) then 0 else mem demo_pmm a)
  | (None, s') => mem s' = mem demo_pmm /\ forall q, live s' q = live demo_pmm q
  end.
Proof. apply (pmm_alloc_zeroed_correct 3 demo_pmm demo_pmm_reach). Defined.

(** One page in use, the last of the pool. *)
Definition demo_held : pmm_t llfree_t := pmm_exec 0 demo_pmm OpAllocZeroed.

Lemma demo_held_reach : pmm_reach demo_held.
Proof. apply reach_op; [exact demo_pmm_reach|unfold MAX_CPUS; lia|exact I]. Qed.

Lemma pmm_free_correct_witness :
  (forall q, live (pmm_free 1 (page demo_held 31) demo_held) q = if q =? 31 then live demo_held 31 - 1 else live demo_held q) /\
  mem (pmm_free 1 (page demo_held 31) demo_held) = mem demo_held /\
  (fa_free (llf (pmm_free 1 (page demo_held 31) demo_held)) 31 = true <-> live demo_held 31 = 1).
Proof. apply (pmm_free_correct 1 demo_held 31 demo_held_reach); [unfold MAX_CPUS; lia|vm_compute; reflexivity]. Defined.

(** Allocate pages with [get] until none is left. *)
Fixpoint alloc_all (fuel : nat) (s : pmm_t llfree_t) : pmm_t llfree_t :=
  match fuel with
  | O => s
  | S fuel => match pmm_alloc_zeroed 0 s with (Some _, s) => alloc_all fuel s | (None, s) => s end
  end.

(** the count of free pages is wrong once pages of the zero pool are used.  They
    are counted when the pool is filled and again when they are handed out; when
    memory is exhausted, [pmm_free_pages] returns [2^64 - 32] instead of zero. *)
Theorem pmm_free_count_wraps :
  let s := alloc_all 2048 demo_pmm in
  (pmm_alloc_zeroed 0 s).1 = None /\ nfree s = 0 /\ g_free_frames s = 2 ^ 64 - 32.
Proof. cbv zeta. split; [|split]; vm_compute; reflexivity. Qed.
