(* ===== verification/Vmm.v ===== *)
(** * Address spaces and page tables.

    Models [kernel/mm/vmm.c] on top of the page allocator ([Pmm.v]) and of the
    table of mappings ([Vma.v]): the four-level x86-64 page tables in physical
    memory, mapping, unmapping and protecting a page, the checks and faults of
    user memory, the pool of address spaces, eager and copy-on-write fork.
    TLB shootdowns and control registers are left out, and one CPU runs at a
    time; the protocol between walks and changes of an address space is
    [SpaceLock.v]. *)

From S2P Require Import Prelude Bits Bitfield Vma Lower LLFree Pmm.

Definition VMM_PRESENT : Z := 1.
Definition VMM_COW : Z := Z.shiftl 1 9.
Definition PTE_ADDR_MASK : Z := 0x000FFFFFFFFFF000.
Definition PTE_FLAGS_MASK : Z := Z.lor VMM_NX 0xFFF.
Definition USER_LIMIT : Z := 0x800000000000.
Definition PAGE_MASK : Z := U64_MAX - 0xFFF.
Definition VMA_MAP_SHARED : Z := 1.

Definition PML4_IDX (va : Z) : Z := Z.land (Z.shiftr va 39) 0x1FF.
Definition PDPT_IDX (va : Z) : Z := Z.land (Z.shiftr va 30) 0x1FF.
Definition PD_IDX (va : Z) : Z := Z.land (Z.shiftr va 21) 0x1FF.
Definition PT_IDX (va : Z) : Z := Z.land (Z.shiftr va 12) 0x1FF.

Definition pte_addr (pte : Z) : Z := Z.land pte PTE_ADDR_MASK.

(** [pte & bit] as a condition. *)
Definition has (pte bit : Z) : bool := ztrue (Z.land pte bit).

(** [memcpy(phys_to_virt(dst), phys_to_virt(src), PAGE_SIZE)]. *)
Definition copy_page (dst src : Z) (m : Z -> Z) : Z -> Z :=
  fun a => if (dst <=? a) && (a <? dst + PAGE_SIZE) then m (src + (a - dst)) else m a.

(** A loop body that may fail; the loop stops at the first failure. *)
Fixpoint for_idx {S : Type} (body : Z -> S -> bool * S) (l : list Z) (s : S) : bool * S :=
  match l with
  | [] => (true, s)
  | i :: l => let '(ok, s) := body i s in if ok then for_idx body l s else (false, s)
  end.

Section vmm.
Context `{FA : FrameAllocator A}.
Context (cpu : nat).
Implicit Type s : pmm_t A.

(** ** Page tables

    A table is named by its physical address; entry [i] is a 64-bit word. *)

Definition rd s (t i : Z) : Z := mem s (t + 8 * i).
Definition wr (t i v : Z) s : pmm_t A := set_mem (upd (mem s) (t + 8 * i) v) s.

Definition descend (parent idx : Z) s : option Z * pmm_t A :=
  if has (rd s parent idx) VMM_PRESENT then (Some (pte_addr (rd s parent idx)), s) else
  match pmm_alloc_zeroed cpu s with
  | (None, s) => (None, s)
  | (Some child, s) =>
      let s := wr parent idx (Z.lor (Z.lor (Z.lor child VMM_PRESENT) VMM_WRITE) VMM_USER) s in
      (Some (pte_addr (rd s parent idx)), s)
  end.

(** [vmm_map] in the space whose top table is [root]. *)
Definition map_page (root virt phys flags : Z) s : bool * pmm_t A :=
  if has flags VMM_USER && (USER_LIMIT <=? virt) then (false, s) else
  match descend root (PML4_IDX virt) s with
  | (None, s) => (false, s)
  | (Some pdpt, s) =>
  match descend pdpt (PDPT_IDX virt) s with
  | (None, s) => (false, s)
  | (Some pd, s) =>
  match descend pd (PD_IDX virt) s with
  | (None, s) => (false, s)
  | (Some pt, s) =>
      if has (rd s pt (PT_IDX virt)) VMM_PRESENT then (false, s) else
      (true, wr pt (PT_IDX virt) (Z.lor (Z.lor (Z.land phys PTE_ADDR_MASK) (Z.land flags PTE_FLAGS_MASK)) VMM_PRESENT) s)
  end end end.

(** The page table of [virt], if every level above it is present. *)
Definition page_table s (root virt : Z) : option Z :=
  if negb (has (rd s root (PML4_IDX virt)) VMM_PRESENT) then None else
  let pdpt := pte_addr (rd s root (PML4_IDX virt)) in
  if negb (has (rd s pdpt (PDPT_IDX virt)) VMM_PRESENT) then None else
  let pd := pte_addr (rd s pdpt (PDPT_IDX virt)) in
  if negb (has (rd s pd (PD_IDX virt)) VMM_PRESENT) then None else
  Some (pte_addr (rd s pd (PD_IDX virt))).

Definition vmm_virt_to_phys s (root virt : Z) : Z :=
  match page_table s root virt with
  | None => 0
  | Some pt => if has (rd s pt (PT_IDX virt)) VMM_PRESENT then pte_addr (rd s pt (PT_IDX virt)) else 0
  end.

Definition vmm_leaf_pte s (root virt : Z) : Z :=
  match page_table s root virt with None => 0 | Some pt => rd s pt (PT_IDX virt) end.

Definition vmm_protect (root virt flags : Z) s : bool * pmm_t A :=
  match page_table s root virt with
  | None => (false, s)
  | Some pt =>
      let e := rd s pt (PT_IDX virt) in
      if negb (has e VMM_PRESENT) then (false, s) else
      (true, wr pt (PT_IDX virt) (Z.lor (Z.lor (pte_addr e) (Z.land flags PTE_FLAGS_MASK)) VMM_PRESENT) s)
  end.

Definition vmm_unmap (root virt : Z) s : pmm_t A :=
  match page_table s root virt with None => s | Some pt => wr pt (PT_IDX virt) 0 s end.

(** ** User memory *)

Fixpoint range_ok_pages (fuel : nat) s (root pg last : Z) (write : bool) : option bool :=
  match fuel with
  | O => None
  | S fuel =>
      let pte := vmm_leaf_pte s root pg in
      if negb (has pte VMM_PRESENT) || negb (has pte VMM_USER) then Some false else
      if write && negb (has pte VMM_WRITE) then Some false else
      if pg =? last then Some true else range_ok_pages fuel s root (u64 (pg + 0x1000)) last write
  end.

(** The number of pages from [pg] to [last], the fuel of the walks. *)
Definition pages_between (pg last : Z) : nat := Z.to_nat ((last - pg) / 0x1000 + 1).

Definition vmm_user_range_ok s (root virt len : Z) (write : bool) : option bool :=
  if len =? 0 then Some true else
  if u64 (virt + len) <? virt then Some false else
  let pg := Z.land virt PAGE_MASK in
  let last := Z.land (u64 (virt + len - 1)) PAGE_MASK in
  range_ok_pages (pages_between pg last) s root pg last write.

Definition vmm_handle_cow_fault (root virt : Z) s : Z * pmm_t A :=
  let page := Z.land virt PAGE_MASK in
  let pte := vmm_leaf_pte s root page in
  if negb (has pte VMM_PRESENT) || negb (has pte VMM_COW) then (0, s) else
  let flags := clear_bits (Z.lor (Z.land pte PTE_FLAGS_MASK) VMM_WRITE) VMM_COW in
  if pmm_ref_count (pte_addr pte) s =? 1 then
    let '(ok, s) := vmm_protect root page flags s in (if ok then 1 else -1, s)
  else
  match pmm_alloc cpu s with
  | (None, s) => (-1, s)
  | (Some new_phys, s) =>
      let s := set_mem (copy_page new_phys (pte_addr pte) (mem s)) s in
      let pdpt := pte_addr (rd s root (PML4_IDX virt)) in
      let pd := pte_addr (rd s pdpt (PDPT_IDX virt)) in
      let pt := pte_addr (rd s pd (PD_IDX virt)) in
      let s := wr pt (PT_IDX virt) (Z.lor (Z.lor new_phys (Z.land flags PTE_FLAGS_MASK)) VMM_PRESENT) s in
      (1, pmm_free cpu (pte_addr pte) s)
  end.

Definition vmm_phantom_relax_page (root virt : Z) (write execute : bool) s : bool * pmm_t A :=
  if negb write && negb execute then (false, s) else
  let page := Z.land virt PAGE_MASK in
  let pte := vmm_leaf_pte s root page in
  if negb (has pte VMM_PRESENT) || negb (has pte VMM_USER) then (false, s) else
  match pmm_alloc cpu s with
  | (None, s) => (false, s)
  | (Some new_phys, s) =>
      let s := set_mem (copy_page new_phys (pte_addr pte) (mem s)) s in
      let flags := Z.land pte PTE_FLAGS_MASK in
      let flags := if write || has flags VMM_COW then Z.lor flags VMM_WRITE else flags in
      let flags := if execute then clear_bits flags VMM_NX else flags in
      let flags := clear_bits flags VMM_COW in
      let pdpt := pte_addr (rd s root (PML4_IDX page)) in
      let pd := pte_addr (rd s pdpt (PDPT_IDX page)) in
      let pt := pte_addr (rd s pd (PD_IDX page)) in
      let s := wr pt (PT_IDX page) (Z.lor (Z.lor new_phys flags) VMM_PRESENT) s in
      (true, pmm_free cpu (pte_addr pte) s)
  end.

(** One page of [vmm_user_range_fault_in]. *)
Definition fault_in_page (vmas : vma_table) (root pg : Z) (write : bool) s : bool * pmm_t A :=
  let pte := vmm_leaf_pte s root pg in
  if has pte VMM_PRESENT then
    if negb (has pte VMM_USER) then (false, s) else
    if write && negb (has pte VMM_WRITE) then
      if negb (has pte VMM_COW) then (false, s) else
      let '(r, s) := vmm_handle_cow_fault root pg s in (0 <? r, s)
    else (true, s)
  else
    if negb (vma_page_fault_allowed vmas pg write false) then (false, s) else
    match pmm_alloc_zeroed cpu s with
    | (None, s) => (false, s)
    | (Some phys, s) =>
        let '(ok, s) := map_page root pg phys (vma_page_flags vmas pg) s in
        if ok then (true, s) else (false, pmm_free cpu phys s)
    end.

Fixpoint fault_in_pages (fuel : nat) (vmas : vma_table) (root pg last : Z) (write : bool) s : option (bool * pmm_t A) :=
  match fuel with
  | O => None
  | S fuel =>
      let '(ok, s) := fault_in_page vmas root pg write s in
      if negb ok then Some (false, s) else
      if pg =? last then Some (true, s) else fault_in_pages fuel vmas root (u64 (pg + 0x1000)) last write s
  end.

(** The walk of [vmm_user_range_fault_in], under the lock of the space. *)
Definition vmm_user_range_fault_in (vmas : vma_table) (root virt len : Z) (write : bool) s : option (bool * pmm_t A) :=
  if len =? 0 then Some (true, s) else
  if u64 (virt + len) <? virt then Some (false, s) else
  let pg := Z.land virt PAGE_MASK in
  let last := Z.land (u64 (virt + len - 1)) PAGE_MASK in
  fault_in_pages (pages_between pg last) vmas root pg last write s.
(** ** Releasing page tables *)

(** [for (i = 0; i < 512; i++) if (table[i] & VMM_PRESENT) f(pte_addr(table[i]))]. *)
Definition each_present (f : Z -> pmm_t A -> pmm_t A) (table n : Z) s : pmm_t A :=
  foldl (fun s i => if has (rd s table i) VMM_PRESENT then f (pte_addr (rd s table i)) s else s) s (seqZ 0 n).

Definition free_pt (pt : Z) s : pmm_t A := pmm_free cpu pt (each_present (pmm_free cpu) pt 512 s).
Definition free_pd (pd : Z) s : pmm_t A := pmm_free cpu pd (each_present free_pt pd 512 s).
Definition free_pdpt (pdpt : Z) s : pmm_t A := pmm_free cpu pdpt (each_present free_pd pdpt 512 s).

(** The part of [vmm_space_free] after the last reference is gone. *)
Definition free_space (root : Z) s : pmm_t A := pmm_free cpu root (each_present free_pdpt root 256 s).

(** ** Fork *)

Definition fork_va (i j k l : Z) : Z :=
  Z.lor (Z.lor (Z.lor (Z.shiftl i 39) (Z.shiftl j 30)) (Z.shiftl k 21)) (Z.shiftl l 12).

(** A private copy of the page of [pte] in the child. *)
Definition fork_copy (dst va pte : Z) s : bool * pmm_t A :=
  match pmm_alloc cpu s with
  | (None, s) => (false, s)
  | (Some new_phys, s) =>
      let s := set_mem (copy_page new_phys (pte_addr pte) (mem s)) s in
      let '(ok, s) := map_page dst va new_phys (Z.land pte PTE_FLAGS_MASK) s in
      if ok then (true, s) else (false, pmm_free cpu new_phys s)
  end.

(** Body of the innermost loop of [vmm_fork_user]. *)
Definition fork_entry (dst pt i j k l : Z) s : bool * pmm_t A :=
  let pte := rd s pt l in
  if negb (has pte VMM_PRESENT) then (true, s) else fork_copy dst (fork_va i j k l) pte s.

(** Body of the innermost loop of [vmm_fork_user_cow]. *)
Definition fork_entry_cow (vmas : vma_table) (dst pt i j k l : Z) s : bool * pmm_t A :=
  let pte := rd s pt l in
  if negb (has pte VMM_PRESENT) then (true, s) else
  let va := fork_va i j k l in
  let flags := Z.land pte PTE_FLAGS_MASK in
  let share map_flags s :=
    let private_write := has flags VMM_WRITE && negb (has map_flags VMA_MAP_SHARED) in
    let child_flags := if private_write then Z.lor (clear_bits flags VMM_WRITE) VMM_COW else flags in
    let '(ok, s) := map_page dst va (pte_addr pte) child_flags s in
    if negb ok then (false, pmm_free cpu (pte_addr pte) s)
    else if private_write then (true, wr pt l (Z.lor (Z.lor (pte_addr pte) child_flags) VMM_PRESENT) s)
    else (true, s) in
  match vma_range_info (Some vmas) va PAGE_SIZE with
  | Some (Some (_, map_flags, true)) =>
      let '(kept, s) := pmm_retain (pte_addr pte) s in
      if kept then share map_flags s else fork_copy dst va pte s
  | _ => fork_copy dst va pte s
  end.

(** [for (x = 0; x < n; x++)] over the present entries of [table]. *)
Definition for_entries (inner : Z -> Z -> pmm_t A -> bool * pmm_t A) (table n : Z) s : bool * pmm_t A :=
  for_idx (fun x s => if negb (has (rd s table x) VMM_PRESENT) then (true, s) else inner x (pte_addr (rd s table x)) s) (seqZ 0 n) s.

(** The four nested loops over the user half of the table [src]. *)
Definition fork_walk (entry : Z -> Z -> Z -> Z -> Z -> pmm_t A -> bool * pmm_t A) (src : Z) s : bool * pmm_t A :=
  for_entries (fun i pdpt => for_entries (fun j pd => for_entries (fun k pt =>
    for_idx (fun l s => entry pt i j k l s) (seqZ 0 512)) pd 512) pdpt 512) src 256 s.

End vmm.

(** ** Address spaces *)

Record vmm_space_t := mkSpace {
  pml4_phys : Z;
  kernel_map_generation : Z;
  vmas : vma_table;
  refcount : Z;
  user_accessors : Z;
  user_mutating : Z;
}.

Definition VMM_MAX_SPACES : nat := 256.
Definition empty_vmas : vma_table := replicate VMM_VMA_MAX zero_vma.
Definition zero_space : vmm_space_t := mkSpace 0 0 empty_vmas 0 0 0.

(** A pointer to a space: the kernel's, or a slot of [g_pool]. *)
Inductive space_ref := KernelSpace | PoolSpace (slot : nat).

Record vmm_t {A : Type} := mkVmm {
  pm : pmm_t A;
  g_kernel_space : vmm_space_t;
  g_pool : list vmm_space_t;
  g_pool_used : list bool;
  g_kernel_map_generation : Z;
}.
#[global] Arguments vmm_t : clear implicits.

Section spaces.
Context `{FA : FrameAllocator A}.
Context (cpu : nat).
Implicit Type v : vmm_t A.

Definition space v (sp : space_ref) : vmm_space_t :=
  match sp with KernelSpace => g_kernel_space v | PoolSpace i => aget zero_space (g_pool v) i end.

Definition set_pm (m : pmm_t A) v : vmm_t A :=
  mkVmm A m (g_kernel_space v) (g_pool v) (g_pool_used v) (g_kernel_map_generation v).
Definition set_space (sp : space_ref) (x : vmm_space_t) v : vmm_t A :=
  match sp with
  | KernelSpace => mkVmm A (pm v) x (g_pool v) (g_pool_used v) (g_kernel_map_generation v)
  | PoolSpace i => mkVmm A (pm v) (g_kernel_space v) (<[i := x]> (g_pool v)) (g_pool_used v) (g_kernel_map_generation v)
  end.
Definition set_used (i : nat) (b : bool) v : vmm_t A :=
  mkVmm A (pm v) (g_kernel_space v) (g_pool v) (<[i := b]> (g_pool_used v)) (g_kernel_map_generation v).
Definition bump_generation v : vmm_t A :=
  mkVmm A (pm v) (g_kernel_space v) (g_pool v) (g_pool_used v) (u64 (g_kernel_map_generation v + 1)).

Definition is_kernel (sp : space_ref) : bool := match sp with KernelSpace => true | PoolSpace _ => false end.

Definition vmm_map (sp : space_ref) (virt phys flags : Z) v : Z * vmm_t A :=
  let root := pml4_phys (space v sp) in
  let new_kernel_slot := is_kernel sp && (USER_LIMIT <=? virt) && negb (has (rd (pm v) root (PML4_IDX virt)) VMM_PRESENT) in
  let '(ok, m) := map_page cpu root virt phys flags (pm v) in
  let v := set_pm m v in
  if ok then (0, if new_kernel_slot then bump_generation v else v) else (-1, v).

(** [for (i = 256; i < 512; i++) dst[i] = src[i]]. *)
Definition copy_kernel_half (dst src : Z) (m : pmm_t A) : pmm_t A :=
  foldl (fun m i => wr dst i (rd m src i) m) m (seqZ 256 256).

Definition vmm_space_new v : option space_ref * vmm_t A :=
  match find_index negb (g_pool_used v) with
  | None => (None, v)
  | Some slot =>
      let v := set_used slot true v in
      match pmm_alloc_zeroed cpu (pm v) with
      | (None, m) => (None, set_used slot false (set_pm m v))
      | (Some root, m) =>
          let v := set_pm (copy_kernel_half root (pml4_phys (g_kernel_space v)) m) v in
          (Some (PoolSpace slot), set_space (PoolSpace slot) (mkSpace root (g_kernel_map_generation v) empty_vmas 1 0 0) v)
      end
  end.

Definition set_refcount (n : Z) (x : vmm_space_t) : vmm_space_t :=
  mkSpace (pml4_phys x) (kernel_map_generation x) (vmas x) n (user_accessors x) (user_mutating x).
Definition set_vmas (t : vma_table) (x : vmm_space_t) : vmm_space_t :=
  mkSpace (pml4_phys x) (kernel_map_generation x) t (refcount x) (user_accessors x) (user_mutating x).
Definition set_generation (g : Z) (x : vmm_space_t) : vmm_space_t :=
  mkSpace (pml4_phys x) g (vmas x) (refcount x) (user_accessors x) (user_mutating x).

Definition vmm_space_retain (sp : space_ref) v : vmm_t A :=
  if is_kernel sp then v else set_space sp (set_refcount (u32 (refcount (space v sp) + 1)) (space v sp)) v.

Definition vmm_space_free (sp : space_ref) v : vmm_t A :=
  match sp with
  | KernelSpace => v
  | PoolSpace slot =>
      let old := refcount (space v sp) in
      let v := set_space sp (set_refcount (u32 (old - 1)) (space v sp)) v in
      if negb (old =? 1) then v else
      set_used slot false (set_pm (free_space cpu (pml4_phys (space v sp)) (pm v)) v)
  end.

(** The page tables of [vmm_switch]; loading [cr3] is left out. *)
Definition vmm_switch (sp : space_ref) v : vmm_t A :=
  if is_kernel sp || (kernel_map_generation (space v sp) =? g_kernel_map_generation v) then v else
  set_space sp (set_generation (g_kernel_map_generation v) (space v sp))
    (set_pm (copy_kernel_half (pml4_phys (space v sp)) (pml4_phys (g_kernel_space v)) (pm v)) v).

Definition fork_with (entry : vma_table -> Z -> Z -> Z -> Z -> Z -> Z -> pmm_t A -> bool * pmm_t A)
    (dst src : space_ref) v : Z * vmm_t A :=
  let v := set_space dst (set_vmas (vmas (space v src)) (space v dst)) v in
  let '(ok, m) := fork_walk (entry (vmas (space v src)) (pml4_phys (space v dst))) (pml4_phys (space v src)) (pm v) in
  (if ok then 0 else -1, set_pm m v).

Definition vmm_fork_user : space_ref -> space_ref -> vmm_t A -> Z * vmm_t A := fork_with (fun _ => fork_entry cpu).
Definition vmm_fork_user_cow : space_ref -> space_ref -> vmm_t A -> Z * vmm_t A := fork_with (fork_entry_cow cpu).

End spaces.
