(* ===== verification/VmmPte.v ===== *)
(** * Page table entries.

    Facts about the bits of x86-64 page table entries and about the indices of an
    address that [Vmm.v] uses: an entry built from a page address and flags gives
    both back, and the four indices of a user address determine its page. *)

From S2P Require Import Prelude Bits Bitfield Vma Lower LLFree Pmm Vmm.

Lemma has_bit e k : 0 <= k -> has e (2 ^ k) = Z.testbit e k.
Proof.
  intros Hk. unfold has, ztrue. destruct (Z.testbit e k) eqn:Hb.
  - apply negb_true_iff, Z.eqb_neq. intros H0. pose proof (f_equal (fun z => Z.testbit z k) H0) as Ht. cbv beta in Ht.
    by rewrite Z.land_spec, Hb, Z.pow2_bits_true, Z.bits_0 in Ht by done.
  - apply negb_false_iff, Z.eqb_eq, Z.bits_inj'. intros i Hi. rewrite Z.land_spec, Z.bits_0.
    destruct (Z.eq_dec k i) as [<-|]; [by rewrite Hb|]. rewrite Z.pow2_bits_false by done. by rewrite andb_false_r.
Qed.

Lemma has_present e : has e VMM_PRESENT = Z.testbit e 0.
Proof. exact (has_bit e 0 ltac:(lia)). Qed.
Lemma has_write e : has e VMM_WRITE = Z.testbit e 1.
Proof. exact (has_bit e 1 ltac:(lia)). Qed.
Lemma has_user e : has e VMM_USER = Z.testbit e 2.
Proof. exact (has_bit e 2 ltac:(lia)). Qed.
Lemma has_cow e : has e VMM_COW = Z.testbit e 9.
Proof. exact (has_bit e 9 ltac:(lia)). Qed.

Lemma addr_mask_testbit i : 0 <= i -> Z.testbit PTE_ADDR_MASK i = (12 <=? i) && (i <? 52).
Proof.
  intros Hi. change PTE_ADDR_MASK with (Z.shiftl (Z.ones 40) 12). rewrite shiftl_testbit by done.
  destruct (Z.leb_spec 12 i); [|by rewrite Z.testbit_neg_r by lia]. destruct (Z.ltb_spec i 52).
  - by rewrite Z.ones_spec_low by lia.
  - by rewrite Z.ones_spec_high by lia.
Qed.

Lemma flags_mask_testbit i : 0 <= i -> Z.testbit PTE_FLAGS_MASK i = (i <? 12) || (i =? 63).
Proof.
  intros Hi. change PTE_FLAGS_MASK with (Z.lor (2 ^ 63) (Z.ones 12)). rewrite Z.lor_spec, orb_comm. f_equal.
  - destruct (Z.ltb_spec i 12); [by rewrite Z.ones_spec_low by lia|by rewrite Z.ones_spec_high by lia].
  - destruct (Z.eqb_spec i 63) as [->|]; [done|]. by rewrite Z.pow2_bits_false by lia.
Qed.

Lemma pte_addr_testbit e i : 0 <= i -> Z.testbit (pte_addr e) i = Z.testbit e i && ((12 <=? i) && (i <? 52)).
Proof. intros Hi. unfold pte_addr. by rewrite Z.land_spec, addr_mask_testbit. Qed.

(** A page address that fits an entry. *)
Definition is_page (a : Z) : Prop := 0 <= a < 2 ^ 52 /\ a `mod` 4096 = 0.

Lemma is_page_testbit a i : is_page a -> 0 <= i -> Z.testbit a i = true -> 12 <= i < 52.
Proof.
  intros [Ha Hm] Hi Ht. pose proof (testbit_lt_width a 52 i Ha ltac:(lia) Ht). split; [|lia].
  apply Z.nlt_ge. intros Hlt. assert (Z.testbit (a `mod` 2 ^ 12) i = true) as Hz.
  { rewrite mod_pow2_testbit by lia. rewrite (proj2 (Z.ltb_lt _ _)) by lia. by rewrite Ht. }
  change (2 ^ 12) with 4096 in Hz. by rewrite Hm, Z.bits_0 in Hz.
Qed.

Lemma pte_addr_page a : is_page a -> pte_addr a = a.
Proof.
  intros Ha. apply Z.bits_inj'. intros i Hi. rewrite pte_addr_testbit by done. destruct (Z.testbit a i) eqn:Ht; [|done].
  pose proof (is_page_testbit a i Ha Hi Ht). rewrite (proj2 (Z.leb_le _ _)), (proj2 (Z.ltb_lt _ _)) by lia. done.
Qed.

Lemma pte_addr_is_page e : 0 <= e -> is_page (pte_addr e).
Proof.
  intros He. unfold pte_addr. split.
  - rewrite Z.land_comm. apply (land_pow2 PTE_ADDR_MASK e 52); [lia|unfold PTE_ADDR_MASK; lia|done].
  - change 4096 with (2 ^ 12). apply Z.bits_inj'. intros i Hi. rewrite mod_pow2_testbit, Z.bits_0 by lia.
    destruct (Z.ltb_spec i 12); [|done]. change (Z.land e PTE_ADDR_MASK) with (pte_addr e). rewrite pte_addr_testbit by done.
    rewrite (proj2 (Z.leb_gt 12 i)) by lia. by rewrite andb_false_r.
Qed.

(** An entry made of a page and of flags. *)
Definition make_pte (a flags : Z) : Z := Z.lor (Z.lor a (Z.land flags PTE_FLAGS_MASK)) VMM_PRESENT.

Lemma make_pte_testbit a flags i :
  is_page a -> 0 <= i -> Z.testbit (make_pte a flags) i =
  if (12 <=? i) && (i <? 52) then Z.testbit a i else if i =? 0 then true else Z.testbit flags i && ((i <? 12) || (i =? 63)).
Proof.
  intros Ha Hi. unfold make_pte. rewrite !Z.lor_spec, Z.land_spec, flags_mask_testbit by done.
  change VMM_PRESENT with (2 ^ 0). destruct ((12 <=? i) && (i <? 52)) eqn:Hr.
  - dest_bool. rewrite (proj2 (Z.ltb_ge i 12)), (proj2 (Z.eqb_neq i 63)), Z.pow2_bits_false by lia.
    cbn [orb]. by rewrite andb_false_r, !orb_false_r.
  - assert (Z.testbit a i = false) as ->.
    { apply not_true_iff_false. intros Ht%is_page_testbit; [|done|done].
      rewrite (proj2 (Z.leb_le _ _)), (proj2 (Z.ltb_lt _ _)) in Hr by lia. done. }
    destruct (Z.eqb_spec i 0) as [->|]; [by rewrite orb_true_r|]. rewrite Z.pow2_bits_false by lia. by rewrite orb_false_r.
Qed.

Lemma make_pte_addr a flags : is_page a -> pte_addr (make_pte a flags) = a.
Proof.
  intros Ha. apply Z.bits_inj'. intros i Hi. rewrite pte_addr_testbit, make_pte_testbit by done.
  destruct ((12 <=? i) && (i <? 52)) eqn:Hr; [by rewrite andb_true_r|]. rewrite andb_false_r. symmetry.
  apply not_true_iff_false. intros Ht%is_page_testbit; [|done|done].
  rewrite (proj2 (Z.leb_le _ _)), (proj2 (Z.ltb_lt _ _)) in Hr by lia. done.
Qed.

Lemma make_pte_present a flags : is_page a -> has (make_pte a flags) VMM_PRESENT = true.
Proof. intros Ha. rewrite has_present, make_pte_testbit by done. done. Qed.

Lemma make_pte_flag a flags k : is_page a -> 0 < k < 12 -> Z.testbit (make_pte a flags) k = Z.testbit flags k.
Proof.
  intros Ha Hk. rewrite make_pte_testbit by (done || lia). rewrite (proj2 (Z.leb_gt 12 k)), (proj2 (Z.eqb_neq k 0)), (proj2 (Z.ltb_lt k 12)) by lia.
  cbn [andb orb]. by rewrite andb_true_r.
Qed.

Lemma make_pte_u64 a flags : is_page a -> 0 <= flags -> is_u64 (make_pte a flags).
Proof.
  intros [Ha _] Hf. unfold make_pte. apply is_u64_lor; [apply is_u64_lor|unfold VMM_PRESENT, is_u64; lia].
  - unfold is_u64. lia.
  - rewrite Z.land_comm. apply is_u64_land; [|done]. vm_compute. split; congruence.
Qed.

(** An intermediate entry. *)
Lemma table_entry c : is_page c -> Z.lor (Z.lor (Z.lor c VMM_PRESENT) VMM_WRITE) VMM_USER = make_pte c (Z.lor VMM_WRITE VMM_USER).
Proof.
  intros _. unfold make_pte. change (Z.land (Z.lor VMM_WRITE VMM_USER) PTE_FLAGS_MASK) with (Z.lor VMM_WRITE VMM_USER).
  rewrite <-!Z.lor_assoc. f_equal.
Qed.

(** ** Indices *)

Lemma idx_mod va n : 0 <= n -> Z.land (Z.shiftr va n) 0x1FF = (va / 2 ^ n) `mod` 512.
Proof. intros Hn. rewrite Z.shiftr_div_pow2 by done. change 0x1FF with (Z.ones 9). by rewrite Z.land_ones by lia. Qed.

Lemma idx_range va : (0 <= PML4_IDX va < 512) /\ (0 <= PDPT_IDX va < 512) /\ (0 <= PD_IDX va < 512) /\ (0 <= PT_IDX va < 512).
Proof. unfold PML4_IDX, PDPT_IDX, PD_IDX, PT_IDX. rewrite !idx_mod by lia. repeat split; apply Z.mod_pos_bound; lia. Qed.

Lemma idx_user va : 0 <= va < USER_LIMIT -> 0 <= PML4_IDX va < 256.
Proof.
  intros Hva. unfold PML4_IDX, USER_LIMIT in *. rewrite idx_mod by lia.
  pose proof (Z.div_lt_upper_bound va (2 ^ 39) 256 ltac:(lia) ltac:(lia)). pose proof (Z.div_pos va (2 ^ 39) ltac:(lia) ltac:(lia)).
  rewrite Z.mod_small by lia. lia.
Qed.

Lemma idx_page va : 0 <= va < USER_LIMIT ->
  va / 4096 = PT_IDX va + 512 * (PD_IDX va + 512 * (PDPT_IDX va + 512 * PML4_IDX va)).
Proof.
  intros Hva. unfold PML4_IDX, PDPT_IDX, PD_IDX, PT_IDX, USER_LIMIT in *. rewrite !idx_mod by lia.
  assert (Hd : forall k, 0 <= k -> va / 2 ^ (k + 9) = va / 2 ^ k / 512).
  { intros k Hk. rewrite Z.pow_add_r by lia. change (2 ^ 9) with 512. rewrite Z.div_div; [done|apply Z.pow_nonzero; lia|lia]. }
  change (2 ^ 12) with 4096. pose proof (Hd 12 ltac:(lia)) as H1. pose proof (Hd 21 ltac:(lia)) as H2. pose proof (Hd 30 ltac:(lia)) as H3.
  change (12 + 9) with 21 in H1. change (21 + 9) with 30 in H2. change (30 + 9) with 39 in H3. change (2 ^ 12) with 4096 in H1.
  pose proof (Z.div_mod (va / 4096) 512 ltac:(lia)). pose proof (Z.div_mod (va / 2 ^ 21) 512 ltac:(lia)).
  pose proof (Z.div_mod (va / 2 ^ 30) 512 ltac:(lia)). pose proof (Z.div_lt_upper_bound va (2 ^ 39) 256 ltac:(lia) ltac:(lia)).
  pose proof (Z.div_pos va (2 ^ 39) ltac:(lia) ltac:(lia)). rewrite (Z.mod_small (va / 2 ^ 39) 512) by lia. lia.
Qed.

(** The indices depend on the page only. *)
Lemma idx_same_page va va' : va / 4096 = va' / 4096 ->
  PML4_IDX va = PML4_IDX va' /\ PDPT_IDX va = PDPT_IDX va' /\ PD_IDX va = PD_IDX va' /\ PT_IDX va = PT_IDX va'.
Proof.
  intros H. unfold PML4_IDX, PDPT_IDX, PD_IDX, PT_IDX. rewrite !idx_mod by lia.
  assert (Hd : forall k, 0 <= k -> va / 2 ^ (12 + k) = va' / 2 ^ (12 + k)).
  { intros k Hk. rewrite Z.pow_add_r by lia. change (2 ^ 12) with 4096. rewrite <-!Z.div_div by (lia || (apply Z.pow_pos_nonneg; lia)). by rewrite H. }
  pose proof (Hd 0 ltac:(lia)) as H0. pose proof (Hd 9 ltac:(lia)) as H1. pose proof (Hd 18 ltac:(lia)) as H2. pose proof (Hd 27 ltac:(lia)) as H3.
  change (12 + 0) with 12 in H0. change (12 + 9) with 21 in H1. change (12 + 18) with 30 in H2. change (12 + 27) with 39 in H3.
  by rewrite H0, H1, H2, H3.
Qed.
