(* ===== verification/VmmTables.v ===== *)
(** * Correctness of the page tables.

    The tables of the user half of an address space are a tree: no table is
    shared between two paths or two spaces, and each is a page the allocator
    counts as referenced.  The file proves that the operations of [Vmm.v] keep
    this, and states their effect on the leaf entries of every space. *)

From S2P Require Import Prelude Bits Bitfield Vma Lower LLFree Pmm Vmm VmmPte.

Section tables.
Context `{FA : FrameAllocator A}.
Implicit Type s : pmm_t A.

(** ** Paths *)

Fixpoint walk s (t : Z) (p : list Z) : option Z :=
  match p with
  | [] => Some t
  | i :: p => if has (rd s t i) VMM_PRESENT then walk s (pte_addr (rd s t i)) p else None
  end.

Definition valid_path (p : list Z) : Prop :=
  match p with [] => True | i :: q => 0 <= i < 256 /\ Forall (fun j => 0 <= j < 512) q /\ (length q <= 2)%nat end.

Definition table_path (va : Z) : list Z := [PML4_IDX va; PDPT_IDX va; PD_IDX va].

(** The entry [l] of the page table at [p]. *)
Definition leafp s (r : Z) (p : list Z) (l : Z) : Z := match walk s r p with Some t => rd s t l | None => 0 end.

Lemma page_table_walk s r va : page_table s r va = walk s r (table_path va).
Proof. unfold page_table, table_path. cbn [walk]. by repeat destruct (has _ _). Qed.

Lemma leaf_pte_walk s r va : vmm_leaf_pte s r va = leafp s r (table_path va) (PT_IDX va).
Proof. unfold vmm_leaf_pte, leafp. by rewrite page_table_walk. Qed.

Lemma table_path_valid va : 0 <= va < USER_LIMIT -> valid_path (table_path va).
Proof.
  intros Hva. destruct (idx_range va) as (_ & H3 & H2 & _). pose proof (idx_user va Hva).
  split; [done|]. split; [by rewrite !Forall_cons|cbn; lia].
Qed.

Lemma walk_snoc s t p i :
  walk s t (p ++ [i]) =
  match walk s t p with Some t' => if has (rd s t' i) VMM_PRESENT then Some (pte_addr (rd s t' i)) else None | None => None end.
Proof. revert t. induction p as [|j p IH]; intros t; cbn [app walk]; [done|]. by destruct (has _ _). Qed.

Lemma valid_snoc p i : valid_path (p ++ [i]) -> valid_path p /\ 0 <= i < 512 /\ (length p <= 2)%nat.
Proof.
  destruct p as [|j p]; cbn [app valid_path].
  - intros (Hi & _ & _). split; [done|]. cbn. lia.
  - intros (Hj & Hf & Hl). rewrite length_app in Hl. cbn in Hl. apply Forall_app in Hf as [Hf Hi]. apply Forall_cons in Hi as [Hi _].
    split; [split_and!; try done; lia|]. split; [exact Hi|]. cbn. lia.
Qed.

Lemma walk_agree s s' r :
  (forall q i t, valid_path (q ++ [i]) -> walk s r q = Some t -> rd s' t i = rd s t i) ->
  forall p, valid_path p -> walk s' r p = walk s r p.
Proof.
  intros H p. induction p as [|i p IH] using rev_ind; intros Hv; [done|].
  rewrite !walk_snoc. pose proof (valid_snoc p i Hv) as (Hp & _ & _). rewrite IH by done.
  destruct (walk s r p) as [t|] eqn:Ht; [|done]. by rewrite (H p i t Hv Ht).
Qed.

(** ** Words of pages *)

Lemma rd_wr t i v s t' i' :
  is_page t -> is_page t' -> 0 <= i < 512 -> 0 <= i' < 512 ->
  rd (wr t i v s) t' i' = if decide (t' = t /\ i' = i) then v else rd s t' i'.
Proof.
  intros [Ht Hm] [Ht' Hm'] Hi Hi'. unfold rd, wr, set_mem, upd. cbn [mem].
  pose proof (Z.div_mod t 4096 ltac:(lia)). pose proof (Z.div_mod t' 4096 ltac:(lia)).
  destruct (decide (t' = t /\ i' = i)) as [[-> ->]|Hne]; [by rewrite Z.eqb_refl|].
  destruct (Z.eqb_spec (t' + 8 * i') (t + 8 * i)); [|done]. destruct Hne. lia.
Qed.

Lemma page_is_page s f : pmm_inv s -> 0 < live s f -> is_page (page s f) /\ 0 <= f < fa_frames (llf s).
Proof.
  intros [k Hok] Hl. apply (live_pos s k f Hok) in Hl as [Hu _]. apply in_use_true in Hu as [Hf _].
  pose proof (po_first _ _ Hok). unfold is_page, page, PAGE_SIZE. split; [|done]. rewrite Z.mod_mul by lia. lia.
Qed.

(** ** The tree of tables of the spaces with the roots [R] *)

Context (R : list Z).

Definition is_table s (t : Z) : Prop := exists r p, r ∈ R /\ valid_path p /\ walk s r p = Some t.

Record tables s : Prop := {
  tb_inv : pmm_inv s;
  tb_page t : is_table s t -> exists f, t = page s f /\ 0 < live s f;
  tb_inj r r' p p' t : r ∈ R -> r' ∈ R -> valid_path p -> valid_path p' ->
    walk s r p = Some t -> walk s r' p' = Some t -> r = r' /\ p = p';
}.

Lemma table_is_page s t : tables s -> is_table s t -> is_page t.
Proof. intros Hs Ht. destruct (tb_page s Hs t Ht) as (f & -> & Hf). by apply (page_is_page s f (tb_inv s Hs)). Qed.

(** What an operation that only adds empty tables does; [N] holds of the new ones. *)
Record grows_by (N : Z -> Prop) s s' : Prop := {
  gr_mem : same_memory s s';
  gr_walk r p t : r ∈ R -> valid_path p -> walk s r p = Some t -> walk s' r p = Some t;
  gr_leaf r p l : r ∈ R -> valid_path p -> length p = 3%nat -> 0 <= l < 512 -> leafp s' r p l = leafp s r p l;
  gr_live f : 0 < live s f -> live s' f = live s f;
  gr_data f a : 0 < live s f -> ~ is_table s (page s f) -> page s f <= a < page s f + PAGE_SIZE -> mem s' a = mem s a;
  gr_fresh t : is_table s' t -> is_table s t \/ N t;
}.

(** New tables were free pages. *)
Definition unreferenced s (t : Z) : Prop := exists f, t = page s f /\ live s f <= 0.
Definition grows s : pmm_t A -> Prop := grows_by (unreferenced s) s.

Lemma grows_refl s : grows s s.
Proof. split; try done. by left. Qed.

Lemma same_page s s' f : same_memory s s' -> page s' f = page s f.
Proof. intros [H _]. unfold page. by rewrite H. Qed.

Lemma grows_by_trans N s1 s2 s3 : grows s1 s2 -> grows_by N s2 s3 -> (forall t, N t -> unreferenced s1 t) -> grows s1 s3.
Proof.
  intros [M1 W1 L1 V1 D1 F1] [M2 W2 L2 V2 D2 F2] HN. split.
  - split; etransitivity; try apply M2; apply M1.
  - intros r p t Hr Hp Hw. by apply W2, W1.
  - intros r p l Hr Hp Hl Hll. by rewrite L2, L1.
  - intros f Hf. rewrite V2; [by apply V1|by rewrite V1].
  - intros f a Hf Hnt Ha. rewrite D2 with (f := f); [by apply (D1 f)|by rewrite V1| |by rewrite (same_page s1 s2)].
    rewrite (same_page s1 s2 f M1). intros [Ht|(g & Hg & Hl)]%F1; [done|]. apply page_inj in Hg as ->. lia.
  - intros t [Ht|Ht]%F2; [by apply F1|]. right. by apply HN.
Qed.

Lemma grows_trans s1 s2 s3 : grows s1 s2 -> grows s2 s3 -> grows s1 s3.
Proof.
  intros H1 H2. eapply grows_by_trans; [exact H1|exact H2|]. intros t (f & -> & Hl). exists f.
  split; [apply same_page, H1|]. destruct (Z.le_gt_cases (live s1 f) 0) as [|Hgt]; [done|].
  rewrite (gr_live _ _ _ H1) in Hl by lia. lia.
Qed.

(** ** Operations that leave the tables alone *)

Definition same_tables s s' : Prop := forall t i, is_table s t -> 0 <= i < 512 -> rd s' t i = rd s t i.

Lemma same_tables_walk s s' r p : same_tables s s' -> r ∈ R -> valid_path p -> walk s' r p = walk s r p.
Proof.
  intros H Hr. apply walk_agree. intros q i t Hv Hw. destruct (valid_snoc q i Hv) as (Hq & Hi & _).
  apply H; [by exists r, q|done].
Qed.

Lemma same_tables_leaf s s' r p l : same_tables s s' -> r ∈ R -> valid_path p -> 0 <= l < 512 -> leafp s' r p l = leafp s r p l.
Proof.
  intros H Hr Hp Hl. unfold leafp. rewrite (same_tables_walk s s') by done. destruct (walk s r p) as [t|] eqn:Hw; [|done].
  apply H; [by exists r, p|done].
Qed.

Lemma same_tables_is_table s s' t : same_tables s s' -> is_table s' t <-> is_table s t.
Proof.
  intros H. split; intros (r & p & Hr & Hp & Hw); exists r, p; split_and!; try done.
  - by rewrite <-(same_tables_walk s s').
  - by rewrite (same_tables_walk s s').
Qed.

Lemma same_tables_ok s s' :
  tables s -> same_tables s s' -> pmm_inv s' -> same_memory s s' -> (forall f, is_table s (page s f) -> 0 < live s' f) -> tables s'.
Proof.
  intros Hs Ht Hi Hm Hl. split; [done| |].
  - intros t Hit. apply (same_tables_is_table s s' t Ht) in Hit. destruct (tb_page s Hs t Hit) as (f & -> & _).
    exists f. split; [symmetry; by apply same_page|by apply Hl].
  - intros r r' p p' t Hr Hr' Hp Hp' Hw Hw'. rewrite (same_tables_walk s s') in Hw, Hw' by done.
    by apply (tb_inj s Hs r r' p p' t).
Qed.

(** A page that is not referenced is not a table, and writes to it change no table. *)
Lemma unreferenced_page s f : tables s -> live s f <= 0 -> ~ is_table s (page s f).
Proof. intros Hs Hl (g & Hg & Hlg)%(tb_page s Hs). apply page_inj in Hg as ->. lia. Qed.

Lemma same_tables_outside s s' b :
  tables s -> is_page b -> ~ is_table s b -> (forall a, ~ (b <= a < b + PAGE_SIZE) -> mem s' a = mem s a) -> same_tables s s'.
Proof.
  intros Hs [Hb Hbm] Hnt Hm t i Ht Hi. unfold rd. apply Hm. pose proof (table_is_page s t Hs Ht) as [Hp Hpm].
  unfold PAGE_SIZE. pose proof (Z.div_mod b 4096 ltac:(lia)). pose proof (Z.div_mod t 4096 ltac:(lia)).
  intros Hin. assert (t = b) as -> by lia. done.
Qed.

(** An allocation; [c] is the page. *)
Lemma alloc_tables s s' f :
  tables s -> pmm_inv s' -> same_memory s s' -> 0 <= f < fa_frames (llf s) -> live s f = 0 ->
  (forall q, live s' q = if q =? f then 1 else live s q) ->
  (forall a, ~ (page s f <= a < page s f + PAGE_SIZE) -> mem s' a = mem s a) ->
  tables s' /\ same_tables s s' /\ grows s s' /\ is_page (page s f) /\ ~ is_table s' (page s f).
Proof.
  intros Hs Hi Hsm Hf Hl0 Hl Hm. assert (Hp : is_page (page s f)).
  { rewrite <-(same_page s s' f Hsm). apply (page_is_page s' f Hi). rewrite Hl, Z.eqb_refl. lia. }
  pose proof (unreferenced_page s f Hs ltac:(lia)) as Hnt. pose proof (same_tables_outside s s' _ Hs Hp Hnt Hm) as Hst.
  assert (Hlive : forall g, 0 < live s g -> live s' g = live s g).
  { intros g Hg. rewrite Hl. destruct (Z.eqb_spec g f) as [->|]; [lia|done]. }
  split_and!; try done.
  - apply (same_tables_ok s s'); try done. intros g Hg. destruct (tb_page s Hs _ Hg) as (g' & Hg' & Hlg).
    apply page_inj in Hg' as ->. by rewrite Hlive.
  - split; try done.
    + intros r p t Hr Hv Hw. by rewrite (same_tables_walk s s').
    + intros r p l Hr Hv _ Hll. by apply same_tables_leaf.
    + intros g a Hg _ Ha. apply Hm. unfold page, PAGE_SIZE in *. intros Hin. assert (g = f) as -> by lia. lia.
    + intros t Ht. left. by apply (same_tables_is_table s s').
  - by rewrite (same_tables_is_table s s').
Qed.

Lemma zeroed_tables cpu s :
  tables s ->
  match pmm_alloc_zeroed cpu s with
  | (Some c, s') => tables s' /\ same_tables s s' /\ grows s s' /\ is_page c /\ ~ is_table s' c /\
      (exists f, c = page s f /\ live s f = 0 /\ live s' f = 1) /\ forall i, 0 <= i < 512 -> rd s' c i = 0
  | (None, s') => tables s' /\ same_tables s s' /\ grows s s'
  end.
Proof.
  intros Hs. destruct (tb_inv s Hs) as [k Hok]. destruct (pmm_alloc_zeroed_ok cpu s k Hok) as [(k' & _ & Hok') H].
  destruct (pmm_alloc_zeroed cpu s) as [[c|] s']; cbn [snd zeroed_spec] in *.
  - destruct H as (f & -> & Hf & Hsm & Hl0 & Hl & Hm).
    destruct (alloc_tables s s' f) as (H1 & H2 & H3 & H4 & H5); try done; [by exists k'| |].
    { intros a Ha. rewrite Hm. unfold zero_page. destruct (_ && _) eqn:Hr; [|done]. dest_bool. lia. }
    split_and!; try done.
    + exists f. split_and!; try done. rewrite Hl. unfold upd. by rewrite Z.eqb_refl.
    + intros i Hi. unfold rd. rewrite Hm. unfold zero_page, PAGE_SIZE.
      by rewrite (proj2 (Z.leb_le _ _)), (proj2 (Z.ltb_lt _ _)) by lia.
  - destruct H as (Hsm & Hm & Hl). assert (Hst : same_tables s s') by (intros t i _ _; unfold rd; by rewrite Hm).
    split_and!; [|done|].
    + apply (same_tables_ok s s'); try done; [by exists k'|]. intros f Hf. rewrite Hl.
      destruct (tb_page s Hs _ Hf) as (g & Hg & Hlg). by apply page_inj in Hg as ->.
    + split; try done.
      * intros r p t Hr Hv Hw. by rewrite (same_tables_walk s s').
      * intros r p l Hr Hv _ Hll. by apply same_tables_leaf.
      * intros f a _ _ _. by rewrite Hm.
      * intros t Ht. left. by apply (same_tables_is_table s s').
Qed.

(** ** Adding a table *)

Lemma wr_inv s t i v : tables s -> is_table s t -> 0 <= i < 512 -> pmm_inv (wr t i v s).
Proof.
  intros Hs Ht Hi. destruct (tb_inv s Hs) as [k Hok]. exists k. apply write_ok; [done|]. intros a. unfold upd.
  destruct (Z.eqb_spec a (t + 8 * i)) as [->|]; [right|by left]. destruct (tb_page s Hs t Ht) as (f & -> & Hf).
  exists f. split; [done|]. unfold PAGE_SIZE. lia.
Qed.

Section link.
Context s (Hs : tables s) (r0 : Z) (p0 : list Z) (t0 i0 c e f : Z).
Hypothesis Hr0 : r0 ∈ R.
Hypothesis Hv0 : valid_path (p0 ++ [i0]).
Hypothesis Hw0 : walk s r0 p0 = Some t0.
Hypothesis Habsent : has (rd s t0 i0) VMM_PRESENT = false.
Hypothesis Hc : c = page s f.
Hypothesis Hlive : 0 < live s f.
Hypothesis Hnt : ~ is_table s c.
Hypothesis Hzero : forall i, 0 <= i < 512 -> rd s c i = 0.
Hypothesis He : has e VMM_PRESENT = true.
Hypothesis Hea : pte_addr e = c.

Let s' := wr t0 i0 e s.

Lemma link_facts : is_table s t0 /\ is_page t0 /\ is_page c /\ 0 <= i0 < 512 /\ (length p0 <= 2)%nat /\ valid_path p0 /\ c <> t0.
Proof.
  destruct (valid_snoc p0 i0 Hv0) as (Hp & Hi & Hl). assert (Ht : is_table s t0) by by exists r0, p0.
  split_and!; try done; try (by apply (table_is_page s)); try lia.
  - rewrite Hc. by apply (page_is_page s f (tb_inv s Hs)).
  - intros ->. done.
Qed.

Lemma link_walk r p : r ∈ R -> valid_path p ->
  walk s' r p = if decide (r = r0 /\ p = p0 ++ [i0]) then Some c else walk s r p.
Proof.
  destruct link_facts as (Ht0 & Hpt & Hpc & Hi0 & Hl0 & Hp0 & Hne). intros Hr.
  induction p as [|i q IH] using rev_ind; intros Hv.
  { cbn [walk]. destruct (decide _) as [[_ H]|]; [|done]. by destruct p0. }
  destruct (valid_snoc q i Hv) as (Hq & Hi & _). rewrite !walk_snoc, IH by done.
  destruct (decide (r = r0 /\ q = p0 ++ [i0])) as [[-> ->]|Hd].
  - rewrite walk_snoc, Hw0, Habsent. rewrite decide_False by (intros [_ Heq]; apply app_inj_tail in Heq as [Heq _]; apply (f_equal length) in Heq; rewrite length_app in Heq; cbn in Heq; lia).
    unfold s'. rewrite rd_wr by done. rewrite decide_False by (intros [Heq _]; done). by rewrite Hzero.
  - destruct (walk s r q) as [t|] eqn:Hw.
    2:{ rewrite decide_False; [done|]. intros [-> [-> ->]%app_inj_tail]. congruence. }
    assert (Ht : is_table s t) by by exists r, q. unfold s'. rewrite rd_wr by (done || by apply (table_is_page s)).
    destruct (decide (t = t0 /\ i = i0)) as [[-> ->]|Hd'].
    + destruct (tb_inj s Hs r r0 q p0 t0) as [-> ->]; try done. rewrite He, Hea. by rewrite decide_True.
    + rewrite decide_False; [done|]. intros [-> [-> ->]%app_inj_tail]. apply Hd'. split; congruence.
Qed.

Lemma link_grows : tables s' /\ grows_by (eq c) s s' /\ walk s' r0 (p0 ++ [i0]) = Some c.
Proof.
  destruct link_facts as (Ht0 & Hpt & Hpc & Hi0 & Hl0 & Hp0 & Hne).
  assert (Hold : walk s r0 (p0 ++ [i0]) = None) by (by rewrite walk_snoc, Hw0, Habsent).
  assert (Htab : forall t, is_table s' t -> t = c \/ is_table s t).
  { intros t (r & p & Hr & Hp & Hw). rewrite link_walk in Hw by done. destruct (decide _); [left; congruence|].
    right. by exists r, p. }
  split_and!.
  - split.
    + by apply wr_inv.
    + intros t [->|Ht]%Htab; [by exists f|]. by destruct (tb_page s Hs t Ht) as (g & -> & Hg); exists g.
    + intros r r' p p' t Hr Hr' Hp Hp' Hw Hw'. rewrite link_walk in Hw, Hw' by done.
      destruct (decide (r = r0 /\ p = p0 ++ [i0])) as [[-> ->]|]; destruct (decide (r' = r0 /\ p' = p0 ++ [i0])) as [[-> ->]|].
      * done.
      * injection Hw as <-. destruct Hnt. by exists r', p'.
      * injection Hw' as <-. destruct Hnt. by exists r, p.
      * by apply (tb_inj s Hs r r' p p' t).
  - split.
    + done.
    + intros r p t Hr Hp Hw. rewrite link_walk by done. rewrite decide_False; [done|]. intros [-> ->]. congruence.
    + intros r p l Hr Hp Hlen Hl. unfold leafp. rewrite link_walk by done. destruct (decide _) as [[-> ->]|].
      * rewrite Hold. unfold s'. rewrite rd_wr by done. rewrite decide_False by (intros [Heq _]; done). by apply Hzero.
      * destruct (walk s r p) as [t|] eqn:Hw; [|done]. assert (Ht : is_table s t) by by exists r, p.
        unfold s'. rewrite rd_wr by (done || by apply (table_is_page s)). rewrite decide_False; [done|]. intros [-> _].
        destruct (tb_inj s Hs r r0 p p0 t0) as [_ ->]; try done. lia.
    + done.
    + intros g a Hg Hng Ha. unfold s', wr, set_mem, upd. cbn [mem]. destruct (Z.eqb_spec a (t0 + 8 * i0)) as [->|]; [|done].
      destruct (tb_page s Hs t0 Ht0) as (h & -> & Hh). destruct Hng. unfold page, PAGE_SIZE in *. by replace g with h by lia.
    + intros t [->|Ht]%Htab; [by right|by left].
  - rewrite link_walk by done. by rewrite decide_True.
Qed.
End link.

Lemma descend_ok cpu s r0 p0 t0 i0 :
  tables s -> r0 ∈ R -> valid_path (p0 ++ [i0]) -> walk s r0 p0 = Some t0 ->
  match descend cpu t0 i0 s with
  | (Some c, s') => tables s' /\ grows s s' /\ walk s' r0 (p0 ++ [i0]) = Some c
  | (None, s') => tables s' /\ grows s s'
  end.
Proof.
  intros Hs Hr Hv Hw. unfold descend. destruct (has (rd s t0 i0) VMM_PRESENT) eqn:Hp.
  { split_and!; [done|apply grows_refl|]. by rewrite walk_snoc, Hw, Hp. }
  pose proof (zeroed_tables cpu s Hs) as H. destruct (pmm_alloc_zeroed cpu s) as [[c|] s1].
  2:{ destruct H as (H1 & _ & H2). done. }
  destruct H as (Hs1 & Hst & Hg & Hpc & Hnt & (f & Hcf & Hl0 & Hl1) & Hz). destruct (valid_snoc p0 i0 Hv) as (Hv0 & Hi0 & _).
  rewrite table_entry by done. assert (Ht0 : is_table s t0) by by exists r0, p0.
  assert (Hcf1 : c = page s1 f) by (rewrite Hcf; symmetry; apply same_page, Hg).
  destruct (link_grows s1 Hs1 r0 p0 t0 i0 c (make_pte c (Z.lor VMM_WRITE VMM_USER)) f) as (H1 & H2 & H3); try done.
  - by apply (gr_walk _ _ _ Hg).
  - by rewrite (Hst t0 i0).
  - lia.
  - by apply make_pte_present.
  - by apply make_pte_addr.
  - rewrite rd_wr by (done || by apply (table_is_page s)). rewrite decide_True by done. rewrite make_pte_addr by done.
    split_and!; try done. eapply grows_by_trans; [exact Hg|exact H2|]. intros t <-. exists f. split; [done|lia].
Qed.

(** ** Writing a leaf entry *)

(** [s'] is [s] with the entry [l] of the page table at [p] in the space [r] set to [v]. *)
Record leaf_set s s' (r : Z) (p : list Z) (l v : Z) : Prop := {
  ls_tables : tables s';
  ls_mem : same_memory s s';
  ls_walk r' p' : r' ∈ R -> valid_path p' -> walk s' r' p' = walk s r' p';
  ls_leaf r' p' l' : r' ∈ R -> valid_path p' -> length p' = 3%nat -> 0 <= l' < 512 ->
    leafp s' r' p' l' = if decide (r' = r /\ p' = p /\ l' = l) then v else leafp s r' p' l';
  ls_live f : live s' f = live s f;
  ls_data f a : 0 < live s f -> ~ is_table s (page s f) -> page s f <= a < page s f + PAGE_SIZE -> mem s' a = mem s a;
}.

Lemma leaf_set_ok s r p t l v :
  tables s -> r ∈ R -> valid_path p -> length p = 3%nat -> 0 <= l < 512 -> walk s r p = Some t ->
  leaf_set s (wr t l v s) r p l v.
Proof.
  intros Hs Hr Hp Hlen Hl Hw. assert (Ht : is_table s t) by by exists r, p. pose proof (table_is_page s t Hs Ht) as Hpt.
  assert (Hrd : forall t' i, is_table s t' -> 0 <= i < 512 -> rd (wr t l v s) t' i = if decide (t' = t /\ i = l) then v else rd s t' i).
  { intros t' i Ht' Hi. apply rd_wr; try done. by apply (table_is_page s). }
  assert (Hwalk : forall r' p', r' ∈ R -> valid_path p' -> walk (wr t l v s) r' p' = walk s r' p').
  { intros r' p' Hr' Hp'. apply walk_agree; [|done]. intros q i t' Hv Hw'. destruct (valid_snoc q i Hv) as (Hq & Hi & Hlq).
    rewrite Hrd by (done || by exists r', q). rewrite decide_False; [done|]. intros [-> _].
    destruct (tb_inj s Hs r r' p q t) as [_ ->]; try done. lia. }
  assert (Hit : forall t', is_table (wr t l v s) t' <-> is_table s t').
  { intros t'. split; intros (r' & p' & Hr' & Hp' & Hw'); exists r', p'; split_and!; try done; [by rewrite <-Hwalk|by rewrite Hwalk]. }
  split; try done.
  - split.
    + by apply wr_inv.
    + intros t' Ht'%Hit. apply (tb_page s Hs t' Ht').
    + intros r1 r2 p1 p2 t' H1 H2 H3 H4. rewrite !Hwalk by done. by apply (tb_inj s Hs).
  - intros r' p' l' Hr' Hp' Hlen' Hl'. unfold leafp. rewrite Hwalk by done. destruct (walk s r' p') as [t'|] eqn:Hw'.
    + rewrite Hrd by (done || by exists r', p'). destruct (decide (t' = t /\ l' = l)) as [[-> ->]|Hd].
      * destruct (tb_inj s Hs r' r p' p t) as [-> ->]; try done. by rewrite decide_True.
      * rewrite decide_False; [done|]. intros (-> & -> & ->). apply Hd. split; congruence.
    + rewrite decide_False; [done|]. intros (-> & -> & _). congruence.
  - intros f a Hf Hnt Ha. unfold wr, set_mem, upd. cbn [mem]. destruct (Z.eqb_spec a (t + 8 * l)) as [->|]; [|done].
    destruct (tb_page s Hs t Ht) as (h & -> & Hh). destruct Hnt. unfold page, PAGE_SIZE in *. by replace f with h by lia.
Qed.

(** ** Mapping a page *)

(** The effect of a call on the leaf entries: at most the one of [virt] in [r] changes. *)
Definition others_same s s' (r virt : Z) : Prop :=
  forall r' va, r' ∈ R -> 0 <= va < USER_LIMIT -> r' <> r \/ va / 4096 <> virt / 4096 -> vmm_leaf_pte s' r' va = vmm_leaf_pte s r' va.

Lemma path_page va va' : 0 <= va < USER_LIMIT -> 0 <= va' < USER_LIMIT ->
  table_path va = table_path va' /\ PT_IDX va = PT_IDX va' <-> va / 4096 = va' / 4096.
Proof.
  intros H1 H2. unfold table_path. split.
  - intros [[= H4 H3 H2'] Hl]. rewrite (idx_page va), (idx_page va') by done. congruence.
  - intros H. destruct (idx_same_page va va' H) as (-> & -> & -> & ->). done.
Qed.

Lemma leaf_set_pte s s' r virt v :
  r ∈ R -> 0 <= virt < USER_LIMIT -> leaf_set s s' r (table_path virt) (PT_IDX virt) v ->
  vmm_leaf_pte s' r virt = v /\ others_same s s' r virt.
Proof.
  intros Hr Hva Hls. destruct (idx_range virt) as (_ & _ & _ & Hl). split.
  - rewrite leaf_pte_walk, (ls_leaf _ _ _ _ _ _ Hls) by (done || by apply table_path_valid). by rewrite decide_True.
  - intros r' va Hr' Hva' Hne. destruct (idx_range va) as (_ & _ & _ & Hl').
    rewrite !leaf_pte_walk, (ls_leaf _ _ _ _ _ _ Hls) by (done || by apply table_path_valid).
    rewrite decide_False; [done|]. intros (-> & Hp & Hi). destruct Hne as [|Hne]; [done|]. by apply Hne, path_page.
Qed.

Lemma grows_pte s s' r va : grows s s' -> r ∈ R -> 0 <= va < USER_LIMIT -> vmm_leaf_pte s' r va = vmm_leaf_pte s r va.
Proof.
  intros Hg Hr Hva. rewrite !leaf_pte_walk. apply (gr_leaf _ _ _ Hg); try done; [by apply table_path_valid|apply idx_range].
Qed.

Lemma map_page_ok cpu s r virt phys flags :
  tables s -> r ∈ R -> 0 <= virt < USER_LIMIT ->
  match map_page cpu r virt phys flags s with
  | (true, s') => has (vmm_leaf_pte s r virt) VMM_PRESENT = false /\ exists s1, tables s1 /\ grows s s1 /\
      leaf_set s1 s' r (table_path virt) (PT_IDX virt) (make_pte (pte_addr phys) flags)
  | (false, s') => tables s' /\ grows s s'
  end.
Proof.
  intros Hs Hr Hva. unfold map_page. destruct (_ && _); [split; [done|apply grows_refl]|].
  pose proof (table_path_valid virt Hva) as Hv. destruct (idx_range virt) as (_ & _ & _ & Hl).
  set (i4 := PML4_IDX virt) in *. set (i3 := PDPT_IDX virt) in *. set (i2 := PD_IDX virt) in *.
  change (table_path virt) with ((([] ++ [i4]) ++ [i3]) ++ [i2]) in *. destruct (valid_snoc _ _ Hv) as (Hv3 & _). destruct (valid_snoc _ _ Hv3) as (Hv4 & _).
  pose proof (descend_ok cpu s r [] r i4 Hs Hr Hv4 eq_refl) as H4. destruct (descend cpu r i4 s) as [[pdpt|] s1]; [|done].
  destruct H4 as (Hs1 & Hg1 & Hw1).
  pose proof (descend_ok cpu s1 r _ pdpt i3 Hs1 Hr Hv3 Hw1) as H3. destruct (descend cpu pdpt i3 s1) as [[pd|] s2].
  2:{ destruct H3 as [H3 H3']. split; [done|by eapply grows_trans]. }
  destruct H3 as (Hs2 & Hg2 & Hw2). pose proof (grows_trans _ _ _ Hg1 Hg2) as Hg12.
  pose proof (descend_ok cpu s2 r _ pd i2 Hs2 Hr Hv Hw2) as H2. destruct (descend cpu pd i2 s2) as [[pt|] s3].
  2:{ destruct H2 as [H2 H2']. split; [done|by eapply grows_trans]. }
  destruct H2 as (Hs3 & Hg3 & Hw3). pose proof (grows_trans _ _ _ Hg12 Hg3) as Hg.
  assert (Hleaf : vmm_leaf_pte s r virt = rd s3 pt (PT_IDX virt)).
  { rewrite <-(grows_pte s s3) by done. rewrite leaf_pte_walk. unfold leafp.
    change (table_path virt) with ((([] ++ [i4]) ++ [i3]) ++ [i2]). by rewrite Hw3. }
  destruct (has (rd s3 pt (PT_IDX virt)) VMM_PRESENT) eqn:Hp; [done|]. rewrite Hleaf. split; [done|].
  exists s3. split; [done|]. split; [done|]. by apply leaf_set_ok.
Qed.

(** A call that changes the tables and at most the entry of [virt] in [r]. *)
Record changes s s' (r virt : Z) : Prop := {
  ch_tables : tables s';
  ch_mem : same_memory s s';
  ch_others : others_same s s' r virt;
  ch_walk r' p t : r' ∈ R -> valid_path p -> walk s r' p = Some t -> walk s' r' p = Some t;
  ch_live f : 0 < live s f -> live s' f = live s f;
  ch_data f a : 0 < live s f -> ~ is_table s (page s f) -> page s f <= a < page s f + PAGE_SIZE -> mem s' a = mem s a;
  ch_fresh t : is_table s' t -> is_table s t \/ unreferenced s t;
}.

Lemma grows_changes s s' r virt : tables s' -> grows s s' -> changes s s' r virt.
Proof.
  intros Hs' Hg. split; try apply Hg; [done|]. intros r' va Hr' Hva _. by apply grows_pte.
Qed.

Lemma leaf_set_is_table s s' r p l v t : leaf_set s s' r p l v -> is_table s' t <-> is_table s t.
Proof.
  intros Hls. split; intros (r' & p' & Hr' & Hp' & Hw'); exists r', p'; split_and!; try done.
  - by rewrite <-(ls_walk _ _ _ _ _ _ Hls).
  - by rewrite (ls_walk _ _ _ _ _ _ Hls).
Qed.

Lemma grows_leaf_changes s s1 s' r virt v :
  tables s1 -> grows s s1 -> r ∈ R -> 0 <= virt < USER_LIMIT -> leaf_set s1 s' r (table_path virt) (PT_IDX virt) v ->
  changes s s' r virt /\ vmm_leaf_pte s' r virt = v.
Proof.
  intros Hs1 Hg Hr Hva Hls. destruct (leaf_set_pte s1 s' r virt v Hr Hva Hls) as [Hv Ho]. split; [split|done].
  - apply Hls.
  - split; etransitivity; try apply (ls_mem _ _ _ _ _ _ Hls); apply Hg.
  - intros r' va Hr' Hva' Hne. rewrite Ho by done. by apply grows_pte.
  - intros r' p t Hr' Hp Hw. rewrite (ls_walk _ _ _ _ _ _ Hls) by done. by apply (gr_walk _ _ _ Hg).
  - intros f Hf. rewrite (ls_live _ _ _ _ _ _ Hls). by apply (gr_live _ _ _ Hg).
  - intros f a Hf Hnt Ha. rewrite (ls_data _ _ _ _ _ _ Hls f).
    + by apply (gr_data _ _ _ Hg f).
    + by rewrite (gr_live _ _ _ Hg).
    + rewrite (same_page s s1 f) by apply Hg. intros [Ht|(g & Hg' & Hl)]%(gr_fresh _ _ _ Hg); [done|]. apply page_inj in Hg' as ->. lia.
    + by rewrite (same_page s s1 f) by apply Hg.
  - intros t Ht. apply (gr_fresh _ _ _ Hg). by apply (leaf_set_is_table _ _ _ _ _ _ _ Hls).
Qed.

Lemma map_page_changes cpu s r virt phys flags :
  tables s -> r ∈ R -> 0 <= virt < USER_LIMIT ->
  let '(ok, s') := map_page cpu r virt phys flags s in
  changes s s' r virt /\
  if ok then has (vmm_leaf_pte s r virt) VMM_PRESENT = false /\ vmm_leaf_pte s' r virt = make_pte (pte_addr phys) flags
  else vmm_leaf_pte s' r virt = vmm_leaf_pte s r virt.
Proof.
  intros Hs Hr Hva. pose proof (map_page_ok cpu s r virt phys flags Hs Hr Hva) as H.
  destruct (map_page cpu r virt phys flags s) as [[] s'].
  - destruct H as (Hp & s1 & Hs1 & Hg & Hls). destruct (grows_leaf_changes s s1 s' r virt _ Hs1 Hg Hr Hva Hls). done.
  - destruct H as [Hs' Hg]. split; [by apply grows_changes|by apply grows_pte].
Qed.

(** ** Unmapping and protecting *)

Lemma set_entry_changes s r virt v pt :
  tables s -> r ∈ R -> 0 <= virt < USER_LIMIT -> page_table s r virt = Some pt ->
  changes s (wr pt (PT_IDX virt) v s) r virt /\ vmm_leaf_pte (wr pt (PT_IDX virt) v s) r virt = v.
Proof.
  intros Hs Hr Hva Hpt. rewrite page_table_walk in Hpt. apply (grows_leaf_changes s s); try done; [apply grows_refl|].
  apply leaf_set_ok; try done; [by apply table_path_valid|apply idx_range].
Qed.

Lemma changes_refl s r virt : tables s -> changes s s r virt.
Proof. intros Hs. apply grows_changes; [done|apply grows_refl]. Qed.

Lemma vmm_unmap_changes s r virt :
  tables s -> r ∈ R -> 0 <= virt < USER_LIMIT -> changes s (vmm_unmap r virt s) r virt /\ vmm_leaf_pte (vmm_unmap r virt s) r virt = 0.
Proof.
  intros Hs Hr Hva. unfold vmm_unmap. destruct (page_table s r virt) as [pt|] eqn:Hpt; [by apply set_entry_changes|].
  split; [by apply changes_refl|]. unfold vmm_leaf_pte. by rewrite Hpt.
Qed.

Lemma vmm_protect_changes s r virt flags :
  tables s -> r ∈ R -> 0 <= virt < USER_LIMIT ->
  let '(ok, s') := vmm_protect r virt flags s in
  changes s s' r virt /\ ok = has (vmm_leaf_pte s r virt) VMM_PRESENT /\
  vmm_leaf_pte s' r virt = if ok then make_pte (pte_addr (vmm_leaf_pte s r virt)) flags else vmm_leaf_pte s r virt.
Proof.
  intros Hs Hr Hva. unfold vmm_protect. destruct (page_table s r virt) as [pt|] eqn:Hpt.
  - assert (Hl : vmm_leaf_pte s r virt = rd s pt (PT_IDX virt)) by (unfold vmm_leaf_pte; by rewrite Hpt). rewrite Hl.
    destruct (has _ _) eqn:Hp; cbn [negb].
    + destruct (set_entry_changes s r virt (make_pte (pte_addr (rd s pt (PT_IDX virt))) flags) pt) as [H1 H2]; try done.
    + split; [by apply changes_refl|done].
  - split; [by apply changes_refl|]. unfold vmm_leaf_pte. by rewrite Hpt.
Qed.

(** ** Checks of user memory *)

Lemma leaf_same_page s r va va' : va / 4096 = va' / 4096 -> vmm_leaf_pte s r va = vmm_leaf_pte s r va'.
Proof.
  intros H. destruct (idx_same_page va va' H) as (H4 & H3 & H2 & H1). unfold vmm_leaf_pte, page_table. by rewrite H4, H3, H2, H1.
Qed.

Lemma page_mask x : is_u64 x -> Z.land x PAGE_MASK = 4096 * (x / 4096).
Proof.
  intros Hx. change PAGE_MASK with (u64 (Z.lnot (2 ^ 12 - 1))). rewrite Bits.align_down by (done || lia).
  change (2 ^ 12) with 4096. pose proof (Z.div_mod x 4096 ltac:(lia)). lia.
Qed.

(** What an access of the user needs of an entry. *)
Definition user_ok (write : bool) (pte : Z) : bool :=
  has pte VMM_PRESENT && has pte VMM_USER && (negb write || has pte VMM_WRITE).

Lemma range_ok_step fuel s r pg last write :
  range_ok_pages (S fuel) s r pg last write =
  if user_ok write (vmm_leaf_pte s r pg) then
    if pg =? last then Some true else range_ok_pages fuel s r (u64 (pg + 0x1000)) last write
  else Some false.
Proof. unfold user_ok. cbn [range_ok_pages]. by destruct (has _ VMM_PRESENT), (has _ VMM_USER), write, (has _ VMM_WRITE). Qed.

Lemma range_ok_pages_spec fuel s r write n :
  0 <= n -> 4096 * (n + Z.of_nat fuel) < 2 ^ 64 ->
  range_ok_pages (S fuel) s r (4096 * n) (4096 * (n + Z.of_nat fuel)) write =
  Some (forallb (fun i => user_ok write (vmm_leaf_pte s r (4096 * i))) (seqZ n (Z.of_nat (S fuel)))).
Proof.
  revert n. induction fuel as [|fuel IH]; intros n Hn Hb; rewrite range_ok_step, seqZ_cons by lia; cbn [forallb].
  - rewrite Z.add_0_r, Z.eqb_refl. change (Z.pred (Z.of_nat 1)) with 0. by destruct (user_ok _ _).
  - rewrite (proj2 (Z.eqb_neq _ _)) by lia. rewrite u64_small by (unfold is_u64; lia).
    replace (4096 * n + 4096) with (4096 * Z.succ n) by lia.
    replace (4096 * (n + Z.of_nat (S fuel))) with (4096 * (Z.succ n + Z.of_nat fuel)) by lia.
    rewrite IH by lia. replace (Z.pred (Z.of_nat (S (S fuel)))) with (Z.of_nat (S fuel)) by lia. by destruct (user_ok _ _).
Qed.

Lemma user_range_ok_spec s r virt len write :
  is_u64 virt -> is_u64 len -> 0 < len ->
  exists b, vmm_user_range_ok s r virt len write = Some b /\
  (b = true <-> virt + len < 2 ^ 64 /\ forall a, virt <= a < virt + len -> user_ok write (vmm_leaf_pte s r a) = true).
Proof.
  intros Hv Hl Hpos. unfold vmm_user_range_ok. rewrite (proj2 (Z.eqb_neq len 0)) by lia.
  destruct (u64_add_cases virt len Hv Hl) as [[-> Hb]|[-> Hb]].
  2:{ rewrite (proj2 (Z.ltb_lt _ virt)) by (unfold is_u64 in *; lia). exists false. split; [done|]. split; [done|lia]. }
  rewrite (proj2 (Z.ltb_ge _ virt)) by lia. unfold is_u64 in *. rewrite (u64_small (virt + len - 1)) by (unfold is_u64; lia).
  rewrite !page_mask by (unfold is_u64; lia). set (n := virt / 4096). set (m := (virt + len - 1) / 4096).
  assert (Hnm : n <= m) by (apply Z.div_le_mono; lia). pose proof (Z.div_pos virt 4096 ltac:(lia) ltac:(lia)) as Hn0.
  pose proof (Z.div_mod (virt + len - 1) 4096 ltac:(lia)) as Hdm. pose proof (Z.mod_pos_bound (virt + len - 1) 4096 ltac:(lia)). fold m in Hdm.
  unfold pages_between. change 0x1000 with 4096. replace (4096 * m - 4096 * n) with ((m - n) * 4096) by lia. rewrite Z.div_mul by lia.
  replace (Z.to_nat (m - n + 1)) with (S (Z.to_nat (m - n))) by lia.
  replace (4096 * m) with (4096 * (n + Z.of_nat (Z.to_nat (m - n)))) by lia.
  rewrite range_ok_pages_spec by lia. eexists. split; [done|]. rewrite forallb_forall. split.
  - intros H'. split; [done|]. intros a Ha. rewrite (leaf_same_page s r a (4096 * (a / 4096))).
    + apply H', list_elem_of_In, elem_of_seqZ. pose proof (Z.div_le_mono virt a 4096 ltac:(lia) ltac:(lia)) as Ha1.
      pose proof (Z.div_le_mono a (virt + len - 1) 4096 ltac:(lia) ltac:(lia)) as Ha2. fold n in Ha1. fold m in Ha2. lia.
    + by rewrite Z.mul_comm, Z.div_mul by lia.
  - intros [_ H'] i Hi%list_elem_of_In%elem_of_seqZ. pose proof (Z.div_mod virt 4096 ltac:(lia)) as Hdv. fold n in Hdv.
    pose proof (Z.mod_pos_bound virt 4096 ltac:(lia)).
    rewrite (leaf_same_page s r (4096 * i) (Z.max virt (4096 * i))); [apply H'; lia|].
    rewrite Z.mul_comm, Z.div_mul by lia. apply (Z.div_unique _ 4096 i (Z.max virt (i * 4096) - i * 4096)); lia.
Qed.

(** ** Copy-on-write faults *)

Definition same_content s s' (p p' : Z) : Prop := forall o, 0 <= o < PAGE_SIZE -> mem s' (p' + o) = mem s (p + o).

Lemma page_table_chain s r va pt : page_table s r va = Some pt ->
  pte_addr (rd s (pte_addr (rd s (pte_addr (rd s r (PML4_IDX va))) (PDPT_IDX va))) (PD_IDX va)) = pt.
Proof. unfold page_table. repeat (destruct (has _ _); cbn [negb]; [|done]). by intros [= <-]. Qed.

Lemma leaf_present_table s r va : has (vmm_leaf_pte s r va) VMM_PRESENT = true -> exists pt, page_table s r va = Some pt.
Proof. unfold vmm_leaf_pte. destruct (page_table s r va) as [pt|]; [by exists pt|done]. Qed.

(** A fresh page with the content of another one. *)
Lemma alloc_copy_ok cpu s src :
  tables s ->
  match pmm_alloc cpu s with
  | (Some c, s1) =>
      let s2 := set_mem (copy_page c src (mem s1)) s1 in
      exists g, c = page s g /\ live s g = 0 /\ (forall q, live s2 q = if q =? g then 1 else live s q) /\
        tables s2 /\ same_tables s s2 /\ grows s s2 /\ is_page c /\ ~ is_table s2 c /\
        (forall o, 0 <= o < PAGE_SIZE -> mem s2 (c + o) = mem s (src + o)) /\
        forall a, ~ (c <= a < c + PAGE_SIZE) -> mem s2 a = mem s a
  | (None, s1) => tables s1 /\ same_tables s s1 /\ grows s s1
  end.
Proof.
  intros Hs. destruct (tb_inv s Hs) as [k Hok]. pose proof (pmm_alloc_ok cpu s k Hok) as H.
  destruct (pmm_alloc cpu s) as [[c|] s1]; cbn [alloc_spec] in H.
  - destruct H as (g & -> & Hg0 & Hgb & Hok1 & Hsm & Hz & Hm & Hl0 & Hl). cbv zeta. set (s2 := set_mem _ s1).
    assert (Hl1 : forall q, live s1 q = if q =? g then 1 else live s q) by (intros q; by rewrite Hl, in_block_one).
    assert (Hm2 : forall a, ~ (page s g <= a < page s g + PAGE_SIZE) -> mem s2 a = mem s a).
    { intros a Ha. unfold s2, set_mem, copy_page. cbn [mem]. rewrite Hm. destruct (_ && _) eqn:Hr; [|done]. dest_bool. lia. }
    assert (Hok2 : pmm_ok s2 k).
    { apply write_ok; [done|]. intros a. unfold copy_page. destruct (_ && _) eqn:Hr; [right|by left]. exists g.
      rewrite Hl1, Z.eqb_refl. rewrite (same_page s s1 g Hsm). dest_bool. lia. }
    destruct (alloc_tables s s2 g) as (H1 & H2 & H3 & H4 & H5); try done; [by exists k|lia|by apply (Hl0 g ltac:(lia))|].
    exists g. split_and!; try done; [by apply (Hl0 g ltac:(lia))|]. intros o Ho. unfold s2, set_mem, copy_page. cbn [mem].
    rewrite (proj2 (Z.leb_le _ _)), (proj2 (Z.ltb_lt _ _)) by lia. rewrite Hm. cbn [andb]. f_equal. lia.
  - destruct H as (Hok1 & Hsm & Hz & Hm & Hl). assert (Hst : same_tables s s1) by (intros t i _ _; unfold rd; by rewrite Hm).
    split_and!; [|done|].
    + apply (same_tables_ok s s1); try done; [by exists k|]. intros f Hf. rewrite Hl.
      destruct (tb_page s Hs _ Hf) as (g & Hg & Hlg). by apply page_inj in Hg as ->.
    + split; try done.
      * intros r p t Hr Hv Hw. by rewrite (same_tables_walk s s1).
      * intros r p l Hr Hv _ Hll. by apply same_tables_leaf.
      * intros f a _ _ _. by rewrite Hm.
      * intros t Ht. left. by apply (same_tables_is_table s s1).
Qed.

(** Dropping a reference to a data page. *)
Lemma free_data_ok cpu s f :
  tables s -> (cpu < MAX_CPUS)%nat -> 0 < live s f -> ~ is_table s (page s f) ->
  let s' := pmm_free cpu (page s f) s in
  tables s' /\ same_tables s s' /\ same_memory s s' /\ mem s' = mem s /\ forall q, live s' q = if q =? f then live s f - 1 else live s q.
Proof.
  intros Hs Hcpu Hl Hnt. cbv zeta. destruct (tb_inv s Hs) as [k Hok].
  destruct (pmm_free_ok cpu s k f Hok Hcpu Hl) as (Hok' & Hsm & Hm & _ & Hl'). set (s' := pmm_free _ _ _) in *.
  assert (Hst : same_tables s s') by (intros t i _ _; unfold rd; by rewrite Hm). split_and!; try done; try apply Hsm.
  apply (same_tables_ok s s'); try done; [by exists k|]. intros g Hg. rewrite Hl'. unfold upd.
  destruct (Z.eqb_spec g f) as [->|]; [done|]. destruct (tb_page s Hs _ Hg) as (h & Hh & Hlh). by apply page_inj in Hh as ->.
Qed.

Lemma same_tables_pte s s' r va : same_tables s s' -> r ∈ R -> 0 <= va < USER_LIMIT -> vmm_leaf_pte s' r va = vmm_leaf_pte s r va.
Proof. intros. rewrite !leaf_pte_walk. apply same_tables_leaf; try done; [by apply table_path_valid|apply idx_range]. Qed.

(** The flags of the entry after the fault. *)
Definition cow_flags (pte : Z) : Z := clear_bits (Z.lor (Z.land pte PTE_FLAGS_MASK) VMM_WRITE) VMM_COW.

Lemma cow_flags_testbit pte k : 0 <= k < 12 ->
  Z.testbit (cow_flags pte) k = negb (k =? 9) && ((k =? 1) || Z.testbit pte k).
Proof.
  intros Hk. unfold cow_flags. rewrite clear_bits_low, Z.lor_spec, Z.land_spec, flags_mask_testbit by lia.
  change VMM_WRITE with (2 ^ 1). change VMM_COW with (2 ^ 9). rewrite (proj2 (Z.ltb_lt k 12)) by lia. cbn [orb]. rewrite andb_true_r.
  destruct (Z.eqb_spec k 9) as [->|]; [by rewrite Z.pow2_bits_true, andb_false_r by lia|]. rewrite (Z.pow2_bits_false 9) by lia.
  cbn [negb andb]. rewrite andb_true_r, orb_comm. f_equal. destruct (Z.eqb_spec k 1) as [->|]; [by rewrite Z.pow2_bits_true by lia|by rewrite Z.pow2_bits_false by lia].
Qed.

Lemma page_mask_page virt : 0 <= virt < USER_LIMIT ->
  Z.land virt PAGE_MASK / 4096 = virt / 4096 /\ 0 <= Z.land virt PAGE_MASK < USER_LIMIT.
Proof.
  intros Hv. unfold USER_LIMIT in *. rewrite page_mask by (unfold is_u64; lia). rewrite Z.mul_comm, Z.div_mul by lia.
  pose proof (Z.mul_div_le virt 4096 ltac:(lia)). pose proof (Z.div_pos virt 4096 ltac:(lia) ltac:(lia)). lia.
Qed.

(** What a copy-on-write fault on the entry [e] of [virt], which maps the frame [f], does. *)
Record cow_done s s' (r virt e f : Z) (g : Z) : Prop := {
  cd_leaf : vmm_leaf_pte s' r virt = make_pte (page s g) (cow_flags e);
  cd_alone : live s' g = 1;
  cd_content : same_content s s' (page s f) (page s g);
  cd_which : (g = f /\ live s f = 1) \/ (g <> f /\ live s g = 0 /\ live s' f = live s f - 1);
  cd_live q : q <> f -> q <> g -> live s' q = live s q;
}.

Definition data_same s s' : Prop :=
  forall q a, 0 < live s q -> ~ is_table s (page s q) -> page s q <= a < page s q + PAGE_SIZE -> mem s' a = mem s a.

Lemma content_same s s' q : data_same s s' -> 0 < live s q -> ~ is_table s (page s q) -> same_content s s' (page s q) (page s q).
Proof. intros H Hl Hnt o Ho. apply (H q); try done. lia. Qed.

(** The copying branch of the fault. *)
Lemma cow_copy_ok cpu s r virt e f :
  tables s -> (cpu < MAX_CPUS)%nat -> r ∈ R -> 0 <= virt < USER_LIMIT -> vmm_leaf_pte s r virt = e -> has e VMM_PRESENT = true ->
  0 < live s f -> ~ is_table s (page s f) ->
  match pmm_alloc cpu s with
  | (None, s1) => tables s1 /\ grows s s1
  | (Some c, s1) =>
      let s2 := set_mem (copy_page c (page s f) (mem s1)) s1 in
      let pt := pte_addr (rd s2 (pte_addr (rd s2 (pte_addr (rd s2 r (PML4_IDX virt))) (PDPT_IDX virt))) (PD_IDX virt)) in
      let s' := pmm_free cpu (page s f) (wr pt (PT_IDX virt) (make_pte c (cow_flags e)) s2) in
      tables s' /\ same_memory s s' /\ others_same s s' r virt /\ data_same s s' /\ exists g, cow_done s s' r virt e f g
  end.
Proof.
  intros Hs Hcpu Hr Hva He Hp Hlf Hnt. pose proof (alloc_copy_ok cpu s (page s f) Hs) as H.
  destruct (pmm_alloc cpu s) as [[c|] s1]; [|by destruct H as (H1 & _ & H2)]. cbv zeta in *. set (s2 := set_mem _ s1) in *.
  destruct H as (g & -> & Hlg & Hl2 & Hs2 & Hst & Hg & Hpc & Hntc & Hcopy & Hm2).
  assert (Hne : g <> f) by (intros ->; lia). pose proof (gr_mem _ _ _ Hg) as Hsm2.
  rewrite <-(same_tables_pte s s2 r virt) in He by done. subst e. destruct (leaf_present_table _ _ _ Hp) as (pt & Hpt).
  rewrite (page_table_chain s2 r virt pt Hpt). set (v := make_pte _ _).
  destruct (set_entry_changes s2 r virt v pt Hs2 Hr Hva Hpt) as [Hch Hleaf]. set (s3 := wr pt (PT_IDX virt) v s2) in *.
  assert (Hsm3 : same_memory s s3) by done. assert (Hpf : page s f = page s3 f) by (symmetry; by apply same_page). 
  assert (Hit : forall t, is_table s3 t -> is_table s t).
  { intros t Ht. apply (same_tables_is_table s s2 t Hst). rewrite page_table_walk in Hpt.
    refine (proj1 (leaf_set_is_table s2 s3 r (table_path virt) (PT_IDX virt) v t _) Ht).
    apply leaf_set_ok; try done; [by apply table_path_valid|apply idx_range]. }
  assert (Hl3 : forall q, live s3 q = if q =? g then 1 else live s q) by (intros q; by rewrite <-Hl2).
  assert (Hlf3 : live s3 f = live s f) by (rewrite Hl3; by rewrite (proj2 (Z.eqb_neq f g)) by lia).
  rewrite Hpf. destruct (free_data_ok cpu s3 f) as (Hs4 & Hst4 & Hsm4 & Hm4 & Hl4);
    [apply Hch|done|lia|rewrite <-Hpf; intros Ht; by apply Hnt, Hit|]. set (s4 := pmm_free cpu (page s3 f) s3) in *.
  assert (Hd : data_same s s4).
  { intros q a Hq Hntq Ha. rewrite Hm4. assert (q <> g) by (intros ->; lia). assert (Hpq : page s2 q = page s q) by by apply same_page.
    rewrite (ch_data _ _ _ _ Hch q); [|by rewrite Hl2, (proj2 (Z.eqb_neq q g))|by rewrite Hpq, (same_tables_is_table s s2)|by rewrite Hpq].
    apply Hm2. unfold page, PAGE_SIZE in *. intros Hin. lia. }
  split_and!; try done.
  - split; etransitivity; try apply Hsm4; apply Hsm3.
  - intros r' va Hr' Hva' Hd'. rewrite (same_tables_pte s3 s4) by done. rewrite (ch_others _ _ _ _ Hch) by done. by apply same_tables_pte.
  - exists g. split.
    + rewrite (same_tables_pte s3 s4) by done. exact Hleaf.
    + rewrite Hl4, (proj2 (Z.eqb_neq g f)), Hl3, Z.eqb_refl by done. done.
    + intros o Ho. rewrite Hm4. rewrite (ch_data _ _ _ _ Hch g).
      * by apply Hcopy.
      * rewrite Hl2, Z.eqb_refl. lia.
      * by rewrite (same_page s s2).
      * rewrite (same_page s s2) by done. lia.
    + right. split_and!; try done. rewrite Hl4, Z.eqb_refl. lia.
    + intros q Hq1 Hq2. rewrite Hl4, (proj2 (Z.eqb_neq q f)), Hl3, (proj2 (Z.eqb_neq q g)) by done. done.
Qed.

Lemma ref_count_one s f : pmm_inv s -> 0 < live s f -> pmm_ref_count (page s f) s = 1 -> live s f = 1.
Proof.
  intros [k Hok] Hl. pose proof (proj1 (live_pos s k f Hok) Hl) as [Hu Hp]. apply in_use_true in Hu as [Hf _].
  destruct (page_index_ok s k f Hok Hf) as (Hidx & _ & _ & Hnz). unfold pmm_ref_count.
  rewrite (proj2 (Z.eqb_neq _ _) Hnz), Hidx. cbv zeta. destruct (Z.ltb_spec f PMM_REF_MAX_FRAMES); [|lia].
  by rewrite (live_refs s f) by (done || lia).
Qed.

Lemma cow_fault_ok cpu s r virt f :
  tables s -> (cpu < MAX_CPUS)%nat -> r ∈ R -> 0 <= virt < USER_LIMIT ->
  let e := vmm_leaf_pte s r virt in
  has e VMM_PRESENT = true -> has e VMM_COW = true -> pte_addr e = page s f -> 0 < live s f -> ~ is_table s (page s f) ->
  let '(res, s') := vmm_handle_cow_fault cpu r virt s in
  tables s' /\ same_memory s s' /\ others_same s s' r virt /\ data_same s s' /\
  (res = 1 /\ (exists g, cow_done s s' r virt e f g) \/
   res = -1 /\ vmm_leaf_pte s' r virt = e /\ forall q, 0 < live s q -> live s' q = live s q).
Proof.
  intros Hs Hcpu Hr Hva. cbv zeta. intros Hp Hc Hpf Hlf Hnt. unfold vmm_handle_cow_fault.
  destruct (page_mask_page virt Hva) as [Hpg Hpr]. rewrite (leaf_same_page s r _ virt Hpg). set (e := vmm_leaf_pte s r virt) in *.
  rewrite Hp, Hc. cbn [negb orb]. rewrite Hpf. change (clear_bits _ VMM_COW) with (cow_flags e).
  destruct (Z.eqb_spec (pmm_ref_count (page s f) s) 1) as [H1|_].
  - pose proof (ref_count_one s f (tb_inv s Hs) Hlf H1) as Hl1.
    pose proof (vmm_protect_changes s r (Z.land virt PAGE_MASK) (cow_flags e) Hs Hr Hpr) as H.
    destruct (vmm_protect r _ (cow_flags e) s) as [ok s'] eqn:Hpe. destruct H as (Hch & Hok & Hleaf).
    rewrite (leaf_same_page s r (Z.land virt PAGE_MASK) virt Hpg) in Hleaf, Hok. rewrite (leaf_same_page s' r (Z.land virt PAGE_MASK) virt Hpg) in Hleaf.
    fold e in Hleaf, Hok. rewrite Hp in Hok. subst ok. rewrite Hpf in Hleaf.
    assert (Hlive : forall q, live s' q = live s q).
    { unfold vmm_protect in Hpe. destruct (page_table s r _); [|done]. destruct (negb _); [done|]. by injection Hpe as <-. }
    assert (Hd : data_same s s') by (intros q a; apply (ch_data _ _ _ _ Hch)).
    split; [apply Hch|]. split; [apply Hch|]. split.
    { intros r' va Hr' Hva' Hne. apply (ch_others _ _ _ _ Hch); [done|done|]. by rewrite Hpg. }
    split; [done|]. left. split; [done|]. exists f. split; try done.
    + by rewrite Hlive.
    + by apply content_same.
    + by left.
  - pose proof (cow_copy_ok cpu s r virt e f Hs Hcpu Hr Hva eq_refl Hp Hlf Hnt) as H.
    destruct (pmm_alloc cpu s) as [[c|] s1].
    + cbv zeta in *. destruct H as (H1 & H2 & H3 & H4 & H5). split_and!; try done; try apply H2. by left.
    + destruct H as [H1 Hg]. split; [done|]. split; [apply Hg|]. split; [intros r' va Hr' Hva' _; by apply grows_pte|].
      split; [intros q a; apply (gr_data _ _ _ Hg)|]. right. split; [done|]. split; [by apply grows_pte|]. apply (gr_live _ _ _ Hg).
Qed.
End tables.
