(* ===== verification/MemInv.v ===== *)
(** * References to mapped pages.

    The invariant that makes page mappings safe: every present user entry maps a
    frame in use that is not a page table, and a frame has at least as many
    references as there are entries that map it, in all address spaces together,
    plus the references the kernel itself holds at that moment (the list [X]).
    The operations of [Vmm.v] hand references over between the two: allocating
    or retaining a page adds one to [X], mapping a page moves one from [X] into
    the table, unmapping moves it back, and [pmm_free] gives one up. *)

From S2P Require Import Prelude Bits Bitfield Vma Lower LLFree Pmm Vmm VmmPte VmmTables.

(** The number of user pages. *)
Definition NPAGES : Z := 2 ^ 35.

Lemma page_range m : 0 <= m < NPAGES -> 0 <= 4096 * m < USER_LIMIT /\ 4096 * m / 4096 = m.
Proof. unfold NPAGES, USER_LIMIT. intros Hm. rewrite Z.mul_comm, Z.div_mul by lia. lia. Qed.

Lemma range_page va : 0 <= va < USER_LIMIT -> 0 <= va / 4096 < NPAGES /\ 4096 * (va / 4096) / 4096 = va / 4096.
Proof.
  unfold NPAGES, USER_LIMIT. intros Hva. split; [|by rewrite Z.mul_comm, Z.div_mul by lia].
  split; [apply Z.div_pos; lia|apply Z.div_lt_upper_bound; lia].
Qed.

(** Occurrences of [f] in [X]. *)
Definition occ (f : Z) (X : list Z) : Z := Z.of_nat (count_if (Z.eqb f) X).

Lemma same_memory_trans `{FA : FrameAllocator A} (s1 s2 s3 : pmm_t A) : same_memory s1 s2 -> same_memory s2 s3 -> same_memory s1 s3.
Proof. intros [? ?] [? ?]. split; congruence. Qed.

Lemma occ_cons f g X : occ f (g :: X) = (if f =? g then 1 else 0) + occ f X.
Proof. unfold occ. cbn [count_if]. destruct (f =? g); lia. Qed.

Lemma occ_nonneg f X : 0 <= occ f X.
Proof. unfold occ. lia. Qed.

Lemma occ_app f X Y : occ f (X ++ Y) = occ f X + occ f Y.
Proof. induction X as [|x X IH]; [done|]. cbn [app]. rewrite !occ_cons, IH. lia. Qed.

Lemma occ_pos f X : 0 < occ f X -> f ∈ X.
Proof.
  induction X as [|x X IH]; [done|]. rewrite occ_cons. destruct (Z.eqb_spec f x) as [->|]; [left|]. intros H. right. apply IH. lia.
Qed.

Section inv.
Context `{FA : FrameAllocator A}.
Context (R : list Z).
Implicit Type s : pmm_t A.

(** The page [n] of the space with root [r] maps the frame [f]. *)
Definition maps s (x : Z * Z) (f : Z) : bool :=
  has (vmm_leaf_pte s x.1 (4096 * x.2)) VMM_PRESENT && (pte_addr (vmm_leaf_pte s x.1 (4096 * x.2)) =? page s f).

Definition slot_ok (x : Z * Z) : Prop := x.1 ∈ R /\ 0 <= x.2 < NPAGES.

(** A page that may be mapped: a frame in use that is no page table. *)
Definition data_page s (e f : Z) : Prop := pte_addr e = page s f /\ 0 < live s f /\ ~ is_table R s (page s f).

Record mem_inv (X : list Z) s : Prop := {
  mi_tables : tables R s;
  mi_frame x : slot_ok x -> has (vmm_leaf_pte s x.1 (4096 * x.2)) VMM_PRESENT = true -> exists f, maps s x f = true;
  mi_data x f : slot_ok x -> maps s x f = true -> ~ is_table R s (page s f);
  mi_spare f : f ∈ X -> ~ is_table R s (page s f);
  mi_refs f L : NoDup L -> (forall x, x ∈ L -> slot_ok x /\ maps s x f = true) -> Z.of_nat (length L) + occ f X <= live s f;
}.

Lemma maps_same s s' x f : page s' f = page s f -> vmm_leaf_pte s' x.1 (4096 * x.2) = vmm_leaf_pte s x.1 (4096 * x.2) -> maps s' x f = maps s x f.
Proof. intros Hp Hl. unfold maps. by rewrite Hp, Hl. Qed.

Lemma mi_live X s x f : mem_inv X s -> slot_ok x -> maps s x f = true -> 0 < live s f.
Proof.
  intros H Hx Hm. pose proof (mi_refs X s H f [x] (NoDup_singleton x)) as Hr. cbn [length] in Hr. pose proof (occ_nonneg f X).
  enough (Z.of_nat 1 + occ f X <= live s f) by lia. apply Hr. by intros y ->%list_elem_of_singleton.
Qed.

Lemma mi_spare_live X s f : mem_inv X s -> f ∈ X -> 0 < live s f.
Proof.
  intros H Hf. pose proof (mi_refs X s H f [] (NoDup_nil_2)) as Hr. assert (0 < occ f X).
  { clear -Hf. induction X as [|x X IH]; [by apply not_elem_of_nil in Hf|]. rewrite occ_cons. pose proof (occ_nonneg f X).
    apply elem_of_cons in Hf as [->|Hf]; [rewrite Z.eqb_refl; lia|]. specialize (IH Hf). destruct (f =? x); lia. }
  cbn [length] in Hr. enough (Z.of_nat 0 + occ f X <= live s f) by lia. apply Hr. intros y Hy. by apply not_elem_of_nil in Hy.
Qed.

Lemma mi_data_page X s r va :
  mem_inv X s -> r ∈ R -> 0 <= va < USER_LIMIT -> has (vmm_leaf_pte s r va) VMM_PRESENT = true -> exists f, data_page s (vmm_leaf_pte s r va) f.
Proof.
  intros H Hr Hva Hp. destruct (range_page va Hva) as [Hn Hd]. assert (Hx : slot_ok (r, va / 4096)) by done.
  rewrite (leaf_same_page s r va (4096 * (va / 4096))) in Hp |- * by done.
  destruct (mi_frame X s H _ Hx Hp) as [f Hf]. exists f. pose proof (mi_live _ _ _ _ H Hx Hf). pose proof (mi_data X s H _ f Hx Hf).
  unfold maps in Hf. cbn [fst snd] in Hf. apply andb_true_iff in Hf as [_ Hf%Z.eqb_eq]. done.
Qed.

(** ** A change of at most one entry

    [o] is the page whose entry changes; the reference counts move with the
    entry and with the references held by the kernel. *)
Definition refs_of s (o : option (Z * Z)) (f : Z) : Z :=
  match o with Some x => if maps s x f then 1 else 0 | None => 0 end.

Section change.
Context (X X' : list Z) (s s' : pmm_t A) (o : option (Z * Z)).
Context (Hinv : mem_inv X s) (Ht' : tables R s') (Hsm : same_memory s s').
Hypothesis Ho : forall x, o = Some x -> slot_ok x.
Hypothesis Hfresh : forall t, is_table R s' t -> is_table R s t \/ unreferenced s t.
Hypothesis Hothers : forall x, slot_ok x -> o <> Some x -> vmm_leaf_pte s' x.1 (4096 * x.2) = vmm_leaf_pte s x.1 (4096 * x.2).
Hypothesis Hframe : forall x, o = Some x -> has (vmm_leaf_pte s' x.1 (4096 * x.2)) VMM_PRESENT = true ->
  exists f, maps s' x f = true /\ ~ is_table R s' (page s f).
Hypothesis Hspare : forall f, f ∈ X' -> ~ is_table R s' (page s f).
Hypothesis Hused : forall f, 0 < live s f -> live s f + (refs_of s' o f - refs_of s o f) + (occ f X' - occ f X) <= live s' f.
Hypothesis Hnew : forall f, live s f <= 0 -> refs_of s' o f + occ f X' <= live s' f.

Lemma change_maps x f : slot_ok x -> o <> Some x -> maps s' x f = maps s x f.
Proof. intros Hx Hne. apply maps_same; [by apply same_page|by apply Hothers]. Qed.

(** Without the changed entry. *)
Lemma change_filter f L :
  NoDup L -> (forall x, x ∈ L -> slot_ok x /\ maps s' x f = true) ->
  exists L0, NoDup L0 /\ (forall x, x ∈ L0 -> o <> Some x /\ slot_ok x /\ maps s x f = true) /\
    Z.of_nat (length L) <= Z.of_nat (length L0) + refs_of s' o f.
Proof.
  intros Hnd HL. exists (filter (fun x => o <> Some x) L). split_and!; [by apply NoDup_filter| |].
  { intros x [Hne Hx]%list_elem_of_filter. destruct (HL x Hx) as [Hok Hm]. split_and!; try done. by rewrite <-change_maps. }
  assert (Hle : forall l, (forall x, x ∈ L -> o <> Some x \/ x ∈ l) -> Z.of_nat (length L) <= Z.of_nat (length (filter (fun x => o <> Some x) L)) + Z.of_nat (length l)).
  { intros l Hl. assert (Hsub : L ⊆+ filter (fun x => o <> Some x) L ++ l).
    { apply NoDup_submseteq; [done|]. intros x Hx. apply elem_of_app. destruct (Hl x Hx); [left|by right]. by apply list_elem_of_filter. }
    apply submseteq_length in Hsub. rewrite length_app in Hsub. lia. }
  destruct o as [x0|] eqn:Heq; cbn [refs_of].
  - destruct (decide (x0 ∈ L)) as [Hin|Hn].
    + rewrite (proj2 (HL x0 Hin)). apply (Hle [x0]). intros x Hx. destruct (decide (x = x0)) as [->|]; [right; left|left; congruence].
    + enough (Z.of_nat (length L) <= Z.of_nat (length (filter (fun x => Some x0 <> Some x) L)) + 0) by (destruct (maps s' x0 f); lia).
      apply (Hle []). intros x Hx. left. congruence.
  - apply (Hle []). by left.
Qed.

Lemma change_refs f L : NoDup L -> (forall x, x ∈ L -> slot_ok x /\ maps s' x f = true) -> Z.of_nat (length L) + occ f X' <= live s' f.
Proof.
  intros Hnd HL. destruct (change_filter f L Hnd HL) as (L0 & Hnd0 & HL0 & Hlen).
  destruct (Z.le_gt_cases (live s f) 0) as [H0|Hpos].
  - assert (length L0 = 0%nat).
    { destruct L0 as [|x L0]; [done|]. destruct (HL0 x (list_elem_of_here _ _)) as (_ & Hok & Hm). pose proof (mi_live _ _ _ _ Hinv Hok Hm). lia. }
    specialize (Hnew f H0). lia.
  - specialize (Hused f Hpos). enough (Z.of_nat (length L0) + refs_of s o f + occ f X <= live s f) by lia.
    destruct o as [x0|] eqn:Heq; cbn [refs_of]; [destruct (maps s x0 f) eqn:Hm0|].
    + pose proof (mi_refs X s Hinv f (x0 :: L0)) as Hr. cbn [length] in Hr. enough (Z.of_nat (S (length L0)) + occ f X <= live s f) by lia.
      apply Hr.
      * apply NoDup_cons. split; [|done]. by intros [Hne _]%HL0.
      * intros x [->|Hx]%elem_of_cons; [split; [by apply Ho|done]|by apply HL0].
    + pose proof (mi_refs X s Hinv f L0 Hnd0 (fun x Hx => proj2 (HL0 x Hx))). lia.
    + pose proof (mi_refs X s Hinv f L0 Hnd0 (fun x Hx => proj2 (HL0 x Hx))). lia.
Qed.

Lemma change_inv : mem_inv X' s'.
Proof.
  assert (Hpg : forall f, page s' f = page s f) by (intros f; by apply same_page).
  assert (Hold : forall f, 0 < live s f -> ~ is_table R s (page s f) -> ~ is_table R s' (page s f)).
  { intros f Hl Hnt [Ht|(g & Hg & Hlg)]%Hfresh; [done|]. apply page_inj in Hg as ->. lia. }
  assert (Hfr : forall x, slot_ok x -> has (vmm_leaf_pte s' x.1 (4096 * x.2)) VMM_PRESENT = true -> exists f, maps s' x f = true /\ ~ is_table R s' (page s f)).
  { intros x Hx Hp. destruct (decide (o = Some x)) as [Heq|Hne]; [by apply Hframe|]. rewrite Hothers in Hp by done.
    destruct (mi_frame X s Hinv x Hx Hp) as [f Hf]. exists f. rewrite change_maps by done. split; [done|].
    apply Hold; [by eapply mi_live|by apply (mi_data X s Hinv x)]. }
  split; try done.
  - intros x Hx Hp. destruct (Hfr x Hx Hp) as (f & Hf & _). by exists f.
  - intros x f Hx Hm. pose proof Hm as Hm'. unfold maps in Hm'. apply andb_true_iff in Hm' as [Hp Ha%Z.eqb_eq].
    destruct (Hfr x Hx Hp) as (g & Hg & Hnt). unfold maps in Hg. apply andb_true_iff in Hg as [_ Hg%Z.eqb_eq].
    rewrite Ha in Hg. apply page_inj in Hg as ->. by rewrite Hpg.
  - intros f Hf. rewrite Hpg. by apply Hspare.
  - exact change_refs.
Qed.
End change.

Lemma mi_nonneg X s f : mem_inv X s -> 0 <= live s f.
Proof. intros H. destruct (tb_inv _ _ (mi_tables _ _ H)) as [k Hk]. by apply (live_nonneg s k). Qed.

Lemma tables_nonneg s f : tables R s -> 0 <= live s f.
Proof. intros H. destruct (tb_inv _ _ H) as [k Hk]. by apply (live_nonneg s k). Qed.

(** ** The operations *)

(** No entry changes. *)
Lemma quiet_inv X X' s s' :
  mem_inv X s -> tables R s' -> same_memory s s' ->
  (forall t, is_table R s' t -> is_table R s t \/ unreferenced s t) ->
  (forall r va, r ∈ R -> 0 <= va < USER_LIMIT -> vmm_leaf_pte s' r va = vmm_leaf_pte s r va) ->
  (forall f, f ∈ X' -> ~ is_table R s' (page s f)) ->
  (forall f, 0 < live s f -> live s f + (occ f X' - occ f X) <= live s' f) -> (forall f, live s f <= 0 -> occ f X' <= live s' f) ->
  mem_inv X' s'.
Proof.
  intros H Ht Hsm Hfr Hl Hsp Hu Hn. apply (change_inv X X' s s' None); try done.
  - intros [r n] [Hr Hn'] _. apply Hl; [done|]. by apply page_range.
  - intros f Hf. cbn [refs_of]. specialize (Hu f Hf). lia.
Qed.

Lemma grows_inv X s s' : mem_inv X s -> tables R s' -> grows R s s' -> mem_inv X s'.
Proof.
  intros H Ht Hg. apply (quiet_inv X X s s'); try done; try apply Hg.
  - intros r va Hr Hva. by apply (grows_pte R).
  - intros f Hf [Htf|(g & Hg' & Hl)]%(gr_fresh _ _ _ _ Hg); [by apply (mi_spare X s H f)|].
    apply page_inj in Hg' as <-. pose proof (mi_spare_live X s f H Hf). lia.
  - intros f Hf. rewrite (gr_live _ _ _ _ Hg) by done. lia.
  - intros f Hf. destruct (Z.le_gt_cases (occ f X) 0) as [H0|H0]; [pose proof (tables_nonneg s' f Ht); lia|].
    apply occ_pos in H0. pose proof (mi_spare_live X s f H H0). lia.
Qed.

(** One entry changes; [X] and the new entry only name frames already held. *)
Lemma changes_inv X X' s s' r va :
  mem_inv X s -> changes R s s' r va -> r ∈ R -> 0 <= va < USER_LIMIT ->
  let x := (r, va / 4096) in
  (has (vmm_leaf_pte s' r va) VMM_PRESENT = true -> exists f, pte_addr (vmm_leaf_pte s' r va) = page s f) ->
  (forall f, f ∈ X' \/ maps s' x f = true -> f ∈ X \/ maps s x f = true) ->
  (forall f, refs_of s' (Some x) f + occ f X' <= refs_of s (Some x) f + occ f X) ->
  mem_inv X' s'.
Proof.
  intros H Hch Hr Hva x Hfr Hheld Hrefs. destruct (range_page va Hva) as [Hn Hd]. assert (Hx : slot_ok x) by done.
  assert (Hpg : forall f, page s' f = page s f) by (intros f; apply same_page, Hch).
  assert (Hleaf : forall q : pmm_t A, vmm_leaf_pte q r (4096 * (va / 4096)) = vmm_leaf_pte q r va) by (intros q; by apply leaf_same_page).
  assert (Hlive : forall f, f ∈ X \/ maps s x f = true -> 0 < live s f /\ ~ is_table R s' (page s f)).
  { intros f Hf. assert (Hl : 0 < live s f /\ ~ is_table R s (page s f)).
    { destruct Hf as [Hf|Hf]; [split; [by eapply mi_spare_live|by eapply mi_spare]|split; [by eapply mi_live|by eapply mi_data]]. }
    destruct Hl as [Hl Hnt]. split; [done|]. intros [Ht|(g & Hg & Hlg)]%(ch_fresh _ _ _ _ _ Hch); [done|]. apply page_inj in Hg as ->. lia. }
  apply (change_inv X X' s s' (Some x)); try done; try apply Hch.
  - by intros ? [= <-].
  - intros [r' n] [Hr' Hn'] Hne. cbn [fst snd] in *. destruct (page_range n Hn') as [Hrn Hdn]. apply (ch_others _ _ _ _ _ Hch); [done|done|].
    destruct (decide (r' = r)) as [->|]; [right|by left]. rewrite Hdn. intros ->. by apply Hne.
  - intros ? [= <-] Hp. cbn [fst snd x] in Hp. rewrite Hleaf in Hp. destruct (Hfr Hp) as [f Hf]. exists f.
    assert (Hm : maps s' x f = true). { unfold maps. cbn [fst snd x]. by rewrite Hleaf, Hp, Hf, Hpg, Z.eqb_refl. }
    split; [done|]. apply Hlive, Hheld. by right.
  - intros f Hf. apply Hlive, Hheld. by left.
  - intros f Hf. rewrite (ch_live _ _ _ _ _ Hch) by done. specialize (Hrefs f). lia.
  - intros f Hf. specialize (Hrefs f). pose proof (tables_nonneg s' f (ch_tables _ _ _ _ _ Hch)).
    assert (Hno : ~ (f ∈ X \/ maps s x f = true)) by (intros [Hl _]%Hlive; lia).
    assert (occ f X <= 0) by (destruct (Z.le_gt_cases (occ f X) 0) as [|Hg]; [done|]; apply occ_pos in Hg; destruct Hno; by left).
    cbn [refs_of] in *. destruct (maps s x f); [destruct Hno; by right|lia].
Qed.

Lemma mi_page_nz X s f : mem_inv X s -> 0 < live s f -> is_page (page s f) /\ page s f <> 0.
Proof.
  intros H Hl. pose proof (tb_inv _ _ (mi_tables _ _ H)) as Hi. split; [by apply page_is_page|].
  destruct (page_is_page s f Hi Hl) as [_ Hf]. destruct Hi as [k Hk]. pose proof (po_first _ _ Hk). unfold page, PAGE_SIZE. lia.
Qed.

(** A frame held by the kernel may be forgotten (and leaks). *)
Lemma leak_inv X f s : mem_inv (f :: X) s -> mem_inv X s.
Proof.
  intros H. split; try apply H.
  - intros g Hg. apply (mi_spare _ _ H). by right.
  - intros g L Hnd HL. pose proof (mi_refs _ _ H g L Hnd HL) as Hr. rewrite occ_cons in Hr. destruct (g =? f); lia.
Qed.

(** A new frame. *)
Lemma fresh_inv X s s' f :
  mem_inv X s -> tables R s' -> grows R s s' -> live s f = 0 -> live s' f = 1 -> ~ is_table R s' (page s f) -> mem_inv (f :: X) s'.
Proof.
  intros H Ht Hg H0 H1 Hnt. pose proof (grows_inv X s s' H Ht Hg) as H'. assert (Hsm : forall g, page s' g = page s g) by (intros g; apply same_page, Hg).
  assert (Hocc : occ f X = 0).
  { destruct (Z.le_gt_cases (occ f X) 0) as [|Hp]; [pose proof (occ_nonneg f X); lia|]. apply occ_pos in Hp. pose proof (mi_spare_live _ _ _ H Hp). lia. }
  split; try apply H'.
  - intros g [->|Hin]%elem_of_cons; [by rewrite Hsm|by apply (mi_spare _ _ H')].
  - intros g L Hnd HL. pose proof (mi_refs _ _ H' g L Hnd HL) as Hr. rewrite occ_cons. destruct (Z.eqb_spec g f) as [->|]; [|lia].
    enough (length L = 0%nat) by lia. destruct L as [|x L]; [done|]. destruct (HL x (list_elem_of_here _ _)) as [Hx Hm].
    rewrite (maps_same s s' x f) in Hm; [|done|apply (grows_pte R); try done; [apply Hx|apply page_range, Hx]].
    pose proof (mi_live _ _ _ _ H Hx Hm). lia.
Qed.

Lemma alloc_zeroed_inv X cpu s :
  mem_inv X s ->
  match pmm_alloc_zeroed cpu s with
  | (Some p, s') => exists f, p = page s f /\ live s f = 0 /\ mem_inv (f :: X) s' /\ grows R s s' /\ forall i, 0 <= i < 512 -> rd s' p i = 0
  | (None, s') => mem_inv X s' /\ grows R s s'
  end.
Proof.
  intros H. pose proof (zeroed_tables R cpu s (mi_tables _ _ H)) as Hz. destruct (pmm_alloc_zeroed cpu s) as [[p|] s'].
  - destruct Hz as (Ht & _ & Hg & _ & Hnt & (f & -> & H0 & H1) & Hz). exists f. split_and!; try done. by apply (fresh_inv X s s').
  - destruct Hz as (Ht & _ & Hg). split; [by apply (grows_inv X s s')|done].
Qed.

Lemma alloc_copy_inv X cpu s src :
  mem_inv X s ->
  match pmm_alloc cpu s with
  | (Some p, s1) => let s2 := set_mem (copy_page p src (mem s1)) s1 in
      exists f, p = page s f /\ live s f = 0 /\ mem_inv (f :: X) s2 /\ grows R s s2 /\ same_content s s2 src p
  | (None, s1) => mem_inv X s1 /\ grows R s s1
  end.
Proof.
  intros H. pose proof (alloc_copy_ok R cpu s src (mi_tables _ _ H)) as Hz. destruct (pmm_alloc cpu s) as [[p|] s1].
  - cbv zeta in *. destruct Hz as (f & -> & H0 & Hl & Ht & _ & Hg & _ & Hnt & Hc & _). exists f. split_and!; try done.
    apply (fresh_inv X s); try done. by rewrite Hl, Z.eqb_refl.
  - destruct Hz as (Ht & _ & Hg). split; [by apply (grows_inv X s s1)|done].
Qed.

Lemma free_inv X cpu s f :
  mem_inv (f :: X) s -> (cpu < MAX_CPUS)%nat ->
  let s' := pmm_free cpu (page s f) s in
  mem_inv X s' /\ same_memory s s' /\ same_tables R s s' /\ mem s' = mem s /\ forall q, live s' q = if q =? f then live s f - 1 else live s q.
Proof.
  intros H Hcpu. cbv zeta. assert (Hin : f ∈ f :: X) by left. pose proof (mi_spare_live _ _ _ H Hin) as Hl. pose proof (mi_spare _ _ H f Hin) as Hnt.
  destruct (free_data_ok R cpu s f (mi_tables _ _ H) Hcpu Hl Hnt) as (Ht & Hst & Hsm & Hm & Hlive). split_and!; try done; [|apply Hsm..].
  apply (quiet_inv (f :: X) X s); try done.
  - intros t Ht'. left. by apply (same_tables_is_table R s _ t Hst).
  - intros r va Hr Hva. by apply (same_tables_pte R).
  - intros g Hg Htg. apply (mi_spare _ _ H g); [by right|]. by apply (same_tables_is_table R s _ _ Hst).
  - intros g Hg. rewrite Hlive, occ_cons. destruct (Z.eqb_spec g f) as [->|]; lia.
  - intros g Hg. rewrite Hlive. destruct (Z.eqb_spec g f) as [->|]; [lia|]. pose proof (mi_refs _ _ H g [] (NoDup_nil_2)) as Hr.
    rewrite occ_cons, (proj2 (Z.eqb_neq g f)) in Hr by done. cbn [length] in Hr. enough (Z.of_nat 0 + (0 + occ g X) <= live s g) by lia.
    apply Hr. intros x Hx. by apply not_elem_of_nil in Hx.
Qed.

Lemma map_inv X cpu s r va f flags :
  mem_inv (f :: X) s -> r ∈ R -> 0 <= va < USER_LIMIT ->
  let '(ok, s') := map_page cpu r va (page s f) flags s in
  mem_inv (if ok then X else f :: X) s' /\ changes R s s' r va /\
  if ok then has (vmm_leaf_pte s r va) VMM_PRESENT = false /\ vmm_leaf_pte s' r va = make_pte (page s f) flags
  else vmm_leaf_pte s' r va = vmm_leaf_pte s r va.
Proof.
  intros H Hr Hva. assert (Hin : f ∈ f :: X) by left. pose proof (mi_spare_live _ _ _ H Hin) as Hl. destruct (mi_page_nz _ _ _ H Hl) as [Hpg _].
  pose proof (map_page_changes R cpu s r va (page s f) flags (mi_tables _ _ H) Hr Hva) as Hm. destruct (map_page cpu r va _ flags s) as [ok s'].
  destruct Hm as [Hch Hleaf]. rewrite pte_addr_page in Hleaf by done. split; [|done].
  destruct (range_page va Hva) as [_ Hd]. assert (Hlf : forall q : pmm_t A, vmm_leaf_pte q r (4096 * (va / 4096)) = vmm_leaf_pte q r va) by (intros q; by apply leaf_same_page).
  assert (Hps : forall g, page s' g = page s g) by (intros g; apply same_page, Hch).
  destruct ok.
  - destruct Hleaf as [Habs Hleaf]. assert (Hms : forall g, maps s' (r, va / 4096) g = (g =? f)).
    { intros g. unfold maps. cbn [fst snd]. rewrite Hlf, Hleaf, make_pte_present, make_pte_addr, Hps by done. cbn [andb].
      destruct (Z.eqb_spec (page s f) (page s g)) as [Heq|Hne]; [apply page_inj in Heq as ->; by rewrite Z.eqb_refl|].
      destruct (Z.eqb_spec g f) as [->|]; done. }
    assert (Hm0 : forall g, maps s (r, va / 4096) g = false) by (intros g; unfold maps; cbn [fst snd]; by rewrite Hlf, Habs).
    apply (changes_inv (f :: X) X s s' r va); try done.
    + intros _. exists f. by rewrite Hleaf, make_pte_addr.
    + intros g [Hg|Hg]; left; [by right|]. rewrite Hms in Hg. apply Z.eqb_eq in Hg as ->. left.
    + intros g. cbn [refs_of]. rewrite Hms, Hm0, occ_cons. lia.
  - apply (changes_inv (f :: X) (f :: X) s s' r va); try done.
    + rewrite Hleaf. intros Hp. destruct (mi_data_page _ _ _ _ H Hr Hva Hp) as (g & Hg & _). by exists g.
    + intros g Hg. by rewrite (maps_same s s') in Hg by (cbn [fst snd]; rewrite ?Hlf; done).
    + intros g. cbn [refs_of]. by rewrite (maps_same s s') by (cbn [fst snd]; rewrite ?Hlf; done).
Qed.

Lemma maps_leaf s r va f :
  maps s (r, va / 4096) f = has (vmm_leaf_pte s r va) VMM_PRESENT && (pte_addr (vmm_leaf_pte s r va) =? page s f).
Proof. unfold maps. cbn [fst snd]. rewrite (leaf_same_page s r (4096 * (va / 4096)) va); [done|]. by rewrite Z.mul_comm, Z.div_mul by lia. Qed.

(** The changed entry still maps the frame it mapped, or nothing. *)
Lemma keep_entry_inv X s s' r va :
  mem_inv X s -> changes R s s' r va -> r ∈ R -> 0 <= va < USER_LIMIT ->
  (has (vmm_leaf_pte s' r va) VMM_PRESENT = true ->
   has (vmm_leaf_pte s r va) VMM_PRESENT = true /\ pte_addr (vmm_leaf_pte s' r va) = pte_addr (vmm_leaf_pte s r va)) ->
  mem_inv X s'.
Proof.
  intros H Hch Hr Hva Hk. assert (Hps : forall g, page s' g = page s g) by (intros g; apply same_page, Hch).
  assert (Himp : forall f, maps s' (r, va / 4096) f = true -> maps s (r, va / 4096) f = true).
  { intros f. rewrite !maps_leaf, Hps. intros [Hp Ha]%andb_true_iff. destruct (Hk Hp) as [H1 H2]. by rewrite H1, <-H2, Ha. }
  apply (changes_inv X X s s' r va); try done.
  - intros Hp. destruct (Hk Hp) as [H1 H2]. destruct (mi_data_page _ _ _ _ H Hr Hva H1) as (f & Hf & _). exists f. by rewrite H2.
  - intros f [Hf|Hf]; [by left|right]. by apply Himp.
  - intros f. cbn [refs_of]. pose proof (Himp f) as Hf. destruct (maps s' _ f); [rewrite Hf by done; lia|]. destruct (maps s _ f); lia.
Qed.

Lemma protect_inv X s r va flags :
  mem_inv X s -> r ∈ R -> 0 <= va < USER_LIMIT ->
  let '(ok, s') := vmm_protect r va flags s in mem_inv X s' /\ changes R s s' r va.
Proof.
  intros H Hr Hva. pose proof (vmm_protect_changes R s r va flags (mi_tables _ _ H) Hr Hva) as Hp. destruct (vmm_protect r va flags s) as [ok s'].
  destruct Hp as (Hch & Hok & Hleaf). split; [|done]. apply (keep_entry_inv X s s' r va); try done. rewrite Hleaf. destruct ok; [|done]. intros _.
  split; [done|]. destruct (mi_data_page _ _ _ _ H Hr Hva (eq_sym Hok)) as (f & Hf & Hl & _). rewrite Hf. apply make_pte_addr. by eapply mi_page_nz.
Qed.

(** Taking a mapped page out of the table. *)
Lemma unmap_inv X s r va :
  mem_inv X s -> r ∈ R -> 0 <= va < USER_LIMIT ->
  let s' := vmm_unmap r va s in
  let phys := vmm_virt_to_phys s r va in
  changes R s s' r va /\ vmm_leaf_pte s' r va = 0 /\ mem_inv X s' /\
  (phys = 0 \/ exists f, phys = page s f /\ phys <> 0 /\ mem_inv (f :: X) s').
Proof.
  intros H Hr Hva. cbv zeta. destruct (vmm_unmap_changes R s r va (mi_tables _ _ H) Hr Hva) as [Hch Hleaf]. set (s' := vmm_unmap r va s) in *.
  assert (Hps : forall g, page s' g = page s g) by (intros g; apply same_page, Hch).
  assert (Hm' : forall f, maps s' (r, va / 4096) f = false) by (intros f; by rewrite maps_leaf, Hleaf).
  split; [done|]. split; [done|]. split; [apply (keep_entry_inv X s s' r va); try done; by rewrite Hleaf|].
  replace (vmm_virt_to_phys s r va) with (if has (vmm_leaf_pte s r va) VMM_PRESENT then pte_addr (vmm_leaf_pte s r va) else 0)
    by (unfold vmm_virt_to_phys, vmm_leaf_pte; by destruct (page_table s r va)).
  destruct (has (vmm_leaf_pte s r va) VMM_PRESENT) eqn:Hp; [right|by left].
  destruct (mi_data_page _ _ _ _ H Hr Hva Hp) as (f & Hf & Hl & Hnt). exists f. rewrite Hf. split; [done|]. split; [by eapply mi_page_nz|].
  assert (Hm : maps s (r, va / 4096) f = true) by (by rewrite maps_leaf, Hp, Hf, Z.eqb_refl).
  apply (changes_inv X (f :: X) s s' r va); try done.
  - by rewrite Hleaf.
  - intros g [[->|Hg]%elem_of_cons|Hg]; [by right|by left|]. by rewrite Hm' in Hg.
  - intros g. cbn [refs_of]. rewrite Hm', occ_cons. destruct (Z.eqb_spec g f) as [->|]; [rewrite Hm; lia|]. destruct (maps s _ g); lia.
Qed.

Definition unmap_free (cpu : nat) (r va : Z) s : pmm_t A :=
  let phys := vmm_virt_to_phys s r va in
  let s := vmm_unmap r va s in
  if phys =? 0 then s else pmm_free cpu phys s.

(** Unmapping a page and dropping its reference. *)
Lemma unmap_free_inv X cpu s r va :
  mem_inv X s -> r ∈ R -> 0 <= va < USER_LIMIT -> (cpu < MAX_CPUS)%nat ->
  let s' := unmap_free cpu r va s in
  mem_inv X s' /\ vmm_leaf_pte s' r va = 0 /\ others_same R s s' r va.
Proof.
  intros H Hr Hva Hcpu. cbv zeta. unfold unmap_free. destruct (unmap_inv X s r va H Hr Hva) as (Hch & Hleaf & Hinv & Hphys).
  cbv zeta in *. set (phys := vmm_virt_to_phys s r va) in *. set (s1 := vmm_unmap r va s) in *.
  destruct Hphys as [H0|(f & Hf & Hnz & H1)].
  - rewrite H0, Z.eqb_refl. split; [done|]. split; [done|]. apply Hch.
  - rewrite (proj2 (Z.eqb_neq _ _) Hnz), Hf. rewrite <-(same_page s s1 f) by apply Hch.
    destruct (free_inv X cpu s1 f H1 Hcpu) as (H2 & _ & Hst & _). split; [done|]. split; [by rewrite (same_tables_pte R s1)|].
    intros r' va' Hr' Hva' Hne. rewrite (same_tables_pte R s1) by done. by apply (ch_others _ _ _ _ _ Hch).
Qed.

(** The entry is made to map another frame. *)
Lemma swap_entry_inv X s r va f g e' pt :
  mem_inv (g :: X) s -> r ∈ R -> 0 <= va < USER_LIMIT -> maps s (r, va / 4096) f = true -> page_table s r va = Some pt ->
  pte_addr e' = page s g -> has e' VMM_PRESENT = true ->
  let s' := wr pt (PT_IDX va) e' s in
  mem_inv (f :: X) s' /\ changes R s s' r va /\ vmm_leaf_pte s' r va = e'.
Proof.
  intros H Hr Hva Hm Hpt Ha Hp. cbv zeta. destruct (set_entry_changes R s r va e' pt (mi_tables _ _ H) Hr Hva Hpt) as [Hch Hleaf].
  set (s' := wr _ _ _ s) in *. split; [|done]. assert (Hps : forall q, page s' q = page s q) by (intros q; apply same_page, Hch).
  assert (Hms : forall q, maps s' (r, va / 4096) q = (q =? g)).
  { intros q. rewrite maps_leaf, Hleaf, Hp, Ha, Hps. cbn [andb]. destruct (Z.eqb_spec (page s g) (page s q)) as [Heq|Hne].
    - apply page_inj in Heq as ->. by rewrite Z.eqb_refl.
    - destruct (Z.eqb_spec q g) as [->|]; done. }
  assert (Hmf : forall q, maps s (r, va / 4096) q = (q =? f)).
  { intros q. rewrite maps_leaf in Hm |- *. apply andb_true_iff in Hm as [-> Hf%Z.eqb_eq]. rewrite Hf. cbn [andb].
    destruct (Z.eqb_spec (page s f) (page s q)) as [Heq|Hne]; [apply page_inj in Heq as ->; by rewrite Z.eqb_refl|].
    destruct (Z.eqb_spec q f) as [->|]; done. }
  apply (changes_inv (g :: X) (f :: X) s s' r va); try done.
  - intros _. exists g. by rewrite Hleaf.
  - intros q. rewrite Hms, Hmf. intros [[->|Hq]%elem_of_cons|Hq%Z.eqb_eq]; [right; apply Z.eqb_refl|left; by right|rewrite Hq; left; left].
  - intros q. cbn [refs_of]. rewrite Hms, Hmf, !occ_cons. lia.
Qed.

Lemma retain_inv X s f :
  mem_inv X s -> 0 < live s f -> ~ is_table R s (page s f) ->
  let '(kept, s') := pmm_retain (page s f) s in
  if kept then mem_inv (f :: X) s' /\ same_memory s s' /\ mem s' = mem s /\ (forall q, live s q <= live s' q) else s' = s.
Proof.
  intros H Hl Hnt. destruct (tb_inv _ _ (mi_tables _ _ H)) as [k Hok]. destruct (proj1 (live_pos s k f Hok) Hl) as [Hu Hpool]. apply in_use_true in Hu as [Hf _].
  pose proof (pmm_retain_ok s k f Hok Hf Hpool) as Hret. destruct (pmm_retain (page s f) s) as [kept s']. destruct Hret as (_ & H0 & H1).
  destruct kept; [|by apply H0]. destruct (H1 eq_refl) as (Hok' & Hsm & Hm & _ & Hlive).
  assert (Hle : forall q, live s' q = if q =? f then live s f + 1 else live s q) by (intros q; apply Hlive).
  assert (Hst : same_tables R s s') by (intros t i _ _; unfold rd; by rewrite Hm).
  assert (Ht : tables R s').
  { apply (same_tables_ok R s); try done; [by apply (mi_tables _ _ H)|by eexists|]. intros q Hq. destruct (tb_page _ _ (mi_tables _ _ H) _ Hq) as (q' & Hq' & Hlq).
    apply page_inj in Hq' as <-. rewrite Hle. destruct (q =? f); lia. }
  split; [|split_and!; [apply Hsm..|done|intros q; rewrite Hle; destruct (Z.eqb_spec q f) as [->|]; lia]].
  apply (quiet_inv X (f :: X) s s'); try done.
  - intros t Ht'. left. by apply (same_tables_is_table R s s').
  - intros r va Hr Hva. by apply (same_tables_pte R).
  - intros q Hq Htq. apply (same_tables_is_table R s s') in Htq; [|done]. apply elem_of_cons in Hq as [->|Hq]; [done|by apply (mi_spare _ _ H q)].
  - intros q Hq. rewrite Hle, occ_cons. destruct (Z.eqb_spec q f) as [->|]; lia.
  - intros q Hq. rewrite Hle, occ_cons. destruct (Z.eqb_spec q f) as [->|]; [lia|].
    destruct (Z.le_gt_cases (occ q X) 0) as [|Hp]; [pose proof (mi_nonneg _ _ q H); lia|]. apply occ_pos in Hp. pose proof (mi_spare_live _ _ _ H Hp). lia.
Qed.

(** ** Faults *)

(** What an operation on the page of [va] may do to the other entries. *)
Record local_change X s s' (r va : Z) : Prop := {
  lc_inv : mem_inv X s';
  lc_mem : same_memory s s';
  lc_others : others_same R s s' r va;
}.

Lemma local_refl X s r va : mem_inv X s -> local_change X s s r va.
Proof. done. Qed.

Lemma local_grows X s s' r va : mem_inv X s' -> grows R s s' -> local_change X s s' r va.
Proof. intros H Hg. split; [done|apply Hg|]. intros r' va' Hr' Hva' _. by apply (grows_pte R). Qed.

Lemma local_changes X s s' r va : mem_inv X s' -> changes R s s' r va -> local_change X s s' r va.
Proof. intros H Hc. split; [done|apply Hc|apply Hc]. Qed.

Lemma local_trans X Y s1 s2 s3 r va : local_change X s1 s2 r va -> local_change Y s2 s3 r va -> local_change Y s1 s3 r va.
Proof.
  intros [H1 M1 O1] [H2 M2 O2]. split; [done|split; etransitivity; try apply M2; apply M1|].
  intros r' va' Hr' Hva' Hne. rewrite O2 by done. by apply O1.
Qed.

Lemma local_free X cpu s f r va :
  mem_inv (f :: X) s -> (cpu < MAX_CPUS)%nat -> r ∈ R -> 0 <= va < USER_LIMIT ->
  let s' := pmm_free cpu (page s f) s in local_change X s s' r va /\ vmm_leaf_pte s' r va = vmm_leaf_pte s r va.
Proof.
  intros H Hcpu Hr Hva. destruct (free_inv X cpu s f H Hcpu) as (H1 & Hsm & Hst & _). cbv zeta in *.
  split; [|by apply (same_tables_pte R)]. split; [done|done|]. intros r' va' Hr' Hva' _. by apply (same_tables_pte R).
Qed.

(** The page gets a private copy of its frame. *)
Lemma replace_inv X cpu s r va f flags :
  mem_inv X s -> (cpu < MAX_CPUS)%nat -> r ∈ R -> 0 <= va < USER_LIMIT -> maps s (r, va / 4096) f = true ->
  match pmm_alloc cpu s with
  | (None, s1) => local_change X s s1 r va /\ vmm_leaf_pte s1 r va = vmm_leaf_pte s r va
  | (Some c, s1) =>
      let s2 := set_mem (copy_page c (page s f) (mem s1)) s1 in
      let pt := pte_addr (rd s2 (pte_addr (rd s2 (pte_addr (rd s2 r (PML4_IDX va))) (PDPT_IDX va))) (PD_IDX va)) in
      let s' := pmm_free cpu (page s f) (wr pt (PT_IDX va) (make_pte c flags) s2) in
      local_change X s s' r va /\ vmm_leaf_pte s' r va = make_pte c flags /\ has (make_pte c flags) VMM_PRESENT = true
  end.
Proof.
  intros H Hcpu Hr Hva Hm. pose proof (alloc_copy_inv X cpu s (page s f) H) as Hc. destruct (pmm_alloc cpu s) as [[c|] s1]; cbv zeta in *.
  2:{ destruct Hc as [H1 Hg]. split; [by apply local_grows|by apply (grows_pte R)]. }
  destruct Hc as (g & -> & Hg0 & H2 & Hg & _). set (s2 := set_mem _ s1) in *. set (e' := make_pte (page s g) flags).
  assert (Hps2 : forall q, page s2 q = page s q) by (intros q; apply same_page, Hg).
  assert (Hlf : vmm_leaf_pte s2 r va = vmm_leaf_pte s r va) by by apply (grows_pte R).
  assert (Hm2 : maps s2 (r, va / 4096) f = true) by (rewrite maps_leaf in Hm |- *; by rewrite Hlf, Hps2).
  pose proof Hm2 as Hp. rewrite maps_leaf in Hp. apply andb_true_iff in Hp as [Hp _]. destruct (leaf_present_table _ _ _ Hp) as [pt Hpt].
  rewrite (page_table_chain s2 r va pt Hpt). assert (Hgl : 0 < live s2 g) by (eapply mi_spare_live; [exact H2|left]).
  destruct (mi_page_nz _ _ _ H2 Hgl) as [Hpg _]. rewrite Hps2 in Hpg.
  destruct (swap_entry_inv X s2 r va f g e' pt H2 Hr Hva Hm2 Hpt) as (H3 & Hch & Hleaf);
    [unfold e'; by rewrite make_pte_addr, Hps2|by apply make_pte_present|]. set (s3 := wr pt (PT_IDX va) e' s2) in *.
  assert (Hps3 : page s3 f = page s f) by (rewrite <-Hps2; apply same_page, Hch). rewrite <-Hps3.
  destruct (local_free X cpu s3 f r va H3 Hcpu Hr Hva) as [H4 Hl4]. split; [|split; [by rewrite Hl4|by apply make_pte_present]].
  eapply local_trans; [by apply (local_grows (g :: X) s s2)|]. eapply local_trans; [by apply (local_changes (f :: X) s2 s3)|done].
Qed.

Lemma local_same_page X s s' r va va' : va / 4096 = va' / 4096 -> local_change X s s' r va -> local_change X s s' r va'.
Proof. intros He [H1 H2 H3]. split; [done|done|]. intros r' a Hr' Ha Hne. apply H3; try done. by rewrite He. Qed.

Lemma cow_inv X cpu s r va :
  mem_inv X s -> (cpu < MAX_CPUS)%nat -> r ∈ R -> 0 <= va < USER_LIMIT ->
  let '(res, s') := vmm_handle_cow_fault cpu r va s in
  local_change X s s' r va /\ has (vmm_leaf_pte s' r va) VMM_PRESENT = has (vmm_leaf_pte s r va) VMM_PRESENT.
Proof.
  intros H Hcpu Hr Hva. unfold vmm_handle_cow_fault. destruct (page_mask_page va Hva) as [Hpg Hpr]. rewrite (leaf_same_page s r _ va Hpg).
  set (e := vmm_leaf_pte s r va) in *. destruct (has e VMM_PRESENT) eqn:Hp; cbn [negb orb]; [|done].
  destruct (has e VMM_COW); cbn [negb]; [|by rewrite <-Hp]. set (flags := clear_bits _ VMM_COW).
  destruct (mi_data_page _ _ _ _ H Hr Hva Hp) as (f & Hf & Hlf & Hnt). fold e in Hf.
  destruct (pmm_ref_count (pte_addr e) s =? 1).
  - pose proof (protect_inv X s r (Z.land va PAGE_MASK) flags H Hr Hpr) as H1.
    pose proof (vmm_protect_changes R s r (Z.land va PAGE_MASK) flags (mi_tables _ _ H) Hr Hpr) as H2.
    destruct (vmm_protect r _ flags s) as [ok s']. destruct H1 as [H1 Hch]. destruct H2 as (_ & Hok & Hleaf).
    split; [apply (local_same_page _ _ _ _ (Z.land va PAGE_MASK)); [done|by apply local_changes]|].
    rewrite <-(leaf_same_page s' r _ va Hpg), Hleaf. rewrite (leaf_same_page s r _ va Hpg) in Hok |- *. fold e in Hok |- *. rewrite Hp in Hok. subst ok.
    rewrite Hf. apply make_pte_present. by eapply mi_page_nz.
  - rewrite Hf. assert (Hm : maps s (r, va / 4096) f = true) by (rewrite maps_leaf; fold e; by rewrite Hp, Hf, Z.eqb_refl).
    pose proof (replace_inv X cpu s r va f flags H Hcpu Hr Hva Hm) as Hrep. destruct (pmm_alloc cpu s) as [[c|] s1]; cbv zeta in *.
    + destruct Hrep as (H1 & Hl & Hpp). split; [done|]. exact (eq_trans (f_equal (fun e => has e VMM_PRESENT) Hl) Hpp).
    + destruct Hrep as [H1 Hl]. split; [done|]. rewrite Hl. fold e. done.
Qed.

(** Flags that leave the address bits alone. *)
Lemma masked_lor_write fl : Z.land fl PTE_FLAGS_MASK = fl -> Z.land (Z.lor fl VMM_WRITE) PTE_FLAGS_MASK = Z.lor fl VMM_WRITE.
Proof. intros H. rewrite Z.land_lor_distr_l, H. done. Qed.

Lemma masked_clear fl b : Z.land fl PTE_FLAGS_MASK = fl -> Z.land (clear_bits fl b) PTE_FLAGS_MASK = clear_bits fl b.
Proof. intros H. unfold clear_bits. rewrite <-Z.land_assoc, (Z.land_comm _ PTE_FLAGS_MASK), Z.land_assoc, H. done. Qed.

Lemma relax_inv X cpu s r va write execute :
  mem_inv X s -> (cpu < MAX_CPUS)%nat -> r ∈ R -> 0 <= va < USER_LIMIT ->
  let '(ok, s') := vmm_phantom_relax_page cpu r va write execute s in local_change X s s' r va.
Proof.
  intros H Hcpu Hr Hva. unfold vmm_phantom_relax_page. destruct (negb write && negb execute); [done|].
  destruct (page_mask_page va Hva) as [Hpg Hpr]. set (pg := Z.land va PAGE_MASK) in *. set (e := vmm_leaf_pte s r pg).
  destruct (has e VMM_PRESENT) eqn:Hp; cbn [negb orb]; [|done]. destruct (has e VMM_USER); cbn [negb]; [|done]. cbv zeta.
  set (fl0 := if write || _ then _ else _). set (fl1 := if execute then _ else _). set (fl := clear_bits fl1 VMM_COW).
  assert (Hfl : Z.land fl PTE_FLAGS_MASK = fl).
  { assert (H0 : Z.land fl0 PTE_FLAGS_MASK = fl0).
    { unfold fl0. destruct (write || _); [apply masked_lor_write|]; by rewrite <-Z.land_assoc, Z.land_diag. }
    apply masked_clear. unfold fl1. destruct execute; [by apply masked_clear|done]. }
  destruct (mi_data_page _ _ _ _ H Hr Hpr Hp) as (f & Hf & Hlf & Hnt). fold e in Hf. rewrite Hf.
  assert (Hm : maps s (r, pg / 4096) f = true) by (rewrite maps_leaf; fold e; by rewrite Hp, Hf, Z.eqb_refl).
  pose proof (replace_inv X cpu s r pg f fl H Hcpu Hr Hpr Hm) as Hrep. destruct (pmm_alloc cpu s) as [[c|] s1]; cbv zeta in Hrep.
  - unfold make_pte in Hrep. rewrite Hfl in Hrep. apply (local_same_page _ _ _ _ pg); [done|]. apply Hrep.
  - apply (local_same_page _ _ _ _ pg); [done|]. apply Hrep.
Qed.

(** A new zeroed page for an address without one; the page is given back if it
    cannot be mapped. *)
Definition map_new (cpu : nat) (r va flags : Z) s : bool * bool * pmm_t A :=
  match pmm_alloc_zeroed cpu s with
  | (None, s) => (false, false, s)
  | (Some phys, s) =>
      let '(ok, s) := map_page cpu r va phys flags s in
      if ok then (true, true, s) else (true, false, pmm_free cpu phys s)
  end.

Lemma map_new_inv X cpu s r va flags :
  mem_inv X s -> (cpu < MAX_CPUS)%nat -> r ∈ R -> 0 <= va < USER_LIMIT ->
  let '(_, ok, s') := map_new cpu r va flags s in
  local_change X s s' r va /\
  if ok then has (vmm_leaf_pte s r va) VMM_PRESENT = false /\
    exists f, vmm_leaf_pte s' r va = make_pte (page s f) flags /\ live s f = 0 /\ live s' f = 1 /\ is_page (page s f) /\ forall i, 0 <= i < 512 -> rd s' (page s f) i = 0
  else vmm_leaf_pte s' r va = vmm_leaf_pte s r va.
Proof.
  intros H Hcpu Hr Hva. unfold map_new. pose proof (alloc_zeroed_inv X cpu s H) as Hz. pose proof (zeroed_tables R cpu s (mi_tables _ _ H)) as Hzt.
  destruct (pmm_alloc_zeroed cpu s) as [[p|] s1].
  2:{ destruct Hz as [H1 Hg]. split; [by apply local_grows|by apply (grows_pte R)]. }
  destruct Hz as (f & -> & H0 & H1 & Hg & Hzero). destruct Hzt as (_ & _ & _ & Hpg & Hnt & (f' & Hf' & _ & Hl1) & _). apply page_inj in Hf' as <-.
  assert (Hps : page s1 f = page s f) by apply same_page, Hg.
  pose proof (map_inv X cpu s1 r va f flags H1 Hr Hva) as Hm. rewrite Hps in Hm. destruct (map_page cpu r va _ flags s1) as [ok s2].
  destruct Hm as (H2 & Hch & Hleaf). rewrite (grows_pte R s s1) in Hleaf by done. destruct ok.
  - split; [eapply local_trans; [by apply (local_grows (f :: X) s s1)|by apply local_changes]|]. destruct Hleaf as [Habs Hleaf].
    split; [done|]. exists f. split_and!; try done; [by rewrite (ch_live _ _ _ _ _ Hch), Hl1 by lia|]. intros i Hi. unfold rd in *.
    rewrite (ch_data _ _ _ _ _ Hch f); [by apply Hzero|lia|by rewrite Hps|rewrite Hps; unfold PAGE_SIZE; lia].
  - assert (Hps2 : page s2 f = page s f) by (rewrite <-Hps; apply same_page, Hch). rewrite <-Hps2.
    destruct (local_free X cpu s2 f r va H2 Hcpu Hr Hva) as [H3 Hl3]. split; [|by rewrite Hl3].
    eapply local_trans; [by apply (local_grows (f :: X) s s1)|]. eapply local_trans; [by apply (local_changes (f :: X) s1 s2)|done].
Qed.

Lemma fault_in_page_inv X cpu vmas s r va write :
  mem_inv X s -> (cpu < MAX_CPUS)%nat -> r ∈ R -> 0 <= va < USER_LIMIT ->
  let '(ok, s') := fault_in_page cpu vmas r va write s in local_change X s s' r va.
Proof.
  intros H Hcpu Hr Hva. unfold fault_in_page. destruct (has _ VMM_PRESENT).
  - destruct (has _ VMM_USER); cbn [negb]; [|done]. destruct (write && _); [|done]. destruct (has _ VMM_COW); cbn [negb]; [|done].
    pose proof (cow_inv X cpu s r va H Hcpu Hr Hva) as Hc. destruct (vmm_handle_cow_fault cpu r va s) as [res s']. apply Hc.
  - destruct (vma_page_fault_allowed _ _ _ _); cbn [negb]; [|done].
    pose proof (map_new_inv X cpu s r va (vma_page_flags vmas va) H Hcpu Hr Hva) as Hm. unfold map_new in Hm.
    destruct (pmm_alloc_zeroed cpu s) as [[p|] s1]; [|apply Hm]. destruct (map_page cpu r va p _ s1) as [[] s2]; apply Hm.
Qed.
End inv.

(** Without address spaces. *)
Lemma inv_empty `{FA : FrameAllocator A} (s : pmm_t A) : pmm_inv s -> mem_inv [] [] s.
Proof.
  intros H. split; [split; [done| |]| | | |].
  - intros t (r & p & Hr & _). by apply not_elem_of_nil in Hr.
  - intros r r' p p' t Hr. by apply not_elem_of_nil in Hr.
  - intros x [Hr _]. by apply not_elem_of_nil in Hr.
  - intros x f [Hr _]. by apply not_elem_of_nil in Hr.
  - intros f Hf. by apply not_elem_of_nil in Hf.
  - intros f [|x L] _ HL; [|destruct (HL x (list_elem_of_here _ _)) as [[Hr _] _]; by apply not_elem_of_nil in Hr].
    destruct H as [k Hk]. cbn. pose proof (live_nonneg s k f Hk). unfold occ. cbn. lia.
Qed.

(** Only the set of spaces matters. *)
Lemma mem_inv_perm `{FA : FrameAllocator A} (R R' X : list Z) (s : pmm_t A) : R ≡ₚ R' -> mem_inv R X s -> mem_inv R' X s.
Proof.
  intros Hp H. assert (Hin : forall r, r ∈ R' <-> r ∈ R) by (intros r; by rewrite Hp).
  assert (Ht : forall t, is_table R' s t -> is_table R s t) by (intros t (r & p & Hr & Hw); exists r, p; by rewrite <-Hin).
  assert (Hs : forall x, slot_ok R' x -> slot_ok R x) by (intros x [Hr Hn]; split; [by apply Hin|done]).
  split.
  - pose proof (mi_tables _ _ _ H) as [T1 T2 T3]. split; [done|intros t Htt; by apply T2, Ht|]. intros r r' p p' t Hr Hr'. apply T3; by apply Hin.
  - intros x Hx. by apply (mi_frame _ _ _ H), Hs.
  - intros x f Hx Hm Htf. by apply (mi_data _ _ _ H x f (Hs x Hx) Hm), Ht.
  - intros f Hf Htf. by apply (mi_spare _ _ _ H f Hf), Ht.
  - intros f L Hnd HL. apply (mi_refs _ _ _ H f L Hnd). intros x Hx. destruct (HL x Hx). split; [by apply Hs|done].
Qed.

(** The kernel's references in another order. *)
Lemma mem_inv_spare_perm `{FA : FrameAllocator A} (R X X' : list Z) (s : pmm_t A) : X ≡ₚ X' -> mem_inv R X s -> mem_inv R X' s.
Proof.
  intros Hp H. split; try apply H.
  - intros f Hf. apply (mi_spare _ _ _ H). by rewrite Hp.
  - intros f L Hnd HL. unfold occ. rewrite <-(count_if_perm (Z.eqb f) X X' Hp). by apply (mi_refs _ _ _ H).
Qed.

(** Writing to a page that is no page table. *)
Lemma write_data_inv `{FA : FrameAllocator A} (R X : list Z) (s : pmm_t A) (f : Z) (m : Z -> Z) :
  mem_inv R X s -> 0 < live s f -> ~ is_table R s (page s f) ->
  (forall a, ~ (page s f <= a < page s f + PAGE_SIZE) -> m a = mem s a) -> mem_inv R X (set_mem m s).
Proof.
  intros H Hl Hnt Hm. destruct (tb_inv _ _ (mi_tables _ _ _ H)) as [k Hok]. destruct (mi_page_nz R X s f H Hl) as [Hp _].
  assert (Hst : same_tables R s (set_mem m s)) by by apply (same_tables_outside R s _ (page s f)); [apply H| | |].
  assert (Hi : pmm_inv (set_mem m s)).
  { exists k. apply write_ok; [done|]. intros a. destruct (decide (page s f <= a < page s f + PAGE_SIZE)); [right; by exists f|left; by apply Hm]. }
  apply (quiet_inv R X X s); try done.
  - apply (same_tables_ok R s); try done; [apply H|]. intros g Hg. destruct (tb_page _ _ (mi_tables _ _ _ H) _ Hg) as (g' & Hg' & Hlg).
    by apply page_inj in Hg' as <-.
  - intros t Ht. left. by apply (same_tables_is_table R s _ t Hst).
  - intros r va Hr Hva. by apply (same_tables_pte R).
  - intros g Hg Ht. apply (mi_spare _ _ _ H g Hg). by apply (same_tables_is_table R s _ _ Hst).
  - intros g Hg. change (live (set_mem m s) g) with (live s g). lia.
  - intros g Hg. change (live (set_mem m s) g) with (live s g). pose proof (mi_refs _ _ _ H g [] NoDup_nil_2) as Hr. cbn [length] in Hr.
    enough (Z.of_nat 0 + occ g X <= live s g) by lia. apply Hr. intros x Hx. by apply not_elem_of_nil in Hx.
Qed.

(** ** Entries of pages *)

Section leaves.
Context `{FA : FrameAllocator A} (R : list Z).
Implicit Type s : pmm_t A.

(** No user page of any space is mapped differently. *)
Definition same_leaves s s' : Prop := forall r va, r ∈ R -> 0 <= va < USER_LIMIT -> vmm_leaf_pte s' r va = vmm_leaf_pte s r va.

Lemma same_leaves_trans s1 s2 s3 : same_leaves s1 s2 -> same_leaves s2 s3 -> same_leaves s1 s3.
Proof. intros H1 H2 r va Hr Hva. rewrite H2 by done. by apply H1. Qed.

Lemma grows_leaves s s' : grows R s s' -> same_leaves s s'.
Proof. intros Hg r va Hr Hva. by apply (grows_pte R). Qed.

Lemma mem_leaves s s' : mem s' = mem s -> same_leaves s s'.
Proof. intros Hm r va _ _. unfold vmm_leaf_pte, page_table, rd. by rewrite Hm. Qed.

Lemma put_frames_mem cpu p o s : mem (put_frames cpu p o s) = mem s.
Proof. unfold put_frames. destruct (fa_put _ _ _ _) as [[] a]; done. Qed.

Lemma pmm_free_mem cpu p s : mem (pmm_free cpu p s) = mem s.
Proof. unfold pmm_free. cbv zeta. repeat case_raw; rewrite ?put_frames_mem; done. Qed.

Lemma changes_leaves s s' r va : changes R s s' r va -> 0 <= va < USER_LIMIT -> vmm_leaf_pte s' r va = vmm_leaf_pte s r va -> same_leaves s s'.
Proof.
  intros Hc Hva Hl r' va' Hr' Hva'. destruct (decide (r' = r)) as [->|Hne]; [|by apply (ch_others _ _ _ _ _ Hc); [..|left]].
  destruct (decide (va' / 4096 = va / 4096)) as [Heq|Hne]; [|by apply (ch_others _ _ _ _ _ Hc); [..|right]].
  by rewrite !(leaf_same_page _ r va' va Heq).
Qed.

Lemma write_data_leaves X s f m :
  mem_inv R X s -> 0 < live s f -> ~ is_table R s (page s f) ->
  (forall a, ~ (page s f <= a < page s f + PAGE_SIZE) -> m a = mem s a) -> same_leaves s (set_mem m s).
Proof.
  intros H Hl Hnt Hm r va Hr Hva. destruct (mi_page_nz R X s f H Hl) as [Hp _].
  apply (same_tables_pte R); try done. by apply (same_tables_outside R s _ (page s f)); [apply H| | |].
Qed.

Lemma virt_to_phys_leaf s r va : vmm_virt_to_phys s r va = if has (vmm_leaf_pte s r va) VMM_PRESENT then pte_addr (vmm_leaf_pte s r va) else 0.
Proof. unfold vmm_virt_to_phys, vmm_leaf_pte. by destruct (page_table s r va). Qed.
End leaves.
