(* ===== verification/Shmem.v ===== *)
(** * Shared memory files.

    Models [kernel/mm/shmem.c], the storage of [memfd_create] files: an array of
    page frames with a logical size, a reference count and seals.  The functions
    get a non-null object; [kok n] is whether [krealloc] of [n] bytes succeeds.
    Every access to the array is checked: [None] is an access outside of it (or
    a loop that ran out of fuel).  The theorem says that reading, writing and
    resizing implement a file that is a list of bytes. *)

From S2P Require Import Prelude Bits Bytes Words Bitfield Vma Lower LLFree Pmm Vmm VmmPte VmmTables MemInv.

Definition EPERM : Z := 1.
Definition EFBIG : Z := 27.
Definition SHMEM_MAX_PAGES : Z := 256 * 1024.
Definition F_SEAL_SEAL : Z := 1.
Definition F_SEAL_SHRINK : Z := 2.
Definition F_SEAL_GROW : Z := 4.
Definition F_SEAL_WRITE : Z := 8.
Definition F_SEAL_FUTURE_WRITE : Z := 16.

(** [npages] is the length of [pages]; a missing page is [0]. *)
Record shmem_obj := mkShmem {
  sh_pages : list Z;
  sh_size : Z;
  sh_refcnt : Z;
  sh_seals : Z;
}.

Definition set_pages (l : list Z) (o : shmem_obj) : shmem_obj := mkShmem l (sh_size o) (sh_refcnt o) (sh_seals o).
Definition set_size (n : Z) (o : shmem_obj) : shmem_obj := mkShmem (sh_pages o) n (sh_refcnt o) (sh_seals o).
Definition set_refcnt (n : Z) (o : shmem_obj) : shmem_obj := mkShmem (sh_pages o) (sh_size o) n (sh_seals o).
Definition set_seals (n : Z) (o : shmem_obj) : shmem_obj := mkShmem (sh_pages o) (sh_size o) (sh_refcnt o) n.

Definition npages (o : shmem_obj) : Z := Z.of_nat (length (sh_pages o)).

Definition pages_for (size : Z) : Z := u64 (size + PAGE_SIZE - 1) / PAGE_SIZE.

Definition shmem_create (ok : bool) : option shmem_obj := if ok then Some (mkShmem [] 0 1 0) else None.

Definition shmem_ref (o : shmem_obj) : shmem_obj := set_refcnt (u32 (sh_refcnt o + 1)) o.

Definition shmem_grow_array (kok : Z -> bool) (o : shmem_obj) (want : Z) : Z * shmem_obj :=
  if want <=? npages o then (0, o) else
  if negb (kok (u64 (want * 8))) then (- ENOMEM, o) else (0, set_pages (sh_pages o ++ replicate (Z.to_nat (want - npages o)) 0) o).

Definition shmem_add_seals (o : shmem_obj) (seals : Z) : Z * shmem_obj :=
  if has seals (u32 (Z.lnot (Z.lor (Z.lor (Z.lor (Z.lor F_SEAL_SEAL F_SEAL_SHRINK) F_SEAL_GROW) F_SEAL_WRITE) F_SEAL_FUTURE_WRITE))) then (- EINVAL, o) else
  if has (sh_seals o) F_SEAL_SEAL then (- EPERM, o) else (0, set_seals (Z.lor (sh_seals o) seals) o).

Definition shmem_get_seals (o : shmem_obj) : Z := sh_seals o.

Section shmem.
Context `{FA : FrameAllocator A} (cpu : nat) (kok : Z -> bool).
Implicit Type s : pmm_t A.
Implicit Type o : shmem_obj.

(** Frees the pages of an object, in order. *)
Definition free_pages (l : list Z) s : pmm_t A := foldl (fun s a => if a =? 0 then s else pmm_free cpu a s) s l.

(** [None] is an object that was freed. *)
Definition shmem_unref o s : option shmem_obj * pmm_t A :=
  let n := u32 (sh_refcnt o - 1) in
  if negb (sh_refcnt o =? 0) && negb (n =? 0) then (Some (set_refcnt n o), s) else (None, free_pages (sh_pages o) s).

(** The loop of [shmem_resize] that allocates the missing pages [i, i + 1, ...]. *)
Fixpoint fill_pages (n i : nat) o s : option (bool * shmem_obj * pmm_t A) :=
  match n with
  | O => Some (true, o, s)
  | S n =>
      a ← sh_pages o !! i;
      if negb (a =? 0) then fill_pages n (S i) o s else
      match pmm_alloc_zeroed cpu s with
      | (None, s) => Some (false, o, s)
      | (Some p, s) => fill_pages n (S i) (set_pages (<[i := p]> (sh_pages o)) o) s
      end
  end.

(** Clears the rest of the last page before the file grows. *)
Definition zero_tail o s : option (pmm_t A) :=
  let tail := Z.land (sh_size o) (PAGE_SIZE - 1) in
  if tail =? 0 then Some s else
  page ← sh_pages o !! Z.to_nat (sh_size o / PAGE_SIZE);
  if page =? 0 then None else Some (set_mem (write_bytes (page + tail) (replicate (Z.to_nat (PAGE_SIZE - tail)) 0) (mem s)) s).

(** The loop of [shmem_resize] that drops the pages from [keep] on. *)
Definition drop_pages (keep : nat) o s : shmem_obj * pmm_t A :=
  (set_pages (take keep (sh_pages o) ++ replicate (length (sh_pages o) - keep) 0) o, free_pages (drop keep (sh_pages o)) s).

Definition shmem_resize o (size : Z) s : option (Z * shmem_obj * pmm_t A) :=
  if size =? sh_size o then Some (0, o, s) else
  if (sh_size o <? size) && has (sh_seals o) F_SEAL_GROW then Some (- EPERM, o, s) else
  if (size <? sh_size o) && has (sh_seals o) F_SEAL_SHRINK then Some (- EPERM, o, s) else
  if SHMEM_MAX_PAGES <? pages_for size then Some (- EFBIG, o, s) else
  if sh_size o <? size then
    let want := pages_for size in
    let '(rc, o) := shmem_grow_array kok o want in
    if rc <? 0 then Some (rc, o, s) else
    r ← fill_pages (Z.to_nat want) 0 o s;
    let '(ok, o, s) := r in
    if negb ok then Some (- ENOMEM, o, s) else
    s ← zero_tail o s;
    Some (0, set_size size o, s)
  else
    let '(o, s) := drop_pages (Z.to_nat (pages_for size)) o s in
    Some (0, set_size size o, s).

Definition shmem_page_phys o (off : Z) s : option (Z * shmem_obj * pmm_t A) :=
  let idx := off / PAGE_SIZE in
  if SHMEM_MAX_PAGES <=? idx then Some (0, o, s) else
  let '(rc, o) := shmem_grow_array kok o (idx + 1) in
  if rc <? 0 then Some (0, o, s) else
  a ← sh_pages o !! Z.to_nat idx;
  if negb (a =? 0) then Some (a, o, s) else
  match pmm_alloc_zeroed cpu s with
  | (None, s) => Some (0, o, s)
  | (Some p, s) => Some (p, set_pages (<[Z.to_nat idx := p]> (sh_pages o)) o, s)
  end.

(** The copy loops; the bytes read are part of the result.  [chunks] is fuel. *)
Fixpoint shmem_read_loop (chunks : nat) o (off len done : Z) s : option (Z * list Z * shmem_obj * pmm_t A) :=
  match chunks with
  | O => None
  | S chunks =>
      if negb (done <? len) then Some (done, [], o, s) else
      r ← shmem_page_phys o (u64 (off + done)) s;
      let '(phys, o, s) := r in
      if phys =? 0 then Some (if done =? 0 then - ENOMEM else done, [], o, s) else
      let in_page := Z.land (u64 (off + done)) (PAGE_SIZE - 1) in
      let chunk := if len - done <? PAGE_SIZE - in_page then len - done else PAGE_SIZE - in_page in
      let bs := mem_bytes (mem s) (phys + in_page) chunk in
      r ← shmem_read_loop chunks o off len (done + chunk) s;
      let '(rc, out, o, s) := r in
      Some (rc, bs ++ out, o, s)
  end.

Fixpoint shmem_write_loop (chunks : nat) o (src : list Z) (off done : Z) s : option (Z * shmem_obj * pmm_t A) :=
  match chunks with
  | O => None
  | S chunks =>
      if negb (done <? blen src) then Some (done, o, s) else
      r ← shmem_page_phys o (u64 (off + done)) s;
      let '(phys, o, s) := r in
      if phys =? 0 then Some (if done =? 0 then - ENOMEM else done, o, s) else
      let in_page := Z.land (u64 (off + done)) (PAGE_SIZE - 1) in
      let chunk := if blen src - done <? PAGE_SIZE - in_page then blen src - done else PAGE_SIZE - in_page in
      shmem_write_loop chunks o src off (done + chunk) (set_mem (write_bytes (phys + in_page) (slice src done chunk) (mem s)) s)
  end.

(** Each round but the first starts at a page boundary. *)
Definition chunks_of (len : Z) : nat := Z.to_nat (len / PAGE_SIZE + 3).

Definition shmem_read o (off len : Z) s : option (Z * list Z * shmem_obj * pmm_t A) :=
  if sh_size o <=? off then Some (0, [], o, s) else
  let avail := sh_size o - off in
  let len := if avail <? len then avail else len in
  shmem_read_loop (chunks_of len) o off len 0 s.

Definition shmem_write o (src : list Z) (off : Z) s : option (Z * shmem_obj * pmm_t A) :=
  let len := blen src in
  if has (sh_seals o) (Z.lor F_SEAL_WRITE F_SEAL_FUTURE_WRITE) then Some (- EPERM, o, s) else
  if len =? 0 then Some (0, o, s) else
  if U64_MAX - len <? off then Some (- EFBIG, o, s) else
  if sh_size o <? off + len then
    r ← shmem_resize o (off + len) s;
    let '(rc, o, s) := r in
    if rc <? 0 then Some (rc, o, s) else shmem_write_loop (chunks_of len) o src off 0 s
  else shmem_write_loop (chunks_of len) o src off 0 s.
End shmem.

(** ** Correctness *)

(** The file as a list of bytes. *)
Definition obyte {A} (o : shmem_obj) (s : pmm_t A) (i : Z) : Z := mem_byte (mem s) (aget 0 (sh_pages o) (Z.to_nat (i / PAGE_SIZE)) + i mod PAGE_SIZE).
Definition content {A} (o : shmem_obj) (s : pmm_t A) : list Z := obyte o s <$> seqZ 0 (sh_size o).

Definition obj_frames (fs : list (option Z)) : list Z := omap id fs.

Lemma obj_frames_lookup fs i f : fs !! i = Some (Some f) -> f ∈ obj_frames fs.
Proof. intros H. apply list_elem_of_omap. exists (Some f). split; [by eapply list_elem_of_lookup_2|done]. Qed.

Lemma obj_frames_elem fs f : f ∈ obj_frames fs -> exists i, fs !! i = Some (Some f).
Proof. intros (fo & Hin & Hfo)%list_elem_of_omap. unfold id in Hfo. subst fo. by apply list_elem_of_lookup in Hin. Qed.

Lemma obj_frames_insert fs i f : fs !! i = Some None -> obj_frames (<[i := Some f]> fs) ≡ₚ f :: obj_frames fs.
Proof.
  intros H. rewrite <-(take_drop_middle fs i None H) at 2. rewrite insert_take_drop by by eapply lookup_lt_Some. unfold obj_frames. rewrite !omap_app. cbn. symmetry. apply Permutation_middle.
Qed.

Lemma obj_frames_none fs n : obj_frames (fs ++ replicate n None) = obj_frames fs.
Proof. unfold obj_frames. rewrite omap_app. assert (H : omap id (replicate n (None : option Z)) = []) by by induction n. by rewrite H, app_nil_r. Qed.

Lemma obj_frames_inj fs i j f : NoDup (obj_frames fs) -> fs !! i = Some (Some f) -> fs !! j = Some (Some f) -> i = j.
Proof.
  revert i j. induction fs as [|fo fs IH]; intros i j Hnd Hi Hj; [done|]. destruct fo as [g|].
  - cbn in Hnd. apply NoDup_cons in Hnd as [Hg Hnd]. destruct i as [|i], j as [|j]; cbn in Hi, Hj; [done| | |f_equal; by apply IH].
    + injection Hi as ->. by apply obj_frames_lookup in Hj.
    + injection Hj as ->. by apply obj_frames_lookup in Hi.
  - destruct i as [|i], j as [|j]; cbn in Hi, Hj; try done. f_equal. by apply IH.
Qed.

(** The operations that [read], [write], [ftruncate] and [fcntl] make. *)
Inductive shmem_op :=
  | ORead (off len : Z)
  | OWrite (src : list Z) (off : Z)
  | OResize (size : Z)
  | OSeal (seals : Z).

(** Arguments as the callers pass them: offsets are below 2^63.  A size is not
    checked by [sys_ftruncate]; here it is at most 2^64 - 4096. *)
Definition op_ok (op : shmem_op) : Prop :=
  match op with
  | ORead off len => 0 <= off /\ 0 <= len
  | OWrite src off => Forall is_u8 src /\ 0 <= off /\ off + blen src < 2 ^ 63
  | OResize size => 0 <= size <= 2 ^ 64 - 4096
  | OSeal seals => is_u32 seals
  end.

Definition run_op `{FA : FrameAllocator A} (cpu : nat) (kok : Z -> bool) (o : shmem_obj) (op : shmem_op) (s : pmm_t A) : option (Z * list Z * shmem_obj * pmm_t A) :=
  match op with
  | ORead off len => shmem_read cpu kok o off len s
  | OWrite src off => r ← shmem_write cpu kok o src off s; let '(rc, o, s) := r in Some (rc, [], o, s)
  | OResize size => r ← shmem_resize cpu kok o size s; let '(rc, o, s) := r in Some (rc, [], o, s)
  | OSeal seals => let '(rc, o) := shmem_add_seals o seals in Some (rc, [], o, s)
  end.

Fixpoint run_ops `{FA : FrameAllocator A} (cpu : nat) (kok : Z -> bool) (o : shmem_obj) (ops : list shmem_op) (s : pmm_t A) : option (list (Z * list Z) * shmem_obj * pmm_t A) :=
  match ops with
  | [] => Some ([], o, s)
  | op :: ops =>
      r ← run_op cpu kok o op s;
      let '(rc, out, o, s) := r in
      r ← run_ops cpu kok o ops s;
      let '(res, o, s) := r in
      Some ((rc, out) :: res, o, s)
  end.

Definition write_sealed (seals : Z) : bool := has seals (Z.lor F_SEAL_WRITE F_SEAL_FUTURE_WRITE).

(** A file is its bytes and its seals. *)
Definition file : Type := list Z * Z.

(** When an operation may fail. *)
Definition may_fail (f : file) (op : shmem_op) : Prop :=
  match op with
  | ORead _ _ => False
  | OWrite src off => write_sealed f.2 = true \/ blen f.1 < off + blen src
  | OResize size => blen f.1 < size \/ size < blen f.1 /\ has f.2 F_SEAL_SHRINK = true
  | OSeal seals => has f.2 F_SEAL_SEAL = true \/ 32 <= seals
  end.

Inductive file_step (f : file) : shmem_op -> Z * list Z -> file -> Prop :=
  | file_reads off len : let out := take (Z.to_nat len) (drop (Z.to_nat off) f.1) in file_step f (ORead off len) (blen out, out) f
  | file_writes src off :
      write_sealed f.2 = false -> (src <> [] -> blen f.1 < off + blen src -> has f.2 F_SEAL_GROW = false) ->
      file_step f (OWrite src off) (blen src, []) (if bool_decide (src = []) then f.1 else file_write f.1 src off, f.2)
  | file_resizes size :
      (blen f.1 < size -> has f.2 F_SEAL_GROW = false) -> (size < blen f.1 -> has f.2 F_SEAL_SHRINK = false) ->
      file_step f (OResize size) (0, []) (file_resize f.1 size, f.2)
  | file_seals seals : has f.2 F_SEAL_SEAL = false -> file_step f (OSeal seals) (0, []) (f.1, Z.lor f.2 seals)
  | file_fails op rc : may_fail f op -> rc < 0 -> file_step f op (rc, []) f.

Inductive file_run : file -> list shmem_op -> list (Z * list Z) -> file -> Prop :=
  | file_done f : file_run f [] [] f
  | file_next f op res f' ops rest f'' : file_step f op res f' -> file_run f' ops rest f'' -> file_run f (op :: ops) (res :: rest) f''.

Lemma blen_content {A} o (s : pmm_t A) : 0 <= sh_size o -> blen (content o s) = sh_size o.
Proof. intros H. unfold blen, content. rewrite length_fmap, length_seqZ. lia. Qed.

Lemma content_lookup {A} o (s : pmm_t A) i : 0 <= i < sh_size o -> content o s !! Z.to_nat i = Some (obyte o s i).
Proof. intros H. unfold content. rewrite list_lookup_fmap, lookup_seqZ_lt by lia. cbn. do 2 f_equal. lia. Qed.

Lemma content_eq {A} o (s : pmm_t A) c : 0 <= sh_size o -> blen c = sh_size o -> (forall i, 0 <= i < sh_size o -> c !! Z.to_nat i = Some (obyte o s i)) -> content o s = c.
Proof.
  intros H0 Hl H. apply list_eq_same_length with (length c); [done|pose proof (blen_content o s H0); unfold blen in *; lia|]. intros i x y Hi Hx Hy. unfold blen in Hl.
  rewrite <-(Nat2Z.id i), content_lookup in Hx by lia. rewrite <-(Nat2Z.id i), H in Hy by lia. congruence.
Qed.

Lemma file_content_same {A} o o' (s s' : pmm_t A) : 0 <= sh_size o -> sh_size o' = sh_size o -> (forall i, 0 <= i < sh_size o -> obyte o' s' i = obyte o s i) -> content o' s' = content o s.
Proof.
  intros H0 Hs H. apply content_eq; rewrite ?Hs; [done|by apply blen_content|]. intros i Hi. rewrite content_lookup by done. by rewrite H.
Qed.

Lemma pages_for_eq n : 0 <= n <= 2 ^ 64 - 4096 -> pages_for n = (n + 4095) / 4096.
Proof. intros H. unfold pages_for, PAGE_SIZE. rewrite u64_small by (unfold is_u64; lia). f_equal. lia. Qed.

Section correct.
Context `{FA : FrameAllocator A} (R X : list Z) (cpu : nat) (Hcpu : (cpu < MAX_CPUS)%nat) (kok : Z -> bool).
Implicit Type s : pmm_t A.

Definition addr_of s (fo : option Z) : Z := match fo with Some f => page s f | None => 0 end.

(** The object holds a reference to each of its pages [fs], and has all pages
    below its size. *)
Record obj_inv (fs : list (option Z)) (o : shmem_obj) s : Prop := {
  oi_pages : sh_pages o = addr_of s <$> fs;
  oi_nodup : NoDup (obj_frames fs);
  oi_size : 0 <= sh_size o <= SHMEM_MAX_PAGES * PAGE_SIZE;
  oi_len : Z.of_nat (length fs) <= SHMEM_MAX_PAGES;
  oi_full i : 0 <= i < sh_size o -> exists f, fs !! Z.to_nat (i / PAGE_SIZE) = Some (Some f);
}.

Definition page_zero s (f : Z) : Prop := forall a, page s f <= a < page s f + PAGE_SIZE -> mem_byte (mem s) a = 0.

(** Pages past the end, if there are any, are clear. *)
Definition past_zero (fs : list (option Z)) (o : shmem_obj) s : Prop :=
  forall n f, 0 <= n -> sh_size o <= n / PAGE_SIZE * PAGE_SIZE -> fs !! Z.to_nat (n / PAGE_SIZE) = Some (Some f) -> obyte o s n = 0.

(** What allocating pages does. *)
Record more (fs fs' : list (option Z)) (o o' : shmem_obj) s s' : Prop := {
  mo_grows : grows R s s';
  mo_old i f : fs !! i = Some (Some f) -> fs' !! i = Some (Some f);
  mo_new i f : fs' !! i = Some (Some f) -> fs !! i = Some (Some f) \/ live s f <= 0 /\ page_zero s' f;
  mo_meta : sh_size o' = sh_size o /\ sh_refcnt o' = sh_refcnt o /\ sh_seals o' = sh_seals o;
}.

Abbreviation held fs s := (mem_inv R (obj_frames fs ++ X) s).

Lemma held_live fs s i f : held fs s -> fs !! i = Some (Some f) -> 0 < live s f /\ ~ is_table R s (page s f).
Proof.
  intros H Hi. assert (Hin : f ∈ obj_frames fs ++ X) by (apply elem_of_app; left; by eapply obj_frames_lookup). split; [by eapply mi_spare_live|by apply H].
Qed.

Lemma page_aligned fs s i f : held fs s -> fs !! i = Some (Some f) -> page s f mod 4096 = 0 /\ page s f <> 0.
Proof. intros H Hi. destruct (held_live fs s i f H Hi) as [Hl _]. destruct (mi_page_nz R _ s f H Hl) as [[_ Hp] Hz]. done. Qed.

Lemma word_in_page p a : p mod 4096 = 0 -> p <= a < p + PAGE_SIZE -> p <= a - a mod 8 < p + PAGE_SIZE.
Proof.
  unfold PAGE_SIZE. intros Hp Ha. pose proof (Z.div_mod p 4096 ltac:(lia)). pose proof (Z.div_mod a 8 ltac:(lia)). pose proof (Z.mod_pos_bound a 8 ltac:(lia)).
  split; [|lia]. assert (512 * (p / 4096) <= a / 8) by (apply Z.div_le_lower_bound; lia). lia.
Qed.

Lemma grows_bytes fs s s' i f a : held fs s -> grows R s s' -> fs !! i = Some (Some f) -> page s f <= a < page s f + PAGE_SIZE -> mem_byte (mem s') a = mem_byte (mem s) a.
Proof.
  intros H Hg Hi Ha. destruct (held_live fs s i f H Hi) as [Hl Hnt]. apply mem_byte_ext. apply (gr_data _ _ _ _ Hg f); [done|done|].
  apply word_in_page; [by eapply page_aligned|done].
Qed.

Lemma page_zero_grows fs s s' i f : held fs s -> grows R s s' -> fs !! i = Some (Some f) -> page_zero s f -> page_zero s' f.
Proof.
  intros H Hg Hi Hz a Ha. rewrite (same_page s s') in Ha by apply Hg. rewrite (grows_bytes fs s s' i f) by done. by apply Hz.
Qed.

Lemma more_refl fs o s : more fs fs o o s s.
Proof. split; try done; [apply grows_refl|by left]. Qed.

Lemma more_trans fs1 fs2 fs3 o1 o2 o3 s1 s2 s3 : held fs2 s2 -> more fs1 fs2 o1 o2 s1 s2 -> more fs2 fs3 o2 o3 s2 s3 -> more fs1 fs3 o1 o3 s1 s3.
Proof.
  intros H [G1 O1 N1 M1] [G2 O2 N2 M2]. split.
  - by eapply grows_trans.
  - intros i f Hi. by apply O2, O1.
  - intros i f Hi. destruct (N2 i f Hi) as [Hi2|[Hl Hz]].
    + destruct (N1 i f Hi2) as [Hi1|[Hl Hz]]; [by left|right]. split; [done|]. by eapply page_zero_grows.
    + right. split; [|done]. destruct (Z.le_gt_cases (live s1 f) 0) as [|Hl1]; [done|]. rewrite (gr_live _ _ _ _ G1 f ltac:(lia)) in Hl. lia.
  - destruct M1 as (-> & -> & ->) in M2. done.
Qed.

Lemma obj_inv_new s : obj_inv [] (mkShmem [] 0 1 0) s.
Proof. split; try done; [constructor|]. intros i [H1 H2]. by apply Z.le_ngt in H1. Qed.

Lemma obj_inv_base fs o s s' : g_first_frame s' = g_first_frame s -> obj_inv fs o s -> obj_inv fs o s'.
Proof.
  intros Hs [H1 H2 H3 H4 H5]. split; try done. rewrite H1. apply list_fmap_ext. intros _ [f|] _; [|done]. cbn. unfold page. by rewrite Hs.
Qed.

Lemma obj_inv_same fs o s s' : same_memory s s' -> obj_inv fs o s -> obj_inv fs o s'.
Proof. intros [Hs _]. by apply obj_inv_base. Qed.

(** Allocating the page with index [i]. *)
Lemma page_new fs o s i :
  held fs s -> obj_inv fs o s -> fs !! i = Some None ->
  match pmm_alloc_zeroed cpu s with
  | (Some p, s') => exists f, let fs' := <[i := Some f]> fs in let o' := set_pages (<[i := p]> (sh_pages o)) o in
      p = page s' f /\ p <> 0 /\ held fs' s' /\ obj_inv fs' o' s' /\ more fs fs' o o' s s'
  | (None, s') => held fs s' /\ obj_inv fs o s' /\ more fs fs o o s s'
  end.
Proof.
  intros H Ho Hi. pose proof (alloc_zeroed_inv R _ cpu s H) as Ha. destruct (pmm_alloc_zeroed cpu s) as [[p|] s'].
  - destruct Ha as (f & -> & H0 & Hm & Hg & Hz). exists f. cbv zeta. pose proof (same_page s s' f (gr_mem _ _ _ _ Hg)) as Hp.
    pose proof (obj_inv_same fs o s s' (gr_mem _ _ _ _ Hg) Ho) as Ho'. destruct Ho' as [O1 O2 O3 O4 O5].
    assert (Hfresh : f ∉ obj_frames fs ++ X) by (intros Hin; pose proof (mi_spare_live _ _ _ _ H Hin); lia).
    assert (Hm' : held (<[i := Some f]> fs) s').
    { eapply mem_inv_spare_perm; [|exact Hm]. rewrite (obj_frames_insert fs i f Hi). done. }
    assert (Hif : <[i := Some f]> fs !! i = Some (Some f)) by (apply list_lookup_insert_eq; by eapply lookup_lt_Some).
    destruct (page_aligned _ _ _ _ Hm' Hif) as [Hal Hnz]. rewrite <-Hp. split_and!; try done.
    + split; cbn [set_pages sh_pages sh_size]; try done.
      * rewrite O1, list_fmap_insert. done.
      * rewrite (obj_frames_insert fs i f Hi). apply NoDup_cons. split; [|done]. intros Hin. apply Hfresh, elem_of_app. by left.
      * by rewrite length_insert.
      * intros k Hk. destruct (O5 k Hk) as [g Hgk]. exists g. rewrite list_lookup_insert_ne; [done|]. intros ->. congruence.
    + split; [done| | |done].
      * intros k g Hk. rewrite list_lookup_insert_ne; [done|]. intros ->. congruence.
      * intros k g Hk. apply list_lookup_insert_Some in Hk as [(<- & [= <-] & _)|[_ Hk]]; [right; split; [lia|]|by left]. intros a Hin.
        unfold mem_byte. pose proof (word_in_page _ a Hal Hin) as Hw. unfold PAGE_SIZE in Hw.
        assert (Hrd : mem s' (a - a mod 8) = 0).
        { rewrite <-(Hz ((a - a mod 8 - page s' f) / 8)); [|split; [apply Z.div_pos; lia|apply Z.div_lt_upper_bound; lia]]. unfold rd. f_equal. rewrite Hp in *.
          pose proof (Z.div_mod (a - a mod 8 - page s f) 8 ltac:(lia)). assert (Hmod : (a - a mod 8 - page s f) mod 8 = 0); [|lia].
          pose proof (Z.div_mod a 8 ltac:(lia)). pose proof (Z.div_mod (page s f) 4096 ltac:(lia)). replace (a - a mod 8 - page s f) with ((a / 8 - 512 * (page s f / 4096)) * 8) by lia. by apply Z.mod_mul. }
        rewrite Hrd. unfold byte_of. by rewrite Z.shiftr_0_l.
  - destruct Ha as [Hm Hg]. split; [done|]. split; [by apply (obj_inv_same fs o s s'); [apply Hg|]|]. split; try done. by left.
Qed.

Lemma free_pages_ok fs : forall Y s, mem_inv R (obj_frames fs ++ Y) s ->
  let s' := free_pages cpu (addr_of s <$> fs) s in mem_inv R Y s' /\ same_memory s s' /\ mem s' = mem s.
Proof.
  induction fs as [|[f|] fs IH]; intros Y s H; cbv zeta; [done| |by apply IH]. cbn [fmap list_fmap addr_of]. unfold free_pages. cbn [foldl].
  assert (Hl : 0 < live s f) by (eapply mi_spare_live; [exact H|left]). destruct (mi_page_nz R _ s f H Hl) as [_ Hz]. rewrite (proj2 (Z.eqb_neq _ _) Hz).
  destruct (free_inv R (obj_frames fs ++ Y) cpu s f H Hcpu) as (H1 & H2 & _ & H3 & _). destruct (IH Y _ H1) as (I1 & I2 & I3).
  assert (Hp : addr_of (pmm_free cpu (page s f) s) <$> fs = addr_of s <$> fs) by (apply list_fmap_ext; intros _ [g|] _; [|done]; by apply same_page).
  rewrite Hp in I1, I2, I3. unfold free_pages in *. split; [done|]. split; [|congruence]. destruct H2, I2. split; congruence.
Qed.

Lemma grow_array_ok fs o s want :
  obj_inv fs o s -> 0 <= want <= SHMEM_MAX_PAGES ->
  let '(rc, o') := shmem_grow_array kok o want in
  exists fs', obj_frames fs' = obj_frames fs /\ obj_inv fs' o' s /\ more fs fs' o o' s s /\ (rc = - ENOMEM \/ rc = 0 /\ want <= Z.of_nat (length fs')).
Proof.
  intros Ho Hw. unfold shmem_grow_array. assert (Hn : npages o = Z.of_nat (length fs)) by (unfold npages; by rewrite (oi_pages _ _ _ Ho), length_fmap).
  destruct (Z.leb_spec want (npages o)); [exists fs; split_and!; [done|done|apply more_refl|right; lia]|].
  destruct (kok _); cbn [negb]; [|exists fs; split_and!; [done|done|apply more_refl|by left]].
  exists (fs ++ replicate (Z.to_nat (want - npages o)) None). rewrite obj_frames_none. split; [done|]. destruct Ho as [O1 O2 O3 O4 O5].
  split; [|split].
  - split; cbn [set_pages sh_pages sh_size]; try done.
    + by rewrite O1, fmap_app, fmap_replicate.
    + by rewrite obj_frames_none.
    + rewrite length_app, length_replicate. lia.
    + intros i Hi. destruct (O5 i Hi) as [f Hf]. exists f. by apply lookup_app_l_Some.
  - split; try done; [apply grows_refl| |].
    + intros i f Hi. by apply lookup_app_l_Some.
    + intros i f Hi. apply lookup_app_Some in Hi as [Hi|[_ Hi]]; [by left|]. apply lookup_replicate in Hi as [[=] _].
  - right. rewrite length_app, length_replicate. lia.
Qed.

Lemma fill_pages_ok n : forall i fs o s,
  held fs s -> obj_inv fs o s -> (i + n <= length fs)%nat ->
  exists ok o' s' fs', fill_pages cpu n i o s = Some (ok, o', s') /\ held fs' s' /\ obj_inv fs' o' s' /\ more fs fs' o o' s s' /\
    (ok = true -> forall j, (i <= j < i + n)%nat -> exists f, fs' !! j = Some (Some f)).
Proof.
  induction n as [|n IH]; intros i fs o s H Ho Hl; cbn [fill_pages].
  { exists true, o, s, fs. split_and!; [done|done|done|apply more_refl|lia]. }
  destruct (fs !! i) as [fo|] eqn:Hi; [|apply lookup_ge_None in Hi; lia].
  assert (Ha : sh_pages o !! i = Some (addr_of s fo)) by by rewrite (oi_pages _ _ _ Ho), list_lookup_fmap, Hi. rewrite Ha. cbn [mbind option_bind]. destruct fo as [f|]; cbn [addr_of].
  - destruct (page_aligned _ _ _ _ H Hi) as [_ Hz]. rewrite (proj2 (Z.eqb_neq _ _) Hz). cbn [negb].
    destruct (IH (S i) fs o s H Ho ltac:(lia)) as (ok & o' & s' & fs' & -> & H' & Ho' & Hm & Hall). exists ok, o', s', fs'. split_and!; try done.
    intros Hok j Hj. destruct (decide (j = i)) as [->|Hne]; [exists f; by apply (mo_old _ _ _ _ _ _ Hm)|apply Hall; [done|lia]].
  - cbn [Z.eqb negb]. pose proof (page_new fs o s i H Ho Hi) as Hn. destruct (pmm_alloc_zeroed cpu s) as [[p|] s1].
    + destruct Hn as (f & Hp & _ & H1 & Ho1 & Hm1). cbv zeta in *.
      destruct (IH (S i) _ _ s1 H1 Ho1) as (ok & o' & s' & fs' & -> & H' & Ho' & Hm & Hall); [rewrite length_insert; lia|]. exists ok, o', s', fs'. split_and!; try done.
      * exact (more_trans _ _ _ _ _ _ _ _ _ H1 Hm1 Hm).
      * intros Hok j Hj. destruct (decide (j = i)) as [->|Hne]; [|apply Hall; [done|lia]]. exists f. apply (mo_old _ _ _ _ _ _ Hm). apply list_lookup_insert_eq. by eapply lookup_lt_Some.
    + destruct Hn as (H1 & Ho1 & Hm1). exists false, o, s1, fs. by split_and!.
Qed.

(** ** Bytes of the file *)

(** Pages in use that belong to no one but others keep their contents. *)
Definition apart (fs : list (option Z)) s s' : Prop :=
  forall g a, 0 < live s g -> ~ is_table R s (page s g) -> g ∉ obj_frames fs -> page s g <= a < page s g + PAGE_SIZE -> mem s' a = mem s a.

Lemma obyte_frame fs o s i f : obj_inv fs o s -> fs !! Z.to_nat (i / PAGE_SIZE) = Some (Some f) -> obyte o s i = mem_byte (mem s) (page s f + i mod PAGE_SIZE).
Proof. intros Ho Hf. unfold obyte, aget. by rewrite (oi_pages _ _ _ Ho), list_lookup_fmap, Hf. Qed.

Lemma in_page s f i : page s f <= page s f + i mod PAGE_SIZE < page s f + PAGE_SIZE.
Proof. pose proof (Z.mod_pos_bound i PAGE_SIZE ltac:(done)). lia. Qed.

Lemma obyte_more fs fs' o o' s s' i f :
  held fs s -> obj_inv fs o s -> obj_inv fs' o' s' -> more fs fs' o o' s s' -> fs !! Z.to_nat (i / PAGE_SIZE) = Some (Some f) -> obyte o' s' i = obyte o s i.
Proof.
  intros H Ho Ho' Hm Hf. rewrite (obyte_frame fs o s i f), (obyte_frame fs' o' s' i f) by (done || by apply (mo_old _ _ _ _ _ _ Hm)).
  rewrite (same_page s s') by apply Hm. apply (grows_bytes fs s s' (Z.to_nat (i / PAGE_SIZE)) f); [done|apply Hm|done|apply in_page].
Qed.

Lemma more_apart fs fs' o o' s s' : more fs fs' o o' s s' -> apart fs s s'.
Proof. intros Hm g a Hl Hnt _ Ha. by apply (gr_data _ _ _ _ (mo_grows _ _ _ _ _ _ Hm) g). Qed.

Lemma apart_more fs fs' o o' s s1 s2 : more fs fs' o o' s s1 -> apart fs' s1 s2 -> apart fs s s2.
Proof.
  intros Hm H g a Hl Hnt Hg Ha. rewrite <-(more_apart _ _ _ _ _ _ Hm g a Hl Hnt Hg Ha). destruct (mo_grows _ _ _ _ _ _ Hm) as [G1 _ _ G4 _ G6].
  pose proof (same_page s s1 g G1) as Hp. apply (H g); rewrite ?Hp; try done.
  - by rewrite G4.
  - intros Ht. destruct (G6 _ Ht) as [Ht'|(k & Hk & Hlk)]; [done|]. apply page_inj in Hk as <-. lia.
  - intros (i & Hi)%obj_frames_elem.
    destruct (mo_new _ _ _ _ _ _ Hm i g Hi) as [Hi'|[Hz _]]; [|lia]. apply Hg. by eapply obj_frames_lookup.
Qed.

(** Only pages of the file change. *)
Definition outside (fs : list (option Z)) s s' : Prop :=
  forall a, (forall f, f ∈ obj_frames fs -> ~ (page s f <= a < page s f + PAGE_SIZE)) -> mem s' a = mem s a.

Lemma outside_apart fs s s' : outside fs s s' -> apart fs s s'.
Proof.
  intros H g a _ _ Hg Ha. apply H. intros f Hf Ha'. apply Hg. assert (g = f) as ->; [|done]. unfold page, PAGE_SIZE in *. nia.
Qed.

(** Writing [bs] at offset [k] of page [i]. *)
Lemma page_write_ok fs o s i f k bs :
  held fs s -> obj_inv fs o s -> fs !! i = Some (Some f) -> 0 <= k -> k + blen bs <= PAGE_SIZE -> Forall is_u8 bs ->
  let s' := set_mem (write_bytes (page s f + k) bs (mem s)) s in
  held fs s' /\ obj_inv fs o s' /\ same_leaves R s s' /\ outside fs s s' /\
  forall n g, 0 <= n -> fs !! Z.to_nat (n / PAGE_SIZE) = Some (Some g) ->
    obyte o s' n = (let start := Z.of_nat i * PAGE_SIZE + k in if (start <=? n) && (n <? start + blen bs) then aget 0 bs (Z.to_nat (n - start)) else obyte o s n).
Proof.
  intros H Ho Hi Hk Hl Hb. cbv zeta. destruct (held_live _ _ _ _ H Hi) as [Hlv Hnt]. destruct (page_aligned _ _ _ _ H Hi) as [Hal _].
  assert (Hout : forall a, ~ (page s f <= a < page s f + PAGE_SIZE) -> write_bytes (page s f + k) bs (mem s) a = mem s a) by (intros a Ha; by apply write_bytes_out).
  split; [by apply (write_data_inv R _ s f)|]. split; [by apply (obj_inv_same fs o s)|]. split; [by apply (write_data_leaves R _ s f _ H)|]. split.
  - intros a Ha. apply Hout, Ha. by eapply obj_frames_lookup.
  - intros n g Hn Hg. rewrite !(obyte_frame fs o _ n g) by (done || by apply (obj_inv_same fs o s)).
    change (page (set_mem _ s) g) with (page s g). cbn [set_mem mem]. rewrite mem_byte_write by done. pose proof (Z.div_mod n PAGE_SIZE ltac:(done)) as Hdm. pose proof (Z.mod_pos_bound n PAGE_SIZE ltac:(done)) as Hmd.
    set (q := n / PAGE_SIZE) in *. set (r := n mod PAGE_SIZE) in *. assert (Hq : 0 <= q) by (unfold q; by apply Z.div_pos).
    destruct (decide (g = f)) as [->|Hne].
    + assert (Z.to_nat q = i) by by eapply (obj_frames_inj fs); [apply Ho|..]. rewrite Hdm. replace (Z.of_nat i) with q by lia. unfold PAGE_SIZE in *.
      replace (page s f + k <=? page s f + r) with (q * 4096 + k <=? 4096 * q + r) by (apply Bool.eq_iff_eq_true; rewrite !Z.leb_le; lia).
      replace (page s f + r <? page s f + k + blen bs) with (4096 * q + r <? q * 4096 + k + blen bs) by (apply Bool.eq_iff_eq_true; rewrite !Z.ltb_lt; lia).
      destruct (_ && _); [|done]. f_equal. lia.
    + assert (Hqi : q <> Z.of_nat i) by (intros Hqi; rewrite Hqi, Nat2Z.id in Hg; congruence).
      destruct (_ && _) eqn:E1; destruct ((Z.of_nat i * PAGE_SIZE + k <=? n) && _) eqn:E2; try done; exfalso.
      all: try (apply andb_true_iff in E1 as [E1a%Z.leb_le E1b%Z.ltb_lt]); try (apply andb_true_iff in E2 as [E2a%Z.leb_le E2b%Z.ltb_lt]).
      all: unfold page, PAGE_SIZE in *; nia.
Qed.

Lemma page_zero_obyte fs o s n f : obj_inv fs o s -> fs !! Z.to_nat (n / PAGE_SIZE) = Some (Some f) -> page_zero s f -> obyte o s n = 0.
Proof. intros Ho Hf Hz. rewrite (obyte_frame fs o s n f) by done. apply Hz, in_page. Qed.

Lemma more_past_zero fs fs' o o' s s' : held fs s -> obj_inv fs o s -> obj_inv fs' o' s' -> more fs fs' o o' s s' -> past_zero fs o s -> past_zero fs' o' s'.
Proof.
  intros H Ho Ho' Hm Hp n f Hn Hs Hf. rewrite (proj1 (mo_meta _ _ _ _ _ _ Hm)) in Hs. destruct (mo_new _ _ _ _ _ _ Hm _ _ Hf) as [Hf0|[_ Hz]]; [|by eapply page_zero_obyte].
  rewrite (obyte_more fs fs' o o' s s' n f) by done. by apply (Hp n f).
Qed.

Lemma more_content fs fs' o o' s s' : held fs s -> obj_inv fs o s -> obj_inv fs' o' s' -> more fs fs' o o' s s' -> content o' s' = content o s.
Proof.
  intros H Ho Ho' Hm. apply file_content_same; [apply Ho|apply Hm|]. intros i Hi. destruct (oi_full _ _ _ Ho i Hi) as [f Hf]. by apply (obyte_more fs fs' o o' s s' i f).
Qed.

Lemma zero_tail_ok fs o s :
  held fs s -> obj_inv fs o s ->
  exists s', zero_tail o s = Some s' /\ held fs s' /\ obj_inv fs o s' /\ same_leaves R s s' /\ same_memory s s' /\ apart fs s s' /\
    forall n f, 0 <= n -> fs !! Z.to_nat (n / PAGE_SIZE) = Some (Some f) ->
      obyte o s' n = if (sh_size o <=? n) && (n / PAGE_SIZE =? sh_size o / PAGE_SIZE) && negb (sh_size o mod PAGE_SIZE =? 0) then 0 else obyte o s n.
Proof.
  intros H Ho. unfold zero_tail. set (sz := sh_size o) in *. pose proof (oi_size _ _ _ Ho) as Hsz. fold sz in Hsz.
  replace (Z.land sz (PAGE_SIZE - 1)) with (sz mod PAGE_SIZE) by (symmetry; apply (Z.land_ones sz 12); lia).
  pose proof (Z.mod_pos_bound sz PAGE_SIZE ltac:(done)) as Hmod. pose proof (Z.div_mod sz PAGE_SIZE ltac:(done)) as Hdm.
  destruct (Z.eqb_spec (sz mod PAGE_SIZE) 0) as [Hz|Hnz]; [exists s; split_and!; try done; intros; by rewrite andb_false_r|].
  assert (Hsz0 : sz <> 0) by (intros E; by rewrite E in Hnz).
  assert (Hdiv : (sz - 1) / PAGE_SIZE = sz / PAGE_SIZE) by (symmetry; apply Z.div_unique with (sz mod PAGE_SIZE - 1); lia).
  destruct (oi_full _ _ _ Ho (sz - 1)) as [f Hf]; [fold sz; lia|]. rewrite Hdiv in Hf.
  rewrite (oi_pages _ _ _ Ho), list_lookup_fmap, Hf. cbn [fmap option_fmap option_map addr_of mbind option_bind].
  destruct (page_aligned _ _ _ _ H Hf) as [_ Hpz]. rewrite (proj2 (Z.eqb_neq _ _) Hpz). eexists. split; [done|].
  assert (Hbl : blen (replicate (Z.to_nat (PAGE_SIZE - sz mod PAGE_SIZE)) 0) = PAGE_SIZE - sz mod PAGE_SIZE) by (unfold blen; rewrite length_replicate; lia).
  destruct (page_write_ok fs o s _ f (sz mod PAGE_SIZE) (replicate (Z.to_nat (PAGE_SIZE - sz mod PAGE_SIZE)) 0) H Ho Hf) as (W1 & W2 & W3 & W4 & W5); [lia|lia|by apply Forall_replicate|].
  split_and!; try done; [by apply outside_apart|]. intros n g Hn Hg. rewrite (W5 n g) by done. cbv zeta. rewrite Hbl. rewrite Z2Nat.id by (by apply Z.div_pos; [lia|]).
  replace (sz / PAGE_SIZE * PAGE_SIZE + sz mod PAGE_SIZE) with sz by lia. rewrite andb_true_r.
  destruct (Z.leb_spec sz n) as [Hle|]; [|done]. cbn [andb]. pose proof (Z.mod_pos_bound n PAGE_SIZE ltac:(done)). pose proof (Z.div_mod n PAGE_SIZE ltac:(done)).
  destruct (Z.eqb_spec (n / PAGE_SIZE) (sz / PAGE_SIZE)) as [He|Hne].
  - rewrite (proj2 (Z.ltb_lt _ _)) by lia. unfold aget. rewrite lookup_replicate_2 by lia. done.
  - rewrite (proj2 (Z.ltb_ge _ _)); [done|]. assert (sz / PAGE_SIZE <= n / PAGE_SIZE) by (apply Z.div_le_mono; [done|lia]). unfold PAGE_SIZE in *. nia.
Qed.

(** ** Resizing *)

Record obj_kept (fs fs' : list (option Z)) (o o' : shmem_obj) s s' : Prop := {
  ok_held : held fs' s';
  ok_inv : obj_inv fs' o' s';
  ok_leaves : same_leaves R s s';
  ok_mem : same_memory s s';
  ok_apart : apart fs s s';
  ok_frames f : f ∈ obj_frames fs' -> f ∈ obj_frames fs \/ live s f <= 0;
  ok_meta : sh_refcnt o' = sh_refcnt o /\ sh_seals o' = sh_seals o;
}.

Lemma more_kept fs fs' o o' s s' : held fs' s' -> obj_inv fs' o' s' -> more fs fs' o o' s s' -> obj_kept fs fs' o o' s s'.
Proof.
  intros H Ho Hm. split; try done; [apply grows_leaves, Hm|apply Hm|by eapply more_apart| |apply Hm].
  intros f (i & Hi)%obj_frames_elem. destruct (mo_new _ _ _ _ _ _ Hm i f Hi) as [Hi'|[Hl _]]; [left; by eapply obj_frames_lookup|by right].
Qed.

Lemma obj_kept_refl fs o s : held fs s -> obj_inv fs o s -> obj_kept fs fs o o s s.
Proof. intros H Ho. apply more_kept; [done|done|apply more_refl]. Qed.

(** What a call that changes the size to [size], or fails, did to the file. *)
Definition resized (fs fs' : list (option Z)) (o o' : shmem_obj) s s' (rc size : Z) : Prop :=
  obj_kept fs fs' o o' s s' /\
  (rc = 0 /\ sh_size o' = size \/ rc < 0 /\ sh_size o' = sh_size o) /\
  (past_zero fs o s -> past_zero fs' o' s' /\ content o' s' = if rc <? 0 then content o s else file_resize (content o s) size).

Lemma more_failed fs fs' o o' s s' rc size :
  held fs s -> obj_inv fs o s -> held fs' s' -> obj_inv fs' o' s' -> more fs fs' o o' s s' -> rc < 0 -> resized fs fs' o o' s s' rc size.
Proof.
  intros H Ho H' Ho' Hm Hrc. split; [by apply more_kept|]. split; [right; split; [done|apply Hm]|]. intros Hp. split; [exact (more_past_zero fs fs' o o' s s' H Ho Ho' Hm Hp)|].
  rewrite (proj2 (Z.ltb_lt _ _) Hrc). exact (more_content fs fs' o o' s s' H Ho Ho' Hm).
Qed.

Lemma grow_zero fs fs' o o' s s' size :
  held fs s -> obj_inv fs o s -> held fs' s' -> obj_inv fs' o' s' -> more fs fs' o o' s s' -> sh_size o < size <= SHMEM_MAX_PAGES * PAGE_SIZE ->
  (forall i, 0 <= i < size -> exists f, fs' !! Z.to_nat (i / PAGE_SIZE) = Some (Some f)) ->
  exists s2, zero_tail o' s' = Some s2 /\ resized fs fs' o (set_size size o') s s2 0 size.
Proof.
  intros H Ho H' Ho' Hm Hsz Hfull. destruct (zero_tail_ok fs' o' s' H' Ho') as (s2 & -> & H2 & Ho2 & Hl2 & Hm2 & Ha2 & Hb2). exists s2. split; [done|].
  destruct (mo_meta _ _ _ _ _ _ Hm) as (Hs' & Hr' & Hse). rewrite Hs' in Hb2. pose proof (oi_size _ _ _ Ho) as H0.
  assert (Hinv : obj_inv fs' (set_size size o') s2) by (destruct Ho2 as [P1 P2 P3 P4 P5]; split; try done; cbn [set_size sh_size]; lia).
  assert (Hob : forall n, obyte (set_size size o') s2 n = obyte o' s2 n) by done.
  split; [|split; [by left|]].
  - split; try done; [eapply same_leaves_trans; [apply grows_leaves, Hm|done]|destruct (gr_mem _ _ _ _ (mo_grows _ _ _ _ _ _ Hm)), Hm2; split; congruence|by eapply apart_more|].
    apply (ok_frames _ _ _ _ _ _ (more_kept fs fs' o o' s s' H' Ho' Hm)).
  - intros Hp. pose proof (more_past_zero fs fs' o o' s s' H Ho Ho' Hm Hp) as Hp'.
    assert (Hz : forall n f, sh_size o <= n -> fs' !! Z.to_nat (n / PAGE_SIZE) = Some (Some f) -> obyte o' s2 n = 0).
    { intros n f Hn Hf. rewrite (Hb2 n f) by (lia || done). rewrite (proj2 (Z.leb_le _ _) Hn). cbn [andb]. destruct (_ && _) eqn:Hc; [done|]. apply (Hp' n f); [lia| |done]. rewrite Hs'.
      pose proof (Z.mod_pos_bound (sh_size o) PAGE_SIZE ltac:(done)). pose proof (Z.div_mod (sh_size o) PAGE_SIZE ltac:(done)).
      assert (sh_size o / PAGE_SIZE <= n / PAGE_SIZE) by (apply Z.div_le_mono; [done|lia]).
      apply andb_false_iff in Hc as [Hc%Z.eqb_neq|Hc%negb_false_iff%Z.eqb_eq]; unfold PAGE_SIZE in *; nia. }
    split.
    + intros n f Hn Hs Hf. rewrite Hob. apply (Hz n f); [|done]. cbn [set_size sh_size] in Hs. pose proof (Z.mod_pos_bound n PAGE_SIZE ltac:(done)). pose proof (Z.div_mod n PAGE_SIZE ltac:(done)). unfold PAGE_SIZE in *. lia.
    + cbn [Z.ltb Z.compare]. assert (Hbl : blen (content o s) = sh_size o) by (apply blen_content; lia). unfold file_resize. rewrite Hbl.
      rewrite firstn_all2 by (unfold blen in Hbl; lia). apply content_eq; cbn [set_size sh_size]; [lia|rewrite blen_app, Hbl; unfold blen; rewrite length_replicate; lia|].
      intros i Hi. rewrite Hob. destruct (Hfull i Hi) as [f Hf]. unfold blen in Hbl. destruct (Z.lt_ge_cases i (sh_size o)) as [Hlt|Hge].
      * rewrite lookup_app_l by lia. rewrite content_lookup by lia. f_equal. rewrite (Hb2 i f) by (lia || done). rewrite (proj2 (Z.leb_gt _ _) Hlt). cbn [andb].
        destruct (oi_full _ _ _ Ho i ltac:(lia)) as [g Hg]. symmetry. by apply (obyte_more fs fs' o o' s s' i g).
      * rewrite lookup_app_r by lia. rewrite lookup_replicate_2 by lia. f_equal. symmetry. by apply (Hz i f).
Qed.

Lemma page_below size i : 0 <= size -> 0 <= i -> i / PAGE_SIZE < (size + 4095) / 4096 <-> i / PAGE_SIZE * PAGE_SIZE < size.
Proof.
  unfold PAGE_SIZE. intros Hs Hi. set (q := i / 4096). split; intros H.
  - assert (4096 * ((size + 4095) / 4096) <= size + 4095) by (apply Z.mul_div_le; lia). lia.
  - assert (q + 1 <= (size + 4095) / 4096) by (apply Z.div_le_lower_bound; lia). lia.
Qed.

Lemma shrink_ok fs o s size :
  held fs s -> obj_inv fs o s -> 0 <= size < sh_size o ->
  let '(o', s') := drop_pages cpu (Z.to_nat (pages_for size)) o s in exists fs', resized fs fs' o (set_size size o') s s' 0 size.
Proof.
  intros H Ho Hsz. pose proof (oi_size _ _ _ Ho) as Hs0. unfold SHMEM_MAX_PAGES, PAGE_SIZE in Hs0. unfold drop_pages. rewrite pages_for_eq by lia. set (k := Z.to_nat ((size + 4095) / 4096)).
  set (fs' := take k fs ++ replicate (length fs - k) None). exists fs'. destruct Ho as [O1 O2 O3 O4 O5].
  assert (Hfr : obj_frames fs = obj_frames (take k fs) ++ obj_frames (drop k fs)) by (unfold obj_frames; by rewrite <-omap_app, take_drop).
  assert (Hfr' : obj_frames fs' = obj_frames (take k fs)) by apply obj_frames_none.
  assert (Hold : forall j f, fs' !! j = Some (Some f) -> (j < k)%nat /\ fs !! j = Some (Some f)).
  { intros j f Hj. apply lookup_app_Some in Hj as [Hj|[_ Hj]]; [|by apply lookup_replicate in Hj as [[=] _]]. apply lookup_take_Some in Hj as [Hj ?]. done. }
  assert (Hnew : forall j f, (j < k)%nat -> fs !! j = Some (Some f) -> fs' !! j = Some (Some f)).
  { intros j f Hjk Hj. apply lookup_app_l_Some. by rewrite lookup_take_lt. }
  assert (Hk : forall i, 0 <= i -> (Z.to_nat (i / PAGE_SIZE) < k)%nat <-> i / PAGE_SIZE * PAGE_SIZE < size).
  { intros i Hi. rewrite <-page_below by lia. unfold k. assert (0 <= i / PAGE_SIZE) by by apply Z.div_pos. assert (0 <= (size + 4095) / 4096) by (apply Z.div_pos; lia). lia. }
  assert (Hlow : forall i, 0 <= i < size -> (Z.to_nat (i / PAGE_SIZE) < k)%nat).
  { intros i Hi. apply Hk; [lia|]. pose proof (Z.mul_div_le i PAGE_SIZE ltac:(done)). lia. }
  rewrite O1, <-fmap_drop. destruct (free_pages_ok (drop k fs) (obj_frames (take k fs) ++ X) s) as (F1 & F2 & F3).
  { eapply mem_inv_spare_perm; [|exact H]. rewrite Hfr. rewrite <-app_assoc. rewrite (Permutation_app_comm (obj_frames (take k fs)) (obj_frames (drop k fs) ++ X)), <-app_assoc. by rewrite (Permutation_app_comm X). }
  set (s' := free_pages cpu (addr_of s <$> drop k fs) s) in *.
  assert (Hinv : obj_inv fs' (set_size size (set_pages (take k (addr_of s <$> fs) ++ replicate (length (addr_of s <$> fs) - k) 0) o)) s').
  { apply (obj_inv_same _ _ s s' F2). split; cbn [set_size set_pages sh_pages sh_size].
    - unfold fs'. by rewrite fmap_app, fmap_take, fmap_replicate, length_fmap.
    - rewrite Hfr'. rewrite Hfr in O2. by apply NoDup_app in O2 as [? _].
    - unfold SHMEM_MAX_PAGES, PAGE_SIZE. lia.
    - unfold fs'. rewrite length_app, length_take, length_replicate. lia.
    - intros i Hi. destruct (O5 i ltac:(lia)) as [f Hf]. exists f. by apply Hnew; [apply Hlow|]. }
  split; [|split; [by left|]].
  - split; try done; [by rewrite Hfr'|by apply mem_leaves|intros g a _ _ _ _; by rewrite F3|].
    intros f (i & Hi)%obj_frames_elem. left. apply Hold in Hi as [_ Hi]. by eapply obj_frames_lookup.
  - intros Hp. split.
    + intros n f Hn Hs Hf. exfalso. apply Hold in Hf as [Hj _]. apply Hk in Hj; [|done]. cbn [set_size sh_size] in Hs. lia.
    + cbn [Z.ltb Z.compare]. assert (Hbl : blen (content o s) = sh_size o) by (apply blen_content; lia). unfold file_resize.
      replace (Z.to_nat (size - blen (content o s))) with 0%nat by lia. cbn [replicate]. rewrite app_nil_r.
      apply content_eq; cbn [set_size sh_size]; [lia|unfold blen in *; rewrite length_take; lia|]. intros i Hi. rewrite lookup_take_lt by lia. rewrite content_lookup by lia. f_equal.
      destruct (O5 i ltac:(lia)) as [f Hf]. rewrite (obyte_frame fs o s i f) by done. rewrite (obyte_frame fs' _ s' i f) by (done || by apply Hnew; [apply Hlow|]).
      by rewrite F3, (same_page s s').
Qed.

(** Every call that is not refused because of the seals or the size. *)
Lemma resize_ok fs o s size :
  held fs s -> obj_inv fs o s -> 0 <= size <= 2 ^ 64 - 4096 ->
  exists rc o' s' fs', shmem_resize cpu kok o size s = Some (rc, o', s') /\ resized fs fs' o o' s s' rc size /\
    (sh_size o < size -> has (sh_seals o) F_SEAL_GROW = true -> rc = - EPERM) /\ (size < sh_size o -> has (sh_seals o) F_SEAL_SHRINK = true -> rc = - EPERM) /\
    (rc < 0 -> sh_size o < size \/ size < sh_size o /\ has (sh_seals o) F_SEAL_SHRINK = true).
Proof.
  intros H Ho Hsz. pose proof (oi_size _ _ _ Ho) as Hs0. unfold shmem_resize.
  assert (Hfail : forall rc, rc < 0 -> resized fs fs o o s s rc size) by (intros rc Hrc; apply more_failed; try done; apply more_refl).
  destruct (Z.eqb_spec size (sh_size o)) as [He|Hne].
  { exists 0, o, s, fs. split; [done|]. split; [|split_and!; lia]. split; [by apply obj_kept_refl|]. split; [by left|]. intros Hp. split; [done|]. cbn [Z.ltb Z.compare].
    assert (Hbl : blen (content o s) = size) by (rewrite He; apply blen_content; lia). unfold file_resize. rewrite Hbl, Z.sub_diag. cbn [Z.to_nat replicate]. rewrite app_nil_r, firstn_all2; [done|]. unfold blen in Hbl. lia. }
  destruct (Z.ltb_spec (sh_size o) size) as [Hg|Hg], (Z.ltb_spec size (sh_size o)) as [Hl|Hl]; try lia; cbn [andb].
  - destruct (has _ F_SEAL_GROW) eqn:Hseal; [exists (- EPERM), o, s, fs; split; [done|]; split; [by apply Hfail|split_and!; done || lia]|].
    destruct (Z.ltb_spec SHMEM_MAX_PAGES (pages_for size)) as [Hb|Hb]; [exists (- EFBIG), o, s, fs; split; [done|]; split; [by apply Hfail|split_and!; done || lia]|].
    assert (Hpf : pages_for size = (size + 4095) / 4096) by by apply pages_for_eq. assert (Hpf0 : 0 <= pages_for size) by (rewrite Hpf; apply Z.div_pos; lia).
    pose proof (grow_array_ok fs o s (pages_for size) Ho ltac:(lia)) as Hga. destruct (shmem_grow_array kok o (pages_for size)) as [rc o1].
    destruct Hga as (fs1 & Hfr & Ho1 & Hm1 & Hrc). assert (H1 : held fs1 s) by by rewrite Hfr.
    destruct Hrc as [->|[-> Hlen]]; [exists (- ENOMEM), o1, s, fs1; split; [done|]; split; [by apply more_failed|split_and!; done || lia]|]. cbn [Z.ltb Z.compare].
    destruct (fill_pages_ok (Z.to_nat (pages_for size)) 0 fs1 o1 s H1 Ho1 ltac:(lia)) as (ok & o2 & s2 & fs2 & -> & H2 & Ho2 & Hm2 & Hall). cbn [mbind option_bind].
    pose proof (more_trans _ _ _ _ _ _ _ _ _ H1 Hm1 Hm2) as Hm.
    destruct ok; cbn [negb]; [|exists (- ENOMEM), o2, s2, fs2; split; [done|]; split; [by apply more_failed|split_and!; done || lia]].
    destruct (grow_zero fs fs2 o o2 s s2 size H Ho H2 Ho2 Hm) as (s3 & -> & Hres).
    + split; [done|]. rewrite Hpf in Hb. unfold SHMEM_MAX_PAGES, PAGE_SIZE in *. pose proof (Z.div_mod (size + 4095) 4096 ltac:(lia)). pose proof (Z.mod_pos_bound (size + 4095) 4096 ltac:(lia)). lia.
    + intros i Hi. apply (Hall eq_refl). assert (0 <= i / PAGE_SIZE) by (apply Z.div_pos; [lia|done]). assert (i / PAGE_SIZE < pages_for size); [|lia]. rewrite Hpf. apply page_below; [lia|lia|].
      pose proof (Z.mul_div_le i PAGE_SIZE ltac:(done)). lia.
    + cbn [mbind option_bind]. eexists _, _, _, fs2. split; [done|]. split; [done|]. split_and!; done || lia.
  - destruct (has _ F_SEAL_SHRINK) eqn:Hseal; [exists (- EPERM), o, s, fs; split; [done|]; split; [by apply Hfail|split_and!; [lia|done|by right]]|].
    destruct (Z.ltb_spec SHMEM_MAX_PAGES (pages_for size)) as [Hb|Hb]; [exfalso|].
    { rewrite pages_for_eq in Hb by lia. unfold SHMEM_MAX_PAGES, PAGE_SIZE in *. assert ((size + 4095) / 4096 < 256 * 1024 + 1) by (apply Z.div_lt_upper_bound; lia). lia. }
    pose proof (shrink_ok fs o s size H Ho ltac:(lia)) as Hsh. destruct (drop_pages cpu _ o s) as [o' s']. destruct Hsh as [fs' Hres].
    eexists _, _, _, fs'. split; [done|]. split; [done|]. split_and!; done || lia.
Qed.

(** ** Copying *)

(** A page below the size is there. *)
Lemma page_phys_present fs o s i :
  held fs s -> obj_inv fs o s -> 0 <= i < sh_size o ->
  exists f, fs !! Z.to_nat (i / PAGE_SIZE) = Some (Some f) /\ page s f <> 0 /\ shmem_page_phys cpu kok o i s = Some (page s f, o, s).
Proof.
  intros H Ho Hi. destruct (oi_full _ _ _ Ho i Hi) as [f Hf]. exists f. split; [done|]. destruct (page_aligned _ _ _ _ H Hf) as [_ Hz]. split; [done|].
  unfold shmem_page_phys. pose proof (oi_len _ _ _ Ho) as Hlen. pose proof (lookup_lt_Some _ _ _ Hf) as Hlt. assert (0 <= i / PAGE_SIZE) by (apply Z.div_pos; [lia|done]).
  rewrite (proj2 (Z.leb_gt SHMEM_MAX_PAGES (i / PAGE_SIZE))) by lia. unfold shmem_grow_array, npages. rewrite (oi_pages _ _ _ Ho), length_fmap.
  rewrite (proj2 (Z.leb_le (i / PAGE_SIZE + 1) _)) by lia. cbn [Z.ltb Z.compare]. rewrite (oi_pages _ _ _ Ho), list_lookup_fmap, Hf. cbn [fmap option_fmap option_map addr_of mbind option_bind].
  by rewrite (proj2 (Z.eqb_neq _ _) Hz).
Qed.

(** The chunk that starts at [i]: up to the end of its page, and of the [n] bytes left. *)
Lemma chunk_bounds i n (chunk := if n <? PAGE_SIZE - Z.land i (PAGE_SIZE - 1) then n else PAGE_SIZE - Z.land i (PAGE_SIZE - 1)) :
  0 <= i -> 0 < n -> Z.land i (PAGE_SIZE - 1) = i mod PAGE_SIZE /\ 0 < chunk <= n /\ i mod PAGE_SIZE + chunk <= PAGE_SIZE /\
    (chunk < n -> (i + chunk) / PAGE_SIZE = i / PAGE_SIZE + 1).
Proof.
  intros Hi Hn. assert (Hl : Z.land i (PAGE_SIZE - 1) = i mod PAGE_SIZE) by (apply (Z.land_ones i 12); lia). split; [done|]. unfold chunk. rewrite Hl.
  pose proof (Z.mod_pos_bound i PAGE_SIZE ltac:(done)). pose proof (Z.div_mod i PAGE_SIZE ltac:(done)). destruct (Z.ltb_spec n (PAGE_SIZE - i mod PAGE_SIZE)); (split; [lia|]); (split; [lia|]); intros Hlt; [lia|].
  symmetry. apply Z.div_unique with 0; unfold PAGE_SIZE in *; lia.
Qed.

Lemma obyte_run fs o s i f n :
  obj_inv fs o s -> 0 <= i -> fs !! Z.to_nat (i / PAGE_SIZE) = Some (Some f) -> i mod PAGE_SIZE + n <= PAGE_SIZE ->
  mem_bytes (mem s) (page s f + i mod PAGE_SIZE) n = obyte o s <$> seqZ i n.
Proof.
  intros Ho Hi Hf Hn. unfold mem_bytes. apply list_eq_same_length with (Z.to_nat n); rewrite ?length_fmap, ?length_seqZ; try done.
  intros k x y Hk. rewrite !list_lookup_fmap, !lookup_seqZ_lt by lia. cbn. intros [= <-] [= <-]. pose proof (Z.mod_pos_bound i PAGE_SIZE ltac:(done)). pose proof (Z.div_mod i PAGE_SIZE ltac:(done)).
  assert (Hd : (i + Z.of_nat k) / PAGE_SIZE = i / PAGE_SIZE) by (symmetry; apply Z.div_unique with (i mod PAGE_SIZE + Z.of_nat k); lia).
  assert (Hm : (i + Z.of_nat k) mod PAGE_SIZE = i mod PAGE_SIZE + Z.of_nat k) by (symmetry; apply Z.mod_unique with (i / PAGE_SIZE); lia).
  rewrite (obyte_frame fs o s (i + Z.of_nat k) f) by (done || by rewrite Hd). rewrite Hm. f_equal. lia.
Qed.

Lemma read_loop_ok fs o s off len : held fs s -> obj_inv fs o s -> 0 <= off -> off + len <= sh_size o -> forall chunks done,
  0 <= done <= len -> (1 <= chunks)%nat -> (done < len -> (off + len - 1) / PAGE_SIZE - (off + done) / PAGE_SIZE + 2 <= Z.of_nat chunks) ->
  shmem_read_loop cpu kok chunks o off len done s = Some (len, obyte o s <$> seqZ (off + done) (len - done), o, s).
Proof.
  intros H Ho Hoff Hlen. pose proof (oi_size _ _ _ Ho) as Hs0. unfold SHMEM_MAX_PAGES, PAGE_SIZE in Hs0. induction chunks as [|chunks IH]; intros dn Hd H1 Hc; [lia|]. cbn [shmem_read_loop].
  destruct (Z.ltb_spec dn len) as [Hlt|Hge]; cbn [negb]; [|replace (len - dn) with 0 by lia; replace dn with len by lia; done].
  rewrite (u64_small (off + dn)) by (unfold is_u64; lia). destruct (page_phys_present fs o s (off + dn) H Ho ltac:(lia)) as (f & Hf & Hz & ->). cbn [mbind option_bind].
  rewrite (proj2 (Z.eqb_neq _ _) Hz). destruct (chunk_bounds (off + dn) (len - dn) ltac:(lia) ltac:(lia)) as (Hla & Hch & Hin & Hnext). set (chunk := if _ <? _ then _ else _) in *. rewrite Hla.
  rewrite (obyte_run fs o s (off + dn) f chunk) by (done || lia). rewrite (IH (dn + chunk)); [|lia|specialize (Hc Hlt)|].
  - cbn [mbind option_bind]. rewrite <-fmap_app, Z.add_assoc, <-seqZ_app by lia. by replace (chunk + (len - (dn + chunk))) with (len - dn) by lia.
  - assert ((off + dn) / PAGE_SIZE <= (off + len - 1) / PAGE_SIZE) by (apply Z.div_le_mono; [done|lia]). lia.
  - intros Hlt2. specialize (Hc Hlt). rewrite Z.add_assoc, Hnext by lia. lia.
Qed.

Lemma chunks_enough off len : 0 <= off -> 0 < len -> (off + len - 1) / PAGE_SIZE - (off + 0) / PAGE_SIZE + 2 <= Z.of_nat (chunks_of len).
Proof.
  intros Ho Hl. unfold chunks_of, PAGE_SIZE. rewrite Z.add_0_r. pose proof (Z.div_mod off 4096 ltac:(lia)). pose proof (Z.mod_pos_bound off 4096 ltac:(lia)).
  pose proof (Z.div_mod len 4096 ltac:(lia)). pose proof (Z.mod_pos_bound len 4096 ltac:(lia)). assert (0 <= len / 4096) by (apply Z.div_pos; lia).
  assert ((off + len - 1) / 4096 < off / 4096 + len / 4096 + 2) by (apply Z.div_lt_upper_bound; lia). lia.
Qed.

Lemma chunks_pos len : 0 <= len -> (1 <= chunks_of len)%nat.
Proof. intros H. unfold chunks_of. assert (0 <= len / PAGE_SIZE) by by apply Z.div_pos. lia. Qed.

Lemma read_ok fs o s off len :
  held fs s -> obj_inv fs o s -> 0 <= off -> 0 <= len ->
  let out := take (Z.to_nat len) (drop (Z.to_nat off) (content o s)) in shmem_read cpu kok o off len s = Some (blen out, out, o, s).
Proof.
  intros H Ho Hoff Hlen. cbv zeta. pose proof (oi_size _ _ _ Ho) as Hs0. assert (Hbl : blen (content o s) = sh_size o) by (apply blen_content; lia). unfold shmem_read.
  destruct (Z.leb_spec (sh_size o) off) as [Hle|Hgt]; [rewrite drop_ge by (unfold blen in Hbl; lia); by rewrite take_nil|].
  set (n := if _ <? len then _ else len). assert (Hn : 0 <= n /\ off + n <= sh_size o /\ n = Z.min len (sh_size o - off)) by (unfold n; destruct (Z.ltb_spec (sh_size o - off) len); lia).
  assert (Hout : obyte o s <$> seqZ (off + 0) (n - 0) = take (Z.to_nat len) (drop (Z.to_nat off) (content o s))).
  { rewrite Z.add_0_r, Z.sub_0_r. apply list_eq_same_length with (Z.to_nat n); rewrite ?length_fmap, ?length_seqZ, ?length_take, ?length_drop; try (unfold blen in Hbl; lia).
    intros k x y Hk. rewrite list_lookup_fmap, lookup_seqZ_lt, lookup_take_lt, lookup_drop by lia. replace (Z.to_nat off + k)%nat with (Z.to_nat (off + Z.of_nat k)) by lia.
    rewrite content_lookup by lia. cbn. congruence. }
  rewrite (read_loop_ok fs o s off n H Ho Hoff ltac:(lia) _ 0 ltac:(lia) (chunks_pos n ltac:(lia)) (chunks_enough off n Hoff)). rewrite Hout. do 4 f_equal. rewrite <-Hout. unfold blen. rewrite length_fmap, length_seqZ. lia.
Qed.

Lemma write_loop_ok fs o off src : Forall is_u8 src -> 0 <= off -> off + blen src <= sh_size o -> forall chunks dn s,
  held fs s -> obj_inv fs o s -> 0 <= dn <= blen src -> (1 <= chunks)%nat ->
  (dn < blen src -> (off + blen src - 1) / PAGE_SIZE - (off + dn) / PAGE_SIZE + 2 <= Z.of_nat chunks) ->
  exists s', shmem_write_loop cpu kok chunks o src off dn s = Some (blen src, o, s') /\ held fs s' /\ obj_inv fs o s' /\ same_leaves R s s' /\ same_memory s s' /\ outside fs s s' /\
    forall n f, 0 <= n -> fs !! Z.to_nat (n / PAGE_SIZE) = Some (Some f) ->
      obyte o s' n = if (off + dn <=? n) && (n <? off + blen src) then aget 0 src (Z.to_nat (n - off)) else obyte o s n.
Proof.
  intros Hu Hoff Hlen. induction chunks as [|chunks IH]; intros dn s H Ho Hd H1 Hc; [lia|]. pose proof (oi_size _ _ _ Ho) as Hs0. unfold SHMEM_MAX_PAGES, PAGE_SIZE in Hs0. cbn [shmem_write_loop].
  destruct (Z.ltb_spec dn (blen src)) as [Hlt|Hge]; cbn [negb].
  2:{ exists s. replace dn with (blen src) by lia. split_and!; try done. intros n f Hn Hf. destruct (_ && _) eqn:E; [|done]. apply andb_true_iff in E as [?%Z.leb_le ?%Z.ltb_lt]. lia. }
  rewrite (u64_small (off + dn)) by (unfold is_u64; lia). destruct (page_phys_present fs o s (off + dn) H Ho ltac:(lia)) as (f & Hf & Hz & ->). cbn [mbind option_bind].
  rewrite (proj2 (Z.eqb_neq _ _) Hz). destruct (chunk_bounds (off + dn) (blen src - dn) ltac:(lia) ltac:(lia)) as (Hla & Hch & Hin & Hnext). set (chunk := if _ <? _ then _ else _) in *. rewrite Hla.
  assert (Hbl : blen (slice src dn chunk) = chunk) by (apply blen_slice; lia).
  destruct (page_write_ok fs o s _ f ((off + dn) mod PAGE_SIZE) (slice src dn chunk) H Ho Hf) as (W1 & W2 & W3 & W4 & W5); [apply Z.mod_pos_bound; done|lia|by apply Forall_take, Forall_drop|].
  set (s1 := set_mem _ s) in *. rewrite Hbl in W5. assert (Hst : Z.of_nat (Z.to_nat ((off + dn) / PAGE_SIZE)) * PAGE_SIZE + (off + dn) mod PAGE_SIZE = off + dn).
  { rewrite Z2Nat.id by (apply Z.div_pos; [lia|done]). pose proof (Z.div_mod (off + dn) PAGE_SIZE ltac:(done)). lia. } rewrite Hst in W5.
  destruct (IH (dn + chunk) s1 W1 W2) as (s' & -> & I1 & I2 & I3 & I4 & I5 & I6); [lia| | |].
  { specialize (Hc Hlt). assert ((off + dn) / PAGE_SIZE <= (off + blen src - 1) / PAGE_SIZE) by (apply Z.div_le_mono; [done|lia]). lia. }
  { intros Hlt2. specialize (Hc Hlt). rewrite Z.add_assoc, Hnext by lia. lia. }
  exists s'. split; [done|]. split_and!; try done; [by eapply same_leaves_trans|intros a Ha; by rewrite I5, W4|]. intros n g Hn Hg. rewrite (I6 n g), (W5 n g) by done. cbv zeta.
  destruct (Z.leb_spec (off + dn) n), (Z.leb_spec (off + (dn + chunk)) n), (Z.ltb_spec n (off + blen src)), (Z.ltb_spec n (off + dn + chunk)); try lia; cbn [andb]; try done.
  unfold aget. rewrite slice_lookup by lia. do 2 f_equal. lia.
Qed.

Lemma outside_kept fs fs' o o' s s1 s2 :
  obj_kept fs fs' o o' s s1 -> held fs' s2 -> obj_inv fs' o' s2 -> same_leaves R s1 s2 -> same_memory s1 s2 -> outside fs' s1 s2 -> obj_kept fs fs' o o' s s2.
Proof.
  intros [K1 K2 K3 K4 K5 K6 K7] H2 Ho2 Hl Hm Hout. split; try done; [by eapply same_leaves_trans|destruct K4, Hm; split; congruence|].
  intros g a Hlg Hnt Hg Ha. rewrite <-(K5 g a) by done. apply Hout. intros f Hf Ha'. rewrite (same_page s s1) in Ha' by done.
  assert (f = g) as -> by (unfold page, PAGE_SIZE in *; nia). destruct (K6 g Hf); [done|lia].
Qed.

Lemma write_content fs o s s' src off :
  obj_inv fs o s -> 0 <= off -> off + blen src <= sh_size o ->
  (forall n f, 0 <= n -> fs !! Z.to_nat (n / PAGE_SIZE) = Some (Some f) ->
    obyte o s' n = if (off + 0 <=? n) && (n <? off + blen src) then aget 0 src (Z.to_nat (n - off)) else obyte o s n) ->
  content o s' = blit (content o s) off src /\ (past_zero fs o s -> past_zero fs o s').
Proof.
  intros Ho Hoff Hlen Hb. pose proof (oi_size _ _ _ Ho) as Hs0. assert (Hbl : blen (content o s) = sh_size o) by (apply blen_content; lia). split.
  - apply content_eq; [lia|unfold blen; rewrite blit_length by lia; done|]. intros i Hi. destruct (oi_full _ _ _ Ho i Hi) as [f Hf]. rewrite blit_lookup, Z2Nat.id by lia.
    rewrite (Hb i f), Z.add_0_r by (lia || done). destruct (_ && _) eqn:E; [|by apply content_lookup]. apply andb_true_iff in E as [E1%Z.leb_le E2%Z.ltb_lt].
    unfold aget. replace (Z.to_nat i - Z.to_nat off)%nat with (Z.to_nat (i - off)) by lia. destruct (src !! _) as [b|] eqn:Hs; [done|]. apply lookup_ge_None in Hs. unfold blen in *. lia.
  - intros Hp n f Hn Hs Hf. rewrite (Hb n f) by done. rewrite (proj2 (Z.ltb_ge n (off + blen src))), andb_false_r; [by apply (Hp n f)|].
    pose proof (Z.mul_div_le n PAGE_SIZE ltac:(done)). lia.
Qed.

(** What [shmem_write] did: the bytes are in the file, or it failed. *)
Definition written (fs fs' : list (option Z)) (o o' : shmem_obj) s s' (rc : Z) (src : list Z) (off : Z) : Prop :=
  obj_kept fs fs' o o' s s' /\ (rc = blen src \/ rc < 0) /\
  (past_zero fs o s -> past_zero fs' o' s' /\ content o' s' = if rc <=? 0 then content o s else file_write (content o s) src off).

Lemma write_at_ok fs o s off src :
  held fs s -> obj_inv fs o s -> Forall is_u8 src -> 0 <= off -> 0 < blen src -> off + blen src <= sh_size o ->
  exists s', shmem_write_loop cpu kok (chunks_of (blen src)) o src off 0 s = Some (blen src, o, s') /\
    held fs s' /\ obj_inv fs o s' /\ same_leaves R s s' /\ same_memory s s' /\ outside fs s s' /\
    content o s' = blit (content o s) off src /\ (past_zero fs o s -> past_zero fs o s').
Proof.
  intros H Ho Hu Hoff Hpos Hlen.
  destruct (write_loop_ok fs o off src Hu Hoff Hlen _ 0 s H Ho ltac:(lia) (chunks_pos _ (blen_nonneg src)) (chunks_enough off (blen src) Hoff)) as (s' & E & H1 & H2 & H3 & H4 & H5 & H6).
  exists s'. split; [done|]. destruct (write_content fs o s s' src off Ho Hoff Hlen H6). by split_and!.
Qed.

Lemma shmem_write_ok fs o s off src :
  held fs s -> obj_inv fs o s -> Forall is_u8 src -> 0 <= off -> off + blen src < 2 ^ 63 ->
  exists rc o' s' fs', shmem_write cpu kok o src off s = Some (rc, o', s') /\ written fs fs' o o' s s' rc src off /\
    (has (sh_seals o) (Z.lor F_SEAL_WRITE F_SEAL_FUTURE_WRITE) = true -> rc = - EPERM) /\
    (sh_size o < off + blen src -> 0 < rc -> has (sh_seals o) F_SEAL_GROW = false) /\
    (rc < 0 -> has (sh_seals o) (Z.lor F_SEAL_WRITE F_SEAL_FUTURE_WRITE) = true \/ sh_size o < off + blen src).
Proof.
  intros H Ho Hu Hoff Hlen. pose proof (oi_size _ _ _ Ho) as Hs0. pose proof (blen_nonneg src) as Hb0. unfold shmem_write.
  assert (Hfail : forall rc, rc <= 0 -> rc = blen src \/ rc < 0 -> written fs fs o o s s rc src off).
  { intros rc Hrc Hor. split; [by apply obj_kept_refl|]. split; [done|]. intros Hp. split; [done|]. by rewrite (proj2 (Z.leb_le _ _) Hrc). }
  destruct (has _ _) eqn:Hseal; [exists (- EPERM), o, s, fs; split; [done|]; split; [apply Hfail; [done|by right]|split_and!; [done|done|by left]]|].
  destruct (Z.eqb_spec (blen src) 0) as [Hz|Hnz]; [exists 0, o, s, fs; split; [done|]; split; [apply Hfail; [done|by left]|split_and!; done || lia]|].
  destruct (Z.ltb_spec (U64_MAX - blen src) off) as [Hbig|_]; [unfold U64_MAX in Hbig; lia|].
  destruct (Z.ltb_spec (sh_size o) (off + blen src)) as [Hg|Hg].
  - destruct (resize_ok fs o s (off + blen src) H Ho ltac:(lia)) as (rc & o1 & s1 & fs1 & -> & (Hk & Hrc & Hc) & Hsg & _ & _). cbn [mbind option_bind].
    destruct (Z.ltb_spec rc 0) as [Hneg|Hpos].
    + exists rc, o1, s1, fs1. split; [done|]. split; [|split_and!; [done|lia|by right]]. split; [done|]. split; [by right|]. intros Hp. rewrite (proj2 (Z.leb_le rc 0)) by lia. by apply Hc.
    + destruct Hrc as [[-> Hsz]|[? _]]; [|lia]. destruct (write_at_ok fs1 o1 s1 off src) as (s2 & -> & W1 & W2 & W3 & W4 & W5 & W6 & W7); [apply Hk|apply Hk|done|done|lia|lia|].
      exists (blen src), o1, s2, fs1. split; [done|]. split; [|split_and!; [done|intros _ _; destruct (has (sh_seals o) F_SEAL_GROW); [|done]; specialize (Hsg Hg eq_refl); done|lia]]. split; [by eapply outside_kept|]. split; [by left|]. intros Hp. destruct (Hc Hp) as [Hp1 Hc1].
      split; [by apply W7|]. rewrite (proj2 (Z.leb_gt _ _)) by lia. rewrite W6, Hc1. unfold file_write, file_resize. cbn [Z.ltb Z.compare].
      rewrite firstn_all2; [done|]. assert (Hbl : blen (content o s) = sh_size o) by (apply blen_content; lia). unfold blen in *. lia.
  - destruct (write_at_ok fs o s off src H Ho Hu Hoff ltac:(lia) Hg) as (s2 & -> & W1 & W2 & W3 & W4 & W5 & W6 & W7).
    exists (blen src), o, s2, fs. split; [done|]. split; [|split_and!; done || lia]. split; [eapply outside_kept; try done; by apply obj_kept_refl|]. split; [by left|]. intros Hp. split; [by apply W7|].
    rewrite (proj2 (Z.leb_gt _ _)) by lia. rewrite W6. unfold file_write. assert (Hbl : blen (content o s) = sh_size o) by (apply blen_content; lia).
    replace (Z.to_nat (off + blen src - blen (content o s))) with 0%nat by lia. cbn [replicate]. by rewrite app_nil_r.
Qed.

(** ** Pages for mappings, and the end of an object *)

Lemma page_phys_ok fs o s off :
  held fs s -> obj_inv fs o s -> 0 <= off ->
  exists ph o' s' fs', shmem_page_phys cpu kok o off s = Some (ph, o', s') /\ held fs' s' /\ obj_inv fs' o' s' /\ more fs fs' o o' s s' /\
    (ph = 0 \/ ph <> 0 /\ exists i f, fs' !! i = Some (Some f) /\ ph = page s' f).
Proof.
  intros H Ho Hoff. unfold shmem_page_phys. assert (Hidx : 0 <= off / PAGE_SIZE) by by apply Z.div_pos. set (idx := off / PAGE_SIZE) in *.
  destruct (Z.leb_spec SHMEM_MAX_PAGES idx) as [Hb|Hb]; [exists 0, o, s, fs; split_and!; [done|done|done|apply more_refl|by left]|].
  pose proof (grow_array_ok fs o s (idx + 1) Ho ltac:(lia)) as Hga. destruct (shmem_grow_array kok o (idx + 1)) as [rc o1]. destruct Hga as (fs1 & Hfr & Ho1 & Hm1 & Hrc).
  assert (H1 : held fs1 s) by by rewrite Hfr. destruct Hrc as [->|[-> Hlen]]; [exists 0, o1, s, fs1; split_and!; try done; by left|]. cbn [Z.ltb Z.compare].
  destruct (fs1 !! Z.to_nat idx) as [fo|] eqn:Hi; [|apply lookup_ge_None in Hi; lia]. rewrite (oi_pages _ _ _ Ho1), list_lookup_fmap, Hi. cbn [fmap option_fmap option_map mbind option_bind].
  destruct fo as [f|]; cbn [addr_of].
  - destruct (page_aligned _ _ _ _ H1 Hi) as [_ Hz]. rewrite (proj2 (Z.eqb_neq _ _) Hz). cbn [negb]. exists (page s f), o1, s, fs1. split_and!; try done. right. split; [done|]. by exists (Z.to_nat idx), f.
  - cbn [Z.eqb negb]. pose proof (page_new fs1 o1 s _ H1 Ho1 Hi) as Hn. rewrite <-(oi_pages _ _ _ Ho1). destruct (pmm_alloc_zeroed cpu s) as [[p|] s2].
    + destruct Hn as (f & Hp & Hz & H2 & Ho2 & Hm2). cbv zeta in *. eexists p, _, s2, _. split; [done|]. split; [exact H2|]. split; [exact Ho2|]. split; [exact (more_trans _ _ _ _ _ _ _ _ _ H1 Hm1 Hm2)|].
      right. split; [done|]. exists (Z.to_nat idx), f. split; [|done]. apply list_lookup_insert_eq. by eapply lookup_lt_Some.
    + destruct Hn as (H2 & Ho2 & Hm2). exists 0, o1, s2, fs1. split_and!; try done; [exact (more_trans _ _ _ _ _ _ _ _ _ H1 Hm1 Hm2)|by left].
Qed.

Lemma unref_ok fs o s :
  held fs s -> obj_inv fs o s ->
  let '(r, s') := shmem_unref cpu o s in
  same_memory s s' /\ mem s' = mem s /\ match r with Some o' => s' = s /\ obj_inv fs o' s | None => mem_inv R X s' end.
Proof.
  intros H Ho. unfold shmem_unref. destruct (_ && _); [split_and!; try done; by destruct Ho|]. rewrite (oi_pages _ _ _ Ho). by destruct (free_pages_ok fs X s H) as (H1 & H2 & H3).
Qed.

(** Each operation returns, whatever the bytes past the end of the file are. *)
Lemma run_op_kept fs o s op :
  held fs s -> obj_inv fs o s -> op_ok op ->
  exists rc out o' s' fs', run_op cpu kok o op s = Some (rc, out, o', s') /\ held fs' s' /\ obj_inv fs' o' s' /\ same_leaves R s s' /\ same_memory s s'.
Proof.
  intros H Ho Hop. destruct op as [off len|src off|size|seals]; cbn [run_op op_ok] in *.
  - destruct Hop as [Hoff Hlen]. rewrite (read_ok fs o s off len H Ho Hoff Hlen). by eexists _, _, _, _, fs.
  - destruct Hop as (Hu & Hoff & Hlen). destruct (shmem_write_ok fs o s off src H Ho Hu Hoff Hlen) as (rc & o' & s' & fs' & -> & (Hk & _ & _) & _). cbn [mbind option_bind].
    eexists _, _, _, _, fs'. split; [done|]. split_and!; apply Hk.
  - destruct (resize_ok fs o s size H Ho Hop) as (rc & o' & s' & fs' & -> & (Hk & _ & _) & _). cbn [mbind option_bind]. eexists _, _, _, _, fs'. split; [done|]. split_and!; apply Hk.
  - unfold shmem_add_seals. destruct (has _ _); [by eexists _, _, _, _, fs|]. destruct (has _ _); [by eexists _, _, _, _, fs|].
    eexists _, _, _, _, fs. split; [done|]. split; [done|]. split; [|done]. by destruct Ho.
Qed.

(** ** Sequences of operations *)

Record obj_ok (fs : list (option Z)) (o : shmem_obj) s : Prop := {
  oo_held : held fs s;
  oo_inv : obj_inv fs o s;
  oo_past : past_zero fs o s;
}.

Definition file_of (o : shmem_obj) s : file := (content o s, sh_seals o).

Lemma seals_small seals : is_u32 seals -> has seals (u32 (Z.lnot 31)) = true -> 32 <= seals.
Proof.
  intros Hs Hh. destruct (Z.lt_ge_cases seals 32) as [Hlt|]; [|done]. exfalso. unfold has in Hh. apply negb_true_iff, Z.eqb_neq in Hh. apply Hh. clear Hh.
  unfold is_u32 in Hs. rewrite <-(Z.mod_small seals (2 ^ 5)) by lia. rewrite <-Z.land_ones, <-Z.land_assoc by lia. by rewrite Z.land_0_r.
Qed.

Lemma run_op_ok fs o s op :
  obj_ok fs o s -> op_ok op ->
  exists rc out o' s' fs', run_op cpu kok o op s = Some (rc, out, o', s') /\ obj_ok fs' o' s' /\ file_step (file_of o s) op (rc, out) (file_of o' s').
Proof.
  intros [H Ho Hp] Hop. pose proof (oi_size _ _ _ Ho) as Hs0. assert (Hbl : blen (content o s) = sh_size o) by (apply blen_content; lia). destruct op as [off len|src off|size|seals]; cbn [run_op op_ok] in *.
  - destruct Hop as [Hoff Hlen]. rewrite (read_ok fs o s off len H Ho Hoff Hlen). eexists _, _, _, _, fs. split; [done|]. split; [done|]. exact (file_reads (file_of o s) off len).
  - destruct Hop as (Hu & Hoff & Hlen). destruct (shmem_write_ok fs o s off src H Ho Hu Hoff Hlen) as (rc & o' & s' & fs' & -> & (Hk & Hrc & Hc) & Hws & Hgs & Hf). cbn [mbind option_bind].
    destruct (Hc Hp) as [Hp' Hc']. eexists _, _, _, _, fs'. split; [done|]. split; [split; [apply Hk|apply Hk|done]|]. unfold file_of. rewrite (proj2 (ok_meta _ _ _ _ _ _ Hk)), Hc'.
    destruct Hrc as [->|Hneg].
    + assert (Hs : write_sealed (sh_seals o) = false). { unfold write_sealed. destruct (has _ _); [|done]. specialize (Hws eq_refl). pose proof (blen_nonneg src). unfold EPERM in Hws. lia. }
      replace (if blen src <=? 0 then content o s else file_write (content o s) src off) with (if bool_decide (src = []) then content o s else file_write (content o s) src off); [|by destruct src].
      apply (file_writes (content o s, sh_seals o)); [done|]. cbn [fst snd]. intros Hne Hg. apply Hgs; [lia|]. destruct src; [done|]. unfold blen. cbn [length]. lia.
    + rewrite (proj2 (Z.leb_le rc 0)) by lia. apply file_fails; [|done]. cbn [may_fail fst snd]. destruct (Hf Hneg); [by left|right; lia].
  - destruct (resize_ok fs o s size H Ho Hop) as (rc & o' & s' & fs' & -> & (Hk & Hrc & Hc) & Hg & Hsh & Hf). cbn [mbind option_bind].
    destruct (Hc Hp) as [Hp' Hc']. eexists _, _, _, _, fs'. split; [done|]. split; [split; [apply Hk|apply Hk|done]|]. unfold file_of. rewrite (proj2 (ok_meta _ _ _ _ _ _ Hk)), Hc'.
    destruct Hrc as [[-> _]|[Hneg _]].
    + apply (file_resizes (content o s, sh_seals o)); cbn [fst snd]; rewrite Hbl; intros Hlt; apply not_true_is_false; intros Hx; [by specialize (Hg Hlt Hx)|by specialize (Hsh Hlt Hx)].
    + rewrite (proj2 (Z.ltb_lt rc 0)) by done. apply file_fails; [|done]. cbn [may_fail fst snd]. rewrite Hbl. by apply Hf.
  - unfold shmem_add_seals. change (Z.lor (Z.lor (Z.lor (Z.lor F_SEAL_SEAL F_SEAL_SHRINK) F_SEAL_GROW) F_SEAL_WRITE) F_SEAL_FUTURE_WRITE) with 31.
    destruct (has seals _) eqn:Hbad; [eexists _, _, _, _, fs; split; [done|]; split; [done|]; apply file_fails; [right; by apply seals_small|done]|].
    destruct (has (sh_seals o) F_SEAL_SEAL) eqn:Hss; [eexists _, _, _, _, fs; split; [done|]; split; [done|]; apply file_fails; [by left|done]|].
    eexists _, _, _, _, fs. split; [done|]. split; [split; [done|by destruct Ho|done]|]. by apply (file_seals (content o s, sh_seals o)).
Qed.

Lemma run_ops_ok ops : forall fs o s, obj_ok fs o s -> Forall op_ok ops ->
  exists res o' s' fs', run_ops cpu kok o ops s = Some (res, o', s') /\ obj_ok fs' o' s' /\ file_run (file_of o s) ops res (file_of o' s').
Proof.
  induction ops as [|op ops IH]; intros fs o s H Hops; cbn [run_ops]; [exists [], o, s, fs; split_and!; [done|done|constructor]|].
  apply Forall_cons in Hops as [Hop Hops]. destruct (run_op_ok fs o s op H Hop) as (rc & out & o1 & s1 & fs1 & -> & H1 & Hst). cbn [mbind option_bind].
  destruct (IH fs1 o1 s1 H1 Hops) as (res & o2 & s2 & fs2 & -> & H2 & Hrun). eexists _, _, _, fs2. split; [done|]. split; [done|]. by econstructor.
Qed.
End correct.


(** A size within 4095 bytes of 2^64 makes [pages_for] wrap around to 0:
    [ftruncate] accepts it, and the next one that grows the file accesses the
    array of pages, which has no element, at index 2^52 - 1. *)
Theorem shmem_resize_out_of_bounds `{FA : FrameAllocator A} cpu kok (s : pmm_t A) :
  run_ops cpu kok (mkShmem [] 0 1 0) [OResize (2 ^ 64 - 4095)] s = Some ([(0, [])], mkShmem [] (2 ^ 64 - 4095) 1 0, s) /\
  run_ops cpu kok (mkShmem [] 0 1 0) [OResize (2 ^ 64 - 4095); OResize (2 ^ 64 - 1)] s = None.
Proof. split; reflexivity. Qed.

(** ** Witness *)

Definition demo_ops : list shmem_op := [OResize 5000; OWrite [1; 2; 3] 4095; ORead 4094 5; OSeal F_SEAL_WRITE; OWrite [9] 0; OResize 4096; ORead 4090 10].

Lemma demo_ops_ok : Forall op_ok demo_ops.
Proof. repeat constructor; done. Qed.

Lemma shmem_demo_results :
  fst <$> (fst <$> run_ops 0 (fun _ => true) (mkShmem [] 0 1 0) demo_ops demo_pmm) =
    Some [(0, []); (3, []); (5, [0; 1; 2; 3; 0]); (0, []); (- EPERM, []); (0, []); (6, [0; 0; 0; 0; 0; 1])].
Proof. vm_compute. reflexivity. Qed.

Lemma cpu0 : (0 < MAX_CPUS)%nat.
Proof. apply Nat.ltb_lt. reflexivity. Qed.

