(* ===== verification/VmmFork.v ===== *)
(** * Copy-on-write fork.

    Proves that [vmm_fork_user_cow] gives the child the contents of the parent's
    pages at the same addresses without leaving a private page writable in both,
    and changes no other address space. *)

From S2P Require Import Prelude Bits Bitfield Vma Lower LLFree Pmm Vmm VmmPte VmmTables MemInv.

(** ** Loops *)

Lemma for_idx_inv {T : Type} (P : Z -> T -> Prop) (Q : T -> Prop) (body : Z -> T -> bool * T) (a n : Z) (s : T) :
  0 <= n -> P a s ->
  (forall i s, a <= i < a + n -> P i s -> let '(ok, s') := body i s in if ok then P (i + 1) s' else Q s') ->
  let '(ok, s') := for_idx body (seqZ a n) s in if ok then P (a + n) s' else Q s'.
Proof.
  intros Hn. revert a s. pattern n. apply natlike_ind; [| |done].
  - intros a s HP _. cbn. by rewrite Z.add_0_r.
  - clear n Hn. intros n Hn IH a s HP Hbody. rewrite seqZ_cons by lia. cbn [for_idx].
    pose proof (Hbody a s ltac:(lia) HP) as Ha. destruct (body a s) as [[] s1]; [|done].
    rewrite Z.pred_succ. change (Z.succ a) with (a + 1). replace (a + Z.succ n) with (a + 1 + n) by lia.
    apply (IH (a + 1) s1 Ha). intros i s' Hi. apply Hbody. lia.
Qed.

(** ** Addresses *)

(** The page number of a path. *)
Definition page_no (i j k l : Z) : Z := l + 512 * (k + 512 * (j + 512 * i)).

Lemma fork_va_page i j k l : 0 <= j < 512 -> 0 <= k < 512 -> 0 <= l < 512 -> fork_va i j k l = 4096 * page_no i j k l.
Proof.
  intros Hj Hk Hl. unfold fork_va. rewrite <-!Z.lor_assoc. rewrite !(Z.shiftl_mul_pow2 l) by lia.
  rewrite (lor_add_shift (l * 2 ^ 12) k 21), (lor_add_shift (l * 2 ^ 12 + k * 2 ^ 21) j 30),
    (lor_add_shift (l * 2 ^ 12 + k * 2 ^ 21 + j * 2 ^ 30) i 39) by lia. unfold page_no. lia.
Qed.

Lemma page_no_idx i j k l : 0 <= i < 256 -> 0 <= j < 512 -> 0 <= k < 512 -> 0 <= l < 512 ->
  table_path (4096 * page_no i j k l) = [i; j; k] /\ PT_IDX (4096 * page_no i j k l) = l /\
  0 <= 4096 * page_no i j k l < USER_LIMIT.
Proof.
  intros Hi Hj Hk Hl. unfold table_path, PML4_IDX, PDPT_IDX, PD_IDX, PT_IDX. rewrite !idx_mod by lia.
  assert (Hd : forall q r m, 0 <= r < m -> (q * m + r) / m = q) by (intros; rewrite Z.div_add_l, Z.div_small by lia; lia).
  assert (Hm : forall q r, 0 <= r < 512 -> (r + 512 * q) `mod` 512 = r).
  { intros q r Hr. rewrite (Z.mul_comm 512), Z.mod_add, Z.mod_small by lia. done. }
  assert (H1 : 4096 * page_no i j k l / 2 ^ 12 = page_no i j k l) by (rewrite Z.mul_comm; apply Z.div_mul; lia).
  assert (H2 : 4096 * page_no i j k l / 2 ^ 21 = k + 512 * (j + 512 * i)).
  { rewrite <-(Hd (k + 512 * (j + 512 * i)) (4096 * l) (2 ^ 21)) by lia. f_equal. unfold page_no. lia. }
  assert (H3 : 4096 * page_no i j k l / 2 ^ 30 = j + 512 * i).
  { rewrite <-(Hd (j + 512 * i) (4096 * l + 2 ^ 21 * k) (2 ^ 30)) by lia. f_equal. unfold page_no. lia. }
  assert (H4 : 4096 * page_no i j k l / 2 ^ 39 = i).
  { etransitivity; [|apply (Hd i (4096 * l + 2 ^ 21 * k + 2 ^ 30 * j) (2 ^ 39)); lia]. f_equal. unfold page_no. lia. }
  rewrite H1, H2, H3, H4, (Hm (j + 512 * i) k Hk), (Hm i j Hj), (Z.mod_small i) by lia. split_and!; [done|by apply Hm|..].
  - unfold page_no. lia.
  - unfold page_no, USER_LIMIT. lia.
Qed.

Section fork.
Context `{FA : FrameAllocator A}.
Context (R : list Z) (cpu : nat) (Hcpu : (cpu < MAX_CPUS)%nat).
Context (src dst : Z) (Hsrc : src ∈ R) (Hdst : dst ∈ R) (Hsd : src <> dst).
Implicit Type s : pmm_t A.

(** ** One step of the loop

    [evolves s s' va]: page tables were added, references to pages in use were
    only gained, and at most the entries of [va] in the parent and the child changed. *)
Record evolves s s' (va : Z) : Prop := {
  ev_tables : tables R s';
  ev_mem : same_memory s s';
  ev_others r va' : r ∈ R -> 0 <= va' < USER_LIMIT -> va' / 4096 <> va / 4096 \/ (r <> src /\ r <> dst) ->
    vmm_leaf_pte s' r va' = vmm_leaf_pte s r va';
  ev_walk r p t : r ∈ R -> valid_path p -> walk s r p = Some t -> walk s' r p = Some t;
  ev_live f : 0 < live s f -> live s f <= live s' f;
  ev_data : data_same R s s';
  ev_fresh t : is_table R s' t -> is_table R s t \/ unreferenced s t;
}.

Lemma ev_not_table s s' va f : evolves s s' va -> 0 < live s f -> ~ is_table R s (page s f) -> ~ is_table R s' (page s f).
Proof. intros He Hl Hnt [Ht|(g & Hg & Hlg)]%(ev_fresh _ _ _ He); [done|]. apply page_inj in Hg as ->. lia. Qed.

Lemma evolves_trans s1 s2 s3 va : evolves s1 s2 va -> evolves s2 s3 va -> evolves s1 s3 va.
Proof.
  intros H1 H2. split.
  - apply H2.
  - split; etransitivity; try apply (ev_mem _ _ _ H2); apply (ev_mem _ _ _ H1).
  - intros r va' Hr Hva Hne. rewrite (ev_others _ _ _ H2) by done. by apply (ev_others _ _ _ H1).
  - intros r p t Hr Hp Hw. by apply (ev_walk _ _ _ H2), (ev_walk _ _ _ H1).
  - intros f Hf. pose proof (ev_live _ _ _ H1 f Hf). pose proof (ev_live _ _ _ H2 f ltac:(lia)). lia.
  - intros f a Hf Hnt Ha. pose proof (ev_live _ _ _ H1 f Hf). rewrite (ev_data _ _ _ H2 f).
    + by apply (ev_data _ _ _ H1 f).
    + lia.
    + rewrite (same_page s1 s2) by apply H1. by eapply ev_not_table.
    + by rewrite (same_page s1 s2) by apply H1.
  - intros t [Ht|(f & -> & Hl)]%(ev_fresh _ _ _ H2); [by apply (ev_fresh _ _ _ H1)|]. right. exists f.
    split; [apply same_page, H1|]. destruct (Z.le_gt_cases (live s1 f) 0); [done|].
    pose proof (ev_live _ _ _ H1 f ltac:(lia)). lia.
Qed.

Lemma changes_evolves s s' r va : changes R s s' r va -> r = src \/ r = dst -> evolves s s' va.
Proof.
  intros Hc Hr. split; try apply Hc.
  - intros r' va' Hr' Hva' Hne. apply (ch_others _ _ _ _ _ Hc); [done|done|]. destruct Hne as [|[? ?]]; [by right|left]. by destruct Hr as [-> | ->].
  - intros f Hf. by rewrite (ch_live _ _ _ _ _ Hc).
  - intros f a. apply (ch_data _ _ _ _ _ Hc).
Qed.

Lemma grows_evolves s s' va : tables R s' -> grows R s s' -> evolves s s' va.
Proof. intros Hs Hg. apply (changes_evolves s s' src va); [by apply grows_changes|by left]. Qed.

(** A step that changes reference counts only. *)
Lemma counts_evolve s s' va :
  tables R s -> pmm_inv s' -> same_memory s s' -> mem s' = mem s -> (forall f, 0 < live s f -> live s f <= live s' f) -> evolves s s' va.
Proof.
  intros Hs Hi Hsm Hm Hl. assert (Hst : same_tables R s s') by (intros t i _ _; unfold rd; by rewrite Hm). split; try done.
  - apply (same_tables_ok R s s'); try done. intros f Hf. destruct (tb_page R s Hs _ Hf) as (g & Hg & Hlg).
    apply page_inj in Hg as ->. specialize (Hl g Hlg). lia.
  - intros r va' Hr Hva _. by apply (same_tables_pte R).
  - intros r p t Hr Hp Hw. by rewrite (same_tables_walk R s s').
  - intros f a _ _ _. by rewrite Hm.
  - intros t Ht. left. by apply (same_tables_is_table R s s').
Qed.

(** ** What fork does with one page *)

(** The mapping flags of a page that may be shared. *)
Definition shareable (vmas : vma_table) (va : Z) : option Z :=
  match vma_range_info (Some vmas) va PAGE_SIZE with Some (Some (_, mf, true)) => Some mf | _ => None end.

Definition private_write (pte mf : Z) : bool := has (Z.land pte PTE_FLAGS_MASK) VMM_WRITE && negb (has mf VMA_MAP_SHARED).

Definition child_flags (pte mf : Z) : Z :=
  let flags := Z.land pte PTE_FLAGS_MASK in if private_write pte mf then Z.lor (clear_bits flags VMM_WRITE) VMM_COW else flags.

(** The page of [va] after the fork: [e] is the entry before, [e1] and [e2] those
    of the parent and of the child, [g] the frame of the child. *)
Record page_copied s0 (e e1 e2 g : Z) : Prop := {
  pc_parent : e1 = e;
  pc_child : e2 = make_pte (page s0 g) (Z.land e PTE_FLAGS_MASK);
  pc_new : live s0 g = 0;
}.

Record page_shared (vmas : vma_table) (va : Z) s0 (e e1 e2 g : Z) : Prop := {
  ps_same : page s0 g = pte_addr e;
  ps_flags : exists mf, shareable vmas va = Some mf /\ e2 = make_pte (pte_addr e) (child_flags e mf) /\
    e1 = if private_write e mf then make_pte (pte_addr e) (child_flags e mf) else e;
}.

Definition page_forked (vmas : vma_table) s0 s (va : Z) : Prop :=
  let e := vmm_leaf_pte s0 src va in
  let e1 := vmm_leaf_pte s src va in
  let e2 := vmm_leaf_pte s dst va in
  if has e VMM_PRESENT then
    exists g, 0 < live s g /\ ~ is_table R s (page s0 g) /\ same_content s0 s (pte_addr e) (page s0 g) /\
      (page_copied s0 e e1 e2 g \/ page_shared vmas va s0 e e1 e2 g)
  else e1 = e /\ e2 = 0.

(** It stays so while other pages are forked. *)
Lemma page_forked_stable vmas s0 s s' va va' :
  page_forked vmas s0 s va -> same_memory s0 s -> evolves s s' va' -> 0 <= va < USER_LIMIT -> va / 4096 <> va' / 4096 -> page_forked vmas s0 s' va.
Proof.
  intros H Hsm He Hva Hne. unfold page_forked in *. cbv zeta in *.
  rewrite !(ev_others _ _ _ He) by (done || by left). destruct (has _ _); [|done].
  destruct H as (g & Hl & Hnt & Hc & Hcase). exists g. pose proof (ev_live _ _ _ He g Hl).
  rewrite <-(same_page s0 s) in * by done. split_and!; [lia|by eapply ev_not_table| |].
  - intros o Ho. rewrite <-Hc by done. apply (ev_data _ _ _ He g); try done. lia.
  - done.
Qed.

Lemma fork_copy_ok vmas s va e f :
  tables R s -> 0 <= va < USER_LIMIT -> vmm_leaf_pte s src va = e -> has e VMM_PRESENT = true -> data_page R s e f ->
  let '(ok, s') := fork_copy cpu dst va e s in if ok then evolves s s' va /\ page_forked vmas s s' va else tables R s'.
Proof.
  intros Hs Hva He Hp (Hpe & Hlf & Hntf). unfold fork_copy. pose proof (alloc_copy_ok R cpu s (pte_addr e) Hs) as H.
  destruct (pmm_alloc cpu s) as [[c|] s1]; [|by destruct H]. cbv zeta in H. set (s2 := set_mem _ s1) in *.
  destruct H as (g & -> & Hlg & Hl2 & Hs2 & Hst & Hg & Hpc & Hnt2 & Hcopy & _).
  pose proof (map_page_changes R cpu s2 dst va (page s g) (Z.land e PTE_FLAGS_MASK) Hs2 Hdst Hva) as H.
  destruct (map_page cpu dst va _ _ s2) as [ok s3]. destruct H as [Hch Hok].
  assert (Hpg : page s2 g = page s g) by apply same_page, Hg. assert (Hlg2 : live s2 g = 1) by (by rewrite Hl2, Z.eqb_refl).
  assert (Hlg3 : live s3 g = 1) by (rewrite (ch_live _ _ _ _ _ Hch); lia).
  assert (Hpg3 : page s3 g = page s g) by (rewrite <-Hpg; apply same_page, Hch).
  assert (Hnt3 : ~ is_table R s3 (page s g)).
  { intros [Ht|(h & Hh & Hlh)]%(ch_fresh _ _ _ _ _ Hch); [done|]. rewrite <-Hpg in Hh. apply page_inj in Hh as ->. lia. }
  destruct ok.
  2:{ rewrite <-Hpg3. apply free_data_ok; [apply Hch|done|lia|by rewrite Hpg3]. }
  split.
  - eapply evolves_trans; [by apply grows_evolves|]. eapply changes_evolves; [exact Hch|by right].
  - unfold page_forked. cbv zeta. rewrite He, Hp. exists g. split_and!; [lia|done| |left; split; try done].
    + intros o Ho. rewrite (ch_data _ _ _ _ _ Hch g) by (rewrite ?Hpg; done || lia). by apply Hcopy.
    + rewrite (ch_others _ _ _ _ _ Hch) by (done || by left). by rewrite (grows_pte R s s2).
    + rewrite (proj2 Hok). by rewrite pte_addr_page.
Qed.

Lemma child_flags_masked pte mf : Z.land (child_flags pte mf) PTE_FLAGS_MASK = child_flags pte mf.
Proof.
  apply Z.bits_inj'. intros i Hi. rewrite Z.land_spec, flags_mask_testbit by done. unfold child_flags. cbv zeta.
  assert (Hb : Z.testbit (Z.land pte PTE_FLAGS_MASK) i && ((i <? 12) || (i =? 63)) = Z.testbit (Z.land pte PTE_FLAGS_MASK) i).
  { rewrite Z.land_spec, flags_mask_testbit by done. by destruct (Z.testbit pte i), ((i <? 12) || (i =? 63)). }
  destruct (private_write pte mf); [|done]. rewrite Z.lor_spec, andb_orb_distrib_l. f_equal.
  - unfold clear_bits. rewrite Z.land_spec. destruct (Z.testbit (u64 _) i); [by rewrite !andb_true_r|by rewrite andb_false_r].
  - change VMM_COW with (2 ^ 9). destruct (Z.eq_dec i 9) as [->|]; [done|]. by rewrite Z.pow2_bits_false by lia.
Qed.

Lemma fork_share_ok vmas s va e f pt mf :
  tables R s -> 0 <= va < USER_LIMIT -> vmm_leaf_pte s src va = e -> has e VMM_PRESENT = true -> data_page R s e f ->
  page_table s src va = Some pt -> shareable vmas va = Some mf ->
  let '(kept, s1) := pmm_retain (pte_addr e) s in kept = true ->
  let '(ok, s2) := map_page cpu dst va (pte_addr e) (child_flags e mf) s1 in
  if ok then
    let s' := if private_write e mf then wr pt (PT_IDX va) (Z.lor (Z.lor (pte_addr e) (child_flags e mf)) VMM_PRESENT) s2 else s2 in
    evolves s s' va /\ page_forked vmas s s' va
  else tables R (pmm_free cpu (pte_addr e) s2).
Proof.
  intros Hs Hva He Hp (Hpe & Hlf & Hntf) Hpt Hmf. destruct (tb_inv R s Hs) as [k Hok].
  destruct (proj1 (live_pos s k f Hok) Hlf) as [Hu Hpool]. apply in_use_true in Hu as [Hf _].
  pose proof (pmm_retain_ok s k f Hok Hf Hpool) as Hret. rewrite Hpe. destruct (pmm_retain (page s f) s) as [kept s1].
  destruct Hret as (_ & _ & Hret). intros ->. destruct (Hret eq_refl) as (Hok1 & Hsm1 & Hm1 & _ & Hl1).
  assert (Hl1' : forall q, 0 < live s q -> live s q <= live s1 q).
  { intros q Hq. rewrite Hl1. unfold upd. destruct (Z.eqb_spec q f) as [->|]; lia. }
  pose proof (counts_evolve s s1 va Hs ltac:(by exists k) Hsm1 Hm1 Hl1') as Hev1.
  assert (Hlf1 : 0 < live s1 f) by (specialize (Hl1' f Hlf); lia).
  pose proof (map_page_changes R cpu s1 dst va (page s f) (child_flags e mf) (ev_tables _ _ _ Hev1) Hdst Hva) as H.
  destruct (map_page cpu dst va _ _ s1) as [ok s2]. destruct H as [Hch Hleaf].
  assert (Hev2 : evolves s s2 va) by (eapply evolves_trans; [exact Hev1|]; eapply changes_evolves; [exact Hch|by right]).
  assert (Hlf2 : 0 < live s2 f) by (rewrite (ch_live _ _ _ _ _ Hch); lia).
  assert (Hpg2 : page s2 f = page s f) by apply same_page, Hev2.
  pose proof (ev_not_table _ _ _ _ Hev2 Hlf Hntf) as Hnt2. destruct ok.
  2:{ rewrite <-Hpg2. apply free_data_ok; [apply Hev2|done|done|by rewrite Hpg2]. }
  destruct (page_is_page s f (tb_inv R s Hs) Hlf) as [Hpp _]. destruct Hleaf as [_ Hleaf]. rewrite pte_addr_page in Hleaf by done.
  assert (Hsrc2 : vmm_leaf_pte s2 src va = e).
  { rewrite (ch_others _ _ _ _ _ Hch) by (done || by left). rewrite <-He. rewrite !leaf_pte_walk. unfold leafp.
    rewrite page_table_walk in Hpt. rewrite Hpt, (ev_walk _ _ _ Hev1 _ _ _ Hsrc (table_path_valid va Hva) Hpt). unfold rd. by rewrite Hm1. }
  assert (Hpt2 : page_table s2 src va = Some pt).
  { rewrite page_table_walk in *. by apply (ev_walk _ _ _ Hev2); [| apply table_path_valid|]. }
  destruct (private_write e mf) eqn:Hpw; cbv zeta.
  - rewrite <-(child_flags_masked e mf). change (Z.lor _ VMM_PRESENT) with (make_pte (page s f) (child_flags e mf)).
    destruct (set_entry_changes R s2 src va (make_pte (page s f) (child_flags e mf)) pt (ev_tables _ _ _ Hev2) Hsrc Hva Hpt2) as [Hch3 Hleaf3].
    set (s3 := wr _ _ _ s2) in *.
    assert (Hev3 : evolves s s3 va) by (eapply evolves_trans; [exact Hev2|]; eapply changes_evolves; [exact Hch3|by left]).
    split; [done|]. unfold page_forked. cbv zeta. rewrite He, Hp, Hpe. exists f. split_and!.
    + pose proof (ev_live _ _ _ Hev3 f Hlf). lia.
    + by eapply ev_not_table.
    + apply (content_same R); try done. apply Hev3.
    + right. split; [done|]. exists mf. rewrite Hpw, Hpe. split_and!; try done.
      rewrite (ch_others _ _ _ _ _ Hch3); [done|done|done|]. left. by apply not_eq_sym.
  - split; [done|]. unfold page_forked. cbv zeta. rewrite He, Hp, Hpe. exists f. split_and!; try done.
    + apply (content_same R); try done. apply Hev2.
    + right. split; [done|]. exists mf. rewrite Hpw, Hpe. split_and!; try done.
Qed.

Lemma fork_entry_cow_ok vmas s i j k l pt :
  tables R s -> 0 <= i < 256 -> 0 <= j < 512 -> 0 <= k < 512 -> 0 <= l < 512 -> walk s src [i; j; k] = Some pt ->
  let va := 4096 * page_no i j k l in
  vmm_leaf_pte s dst va = 0 ->
  (has (vmm_leaf_pte s src va) VMM_PRESENT = true -> exists f, data_page R s (vmm_leaf_pte s src va) f) ->
  let '(ok, s') := fork_entry_cow cpu vmas dst pt i j k l s in
  if ok then evolves s s' va /\ page_forked vmas s s' va else tables R s'.
Proof.
  intros Hs Hi Hj Hk Hl Hw. cbv zeta. destruct (page_no_idx i j k l Hi Hj Hk Hl) as (Hpath & Hidx & Hva). set (va := 4096 * page_no i j k l) in *.
  intros Hd0 Hdata. unfold fork_entry_cow. assert (Hpt : page_table s src va = Some pt) by (by rewrite page_table_walk, Hpath).
  assert (He : vmm_leaf_pte s src va = rd s pt l) by (unfold vmm_leaf_pte; by rewrite Hpt, Hidx). rewrite He in Hdata.
  set (e := rd s pt l) in *. destruct (has e VMM_PRESENT) eqn:Hp; cbn [negb].
  2:{ split; [by apply grows_evolves, grows_refl|]. unfold page_forked. cbv zeta. by rewrite He, Hp. }
  destruct (Hdata eq_refl) as [f Hf]. rewrite fork_va_page by done. fold va. cbv zeta.
  pose proof (fork_copy_ok vmas s va e f Hs Hva He Hp Hf) as Hcopy.
  destruct (vma_range_info (Some vmas) va PAGE_SIZE) as [[[[pr mf] [|]]|]|] eqn:Hinfo; try exact Hcopy.
  assert (Hmf : shareable vmas va = Some mf) by (unfold shareable; by rewrite Hinfo).
  pose proof (fork_share_ok vmas s va e f pt mf Hs Hva He Hp Hf Hpt Hmf) as Hshare.
  destruct (pmm_retain (pte_addr e) s) as [kept s1] eqn:Hret. destruct kept; [|].
  - specialize (Hshare eq_refl). unfold child_flags, private_write in Hshare. cbv zeta in Hshare. rewrite Hidx in Hshare.
    destruct (map_page cpu dst va (pte_addr e) _ s1) as [[] s2]; cbn [negb]; [|exact Hshare].
    destruct (has _ VMM_WRITE && negb _); exact Hshare.
  - apply pmm_retain_false in Hret as ->. exact Hcopy.
Qed.

(** ** References *)

Lemma fork_copy_inv X s va e :
  mem_inv R X s -> 0 <= va < USER_LIMIT -> let '(ok, s') := fork_copy cpu dst va e s in mem_inv R X s' /\ (ok = false -> same_leaves R s s').
Proof.
  intros H Hva. unfold fork_copy. pose proof (alloc_copy_inv R X cpu s (pte_addr e) H) as Hc. destruct (pmm_alloc cpu s) as [[c|] s1].
  2:{ split; [apply Hc|]. intros _. apply grows_leaves, Hc. }
  cbv zeta in *. set (s2 := set_mem _ s1) in *. destruct Hc as (f & -> & _ & H2 & Hg & _).
  assert (Hps : page s2 f = page s f) by apply same_page, Hg. rewrite <-Hps.
  pose proof (map_inv R X cpu s2 dst va f (Z.land e PTE_FLAGS_MASK) H2 Hdst Hva) as Hm. destruct (map_page cpu dst va _ _ s2) as [ok s3].
  destruct Hm as (H3 & Hch & Hleaf). destruct ok; [done|]. rewrite <-(same_page s2 s3 f) by apply Hch. split; [by apply (free_inv R X cpu s3 f)|]. intros _.
  eapply same_leaves_trans; [by apply grows_leaves|]. eapply same_leaves_trans; [by eapply changes_leaves|]. apply mem_leaves, pmm_free_mem.
Qed.

Lemma fork_share_inv X s va e f pt fl fl' (pw : bool) :
  mem_inv R X s -> 0 <= va < USER_LIMIT -> vmm_leaf_pte s src va = e -> has e VMM_PRESENT = true -> data_page R s e f -> page_table s src va = Some pt ->
  pte_addr fl' = page s f ->
  let '(kept, s1) := pmm_retain (page s f) s in kept = true ->
  let '(ok, s2) := map_page cpu dst va (page s f) fl s1 in
  mem_inv R X (if ok then if pw then wr pt (PT_IDX va) fl' s2 else s2 else pmm_free cpu (page s f) s2) /\
  (ok = false -> same_leaves R s (pmm_free cpu (page s f) s2)).
Proof.
  intros H Hva He Hp (Hpe & Hlf & Hnt) Hpt Hfl. pose proof (retain_inv R X s f H Hlf Hnt) as Hr. destruct (pmm_retain (page s f) s) as [kept s1].
  intros ->. destruct Hr as (H1 & Hsm & Hm1 & _). rewrite <-(same_page s s1 f) by apply Hsm.
  pose proof (map_inv R X cpu s1 dst va f fl H1 Hdst Hva) as Hm. destruct (map_page cpu dst va _ fl s1) as [ok s2]. destruct Hm as (H2 & Hch & Hmleaf).
  destruct ok.
  2:{ rewrite <-(same_page s1 s2 f) by apply Hch. split; [by apply (free_inv R X cpu s2 f)|]. intros _.
      eapply same_leaves_trans; [by apply mem_leaves|]. eapply same_leaves_trans; [by eapply changes_leaves|]. apply mem_leaves, pmm_free_mem. }
  split; [|done]. destruct pw; [|done].
  assert (Hw1 : forall p, walk s1 src p = walk s src p).
  { intros p. generalize src. induction p as [|i p IH]; intros t; [done|]. cbn [walk]. unfold rd. rewrite Hm1. fold (rd s t i). by rewrite IH. }
  assert (Hleaf : vmm_leaf_pte s2 src va = e).
  { rewrite (ch_others _ _ _ _ _ Hch) by (done || by left). rewrite <-He, !leaf_pte_walk. unfold leafp. rewrite Hw1. unfold rd. by rewrite Hm1. }
  assert (Hpt2 : page_table s2 src va = Some pt).
  { rewrite page_table_walk in *. apply (ch_walk _ _ _ _ _ Hch); [done|by apply table_path_valid|by rewrite Hw1]. }
  destruct (set_entry_changes R s2 src va fl' pt (mi_tables _ _ _ H2) Hsrc Hva Hpt2) as [Hch3 Hleaf3].
  apply (keep_entry_inv R X s2 _ src va); try done. rewrite Hleaf3, Hleaf, Hpe, Hfl. done.
Qed.

Lemma fork_entry_cow_inv X vmas s i j k l pt :
  mem_inv R X s -> 0 <= i < 256 -> 0 <= j < 512 -> 0 <= k < 512 -> 0 <= l < 512 -> walk s src [i; j; k] = Some pt ->
  let '(ok, s') := fork_entry_cow cpu vmas dst pt i j k l s in mem_inv R X s' /\ (ok = false -> same_leaves R s s').
Proof.
  intros H Hi Hj Hk Hl Hw. destruct (page_no_idx i j k l Hi Hj Hk Hl) as (Hpath & Hidx & Hva). set (va := 4096 * page_no i j k l) in *.
  unfold fork_entry_cow. assert (Hpt : page_table s src va = Some pt) by (by rewrite page_table_walk, Hpath).
  assert (He : vmm_leaf_pte s src va = rd s pt l) by (unfold vmm_leaf_pte; by rewrite Hpt, Hidx).
  set (e := rd s pt l) in *. destruct (has e VMM_PRESENT) eqn:Hp; cbn [negb]; [|done]. rewrite fork_va_page by done. fold va. cbv zeta.
  pose proof (fork_copy_inv X s va e H Hva) as Hcopy. pose proof Hp as Hp'. rewrite <-He in Hp'.
  destruct (mi_data_page R X s src va H Hsrc Hva Hp') as (f & Hf). rewrite He in Hf. pose proof Hf as (Hpe & Hlf & _).
  destruct (vma_range_info (Some vmas) va PAGE_SIZE) as [[[[pr mf] [|]]|]|]; try exact Hcopy.
  set (pw := has _ VMM_WRITE && negb _). set (fl := if pw then _ else _).
  assert (Hmask : Z.land fl PTE_FLAGS_MASK = fl) by exact (child_flags_masked e mf).
  pose proof (fork_share_inv X s va e f pt fl (make_pte (page s f) fl) pw H Hva He Hp Hf Hpt) as Hshare.
  specialize (Hshare (make_pte_addr _ _ (proj1 (mi_page_nz _ _ _ _ H Hlf)))). unfold make_pte in Hshare. rewrite Hmask, Hidx in Hshare.
  rewrite Hpe. destruct (pmm_retain (page s f) s) as [kept s1] eqn:Hret. destruct kept.
  - specialize (Hshare eq_refl). destruct (map_page cpu dst va (page s f) fl s1) as [[] s2]; cbn [negb]; [|exact Hshare]. destruct Hshare as [Hshare _]. destruct pw; done.
  - apply pmm_retain_false in Hret as ->. exact Hcopy.
Qed.

(** ** The loops *)

Context (X : list Z) (vmas : vma_table) (s0 : pmm_t A) (Hs0 : mem_inv R X s0).
Hypothesis Hempty : forall va, 0 <= va < USER_LIMIT -> vmm_leaf_pte s0 dst va = 0.

(** The pages below [n] are forked. *)
Record fork_inv s (n : Z) : Prop := {
  fi_inv : mem_inv R X s;
  fi_mem : same_memory s0 s;
  fi_todo m : n <= m < NPAGES -> vmm_leaf_pte s src (4096 * m) = vmm_leaf_pte s0 src (4096 * m) /\ vmm_leaf_pte s dst (4096 * m) = 0;
  fi_done m : 0 <= m < n -> page_forked vmas s0 s (4096 * m);
  fi_other r va : r ∈ R -> 0 <= va < USER_LIMIT -> r <> src -> r <> dst -> vmm_leaf_pte s r va = vmm_leaf_pte s0 r va;
  fi_live f : 0 < live s0 f -> live s0 f <= live s f;
  fi_data : data_same R s0 s;
  fi_fresh t : is_table R s t -> is_table R s0 t \/ unreferenced s0 t;
}.

Lemma fork_inv_init : fork_inv s0 0.
Proof.
  split; try done.
  - intros m Hm. destruct (page_range m Hm) as [Hr _]. split; [done|by apply Hempty].
  - intros m Hm. lia.
  - intros t Ht. by left.
Qed.

(** A page forked from a later state is forked from the first one. *)
Lemma page_forked_rebase s s' n :
  fork_inv s n -> 0 <= n < NPAGES -> page_forked vmas s s' (4096 * n) -> page_forked vmas s0 s' (4096 * n).
Proof.
  intros Hi Hn H. unfold page_forked in *. cbv zeta in *. rewrite (proj1 (fi_todo _ _ Hi n ltac:(lia))) in H.
  set (e := vmm_leaf_pte s0 src (4096 * n)) in *. destruct (has e VMM_PRESENT) eqn:Hp; [|done].
  destruct (page_range n Hn) as [Hr _]. destruct (mi_data_page R X s0 src _ Hs0 Hsrc Hr Hp) as (f & Hpe & Hlf & Hnt). fold e in Hpe.
  assert (Hpg : forall q, page s q = page s0 q) by (intros q; apply same_page, Hi).
  destruct H as (g & Hl & Hntg & Hc & Hcase). rewrite Hpg in Hntg, Hc. exists g. split_and!; [done|done| |].
  - intros o Ho. rewrite Hc, Hpe by done. apply (fi_data _ _ Hi f); try done. lia.
  - destruct Hcase as [[H1 H2 H3]|[H1 H2]]; [left|right].
    + rewrite Hpg in H2. split; try done. pose proof (mi_nonneg R X s0 g Hs0).
      destruct (Z.le_gt_cases (live s0 g) 0); [lia|]. pose proof (fi_live _ _ Hi g ltac:(lia)). lia.
    + rewrite Hpg in H1. by split.
Qed.

Lemma fork_inv_step s s' n :
  fork_inv s n -> 0 <= n < NPAGES -> evolves s s' (4096 * n) -> page_forked vmas s s' (4096 * n) -> mem_inv R X s' -> fork_inv s' (n + 1).
Proof.
  intros Hi Hn He Hf Hinv'. destruct (page_range n Hn) as [Hrn Hdn]. split.
  - done.
  - split; etransitivity; try apply (ev_mem _ _ _ He); apply (fi_mem _ _ Hi).
  - intros m Hm. destruct (page_range m ltac:(lia)) as [Hrm Hdm].
    rewrite !(ev_others _ _ _ He) by (done || (left; lia)). apply (fi_todo _ _ Hi). lia.
  - intros m Hm. destruct (decide (m = n)) as [->|Hne]; [by eapply page_forked_rebase|].
    destruct (page_range m ltac:(lia)) as [Hrm Hdm]. eapply page_forked_stable; [by apply (fi_done _ _ Hi); lia|apply Hi|exact He|done|lia].
  - intros r va Hr Hva H1 H2. rewrite (ev_others _ _ _ He) by (done || by right). by apply (fi_other _ _ Hi).
  - intros f Hf0. pose proof (fi_live _ _ Hi f Hf0). pose proof (ev_live _ _ _ He f ltac:(lia)). lia.
  - intros f a Hf0 Hnt Ha. pose proof (fi_live _ _ Hi f Hf0). assert (Hpg : page s f = page s0 f) by apply same_page, Hi.
    rewrite (ev_data _ _ _ He f); [by apply (fi_data _ _ Hi f)|lia| |by rewrite Hpg].
    rewrite Hpg. intros [Ht|(g & Hg & Hl)]%(fi_fresh _ _ Hi); [done|]. apply page_inj in Hg as ->. lia.
  - intros t [Ht|(f & -> & Hl)]%(ev_fresh _ _ _ He); [by apply (fi_fresh _ _ Hi)|]. right. exists f.
    split; [apply same_page, Hi|]. destruct (Z.le_gt_cases (live s0 f) 0); [done|]. pose proof (fi_live _ _ Hi f ltac:(lia)). lia.
Qed.

Lemma fork_inv_skip s n m :
  fork_inv s n -> 0 <= n -> 0 <= m -> n + m <= NPAGES ->
  (forall q, n <= q < n + m -> has (vmm_leaf_pte s src (4096 * q)) VMM_PRESENT = false) -> fork_inv s (n + m).
Proof.
  intros Hi Hn Hm Hb Hnp. split; try apply Hi.
  - intros q Hq. apply (fi_todo _ _ Hi). lia.
  - intros q Hq. destruct (Z.lt_ge_cases q n); [apply (fi_done _ _ Hi); lia|].
    destruct (fi_todo _ _ Hi q ltac:(lia)) as [H1 H2]. unfold page_forked. cbv zeta.
    rewrite <-H1, Hnp, H2 by lia. done.
Qed.

(** The tables of the parent the loops hold on to. *)
Definition held (W : list (list Z * Z)) s : Prop := Forall (fun w => valid_path w.1 /\ walk s src w.1 = Some w.2) W.

Lemma held_evolves W s s' va : held W s -> evolves s s' va -> held W s'.
Proof. intros H He. eapply Forall_impl; [exact H|]. intros [p t] [Hv Hw]. split; [done|]. by apply (ev_walk _ _ _ He). Qed.

(** An absent table: none of its pages is present. *)
Lemma absent_pages s p i q :
  walk s src p <> None -> match walk s src p with Some t => has (rd s t i) VMM_PRESENT = false | None => True end ->
  (exists rest, table_path (4096 * q) = p ++ [i] ++ rest) -> has (vmm_leaf_pte s src (4096 * q)) VMM_PRESENT = false.
Proof.
  intros Hw Ha [rest Hp]. rewrite leaf_pte_walk. unfold leafp. rewrite Hp, app_assoc.
  assert (Hn : walk s src (p ++ [i]) = None) by (rewrite walk_snoc; destruct (walk s src p); [by rewrite Ha|done]).
  assert (Happ : forall r, walk s src ((p ++ [i]) ++ r) = None).
  { intros r. induction r as [|x r IH] using rev_ind; [by rewrite app_nil_r|]. by rewrite app_assoc, walk_snoc, IH. }
  by rewrite Happ.
Qed.

(** The body of the innermost loop: [fork_entry] or [fork_entry_cow]. *)
Context (entry : Z -> Z -> Z -> Z -> Z -> pmm_t A -> bool * pmm_t A).
Hypothesis Hentry : forall s i j k l pt,
  mem_inv R X s -> 0 <= i < 256 -> 0 <= j < 512 -> 0 <= k < 512 -> 0 <= l < 512 -> walk s src [i; j; k] = Some pt ->
  let va := 4096 * page_no i j k l in
  vmm_leaf_pte s dst va = 0 ->
  let '(ok, s') := entry pt i j k l s in
  mem_inv R X s' /\ if ok then evolves s s' va /\ page_forked vmas s s' va else same_leaves R s s'.

(** A fork that ran out of memory: some pages were forked, the others not. *)
Definition fork_failed s' : Prop := mem_inv R X s' /\ exists s1 n, fork_inv s1 n /\ same_leaves R s1 s'.

Lemma pt_loop s i j k pt W :
  0 <= i < 256 -> 0 <= j < 512 -> 0 <= k < 512 -> fork_inv s (page_no i j k 0) -> held (([i; j; k], pt) :: W) s ->
  let '(ok, s') := for_idx (fun l s => entry pt i j k l s) (seqZ 0 512) s in
  if ok then fork_inv s' (page_no i j (k + 1) 0) /\ held W s' else fork_failed s'.
Proof.
  intros Hi Hj Hk Hinv Hheld.
  pose proof (for_idx_inv (fun l s => fork_inv s (page_no i j k l) /\ held (([i; j; k], pt) :: W) s) fork_failed
    (fun l s => entry pt i j k l s) 0 512 s ltac:(lia) (conj Hinv Hheld)) as H.
  match type of H with ?P -> _ => assert P as Hbody end.
  { intros l s1 Hl [Hi1 Hh1]. destruct (page_no_idx i j k l Hi Hj Hk ltac:(lia)) as (Hpath & Hidx & Hva).
    assert (Hn : 0 <= page_no i j k l < NPAGES) by (unfold page_no, NPAGES; lia).
    destruct (fi_todo _ _ Hi1 (page_no i j k l) ltac:(lia)) as [Ht1 Ht2]. pose proof Hh1 as Hh1'. apply Forall_cons in Hh1' as [[_ Hw] _].
    pose proof (Hentry s1 i j k l pt (fi_inv _ _ Hi1) Hi Hj Hk ltac:(lia) Hw Ht2) as Hstep.
    destruct (entry pt i j k l s1) as [[] s2]; destruct Hstep as [Hinv2 Hstep]; [|split; [done|by eauto]]. destruct Hstep as [Hev Hpf]. split.
    - replace (page_no i j k (l + 1)) with (page_no i j k l + 1) by (unfold page_no; lia). by apply (fork_inv_step s1 s2).
    - by eapply held_evolves. }
  specialize (H Hbody). destruct (for_idx _ _ _) as [[] s']; [|done]. destruct H as [H1 H2]. split.
  - replace (page_no i j (k + 1) 0) with (page_no i j k (0 + 512)) by (unfold page_no; lia). done.
  - by apply Forall_cons in H2 as [_ H2].
Qed.

(** A loop over a table at the path [p] whose entries cover [size] pages each. *)
Lemma level_loop (inner : Z -> Z -> pmm_t A -> bool * pmm_t A) (p : list Z) (t start size count : Z) W s :
  0 <= start -> 0 <= size -> 0 <= count -> start + count * size <= NPAGES ->
  (forall x, 0 <= x < count -> valid_path (p ++ [x])) ->
  (forall x q, 0 <= x < count -> start + x * size <= q < start + (x + 1) * size ->
    exists rest, table_path (4096 * q) = p ++ [x] ++ rest) ->
  (forall x c s, 0 <= x < count -> fork_inv s (start + x * size) -> held ((p ++ [x], c) :: (p, t) :: W) s ->
    let '(ok, s') := inner x c s in if ok then fork_inv s' (start + (x + 1) * size) /\ held ((p, t) :: W) s' else fork_failed s') ->
  fork_inv s start -> held ((p, t) :: W) s ->
  let '(ok, s') := for_entries inner t count s in
  if ok then fork_inv s' (start + count * size) /\ held ((p, t) :: W) s' else fork_failed s'.
Proof.
  intros Hst Hsz Hct Hb Hval Hpath Hinner Hinv Hheld.
  apply (for_idx_inv (fun x s => fork_inv s (start + x * size) /\ held ((p, t) :: W) s) fork_failed); [done| |].
  { split; [by rewrite Z.mul_0_l, Z.add_0_r|done]. }
  intros x s1 Hx [Hi1 Hh1]. pose proof (proj1 (proj1 (Forall_cons _ _ _) Hh1)) as [Hv Hw]. cbn [fst snd] in Hv, Hw.
  destruct (has (rd s1 t x) VMM_PRESENT) eqn:Hp; cbn [negb].
  - apply Hinner; [lia|done|]. apply Forall_cons. split; [|done]. cbn [fst snd]. split; [apply Hval; lia|].
    by rewrite walk_snoc, Hw, Hp.
  - split; [|done]. replace (start + (x + 1) * size) with (start + x * size + size) by lia. apply fork_inv_skip; try done; try nia.
    intros q Hq. apply (absent_pages s1 p x q); [by rewrite Hw|by rewrite Hw|]. apply Hpath; lia.
Qed.

(** The path of a page number. *)
Lemma path_of_page i j k q :
  0 <= i < 256 -> 0 <= j < 512 -> 0 <= k < 512 -> page_no i j k 0 <= q < page_no i j (k + 1) 0 -> table_path (4096 * q) = [i; j; k].
Proof.
  intros Hi Hj Hk Hq. replace q with (page_no i j k (q - page_no i j k 0)) by (unfold page_no; lia).
  apply page_no_idx; try done. unfold page_no in *. lia.
Qed.

Lemma path_of_page3 i j q :
  0 <= i < 256 -> 0 <= j < 512 -> page_no i j 0 0 <= q < page_no i (j + 1) 0 0 -> exists rest, table_path (4096 * q) = [i; j] ++ rest.
Proof.
  intros Hi Hj Hq. pose proof (Z.div_mod (q - page_no i j 0 0) 512 ltac:(lia)). pose proof (Z.mod_pos_bound (q - page_no i j 0 0) 512 ltac:(lia)).
  set (k := (q - page_no i j 0 0) / 512) in *. exists [k]. apply (path_of_page i j k); try done; unfold page_no in *; lia.
Qed.

Lemma path_of_page4 i q :
  0 <= i < 256 -> page_no i 0 0 0 <= q < page_no (i + 1) 0 0 0 -> exists rest, table_path (4096 * q) = [i] ++ rest.
Proof.
  intros Hi Hq. pose proof (Z.div_mod (q - page_no i 0 0 0) 262144 ltac:(lia)). pose proof (Z.mod_pos_bound (q - page_no i 0 0 0) 262144 ltac:(lia)).
  set (j := (q - page_no i 0 0 0) / 262144) in *. destruct (path_of_page3 i j q) as [rest Hr]; try done; [unfold page_no in *; lia..|].
  exists ([j] ++ rest). done.
Qed.

Lemma valid3 i j k : 0 <= i < 256 -> 0 <= j < 512 -> 0 <= k < 512 -> valid_path [i; j; k].
Proof. intros. split; [done|]. split; [by rewrite !Forall_cons|cbn; lia]. Qed.

Lemma pd_loop i j pd W s :
  0 <= i < 256 -> 0 <= j < 512 -> fork_inv s (page_no i j 0 0) -> held (([i; j], pd) :: W) s ->
  let '(ok, s') := for_entries (fun k pt => for_idx (fun l s => entry pt i j k l s) (seqZ 0 512)) pd 512 s in
  if ok then fork_inv s' (page_no i (j + 1) 0 0) /\ held (([i; j], pd) :: W) s' else fork_failed s'.
Proof.
  intros Hi Hj Hinv Hheld. replace (page_no i (j + 1) 0 0) with (page_no i j 0 0 + 512 * 512) by (unfold page_no; lia).
  assert (Hk : forall k, page_no i j 0 0 + k * 512 = page_no i j k 0) by (intros; unfold page_no; lia).
  apply level_loop; try done; try (unfold page_no, NPAGES; lia).
  - intros x Hx. by apply valid3.
  - intros x q Hx Hq. rewrite !Hk in Hq. exists []. by apply path_of_page.
  - intros x c s1 Hx Hi1 Hh1. rewrite !Hk in *. by apply pt_loop.
Qed.

Lemma pdpt_loop i pdpt W s :
  0 <= i < 256 -> fork_inv s (page_no i 0 0 0) -> held (([i], pdpt) :: W) s ->
  let '(ok, s') := for_entries (fun j pd => for_entries (fun k pt => for_idx (fun l s => entry pt i j k l s) (seqZ 0 512)) pd 512) pdpt 512 s in
  if ok then fork_inv s' (page_no (i + 1) 0 0 0) /\ held (([i], pdpt) :: W) s' else fork_failed s'.
Proof.
  intros Hi Hinv Hheld. replace (page_no (i + 1) 0 0 0) with (page_no i 0 0 0 + 512 * (512 * 512)) by (unfold page_no; lia).
  assert (Hj : forall j, page_no i 0 0 0 + j * (512 * 512) = page_no i j 0 0) by (intros; unfold page_no; lia).
  apply level_loop; try done; try (unfold page_no, NPAGES; lia).
  - intros x Hx. split; [done|]. split; [constructor; [done|constructor]|cbn; lia].
  - intros x q Hx Hq. rewrite !Hj in Hq. by apply path_of_page3.
  - intros x c s1 Hx Hi1 Hh1. rewrite !Hj in *. pose proof (pd_loop i x c (([i], pdpt) :: W) s1 Hi Hx Hi1 Hh1) as H.
    destruct (for_entries _ c 512 s1) as [[] s2]; [|done]. destruct H as [H1 H2]. split; [done|]. by apply Forall_cons in H2 as [_ H2].
Qed.

Lemma fork_walk_ok : let '(ok, s') := fork_walk entry src s0 in if ok then fork_inv s' NPAGES else fork_failed s'.
Proof.
  unfold fork_walk. assert (Hi : forall i, 0 + i * (512 * 512 * 512) = page_no i 0 0 0) by (intros; unfold page_no; lia).
  pose proof (level_loop (fun i pdpt => for_entries (fun j pd => for_entries (fun k pt =>
    for_idx (fun l s => entry pt i j k l s) (seqZ 0 512)) pd 512) pdpt 512) [] src 0 (512 * 512 * 512) 256 [] s0) as H.
  destruct (for_entries _ src 256 s0) as [ok s']. enough (if ok then fork_inv s' (0 + 256 * (512 * 512 * 512)) /\ held [([], src)] s' else fork_failed s') as Hg.
  { destruct ok; [by destruct Hg|done]. }
  apply H; try lia; [unfold NPAGES; lia| | | |apply fork_inv_init|by repeat constructor].
  - intros x Hx. split; [done|]. split; [constructor|cbn; lia].
  - intros x q Hx Hq. rewrite !Hi in Hq. by apply path_of_page4.
  - intros x c s1 Hx Hi1 Hh1. rewrite !Hi in *. pose proof (pdpt_loop x c [([], src)] s1 Hx Hi1 Hh1) as Hl.
    destruct (for_entries _ c 512 s1) as [[] s2]; [|done]. destruct Hl as [H1 H2]. split; [done|]. by apply Forall_cons in H2 as [_ H2].
Qed.
End fork.

Section forks.
Context `{FA : FrameAllocator A} (R : list Z) (cpu : nat) (Hcpu : (cpu < MAX_CPUS)%nat) (X : list Z) (vmas : vma_table).
Context (src dst : Z) (Hsrc : src ∈ R) (Hdst : dst ∈ R) (Hsd : src <> dst) (s0 : pmm_t A) (Hs0 : mem_inv R X s0).
Hypothesis Hempty : forall va, 0 <= va < USER_LIMIT -> vmm_leaf_pte s0 dst va = 0.

Lemma fork_cow_ok :
  let '(ok, s') := fork_walk (fork_entry_cow cpu vmas dst) src s0 in if ok then fork_inv R src dst X vmas s0 s' NPAGES else fork_failed R src dst X vmas s0 s'.
Proof.
  apply (fork_walk_ok R cpu Hcpu src dst Hsrc Hdst X vmas s0 Hs0 Hempty). intros s i j k l pt H Hi Hj Hk Hl Hw. cbv zeta. intros H0.
  destruct (page_no_idx i j k l Hi Hj Hk Hl) as (_ & _ & Hva).
  pose proof (fork_entry_cow_inv R cpu Hcpu src dst Hsrc Hdst Hsd X vmas s i j k l pt H Hi Hj Hk Hl Hw) as H1.
  pose proof (fork_entry_cow_ok R cpu Hcpu src dst Hsrc Hdst Hsd vmas s i j k l pt (mi_tables _ _ _ H) Hi Hj Hk Hl Hw H0 (mi_data_page R X s src _ H Hsrc Hva)) as H2.
  destruct (fork_entry_cow _ _ _ _ _ _ _ _ _) as [ok s']. destruct H1 as [H1 H1']. split; [done|]. destruct ok; [exact H2|by apply H1'].
Qed.

Lemma fork_eager_ok :
  let '(ok, s') := fork_walk (fork_entry cpu dst) src s0 in if ok then fork_inv R src dst X vmas s0 s' NPAGES else fork_failed R src dst X vmas s0 s'.
Proof.
  apply (fork_walk_ok R cpu Hcpu src dst Hsrc Hdst X vmas s0 Hs0 Hempty). intros s i j k l pt H Hi Hj Hk Hl Hw. cbv zeta. intros H0.
  destruct (page_no_idx i j k l Hi Hj Hk Hl) as (Hpath & Hidx & Hva). rewrite <-(fork_va_page i j k l) in * by done. unfold fork_entry.
  set (va := fork_va i j k l) in *.
  assert (He : vmm_leaf_pte s src va = rd s pt l) by (unfold vmm_leaf_pte; by rewrite page_table_walk, Hpath, Hw, Hidx).
  set (e := rd s pt l) in *. destruct (has e VMM_PRESENT) eqn:Hp; cbn [negb].
  - pose proof Hp as Hp'. rewrite <-He in Hp'. destruct (mi_data_page R X s src va H Hsrc Hva Hp') as (f & Hf). rewrite He in Hf.
    pose proof (fork_copy_inv R cpu Hcpu dst Hdst X s va e H Hva) as H1.
    pose proof (fork_copy_ok R cpu Hcpu src dst Hsrc Hdst Hsd vmas s va e f (mi_tables _ _ _ H) Hva He Hp Hf) as H2.
    destruct (fork_copy cpu dst va e s) as [ok s']. destruct H1 as [H1 H1']. split; [done|]. destruct ok; [exact H2|by apply H1'].
  - split; [done|]. split; [by apply grows_evolves; [apply H|apply grows_refl]|]. unfold page_forked. cbv zeta. by rewrite He, Hp.
Qed.
End forks.

(** ** The managed memory does not move *)

Section first.
Context `{FA : FrameAllocator A} (cpu : nat).
Implicit Type s : pmm_t A.

Lemma store_ref_first x s a : g_first_frame (store_ref x s a) = g_first_frame s.
Proof. unfold store_ref. by destruct (_ <? _). Qed.

Lemma put_frames_first a k s : g_first_frame (put_frames cpu a k s) = g_first_frame s.
Proof. unfold put_frames. cbv zeta. destruct (fa_put _ _ _ _) as [[] b]; done. Qed.

Lemma pmm_free_first a s : g_first_frame (pmm_free cpu a s) = g_first_frame s.
Proof. unfold pmm_free. cbv zeta. repeat case_raw; rewrite ?put_frames_first; done. Qed.

Lemma pmm_alloc_first s : g_first_frame (pmm_alloc cpu s).2 = g_first_frame s.
Proof. unfold pmm_alloc. destruct (fa_get _ _ _) as [[f|] b]; cbn [snd]; [|done]. cbv zeta. unfold pmm_ref_set. by rewrite store_ref_first. Qed.

Lemma pmm_alloc_zeroed_first s : g_first_frame (pmm_alloc_zeroed cpu s).2 = g_first_frame s.
Proof.
  unfold pmm_alloc_zeroed. destruct (g_zpool s) as [|a rest]; [|by unfold pmm_ref_set; cbn [snd]; rewrite store_ref_first].
  pose proof (pmm_alloc_first s) as H. by destruct (pmm_alloc cpu s) as [[]].
Qed.

Lemma pmm_retain_first a s : g_first_frame (pmm_retain a s).2 = g_first_frame s.
Proof. unfold pmm_retain. cbv zeta. repeat case_raw; done. Qed.

Lemma descend_first parent i s : g_first_frame (descend cpu parent i s).2 = g_first_frame s.
Proof. unfold descend. destruct (has _ _); [done|]. pose proof (pmm_alloc_zeroed_first s) as H. by destruct (pmm_alloc_zeroed cpu s) as [[]]. Qed.

Lemma map_page_first root virt phys flags s : g_first_frame (map_page cpu root virt phys flags s).2 = g_first_frame s.
Proof.
  unfold map_page. destruct (_ && _); [done|]. pose proof (descend_first root (PML4_IDX virt) s) as H1. destruct (descend cpu root _ s) as [[pdpt|] s1]; [|done].
  pose proof (descend_first pdpt (PDPT_IDX virt) s1) as H2. destruct (descend cpu pdpt _ s1) as [[pd|] s2]; [|cbn in *; congruence].
  pose proof (descend_first pd (PD_IDX virt) s2) as H3. destruct (descend cpu pd _ s2) as [[pt|] s3]; [|cbn in *; congruence].
  destruct (has _ VMM_PRESENT); cbn in *; congruence.
Qed.

Lemma fork_copy_first dst va pte s : g_first_frame (fork_copy cpu dst va pte s).2 = g_first_frame s.
Proof.
  unfold fork_copy. pose proof (pmm_alloc_first s) as H. destruct (pmm_alloc cpu s) as [[p|] s1]; [|done]. cbv zeta.
  match goal with |- context [map_page cpu ?r ?a ?b ?c ?d] => pose proof (map_page_first r a b c d) as H1; destruct (map_page cpu r a b c d) as [[] s2] end; cbn in *; [congruence|].
  rewrite pmm_free_first. congruence.
Qed.

Lemma fork_entry_cow_first vmas dst pt i j k l s : g_first_frame (fork_entry_cow cpu vmas dst pt i j k l s).2 = g_first_frame s.
Proof.
  unfold fork_entry_cow. destruct (negb _); [done|]. cbv zeta. destruct (vma_range_info _ _ _) as [[[[pr mf] []]|]|]; try apply fork_copy_first.
  pose proof (pmm_retain_first (pte_addr (rd s pt l)) s) as H. destruct (pmm_retain _ s) as [[] s1]; [|rewrite fork_copy_first; exact H].
  match goal with |- context [map_page cpu ?r ?a ?b ?c ?d] => pose proof (map_page_first r a b c d) as H1; destruct (map_page cpu r a b c d) as [[] s2] end; cbn in *; [|rewrite pmm_free_first; congruence].
  destruct (_ && _); cbn; congruence.
Qed.

Lemma for_idx_first (body : Z -> pmm_t A -> bool * pmm_t A) l : (forall i s, g_first_frame (body i s).2 = g_first_frame s) -> forall s, g_first_frame (for_idx body l s).2 = g_first_frame s.
Proof.
  intros Hb. induction l as [|i l IH]; intros s; [done|]. cbn [for_idx]. specialize (Hb i s). destruct (body i s) as [[] s1]; cbn in *; [rewrite IH|]; done.
Qed.

Lemma for_entries_first inner t n : (forall i e s, g_first_frame (inner i e s).2 = g_first_frame s) -> forall s, g_first_frame (for_entries inner t n s).2 = g_first_frame s.
Proof. intros H s. unfold for_entries. apply for_idx_first. intros i s1. by destruct (negb _). Qed.

Lemma fork_walk_first entry src s : (forall pt i j k l s, g_first_frame (entry pt i j k l s).2 = g_first_frame s) -> g_first_frame (fork_walk entry src s).2 = g_first_frame s.
Proof. intros H. unfold fork_walk. repeat (apply for_entries_first; intros). by apply for_idx_first. Qed.
End first.
