(* ===== verification/SpaceFree.v ===== *)
(** * Releasing an address space.

    The pages [free_space] of [Vmm.v] gives up are the ones the space holds
    references to: each page it maps, once for each mapping, and each of its
    tables once.  So the references of a space turn into references the kernel
    holds, and [pmm_free] drops them one by one. *)

From S2P Require Import Prelude Bits Bitfield Vma Lower LLFree Pmm Vmm VmmPte VmmTables MemInv VmmFork.

(** ** The pages of a space *)

(** The present entries of a table. *)
Definition kid_idx (m : Z -> Z) (table n : Z) : list Z := filter (fun i => has (m (table + 8 * i)) VMM_PRESENT = true) (seqZ 0 n).

Definition kid (m : Z -> Z) (table i : Z) : Z := pte_addr (m (table + 8 * i)).

(** The pages the present entries of a table point to. *)
Definition kids (m : Z -> Z) (table n : Z) : list Z := kid m table <$> kid_idx m table n.

(** The pages a page table, a page directory, ... and a space hold references to,
    in the order they are released. *)
Definition pt_pages (m : Z -> Z) (pt : Z) : list Z := kids m pt 512 ++ [pt].
Definition pd_pages (m : Z -> Z) (pd : Z) : list Z := (kids m pd 512 ≫= pt_pages m) ++ [pd].
Definition pdpt_pages (m : Z -> Z) (pdpt : Z) : list Z := (kids m pdpt 512 ≫= pd_pages m) ++ [pdpt].
Definition space_pages (m : Z -> Z) (root : Z) : list Z := (kids m root 256 ≫= pdpt_pages m) ++ [root].

(** The paths of length [d] from a table with [n] entries, and where they lead. *)
Fixpoint paths (m : Z -> Z) (d : nat) (n t : Z) : list (list Z) :=
  match d with
  | O => [[]]
  | S d => kid_idx m t n ≫= fun i => cons i <$> paths m d 512 (kid m t i)
  end.

Fixpoint target (m : Z -> Z) (t : Z) (p : list Z) : Z :=
  match p with [] => t | i :: p => target m (kid m t i) p end.

Lemma bind_app {X Y : Type} (f g : X -> list Y) (l : list X) : (l ≫= fun x => f x ++ g x) ≡ₚ (l ≫= f) ++ (l ≫= g).
Proof.
  induction l as [|x l IH]; [done|]. cbn. rewrite IH, <-!app_assoc. apply Permutation_app_head. rewrite !app_assoc.
  apply Permutation_app_tail. apply Permutation_app_comm.
Qed.

Lemma bind_perm {X Y : Type} (f g : X -> list Y) (l : list X) : (forall x, f x ≡ₚ g x) -> (l ≫= f) ≡ₚ (l ≫= g).
Proof. intros H. induction l as [|x l IH]; [done|]. cbn. by rewrite IH, H. Qed.

Lemma bind_single {X : Type} (l : list X) : (l ≫= fun x => [x]) = l.
Proof. induction l as [|x l IH]; [done|]. cbn. by f_equal. Qed.

(** The pages reached by paths of length [d]. *)
Definition reached (m : Z -> Z) (d : nat) (n t : Z) : list Z := target m t <$> paths m d n t.

Lemma fmap_bind {X Y W : Type} (g : Y -> W) (f : X -> list Y) (l : list X) : g <$> (l ≫= f) = l ≫= fun x => g <$> f x.
Proof. induction l as [|x l IH]; [done|]. cbn. by rewrite fmap_app, IH. Qed.

Lemma reached_S m d n t : reached m (S d) n t = kids m t n ≫= reached m d 512.
Proof.
  unfold reached, kids. cbn [paths]. rewrite fmap_bind, list_fmap_bind. apply list_bind_ext; [|done]. intros i.
  unfold compose. rewrite <-list_fmap_compose. by apply list_fmap_ext.
Qed.

Lemma reached_1 m n t : reached m 1 n t = kids m t n.
Proof. rewrite reached_S. apply bind_single. Qed.

(** The pages of a space: its mappings and its tables of each level. *)
Lemma space_pages_perm m root :
  space_pages m root ≡ₚ reached m 4 256 root ++ reached m 3 256 root ++ reached m 2 256 root ++ reached m 1 256 root ++ reached m 0 256 root.
Proof.
  unfold space_pages. rewrite !app_assoc. apply Permutation_app; [|done]. rewrite <-!app_assoc.
  assert (H1 : forall t, pt_pages m t = reached m 1 512 t ++ reached m 0 512 t) by (intros t; by rewrite reached_1).
  assert (H2 : forall t, pd_pages m t ≡ₚ reached m 2 512 t ++ reached m 1 512 t ++ reached m 0 512 t).
  { intros t. unfold pd_pages. rewrite app_assoc. apply Permutation_app; [|done]. rewrite reached_S, (reached_S m 0).
    rewrite <-bind_app. apply bind_perm. intros x. by rewrite H1. }
  assert (H3 : forall t, pdpt_pages m t ≡ₚ reached m 3 512 t ++ reached m 2 512 t ++ reached m 1 512 t ++ reached m 0 512 t).
  { intros t. unfold pdpt_pages. rewrite !app_assoc. apply Permutation_app; [|done]. rewrite (reached_S m 2), (reached_S m 1), (reached_S m 0).
    rewrite <-!bind_app. apply bind_perm. intros x. by rewrite H2, app_assoc. }
  rewrite (reached_S m 3), (reached_S m 2), (reached_S m 1), (reached_S m 0). rewrite <-!bind_app. apply bind_perm. intros x. by rewrite H3.
Qed.

Lemma kid_idx_spec m t n i : i ∈ kid_idx m t n <-> 0 <= i < n /\ has (m (t + 8 * i)) VMM_PRESENT = true.
Proof. unfold kid_idx. rewrite list_elem_of_filter, elem_of_seqZ. lia || tauto. Qed.

Lemma kid_idx_nodup m t n : NoDup (kid_idx m t n).
Proof. apply NoDup_filter, NoDup_seqZ. Qed.

Lemma paths_nodup m d n t : NoDup (paths m d n t).
Proof.
  revert n t. induction d as [|d IH]; intros n t; cbn [paths]; [by apply NoDup_singleton|].
  apply NoDup_bind.
  - intros i j p _ _ Hi Hj. apply list_elem_of_fmap in Hi as (q & -> & _). apply list_elem_of_fmap in Hj as (q' & Heq & _). by injection Heq.
  - intros i _. apply NoDup_fmap_2; [by intros x y [= ->]|apply IH].
  - apply kid_idx_nodup.
Qed.

(** The paths are the ones the page walk follows. *)
Lemma paths_spec m d n t p :
  p ∈ paths m d n t -> length p = d /\ match p with [] => True | i :: q => 0 <= i < n /\ Forall (fun j => 0 <= j < 512) q end.
Proof.
  revert n t p. induction d as [|d IH]; intros n t p; cbn [paths].
  - intros ->%list_elem_of_singleton. done.
  - intros (i & Hp & Hi)%list_elem_of_bind. apply kid_idx_spec in Hi as [Hi _]. apply list_elem_of_fmap in Hp as (q & -> & Hq).
    apply IH in Hq as [Hl Hq]. split; [cbn; lia|]. split; [done|]. destruct q as [|j q]; [constructor|]. destruct Hq as [Hj Hq]. by constructor.
Qed.

(** At most one element of a list without duplicates has a unique property. *)
Lemma count_if_unique {X : Type} (P : X -> bool) l :
  NoDup l -> (forall x y, x ∈ l -> y ∈ l -> P x = true -> P y = true -> x = y) -> (count_if P l <= 1)%nat.
Proof.
  intros Hnd Hu. rewrite count_if_filter. pose proof (NoDup_filter (fun x => P x = true) l Hnd) as Hf.
  assert (Hin : forall x, x ∈ filter (fun x => P x = true) l -> x ∈ l /\ P x = true) by (intros x [? ?]%list_elem_of_filter; done).
  destruct (filter _ l) as [|x [|y k]]; cbn [length]; [lia|lia|]. exfalso.
  apply NoDup_cons in Hf as [Hn _]. apply Hn. destruct (Hin x) as [H1 H2]; [left|]. destruct (Hin y) as [H3 H4]; [right; left|].
  rewrite (Hu x y) by done. left.
Qed.

Section free.
Context `{FA : FrameAllocator A}.
Implicit Type s : pmm_t A.

Lemma paths_walk s d n t p : p ∈ paths (mem s) d n t -> walk s t p = Some (target (mem s) t p).
Proof.
  revert n t p. induction d as [|d IH]; intros n t p; cbn [paths]; [by intros ->%list_elem_of_singleton|].
  intros (i & Hp & Hi)%list_elem_of_bind. apply kid_idx_spec in Hi as [_ Hi]. apply list_elem_of_fmap in Hp as (q & -> & Hq).
  cbn [walk target]. unfold rd. rewrite Hi. by apply (IH 512).
Qed.

(** The page number of a path to a mapped page. *)
Definition path_no (p : list Z) : Z := match p with [i; j; k; l] => page_no i j k l | _ => 0 end.

Lemma paths4_spec m root p :
  p ∈ paths m 4 256 root -> exists i j k l, p = [i; j; k; l] /\ 0 <= i < 256 /\ 0 <= j < 512 /\ 0 <= k < 512 /\ 0 <= l < 512.
Proof.
  intros Hp%paths_spec. destruct Hp as [Hl Hr]. destruct p as [|i [|j [|k [|l [|]]]]]; try done. exists i, j, k, l.
  destruct Hr as [Hi Hf]. rewrite !Forall_cons in Hf. tauto.
Qed.

Lemma path_no_inj m root p q : p ∈ paths m 4 256 root -> q ∈ paths m 4 256 root -> path_no p = path_no q -> p = q.
Proof.
  intros (i & j & k & l & -> & Hi & Hj & Hk & Hl)%paths4_spec (i' & j' & k' & l' & -> & Hi' & Hj' & Hk' & Hl')%paths4_spec.
  cbn [path_no]. intros Heq. destruct (page_no_idx i j k l Hi Hj Hk Hl) as (H1 & H2 & _). destruct (page_no_idx i' j' k' l' Hi' Hj' Hk' Hl') as (H3 & H4 & _).
  rewrite Heq in H1, H2. rewrite H1 in H3. rewrite H2 in H4. congruence.
Qed.

(** The entry at the end of a path. *)
Lemma path_leaf s root p :
  p ∈ paths (mem s) 4 256 root ->
  let va := 4096 * path_no p in
  0 <= path_no p < NPAGES /\ has (vmm_leaf_pte s root va) VMM_PRESENT = true /\ pte_addr (vmm_leaf_pte s root va) = target (mem s) root p.
Proof.
  intros Hp. pose proof (paths_walk s 4 256 root p Hp) as Hw. apply paths4_spec in Hp as (i & j & k & l & -> & Hi & Hj & Hk & Hl).
  destruct (page_no_idx i j k l Hi Hj Hk Hl) as (H1 & H2 & _). cbv zeta. cbn [path_no]. set (t := target _ _ _) in *.
  split; [unfold page_no, NPAGES; lia|]. rewrite leaf_pte_walk, H1, H2. unfold leafp.
  change [i; j; k; l] with ([i; j; k] ++ [l]) in Hw. rewrite walk_snoc in Hw. destruct (walk s root [i; j; k]) as [pt|]; [|done].
  destruct (has (rd s pt l) VMM_PRESENT); [|done]. by injection Hw as ->.
Qed.

Lemma path_maps s root p f :
  p ∈ paths (mem s) 4 256 root -> target (mem s) root p = page s f -> maps s (root, path_no p) f = true /\ 0 <= path_no p < NPAGES.
Proof. intros Hp Ht. destruct (path_leaf s root p Hp) as (Hn & H1 & H2). split; [|done]. unfold maps. cbn [fst snd]. by rewrite H1, H2, Ht, Z.eqb_refl. Qed.

(** The paths to the tables of a space. *)
Definition table_paths (m : Z -> Z) (root : Z) : list (list Z) := paths m 3 256 root ++ paths m 2 256 root ++ paths m 1 256 root ++ paths m 0 256 root.

Lemma table_paths_spec m root p : p ∈ table_paths m root -> valid_path p /\ exists d, (d <= 3)%nat /\ p ∈ paths m d 256 root.
Proof.
  intros Hp. assert (Hd : exists d, (d <= 3)%nat /\ p ∈ paths m d 256 root).
  { unfold table_paths in Hp. rewrite !elem_of_app in Hp. destruct Hp as [H|[H|[H|H]]]; eexists; (split; [|exact H]); lia. }
  split; [|done]. destruct Hd as (d & Hd & Hin). apply paths_spec in Hin as [Hl Hr]. destruct p as [|i q]; [done|]. destruct Hr as [Hi Hf].
  cbn [length] in Hl. split; [done|]. split; [done|lia].
Qed.

Lemma table_paths_nodup m root : NoDup (table_paths m root).
Proof.
  assert (Hdis : forall d p, p ∈ paths m d 256 root -> length p = d) by (intros d p Hp; by apply paths_spec in Hp as [? _]).
  unfold table_paths. rewrite !NoDup_app. split_and!; try apply paths_nodup.
  - intros p H3%Hdis Hp. rewrite !elem_of_app in Hp. destruct Hp as [H%Hdis|[H%Hdis|H%Hdis]]; lia.
  - intros p H3%Hdis Hp. rewrite !elem_of_app in Hp. destruct Hp as [H%Hdis|H%Hdis]; lia.
  - intros p H3%Hdis Hp%Hdis. lia.
Qed.

(** The frame of a page. *)
Definition frame_of s (p : Z) : Z := p / 4096 - g_first_frame s.

Lemma frame_of_page s f : frame_of s (page s f) = f.
Proof. unfold frame_of, page, PAGE_SIZE. rewrite Z.div_mul by lia. lia. Qed.

Section drop.
Context (R X : list Z) (s : pmm_t A) (root : Z) (Hinv : mem_inv (root :: R) X s) (Hroot : root ∉ R).

Lemma root_in_cons : root ∈ root :: R.
Proof. left. Qed.

Lemma table_path_table p : p ∈ table_paths (mem s) root -> is_table (root :: R) s (target (mem s) root p).
Proof.
  intros (Hv & d & _ & Hp)%table_paths_spec. exists root, p. split; [left|]. split; [done|]. by apply (paths_walk s d 256).
Qed.

Lemma space_pages_split :
  space_pages (mem s) root ≡ₚ (target (mem s) root <$> paths (mem s) 4 256 root) ++ (target (mem s) root <$> table_paths (mem s) root).
Proof. rewrite space_pages_perm. unfold reached, table_paths. by rewrite !fmap_app. Qed.

Lemma space_page_frame p : p ∈ space_pages (mem s) root -> exists f, p = page s f /\ 0 < live s f.
Proof.
  rewrite space_pages_split, elem_of_app. intros [(q & -> & Hq)%list_elem_of_fmap|(q & -> & Hq)%list_elem_of_fmap].
  - destruct (path_leaf s root q Hq) as (Hn & H1 & H2). destruct (page_range _ Hn) as [Hva _].
    destruct (mi_data_page _ _ _ root _ Hinv root_in_cons Hva H1) as (f & Hf & Hlf & _). exists f. split; [congruence|done].
  - by apply (tb_page _ _ (mi_tables _ _ _ Hinv)), table_path_table.
Qed.

(** The references of the space to a frame: its mappings, and at most one table. *)
Lemma space_refs f :
  Z.of_nat (count_if (Z.eqb (page s f)) (space_pages (mem s) root)) =
  Z.of_nat (count_if (fun p => Z.eqb (page s f) (target (mem s) root p)) (paths (mem s) 4 256 root)) +
  Z.of_nat (count_if (fun p => Z.eqb (page s f) (target (mem s) root p)) (table_paths (mem s) root)).
Proof.
  by rewrite (count_if_perm _ _ _ space_pages_split), count_if_app, Nat2Z.inj_add, !count_if_fmap.
Qed.

Lemma table_count_le f : (count_if (fun p => Z.eqb (page s f) (target (mem s) root p)) (table_paths (mem s) root) <= 1)%nat.
Proof.
  apply count_if_unique; [apply table_paths_nodup|]. intros p q Hp Hq Hpf%Z.eqb_eq Hqf%Z.eqb_eq.
  destruct (table_paths_spec _ _ _ Hp) as (Hvp & d & _ & Hdp). destruct (table_paths_spec _ _ _ Hq) as (Hvq & e & _ & Heq).
  destruct (tb_inj _ _ (mi_tables _ _ _ Hinv) root root p q (page s f) root_in_cons root_in_cons Hvp Hvq) as [_ ?]; [| |done].
  - rewrite Hpf. by apply (paths_walk s d 256).
  - rewrite Hqf. by apply (paths_walk s e 256).
Qed.

(** The mappings of [f] in the space, as slots. *)
Lemma leaf_slots f :
  exists L, NoDup L /\ Z.of_nat (length L) = Z.of_nat (count_if (fun p => Z.eqb (page s f) (target (mem s) root p)) (paths (mem s) 4 256 root)) /\
    forall x, x ∈ L -> x.1 = root /\ slot_ok (root :: R) x /\ maps s x f = true.
Proof.
  set (P := fun p => Z.eqb (page s f) (target (mem s) root p)). exists ((fun p => (root, path_no p)) <$> filter (fun p => P p = true) (paths (mem s) 4 256 root)).
  split_and!.
  - apply NoDup_fmap_2_strong; [|apply NoDup_filter, paths_nodup]. intros p q [_ Hp]%list_elem_of_filter [_ Hq]%list_elem_of_filter [= Heq].
    by apply (path_no_inj (mem s) root).
  - by rewrite length_fmap, count_if_filter.
  - intros x (p & -> & [HP Hp]%list_elem_of_filter)%list_elem_of_fmap. apply Z.eqb_eq in HP. destruct (path_maps s root p f Hp (eq_sym HP)) as [Hm Hn].
    split; [done|]. split; [|done]. split; [left|done].
Qed.

Lemma space_pages_pages : space_pages (mem s) root = page s <$> (frame_of s <$> space_pages (mem s) root).
Proof.
  rewrite <-list_fmap_compose. rewrite <-(list_fmap_id (space_pages (mem s) root)) at 1. apply list_fmap_ext. intros i p Hp. unfold compose.
  destruct (space_page_frame p) as (f & -> & _); [by eapply list_elem_of_lookup_2|]. by rewrite frame_of_page.
Qed.

Lemma space_occ f : occ f (frame_of s <$> space_pages (mem s) root) = Z.of_nat (count_if (Z.eqb (page s f)) (space_pages (mem s) root)).
Proof.
  set (l := frame_of s <$> space_pages (mem s) root). rewrite space_pages_pages. fold l. unfold occ. rewrite count_if_fmap. f_equal. clearbody l.
  induction l as [|g l IH]; [done|]. cbn [count_if]. rewrite IH. f_equal.
  destruct (Z.eqb_spec f g) as [->|Hne]; [by rewrite Z.eqb_refl|]. destruct (Z.eqb_spec (page s f) (page s g)) as [He|]; [|done]. by apply page_inj in He.
Qed.

Lemma drop_slot x : slot_ok R x -> slot_ok (root :: R) x.
Proof. intros [Hr Hn]. split; [by right|done]. Qed.

Lemma drop_table t : is_table R s t -> is_table (root :: R) s t.
Proof. intros (r & p & Hr & Hw). exists r, p. split; [by right|done]. Qed.

(** No page of the space is a table of another one. *)
Lemma drop_spare p : p ∈ space_pages (mem s) root -> ~ is_table R s p.
Proof.
  intros Hp Ht. destruct (space_page_frame p Hp) as (f & Hf & _). revert Hp. rewrite space_pages_split, elem_of_app.
  intros [(q & Hq & Hin)%list_elem_of_fmap|(q & Hq & Hin)%list_elem_of_fmap].
  - destruct (path_maps s root q f Hin) as [Hm Hn]; [congruence|]. refine (mi_data _ _ _ Hinv (root, path_no q) f _ Hm _); [split; [left|done]|].
    apply drop_table. by rewrite <-Hf.
  - destruct Ht as (r & p' & Hr & Hv & Hw). destruct (table_paths_spec _ _ _ Hin) as (Hvp & d & _ & Hdp). rewrite Hq in Hw.
    assert (Hr' : r ∈ root :: R) by by right.
    destruct (tb_inj _ _ (mi_tables _ _ _ Hinv) root r q p' _ root_in_cons Hr' Hvp Hv (paths_walk s d 256 _ _ Hdp) Hw) as [Heq _].
    by rewrite Heq in Hroot.
Qed.

Lemma drop_refs f L :
  NoDup L -> (forall x, x ∈ L -> slot_ok R x /\ maps s x f = true) ->
  Z.of_nat (length L) + occ f ((frame_of s <$> space_pages (mem s) root) ++ X) <= live s f.
Proof.
  intros Hnd HL. rewrite occ_app, space_occ, space_refs. pose proof (table_count_le f) as H1. destruct (leaf_slots f) as (L0 & Hnd0 & Hlen0 & HL0).
  assert (Hall : forall x, x ∈ L ++ L0 -> slot_ok (root :: R) x /\ maps s x f = true).
  { intros x [Hx|Hx]%elem_of_app; [destruct (HL x Hx); split; [by apply drop_slot|done]|by destruct (HL0 x Hx)]. }
  assert (Hle : Z.of_nat (length (L ++ L0)) + occ f X <= live s f).
  { apply (mi_refs _ _ _ Hinv f (L ++ L0)); [|done]. apply NoDup_app. split_and!; [done| |done].
    intros x Hx Hx0. destruct (HL x Hx) as [[Hxr _] _]. destruct (HL0 x Hx0) as [Hx1 _]. by rewrite Hx1 in Hxr. }
  assert (Hlen : length (L ++ L0) = (length L + length L0)%nat) by apply length_app.
  set (ct := count_if _ (table_paths (mem s) root)) in *. destruct (decide (ct = 0%nat)) as [->|Hct]; [lia|].
  assert (Htf : is_table (root :: R) s (page s f)).
  { unfold ct in Hct. rewrite count_if_filter in Hct. destruct (filter _ (table_paths (mem s) root)) as [|p l] eqn:Hfl; [done|].
    assert (Hp : p ∈ filter (fun p => (Z.eqb (page s f) (target (mem s) root p)) = true) (table_paths (mem s) root)) by (rewrite Hfl; left).
    apply list_elem_of_filter in Hp as [Hp%Z.eqb_eq Hin]. rewrite Hp. by apply table_path_table. }
  destruct (tb_page _ _ (mi_tables _ _ _ Hinv) _ Htf) as (g & Hg & Hlg). apply page_inj in Hg as <-.
  assert (length (L ++ L0) = 0%nat).
  { destruct (L ++ L0) as [|x l]; [done|]. destruct (Hall x (list_elem_of_here _ _)) as [Hx Hm]. destruct (mi_data _ _ _ Hinv x f Hx Hm Htf). }
  assert (occ f X <= 0) by (destruct (Z.le_gt_cases (occ f X) 0) as [|Ho]; [done|]; apply occ_pos in Ho; destruct (mi_spare _ _ _ Hinv f Ho Htf)).
  lia.
Qed.

(** The space gives its references to the kernel. *)
Lemma drop_root : mem_inv R ((frame_of s <$> space_pages (mem s) root) ++ X) s.
Proof.
  split.
  - pose proof (mi_tables _ _ _ Hinv) as [T1 T2 T3]. split; [done|intros t Ht; by apply T2, drop_table|]. intros r r' p p' t Hr Hr'. apply T3; by right.
  - intros x Hx. by apply (mi_frame _ _ _ Hinv), drop_slot.
  - intros x f Hx Hm Ht. by apply (mi_data _ _ _ Hinv x f (drop_slot x Hx) Hm), drop_table.
  - intros f [Hf|Hf]%elem_of_app; [|intros Ht; by apply (mi_spare _ _ _ Hinv f Hf), drop_table].
    apply drop_spare. rewrite space_pages_pages. apply list_elem_of_fmap. by exists f.
  - exact drop_refs.
Qed.
End drop.

(** ** [free_space] *)

Definition free_all (cpu : nat) (ps : list Z) s : pmm_t A := foldl (fun s p => pmm_free cpu p s) s ps.

Lemma free_all_mem cpu ps s : mem (free_all cpu ps s) = mem s.
Proof. revert s. induction ps as [|p ps IH]; intros s; [done|]. cbn [free_all foldl]. unfold free_all in IH. by rewrite IH, pmm_free_mem. Qed.

Lemma free_all_app cpu ps qs s : free_all cpu (ps ++ qs) s = free_all cpu qs (free_all cpu ps s).
Proof. unfold free_all. apply foldl_app. Qed.

(** Releasing the entries of a table one by one releases the pages of each. *)
Lemma each_present_all cpu (f : Z -> pmm_t A -> pmm_t A) (L : (Z -> Z) -> Z -> list Z) table n s :
  (forall p s, f p s = free_all cpu (L (mem s) p) s) ->
  each_present f table n s = free_all cpu (kids (mem s) table n ≫= L (mem s)) s.
Proof.
  intros Hf. unfold each_present, kids, kid_idx. generalize (seqZ 0 n). intros l. revert s.
  induction l as [|i l IH]; intros s; [done|]. cbn [foldl]. rewrite filter_cons. unfold rd.
  destruct (has (mem s (table + 8 * i)) VMM_PRESENT) eqn:Hp.
  - rewrite decide_True by done. rewrite fmap_cons. cbn [mbind list_bind]. rewrite IH, free_all_app. unfold kid at 3. rewrite !Hf, !free_all_mem. done.
  - rewrite decide_False by done. apply IH.
Qed.

Lemma free_space_all cpu root s : free_space cpu root s = free_all cpu (space_pages (mem s) root) s.
Proof.
  assert (H1 : forall p s, free_pt cpu p s = free_all cpu (pt_pages (mem s) p) s).
  { intros p s'. unfold free_pt, pt_pages. rewrite free_all_app.
    rewrite (each_present_all cpu (pmm_free cpu) (fun _ p => [p])) by done.
    by replace (kids (mem s') p 512 ≫= (fun p => [p])) with (kids (mem s') p 512) by (induction (kids (mem s') p 512) as [|x l IH]; [done|]; cbn; by rewrite <-IH). }
  assert (H2 : forall p s, free_pd cpu p s = free_all cpu (pd_pages (mem s) p) s).
  { intros p s'. unfold free_pd, pd_pages. by rewrite free_all_app, (each_present_all cpu _ pt_pages). }
  assert (H3 : forall p s, free_pdpt cpu p s = free_all cpu (pdpt_pages (mem s) p) s).
  { intros p s'. unfold free_pdpt, pdpt_pages. by rewrite free_all_app, (each_present_all cpu _ pd_pages). }
  unfold free_space, space_pages. by rewrite free_all_app, (each_present_all cpu _ pdpt_pages).
Qed.

(** The number of references a list holds to the frame [f]. *)
Definition refs_to s (ps : list Z) (f : Z) : Z := Z.of_nat (count_if (fun p => p =? page s f) ps).

Lemma free_all_ok cpu ps s :
  (cpu < MAX_CPUS)%nat -> pmm_inv s -> (forall p, p ∈ ps -> exists f, p = page s f) -> (forall f, refs_to s ps f <= live s f) ->
  let s' := free_all cpu ps s in
  pmm_inv s' /\ same_memory s s' /\ forall f, live s' f = live s f - refs_to s ps f.
Proof.
  intros Hcpu. revert s. induction ps as [|p ps IH]; intros s Hi Hp Hc; cbv zeta.
  { split_and!; try done. intros f. unfold refs_to. cbn. lia. }
  destruct (Hp p (list_elem_of_here _ _)) as [f ->]. destruct Hi as [k Hok].
  assert (Hcons : forall g, refs_to s (page s f :: ps) g = (if g =? f then 1 else 0) + refs_to s ps g).
  { intros g. unfold refs_to. cbn [count_if]. destruct (Z.eqb_spec (page s f) (page s g)) as [Heq|Hne].
    - apply page_inj in Heq. rewrite Heq, Z.eqb_refl. lia.
    - destruct (Z.eqb_spec g f) as [->|]; [done|]. lia. }
  pose proof (Hc f) as Hcf. rewrite Hcons, Z.eqb_refl in Hcf. assert (Hlf : 0 < live s f) by (unfold refs_to in Hcf; lia).
  destruct (pmm_free_ok cpu s k f Hok Hcpu Hlf) as (Hok1 & Hsm & _ & _ & Hl). cbn [free_all foldl]. set (s1 := pmm_free cpu _ s) in *.
  assert (Hpg : forall g, page s1 g = page s g) by (intros g; by apply same_page).
  assert (Hrefs : forall g, refs_to s1 ps g = refs_to s ps g) by (intros g; unfold refs_to; by rewrite Hpg).
  destruct (IH s1) as (G1 & G2 & G3).
  - by exists k.
  - intros q Hq. destruct (Hp q ltac:(by right)) as [g ->]. exists g. by rewrite Hpg.
  - intros g. rewrite Hrefs, Hl. specialize (Hc g). rewrite Hcons in Hc. unfold upd. destruct (Z.eqb_spec g f) as [Heq|]; [rewrite Heq in *|]; lia.
  - split_and!; [done| |].
    + split; etransitivity; try apply G2; apply Hsm.
    + intros g. fold (free_all cpu ps s1). rewrite G3, Hrefs, Hl, Hcons. unfold upd. destruct (Z.eqb_spec g f) as [Heq|]; [rewrite Heq|]; lia.
Qed.


Lemma free_all_inv R X cpu F s :
  (cpu < MAX_CPUS)%nat -> mem_inv R (F ++ X) s -> mem_inv R X (free_all cpu (page s <$> F) s).
Proof.
  intros Hcpu. revert s. induction F as [|f F IH]; intros s H; [done|]. cbn [fmap list_fmap free_all foldl].
  destruct (free_inv R (F ++ X) cpu s f H Hcpu) as (H1 & Hsm & _). set (s1 := pmm_free cpu (page s f) s) in *.
  assert (Heq : page s <$> F = page s1 <$> F) by (apply list_fmap_ext; intros i g _; symmetry; by apply same_page).
  change (list_fmap Z Z (page s) F) with (page s <$> F). rewrite Heq. by apply IH.
Qed.

(** Releasing the last reference to a space. *)
Lemma free_space_ok R X cpu root s :
  (cpu < MAX_CPUS)%nat -> mem_inv (root :: R) X s -> root ∉ R ->
  let s' := free_space cpu root s in
  mem_inv R X s' /\ mem s' = mem s /\ same_memory s s' /\ forall f, live s' f = live s f - refs_to s (space_pages (mem s) root) f.
Proof.
  intros Hcpu H Hr. cbv zeta. rewrite free_space_all. pose proof (drop_root R X s root H Hr) as Hd.
  pose proof (space_pages_pages R X s root H) as Hp. set (F := frame_of s <$> space_pages (mem s) root) in *.
  assert (Hocc : forall f, refs_to s (space_pages (mem s) root) f = occ f F).
  { intros f. unfold F. rewrite (space_occ R X s root H). unfold refs_to. f_equal. apply count_if_ext. intros p _. apply Z.eqb_sym. }
  destruct (free_all_ok cpu (space_pages (mem s) root) s Hcpu) as (_ & Hsm & Hl).
  - apply (tb_inv _ _ (mi_tables _ _ _ H)).
  - intros p Hin. destruct (space_page_frame R X s root H p Hin) as (f & -> & _). by exists f.
  - intros f. rewrite Hocc. pose proof (mi_refs _ _ _ Hd f [] NoDup_nil_2) as Hle. rewrite occ_app in Hle. pose proof (occ_nonneg f X).
    cbn [length] in Hle. enough (Z.of_nat 0 + (occ f F + occ f X) <= live s f) by lia. apply Hle. intros x Hx. by apply not_elem_of_nil in Hx.
  - split; [rewrite Hp; by apply free_all_inv|]. split; [by rewrite free_all_mem|]. done.
Qed.
End free.
