(* ===== verification/VmmSpaces.v ===== *)
(** * Address spaces: creation, release, and the theorems about [vmm.c].

    A new space has an empty user half; releasing a space drops one reference for
    each page it maps and for each of its tables. *)

From S2P Require Import Prelude Bits Bitfield Vma Lower LLFree Pmm Vmm VmmPte VmmTables MemInv VmmFork SpaceFree.

Section spaces.
Context `{FA : FrameAllocator A}.
Implicit Type s : pmm_t A.
Implicit Type v : vmm_t A.

(** ** A new space *)

Lemma copy_half_mem dst src l s :
  (forall i, i ∈ l -> 256 <= i < 512) ->
  exists m, foldl (fun s i => wr dst i (rd s src i) s) s l = set_mem m s /\
    forall a, ~ (dst + 2048 <= a < dst + 4096) -> m a = mem s a.
Proof.
  revert s. induction l as [|i l IH]; intros s Hl; cbn [foldl]; [exists (mem s); split; [by destruct s|done]|].
  destruct (IH (wr dst i (rd s src i) s)) as (m & Hm & Hout); [intros j Hj; apply Hl; by right|].
  exists m. split; [by rewrite Hm|]. intros a Ha. rewrite Hout by done. unfold wr, set_mem, upd. cbn [mem].
  pose proof (Hl i (list_elem_of_here _ _)). destruct (Z.eqb_spec a (dst + 8 * i)); [lia|done].
Qed.

(** The root of a new space, with the user half empty. *)
Lemma new_root_tables R s s' f :
  tables R s -> pmm_inv s' -> same_memory s s' -> 0 <= f < fa_frames (llf s) -> live s f = 0 ->
  (forall q, live s' q = if q =? f then 1 else live s q) ->
  (forall a, ~ (page s f <= a < page s f + PAGE_SIZE) -> mem s' a = mem s a) ->
  (forall i, 0 <= i < 256 -> rd s' (page s f) i = 0) ->
  tables (page s f :: R) s' /\ grows R s s' /\ forall va, 0 <= va < USER_LIMIT -> vmm_leaf_pte s' (page s f) va = 0.
Proof.
  intros Hs Hi Hsm Hf Hl0 Hl Hm Hz. destruct (alloc_tables R s s' f) as (Hs' & Hst & Hg & Hp & Hnt); try done.
  set (root := page s f) in *.
  assert (Hroot : forall p, valid_path p -> walk s' root p = match p with [] => Some root | _ => None end).
  { intros [|i q] Hv; [done|]. cbn [walk]. rewrite Hz by apply Hv. done. }
  assert (Hnr : root ∉ R) by (intros Hr; apply Hnt; exists root, []; by split_and!).
  split_and!; [split|done|].
  - done.
  - intros t (r & p & Hr & Hv & Hw). apply elem_of_cons in Hr as [->|Hr].
    + rewrite Hroot in Hw by done. destruct p; [|done]. injection Hw as <-. exists f.
      split; [symmetry; by apply same_page|]. rewrite Hl, Z.eqb_refl. lia.
    + apply (tb_page R s' Hs'). by exists r, p.
  - intros r r' p p' t Hr Hr' Hv Hv' Hw Hw'. apply elem_of_cons in Hr as [->|Hr]; apply elem_of_cons in Hr' as [->|Hr'].
    + rewrite Hroot in Hw, Hw' by done. by destruct p, p'.
    + rewrite Hroot in Hw by done. destruct p; [|done]. injection Hw as <-. destruct Hnt. by exists r', p'.
    + rewrite Hroot in Hw' by done. destruct p'; [|done]. injection Hw' as <-. destruct Hnt. by exists r, p.
    + by apply (tb_inj R s' Hs' r r' p p' t).
  - intros va Hva. rewrite leaf_pte_walk. unfold leafp. rewrite Hroot by by apply table_path_valid. done.
Qed.

Lemma tables_cons root R s : tables (root :: R) s -> tables R s.
Proof.
  intros [H1 H2 H3]. split; [done| |].
  - intros t (r & p & Hr & Hv & Hw). apply H2. exists r, p. split_and!; try done. by right.
  - intros r r' p p' t Hr Hr'. apply H3; by right.
Qed.

Lemma new_root_inv R X s s' f :
  mem_inv R X s -> tables (page s f :: R) s' -> grows R s s' -> live s f = 0 ->
  (forall i, 0 <= i < 256 -> rd s' (page s f) i = 0) -> mem_inv (page s f :: R) X s'.
Proof.
  intros H Ht Hg H0 Hz. pose proof (grows_inv R X s s' H (tables_cons _ _ _ Ht) Hg) as H'. set (root := page s f) in *.
  assert (Hpg : forall q, page s' q = page s q) by (intros q; apply same_page, Hg).
  assert (Hroot : forall p, valid_path p -> walk s' root p = match p with [] => Some root | _ => None end).
  { intros [|i q] Hv; [done|]. cbn [walk]. rewrite Hz by apply Hv. done. }
  assert (Hslot : forall x, slot_ok (root :: R) x -> has (vmm_leaf_pte s' x.1 (4096 * x.2)) VMM_PRESENT = true -> slot_ok R x).
  { intros [r n] [Hr Hn] Hp. cbn [fst snd] in *. apply elem_of_cons in Hr as [->|Hr]; [|done]. exfalso. revert Hp.
    rewrite leaf_pte_walk. unfold leafp. rewrite Hroot by (apply table_path_valid, page_range; done). done. }
  assert (Hmap : forall x q, slot_ok (root :: R) x -> maps s' x q = true -> slot_ok R x).
  { intros x q Hx Hm. apply Hslot; [done|]. by apply andb_true_iff in Hm as [Hm _]. }
  assert (Htab : forall q, 0 < live s q -> ~ is_table R s' (page s' q) -> ~ is_table (root :: R) s' (page s' q)).
  { intros q Hl Hnt (r & p & Hr & Hv & Hw). apply elem_of_cons in Hr as [->|Hr]; [|by apply Hnt; exists r, p].
    rewrite Hroot in Hw by done. destruct p; [|done]. injection Hw as Hw. rewrite Hpg in Hw. apply page_inj in Hw as ->. lia. }
  assert (Hold : forall x q, slot_ok R x -> maps s' x q = true -> 0 < live s q).
  { intros x q Hx Hm. rewrite (maps_same s s' x q) in Hm; [by apply (mi_live R X s x q H)|done|].
    apply (grows_pte R); try done; [apply Hx|apply page_range, Hx]. }
  split; try done.
  - intros x Hx Hp. apply (mi_frame _ _ _ H'); [by apply Hslot|done].
  - intros x q Hx Hm. pose proof (Hmap x q Hx Hm) as Hx'. apply Htab; [by eapply Hold|by apply (mi_data _ _ _ H' x)].
  - intros q Hq. apply Htab; [by apply (mi_spare_live R X s)|by apply (mi_spare _ _ _ H')].
  - intros q L Hnd HL. apply (mi_refs _ _ _ H' q L Hnd). intros x Hx. destruct (HL x Hx) as [Hok Hm]. split; [by eapply Hmap|done].
Qed.

Lemma find_unused l i : find_index negb l = Some i -> l !! i = Some false.
Proof. intros H. apply find_index_Some in H as (x & Hx & Hn). by destruct x. Qed.

(** What a new space promises. *)
Record new_space R X v v' (slot : nat) : Prop := {
  ns_free : g_pool_used v !! slot = Some false;
  ns_used : g_pool_used v' = <[slot := true]> (g_pool_used v);
  ns_others sp : sp <> PoolSpace slot -> space v' sp = space v sp;
  ns_pool : length (g_pool v') = length (g_pool v);
  ns_inv : mem_inv (pml4_phys (space v' (PoolSpace slot)) :: R) X (pm v');
  ns_root : pml4_phys (space v' (PoolSpace slot)) ∉ R;
  ns_grows : grows R (pm v) (pm v');
  ns_empty va : 0 <= va < USER_LIMIT -> vmm_leaf_pte (pm v') (pml4_phys (space v' (PoolSpace slot))) va = 0;
  ns_count : refcount (space v' (PoolSpace slot)) = 1;
  ns_vmas : vmas (space v' (PoolSpace slot)) = empty_vmas;
}.

Lemma vmm_space_new_ok R X cpu v :
  mem_inv R X (pm v) -> length (g_pool v) = length (g_pool_used v) ->
  match vmm_space_new cpu v with
  | (Some sp, v') => exists slot, sp = PoolSpace slot /\ new_space R X v v' slot
  | (None, v') => mem_inv R X (pm v') /\ grows R (pm v) (pm v') /\ g_pool_used v' = g_pool_used v /\ g_pool v' = g_pool v
  end.
Proof.
  intros Hinv Hlens. pose proof (mi_tables _ _ _ Hinv) as Hs. unfold vmm_space_new. destruct (find_index negb (g_pool_used v)) as [slot|] eqn:Hfind.
  2:{ split_and!; [done|apply grows_refl|done|done]. }
  pose proof (find_unused _ _ Hfind) as Hfree. set (v1 := set_used slot true v). change (pm v1) with (pm v).
  destruct (tb_inv R (pm v) Hs) as [k Hok]. destruct (pmm_alloc_zeroed_ok cpu (pm v) k Hok) as [(k' & _ & Hok') Hz].
  pose proof (zeroed_tables R cpu (pm v) Hs) as Hzt.
  destruct (pmm_alloc_zeroed cpu (pm v)) as [[root|] m]; cbn [snd zeroed_spec] in *.
  2:{ destruct Hzt as (H1 & _ & H2). split_and!; try done; [by apply (grows_inv R X (pm v))|]. unfold v1, set_used, set_pm. cbn [g_pool_used].
      rewrite list_insert_insert_eq. by apply list_insert_id. }
  destruct Hz as (f & -> & Hf & Hsm & Hl0 & Hl & Hm). exists slot. split; [done|].
  assert (Hlen : (slot < length (g_pool v))%nat) by (rewrite Hlens; by eapply lookup_lt_Some).
  set (mm := copy_kernel_half _ _ _). set (v' := set_space _ _ _).
  assert (Hsp : space v' (PoolSpace slot) = mkSpace (page (pm v) f) (g_kernel_map_generation v) empty_vmas 1 0 0).
  { unfold v', space, set_space, set_pm, v1, set_used, aget. cbn [g_pool]. by rewrite list_lookup_insert_eq. }
  change (pm v') with mm in *.
  assert (Hnew : tables (page (pm v) f :: R) mm /\ grows R (pm v) mm /\ (forall va, 0 <= va < USER_LIMIT -> vmm_leaf_pte mm (page (pm v) f) va = 0) /\
    forall i, 0 <= i < 256 -> rd mm (page (pm v) f) i = 0).
  { destruct (copy_half_mem (page (pm v) f) (pml4_phys (g_kernel_space v)) (seqZ 256 256) m) as (m2 & Hmm & Hout); [intros i Hi%elem_of_seqZ; lia|].
    assert (Heq : mm = set_mem m2 m) by exact Hmm. rewrite Heq.
    assert (Hlf : live m f = 1) by (rewrite Hl; unfold upd; by rewrite Z.eqb_refl). assert (Hpg : page m f = page (pm v) f) by by apply same_page.
    assert (Hzero : forall i, 0 <= i < 256 -> rd (set_mem m2 m) (page (pm v) f) i = 0).
    { intros i Hi. unfold rd. cbn [set_mem mem]. rewrite Hout by lia. rewrite Hm. unfold zero_page, PAGE_SIZE.
      by rewrite (proj2 (Z.leb_le _ _)), (proj2 (Z.ltb_lt _ _)) by lia. }
    destruct (new_root_tables R (pm v) (set_mem m2 m) f) as (H1 & H2 & H3); try done.
    - exists k'. apply write_ok; [done|]. intros a. destruct (decide (page (pm v) f + 2048 <= a < page (pm v) f + 4096)); [right|left; by apply Hout].
      exists f. rewrite Hlf, Hpg. unfold PAGE_SIZE. lia.
    - intros a Ha. cbn [set_mem mem]. rewrite Hout by (unfold PAGE_SIZE in Ha; lia). rewrite Hm. unfold zero_page.
      destruct (_ && _) eqn:Hr; [dest_bool; lia|done]. }
  destruct Hnew as (H1 & H2 & H3 & H4). split; rewrite ?Hsp; cbn [pml4_phys refcount vmas]; try done.
  - intros [|i] Hi; [done|]. unfold v', space, set_space, set_pm, v1, set_used, aget. cbn [g_pool]. rewrite list_lookup_insert_ne; [done|congruence].
  - unfold v', set_space, set_pm, v1, set_used. cbn [g_pool]. by rewrite length_insert.
  - by apply (new_root_inv R X (pm v)).
  - intros Hin. assert (Ht : is_table R (pm v) (page (pm v) f)) by (exists (page (pm v) f), []; by split_and!).
    destruct (tb_page _ _ Hs _ Ht) as (g & Hg & Hlg). apply page_inj in Hg as <-. lia.
Qed.

(** ** The theorems *)

Lemma vmm_map_pm cpu sp virt phys flags v :
  let '(rc, v') := vmm_map cpu sp virt phys flags v in
  let '(ok, m) := map_page cpu (pml4_phys (space v sp)) virt phys flags (pm v) in
  pm v' = m /\ rc = if ok then 0 else -1.
Proof. unfold vmm_map. destruct (map_page _ _ _ _ _ _) as [[] m]; [|done]. by destruct (_ && _). Qed.

(** C30: mapping a page.  In spaces whose page tables form a tree, [vmm_map] of a
    user page either fails and changes no mapping, or the page was not mapped
    and now translates to the given frame with the given flags.  No other page
    of any space changes, page tables stay a tree, pages in use keep their
    references, and memory that is not a page table keeps its contents. *)
Theorem vmm_map_correct R cpu sp virt phys flags v :
  tables R (pm v) -> pml4_phys (space v sp) ∈ R -> 0 <= virt < USER_LIMIT -> is_page phys ->
  let root := pml4_phys (space v sp) in
  let '(rc, v') := vmm_map cpu sp virt phys flags v in
  tables R (pm v') /\ others_same R (pm v) (pm v') root virt /\ data_same R (pm v) (pm v') /\
  (forall f, 0 < live (pm v) f -> live (pm v') f = live (pm v) f) /\
  (rc = 0 /\ has (vmm_leaf_pte (pm v) root virt) VMM_PRESENT = false /\
   vmm_leaf_pte (pm v') root virt = make_pte phys flags /\ vmm_virt_to_phys (pm v') root virt = phys \/
   rc = -1 /\ vmm_leaf_pte (pm v') root virt = vmm_leaf_pte (pm v) root virt).
Proof.
  intros Hs Hr Hva Hph. cbv zeta. pose proof (vmm_map_pm cpu sp virt phys flags v) as Hpm.
  pose proof (map_page_changes R cpu (pm v) (pml4_phys (space v sp)) virt phys flags Hs Hr Hva) as H.
  destruct (vmm_map cpu sp virt phys flags v) as [rc v']. destruct (map_page _ _ _ _ _ _) as [ok m].
  destruct Hpm as [-> ->]. destruct H as [Hch Hok]. split; [apply Hch|]. split; [apply Hch|]. split; [exact (ch_data _ _ _ _ _ Hch)|].
  split; [exact (ch_live _ _ _ _ _ Hch)|]. destruct ok; [left|by right]. rewrite pte_addr_page in Hok by done. destruct Hok as [H1 H2].
  split_and!; try done. by rewrite virt_to_phys_leaf, H2, make_pte_present, make_pte_addr.
Qed.

(** C13: the check of a user buffer is exact.  [vmm_user_range_ok] terminates, and
    accepts a non-empty buffer exactly if it does not wrap around the address
    space and every byte of it lies in a page that is present, accessible to the
    user, and writable if it is to be written. *)
Theorem vmm_user_range_ok_correct s root virt len write :
  is_u64 virt -> is_u64 len -> 0 < len ->
  exists b, vmm_user_range_ok s root virt len write = Some b /\
  (b = true <-> virt + len < 2 ^ 64 /\ forall a, virt <= a < virt + len -> user_ok write (vmm_leaf_pte s root a) = true).
Proof. apply user_range_ok_spec. Qed.

(** C29: a copy-on-write fault isolates the page.  If the fault on a page with
    the copy-on-write mark succeeds, the page is writable and no longer
    marked, it maps a frame nobody else refers to, with the contents it had;
    no other mapping of any space and no other data page changes.  If memory is
    exhausted nothing changes. *)
Theorem vmm_handle_cow_fault_correct R cpu s root virt f :
  tables R s -> (cpu < MAX_CPUS)%nat -> root ∈ R -> 0 <= virt < USER_LIMIT ->
  let e := vmm_leaf_pte s root virt in
  has e VMM_PRESENT = true -> has e VMM_COW = true -> pte_addr e = page s f -> 0 < live s f -> ~ is_table R s (page s f) ->
  let '(res, s') := vmm_handle_cow_fault cpu root virt s in
  let e' := vmm_leaf_pte s' root virt in
  tables R s' /\ others_same R s s' root virt /\ data_same R s s' /\
  (res = 1 /\ has e' VMM_PRESENT = true /\ has e' VMM_WRITE = true /\ has e' VMM_COW = false /\
   (exists g, pte_addr e' = page s g /\ live s' g = 1) /\ same_content s s' (pte_addr e) (pte_addr e') \/
   res = -1 /\ e' = e).
Proof.
  intros Hs Hcpu Hr Hva. cbv zeta. intros Hp Hc Hpe Hlf Hnt.
  pose proof (cow_fault_ok R cpu s root virt f Hs Hcpu Hr Hva Hp Hc Hpe Hlf Hnt) as H.
  destruct (vmm_handle_cow_fault cpu root virt s) as [res s']. destruct H as (H1 & Hsm & H2 & H3 & Hcase).
  split; [done|]. split; [done|]. split; [done|]. destruct Hcase as [[-> [g Hg]]|(-> & He & _)]; [left|by right].
  destruct Hg as [Hl Ha Hct _ _]. assert (Hpg : is_page (page s g)).
  { rewrite <-(same_page s s' g Hsm). apply (page_is_page s' g (tb_inv R s' H1)). lia. }
  rewrite Hl, has_write, has_cow, !make_pte_flag, !cow_flags_testbit, make_pte_addr, Hpe by (done || lia).
  split_and!; try done; [by apply make_pte_present|by exists g].
Qed.

Lemma child_flags_bits e mf :
  Z.testbit (child_flags e mf) 1 = has e VMM_WRITE && has mf VMA_MAP_SHARED /\
  Z.testbit (child_flags e mf) 2 = has e VMM_USER /\
  (private_write e mf = true -> Z.testbit (child_flags e mf) 9 = true).
Proof.
  assert (Hf : forall k, 0 <= k < 12 -> Z.testbit (Z.land e PTE_FLAGS_MASK) k = Z.testbit e k).
  { intros k Hk. rewrite Z.land_spec, flags_mask_testbit, (proj2 (Z.ltb_lt k 12)) by lia. by rewrite andb_true_r. }
  unfold child_flags. destruct (private_write e mf) eqn:Hpw; unfold private_write in Hpw; rewrite has_write, Hf in Hpw by lia.
  - rewrite !Z.lor_spec, !clear_bits_low, !Hf by lia. apply andb_true_iff in Hpw as [Hw Hn]. apply negb_true_iff in Hn.
    rewrite has_write, has_user, Hn, Hw. change VMM_WRITE with (2 ^ 1). change VMM_COW with (2 ^ 9).
    rewrite (Z.pow2_bits_false 1 2), (Z.pow2_bits_false 9 2), (Z.pow2_bits_true 1), (Z.pow2_bits_false 9 1), (Z.pow2_bits_true 9) by lia.
    cbn [negb andb orb]. by rewrite !andb_true_r, !orb_false_r, orb_true_r.
  - rewrite !Hf, has_write, has_user by lia. split_and!; try done.
    apply andb_false_iff in Hpw as [->|Hpw]; [done|]. apply negb_false_iff in Hpw as ->. by rewrite andb_true_r.
Qed.

(** The state of one page after a fork: [e] is the entry of the parent before,
    [e1] and [e2] the entries of the parent and of the child after. *)
Record forked_page (vmas : vma_table) s s' (va e e1 e2 : Z) : Prop := {
  fp_present : has e2 VMM_PRESENT = has e VMM_PRESENT;
  fp_user : has e VMM_PRESENT = true -> has e2 VMM_USER = has e VMM_USER;
  fp_content : has e VMM_PRESENT = true -> same_content s s' (pte_addr e) (pte_addr e2);
  fp_parent : has e VMM_PRESENT = true -> pte_addr e1 = pte_addr e;
  fp_private mf : has e VMM_PRESENT = true -> pte_addr e2 = pte_addr e1 -> shareable vmas va = Some mf ->
    has mf VMA_MAP_SHARED = false -> has e1 VMM_WRITE = false /\ has e2 VMM_WRITE = false /\
    (has e VMM_WRITE = true -> has e1 VMM_COW = true /\ has e2 VMM_COW = true);
  fp_tracked : has e VMM_PRESENT = true -> pte_addr e2 = pte_addr e1 -> shareable vmas va <> None;
}.

Lemma page_forked_page R src dst vmas s s' va f :
  pmm_inv s -> pmm_inv s' -> same_memory s s' -> page_forked R src dst vmas s s' va ->
  (has (vmm_leaf_pte s src va) VMM_PRESENT = true -> data_page R s (vmm_leaf_pte s src va) f) ->
  forked_page vmas s s' va (vmm_leaf_pte s src va) (vmm_leaf_pte s' src va) (vmm_leaf_pte s' dst va).
Proof.
  intros Hi Hi' Hsm H Hdata. unfold page_forked in H. cbv zeta in H. set (e := vmm_leaf_pte s src va) in *.
  destruct (has e VMM_PRESENT) eqn:Hp.
  2:{ destruct H as [-> ->]. split; rewrite ?Hp; done. }
  destruct (Hdata eq_refl) as (Hpe & Hlf & _). destruct H as (g & Hl & _ & Hc & Hcase).
  assert (Hpg : is_page (page s g)) by (rewrite <-(same_page s s' g Hsm); by apply (page_is_page s' g Hi')).
  assert (Hpp : is_page (pte_addr e)) by (rewrite Hpe; by apply page_is_page).
  destruct Hcase as [[-> -> Hl0]|[Hsame (mf & Hmf & -> & He1)]].
  - assert (Hne : page s g <> pte_addr e) by (rewrite Hpe; intros Heq%page_inj; subst g; lia).
    split; rewrite ?make_pte_addr by done; try done.
    + by rewrite make_pte_present.
    + intros _. rewrite !has_user, make_pte_flag, Z.land_spec, flags_mask_testbit by (done || lia). by rewrite andb_true_r.
  - destruct (child_flags_bits e mf) as (B1 & B2 & B9). rewrite <-Hsame in He1 |- *.
    assert (Ha1 : pte_addr (vmm_leaf_pte s' src va) = page s g) by (rewrite He1; destruct (private_write e mf); [by rewrite make_pte_addr|by rewrite Hsame]).
    split; rewrite ?make_pte_addr by done; try done.
    + by rewrite make_pte_present.
    + intros _. by rewrite has_user, make_pte_flag, B2 by (done || lia).
    + intros _. by rewrite Ha1.
    + intros mf' _ _ Hmf' Hpriv. rewrite Hmf in Hmf'. injection Hmf' as <-. rewrite Hpriv, andb_false_r in B1.
      assert (Hpw : private_write e mf = has e VMM_WRITE).
      { unfold private_write. rewrite Hpriv, has_write, Z.land_spec, flags_mask_testbit, andb_true_r, andb_true_r, has_write by lia. done. }
      rewrite !has_write, !has_cow, He1, Hpw in *. rewrite make_pte_flag, B1 by (done || lia).
      destruct (Z.testbit e 1) eqn:Hw; [|done]. rewrite !make_pte_flag, B1, B9 by (done || lia). done.
    + congruence.
Qed.
(** The spaces after the vmas of the parent were copied to the child. *)
Lemma fork_with_spaces entry (i j : nat) v :
  pml4_phys (space v (PoolSpace i)) <> pml4_phys (space v (PoolSpace j)) -> (j < length (g_pool v))%nat ->
  let src := pml4_phys (space v (PoolSpace i)) in
  let dst := pml4_phys (space v (PoolSpace j)) in
  let t := vmas (space v (PoolSpace i)) in
  let '(rc, v') := fork_with entry (PoolSpace j) (PoolSpace i) v in
  let '(ok, m) := fork_walk (entry t dst) src (pm v) in
  rc = (if ok then 0 else -1) /\ pm v' = m /\ vmas (space v' (PoolSpace j)) = t /\
  (forall sp, sp <> PoolSpace j -> space v' sp = space v sp).
Proof.
  intros Hne Hj. cbv zeta. unfold fork_with. assert (Hij : i <> j) by congruence.
  set (v1 := set_space (PoolSpace j) _ v).
  assert (Hi1 : space v1 (PoolSpace i) = space v (PoolSpace i)).
  { unfold v1, set_space, space, aget. cbn [g_pool]. by rewrite list_lookup_insert_ne. }
  assert (Hj1 : space v1 (PoolSpace j) = set_vmas (vmas (space v (PoolSpace i))) (space v (PoolSpace j))).
  { unfold v1 at 1, set_space, space at 1, aget. cbn [g_pool]. by rewrite list_lookup_insert_eq. }
  rewrite Hi1, Hj1. change (pm v1) with (pm v). cbn [set_vmas pml4_phys].
  destruct (fork_walk _ _ _) as [ok m]. split; [done|]. split; [done|].
  change (space (set_pm m v1)) with (space v1). rewrite Hj1. split; [done|].
  intros [|k] Hk; [done|]. unfold v1, set_space, space, aget. cbn [g_pool]. rewrite list_lookup_insert_ne; [done|congruence].
Qed.

(** C4: fork with copy-on-write gives the child the parent's memory.  If
    [vmm_fork_user_cow] succeeds, the child has the same pages present, with the
    same contents and user access, and the parent keeps its frames.  A page the
    two share is tracked by a vma, and if its mapping is private neither of them
    can write it, and if it was writable both have the copy-on-write mark, so
    that the first write takes a private copy.  No other space and no data page
    changes.  If memory runs out the page tables still form a tree. *)
Theorem vmm_fork_user_cow_correct R X cpu (i j : nat) v :
  let src := pml4_phys (space v (PoolSpace i)) in
  let dst := pml4_phys (space v (PoolSpace j)) in
  let t := vmas (space v (PoolSpace i)) in
  mem_inv R X (pm v) -> (cpu < MAX_CPUS)%nat -> src ∈ R -> dst ∈ R -> src <> dst -> (j < length (g_pool v))%nat ->
  (forall va, 0 <= va < USER_LIMIT -> vmm_leaf_pte (pm v) dst va = 0) ->
  let '(rc, v') := vmm_fork_user_cow cpu (PoolSpace j) (PoolSpace i) v in
  mem_inv R X (pm v') /\ vmas (space v' (PoolSpace j)) = t /\ (forall sp, sp <> PoolSpace j -> space v' sp = space v sp) /\
  (rc = 0 /\
   (forall va, 0 <= va < USER_LIMIT -> va mod 4096 = 0 ->
     forked_page t (pm v) (pm v') va (vmm_leaf_pte (pm v) src va) (vmm_leaf_pte (pm v') src va) (vmm_leaf_pte (pm v') dst va)) /\
   (forall r va, r ∈ R -> 0 <= va < USER_LIMIT -> r <> src -> r <> dst -> vmm_leaf_pte (pm v') r va = vmm_leaf_pte (pm v) r va) /\
   data_same R (pm v) (pm v') \/
   rc = -1).
Proof.
  cbv zeta. intros Hs Hcpu Hsrc Hdst Hne Hj Hempty.
  pose proof (fork_with_spaces (fork_entry_cow cpu) i j v Hne Hj) as Hw. cbv zeta in Hw. unfold vmm_fork_user_cow.
  destruct (fork_with _ _ _ v) as [rc v'].
  pose proof (fork_cow_ok R cpu Hcpu X (vmas (space v (PoolSpace i))) _ _ Hsrc Hdst Hne (pm v) Hs Hempty) as Hok.
  destruct (fork_walk _ _ (pm v)) as [ok m]. destruct Hw as (-> & -> & Hv & Hsp).
  destruct ok; [|split_and!; [apply Hok|done|done|by right]].
  destruct Hok as [H1 H2 _ H4 H5 _ H7 _]. split; [done|]. split; [done|]. split; [done|]. left. split; [done|]. split; [|done].
  intros va Hva Hal. assert (Hpn : va = 4096 * (va / 4096)) by (apply Z_div_exact_full_2; lia).
  assert (Hf : page_forked R (pml4_phys (space v (PoolSpace i))) (pml4_phys (space v (PoolSpace j))) (vmas (space v (PoolSpace i))) (pm v) m va).
  { rewrite Hpn. apply H4. unfold NPAGES. unfold USER_LIMIT in Hva. lia. }
  destruct (has (vmm_leaf_pte (pm v) (pml4_phys (space v (PoolSpace i))) va) VMM_PRESENT) eqn:Hp.
  - destruct (mi_data_page R X (pm v) _ va Hs Hsrc Hva Hp) as [f Hdf]. apply (page_forked_page R _ _ _ (pm v) m va f); try done; [apply Hs|apply H1].
  - apply (page_forked_page R _ _ _ (pm v) m va 0); try done; [apply Hs|apply H1|congruence].
Qed.

(** The spaces after one reference was dropped. *)
Record space_released (slot : nat) v v' : Prop := {
  sr_count : refcount (space v' (PoolSpace slot)) = refcount (space v (PoolSpace slot)) - 1;
  sr_root : pml4_phys (space v' (PoolSpace slot)) = pml4_phys (space v (PoolSpace slot));
  sr_vmas : vmas (space v' (PoolSpace slot)) = vmas (space v (PoolSpace slot));
  sr_other sp : sp <> PoolSpace slot -> space v' sp = space v sp;
  sr_pool : length (g_pool v') = length (g_pool v);
  sr_mem : mem (pm v') = mem (pm v);
  sr_same : same_memory (pm v) (pm v');
}.

Lemma vmm_space_free_ok R X cpu slot v :
  let sp := PoolSpace slot in
  let root := pml4_phys (space v sp) in
  let v' := vmm_space_free cpu sp v in
  (cpu < MAX_CPUS)%nat -> mem_inv (root :: R) X (pm v) -> root ∉ R -> (slot < length (g_pool v))%nat -> 0 < refcount (space v sp) < 2 ^ 32 ->
  space_released slot v v' /\
  if refcount (space v sp) =? 1
  then mem_inv R X (pm v') /\ (forall f, live (pm v') f = live (pm v) f - refs_to (pm v) (space_pages (mem (pm v)) root) f) /\
    g_pool_used v' = <[slot := false]> (g_pool_used v)
  else pm v' = pm v /\ g_pool_used v' = g_pool_used v.
Proof.
  cbv zeta. intros Hcpu Hinv Hroot Hslot Hrc. unfold vmm_space_free. set (x := space v (PoolSpace slot)) in *.
  set (v1 := set_space _ _ v). assert (Hx : space v1 (PoolSpace slot) = set_refcount (u32 (refcount x - 1)) x).
  { unfold v1, set_space, space, aget. cbn [g_pool]. by rewrite list_lookup_insert_eq. }
  assert (Hu : u32 (refcount x - 1) = refcount x - 1) by (apply Z.mod_small; lia).
  assert (Hrel : forall w, (forall sp, space w sp = space v1 sp) -> length (g_pool w) = length (g_pool v1) -> mem (pm w) = mem (pm v) -> same_memory (pm v) (pm w) -> space_released slot v w).
  { intros w Hw Hlen Hm Hsm. split; rewrite ?Hw, ?Hx; try done.
    - intros sp Hne. rewrite Hw. destruct sp as [|k]; [done|]. unfold v1, set_space, space, aget. cbn [g_pool]. rewrite list_lookup_insert_ne; [done|congruence].
    - rewrite Hlen. unfold v1, set_space. cbn [g_pool]. apply length_insert. }
  destruct (Z.eqb_spec (refcount x) 1) as [H1|H1]; cbn [negb]; [|split; [by apply Hrel|done]].
  rewrite Hx. change (pm v1) with (pm v). cbn [set_refcount pml4_phys].
  destruct (free_space_ok R X cpu (pml4_phys x) (pm v) Hcpu Hinv Hroot) as (G1 & G2 & G4 & G3). cbv zeta in G1, G2, G3.
  split; [|done]. by apply Hrel.
Qed.

(** releasing a space.  Dropping the last reference releases one reference for
    each page the space maps and for each of its page tables, the root included,
    and marks the slot unused; no memory is written, and the remaining spaces
    and the kernel still hold a reference for each of their mappings.  As long as
    another reference to the space remains, only the count changes. *)
Theorem vmm_space_free_correct R X cpu slot v :
  let sp := PoolSpace slot in
  let root := pml4_phys (space v sp) in
  let v' := vmm_space_free cpu sp v in
  (cpu < MAX_CPUS)%nat -> mem_inv (root :: R) X (pm v) -> root ∉ R -> (slot < length (g_pool v))%nat -> 0 < refcount (space v sp) < 2 ^ 32 ->
  mem (pm v') = mem (pm v) /\ refcount (space v' sp) = refcount (space v sp) - 1 /\
  if refcount (space v sp) =? 1
  then mem_inv R X (pm v') /\ (forall f, live (pm v') f = live (pm v) f - refs_to (pm v) (space_pages (mem (pm v)) root) f) /\
    g_pool_used v' = <[slot := false]> (g_pool_used v)
  else pm v' = pm v /\ g_pool_used v' = g_pool_used v.
Proof.
  cbv zeta. intros Hcpu Hinv Hroot Hslot Hrc. destruct (vmm_space_free_ok R X cpu slot v Hcpu Hinv Hroot Hslot Hrc) as [[H1 _ _ _ _ H2 _] H3]. done.
Qed.
End spaces.

(** ** Two spaces with a page *)

Section example.
Context `{FA : FrameAllocator A} (v : vmm_t A).

(** Two new spaces, a new page, and the page mapped at [0x400000] in the first. *)
Definition ex_v1 : vmm_t A := (vmm_space_new 0 v).2.
Definition ex_v2 : vmm_t A := (vmm_space_new 0 ex_v1).2.
Definition ex_r0 : Z := pml4_phys (space ex_v1 (PoolSpace 0)).
Definition ex_r1 : Z := pml4_phys (space ex_v2 (PoolSpace 1)).
Definition ex_frame : Z := default 0 (pmm_alloc_zeroed 0 (pm ex_v2)).1.
Definition ex_m : pmm_t A := (pmm_alloc_zeroed 0 (pm ex_v2)).2.
Definition ex_va : Z := 0x400000.
Definition ex_mapped (flags : Z) : pmm_t A := (map_page 0 ex_r0 ex_va ex_frame flags ex_m).2.

(** The page is private and writable. *)
Definition ex_v3 : vmm_t A :=
  set_space (PoolSpace 0) (set_vmas (<[0%nat := mk_vma 0x400000 0x401000 3 0x02 true true]> empty_vmas) (space ex_v2 (PoolSpace 0)))
    (set_pm (ex_mapped (Z.lor VMM_USER VMM_WRITE)) ex_v2).

Lemma ex_v3_pm : pm ex_v3 = ex_mapped (Z.lor VMM_USER VMM_WRITE).
Proof. done. Qed.

(** Every operation succeeded. *)
Definition ex_ok (flags : Z) : bool :=
  match (vmm_space_new 0 v).1, (vmm_space_new 0 ex_v1).1, (pmm_alloc_zeroed 0 (pm ex_v2)).1 with
  | Some (PoolSpace 0), Some (PoolSpace 1), Some _ =>
      (map_page 0 ex_r0 ex_va ex_frame flags ex_m).1
  | _, _, _ => false
  end.

Lemma pair_of {X Y : Type} (p : X * Y) x : p.1 = x -> p = (x, p.2).
Proof. destruct p. cbn. by intros ->. Qed.

Lemma two_spaces flags :
  mem_inv [] [] (pm v) -> length (g_pool v) = length (g_pool_used v) -> ex_ok flags = true ->
  let r0 := ex_r0 in let r1 := ex_r1 in let m' := ex_mapped flags in
  r1 <> r0 /\ mem_inv [r1; r0] [] m' /\ (forall a, 0 <= a < USER_LIMIT -> vmm_leaf_pte m' r1 a = 0) /\
  vmm_leaf_pte m' r0 ex_va = make_pte ex_frame flags /\ is_page ex_frame.
Proof.
  intros H0 Hlens Hok. cbv zeta. unfold ex_ok in Hok. assert (Hva : 0 <= ex_va < USER_LIMIT) by (unfold ex_va, USER_LIMIT; lia).
  destruct (vmm_space_new 0 v).1 as [[|[|]]|] eqn:E1; try done. destruct (vmm_space_new 0 ex_v1).1 as [[|[|[|]]]|] eqn:E2; try done.
  destruct (pmm_alloc_zeroed 0 (pm ex_v2)).1 as [frame|] eqn:E3; [|done].
  assert (Hfr : ex_frame = frame) by (unfold ex_frame; by rewrite E3). apply pair_of in E1, E2, E3, Hok as E4.
  change ((vmm_space_new 0 v).2) with ex_v1 in E1. change ((vmm_space_new 0 ex_v1).2) with ex_v2 in E2. change ((pmm_alloc_zeroed 0 (pm ex_v2)).2) with ex_m in E3.
  change ((map_page 0 ex_r0 ex_va ex_frame flags ex_m).2) with (ex_mapped flags) in E4. rewrite Hfr in E4 |- *. clear Hfr Hok.
  pose proof (vmm_space_new_ok [] [] 0 v H0 Hlens) as H1. rewrite E1 in H1. destruct H1 as (s1 & Hs1 & H1). injection Hs1 as <-.
  assert (Hlens1 : length (g_pool ex_v1) = length (g_pool_used ex_v1)).
  { rewrite (ns_pool _ _ _ _ _ H1), (ns_used _ _ _ _ _ H1), length_insert. done. }
  pose proof (ns_inv _ _ _ _ _ H1) as T1. fold ex_r0 in T1.
  pose proof (vmm_space_new_ok [ex_r0] [] 0 ex_v1 T1 Hlens1) as H2. rewrite E2 in H2. destruct H2 as (s1 & Hs1 & H2). injection Hs1 as <-.
  pose proof (ns_inv _ _ _ _ _ H2) as T2. pose proof (ns_root _ _ _ _ _ H2) as Hne. pose proof (ns_empty _ _ _ _ _ H2) as L2. fold ex_r1 in T2, Hne, L2.
  pose proof (alloc_zeroed_inv [ex_r1; ex_r0] [] 0 (pm ex_v2) T2) as H3. rewrite E3 in H3. destruct H3 as (f & -> & _ & T3 & G3 & _).
  assert (Hps : page ex_m f = page (pm ex_v2) f) by apply same_page, G3.
  assert (Hr0 : ex_r0 ∈ [ex_r1; ex_r0]) by (right; left).
  pose proof (map_inv [ex_r1; ex_r0] [] 0 ex_m ex_r0 ex_va f flags T3 Hr0 Hva) as H4. rewrite Hps, E4 in H4. destruct H4 as (T4 & Hch & _ & Hleaf).
  assert (Hne' : ex_r1 <> ex_r0) by (intros Heq; apply Hne; rewrite Heq; left).
  assert (Hr1 : ex_r1 ∈ [ex_r1; ex_r0]) by left. split_and!; try done.
  - intros a Ha. rewrite (ch_others _ _ _ _ _ Hch) by (done || by left). rewrite (grows_pte [ex_r1; ex_r0] (pm ex_v2)) by done. by apply L2.
  - rewrite <-Hps. eapply mi_page_nz; [exact T3|]. eapply mi_spare_live; [exact T3|left].
Qed.
End example.

Definition demo_v0 : vmm_t llfree_t :=
  mkVmm llfree_t demo_pmm (mkSpace 0x8000 0 empty_vmas 1 0 0) (replicate VMM_MAX_SPACES zero_space) (replicate VMM_MAX_SPACES false) 0.

Lemma demo_inv0 : mem_inv [] [] demo_pmm.
Proof. exact (inv_empty demo_pmm (pmm_reach_inv _ demo_pmm_reach)). Qed.

Lemma demo_ok_write : ex_ok demo_v0 (Z.lor VMM_USER VMM_WRITE) = true.
Proof. vm_compute. reflexivity. Qed.

Lemma demo_ok_cow : ex_ok demo_v0 (Z.lor VMM_USER VMM_COW) = true.
Proof. vm_compute. reflexivity. Qed.

Definition demo_v : vmm_t llfree_t := ex_v3 demo_v0.
Definition demo_roots : list Z := [ex_r1 demo_v0; ex_r0 demo_v0].

Lemma demo_root0 : pml4_phys (space demo_v (PoolSpace 0)) = ex_r0 demo_v0.
Proof. apply Z.eqb_eq. vm_compute. reflexivity. Qed.

Lemma demo_root1 : pml4_phys (space demo_v (PoolSpace 1)) = ex_r1 demo_v0.
Proof. apply Z.eqb_eq. vm_compute. reflexivity. Qed.

Lemma demo_lens : length (g_pool demo_v0) = length (g_pool_used demo_v0).
Proof. reflexivity. Qed.

Lemma demo_spaces :
  ex_r1 demo_v0 <> ex_r0 demo_v0 /\ mem_inv demo_roots [] (pm demo_v) /\ is_page (ex_frame demo_v0) /\
  (forall a, 0 <= a < USER_LIMIT -> vmm_leaf_pte (pm demo_v) (ex_r1 demo_v0) a = 0).
Proof.
  unfold demo_v. rewrite ex_v3_pm. destruct (two_spaces demo_v0 _ demo_inv0 demo_lens demo_ok_write) as (H1 & H2 & H3 & _ & H4).
  exact (conj H1 (conj H2 (conj H4 H3))).
Qed.

Lemma demo_pool : (1 < length (g_pool demo_v))%nat.
Proof. apply Nat.ltb_lt. vm_compute. reflexivity. Qed.

Lemma vmm_map_correct_witness :
  let v := demo_v in let R := demo_roots in let sp := PoolSpace 1 in let virt := 0x7000 in let phys := ex_frame demo_v0 in let flags := VMM_USER in
  let root := pml4_phys (space v sp) in
  let '(rc, v') := vmm_map 0 sp virt phys flags v in
  tables R (pm v') /\ others_same R (pm v) (pm v') root virt /\ data_same R (pm v) (pm v') /\
  (forall f, 0 < live (pm v) f -> live (pm v') f = live (pm v) f) /\
  (rc = 0 /\ has (vmm_leaf_pte (pm v) root virt) VMM_PRESENT = false /\
   vmm_leaf_pte (pm v') root virt = make_pte phys flags /\ vmm_virt_to_phys (pm v') root virt = phys \/
   rc = -1 /\ vmm_leaf_pte (pm v') root virt = vmm_leaf_pte (pm v) root virt).
Proof.
  cbv zeta. assert (Hr : pml4_phys (space demo_v (PoolSpace 1)) ∈ demo_roots) by (rewrite demo_root1; left).
  assert (Hva : 0 <= 0x7000 < USER_LIMIT) by (unfold USER_LIMIT; lia).
  pose proof (vmm_map_correct demo_roots 0 (PoolSpace 1) 0x7000 (ex_frame demo_v0) VMM_USER demo_v
    (mi_tables _ _ _ (proj1 (proj2 demo_spaces))) Hr Hva (proj1 (proj2 (proj2 demo_spaces)))) as H. cbv zeta in H. exact H.
Defined.

Lemma vmm_user_range_ok_correct_witness :
  exists b, vmm_user_range_ok (pm demo_v) (ex_r0 demo_v0) 0x400ff0 16 true = Some b /\
  (b = true <-> 0x400ff0 + 16 < 2 ^ 64 /\
    forall a, 0x400ff0 <= a < 0x400ff0 + 16 -> user_ok true (vmm_leaf_pte (pm demo_v) (ex_r0 demo_v0) a) = true).
Proof. apply (vmm_user_range_ok_correct (pm demo_v) (ex_r0 demo_v0) 0x400ff0 16 true); unfold is_u64; lia. Defined.

(** The page marked copy-on-write. *)
Definition demo_cow : pmm_t llfree_t := ex_mapped demo_v0 (Z.lor VMM_USER VMM_COW).

Lemma demo_cow_entry :
  let e := vmm_leaf_pte demo_cow (ex_r0 demo_v0) ex_va in
  (has e VMM_PRESENT && has e VMM_COW && (pte_addr e =? page demo_cow 29) && (0 <? live demo_cow 29)) = true.
Proof. vm_compute. reflexivity. Qed.

Lemma demo_cow_inv : mem_inv demo_roots [] demo_cow.
Proof. destruct (two_spaces demo_v0 _ demo_inv0 demo_lens demo_ok_cow) as (_ & Ht & _). exact Ht. Qed.

Lemma demo_cow_ok :
  let e := vmm_leaf_pte demo_cow (ex_r0 demo_v0) ex_va in
  tables demo_roots demo_cow /\ has e VMM_PRESENT = true /\ has e VMM_COW = true /\ pte_addr e = page demo_cow 29 /\
  0 < live demo_cow 29 /\ ~ is_table demo_roots demo_cow (page demo_cow 29).
Proof.
  pose proof demo_cow_entry as H. cbv zeta in H |- *. apply andb_true_iff in H as [[[Hp Hc]%andb_true_iff Ha]%andb_true_iff Hl].
  apply Z.eqb_eq in Ha. apply Z.ltb_lt in Hl.
  assert (Hva : 0 <= ex_va < USER_LIMIT) by (unfold ex_va, USER_LIMIT; lia).
  assert (Hr : ex_r0 demo_v0 ∈ demo_roots) by (right; left).
  destruct (mi_data_page demo_roots [] demo_cow (ex_r0 demo_v0) ex_va demo_cow_inv Hr Hva Hp) as (f & Hpf & _ & Hnt). rewrite <-Hpf, Ha in Hnt.
  exact (conj (mi_tables _ _ _ demo_cow_inv) (conj Hp (conj Hc (conj Ha (conj Hl Hnt))))).
Qed.

Lemma vmm_handle_cow_fault_correct_witness :
  let s := demo_cow in let root := ex_r0 demo_v0 in let virt := ex_va in let R := demo_roots in
  let e := vmm_leaf_pte s root virt in
  let '(res, s') := vmm_handle_cow_fault 2 root virt s in
  let e' := vmm_leaf_pte s' root virt in
  tables R s' /\ others_same R s s' root virt /\ data_same R s s' /\
  (res = 1 /\ has e' VMM_PRESENT = true /\ has e' VMM_WRITE = true /\ has e' VMM_COW = false /\
   (exists g, pte_addr e' = page s g /\ live s' g = 1) /\ same_content s s' (pte_addr e) (pte_addr e') \/
   res = -1 /\ e' = e).
Proof.
  cbv zeta. destruct demo_cow_ok as (H1 & H2 & H3 & H4 & H5 & H6). cbv zeta in *.
  assert (Hcpu : (2 < MAX_CPUS)%nat) by (unfold MAX_CPUS; lia). assert (Hr : ex_r0 demo_v0 ∈ demo_roots) by (right; left).
  assert (Hva : 0 <= ex_va < USER_LIMIT) by (unfold ex_va, USER_LIMIT; lia).
  pose proof (vmm_handle_cow_fault_correct demo_roots 2 demo_cow (ex_r0 demo_v0) ex_va 29 H1 Hcpu Hr Hva H2 H3 H4 H5 H6) as H.
  cbv zeta in H. exact H.
Defined.

Lemma vmm_fork_user_cow_correct_witness :
  let v := demo_v in let R := demo_roots in
  let src := pml4_phys (space v (PoolSpace 0)) in
  let dst := pml4_phys (space v (PoolSpace 1)) in
  let t := vmas (space v (PoolSpace 0)) in
  let '(rc, v') := vmm_fork_user_cow 0 (PoolSpace 1) (PoolSpace 0) v in
  mem_inv R [] (pm v') /\ vmas (space v' (PoolSpace 1)) = t /\ (forall sp, sp <> PoolSpace 1 -> space v' sp = space v sp) /\
  (rc = 0 /\
   (forall va, 0 <= va < USER_LIMIT -> va mod 4096 = 0 ->
     forked_page t (pm v) (pm v') va (vmm_leaf_pte (pm v) src va) (vmm_leaf_pte (pm v') src va) (vmm_leaf_pte (pm v') dst va)) /\
   (forall r va, r ∈ R -> 0 <= va < USER_LIMIT -> r <> src -> r <> dst -> vmm_leaf_pte (pm v') r va = vmm_leaf_pte (pm v) r va) /\
   data_same R (pm v) (pm v') \/
   rc = -1).
Proof.
  cbv zeta. destruct demo_spaces as (H1 & H2 & _ & H3). rewrite <-demo_root0, <-demo_root1 in *.
  assert (Hcpu : (0 < MAX_CPUS)%nat) by (unfold MAX_CPUS; lia).
  assert (Hr : ex_r0 demo_v0 ∈ demo_roots) by (right; left). assert (Hr1 : ex_r1 demo_v0 ∈ demo_roots) by left.
  rewrite <-demo_root0 in Hr. rewrite <-demo_root1 in Hr1.
  pose proof (vmm_fork_user_cow_correct demo_roots [] 0 0 1 demo_v H2 Hcpu Hr Hr1 (not_eq_sym H1) demo_pool H3) as H.
  cbv zeta in H. exact H.
Defined.

Lemma vmm_space_free_correct_witness :
  let v := demo_v in let sp := PoolSpace 0 in let R := [ex_r1 demo_v0] in
  let root := pml4_phys (space v sp) in
  let v' := vmm_space_free 1 sp v in
  mem (pm v') = mem (pm v) /\ refcount (space v' sp) = refcount (space v sp) - 1 /\
  if refcount (space v sp) =? 1
  then mem_inv R [] (pm v') /\ (forall f, live (pm v') f = live (pm v) f - refs_to (pm v) (space_pages (mem (pm v)) root) f) /\
    g_pool_used v' = <[0%nat := false]> (g_pool_used v)
  else pm v' = pm v /\ g_pool_used v' = g_pool_used v.
Proof.
  cbv zeta. destruct demo_spaces as (Hne & Hi & _). assert (Hp : [ex_r1 demo_v0; ex_r0 demo_v0] ≡ₚ [ex_r0 demo_v0; ex_r1 demo_v0]) by apply Permutation_swap.
  pose proof (mem_inv_perm _ _ _ _ Hp Hi) as Hi'. rewrite <-demo_root0 in Hi', Hne.
  assert (Hn : pml4_phys (space demo_v (PoolSpace 0)) ∉ [ex_r1 demo_v0]) by (intros Hin%list_elem_of_singleton; by apply Hne).
  assert (Hrc : 0 < refcount (space demo_v (PoolSpace 0)) < 2 ^ 32) by (split; [apply Z.ltb_lt|apply Z.ltb_lt]; vm_compute; reflexivity).
  assert (Hcpu : (1 < MAX_CPUS)%nat) by (unfold MAX_CPUS; lia). pose proof demo_pool as Hp0.
  pose proof (vmm_space_free_correct [ex_r1 demo_v0] [] 1 0 demo_v Hcpu Hi' Hn (Nat.lt_trans 0 1 _ (Nat.lt_succ_diag_r 0) Hp0) Hrc) as H.
  cbv zeta in H. exact H.
Defined.
