(* ===== verification/MemSys.v ===== *)
(** * The memory system calls.

    Models [kernel/syscall/mem.c] ([brk], [mmap], [munmap], [mprotect],
    [mremap]), the user page fault handler of [kernel/arch/x86_64/idt.c] and the
    address-space part of [fork], [clone] and [exit] in
    [kernel/syscall/procctl.c], on the address spaces of [Vmm.v] and the tables
    of mappings of [Vma.v].  A process is the fields of [proc_t] these use.
    Mappings of shared memory files share the pages of [Shmem.v]; the [mmap]
    operation of a device is an argument.  [None] stands for a loop that ran out
    of fuel or an access outside an array; [MemSafe.v] shows that it does not
    occur. *)

From S2P Require Import Prelude Bits Bytes Words Bitfield Vma Lower LLFree Pmm Vmm Shmem.

Definition MAP_SHARED : Z := 0x01.
Definition MAP_PRIVATE : Z := 0x02.
Definition MAP_FIXED : Z := 0x10.
Definition MAP_ANON : Z := 0x20.
Definition MREMAP_MAYMOVE : Z := 1.
Definition MREMAP_FIXED : Z := 2.
Definition EBADF : Z := 9.
Definition EAGAIN : Z := 11.
Definition EACCES : Z := 13.
Definition VMM_UDATA : Z := Z.lor (Z.lor (Z.lor VMM_PRESENT VMM_WRITE) VMM_USER) VMM_NX.
Definition USER_STACK_TOP : Z := 0x7fffffff0000.
Definition USER_STACK_GROW_BASE : Z := 0x7ffff0000000.
Definition USER_STACK_GROW_SLOP_PAGES : Z := 32.

#[global] Instance space_ref_eq_dec : EqDecision space_ref.
Proof. solve_decision. Defined.

Record mm_proc := mkProc {
  p_space : option space_ref;
  p_brk : Z;
  p_brk_base : Z;
  p_mmap_bump : Z;
  p_pages_alloc : Z;
  p_pages_freed : Z;
}.

Definition set_brk (x : Z) (p : mm_proc) : mm_proc := mkProc (p_space p) x (p_brk_base p) (p_mmap_bump p) (p_pages_alloc p) (p_pages_freed p).
Definition set_bump (x : Z) (p : mm_proc) : mm_proc := mkProc (p_space p) (p_brk p) (p_brk_base p) x (p_pages_alloc p) (p_pages_freed p).
Definition add_alloc (n : Z) (p : mm_proc) : mm_proc :=
  mkProc (p_space p) (p_brk p) (p_brk_base p) (p_mmap_bump p) (u64 (p_pages_alloc p + n)) (p_pages_freed p).
Definition add_freed (n : Z) (p : mm_proc) : mm_proc :=
  mkProc (p_space p) (p_brk p) (p_brk_base p) (p_mmap_bump p) (p_pages_alloc p) (u64 (p_pages_freed p + n)).

Definition syscall_set_brk (brk_base : Z) (p : mm_proc) : mm_proc :=
  let b := PAGE_ALIGN_UP brk_base in mkProc (p_space p) b b (p_mmap_bump p) (p_pages_alloc p) (p_pages_freed p).

(** The values of [o] in [for (o = 0; o < len; o += PAGE_SIZE)]. *)
Definition page_offsets (len : Z) : list Z := Z.mul PAGE_SIZE <$> seqZ 0 ((len + PAGE_SIZE - 1) / PAGE_SIZE).

Definition user_map_range_ok (addr len : Z) : bool :=
  if (len =? 0) || has addr (PAGE_SIZE - 1) then false else
  if (USER_LIMIT <=? addr) || (USER_LIMIT - addr <? len) then false else true.

Definition prot_valid (prot : Z) : bool :=
  if has prot (u64 (Z.lnot (Z.lor (Z.lor PROT_READ PROT_WRITE) PROT_EXEC))) then false else
  negb (Z.land prot (Z.lor PROT_WRITE PROT_EXEC) =? Z.lor PROT_WRITE PROT_EXEC).

Definition mmap_flags_valid (flags : Z) : bool :=
  if has flags (u64 (Z.lnot (Z.lor (Z.lor (Z.lor MAP_ANON MAP_FIXED) MAP_PRIVATE) MAP_SHARED))) then false else
  let kind := Z.land flags (Z.lor MAP_PRIVATE MAP_SHARED) in (kind =? MAP_PRIVATE) || (kind =? MAP_SHARED).

(** The flags of new pages in [sys_mmap_impl], and in [sys_mprotect_impl] and [sys_mremap_impl]. *)
Definition mmap_page_flags (prot : Z) : Z :=
  let vf := if has prot PROT_WRITE then VMM_UDATA else clear_bits VMM_UDATA VMM_WRITE in
  if has prot PROT_EXEC then clear_bits vf VMM_NX else vf.
Definition prot_page_flags (prot : Z) : Z :=
  let fl := Z.lor VMM_USER VMM_NX in
  let fl := if has prot PROT_WRITE then Z.lor fl VMM_WRITE else fl in
  if has prot PROT_EXEC then clear_bits fl VMM_NX else fl.

(** The 64-bit word at offset [o] of a page that starts with [n] bytes of the
    file from [off] on and is zero after them. *)
Definition file_word (data : Z -> Z) (off n o : Z) : Z :=
  le_val ((fun i => if o + i <? n then data (off + (o + i)) else 0) <$> seqZ 0 8).

Section sys.
Context `{FA : FrameAllocator A}.
Context (cpu : nat).
Implicit Type v : vmm_t A.
Implicit Type p : mm_proc.

(** A file as [mmap] sees it: the type of its node, how it is opened, the
    [chr_mmap] function of a device ([off], [length], [va], [vf]), the object of a
    shared memory file, and the bytes of a regular file, if they are loaded. *)
Inductive node_type := VFS_TYPE_REG | VFS_TYPE_CHR | VFS_TYPE_OTHER.
Record map_file := mkFile {
  mf_type : node_type;
  mf_rdonly : bool;
  mf_chr_mmap : option (Z -> Z -> Z -> Z -> vmm_t A -> Z * vmm_t A);
  mf_shmem : option shmem_obj;
  mf_data : option (Z -> Z);
  mf_size : Z;
}.

Definition root v (sp : space_ref) : Z := pml4_phys (space v sp).
Definition table v (sp : space_ref) : vma_table := vmas (space v sp).
Definition set_table (sp : space_ref) (t : option vma_table) v : vmm_t A :=
  match t with Some t => set_space sp (set_vmas t (space v sp)) v | None => v end.
Definition free_page (phys : Z) v : vmm_t A := set_pm (pmm_free cpu phys (pm v)) v.
Definition unmap_page (sp : space_ref) (va : Z) v : vmm_t A := set_pm (vmm_unmap (root v sp) va (pm v)) v.
Definition phys_at (sp : space_ref) (va : Z) v : Z := vmm_virt_to_phys (pm v) (root v sp) va.

(** ** Guards, with one CPU running *)

Definition set_mutating (sp : space_ref) (n : Z) v : vmm_t A :=
  let x := space v sp in set_space sp (mkSpace (pml4_phys x) (kernel_map_generation x) (vmas x) (refcount x) (user_accessors x) n) v.

Fixpoint mutation_attempts (n : nat) (sp : space_ref) v : bool * vmm_t A :=
  match n with
  | O => (false, v)
  | S n =>
      if user_mutating (space v sp) =? 0 then
        let v := set_mutating sp 1 v in
        if user_accessors (space v sp) =? 0 then (true, v) else mutation_attempts n sp (set_mutating sp 0 v)
      else mutation_attempts n sp v
  end.

Definition vmm_space_mutation_begin (sp : space_ref) v : bool * vmm_t A :=
  if is_kernel sp then (true, v) else mutation_attempts (Z.to_nat 1000000) sp v.
Definition vmm_space_mutation_end (sp : space_ref) v : vmm_t A := if is_kernel sp then v else set_mutating sp 0 v.

(** A system call that changes the address space [sp] of the process; [rc] is its
    result without one, and [x] the state it works on. *)
Definition guarded {S : Type} (rc : Z) (sp : option space_ref) (impl : space_ref -> S -> vmm_t A -> option (Z * S * vmm_t A)) (x : S) v : option (Z * S * vmm_t A) :=
  match sp with
  | None => Some (rc, x, v)
  | Some sp =>
      let '(ok, v) := vmm_space_mutation_begin sp v in
      if negb ok then Some (- EAGAIN, x, v) else
      match impl sp x v with
      | None => None
      | Some (rc, x, v) => Some (rc, x, vmm_space_mutation_end sp v)
      end
  end.

(** ** [brk] *)

(** Body of the loops that give pages of the heap back. *)
Definition brk_free_page (sp : space_ref) (va : Z) v : vmm_t A :=
  let phys := phys_at sp va v in
  let v := unmap_page sp va v in
  if phys =? 0 then v else free_page phys v.

(** The pages [[from, to)], in order. *)
Definition pages_from (from to : Z) : list Z := Z.add from <$> page_offsets (to - from).

Definition brk_free_pages (sp : space_ref) (l : list Z) v : vmm_t A := foldl (fun v va => brk_free_page sp va v) v l.

(** The loop that extends the heap; [done] are the pages mapped so far. *)
Fixpoint brk_map_pages (sp : space_ref) (done todo : list Z) v : bool * vmm_t A :=
  match todo with
  | [] => (true, v)
  | va :: todo =>
      match pmm_alloc_zeroed cpu (pm v) with
      | (None, m) => (false, brk_free_pages sp done (set_pm m v))
      | (Some ph, m) =>
          let '(rc, v) := vmm_map cpu sp va ph VMM_UDATA (set_pm m v) in
          if rc <? 0 then (false, brk_free_pages sp done (free_page ph v))
          else brk_map_pages sp (done ++ [va]) todo v
      end
  end.

Definition sys_brk_impl (addr : Z) (sp : space_ref) p v : option (Z * mm_proc * vmm_t A) :=
  if addr =? 0 then Some (p_brk p, p, v) else
  if addr <? p_brk_base p then Some (p_brk p, p, v) else
  if (USER_LIMIT <=? addr) || (USER_LIMIT - (PAGE_SIZE - 1) <? addr) then Some (p_brk p, p, v) else
  let base := p_brk_base p in
  if addr <=? p_brk p then
    let new_end := PAGE_ALIGN_UP addr in
    let old_end := PAGE_ALIGN_UP (p_brk p) in
    let v := brk_free_pages sp (pages_from new_end old_end) v in
    let p := add_freed ((old_end - new_end) / PAGE_SIZE) p in
    let v := if base <? old_end then set_table sp (vma_remove_overlaps (Some (table v sp)) base (old_end - base)).1 v else v in
    let v := if base <? new_end then set_table sp (vma_add (Some (table v sp)) base (new_end - base) (Z.lor PROT_READ PROT_WRITE) 0 true).1 v else v in
    Some (addr, set_brk addr p, v)
  else
    let old := PAGE_ALIGN_UP (p_brk p) in
    let new := PAGE_ALIGN_UP addr in
    let '(ok, v) := brk_map_pages sp [] (pages_from old new) v in
    if negb ok then Some (p_brk p, p, v) else
    let p := add_alloc ((new - old) / PAGE_SIZE) p in
    let v := if base <? old then set_table sp (vma_remove_overlaps (Some (table v sp)) base (old - base)).1 v else v in
    let v := set_table sp (vma_add (Some (table v sp)) base (new - base) (Z.lor PROT_READ PROT_WRITE) 0 true).1 v in
    Some (addr, set_brk addr p, v).

Definition sys_brk (addr : Z) p : vmm_t A -> option (Z * mm_proc * vmm_t A) := guarded (- ENOMEM) (p_space p) (sys_brk_impl addr) p.

(** ** Helpers of [mmap], [munmap] and [mremap] *)

(** The search for a free range; [tries] are left. *)
Fixpoint pick_loop (tries : nat) (sp : space_ref) (length_ va : Z) p v : Z * Z * mm_proc :=
  match tries with
  | O => (- ENOMEM, 0, p)
  | S tries =>
      if negb (user_map_range_ok va length_) then (- ENOMEM, 0, p) else
      if negb (vma_conflicts (Some (table v sp)) va length_) then (0, va, set_bump (u64 (va + length_)) p) else
      pick_loop tries sp length_ (u64 (va + length_)) p v
  end.

(** The result, and the address if it is 0. *)
Definition mmap_pick_addr (sp : space_ref) (addr length_ flags : Z) p v : Z * Z * mm_proc :=
  if has flags MAP_FIXED && negb (addr =? 0) then
    let va := PAGE_ALIGN_DOWN addr in
    if negb (user_map_range_ok va length_) then (- EINVAL, 0, p) else
    if existsb (fun o => negb (vma_page_mapped (table v sp) (u64 (va + o))) && negb (phys_at sp (u64 (va + o)) v =? 0)) (page_offsets length_)
    then (- EINVAL, 0, p) else (0, va, p)
  else pick_loop (VMM_VMA_MAX + 16) sp length_ (PAGE_ALIGN_UP (p_mmap_bump p)) p v.

(** One page of [unmap_owned_pages]; the result counts the freed pages. *)
Definition unmap_owned_page (sp : space_ref) (va : Z) (c : Z * vmm_t A) : Z * vmm_t A :=
  let '(n, v) := c in
  let tracked := vma_page_mapped (table v sp) va in
  let owned := vma_page_owned (table v sp) va in
  let phys := phys_at sp va v in
  let v := if tracked then unmap_page sp va v else v in
  if owned && negb (phys =? 0) then (n + 1, free_page phys v) else (n, v).

Definition unmap_owned_pages (sp : space_ref) (addr len : Z) p v : mm_proc * vmm_t A :=
  let '(nfreed, v) := foldl (fun c o => unmap_owned_page sp (u64 (addr + o)) c) (0, v) (page_offsets len) in
  (add_freed nfreed p, v).

Definition rollback_new_mapping (sp : space_ref) (addr mapped_len vma_len : Z) p v : option (mm_proc * vmm_t A) :=
  let '(p, v) := if negb (mapped_len =? 0) then unmap_owned_pages sp addr mapped_len p v else (p, v) in
  match vma_remove (Some (table v sp)) addr vma_len with
  | None => None
  | Some (t, _) => Some (p, set_table sp t v)
  end.

Definition mmap_fixed_replace (sp : space_ref) (addr len flags : Z) p v : Z * mm_proc * vmm_t A :=
  if negb (has flags MAP_FIXED) then (0, p, v) else
  let '(p, v) := unmap_owned_pages sp addr len p v in
  let '(t, rc) := vma_remove_overlaps (Some (table v sp)) addr len in
  (rc, p, set_table sp t v).

(** The loops that fill a new mapping page by page: [fill o phys] writes the
    page at offset [o] once it is mapped.  The result is 0, or the mapping is
    rolled back. *)
Fixpoint map_new_pages (sp : space_ref) (va length_ flags : Z) (fill : Z -> Z -> vmm_t A -> vmm_t A) (todo : list Z) p v : option (Z * mm_proc * vmm_t A) :=
  match todo with
  | [] => Some (0, p, v)
  | o :: todo =>
      match pmm_alloc_zeroed cpu (pm v) with
      | (None, m) => (fun '(p, v) => (- ENOMEM, p, v)) <$> rollback_new_mapping sp va o length_ p (set_pm m v)
      | (Some ph, m) =>
          let '(rc, v) := vmm_map cpu sp (u64 (va + o)) ph flags (set_pm m v) in
          if rc <? 0 then (fun '(p, v) => (- ENOMEM, p, v)) <$> rollback_new_mapping sp va o length_ p (free_page ph v)
          else map_new_pages sp va length_ flags fill todo p (fill o ph v)
      end
  end.

(** ** [mmap] *)

(** The file content of the page at offset [o] of a file mapping. *)
Definition fill_from_file (f : map_file) (off o ph : Z) v : vmm_t A :=
  match mf_data f with
  | None => v
  | Some data =>
      if (off <? mf_size f) && (o <? mf_size f - off) then
        let file_off := off + o in
        let copy := Z.min (mf_size f - file_off) PAGE_SIZE in
        set_pm (set_mem (fun a => if (ph <=? a) && (a <? ph + PAGE_SIZE) then file_word data file_off copy (a - ph) else mem (pm v) a) (pm v)) v
      else v
  end.

(** The pages of a shared mapping of a shared memory object are pages of the
    object, with a reference more; a private one gets copies.  [kok n] is whether
    [krealloc] of [n] bytes succeeds. *)
Fixpoint map_shmem_pages (kok : Z -> bool) (sp : space_ref) (va length_ vf : Z) (shared : bool) (off : Z) (todo : list Z) (obj : shmem_obj) p v :
    option (Z * (mm_proc * shmem_obj) * vmm_t A) :=
  match todo with
  | [] => Some (0, (p, obj), v)
  | o :: todo =>
      let rollback obj v := (fun '(p, v) => (- ENOMEM, (p, obj), v)) <$> rollback_new_mapping sp va o length_ p v in
      if shared then
        r ← shmem_page_phys cpu kok obj (u64 (off + o)) (pm v);
        let '(phys, obj, m) := r in
        let '(kept, m) := if phys =? 0 then (false, m) else pmm_retain phys m in
        if negb kept then rollback obj (set_pm m v) else
        let '(rc, v) := vmm_map cpu sp (u64 (va + o)) phys vf (set_pm m v) in
        if rc <? 0 then rollback obj (free_page phys v)
        else map_shmem_pages kok sp va length_ vf shared off todo obj p v
      else
        match pmm_alloc_zeroed cpu (pm v) with
        | (None, m) => rollback obj (set_pm m v)
        | (Some ph, m) =>
            let '(rc, v) := vmm_map cpu sp (u64 (va + o)) ph vf (set_pm m v) in
            if rc <? 0 then rollback obj (free_page ph v) else
            r ← shmem_read cpu kok obj (u64 (off + o)) PAGE_SIZE (pm v);
            let '(_, bs, obj, m) := r in
            map_shmem_pages kok sp va length_ vf shared off todo obj p (set_pm (set_mem (write_bytes ph bs (mem m)) m) v)
        end
  end.

(** The part of [sys_mmap_impl] that maps a file at [va]. *)
Definition mmap_file (kok : Z -> bool) (f : map_file) (obj : option shmem_obj) (va length_ prot flags off : Z) (sp : space_ref) p v : option (Z * (mm_proc * option shmem_obj) * vmm_t A) :=
  let vf := mmap_page_flags prot in
  let reserve_only := Z.land prot (Z.lor (Z.lor PROT_READ PROT_WRITE) PROT_EXEC) =? 0 in
  match mf_type f, mf_chr_mmap f with
  | VFS_TYPE_CHR, Some chr_mmap =>
      let '(t, rc) := vma_add (Some (table v sp)) va length_ (u32 prot) (u32 flags) false in
      let v := set_table sp t v in
      if rc <? 0 then Some (rc, (p, obj), v) else
      if reserve_only then Some (va, (p, obj), v) else
      let '(mr, v) := chr_mmap off length_ va vf v in
      if mr <? 0 then
        match vma_remove (Some (table v sp)) va length_ with
        | None => None
        | Some (t, _) => Some (mr, (p, obj), set_table sp t v)
        end
      else Some (mr, (p, obj), v)
  | VFS_TYPE_REG, _ =>
      match obj with
      | Some obj =>
          if U64_MAX - length_ <? off then Some (- EINVAL, (p, Some obj), v) else
          let '(t, rc) := vma_add (Some (table v sp)) va length_ (u32 prot) (u32 flags) true in
          let v := set_table sp t v in
          if rc <? 0 then Some (rc, (p, Some obj), v) else
          if reserve_only then Some (va, (p, Some obj), v) else
          let shared := has flags MAP_SHARED in
          match map_shmem_pages kok sp va length_ vf shared off (page_offsets length_) obj p v with
          | None => None
          | Some (rc, (p, obj), v) =>
              if rc <? 0 then Some (rc, (p, Some obj), v) else Some (va, (add_alloc (if shared then 0 else length_ / PAGE_SIZE) p, Some obj), v)
          end
      | None =>
          let '(t, rc) := vma_add (Some (table v sp)) va length_ (u32 prot) (u32 flags) true in
          let v := set_table sp t v in
          if rc <? 0 then Some (rc, (p, None), v) else
          if reserve_only then Some (va, (p, None), v) else
          match map_new_pages sp va length_ vf (fill_from_file f off) (page_offsets length_) p v with
          | None => None
          | Some (rc, p, v) => if rc <? 0 then Some (rc, (p, None), v) else Some (va, (add_alloc (length_ / PAGE_SIZE) p, None), v)
          end
      end
  | _, _ => Some (- EBADF, (p, obj), v)
  end.

(** The part that maps zeroed pages at [va]. *)
Definition mmap_anon (va length_ prot flags : Z) (sp : space_ref) p v : option (Z * mm_proc * vmm_t A) :=
  let '(t, rc) := vma_add (Some (table v sp)) va length_ (u32 prot) (u32 flags) true in
  let v := set_table sp t v in
  if rc <? 0 then Some (rc, p, v) else
  if Z.land prot (Z.lor (Z.lor PROT_READ PROT_WRITE) PROT_EXEC) =? 0 then Some (va, p, v) else
  match map_new_pages sp va length_ (mmap_page_flags prot) (fun _ _ v => v) (page_offsets length_) p v with
  | None => None
  | Some (rc, p, v) => if rc <? 0 then Some (rc, p, v) else Some (va, add_alloc (length_ / PAGE_SIZE) p, v)
  end.

(** The checks on the descriptor; 0 if they pass. *)
Definition mmap_file_check (file : option map_file) (prot flags : Z) : Z :=
  match file with
  | None => - EBADF
  | Some f =>
      let ok := match mf_type f, mf_chr_mmap f with VFS_TYPE_REG, _ => true | VFS_TYPE_CHR, Some _ => true | _, _ => false end in
      if negb ok then - EBADF else
      if has flags MAP_SHARED && has prot PROT_WRITE && mf_rdonly f then - EACCES else 0
  end.

(** [file] is the file behind the descriptor, if there is one.  The shared memory
    object of the file is part of the result: mapping it may allocate pages. *)
Definition sys_mmap_impl (kok : Z -> bool) (addr length_ prot flags off : Z) (file : option map_file) (sp : space_ref) (x : mm_proc * option shmem_obj) v :
    option (Z * (mm_proc * option shmem_obj) * vmm_t A) :=
  let '(p, obj) := x in
  let fail rc := Some (rc, (p, obj), v) in
  if length_ =? 0 then fail (- EINVAL) else
  if U64_MAX - (PAGE_SIZE - 1) <? length_ then fail (- EINVAL) else
  let length_ := PAGE_ALIGN_UP length_ in
  if negb (prot_valid prot) || negb (mmap_flags_valid flags) then fail (- EINVAL) else
  if has off (PAGE_SIZE - 1) then fail (- EINVAL) else
  let anon := has flags MAP_ANON in
  let file_err := if anon then 0 else mmap_file_check file prot flags in
  if file_err <? 0 then fail file_err else
  let '(pick, va, p) := mmap_pick_addr sp addr length_ flags p v in
  if pick <? 0 then Some (pick, (p, obj), v) else
  let '(fixed_rc, p, v) := mmap_fixed_replace sp va length_ flags p v in
  if fixed_rc <? 0 then Some (fixed_rc, (p, obj), v) else
  match file with
  | Some f => if anon then (fun '(rc, p, v) => (rc, (p, obj), v)) <$> mmap_anon va length_ prot flags sp p v else mmap_file kok f obj va length_ prot flags off sp p v
  | None => (fun '(rc, p, v) => (rc, (p, obj), v)) <$> mmap_anon va length_ prot flags sp p v
  end.

Definition sys_mmap (kok : Z -> bool) (addr length_ prot flags off : Z) (file : option map_file) p : vmm_t A -> option (Z * (mm_proc * option shmem_obj) * vmm_t A) :=
  guarded (- ENOMEM) (p_space p) (sys_mmap_impl kok addr length_ prot flags off file) (p, file ≫= mf_shmem).

(** ** [munmap] and [mprotect] *)

Definition sys_munmap_impl (addr len : Z) (sp : space_ref) p v : option (Z * mm_proc * vmm_t A) :=
  if has addr (PAGE_SIZE - 1) || (len =? 0) then Some (- EINVAL, p, v) else
  if U64_MAX - (PAGE_SIZE - 1) <? len then Some (- EINVAL, p, v) else
  let len := PAGE_ALIGN_UP len in
  if negb (user_map_range_ok addr len) then Some (- EINVAL, p, v) else
  let '(p, v) := unmap_owned_pages sp addr len p v in
  Some (0, p, set_table sp (vma_remove_overlaps (Some (table v sp)) addr len).1 v).

Definition sys_munmap (addr len : Z) p : vmm_t A -> option (Z * mm_proc * vmm_t A) := guarded (- EINVAL) (p_space p) (sys_munmap_impl addr len) p.

(** The loop of [sys_mprotect_impl]. *)
Fixpoint protect_pages (sp : space_ref) (addr flags : Z) (tracked : bool) (todo : list Z) v : Z * vmm_t A :=
  match todo with
  | [] => (0, v)
  | o :: todo =>
      let va := u64 (addr + o) in
      if phys_at sp va v =? 0 then
        if tracked then protect_pages sp addr flags tracked todo v else (- EINVAL, v)
      else
        let '(ok, m) := vmm_protect (root v sp) va flags (pm v) in
        if negb ok then (- EINVAL, set_pm m v) else protect_pages sp addr flags tracked todo (set_pm m v)
  end.

Definition sys_mprotect_impl (addr len prot : Z) (sp : space_ref) p v : option (Z * mm_proc * vmm_t A) :=
  if len =? 0 then Some (0, p, v) else
  if has addr (PAGE_SIZE - 1) then Some (- EINVAL, p, v) else
  if negb (prot_valid prot) then Some (- EINVAL, p, v) else
  let addr := PAGE_ALIGN_DOWN addr in
  if U64_MAX - (PAGE_SIZE - 1) <? len then Some (- EINVAL, p, v) else
  let len := PAGE_ALIGN_UP len in
  if negb (user_map_range_ok addr len) then Some (- EINVAL, p, v) else
  match vma_range_ok (Some (table v sp)) addr len, vmm_user_range_ok (pm v) (root v sp) addr len false with
  | Some tracked, Some present =>
      if negb tracked && negb present then Some (- EINVAL, p, v) else
      match (if tracked then vma_protect (Some (table v sp)) addr len (u32 prot) else Some (Some (table v sp), 0)) with
      | None => None
      | Some (t, rc) =>
          let v := set_table sp t v in
          if rc <? 0 then Some (rc, p, v) else
          let '(rc, v) := protect_pages sp addr (prot_page_flags prot) tracked (page_offsets len) v in
          Some (rc, p, v)
      end
  | _, _ => None
  end.

Definition sys_mprotect (addr len prot : Z) p : vmm_t A -> option (Z * mm_proc * vmm_t A) := guarded (- EINVAL) (p_space p) (sys_mprotect_impl addr len prot) p.

(** ** [mremap] *)

(** The copy of the old page into the new one. *)
Definition fill_from_old (sp : space_ref) (old_addr old_sz o ph : Z) v : vmm_t A :=
  if o <? old_sz then
    let src := phys_at sp (u64 (old_addr + o)) v in
    if src =? 0 then v else set_pm (set_mem (copy_page ph src (mem (pm v))) (pm v)) v
  else v.

(** The part of [sys_mremap_impl] that moves a mapping to a larger range. *)
Definition mremap_move (old_addr old_sz new_sz flags new_addr old_prot old_map_flags : Z) (sp : space_ref) p v : option (Z * mm_proc * vmm_t A) :=
  if negb (has flags MREMAP_MAYMOVE) then Some (- ENOMEM, p, v) else
  let '(pick, new_va, p) :=
    if has flags MREMAP_FIXED then
      (if negb (user_map_range_ok new_addr new_sz) || vma_conflicts (Some (table v sp)) new_addr new_sz then - EINVAL else 0, new_addr, p)
    else mmap_pick_addr sp 0 new_sz 0 p v in
  if pick <? 0 then Some (pick, p, v) else
  let '(t, rc) := vma_add (Some (table v sp)) new_va new_sz old_prot old_map_flags true in
  let v := set_table sp t v in
  if rc <? 0 then Some (rc, p, v) else
  match map_new_pages sp new_va new_sz (prot_page_flags old_prot) (fill_from_old sp old_addr old_sz) (page_offsets new_sz) p v with
  | None => None
  | Some (rc, p, v) =>
      if rc <? 0 then Some (rc, p, v) else
      let '(p, v) := unmap_owned_pages sp old_addr old_sz p v in
      match vma_remove (Some (table v sp)) old_addr old_sz with
      | None => None
      | Some (t, rc) =>
          let v := set_table sp t v in
          if rc <? 0 then Some (rc, p, v) else Some (new_va, add_alloc (new_sz / PAGE_SIZE) p, v)
      end
  end.

Definition sys_mremap_impl (old_addr old_sz new_sz flags new_addr : Z) (sp : space_ref) p v : option (Z * mm_proc * vmm_t A) :=
  let fail := Some (- EINVAL, p, v) in
  if (old_sz =? 0) || (new_sz =? 0) then fail else
  if has flags (u64 (Z.lnot (Z.lor MREMAP_MAYMOVE MREMAP_FIXED))) then fail else
  if has flags MREMAP_FIXED && negb (has flags MREMAP_MAYMOVE) then fail else
  if has old_addr (PAGE_SIZE - 1) || (has flags MREMAP_FIXED && has new_addr (PAGE_SIZE - 1)) then fail else
  if (U64_MAX - (PAGE_SIZE - 1) <? old_sz) || (U64_MAX - (PAGE_SIZE - 1) <? new_sz) then fail else
  let old_sz := PAGE_ALIGN_UP old_sz in
  let new_sz := PAGE_ALIGN_UP new_sz in
  if negb (user_map_range_ok old_addr old_sz) then fail else
  match vma_range_info (Some (table v sp)) old_addr old_sz with
  | None => None
  | Some (Some (old_prot, old_map_flags, true)) =>
      if new_sz <=? old_sz then
        let tail := old_sz - new_sz in
        if tail =? 0 then Some (old_addr, p, v) else
        let '(p, v) := unmap_owned_pages sp (u64 (old_addr + new_sz)) tail p v in
        match vma_remove (Some (table v sp)) (u64 (old_addr + new_sz)) tail with
        | None => None
        | Some (t, rc) => let v := set_table sp t v in Some (if rc <? 0 then rc else old_addr, p, v)
        end
      else mremap_move old_addr old_sz new_sz flags new_addr old_prot old_map_flags sp p v
  | Some _ => fail
  end.

Definition sys_mremap (old_addr old_sz new_sz flags new_addr : Z) p : vmm_t A -> option (Z * mm_proc * vmm_t A) :=
  guarded (- EINVAL) (p_space p) (sys_mremap_impl old_addr old_sz new_sz flags new_addr) p.

(** ** Page faults *)

Inductive page_fault_result_t := PF_UNHANDLED | PF_HANDLED | PF_SIGSEGV | PF_SIGBUS.

Definition page_fault_stack_growth_ok (rsp page_ : Z) (exec : bool) : bool :=
  if exec then false else
  if (page_ <? USER_STACK_GROW_BASE) || (USER_STACK_TOP <=? page_) then false else
  rsp <=? u64 (page_ + USER_STACK_GROW_SLOP_PAGES * PAGE_SIZE).

(** A new page for the faulting address. *)
Definition fault_new_page (sp : space_ref) (page_ flags : Z) v : page_fault_result_t * vmm_t A :=
  match pmm_alloc_zeroed cpu (pm v) with
  | (None, m) => (PF_SIGBUS, set_pm m v)
  | (Some phys, m) =>
      let '(rc, v) := vmm_map cpu sp page_ phys flags (set_pm m v) in
      if rc =? 0 then (PF_HANDLED, v) else (PF_SIGBUS, free_page phys v)
  end.

Definition handle_user_page_fault (error_code cr2 rsp : Z) p v : page_fault_result_t * vmm_t A :=
  match p_space p with
  | None => (PF_SIGSEGV, v)
  | Some sp =>
      if has error_code 0x1 then
        if has error_code 0x2 then
          let '(r, m) := vmm_handle_cow_fault cpu (root v sp) cr2 (pm v) in
          (if 0 <? r then PF_HANDLED else PF_SIGSEGV, set_pm m v)
        else (PF_SIGSEGV, v)
      else
      let page_ := Z.land cr2 PAGE_MASK in
      let write := has error_code 0x2 in
      let exec := has error_code 0x10 in
      if page_fault_stack_growth_ok rsp page_ exec then fault_new_page sp page_ VMM_UDATA v else
      if vma_page_fault_allowed (table v sp) page_ write exec then fault_new_page sp page_ (vma_page_flags (table v sp) page_) v
      else (PF_SIGSEGV, v)
  end.

(** ** Processes

    The address-space side of [sys_fork_at_mode], of the thread branch of
    [sys_clone], and of the release of a process. *)

(** The child of a fork, or [None] if it failed. *)
Definition fork_child (cow : bool) p v : option mm_proc * vmm_t A :=
  match vmm_space_new cpu v with
  | (None, v) => (None, v)
  | (Some child_space, v) =>
      let '(rc, v) :=
        match p_space p with
        | None => (-1, v)
        | Some parent_space => (if cow then vmm_fork_user_cow cpu else vmm_fork_user cpu) child_space parent_space v
        end in
      if rc <? 0 then (None, vmm_space_free cpu child_space v)
      else (Some (mkProc (Some child_space) (p_brk p) (p_brk_base p) (p_mmap_bump p) 0 0), v)
  end.

Definition clone_thread p v : mm_proc * vmm_t A :=
  let v := match p_space p with Some sp => vmm_space_retain sp v | None => v end in
  (mkProc (p_space p) (p_brk p) (p_brk_base p) (p_mmap_bump p) 0 0, v).

Definition release_space p v : vmm_t A := match p_space p with Some sp => vmm_space_free cpu sp v | None => v end.
End sys.

(** [proc_has_private_space] for the process in slot [i]. *)
Definition proc_has_private_space (procs : list (option mm_proc)) (i : nat) : bool :=
  match procs !! i with
  | Some (Some p) =>
      negb (existsb (fun '(j, o) => negb (j =? i)%nat && match o with Some q => bool_decide (p_space q = p_space p) | None => false end)
        (zip (seq 0 (length procs)) procs))
  | _ => true
  end.
