(* ===== verification/Exec.v ===== *)
(** * Program loading.

    Models [kernel/exec/elf.c], the user stack of [kernel/exec/process.c] and
    the address-space part of [sys_execve] in [kernel/syscall/procctl.c], on
    [MemSys.v].  The image is a list of bytes, attacker controlled; every access
    to the image, to the arrays and to the pages of the stack is checked, and an
    access outside of them makes the whole function [None].  [ExecSafe.v] shows
    that this does not occur.  Path lookup, randomness and the outcome of
    [kmalloc] are arguments. *)

From S2P Require Import Prelude Bits Bytes Words Bitfield Vma Lower LLFree Pmm Vmm MemSys.

Definition ENOEXEC : Z := 8.
Definition ENOENT : Z := 2.
Definition PIE_BASE : Z := 0x400000.
Definition INTERP_BASE : Z := 0x7f0000000000.
Definition sizeof_ehdr : Z := 64.
Definition sizeof_phdr : Z := 56.
Definition ET_EXEC : Z := 2.
Definition ET_DYN : Z := 3.
Definition EM_X86_64 : Z := 0x3E.
Definition PT_LOAD : Z := 1.
Definition PT_INTERP : Z := 3.
Definition PF_X : Z := 1.
Definition PF_W : Z := 2.
Definition PF_R : Z := 4.

(** ** Reading the image *)

(** [n] bytes at [off], if they are inside. *)
Definition read_bytes (data : list Z) (off n : Z) : option (list Z) :=
  if (0 <=? off) && (0 <=? n) && (off + n <=? blen data) then Some (slice data off n) else None.
Definition read_le (data : list Z) (off : Z) (n : nat) : option Z := le_val <$> read_bytes data off (Z.of_nat n).

Record Elf64_Ehdr := mkEhdr {
  e_ident : list Z;
  e_type : Z;
  e_machine : Z;
  e_version : Z;
  e_entry : Z;
  e_phoff : Z;
  e_ehsize : Z;
  e_phentsize : Z;
  e_phnum : Z;
}.

Record Elf64_Phdr := mkPhdr {
  p_type : Z;
  p_flags : Z;
  p_offset : Z;
  p_vaddr : Z;
  p_filesz : Z;
  p_memsz : Z;
  p_align : Z;
}.

Definition read_ehdr (data : list Z) : option Elf64_Ehdr :=
  ident ← read_bytes data 0 16;
  ty ← read_le data 16 2; machine ← read_le data 18 2; version ← read_le data 20 4;
  entry ← read_le data 24 8; phoff ← read_le data 32 8;
  ehsize ← read_le data 52 2; phentsize ← read_le data 54 2; phnum ← read_le data 56 2;
  Some (mkEhdr ident ty machine version entry phoff ehsize phentsize phnum).

Definition read_phdr (data : list Z) (at_ : Z) : option Elf64_Phdr :=
  ty ← read_le data at_ 4; flags ← read_le data (at_ + 4) 4; off ← read_le data (at_ + 8) 8; vaddr ← read_le data (at_ + 16) 8;
  filesz ← read_le data (at_ + 32) 8; memsz ← read_le data (at_ + 40) 8; align ← read_le data (at_ + 48) 8;
  Some (mkPhdr ty flags off vaddr filesz memsz align).

Definition elf_valid (data : list Z) (size : Z) : option bool :=
  if size <? sizeof_ehdr then Some false else
  eh ← read_ehdr data;
  Some (
    if negb (bool_decide (take 4 (e_ident eh) = [0x7F; 69; 76; 70])) then false else
    if negb (aget 0 (e_ident eh) 4 =? 2) then false else
    if negb (aget 0 (e_ident eh) 5 =? 1) then false else
    if negb (e_type eh =? ET_EXEC) && negb (e_type eh =? ET_DYN) then false else
    if negb (e_machine eh =? EM_X86_64) then false else
    if negb (e_version eh =? 1) || (e_ehsize eh <? sizeof_ehdr) then false else
    if (e_phentsize eh <? sizeof_phdr) || (e_phnum eh =? 0) then false else true).

(** ** The interpreter path *)

(** [while (n > 0 && interp[n - 1] < ' ') interp[--n] = 0]. *)
Fixpoint trim_control (n : nat) (interp : list Z) : list Z :=
  match n with
  | O => interp
  | S n => if aget 0 interp n <? 32 then trim_control n (<[n := 0]> interp) else interp
  end.

(** The copy of the path into [out->interp], 256 bytes: [None] is an access out
    of range, [Some None] the error. *)
Definition read_interp (data : list Z) (size : Z) (ph : Elf64_Phdr) (interp : list Z) : option (option (list Z)) :=
  if (size <? p_offset ph) || (size - p_offset ph <? p_filesz ph) then Some None else
  bs ← read_bytes data (p_offset ph) (p_filesz ph);
  if blen interp <=? p_filesz ph then None else
  let interp := blit interp 0 bs in
  let interp := <[Z.to_nat (p_filesz ph) := 0]> interp in
  if negb (aget 0 interp (Z.to_nat (p_filesz ph - 1)) =? 0) then Some None else
  n ← find_index (fun b => b =? 0) interp;
  Some (Some (trim_control n interp)).

(** What [elf_load_into] collects. *)
Record elf_state := mkElf {
  s_interp : list Z;
  s_brk : Z;
  s_phdr_va : Z;
  s_have_load : bool;
  s_entry_executable : bool;
}.

Record elf_load_result_t := mkRes {
  o_entry : Z;
  o_prog_entry : Z;
  o_brk : Z;
  o_phdr_va : Z;
  o_phentsize : Z;
  o_phnum : Z;
  o_interp_base : Z;
  o_interp : list Z;
}.

Definition elf_page_flags (flags : Z) : Z :=
  let vflags := Z.lor VMM_PRESENT VMM_USER in
  let vflags := if has flags PF_W then Z.lor vflags (Z.lor VMM_WRITE VMM_NX) else vflags in
  if has flags PF_X then vflags else Z.lor vflags VMM_NX.

Definition elf_prot (flags : Z) : Z :=
  let prot := if has flags PF_R then PROT_READ else 0 in
  let prot := if has flags PF_W then Z.lor prot PROT_WRITE else prot in
  if has flags PF_X then Z.lor prot PROT_EXEC else prot.

(** The checks of a loadable segment. *)
Definition segment_ok (size bias : Z) (ph : Elf64_Phdr) : bool :=
  if (size <? p_offset ph) || (size - p_offset ph <? p_filesz ph) then false else
  if p_memsz ph <? p_filesz ph then false else
  if Z.land (p_flags ph) (Z.lor PF_W PF_X) =? Z.lor PF_W PF_X then false else
  if (1 <? p_align ph) && (has (p_align ph) (p_align ph - 1)
       || negb (Z.land (p_vaddr ph) (p_align ph - 1) =? Z.land (p_offset ph) (p_align ph - 1))) then false else
  let vaddr := u64 (bias + p_vaddr ph) in
  if vaddr <? bias then false else
  if u64 (vaddr + p_memsz ph) <? vaddr then false else
  if USER_LIMIT <? u64 (vaddr + p_memsz ph) then false else true.

Section exec.
Context `{FA : FrameAllocator A}.
Context (cpu : nat).
Implicit Type v : vmm_t A.
Implicit Type p : mm_proc.

Definition poke (phys off : Z) (bs : list Z) v : option (vmm_t A) :=
  if (0 <=? off) && (off + blen bs <=? PAGE_SIZE) then Some (set_pm (set_mem (write_bytes (phys + off) bs (mem (pm v))) (pm v)) v) else None.

(** The part of the file that lies in the page [pg], copied to its frame. *)
Definition fill_segment (data : list Z) (ph : Elf64_Phdr) (vaddr pg phys : Z) v : option (vmm_t A) :=
  let fs := vaddr in
  let fe := u64 (vaddr + p_filesz ph) in
  let cs := if fs <? pg then pg else fs in
  let ce := if u64 (pg + PAGE_SIZE) <? fe then u64 (pg + PAGE_SIZE) else fe in
  if cs <? ce then
    let doff := cs - pg in
    let soff := u64 (p_offset ph + (cs - fs)) in
    bs ← read_bytes data soff (ce - cs);
    poke phys doff bs v
  else Some v.

(** The loop over the pages of a segment; [false] is [return -1]. *)
Fixpoint map_segment (data : list Z) (ph : Elf64_Phdr) (vaddr : Z) (sp : space_ref) (todo : list Z) v : option (bool * vmm_t A) :=
  match todo with
  | [] => Some (true, v)
  | pg :: todo =>
      match pmm_alloc_zeroed cpu (pm v) with
      | (None, m) => Some (false, set_pm m v)
      | (Some phys, m) =>
          let '(rc, v) := vmm_map cpu sp pg phys (elf_page_flags (p_flags ph)) (set_pm m v) in
          if rc <? 0 then Some (false, free_page cpu phys v) else
          v ← fill_segment data ph vaddr pg phys v;
          map_segment data ph vaddr sp todo v
      end
  end.

Definition load_segment (data : list Z) (size bias : Z) (eh : Elf64_Ehdr) (sp : space_ref) (ph : Elf64_Phdr) (e : elf_state) v
    : option (option elf_state * vmm_t A) :=
  if negb (segment_ok size bias ph) then Some (None, v) else
  let vaddr := u64 (bias + p_vaddr ph) in
  let entry := u64 (bias + e_entry eh) in
  let exec := s_entry_executable e || (has (p_flags ph) PF_X && (vaddr <=? entry) && (entry - vaddr <? p_memsz ph)) in
  let phdr_va :=
    if (s_phdr_va e =? 0) && (p_offset ph <=? e_phoff eh) && (e_phoff eh - p_offset ph <? p_filesz ph)
    then u64 (vaddr + (e_phoff eh - p_offset ph)) else s_phdr_va e in
  let page_base := PAGE_ALIGN_DOWN vaddr in
  let page_end := PAGE_ALIGN_UP (u64 (vaddr + p_memsz ph)) in
  if vma_conflicts (Some (table v sp)) page_base (page_end - page_base) then Some (None, v) else
  r ← map_segment data ph vaddr sp (pages_from page_base page_end) v;
  let '(ok, v) := r in
  if negb ok then Some (None, v) else
  let '(t, rc) := vma_add (Some (table v sp)) page_base (page_end - page_base) (elf_prot (p_flags ph)) 0 true in
  let v := set_table sp t v in
  if rc <? 0 then Some (None, v) else
  Some (Some (mkElf (s_interp e) (Z.max (s_brk e) page_end) phdr_va true exec), v).

Definition load_phdr (data : list Z) (size bias : Z) (eh : Elf64_Ehdr) (sp : space_ref) (i : Z) (e : elf_state) v : option (option elf_state * vmm_t A) :=
  ph ← read_phdr data (e_phoff eh + i * e_phentsize eh);
  oi ← (if (p_type ph =? PT_INTERP) && (0 <? p_filesz ph) && (p_filesz ph <? 255)
        then read_interp data size ph (s_interp e) else Some (Some (s_interp e)));
  match oi with
  | None => Some (None, v)
  | Some interp =>
      let e := mkElf interp (s_brk e) (s_phdr_va e) (s_have_load e) (s_entry_executable e) in
      if negb (p_type ph =? PT_LOAD) || (p_memsz ph =? 0) then Some (Some e, v) else load_segment data size bias eh sp ph e v
  end.

Fixpoint load_phdrs (data : list Z) (size bias : Z) (eh : Elf64_Ehdr) (sp : space_ref) (todo : list Z) (e : elf_state) v
    : option (option elf_state * vmm_t A) :=
  match todo with
  | [] => Some (Some e, v)
  | i :: todo =>
      r ← load_phdr data size bias eh sp i e v;
      match r with
      | (None, v) => Some (None, v)
      | (Some e, v) => load_phdrs data size bias eh sp todo e v
      end
  end.

(** [Some (None, _)] is the result -1. *)
Definition elf_load_into (sp : space_ref) (data : list Z) (size bias : Z) v : option (option elf_load_result_t * vmm_t A) :=
  if size <? sizeof_ehdr then Some (None, v) else
  valid ← elf_valid data size;
  if negb valid then Some (None, v) else
  eh ← read_ehdr data;
  let ph_total := e_phnum eh * e_phentsize eh in
  if (size <? e_phoff eh) || (size - e_phoff eh <? ph_total) then Some (None, v) else
  r ← load_phdrs data size bias eh sp (seqZ 0 (e_phnum eh)) (mkElf (replicate 256 0) 0 0 false false) v;
  match r with
  | (None, v) => Some (None, v)
  | (Some e, v) =>
      let prog_entry := u64 (bias + e_entry eh) in
      if (prog_entry <? bias) || (USER_LIMIT <=? prog_entry) then Some (None, v) else
      if negb (s_have_load e) || negb (s_entry_executable e) then Some (None, v) else
      Some (Some (mkRes prog_entry prog_entry (s_brk e) (s_phdr_va e) (e_phentsize eh) (e_phnum eh) 0 (s_interp e)), v)
  end.

(** The new space and what was loaded into it. *)
Definition elf_load (data : list Z) (size : Z) v : option (option (space_ref * elf_load_result_t) * vmm_t A) :=
  if size <? sizeof_ehdr then Some (None, v) else
  valid ← elf_valid data size;
  if negb valid then Some (None, v) else
  eh ← read_ehdr data;
  match vmm_space_new cpu v with
  | (None, v) => Some (None, v)
  | (Some sp, v) =>
      let bias := if e_type eh =? ET_DYN then PIE_BASE else 0 in
      r ← elf_load_into sp data size bias v;
      match r with
      | (None, v) => Some (None, vmm_space_free cpu sp v)
      | (Some res, v) => Some (Some (sp, res), v)
      end
  end.

(** ** The user stack *)

Definition USER_STACK_PAGES : Z := 4.
Definition STACK_MAX_ARGS : Z := 4096.

(** [chunks] bounds the number of rounds. *)
Fixpoint stack_write (chunks : nat) (uva : Z) (bs : list Z) (phys_arr : list Z) (stack_base : Z) v : option (vmm_t A) :=
  match bs, chunks with
  | [], _ => Some v
  | _, O => None
  | _, S chunks =>
      let off := u64 (uva - stack_base) in
      let in_pg := Z.land off 0xFFF in
      let chunk := Z.min (PAGE_SIZE - in_pg) (blen bs) in
      phys ← phys_arr !! Z.to_nat (Z.shiftr off 12);
      v ← poke phys in_pg (take (Z.to_nat chunk) bs) v;
      stack_write chunks (u64 (uva + chunk)) (drop (Z.to_nat chunk) bs) phys_arr stack_base v
  end.

Definition stack_put (uva : Z) (bs : list Z) (phys_arr : list Z) (stack_base : Z) v : option (vmm_t A) :=
  stack_write (length bs) uva bs phys_arr stack_base v.

Definition stack_write_u64 (uva val : Z) (phys_arr : list Z) (stack_base : Z) v : option (vmm_t A) := stack_put uva (le_bytes 8 val) phys_arr stack_base v.

Fixpoint release_pages (sp : space_ref) (va : Z) (phys : list Z) v : vmm_t A :=
  match phys with
  | [] => v
  | ph :: phys => release_pages sp (va + PAGE_SIZE) phys (free_page cpu ph (unmap_page sp va v))
  end.

Definition stack_release (sp : space_ref) (stack_base : Z) (phys : list Z) (vma_added : bool) v : option (vmm_t A) :=
  if vma_added then
    r ← vma_remove (Some (table v sp)) stack_base (USER_STACK_PAGES * PAGE_SIZE);
    Some (release_pages sp stack_base phys (set_table sp r.1 v))
  else Some (release_pages sp stack_base phys v).

(** The pages of the stack, [n] to go; [None] if memory ran out. *)
Fixpoint map_stack (sp : space_ref) (stack_base : Z) (n : nat) (phys : list Z) v : option (option (list Z) * vmm_t A) :=
  match n with
  | O => Some (Some phys, v)
  | S n =>
      match pmm_alloc_zeroed cpu (pm v) with
      | (None, m) => v ← stack_release sp stack_base phys false (set_pm m v); Some (None, v)
      | (Some ph, m) =>
          let '(rc, v) := vmm_map cpu sp (stack_base + blen phys * PAGE_SIZE) ph VMM_UDATA (set_pm m v) in
          if rc <? 0 then v ← stack_release sp stack_base phys false (free_page cpu ph v); Some (None, v)
          else map_stack sp stack_base n (phys ++ [ph]) v
      end
  end.

(** The strings, last one first, below [sp_]; a missing one is skipped.  The
    result lists their addresses in order; the inner [None] is a full stack. *)
Fixpoint push_strings (todo : list (option (list Z))) (uvas : list Z) (sp_ : Z) (phys : list Z) (stack_base : Z) v : option (option (list Z * Z) * vmm_t A) :=
  match todo with
  | [] => Some (Some (uvas, sp_), v)
  | None :: todo => push_strings todo (0 :: uvas) sp_ phys stack_base v
  | Some s :: todo =>
      let bs := s ++ [0] in
      let sp_ := clear_bits (u64 (sp_ - blen bs)) 7 in
      if sp_ <? stack_base then Some (None, v) else
      v ← stack_put sp_ bs phys stack_base v;
      push_strings todo (sp_ :: uvas) sp_ phys stack_base v
  end.

Fixpoint write_words (wp : Z) (ws : list Z) (phys : list Z) (stack_base : Z) v : option (Z * vmm_t A) :=
  match ws with
  | [] => Some (wp, v)
  | w :: ws => v ← stack_write_u64 wp w phys stack_base v; write_words (wp + 8) ws phys stack_base v
  end.

(** Identity of the new program as the stack records it. *)
Record exec_ids := mkIds { x_uid : Z; x_euid : Z; x_gid : Z; x_egid : Z; x_secure : bool }.

Definition auxv (elf : elf_load_result_t) (ids : exec_ids) (random_uva execfn : Z) : list Z :=
  [9; o_prog_entry elf; 3; o_phdr_va elf; 4; o_phentsize elf; 5; o_phnum elf; 6; PAGE_SIZE; 11; x_uid ids; 12; x_euid ids; 13; x_gid ids;
   14; x_egid ids; 23; if x_secure ids then 1 else 0; 25; random_uva; 7; o_interp_base elf; 31; execfn; 0; 0].

(** Everything of the stack once its pages and its mapping exist; the inner
    [None] is a full stack. *)
Definition fill_stack (stack_top stack_base : Z) (phys : list Z) (elf : elf_load_result_t) (argv : list (option (list Z))) (envp : list (list Z))
    (ids : exec_ids) (random : list Z) v : option (option Z * vmm_t A) :=
  let random_uva := stack_top - 16 in
  v ← stack_put random_uva random phys stack_base v;
  r ← push_strings (rev (Some <$> envp)) [] random_uva phys stack_base v;
  match r with
  | (None, v) => Some (None, v)
  | (Some (env_uva, sp_), v) =>
      r ← push_strings (rev argv) [] sp_ phys stack_base v;
      match r with
      | (None, v) => Some (None, v)
      | (Some (arg_uva, sp_), v) =>
          let av := auxv elf ids random_uva (if (0 <? length argv)%nat then aget 0 arg_uva 0 else 0) in
          let frame_bytes := (1 + Z.of_nat (length argv) + 1 + Z.of_nat (length envp) + 1) * 8 + 8 * Z.of_nat (length av) in
          let sp_ := clear_bits (u64 (sp_ - frame_bytes)) 15 in
          if sp_ <? stack_base then Some (None, v) else
          r ← write_words sp_ (Z.of_nat (length argv) :: arg_uva ++ [0] ++ env_uva ++ [0]) phys stack_base v;
          let '(wp, v) := r in
          v ← stack_put wp (concat (le_bytes 8 <$> av)) phys stack_base v;
          Some (Some sp_, v)
      end
  end.

(** [rand] is the result of [kern_rand64], [random] the 16 bytes for the
    program, [kmalloc_ok] that both arrays could be allocated. *)
Definition setup_user_stack (sp : space_ref) (elf : elf_load_result_t) (argv : list (option (list Z))) (envp : list (list Z)) (ids : exec_ids)
    (rand : Z) (random : list Z) (kmalloc_ok : bool) v : option (Z * vmm_t A) :=
  if (STACK_MAX_ARGS <? Z.of_nat (length argv)) || (STACK_MAX_ARGS <? Z.of_nat (length envp)) then Some (0, v) else
  let stack_top := USER_STACK_TOP - Z.shiftl (Z.land rand 0xFF) 12 in
  let stack_base := stack_top - USER_STACK_PAGES * PAGE_SIZE in
  r ← map_stack sp stack_base (Z.to_nat USER_STACK_PAGES) [] v;
  match r with
  | (None, v) => Some (0, v)
  | (Some phys, v) =>
      let '(t, rc) := vma_add (Some (table v sp)) USER_STACK_GROW_BASE (stack_top - USER_STACK_GROW_BASE) (Z.lor PROT_READ PROT_WRITE) 0 true in
      let v := set_table sp t v in
      if rc <? 0 then v ← stack_release sp stack_base phys false v; Some (0, v) else
      if negb kmalloc_ok then v ← stack_release sp stack_base phys true v; Some (0, v) else
      r ← fill_stack stack_top stack_base phys elf argv envp ids random v;
      match r with
      | (None, v) => v ← stack_release sp stack_base phys true v; Some (0, v)
      | (Some sp_, v) => Some (sp_, v)
      end
  end.

(** ** [execve]

    From the point where the file and the strings are in kernel memory.  [interp]
    is the content of the file at a path, if there is one.  The result also has
    the entry point and the stack pointer of the new program. *)

Definition mmap_base (rand : Z) : Z := 0x500000000000 + Z.shiftl (Z.land rand 0x1FF) 21.

Definition load_interp (sp : space_ref) (interp : list Z -> option (list Z)) (res : elf_load_result_t) v : option (Z * elf_load_result_t * vmm_t A) :=
  if aget 0 (o_interp res) 0 =? 0 then Some (0, res, v) else
  match interp (o_interp res) with
  | None => Some (- ENOENT, res, v)
  | Some idata =>
      r ← elf_load_into sp idata (blen idata) INTERP_BASE v;
      match r with
      | (None, v) => Some (- ENOEXEC, res, v)
      | (Some ires, v) =>
          Some (0, mkRes (o_prog_entry ires) (o_prog_entry res) (o_brk res) (o_phdr_va res) (o_phentsize res) (o_phnum res) INTERP_BASE (o_interp res), v)
      end
  end.

Definition release_old (p : mm_proc) v : vmm_t A := match p_space p with Some old => vmm_space_free cpu old v | None => v end.

Definition sys_execve (data : list Z) (interp : list Z -> option (list Z)) (argv : list (option (list Z))) (envp : list (list Z)) (ids : exec_ids)
    (rand rand' : Z) (random : list Z) (kmalloc_ok : bool) p v : option (Z * option (Z * Z) * mm_proc * vmm_t A) :=
  r ← elf_load data (blen data) v;
  match r with
  | (None, v) => Some (- ENOEXEC, None, p, v)
  | (Some (sp, res), v) =>
      r ← load_interp sp interp res v;
      let '(rc, res, v) := r in
      if rc <? 0 then Some (rc, None, p, vmm_space_free cpu sp v) else
      r ← setup_user_stack sp res argv envp ids rand random kmalloc_ok v;
      let '(rsp, v) := r in
      if rsp =? 0 then Some (- ENOMEM, None, p, vmm_space_free cpu sp v) else
      let b := PAGE_ALIGN_UP (o_brk res) in
      let v := vmm_switch sp v in
      Some (0, Some (o_entry res, rsp), mkProc (Some sp) b b (mmap_base rand') (p_pages_alloc p) (p_pages_freed p), release_old p v)
  end.

(** The first process; [slot_ok] is that [proc_alloc] found a slot. *)
Definition process_exec (data : list Z) (argv : list (option (list Z))) (envp : list (list Z)) (rand rand' : Z) (random : list Z) (kmalloc_ok slot_ok : bool) v
    : option (option (mm_proc * Z * Z) * vmm_t A) :=
  r ← elf_load data (blen data) v;
  match r with
  | (None, v) => Some (None, v)
  | (Some (sp, res), v) =>
      r ← setup_user_stack sp res argv envp (mkIds 0 0 0 0 false) rand random kmalloc_ok v;
      let '(rsp, v) := r in
      if rsp =? 0 then Some (None, vmm_space_free cpu sp v) else
      if negb slot_ok then Some (None, vmm_space_free cpu sp v) else
      let b := PAGE_ALIGN_UP (o_brk res) in
      Some (Some (mkProc (Some sp) b b (mmap_base rand') 0 0, o_entry res, rsp), vmm_switch sp v)
  end.
End exec.
