(* ===== verification/Wx.v ===== *)
(** * Writable or executable.

    The kernel refuses mappings that are writable and executable.  Here is what
    that means for the entry of a page, for the mappings of a space and for all
    spaces, and that the flags computed by the handlers of [MemSys.v] and
    [Exec.v], the copy-on-write fault and fork respect it. *)

From S2P Require Import Prelude Bits Bytes Words Bitfield Vma Lower LLFree Pmm Vmm VmmPte VmmTables MemInv Shmem VmmFork MemSys Exec.

(** ** Flags *)

(** A protection, the flags of a page and an entry that are not both writable
    and executable; a page marked copy-on-write counts as writable. *)
Definition no_wx (prot : Z) : bool := negb (has prot PROT_WRITE && has prot PROT_EXEC).
Definition flags_wx (fl : Z) : bool := negb ((has fl VMM_WRITE || has fl VMM_COW) && negb (has fl VMM_NX)).
Definition pte_wx (e : Z) : bool := negb (has e VMM_PRESENT) || flags_wx e.

Lemma has_nx e : has e VMM_NX = Z.testbit e 63.
Proof. by apply (has_bit e 63). Qed.

Lemma flags_wx_bits fl : flags_wx fl = negb ((Z.testbit fl 1 || Z.testbit fl 9) && negb (Z.testbit fl 63)).
Proof. unfold flags_wx. by rewrite has_write, has_cow, has_nx. Qed.

Lemma flags_wx_same fl fl' :
  Z.testbit fl' 1 = Z.testbit fl 1 -> Z.testbit fl' 9 = Z.testbit fl 9 -> Z.testbit fl' 63 = Z.testbit fl 63 -> flags_wx fl' = flags_wx fl.
Proof. rewrite !flags_wx_bits. by intros -> -> ->. Qed.

Lemma make_pte_nx a fl : is_page a -> Z.testbit (make_pte a fl) 63 = Z.testbit fl 63.
Proof. intros Ha. rewrite make_pte_testbit by (done || lia). cbn. by rewrite andb_true_r. Qed.

Lemma make_pte_wx a fl : is_page a -> flags_wx fl = true -> pte_wx (make_pte a fl) = true.
Proof.
  intros Ha Hf. unfold pte_wx. apply orb_true_iff. right. rewrite <-Hf. apply flags_wx_same; [apply make_pte_flag..|apply make_pte_nx]; done || lia.
Qed.

Lemma mask_wx e : flags_wx (Z.land e PTE_FLAGS_MASK) = flags_wx e.
Proof. apply flags_wx_same; rewrite Z.land_spec, flags_mask_testbit by lia; cbn; by rewrite andb_true_r. Qed.

Lemma pte_wx_flags e : has e VMM_PRESENT = true -> pte_wx e = true -> flags_wx e = true.
Proof. unfold pte_wx. by intros ->. Qed.

Lemma zero_wx : pte_wx 0 = true.
Proof. done. Qed.

(** The copy-on-write fault makes writable only what counts as writable. *)
Lemma cow_flags_wx e : has e VMM_COW = true -> flags_wx e = true -> flags_wx (cow_flags e) = true.
Proof.
  rewrite !flags_wx_bits, has_cow. intros -> Hf. rewrite orb_true_r, andb_true_l, negb_involutive in Hf.
  assert (H63 : Z.testbit (cow_flags e) 63 = true).
  { unfold cow_flags, clear_bits. rewrite !Z.land_spec, Z.lor_spec, Z.land_spec, flags_mask_testbit, Hf by lia. done. }
  by rewrite H63, andb_false_r.
Qed.

Lemma child_flags_wx e mf : flags_wx e = true -> flags_wx (child_flags e mf) = true.
Proof.
  intros Hf. unfold child_flags. destruct (private_write e mf) eqn:Hw; [|by rewrite mask_wx].
  unfold private_write in Hw. apply andb_true_iff in Hw as [Hw _]. rewrite <-mask_wx in Hf. set (f := Z.land e PTE_FLAGS_MASK) in *.
  unfold flags_wx in Hf. rewrite Hw, orb_true_l, andb_true_l, negb_involutive, has_nx in Hf.
  assert (H63 : Z.testbit (Z.lor (clear_bits f VMM_WRITE) VMM_COW) 63 = true).
  { unfold clear_bits. rewrite Z.lor_spec, !Z.land_spec, Hf. done. }
  by rewrite flags_wx_bits, H63, andb_false_r.
Qed.

(** ** Protections *)

Lemma prot_valid_wx prot : prot_valid prot = true -> no_wx prot = true.
Proof.
  unfold prot_valid, no_wx. destruct (has prot _); [done|]. intros H%negb_true_iff%Z.eqb_neq. apply negb_true_iff, not_true_iff_false. intros [Hw Hx]%andb_true_iff.
  apply H. apply Z.bits_inj'. intros i Hi. change PROT_WRITE with (2 ^ 1) in *. change PROT_EXEC with (2 ^ 2) in *. rewrite has_bit in Hw, Hx by lia.
  rewrite Z.land_spec, Z.lor_spec. destruct (decide (i = 1)) as [->|H1]; [by rewrite Hw|]. destruct (decide (i = 2)) as [->|H2]; [by rewrite Hx|].
  rewrite !Z.pow2_bits_false by lia. by rewrite andb_false_r.
Qed.

Lemma no_wx_u32 prot : no_wx (u32 prot) = no_wx prot.
Proof.
  unfold no_wx. change PROT_WRITE with (2 ^ 1). change PROT_EXEC with (2 ^ 2). rewrite !has_bit by lia. unfold u32. by rewrite !Z.mod_pow2_bits_low by lia.
Qed.

Lemma mmap_page_flags_wx prot : no_wx prot = true -> flags_wx (mmap_page_flags prot) = true.
Proof. unfold no_wx, mmap_page_flags. by destruct (has prot PROT_WRITE), (has prot PROT_EXEC). Qed.

Lemma prot_page_flags_wx prot : no_wx prot = true -> flags_wx (prot_page_flags prot) = true.
Proof. unfold no_wx, prot_page_flags. by destruct (has prot PROT_WRITE), (has prot PROT_EXEC). Qed.

Lemma elf_prot_wx fl : (Z.land fl (Z.lor PF_W PF_X) =? Z.lor PF_W PF_X) = false -> no_wx (elf_prot fl) = true /\ flags_wx (elf_page_flags fl) = true.
Proof.
  intros H%Z.eqb_neq. assert (Hwx : has fl PF_W && has fl PF_X = false).
  { apply not_true_iff_false. intros [Hw Hx]%andb_true_iff. apply H. apply Z.bits_inj'. intros i Hi. change PF_W with (2 ^ 1) in *. change PF_X with (2 ^ 0) in *.
    rewrite has_bit in Hw, Hx by lia. rewrite Z.land_spec, Z.lor_spec. destruct (decide (i = 1)) as [->|H1]; [by rewrite Hw|].
    destruct (decide (i = 0)) as [->|H2]; [by rewrite Hx|]. rewrite !Z.pow2_bits_false by lia. by rewrite andb_false_r. }
  unfold elf_prot, elf_page_flags. destruct (has fl PF_R), (has fl PF_W), (has fl PF_X); done.
Qed.

(** ** Mappings *)

Definition prots_wx (t : vma_table) : Prop := forall a pr mf o, vma_view t a = Some (pr, mf, o) -> no_wx pr = true.

Lemma prots_wx_sub t t' : prots_wx t -> (forall a, vma_view t' a = None \/ vma_view t' a = vma_view t a) -> prots_wx t'.
Proof. intros H Hs a pr mf o Ha. destruct (Hs a) as [He|He]; rewrite He in Ha; [done|by eapply H]. Qed.

Lemma prots_wx_add t t' (c : Z -> bool) pr mf o :
  prots_wx t -> no_wx pr = true -> (forall a, vma_view t' a = if c a then Some (pr, mf, o) else vma_view t a) -> prots_wx t'.
Proof. intros H Hp Hv a pr' mf' o' Ha. rewrite Hv in Ha. destruct (c a); [by simplify_eq|by eapply H]. Qed.

Lemma prots_wx_protect t t' p : prots_wx t -> no_wx p = true -> (forall a, partly_protected p (vma_view t a) (vma_view t' a)) -> prots_wx t'.
Proof.
  intros H Hp Hv a pr mf o Ha. destruct (Hv a) as [He|[He|He]]; rewrite He in Ha; [done|by eapply H|].
  destruct (vma_view t a) as [[[pr' mf'] o']|]; [|done]. by injection Ha as <- <- <-.
Qed.

Lemma vma_page_flags_wx t a : prots_wx t -> flags_wx (vma_page_flags t a) = true.
Proof.
  intros H. specialize (H a). unfold vma_view, vma_page_flags in *. destruct (containing t a) as [i|]; [|done]. cbv zeta. specialize (H _ _ _ eq_refl).
  unfold no_wx in H. change (ztrue (Z.land ?x ?y)) with (has x y). by destruct (has (prot (vma_at t i)) PROT_WRITE), (has (prot (vma_at t i)) PROT_EXEC).
Qed.

(** ** All spaces *)

Section spaces.
Context `{FA : FrameAllocator A} (R : list Z).
Implicit Type s : pmm_t A.

Definition wx s : Prop := forall r va, r ∈ R -> 0 <= va < USER_LIMIT -> pte_wx (vmm_leaf_pte s r va) = true.

Lemma wx_leaves s s' : wx s -> same_leaves R s s' -> wx s'.
Proof. intros H Hl r va Hr Hva. rewrite Hl by done. by apply H. Qed.

Lemma wx_others s s' r va : wx s -> others_same R s s' r va -> 0 <= va < USER_LIMIT -> pte_wx (vmm_leaf_pte s' r va) = true -> wx s'.
Proof.
  intros H Ho Hva He r' va' Hr' Hva'. destruct (decide (r' = r)) as [->|Hne]; [|rewrite Ho by (done || by left); by apply H].
  destruct (decide (va' / 4096 = va / 4096)) as [Heq|Hne]; [|rewrite Ho by (done || by right); by apply H]. by rewrite (leaf_same_page _ r va' va Heq).
Qed.

Lemma wx_changes s s' r va : wx s -> changes R s s' r va -> 0 <= va < USER_LIMIT -> pte_wx (vmm_leaf_pte s' r va) = true -> wx s'.
Proof. intros H Hc. apply (wx_others s s' r va H), Hc. Qed.

Lemma wx_cow cpu X s r va :
  mem_inv R X s -> (cpu < MAX_CPUS)%nat -> r ∈ R -> 0 <= va < USER_LIMIT -> wx s -> wx (vmm_handle_cow_fault cpu r va s).2.
Proof.
  intros H Hcpu Hr Hva Hwx. unfold vmm_handle_cow_fault. cbv zeta.
  destruct (page_mask_page va Hva) as [Hpg Hpr]. destruct (has (vmm_leaf_pte s r (Z.land va PAGE_MASK)) VMM_PRESENT) eqn:Hp; [|done].
  destruct (has (vmm_leaf_pte s r (Z.land va PAGE_MASK)) VMM_COW) eqn:Hc; [|done].
  rewrite (leaf_same_page s r _ va Hpg) in Hp, Hc. destruct (mi_data_page R X s r va H Hr Hva Hp) as (f & Hpe & Hlf & Hnt).
  pose proof (cow_fault_ok R cpu s r va f (mi_tables _ _ _ H) Hcpu Hr Hva Hp Hc Hpe Hlf Hnt) as Hok. unfold vmm_handle_cow_fault in Hok. cbv zeta in Hok.
  rewrite (leaf_same_page s r _ va Hpg), Hp, Hc in *. cbn [negb orb] in *.
  match goal with |- wx (snd ?x) => destruct x as [res s'] end. cbn [snd]. destruct Hok as (H1 & Hsm & H2 & _ & Hcase).
  apply (wx_others s s' r va); try done. destruct Hcase as [[_ [g Hg]]|(_ & -> & _)]; [|by apply Hwx]. destruct Hg as [Hl Ha _ _ _]. rewrite Hl.
  apply make_pte_wx; [|by apply cow_flags_wx, pte_wx_flags; [..|apply Hwx]].
  rewrite <-(same_page s s' g Hsm). apply (page_is_page s' g (tb_inv R s' H1)). lia.
Qed.

(** Fork, complete or not. *)
Lemma wx_fork src dst X vmas s0 s n :
  src ∈ R -> mem_inv R X s0 -> fork_inv R src dst X vmas s0 s n -> wx s0 -> wx s.
Proof.
  intros Hsrc H0 Hf Hwx r va Hr Hva. destruct (range_page va Hva) as [Hn Hd].
  assert (Hlf : vmm_leaf_pte s r va = vmm_leaf_pte s r (4096 * (va / 4096))) by (by apply leaf_same_page).
  destruct (decide (r = src \/ r = dst)) as [Hrr|Hrr]; [|rewrite (fi_other _ _ _ _ _ _ _ _ Hf); [by apply Hwx|done|done|tauto|tauto]].
  rewrite Hlf. set (m := va / 4096) in *. destruct (page_range m Hn) as [Hvm _].
  pose proof (Hwx src (4096 * m) Hsrc Hvm) as He. destruct (Z.le_gt_cases n m) as [Hge|Hlt].
  - destruct (fi_todo _ _ _ _ _ _ _ _ Hf m ltac:(lia)) as [H1 H2]. destruct Hrr as [-> | ->]; [by rewrite H1|by rewrite H2].
  - pose proof (fi_done _ _ _ _ _ _ _ _ Hf m ltac:(lia)) as Hpf. unfold page_forked in Hpf. cbv zeta in Hpf.
    set (e := vmm_leaf_pte s0 src (4096 * m)) in *. destruct (has e VMM_PRESENT) eqn:Hp; [|destruct Hpf as [H1 H2]; destruct Hrr as [-> | ->]; by rewrite ?H1, ?H2].
    pose proof (pte_wx_flags e Hp He) as Hfl. destruct Hpf as (g & Hl & _ & _ & Hcase).
    destruct (mi_data_page R X s0 src _ H0 Hsrc Hvm Hp) as (f & Hpe & Hlv & _). fold e in Hpe.
    assert (Hpp : is_page (pte_addr e)) by (rewrite Hpe; by eapply mi_page_nz).
    destruct Hcase as [[H1 H2 _]|[_ (mf & _ & H2 & H1)]].
    + destruct Hrr as [-> | ->]; [by rewrite H1|]. rewrite H2. apply make_pte_wx; [|by rewrite mask_wx].
      rewrite <-(same_page s0 s g) by apply Hf. apply (page_is_page s g); [apply (tb_inv R s), (mi_tables R X s), Hf|done].
    + destruct Hrr as [-> | ->]; [rewrite H1; destruct (private_write e mf); [|done]|rewrite H2]; apply make_pte_wx; try done; by apply child_flags_wx.
Qed.
End spaces.
