(* ===== verification/MemSafe.v ===== *)
(** * Memory safety of the system calls.

    Every handler of [MemSys.v] ends and keeps the invariant of [MemInv.v]: each
    mapped page is a frame in use that is no page table, with a reference for
    each mapping.  So no sequence of system calls, faults, forks and exits gives
    a frame back while some address space still maps it, and no process keeps
    an address space that was released. *)

From S2P Require Import Prelude Bits Bytes Words Bitfield Vma Lower LLFree Pmm Vmm VmmPte VmmTables MemInv Shmem VmmFork SpaceFree VmmSpaces MemSys Exec Wx.

(** ** The pages of a range *)

Lemma page_offsets_spec len o : o ∈ page_offsets len -> 0 <= o < Z.max 0 len /\ o mod 4096 = 0.
Proof.
  intros (i & -> & Hi%elem_of_seqZ)%list_elem_of_fmap. unfold PAGE_SIZE in *.
  assert (4096 * ((len + 4096 - 1) / 4096) <= len + 4095) by (pose proof (Z.mul_div_le (len + 4096 - 1) 4096 ltac:(lia)); lia).
  rewrite Z.mul_comm, Z.mod_mul by lia. lia.
Qed.

Lemma range_ok_bounds addr len : is_u64 addr -> is_u64 len -> user_map_range_ok addr len = true -> 0 < len /\ addr + len <= USER_LIMIT.
Proof.
  unfold user_map_range_ok, is_u64. intros Ha Hl. destruct (_ || _) eqn:H1; [done|]. destruct ((USER_LIMIT <=? addr) || _) eqn:H2; [done|].
  intros _. apply orb_false_iff in H1 as [H1 _]. apply orb_false_iff in H2 as [_ H2]. apply Z.eqb_neq in H1. apply Z.ltb_ge in H2. lia.
Qed.

Lemma align_up_u64 x : is_u64 x -> x <= U64_MAX - (PAGE_SIZE - 1) -> is_u64 (PAGE_ALIGN_UP x) /\ x <= PAGE_ALIGN_UP x < x + 4096.
Proof.
  unfold is_u64, U64_MAX, PAGE_SIZE. intros H Hx. destruct (page_align_up x) as (r & -> & Hr & Hm); [lia|lia|].
  assert (x + r < 2 ^ 64 -> is_u64 (x + r)) by (unfold is_u64; lia). unfold is_u64 in *. enough (x + r < 2 ^ 64) by lia. lia.
Qed.

Lemma align_up_is_u64 x : is_u64 (PAGE_ALIGN_UP x).
Proof. apply clear_bits_is_u64. Qed.

Definition user_addr (a : Z) : Prop := 0 <= a < USER_LIMIT.

Lemma range_pages addr len :
  is_u64 addr -> is_u64 len -> user_map_range_ok addr len = true -> Forall (fun o => 0 <= o < len /\ user_addr (u64 (addr + o))) (page_offsets len).
Proof.
  intros Ha Hl H. pose proof (range_ok_bounds addr len Ha Hl H). apply Forall_forall. intros o Ho%page_offsets_spec. unfold user_addr, is_u64, USER_LIMIT in *.
  rewrite u64_small by (unfold is_u64; lia). lia.
Qed.

Lemma owned_mapped t va : vma_page_mapped t va = false -> vma_page_owned t va = false.
Proof. unfold vma_page_mapped, vma_page_owned. by destruct (containing t va). Qed.

Lemma range_ok_total t s len : vma_wf t -> is_u64 s -> is_u64 len -> exists b, vma_range_ok (Some t) s len = Some b.
Proof.
  intros Hwf Hs Hl. unfold vma_range_ok. rewrite (range_end_spec s len Hs Hl). unfold is_u64 in *. destruct ((0 <? len) && (s + len <? 2 ^ 64)) eqn:Hok; [|by exists false].
  apply andb_true_iff in Hok as [H1%Z.ltb_lt H2%Z.ltb_lt].
  destruct (range_ok_loop_spec (loop_fuel t) t s (s + len)) as (b & -> & _); [done|unfold loop_fuel; lia|intros; apply fuel_enough|by exists b].
Qed.

(** What the handlers assume of a process, and keep. *)
Definition proc_ok (p : mm_proc) : Prop := 0 <= p_brk_base p /\ 0 <= p_brk p <= USER_LIMIT.

(** The end of the heap, rounded up, is a user address or the end of user space. *)
Lemma brk_end x : 0 <= x <= USER_LIMIT -> x <= PAGE_ALIGN_UP x <= USER_LIMIT.
Proof.
  unfold USER_LIMIT, PAGE_SIZE. intros H. destruct (page_align_up x) as (r & -> & Hr & Hm); [lia|lia|].
  pose proof (Z.div_mod (x + r) 4096 ltac:(lia)). lia.
Qed.

Lemma pages_from_user from to : 0 <= from -> to <= USER_LIMIT -> Forall user_addr (pages_from from to).
Proof.
  intros Hf Ht. apply Forall_forall. intros va (o & -> & Ho%page_offsets_spec)%list_elem_of_fmap. unfold user_addr. lia.
Qed.

Section safe.
Context `{FA : FrameAllocator A}.
Context (cpu : nat) (Hcpu : (cpu < MAX_CPUS)%nat).
Implicit Type v : vmm_t A.

(** ** What a handler on one space may change *)

Record same_spaces (slot : nat) v0 v : Prop := {
  ss_other sp : sp <> PoolSpace slot -> space v sp = space v0 sp;
  ss_root : root v (PoolSpace slot) = root v0 (PoolSpace slot);
  ss_count : refcount (space v (PoolSpace slot)) = refcount (space v0 (PoolSpace slot));
  ss_accessors : user_accessors (space v (PoolSpace slot)) = user_accessors (space v0 (PoolSpace slot));
  ss_used : g_pool_used v = g_pool_used v0;
  ss_pool : length (g_pool v) = length (g_pool v0);
  ss_mem : same_memory (pm v0) (pm v);
}.

Section one.
Context (R : list Z) (slot : nat) (v0 : vmm_t A).
Context (HR : root v0 (PoolSpace slot) ∈ R) (Hslot : (slot < length (g_pool v0))%nat).
Abbreviation sp := (PoolSpace slot).

Record st (X : list Z) v : Prop := {
  st_inv : mem_inv R X (pm v);
  st_wf : vma_wf (table v sp);
  st_wx : wx R (pm v);
  st_prots : prots_wx (table v sp);
  st_same : same_spaces slot v0 v;
}.

Lemma st_root X v : st X v -> root v sp ∈ R.
Proof. intros H. by rewrite (ss_root _ _ _ (st_same _ _ H)). Qed.

Lemma st_set_pm X X' v m : st X v -> mem_inv R X' m -> wx R m -> same_memory (pm v) m -> st X' (set_pm m v).
Proof. intros [H1 H2 H3 H4 H5] Hm Hw Hs. split; [done|done|done|done|]. destruct H5. split; try done. by eapply same_memory_trans. Qed.

(** Changing fields of the space other than its root and its count. *)
Lemma st_set_space X v x :
  st X v -> vma_wf (vmas x) -> prots_wx (vmas x) -> pml4_phys x = root v sp -> refcount x = refcount (space v sp) -> user_accessors x = user_accessors (space v sp) ->
  st X (set_space sp x v).
Proof.
  intros [H1 H2 Hw _ H3] Hwf Hpr Hrt Hrc Hua. assert (Hlen : (slot < length (g_pool v))%nat) by by rewrite (ss_pool _ _ _ H3).
  assert (Hx : space (set_space sp x v) sp = x) by (unfold set_space, space, aget; cbn [g_pool]; by rewrite list_lookup_insert_eq).
  split; [done|unfold table; by rewrite Hx|done|unfold table; by rewrite Hx|]. split; try (unfold root; rewrite Hx).
  - intros sp' Hne. rewrite <-(ss_other _ _ _ H3 sp' Hne). destruct sp' as [|i]; [done|]. unfold set_space, space, aget. cbn [g_pool].
    rewrite list_lookup_insert_ne; [done|congruence].
  - rewrite Hrt. apply H3.
  - rewrite Hrc. apply H3.
  - rewrite Hua. apply H3.
  - apply H3.
  - cbn. rewrite length_insert. apply H3.
  - apply H3.
Qed.

Lemma st_set_table X v t : st X v -> vma_wf t -> prots_wx t -> st X (set_table sp (Some t) v).
Proof. intros H Ht Hp. by apply st_set_space. Qed.

Lemma st_free X v f : st (f :: X) v -> st X (free_page cpu (page (pm v) f) v).
Proof.
  intros H. apply (st_set_pm (f :: X)); [done| | |by apply (free_inv R X cpu (pm v) f); [apply H|]].
  - by apply (free_inv R X cpu (pm v) f); [apply H|].
  - apply (wx_leaves R (pm v)); [apply H|]. apply mem_leaves, pmm_free_mem.
Qed.

Lemma st_unmap X v va :
  st X v -> 0 <= va < USER_LIMIT ->
  st X (unmap_page sp va v) /\ (forall va', user_addr va' -> va' / 4096 <> va / 4096 -> phys_at sp va' (unmap_page sp va v) = phys_at sp va' v) /\
  (phys_at sp va v = 0 \/ exists f, phys_at sp va v = page (pm v) f /\ phys_at sp va v <> 0 /\ st (f :: X) (unmap_page sp va v)) /\
  (forall f, page (pm (unmap_page sp va v)) f = page (pm v) f).
Proof.
  intros H Hva. destruct (unmap_inv R X (pm v) (root v sp) va (st_inv _ _ H) (st_root _ _ H) Hva) as (Hch & Hl & H1 & H2). cbv zeta in *.
  assert (Hw : wx R (vmm_unmap (root v sp) va (pm v))) by (apply (wx_changes R (pm v) _ (root v sp) va); [apply H|done|done|by rewrite Hl]).
  split; [by apply (st_set_pm X); [..|apply Hch]|]. split; [|split; [|intros f; apply same_page, Hch]].
  { intros va' Hva' Hne. unfold phys_at, unmap_page. change (root (set_pm _ v) sp) with (root v sp). cbn [set_pm pm].
    rewrite !virt_to_phys_leaf, (ch_others _ _ _ _ _ Hch) by (done || apply (st_root X v H) || by right). done. }
  destruct H2 as [H2|(f & Hf & Hnz & H2)]; [by left|right]. exists f. split; [done|]. split; [done|]. by apply (st_set_pm X); [..|apply Hch].
Qed.

(** Unmapping a page and giving its frame back. *)
Lemma st_unmap_free X v va :
  st X v -> 0 <= va < USER_LIMIT -> st X (if phys_at sp va v =? 0 then unmap_page sp va v else free_page cpu (phys_at sp va v) (unmap_page sp va v)).
Proof.
  intros H Hva. destruct (st_unmap X v va H Hva) as (H1 & _ & [H2|(f & Hf & Hnz & H2)] & Hpg).
  - by rewrite H2.
  - rewrite (proj2 (Z.eqb_neq _ _) Hnz), Hf, <-Hpg. by apply st_free.
Qed.

Lemma vmm_map_pool va ph fl v :
  vmm_map cpu sp va ph fl v = let '(ok, m) := map_page cpu (root v sp) va ph fl (pm v) in (if ok then 0 else -1, set_pm m v).
Proof. unfold vmm_map, root. cbn [is_kernel andb]. by destruct (map_page _ _ _ _ _ _) as [[] m]. Qed.

(** The same translation of user pages. *)
Definition same_phys v v' : Prop := forall va, user_addr va -> phys_at sp va v' = phys_at sp va v.

Lemma same_phys_trans v1 v2 v3 : same_phys v1 v2 -> same_phys v2 v3 -> same_phys v1 v3.
Proof. intros H1 H2 va Hva. by rewrite H2, H1. Qed.

Lemma same_phys_leaves X X' v v' : st X v -> st X' v' -> same_leaves R (pm v) (pm v') -> same_phys v v'.
Proof.
  intros H H' Hl va Hva. unfold phys_at. rewrite !virt_to_phys_leaf. rewrite (ss_root _ _ _ (st_same _ _ H)), (ss_root _ _ _ (st_same _ _ H')).
  by rewrite Hl.
Qed.

(** Mapping a page the kernel holds a reference to. *)
Lemma st_map X v va f fl :
  st (f :: X) v -> 0 <= va < USER_LIMIT -> flags_wx fl = true ->
  let '(rc, v') := vmm_map cpu sp va (page (pm v) f) fl v in
  page (pm v') f = page (pm v) f /\
  if rc <? 0 then st (f :: X) v' /\ same_leaves R (pm v) (pm v')
  else rc = 0 /\ st X v' /\ 0 < live (pm v') f /\ ~ is_table R (pm v') (page (pm v') f) /\
    phys_at sp va v' = page (pm v) f /\ (forall va', user_addr va' -> va' / 4096 <> va / 4096 -> phys_at sp va' v' = phys_at sp va' v).
Proof.
  intros H Hva Hfl. rewrite vmm_map_pool. pose proof (st_inv _ _ H) as Hm. assert (Hl : 0 < live (pm v) f) by (eapply mi_spare_live; [exact Hm|left]).
  destruct (mi_page_nz R _ (pm v) f Hm Hl) as [Hpp Hnz]. pose proof (map_inv R X cpu (pm v) (root v sp) va f fl Hm (st_root _ _ H) Hva) as Hmap.
  destruct (map_page cpu (root v sp) va _ fl (pm v)) as [ok m']. destruct Hmap as (Hm' & Hch & Hleaf). assert (Hpg : page m' f = page (pm v) f) by apply same_page, Hch.
  split; [done|]. destruct ok; cbn [Z.ltb Z.compare].
  - destruct Hleaf as [_ Hleaf]. assert (Hw' : wx R m') by (apply (wx_changes R (pm v) m' (root v sp) va); try done; [apply H|rewrite Hleaf; by apply make_pte_wx]).
    assert (Hp : has (vmm_leaf_pte m' (root v sp) va) VMM_PRESENT = true) by (rewrite Hleaf; by apply make_pte_present).
    destruct (mi_data_page R X m' _ va Hm' (st_root _ _ H) Hva Hp) as (g & Hg1 & Hg2 & Hg3). rewrite Hleaf, make_pte_addr, <-Hpg in Hg1 by done. apply page_inj in Hg1 as <-.
    split; [done|]. split; [by apply (st_set_pm (f :: X) X v m' H); [..|apply Hch]|]. split; [done|]. split; [done|].
    unfold phys_at. change (root (set_pm m' v) sp) with (root v sp). cbn [set_pm pm]. split; [rewrite virt_to_phys_leaf, Hp, Hleaf; by apply make_pte_addr|].
    intros va' Hva' Hne. rewrite !virt_to_phys_leaf, (ch_others _ _ _ _ _ Hch) by (done || apply (st_root _ v H) || by right). done.
  - assert (Hlv : same_leaves R (pm v) m') by by eapply changes_leaves. split; [|done]. apply (st_set_pm (f :: X) (f :: X) v m' H); [done| |apply Hch]. by apply (wx_leaves R (pm v)); [apply H|].
Qed.

Lemma st_alloc X v :
  st X v ->
  match pmm_alloc_zeroed cpu (pm v) with
  | (None, m) => st X (set_pm m v) /\ same_leaves R (pm v) m
  | (Some ph, m) => exists f, ph = page m f /\ st (f :: X) (set_pm m v) /\ same_leaves R (pm v) m
  end.
Proof.
  intros H. pose proof (alloc_zeroed_inv R X cpu (pm v) (st_inv _ _ H)) as Hz.
  destruct (pmm_alloc_zeroed cpu (pm v)) as [[ph|] m].
  - destruct Hz as (f & -> & _ & Hm & Hg & _). pose proof (grows_leaves R (pm v) m Hg) as Hl. exists f. split; [symmetry; apply same_page, Hg|]. split; [|done].
    apply (st_set_pm X (f :: X) v m H Hm); [by apply (wx_leaves R (pm v)); [apply H|]|apply Hg].
  - destruct Hz as [Hm Hg]. pose proof (grows_leaves R (pm v) m Hg) as Hl. split; [|done]. apply (st_set_pm X X v m H Hm); [by apply (wx_leaves R (pm v)); [apply H|]|apply Hg].
Qed.

(** Allocating and mapping a page, with what is done if one of the two fails. *)
Lemma st_map_new X v va fl :
  st X v -> 0 <= va < USER_LIMIT -> flags_wx fl = true ->
  match pmm_alloc_zeroed cpu (pm v) with
  | (None, m) => st X (set_pm m v)
  | (Some ph, m) =>
      let '(rc, v') := vmm_map cpu sp va ph fl (set_pm m v) in
      if rc <? 0 then st X (free_page cpu ph v')
      else rc = 0 /\ st X v' /\ (exists f, ph = page (pm v') f /\ 0 < live (pm v') f /\ ~ is_table R (pm v') ph) /\
        phys_at sp va v' = ph /\ (forall va', user_addr va' -> va' / 4096 <> va / 4096 -> phys_at sp va' v' = phys_at sp va' v)
  end.
Proof.
  intros H Hva Hfl. pose proof (st_alloc X v H) as Ha. destruct (pmm_alloc_zeroed cpu (pm v)) as [[ph|] m]; [|apply Ha].
  destruct Ha as (f & -> & H1 & Hl). pose proof (st_map X _ va f fl H1 Hva Hfl) as Hm. change (pm (set_pm m v)) with m in Hm. destruct (vmm_map cpu sp va _ fl _) as [rc v'].
  destruct Hm as [Hpg Hm]. rewrite <-Hpg. destruct (rc <? 0); [apply st_free, Hm|]. destruct Hm as (-> & H2 & H3 & H4 & H5 & H6). split_and!; try done; [by exists f|congruence|].
  intros va' Hva' Hne. rewrite H6 by done. by apply (same_phys_leaves X (f :: X)).
Qed.

(** If a page could not be allocated or mapped, all others are as before. *)
Lemma map_new_failed X v va fl :
  st X v -> 0 <= va < USER_LIMIT -> flags_wx fl = true ->
  match pmm_alloc_zeroed cpu (pm v) with
  | (None, m) => same_phys v (set_pm m v)
  | (Some ph, m) => let '(rc, v') := vmm_map cpu sp va ph fl (set_pm m v) in rc < 0 -> same_phys v (free_page cpu ph v')
  end.
Proof.
  intros H Hva Hfl. pose proof (st_map_new X v va fl H Hva Hfl) as Hn. pose proof (st_alloc X v H) as Ha.
  destruct (pmm_alloc_zeroed cpu (pm v)) as [[ph|] m]; [|by eapply same_phys_leaves; [..|apply Ha]].
  destruct Ha as (f & -> & H1 & Hl). pose proof (st_map X _ va f fl H1 Hva Hfl) as Hm. change (pm (set_pm m v)) with m in Hm. destruct (vmm_map cpu sp va _ fl _) as [rc v'].
  intros Hrc%Z.ltb_lt. rewrite Hrc in Hn, Hm. destruct Hm as (_ & _ & Hl2). eapply same_phys_leaves; [exact H|exact Hn|].
  eapply same_leaves_trans; [exact Hl|]. eapply same_leaves_trans; [exact Hl2|]. apply mem_leaves, pmm_free_mem.
Qed.

(** Writing to a page just mapped. *)
Lemma st_write X v f m :
  st X v -> 0 < live (pm v) f -> ~ is_table R (pm v) (page (pm v) f) ->
  (forall a, ~ (page (pm v) f <= a < page (pm v) f + PAGE_SIZE) -> m a = mem (pm v) a) -> st X (set_pm (set_mem m (pm v)) v).
Proof.
  intros H Hl Hnt Hm. apply (st_set_pm X); [done| | |done]; [by apply (write_data_inv R X (pm v) f m (st_inv _ _ H))|].
  apply (wx_leaves R (pm v)); [apply H|]. by eapply write_data_leaves; [apply H|..].
Qed.

(** ** Loops over pages *)

Lemma st_brk_free l : forall X v, st X v -> Forall user_addr l -> st X (brk_free_pages cpu sp l v).
Proof.
  induction l as [|va l IH]; intros X v H Hl; [done|]. apply Forall_cons in Hl as [Hva Hl]. cbn. apply IH; [|done].
  by apply st_unmap_free.
Qed.

Lemma st_brk_map todo : forall dn X v,
  st X v -> Forall user_addr dn -> Forall user_addr todo -> st X (brk_map_pages cpu sp dn todo v).2.
Proof.
  induction todo as [|va todo IH]; intros dn X v H Hd Ht; [done|]. apply Forall_cons in Ht as [Hva Ht]. cbn [brk_map_pages].
  pose proof (st_map_new X v va VMM_UDATA H Hva eq_refl) as Hn. destruct (pmm_alloc_zeroed cpu (pm v)) as [[ph|] m]; [|by apply st_brk_free].
  destruct (vmm_map cpu sp va ph VMM_UDATA (set_pm m v)) as [rc v']. destruct (rc <? 0); [by apply st_brk_free|].
  destruct Hn as (_ & Hn & _). apply IH; [done| |done]. apply Forall_app. by split; [|apply Forall_singleton].
Qed.

Lemma st_unmap_owned X v va n : st X v -> 0 <= va < USER_LIMIT -> st X (unmap_owned_page cpu sp va (n, v)).2.
Proof.
  intros H Hva. unfold unmap_owned_page. cbn. destruct (vma_page_mapped (table v sp) va) eqn:Hm.
  - pose proof (st_unmap_free X v va H Hva) as H1. destruct (vma_page_owned _ va); cbn; [|by apply st_unmap].
    by destruct (phys_at sp va v =? 0).
  - by rewrite (owned_mapped _ _ Hm).
Qed.

Lemma st_unmap_range addr l : forall X v n,
  st X v -> Forall (fun o => user_addr (u64 (addr + o))) l -> st X (foldl (fun c o => unmap_owned_page cpu sp (u64 (addr + o)) c) (n, v) l).2.
Proof.
  induction l as [|va l IH]; intros X v n H Hl; [done|]. apply Forall_cons in Hl as [Hva Hl]. cbn [foldl].
  pose proof (st_unmap_owned X v _ n H Hva) as H1. destruct (unmap_owned_page cpu sp _ (n, v)) as [n' v']. by apply IH.
Qed.

(** ** Results of the handlers *)

(** The process keeps its space, and the bounds of its heap. *)
Definition kept p p' : Prop := p_space p' = p_space p /\ (proc_ok p -> proc_ok p').

Lemma kept_refl p : kept p p.
Proof. done. Qed.
Lemma kept_trans p q r : kept p q -> kept q r -> kept p r.
Proof. intros [H1 H2] [H3 H4]. split; [congruence|tauto]. Qed.

Definition fine X p (r : option (Z * mm_proc * vmm_t A)) : Prop := match r with Some (_, p', v') => st X v' /\ kept p p' | None => False end.

Lemma st_unmap_owned_pages X p v addr len :
  st X v -> Forall (fun o => user_addr (u64 (addr + o))) (page_offsets len) -> let '(p', v') := unmap_owned_pages cpu sp addr len p v in st X v' /\ kept p p'.
Proof.
  intros H Hl. unfold unmap_owned_pages. pose proof (st_unmap_range addr (page_offsets len) X v 0 H Hl) as H1. by destruct (foldl _ _ _).
Qed.

Lemma st_vma_remove X v s len :
  st X v -> is_u64 s -> is_u64 len -> exists t rc, vma_remove (Some (table v sp)) s len = Some (t, rc) /\ st X (set_table sp t v).
Proof.
  intros H Hs Hl. destruct (vma_remove_ok (table v sp) s len (st_wf _ _ H) Hs Hl) as (t & rc & -> & _ & Ht). exists (Some t), rc. split; [done|].
  destruct Ht as [(_ & Ht & _ & Hv)|[_ ->]]; [|apply st_set_table; [done|apply H|apply H]]. apply st_set_table; [done|done|].
  apply (prots_wx_sub (table v sp)); [apply H|]. intros a. rewrite Hv. destruct (in_range _ _ _); [by left|by right].
Qed.

Lemma st_vma_add X v s len prot mf fou :
  st X v -> is_u64 s -> is_u64 len -> no_wx prot = true -> let '(t, rc) := vma_add (Some (table v sp)) s len prot mf fou in st X (set_table sp t v).
Proof.
  intros H Hs Hl Hp. destruct (vma_add_ok (table v sp) s len prot mf fou (st_wf _ _ H) Hs Hl) as (t & rc & -> & _ & Ht).
  destruct Ht as [(_ & Ht & Hv)|[(_ & -> & _)|(_ & -> & _)]]; [|apply st_set_table; [done|apply H|apply H]..]. apply st_set_table; [done|done|].
  by apply (prots_wx_add (table v sp) t (in_range s len) prot mf fou); [apply H| |].
Qed.

Lemma st_vma_remove_overlaps X v s len :
  st X v -> is_u64 s -> is_u64 len -> 0 < len -> s + len < 2 ^ 64 -> let '(t, rc) := vma_remove_overlaps (Some (table v sp)) s len in st X (set_table sp t v).
Proof.
  intros H Hs Hl Hp Hm. destruct (vma_remove_overlaps_correct (table v sp) s len (st_wf _ _ H) Hs Hl Hp Hm) as (t & rc & -> & _ & _ & Ht).
  destruct Ht as [(_ & Ht & Hv)|[_ ->]]; [|apply st_set_table; [done|apply H|apply H]]. apply st_set_table; [done|done|].
  apply (prots_wx_sub (table v sp)); [apply H|]. intros a. rewrite Hv. destruct (in_range _ _ _); [by left|by right].
Qed.

Lemma st_rollback X p v addr mapped len :
  st X v -> is_u64 addr -> is_u64 len -> user_map_range_ok addr len = true -> mapped < len ->
  match rollback_new_mapping cpu sp addr mapped len p v with Some (p', v') => st X v' /\ kept p p' | None => False end.
Proof.
  intros H Ha Hl Hr Hm. unfold rollback_new_mapping.
  assert (Hpg : Forall (fun o => user_addr (u64 (addr + o))) (page_offsets mapped)).
  { pose proof (range_ok_bounds addr len Ha Hl Hr). apply Forall_forall. intros o Ho%page_offsets_spec. unfold user_addr, is_u64, USER_LIMIT in *.
    rewrite u64_small by (unfold is_u64; lia). lia. }
  pose proof (st_unmap_owned_pages X p v addr mapped H Hpg) as H1. destruct (negb (mapped =? 0)).
  - destruct (unmap_owned_pages _ _ _ _ _ _) as [p' v']. destruct H1 as [H1 Hk]. by destruct (st_vma_remove X v' addr len H1 Ha Hl) as (t & rc & -> & H2).
  - by destruct (st_vma_remove X v addr len H Ha Hl) as (t & rc & -> & H2).
Qed.

(** [fill] may write to the page just mapped. *)
Definition fills X (fill : Z -> Z -> vmm_t A -> vmm_t A) : Prop :=
  forall o f v, st X v -> 0 < live (pm v) f -> ~ is_table R (pm v) (page (pm v) f) -> st X (fill o (page (pm v) f) v).

Lemma fine_map_new_pages X va len flags fill todo : forall p v,
  st X v -> is_u64 va -> is_u64 len -> user_map_range_ok va len = true -> fills X fill -> flags_wx flags = true ->
  Forall (fun o => 0 <= o < len /\ user_addr (u64 (va + o))) todo -> fine X p (map_new_pages cpu sp va len flags fill todo p v).
Proof.
  induction todo as [|o todo IH]; intros p v H Ha Hl Hr Hfill Hfl Ht; [done|]. apply Forall_cons in Ht as [[Ho Hva] Ht]. cbn [map_new_pages].
  pose proof (st_map_new X v _ flags H Hva Hfl) as Hn. destruct (pmm_alloc_zeroed cpu (pm v)) as [[ph|] m].
  2:{ pose proof (st_rollback X p _ va o len Hn Ha Hl Hr ltac:(lia)) as Hb. by destruct (rollback_new_mapping _ _ _ _ _ _ _) as [[p' v']|]. }
  destruct (vmm_map cpu sp _ ph flags (set_pm m v)) as [rc v']. destruct (rc <? 0).
  - pose proof (st_rollback X p _ va o len Hn Ha Hl Hr ltac:(lia)) as Hb. by destruct (rollback_new_mapping _ _ _ _ _ _ _) as [[p' v'']|].
  - destruct Hn as (_ & Hn & (f & -> & Hf1 & Hf2) & _). apply IH; try done. by apply Hfill.
Qed.

Lemma fills_none X : fills X (fun _ _ v => v).
Proof. by intros o f v H. Qed.

Lemma fills_file X file off : fills X (fill_from_file file off).
Proof.
  intros o f v H H1 H2. unfold fill_from_file. destruct (mf_data file) as [data|]; [|done]. destruct (_ && _); [|done].
  apply (st_write X v f); try done. intros a Ha. destruct (_ && _) eqn:He; [|done]. apply andb_true_iff in He as [He1%Z.leb_le He2%Z.ltb_lt]. lia.
Qed.

Lemma fills_old X old_addr old_sz : fills X (fill_from_old sp old_addr old_sz).
Proof.
  intros o f v H H1 H2. unfold fill_from_old. destruct (_ <? _); [|done]. cbv zeta. destruct (_ =? _); [done|].
  apply (st_write X v f); try done. intros a Ha. unfold copy_page. destruct (_ && _) eqn:He; [|done]. apply andb_true_iff in He as [He1%Z.leb_le He2%Z.ltb_lt]. lia.
Qed.

(** ** The handlers *)

Lemma st_heap_remove X v base e :
  st X v -> 0 <= base -> e <= USER_LIMIT -> st X (if base <? e then set_table sp (vma_remove_overlaps (Some (table v sp)) base (e - base)).1 v else v).
Proof.
  intros H Hb He. destruct (Z.ltb_spec base e); [|done]. unfold USER_LIMIT in He.
  pose proof (st_vma_remove_overlaps X v base (e - base) H) as H1. destruct (vma_remove_overlaps _ _ _). apply H1; unfold is_u64; lia.
Qed.

Lemma st_heap_add X v base e :
  st X v -> 0 <= base <= e -> e <= USER_LIMIT -> st X (set_table sp (vma_add (Some (table v sp)) base (e - base) (Z.lor PROT_READ PROT_WRITE) 0 true).1 v).
Proof.
  intros H Hb He. unfold USER_LIMIT in He. pose proof (st_vma_add X v base (e - base) (Z.lor PROT_READ PROT_WRITE) 0 true H) as H1.
  destruct (vma_add _ _ _ _ _ _). apply H1; try done; unfold is_u64; lia.
Qed.

Lemma fine_brk X p v addr : st X v -> proc_ok p -> is_u64 addr -> fine X p (sys_brk_impl cpu addr sp p v).
Proof.
  intros H [Hb Hk] Ha. unfold sys_brk_impl. destruct (addr =? 0); [done|]. destruct (Z.ltb_spec addr (p_brk_base p)) as [|Hba]; [done|].
  destruct (_ || _) eqn:Hlim; [done|]. apply orb_false_iff in Hlim as [_ Hlim%Z.ltb_ge].
  assert (Haddr : 0 <= addr <= USER_LIMIT) by (unfold is_u64, PAGE_SIZE in *; lia).
  pose proof (brk_end addr Haddr) as Hnew. pose proof (brk_end _ Hk) as Hold. set (new := PAGE_ALIGN_UP addr) in *. set (old := PAGE_ALIGN_UP (p_brk p)) in *.
  assert (Hkept : forall q, p_space q = p_space p -> p_brk_base q = p_brk_base p -> kept p (set_brk addr q)) by (intros q Hq1 Hq2; split; [done|]; intros _; split; cbn; lia).
  destruct (addr <=? p_brk p); cbv zeta.
  - split; [|by apply Hkept]. pose proof (st_brk_free (pages_from new old) X v H (pages_from_user new old ltac:(lia) ltac:(lia))) as H1.
    pose proof (st_heap_remove X _ (p_brk_base p) old H1 Hb ltac:(lia)) as H2. destruct (Z.ltb_spec (p_brk_base p) new); [|done].
    apply st_heap_add; [done|lia|lia].
  - pose proof (st_brk_map (pages_from old new) [] X v H (Forall_nil_2 _) (pages_from_user old new ltac:(lia) ltac:(lia))) as H1.
    destruct (brk_map_pages _ _ _ _ _) as [ok v1]. cbn [snd] in H1. destruct ok; cbn [negb]; [|done]. split; [|by apply Hkept].
    apply st_heap_add; [|lia|lia]. apply st_heap_remove; [done|done|lia].
Qed.

(** The address chosen for a new mapping. *)
Lemma pick_spec addr len flags p v :
  let '(rc, va, p') := mmap_pick_addr sp addr len flags p v in
  kept p p' /\ (rc < 0 \/ rc = 0 /\ is_u64 va /\ user_map_range_ok va len = true).
Proof.
  unfold mmap_pick_addr. destruct (_ && _).
  - cbv zeta. destruct (user_map_range_ok _ len) eqn:Hr; cbn [negb]; [|split; [done|by left]]. destruct (existsb _ _); (split; [done|]); [by left|right].
    split; [done|]. split; [apply clear_bits_is_u64|done].
  - pose proof (align_up_is_u64 (p_mmap_bump p)) as Hu. revert Hu. generalize (PAGE_ALIGN_UP (p_mmap_bump p)). generalize (VMM_VMA_MAX + 16)%nat.
    intros n. induction n as [|n IH]; intros va Hu; cbn [pick_loop]; [split; [done|left; done]|].
    destruct (user_map_range_ok va len) eqn:Hr; cbn [negb]; [|split; [done|by left]]. destruct (vma_conflicts _ va len); cbn [negb].
    + apply IH, u64_range.
    + split; [done|]. by right.
Qed.

Lemma range_ok_u64 addr len : is_u64 addr -> is_u64 len -> user_map_range_ok addr len = true -> 0 < len /\ addr + len < 2 ^ 64.
Proof. intros Ha Hl H. pose proof (range_ok_bounds addr len Ha Hl H). unfold USER_LIMIT in *. lia. Qed.

Lemma offsets_user addr len : is_u64 addr -> is_u64 len -> user_map_range_ok addr len = true -> Forall (fun o => user_addr (u64 (addr + o))) (page_offsets len).
Proof. intros Ha Hl H. eapply Forall_impl; [exact (range_pages addr len Ha Hl H)|]. by intros o [_ Ho]. Qed.

Lemma st_fixed_replace X p v va len flags :
  st X v -> is_u64 va -> is_u64 len -> user_map_range_ok va len = true ->
  let '(rc, p', v') := mmap_fixed_replace cpu sp va len flags p v in st X v' /\ kept p p'.
Proof.
  intros H Ha Hl Hr. unfold mmap_fixed_replace. destruct (has flags MAP_FIXED); cbn [negb]; [|done].
  pose proof (st_unmap_owned_pages X p v va len H (offsets_user va len Ha Hl Hr)) as H1. destruct (unmap_owned_pages _ _ _ _ _ _) as [p' v']. destruct H1 as [H1 Hk].
  destruct (range_ok_u64 va len Ha Hl Hr) as [Hl0 Hl1]. pose proof (st_vma_remove_overlaps X v' va len H1 Ha Hl) as H2.
  destruct (vma_remove_overlaps _ _ _) as [t rc]. split; [|done]. apply H2; lia.
Qed.

(** ** Mapping shared memory *)

Lemma st_obj X X' v v' fs o : st X v -> st X' v' -> obj_inv fs o (pm v) -> obj_inv fs o (pm v').
Proof.
  intros H H' Ho. apply (obj_inv_same fs o (pm v)); [|done]. destruct (ss_mem _ _ _ (st_same _ _ H)), (ss_mem _ _ _ (st_same _ _ H')). split; congruence.
Qed.

(** The call returned, and the object [obj] holds the pages [fs']. *)
Definition fine_shmem X p (r : option (Z * (mm_proc * shmem_obj) * vmm_t A)) : Prop :=
  match r with Some (_, (p', obj), v') => kept p p' /\ exists fs', st (obj_frames fs' ++ X) v' /\ obj_inv fs' obj (pm v') | None => False end.

Lemma fine_shmem_rollback X fs p v va o len obj :
  st (obj_frames fs ++ X) v -> obj_inv fs obj (pm v) -> is_u64 va -> is_u64 len -> user_map_range_ok va len = true -> o < len ->
  fine_shmem X p ((fun '(p, v) => (- ENOMEM, (p, obj), v)) <$> rollback_new_mapping cpu sp va o len p v).
Proof.
  intros H Ho Ha Hl Hr Hlt. pose proof (st_rollback _ p v va o len H Ha Hl Hr Hlt) as Hb. destruct (rollback_new_mapping _ _ _ _ _ _ _) as [[p' v']|]; [|done].
  destruct Hb as [Hb Hk]. split; [done|]. exists fs. split; [done|]. by apply (st_obj (obj_frames fs ++ X) (obj_frames fs ++ X) v v').
Qed.

(** A reference more to a page of the object. *)
Lemma st_retain X v f :
  st X v -> f ∈ X -> let '(kept, m) := pmm_retain (page (pm v) f) (pm v) in if kept then st (f :: X) (set_pm m v) /\ page m f = page (pm v) f else st X (set_pm m v).
Proof.
  intros H Hf. pose proof (retain_inv R X (pm v) f (st_inv _ _ H) (mi_spare_live _ _ _ _ (st_inv _ _ H) Hf) (mi_spare _ _ _ (st_inv _ _ H) f Hf)) as Hr.
  destruct (pmm_retain _ _) as [[] m]; [|subst m; by apply (st_set_pm X); [|apply H|apply H|]]. destruct Hr as (Hm & Hs & Hmm & _). split; [|by apply same_page].
  apply (st_set_pm X); [done|done| |done]. apply (wx_leaves R (pm v)); [apply H|by apply mem_leaves].
Qed.

Lemma fine_map_shmem_pages X kok va len vf shared off todo : forall fs obj p v,
  st (obj_frames fs ++ X) v -> obj_inv fs obj (pm v) -> is_u64 va -> is_u64 len -> user_map_range_ok va len = true -> flags_wx vf = true ->
  Forall (fun o => 0 <= o < len /\ user_addr (u64 (va + o))) todo -> fine_shmem X p (map_shmem_pages cpu kok sp va len vf shared off todo obj p v).
Proof.
  induction todo as [|o todo IH]; intros fs obj p v H Ho Ha Hl Hr Hvf Ht; cbn [map_shmem_pages]; [split; [done|]; by exists fs|]. apply Forall_cons in Ht as [[Hlt Hva] Ht].
  assert (Hoff : 0 <= u64 (off + o)) by apply u64_range. destruct shared.
  - destruct (page_phys_ok R X cpu Hcpu kok fs obj (pm v) (u64 (off + o)) (st_inv _ _ H) Ho Hoff) as (ph & obj1 & m & fs1 & -> & H1 & Ho1 & Hm1 & Hph). cbn [mbind option_bind].
    assert (S1 : st (obj_frames fs1 ++ X) (set_pm m v)).
    { apply (st_set_pm (obj_frames fs ++ X)); [done|done| |apply Hm1]. apply (wx_leaves R (pm v)); [apply H|]. apply grows_leaves, Hm1. }
    destruct Hph as [->|[Hz (i & f & Hi & ->)]]; [by apply (fine_shmem_rollback X fs1); try done; lia|]. rewrite (proj2 (Z.eqb_neq _ _) Hz).
    pose proof (st_retain (obj_frames fs1 ++ X) (set_pm m v) f S1 ltac:(apply elem_of_app; left; by eapply obj_frames_lookup)) as Hret. change (pm (set_pm m v)) with m in Hret.
    destruct (pmm_retain (page m f) m) as [[] m2]; cbn [negb].
    2:{ apply (fine_shmem_rollback X fs1); try done; [|lia]. by apply (st_obj (obj_frames fs1 ++ X) (obj_frames fs1 ++ X) (set_pm m v)). }
    destruct Hret as [S2 Hpg]. change (set_pm m2 (set_pm m v)) with (set_pm m2 v) in S2. rewrite <-Hpg. pose proof (st_map (obj_frames fs1 ++ X) (set_pm m2 v) _ f vf S2 Hva Hvf) as Hmap. change (pm (set_pm m2 v)) with m2 in Hmap.
    destruct (vmm_map cpu sp _ _ vf (set_pm m2 v)) as [rc v3]. destruct Hmap as [Hpg3 Hmap]. destruct (rc <? 0).
    + rewrite <-Hpg3. apply (fine_shmem_rollback X fs1); try done; [apply st_free, Hmap| |lia]. by apply (st_obj (obj_frames fs1 ++ X) (obj_frames fs1 ++ X) (set_pm m v)); [done|apply st_free, Hmap|].
    + destruct Hmap as (_ & S3 & _). apply (IH fs1); try done. by apply (st_obj (obj_frames fs1 ++ X) (obj_frames fs1 ++ X) (set_pm m v)).
  - pose proof (st_map_new _ v _ vf H Hva Hvf) as Hn. destruct (pmm_alloc_zeroed cpu (pm v)) as [[ph|] m].
    2:{ apply (fine_shmem_rollback X fs); try done; [|lia]. by apply (st_obj (obj_frames fs ++ X) (obj_frames fs ++ X) v). }
    destruct (vmm_map cpu sp _ ph vf (set_pm m v)) as [rc v1]. destruct (rc <? 0).
    + apply (fine_shmem_rollback X fs); try done; [|lia]. by apply (st_obj (obj_frames fs ++ X) (obj_frames fs ++ X) v).
    + destruct Hn as (_ & S1 & (f & -> & Hf1 & Hf2) & _). pose proof (st_obj _ _ v v1 fs obj H S1 Ho) as Ho1.
      rewrite (read_ok R X cpu Hcpu kok fs obj (pm v1) (u64 (off + o)) PAGE_SIZE (st_inv _ _ S1) Ho1 Hoff ltac:(done)). cbn [mbind option_bind].
      set (bs := take (Z.to_nat PAGE_SIZE) _). assert (Hbl : blen bs <= PAGE_SIZE) by (unfold bs, blen; rewrite length_take; unfold PAGE_SIZE; lia).
      destruct (mi_page_nz R _ (pm v1) f (st_inv _ _ S1) Hf1) as [[_ Hal] _].
      assert (S2 : st (obj_frames fs ++ X) (set_pm (set_mem (write_bytes (page (pm v1) f) bs (mem (pm v1))) (pm v1)) v1)).
      { apply (st_write _ v1 f); try done. intros a Hout. rewrite <-(Z.add_0_r (page (pm v1) f)). by apply write_bytes_out. }
      apply (IH fs); try done. by apply (st_obj _ _ v1 _ fs obj S1 S2).
Qed.

(** What [mmap] may be given: no device, and the pages [fs] of the object. *)
Definition obj_at (fs : list (option Z)) (obj : option shmem_obj) (s : pmm_t A) : Prop := match obj with Some o => obj_inv fs o s | None => fs = [] end.
Definition no_device (file : option (map_file (A := A))) : Prop := match file with Some f => mf_chr_mmap f = None | None => True end.

Definition fine_mapped X p (r : option (Z * (mm_proc * option shmem_obj) * vmm_t A)) : Prop :=
  match r with Some (_, (p', obj), v') => kept p p' /\ exists fs', st (obj_frames fs' ++ X) v' /\ obj_at fs' obj (pm v') | None => False end.

Lemma st_obj_at X X' v v' fs o : st X v -> st X' v' -> obj_at fs o (pm v) -> obj_at fs o (pm v').
Proof. destruct o; [apply st_obj|done]. Qed.

Lemma fine_mmap_anon X p v va l prot flags :
  st X v -> is_u64 va -> is_u64 l -> user_map_range_ok va l = true -> no_wx prot = true -> fine X p (mmap_anon cpu va l prot flags sp p v).
Proof.
  intros H Ha Hl Hr Hpv. unfold mmap_anon. pose proof (st_vma_add X v va l (u32 prot) (u32 flags) true H Ha Hl ltac:(by rewrite no_wx_u32)) as H2. destruct (vma_add _ _ _ _ _ _) as [t rc].
  destruct (rc <? 0); [done|]. destruct (_ =? 0); [done|].
  pose proof (fine_map_new_pages X va l (mmap_page_flags prot) _ (page_offsets l) p _ H2 Ha Hl Hr (fills_none X) (mmap_page_flags_wx prot Hpv) (range_pages va l Ha Hl Hr)) as Hf.
  destruct (map_new_pages _ _ _ _ _ _ _ _ _) as [[[rc' p3] v3]|]; [|done]. by destruct (rc' <? 0).
Qed.

Lemma fine_mmap_file X kok f obj fs p v va l prot flags off :
  st (obj_frames fs ++ X) v -> obj_at fs obj (pm v) -> mf_chr_mmap f = None -> is_u64 va -> is_u64 l -> user_map_range_ok va l = true -> no_wx prot = true ->
  fine_mapped X p (mmap_file cpu kok f obj va l prot flags off sp p v).
Proof.
  intros H Ho Hc Ha Hl Hr Hpv. unfold mmap_file. rewrite Hc. cbv zeta.
  assert (Hsame : forall rc w, st (obj_frames fs ++ X) w -> fine_mapped X p (Some (rc, (p, obj), w))) by (intros rc w Hw; split; [done|]; exists fs; split; [done|]; by apply (st_obj_at _ _ v w fs obj H Hw)).
  destruct (mf_type f); [|by apply Hsame..].
  pose proof (st_vma_add _ v va l (u32 prot) (u32 flags) true H Ha Hl ltac:(by rewrite no_wx_u32)) as H2. destruct obj as [o|].
  - destruct (_ <? off); [by apply Hsame|]. destruct (vma_add _ _ _ _ _ _) as [t rc]. destruct (rc <? 0); [by apply Hsame|]. destruct (_ =? 0); [by apply Hsame|].
    pose proof (fine_map_shmem_pages X kok va l (mmap_page_flags prot) (has flags MAP_SHARED) off (page_offsets l) fs o p _ H2 (st_obj _ _ v _ fs o H H2 Ho) Ha Hl Hr (mmap_page_flags_wx prot Hpv) (range_pages va l Ha Hl Hr)) as Hf.
    destruct (map_shmem_pages _ _ _ _ _ _ _ _ _ _ _ _) as [[[rc' [p3 o3]] v3]|]; [|done]. by destruct (rc' <? 0).
  - destruct (vma_add _ _ _ _ _ _) as [t rc]. destruct (rc <? 0); [by apply Hsame|]. destruct (_ =? 0); [by apply Hsame|].
    pose proof (fine_map_new_pages _ va l (mmap_page_flags prot) _ (page_offsets l) p _ H2 Ha Hl Hr (fills_file _ f off) (mmap_page_flags_wx prot Hpv) (range_pages va l Ha Hl Hr)) as Hf.
    destruct (map_new_pages _ _ _ _ _ _ _ _ _) as [[[rc' p3] v3]|]; [|done]. destruct Hf as [Hf Hk]. destruct (rc' <? 0); (split; [done|]; by exists fs).
Qed.

Lemma fine_mmap X fs p v kok addr len prot flags off file obj :
  st (obj_frames fs ++ X) v -> obj_at fs obj (pm v) -> no_device file -> is_u64 len -> fine_mapped X p (sys_mmap_impl cpu kok addr len prot flags off file sp (p, obj) v).
Proof.
  intros H Ho Hd Hlen. unfold sys_mmap_impl.
  assert (Hsame : forall rc p' w, kept p p' -> st (obj_frames fs ++ X) w -> fine_mapped X p (Some (rc, (p', obj), w))) by (intros rc p' w Hk Hw; split; [done|]; exists fs; split; [done|]; by apply (st_obj_at _ _ v w fs obj H Hw)).
  destruct (len =? 0); [by apply Hsame|]. destruct (_ <? len); [by apply Hsame|]. set (l := PAGE_ALIGN_UP len).
  assert (Hl : is_u64 l) by apply align_up_is_u64. destruct (negb (prot_valid prot) || _) eqn:Hpv; [by apply Hsame|].
  apply orb_false_iff in Hpv as [Hpv%negb_false_iff%prot_valid_wx _]. destruct (has off _); [by apply Hsame|]. cbv zeta. destruct (_ <? 0); [by apply Hsame|].
  pose proof (pick_spec addr l flags p v) as Hp. destruct (mmap_pick_addr _ _ _ _ _ _) as [[pick va] p1]. destruct Hp as [Hk1 Hp].
  destruct (Z.ltb_spec pick 0); [by apply Hsame|]. destruct Hp as [|(_ & Ha & Hr)]; [lia|].
  pose proof (st_fixed_replace _ p1 v va l flags H Ha Hl Hr) as H1. destruct (mmap_fixed_replace _ _ _ _ _ _ _) as [[frc p2] v1]. destruct H1 as [H1 Hk2].
  pose proof (kept_trans _ _ _ Hk1 Hk2) as Hk. destruct (frc <? 0); [by apply Hsame|].
  assert (Hanon : fine_mapped X p ((fun '(rc, p, v) => (rc, (p, obj), v)) <$> mmap_anon cpu va l prot flags sp p2 v1)).
  { pose proof (fine_mmap_anon _ p2 v1 va l prot flags H1 Ha Hl Hr Hpv) as Hf. destruct (mmap_anon _ _ _ _ _ _ _ _) as [[[rc p3] v3]|]; [|done]. destruct Hf as [Hf Hk3]. apply Hsame; [by eapply kept_trans|done]. }
  destruct file as [f|]; [|done]. destruct (has flags MAP_ANON); [done|].
  pose proof (fine_mmap_file X kok f obj fs p2 v1 va l prot flags off H1 (st_obj_at _ _ v v1 fs obj H H1 Ho) Hd Ha Hl Hr Hpv) as Hf.
  destruct (mmap_file _ _ _ _ _ _ _ _ _ _ _ _) as [[[rc [p3 o3]] v3]|]; [|done]. destruct Hf as [Hk3 Hf]. split; [by eapply kept_trans|done].
Qed.

Lemma mmap_file_no_object kok f va l prot flags off sp' p v rc p' obj v' :
  mmap_file cpu kok f None va l prot flags off sp' p v = Some (rc, (p', obj), v') -> obj = None.
Proof. unfold mmap_file. cbv zeta. intros H. repeat (case_match; simplify_eq/=; try done). Qed.

Lemma mmap_no_object kok addr len prot flags off file sp' p v rc p' obj v' :
  sys_mmap_impl cpu kok addr len prot flags off file sp' (p, None) v = Some (rc, (p', obj), v') -> obj = None.
Proof.
  unfold sys_mmap_impl. cbv zeta. intros H. destruct (len =? 0); [by simplify_eq|]. destruct (_ <? len); [by simplify_eq|]. destruct (_ || _); [by simplify_eq|].
  destruct (has off _); [by simplify_eq|]. destruct (_ <? 0); [by simplify_eq|]. destruct (mmap_pick_addr _ _ _ _ _ _) as [[pick va] p1]. destruct (pick <? 0); [by simplify_eq|].
  destruct (mmap_fixed_replace _ _ _ _ _ _ _) as [[frc p2] v1]. destruct (frc <? 0); [by simplify_eq|].
  assert (Hanon : forall r : option (Z * mm_proc * vmm_t A), (fun '(rc, p, v) => (rc, (p, @None shmem_obj), v)) <$> r = Some (rc, (p', obj), v') -> obj = None) by (intros [[[]]|]; cbn; congruence).
  destruct file as [f|]; [|by eapply Hanon]. destruct (has flags MAP_ANON); [by eapply Hanon|by eapply mmap_file_no_object].
Qed.

Lemma fine_munmap X p v addr len : st X v -> is_u64 addr -> is_u64 len -> fine X p (sys_munmap_impl cpu addr len sp p v).
Proof.
  intros H Ha Hlen. unfold sys_munmap_impl. destruct (_ || _); [done|]. destruct (_ <? len); [done|]. set (l := PAGE_ALIGN_UP len).
  assert (Hl : is_u64 l) by apply align_up_is_u64. cbv zeta. destruct (user_map_range_ok addr l) eqn:Hr; cbn [negb]; [|done].
  pose proof (st_unmap_owned_pages X p v addr l H (offsets_user addr l Ha Hl Hr)) as H1. destruct (unmap_owned_pages _ _ _ _ _ _) as [p' v']. destruct H1 as [H1 Hk].
  destruct (range_ok_u64 addr l Ha Hl Hr) as [Hl0 Hl1]. pose proof (st_vma_remove_overlaps X v' addr l H1 Ha Hl) as H2.
  destruct (vma_remove_overlaps _ _ _) as [t rc]. split; [|done]. apply H2; lia.
Qed.

Lemma st_protect_pages X addr flags tracked todo : forall v,
  st X v -> flags_wx flags = true -> Forall (fun o => user_addr (u64 (addr + o))) todo -> st X (protect_pages sp addr flags tracked todo v).2.
Proof.
  induction todo as [|o todo IH]; intros v H Hfl Ht; [done|]. apply Forall_cons in Ht as [Hva Ht]. cbn [protect_pages]. destruct (phys_at _ _ _ =? 0).
  - destruct tracked; [by apply IH|done].
  - pose proof (protect_inv R X (pm v) (root v sp) (u64 (addr + o)) flags (st_inv _ _ H) (st_root _ _ H) Hva) as Hp.
    pose proof (vmm_protect_changes R (pm v) (root v sp) (u64 (addr + o)) flags (mi_tables _ _ _ (st_inv _ _ H)) (st_root _ _ H) Hva) as Hc.
    destruct (vmm_protect _ _ _ _) as [ok m]. destruct Hp as [Hp _]. destruct Hc as (Hch & Hok & Hleaf).
    assert (Hw : wx R m).
    { apply (wx_changes R (pm v) m (root v sp) (u64 (addr + o))); [apply H|done|done|]. rewrite Hleaf. destruct ok; [|by apply H; [apply (st_root X v H)|]].
      apply make_pte_wx; [|done]. destruct (mi_data_page _ _ _ _ _ (st_inv _ _ H) (st_root _ _ H) Hva (eq_sym Hok)) as (f & -> & Hl & _).
      by apply (mi_page_nz R X (pm v) f (st_inv _ _ H)). }
    pose proof (st_set_pm X X v m H Hp Hw (ch_mem _ _ _ _ _ Hch)). destruct ok; [by apply IH|done].
Qed.

Lemma fine_mprotect X p v addr len prot : st X v -> is_u64 addr -> is_u64 len -> fine X p (sys_mprotect_impl addr len prot sp p v).
Proof.
  intros H Ha0 Hlen. unfold sys_mprotect_impl. destruct (len =? 0); [done|]. destruct (has addr _); [done|]. destruct (prot_valid prot) eqn:Hpv; cbn [negb]; [|done]. apply prot_valid_wx in Hpv.
  set (a := PAGE_ALIGN_DOWN addr). assert (Ha : is_u64 a) by apply clear_bits_is_u64. destruct (_ <? len); [done|]. set (l := PAGE_ALIGN_UP len).
  assert (Hl : is_u64 l) by apply align_up_is_u64. cbv zeta. destruct (user_map_range_ok a l) eqn:Hr; cbn [negb]; [|done].
  destruct (range_ok_u64 a l Ha Hl Hr) as [Hl0 Hl1].
  destruct (range_ok_total (table v sp) a l (st_wf _ _ H) Ha Hl) as [tracked ->].
  destruct (user_range_ok_spec (pm v) (root v sp) a l false Ha Hl Hl0) as (present & -> & _). destruct (_ && _); [done|].
  set (new := if tracked then _ else _).
  assert (Hnew : exists t rc, new = Some (t, rc) /\ st X (set_table sp t v)).
  { unfold new. destruct tracked.
    - destruct (vma_protect_ok (table v sp) a l (u32 prot) (st_wf _ _ H) Ha Hl) as (t & rc & -> & Ht & _ & Hout & Hcase).
      exists (Some t), rc. split; [done|]. apply st_set_table; [done|done|]. apply (prots_wx_protect (table v sp) t (u32 prot)); [apply H|by rewrite no_wx_u32|].
      destruct Hcase as [[_ Hin]|[[_ ->]|[_ Hin]]]; [|by right; left|done]. intros x. destruct (in_range a l x) eqn:Hx; [right; right; by apply Hin|right; left; by apply Hout].
    - exists (Some (table v sp)), 0. split; [done|]. apply st_set_table; [done|apply H|apply H]. }
  destruct Hnew as (t & rc & -> & H1). destruct (rc <? 0); [done|].
  pose proof (st_protect_pages X a (prot_page_flags prot) tracked (page_offsets l) _ H1 (prot_page_flags_wx prot Hpv) (offsets_user a l Ha Hl Hr)) as H2.
  by destruct (protect_pages _ _ _ _ _ _).
Qed.

Lemma fine_mremap_move X p v old_addr old_sz new_sz flags new_addr prot mf :
  st X v -> is_u64 old_addr -> is_u64 old_sz -> user_map_range_ok old_addr old_sz = true -> is_u64 new_sz -> is_u64 new_addr -> no_wx prot = true ->
  fine X p (mremap_move cpu old_addr old_sz new_sz flags new_addr prot mf sp p v).
Proof.
  intros H Ho Hos Hor Hl Hna Hpr. unfold mremap_move. destruct (negb _); [done|]. set (pk := if has flags MREMAP_FIXED then _ else _).
  assert (Hp : let '(rc, va, p') := pk in kept p p' /\ (rc < 0 \/ rc = 0 /\ is_u64 va /\ user_map_range_ok va new_sz = true)).
  { unfold pk. destruct (has flags MREMAP_FIXED); [|apply pick_spec]. split; [done|]. destruct (user_map_range_ok new_addr new_sz); cbn [negb orb]; [|by left].
    destruct (vma_conflicts _ _ _); [by left|by right]. }
  destruct pk as [[pick va] p1]. destruct Hp as [Hk1 Hp]. destruct (Z.ltb_spec pick 0); [done|]. destruct Hp as [|(_ & Ha & Hr)]; [lia|].
  pose proof (st_vma_add X v va new_sz prot mf true H Ha Hl Hpr) as H1. destruct (vma_add _ _ _ _ _ _) as [t rc]. destruct (rc <? 0); [done|].
  pose proof (fine_map_new_pages X va new_sz (prot_page_flags prot) (fill_from_old sp old_addr old_sz) (page_offsets new_sz) p1 _ H1 Ha Hl Hr (fills_old X _ _) (prot_page_flags_wx prot Hpr) (range_pages va new_sz Ha Hl Hr)) as Hf.
  destruct (map_new_pages _ _ _ _ _ _ _ _ _) as [[[rc' p2] v2]|]; [|done]. destruct Hf as [Hf Hk2]. pose proof (kept_trans _ _ _ Hk1 Hk2) as Hk. destruct (rc' <? 0); [done|].
  pose proof (st_unmap_owned_pages X p2 v2 old_addr old_sz Hf (offsets_user old_addr old_sz Ho Hos Hor)) as H3.
  destruct (unmap_owned_pages _ _ _ _ _ _) as [p3 v3]. destruct H3 as [H3 Hk3]. pose proof (kept_trans _ _ _ Hk Hk3) as Hk4.
  destruct (st_vma_remove X v3 old_addr old_sz H3 Ho Hos) as (t' & rc2 & -> & H4). by destruct (rc2 <? 0).
Qed.

Lemma fine_mremap X p v old_addr old_len new_len flags new_addr :
  st X v -> is_u64 old_addr -> is_u64 old_len -> is_u64 new_len -> is_u64 new_addr ->
  fine X p (sys_mremap_impl cpu old_addr old_len new_len flags new_addr sp p v).
Proof.
  intros H Ho Hol Hnl Hna. unfold sys_mremap_impl. repeat (destruct (_ || _); [done|]). destruct (has flags _); [done|]. destruct (has flags MREMAP_FIXED && _); [done|].
  repeat (destruct (_ || _); [done|]). set (os := PAGE_ALIGN_UP old_len). set (ns := PAGE_ALIGN_UP new_len).
  assert (Hos : is_u64 os) by apply align_up_is_u64. assert (Hns : is_u64 ns) by apply align_up_is_u64. cbv zeta.
  destruct (user_map_range_ok old_addr os) eqn:Hr; cbn [negb]; [|done]. destruct (range_ok_u64 old_addr os Ho Hos Hr) as [Hl0 Hl1].
  destruct (vma_range_info_correct (table v sp) old_addr os (st_wf _ _ H) Ho Hos Hl0 Hl1) as (r & -> & Hinfo). destruct r as [[[prot mf] []]|]; [|done|done].
  assert (Hpr : no_wx prot = true).
  { apply (st_prots _ _ H old_addr prot mf true), (proj1 (Hinfo (prot, mf, true)) eq_refl). unfold in_range. apply andb_true_iff. rewrite Z.leb_le, Z.ltb_lt. lia. }
  destruct (Z.leb_spec ns os); [|by apply fine_mremap_move]. destruct (_ =? 0); [done|]. unfold is_u64 in *.
  pose proof (range_ok_bounds old_addr os Ho Hos Hr) as Hb.
  assert (Htail : Forall (fun o => user_addr (u64 (u64 (old_addr + ns) + o))) (page_offsets (os - ns))).
  { apply Forall_forall. intros o Hof%page_offsets_spec. unfold user_addr, USER_LIMIT in *. rewrite (u64_small (old_addr + ns)) by (unfold is_u64; lia).
    rewrite u64_small by (unfold is_u64; lia). lia. }
  pose proof (st_unmap_owned_pages X p v _ (os - ns) H Htail) as H1. destruct (unmap_owned_pages _ _ _ _ _ _) as [p' v']. destruct H1 as [H1 Hk].
  destruct (st_vma_remove X v' (u64 (old_addr + ns)) (os - ns) H1) as (t & rc & -> & H2); [apply u64_range|unfold is_u64; lia|]. done.
Qed.

(** ** Page faults and guards *)

Lemma st_fault_new X v va fl : st X v -> user_addr va -> flags_wx fl = true -> st X (fault_new_page cpu sp va fl v).2.
Proof.
  intros H Hva Hfl. unfold fault_new_page. pose proof (st_map_new X v va fl H Hva Hfl) as Hn. destruct (pmm_alloc_zeroed cpu (pm v)) as [[ph|] m]; [|done].
  destruct (vmm_map cpu sp va ph fl (set_pm m v)) as [rc v'] eqn:Hm. rewrite vmm_map_pool in Hm. destruct (map_page _ _ _ _ _ _) as [[] m']; injection Hm as <- <-; [apply Hn|exact Hn].
Qed.

Lemma st_fault X p v code cr2 rsp : st X v -> p_space p = Some sp -> user_addr cr2 -> st X (handle_user_page_fault cpu code cr2 rsp p v).2.
Proof.
  intros H Hp Hva. unfold handle_user_page_fault. rewrite Hp. destruct (has code 1).
  - destruct (has code 2); [|done]. pose proof (cow_inv R X cpu (pm v) (root v sp) cr2 (st_inv _ _ H) Hcpu (st_root _ _ H) Hva) as Hc.
    pose proof (wx_cow R cpu X (pm v) (root v sp) cr2 (st_inv _ _ H) Hcpu (st_root _ _ H) Hva (st_wx _ _ H)) as Hw.
    destruct (vmm_handle_cow_fault _ _ _ _) as [r m]. apply (st_set_pm X); [done|apply Hc|done|apply Hc].
  - cbv zeta. destruct (page_mask_page cr2 Hva) as [_ Hpg]. destruct (page_fault_stack_growth_ok _ _ _); [by apply st_fault_new|].
    destruct (vma_page_fault_allowed _ _ _ _); [|done]. apply st_fault_new; [done|done|]. apply vma_page_flags_wx, H.
Qed.

(** Kernel accesses to user memory. *)
Lemma st_fault_in_page X v pg write : st X v -> user_addr pg -> st X (set_pm (fault_in_page cpu (table v sp) (root v sp) pg write (pm v)).2 v).
Proof.
  intros H Hpg. assert (Hid : st X (set_pm (pm v) v)) by (by apply (st_set_pm X); [|apply H|apply H|]).
  unfold fault_in_page. cbv zeta. destruct (has _ VMM_PRESENT).
  - destruct (negb _); [done|]. destruct (_ && _); [|done]. destruct (negb _); [done|].
    pose proof (cow_inv R X cpu (pm v) (root v sp) pg (st_inv _ _ H) Hcpu (st_root _ _ H) Hpg) as Hc.
    pose proof (wx_cow R cpu X (pm v) (root v sp) pg (st_inv _ _ H) Hcpu (st_root _ _ H) Hpg (st_wx _ _ H)) as Hw.
    destruct (vmm_handle_cow_fault _ _ _ _) as [r m]. apply (st_set_pm X); [done|apply Hc|done|apply Hc].
  - destruct (negb _); [done|]. pose proof (st_map_new X v pg (vma_page_flags (table v sp) pg) H Hpg (vma_page_flags_wx _ _ (st_prots _ _ H))) as Hn.
    destruct (pmm_alloc_zeroed cpu (pm v)) as [[ph|] m]; [|done]. rewrite vmm_map_pool in Hn. change (root (set_pm m v) sp) with (root v sp) in Hn. change (pm (set_pm m v)) with m in Hn.
    destruct (map_page _ _ _ _ _ m) as [[] m']; [apply Hn|exact Hn].
Qed.

Lemma st_fault_in_pages X write n : forall fuel v pg,
  st X v -> 0 <= pg -> pg + PAGE_SIZE * Z.of_nat n < USER_LIMIT -> (n < fuel)%nat ->
  exists b m, fault_in_pages cpu fuel (table v sp) (root v sp) pg (pg + PAGE_SIZE * Z.of_nat n) write (pm v) = Some (b, m) /\ st X (set_pm m v).
Proof.
  induction n as [|n IH]; intros fuel v pg H Hpg Hl Hf; (destruct fuel as [|fuel]; [lia|]); cbn [fault_in_pages]; unfold PAGE_SIZE, USER_LIMIT in *;
    pose proof (st_fault_in_page X v pg write H ltac:(unfold user_addr, USER_LIMIT; lia)) as H1; destruct (fault_in_page _ _ _ _ _ _) as [ok m]; cbn [snd] in H1;
    (destruct ok; cbn [negb]; [|by eexists _, _]).
  - rewrite Z.mul_0_r, Z.add_0_r, Z.eqb_refl. by eexists _, _.
  - rewrite (proj2 (Z.eqb_neq _ _)) by lia. rewrite u64_small by (unfold is_u64; lia).
    destruct (IH fuel (set_pm m v) (pg + 0x1000) H1 ltac:(lia) ltac:(lia) ltac:(lia)) as (b & m' & Hr & H2).
    replace (pg + 4096 * Z.of_nat (S n)) with (pg + 0x1000 + PAGE_SIZE * Z.of_nat n) by (unfold PAGE_SIZE; lia). exists b, m'. split; [exact Hr|exact H2].
Qed.

Lemma st_user_access X v virt len write :
  st X v -> 0 <= virt -> 0 <= len -> virt + len <= USER_LIMIT ->
  exists b m, vmm_user_range_fault_in cpu (table v sp) (root v sp) virt len write (pm v) = Some (b, m) /\ st X (set_pm m v).
Proof.
  intros H Hv Hl Hb. unfold vmm_user_range_fault_in. assert (Hid : st X (set_pm (pm v) v)) by (by apply (st_set_pm X); [|apply H|apply H|]).
  destruct (Z.eqb_spec len 0); [by eexists _, _|]. unfold USER_LIMIT in Hb. rewrite (u64_small (virt + len)) by (unfold is_u64; lia).
  rewrite (proj2 (Z.ltb_ge _ _)) by lia. rewrite (u64_small (virt + len - 1)) by (unfold is_u64; lia). cbv zeta. rewrite !page_mask by (unfold is_u64; lia).
  set (a := virt / 4096). set (b := (virt + len - 1) / 4096). assert (Hab : a <= b) by (apply Z.div_le_mono; lia).
  pose proof (Z.div_pos virt 4096 ltac:(lia) ltac:(lia)) as Ha. fold a in Ha. pose proof (Z.mul_div_le (virt + len - 1) 4096 ltac:(lia)) as Hbb. fold b in Hbb.
  unfold pages_between. change 0x1000 with 4096. replace (4096 * b - 4096 * a) with ((b - a) * 4096) by lia. rewrite Z.div_mul by lia.
  destruct (st_fault_in_pages X write (Z.to_nat (b - a)) (Z.to_nat (b - a + 1)) v (4096 * a) H) as (r & m & Hr & H1); [lia|unfold PAGE_SIZE, USER_LIMIT; lia|lia|].
  unfold PAGE_SIZE in Hr. rewrite Z2Nat.id in Hr by lia. replace (4096 * a + 4096 * (b - a)) with (4096 * b) in Hr by lia. exists r, m. done.
Qed.

Lemma st_set_mutating X v n : st X v -> st X (set_mutating sp n v).
Proof. intros H. by apply st_set_space; [|apply H|apply H| | |]. Qed.

Lemma st_mutation_attempts X n : forall v, st X v -> st X (mutation_attempts n sp v).2.
Proof.
  induction n as [|n IH]; intros v H; [done|]. cbn [mutation_attempts]. destruct (_ =? 0); [|by apply IH]. cbv zeta.
  destruct (_ =? 0); [by apply st_set_mutating|]. by apply IH, st_set_mutating, st_set_mutating.
Qed.

Lemma fine_guarded X rc impl p v :
  p_space p = Some sp -> st X v -> (forall v', st X v' -> fine X p (impl sp p v')) -> fine X p (guarded rc (p_space p) impl p v).
Proof.
  intros Hp H Himpl. unfold guarded. rewrite Hp. unfold vmm_space_mutation_begin. cbn [is_kernel].
  pose proof (st_mutation_attempts X (Z.to_nat 1000000) v H) as H1. destruct (mutation_attempts _ sp v) as [ok v1]. destruct ok; cbn [negb]; [|done].
  specialize (Himpl v1 H1). destruct (impl sp p v1) as [[[r p'] v']|]; [|done]. destruct Himpl as [H2 Hk]. split; [|done]. by apply st_set_mutating.
Qed.

Lemma fine_guarded_mmap X fs rc impl p obj v :
  p_space p = Some sp -> st (obj_frames fs ++ X) v -> obj_at fs obj (pm v) ->
  (forall v', st (obj_frames fs ++ X) v' -> obj_at fs obj (pm v') -> fine_mapped X p (impl sp (p, obj) v')) -> fine_mapped X p (guarded rc (p_space p) impl (p, obj) v).
Proof.
  intros Hp H Ho Himpl. unfold guarded. rewrite Hp. unfold vmm_space_mutation_begin. cbn [is_kernel].
  pose proof (st_mutation_attempts _ (Z.to_nat 1000000) v H) as H1. destruct (mutation_attempts _ sp v) as [ok v1]. pose proof (st_obj_at _ _ v v1 fs obj H H1 Ho) as Ho1.
  destruct ok; cbn [negb]; [|split; [done|]; by exists fs].
  specialize (Himpl v1 H1 Ho1). destruct (impl sp (p, obj) v1) as [[[r [p' obj']] v']|]; [|done]. destruct Himpl as (Hk & fs' & H2 & Ho2). split; [done|]. exists fs'. unfold vmm_space_mutation_end. cbn [is_kernel].
  pose proof (st_set_mutating _ v' 0 H2) as H3. split; [done|]. by apply (st_obj_at _ _ v' _ fs' obj' H2 H3).
Qed.
End one.
End safe.
