(* ===== verification/ExecSafe.v ===== *)
(** * Safety of program loading.

    For every image, [elf_load_into] and [setup_user_stack] of [Exec.v] stay
    inside the image, the arrays and the pages they allocated, and keep the
    invariants of [MemSafe.v]; no loaded page is writable and executable. *)

From S2P Require Import Prelude Bits Bytes Words Bitfield Vma Lower LLFree Pmm Vmm VmmPte VmmTables MemInv VmmFork SpaceFree VmmSpaces MemSys Exec Wx MemSafe.

(** ** Reading the image *)

Section image.
Context (data : list Z) (Hdata : Forall is_u8 data).

Lemma read_bytes_in off n : 0 <= off -> 0 <= n -> off + n <= blen data -> read_bytes data off n = Some (slice data off n).
Proof. intros H1 H2 H3. unfold read_bytes. by rewrite !(proj2 (Z.leb_le _ _)) by done. Qed.

Lemma read_le_in off (n : nat) : 0 <= off -> off + Z.of_nat n <= blen data -> exists x, read_le data off n = Some x /\ 0 <= x < 2 ^ (8 * Z.of_nat n).
Proof.
  intros H1 H2. unfold read_le. rewrite read_bytes_in by lia. eexists. split; [done|].
  assert (Hb : blen (slice data off (Z.of_nat n)) = Z.of_nat n) by (apply blen_slice; lia). pose proof (le_val_range (slice data off (Z.of_nat n))) as Hr. rewrite Hb in Hr.
  apply Hr. unfold slice. by apply Forall_take, Forall_drop.
Qed.

Lemma read_ehdr_in : sizeof_ehdr <= blen data ->
  exists eh, read_ehdr data = Some eh /\ is_u64 (e_entry eh) /\ is_u64 (e_phoff eh) /\ 0 <= e_phentsize eh < 2 ^ 16 /\ 0 <= e_phnum eh < 2 ^ 16.
Proof.
  unfold sizeof_ehdr. intros H. unfold read_ehdr. rewrite (read_bytes_in 0 16) by lia. cbn [mbind option_bind].
  destruct (read_le_in 16 2) as (ty & -> & _); [lia|lia|]. destruct (read_le_in 18 2) as (ma & -> & _); [lia|lia|]. destruct (read_le_in 20 4) as (ve & -> & _); [lia|lia|].
  destruct (read_le_in 24 8) as (en & -> & Hen); [lia|lia|]. destruct (read_le_in 32 8) as (po & -> & Hpo); [lia|lia|].
  destruct (read_le_in 52 2) as (es & -> & _); [lia|lia|]. destruct (read_le_in 54 2) as (pe & -> & Hpe); [lia|lia|]. destruct (read_le_in 56 2) as (pn & -> & Hpn); [lia|lia|].
  eexists. split; [done|]. done.
Qed.

Record phdr_ok (ph : Elf64_Phdr) : Prop := {
  ph_offset : is_u64 (p_offset ph);
  ph_vaddr : is_u64 (p_vaddr ph);
  ph_filesz : is_u64 (p_filesz ph);
  ph_memsz : is_u64 (p_memsz ph);
}.

Lemma read_phdr_in at_ : 0 <= at_ -> at_ + sizeof_phdr <= blen data -> exists ph, read_phdr data at_ = Some ph /\ phdr_ok ph.
Proof.
  unfold sizeof_phdr. intros H0 H. unfold read_phdr.
  destruct (read_le_in at_ 4) as (ty & -> & _); [lia|lia|]. destruct (read_le_in (at_ + 4) 4) as (fl & -> & _); [lia|lia|].
  destruct (read_le_in (at_ + 8) 8) as (off & -> & Hoff); [lia|lia|]. destruct (read_le_in (at_ + 16) 8) as (va & -> & Hva); [lia|lia|].
  destruct (read_le_in (at_ + 32) 8) as (fs & -> & Hfs); [lia|lia|]. destruct (read_le_in (at_ + 40) 8) as (ms & -> & Hms); [lia|lia|].
  destruct (read_le_in (at_ + 48) 8) as (al & -> & _); [lia|lia|]. eexists. split; [done|]. done.
Qed.

Lemma elf_valid_in size : size <= blen data -> exists b, elf_valid data size = Some b /\
  (b = true -> sizeof_ehdr <= size /\ forall eh, read_ehdr data = Some eh -> sizeof_phdr <= e_phentsize eh).
Proof.
  intros H. unfold elf_valid. destruct (Z.ltb_spec size sizeof_ehdr); [by exists false|].
  destruct read_ehdr_in as (eh & -> & _); [lia|]. cbn [mbind option_bind]. eexists. split; [done|]. intros Hb. split; [done|]. intros eh' [= <-].
  repeat match type of Hb with (if ?c then false else _) = true => destruct c eqn:?Hc; [done|] end.
  match goal with H : (_ <? sizeof_phdr) || _ = false |- _ => apply orb_false_iff in H as [H%Z.ltb_ge _] end. done.
Qed.

(** ** The interpreter path *)

Lemma trim_length n l : length (trim_control n l) = length l.
Proof. revert l. induction n as [|n IH]; intros l; [done|]. cbn [trim_control]. destruct (_ <? _); [|done]. by rewrite IH, length_insert. Qed.

Lemma read_interp_in size ph interp :
  size <= blen data -> phdr_ok ph -> length interp = 256%nat -> 0 < p_filesz ph < 255 ->
  exists r, read_interp data size ph interp = Some r /\ forall l, r = Some l -> length l = 256%nat.
Proof.
  intros Hs Hp Hi Hf. unfold read_interp. destruct (_ || _) eqn:Hc; [by exists None|]. apply orb_false_iff in Hc as [H1%Z.ltb_ge H2%Z.ltb_ge].
  destruct Hp as [Ho _ _ _]. unfold is_u64 in Ho. rewrite read_bytes_in by lia. cbn [mbind option_bind].
  assert (Hb : blen interp = 256) by (unfold blen; lia). rewrite (proj2 (Z.leb_gt _ _)) by lia. cbv zeta.
  set (l1 := blit interp 0 _). assert (Hl1 : length l1 = 256%nat).
  { unfold l1. rewrite blit_length; [done|lia|]. rewrite blen_slice by lia. lia. }
  set (l2 := <[_ := 0]> l1). assert (Hl2 : length l2 = 256%nat) by (unfold l2; by rewrite length_insert).
  destruct (negb _); [by exists None|]. assert (Hz : l2 !! Z.to_nat (p_filesz ph) = Some 0) by (unfold l2; apply list_lookup_insert_eq; lia).
  destruct (find_index (fun b => b =? 0) l2) as [n|] eqn:Hn.
  - eexists. split; [done|]. intros l [= <-]. by rewrite trim_length.
  - exfalso. rewrite find_index_None in Hn. specialize (Hn _ _ Hz). done.
Qed.
End image.

(** ** Writing to a page of the space *)

Section load.
Context `{FA : FrameAllocator A} (cpu : nat) (Hcpu : (cpu < MAX_CPUS)%nat).
Context (R : list Z) (slot : nat) (v0 : vmm_t A) (HR : root v0 (PoolSpace slot) ∈ R) (Hslot : (slot < length (g_pool v0))%nat) (X : list Z).
Abbreviation sp := (PoolSpace slot).
Abbreviation st := (st R slot v0 X).
Implicit Type v : vmm_t A.

Lemma mapped_page v va : st v -> user_addr va -> phys_at sp va v <> 0 -> exists f, phys_at sp va v = page (pm v) f /\ 0 < live (pm v) f /\ ~ is_table R (pm v) (page (pm v) f).
Proof.
  intros H Hva Hnz. unfold phys_at in *. rewrite virt_to_phys_leaf in *. destruct (has (vmm_leaf_pte (pm v) (root v sp) va) VMM_PRESENT) eqn:Hp; [|done].
  apply (mi_data_page R X (pm v) _ va (st_inv _ _ _ _ _ H) (st_root _ _ _ HR _ _ H) Hva Hp).
Qed.

Lemma poke_ok v va ph off bs :
  st v -> user_addr va -> phys_at sp va v = ph -> ph <> 0 -> 0 <= off -> off + blen bs <= PAGE_SIZE ->
  exists v', poke ph off bs v = Some v' /\ st v' /\ same_phys slot v v'.
Proof.
  intros H Hva Hph Hnz Ho Hl. unfold poke. rewrite !(proj2 (Z.leb_le _ _)) by done. eexists. split; [done|].
  destruct (mapped_page v va H Hva ltac:(by rewrite Hph)) as (f & Hf & Hlf & Hnt). rewrite Hph in Hf. subst ph.
  destruct (mi_page_nz R X (pm v) f (st_inv _ _ _ _ _ H) Hlf) as [[_ Hal] _]. rewrite Hf in *.
  assert (Hout : forall a, ~ (page (pm v) f <= a < page (pm v) f + PAGE_SIZE) -> write_bytes (page (pm v) f + off) bs (mem (pm v)) a = mem (pm v) a)
    by (intros a Ha; by apply write_bytes_out).
  split; [by apply (st_write _ _ _ X v f)|]. intros va' Hva'. unfold phys_at. change (root (set_pm _ v) sp) with (root v sp). cbn [set_pm pm].
  rewrite !virt_to_phys_leaf, (write_data_leaves R X (pm v) f _ (st_inv _ _ _ _ _ H) Hlf Hnt Hout); [done|by apply (st_root _ _ _ HR X)|done].
Qed.

(** ** The loader *)

Section segment.
Context (data : list Z) (Hdata : Forall is_u8 data) (size bias : Z) (Hsize : size <= blen data) (Hsz : is_u64 size).

(** What the checks of a segment give. *)
Record segment_fits (ph : Elf64_Phdr) (vaddr : Z) : Prop := {
  sf_file : 0 <= p_offset ph /\ p_offset ph + p_filesz ph <= size;
  sf_mem : 0 <= p_filesz ph <= p_memsz ph;
  sf_user : 0 <= vaddr /\ vaddr + p_memsz ph <= USER_LIMIT;
  sf_wx : (Z.land (p_flags ph) (Z.lor PF_W PF_X) =? Z.lor PF_W PF_X) = false;
}.

Lemma segment_ok_fits ph : phdr_ok ph -> segment_ok size bias ph = true -> segment_fits ph (u64 (bias + p_vaddr ph)).
Proof.
  intros [Ho Hv Hf Hm] H. unfold segment_ok in H. cbv zeta in H. set (vaddr := u64 (bias + p_vaddr ph)) in *. pose proof (u64_range (bias + p_vaddr ph)) as Hva. fold vaddr in Hva.
  repeat match type of H with (if ?c then false else _) = true => destruct c eqn:?Hc; [done|] end.
  apply orb_false_iff in Hc as [Hc%Z.ltb_ge Hc'%Z.ltb_ge]. apply Z.ltb_ge in Hc0. apply Z.ltb_ge in Hc4. apply Z.ltb_ge in Hc5. unfold is_u64 in *.
  destruct (u64_add_cases vaddr (p_memsz ph)) as [[E Hb]|[E Hb]]; [done|done|rewrite E in *|rewrite E in *; lia]. split; try done; lia.
Qed.

Lemma fill_segment_ok v ph vaddr pg phys :
  st v -> segment_fits ph vaddr -> user_addr pg -> pg + PAGE_SIZE <= USER_LIMIT -> phys_at sp pg v = phys -> phys <> 0 ->
  exists v', fill_segment data ph vaddr pg phys v = Some v' /\ st v' /\ same_phys slot v v'.
Proof.
  intros H [Hf Hm Hu _] Hpg Hpe Hph Hnz. unfold fill_segment. cbv zeta. unfold user_addr, USER_LIMIT, PAGE_SIZE in *.
  rewrite (u64_small (vaddr + p_filesz ph)), (u64_small (pg + 4096)) by (unfold is_u64; lia).
  set (cs := if vaddr <? pg then pg else vaddr). set (ce := if pg + 4096 <? vaddr + p_filesz ph then pg + 4096 else vaddr + p_filesz ph).
  assert (Hcs : pg <= cs /\ vaddr <= cs) by (unfold cs; destruct (Z.ltb_spec vaddr pg); lia).
  assert (Hce : ce <= pg + 4096 /\ ce <= vaddr + p_filesz ph) by (unfold ce; destruct (Z.ltb_spec (pg + 4096) (vaddr + p_filesz ph)); lia).
  destruct (Z.ltb_spec cs ce) as [Hc|]; [|by exists v]. unfold is_u64 in Hsz. rewrite (u64_small (p_offset ph + (cs - vaddr))) by (unfold is_u64; lia).
  rewrite read_bytes_in by lia. cbn [mbind option_bind]. apply (poke_ok v pg phys); try done; [lia|]. rewrite blen_slice by lia. unfold PAGE_SIZE. lia.
Qed.

Lemma map_segment_ok ph vaddr todo : forall v,
  st v -> segment_fits ph vaddr -> Forall (fun pg => user_addr pg /\ pg + PAGE_SIZE <= USER_LIMIT) todo ->
  exists ok v', map_segment cpu data ph vaddr sp todo v = Some (ok, v') /\ st v'.
Proof.
  induction todo as [|pg todo IH]; intros v H Hs Ht; [by exists true, v|]. apply Forall_cons in Ht as [[Hpg Hpe] Ht]. cbn [map_segment].
  destruct (elf_prot_wx (p_flags ph) (sf_wx _ _ Hs)) as [_ Hfl].
  pose proof (st_map_new cpu Hcpu R slot v0 HR X v pg (elf_page_flags (p_flags ph)) H Hpg Hfl) as Hn.
  destruct (pmm_alloc_zeroed cpu (pm v)) as [[phys|] m]; [|by eexists _, _].
  destruct (vmm_map cpu sp pg phys _ (set_pm m v)) as [rc v1]. destruct (rc <? 0); [by eexists _, _|].
  destruct Hn as (_ & H1 & (f & Hf & Hlf & _) & Hph & _).
  assert (Hnz : phys <> 0) by (rewrite Hf; by apply (mi_page_nz R X (pm v1) f (st_inv _ _ _ _ _ H1))).
  destruct (fill_segment_ok v1 ph vaddr pg phys H1 Hs Hpg Hpe Hph Hnz) as (v2 & -> & H2 & _). cbn [mbind option_bind]. by apply IH.
Qed.

(** What the loop over the headers keeps. *)
Definition elf_ok (e : elf_state) : Prop := length (s_interp e) = 256%nat /\ 0 <= s_brk e <= USER_LIMIT.

Definition loaded (r : option (option elf_state * vmm_t A)) : Prop :=
  exists oe v', r = Some (oe, v') /\ st v' /\ forall e, oe = Some e -> elf_ok e.

Lemma load_segment_ok eh ph e v : st v -> phdr_ok ph -> 0 < p_memsz ph -> elf_ok e -> loaded (load_segment cpu data size bias eh sp ph e v).
Proof.
  intros H Hph Hms [He1 He2]. unfold load_segment. destruct (segment_ok size bias ph) eqn:Hok; cbn [negb]; [|by eexists _, _].
  pose proof (segment_ok_fits ph Hph Hok) as Hfit. cbv zeta. set (vaddr := u64 (bias + p_vaddr ph)) in *. destruct Hfit as [Hf Hm Hu Hwx].
  assert (Hend : u64 (vaddr + p_memsz ph) = vaddr + p_memsz ph) by (apply u64_small; unfold is_u64, USER_LIMIT in *; lia). rewrite Hend.
  pose proof (brk_end (vaddr + p_memsz ph) ltac:(lia)) as Hpe.
  destruct (align_down_multiple vaddr) as (Hb1 & Hb2 & Hb3); [unfold is_u64, USER_LIMIT in *; lia|].
  assert (Hal : PAGE_ALIGN_UP (vaddr + p_memsz ph) mod 4096 = 0).
  { destruct (page_align_up (vaddr + p_memsz ph)) as (r & -> & _ & Hr); [lia|unfold USER_LIMIT in *; lia|done]. }
  set (pb := PAGE_ALIGN_DOWN vaddr) in *. set (pe := PAGE_ALIGN_UP (vaddr + p_memsz ph)) in *.
  destruct (vma_conflicts _ pb _); [by eexists _, _|].
  assert (Hpages : Forall (fun pg => user_addr pg /\ pg + PAGE_SIZE <= USER_LIMIT) (pages_from pb pe)).
  { apply Forall_forall. intros va (o & -> & Ho)%list_elem_of_fmap. apply page_offsets_spec in Ho as [Ho1 Ho2]. unfold user_addr, PAGE_SIZE.
    pose proof (Z.div_mod pb 4096 ltac:(lia)). pose proof (Z.div_mod pe 4096 ltac:(lia)). pose proof (Z.div_mod o 4096 ltac:(lia)). lia. }
  destruct (map_segment_ok ph vaddr (pages_from pb pe) v H) as (ok & v1 & -> & H1); [done|done|]. cbn [mbind option_bind].
  destruct ok; cbn [negb]; [|by eexists _, _].
  assert (Hpr : no_wx (elf_prot (p_flags ph)) = true) by by apply elf_prot_wx.
  pose proof (st_vma_add R slot v0 Hslot X v1 pb (pe - pb) (elf_prot (p_flags ph)) 0 true H1) as H2.
  destruct (vma_add _ _ _ _ _ _) as [t rc]. specialize (H2 ltac:(unfold is_u64, USER_LIMIT in *; lia) ltac:(unfold is_u64, USER_LIMIT in *; lia) Hpr).
  destruct (rc <? 0); [by eexists _, _|]. eexists _, _. split; [done|]. split; [done|]. intros e' [= <-]. split; [done|]. cbn [s_brk]. lia.
Qed.

Lemma load_phdr_ok eh i e v :
  st v -> elf_ok e -> 0 <= e_phoff eh + i * e_phentsize eh -> e_phoff eh + i * e_phentsize eh + sizeof_phdr <= size ->
  loaded (load_phdr cpu data size bias eh sp i e v).
Proof.
  intros H He H0 H1. unfold load_phdr. destruct (read_phdr_in data Hdata (e_phoff eh + i * e_phentsize eh)) as (ph & -> & Hph); [done|lia|]. cbn [mbind option_bind].
  set (oi := if _ && _ then _ else _).
  assert (Hoi : exists r, oi = Some r /\ forall l, r = Some l -> length l = 256%nat).
  { unfold oi. destruct (_ && _) eqn:Hc; [|exists (Some (s_interp e)); split; [done|]; intros l [= <-]; apply He].
    apply andb_true_iff in Hc as [Hc Hc3%Z.ltb_lt]. apply andb_true_iff in Hc as [_ Hc2%Z.ltb_lt]. apply read_interp_in; try done; [apply He]. }
  destruct Hoi as (r & -> & Hr). destruct r as [interp|]; [|by eexists _, _]. specialize (Hr _ eq_refl).
  assert (He' : elf_ok (mkElf interp (s_brk e) (s_phdr_va e) (s_have_load e) (s_entry_executable e))) by (split; [done|apply He]).
  destruct (_ || _) eqn:Hc; [eexists _, _; split; [done|]; split; [done|]; by intros e' [= <-]|].
  apply orb_false_iff in Hc as [_ Hc%Z.eqb_neq]. apply load_segment_ok; try done. destruct Hph. unfold is_u64 in *. lia.
Qed.

Lemma load_phdrs_ok eh todo : forall e v,
  st v -> elf_ok e -> Forall (fun i => 0 <= e_phoff eh + i * e_phentsize eh /\ e_phoff eh + i * e_phentsize eh + sizeof_phdr <= size) todo ->
  loaded (load_phdrs cpu data size bias eh sp todo e v).
Proof.
  induction todo as [|i todo IH]; intros e v H He Ht; cbn [load_phdrs]; [eexists _, _; split; [done|]; split; [done|]; by intros e' [= <-]|].
  apply Forall_cons in Ht as [[Hi1 Hi2] Ht]. destruct (load_phdr_ok eh i e v H He Hi1 Hi2) as (oe & v' & -> & H' & Hoe). cbn [mbind option_bind].
  destruct oe as [e'|]; [|by eexists _, _]. apply IH; [done|by apply Hoe|done].
Qed.

Lemma elf_load_into_ok v :
  st v -> exists r v', elf_load_into cpu sp data size bias v = Some (r, v') /\ st v' /\ 
    forall res, r = Some res -> 0 <= o_brk res <= USER_LIMIT /\ 0 <= o_prog_entry res < USER_LIMIT /\ o_entry res = o_prog_entry res.
Proof.
  intros H. unfold elf_load_into. destruct (Z.ltb_spec size sizeof_ehdr); [by eexists _, _|].
  destruct (elf_valid_in data Hdata size Hsize) as (valid & -> & Hvalid). cbn [mbind option_bind]. destruct valid; cbn [negb]; [|by eexists _, _].
  destruct (Hvalid eq_refl) as [_ Hent]. destruct (read_ehdr_in data Hdata) as (eh & Heh & _ & Hpo & Hpe & Hpn); [lia|]. rewrite Heh. cbn [mbind option_bind]. specialize (Hent eh Heh).
  cbv zeta. destruct (_ || _) eqn:Hc; [by eexists _, _|]. apply orb_false_iff in Hc as [Hc1%Z.ltb_ge Hc2%Z.ltb_ge].
  set (e0 := mkElf _ _ _ _ _). assert (He0 : elf_ok e0) by (split; [done|]; cbn; unfold USER_LIMIT; lia).
  destruct (load_phdrs_ok eh (seqZ 0 (e_phnum eh)) e0 v H He0) as (oe & v' & -> & H' & Hoe).
  { apply Forall_forall. intros i Hi%elem_of_seqZ. unfold is_u64 in *. nia. }
  cbn [mbind option_bind]. destruct oe as [e|]; [|by eexists _, _]. destruct (Hoe e eq_refl) as [_ Hbrk].
  destruct (_ || _) eqn:Hc3; [by eexists _, _|]. apply orb_false_iff in Hc3 as [_ Hc3%Z.leb_gt]. destruct (_ || _); [by eexists _, _|]. eexists _, _. split; [done|]. split; [done|].
  intros res [= <-]. cbn [o_brk o_prog_entry o_entry]. split; [done|]. pose proof (u64_range (bias + e_entry eh)) as Hu. unfold is_u64 in Hu. split; [lia|done].
Qed.
End segment.

(** ** The user stack *)

Section stack.
Context (base : Z) (Hbase : 2 ^ 20 <= base) (Hpage : base mod 4096 = 0) (Hlim : base + USER_STACK_PAGES * PAGE_SIZE <= USER_LIMIT).

(** The frames of the pages from [va] on. *)
Definition frames_at (va : Z) (phys : list Z) v : Prop := forall i ph, phys !! i = Some ph -> ph <> 0 /\ phys_at sp (va + PAGE_SIZE * Z.of_nat i) v = ph.

Lemma frames_same va phys v v' :
  same_phys slot v v' -> 0 <= va -> va + PAGE_SIZE * Z.of_nat (length phys) <= USER_LIMIT -> frames_at va phys v -> frames_at va phys v'.
Proof.
  intros Hs Hva Hl H i ph Hi. destruct (H i ph Hi) as [H1 H2]. split; [done|]. apply lookup_lt_Some in Hi. rewrite Hs; [done|]. unfold user_addr, PAGE_SIZE in *. lia.
Qed.

Lemma release_pages_ok phys : forall va v,
  st v -> frames_at va phys v -> 0 <= va -> va mod 4096 = 0 -> va + PAGE_SIZE * Z.of_nat (length phys) <= USER_LIMIT -> st (release_pages cpu sp va phys v).
Proof.
  induction phys as [|ph phys IH]; intros va v H Hf Hva Hal Hl; [done|]. cbn [release_pages]. unfold PAGE_SIZE in *. cbn [length] in Hl.
  destruct (Hf 0%nat ph eq_refl) as [Hnz Hph]. rewrite Z.add_0_r in Hph.
  destruct (st_unmap R slot v0 HR X v va H) as (_ & Hoth & Hcase & Hpg); [lia|]. destruct Hcase as [Hcase|(f & Hpf & _ & H1)]; [congruence|].
  assert (H2 : st (free_page cpu ph (unmap_page sp va v))) by (rewrite <-Hph, Hpf, <-Hpg; by apply st_free).
  apply IH; [done| |lia| |lia].
  - intros i q Hi. destruct (Hf (S i) q Hi) as [Hq1 Hq2]. split; [done|]. pose proof (lookup_lt_Some _ _ _ Hi) as Hlt.
    replace (va + 4096 + PAGE_SIZE * Z.of_nat i) with (va + PAGE_SIZE * Z.of_nat (S i)) by (unfold PAGE_SIZE; lia).
    rewrite <-Hq2. change (phys_at sp ?x (free_page cpu ph ?w)) with (vmm_virt_to_phys (pmm_free cpu ph (pm w)) (root w sp) x).
    rewrite virt_to_phys_leaf, (mem_leaves R (pm (unmap_page sp va v))), <-virt_to_phys_leaf; [|by rewrite pmm_free_mem|apply (st_root R slot v0 HR X v H)|unfold PAGE_SIZE; lia].
    apply Hoth; unfold user_addr, PAGE_SIZE in *; [lia|]. pose proof (Z.div_mod va 4096 ltac:(lia)).
    replace (va + 4096 * Z.of_nat (S i)) with (va + Z.of_nat (S i) * 4096) by lia. rewrite Z.div_add by lia. lia.
  - rewrite <-(Z.mod_add va 1 4096) in Hal by lia. by rewrite Z.mul_1_l in Hal.
Qed.

Lemma stack_release_ok phys added v :
  st v -> frames_at base phys v -> (length phys <= 4)%nat -> exists v', stack_release cpu sp base phys added v = Some v' /\ st v'.
Proof.
  intros H Hf Hl. unfold USER_STACK_PAGES, PAGE_SIZE, USER_LIMIT in *. unfold stack_release. destruct added.
  - destruct (st_vma_remove R slot v0 Hslot X v base (USER_STACK_PAGES * PAGE_SIZE) H) as (t & rc & -> & H1); [unfold is_u64; lia|done|]. cbn [mbind option_bind fst].
    eexists. split; [done|]. apply release_pages_ok; unfold USER_LIMIT, PAGE_SIZE; try done; try lia. apply (frames_same base phys v); unfold USER_LIMIT, PAGE_SIZE; [|lia|lia|done].
    apply (same_phys_leaves R slot v0 HR X X); [done|done|]. apply mem_leaves. by destruct t.
  - eexists. split; [done|]. apply release_pages_ok; unfold USER_LIMIT, PAGE_SIZE; try done; lia.
Qed.

Lemma map_stack_ok n : forall phys v,
  st v -> frames_at base phys v -> (length phys + n = 4)%nat ->
  exists r v', map_stack cpu sp base n phys v = Some (r, v') /\ st v' /\ forall l, r = Some l -> frames_at base l v' /\ length l = 4%nat.
Proof.
  induction n as [|n IH]; intros phys v H Hf Hl; cbn [map_stack].
  { eexists _, _. split; [done|]. split; [done|]. intros l [= <-]. split; [done|lia]. }
  assert (Hva : user_addr (base + blen phys * PAGE_SIZE)) by (unfold user_addr, blen, USER_STACK_PAGES, PAGE_SIZE, USER_LIMIT in *; lia).
  pose proof (st_map_new cpu Hcpu R slot v0 HR X v _ VMM_UDATA H Hva eq_refl) as Hn.
  pose proof (map_new_failed cpu Hcpu R slot v0 HR X v _ VMM_UDATA H Hva eq_refl) as Hfail.
  assert (Hkeep : forall w, st w -> same_phys slot v w -> exists v', stack_release cpu sp base phys false w = Some v' /\ st v').
  { intros w Hw Hs. apply stack_release_ok; [done| |lia]. apply (frames_same base phys v); [done|lia| |done]. unfold USER_STACK_PAGES, PAGE_SIZE in *. lia. }
  destruct (pmm_alloc_zeroed cpu (pm v)) as [[ph|] m].
  2:{ destruct (Hkeep _ Hn Hfail) as (v' & -> & H'). by eexists _, _. }
  destruct (vmm_map cpu sp _ ph VMM_UDATA (set_pm m v)) as [rc v1]. destruct (Z.ltb_spec rc 0) as [Hrc|Hrc].
  { destruct (Hkeep _ Hn (Hfail Hrc)) as (v' & -> & H'). by eexists _, _. }
  destruct Hn as (_ & H1 & (f & Hpf & Hlf & _) & Hph & Hoth). apply IH; [done| |rewrite length_app; cbn; lia].
  assert (Hnz : ph <> 0) by (rewrite Hpf; by apply (mi_page_nz R X (pm v1) f (st_inv _ _ _ _ _ H1))).
  intros i q Hi. apply lookup_app_Some in Hi as [Hi|[Hi1 Hi2]].
  - destruct (Hf i q Hi) as [Hq1 Hq2]. split; [done|]. apply lookup_lt_Some in Hi. rewrite Hoth; [done|..]; unfold user_addr, blen, PAGE_SIZE, USER_STACK_PAGES, USER_LIMIT in *; [lia|].
    replace (base + 4096 * Z.of_nat i) with (base + Z.of_nat i * 4096) by lia. rewrite !Z.div_add by lia. lia.
  - apply list_lookup_singleton_Some in Hi2 as [Hi2 <-]. split; [done|]. rewrite <-Hph. f_equal. unfold blen, PAGE_SIZE. lia.
Qed.

Lemma stack_write_ok chunks : forall uva bs phys v,
  st v -> frames_at base phys v -> length phys = 4%nat -> base <= uva -> uva + blen bs <= base + USER_STACK_PAGES * PAGE_SIZE -> (length bs <= chunks)%nat ->
  exists v', stack_write chunks uva bs phys base v = Some v' /\ st v' /\ same_phys slot v v'.
Proof.
  induction chunks as [|chunks IH]; intros uva bs phys v H Hf Hl Hu Hb Hc; destruct bs as [|b bs]; cbn [stack_write length] in *; [by exists v|lia|by exists v|].
  assert (Hbl : 1 <= blen (b :: bs)) by (unfold blen; cbn [length]; lia). unfold USER_STACK_PAGES, PAGE_SIZE, USER_LIMIT in *.
  rewrite (u64_small (uva - base)) by (unfold is_u64; lia). cbv zeta. set (off := uva - base) in *.
  change 0xFFF with (Z.ones 12). rewrite Z.land_ones, Z.shiftr_div_pow2 by lia. change (2 ^ 12) with 4096.
  pose proof (Z.mod_pos_bound off 4096 ltac:(lia)) as Hin. pose proof (Z.div_mod off 4096 ltac:(lia)) as Hdm. pose proof (Z.div_pos off 4096 ltac:(lia) ltac:(lia)) as Hpos.
  set (q := off / 4096) in *. set (in_pg := off mod 4096) in *. set (chunk := Z.min (4096 - in_pg) (blen (b :: bs))).
  assert (Hck : 1 <= chunk <= blen (b :: bs) /\ in_pg + chunk <= 4096) by (unfold chunk; lia). clearbody chunk.
  assert (Hq : (Z.to_nat q < length phys)%nat) by lia. destruct (lookup_lt_is_Some_2 phys (Z.to_nat q) Hq) as [ph Hph]. rewrite Hph. cbn [mbind option_bind].
  destruct (Hf _ _ Hph) as [Hnz Hpa]. rewrite Z2Nat.id in Hpa by lia.
  assert (Htake : blen (take (Z.to_nat chunk) (b :: bs)) = chunk) by (unfold blen in *; rewrite length_take; lia).
  assert (Hdrop : blen (drop (Z.to_nat chunk) (b :: bs)) = blen (b :: bs) - chunk) by (unfold blen in *; rewrite length_drop; lia).
  destruct (poke_ok v (base + PAGE_SIZE * q) ph in_pg (take (Z.to_nat chunk) (b :: bs)) H) as (v1 & -> & H1 & Hs1); [unfold user_addr, PAGE_SIZE, USER_LIMIT; lia|done|done|lia| |].
  { rewrite Htake. unfold PAGE_SIZE. lia. }
  cbn [mbind option_bind]. rewrite (u64_small (uva + chunk)) by (unfold is_u64; lia).
  destruct (IH (uva + chunk) (drop (Z.to_nat chunk) (b :: bs)) phys v1 H1) as (v2 & -> & H2 & Hs2); [|done|lia|rewrite Hdrop; lia|rewrite length_drop; cbn [length]; lia|].
  - apply (frames_same base phys v); unfold USER_LIMIT, PAGE_SIZE; try done; lia.
  - exists v2. split; [done|]. split; [done|]. by eapply same_phys_trans.
Qed.

Lemma stack_put_ok uva bs phys v :
  st v -> frames_at base phys v -> length phys = 4%nat -> base <= uva -> uva + blen bs <= base + USER_STACK_PAGES * PAGE_SIZE ->
  exists v', stack_put uva bs phys base v = Some v' /\ st v' /\ frames_at base phys v'.
Proof.
  intros H Hf Hl Hu Hb. destruct (stack_write_ok (length bs) uva bs phys v H Hf Hl Hu Hb (le_n _)) as (v' & Hw & H' & Hs). exists v'. split; [done|]. split; [done|].
  apply (frames_same base phys v); [done|lia| |done]. rewrite Hl. unfold USER_STACK_PAGES in Hlim. lia.
Qed.

(** Making room on the stack. *)
Lemma room x n k : 0 <= n < 2 ^ 20 -> base <= x <= USER_LIMIT -> 0 <= k < 8 ->
  let x' := clear_bits (u64 (x - n)) (2 ^ k - 1) in 0 <= x' /\ x' + n <= x /\ x' mod 2 ^ k = 0.
Proof.
  unfold USER_LIMIT. intros Hn Hx Hk. cbv zeta. rewrite u64_small by (unfold is_u64; lia). 
  assert (Hc : clear_bits (x - n) (2 ^ k - 1) = (x - n) - (x - n) mod 2 ^ k) by (apply (Bits.align_down (x - n) k); unfold is_u64; lia). rewrite Hc.
  pose proof (Z.mod_pos_bound (x - n) (2 ^ k) ltac:(lia)). pose proof (Z.mod_le (x - n) (2 ^ k) ltac:(lia) ltac:(lia)). split; [lia|]. split; [lia|].
  rewrite Zminus_mod_idemp_r, Z.sub_diag. apply Z.mod_0_l. lia.
Qed.

Abbreviation top := (base + USER_STACK_PAGES * PAGE_SIZE).

(** Strings a caller of [setup_user_stack] may pass. *)
Definition string_ok (o : option (list Z)) : Prop := match o with Some s => blen s < 2 ^ 19 | None => True end.

Lemma push_strings_ok phys todo : forall uvas sp_ v,
  st v -> frames_at base phys v -> length phys = 4%nat -> base <= sp_ <= top -> Forall string_ok todo ->
  exists r v', push_strings todo uvas sp_ phys base v = Some (r, v') /\ st v' /\ frames_at base phys v' /\
    forall l x, r = Some (l, x) -> length l = (length uvas + length todo)%nat /\ base <= x <= top.
Proof.
  induction todo as [|o todo IH]; intros uvas sp_ v H Hf Hl Hs Ht; cbn [push_strings].
  { eexists _, _. split; [done|]. split; [done|]. split; [done|]. intros l x [= <- <-]. split; [cbn; lia|done]. }
  apply Forall_cons in Ht as [Ho Ht]. destruct o as [str|].
  2:{ destruct (IH (0 :: uvas) sp_ v H Hf Hl Hs Ht) as (r & v' & -> & H' & Hf' & Hr). eexists _, _. split; [done|]. split; [done|]. split; [done|].
      intros l x Hlx. destruct (Hr l x Hlx) as [Hr1 Hr2]. split; [cbn in *; lia|done]. }
  cbv zeta. cbn [string_ok] in Ho. assert (Hb : 0 <= blen (str ++ [0]) < 2 ^ 20) by (rewrite blen_app; unfold blen in *; cbn [length]; lia).
  pose proof (room sp_ (blen (str ++ [0])) 3 Hb ltac:(lia) ltac:(lia)) as (Hx0 & Hx1 & _). change (2 ^ 3 - 1) with 7 in *. set (x := clear_bits _ 7) in *.
  destruct (Z.ltb_spec x base); [by eexists _, _|].
  destruct (stack_put_ok x (str ++ [0]) phys v H Hf Hl) as (v1 & -> & H1 & Hf1); [lia|lia|]. cbn [mbind option_bind].
  destruct (IH (x :: uvas) x v1 H1 Hf1 Hl ltac:(unfold blen in *; lia) Ht) as (r & v' & -> & H' & Hf' & Hr). eexists _, _. split; [done|]. split; [done|]. split; [done|].
  intros l y Hly. destruct (Hr l y Hly) as [Hr1 Hr2]. split; [cbn in *; lia|done].
Qed.

Lemma write_words_ok phys ws : forall wp v,
  st v -> frames_at base phys v -> length phys = 4%nat -> base <= wp -> wp + 8 * Z.of_nat (length ws) <= top ->
  exists v', write_words wp ws phys base v = Some (wp + 8 * Z.of_nat (length ws), v') /\ st v' /\ frames_at base phys v'.
Proof.
  induction ws as [|w ws IH]; intros wp v H Hf Hl Hw Hb; cbn [write_words length] in *; [exists v; split; [do 2 f_equal; lia|done]|].
  destruct (stack_put_ok wp (le_bytes 8 w) phys v H Hf Hl Hw) as (v1 & Hp & H1 & Hf1); [unfold blen; rewrite le_bytes_length; lia|].
  unfold stack_write_u64. rewrite Hp. cbn [mbind option_bind]. destruct (IH (wp + 8) v1 H1 Hf1 Hl ltac:(lia) ltac:(lia)) as (v' & -> & H' & Hf').
  exists v'. split; [do 2 f_equal; lia|done].
Qed.

(** The strings and the frame stay inside the pages of the stack. *)
Lemma fill_stack_ok phys elf argv envp ids random v :
  st v -> frames_at base phys v -> length phys = 4%nat -> length random = 16%nat ->
  (length argv <= 4096)%nat -> (length envp <= 4096)%nat -> Forall string_ok argv -> Forall (fun s => blen s < 2 ^ 19) envp ->
  exists r v', fill_stack top base phys elf argv envp ids random v = Some (r, v') /\ st v' /\ frames_at base phys v' /\
    forall x, r = Some x -> base <= x < top /\ x mod 16 = 0.
Proof.
  intros H Hf Hl Hrnd Hargc Henvc Hargs Henvs. unfold fill_stack. cbv zeta.
  destruct (stack_put_ok (top - 16) random phys v H Hf Hl) as (v1 & -> & H1 & Hf1); [unfold USER_STACK_PAGES, PAGE_SIZE; lia|unfold blen; rewrite Hrnd; lia|]. cbn [mbind option_bind].
  destruct (push_strings_ok phys (rev (Some <$> envp)) [] (top - 16) v1 H1 Hf1 Hl) as (r & v2 & -> & H2 & Hf2 & Hr); [unfold USER_STACK_PAGES, PAGE_SIZE; lia| |].
  { apply Forall_rev, Forall_fmap. done. }
  cbn [mbind option_bind]. destruct r as [[env_uva sp1]|]; [|by eexists _, _]. destruct (Hr _ _ eq_refl) as [Hel Hs1].
  destruct (push_strings_ok phys (rev argv) [] sp1 v2 H2 Hf2 Hl Hs1) as (r & v3 & -> & H3 & Hf3 & Hr'); [by apply Forall_rev|].
  cbn [mbind option_bind]. destruct r as [[arg_uva sp2]|]; [|by eexists _, _]. destruct (Hr' _ _ eq_refl) as [Hal Hs2].
  set (av := auxv _ _ _ _). assert (Hav : length av = 28%nat) by done. rewrite Hav. rewrite length_rev, ?length_fmap in *. cbn [length] in Hel, Hal.
  set (fb := (1 + _ + 1 + _ + 1) * 8 + _). pose proof (room sp2 fb 4 ltac:(unfold fb; lia) ltac:(lia) ltac:(lia)) as (Hx0 & Hx1 & Hx2).
  change (2 ^ 4 - 1) with 15 in *. set (x := clear_bits _ 15) in *. destruct (Z.ltb_spec x base); [by eexists _, _|].
  set (ws := Z.of_nat (length argv) :: _). assert (Hws : Z.of_nat (length ws) = 3 + Z.of_nat (length argv) + Z.of_nat (length envp)).
  { unfold ws. cbn [length]. rewrite !length_app. cbn [length]. lia. }
  destruct (write_words_ok phys ws x v3 H3 Hf3 Hl) as (v4 & -> & H4 & Hf4); [lia|unfold fb in *; lia|]. cbn [mbind option_bind].
  destruct (stack_put_ok (x + 8 * Z.of_nat (length ws)) (concat (le_bytes 8 <$> av)) phys v4 H4 Hf4 Hl) as (v5 & -> & H5 & Hf5); [lia| |].
  { assert (Hcl : length (concat (le_bytes 8 <$> av)) = (8 * length av)%nat) by apply concat_words_length. unfold blen. rewrite Hcl, Hav. unfold fb in *. lia. }
  cbn [mbind option_bind]. eexists _, _. split; [done|]. split; [done|]. split; [done|]. intros y [= <-]. split; [unfold fb in *; lia|done].
Qed.
End stack.

Lemma stack_top_bounds rand : let top := USER_STACK_TOP - Z.shiftl (Z.land rand 0xFF) 12 in
  let base := top - USER_STACK_PAGES * PAGE_SIZE in
  USER_STACK_GROW_BASE < base /\ base mod 4096 = 0 /\ top <= USER_STACK_TOP.
Proof.
  cbv zeta. change 0xFF with (Z.ones 8). rewrite Z.land_ones, Z.shiftl_mul_pow2 by lia. pose proof (Z.mod_pos_bound rand (2 ^ 8) ltac:(lia)).
  set (r := rand mod 2 ^ 8) in *. unfold USER_STACK_TOP, USER_STACK_GROW_BASE, USER_STACK_PAGES, PAGE_SIZE. split; [lia|]. split; [|lia].
  replace (0x7fffffff0000 - r * 2 ^ 12 - 4 * 4096) with ((0x7fffffff0 - r - 4) * 4096) by lia. apply Z.mod_mul. lia.
Qed.

Lemma setup_user_stack_ok elf argv envp ids rand random kmalloc_ok v :
  st v -> length random = 16%nat -> Forall string_ok argv -> Forall (fun s => blen s < 2 ^ 19) envp ->
  exists rsp v', setup_user_stack cpu sp elf argv envp ids rand random kmalloc_ok v = Some (rsp, v') /\ st v' /\
    (rsp = 0 \/ USER_STACK_GROW_BASE < rsp < USER_STACK_TOP /\ rsp mod 16 = 0).
Proof.
  intros H Hrnd Hargs Henvs. unfold setup_user_stack. destruct (_ || _) eqn:Hc; [exists 0, v; split; [done|]; split; [done|by left]|].
  apply orb_false_iff in Hc as [Hc1%Z.ltb_ge Hc2%Z.ltb_ge]. unfold STACK_MAX_ARGS in *.
  destruct (stack_top_bounds rand) as (Hb1 & Hb2 & Hb3). cbv zeta in *. set (top := USER_STACK_TOP - _) in *. set (base := top - _) in *.
  assert (Htop : base + USER_STACK_PAGES * PAGE_SIZE = top) by (unfold base; lia).
  assert (Hbase : 2 ^ 20 <= base) by (unfold USER_STACK_GROW_BASE in *; lia).
  assert (Hlim : base + USER_STACK_PAGES * PAGE_SIZE <= USER_LIMIT) by (rewrite Htop; unfold USER_STACK_TOP, USER_LIMIT in *; lia).
  destruct (map_stack_ok base Hbase Hb2 Hlim (Z.to_nat USER_STACK_PAGES) [] v H) as (r & v1 & -> & H1 & Hr); [by intros i ph Hi|done|]. cbn [mbind option_bind].
  destruct r as [phys|]; [|exists 0, v1; split; [done|]; split; [done|by left]]. destruct (Hr phys eq_refl) as [Hf Hl].
  pose proof (st_vma_add R slot v0 Hslot X v1 USER_STACK_GROW_BASE (top - USER_STACK_GROW_BASE) (Z.lor PROT_READ PROT_WRITE) 0 true H1) as H2.
  destruct (vma_add _ _ _ _ _ _) as [t rc]. assert (Hu : is_u64 (top - USER_STACK_GROW_BASE)) by (unfold is_u64, USER_STACK_TOP, USER_STACK_GROW_BASE, USER_STACK_PAGES, PAGE_SIZE in *; lia).
  specialize (H2 ltac:(done) Hu eq_refl). set (v2 := set_table sp t v1) in *.
  assert (Hf2 : frames_at base phys v2).
  { apply (frames_same base phys v1); [|lia|rewrite Hl; unfold USER_STACK_PAGES in Hlim; lia|done]. apply (same_phys_leaves R slot v0 HR X X); [done|done|]. apply mem_leaves. unfold v2. by destruct t. }
  assert (Hrel : forall added w, st w -> frames_at base phys w -> exists v', stack_release cpu sp base phys added w = Some v' /\ st v').
  { intros added w Hw Hfw. apply stack_release_ok; try done. lia. }
  destruct (rc <? 0); [destruct (Hrel false v2 H2 Hf2) as (v' & -> & H'); exists 0, v'; split; [done|]; split; [done|by left]|].
  destruct kmalloc_ok; cbn [negb]; [|destruct (Hrel true v2 H2 Hf2) as (v' & -> & H'); exists 0, v'; split; [done|]; split; [done|by left]].
  destruct (fill_stack_ok base Hbase Hlim phys elf argv envp ids random v2 H2 Hf2 Hl Hrnd ltac:(lia) ltac:(lia) Hargs Henvs) as (r2 & v3 & Hfill & H3 & Hf3 & Hr2).
  rewrite Htop in Hfill, Hr2. rewrite Hfill. cbn [mbind option_bind]. destruct r2 as [rsp|].
  - exists rsp, v3. split; [done|]. split; [done|]. right. destruct (Hr2 rsp eq_refl) as [Hx1 Hx2]. split; [lia|done].
  - destruct (Hrel true v3 H3 Hf3) as (v' & -> & H'). exists 0, v'. split; [done|]. split; [done|by left].
Qed.
End load.
