(* ===== verification/SysInv.v ===== *)
(** * The invariant of the memory of all processes.

    [spaces_inv]: every address space in use has one reference for each of its
    holders, the pages and tables of all spaces are accounted for, none is
    writable and executable.  Creating, forking, switching to and releasing
    spaces, loading programs and stores of programs keep it. *)

From S2P Require Import Prelude Bits Bytes Words Bitfield Vma Lower LLFree Pmm Vmm VmmPte VmmTables MemInv Shmem VmmFork SpaceFree VmmSpaces MemSys Exec Wx MemSafe ExecSafe.

(** ** The kernel half of a page table *)

Section upper.
Context `{FA : FrameAllocator A} (R X : list Z).
Implicit Type s : pmm_t A.

(** Writes to the upper half of a root change no user page. *)
Lemma upper_rd s m r q i t r' :
  mem_inv R X s -> r ∈ R -> r' ∈ R -> (forall a, ~ (r + 2048 <= a < r + 4096) -> m a = mem s a) ->
  walk s r' q = Some t -> valid_path q -> 0 <= i < 512 -> (q = [] -> i < 256) -> rd (set_mem m s) t i = rd s t i.
Proof.
  intros H Hr Hr' Hm Hw Hq Hi Hi0. pose proof (mi_tables _ _ _ H) as Ht. unfold rd. cbn [set_mem mem]. apply Hm.
  assert (Hpt : is_page t) by (apply (table_is_page R s); [done|by exists r', q]). assert (Hpr : is_page r) by (apply (table_is_page R s); [done|by exists r, []]).
  destruct Hpt as [_ Hpt], Hpr as [_ Hpr]. pose proof (Z.div_mod t 4096 ltac:(lia)). pose proof (Z.div_mod r 4096 ltac:(lia)). intros Hin. assert (t = r) as -> by lia.
  destruct (tb_inj R s Ht r' r q [] r Hr' Hr Hq) as [_ Hq0]; [done|done|done|]. specialize (Hi0 Hq0). lia.
Qed.

Lemma upper_half_inv s m r :
  mem_inv R X s -> r ∈ R -> (forall a, ~ (r + 2048 <= a < r + 4096) -> m a = mem s a) ->
  mem_inv R X (set_mem m s) /\ same_leaves R s (set_mem m s).
Proof.
  intros H Hr Hm. pose proof (mi_tables _ _ _ H) as Ht.
  assert (Hwalk : forall r' p, r' ∈ R -> valid_path p -> walk (set_mem m s) r' p = walk s r' p).
  { intros r' p Hr' Hp. apply walk_agree; [|done]. intros q i t Hv Hw. destruct (valid_snoc q i Hv) as (Hq & Hi & _).
    apply (upper_rd s m r q i t r'); try done. intros ->. apply Hv. }
  assert (Hleaf : same_leaves R s (set_mem m s)).
  { intros r' va Hr' Hva. rewrite !leaf_pte_walk. unfold leafp. rewrite Hwalk by (done || by apply table_path_valid). destruct (walk s r' (table_path va)) as [t|] eqn:Hw; [|done].
    apply (upper_rd s m r (table_path va) _ t r'); try done; [by apply table_path_valid|apply idx_range]. }
  assert (Htab : forall t, is_table R (set_mem m s) t <-> is_table R s t).
  { intros t. split; intros (r' & p & Hr' & Hp & Hw); exists r', p; split_and!; try done; [by rewrite <-Hwalk|by rewrite Hwalk]. }
  split; [|done]. destruct (tb_inv _ _ Ht) as [k Hok].
  destruct (tb_page R s Ht r) as (f & Hf & Hlf); [by exists r, []|].
  assert (Hi : pmm_inv (set_mem m s)).
  { exists k. apply write_ok; [done|]. intros a. destruct (decide (r + 2048 <= a < r + 4096)); [right|left; by apply Hm]. exists f. split; [done|]. rewrite <-Hf. unfold PAGE_SIZE. lia. }
  apply (quiet_inv R X X s); try done.
  - split; [done| |].
    + intros t Htt. apply Htab, (tb_page R s Ht) in Htt. exact Htt.
    + intros r1 r2 p1 p2 t H1 H2 Hp1 Hp2 Hw1 Hw2. rewrite Hwalk in Hw1, Hw2 by done. by apply (tb_inj R s Ht r1 r2 p1 p2 t).
  - intros t Htt. left. by apply Htab.
  - intros g Hg Htt. by apply (mi_spare _ _ _ H g Hg), Htab.
  - intros g Hg. change (live (set_mem m s) g) with (live s g). lia.
  - intros g Hg. change (live (set_mem m s) g) with (live s g). pose proof (mi_refs _ _ _ H g [] NoDup_nil_2) as Hrf. cbn [length] in Hrf.
    enough (Z.of_nat 0 + occ g X <= live s g) by lia. apply Hrf. intros x Hx. by apply not_elem_of_nil in Hx.
Qed.
End upper.

Lemma empty_vmas_unused i w : empty_vmas !! i = Some w -> Vma.used w = false.
Proof. unfold empty_vmas. intros [-> _]%lookup_replicate. done. Qed.

Lemma empty_vmas_wf : vma_wf empty_vmas.
Proof. split; [intros i w Hi Hu|intros i j w w' Hi _ Hu]; by rewrite (empty_vmas_unused i w Hi) in Hu. Qed.

Lemma empty_vmas_prots : prots_wx empty_vmas.
Proof.
  intros a pr mf o Ha. destruct (view_cases empty_vmas a) as [Hn|(i & w & Hi & Hc & _)]; [congruence|]. apply contains_true in Hc as [Hu _].
  by rewrite (empty_vmas_unused i w Hi) in Hu.
Qed.

Section system.
Context `{FA : FrameAllocator A}.
Implicit Type v : vmm_t A.
Implicit Type ps : list (option mm_proc).

(** ** The invariant *)

Definition used v (i : nat) : Prop := g_pool_used v !! i = Some true.

Definition used_slots v : list nat := filter (fun i => g_pool_used v !! i = Some true) (seq 0 (length (g_pool_used v))).
Definition roots v : list Z := (fun i => root v (PoolSpace i)) <$> used_slots v.

Definition uses (i : nat) (o : option mm_proc) : bool := match o with Some p => bool_decide (p_space p = Some (PoolSpace i)) | None => false end.

(** The references to a space: one for each of its processes, and those the
    kernel holds, [E]. *)
Definition holders (i : nat) (E : list nat) ps : Z := Z.of_nat (count_if (uses i) ps) + Z.of_nat (count_if (Nat.eqb i) E).

(** [X] are the frames the kernel holds references to besides those of mappings
    and tables, and [B] is the first frame of the managed memory. *)
Record spaces_inv (X : list Z) (B : Z) (E : list nat) ps v : Prop := {
  si_lens : length (g_pool v) = length (g_pool_used v);
  si_nodup : NoDup (roots v);
  si_mem : mem_inv (roots v) X (pm v);
  si_base : g_first_frame (pm v) = B;
  si_wx : wx (roots v) (pm v);
  si_space i : used v i -> vma_wf (table v (PoolSpace i)) /\ prots_wx (table v (PoolSpace i)) /\ refcount (space v (PoolSpace i)) = holders i E ps;
  si_proc p : Some p ∈ ps -> proc_ok p /\ exists i, p_space p = Some (PoolSpace i) /\ used v i;
  si_kernel i : i ∈ E -> used v i;
  si_count : Z.of_nat (length ps + length E) < 2 ^ 31;
}.

#[global] Arguments si_lens {X B} E ps v _.
#[global] Arguments si_nodup {X B} E ps v _.
#[global] Arguments si_mem {X B} E ps v _.
#[global] Arguments si_base {X B} E ps v _.
#[global] Arguments si_wx {X B} E ps v _.
#[global] Arguments si_space {X B} E ps v _ i _.
#[global] Arguments si_proc {X B} E ps v _ p _.
#[global] Arguments si_kernel {X B} E ps v _ i _.
#[global] Arguments si_count {X B} E ps v _.

Lemma elem_used_slots v i : i ∈ used_slots v <-> used v i.
Proof.
  unfold used_slots, used. rewrite list_elem_of_filter, elem_of_seq. split; [tauto|]. intros H. split; [done|]. apply lookup_lt_Some in H. lia.
Qed.

Lemma elem_roots v r : r ∈ roots v <-> exists i, used v i /\ r = root v (PoolSpace i).
Proof.
  unfold roots. rewrite list_elem_of_fmap. split; intros (i & H1 & H2); exists i; [by rewrite <-elem_used_slots|by rewrite elem_used_slots].
Qed.

Lemma root_in v i : used v i -> root v (PoolSpace i) ∈ roots v.
Proof. intros H. apply elem_roots. by exists i. Qed.

Lemma NoDup_used_slots v : NoDup (used_slots v).
Proof. apply NoDup_filter, NoDup_seq. Qed.

Lemma roots_same v v' : g_pool_used v' = g_pool_used v -> (forall i, used v i -> root v' (PoolSpace i) = root v (PoolSpace i)) -> roots v' = roots v.
Proof.
  intros Hu Hr. unfold roots, used_slots. rewrite Hu. apply list_fmap_ext. intros k i Hi. apply Hr. apply list_elem_of_lookup_2, list_elem_of_filter in Hi. apply Hi.
Qed.

(** A space more. *)
Lemma roots_new v v' slot :
  g_pool_used v !! slot = Some false -> g_pool_used v' = <[slot := true]> (g_pool_used v) ->
  (forall i, i <> slot -> root v' (PoolSpace i) = root v (PoolSpace i)) -> roots v' ≡ₚ root v' (PoolSpace slot) :: roots v.
Proof.
  intros Hs Hu Hr.
  assert (Hp : used_slots v' ≡ₚ slot :: used_slots v).
  { apply NoDup_Permutation; [apply NoDup_used_slots| |].
    - apply NoDup_cons. split; [|apply NoDup_used_slots]. rewrite elem_used_slots. unfold used. congruence.
    - intros i. rewrite elem_of_cons, !elem_used_slots. unfold used. rewrite Hu. destruct (decide (i = slot)) as [->|Hne].
      + rewrite list_lookup_insert_eq by by eapply lookup_lt_Some. tauto.
      + rewrite list_lookup_insert_ne by done. tauto. }
  unfold roots. rewrite Hp. cbn [fmap list_fmap]. apply Permutation_skip. rewrite (list_fmap_ext (fun i => root v' (PoolSpace i)) (fun i => root v (PoolSpace i)) (used_slots v)); [done|]. intros k i Hi.
  apply Hr. intros ->. apply list_elem_of_lookup_2, elem_used_slots in Hi. unfold used in Hi. congruence.
Qed.

(** Memory and the frames held changed, the spaces did not. *)
Lemma inv_quiet X X' B E ps v v' :
  spaces_inv X B E ps v -> mem_inv (roots v) X' (pm v') -> same_leaves (roots v) (pm v) (pm v') -> g_first_frame (pm v') = g_first_frame (pm v) ->
  g_pool_used v' = g_pool_used v -> g_pool v' = g_pool v -> spaces_inv X' B E ps v'.
Proof.
  intros H Hm Hl Hb Hu Hp. assert (Hsp : forall i, space v' (PoolSpace i) = space v (PoolSpace i)) by (intros i; unfold space, aget; by rewrite Hp).
  assert (Hr : roots v' = roots v) by (apply roots_same; [done|]; intros i _; unfold root; by rewrite Hsp).
  assert (Hus : forall i, used v' i <-> used v i) by (intros i; unfold used; by rewrite Hu).
  split; rewrite ?Hr; try apply H; try done.
  - rewrite Hp, Hu. apply H.
  - rewrite Hb. apply H.
  - apply (wx_leaves (roots v) (pm v)); [apply H|done].
  - intros i Hi. unfold table. rewrite Hsp. by apply (si_space _ _ _ H), Hus.
  - intros p Hin. destruct (si_proc _ _ _ H p Hin) as (Hok & i & Hi1 & Hi2). split; [done|]. exists i. by rewrite Hus.
  - intros i Hi. by apply Hus, (si_kernel _ _ _ H).
Qed.

Section held.
Context (X : list Z) (B : Z).
Abbreviation sys_inv := (spaces_inv X B).

(** ** Using one space *)

Lemma inv_st E ps v i : sys_inv E ps v -> used v i -> st (roots v) i v X v.
Proof. intros H Hi. destruct (si_space _ _ _ H i Hi) as (H1 & H2 & _). split; try done; [apply H|apply H]. Qed.

Lemma used_lt E ps v i : sys_inv E ps v -> used v i -> (i < length (g_pool v))%nat.
Proof. intros H Hi. rewrite (si_lens _ _ _ H). by eapply lookup_lt_Some. Qed.

Lemma inv_leave {X'} E ps v v' i : sys_inv E ps v -> used v i -> st (roots v) i v X' v' -> spaces_inv X' B E ps v'.
Proof.
  intros H Hi [S1 S2 S3 S4 [T1 T2 T3 _ T4 T5 [T6 _]]].
  assert (Hu : forall j, used v' j <-> used v j) by (intros j; unfold used; by rewrite T4).
  assert (Hr : roots v' = roots v).
  { apply roots_same; [done|]. intros j Hj. destruct (decide (j = i)) as [->|Hne]; [done|]. unfold root. rewrite T1; [done|congruence]. }
  split; rewrite ?Hr; try apply H; try done.
  - rewrite T5, T4. apply H.
  - rewrite T6. apply H.
  - intros j Hj. apply Hu in Hj. destruct (si_space _ _ _ H j Hj) as (H1 & H2 & H3). destruct (decide (j = i)) as [->|Hne]; [by rewrite T3|].
    unfold table. rewrite T1 by congruence. done.
  - intros p Hp. destruct (si_proc _ _ _ H p Hp) as (Hpk & j & Hj1 & Hj2). split; [done|]. exists j. by rewrite Hu.
  - intros j Hj. by apply Hu, (si_kernel _ _ _ H).
Qed.

(** ** Who holds a space *)

Lemma inv_holders E E' ps ps' v :
  sys_inv E ps v -> (forall i, used v i -> holders i E' ps' = holders i E ps) ->
  (forall p, Some p ∈ ps' -> proc_ok p /\ exists i, p_space p = Some (PoolSpace i) /\ used v i) -> (forall i, i ∈ E' -> used v i) ->
  (length ps' + length E' <= length ps + length E)%nat -> sys_inv E' ps' v.
Proof.
  intros H Hh Hp Hk Hl. split; try apply H; try done.
  - intros i Hi. destruct (si_space _ _ _ H i Hi) as (H1 & H2 & H3). by rewrite Hh.
  - pose proof (si_count _ _ _ H). lia.
Qed.

(** The process in slot [k] gives up its reference, or takes one over. *)
Lemma inv_take E ps v k p i :
  sys_inv E ps v -> ps !! k = Some (Some p) -> p_space p = Some (PoolSpace i) -> Z.of_nat (length ps + length E + 1) < 2 ^ 31 ->
  sys_inv (i :: E) (<[k := None]> ps) v.
Proof.
  intros H Hk Hp Hc. pose proof (list_elem_of_lookup_2 _ _ _ Hk) as Hin. destruct (si_proc _ _ _ H p Hin) as (_ & j & Hj & Hu). rewrite Hp in Hj. injection Hj as <-.
  split; try apply H.
  - intros j Hj. destruct (si_space _ _ _ H j Hj) as (H1 & H2 & H3). split; [done|]. split; [done|]. rewrite H3. unfold holders. cbn [count_if].
    pose proof (count_if_insert (uses j) ps k (Some p) None Hk) as Hi. cbn [uses] in Hi. destruct (Nat.eqb_spec j i) as [->|Hne].
    + rewrite bool_decide_eq_true_2 in Hi by done. lia.
    + rewrite bool_decide_eq_false_2 in Hi by congruence. lia.
  - intros q Hq. apply (si_proc _ _ _ H). apply list_elem_of_lookup in Hq as [n Hn]. apply list_lookup_insert_Some in Hn as [(_ & Hn & _)|[_ Hn]]; [done|by eapply list_elem_of_lookup_2].
  - intros j [->|Hj]%elem_of_cons; [done|by apply (si_kernel _ _ _ H)].
  - rewrite length_insert. cbn [length]. lia.
Qed.

Lemma inv_put E ps v k p i :
  sys_inv (i :: E) ps v -> ps !! k = Some None -> p_space p = Some (PoolSpace i) -> proc_ok p -> sys_inv E (<[k := Some p]> ps) v.
Proof.
  intros H Hk Hp Hok. assert (Hu : used v i) by (apply (si_kernel _ _ _ H); left). apply (inv_holders (i :: E) E ps); try done.
  - intros j Hj. unfold holders. cbn [count_if]. pose proof (count_if_insert (uses j) ps k None (Some p) Hk) as Hi. cbn [uses] in Hi. destruct (Nat.eqb_spec j i) as [->|Hne].
    + rewrite bool_decide_eq_true_2 in Hi by done. lia.
    + rewrite bool_decide_eq_false_2 in Hi by congruence. lia.
  - intros q Hq. apply list_elem_of_lookup in Hq as [n Hn]. apply list_lookup_insert_Some in Hn as [(_ & Hn & _)|[_ Hn]].
    + injection Hn as <-. split; [done|]. by exists i.
    + by apply (si_proc _ _ _ H), (list_elem_of_lookup_2 _ n).
  - intros j Hj. apply (si_kernel _ _ _ H). by right.
  - rewrite length_insert. cbn [length]. lia.
Qed.

(** ** Creating and releasing spaces *)

Context (cpu : nat) (Hcpu : (cpu < MAX_CPUS)%nat).

(** No process and no one else holds an unused space. *)
Lemma unused_holders E ps v i : sys_inv E ps v -> ~ used v i -> holders i E ps = 0.
Proof.
  intros H Hi. unfold holders. assert (Hp : count_if (uses i) ps = 0%nat).
  { destruct (count_if (uses i) ps) as [|n] eqn:Hc; [done|]. exfalso. assert (Hpos : (0 < count_if (uses i) ps)%nat) by lia.
    apply count_if_pos_inv in Hpos as (k & o & Hk & Ho). destruct o as [p|]; [|done]. apply bool_decide_eq_true in Ho.
    destruct (si_proc _ _ _ H p (list_elem_of_lookup_2 _ _ _ Hk)) as (_ & j & Hj & Hu). rewrite Ho in Hj. injection Hj as <-. done. }
  assert (He : count_if (Nat.eqb i) E = 0%nat).
  { destruct (count_if (Nat.eqb i) E) as [|n] eqn:Hc; [done|]. exfalso. assert (Hpos : (0 < count_if (Nat.eqb i) E)%nat) by lia.
    apply count_if_pos_inv in Hpos as (k & j & Hk & Hj%Nat.eqb_eq). subst j. by apply Hi, (si_kernel _ _ _ H), (list_elem_of_lookup_2 _ k). }
  lia.
Qed.

Lemma inv_new E ps v :
  sys_inv E ps v -> Z.of_nat (length ps + length E + 1) < 2 ^ 31 ->
  match vmm_space_new cpu v with
  | (Some sp, v') => exists slot, sp = PoolSpace slot /\ ~ used v slot /\ sys_inv (slot :: E) ps v' /\
      (forall va, user_addr va -> vmm_leaf_pte (pm v') (root v' (PoolSpace slot)) va = 0) /\
      (forall i, used v i -> space v' (PoolSpace i) = space v (PoolSpace i))
  | (None, v') => sys_inv E ps v'
  end.
Proof.
  intros H Hc. pose proof (vmm_space_new_ok (roots v) X cpu v (si_mem _ _ _ H) (si_lens _ _ _ H)) as Hn. destruct (vmm_space_new cpu v) as [[sp|] v'].
  2:{ destruct Hn as (N1 & N2 & N3 & N4). apply (inv_quiet X X B E ps v); [done|done|by apply grows_leaves|apply (gr_mem _ _ _ _ N2)|done|done]. }
  destruct Hn as (slot & -> & [N1 N2 N3 N4 N5 N6 N7 N8 N9 N10]). exists slot. split; [done|].
  assert (Hnu : ~ used v slot) by (unfold used; congruence). split; [done|].
  assert (Hperm : roots v' ≡ₚ root v' (PoolSpace slot) :: roots v).
  { apply roots_new; [done|done|]. intros i Hi. unfold root. rewrite N3; [done|congruence]. }
  assert (Hus : forall i, used v' i <-> i = slot \/ used v i).
  { intros i. unfold used. rewrite N2. destruct (decide (i = slot)) as [->|Hne]; [rewrite list_lookup_insert_eq by (by eapply lookup_lt_Some); tauto|].
    rewrite list_lookup_insert_ne by done. tauto. }
  split; [|split; [exact N8|]; intros i Hi; apply N3; intros [= ->]; done]. split.
  - by rewrite N4, N2, length_insert, (si_lens _ _ _ H).
  - rewrite Hperm. apply NoDup_cons. split; [exact N6|apply H].
  - eapply mem_inv_perm; [symmetry; exact Hperm|exact N5].
  - rewrite (proj1 (gr_mem _ _ _ _ N7)). apply H.
  - intros r va Hr Hva. rewrite Hperm in Hr. apply elem_of_cons in Hr as [->|Hr]; [rewrite N8 by done; done|].
    rewrite (grows_pte (roots v) (pm v)) by done. by apply (si_wx _ _ _ H).
  - intros i Hi. apply Hus in Hi. destruct (decide (i = slot)) as [->|Hne].
    + unfold table. rewrite N10, N9. split; [apply empty_vmas_wf|]. split; [apply empty_vmas_prots|]. unfold holders. cbn [count_if]. rewrite Nat.eqb_refl.
      pose proof (unused_holders E ps v slot H Hnu) as Hz. unfold holders in Hz. lia.
    + destruct Hi as [Hi|Hi]; [done|]. destruct (si_space _ _ _ H i Hi) as (H1 & H2 & H3). unfold table. rewrite N3 by congruence. split; [done|]. split; [done|]. rewrite H3. unfold holders. cbn [count_if].
      destruct (Nat.eqb_spec i slot); [done|]. lia.
  - intros p Hp. destruct (si_proc _ _ _ H p Hp) as (Hok & i & Hi1 & Hi2). split; [done|]. exists i. split; [done|]. apply Hus. by right.
  - intros i [->|Hi]%elem_of_cons; apply Hus; [by left|right]. by apply (si_kernel _ _ _ H).
  - cbn [length]. lia.
Qed.

Lemma inv_free E ps v slot : sys_inv (slot :: E) ps v -> sys_inv E ps (vmm_space_free cpu (PoolSpace slot) v).
Proof.
  intros H. assert (Hu : used v slot) by (apply (si_kernel _ _ _ H); left). destruct (si_space _ _ _ H slot Hu) as (W1 & W2 & W3).
  set (v1 := set_used slot false v).
  assert (Hperm : roots v ≡ₚ root v (PoolSpace slot) :: roots v1).
  { apply (roots_new v1 v slot).
    - unfold v1, set_used. cbn [g_pool_used]. apply list_lookup_insert_eq. by eapply lookup_lt_Some.
    - unfold v1, set_used. cbn [g_pool_used]. rewrite list_insert_insert_eq. symmetry. by apply list_insert_id.
    - done. }
  pose proof (si_nodup _ _ _ H) as Hnd. rewrite Hperm in Hnd. apply NoDup_cons in Hnd as [Hnin Hnd].
  pose proof (si_count _ _ _ H) as Hcnt. cbn [length] in Hcnt.
  assert (Hrc : 0 < refcount (space v (PoolSpace slot)) < 2 ^ 32).
  { rewrite W3. unfold holders. cbn [count_if]. rewrite Nat.eqb_refl. pose proof (count_if_le (uses slot) ps). pose proof (count_if_le (Nat.eqb slot) E). lia. }
  destruct (vmm_space_free_ok (roots v1) X cpu slot v Hcpu) as [[F1 F2 F3 F4 F5 F6 [F7 _]] Fc]; [by eapply mem_inv_perm; [exact Hperm|apply H]|done|by eapply used_lt|done|].
  set (v' := vmm_space_free cpu (PoolSpace slot) v) in *.
  assert (Hh : forall i, i <> slot -> holders i (slot :: E) ps = holders i E ps).
  { intros i Hne. unfold holders. cbn [count_if]. destruct (Nat.eqb_spec i slot); [done|]. lia. }
  assert (Hroot : forall i, root v' (PoolSpace i) = root v (PoolSpace i)).
  { intros i. unfold root. destruct (decide (i = slot)) as [->|Hne]; [done|]. rewrite F4; [done|congruence]. }
  assert (Hh1 : holders slot (slot :: E) ps = holders slot E ps + 1) by (unfold holders; cbn [count_if]; rewrite Nat.eqb_refl; lia).
  destruct (Z.eqb_spec (refcount (space v (PoolSpace slot))) 1) as [H1|H1].
  - destruct Fc as (Fm & _ & Fu).
    assert (Hr : roots v' = roots v1) by (apply roots_same; [done|]; intros i _; apply Hroot).
    assert (Hus : forall i, used v' i -> i <> slot /\ used v i).
    { intros i Hi. unfold used in *. rewrite Fu in Hi. destruct (decide (i = slot)) as [->|Hne]; [|by rewrite list_lookup_insert_ne in Hi].
      rewrite list_lookup_insert_eq in Hi by (by eapply lookup_lt_Some). done. }
    assert (Hus' : forall i, i <> slot -> used v i -> used v' i) by (intros i Hne Hi; unfold used; rewrite Fu; by rewrite list_lookup_insert_ne).
    assert (Hz : holders slot E ps = 0) by lia.
    split; rewrite ?Hr; try done.
    + by rewrite F5, Fu, length_insert, (si_lens _ _ _ H).
    + rewrite F7. apply H.
    + apply (wx_leaves (roots v1) (pm v)); [|by apply mem_leaves]. intros r va Hin Hva. apply (si_wx _ _ _ H); [|done]. rewrite Hperm. by right.
    + intros i Hi. destruct (Hus i Hi) as [Hne Hi']. destruct (si_space _ _ _ H i Hi') as (G1 & G2 & G3). unfold table. rewrite F4 by congruence. by rewrite <-Hh.
    + intros p Hp. destruct (si_proc _ _ _ H p Hp) as (Hok & i & Hi1 & Hi2). split; [done|]. exists i. split; [done|]. apply Hus'; [|done]. intros ->.
      apply list_elem_of_lookup in Hp as [k Hk]. assert (Hpos : (0 < count_if (uses slot) ps)%nat) by (apply (count_if_pos _ _ k (Some p)); [done|]; by apply bool_decide_eq_true).
      unfold holders in Hz. lia.
    + intros i Hi. apply Hus'; [|apply (si_kernel _ _ _ H); by right]. intros ->. apply list_elem_of_lookup in Hi as [k Hk].
      assert (Hpos : (0 < count_if (Nat.eqb slot) E)%nat) by (apply (count_if_pos _ _ k slot); [done|apply Nat.eqb_refl]). unfold holders in Hz. lia.
    + lia.
  - destruct Fc as (Fm & Fu). assert (Hr : roots v' = roots v) by (apply roots_same; [done|]; intros i _; apply Hroot).
    assert (Hus : forall i, used v' i <-> used v i) by (intros i; unfold used; by rewrite Fu).
    split; rewrite ?Hr, ?Fm; try apply H.
    + by rewrite F5, Fu, (si_lens _ _ _ H).
    + intros i Hi. apply Hus in Hi. destruct (si_space _ _ _ H i Hi) as (G1 & G2 & G3). unfold table. destruct (decide (i = slot)) as [->|Hne]; [rewrite F3, F1; split; [done|]; split; [done|lia]|].
      rewrite F4 by congruence. by rewrite <-Hh.
    + intros p Hp. destruct (si_proc _ _ _ H p Hp) as (Hok & i & Hi1 & Hi2). split; [done|]. exists i. by rewrite Hus.
    + intros i Hi. apply Hus, (si_kernel _ _ _ H). by right.
    + lia.
Qed.

(** ** Fork, threads and the kernel half *)

Lemma roots_inj E ps v i j : sys_inv E ps v -> used v i -> used v j -> root v (PoolSpace i) = root v (PoolSpace j) -> i = j.
Proof.
  intros H Hi Hj He. apply elem_used_slots, list_elem_of_lookup in Hi as [a Ha]. apply elem_used_slots, list_elem_of_lookup in Hj as [b Hb].
  pose proof (si_nodup _ _ _ H) as Hnd. unfold roots in Hnd. assert (a = b) as ->; [|congruence].
  apply (NoDup_lookup _ _ _ (root v (PoolSpace i)) Hnd); rewrite list_lookup_fmap, ?Ha, ?Hb; cbn; congruence.
Qed.

(** Changing the fields of one space other than its root. *)
Lemma inv_set_space E E' ps v i x :
  sys_inv E ps v -> used v i -> pml4_phys x = root v (PoolSpace i) -> vma_wf (vmas x) -> prots_wx (vmas x) -> refcount x = holders i E' ps ->
  (forall j, j <> i -> holders j E' ps = holders j E ps) -> (forall j, j ∈ E' -> used v j) -> Z.of_nat (length ps + length E') < 2 ^ 31 -> sys_inv E' ps (set_space (PoolSpace i) x v).
Proof.
  intros H Hi Hr Hw Hp Hc Hh Hk Hl. set (v' := set_space _ x v). pose proof (used_lt E ps v i H Hi) as Hlt.
  assert (Hx : space v' (PoolSpace i) = x) by (unfold v', set_space, space, aget; cbn [g_pool]; by rewrite list_lookup_insert_eq).
  assert (Ho : forall j, j <> i -> space v' (PoolSpace j) = space v (PoolSpace j)) by (intros j Hne; unfold v', set_space, space, aget; cbn [g_pool]; by rewrite list_lookup_insert_ne).
  assert (Hroots : roots v' = roots v).
  { apply roots_same; [done|]. intros j _. unfold root at 1. destruct (decide (j = i)) as [->|Hne]; [by rewrite Hx|by rewrite Ho]. }
  split; rewrite ?Hroots; try apply H; try done.
  - unfold v', set_space. cbn [g_pool g_pool_used]. rewrite length_insert. apply H.
  - intros j Hj. change (used v j) in Hj. unfold table. destruct (decide (j = i)) as [->|Hne]; [by rewrite Hx|]. rewrite Ho, Hh by done. by apply (si_space _ _ _ H).
Qed.

Lemma inv_retain E ps v i : sys_inv E ps v -> used v i -> Z.of_nat (length ps + length E + 1) < 2 ^ 31 -> sys_inv (i :: E) ps (vmm_space_retain (PoolSpace i) v).
Proof.
  intros H Hi Hl. destruct (si_space _ _ _ H i Hi) as (H1 & H2 & H3). unfold vmm_space_retain. cbn [is_kernel].
  assert (Hh : holders i (i :: E) ps = holders i E ps + 1) by (unfold holders; cbn [count_if]; rewrite Nat.eqb_refl; lia).
  apply (inv_set_space E (i :: E)); try done.
  - cbn [refcount set_refcount]. rewrite H3, Hh. unfold u32. apply Z.mod_small. unfold holders. pose proof (count_if_le (uses i) ps). pose proof (count_if_le (Nat.eqb i) E). lia.
  - intros j Hne. unfold holders. cbn [count_if]. destruct (Nat.eqb_spec j i); [done|]. lia.
  - intros j [->|Hj]%elem_of_cons; [done|by apply (si_kernel _ _ _ H)].
  - cbn [length]. lia.
Qed.

(** Memory that changed without touching spaces. *)
Lemma inv_set_pm E ps v m :
  sys_inv E ps v -> mem_inv (roots v) X m -> same_leaves (roots v) (pm v) m -> g_first_frame m = g_first_frame (pm v) -> sys_inv E ps (set_pm m v).
Proof. intros H Hm Hl Hb. by apply (inv_quiet X X B E ps v). Qed.

Lemma inv_switch E ps v i : sys_inv E ps v -> used v i -> sys_inv E ps (vmm_switch (PoolSpace i) v).
Proof.
  intros H Hi. unfold vmm_switch. cbn [is_kernel orb]. destruct (_ =? _); [done|].
  destruct (copy_half_mem (root v (PoolSpace i)) (pml4_phys (g_kernel_space v)) (seqZ 256 256) (pm v)) as (m & Hm & Hout); [intros k Hk%elem_of_seqZ; lia|].
  change (pml4_phys (space v (PoolSpace i))) with (root v (PoolSpace i)). unfold copy_kernel_half. rewrite Hm.
  destruct (upper_half_inv (roots v) X (pm v) m (root v (PoolSpace i)) (si_mem _ _ _ H) (root_in v i Hi) Hout) as [Hi1 Hi2].
  pose proof (inv_set_pm E ps v (set_mem m (pm v)) H Hi1 Hi2 eq_refl) as H1. destruct (si_space _ _ _ H i Hi) as (G1 & G2 & G3).
  apply (inv_set_space E E); try done; [apply (si_kernel _ _ _ H)|apply H].
Qed.

Lemma fork_with_eq entry i j v :
  i <> j -> (j < length (g_pool v))%nat ->
  fork_with entry (PoolSpace j) (PoolSpace i) v =
  let '(ok, m) := fork_walk (entry (table v (PoolSpace i)) (root v (PoolSpace j))) (root v (PoolSpace i)) (pm v) in
  (if ok then 0 else -1, set_pm m (set_space (PoolSpace j) (set_vmas (table v (PoolSpace i)) (space v (PoolSpace j))) v)).
Proof.
  intros Hij Hj. unfold fork_with. set (v1 := set_space (PoolSpace j) _ v).
  assert (Hi1 : space v1 (PoolSpace i) = space v (PoolSpace i)) by (unfold v1, set_space, space, aget; cbn [g_pool]; by rewrite list_lookup_insert_ne).
  assert (Hj1 : space v1 (PoolSpace j) = set_vmas (vmas (space v (PoolSpace i))) (space v (PoolSpace j)))
    by (unfold v1 at 1, set_space, space at 1, aget; cbn [g_pool]; by rewrite list_lookup_insert_eq).
  rewrite Hi1, Hj1. done.
Qed.

Lemma inv_fork E ps v i j (cow : bool) :
  sys_inv E ps v -> used v i -> used v j -> i <> j -> (forall va, user_addr va -> vmm_leaf_pte (pm v) (root v (PoolSpace j)) va = 0) ->
  sys_inv E ps ((if cow then vmm_fork_user_cow cpu else vmm_fork_user cpu) (PoolSpace j) (PoolSpace i) v).2.
Proof.
  intros H Hi Hj Hij Hempty. destruct (si_space _ _ _ H i Hi) as (T1 & T2 & _). destruct (si_space _ _ _ H j Hj) as (_ & _ & T3).
  assert (Hne : root v (PoolSpace i) <> root v (PoolSpace j)) by (intros He; by apply Hij, (roots_inj E ps v)).
  set (t := table v (PoolSpace i)) in *. set (src := root v (PoolSpace i)) in *. set (dst := root v (PoolSpace j)) in *.
  assert (Hdone : forall m, mem_inv (roots v) X m -> wx (roots v) m -> g_first_frame m = g_first_frame (pm v) ->
    sys_inv E ps (set_pm m (set_space (PoolSpace j) (set_vmas t (space v (PoolSpace j))) v))).
  { intros m Hm Hw Hfirst. assert (H1 : sys_inv E ps (set_space (PoolSpace j) (set_vmas t (space v (PoolSpace j))) v))
      by (apply (inv_set_space E E); try done; [apply (si_kernel _ _ _ H)|apply H]).
    destruct H1 as [A1 A2 A3 A4 A5 A6 A7 A8 A9]. assert (Hr : forall w, roots (set_pm m w) = roots w) by done.
    assert (Hroots : roots (set_space (PoolSpace j) (set_vmas t (space v (PoolSpace j))) v) = roots v).
    { apply roots_same; [done|]. intros k _. unfold root. destruct (decide (k = j)) as [->|Hnk].
      - unfold set_space, space at 1, aget. cbn [g_pool]. by rewrite list_lookup_insert_eq by by eapply used_lt.
      - unfold set_space, space, aget. cbn [g_pool]. by rewrite list_lookup_insert_ne. }
    split; rewrite ?Hr, ?Hroots; try done; [by rewrite Hroots in A2|]. change (g_first_frame m = B). rewrite Hfirst. apply H. }
  pose proof (used_lt E ps v j H Hj) as Hjl.
  assert (Hwalk : forall entry, (let '(ok, s') := fork_walk (entry t dst) src (pm v) in
      if ok then fork_inv (roots v) src dst X t (pm v) s' NPAGES else fork_failed (roots v) src dst X t (pm v) s') ->
    (forall pt a b c d s, g_first_frame (entry t dst pt a b c d s).2 = g_first_frame s) ->
    sys_inv E ps (fork_with entry (PoolSpace j) (PoolSpace i) v).2).
  { intros entry Hok He. pose proof (fork_walk_first (entry t dst) src (pm v) He) as Hfirst. rewrite (fork_with_eq entry i j v Hij Hjl). change (table v (PoolSpace i)) with t. change (root v (PoolSpace i)) with src. change (root v (PoolSpace j)) with dst.
    destruct (fork_walk _ _ _) as [ok m]. cbn [snd] in *. destruct ok.
    - apply Hdone; [apply Hok| |done]. by apply (wx_fork (roots v) src dst X t (pm v) m NPAGES (root_in v i Hi) (si_mem _ _ _ H) Hok), H.
    - destruct Hok as (Hm & s1 & n & Hf & Hl). apply Hdone; [done| |done]. apply (wx_leaves (roots v) s1); [|done].
      by apply (wx_fork (roots v) src dst X t (pm v) s1 n (root_in v i Hi) (si_mem _ _ _ H) Hf), H. }
  destruct cow; apply Hwalk.
  - by apply (fork_cow_ok (roots v) cpu Hcpu X t src dst (root_in v i Hi) (root_in v j Hj) Hne (pm v) (si_mem _ _ _ H)).
  - intros. apply fork_entry_cow_first.
  - by apply (fork_eager_ok (roots v) cpu Hcpu X t src dst (root_in v i Hi) (root_in v j Hj) Hne (pm v) (si_mem _ _ _ H)).
  - intros. unfold fork_entry. destruct (negb _); [done|]. apply fork_copy_first.
Qed.

(** ** Programs *)

Definition image_ok (data : list Z) : Prop := Forall is_u8 data /\ is_u64 (blen data).

Lemma inv_elf_load E ps v data :
  sys_inv E ps v -> Z.of_nat (length ps + length E + 1) < 2 ^ 31 -> image_ok data ->
  exists r v', elf_load cpu data (blen data) v = Some (r, v') /\
  match r with
  | Some (sp, res) => exists slot, sp = PoolSpace slot /\ sys_inv (slot :: E) ps v' /\ 0 <= o_brk res <= USER_LIMIT /\ user_addr (o_entry res)
  | None => sys_inv E ps v'
  end.
Proof.
  intros H Hc [Hd Hl]. unfold elf_load. destruct (_ <? _) eqn:Hsz; [by eexists _, _|]. apply Z.ltb_ge in Hsz.
  destruct (elf_valid_in data Hd (blen data) ltac:(lia)) as (valid & -> & _). cbn [mbind option_bind]. destruct valid; cbn [negb]; [|by eexists _, _].
  destruct (read_ehdr_in data Hd Hsz) as (eh & -> & _). cbn [mbind option_bind].
  pose proof (inv_new E ps v H Hc) as Hn. destruct (vmm_space_new cpu v) as [[sp|] v1]; [|by eexists _, _].
  destruct Hn as (slot & -> & _ & H1 & _ & _). assert (Hu : used v1 slot) by (apply (si_kernel _ _ _ H1); left).
  set (bias := if e_type eh =? ET_DYN then PIE_BASE else 0).
  destruct (elf_load_into_ok cpu Hcpu (roots v1) slot v1 (root_in v1 slot Hu) (used_lt _ _ _ _ H1 Hu) X data Hd (blen data) bias ltac:(lia) Hl v1 (inv_st _ _ _ _ H1 Hu))
    as (r & v2 & -> & H2 & Hr). cbn [mbind option_bind]. pose proof (inv_leave _ _ _ _ _ H1 Hu H2) as H3. destruct r as [res|].
  - eexists _, _. split; [done|]. exists slot. split; [done|]. split; [done|]. destruct (Hr res eq_refl) as (Hr1 & Hr2 & ->). done.
  - eexists _, _. split; [done|]. by apply inv_free.
Qed.

Lemma inv_load_interp E ps v slot interp res :
  sys_inv E ps v -> used v slot -> (forall path data, interp path = Some data -> image_ok data) ->
  exists rc res' v', load_interp cpu (PoolSpace slot) interp res v = Some (rc, res', v') /\ sys_inv E ps v' /\ used v' slot /\ o_brk res' = o_brk res /\
    (user_addr (o_entry res) -> user_addr (o_entry res')).
Proof.
  intros H Hu Hint. unfold load_interp. destruct (_ =? 0); [by eexists _, _, _|]. destruct (interp (o_interp res)) as [idata|] eqn:Hi; [|by eexists _, _, _].
  destruct (Hint _ _ Hi) as [Hd Hl].
  destruct (elf_load_into_ok cpu Hcpu (roots v) slot v (root_in v slot Hu) (used_lt _ _ _ _ H Hu) X idata Hd (blen idata) INTERP_BASE ltac:(lia) Hl v (inv_st _ _ _ _ H Hu))
    as (r & v2 & -> & H2 & Hr). cbn [mbind option_bind]. pose proof (inv_leave _ _ _ _ _ H Hu H2) as H3.
  assert (Hu2 : used v2 slot) by (unfold used; by rewrite (ss_used _ _ _ (st_same _ _ _ _ _ H2))). destruct r as [ires|]; [|by eexists _, _, _].
  destruct (Hr ires eq_refl) as (_ & He & _). by eexists _, _, _.
Qed.

Definition strings_ok (argv : list (option (list Z))) (envp : list (list Z)) (random : list Z) : Prop :=
  Forall string_ok argv /\ Forall (fun s => blen s < 2 ^ 19) envp /\ length random = 16%nat.

Lemma inv_stack E ps v slot elf argv envp ids rand random kok :
  sys_inv E ps v -> used v slot -> strings_ok argv envp random ->
  exists rsp v', setup_user_stack cpu (PoolSpace slot) elf argv envp ids rand random kok v = Some (rsp, v') /\ sys_inv E ps v' /\ used v' slot /\
    (rsp = 0 \/ USER_STACK_GROW_BASE < rsp < USER_STACK_TOP /\ rsp mod 16 = 0).
Proof.
  intros H Hu (Ha & He & Hr).
  destruct (setup_user_stack_ok cpu Hcpu (roots v) slot v (root_in v slot Hu) (used_lt _ _ _ _ H Hu) X elf argv envp ids rand random kok v (inv_st _ _ _ _ H Hu) Hr Ha He)
    as (rsp & v' & -> & H' & Hrsp). exists rsp, v'. split; [done|]. split; [by eapply inv_leave|]. split; [|done]. unfold used. by rewrite (ss_used _ _ _ (st_same _ _ _ _ _ H')).
Qed.

Lemma new_proc_ok b sp bump a f : 0 <= b <= USER_LIMIT -> proc_ok (mkProc (Some sp) (PAGE_ALIGN_UP b) (PAGE_ALIGN_UP b) bump a f).
Proof. intros Hb. pose proof (brk_end b Hb). unfold proc_ok. cbn. lia. Qed.

Lemma insert_again ps (k : nat) (x y : option mm_proc) : <[k := x]> (<[k := y]> ps) = <[k := x]> ps.
Proof. apply list_insert_insert_eq. Qed.

(** The process in slot [k] moves to the space the kernel just built. *)
Lemma inv_replace ps v k p i slot p' :
  sys_inv [slot] ps v -> ps !! k = Some (Some p) -> p_space p = Some (PoolSpace i) -> p_space p' = Some (PoolSpace slot) -> proc_ok p' -> Z.of_nat (length ps + 2) < 2 ^ 31 ->
  sys_inv [] (<[k := Some p']> ps) (vmm_space_free cpu (PoolSpace i) v).
Proof.
  intros H Hk Hp Hp' Hok Hc. rewrite <-(insert_again ps k (Some p') None). apply (inv_put _ _ _ k p' slot); [|apply list_lookup_insert_eq; by eapply lookup_lt_Some|done|done].
  apply inv_free. apply (inv_take [slot] ps v k p i); try done. cbn [length]. lia.
Qed.

Lemma inv_execve ps v k p data interp argv envp ids rand rand' random kok :
  sys_inv [] ps v -> ps !! k = Some (Some p) -> Z.of_nat (length ps + 2) < 2 ^ 31 ->
  image_ok data -> (forall path d, interp path = Some d -> image_ok d) -> strings_ok argv envp random ->
  exists rc info p' v', sys_execve cpu data interp argv envp ids rand rand' random kok p v = Some (rc, info, p', v') /\ sys_inv [] (<[k := Some p']> ps) v' /\
    forall entry rsp, info = Some (entry, rsp) -> user_addr entry /\ USER_STACK_GROW_BASE < rsp < USER_STACK_TOP /\ rsp mod 16 = 0.
Proof.
  intros H Hk Hc Hd Hint Hstr. destruct (si_proc _ _ _ H p (list_elem_of_lookup_2 _ _ _ Hk)) as (_ & i & Hp & _).
  assert (Hsame : forall w, sys_inv [] ps w -> sys_inv [] (<[k := Some p]> ps) w) by (intros w Hw; by rewrite list_insert_id).
  unfold sys_execve. destruct (inv_elf_load [] ps v data H) as (r & v1 & -> & Hr); [cbn [length]; lia|done|]. cbn [mbind option_bind].
  destruct r as [[sp res]|]; [|eexists _, _, _, _; split; [done|]; split; [by apply Hsame|done]]. destruct Hr as (slot & -> & H1 & Hbrk & Hent).
  destruct (inv_load_interp [slot] ps v1 slot interp res H1) as (rc & res' & v2 & -> & H2 & Hu2 & Hb2 & He2); [apply (si_kernel _ _ _ H1); left|done|]. cbn [mbind option_bind].
  destruct (rc <? 0); [eexists _, _, _, _; split; [done|]; split; [by apply Hsame, inv_free|done]|].
  destruct (inv_stack [slot] ps v2 slot res' argv envp ids rand random kok H2 Hu2 Hstr) as (rsp & v3 & -> & H3 & Hu3 & Hrsp). cbn [mbind option_bind].
  destruct (Z.eqb_spec rsp 0) as [Hz|Hnz]; [eexists _, _, _, _; split; [done|]; split; [by apply Hsame, inv_free|done]|]. eexists _, _, _, _. split; [done|].
  split; [|intros entry rsp' [= <- <-]; split; [by apply He2|by destruct Hrsp]]. unfold release_old. rewrite Hp. apply (inv_replace ps _ k p i slot); try done; [by apply inv_switch|]. apply new_proc_ok. by rewrite Hb2.
Qed.

Lemma inv_process_exec ps v k data argv envp rand rand' random kok :
  sys_inv [] ps v -> ps !! k = Some None -> Z.of_nat (length ps + 2) < 2 ^ 31 -> image_ok data -> strings_ok argv envp random ->
  exists r v', process_exec cpu data argv envp rand rand' random kok true v = Some (r, v') /\ sys_inv [] (<[k := option_map (fun x => x.1.1) r]> ps) v'.
Proof.
  intros H Hk Hc Hd Hstr. assert (Hsame : forall w, sys_inv [] ps w -> sys_inv [] (<[k := None]> ps) w) by (intros w Hw; by rewrite list_insert_id).
  unfold process_exec. destruct (inv_elf_load [] ps v data H) as (r & v1 & -> & Hr); [cbn [length]; lia|done|]. cbn [mbind option_bind].
  destruct r as [[sp res]|]; [|eexists _, _; split; [done|]; by apply Hsame]. destruct Hr as (slot & -> & H1 & Hbrk & _).
  destruct (inv_stack [slot] ps v1 slot res argv envp (mkIds 0 0 0 0 false) rand random kok H1) as (rsp & v3 & -> & H3 & Hu3 & _); [apply (si_kernel _ _ _ H1); left|done|]. cbn [mbind option_bind].
  destruct (rsp =? 0); [eexists _, _; split; [done|]; by apply Hsame, inv_free|]. cbn [negb]. eexists _, _. split; [done|]. cbn [option_map fst].
  apply (inv_put _ _ _ k _ slot); [by apply inv_switch|done|done|by apply new_proc_ok].
Qed.

(** ** Processes *)

Lemma inv_fork_child ps v k j p (cow : bool) :
  sys_inv [] ps v -> ps !! k = Some (Some p) -> ps !! j = Some None -> Z.of_nat (length ps + 2) < 2 ^ 31 ->
  let '(c, v') := fork_child cpu cow p v in sys_inv [] (<[j := c]> ps) v'.
Proof.
  intros H Hk Hj Hc. destruct (si_proc _ _ _ H p (list_elem_of_lookup_2 _ _ _ Hk)) as (Hok & i & Hp & Hu).
  assert (Hsame : forall w, sys_inv [] ps w -> sys_inv [] (<[j := None]> ps) w) by (intros w Hw; by rewrite list_insert_id).
  unfold fork_child. pose proof (inv_new [] ps v H) as Hn. destruct (vmm_space_new cpu v) as [[sp|] v1]; [|apply Hsame, Hn; cbn [length]; lia].
  destruct Hn as (slot & -> & Hnu & H1 & Hempty & Hsp); [cbn [length]; lia|]. rewrite Hp.
  assert (Hu1 : used v1 slot) by (apply (si_kernel _ _ _ H1); left). destruct (si_proc _ _ _ H1 p (list_elem_of_lookup_2 _ _ _ Hk)) as (_ & i' & Hp' & Hui).
  rewrite Hp in Hp'. injection Hp' as <-. assert (Hne : i <> slot) by (intros ->; done).
  pose proof (inv_fork [slot] ps v1 i slot cow H1 Hui Hu1 Hne Hempty) as H2. destruct ((if cow then _ else _) _ _ v1) as [rc v2]. cbn [snd] in H2.
  destruct (rc <? 0); [by apply Hsame, inv_free|]. by apply (inv_put [] ps v2 j _ slot).
Qed.

Lemma inv_clone ps v k j p :
  sys_inv [] ps v -> ps !! k = Some (Some p) -> ps !! j = Some None -> Z.of_nat (length ps + 2) < 2 ^ 31 ->
  let '(c, v') := clone_thread p v in sys_inv [] (<[j := Some c]> ps) v'.
Proof.
  intros H Hk Hj Hc. destruct (si_proc _ _ _ H p (list_elem_of_lookup_2 _ _ _ Hk)) as (Hok & i & Hp & Hu). unfold clone_thread. rewrite Hp.
  apply (inv_put [] ps _ j _ i); try done. apply inv_retain; [done|done|cbn [length]; lia].
Qed.

Lemma inv_exit ps v k p : sys_inv [] ps v -> ps !! k = Some (Some p) -> Z.of_nat (length ps + 2) < 2 ^ 31 -> sys_inv [] (<[k := None]> ps) (release_space cpu p v).
Proof.
  intros H Hk Hc. destruct (si_proc _ _ _ H p (list_elem_of_lookup_2 _ _ _ Hk)) as (Hok & i & Hp & Hu). unfold release_space. rewrite Hp.
  apply inv_free. apply (inv_take [] ps v k p i); try done. cbn [length]. lia.
Qed.

(** A store of the program to a page it may write, and the word it reads. *)
Definition user_store v (i : nat) (va w : Z) : vmm_t A :=
  let e := vmm_leaf_pte (pm v) (root v (PoolSpace i)) va in
  if user_ok true e && (va mod 8 =? 0) then set_pm (set_mem (upd (mem (pm v)) (pte_addr e + va mod 4096) w) (pm v)) v else v.

Definition user_load v (i : nat) (va : Z) : option Z :=
  let e := vmm_leaf_pte (pm v) (root v (PoolSpace i)) va in
  if user_ok false e && (va mod 8 =? 0) then Some (mem (pm v) (pte_addr e + va mod 4096)) else None.

Lemma inv_store E ps v i va w : sys_inv E ps v -> used v i -> user_addr va -> sys_inv E ps (user_store v i va w).
Proof.
  intros H Hi Hva. unfold user_store. destruct (user_ok true _ && _) eqn:Hc; [|done]. apply andb_true_iff in Hc as [Hc _].
  assert (Hp : has (vmm_leaf_pte (pm v) (root v (PoolSpace i)) va) VMM_PRESENT = true) by (unfold user_ok in Hc; by destruct (has _ VMM_PRESENT)).
  destruct (mi_data_page (roots v) X (pm v) _ va (si_mem _ _ _ H) (root_in v i Hi) Hva Hp) as (f & Hf & Hl & Hnt). rewrite Hf.
  assert (Hout : forall a, ~ (page (pm v) f <= a < page (pm v) f + PAGE_SIZE) -> upd (mem (pm v)) (page (pm v) f + va mod 4096) w a = mem (pm v) a).
  { intros a Ha. unfold upd. destruct (Z.eqb_spec a (page (pm v) f + va mod 4096)) as [->|]; [|done]. pose proof (Z.mod_pos_bound va 4096 ltac:(lia)). unfold PAGE_SIZE in Ha. lia. }
  pose proof (si_mem _ _ _ H) as Hm. apply inv_set_pm; [done|by apply (write_data_inv _ _ _ f)|by apply (write_data_leaves _ X _ f)|done].
Qed.

End held.
End system.
