(* ===== verification/MemSystem.v ===== *)
(** * The memory of all processes.

    Processes make system calls, fault, fork, start threads, execute programs
    and exit, in any order, store to the pages they may write, and create, use,
    map and release shared memory files.  In every state they reach, every
    address space a process runs in is allocated with one reference for each of
    its processes, every page that is mapped or belongs to a file is a frame in
    use with a reference for each mapping and each file, page tables are never
    mapped, and no page is writable and executable. *)

From S2P Require Import Prelude Bits Bytes Words Bitfield Vma Lower LLFree Pmm Vmm VmmPte VmmTables MemInv Shmem VmmFork SpaceFree VmmSpaces MemSys Exec Wx MemSafe ExecSafe SysInv.

Section system.
Context `{FA : FrameAllocator A} (cpu : nat) (Hcpu : (cpu < MAX_CPUS)%nat).
Implicit Type v : vmm_t A.
Implicit Type ps : list (option mm_proc).
Implicit Type os : list (option shmem_obj).

(** ** Steps *)

(** A file is given with the number of its shared memory object, if it is a
    shared memory file; [kok n] is whether [krealloc] of [n] bytes succeeds. *)
Inductive mem_call :=
  | CBrk (addr : Z)
  | CMmap (kok : Z -> bool) (addr length_ prot flags off : Z) (file : option (map_file (A := A) * option nat))
  | CMunmap (addr len : Z)
  | CMprotect (addr len prot : Z)
  | CMremap (old_addr old_sz new_sz flags new_addr : Z).

Definition with_obj (obj : option shmem_obj) (f : map_file (A := A)) : map_file := mkFile (mf_type f) (mf_rdonly f) (mf_chr_mmap f) obj (mf_data f) (mf_size f).

Definition run_mmap (kok : Z -> bool) (addr length_ prot flags off : Z) (file : option (map_file * option nat)) (p : mm_proc) os v :
    option (Z * mm_proc * list (option shmem_obj) * vmm_t A) :=
  match file with
  | Some (f, Some n) =>
      r ← sys_mmap cpu kok addr length_ prot flags off (Some (with_obj (mjoin (os !! n)) f)) p v; let '(rc, (p, obj), v) := r in Some (rc, p, <[n := obj]> os, v)
  | Some (f, None) => r ← sys_mmap cpu kok addr length_ prot flags off (Some (with_obj None f)) p v; let '(rc, (p, _), v) := r in Some (rc, p, os, v)
  | None => r ← sys_mmap cpu kok addr length_ prot flags off None p v; let '(rc, (p, _), v) := r in Some (rc, p, os, v)
  end.

Definition run_call (c : mem_call) (p : mm_proc) os v : option (Z * mm_proc * list (option shmem_obj) * vmm_t A) :=
  let keep (r : option (Z * mm_proc * vmm_t A)) := '(rc, p, v) ← r; Some (rc, p, os, v) in
  match c with
  | CBrk addr => keep (sys_brk cpu addr p v)
  | CMmap kok addr length_ prot flags off file => run_mmap kok addr length_ prot flags off file p os v
  | CMunmap addr len => keep (sys_munmap cpu addr len p v)
  | CMprotect addr len prot => keep (sys_mprotect addr len prot p v)
  | CMremap old_addr old_sz new_sz flags new_addr => keep (sys_mremap cpu old_addr old_sz new_sz flags new_addr p v)
  end.

(** The arguments are 64-bit registers, and the file mapped is no device. *)
Definition call_ok (c : mem_call) os : Prop :=
  match c with
  | CBrk addr => is_u64 addr
  | CMmap kok addr length_ prot flags off file =>
      is_u64 length_ /\ match file with Some (f, n) => mf_chr_mmap f = None /\ (forall j, n = Some j -> (j < length os)%nat) | None => True end
  | CMunmap addr len | CMprotect addr len _ => is_u64 addr /\ is_u64 len
  | CMremap old_addr old_sz new_sz _ new_addr => is_u64 old_addr /\ is_u64 old_sz /\ is_u64 new_sz /\ is_u64 new_addr
  end.

Record system := mkSys { procs : list (option mm_proc); objs : list (option shmem_obj); vm : vmm_t A }.

Inductive sys_step : system -> system -> Prop :=
  | step_call ps os v k p c rc p' os' v' :
      ps !! k = Some (Some p) -> call_ok c os -> run_call c p os v = Some (rc, p', os', v') -> sys_step (mkSys ps os v) (mkSys (<[k := Some p']> ps) os' v')
  | step_fault ps os v k p code cr2 rsp :
      ps !! k = Some (Some p) -> user_addr cr2 -> sys_step (mkSys ps os v) (mkSys ps os (handle_user_page_fault cpu code cr2 rsp p v).2)
  | step_access ps os v k p i virt len write b m :
      ps !! k = Some (Some p) -> p_space p = Some (PoolSpace i) -> 0 <= virt -> 0 <= len -> virt + len <= USER_LIMIT ->
      vmm_user_range_fault_in cpu (table v (PoolSpace i)) (root v (PoolSpace i)) virt len write (pm v) = Some (b, m) -> sys_step (mkSys ps os v) (mkSys ps os (set_pm m v))
  | step_store ps os v k p i va w :
      ps !! k = Some (Some p) -> p_space p = Some (PoolSpace i) -> user_addr va -> sys_step (mkSys ps os v) (mkSys ps os (user_store v i va w))
  | step_switch ps os v k p i :
      ps !! k = Some (Some p) -> p_space p = Some (PoolSpace i) -> sys_step (mkSys ps os v) (mkSys ps os (vmm_switch (PoolSpace i) v))
  | step_fork ps os v k j p c v' :
      ps !! k = Some (Some p) -> ps !! j = Some None -> fork_child cpu (proc_has_private_space ps k) p v = (c, v') -> sys_step (mkSys ps os v) (mkSys (<[j := c]> ps) os v')
  | step_clone ps os v k j p c v' :
      ps !! k = Some (Some p) -> ps !! j = Some None -> clone_thread p v = (c, v') -> sys_step (mkSys ps os v) (mkSys (<[j := Some c]> ps) os v')
  | step_exec ps os v k p data interp argv envp ids rand rand' random kok rc info p' v' :
      ps !! k = Some (Some p) -> image_ok data -> (forall path d, interp path = Some d -> image_ok d) -> strings_ok argv envp random ->
      sys_execve cpu data interp argv envp ids rand rand' random kok p v = Some (rc, info, p', v') -> sys_step (mkSys ps os v) (mkSys (<[k := Some p']> ps) os v')
  | step_spawn ps os v k data argv envp rand rand' random kok r v' :
      ps !! k = Some None -> image_ok data -> strings_ok argv envp random ->
      process_exec cpu data argv envp rand rand' random kok true v = Some (r, v') -> sys_step (mkSys ps os v) (mkSys (<[k := option_map (fun x => x.1.1) r]> ps) os v')
  | step_exit ps os v k p :
      ps !! k = Some (Some p) -> sys_step (mkSys ps os v) (mkSys (<[k := None]> ps) os (release_space cpu p v))
  | step_shm_create ps os v j : os !! j = Some None -> sys_step (mkSys ps os v) (mkSys ps (<[j := shmem_create true]> os) v)
  | step_shm_ref ps os v j o : os !! j = Some (Some o) -> sys_step (mkSys ps os v) (mkSys ps (<[j := Some (shmem_ref o)]> os) v)
  | step_shm_unref ps os v j o r m :
      os !! j = Some (Some o) -> shmem_unref cpu o (pm v) = (r, m) -> sys_step (mkSys ps os v) (mkSys ps (<[j := r]> os) (set_pm m v))
  | step_shm_op ps os v j o kok op rc out o' m :
      os !! j = Some (Some o) -> op_ok op -> run_op cpu kok o op (pm v) = Some (rc, out, o', m) -> sys_step (mkSys ps os v) (mkSys ps (<[j := Some o']> os) (set_pm m v)).

(** No process and no file yet, and no address space but the kernel's. *)
Definition booted (s : system) : Prop :=
  Z.of_nat (length (procs s)) < 2 ^ 30 /\ Forall (fun o => o = None) (procs s) /\ Forall (fun o => o = None) (objs s) /\ pmm_inv (pm (vm s)) /\
  length (g_pool (vm s)) = length (g_pool_used (vm s)) /\ Forall (fun b => b = false) (g_pool_used (vm s)).

Definition sys_reach : system -> system -> Prop := rtc sys_step.

(** ** The invariant *)

(** The frames of all files, [FS] their pages. *)
Definition spare (FS : list (list (option Z))) : list Z := concat (obj_frames <$> FS).

Record sys_inv (FS : list (list (option Z))) (B : Z) ps os v : Prop := {
  so_objs : Forall2 (fun fs o => obj_at fs o (pm v)) FS os;
  so_spaces : spaces_inv (spare FS) B [] ps v;
}.

Lemma spare_split FS j fs fs' : FS !! j = Some fs -> spare (<[j := fs']> FS) ≡ₚ obj_frames fs' ++ spare (delete j FS).
Proof.
  revert j. induction FS as [|x FS IH]; intros [|j] Hj; [done|done|done|]. cbn in Hj. change (obj_frames x ++ spare (<[j := fs']> FS) ≡ₚ obj_frames fs' ++ obj_frames x ++ spare (delete j FS)).
  rewrite (IH j Hj). apply Permutation_app_swap_app.
Qed.

Lemma spare_split_id FS j fs : FS !! j = Some fs -> spare FS ≡ₚ obj_frames fs ++ spare (delete j FS).
Proof. intros Hj. rewrite <-(spare_split FS j fs fs Hj). by rewrite list_insert_id. Qed.

Lemma objs_base FS os (s s' : pmm_t A) : g_first_frame s' = g_first_frame s -> Forall2 (fun fs o => obj_at fs o s) FS os -> Forall2 (fun fs o => obj_at fs o s') FS os.
Proof. intros Hb H. eapply Forall2_impl; [exact H|]. intros fs [o|]; [by apply obj_inv_base|done]. Qed.

(** The spaces and processes change, the files do not. *)
Lemma inv_spaces FS B ps ps' os v v' : sys_inv FS B ps os v -> spaces_inv (spare FS) B [] ps' v' -> sys_inv FS B ps' os v'.
Proof. intros [H1 H2] H'. split; [|done]. apply (objs_base FS os (pm v)); [|done]. by rewrite (si_base _ _ _ H'), (si_base _ _ _ H2). Qed.

Lemma spaces_perm X X' B E ps v : X ≡ₚ X' -> spaces_inv X B E ps v -> spaces_inv X' B E ps v.
Proof. intros Hp []. split; try done. by eapply mem_inv_spare_perm. Qed.

(** One file changes with the spaces. *)
Lemma inv_object FS B ps ps' os v v' j fs fs' obj :
  sys_inv FS B ps os v -> FS !! j = Some fs -> spaces_inv (obj_frames fs' ++ spare (delete j FS)) B [] ps' v' -> obj_at fs' obj (pm v') ->
  sys_inv (<[j := fs']> FS) B ps' (<[j := obj]> os) v'.
Proof.
  intros [H1 H2] Hj Hs Ho. split.
  - apply Forall2_insert; [|done]. apply (objs_base FS os (pm v)); [|done]. by rewrite (si_base _ _ _ Hs), (si_base _ _ _ H2).
  - eapply spaces_perm; [symmetry; by eapply spare_split|done].
Qed.

Lemma inv_object_at FS B ps os v j obj :
  sys_inv FS B ps os v -> os !! j = Some obj -> exists fs, FS !! j = Some fs /\ obj_at fs obj (pm v) /\ spaces_inv (obj_frames fs ++ spare (delete j FS)) B [] ps v.
Proof.
  intros [H1 H2] Hj. destruct (Forall2_lookup_r _ _ _ _ _ H1 Hj) as (fs & Hfs & Ho). exists fs. split; [done|]. split; [done|]. by eapply spaces_perm; [apply spare_split_id|].
Qed.

(** A file operation on the physical memory. *)
Lemma inv_file_op FS B ps os v j fs fs' obj m :
  sys_inv FS B ps os v -> FS !! j = Some fs -> spaces_inv (obj_frames fs ++ spare (delete j FS)) B [] ps v ->
  mem_inv (roots v) (obj_frames fs' ++ spare (delete j FS)) m -> same_leaves (roots v) (pm v) m -> same_memory (pm v) m -> obj_at fs' obj m ->
  sys_inv (<[j := fs']> FS) B ps (<[j := obj]> os) (set_pm m v).
Proof.
  intros H Hj Hs Hm Hl [Hb _] Ho. apply (inv_object FS B ps ps os v (set_pm m v) j fs fs' obj H Hj); [|done].
  by apply (inv_quiet (obj_frames fs ++ spare (delete j FS)) _ B [] ps v).
Qed.

Lemma booted_inv s : booted s -> sys_inv (replicate (length (objs s)) []) (g_first_frame (pm (vm s))) (procs s) (objs s) (vm s).
Proof.
  intros (H1 & H2 & H0 & H3 & H4 & H5). assert (Hnu : forall i, ~ used (vm s) i) by (intros i Hi; apply (Forall_lookup_1 _ _ _ _ H5) in Hi; done).
  assert (Hr : roots (vm s) = []).
  { unfold roots. destruct (used_slots (vm s)) as [|i l] eqn:Hl; [done|]. exfalso. apply (Hnu i). apply (proj1 (elem_used_slots (vm s) i)). rewrite Hl. left. }
  split.
  { apply Forall2_same_length_lookup. split; [apply length_replicate|]. intros i x y [-> _]%lookup_replicate Hy. apply (Forall_lookup_1 _ _ _ _ H0) in Hy as ->. done. }
  assert (Hsp : spare (replicate (length (objs s)) []) = []) by (unfold spare; rewrite fmap_replicate; by induction (length (objs s))).
  rewrite Hsp. split; rewrite ?Hr; try done.
  - constructor.
  - by apply inv_empty.
  - intros r va Hin. by apply not_elem_of_nil in Hin.
  - intros i Hi. by destruct (Hnu i).
  - intros p Hp. by apply (proj1 (Forall_forall _ _) H2) in Hp.
  - intros i Hi. by apply not_elem_of_nil in Hi.
  - cbn [length]. lia.
Qed.

(** ** Every step keeps it *)

(** A process whose space a call used gets its fields back. *)
Lemma inv_return X B ps v' k p p' i :
  spaces_inv X B [] ps v' -> ps !! k = Some (Some p) -> p_space p = Some (PoolSpace i) -> proc_ok p -> kept p p' -> Z.of_nat (length ps + 2) < 2 ^ 31 ->
  spaces_inv X B [] (<[k := Some p']> ps) v'.
Proof.
  intros H Hk Hp Hok [Hsp Hpk] Hl. rewrite <-(insert_again ps k (Some p') None).
  apply (inv_put _ _ _ _ _ k p' i); [|apply list_lookup_insert_eq; by eapply lookup_lt_Some|congruence|by apply Hpk].
  apply (inv_take _ _ [] ps v' k p i); try done. cbn [length]. lia.
Qed.

(** [mmap] returns, and the file mapped keeps its pages. *)
Lemma mmap_returns X B ps v k p kok addr len prot flags off fs f :
  spaces_inv (obj_frames fs ++ X) B [] ps v -> ps !! k = Some (Some p) -> obj_at fs (f ≫= mf_shmem) (pm v) -> no_device f -> is_u64 len -> Z.of_nat (length ps + 2) < 2 ^ 31 ->
  exists rc p' obj v' fs', sys_mmap cpu kok addr len prot flags off f p v = Some (rc, (p', obj), v') /\ obj_at fs' obj (pm v') /\
    spaces_inv (obj_frames fs' ++ X) B [] (<[k := Some p']> ps) v' /\ (f ≫= mf_shmem = None -> obj = None).
Proof.
  intros H Hk Ho Hd Hlen Hl. destruct (si_proc _ _ _ H p (list_elem_of_lookup_2 _ _ _ Hk)) as (Hok & i & Hp & Hu).
  pose proof (root_in v i Hu) as Hr. pose proof (used_lt _ _ _ _ _ _ H Hu) as Hlt. pose proof (inv_st _ _ _ _ _ _ H Hu) as Hst.
  assert (Hf : fine_mapped (roots v) i v X p (sys_mmap cpu kok addr len prot flags off f p v)).
  { apply (fine_guarded_mmap (roots v) i v Hlt X fs); try done. intros w Hw Hwo. by apply fine_mmap with fs. }
  destruct (sys_mmap _ _ _ _ _ _ _ _ _ _) as [[[rc [p' obj]] v']|] eqn:Hm; [|done]. destruct Hf as (Hkept & fs' & Hst' & Ho').
  exists rc, p', obj, v', fs'. split; [done|]. split; [done|]. split; [apply (inv_return _ _ ps v' k p p' i); try done; by eapply inv_leave|].
  intros Hn. unfold sys_mmap, guarded in Hm. rewrite Hp, Hn in Hm. destruct (vmm_space_mutation_begin _ v) as [[] w]; cbn [negb] in Hm; [|congruence].
  destruct (sys_mmap_impl _ _ _ _ _ _ _ _ _ _ _) as [[[rc1 [p1 obj1]] v1]|] eqn:He; [|done]. apply mmap_no_object in He as ->. congruence.
Qed.

Lemma inv_mmap FS B ps os v k p kok addr len prot flags off file :
  sys_inv FS B ps os v -> ps !! k = Some (Some p) -> call_ok (CMmap kok addr len prot flags off file) os -> Z.of_nat (length ps + 2) < 2 ^ 31 ->
  exists rc p' os' v' FS', run_mmap kok addr len prot flags off file p os v = Some (rc, p', os', v') /\ sys_inv FS' B (<[k := Some p']> ps) os' v'.
Proof.
  intros H Hk [Hlen Hfile] Hl.
  assert (Hnone : forall f, no_device f -> f ≫= mf_shmem = None -> exists rc p' obj v', sys_mmap cpu kok addr len prot flags off f p v = Some (rc, (p', obj), v') /\ sys_inv FS B (<[k := Some p']> ps) os v').
  { intros f Hd Hn. destruct (mmap_returns (spare FS) B ps v k p kok addr len prot flags off [] f) as (rc & p' & obj & v' & fs' & -> & Ho & Hs & Hz); try done; [apply H|by rewrite Hn|].
    rewrite (Hz Hn) in Ho. cbn in Ho. subst fs'. eexists _, _, _, _. split; [done|]. by eapply inv_spaces. }
  unfold run_mmap. destruct file as [[f [n|]]|].
  - destruct Hfile as [Hd Hn]. specialize (Hn n eq_refl). destruct (os !! n) as [obj|] eqn:Hon; [|apply lookup_ge_None in Hon; lia].
    destruct (inv_object_at FS B ps os v n obj H Hon) as (fs & Hfs & Ho & Hs).
    destruct (mmap_returns (spare (delete n FS)) B ps v k p kok addr len prot flags off fs (Some (with_obj obj f))) as (rc & p' & obj' & v' & fs' & He & Ho' & Hs' & _); try done.
    change (mjoin (Some obj)) with obj. rewrite He. cbn [mbind option_bind]. eexists _, _, _, _, _. split; [done|]. by eapply inv_object.
  - destruct Hfile as [Hd _]. destruct (Hnone (Some (with_obj None f)) Hd eq_refl) as (rc & p' & obj & v' & -> & Hs). cbn [mbind option_bind]. by eexists _, _, _, _, FS.
  - destruct (Hnone None I eq_refl) as (rc & p' & obj & v' & -> & Hs). cbn [mbind option_bind]. by eexists _, _, _, _, FS.
Qed.

Lemma sys_inv_call FS B ps os v k p c :
  sys_inv FS B ps os v -> ps !! k = Some (Some p) -> call_ok c os -> Z.of_nat (length ps + 2) < 2 ^ 31 ->
  exists rc p' os' v' FS', run_call c p os v = Some (rc, p', os', v') /\ sys_inv FS' B (<[k := Some p']> ps) os' v'.
Proof.
  intros H Hk Hc Hl. pose proof (so_spaces _ _ _ _ _ H) as Hs. destruct (si_proc _ _ _ Hs p (list_elem_of_lookup_2 _ _ _ Hk)) as (Hok & i & Hp & Hu).
  pose proof (root_in v i Hu) as Hr. pose proof (used_lt _ _ _ _ _ _ Hs Hu) as Hlt. pose proof (inv_st _ _ _ _ _ _ Hs Hu) as Hst.
  assert (Hf : forall r, fine (roots v) i v (spare FS) p r -> exists rc p' os' v' FS', ('(rc, p, v) ← r; Some (rc, p, os, v)) = Some (rc, p', os', v') /\ sys_inv FS' B (<[k := Some p']> ps) os' v').
  { intros [[[rc p'] v']|] Hfine; [|done]. destruct Hfine as [Hst' Hkept]. eexists _, _, _, _, FS. split; [done|]. eapply inv_spaces; [done|].
    apply (inv_return _ _ ps v' k p p' i); try done. by eapply inv_leave. }
  destruct c; cbn [run_call call_ok] in *; [| |apply Hf, (fine_guarded (roots v) i v Hlt); try done; intros w Hw..].
  - apply Hf, (fine_guarded (roots v) i v Hlt); try done. intros w Hw. by apply fine_brk.
  - by apply (inv_mmap FS B ps os v).
  - destruct Hc. by apply fine_munmap.
  - destruct Hc. by apply (fine_mprotect cpu).
  - destruct Hc as (? & ? & ? & ?). by apply fine_mremap.
Qed.

Lemma sys_step_inv FS B s s' :
  sys_step s s' -> Z.of_nat (length (procs s)) < 2 ^ 30 -> sys_inv FS B (procs s) (objs s) (vm s) ->
  (exists FS', sys_inv FS' B (procs s') (objs s') (vm s')) /\ length (procs s') = length (procs s).
Proof.
  intros Hs Hl H. assert (Hl' : Z.of_nat (length (procs s) + 2) < 2 ^ 31) by lia. pose proof (so_spaces _ _ _ _ _ H) as Hsp.
  assert (Hproc : forall k p, procs s !! k = Some (Some p) -> proc_ok p /\ exists i, p_space p = Some (PoolSpace i) /\ used (vm s) i)
    by (intros k p Hk; apply (si_proc _ _ _ Hsp), (list_elem_of_lookup_2 _ _ _ Hk)).
  assert (Hquiet : forall ps' v', spaces_inv (spare FS) B [] ps' v' -> exists FS', sys_inv FS' B ps' (objs s) v') by (intros ps' v' H'; exists FS; by eapply inv_spaces).
  destruct Hs; cbn [procs objs vm] in *; rewrite ?length_insert; (split; [|done]).
  - destruct (sys_inv_call FS B ps os v k p c H) as (rc' & p2 & os2 & v2 & FS' & Hrun & Hn2); try done. exists FS'. congruence.
  - apply Hquiet. destruct (Hproc k p) as (_ & i & Hp & Hu); [done|]. apply (inv_leave _ _ _ _ v _ i Hsp); try done.
    apply (st_fault cpu Hcpu (roots v) i v (root_in v i Hu)); try done. by eapply inv_st.
  - apply Hquiet. destruct (Hproc k p) as (_ & i' & Hp & Hu); [done|]. assert (i' = i) as -> by congruence. apply (inv_leave _ _ _ _ v _ i Hsp); try done.
    destruct (st_user_access cpu Hcpu (roots v) i v (root_in v i Hu) (used_lt _ _ _ _ _ _ Hsp Hu) (spare FS) v virt len write) as (b' & m' & Hr & Hst); try done; [by eapply inv_st|]. congruence.
  - apply Hquiet. destruct (Hproc k p) as (_ & i' & Hp & Hu); [done|]. assert (i' = i) as -> by congruence. by apply (inv_store _ _ cpu Hcpu).
  - apply Hquiet. destruct (Hproc k p) as (_ & i' & Hp & Hu); [done|]. assert (i' = i) as -> by congruence. by apply (inv_switch _ _ cpu Hcpu).
  - apply Hquiet. pose proof (inv_fork_child (spare FS) B cpu Hcpu ps v k j p (proc_has_private_space ps k)) as Hf. destruct (fork_child cpu _ p v). simplify_eq. by apply Hf.
  - apply Hquiet. pose proof (inv_clone (spare FS) B cpu Hcpu ps v k j p) as Hf. destruct (clone_thread p v). simplify_eq. by apply Hf.
  - apply Hquiet. destruct (inv_execve (spare FS) B cpu Hcpu ps v k p data interp argv envp ids rand rand' random kok) as (rc2 & info2 & p2 & v2 & He & Hn2 & _); try done. congruence.
  - apply Hquiet. destruct (inv_process_exec (spare FS) B cpu Hcpu ps v k data argv envp rand rand' random kok) as (r2 & v2 & He & Hn2); try done. congruence.
  - apply Hquiet. by apply inv_exit.
  - destruct (inv_object_at FS B ps os v j None H) as (fs & Hfs & -> & Hso); [done|]. eexists. eapply (inv_object _ _ _ _ _ _ v); [done|done|exact Hso|]. apply obj_inv_new.
  - destruct (inv_object_at FS B ps os v j (Some o) H) as (fs & Hfs & Ho & Hso); [done|]. eexists. eapply (inv_object _ _ _ _ _ _ v); [done|done|exact Hso|]. by destruct Ho.
  - destruct (inv_object_at FS B ps os v j (Some o) H) as (fs & Hfs & Ho & Hso); [done|].
    pose proof (unref_ok (roots v) (spare (delete j FS)) cpu Hcpu fs o (pm v) (si_mem _ _ _ Hso) Ho) as Hur. rewrite H1 in Hur. destruct Hur as (Hsame & Hmem & Hur). destruct r as [o'|].
    + destruct Hur as [-> Ho']. exists (<[j := fs]> FS). eapply inv_file_op; try done; apply Hso.
    + exists (<[j := []]> FS). eapply inv_file_op; try done. by apply mem_leaves.
  - destruct (inv_object_at FS B ps os v j (Some o) H) as (fs & Hfs & Ho & Hso); [done|].
    destruct (run_op_kept (roots v) (spare (delete j FS)) cpu Hcpu kok fs o (pm v) op (si_mem _ _ _ Hso) Ho) as (rc2 & out2 & o2 & m2 & fs' & Hrun & Hh & Ho' & Hlv & Hsm); [done|].
    assert (o2 = o' /\ m2 = m) as [-> ->] by (split; congruence). exists (<[j := fs']> FS). by eapply inv_file_op.
Qed.

Lemma sys_reach_inv s s' :
  booted s -> sys_reach s s' -> exists FS, sys_inv FS (g_first_frame (pm (vm s))) (procs s') (objs s') (vm s') /\ Z.of_nat (length (procs s')) < 2 ^ 30.
Proof.
  intros Hb Hr. pose proof (booted_inv s Hb) as H. assert (Hl : Z.of_nat (length (procs s)) < 2 ^ 30) by apply Hb. clear Hb.
  revert H. generalize (replicate (length (objs s)) (@nil (option Z))), (g_first_frame (pm (vm s))). intros FS B. revert FS.
  induction Hr as [|s s1 s2 Hs Hr IH]; intros FS H; [by exists FS|]. destruct (sys_step_inv FS B s s1 Hs Hl H) as [[FS1 H1] Hl1]. apply (IH ltac:(by rewrite Hl1) FS1 H1).
Qed.

(** ** What holds in every reachable state *)

(** The pages [n] of spaces [i] that map the frame [f]. *)
Definition mapped_at v (f : Z) (x : nat * Z) : Prop :=
  used v x.1 /\ 0 <= x.2 < NPAGES /\
  let e := vmm_leaf_pte (pm v) (root v (PoolSpace x.1)) (4096 * x.2) in has e VMM_PRESENT = true /\ pte_addr e = page (pm v) f.

Lemma mapped_refs X B E ps v f L : spaces_inv X B E ps v -> NoDup L -> (forall x, x ∈ L -> mapped_at v f x) -> Z.of_nat (length L) + occ f X <= live (pm v) f.
Proof.
  intros H Hnd HL. set (g := fun x : nat * Z => (root v (PoolSpace x.1), x.2)).
  assert (Hnd' : NoDup (g <$> L)).
  { apply NoDup_fmap_2_strong; [|done]. intros [i n] [j m] Hx Hy Hg. unfold g in Hg. cbn [fst snd] in Hg. injection Hg as Hr ->.
    f_equal. apply (roots_inj X B E ps v i j H); [by apply (HL _ Hx)|by apply (HL _ Hy)|done]. }
  pose proof (mi_refs _ _ _ (si_mem _ _ _ H) f (g <$> L) Hnd') as Hr. rewrite length_fmap in Hr. apply Hr.
  intros y (x & -> & Hx)%list_elem_of_fmap. destruct (HL x Hx) as (Hu & Hn & Hp & Ha). split; [split; [by apply root_in|done]|].
  unfold maps, g. cbn [fst snd]. rewrite Hp, Ha. cbn [andb]. apply Z.eqb_refl.
Qed.

(** The files that have the page at address [a]. *)
Definition holds (a : Z) (o : option shmem_obj) : bool := match o with Some o => existsb (fun x => negb (x =? 0) && (x =? a)) (sh_pages o) | None => false end.

Lemma holds_frame fs obj (s : pmm_t A) f : obj_at fs obj s -> holds (page s f) obj = true -> f ∈ obj_frames fs.
Proof.
  destruct obj as [o|]; [|done]. intros Ho (x & Hx%list_elem_of_In & [Hz Ha%Z.eqb_eq]%andb_true_iff)%existsb_exists. rewrite (oi_pages _ _ _ Ho) in Hx. apply list_elem_of_fmap in Hx as (fo & -> & Hin).
  destruct fo as [f'|]; [|done]. cbn [addr_of] in Ha. apply page_inj in Ha as ->. apply list_elem_of_lookup in Hin as [n Hn]. by eapply obj_frames_lookup.
Qed.

Lemma holds_occ FS os (s : pmm_t A) f : Forall2 (fun fs o => obj_at fs o s) FS os -> Z.of_nat (count_if (holds (page s f)) os) <= occ f (spare FS).
Proof.
  induction 1 as [|fs o FS os Ho HF IH]; [done|]. change (spare (fs :: FS)) with (obj_frames fs ++ spare FS). rewrite occ_app. cbn [count_if]. pose proof (occ_nonneg f (obj_frames fs)).
  destruct (holds (page s f) o) eqn:Hh; [|lia]. pose proof (holds_frame fs o s f Ho Hh) as Hin. apply list_elem_of_lookup in Hin as [n Hn].
  pose proof (count_if_pos (Z.eqb f) (obj_frames fs) n f Hn (Z.eqb_refl f)). unfold occ at 1. lia.
Qed.

Lemma object_page FS B ps os v j o a :
  sys_inv FS B ps os v -> os !! j = Some (Some o) -> a ∈ sh_pages o -> a <> 0 -> exists f, a = page (pm v) f /\ 0 < live (pm v) f /\ ~ is_table (roots v) (pm v) (page (pm v) f).
Proof.
  intros H Hj Ha Hz. destruct (inv_object_at FS B ps os v j (Some o) H Hj) as (fs & _ & Ho & Hs). rewrite (oi_pages _ _ _ Ho) in Ha. apply list_elem_of_fmap in Ha as ([f|] & -> & Hin); [|done].
  exists f. split; [done|]. apply list_elem_of_lookup in Hin as [n Hn]. exact (held_live (roots v) _ fs (pm v) n f (si_mem _ _ _ Hs) Hn).
Qed.



(** C27: the memory system calls return.  In every reachable state each of
    [brk], [mmap], [munmap], [mprotect] and [mremap], with any 64-bit arguments,
    ends with a result: its loops do not run out of the fuel of the model, and
    mapping a shared memory file never reads outside its array of pages. *)
Theorem system_calls_return s s' k p c :
  booted s -> sys_reach s s' -> procs s' !! k = Some (Some p) -> call_ok c (objs s') -> exists rc p' os v', run_call c p (objs s') (vm s') = Some (rc, p', os, v').
Proof.
  intros Hb Hr Hk Hc. destruct (sys_reach_inv s s' Hb Hr) as (FS & H & Hl). destruct (sys_inv_call FS _ _ _ _ k p c H Hk Hc ltac:(lia)) as (rc & p' & os' & v' & FS' & He & _). by exists rc, p', os', v'.
Qed.

(** C3: loading a program stays in bounds.  For every image and every
    interpreter, however malformed, [execve] never reads outside the image and
    never writes outside the pages it allocated or the four pages of the stack
    (an access outside would be [None]); a new program starts at a user address
    with its stack pointer 16-byte aligned inside the stack area. *)
Theorem execve_in_bounds s s' k p data interp argv envp ids rand rand' random kok :
  booted s -> sys_reach s s' -> procs s' !! k = Some (Some p) ->
  image_ok data -> (forall path d, interp path = Some d -> image_ok d) -> strings_ok argv envp random ->
  exists rc info p' v', sys_execve cpu data interp argv envp ids rand rand' random kok p (vm s') = Some (rc, info, p', v') /\
    forall entry rsp, info = Some (entry, rsp) -> user_addr entry /\ USER_STACK_GROW_BASE < rsp < USER_STACK_TOP /\ rsp mod 16 = 0.
Proof.
  intros Hb Hr Hk Hd Hi Hs. destruct (sys_reach_inv s s' Hb Hr) as (FS & [_ H] & Hl).
  destruct (inv_execve _ _ cpu Hcpu _ _ k p data interp argv envp ids rand rand' random kok H Hk ltac:(lia) Hd Hi Hs) as (rc & info & p' & v' & He & _ & Hx). by exists rc, info, p', v'.
Qed.

(** C28: the memory state of every process stays well typed.  In every reachable
    state the heap of a process ends inside user space, its table of mappings is
    a set of disjoint non-empty ranges of 64-bit addresses with valid
    protections, its page-table root is a page below 2^52, and its reference
    count is positive and fits 32 bits. *)
Theorem process_state_typed s s' k p :
  booted s -> sys_reach s s' -> procs s' !! k = Some (Some p) ->
  exists i, p_space p = Some (PoolSpace i) /\ 0 <= p_brk_base p /\ 0 <= p_brk p <= USER_LIMIT /\
    vma_wf (table (vm s') (PoolSpace i)) /\ prots_wx (table (vm s') (PoolSpace i)) /\ is_page (root (vm s') (PoolSpace i)) /\
    0 < refcount (space (vm s') (PoolSpace i)) < 2 ^ 32.
Proof.
  intros Hb Hr Hk. destruct (sys_reach_inv s s' Hb Hr) as (FS & [_ H] & Hl). destruct (si_proc _ _ _ H p (list_elem_of_lookup_2 _ _ _ Hk)) as ([Hp1 Hp2] & i & Hp & Hu).
  destruct (si_space _ _ _ H i Hu) as (W1 & W2 & W3). exists i. do 5 (split; [done|]). split.
  - apply (table_is_page (roots (vm s')) (pm (vm s'))); [apply (mi_tables _ _ _ (si_mem _ _ _ H))|]. exists (root (vm s') (PoolSpace i)), []. split; [by apply root_in|done].
  - rewrite W3. unfold holders. cbn [count_if]. pose proof (count_if_le (uses i) (procs s')).
    assert (Hpos : (0 < count_if (uses i) (procs s'))%nat) by (apply (count_if_pos _ _ k (Some p)); [done|]; by apply bool_decide_eq_true). lia.
Qed.
End system.

(** ** A program that forks

    The smallest program: one segment, readable and executable, of 120 bytes. *)
Definition tiny_image : list Z :=
  [0x7F; 69; 76; 70; 2; 1] ++ replicate 10 0 ++ le_bytes 2 2 ++ le_bytes 2 0x3E ++ le_bytes 4 1 ++ le_bytes 8 0x400040 ++ le_bytes 8 64 ++ le_bytes 8 0 ++
  le_bytes 4 0 ++ le_bytes 2 64 ++ le_bytes 2 56 ++ le_bytes 2 1 ++ le_bytes 2 0 ++ le_bytes 2 0 ++ le_bytes 2 0 ++
  le_bytes 4 1 ++ le_bytes 4 5 ++ le_bytes 8 0 ++ le_bytes 8 0x400000 ++ le_bytes 8 0 ++ le_bytes 8 120 ++ le_bytes 8 120 ++ le_bytes 8 4096.

Definition demo_va : Z := 0x500000000000.
Definition demo_mmap {A} : mem_call (A := A) := CMmap (fun _ => true) 0 4096 3 0x22 0 None.
Definition demo_mprotect {A} : mem_call (A := A) := CMprotect demo_va 4096 3.
Definition demo_shared {A} : mem_call (A := A) := CMmap (fun _ => true) 0 4096 3 1 0 (Some (mkFile VFS_TYPE_REG false None None None 0, Some 0%nat)).

Lemma demo_va_user : user_addr demo_va.
Proof. done. Qed.

Lemma demo_calls_ok {A} : call_ok (A := A) demo_mmap [None] /\ call_ok (A := A) demo_mprotect [None].
Proof. done. Qed.

Lemma resize_demo_ok : op_ok (OResize 4096).
Proof. cbn. lia. Qed.

Lemma demo_shared_ok {A} o : call_ok (A := A) demo_shared [Some o].
Proof. split; [done|]. split; [done|]. intros j [= <-]. cbn [length]. lia. Qed.

Section scenario.
Context `{FA : FrameAllocator A} (v0 : vmm_t A) (data : list Z) (argv : list (option (list Z))) (envp : list (list Z)) (random : list Z).

Definition spawned : option (mm_proc * vmm_t A) :=
  r ← process_exec 0 data argv envp 0 0 random true true v0; match r with (Some (p, _, _), v) => Some (p, v) | (None, _) => None end.

(** The program maps a private page of zeros and stores to it. *)
Definition started : option (mm_proc * vmm_t A) :=
  r ← spawned; let '(p, v) := r in r ← run_call 0 demo_mmap p [None] v; let '(_, p, os, v) := r in match os with [None] => Some (p, user_store v 0 demo_va 1) | _ => None end.

(** It forks, and the parent asks for the protection its page already has. *)
Definition forked : option (mm_proc * mm_proc * vmm_t A) :=
  r ← started;
  let '(p, v) := r in
  match fork_child 0 (proc_has_private_space [Some p; None] 0) p v with
  | (Some c, v) => r ← run_call 0 demo_mprotect p [None] v; let '(_, p, os, v) := r in match os with [None] => Some (p, c, v) | _ => None end
  | (None, _) => None
  end.

(** What happens, as a computation. *)
Definition scenario_check : bool :=
  match started, forked with
  | Some (q, _), Some (p, c, v) =>
      bool_decide (p_space q = Some (PoolSpace 0)) && bool_decide (p_space p = Some (PoolSpace 0)) && bool_decide (p_space c = Some (PoolSpace 1)) &&
      bool_decide (vma_view (table v (PoolSpace 1)) demo_va = Some (3, 0x22, true)) &&
      bool_decide (user_load v 1 demo_va = Some 1) && bool_decide (user_load (user_store v 0 demo_va 2) 1 demo_va = Some 2)
  | _, _ => false
  end.

Context (Hdata : image_ok data) (Hstr : strings_ok argv envp random).
Abbreviation boot := (mkSys [None; None] [None] v0).

Lemma spawned_reach p v : spawned = Some (p, v) -> sys_reach 0 boot (mkSys [Some p; None] [None] v).
Proof.
  unfold spawned. intros H. apply bind_Some in H as ([[[[p1 e] sp]|] v1] & H1 & H); [|done]. injection H as -> ->. apply rtc_once.
  exact (step_spawn 0 [None; None] [None] v0 0 data argv envp 0 0 random true (Some (p, e, sp)) v eq_refl Hdata Hstr H1).
Qed.

Lemma started_reach p v : started = Some (p, v) -> p_space p = Some (PoolSpace 0) -> sys_reach 0 boot (mkSys [Some p; None] [None] v).
Proof.
  unfold started. intros H Hp. apply bind_Some in H as ([p1 v1] & H1 & H). apply bind_Some in H as ([[[rc p2] os] v2] & H2 & H). destruct os as [|[o|] [|]]; try done. injection H as -> <-.
  eapply rtc_r; [eapply rtc_r; [exact (spawned_reach p1 v1 H1)|]|].
  - exact (step_call 0 [Some p1; None] [None] v1 0 p1 demo_mmap rc p [None] v2 eq_refl (proj1 demo_calls_ok) H2).
  - exact (step_store 0 [Some p; None] [None] v2 0 p 0 demo_va 1 eq_refl Hp demo_va_user).
Qed.

Lemma forked_reach p c v :
  forked = Some (p, c, v) -> (forall q w, started = Some (q, w) -> p_space q = Some (PoolSpace 0)) -> sys_reach 0 boot (mkSys [Some p; Some c] [None] v).
Proof.
  unfold forked. intros H Hq. apply bind_Some in H as ([q v1] & H1 & H).
  destruct (fork_child 0 _ q v1) as [[c1|] v2] eqn:Hf; [|done]. apply bind_Some in H as ([[[rc p2] os] v3] & H2 & H). destruct os as [|[o|] [|]]; try done. injection H as -> -> <-.
  eapply rtc_r; [eapply rtc_r; [exact (started_reach q v1 H1 (Hq q v1 H1))|]|].
  - exact (step_fork 0 [Some q; None] [None] v1 0 1 q (Some c) v2 eq_refl eq_refl Hf).
  - exact (step_call 0 [Some q; Some c] [None] v2 0 q demo_mprotect rc p [None] v3 eq_refl (proj2 demo_calls_ok) H2).
Qed.

Lemma scenario_shows :
  scenario_check = true ->
  exists p c v, sys_reach 0 boot (mkSys [Some p; Some c] [None] v) /\ p_space p = Some (PoolSpace 0) /\ p_space c = Some (PoolSpace 1) /\
    vma_view (table v (PoolSpace 1)) demo_va = Some (3, 0x22, true) /\ user_load v 1 demo_va = Some 1 /\ user_load (user_store v 0 demo_va 2) 1 demo_va = Some 2.
Proof.
  unfold scenario_check. destruct started as [[q w]|] eqn:Hs; [|done]. destruct forked as [[[p c] v]|] eqn:Hf; [|done]. intros H.
  rewrite !andb_true_iff, !bool_decide_eq_true in H. destruct H as (((((H1 & H2) & H3) & H4) & H5) & H6).
  exists p, c, v. split; [|done]. apply forked_reach; [done|]. intros q' w' [= <- <-]%(eq_trans (eq_sym Hs)). done.
Qed.

Lemma scenario_spawned : scenario_check = true -> exists p v, sys_reach 0 boot (mkSys [Some p; None] [None] v).
Proof.
  unfold scenario_check. destruct started as [[q w]|] eqn:Hs; [|done]. intros _. unfold started in Hs. apply bind_Some in Hs as ([p v] & H1 & _). exists p, v. by apply spawned_reach.
Qed.

(** A file of one page, mapped shared; the program forks and the parent stores to
    the page. *)
Definition shared : option (mm_proc * mm_proc * shmem_obj * vmm_t A) :=
  r ← spawned;
  let '(p, v) := r in
  r ← run_op 0 (fun _ => true) (mkShmem [] 0 1 0) (OResize 4096) (pm v);
  let '(_, _, o, m) := r in
  r ← run_call 0 demo_shared p [Some o] (set_pm m v);
  let '(_, p, os, v) := r in
  match os, fork_child 0 (proc_has_private_space [Some p; None] 0) p v with
  | [Some o], (Some c, v) => Some (p, c, o, user_store v 0 demo_va 5)
  | _, _ => None
  end.

Definition mapped_atb (v : vmm_t A) (f : Z) (i : nat) : bool :=
  let e := vmm_leaf_pte (pm v) (root v (PoolSpace i)) (4096 * (demo_va / 4096)) in
  bool_decide (g_pool_used v !! i = Some true) && has e VMM_PRESENT && (pte_addr e =? page (pm v) f).

Definition shared_check : bool :=
  match shared with
  | Some (p, c, o, v) =>
      let f := aget 0 (sh_pages o) 0 / 4096 - g_first_frame (pm v) in
      bool_decide (p_space p = Some (PoolSpace 0)) && bool_decide (user_load v 1 demo_va = Some 5) && mapped_atb v f 0 && mapped_atb v f 1 && holds (page (pm v) f) (Some o)
  | None => false
  end.

Lemma mapped_atb_true v f i : mapped_atb v f i = true -> mapped_at v f (i, demo_va / 4096).
Proof.
  unfold mapped_atb. rewrite !andb_true_iff, bool_decide_eq_true, Z.eqb_eq. intros [[H1 H2] H3]. split; [exact H1|]. split; [done|]. split; [exact H2|exact H3].
Qed.

Lemma shared_reach p c o v : shared = Some (p, c, o, v) -> p_space p = Some (PoolSpace 0) -> sys_reach 0 boot (mkSys [Some p; Some c] [Some o] v).
Proof.
  unfold shared. intros H Hp. apply bind_Some in H as ([p1 v1] & H1 & H). apply bind_Some in H as ([[[rc out] o1] m] & H2 & H).
  apply bind_Some in H as ([[[rc2 p2] os] v2] & H3 & H). destruct os as [|[o2|] [|]]; try done. destruct (fork_child 0 _ p2 v2) as [[c1|] v3] eqn:Hf; [|done]. injection H as -> -> -> <-.
  eapply rtc_r; [eapply rtc_r; [eapply rtc_r; [eapply rtc_r; [eapply rtc_r; [exact (spawned_reach p1 v1 H1)|]|]|]|]|].
  - exact (step_shm_create 0 [Some p1; None] [None] v1 0 eq_refl).
  - exact (step_shm_op 0 [Some p1; None] [Some (mkShmem [] 0 1 0)] v1 0 _ (fun _ => true) (OResize 4096) rc out o1 m eq_refl resize_demo_ok H2).
  - exact (step_call 0 [Some p1; None] [Some o1] (set_pm m v1) 0 p1 demo_shared rc2 p [Some o] v2 eq_refl (demo_shared_ok o1) H3).
  - exact (step_fork 0 [Some p; None] [Some o] v2 0 1 p (Some c) v3 eq_refl eq_refl Hf).
  - exact (step_store 0 [Some p; Some c] [Some o] v3 0 p 0 demo_va 5 eq_refl Hp demo_va_user).
Qed.

Lemma shared_shows :
  shared_check = true -> exists p c o v f, sys_reach 0 boot (mkSys [Some p; Some c] [Some o] v) /\ user_load v 1 demo_va = Some 5 /\
    mapped_at v f (0%nat, demo_va / 4096) /\ mapped_at v f (1%nat, demo_va / 4096) /\ holds (page (pm v) f) (Some o) = true.
Proof.
  unfold shared_check. destruct shared as [[[[p c] o] v]|] eqn:Hs; [|done]. rewrite !andb_true_iff, !bool_decide_eq_true. intros ((((H1 & H2) & H3) & H4) & H5).
  exists p, c, o, v, (aget 0 (sh_pages o) 0 / 4096 - g_first_frame (pm v)). split; [by apply shared_reach|]. split; [done|]. split; [by apply mapped_atb_true|]. split; [by apply mapped_atb_true|done].
Qed.
End scenario.

Definition demo_boot : system := mkSys [None; None] [None] demo_v0.

Lemma demo_booted : booted demo_boot.
Proof.
  split; [done|]. split; [by repeat constructor|]. split; [by repeat constructor|]. split; [exact (pmm_reach_inv _ demo_pmm_reach)|]. split; [exact demo_lens|].
  unfold demo_boot, demo_v0. cbn [vm g_pool_used]. apply Forall_replicate. done.
Qed.

Lemma tiny_image_ok : image_ok tiny_image.
Proof.
  split; [|done]. apply Forall_forall. intros x Hx. assert (Hall : forallb (fun b => (0 <=? b) && (b <? 256)) tiny_image = true) by (vm_compute; reflexivity).
  apply list_elem_of_In in Hx. apply (proj1 (forallb_forall _ _) Hall) in Hx. apply andb_true_iff in Hx as [H1%Z.leb_le H2%Z.ltb_lt]. unfold is_u8. lia.
Qed.

Definition demo_argv : list (option (list Z)) := [Some [105]].
Definition demo_envp : list (list Z) := [[65; 61; 49]].
Definition demo_random : list Z := replicate 16 7.

Lemma demo_strings : strings_ok demo_argv demo_envp demo_random.
Proof. split; [by repeat constructor|]. split; [by repeat constructor|done]. Qed.

Lemma demo_check_true : scenario_check demo_v0 tiny_image demo_argv demo_envp demo_random = true.
Proof. vm_compute. reflexivity. Qed.

Lemma demo_spawned : exists p v, sys_reach 0 demo_boot (mkSys [Some p; None] [None] v).
Proof. exact (scenario_spawned demo_v0 tiny_image demo_argv demo_envp demo_random tiny_image_ok demo_strings demo_check_true). Qed.

Lemma demo_sharing :
  exists p c o v f, sys_reach 0 demo_boot (mkSys [Some p; Some c] [Some o] v) /\ user_load v 1 demo_va = Some 5 /\
    mapped_at v f (0%nat, demo_va / 4096) /\ mapped_at v f (1%nat, demo_va / 4096) /\ holds (page (pm v) f) (Some o) = true.
Proof.
  apply (shared_shows demo_v0 tiny_image demo_argv demo_envp demo_random tiny_image_ok demo_strings). vm_compute. reflexivity.
Qed.

(** Asking for the protection a page already has breaks the isolation of [fork]:
    [sys_mprotect_impl] replaces the flags of a page shared copy-on-write and
    makes it writable.  In a reachable state the parent stores to its private
    page and the child, whose mapping is private as well, reads the new value. *)
Theorem mprotect_breaks_private_memory :
  exists s p c, sys_reach 0 demo_boot s /\ procs s = [Some p; Some c] /\ p_space p = Some (PoolSpace 0) /\ p_space c = Some (PoolSpace 1) /\
    vma_view (table (vm s) (PoolSpace 1)) demo_va = Some (3, 0x22, true) /\ has 0x22 MAP_SHARED = false /\
    user_load (vm s) 1 demo_va = Some 1 /\ user_load (user_store (vm s) 0 demo_va 2) 1 demo_va = Some 2.
Proof.
  destruct (scenario_shows demo_v0 tiny_image demo_argv demo_envp demo_random tiny_image_ok demo_strings demo_check_true) as (p & c & v & H1 & H2 & H3 & H4 & H5 & H6).
  exists (mkSys [Some p; Some c] [None] v), p, c. split; [exact H1|]. split; [reflexivity|]. split; [exact H2|]. split; [exact H3|]. split; [exact H4|].
  split; [reflexivity|]. split; [exact H5|exact H6].
Qed.

(** ** Witnesses *)



Lemma system_calls_return_witness :
  exists p v, sys_reach 0 demo_boot (mkSys [Some p; None] [None] v) /\ exists rc p' os' v', run_call 0 demo_mmap p [None] v = Some (rc, p', os', v').
Proof.
  destruct demo_spawned as (p & v & Hr). exists p, v. split; [exact Hr|]. exact (system_calls_return 0 cpu0 demo_boot _ 0 p demo_mmap demo_booted Hr eq_refl (proj1 demo_calls_ok)).
Defined.

(** The same program executed again, without an interpreter. *)
Lemma execve_in_bounds_witness :
  exists p v rc info p' v', sys_reach 0 demo_boot (mkSys [Some p; None] [None] v) /\
    sys_execve 0 tiny_image (fun _ => None) demo_argv demo_envp (mkIds 0 0 0 0 false) 0 0 demo_random true p v = Some (rc, info, p', v').
Proof.
  destruct demo_spawned as (p & v & Hr).
  destruct (execve_in_bounds 0 cpu0 demo_boot _ 0 p tiny_image (fun _ => None) demo_argv demo_envp (mkIds 0 0 0 0 false) 0 0 demo_random true
    demo_booted Hr eq_refl tiny_image_ok (fun path d H => match H with end) demo_strings) as (rc & info & p' & v' & He & _).
  exists p, v, rc, info, p', v'. split; [exact Hr|exact He].
Defined.

Lemma process_state_typed_witness :
  exists p v i, sys_reach 0 demo_boot (mkSys [Some p; None] [None] v) /\ p_space p = Some (PoolSpace i) /\ vma_wf (table v (PoolSpace i)).
Proof.
  destruct demo_spawned as (p & v & Hr). destruct (process_state_typed 0 cpu0 demo_boot _ 0 p demo_booted Hr eq_refl) as (i & Hp & _ & _ & Hw & _).
  exists p, v, i. split; [exact Hr|]. split; [exact Hp|exact Hw].
Defined.
