(* ===== verification/SpaceLock.v ===== *)
(** * Walks and changes of an address space exclude each other.

    Models the protocol of [kernel/mm/vmm.c] between
    [vmm_user_range_fault_in], which counts itself in [user_accessors] and walks
    under [fault_lock], and the system calls that change an address space
    between [vmm_space_mutation_begin] and [vmm_space_mutation_end].  Each
    atomic access is a step and the threads interleave; what happens inside the
    two sections is [Vmm.v] and [MemSys.v]. *)

From S2P Require Import Prelude Bits.

(** The fields of [vmm_space_t] the protocol uses. *)
Record guards := mkGuards {
  user_accessors : Z;
  user_mutating : Z;
  fault_lock : Z;
}.

Definition set_accessors (n : Z) (x : guards) : guards := mkGuards n (user_mutating x) (fault_lock x).
Definition set_mutating (n : Z) (x : guards) : guards := mkGuards (user_accessors x) n (fault_lock x).
Definition set_fault_lock (n : Z) (x : guards) : guards := mkGuards (user_accessors x) (user_mutating x) n.

(** The next atomic access of a thread.  [MutCas], [MutLoad] and [MutReset] carry
    the number of attempts left. *)
Inductive pc :=
| Idle
| WalkLoad | WalkAdd | WalkCheck | WalkRetry | WalkLock | Walk | WalkUnlock | WalkRelease
| MutCas (attempts : Z) | MutLoad (attempts : Z) | MutReset (attempts : Z) | Mutating.

(** [vmm_user_range_fault_in] around its walk. *)
Definition walk_step (t : pc) (x : guards) : pc * guards :=
  match t with
  | WalkLoad => (if negb (user_mutating x =? 0) then WalkLoad else WalkAdd, x)
  | WalkAdd => (WalkCheck, set_accessors (u32 (user_accessors x + 1)) x)
  | WalkCheck => (if user_mutating x =? 0 then WalkLock else WalkRetry, x)
  | WalkRetry => (WalkLoad, set_accessors (u32 (user_accessors x - 1)) x)
  | WalkLock => if fault_lock x =? 0 then (Walk, set_fault_lock 1 x) else (WalkLock, x)
  | Walk => (WalkUnlock, x)
  | WalkUnlock => (WalkRelease, set_fault_lock 0 x)
  | WalkRelease => (Idle, set_accessors (u32 (user_accessors x - 1)) x)
  | t => (t, x)
  end.

(** The loop of [vmm_space_mutation_begin]; [Idle] after it returned [false]. *)
Definition begin_step (t : pc) (x : guards) : pc * guards :=
  match t with
  | MutCas n => if n <=? 0 then (Idle, x) else if user_mutating x =? 0 then (MutLoad n, set_mutating 1 x) else (MutCas (n - 1), x)
  | MutLoad n => (if user_accessors x =? 0 then Mutating else MutReset n, x)
  | MutReset n => (MutCas (n - 1), set_mutating 0 x)
  | t => (t, x)
  end.

Definition MUTATION_ATTEMPTS : Z := 1000000.

(** [vmm_space_mutation_end]. *)
Definition end_step (x : guards) : pc * guards := (Idle, set_mutating 0 x).

Definition thread_step (t : pc) (x : guards) : pc * guards :=
  match t with
  | Idle => (Idle, x)
  | MutCas _ | MutLoad _ | MutReset _ => begin_step t x
  | Mutating => end_step x
  | _ => walk_step t x
  end.

Inductive step : guards * list pc -> guards * list pc -> Prop :=
| step_run x ts i t t' x' : ts !! i = Some t -> thread_step t x = (t', x') -> step (x, ts) (x', <[i := t']> ts)
| step_walk x ts i : ts !! i = Some Idle -> step (x, ts) (x, <[i := WalkLoad]> ts)
| step_mutate x ts i : ts !! i = Some Idle -> step (x, ts) (x, <[i := MutCas MUTATION_ATTEMPTS]> ts).

Inductive reach (n : nat) : guards * list pc -> Prop :=
| reach_init : reach n (mkGuards 0 0 0, replicate n Idle)
| reach_step c c' : reach n c -> step c c' -> reach n c'.

(** ** The invariant *)

Definition counted (t : pc) : bool :=
  match t with WalkCheck | WalkRetry | WalkLock | Walk | WalkUnlock | WalkRelease => true | _ => false end.
Definition inside (t : pc) : bool := match t with WalkLock | Walk | WalkUnlock | WalkRelease => true | _ => false end.
Definition locked (t : pc) : bool := match t with Walk | WalkUnlock => true | _ => false end.
Definition marked (t : pc) : bool := match t with MutLoad _ | MutReset _ | Mutating => true | _ => false end.
Definition mutating (t : pc) : bool := match t with Mutating => true | _ => false end.

Definition num (P : pc -> bool) (ts : list pc) : Z := Z.of_nat (count_if P ts).

(** Each counter is the number of threads that account for it. *)
Record inv (c : guards * list pc) : Prop := {
  in_accessors : user_accessors c.1 = num counted c.2;
  in_mutating : user_mutating c.1 = num marked c.2 /\ num marked c.2 <= 1;
  in_locked : fault_lock c.1 = num locked c.2 /\ num locked c.2 <= 1;
  in_exclusive : num mutating c.2 = 0 \/ num inside c.2 = 0;
}.

Lemma num_insert P ts i t t' :
  ts !! i = Some t -> num P (<[i := t']> ts) = num P ts - (if P t then 1 else 0) + (if P t' then 1 else 0).
Proof. intros H. pose proof (count_if_insert P ts i t t' H). unfold num. destruct (P t), (P t'); lia. Qed.

Lemma num_bounds P ts : 0 <= num P ts <= Z.of_nat (length ts).
Proof. unfold num. pose proof (count_if_le P ts). lia. Qed.

Lemma num_pos P ts i t : ts !! i = Some t -> P t = true -> P Idle = false -> 1 <= num P ts.
Proof. intros H HP H0. pose proof (num_insert P ts i t Idle H) as Hn. rewrite HP, H0 in Hn. pose proof (num_bounds P (<[i := Idle]> ts)). lia. Qed.

Lemma num_mono P Q ts : (forall t, P t = true -> Q t = true) -> num P ts <= num Q ts.
Proof. intros H. unfold num. pose proof (count_if_mono P Q ts (fun t _ => H t)). lia. Qed.

Lemma num_two P ts i j t u : i <> j -> ts !! i = Some t -> ts !! j = Some u -> P t = true -> P u = true -> P Idle = false -> 2 <= num P ts.
Proof.
  intros Hij Hi Hj Ht Hu H0. pose proof (num_insert P ts i t Idle Hi) as Hn. rewrite Ht, H0 in Hn.
  pose proof (num_pos P (<[i := Idle]> ts) j u ltac:(by rewrite list_lookup_insert_ne) Hu H0). lia.
Qed.

Ltac count_up ts i t H :=
  pose proof (num_bounds counted ts); pose proof (num_bounds marked ts); pose proof (num_bounds locked ts);
  pose proof (num_bounds inside ts); pose proof (num_bounds mutating ts);
  pose proof (fun P HP H0 => num_pos P ts i t H HP H0) as Hpos.

Lemma guard_run_inv x ts i t t' x' :
  Z.of_nat (length ts) < 2 ^ 32 -> ts !! i = Some t -> thread_step t x = (t', x') -> inv (x, ts) -> inv (x', <[i := t']> ts).
Proof.
  intros Hlen Hi Hst [Ha [Hm Hm1] [Hl Hl1] He]. cbn [fst snd] in *. count_up ts i t Hi.
  assert (Hsub : num inside ts <= num counted ts) by (apply num_mono; by intros []).
  assert (Hsub2 : num mutating ts <= num marked ts) by (apply num_mono; by intros []).
  assert (Hlt : counted t' = true -> counted t = false -> num counted ts < Z.of_nat (length ts)).
  { intros _ Hc. pose proof (num_insert counted ts i t WalkCheck Hi) as Hn. rewrite Hc in Hn. cbn [counted] in Hn.
    pose proof (num_bounds counted (<[i := WalkCheck]> ts)) as Hb. rewrite length_insert in Hb. lia. }
  assert (Hu : forall z, 0 <= z < 2 ^ 32 -> u32 z = z) by (intros; by apply Z.mod_small).
  pose proof (fun H => Hpos counted H eq_refl) as P1. pose proof (fun H => Hpos marked H eq_refl) as P2. pose proof (fun H => Hpos locked H eq_refl) as P3.
  pose proof (fun H => Hpos inside H eq_refl) as P4. pose proof (fun H => Hpos mutating H eq_refl) as P5. clear Hpos.
  split; cbn [fst snd]; rewrite ?(num_insert _ ts i t t' Hi);
    destruct t; cbn [thread_step walk_step begin_step] in Hst; try unfold end_step in Hst; repeat match type of Hst with context [if ?b then _ else _] => destruct b eqn:? end; simplify_eq;
    cbn [counted marked locked inside mutating set_accessors set_mutating set_fault_lock user_accessors user_mutating fault_lock] in *;
    dest_bool; rewrite ?Hu; try lia.
Qed.

Lemma guard_start_inv x ts i t' :
  ts !! i = Some Idle -> counted t' = false -> marked t' = false -> inv (x, ts) -> inv (x, <[i := t']> ts).
Proof.
  intros Hi Hc Hm [Ha Hmu Hl He].
  assert (Hsub : forall P, P Idle = false -> P t' = false -> num P (<[i := t']> ts) = num P ts).
  { intros P H0 H1. rewrite (num_insert P ts i Idle t' Hi), H0, H1. lia. }
  split; cbn [fst snd] in *; rewrite !Hsub; try done; by destruct t'.
Qed.

Lemma reach_inv n c : Z.of_nat n < 2 ^ 32 -> reach n c -> length c.2 = n /\ inv c.
Proof.
  intros Hn H. induction H as [|c c' _ [Hlen IH] Hst].
  - cbn [snd]. rewrite length_replicate. split; [done|]. assert (H0 : forall P, P Idle = false -> num P (replicate n Idle) = 0).
    { intros P HP. unfold num. clear Hn. induction n as [|n IHn]; [done|]. cbn [replicate count_if]. rewrite HP. lia. }
    split; cbn [fst snd user_accessors user_mutating fault_lock]; rewrite !H0 by done; lia.
  - destruct Hst as [x ts i t t' x' Hi Hst|x ts i Hi|x ts i Hi]; cbn [snd] in *; rewrite length_insert; (split; [done|]).
    + apply (guard_run_inv x ts i t); try done. lia.
    + by apply (guard_start_inv x ts i).
    + by apply (guard_start_inv x ts i).
Qed.

(** C16: a walk of user memory and a change of the address space exclude each
    other.  In every interleaving of any number of threads, while one of them
    changes the address space between [vmm_space_mutation_begin] and
    [vmm_space_mutation_end], no thread walks it, waits for the fault lock or is
    about to leave the walk, and no other thread changes it; at most one thread
    at a time walks.  [user_accessors] is the number of threads it counts and
    is zero again when all of them have left. *)
Theorem space_walk_mutation_exclusive n x ts i j t u :
  Z.of_nat n < 2 ^ 32 -> reach n (x, ts) -> i <> j -> ts !! i = Some t -> ts !! j = Some u ->
  (mutating t = true -> inside u = false /\ mutating u = false) /\ (locked t = true -> locked u = false) /\
  user_accessors x = num counted ts /\ (user_mutating x = 0 <-> num marked ts = 0).
Proof.
  intros Hn Hr Hij Hi Hj. destruct (reach_inv n _ Hn Hr) as [_ [Ha [Hm Hm1] [Hl Hl1] He]]. cbn [fst snd] in *.
  split; [|split; [|split; [done|by rewrite Hm]]].
  - intros Ht. pose proof (num_pos mutating ts i t Hi Ht eq_refl) as H1. split.
    + destruct (inside u) eqn:Hu; [|done]. pose proof (num_pos inside ts j u Hj Hu eq_refl). lia.
    + destruct (mutating u) eqn:Hu; [|done]. assert (Hmt : forall t, mutating t = true -> marked t = true) by by intros [].
      pose proof (num_two marked ts i j t u Hij Hi Hj (Hmt t Ht) (Hmt u Hu) eq_refl). lia.
  - intros Ht. destruct (locked u) eqn:Hu; [|done]. pose proof (num_two locked ts i j t u Hij Hi Hj Ht Hu eq_refl). lia.
Qed.

(** Run the given threads: [None] takes a step, [Some true] starts a walk and
    [Some false] a change. *)
Fixpoint run (l : list (nat * option bool)) (c : guards * list pc) : guards * list pc :=
  match l with
  | [] => c
  | (i, None) :: l => let '(t, x) := thread_step (aget Idle c.2 i) c.1 in run l (x, <[i := t]> c.2)
  | (i, Some w) :: l =>
      match c.2 !! i with Some Idle => run l (c.1, <[i := if w then WalkLoad else MutCas MUTATION_ATTEMPTS]> c.2) | _ => run l c end
  end.

Lemma run_reach n l c : reach n c -> Forall (fun e => (e.1 < n)%nat) l -> length c.2 = n -> reach n (run l c).
Proof.
  revert c. induction l as [|[i [w|]] l IH]; intros [x ts] Hr Hl Hlen; cbn [run fst snd] in *; [done| |]; apply Forall_cons in Hl as [Hi Hl]; cbn [fst] in Hi.
  - destruct (ts !! i) as [[]|] eqn:Ht; try by apply IH. apply IH; [|done|cbn [snd]; by rewrite length_insert].
    eapply reach_step; [done|]. destruct w; by constructor.
  - destruct (thread_step _ _) as [t' x'] eqn:Hst. apply IH; [|done|cbn [snd]; by rewrite length_insert]. eapply reach_step; [done|].
    destruct (lookup_lt_is_Some_2 ts i) as [t Ht]; [lia|]. unfold aget in Hst. rewrite Ht in Hst. by apply (step_run x ts i t).
Qed.

(** Thread 0 changes the space while thread 1 backs out of a walk. *)
Definition demo_run : list (nat * option bool) :=
  [(0%nat, Some false); (1%nat, Some true); (1%nat, None); (0%nat, None); (0%nat, None); (1%nat, None); (1%nat, None)].

Lemma space_walk_mutation_exclusive_witness :
  let c := run demo_run (mkGuards 0 0 0, replicate 2 Idle) in
  c.2 = [Mutating; WalkRetry] /\
  (mutating Mutating = true -> inside WalkRetry = false /\ mutating WalkRetry = false) /\
  (locked Mutating = true -> locked WalkRetry = false) /\
  user_accessors c.1 = num counted c.2 /\ (user_mutating c.1 = 0 <-> num marked c.2 = 0).
Proof.
  cbv zeta. split; [vm_compute; reflexivity|].
  apply (space_walk_mutation_exclusive 2 _ (run demo_run (mkGuards 0 0 0, replicate 2 Idle)).2 0 1 Mutating WalkRetry); try (vm_compute; reflexivity).
  - apply (run_reach 2 demo_run _ (reach_init 2)); [|done]. unfold demo_run. repeat constructor; cbn; lia.
  - lia.
Defined.
